(* ===== verification/_CoqProject ===== *)
-Q . S2P
Prelude.v
LimAid.v
DphHash.v
VosLock.v
CsrLinkList.v
HttRxDesc.v
Nbuf.v
RxPn.v
RxReorder.v
Defrag.v
DefragInv.v
DefragMic.v
DefragRun.v
DefragStore.v
DefragFrame.v
DefragProps.v
TxSched.v
TxSchedInv.v
TxSchedProps.v
Peers.v
PeersInv.v
PeersRun.v
PeersOps.v
PeersLife.v
PeersProps.v
CfgTable.v
Cfg.v
CfgInv.v
CfgDownload.v
CfgHost.v
CfgProps.v
LimAdmit.v
LimAdmitProps.v
CopyEngine.v
CopyEngineInv.v
CopyEngineProps.v
CopyEngineService.v
HtcSend.v
HtcInv.v
HtcSys.v
HtcRun.v
HtcProps.v
Pmc.v
PmcInv.v
PmcBusy.v
PmcLoop.v
PmcSteps.v
PmcDrive.v
PmcProps.v
