(* ===== verification/Prelude.v ===== *)
(** * A verification library for the qcacld-2.0 WLAN driver

    qcacld-2.0 is the Linux driver of Qualcomm 802.11 devices: [CORE/HDD] faces the kernel,
    [CORE/SME] manages sessions and scan results, [CORE/MAC] is the protocol engine (LIM, DPH,
    CFG), [CORE/SERVICES/WMA] talks to the firmware through WMI, HTC and HIF,
    [CORE/CLD_TXRX] is the data path with the HTT interface to the firmware, and [CORE/VOSS]
    wraps the operating system.  This library models components of the data path, of the
    protocol engine, of SME and of VOSS whose logic is the driver's own, function by function,
    and proves what makes them correct.  Paths below are relative to [src/CORE].

    ** How code is modelled

    A C function is a computation in the state monad [M] of this file: it reads and writes a
    record that has the structure's fields, and ends with a result or with [None], which is
    undefined behaviour (null or dangling pointer, index out of bounds) or a stop by a failed
    [adf_os_assert], which calls [BUG_ON].
    [runs m s Q] is total correctness, so every theorem stated with it says also that the
    function returns and is free of undefined behaviour.  A loop is [miter] with fuel; running
    out of fuel is [None] as well, so that the fuel chosen in a definition is proved enough
    wherever [runs] is proved.  Machine integers are [Z] with the conversions [u8], [u16],
    [u32], [u64], [s32] where C converts.  Pointers to objects of a pool are natural numbers
    into a list or a finite map; lists that C links through their elements are modelled with
    their links where the links matter ([CsrLinkList]), else as lists of identifiers.
    Logging, tracing and statistics that nothing reads are left out; so are [A_ASSERT],
    [AR_DEBUG_ASSERT] and [VOS_ASSERT], which print and go on.  Locks are left out, except in
    [VosLock]: the models are of the code inside the critical sections.  Where threads meet
    between critical sections, as in [HtcSys], the sections are the steps of a system whose
    schedule is any list of steps, also where a function frees the lock half way
    ([HTCLookupTxPacket]).  In [VosLock] the steps are the single accesses.

    Theorems over sequences of operations say for which operations: their callers' discipline is
    a predicate ([allowed], [ops_ok], [op_ok], [tab_ops_ok], [step_ok], [ops_pre]) that the
    comment of the theorem spells out, and what happens outside of it is a theorem of its own
    where the code goes wrong there.

    ** Files and the code they model

    - [Prelude]: integers, arrays, the monad, its logic and the step tactic [mstep].
    - [LimAid]: the pool of association identifiers, [MAC/src/pe/lim/limAIDmgmt.c].
    - [DphHash]: the hash table of stations, [MAC/src/dph/dphHashTable.c].
    - [VosLock]: the recursive mutex, [VOSS/src/vos_lock.c]; threads interleave between any two
      accesses to the lock.
    - [CsrLinkList]: the doubly linked lists of SME, [SME/src/csr/csrLinkList.c].
    - [HttRxDesc]: the rx descriptor accessors of [CLD_TXRX/HTT/htt_rx.c], for both formats,
      behind the class [RxDescOps].
    - [Nbuf]: the network buffers the rx path uses: a store of buffers linked into lists.
    - [RxPn]: the packet number check, [CLD_TXRX/TXRX/ol_rx_pn.c], over [RxDescOps] and [Nbuf].
    - [RxReorder]: block-ack reordering, [CLD_TXRX/TXRX/ol_rx_reorder.c], over [Nbuf]; the next
      stage of the rx path is a parameter.
    - [Defrag]: defragmentation, [CLD_TXRX/TXRX/ol_rx_defrag.c], over [Nbuf], [RxPn] and the
      records of [RxReorder]; [DefragInv] the lists of buffers and the MIC, [DefragMic] Michael
      by arithmetic alone and that the driver computes it, [DefragRun] what is made of a complete
      list, [DefragStore] how fragments collect and time out, [DefragFrame] a frame as it was sent
      and what the header conversions make of it, [DefragProps] the theorems.
    - [TxSched]: the tx queues and the weighted scheduler, [CLD_TXRX/TXRX/ol_tx_queue.c],
      [ol_tx_sched.c], [ol_tx_send.c]; [TxSchedInv] their invariant and the specification of
      every operation, [TxSchedProps] the theorems over sequences of operations.
    - [Peers]: the peers and virtual devices of the data path, with their reference counts,
      hash table, id map and local ids, [CLD_TXRX/TXRX/ol_txrx_peer_find.c] and [ol_txrx.c];
      [PeersInv] the abstract state (a list of peers with their claims) and what a device that
      represents it looks like, [PeersRun], [PeersOps] and [PeersLife] the specifications of
      deletion, of the look-ups and the firmware's messages, and of attach and detach,
      [PeersProps] the theorems over sequences of operations.
    - [CfgTable], [Cfg]: the table of configuration parameters and the store,
      [MAC/src/cfg/cfgProcMsg.c] and [cfgApi.c]; [CfgInv] relates the store to a list of
      abstract parameters, [CfgDownload] loads the table, [CfgHost] the messages of the host,
      [CfgProps] the theorems.
    - [LimAdmit]: admission control for traffic streams, [MAC/src/pe/lim/limAdmitControl.c],
      over the stations of [DphHash] and the policy of [Cfg]; [LimAdmitProps] the specification
      of every function and the theorems.
    - [CopyEngine]: the descriptor rings shared with the device,
      [SERVICES/HIF/PCIe/copy_engine.c]; [CopyEngineInv] has the steps of the device and
      relates the rings to queues, [CopyEngineProps] the theorems; [CopyEngineService] the loop that
      services an engine, with callbacks that send, post and force a break and a device that goes
      on meanwhile.
    - [HtcSend]: sending with credits, completions and trailers of the transport to the
      target, [SERVICES/HTC/htc_send.c] with parts of [htc_recv.c], [htc.c], [htc_services.c];
      [HtcInv] the specification of every function, [HtcSys] the interleavings of the threads
      as a step function with its invariants, [HtcRun] that the functions are sequences of
      those steps, [HtcProps] the theorems.

    - [Pmc]: power save of a station that the firmware carries out, [SME/src/pmc/pmc.c] and
      [pmcApi.c] from [pmcOffload] on, the queue of SME commands it works through,
      [SME/src/sme_common/sme_Api.c], what they use of [csrApiRoam.c], and the side of the
      protocol engine, [MAC/src/pe/pmm/pmmApi.c].  The state has the sessions ([pmc]), the
      queues of commands ([sme]), the sessions of the protocol engine ([pmm]) and a mailbox per
      direction; [step] has one constructor per request, timer, message and answer.  [PmcInv],
      [PmcBusy] and [PmcLoop] the invariant for the functions that queue commands, for those
      that run while a command is active, and for the loop over the commands; [PmcSteps] and
      [PmcDrive] that every step of the driver keeps it, [PmcProps] the theorems.

    The data path files stack: the descriptors feed the packet number check, which is an
    action of the reorder buffer and a stage of defragmentation.  Admission control asks the
    station table and the configuration store; its proofs use what [DphHash] and [CfgInv] show of
    them.  The others are independent of each other, as their code is.

    ** What the theorems show

    - Refinement: the station hash table is a finite map ([DphHash]), the linked lists are
      mathematical lists ([CsrLinkList]), the configuration store is a set of independent
      parameters ([CfgProps]), the rings of a copy engine are bounded queues
      ([CopyEngineProps]), a trailer is the list of its records ([HtcProps]), the MIC is Michael
      ([DefragProps], [DefragMic] with the standard's test vectors), the peers of the data path are a list of peers
      that live as long as they are claimed ([PeersProps]), the table of traffic streams is a
      finite map with room for 15 ([LimAdmitProps]), the protocol engine has power save for a
      session exactly when SME says so ([PmcProps]), for sequences of operations that keep their
      discipline, and any steps of the device.
    - Round trip: what a sender cuts into fragments and protects arrives whole, or is dropped for
      a stated reason ([DefragProps]).
    - Invariants and conservation: no frame is lost, duplicated or reordered within its queue
      and no credit appears or vanishes, along any sequence of allowed operations on the tx queues
      and any interleaving of the threads that send through HTC;
      the mutex excludes; identifiers are not given out twice; the commands of power save, the
      states of the sessions and the messages under way belong together, and no command buffer
      is lost.
    - Bounds: the streams of a session that are admitted never ask for more than the bandwidth of
      the policy, whoever joins, leaves, asks and is answered; a batch of the tx scheduler stays within its
      limits.
    - Functional behaviour of each operation, on the error branches too: release and flush of
      the reorder buffer, the replay filter, descriptors read back, the download of the
      configuration table, the messages of the host.
    - Liveness and termination: the scheduler is work conserving and its loops end; no
      wake-up of a sender is lost; an engine
      is serviced in at most 41 rounds, whatever the callbacks send and post, and to the end unless
      the break is forced; a virtual device goes with
      its last peer; the searches through received bytes end and stay in bounds.
    - Errors of the code: theorems that show what goes wrong, and on which input (frames
      dropped by a release from an empty slot, a paused queue that is scheduled after it was
      freed, a reference dropped without the test for the last, peers that share an address,
      a fragment put into the wrong place, a stream overwritten by the update of another, a
      division by a rate below 1 Mbit/s, a dropped request for U-APSD that blocks SME and one that
      is never made, strings the host cannot read back, a transfer reported that was not sent, and
      others).

    ** Bounds and fuel

    Loops over an array or a window have one unit of fuel more than the longest run of the
    counter; loops over linked lists or queues have fuel from the number of objects.  Each
    is proved enough with the function it belongs to.  Sizes that the build fixes (the
    number of parameters and buffers of the configuration store, of peers, of TIDs, of
    categories) are those of the high-latency build of the driver.  The sizes of the rings
    are any up to 2^30.  The loop over the commands of SME has fuel for the commands that wait
    and the answers of [luck] that are left ([process_queue]): each round uses up some of these.
    That the answers are finitely many is the assumption that the rest of the driver does not
    refuse for ever; the code would retry without bound.  The messages of the configuration to the
    host have a list of answers of the allocator ([allocs]), failures among them.

    ** Not modelled

    Generated code ([dot11f.c], WMI tables), the Linux side ([HDD]), bus drivers and firmware
    download, sockets and logs have no logic that could be stated apart from the code they
    call.  The management state machines of LIM, the roaming and scan machines of SME, the SAP
    state machine, WMA, DFS, the regulatory domain and tx descriptors
    do, and are the continuation of this library.  The round robin tx
    scheduler is not compiled.  Of power save, what the code does without the firmware's help,
    wake on wireless LAN beyond its requests (the theorems on sequences leave these out too), the
    timer of the active commands, and the execution of the commands of other modules
    (they stay active until the step [Complete]) are left out. *)

From stdpp Require Export prelude list gmap sorting.
From Stdlib Require Export ZArith Lia.

#[global] Open Scope Z_scope.
#[global] Set Default Goal Selector "!".

(** ** Machine integers

    The C code computes in fixed-width unsigned integers.  A value of type
    [u_int8_t], [u_int16_t], ... is a [Z]; the conversion to the type is the
    explicit wrap-around below, written where C performs the conversion. *)

Definition u8 (x : Z) : Z := x mod 2 ^ 8.
Definition u16 (x : Z) : Z := x mod 2 ^ 16.
Definition u32 (x : Z) : Z := x mod 2 ^ 32.
Definition u64 (x : Z) : Z := x mod 2 ^ 64.

(** Conversion to a 32-bit signed [int]. *)
Definition s32 (x : Z) : Z := (x + 2 ^ 31) mod 2 ^ 32 - 2 ^ 31.

Lemma u8_range x : 0 <= u8 x < 256.
Proof. apply Z.mod_pos_bound; lia. Qed.
Lemma u16_range x : 0 <= u16 x < 65536.
Proof. apply Z.mod_pos_bound; lia. Qed.
Lemma u32_range x : 0 <= u32 x < 4294967296.
Proof. apply (Z.mod_pos_bound x (2 ^ 32)); lia. Qed.
Lemma u64_range x : 0 <= u64 x < 2 ^ 64.
Proof. apply Z.mod_pos_bound; lia. Qed.
Lemma s32_range x : - 2 ^ 31 <= s32 x < 2 ^ 31.
Proof. unfold s32. pose proof (Z.mod_pos_bound (x + 2 ^ 31) (2 ^ 32)); lia. Qed.

Lemma u8_small x : 0 <= x < 256 -> u8 x = x.
Proof. apply Z.mod_small. Qed.
Lemma u16_small x : 0 <= x < 65536 -> u16 x = x.
Proof. apply Z.mod_small. Qed.
Lemma u32_small x : 0 <= x < 4294967296 -> u32 x = x.
Proof. apply (Z.mod_small x (2 ^ 32)). Qed.
Lemma u64_small x : 0 <= x < 2 ^ 64 -> u64 x = x.
Proof. apply Z.mod_small. Qed.
Lemma s32_small x : - 2 ^ 31 <= x < 2 ^ 31 -> s32 x = x.
Proof. intros. unfold s32. rewrite Z.mod_small; lia. Qed.

(** [x & (2^n - 1)] is [x mod 2^n]: how every ring index of the driver wraps. *)
Lemma land_mask x n : 0 <= n -> Z.land x (2 ^ n - 1) = x mod 2 ^ n.
Proof.
  intros. rewrite <- Z.land_ones by lia. f_equal. rewrite Z.ones_equiv. lia.
Qed.

(** ** Arrays

    A C array is a list; an access outside it is undefined behaviour, which the
    model makes visible as [None]. *)

Section Arrays.
Context {A : Type}.

Definition aget (l : list A) (i : Z) : option A :=
  if decide (0 <= i) then l !! Z.to_nat i else None.

Definition aset (l : list A) (i : Z) (v : A) : option (list A) :=
  if decide (0 <= i < Z.of_nat (length l)) then Some (<[Z.to_nat i := v]> l)
  else None.

Lemma aget_Some_range l i v :
  aget l i = Some v -> 0 <= i < Z.of_nat (length l).
Proof.
  unfold aget. case_decide; [|done]. intros Hl%lookup_lt_Some. lia.
Qed.

Lemma aget_is_Some l i :
  0 <= i < Z.of_nat (length l) -> exists v, aget l i = Some v.
Proof.
  intros. unfold aget. rewrite decide_True by lia.
  destruct (lookup_lt_is_Some_2 l (Z.to_nat i)) as [v Hv]; [lia|]. eauto.
Qed.

Lemma aset_Some l i v :
  0 <= i < Z.of_nat (length l) -> aset l i v = Some (<[Z.to_nat i := v]> l).
Proof. intros. unfold aset. by rewrite decide_True. Qed.

Lemma aset_inv l i v l' :
  aset l i v = Some l' ->
  0 <= i < Z.of_nat (length l) /\ l' = <[Z.to_nat i := v]> l.
Proof. unfold aset. case_decide as Hr; [|done]. by intros [= <-]. Qed.

Lemma length_aset l i v l' : aset l i v = Some l' -> length l' = length l.
Proof. intros [_ ->]%aset_inv. apply length_insert. Qed.

Lemma aget_aset_eq l i v l' : aset l i v = Some l' -> aget l' i = Some v.
Proof.
  intros [? ->]%aset_inv. unfold aget. rewrite decide_True by lia.
  apply list_lookup_insert_eq. lia.
Qed.

Lemma aget_aset_ne l i j v l' :
  i <> j -> aset l i v = Some l' -> aget l' j = aget l j.
Proof.
  intros Hne [? ->]%aset_inv. unfold aget. case_decide; [|done].
  apply list_lookup_insert_ne. lia.
Qed.

Lemma aget_insert_eq l i v :
  0 <= i < Z.of_nat (length l) -> aget (<[Z.to_nat i := v]> l) i = Some v.
Proof. intros. by eapply aget_aset_eq, aset_Some. Qed.

Lemma aget_insert_ne l i j v :
  0 <= i -> i <> j -> aget (<[Z.to_nat i := v]> l) j = aget l j.
Proof.
  intros. unfold aget. case_decide; [|done]. apply list_lookup_insert_ne. lia.
Qed.

Lemma aget_lookup l i : 0 <= i -> aget l i = l !! Z.to_nat i.
Proof. intros. unfold aget. by rewrite decide_True. Qed.

Lemma aget_nat l (i : nat) : aget l (Z.of_nat i) = l !! i.
Proof. rewrite aget_lookup by lia. by rewrite Nat2Z.id. Qed.
End Arrays.

(** *** Writing at a place and from a place on *)

Definition upd {A} (l : list A) (i : Z) (v : A) : list A := <[Z.to_nat i := v]> l.
Fixpoint write_at {A} (l : list A) (i : Z) (vs : list A) : list A :=
  match vs with
  | [] => l
  | v :: vs => write_at (upd l i v) (i + 1) vs
  end.

Section Upd.
Context {A : Type}.
Implicit Types l vs : list A.

Lemma aset_upd l i v : 0 <= i < Z.of_nat (length l) -> aset l i v = Some (upd l i v).
Proof. apply aset_Some. Qed.
Lemma length_upd l i v : length (upd l i v) = length l.
Proof. apply length_insert. Qed.
Lemma length_write_at vs l i : length (write_at l i vs) = length l.
Proof. revert l i. induction vs as [|v vs IH]; intros; cbn; [done|]. by rewrite IH, length_upd. Qed.

Lemma aget_upd l i v k :
  0 <= i < Z.of_nat (length l) -> aget (upd l i v) k = if decide (k = i) then Some v else aget l k.
Proof.
  intros Hi. unfold upd. case_decide as Hk; [subst; by apply aget_insert_eq|apply aget_insert_ne; lia].
Qed.

Lemma aget_write_at vs l i k :
  0 <= i -> i + Z.of_nat (length vs) <= Z.of_nat (length l) ->
  aget (write_at l i vs) k = if decide (i <= k < i + Z.of_nat (length vs)) then aget vs (k - i) else aget l k.
Proof.
  revert l i. induction vs as [|v vs IH]; intros l i Hi Hlen; cbn [write_at length] in *.
  { rewrite decide_False by lia. done. }
  rewrite IH by (rewrite ?length_upd; lia). rewrite aget_upd by lia.
  destruct (decide (k = i)) as [->|Hne].
  - rewrite decide_False by lia. rewrite decide_True by lia. by rewrite Z.sub_diag.
  - destruct (decide (i + 1 <= k < i + 1 + Z.of_nat (length vs))).
    + rewrite decide_True by lia. rewrite !aget_lookup by lia.
      replace (Z.to_nat (k - i)) with (Datatypes.S (Z.to_nat (k - (i + 1)))) by lia. done.
    + rewrite decide_False by lia. done.
Qed.

Lemma write_at_snoc vs l i v : 0 <= i -> write_at l i (vs ++ [v]) = upd (write_at l i vs) (i + Z.of_nat (length vs)) v.
Proof.
  revert l i. induction vs as [|w vs IH]; intros l i Hi; cbn; [by rewrite Z.add_0_r|].
  rewrite IH by lia. f_equal. lia.
Qed.
End Upd.

Lemma aget_length_eq {A} (l : list A) : forall i, is_Some (aget l i) <-> 0 <= i < Z.of_nat (length l).
Proof. intros i. split; [intros [v Hv]; by eapply aget_Some_range|]. intros (v & Hv)%aget_is_Some. eauto. Qed.

Lemma list_eq_aget {A} (l l' : list A) :
  length l = length l' -> (forall k, 0 <= k < Z.of_nat (length l) -> aget l k = aget l' k) -> l = l'.
Proof.
  intros Hlen H. apply list_eq. intros i. destruct (decide (i < length l)%nat).
  - rewrite <- !aget_nat. apply H. lia.
  - by rewrite !lookup_ge_None_2 by lia.
Qed.

Lemma seqZ_snoc m n : 0 <= n -> seqZ m (n + 1) = seqZ m n ++ [m + n].
Proof.
  intros. rewrite seqZ_app by lia. by rewrite (seqZ_cons (m + n) 1) by lia.
Qed.

Lemma filter_all {A} (P : A -> Prop) `{!forall x, Decision (P x)} (l : list A) : (forall x, x ∈ l -> P x) -> filter P l = l.
Proof.
  induction l as [|y l IH]; intros Hx; [done|]. rewrite filter_cons, decide_True, IH by set_solver. done.
Qed.

Lemma elem_of_concat {A} (x : A) ls : x ∈ concat ls <-> exists l, x ∈ l /\ l ∈ ls.
Proof.
  induction ls as [|l ls IH]; cbn; [set_solver|]. rewrite elem_of_app, IH. set_solver.
Qed.

(** ** A state monad for C functions

    [M S A] is a C function that reads and writes the state [S] and returns an
    [A]; [None] is undefined behaviour: a null or dangling pointer, an index out
    of bounds, a failed assertion, or a loop that used up its fuel. *)

Definition M (S A : Type) : Type := S -> option (A * S).

Section Monad.
Context {S : Type}.
Definition mreturn {A} (a : A) : M S A := fun s => Some (a, s).
Definition mbnd {A B} (m : M S A) (k : A -> M S B) : M S B :=
  fun s => match m s with Some (a, s') => k a s' | None => None end.
Definition mget : M S S := fun s => Some (s, s).
Definition gets {A} (f : S -> A) : M S A := fun s => Some (f s, s).
Definition modify (f : S -> S) : M S unit := fun s => Some (tt, f s).
Definition undefined {A} : M S A := fun _ => None.
(** An option whose [None] is undefined behaviour. *)
Definition oget {A} (o : option A) : M S A := fun s => (fun a => (a, s)) <$> o.
(** A C [assert]. *)
Definition massert (b : bool) : M S unit := fun s => if b then Some (tt, s) else None.

(** [while]/[do] loops over the locals [L]: the body says [inl] to go round
    again with new locals, [inr] to leave the loop with a result. *)
Fixpoint miter {L B} (fuel : nat) (body : L -> M S (L + B)) (l : L) : M S B :=
  match fuel with
  | O => undefined
  | Datatypes.S f =>
      mbnd (body l) (fun r =>
        match r with inl l' => miter f body l' | inr b => mreturn b end)
  end.

(** [for] over the values a counter takes. *)
Fixpoint mfor (idxs : list Z) (body : Z -> M S unit) : M S unit :=
  match idxs with
  | [] => mreturn tt
  | i :: idxs => mbnd (body i) (fun _ => mfor idxs body)
  end.
End Monad.

Declare Scope c_scope.
Delimit Scope c_scope with c.
Notation "x <- m ;; k" := (mbnd m (fun x => k))
  (at level 100, m at next level, right associativity) : c_scope.
Notation "m ;; k" := (mbnd m (fun _ => k))
  (at level 100, right associativity) : c_scope.

(** *** Total correctness

    [runs m s Q]: from [s], [m] has no undefined behaviour, returns, and its
    result and final state satisfy [Q]. *)
Definition runs {S A} (m : M S A) (s : S) (Q : A -> S -> Prop) : Prop :=
  match m s with Some (a, s') => Q a s' | None => False end.

Create HintDb qca.

Section Runs.
Context {S : Type}.
Implicit Types s : S.

Lemma runs_mono {A} (m : M S A) s (Q Q' : A -> S -> Prop) :
  runs m s Q -> (forall a s', Q a s' -> Q' a s') -> runs m s Q'.
Proof. unfold runs. destruct (m s) as [[]|]; eauto. Qed.

#[global] Instance runs_proper {A} (m : M S A) s :
  Proper (pointwise_relation A (pointwise_relation S impl) ==> impl) (runs m s).
Proof. intros Q Q' HQ Hr. eapply runs_mono; [done|]. intros a s'. apply HQ. Qed.

Lemma runs_ret {A} (a : A) s (Q : A -> S -> Prop) : Q a s -> runs (mreturn a) s Q.
Proof. done. Qed.

Lemma runs_bnd {A B} (m : M S A) (k : A -> M S B) s Q :
  runs m s (fun a s' => runs (k a) s' Q) -> runs (mbnd m k) s Q.
Proof. unfold runs, mbnd. destruct (m s) as [[]|]; done. Qed.

(** The rule of consequence for the first of two computations *)
Lemma runs_then {A B} (m : M S A) (k : A -> M S B) s (P : A -> S -> Prop) Q :
  runs m s P -> (forall a s', P a s' -> runs (k a) s' Q) -> runs (mbnd m k) s Q.
Proof. intros H Hk. apply runs_bnd. by eapply runs_mono. Qed.

Lemma runs_bnd_inv {A B} (m : M S A) (k : A -> M S B) s Q :
  runs (mbnd m k) s Q -> runs m s (fun a s' => runs (k a) s' Q).
Proof. unfold runs, mbnd. destruct (m s) as [[]|]; done. Qed.

Lemma runs_elim {A} (m : M S A) s Q :
  runs m s Q -> exists a s', m s = Some (a, s') /\ Q a s'.
Proof. unfold runs. destruct (m s) as [[a s']|]; naive_solver. Qed.

Lemma runs_result {A} (m : M S A) s Q a s' :
  runs m s Q -> m s = Some (a, s') -> Q a s'.
Proof. unfold runs. intros H Heq. by rewrite Heq in H. Qed.

Lemma runs_is_Some {A} (m : M S A) s Q : runs m s Q -> is_Some (m s).
Proof. unfold runs. by destruct (m s). Qed.

Lemma runs_intro {A} (m : M S A) s a s' (Q : A -> S -> Prop) :
  m s = Some (a, s') -> Q a s' -> runs m s Q.
Proof. unfold runs. by intros ->. Qed.

Lemma runs_and {A} (m : M S A) s Q1 Q2 :
  runs m s Q1 -> runs m s Q2 -> runs m s (fun a s' => Q1 a s' /\ Q2 a s').
Proof. unfold runs. destruct (m s) as [[]|]; done. Qed.

Lemma runs_gets {A} (f : S -> A) s (Q : A -> S -> Prop) :
  Q (f s) s -> runs (gets f) s Q.
Proof. done. Qed.
Lemma runs_mget s (Q : S -> S -> Prop) : Q s s -> runs mget s Q.
Proof. done. Qed.
Lemma runs_modify (f : S -> S) s (Q : unit -> S -> Prop) :
  Q tt (f s) -> runs (modify f) s Q.
Proof. done. Qed.
Lemma runs_oget {A} (o : option A) a s (Q : A -> S -> Prop) :
  o = Some a -> Q a s -> runs (oget o) s Q.
Proof. by intros ->. Qed.
Lemma runs_massert b s (Q : unit -> S -> Prop) :
  b = true -> Q tt s -> runs (massert b) s Q.
Proof. by intros ->. Qed.

(** Loop rule: an invariant on the locals and the state, and a measure. *)
Lemma runs_miter {L B} (I : L -> S -> Prop) (mu : L -> S -> nat)
    (Q : B -> S -> Prop) (body : L -> M S (L + B)) fuel l s :
  (forall l s, I l s -> runs (body l) s (fun r s' =>
     match r with
     | inl l' => I l' s' /\ (mu l' s' < mu l s)%nat
     | inr b => Q b s'
     end)) ->
  I l s -> (mu l s < fuel)%nat -> runs (miter fuel body l) s Q.
Proof.
  intros Hbody. revert l s. induction fuel as [|fuel IH]; intros l s HI Hmu; [lia|].
  cbn [miter]. apply runs_bnd. eapply runs_mono; [by apply Hbody|].
  intros [l'|b] s'; cbn; [|done]. intros [HI' Hlt]. apply IH; [done|lia].
Qed.

(** Counter rule: the invariant speaks of the counter values already done. *)
Lemma runs_mfor (I : list Z -> S -> Prop) idxs body s :
  (forall done i todo s, idxs = done ++ i :: todo -> I done s ->
     runs (body i) s (fun _ s' => I (done ++ [i]) s')) ->
  I [] s -> runs (mfor idxs body) s (fun _ s' => I idxs s').
Proof.
  intros Hbody HI.
  enough (H : forall todo done s, idxs = done ++ todo -> I done s ->
    runs (mfor todo body) s (fun _ s' => I idxs s')) by (by apply (H idxs [] s)).
  clear HI s. induction todo as [|i todo IH]; intros dn s Heq HI; cbn.
  - apply runs_ret. by rewrite Heq, app_nil_r.
  - apply runs_bnd. eapply runs_mono; [exact (Hbody _ _ _ _ Heq HI)|].
    intros [] s' HI'. apply IH with (dn ++ [i]); [|done].
    by rewrite <- app_assoc.
Qed.
End Runs.

(** One step of a monadic program in a [runs] goal. *)
Ltac mstep :=
  lazymatch goal with
  | |- runs (mbnd _ _) _ _ => apply runs_bnd
  | |- runs (mreturn _) _ _ => apply runs_ret
  | |- runs (gets _) _ _ => apply runs_gets
  | |- runs mget _ _ => apply runs_mget
  | |- runs (modify _) _ _ => apply runs_modify
  | |- runs (oget _) _ _ => eapply runs_oget; [solve [eauto with qca]|]
  | |- runs (massert _) _ _ => eapply runs_massert; [solve [eauto with qca]|]
  end; cbn beta iota.
Ltac msteps := repeat mstep.

(** Closed arithmetic facts, by evaluation. *)
Ltac zcompute := vm_compute; repeat split; (discriminate || reflexivity || done).

#[export] Hint Resolve u8_range u16_range u32_range : qca.
