(* ===== verification/LimAid.v ===== *)
(** * Peer index (association id) pool of the LIM

    Models [CORE/MAC/src/pe/lim/limAIDmgmt.c] and the station count of
    [limSessionUtils.c].  A session keeps its free peer indices as a singly
    linked list threaded through the byte array [gpLimPeerIdxpool].  The theorems
    show that this array implements a FIFO queue, and that over any sequence of
    assignments and releases no index is ever handed out twice. *)

From S2P Require Import Prelude.

Local Open Scope c_scope.

(** ** Data: the fields of [tPESession] and [tAniSirGlobal] these functions use *)

Inductive tLimSystemRole :=
  | eLIM_UNKNOWN_ROLE | eLIM_AP_ROLE | eLIM_STA_IN_IBSS_ROLE | eLIM_STA_ROLE
  | eLIM_BT_AMP_STA_ROLE | eLIM_BT_AMP_AP_ROLE | eLIM_P2P_DEVICE_ROLE
  | eLIM_P2P_DEVICE_GO | eLIM_P2P_DEVICE_CLIENT | eLIM_NDI_ROLE.

Inductive tVOS_CON_MODE :=
  | VOS_STA_MODE | VOS_STA_SAP_MODE | VOS_P2P_CLIENT_MODE | VOS_P2P_GO_MODE
  | VOS_MONITOR_MODE | VOS_FTM_MODE | VOS_IBSS_MODE | VOS_P2P_DEVICE_MODE
  | VOS_OCB_MODE | VOS_NDI_MODE | VOS_MAX_NO_OF_MODE.

#[export] Instance tLimSystemRole_eqdec : EqDecision tLimSystemRole.
Proof. solve_decision. Defined.
#[export] Instance tVOS_CON_MODE_eqdec : EqDecision tVOS_CON_MODE.
Proof. solve_decision. Defined.

Record tPESession := {
  valid : bool;
  limSystemRole : tLimSystemRole;
  pePersona : tVOS_CON_MODE;
  gpLimPeerIdxpool : list Z;      (* tANI_U8 [maxStation + 1] *)
  freePeerIdxHead : Z;            (* tANI_U8 *)
  freePeerIdxTail : Z;            (* tANI_U8 *)
  gLimNumOfCurrentSTAs : Z        (* tANI_U16 *)
}.

Record tAniSirGlobal := {
  maxStation : Z;                 (* tANI_U16 *)
  maxBssId : Z;                   (* tANI_U16 *)
  gLimAssocStaLimit : Z;          (* tANI_U16 *)
  glim_assoc_sta_limit_ap : Z;    (* uint16_t *)
  glim_assoc_sta_limit_go : Z;    (* uint16_t *)
  gpSession : list tPESession
}.

Definition set_pool (v : list Z) (s : tPESession) : tPESession :=
  {| valid := valid s; limSystemRole := limSystemRole s; pePersona := pePersona s;
     gpLimPeerIdxpool := v; freePeerIdxHead := freePeerIdxHead s;
     freePeerIdxTail := freePeerIdxTail s;
     gLimNumOfCurrentSTAs := gLimNumOfCurrentSTAs s |}.
Definition set_freeHead (v : Z) (s : tPESession) : tPESession :=
  {| valid := valid s; limSystemRole := limSystemRole s; pePersona := pePersona s;
     gpLimPeerIdxpool := gpLimPeerIdxpool s; freePeerIdxHead := v;
     freePeerIdxTail := freePeerIdxTail s;
     gLimNumOfCurrentSTAs := gLimNumOfCurrentSTAs s |}.
Definition set_freeTail (v : Z) (s : tPESession) : tPESession :=
  {| valid := valid s; limSystemRole := limSystemRole s; pePersona := pePersona s;
     gpLimPeerIdxpool := gpLimPeerIdxpool s; freePeerIdxHead := freePeerIdxHead s;
     freePeerIdxTail := v; gLimNumOfCurrentSTAs := gLimNumOfCurrentSTAs s |}.
Definition set_numSTAs (v : Z) (s : tPESession) : tPESession :=
  {| valid := valid s; limSystemRole := limSystemRole s; pePersona := pePersona s;
     gpLimPeerIdxpool := gpLimPeerIdxpool s; freePeerIdxHead := freePeerIdxHead s;
     freePeerIdxTail := freePeerIdxTail s; gLimNumOfCurrentSTAs := v |}.

Definition set_gpSession (v : list tPESession) (p : tAniSirGlobal) : tAniSirGlobal :=
  {| maxStation := maxStation p; maxBssId := maxBssId p;
     gLimAssocStaLimit := gLimAssocStaLimit p;
     glim_assoc_sta_limit_ap := glim_assoc_sta_limit_ap p;
     glim_assoc_sta_limit_go := glim_assoc_sta_limit_go p; gpSession := v |}.

Definition DPH_STA_HASH_INDEX_PEER : Z := 1.
Definition LIM_START_PEER_IDX : Z := 1.

(** A session pointer is its index in [gpSession]. *)
Definition session (sid : Z) : M tAniSirGlobal tPESession :=
  p <- mget ;; oget (aget (gpSession p) sid).

Definition upd_session (sid : Z) (s : tPESession) : M tAniSirGlobal unit :=
  p <- mget ;;
  l <- oget (aset (gpSession p) sid s) ;;
  modify (set_gpSession l).

(** [pSessionEntry->gpLimPeerIdxpool[i] = v] *)
Definition pool_write (sid i v : Z) : M tAniSirGlobal unit :=
  s <- session sid ;;
  l <- oget (aset (gpLimPeerIdxpool s) i v) ;;
  upd_session sid (set_pool l s).

(** [limInitPeerIdxpool] *)
Definition first_peer_idx (role : tLimSystemRole) : Z :=
  if decide (role = eLIM_STA_ROLE) then DPH_STA_HASH_INDEX_PEER + 1
  else if decide (role = eLIM_STA_IN_IBSS_ROLE) then LIM_START_PEER_IDX
  else LIM_START_PEER_IDX.

Definition limInitPeerIdxpool (sid : Z) : M tAniSirGlobal unit :=
  maxAssocSta <- gets (fun p => u8 (maxStation p)) ;;
  pool_write sid 0 0 ;;
  s <- session sid ;;
  let head := first_peer_idx (limSystemRole s) in
  upd_session sid (set_freeHead head s) ;;
  mfor (seqZ head (maxAssocSta - head)) (fun i => pool_write sid i (u8 (i + 1))) ;;
  let i := Z.max head maxAssocSta in
  pool_write sid i 0 ;;
  s <- session sid ;;
  upd_session sid (set_freeTail i s).

(** [peGetCurrentSTAsCount]: an 8-bit sum over the valid sessions.  The loop
    counter is a [tANI_U8] compared with the [tANI_U16] [maxBssId]: with 256 or
    more sessions it would wrap and never leave the loop. *)
Fixpoint sta_sum (sessions : list tPESession) (idxs : list Z) (staCount : Z) : option Z :=
  match idxs with
  | [] => Some staCount
  | i :: idxs =>
      s ← aget sessions i;
      sta_sum sessions idxs
        (if valid s then u8 (staCount + gLimNumOfCurrentSTAs s) else staCount)
  end.

Definition peGetCurrentSTAsCount (p : tAniSirGlobal) : option Z :=
  if decide (maxBssId p < 256) then sta_sum (gpSession p) (seqZ 0 (maxBssId p)) 0
  else None.

(** [limAssignPeerIdx] *)
Definition limAssignPeerIdx (sid : Z) : M tAniSirGlobal Z :=
  p <- mget ;;
  s <- session sid ;;
  let max_peer :=
    if decide (pePersona s = VOS_STA_SAP_MODE) then u8 (glim_assoc_sta_limit_ap p)
    else if decide (pePersona s = VOS_P2P_GO_MODE) then u8 (glim_assoc_sta_limit_go p)
    else 0 in
  count <- oget (peGetCurrentSTAsCount p) ;;
  if (gLimAssocStaLimit p <=? count)
     || (negb (max_peer =? 0) && (max_peer <=? gLimNumOfCurrentSTAs s))
  then mreturn 0
  else if negb (freePeerIdxHead s =? 0) then
    let peerId := freePeerIdxHead s in
    nxt <- oget (aget (gpLimPeerIdxpool s) peerId) ;;
    let s1 := set_freeHead nxt s in
    let s2 := if nxt =? 0 then set_freeTail 0 s1 else s1 in
    upd_session sid (set_numSTAs (u16 (gLimNumOfCurrentSTAs s + 1)) s2) ;;
    mreturn peerId
  else mreturn 0.

(** [limReleasePeerIdx] *)
Definition limReleasePeerIdx (peerIdx sid : Z) : M tAniSirGlobal unit :=
  s <- session sid ;;
  let s := set_numSTAs (u16 (gLimNumOfCurrentSTAs s - 1)) s in
  if negb (freePeerIdxTail s =? 0) then
    l <- oget (aset (gpLimPeerIdxpool s) (freePeerIdxTail s) (u8 peerIdx)) ;;
    upd_session sid (set_freeTail (u8 peerIdx) (set_pool l s)) ;;
    pool_write sid (u8 peerIdx) 0
  else
    upd_session sid (set_freeTail (u8 peerIdx) (set_freeHead (u8 peerIdx) s)) ;;
    pool_write sid (u8 peerIdx) 0.

(** ** The abstract queue *)

(** [plink pool l]: following [pool] from the head of [l] visits [l], then 0. *)
Fixpoint plink (pool : list Z) (l : list Z) : Prop :=
  match l with
  | [] => True
  | x :: tl => aget pool x = Some (default 0 (head tl)) /\ plink pool tl
  end.

(** The session's array represents the free queue [l]. *)
Record queue_rep (s : tPESession) (l : list Z) : Prop := {
  qr_head : freePeerIdxHead s = default 0 (head l);
  qr_tail : freePeerIdxTail s = default 0 (last l);
  qr_link : plink (gpLimPeerIdxpool s) l;
  qr_nodup : NoDup l;
  qr_range : Forall (fun x => 0 < x < 256) l
}.

(** Ghost state of a session: the free queue and the indices handed out. *)
Record pool_inv (sid lo hi : Z) (free held : list Z) (p : tAniSirGlobal) : Prop := {
  pi_session : exists s, aget (gpSession p) sid = Some s /\ queue_rep s free
    /\ gLimNumOfCurrentSTAs s = Z.of_nat (length held)
    /\ Z.of_nat (length (gpLimPeerIdxpool s)) = hi + 1;
  pi_perm : free ++ held ≡ₚ seqZ lo (hi - lo + 1);
  pi_bounds : 0 < lo <= hi /\ hi < 256;
  pi_sessions : 0 <= maxBssId p <= Z.of_nat (length (gpSession p)) /\ maxBssId p < 256
}.

(** ** Lemmas on sessions and the pool *)

(** [with_session sid s p]: [p] with the session [sid] replaced by [s]. *)
Definition with_session (sid : Z) (s : tPESession) (p : tAniSirGlobal) : tAniSirGlobal :=
  set_gpSession (<[Z.to_nat sid := s]> (gpSession p)) p.

Lemma runs_session sid p s Q :
  aget (gpSession p) sid = Some s -> Q s p -> runs (session sid) p Q.
Proof. intros Hs HQ. unfold session. by msteps. Qed.

Lemma runs_upd_session sid s p (Q : unit -> tAniSirGlobal -> Prop) :
  0 <= sid < Z.of_nat (length (gpSession p)) ->
  Q tt (with_session sid s p) ->
  runs (upd_session sid s) p Q.
Proof.
  intros Hs HQ. unfold upd_session. msteps.
  eapply runs_oget; [by apply aset_Some|]. by mstep.
Qed.

Lemma with_session_get sid s p :
  0 <= sid < Z.of_nat (length (gpSession p)) ->
  aget (gpSession (with_session sid s p)) sid = Some s.
Proof.
  intros. unfold with_session, set_gpSession; simpl.
  by apply aget_insert_eq.
Qed.

Lemma with_session_length sid s p :
  length (gpSession (with_session sid s p)) = length (gpSession p).
Proof. apply length_insert. Qed.

Lemma with_session_twice sid s s' p :
  with_session sid s (with_session sid s' p) = with_session sid s p.
Proof.
  unfold with_session, set_gpSession; simpl. f_equal. apply list_insert_insert_eq.
Qed.

Lemma runs_pool_write sid i v p s (Q : unit -> tAniSirGlobal -> Prop) :
  aget (gpSession p) sid = Some s ->
  0 <= i < Z.of_nat (length (gpLimPeerIdxpool s)) ->
  Q tt (with_session sid (set_pool (<[Z.to_nat i := v]> (gpLimPeerIdxpool s)) s) p) ->
  runs (pool_write sid i v) p Q.
Proof.
  intros Hs Hi HQ. unfold pool_write. mstep. eapply runs_session; [done|].
  mstep. eapply runs_oget; [by apply aset_Some|].
  apply runs_upd_session; [by eapply aget_Some_range|done].
Qed.

(** The whole count is the 8-bit sum of the sessions' counts. *)
Definition total_stas (l : list tPESession) : Z :=
  foldr (fun s n => (if valid s then gLimNumOfCurrentSTAs s else 0) + n) 0 l.

Lemma sta_sum_spec l pre rest acc :
  0 <= acc < 256 -> pre ++ rest = l ->
  sta_sum l (seqZ (Z.of_nat (length pre)) (Z.of_nat (length rest))) acc
  = Some ((acc + total_stas rest) mod 256).
Proof.
  revert pre acc. induction rest as [|s rest IH]; intros pre acc Hacc <-.
  - simpl. f_equal. rewrite Z.add_0_r, Z.mod_small; lia.
  - rewrite seqZ_cons by (cbn; lia). cbn [sta_sum].
    rewrite aget_nat, lookup_app_r, Nat.sub_diag by done. cbn [lookup list_lookup mbind option_bind].
    replace (Z.succ (Z.of_nat (length pre))) with (Z.of_nat (length (pre ++ [s])))
      by (rewrite length_app; cbn; lia).
    replace (Z.pred (Z.of_nat (length (s :: rest)))) with (Z.of_nat (length rest)) by (cbn; lia).
    rewrite IH; [|destruct (valid s); [apply u8_range|done]|by rewrite <- app_assoc].
    cbn [total_stas foldr]. fold (total_stas rest). f_equal. unfold u8.
    destruct (valid s); [|f_equal; lia].
    change (2 ^ 8) with 256. rewrite Zplus_mod_idemp_l. f_equal. lia.
Qed.

Lemma peGetCurrentSTAsCount_total p :
  0 <= maxBssId p <= Z.of_nat (length (gpSession p)) /\ maxBssId p < 256 ->
  is_Some (peGetCurrentSTAsCount p).
Proof.
  intros [Hb Hlt]. unfold peGetCurrentSTAsCount. rewrite decide_True by done.
  generalize 0 at 2. assert (H : Forall (fun i => 0 <= i < Z.of_nat (length (gpSession p))) (seqZ 0 (maxBssId p))).
  { apply Forall_forall. intros x Hx%elem_of_seqZ. lia. }
  induction H as [|i l Hi _ IH]; intros acc; [by eexists|].
  cbn. destruct (aget_is_Some _ _ Hi) as [s ->]. apply IH.
Qed.

Lemma plink_insert pool l x v :
  x ∉ l -> 0 <= x < Z.of_nat (length pool) -> plink pool l -> plink (<[Z.to_nat x := v]> pool) l.
Proof.
  intros Hx Hr. induction l as [|y l IH]; [done|]. cbn. intros [Hy Hl].
  apply not_elem_of_cons in Hx as [Hxy Hx]. split; [|by apply IH].
  rewrite <- Hy. apply aget_insert_ne; [lia|done].
Qed.

Lemma queue_rep_nonzero s l : queue_rep s l -> 0 ∉ l.
Proof. intros [_ _ _ _ Hr] Hin. rewrite Forall_forall in Hr. specialize (Hr 0 Hin). lia. Qed.

Lemma queue_rep_empty s l : queue_rep s l -> freePeerIdxHead s = 0 <-> l = [].
Proof.
  intros [Hh _ _ _ Hr]. rewrite Hh. destruct l as [|x l]; [done|]. cbn.
  inversion_clear Hr. split; [lia|done].
Qed.

Lemma queue_rep_empty_tail s l : queue_rep s l -> freePeerIdxTail s = 0 <-> l = [].
Proof.
  intros [_ Ht _ _ Hr]. rewrite Ht. destruct l as [|x l] using rev_ind; [done|].
  rewrite last_snoc. cbn. apply Forall_app in Hr as [_ Hr]. inversion_clear Hr.
  split; [lia|]. by intros [_ ?]%app_eq_nil.
Qed.

(** Taking the head: [freePeerIdxHead = pool[head]], the tail reset when it empties. *)
Lemma queue_rep_pop s x l n :
  queue_rep s (x :: l) ->
  exists nxt, aget (gpLimPeerIdxpool s) x = Some nxt /\
    queue_rep (set_numSTAs n (if nxt =? 0 then set_freeTail 0 (set_freeHead nxt s)
                              else set_freeHead nxt s)) l.
Proof.
  intros [Hh Ht [Hx Hl] Hnd Hr]. eexists. split; [done|].
  apply NoDup_cons in Hnd as [Hxl Hnd]. inversion_clear Hr as [|?? Hx0 Hr'].
  destruct l as [|y l]; cbn in *.
  - by split.
  - inversion_clear Hr' as [|?? Hy Hl']. rewrite (proj2 (Z.eqb_neq y 0)) by lia.
    split; try done; by constructor.
Qed.

(** Appending at the tail. *)
Lemma queue_rep_push s l x pool' :
  queue_rep s l -> 0 < x < 256 -> x ∉ l ->
  x < Z.of_nat (length (gpLimPeerIdxpool s)) ->
  Forall (fun y => y < Z.of_nat (length (gpLimPeerIdxpool s))) l ->
  pool' = (if freePeerIdxTail s =? 0 then gpLimPeerIdxpool s
           else <[Z.to_nat (freePeerIdxTail s) := x]> (gpLimPeerIdxpool s)) ->
  queue_rep (set_pool (<[Z.to_nat x := 0]> pool')
    (if freePeerIdxTail s =? 0 then set_freeTail x (set_freeHead x s)
     else set_freeTail x (set_pool pool' s))) (l ++ [x]).
Proof.
  intros Hq Hx Hxl Hlen Hall ->. pose proof (queue_rep_empty_tail _ _ Hq) as Hemp.
  destruct Hq as [Hh Ht Hl Hnd Hr].
  assert (Hnd' : NoDup (l ++ [x])).
  { apply NoDup_app. split_and!; [done|set_solver|apply NoDup_singleton]. }
  assert (Hr' : Forall (fun x => 0 < x < 256) (l ++ [x])).
  { apply Forall_app. split; [done|]. by constructor. }
  destruct (Z.eqb_spec (freePeerIdxTail s) 0) as [H0|H0].
  - apply Hemp in H0 as ->. split; cbn; try done. split; [|done].
    apply aget_insert_eq. lia.
  - destruct l as [|y l _] using rev_ind; [by destruct H0; apply Hemp|].
    rewrite last_snoc in Ht. cbn in Ht. subst y.
    split; cbn; try done.
    + rewrite Hh. by destruct l.
    + by rewrite last_snoc.
    + set (t := freePeerIdxTail s) in *. apply Forall_app in Hall as [Hall Ht2].
      inversion_clear Ht2 as [|?? Htl _]. apply Forall_app in Hr as [_ Htr].
      inversion_clear Htr as [|?? Ht0 _]. apply NoDup_app in Hnd as (Hndl & Htl2 & _).
      assert (Hgen : forall l, plink (gpLimPeerIdxpool s) (l ++ [t]) -> t ∉ l -> x ∉ l ++ [t] ->
        plink (<[Z.to_nat x:=0]> (<[Z.to_nat t:=x]> (gpLimPeerIdxpool s))) ((l ++ [t]) ++ [x])).
      { clear -Hlen Ht0 Htl Hx. induction l as [|y l IH]; intros Hl Htl2 Hxl2.
        - cbn. split.
          + rewrite aget_insert_ne by (set_solver || lia). apply aget_insert_eq. lia.
          + split; [|done]. apply aget_insert_eq. rewrite length_insert. lia.
        - destruct Hl as [Hy Hl]. apply not_elem_of_cons in Htl2 as [? ?].
          cbn in Hxl2. apply not_elem_of_cons in Hxl2 as [? ?]. cbn. split; [|by apply IH].
          rewrite !aget_insert_ne by (done || lia). rewrite Hy. by destruct l. }
      apply Hgen; [done| |done]. intros Hin. apply (Htl2 t Hin). set_solver.
Qed.

Lemma pool_inv_ids sid lo hi free held p x :
  pool_inv sid lo hi free held p -> x ∈ free ++ held <-> lo <= x <= hi.
Proof. intros [_ Hp _ _]. rewrite Hp, elem_of_seqZ. lia. Qed.

Lemma pool_inv_nodup sid lo hi free held p :
  pool_inv sid lo hi free held p -> NoDup (free ++ held).
Proof. intros [_ Hp _ _]. rewrite Hp. apply NoDup_seqZ. Qed.

Lemma pool_inv_update sid lo hi free held free' held' p s :
  pool_inv sid lo hi free held p ->
  free' ++ held' ≡ₚ free ++ held ->
  queue_rep s free' ->
  gLimNumOfCurrentSTAs s = Z.of_nat (length held') ->
  Z.of_nat (length (gpLimPeerIdxpool s)) = hi + 1 ->
  pool_inv sid lo hi free' held' (with_session sid s p).
Proof.
  intros [(s0 & Hs0 & _) Hp Hb Hm] Hperm Hq Hn Hlen. apply aget_Some_range in Hs0.
  split; [|by rewrite Hperm|done|].
  - exists s. by rewrite with_session_get.
  - by rewrite with_session_length.
Qed.

Lemma pool_inv_held_small sid lo hi free held p :
  pool_inv sid lo hi free held p -> Z.of_nat (length held) < 256.
Proof.
  intros [_ Hp%Permutation_length [? ?] _]. rewrite length_app, length_seqZ in Hp. lia.
Qed.

(** The two association limits [limAssignPeerIdx] checks. *)
Definition assoc_limit_reached (p : tAniSirGlobal) (s : tPESession) : bool :=
  let max_peer :=
    if decide (pePersona s = VOS_STA_SAP_MODE) then u8 (glim_assoc_sta_limit_ap p)
    else if decide (pePersona s = VOS_P2P_GO_MODE) then u8 (glim_assoc_sta_limit_go p)
    else 0 in
  match peGetCurrentSTAsCount p with
  | Some count => (gLimAssocStaLimit p <=? count)
      || (negb (max_peer =? 0) && (max_peer <=? gLimNumOfCurrentSTAs s))
  | None => true
  end.

Lemma limAssignPeerIdx_cases sid lo hi free held p s :
  pool_inv sid lo hi free held p -> aget (gpSession p) sid = Some s ->
  runs (limAssignPeerIdx sid) p (fun id p' =>
    match free with
    | x :: free' =>
        if assoc_limit_reached p s then id = 0 /\ p' = p
        else id = x /\ pool_inv sid lo hi free' (x :: held) p'
    | [] => id = 0 /\ p' = p
    end).
Proof.
  intros Hinv Hs. pose proof Hinv as [(s' & Hs' & Hq & Hn & Hlen) Hp Hb Hm].
  rewrite Hs in Hs'. injection Hs' as <-.
  unfold limAssignPeerIdx, assoc_limit_reached. mstep. mstep. mstep.
  eapply runs_session; [done|].
  destruct (peGetCurrentSTAsCount_total p Hm) as [count Hc]. rewrite Hc.
  mstep. eapply runs_oget; [done|].
  destruct (_ || _); [mstep; by destruct free|].
  destruct free as [|x free].
  { by rewrite (proj2 (queue_rep_empty _ _ Hq) eq_refl). }
  pose proof (queue_rep_nonzero _ _ Hq) as H0. rewrite (qr_head _ _ Hq). cbn.
  rewrite (proj2 (Z.eqb_neq x 0)) by set_solver. cbn.
  destruct (queue_rep_pop _ _ _ (u16 (gLimNumOfCurrentSTAs s + 1)) Hq) as (nxt & Hnxt & Hq').
  mstep. eapply runs_oget; [done|]. mstep.
  apply runs_upd_session; [by eapply aget_Some_range|]. mstep. split; [done|].
  pose proof (pool_inv_held_small _ _ _ _ _ _ Hinv).
  eapply pool_inv_update; [done| | | |].
  - by rewrite <- Permutation_middle.
  - by destruct (nxt =? 0).
  - cbn. rewrite Hn, u16_small by lia. lia.
  - by destruct (nxt =? 0).
Qed.

Lemma limReleasePeerIdx_spec sid lo hi free held1 id held2 p :
  pool_inv sid lo hi free (held1 ++ id :: held2) p ->
  runs (limReleasePeerIdx id sid) p (fun _ p' =>
    pool_inv sid lo hi (free ++ [id]) (held1 ++ held2) p').
Proof.
  intros Hinv. pose proof Hinv as [(s & Hs & Hq & Hn & Hlen) Hp [Hb Hb'] Hm].
  pose proof (pool_inv_nodup _ _ _ _ _ _ Hinv) as Hnd.
  pose proof (pool_inv_held_small _ _ _ _ _ _ Hinv) as Hsm.
  assert (Hid : lo <= id <= hi) by (eapply pool_inv_ids; [done|set_solver]).
  assert (Hidf : id ∉ free) by (apply NoDup_app in Hnd as (_ & Hd & _); set_solver).
  pose proof (aget_Some_range _ _ _ Hs) as Hsid.
  rewrite length_app in Hn, Hsm. cbn in Hn, Hsm.
  assert (Hperm : (free ++ [id]) ++ held1 ++ held2 ≡ₚ free ++ held1 ++ id :: held2).
  { rewrite <- app_assoc. cbn. by rewrite (Permutation_middle held1 held2 id). }
  assert (Hfr : Forall (fun y => y < Z.of_nat (length (gpLimPeerIdxpool s))) free).
  { apply Forall_forall. intros y Hy.
    assert (lo <= y <= hi) by (eapply pool_inv_ids; [done|set_solver]). lia. }
  pose proof (queue_rep_push s free id _ Hq ltac:(lia) Hidf ltac:(lia) Hfr eq_refl) as Hq'.
  set (n := u16 (gLimNumOfCurrentSTAs s - 1)).
  assert (Hnn : n = Z.of_nat (length (held1 ++ held2))).
  { unfold n. rewrite Hn, u16_small, length_app; lia. }
  unfold limReleasePeerIdx. rewrite u8_small by lia.
  mstep. eapply runs_session; [done|]. cbn [freePeerIdxTail gpLimPeerIdxpool set_numSTAs].
  pose proof (queue_rep_empty_tail _ _ Hq) as Hemp.
  destruct (Z.eqb_spec (freePeerIdxTail s) 0) as [H0|H0]; cbn [negb]; mstep.
  - apply runs_upd_session; [done|]. eapply runs_pool_write; [by apply with_session_get|cbn; lia|].
    rewrite with_session_twice. eapply pool_inv_update; [done|done| |done|cbn; by rewrite length_insert].
    destruct Hq' as [? ? ? ? ?]. by split.
  - pose proof (qr_tail _ _ Hq) as Ht.
    assert (Htl : freePeerIdxTail s ∈ free).
    { destruct free as [|y f _] using rev_ind; [by destruct H0; apply Hemp|].
      rewrite Ht, last_snoc. cbn. set_solver. }
    rewrite Forall_forall in Hfr. pose proof (Hfr _ Htl).
    assert (lo <= freePeerIdxTail s <= hi) by (eapply pool_inv_ids; [done|set_solver]).
    eapply runs_oget; [apply aset_Some; cbn; lia|]. mstep. apply runs_upd_session; [done|].
    eapply runs_pool_write; [by apply with_session_get|cbn; rewrite length_insert; lia|].
    rewrite with_session_twice.
    eapply pool_inv_update; [done|done| |done|cbn; by rewrite !length_insert].
    destruct Hq' as [? ? ? ? ?]. by split.
Qed.

(** [limInitPeerIdxpool] threads all the indices from the role's first one to
    [maxStation] onto the free list, in order. *)
Lemma plink_seq pool n a :
  (forall i, a <= i < a + Z.of_nat n -> aget pool i = Some (i + 1)) ->
  aget pool (a + Z.of_nat n) = Some 0 ->
  plink pool (seqZ a (Z.of_nat n + 1)).
Proof.
  revert a. induction n as [|n IH]; intros a Hi Hl.
  - rewrite seqZ_cons by lia. cbn. by rewrite Z.add_0_r in Hl.
  - rewrite seqZ_cons by lia. split.
    + rewrite Hi by lia. rewrite seqZ_cons by lia. cbn. f_equal; lia.
    + replace (Z.pred (Z.of_nat (Datatypes.S n) + 1)) with (Z.of_nat n + 1) by lia.
      apply IH; [intros; apply Hi; lia|]. rewrite <- Hl. f_equal. lia.
Qed.

Lemma first_peer_idx_pos s : 0 < first_peer_idx (limSystemRole s).
Proof.
  unfold first_peer_idx, DPH_STA_HASH_INDEX_PEER, LIM_START_PEER_IDX.
  repeat case_decide; lia.
Qed.

Section Init.
Variables (sid : Z) (p : tAniSirGlobal) (s : tPESession).
Hypothesis Hs : aget (gpSession p) sid = Some s.
Let lo := first_peer_idx (limSystemRole s).
Let hi := maxStation p.
Hypothesis Hhi : lo <= hi < 256.
Hypothesis Hlen : Z.of_nat (length (gpLimPeerIdxpool s)) = hi + 1.

(** The pool array after the loop has run over the indices [dn]. *)
Definition init_pool (dn : list Z) : list Z :=
  foldl (fun l i => <[Z.to_nat i := u8 (i + 1)]> l) (<[0%nat := 0]> (gpLimPeerIdxpool s)) dn.

Lemma length_init_pool dn : length (init_pool dn) = length (gpLimPeerIdxpool s).
Proof.
  unfold init_pool. induction dn as [|i dn IH] using rev_ind; [apply length_insert|].
  rewrite foldl_app. cbn. by rewrite length_insert.
Qed.

Lemma init_pool_get i :
  lo <= i < hi -> aget (init_pool (seqZ lo (hi - lo))) i = Some (i + 1).
Proof.
  pose proof (first_peer_idx_pos s : 0 < lo) as Hlo. intros Hi.
  assert (Hgen : forall n, Z.of_nat n <= hi - lo -> i < lo + Z.of_nat n ->
    aget (init_pool (seqZ lo (Z.of_nat n))) i = Some (i + 1)).
  { induction n as [|n IH]; intros Hn Hin; [lia|].
    rewrite Nat2Z.inj_succ, <- Z.add_1_r, seqZ_snoc by lia. unfold init_pool.
    rewrite foldl_app. fold (init_pool (seqZ lo (Z.of_nat n))).
    cbn [foldl].
    destruct (decide (i = lo + Z.of_nat n)) as [->|].
    - rewrite aget_insert_eq by (rewrite length_init_pool; lia). by rewrite u8_small by lia.
    - rewrite aget_insert_ne by lia. apply IH; lia. }
  replace (hi - lo) with (Z.of_nat (Z.to_nat (hi - lo))) by lia. apply Hgen; lia.
Qed.

(** The session after initialisation. *)
Definition init_session : tPESession :=
  set_freeTail hi (set_pool (<[Z.to_nat hi := 0]> (init_pool (seqZ lo (hi - lo))))
    (set_freeHead lo s)).

Lemma init_session_rep : queue_rep init_session (seqZ lo (hi - lo + 1)).
Proof.
  pose proof (first_peer_idx_pos s : 0 < lo) as Hlo. split.
  - by rewrite seqZ_cons by lia.
  - rewrite seqZ_snoc, last_snoc by lia. cbn. lia.
  - replace (hi - lo + 1) with (Z.of_nat (Z.to_nat (hi - lo)) + 1) by lia.
    apply plink_seq; cbn [gpLimPeerIdxpool init_session set_freeTail set_pool].
    + intros i Hi. rewrite aget_insert_ne by lia. apply init_pool_get. lia.
    + replace (lo + _) with hi by lia. apply aget_insert_eq.
      rewrite length_init_pool. lia.
  - apply NoDup_seqZ.
  - apply Forall_forall. intros x Hx%elem_of_seqZ. lia.
Qed.

Lemma limInitPeerIdxpool_result :
  runs (limInitPeerIdxpool sid) p (fun _ p' => p' = with_session sid init_session p).
Proof.
  pose proof (first_peer_idx_pos s : 0 < lo) as Hlo. pose proof (aget_Some_range _ _ _ Hs) as Hsid.
  unfold limInitPeerIdxpool. do 2 mstep. fold hi. rewrite (u8_small hi) by lia.
  mstep. eapply runs_pool_write; [done|lia|]. mstep.
  eapply runs_session; [by apply with_session_get|]. cbn [limSystemRole set_pool]. fold lo.
  mstep. apply runs_upd_session; [by rewrite with_session_length|]. rewrite with_session_twice.
  mstep. eapply runs_mono.
  - apply (runs_mfor (fun dn p' =>
      p' = with_session sid (set_freeHead lo (set_pool (init_pool dn) s)) p)); [|done].
    intros dn i todo p' Heq ->.
    assert (Hi : lo <= i < lo + (hi - lo)).
    { apply elem_of_seqZ. rewrite Heq. set_solver. }
    eapply runs_pool_write; [by apply with_session_get|cbn; rewrite length_init_pool; lia|].
    rewrite with_session_twice. unfold init_pool. by rewrite foldl_app.
  - intros [] p' ->. rewrite Z.max_r by lia.
    mstep. eapply runs_pool_write; [by apply with_session_get|cbn; rewrite length_init_pool; lia|].
    mstep. eapply runs_session; [apply with_session_get; by rewrite with_session_length|].
    apply runs_upd_session; [by rewrite !with_session_length|].
    by rewrite !with_session_twice.
Qed.
End Init.

(** ** Properties *)

(** A run of the pool of session [sid]: each index handed out joins [held]; only an
    index that is held is released, as the callers do with [pStaDs->assocId]. *)
Inductive pool_step (sid : Z) : tAniSirGlobal * list Z -> tAniSirGlobal * list Z -> Prop :=
  | step_assign p p' id held :
      limAssignPeerIdx sid p = Some (id, p') -> id <> 0 ->
      pool_step sid (p, held) (p', id :: held)
  | step_refused p p' held :
      limAssignPeerIdx sid p = Some (0, p') ->
      pool_step sid (p, held) (p', held)
  | step_release p p' id held1 held2 :
      limReleasePeerIdx id sid p = Some (tt, p') ->
      pool_step sid (p, held1 ++ id :: held2) (p', held1 ++ held2).

Lemma pool_step_inv sid lo hi free st st' :
  pool_step sid st st' -> pool_inv sid lo hi free st.2 st.1 ->
  exists free', pool_inv sid lo hi free' st'.2 st'.1.
Proof.
  intros Hstep Hinv. pose proof Hinv as [(s & Hs & Hq & _) _ _ _].
  destruct Hstep as [p p' id held Ha Hid|p p' held Ha|p p' id h1 h2 Hr]; cbn [fst snd] in *.
  1-2: pose proof (runs_result _ _ _ _ _ (limAssignPeerIdx_cases _ _ _ _ _ _ _ Hinv Hs) Ha) as Hc;
    cbn beta in Hc.
  - destruct free; [naive_solver|]. destruct (assoc_limit_reached p s); naive_solver.
  - pose proof (queue_rep_nonzero _ _ Hq) as H0.
    destruct free; [naive_solver|]. destruct (assoc_limit_reached p s); [naive_solver|].
    destruct Hc as [<- _]. set_solver.
  - exists (free ++ [id]).
    exact (runs_result _ _ _ _ _ (limReleasePeerIdx_spec _ _ _ _ _ _ _ _ Hinv) Hr).
Qed.

Lemma pool_steps_inv sid lo hi st st' :
  rtc (pool_step sid) st st' -> (exists free, pool_inv sid lo hi free st.2 st.1) ->
  exists free, pool_inv sid lo hi free st'.2 st'.1.
Proof.
  induction 1 as [|st1 st2 st3 Hs _ IH]; [done|]. intros [free Hf].
  apply IH. by eapply pool_step_inv.
Qed.

Lemma init_pool_inv sid p s :
  aget (gpSession p) sid = Some s ->
  first_peer_idx (limSystemRole s) <= maxStation p < 256 ->
  Z.of_nat (length (gpLimPeerIdxpool s)) = maxStation p + 1 ->
  gLimNumOfCurrentSTAs s = 0 ->
  0 <= maxBssId p <= Z.of_nat (length (gpSession p)) /\ maxBssId p < 256 ->
  let lo := first_peer_idx (limSystemRole s) in
  pool_inv sid lo (maxStation p) (seqZ lo (maxStation p - lo + 1)) []
    (with_session sid (init_session p s) p).
Proof.
  intros Hs Hhi Hlen Hn Hm lo. split.
  - exists (init_session p s). pose proof (aget_Some_range _ _ _ Hs).
    rewrite with_session_get by done. split_and!; try done.
    + by apply init_session_rep.
    + cbn. by rewrite length_insert, length_init_pool.
  - by rewrite app_nil_r.
  - pose proof (first_peer_idx_pos s). unfold lo. lia.
  - by rewrite with_session_length.
Qed.

(** Peer indices are never handed out twice: after [limInitPeerIdxpool], along
    every sequence of [limAssignPeerIdx] and [limReleasePeerIdx] of held indices, the
    held indices are distinct, lie between the role's first index and [maxStation],
    their number is the session's station count, and neither operation can go wrong. *)
Theorem peer_idx_unique sid p s p1 p' held :
  aget (gpSession p) sid = Some s ->
  first_peer_idx (limSystemRole s) <= maxStation p < 256 ->
  Z.of_nat (length (gpLimPeerIdxpool s)) = maxStation p + 1 ->
  gLimNumOfCurrentSTAs s = 0 ->
  0 <= maxBssId p <= Z.of_nat (length (gpSession p)) /\ maxBssId p < 256 ->
  limInitPeerIdxpool sid p = Some (tt, p1) ->
  rtc (pool_step sid) (p1, []) (p', held) ->
  NoDup held /\
  Forall (fun x => first_peer_idx (limSystemRole s) <= x <= maxStation p) held /\
  (exists s', aget (gpSession p') sid = Some s' /\
     gLimNumOfCurrentSTAs s' = Z.of_nat (length held)) /\
  is_Some (limAssignPeerIdx sid p') /\
  Forall (fun id => is_Some (limReleasePeerIdx id sid p')) held.
Proof.
  intros Hs Hhi Hlen Hn Hm Hinit Hrun.
  pose proof (runs_result _ _ _ _ _ (limInitPeerIdxpool_result _ _ _ Hs Hhi Hlen) Hinit) as ->.
  destruct (pool_steps_inv _ (first_peer_idx (limSystemRole s)) (maxStation p) _ _ Hrun)
    as [free Hinv].
  { eexists. by apply init_pool_inv. }
  cbn [fst snd] in Hinv. pose proof (pool_inv_nodup _ _ _ _ _ _ Hinv) as Hnd%NoDup_app.
  pose proof Hinv as [(s' & Hs' & _ & Hn' & _) _ _ _].
  split_and!.
  - tauto.
  - apply Forall_forall. intros x Hx. eapply pool_inv_ids; [done|set_solver].
  - eauto.
  - by eapply runs_is_Some, limAssignPeerIdx_cases.
  - apply Forall_forall. intros x (h1 & h2 & ->)%list_elem_of_split.
    by eapply runs_is_Some, limReleasePeerIdx_spec.
Qed.

(** A concrete MAC with one AP session and four stations. *)
Definition ex_mac : tAniSirGlobal :=
  {| maxStation := 4; maxBssId := 1; gLimAssocStaLimit := 4;
     glim_assoc_sta_limit_ap := 3; glim_assoc_sta_limit_go := 3;
     gpSession := [{| valid := true; limSystemRole := eLIM_AP_ROLE;
       pePersona := VOS_STA_SAP_MODE; gpLimPeerIdxpool := [0; 0; 0; 0; 0];
       freePeerIdxHead := 0; freePeerIdxTail := 0; gLimNumOfCurrentSTAs := 0 |}] |}.

Definition ex_mac_init : tAniSirGlobal :=
  Eval vm_compute in match limInitPeerIdxpool 0 ex_mac with Some (_, p) => p | None => ex_mac end.
Definition ex_mac_one : tAniSirGlobal :=
  Eval vm_compute in match limAssignPeerIdx 0 ex_mac_init with Some (_, p) => p | None => ex_mac end.
Definition ex_mac_two : tAniSirGlobal :=
  Eval vm_compute in match limAssignPeerIdx 0 ex_mac_one with Some (_, p) => p | None => ex_mac end.

Lemma peer_idx_unique_witness : NoDup [2; 1] /\ is_Some (limAssignPeerIdx 0 ex_mac_two).
Proof.
  destruct (peer_idx_unique 0 ex_mac _ ex_mac_init ex_mac_two [2; 1] eq_refl) as (H & _ & _ & H' & _).
  - zcompute.
  - reflexivity.
  - reflexivity.
  - zcompute.
  - vm_compute. reflexivity.
  - eapply rtc_l; [apply (step_assign 0 ex_mac_init ex_mac_one 1); [vm_compute; reflexivity|lia]|].
    eapply rtc_l; [apply (step_assign 0 ex_mac_one ex_mac_two 2); [vm_compute; reflexivity|lia]|].
    apply rtc_refl.
  - split; [exact H | exact H'].
Defined.

(** C39.  The byte array refines a FIFO queue: an assignment takes the front of the
    free queue (or answers 0 and changes nothing when the queue is empty or one of
    the association limits is reached), and a release puts the index at the back. *)
Theorem peer_pool_refines_fifo sid lo hi free held p s :
  pool_inv sid lo hi free held p -> aget (gpSession p) sid = Some s ->
  runs (limAssignPeerIdx sid) p (fun id p' =>
    match free with
    | x :: free' =>
        if assoc_limit_reached p s then id = 0 /\ p' = p
        else id = x /\ pool_inv sid lo hi free' (x :: held) p'
    | [] => id = 0 /\ p' = p
    end) /\
  (forall id held1 held2, held = held1 ++ id :: held2 ->
     runs (limReleasePeerIdx id sid) p (fun _ p' =>
       pool_inv sid lo hi (free ++ [id]) (held1 ++ held2) p')).
Proof.
  intros Hinv Hs. split; [by apply limAssignPeerIdx_cases|].
  intros id h1 h2 ->. by apply limReleasePeerIdx_spec.
Qed.

Lemma peer_pool_refines_fifo_witness :
  runs (limAssignPeerIdx 0) ex_mac_init (fun id _ => id = 1).
Proof.
  pose proof (init_pool_inv 0 ex_mac _ eq_refl ltac:(zcompute) eq_refl eq_refl ltac:(zcompute)) as Hinv.
  destruct (peer_pool_refines_fifo _ _ _ _ _ ex_mac_init _ Hinv eq_refl) as [H _].
  eapply runs_mono; [exact H|]. intros id p' Hid. vm_compute in Hid. exact (proj1 Hid).
Defined.

(** [peGetCurrentSTAsCount] is total for fewer than 256 sessions and returns the
    number of stations of the valid sessions modulo 256: the count that
    [gLimAssocStaLimit] is compared with wraps at 256 stations. *)
Theorem peGetCurrentSTAsCount_mod p :
  maxBssId p = Z.of_nat (length (gpSession p)) -> maxBssId p < 256 ->
  peGetCurrentSTAsCount p = Some (total_stas (gpSession p) mod 256).
Proof.
  intros Heq Hlt. unfold peGetCurrentSTAsCount. rewrite decide_True by done.
  rewrite Heq. by rewrite (sta_sum_spec _ [] (gpSession p) 0) by (lia || done).
Qed.

Lemma peGetCurrentSTAsCount_mod_witness : peGetCurrentSTAsCount ex_mac_two = Some 2.
Proof.
  rewrite (peGetCurrentSTAsCount_mod ex_mac_two) by (vm_compute; reflexivity).
  vm_compute. reflexivity.
Defined.
