(* ===== verification/DphHash.v ===== *)
(** * Station hash table of the DPH

    Models [CORE/MAC/src/dph/dphHashTable.c].  The nodes of the stations live in
    the array [pDphNodeArray], indexed by association id; [pHashTable] holds the
    heads of singly linked collision chains threaded through the nodes' [next]
    pointers.  The theorems show that the table implements a finite map from MAC
    addresses to association ids: every operation is refined by the map's. *)

From S2P Require Import Prelude.

Local Open Scope c_scope.

(** ** Data *)

(** A node pointer is the node's index in [pDphNodeArray]; [None] is [NULL].
    [others] stands for the bytes of the members these functions only clear. *)
Record tDphHashNode := {
  valid : bool;
  added : bool;
  encPolicy : Z;
  fragSize : Z;                       (* tANI_U16 *)
  assocId : Z;                        (* tANI_U16 *)
  staIndex : Z;                       (* tANI_U16 *)
  staAddr : list Z;                   (* tANI_U8[6] *)
  isDisassocDeauthInProgress : Z;
  last_assoc_received_time : Z;
  sta_deletion_in_progress : bool;
  others : list Z;
  next : option Z
}.

Record dphHashTableClass := {
  pHashTable : option (list (option Z));
  pDphNodeArray : list tDphHashNode;
  size : Z                            (* tANI_U16 *)
}.

Inductive tSirRetStatus := eSIR_SUCCESS | eSIR_FAILURE.

Definition HAL_STA_INVALID_IDX : Z := 0xFF.
Definition HAL_ENC_POLICY_NULL : Z := 0.

Definition set_next (v : option Z) (n : tDphHashNode) : tDphHashNode :=
  {| valid := valid n; added := added n; encPolicy := encPolicy n; fragSize := fragSize n;
     assocId := assocId n; staIndex := staIndex n; staAddr := staAddr n;
     isDisassocDeauthInProgress := isDisassocDeauthInProgress n;
     last_assoc_received_time := last_assoc_received_time n;
     sta_deletion_in_progress := sta_deletion_in_progress n; others := others n; next := v |}.

Definition set_heads (v : list (option Z)) (t : dphHashTableClass) : dphHashTableClass :=
  {| pHashTable := Some v; pDphNodeArray := pDphNodeArray t; size := size t |}.
Definition set_nodes (v : list tDphHashNode) (t : dphHashTableClass) : dphHashTableClass :=
  {| pHashTable := pHashTable t; pDphNodeArray := v; size := size t |}.

(** ** Memory accesses *)

Definition D := M dphHashTableClass.

(** [*ptr], [*ptr = n] *)
Definition node (ptr : Z) : D tDphHashNode :=
  t <- mget ;; oget (aget (pDphNodeArray t) ptr).
Definition node_write (ptr : Z) (n : tDphHashNode) : D unit :=
  t <- mget ;; l <- oget (aset (pDphNodeArray t) ptr n) ;; modify (set_nodes l).

(** [pHashTable[index]] and its assignment; dereferencing a null table is undefined *)
Definition bucket (index : Z) : D (option Z) :=
  t <- mget ;; h <- oget (pHashTable t) ;; oget (aget h index).
Definition bucket_write (index : Z) (v : option Z) : D unit :=
  t <- mget ;; h <- oget (pHashTable t) ;; h' <- oget (aset h index v) ;;
  modify (set_heads h').

(** Enough fuel for a walk along an acyclic chain. *)
Definition chain_fuel : D nat :=
  gets (fun t => (length (pDphNodeArray t) + 1)%nat).

(** ** Operations *)

(** [dphCompareMacAddr] *)
Definition dphCompareMacAddr (addr1 addr2 : list Z) : bool :=
  forallb (fun i => bool_decide (aget addr1 i = aget addr2 i)) (seqZ 0 6).

(** [dphHashTableClassInit] *)
Definition dphHashTableClassInit : D unit :=
  t <- mget ;;
  mfor (seqZ 0 (size t)) (fun i => bucket_write i None) ;;
  mfor (seqZ 0 (size t)) (fun i =>
    n <- node i ;;
    node_write i
      {| valid := false; added := false; encPolicy := encPolicy n; fragSize := fragSize n;
         assocId := u16 i; staIndex := staIndex n; staAddr := staAddr n;
         isDisassocDeauthInProgress := isDisassocDeauthInProgress n;
         last_assoc_received_time := last_assoc_received_time n;
         sta_deletion_in_progress := sta_deletion_in_progress n;
         others := others n; next := next n |}).

(** [hashFunction]: the 16-bit sum of the six bytes, modulo the table size *)
Definition hashFunction (addr : list Z) (numSta : Z) : option Z :=
  sum ← foldl (fun acc i => sum ← acc; b ← aget addr i; Some (u16 (sum + b)))
              (Some 0) (seqZ 0 6);
  if numSta =? 0 then None else Some (u16 (sum mod numSta)).

(** [dphLookupHashEntry]: the node and the new value of [*pAssocId] *)
Definition dphLookupHashEntry (addr : list Z) (pAssocId : Z) : D (option Z * Z) :=
  t <- mget ;;
  index <- oget (hashFunction addr (size t)) ;;
  match pHashTable t with
  | None => mreturn (None, pAssocId)
  | Some _ =>
      head <- bucket index ;;
      fuel <- chain_fuel ;;
      miter fuel (fun ptr : option Z =>
        match ptr with
        | None => mreturn (inr (None, pAssocId))
        | Some p =>
            n <- node p ;;
            if dphCompareMacAddr addr (staAddr n)
            then mreturn (inr (Some p, assocId n))
            else mreturn (inl (next n))
        end) head
  end.

(** [dphGetHashEntry] *)
Definition dphGetHashEntry (peerIdx : Z) : D (option Z) :=
  t <- mget ;;
  if peerIdx <? size t then
    n <- node peerIdx ;;
    mreturn (if added n then Some peerIdx else None)
  else mreturn None.

(** [getNode]: its parameter is a [tANI_U8] *)
Definition getNode (assocId : Z) : Z := u8 assocId.

(** [dphLookupAssocId]: the counter is a [tANI_U8], so a table of more than 255
    entries makes the search for an absent index endless (no result here) *)
Definition dphLookupAssocId (staIdx assocId0 : Z) : D (option Z * Z) :=
  t <- mget ;;
  r <- miter 257 (fun i =>
    if i <? size t then
      n <- node i ;;
      if added n && (staIndex n =? staIdx) then mreturn (inr (i, i))
      else mreturn (inl (u8 (i + 1)))
    else mreturn (inr (i, assocId0))) 0 ;;
  let '(i, out) := r in
  if i =? size t then mreturn (None, out) else mreturn (Some i, out).

Section Config.
(** What [wlan_cfgGetInt(WNI_CFG_FRAGMENTATION_THRESHOLD)] answers. *)
Variable cfg_frag : option Z.

(** [dphInitStaState] *)
Definition dphInitStaState (addr : list Z) (aid : Z) (validStaIdx : bool) : D (option Z) :=
  t <- mget ;;
  if size t <=? aid then mreturn None
  else
    let pStaDs := getNode aid in
    n <- node pStaDs ;;
    bytes <- oget (mapM (aget addr) (seqZ 0 6)) ;;
    node_write pStaDs
      {| valid := true; added := true; encPolicy := HAL_ENC_POLICY_NULL;
         fragSize := (match cfg_frag with Some val => u16 val | None => 0 end);
         assocId := aid;
         staIndex := (if validStaIdx then staIndex n else HAL_STA_INVALID_IDX);
         staAddr := bytes;
         isDisassocDeauthInProgress := 0; last_assoc_received_time := 0;
         sta_deletion_in_progress := false;
         others := replicate (length (others n)) 0;
         next := next n |} ;;
    mreturn (Some pStaDs).

(** [dphAddHashEntry]: the walk says [true] when the entry exists or the chain loops *)
Definition dphAddHashEntry (addr : list Z) (aid : Z) : D (option Z) :=
  t <- mget ;;
  index <- oget (hashFunction addr (size t)) ;;
  if size t <=? aid then mreturn None
  else
    n <- node aid ;;
    if added n then mreturn None
    else
      head <- bucket index ;;
      fuel <- chain_fuel ;;
      exists_ <- miter fuel (fun ptr : option Z =>
        match ptr with
        | None => mreturn (inr false)
        | Some p =>
            n <- node p ;;
            if bool_decide (Some p = next n) then mreturn (inr true)
            else if dphCompareMacAddr addr (staAddr n) || (assocId n =? aid)
            then mreturn (inr true)
            else mreturn (inl (next n))
        end) head ;;
      if exists_ : bool then mreturn None
      else
        r <- dphInitStaState addr aid false ;;
        match r with
        | None => mreturn None
        | Some _ =>
            h <- bucket index ;;
            n <- node aid ;;
            node_write aid (set_next h n) ;;
            bucket_write index (Some aid) ;;
            bucket index
        end.
End Config.

(** [dphDeleteHashEntry]: the walk returns the pair [(prev, ptr)], [None] for the
    "infinite loop" exit *)
Definition dphDeleteHashEntry (addr : list Z) (aid : Z) : D tSirRetStatus :=
  t <- mget ;;
  index <- oget (hashFunction addr (size t)) ;;
  if size t <=? aid then mreturn eSIR_FAILURE
  else
    n <- node aid ;;
    if negb (added n) then mreturn eSIR_FAILURE
    else
      head <- bucket index ;;
      fuel <- chain_fuel ;;
      found <- miter fuel (fun '((prev, ptr) : option Z * option Z) =>
        match ptr with
        | None => mreturn (inr (Some (prev, None)))
        | Some p =>
            n <- node p ;;
            if dphCompareMacAddr addr (staAddr n) then mreturn (inr (Some (prev, Some p)))
            else if bool_decide (prev = ptr) then mreturn (inr None)
            else mreturn (inl (ptr, next n))
        end) (None, head) ;;
      match found with
      | None => mreturn eSIR_FAILURE
      | Some (_, None) => mreturn eSIR_FAILURE
      | Some (prev, Some p) =>
          n <- node p ;;
          node_write p
            {| valid := false; added := added n; encPolicy := encPolicy n;
               fragSize := fragSize n; assocId := assocId n; staIndex := staIndex n;
               staAddr := replicate 6 0;
               isDisassocDeauthInProgress := isDisassocDeauthInProgress n;
               last_assoc_received_time := last_assoc_received_time n;
               sta_deletion_in_progress := sta_deletion_in_progress n;
               others := others n; next := next n |} ;;
          match prev with
          | None => bucket_write index (next n)
          | Some q => m <- node q ;; node_write q (set_next (next n) m)
          end ;;
          n <- node p ;;
          node_write p
            {| valid := valid n; added := false; encPolicy := encPolicy n;
               fragSize := fragSize n; assocId := assocId n; staIndex := staIndex n;
               staAddr := staAddr n; isDisassocDeauthInProgress := 0;
               last_assoc_received_time := 0; sta_deletion_in_progress := false;
               others := others n; next := None |} ;;
          mreturn eSIR_SUCCESS
      end.

(** [dph_entry_exist] *)
Definition dph_entry_exist (addr : list Z) (aid : Z) : D bool :=
  t <- mget ;;
  _ <- oget (hashFunction addr (size t)) ;;
  if size t <=? aid then mreturn false
  else
    n <- node aid ;;
    if added n then mreturn true
    else
      r <- dphLookupHashEntry addr 0 ;;
      mreturn (match r.1 with Some _ => true | None => false end).

(** ** The representation invariant *)

Definition mac_ok (a : list Z) : Prop :=
  length a = 6%nat /\ Forall (fun b => 0 <= b < 256) a.

(** [chain ns ptr l]: following [next] from [ptr] visits the nodes [l], then [NULL]. *)
Inductive chain (ns : list tDphHashNode) : option Z -> list Z -> Prop :=
  | chain_nil : chain ns None []
  | chain_cons p n l :
      aget ns p = Some n -> chain ns (next n) l -> chain ns (Some p) (p :: l).

(** Node [x] is live and belongs to bucket [b]. *)
Definition live_in (t : dphHashTableClass) (b x : Z) : Prop :=
  exists n, aget (pDphNodeArray t) x = Some n /\ added n = true /\ assocId n = x
    /\ length (staAddr n) = 6%nat /\ hashFunction (staAddr n) (size t) = Some b.

(** The table [t] with collision chains [cs] represents the map [m]. *)
Record dph_rep (t : dphHashTableClass) (cs : list (list Z)) (m : gmap (list Z) Z) : Prop := {
  dr_size : 0 < size t <= 256;
  dr_heads : exists hs, pHashTable t = Some hs /\ Z.of_nat (length hs) = size t /\
    forall b l, aget cs b = Some l ->
      exists h, aget hs b = Some h /\ chain (pDphNodeArray t) h l;
  dr_nodes : Z.of_nat (length (pDphNodeArray t)) = size t;
  dr_chains : Z.of_nat (length cs) = size t;
  dr_live : forall b l, aget cs b = Some l -> Forall (live_in t b) l /\ NoDup l;
  dr_map : forall a x, m !! a = Some x <->
    exists n, aget (pDphNodeArray t) x = Some n /\ added n = true /\ staAddr n = a;
  dr_in : forall x n, aget (pDphNodeArray t) x = Some n -> added n = true ->
    exists b l, aget cs b = Some l /\ x ∈ l
}.

Lemma mac_compare a b :
  length a = 6%nat -> length b = 6%nat -> dphCompareMacAddr a b = bool_decide (a = b).
Proof.
  intros Ha Hb.
  do 6 (destruct a as [|? a]; [done|]; destruct b as [|? b]; [done|]).
  destruct a, b; [|done..]. apply eq_bool_prop_intro.
  unfold dphCompareMacAddr. change (seqZ 0 6) with [0;1;2;3;4;5]. cbn [forallb].
  rewrite !aget_lookup by lia. change (Z.to_nat 0) with 0%nat. change (Z.to_nat 1) with 1%nat.
  change (Z.to_nat 2) with 2%nat. change (Z.to_nat 3) with 3%nat.
  change (Z.to_nat 4) with 4%nat. change (Z.to_nat 5) with 5%nat. cbn [lookup list_lookup].
  rewrite !andb_True, !bool_decide_spec. naive_solver.
Qed.

Lemma hash_total a s :
  length a = 6%nat -> 0 < s <= 65536 -> exists h, hashFunction a s = Some h /\ 0 <= h < s.
Proof.
  intros Ha Hs. do 6 (destruct a as [|? a]; [done|]). destruct a; [|done].
  unfold hashFunction. change (seqZ 0 6) with [0;1;2;3;4;5]. cbn [foldl].
  rewrite !aget_lookup by lia. change (Z.to_nat 0) with 0%nat. change (Z.to_nat 1) with 1%nat.
  change (Z.to_nat 2) with 2%nat. change (Z.to_nat 3) with 3%nat.
  change (Z.to_nat 4) with 4%nat. change (Z.to_nat 5) with 5%nat.
  cbn [lookup list_lookup mbind option_bind].
  rewrite (proj2 (Z.eqb_neq s 0)) by lia. eexists. split; [done|].
  match goal with |- context [u16 ?x mod s] => pose proof (Z.mod_pos_bound (u16 x) s) end.
  rewrite u16_small by lia. lia.
Qed.

Lemma chain_in ns h l x : chain ns h l -> x ∈ l -> exists n, aget ns x = Some n.
Proof. induction 1; set_solver. Qed.

Lemma chain_fun ns h l l' : chain ns h l -> chain ns h l' -> l = l'.
Proof.
  intros H. revert l'. induction H as [|p n l Hp _ IH]; inversion 1; [done|].
  simplify_eq. f_equal. eauto.
Qed.

(** Updating a node outside the chain, or without changing its [next]. *)
Lemma chain_update ns h l x n n' :
  chain ns h l -> aget ns x = Some n -> x ∉ l \/ next n' = next n ->
  chain (<[Z.to_nat x := n']> ns) h l.
Proof.
  intros Hc Hx Hor. pose proof (aget_Some_range _ _ _ Hx).
  induction Hc as [|p np l Hp Hc IH]; [constructor|].
  destruct (decide (x = p)) as [->|Hne].
  - destruct Hor as [Hn|Heq]; [set_solver|]. rewrite Hx in Hp. injection Hp as <-.
    econstructor; [by apply aget_insert_eq|]. rewrite Heq. apply IH. by right.
  - econstructor; [by rewrite aget_insert_ne by (lia || done)|]. apply IH.
    destruct Hor; [left; set_solver|by right].
Qed.

Section Rep.
Context {t : dphHashTableClass} {cs : list (list Z)} {m : gmap (list Z) Z}.
Hypothesis Hrep : dph_rep t cs m.

Lemma rep_bucket a :
  length a = 6%nat -> exists b l hs h, hashFunction a (size t) = Some b /\ 0 <= b < size t /\
    aget cs b = Some l /\ pHashTable t = Some hs /\ aget hs b = Some h /\
    chain (pDphNodeArray t) h l.
Proof.
  intros Ha. destruct Hrep as [Hs (hs & Hhs & Hl & Hch) Hn Hc _ _ _].
  destruct (hash_total a (size t) Ha ltac:(lia)) as (b & Hb & Hr).
  destruct (aget_is_Some cs b) as [l Hl']; [lia|].
  destruct (Hch _ _ Hl') as (h & Hh & Hc'). naive_solver.
Qed.

Lemma rep_live b l x :
  aget cs b = Some l -> x ∈ l ->
  exists n, aget (pDphNodeArray t) x = Some n /\ added n = true /\ assocId n = x /\
    length (staAddr n) = 6%nat /\ hashFunction (staAddr n) (size t) = Some b /\
    m !! staAddr n = Some x.
Proof.
  intros Hb Hx. destruct Hrep as [_ _ _ _ Hl Hm _]. destruct (Hl _ _ Hb) as [Hall _].
  rewrite Forall_forall in Hall. destruct (Hall _ Hx) as (n & Hn & Ha & Hid & Hlen & Hh).
  exists n. split_and!; try done. apply Hm. eauto.
Qed.

Lemma rep_mapped a x :
  m !! a = Some x -> exists n b l, aget (pDphNodeArray t) x = Some n /\ added n = true /\
    staAddr n = a /\ aget cs b = Some l /\ x ∈ l /\ hashFunction a (size t) = Some b.
Proof.
  destruct Hrep as [_ _ _ _ _ Hm Hin]. intros (n & Hn & Ha & Hs)%Hm.
  destruct (Hin _ _ Hn Ha) as (b & l & Hb & Hx).
  destruct (rep_live _ _ _ Hb Hx) as (n' & Hn' & _ & _ & _ & Hh & _). naive_solver.
Qed.

Lemma rep_chain_length b l : aget cs b = Some l -> (length l <= length (pDphNodeArray t))%nat.
Proof.
  intros Hb. destruct (dr_live _ _ _ Hrep _ _ Hb) as [Hall Hnd].
  rewrite <- (length_map Z.to_nat l), <- (length_seq (length (pDphNodeArray t)) 0).
  apply NoDup_incl_length.
  - apply NoDup_ListNoDup, NoDup_fmap_2_strong; [|done].
    intros x y Hx Hy. rewrite Forall_forall in Hall.
    destruct (Hall _ Hx) as (? & ?%aget_Some_range & _).
    destruct (Hall _ Hy) as (? & ?%aget_Some_range & _). lia.
  - intros i Hi%list_elem_of_In. apply list_elem_of_fmap in Hi as (x & -> & Hx).
    rewrite Forall_forall in Hall. destruct (Hall _ Hx) as (? & ?%aget_Some_range & _).
    apply in_seq. lia.
Qed.

(** In the bucket of [a], the node found by comparing addresses is the one [m] names. *)
Lemma rep_find a b l :
  length a = 6%nat -> hashFunction a (size t) = Some b -> aget cs b = Some l ->
  match m !! a with
  | Some x => x ∈ l
  | None => forall y n, y ∈ l -> aget (pDphNodeArray t) y = Some n -> staAddr n <> a
  end.
Proof.
  intros Ha Hh Hb. destruct (m !! a) as [x|] eqn:Hm.
  - destruct (rep_mapped _ _ Hm) as (n & b' & l' & ? & ? & ? & ? & ? & ?). naive_solver.
  - intros y n Hy Hn <-. destruct (rep_live _ _ _ Hb Hy) as (n' & ? & ? & ? & ? & ? & ?). naive_solver.
Qed.

Lemma rep_added_iff x n :
  aget (pDphNodeArray t) x = Some n -> added n = true <-> m !! staAddr n = Some x.
Proof.
  intros Hn. split.
  - intros Ha. apply (dr_map _ _ _ Hrep). eauto.
  - intros Hm. apply (dr_map _ _ _ Hrep) in Hm as (n' & Hn' & Ha & _). congruence.
Qed.
End Rep.

(** ** Walks along a chain *)

(** What a walk for address [a] may assume of the chain [l] it is given. *)
Definition walk_ok (t : dphHashTableClass) (m : gmap (list Z) Z) (a : list Z) (l : list Z) : Prop :=
  (forall y, y ∈ l -> exists n, aget (pDphNodeArray t) y = Some n /\ added n = true
     /\ assocId n = y /\ length (staAddr n) = 6%nat /\ m !! staAddr n = Some y) /\
  match m !! a with Some x => x ∈ l | None => True end.

Lemma rep_walk_ok t cs m a b l :
  dph_rep t cs m -> length a = 6%nat -> hashFunction a (size t) = Some b ->
  aget cs b = Some l -> walk_ok t m a l.
Proof.
  intros Hr Ha Hh Hb. split.
  - intros y Hy. destruct (rep_live Hr _ _ _ Hb Hy) as (n & ? & ? & ? & ? & ? & ?). eauto 10.
  - pose proof (rep_find Hr _ _ _ Ha Hh Hb). by destruct (m !! a).
Qed.

Section Walks.
Context {t : dphHashTableClass} {m : gmap (list Z) Z} {a : list Z}.
Hypothesis Ha : length a = 6%nat.
Hypothesis Hm : forall x n, m !! a = Some x -> aget (pDphNodeArray t) x = Some n -> staAddr n = a.

(** One step: the node at the front is the mapped one exactly when the addresses agree. *)
Lemma walk_step y l :
  walk_ok t m a (y :: l) -> exists n, aget (pDphNodeArray t) y = Some n /\ added n = true /\
    assocId n = y /\ dphCompareMacAddr a (staAddr n) = bool_decide (m !! a = Some y) /\
    (m !! a <> Some y -> walk_ok t m a l).
Proof.
  intros [Hl Hx]. destruct (Hl y) as (n & Hn & Had & Hid & H6 & Hy); [set_solver|].
  exists n. split_and!; try done.
  - rewrite mac_compare by done. apply bool_decide_ext. split; [by intros ->|].
    intros Hay. symmetry. by eapply Hm.
  - intros Hne. split; [intros; apply Hl; set_solver|].
    destruct (m !! a) as [x|]; [|done]. set_solver.
Qed.

Lemma lookup_walk x0 l ptr fuel :
  chain (pDphNodeArray t) ptr l -> walk_ok t m a l -> (length l < fuel)%nat ->
  runs (miter fuel (fun ptr : option Z =>
        match ptr with
        | None => mreturn (inr (None, x0))
        | Some p =>
            n <- node p ;;
            if dphCompareMacAddr a (staAddr n)
            then mreturn (inr (Some p, assocId n))
            else mreturn (inl (next n))
        end) ptr) t
    (fun r t' => t' = t /\ r = match m !! a with Some x => (Some x, x) | None => (None, x0) end).
Proof.
  intros Hc. revert fuel. induction Hc as [|p n l Hp Hc IH]; intros fuel Hok Hf;
    (destruct fuel as [|fuel]; [cbn in Hf; lia|]); cbn [miter]; mstep.
  - mstep. mstep. destruct Hok as [_ Hin]. destruct (m !! a); [set_solver|done].
  - destruct (walk_step _ _ Hok) as (n' & Hn' & _ & Hid & Hcmp & Hrest).
    rewrite Hp in Hn'. injection Hn' as <-.
    unfold node. msteps. rewrite Hcmp. case_bool_decide as Hd; mstep.
    + mstep. rewrite Hd, Hid. done.
    + apply IH; [by apply Hrest|cbn in Hf; lia].
Qed.

Lemma add_walk aid l ptr fuel :
  chain (pDphNodeArray t) ptr l -> walk_ok t m a l -> NoDup l ->
  (forall n, aget (pDphNodeArray t) aid = Some n -> added n = false) ->
  (length l < fuel)%nat ->
  runs (miter fuel (fun ptr : option Z =>
        match ptr with
        | None => mreturn (inr false)
        | Some p =>
            n <- node p ;;
            if bool_decide (Some p = next n) then mreturn (inr true)
            else if dphCompareMacAddr a (staAddr n) || (assocId n =? aid)
            then mreturn (inr true)
            else mreturn (inl (next n))
        end) ptr) t
    (fun r t' => t' = t /\ r = match m !! a with Some _ => true | None => false end).
Proof.
  intros Hc. revert fuel. induction Hc as [|p n l Hp Hc IH]; intros fuel Hok Hnd Haid Hf;
    (destruct fuel as [|fuel]; [cbn in Hf; lia|]); cbn [miter]; mstep.
  - mstep. mstep. destruct Hok as [_ Hin]. destruct (m !! a); [set_solver|done].
  - destruct (walk_step _ _ Hok) as (n' & Hn' & Had & Hid & Hcmp & Hrest).
    rewrite Hp in Hn'. injection Hn' as <-. apply NoDup_cons in Hnd as [Hpl Hnd].
    unfold node. msteps. rewrite bool_decide_eq_false_2.
    2: { intros Heq. rewrite <- Heq in Hc. inversion Hc. set_solver. }
    rewrite Hid, Hcmp. rewrite (proj2 (Z.eqb_neq p aid)).
    2: { intros ->. rewrite (Haid n) in Had; done. }
    rewrite orb_false_r. case_bool_decide as Hd; mstep.
    + mstep. by rewrite Hd.
    + apply IH; [by apply Hrest|done|done|cbn in Hf; lia].
Qed.

Lemma delete_walk l prev ptr fuel :
  chain (pDphNodeArray t) ptr l -> walk_ok t m a l -> NoDup l ->
  (forall q, prev = Some q -> q ∉ l) -> (length l < fuel)%nat ->
  runs (miter fuel (fun '((prev, ptr) : option Z * option Z) =>
        match ptr with
        | None => mreturn (inr (Some (prev, None)))
        | Some p =>
            n <- node p ;;
            if dphCompareMacAddr a (staAddr n) then mreturn (inr (Some (prev, Some p)))
            else if bool_decide (prev = ptr) then mreturn (inr None)
            else mreturn (inl (ptr, next n))
        end) (prev, ptr)) t
    (fun r t' => t' = t /\
       match m !! a with
       | Some x => exists pre suf, l = pre ++ x :: suf /\
           r = Some (match last pre with Some q => Some q | None => prev end, Some x)
       | None => exists q, r = Some (q, None)
       end).
Proof.
  intros Hc. revert prev fuel.
  induction Hc as [|p n l Hp Hc IH]; intros prev fuel Hok Hnd Hprev Hf;
    (destruct fuel as [|fuel]; [cbn in Hf; lia|]); cbn [miter]; mstep.
  - mstep. mstep. destruct Hok as [_ Hin]. split; [done|]. destruct (m !! a); [set_solver|eauto].
  - destruct (walk_step _ _ Hok) as (n' & Hn' & Had & Hid & Hcmp & Hrest).
    rewrite Hp in Hn'. injection Hn' as <-. apply NoDup_cons in Hnd as [Hpl Hnd].
    unfold node. msteps. rewrite Hcmp. case_bool_decide as Hd.
    + do 2 mstep. split; [done|]. rewrite Hd. by exists [], l.
    + rewrite bool_decide_eq_false_2 by (intros ->; specialize (Hprev p eq_refl); set_solver).
      mstep. eapply runs_mono.
      * apply IH; [by apply Hrest|done|by intros q [= <-]|cbn in Hf; lia].
      * intros r t' [-> Hr]. split; [done|]. destruct (m !! a) as [x|]; [|done].
        destruct Hr as (pre & suf & -> & ->). exists (p :: pre), suf. split; [done|].
        by destruct pre as [|? ? _] using rev_ind; rewrite ?last_cons, ?last_snoc.
Qed.
End Walks.

(** ** The operations refine the map's *)

Lemma runs_node ptr n t (Q : tDphHashNode -> dphHashTableClass -> Prop) :
  aget (pDphNodeArray t) ptr = Some n -> Q n t -> runs (node ptr) t Q.
Proof. intros. unfold node. by msteps. Qed.

Lemma runs_node_write ptr n t (Q : unit -> dphHashTableClass -> Prop) :
  0 <= ptr < Z.of_nat (length (pDphNodeArray t)) ->
  Q tt (set_nodes (<[Z.to_nat ptr := n]> (pDphNodeArray t)) t) -> runs (node_write ptr n) t Q.
Proof.
  intros. unfold node_write. mstep. mstep. mstep. eapply runs_oget; [by apply aset_Some|]. by mstep.
Qed.

Lemma runs_bucket b hs h t (Q : option Z -> dphHashTableClass -> Prop) :
  pHashTable t = Some hs -> aget hs b = Some h -> Q h t -> runs (bucket b) t Q.
Proof. intros. unfold bucket. by msteps. Qed.

Lemma runs_bucket_write b v hs t (Q : unit -> dphHashTableClass -> Prop) :
  pHashTable t = Some hs -> 0 <= b < Z.of_nat (length hs) ->
  Q tt (set_heads (<[Z.to_nat b := v]> hs) t) -> runs (bucket_write b v) t Q.
Proof.
  intros. unfold bucket_write. mstep. mstep. mstep. mstep. mstep.
  eapply runs_oget; [by apply aset_Some|]. by mstep.
Qed.

Lemma dphLookupHashEntry_spec t cs m a x0 :
  dph_rep t cs m -> length a = 6%nat ->
  runs (dphLookupHashEntry a x0) t (fun r t' => t' = t /\
    r = match m !! a with Some x => (Some x, x) | None => (None, x0) end).
Proof.
  intros Hr Ha. destruct (rep_bucket Hr a Ha) as (b & l & hs & h & Hh & Hb & Hl & Hhs & Hhb & Hc).
  unfold dphLookupHashEntry. mstep. mstep. mstep. eapply runs_oget; [done|]. rewrite Hhs.
  mstep. eapply runs_bucket; [done..|]. mstep. unfold chain_fuel. mstep.
  apply lookup_walk with (l := l); [done| |done|by eapply rep_walk_ok|].
  - intros x n Hx Hn. apply (dr_map _ _ _ Hr) in Hx as (n' & ? & _ & ?). congruence.
  - pose proof (rep_chain_length Hr _ _ Hl). lia.
Qed.

Lemma dphGetHashEntry_spec t cs m i :
  dph_rep t cs m -> 0 <= i ->
  runs (dphGetHashEntry i) t (fun r t' => t' = t /\
    (r = Some i /\ (exists a, m !! a = Some i) \/ r = None /\ forall a, m !! a <> Some i)).
Proof.
  intros Hr Hi. unfold dphGetHashEntry. mstep. mstep.
  destruct (Z.ltb_spec i (size t)) as [Hlt|Hge].
  - destruct (aget_is_Some (pDphNodeArray t) i) as [n Hn]; [rewrite (dr_nodes _ _ _ Hr); lia|].
    mstep. eapply runs_node; [done|]. mstep. split; [done|].
    destruct (added n) eqn:Had.
    + left. split; [done|]. exists (staAddr n). by apply (rep_added_iff Hr).
    + right. split; [done|]. intros a Hm. apply (dr_map _ _ _ Hr) in Hm as (n' & Hn' & ? & _).
      congruence.
  - mstep. split; [done|]. right. split; [done|]. intros a Hm.
    apply (dr_map _ _ _ Hr) in Hm as (n' & Hn'%aget_Some_range & _).
    rewrite (dr_nodes _ _ _ Hr) in Hn'. lia.
Qed.

(** Is the association id in use? *)
Definition aid_used (t : dphHashTableClass) (aid : Z) : bool :=
  match aget (pDphNodeArray t) aid with Some n => added n | None => false end.

Lemma aget_nodes_upd ns x (n' : tDphHashNode) y :
  0 <= x < Z.of_nat (length ns) ->
  aget (<[Z.to_nat x := n']> ns) y = if decide (y = x) then Some n' else aget ns y.
Proof.
  intros. case_decide as Hd; [subst; by apply aget_insert_eq|apply aget_insert_ne; naive_solver lia].
Qed.

Section AddRep.
Context {t : dphHashTableClass} {cs : list (list Z)} {m : gmap (list Z) Z}.
Hypothesis Hrep : dph_rep t cs m.
Variables (a : list Z) (b aid : Z) (l : list Z) (hs : list (option Z)) (h : option Z).
Variables (n0 n1 : tDphHashNode).
Hypothesis Ha : length a = 6%nat.
Hypothesis Hb : hashFunction a (size t) = Some b.
Hypothesis Hl : aget cs b = Some l.
Hypothesis Hhs : pHashTable t = Some hs.
Hypothesis Hhb : aget hs b = Some h.
Hypothesis Hc : chain (pDphNodeArray t) h l.
Hypothesis Hma : m !! a = None.
Hypothesis Hn0 : aget (pDphNodeArray t) aid = Some n0.
Hypothesis Hfree : added n0 = false.
Hypothesis Hn1 : added n1 = true /\ assocId n1 = aid /\ staAddr n1 = a /\ next n1 = h.

Lemma aid_not_in_chain b' l' : aget cs b' = Some l' -> aid ∉ l'.
Proof.
  intros Hl' Hin. destruct (rep_live Hrep _ _ _ Hl' Hin) as (n & Hn & Had & _). congruence.
Qed.

Lemma add_rep :
  dph_rep (set_heads (<[Z.to_nat b := Some aid]> hs)
             (set_nodes (<[Z.to_nat aid := n1]> (pDphNodeArray t)) t))
          (<[Z.to_nat b := aid :: l]> cs) (<[a := aid]> m).
Proof.
  pose proof (aget_Some_range _ _ _ Hn0) as Hra. pose proof (aget_Some_range _ _ _ Hl) as Hrb.
  pose proof (aget_Some_range _ _ _ Hhb) as Hrh. destruct Hn1 as (Had1 & Hid1 & Hst1 & Hnx1).
  pose proof Hrep as [Hs (hs' & Hhs' & Hlh & Hch) Hn Hcs Hlive Hmap Hin].
  rewrite Hhs in Hhs'. injection Hhs' as <-.
  assert (Hold : forall b' l', aget cs b' = Some l' -> forall x, x ∈ l' -> live_in t b' x ->
    live_in (set_heads (<[Z.to_nat b := Some aid]> hs)
             (set_nodes (<[Z.to_nat aid := n1]> (pDphNodeArray t)) t)) b' x).
  { intros b' l' Hl' x Hx (n & Hn' & ?). exists n. split; [|done]. cbn.
    rewrite aget_insert_ne; [done|lia|]. intros <-. by eapply aid_not_in_chain. }
  split; cbn; try (by rewrite ?length_insert).
  - exists (<[Z.to_nat b := Some aid]> hs). split; [done|]. split; [by rewrite length_insert|].
    intros b' l' Hl'. destruct (decide (b' = b)) as [->|Hne].
    + rewrite aget_insert_eq in Hl' by done. injection Hl' as <-. exists (Some aid).
      split; [by apply aget_insert_eq|]. econstructor; [by apply aget_insert_eq|].
      rewrite Hnx1. eapply chain_update; [done..|]. left. by eapply aid_not_in_chain.
    + rewrite aget_insert_ne in Hl' by (done || lia). destruct (Hch _ _ Hl') as (h' & Hh' & Hc').
      exists h'. split; [by rewrite aget_insert_ne by (done || lia)|].
      eapply chain_update; [done..|]. left. by eapply aid_not_in_chain.
  - intros b' l' Hl'. destruct (decide (b' = b)) as [->|Hne].
    + rewrite aget_insert_eq in Hl' by done. injection Hl' as <-. destruct (Hlive _ _ Hl) as [HF Hnd].
      split; [|constructor; [by eapply aid_not_in_chain|done]]. constructor.
      * exists n1. cbn. rewrite aget_insert_eq by done. rewrite Hst1. by split_and!.
      * apply Forall_forall. intros x Hx. rewrite Forall_forall in HF. by eapply Hold; auto.
    + rewrite aget_insert_ne in Hl' by (done || lia). destruct (Hlive _ _ Hl') as [HF Hnd].
      split; [|done]. apply Forall_forall. intros x Hx. rewrite Forall_forall in HF.
      by eapply Hold; auto.
  - intros a' x. rewrite aget_nodes_upd by done. rewrite lookup_insert.
    case_decide as Hda; case_decide as Hdx.
    + naive_solver.
    + split; [congruence|]. intros Hex%Hmap. congruence.
    + split.
      * intros (n & ? & ? & ?)%Hmap. congruence.
      * intros (n & [= <-] & _ & Heq). congruence.
    + apply Hmap.
  - intros x n. rewrite aget_nodes_upd by done. case_decide as Hdx.
    + intros _ _. subst x. exists b, (aid :: l). split; [by apply aget_insert_eq|set_solver].
    + intros Hx Hax. destruct (Hin _ _ Hx Hax) as (b' & l' & Hl' & Hxl).
      destruct (decide (b' = b)) as [->|Hne].
      * exists b, (aid :: l). rewrite aget_insert_eq by done. split; [done|]. set_solver.
      * exists b', l'. by rewrite aget_insert_ne by (done || lia).
Qed.
End AddRep.

Lemma mapM_bytes a : length a = 6%nat -> (mapM (M:=option) (B:=Z) (aget a) (seqZ 0 6)) = Some a.
Proof.
  intros Ha. do 6 (destruct a as [|? a]; [done|]). destruct a; [|done].
  change (seqZ 0 6) with [0;1;2;3;4;5]. cbn [mapM mbind option_bind].
  rewrite !aget_lookup by lia. change (Z.to_nat 0) with 0%nat. change (Z.to_nat 1) with 1%nat.
  change (Z.to_nat 2) with 2%nat. change (Z.to_nat 3) with 3%nat.
  change (Z.to_nat 4) with 4%nat. change (Z.to_nat 5) with 5%nat. reflexivity.
Qed.

(** The node [dphInitStaState] leaves for [addr] in place of [n]. *)
Definition fresh_node (cfg_frag : option Z) (addr : list Z) (aid : Z) (validStaIdx : bool)
    (n : tDphHashNode) : tDphHashNode :=
  {| valid := true; added := true; encPolicy := HAL_ENC_POLICY_NULL;
     fragSize := (match cfg_frag with Some val => u16 val | None => 0 end);
     assocId := aid;
     staIndex := (if validStaIdx then staIndex n else HAL_STA_INVALID_IDX);
     staAddr := addr; isDisassocDeauthInProgress := 0; last_assoc_received_time := 0;
     sta_deletion_in_progress := false;
     others := replicate (length (others n)) 0; next := next n |}.

Lemma dphInitStaState_spec cfg a aid v t n Q :
  length a = 6%nat -> 0 <= aid < 256 -> aid < size t ->
  aget (pDphNodeArray t) aid = Some n ->
  Q (Some aid) (set_nodes (<[Z.to_nat aid := fresh_node cfg a aid v n]> (pDphNodeArray t)) t) ->
  runs (dphInitStaState cfg a aid v) t Q.
Proof.
  intros Ha Haid Hlt Hn HQ. unfold dphInitStaState, getNode. rewrite u8_small by lia.
  mstep. mstep. rewrite (proj2 (Z.leb_gt (size t) aid)) by lia.
  mstep. eapply runs_node; [done|]. mstep. eapply runs_oget; [by apply mapM_bytes|].
  mstep. apply runs_node_write; [by eapply aget_Some_range|]. by mstep.
Qed.

Definition add_ok (t : dphHashTableClass) (m : gmap (list Z) Z) (a : list Z) (aid : Z) : bool :=
  (aid <? size t) && negb (aid_used t aid) && bool_decide (m !! a = None).

Lemma dphAddHashEntry_cases cfg t cs m a aid :
  dph_rep t cs m -> length a = 6%nat -> 0 <= aid ->
  runs (dphAddHashEntry cfg a aid) t (fun r t' =>
    if add_ok t m a aid then r = Some aid /\ size t' = size t /\ exists cs', dph_rep t' cs' (<[a := aid]> m)
    else r = None /\ t' = t).
Proof.
  intros Hr Ha Haid.
  destruct (rep_bucket Hr a Ha) as (b & l & hs & h & Hh & Hb & Hl & Hhs & Hhb & Hc).
  pose proof (dr_size _ _ _ Hr) as Hs. pose proof (dr_nodes _ _ _ Hr) as Hnl.
  unfold dphAddHashEntry, add_ok, aid_used. mstep. mstep. mstep. eapply runs_oget; [done|].
  destruct (Z.leb_spec (size t) aid) as [Hge|Hlt].
  { rewrite (proj2 (Z.ltb_ge aid (size t))) by lia. by mstep. }
  rewrite (proj2 (Z.ltb_lt aid (size t))) by lia.
  destruct (aget_is_Some (pDphNodeArray t) aid) as [n Hn]; [lia|]. rewrite Hn.
  mstep. eapply runs_node; [done|]. destruct (added n) eqn:Had; [by mstep|]. cbn [negb andb].
  mstep. eapply runs_bucket; [done..|]. unfold chain_fuel. mstep. mstep. mstep.
  eapply runs_mono.
  { apply (@add_walk t m a Ha) with (l := l); [|done| | |naive_solver|].
    - intros x nx Hx Hnx. apply (dr_map _ _ _ Hr) in Hx as (n' & ? & _ & ?). congruence.
    - by eapply rep_walk_ok.
    - by eapply (dr_live _ _ _ Hr).
    - pose proof (rep_chain_length Hr _ _ Hl). lia. }
  intros r t' [-> ->]. destruct (m !! a) as [x|] eqn:Hma; [by mstep|].
  rewrite bool_decide_eq_true_2 by done.
  mstep. eapply dphInitStaState_spec; [done|lia|lia|done|].
  mstep. eapply runs_bucket; [done..|].
  mstep. eapply runs_node; [cbn; apply aget_insert_eq; lia|].
  mstep. apply runs_node_write; [cbn; rewrite length_insert; lia|].
  mstep. eapply runs_bucket_write; [done|by eapply aget_Some_range|].
  assert (Hbr : 0 <= b < Z.of_nat (length hs)) by (by eapply aget_Some_range).
  eapply runs_bucket; [done|by apply aget_insert_eq|].
  split; [done|]. split; [done|]. exists (<[Z.to_nat b := aid :: l]> cs). cbn. rewrite list_insert_insert_eq.
  eapply (add_rep Hr a b aid l hs h n (set_next h (fresh_node cfg a aid false n))); try done.
Qed.

(** *** Deletion *)

Definition set_next_of (q : option Z) (v : option Z) (ns : list tDphHashNode) : list tDphHashNode :=
  match q with
  | None => ns
  | Some q => match aget ns q with Some n => <[Z.to_nat q := set_next v n]> ns | None => ns end
  end.

(** Same node up to [next]. *)
Definition eqv_next (n n' : tDphHashNode) : Prop := set_next None n = set_next None n'.

Lemma eqv_next_fields n n' : eqv_next n n' ->
  added n = added n' /\ assocId n = assocId n' /\ staAddr n = staAddr n'.
Proof. unfold eqv_next. by intros [=]. Qed.

Lemma set_next_of_get q v ns y n :
  aget ns y = Some n ->
  aget (set_next_of q v ns) y = Some (if decide (q = Some y) then set_next v n else n).
Proof.
  intros Hy. destruct q as [q|]; cbn; [|by rewrite decide_False].
  destruct (aget ns q) as [nq|] eqn:Hq; [|rewrite decide_False; congruence].
  rewrite aget_nodes_upd by (by eapply aget_Some_range).
  repeat case_decide; simplify_eq; try done; congruence.
Qed.

Lemma set_next_of_length q v ns : length (set_next_of q v ns) = length ns.
Proof. destruct q as [q|]; cbn; [|done]. destruct (aget ns q); [apply length_insert|done]. Qed.

(** Unlinking [x] from its chain. *)
Lemma chain_unlink ns h pre x nx suf :
  chain ns h (pre ++ x :: suf) -> NoDup (pre ++ x :: suf) -> aget ns x = Some nx ->
  chain (set_next_of (last pre) (next nx) ns)
        (match pre with [] => next nx | _ => h end) (pre ++ suf).
Proof.
  revert h. induction pre as [|p pre IH]; intros h Hc Hnd Hx.
  - inversion Hc; simplify_eq. done.
  - inversion Hc as [|? np ? Hp Hc']; simplify_eq.
    cbn in Hnd. apply NoDup_cons in Hnd as [Hpn Hnd]. specialize (IH _ Hc' Hnd Hx).
    rewrite last_cons. cbn. destruct pre as [|q pre].
    + cbn in *. rewrite Hp. inversion Hc'; simplify_eq.
      econstructor; [apply aget_insert_eq; by eapply aget_Some_range|]. cbn.
      eapply chain_update; [done..|]. left. set_solver.
    + destruct (last (q :: pre)) as [z|] eqn:Hz; [|by apply last_None in Hz].
      econstructor; [rewrite (set_next_of_get _ _ _ _ _ Hp)|].
      * rewrite decide_False; [done|]. intros [= ->]. apply Hpn.
        apply last_Some_elem_of in Hz. set_solver.
      * apply IH.
Qed.

Section DelRep.
Context {t : dphHashTableClass} {cs : list (list Z)} {m : gmap (list Z) Z}.
Hypothesis Hrep : dph_rep t cs m.
Variables (a : list Z) (b x : Z) (pre suf : list Z) (hs : list (option Z)) (h : option Z).
Variables (nx nx' : tDphHashNode).
Let l := pre ++ x :: suf.
Hypothesis Hb : hashFunction a (size t) = Some b.
Hypothesis Hl : aget cs b = Some l.
Hypothesis Hhs : pHashTable t = Some hs.
Hypothesis Hhb : aget hs b = Some h.
Hypothesis Hc : chain (pDphNodeArray t) h l.
Hypothesis Hma : m !! a = Some x.
Hypothesis Hnx : aget (pDphNodeArray t) x = Some nx.
Hypothesis Hdead : added nx' = false.

Let ns' := <[Z.to_nat x := nx']> (set_next_of (last pre) (next nx) (pDphNodeArray t)).
Let hs' := match pre with [] => <[Z.to_nat b := next nx]> hs | _ => hs end.

Lemma del_get y n : aget (pDphNodeArray t) y = Some n -> y <> x ->
  exists n', aget ns' y = Some n' /\ eqv_next n' n.
Proof.
  intros Hy Hne. unfold ns'. pose proof (aget_Some_range _ _ _ Hnx).
  rewrite aget_insert_ne by (lia || done). rewrite (set_next_of_get _ _ _ _ _ Hy).
  eexists. split; [done|]. by case_decide.
Qed.

Lemma del_get_inv y n' : aget ns' y = Some n' -> y <> x ->
  exists n, aget (pDphNodeArray t) y = Some n /\ eqv_next n' n.
Proof.
  intros Hy Hne. pose proof (aget_Some_range _ _ _ Hy) as Hry. unfold ns' in Hry.
  rewrite length_insert, set_next_of_length in Hry.
  destruct (aget_is_Some _ _ Hry) as [n Hn]. exists n. split; [done|].
  destruct (del_get _ _ Hn Hne) as (n'' & ? & ?). congruence.
Qed.

Lemma del_chain_other b' l' h' :
  aget cs b' = Some l' -> b' <> b -> chain (pDphNodeArray t) h' l' -> chain ns' h' l'.
Proof.
  intros Hl' Hne Hc'.
  assert (Hdis : forall y, y ∈ l -> y ∉ l').
  { intros y Hy Hy'. destruct (rep_live Hrep _ _ _ Hl Hy) as (? & ? & ? & ? & ? & ? & ?).
    destruct (rep_live Hrep _ _ _ Hl' Hy') as (? & ? & ? & ? & ? & ? & ?). congruence. }
  unfold ns'. eapply (chain_update _ _ _ _ (if decide (last pre = Some x) then set_next (next nx) nx else nx)).
  - destruct (last pre) as [q|] eqn:Hq; [|done]. cbn.
    destruct (aget (pDphNodeArray t) q) as [nq|] eqn:Hnq; [|done].
    eapply chain_update; [done..|]. left. apply Hdis. apply last_Some_elem_of in Hq. set_solver.
  - by apply set_next_of_get.
  - left. apply Hdis. set_solver.
Qed.

Lemma del_rep :
  dph_rep {| pHashTable := Some hs'; pDphNodeArray := ns'; size := size t |}
          (<[Z.to_nat b := pre ++ suf]> cs) (delete a m).
Proof.
  pose proof Hrep as [Hs (hs0 & Hhs' & Hlh & Hch) Hn Hcs Hlive Hmap Hin].
  rewrite Hhs in Hhs'. injection Hhs' as <-.
  pose proof (aget_Some_range _ _ _ Hnx) as Hrx. pose proof (aget_Some_range _ _ _ Hl) as Hrb.
  pose proof (aget_Some_range _ _ _ Hhb) as Hrh.
  destruct (Hlive _ _ Hl) as [HF Hnd]. rewrite Forall_forall in HF.
  pose proof Hnd as Hnd'. unfold l in Hnd'. rewrite <- Permutation_middle in Hnd'.
  apply NoDup_cons in Hnd' as [Hxn Hnd'].
  assert (Hlv : forall b' y, live_in t b' y -> y <> x ->
    live_in {| pHashTable := Some hs'; pDphNodeArray := ns'; size := size t |} b' y).
  { intros b' y (n & Hy & Had & Hid & H6 & Hh) Hne. destruct (del_get _ _ Hy Hne) as (n' & Hn' & He).
    destruct (eqv_next_fields _ _ He) as (? & ? & ?). exists n'. cbn. split_and!; congruence. }
  assert (Hxother : forall b' l', aget cs b' = Some l' -> b' <> b -> x ∉ l').
  { intros b' l' Hl' Hne Hx. destruct (rep_live Hrep _ _ _ Hl' Hx) as (? & ? & ? & ? & ? & ? & ?).
    destruct (rep_live Hrep _ _ x Hl) as (? & ? & ? & ? & ? & ? & ?); [unfold l; set_solver|]. congruence. }
  split; cbn; try done.
  - exists hs'. split; [done|]. split; [unfold hs'; destruct pre; by rewrite ?length_insert|].
    intros b' l' Hl'. destruct (decide (b' = b)) as [->|Hne].
    + rewrite aget_insert_eq in Hl' by done. injection Hl' as <-.
      exists (match pre with [] => next nx | _ => h end). split.
      * unfold hs'. destruct pre; [by apply aget_insert_eq|done].
      * eapply chain_update; [by apply (chain_unlink _ _ _ x)| |left; done].
        by apply set_next_of_get.
    + rewrite aget_insert_ne in Hl' by (done || lia). destruct (Hch _ _ Hl') as (h' & Hh' & Hc').
      exists h'. split; [|by eapply del_chain_other].
      unfold hs'. destruct pre; [by rewrite aget_insert_ne by (done || lia)|done].
  - unfold ns'. by rewrite length_insert, set_next_of_length.
  - by rewrite length_insert.
  - intros b' l' Hl'. destruct (decide (b' = b)) as [->|Hne].
    + rewrite aget_insert_eq in Hl' by done. injection Hl' as <-. split; [|done].
      apply Forall_forall. intros y Hy. apply Hlv; [apply HF; unfold l; set_solver|set_solver].
    + rewrite aget_insert_ne in Hl' by (done || lia). destruct (Hlive _ _ Hl') as [HF' ?].
      split; [|done]. apply Forall_forall. intros y Hy. rewrite Forall_forall in HF'.
      apply Hlv; [by apply HF'|]. intros ->. by eapply Hxother.
  - intros a' y. rewrite lookup_delete. case_decide as Hda.
    + split; [done|]. intros (n' & Hn' & Had & Hst). destruct (decide (y = x)) as [->|Hne].
      * unfold ns' in Hn'. rewrite aget_insert_eq in Hn' by (by rewrite set_next_of_length). congruence.
      * destruct (del_get_inv _ _ Hn' Hne) as (n & Hy & He). destruct (eqv_next_fields _ _ He) as (? & ? & ?).
        assert (m !! a' = Some y) by (apply Hmap; exists n; split_and!; congruence). congruence.
    + rewrite Hmap. split.
      * intros (n & Hy & Had & Hst). assert (Hne : y <> x).
        { intros ->. assert (m !! a = Some x) as (n2 & ? & ? & ?)%Hmap by done. congruence. }
        destruct (del_get _ _ Hy Hne) as (n' & Hn' & He). destruct (eqv_next_fields _ _ He) as (? & ? & ?).
        exists n'. split_and!; congruence.
      * intros (n' & Hn' & Had & Hst). destruct (decide (y = x)) as [->|Hne].
        { unfold ns' in Hn'. rewrite aget_insert_eq in Hn' by (by rewrite set_next_of_length). congruence. }
        destruct (del_get_inv _ _ Hn' Hne) as (n & Hy & He). destruct (eqv_next_fields _ _ He) as (? & ? & ?).
        exists n. split_and!; congruence.
  - intros y n' Hn' Had. destruct (decide (y = x)) as [->|Hne].
    { unfold ns' in Hn'. rewrite aget_insert_eq in Hn' by (by rewrite set_next_of_length). congruence. }
    destruct (del_get_inv _ _ Hn' Hne) as (n & Hy & He). destruct (eqv_next_fields _ _ He) as (Ha1 & _ & _).
    destruct (Hin _ _ Hy) as (b' & l' & Hl' & Hyl); [congruence|].
    destruct (decide (b' = b)) as [->|Hneb].
    + exists b, (pre ++ suf). rewrite aget_insert_eq by done. split; [done|].
      rewrite Hl in Hl'. injection Hl' as <-. unfold l in Hyl. set_solver.
    + exists b', l'. by rewrite aget_insert_ne by (done || lia).
Qed.
End DelRep.

Definition delete_ok (t : dphHashTableClass) (m : gmap (list Z) Z) (a : list Z) (aid : Z) : bool :=
  (aid <? size t) && aid_used t aid && bool_decide (is_Some (m !! a)).

Lemma dphDeleteHashEntry_cases t cs m a aid :
  dph_rep t cs m -> length a = 6%nat -> 0 <= aid ->
  runs (dphDeleteHashEntry a aid) t (fun r t' =>
    if delete_ok t m a aid then r = eSIR_SUCCESS /\ size t' = size t /\ exists cs', dph_rep t' cs' (delete a m)
    else r = eSIR_FAILURE /\ t' = t).
Proof.
  intros Hr Ha Haid.
  destruct (rep_bucket Hr a Ha) as (b & l & hs & h & Hh & Hb & Hl & Hhs & Hhb & Hc).
  pose proof (dr_size _ _ _ Hr) as Hs. pose proof (dr_nodes _ _ _ Hr) as Hnl.
  unfold dphDeleteHashEntry, delete_ok, aid_used. mstep. mstep. mstep. eapply runs_oget; [done|].
  destruct (Z.leb_spec (size t) aid) as [Hge|Hlt].
  { rewrite (proj2 (Z.ltb_ge aid (size t))) by lia. by mstep. }
  rewrite (proj2 (Z.ltb_lt aid (size t))) by lia.
  destruct (aget_is_Some (pDphNodeArray t) aid) as [n Hn]; [lia|]. rewrite Hn.
  mstep. eapply runs_node; [done|]. destruct (added n) eqn:Had; cbn [negb andb]; [|by mstep].
  mstep. eapply runs_bucket; [done..|]. unfold chain_fuel. mstep. mstep. mstep.
  destruct (dr_live _ _ _ Hr _ _ Hl) as [_ Hnd].
  eapply runs_mono.
  { apply (@delete_walk t m a Ha) with (l := l); [|done| |done|done|].
    - intros x nx Hx Hnx. apply (dr_map _ _ _ Hr) in Hx as (n' & ? & _ & ?). congruence.
    - by eapply rep_walk_ok.
    - pose proof (rep_chain_length Hr _ _ Hl). lia. }
  intros r t' [-> Hres]. destruct (m !! a) as [x|] eqn:Hma.
  2: { destruct Hres as [q ->]. by mstep. }
  destruct Hres as (pre & suf & -> & ->).
  replace (match last pre with Some q => Some q | None => None end) with (last pre)
    by (by destruct (last pre)).
  destruct (rep_live Hr _ _ x Hl) as (nx & Hnx & Hadx & _); [set_solver|].
  pose proof (aget_Some_range _ _ _ Hnx) as Hrx. pose proof (aget_Some_range _ _ _ Hhb) as Hrh.
  rewrite bool_decide_eq_true_2 by eauto.
  assert (Hxpre : last pre <> Some x).
  { intros Hz%last_Some_elem_of. apply NoDup_app in Hnd as (_ & Hd & _). apply (Hd x); set_solver. }
  mstep. eapply runs_node; [done|]. mstep. apply runs_node_write; [done|].
  set (n1 := Build_tDphHashNode false (added nx) _ _ _ _ _ _ _ _ _ _).
  mstep. destruct (last pre) as [q|] eqn:Hq.
  - assert (Hqx : q <> x) by congruence.
    destruct (rep_live Hr _ _ q Hl) as (nq & Hnq & _).
    { apply last_Some_elem_of in Hq. set_solver. }
    pose proof (aget_Some_range _ _ _ Hnq) as Hrq.
    mstep. eapply runs_node; [cbn; rewrite aget_insert_ne; [done|lia|done]|].
    apply runs_node_write; [cbn; by rewrite length_insert|].
    mstep. eapply runs_node; [cbn; rewrite aget_insert_ne by (lia || done); by apply aget_insert_eq|].
    mstep. apply runs_node_write; [cbn; by rewrite !length_insert|]. mstep.
    split; [done|]. split; [done|]. exists (<[Z.to_nat b := pre ++ suf]> cs).
    unfold set_nodes. cbn [pDphNodeArray pHashTable size].
    rewrite (list_insert_insert_ne _ (Z.to_nat q) (Z.to_nat x)) by lia.
    rewrite list_insert_insert_eq.
    set (n2 := Build_tDphHashNode _ false _ _ _ _ _ _ _ _ _ _).
    pose proof (del_rep Hr a b x pre suf hs h nx n2 Hh Hl Hhs Hhb Hc Hma Hnx eq_refl) as HR.
    rewrite Hq in HR. cbn [set_next_of] in HR. rewrite Hnq in HR.
    destruct pre; [done|]. by rewrite Hhs.
  - apply last_None in Hq as ->.
    eapply runs_bucket_write; [done|done|].
    mstep. eapply runs_node; [by apply aget_insert_eq|].
    mstep. apply runs_node_write; [cbn; by rewrite !length_insert|]. mstep.
    split; [done|]. split; [done|]. exists (<[Z.to_nat b := [] ++ suf]> cs).
    cbn [set_heads set_nodes pDphNodeArray pHashTable size]. rewrite list_insert_insert_eq.
    set (n2 := Build_tDphHashNode _ false _ _ _ _ _ _ _ _ _ _).
    exact (del_rep Hr a b x [] suf hs h nx n2 Hh Hl Hhs Hhb Hc Hma Hnx eq_refl).
Qed.

(** *** Initialisation *)

Lemma dphHashTableClassInit_rep t hs :
  0 < size t <= 256 -> pHashTable t = Some hs -> Z.of_nat (length hs) = size t ->
  Z.of_nat (length (pDphNodeArray t)) = size t ->
  runs dphHashTableClassInit t (fun _ t' =>
    size t' = size t /\ dph_rep t' (replicate (Z.to_nat (size t)) []) ∅).
Proof.
  intros Hs Hhs Hlh Hln. unfold dphHashTableClassInit. mstep. mstep. mstep.
  eapply runs_mono.
  { apply (runs_mfor (fun dn t' => size t' = size t /\ pDphNodeArray t' = pDphNodeArray t /\
      exists hs', pHashTable t' = Some hs' /\ length hs' = length hs /\
        forall i, i ∈ dn -> aget hs' i = Some None)).
    - intros dn i todo t' Heq (Hst & Hnt & hs' & Hhs' & Hl' & Hdn).
      assert (Hi : 0 <= i < 0 + size t) by (apply elem_of_seqZ; rewrite Heq; set_solver).
      eapply runs_bucket_write; [done|lia|]. cbn. split_and!; [done..|].
      eexists. split_and!; [done|by rewrite length_insert|]. intros j Hj.
      destruct (decide (i = j)) as [->|]; [apply aget_insert_eq; lia|].
      rewrite aget_insert_ne by (lia || done). apply Hdn. set_solver.
    - split_and!; [done..|]. exists hs. split_and!; [done..|]. set_solver. }
  intros [] t1 (Hs1 & Hn1 & hs1 & Hhs1 & Hl1 & Hd1).
  eapply runs_mono.
  { apply (runs_mfor (fun dn t' => size t' = size t /\ pHashTable t' = Some hs1 /\
      length (pDphNodeArray t') = length (pDphNodeArray t) /\
      forall i, i ∈ dn -> exists n, aget (pDphNodeArray t') i = Some n /\ added n = false)).
    - intros dn i todo t' Heq (Hst & Hht & Hl' & Hdn).
      assert (Hi : 0 <= i < 0 + size t) by (apply elem_of_seqZ; rewrite Heq; set_solver).
      destruct (aget_is_Some (pDphNodeArray t') i) as [n Hn]; [lia|].
      mstep. eapply runs_node; [done|]. apply runs_node_write; [lia|]. cbn.
      split_and!; [done|done|by rewrite length_insert|]. intros j Hj.
      destruct (decide (i = j)) as [->|]; [eexists; split; [apply aget_insert_eq; lia|done]|].
      rewrite aget_insert_ne by (lia || done). apply Hdn. set_solver.
    - split_and!; [done|done|by rewrite Hn1|set_solver]. }
  intros [] t2 (Hs2 & Hh2 & Hl2 & Hd2). split; [done|].
  assert (Hnone : forall x n, aget (pDphNodeArray t2) x = Some n -> added n = true -> False).
  { intros x n Hx Had. destruct (Hd2 x) as (n' & Hn' & ?); [|congruence].
    apply aget_Some_range in Hx. apply elem_of_seqZ. lia. }
  assert (Hrepl : forall b (l : list Z), aget (replicate (Z.to_nat (size t)) []) b = Some l ->
    l = [] /\ 0 <= b < size t).
  { intros b l Hb. pose proof (aget_Some_range _ _ _ Hb) as Hr. rewrite length_replicate in Hr.
    rewrite aget_lookup in Hb by lia. apply lookup_replicate in Hb as [? _]. split; [done|lia]. }
  split.
  - by rewrite Hs2.
  - exists hs1. split; [done|]. split; [lia|]. intros b l Hb. apply Hrepl in Hb as [-> Hb].
    exists None. split; [|constructor]. apply Hd1, elem_of_seqZ. lia.
  - lia.
  - rewrite length_replicate. lia.
  - intros b l Hb. apply Hrepl in Hb as [-> _]. split; constructor.
  - intros a x. rewrite lookup_empty. split; [done|]. intros (n & Hx & Had & _). destruct (Hnone _ _ Hx Had).
  - intros x n Hx Had. destruct (Hnone _ _ Hx Had).
Qed.

(** ** Refinement of a finite map by whole runs *)

Inductive dph_op :=
  | OpAdd (addr : list Z) (aid : Z)
  | OpDelete (addr : list Z) (aid : Z)
  | OpLookup (addr : list Z)
  | OpExist (addr : list Z) (aid : Z).

Inductive dph_res :=
  | ResNode (ptr : option Z)
  | ResStatus (s : tSirRetStatus)
  | ResBool (b : bool).

Definition exec_op (cfg : option Z) (op : dph_op) : D dph_res :=
  match op with
  | OpAdd a aid => r <- dphAddHashEntry cfg a aid ;; mreturn (ResNode r)
  | OpDelete a aid => r <- dphDeleteHashEntry a aid ;; mreturn (ResStatus r)
  | OpLookup a => r <- dphLookupHashEntry a 0 ;; mreturn (ResNode r.1)
  | OpExist a aid => r <- dph_entry_exist a aid ;; mreturn (ResBool r)
  end.

(** The abstract specification: a partial injective map from addresses to ids below [sz]. *)
Definition aid_in (m : gmap (list Z) Z) (aid : Z) : bool :=
  existsb (fun p => p.2 =? aid) (map_to_list m).

Definition spec_op (sz : Z) (op : dph_op) (m : gmap (list Z) Z) : dph_res * gmap (list Z) Z :=
  match op with
  | OpAdd a aid =>
      if (aid <? sz) && negb (aid_in m aid) && bool_decide (m !! a = None)
      then (ResNode (Some aid), <[a := aid]> m) else (ResNode None, m)
  | OpDelete a aid =>
      if (aid <? sz) && aid_in m aid && bool_decide (is_Some (m !! a))
      then (ResStatus eSIR_SUCCESS, delete a m) else (ResStatus eSIR_FAILURE, m)
  | OpLookup a => (ResNode (m !! a), m)
  | OpExist a aid =>
      (ResBool ((aid <? sz) && (aid_in m aid || bool_decide (is_Some (m !! a)))), m)
  end.

Fixpoint exec_ops (cfg : option Z) (ops : list dph_op) : D (list dph_res) :=
  match ops with
  | [] => mreturn []
  | op :: ops => r <- exec_op cfg op ;; rs <- exec_ops cfg ops ;; mreturn (r :: rs)
  end.

Fixpoint spec_ops (sz : Z) (ops : list dph_op) (m : gmap (list Z) Z) : list dph_res * gmap (list Z) Z :=
  match ops with
  | [] => ([], m)
  | op :: ops =>
      let '(r, m1) := spec_op sz op m in
      let '(rs, m2) := spec_ops sz ops m1 in (r :: rs, m2)
  end.

Definition op_ok (op : dph_op) : Prop :=
  match op with
  | OpAdd a aid | OpDelete a aid | OpExist a aid => length a = 6%nat /\ 0 <= aid
  | OpLookup a => length a = 6%nat
  end.

Lemma aid_in_used t cs m aid : dph_rep t cs m -> aid_in m aid = aid_used t aid.
Proof.
  intros Hr. apply eq_bool_prop_intro. unfold aid_in, aid_used. split.
  - intros Hex%Is_true_true. apply existsb_exists in Hex as ([a x] & Hin & Heq).
    apply list_elem_of_In, elem_of_map_to_list in Hin. cbn in Heq. apply Z.eqb_eq in Heq as ->.
    apply (dr_map _ _ _ Hr) in Hin as (n & -> & -> & _). done.
  - destruct (aget (pDphNodeArray t) aid) as [n|] eqn:Hn; [|done]. intros Had%Is_true_true.
    apply Is_true_true, existsb_exists. exists (staAddr n, aid). split; [|apply Z.eqb_refl].
    apply list_elem_of_In, elem_of_map_to_list. by apply (rep_added_iff Hr).
Qed.

Lemma exec_op_refines cfg op t cs m :
  dph_rep t cs m -> op_ok op ->
  runs (exec_op cfg op) t (fun r t' => size t' = size t /\
    exists cs', dph_rep t' cs' (spec_op (size t) op m).2 /\ r = (spec_op (size t) op m).1).
Proof.
  intros Hr Hop. destruct op as [a aid|a aid|a|a aid]; cbn [op_ok exec_op spec_op] in *; mstep.
  - destruct Hop. eapply runs_mono; [by eapply dphAddHashEntry_cases|]. intros r t' Hres. mstep.
    unfold add_ok in Hres. rewrite (aid_in_used _ _ _ _ Hr).
    destruct (_ && _ && _); [destruct Hres as (-> & ? & cs' & ?)|destruct Hres as [-> ->]]; eauto.
  - destruct Hop. eapply runs_mono; [by eapply dphDeleteHashEntry_cases|]. intros r t' Hres. mstep.
    unfold delete_ok in Hres. rewrite (aid_in_used _ _ _ _ Hr).
    destruct (_ && _ && _); [destruct Hres as (-> & ? & cs' & ?)|destruct Hres as [-> ->]]; eauto.
  - eapply runs_mono; [by eapply dphLookupHashEntry_spec|]. intros r t' [-> ->]. mstep.
    split; [done|]. exists cs. split; [done|]. by destruct (m !! a).
  - destruct Hop as [Ha Hpos]. rewrite (aid_in_used _ _ _ _ Hr).
    destruct (rep_bucket Hr a Ha) as (b & l & hs & h & Hh & _).
    unfold dph_entry_exist, aid_used. mstep. mstep. mstep. eapply runs_oget; [done|].
    destruct (Z.leb_spec (size t) aid) as [Hge|Hlt].
    { rewrite (proj2 (Z.ltb_ge aid (size t))) by lia. mstep. mstep. eauto. }
    rewrite (proj2 (Z.ltb_lt aid (size t))) by lia.
    destruct (aget_is_Some (pDphNodeArray t) aid) as [n Hn]; [rewrite (dr_nodes _ _ _ Hr); lia|].
    rewrite Hn. mstep. eapply runs_node; [done|]. destruct (added n); [by mstep; mstep; eauto|].
    mstep. eapply runs_mono; [by eapply dphLookupHashEntry_spec|]. intros r t' [-> ->].
    mstep. mstep. split; [done|]. exists cs. split; [done|]. cbn. f_equal.
    by destruct (m !! a).
Qed.

Lemma exec_ops_refine cfg ops t cs m :
  dph_rep t cs m -> Forall op_ok ops ->
  runs (exec_ops cfg ops) t (fun rs t' => size t' = size t /\
    exists cs', dph_rep t' cs' (spec_ops (size t) ops m).2 /\ rs = (spec_ops (size t) ops m).1).
Proof.
  revert t cs m. induction ops as [|op ops IH]; intros t cs m Hr Hok; cbn [exec_ops spec_ops].
  - mstep. eauto.
  - inversion_clear Hok as [|?? Hop Hops]. mstep.
    eapply runs_mono; [by eapply exec_op_refines|]. intros r t1 (Hs1 & cs1 & Hr1 & ->).
    mstep. eapply runs_mono; [by eapply IH|]. intros rs t2 (Hs2 & cs2 & Hr2 & ->). mstep.
    rewrite Hs1 in *. destruct (spec_op (size t) op m) as [r m1]. cbn in *.
    destruct (spec_ops (size t) ops m1) as [rs m2]. cbn in *.
    split; [done|]. eauto.
Qed.

(** ** Properties *)

(** C37.  From [dphHashTableClassInit] on, the station table is a finite partial map from
    MAC addresses to association ids: every sequence of additions, deletions, lookups and
    existence tests (with 6-byte addresses) runs without undefined behaviour and endless
    loops, and answers exactly what the map answers. *)
Theorem dph_refines_map cfg t hs ops :
  0 < size t <= 256 -> pHashTable t = Some hs -> Z.of_nat (length hs) = size t ->
  Z.of_nat (length (pDphNodeArray t)) = size t -> Forall op_ok ops ->
  runs (_ <- dphHashTableClassInit ;; exec_ops cfg ops) t (fun rs _ =>
    rs = (spec_ops (size t) ops ∅).1).
Proof.
  intros Hs Hhs Hlh Hln Hok. mstep.
  eapply runs_mono; [by eapply dphHashTableClassInit_rep|]. intros [] t1 (Hs1 & Hr1).
  eapply runs_mono; [by eapply exec_ops_refine|]. intros rs t2 (_ & cs & _ & ->).
  by rewrite Hs1.
Qed.

Definition ex_node : tDphHashNode :=
  {| valid := true; added := true; encPolicy := 0; fragSize := 0; assocId := 9; staIndex := 3;
     staAddr := [9;9;9;9;9;9]; isDisassocDeauthInProgress := 0; last_assoc_received_time := 0;
     sta_deletion_in_progress := false; others := [7]; next := Some 0 |}.
Definition ex_table : dphHashTableClass :=
  {| pHashTable := Some [Some 1; Some 2; None]; pDphNodeArray := [ex_node; ex_node; ex_node];
     size := 3 |}.
Definition ex_ops : list dph_op :=
  [OpAdd [1;2;3;4;5;6] 1; OpAdd [6;5;4;3;2;1] 2; OpLookup [6;5;4;3;2;1];
   OpDelete [1;2;3;4;5;6] 2; OpLookup [1;2;3;4;5;6]; OpLookup [6;5;4;3;2;1]].

Lemma dph_refines_map_witness :
  runs (_ <- dphHashTableClassInit ;; exec_ops (Some 2346) ex_ops) ex_table (fun rs _ =>
    rs = [ResNode (Some 1); ResNode (Some 2); ResNode (Some 2); ResStatus eSIR_SUCCESS;
          ResNode None; ResNode (Some 2)]).
Proof.
  pose proof (dph_refines_map (Some 2346) ex_table [Some 1; Some 2; None] ex_ops
    ltac:(zcompute) eq_refl eq_refl eq_refl
    ltac:(repeat constructor; zcompute)) as H.
  eapply runs_mono; [exact H|]. intros rs t' ->. vm_compute. reflexivity.
Defined.

(** [dphDeleteHashEntry] removes the station with the given address even when the
    given association id belongs to another station: it only checks that the id is in use. *)
Theorem dphDelete_by_address t cs m a aid x :
  dph_rep t cs m -> length a = 6%nat -> 0 <= aid ->
  m !! a = Some x -> (exists a', m !! a' = Some aid) ->
  runs (dphDeleteHashEntry a aid) t (fun r t' =>
    r = eSIR_SUCCESS /\ (exists cs', dph_rep t' cs' (delete a m)) /\
    (x <> aid -> aid_used t' aid = true)).
Proof.
  intros Hr Ha Haid Hx [a' Ha'].
  pose proof Ha' as (n & Hn & Had & Hst)%(dr_map _ _ _ Hr).
  eapply runs_mono; [by eapply dphDeleteHashEntry_cases|]. intros r t' Hres.
  unfold delete_ok, aid_used in Hres. rewrite Hn, Had, bool_decide_eq_true_2 in Hres by eauto.
  apply aget_Some_range in Hn as Hrn. rewrite (dr_nodes _ _ _ Hr) in Hrn.
  rewrite (proj2 (Z.ltb_lt aid (size t))) in Hres by lia.
  destruct Hres as (-> & _ & cs' & Hr'). split_and!; [done|by eauto|].
  intros Hne. assert (Hin : delete a m !! a' = Some aid).
  { rewrite lookup_delete_ne; [done|]. congruence. }
  apply (dr_map _ _ _ Hr') in Hin as (n' & Hn' & Had' & _). unfold aid_used. by rewrite Hn'.
Qed.

Definition ex_table2 : dphHashTableClass :=
  Eval vm_compute in
    match (_ <- dphHashTableClassInit ;; exec_ops None (take 2 ex_ops)) ex_table with
    | Some (_, t) => t | None => ex_table end.

Lemma ex_table2_rep : exists cs, dph_rep ex_table2 cs (<[[6;5;4;3;2;1] := 2]> {[ [1;2;3;4;5;6] := 1 ]}).
Proof.
  assert (Hinit : runs dphHashTableClassInit ex_table (fun _ t' =>
    size t' = 3 /\ dph_rep t' (replicate 3 []) ∅)).
  { exact (dphHashTableClassInit_rep ex_table _ ltac:(zcompute) eq_refl eq_refl eq_refl). }
  destruct (runs_elim _ _ _ Hinit) as ([] & t0 & Ht0 & _ & Hr0).
  assert (Hok : Forall op_ok (take 2 ex_ops)) by (repeat constructor; zcompute).
  destruct (runs_elim _ _ _ (exec_ops_refine None _ _ _ _ Hr0 Hok)) as (rs & t1 & Ht1 & _ & cs & Hr1 & _).
  exists cs. vm_compute in Ht0. injection Ht0 as <-. vm_compute in Ht1. injection Ht1 as _ <-.
  exact Hr1.
Qed.

Lemma dphDelete_by_address_witness :
  runs (dphDeleteHashEntry [1;2;3;4;5;6] 2) ex_table2 (fun r t' =>
    r = eSIR_SUCCESS /\ aid_used t' 2 = true).
Proof.
  destruct ex_table2_rep as [cs Hr].
  eapply runs_mono; [apply (dphDelete_by_address _ _ _ _ _ 1 Hr)|].
  - reflexivity.
  - lia.
  - vm_compute. reflexivity.
  - exists [6;5;4;3;2;1]. vm_compute. reflexivity.
  - intros r t' (-> & _ & Hu). split; [reflexivity|]. apply Hu. lia.
Defined.
