(* ===== verification/VosLock.v ===== *)
(** * The recursive mutex of VOSS

    Models [CORE/VOSS/src/vos_lock.c]: a kernel mutex wrapped with an owner and a
    recursion count.  A call is the sequence of its accesses to the lock: every read and
    write of a field and every call of the kernel mutex is one step, and threads interleave
    between any two of them, which matters because [vos_lock_acquire] and [vos_lock_release]
    look at the owner and the state without holding the mutex.  Accesses are sequentially
    consistent.  The theorems show mutual exclusion along every interleaving, and the bound
    the 8-bit recursion count puts on it.

    The last section states what the rest of the driver relies on, as the class
    [LockOps], and proves that this lock, called by one thread, is an instance of it. *)

From S2P Require Import Prelude.

Local Open Scope c_scope.

Inductive VOS_STATUS :=
  | VOS_STATUS_SUCCESS | VOS_STATUS_E_RESOURCES | VOS_STATUS_E_NOMEM | VOS_STATUS_E_AGAIN
  | VOS_STATUS_E_INVAL | VOS_STATUS_E_FAULT | VOS_STATUS_E_ALREADY | VOS_STATUS_E_BADMSG
  | VOS_STATUS_E_BUSY | VOS_STATUS_E_CANCELED | VOS_STATUS_E_ABORTED | VOS_STATUS_E_NOSUPPORT
  | VOS_STATUS_E_PERM | VOS_STATUS_E_EMPTY | VOS_STATUS_E_EXISTS | VOS_STATUS_E_TIMEOUT
  | VOS_STATUS_E_FAILURE.

#[export] Instance VOS_STATUS_eqdec : EqDecision VOS_STATUS.
Proof. solve_decision. Defined.

Definition LINUX_LOCK_COOKIE : Z := 0x12345678.
Definition LOCK_RELEASED : Z := 0x11223344.
Definition LOCK_ACQUIRED : Z := LOCK_RELEASED + 1.
Definition LOCK_DESTROYED : Z := LOCK_RELEASED + 2.

(** [m_lock] is the thread that locked the kernel mutex. *)
Record vos_lock_t := {
  m_lock : option Z;
  cookie : Z;       (* v_U32_t *)
  processID : Z;    (* int *)
  lstate : Z;       (* v_U32_t *)
  refcount : Z      (* v_U8_t *)
}.

(** ** Accesses and calls *)

Inductive access :=
  | get_cookie | get_processID | get_state | get_refcount
  | set_cookie (v : Z) | set_processID (v : Z) | set_state (v : Z) | set_refcount (v : Z)
  | mutex_init | mutex_lock | mutex_trylock | mutex_is_locked | mutex_unlock.

(** A call returns, or makes an access and goes on with the value it gives. *)
Inductive call :=
  | Return (s : VOS_STATUS)
  | Access (a : access) (k : Z -> call).

Declare Scope lock_scope.
Delimit Scope lock_scope with lock.
Notation "x <- a ;; k" := (Access a (fun x => k)) : lock_scope.
Notation "a ;; k" := (Access a (fun _ => k)) : lock_scope.

(** A thread that locks a mutex that is locked sleeps.  Only the thread that locked a mutex
    may unlock it. *)
Inductive outcome := Value (v : Z) (l : vos_lock_t) | Sleeps | Undefined.

Definition with_mutex (o : option Z) (l : vos_lock_t) : vos_lock_t :=
  {| m_lock := o; cookie := cookie l; processID := processID l; lstate := lstate l; refcount := refcount l |}.
Definition with_cookie (v : Z) (l : vos_lock_t) : vos_lock_t :=
  {| m_lock := m_lock l; cookie := v; processID := processID l; lstate := lstate l; refcount := refcount l |}.
Definition with_processID (v : Z) (l : vos_lock_t) : vos_lock_t :=
  {| m_lock := m_lock l; cookie := cookie l; processID := v; lstate := lstate l; refcount := refcount l |}.
Definition with_state (v : Z) (l : vos_lock_t) : vos_lock_t :=
  {| m_lock := m_lock l; cookie := cookie l; processID := processID l; lstate := v; refcount := refcount l |}.
Definition with_refcount (v : Z) (l : vos_lock_t) : vos_lock_t :=
  {| m_lock := m_lock l; cookie := cookie l; processID := processID l; lstate := lstate l; refcount := v |}.

(** An access by the thread [pid] *)
Definition perform (pid : Z) (a : access) (l : vos_lock_t) : outcome :=
  match a with
  | get_cookie => Value (cookie l) l
  | get_processID => Value (processID l) l
  | get_state => Value (lstate l) l
  | get_refcount => Value (refcount l) l
  | set_cookie v => Value 0 (with_cookie v l)
  | set_processID v => Value 0 (with_processID v l)
  | set_state v => Value 0 (with_state v l)
  | set_refcount v => Value 0 (with_refcount v l)
  | mutex_init => Value 0 (with_mutex None l)
  | mutex_lock => match m_lock l with None => Value 0 (with_mutex (Some pid) l) | Some _ => Sleeps end
  | mutex_trylock => match m_lock l with None => Value 1 (with_mutex (Some pid) l) | Some _ => Value 0 l end
  | mutex_is_locked => Value (match m_lock l with Some _ => 1 | None => 0 end) l
  | mutex_unlock => if decide (m_lock l = Some pid) then Value 0 (with_mutex None l) else Undefined
  end.

Section Calls.
Open Scope lock_scope.
Variables (in_interrupt : bool) (pid : Z).

(** [vos_lock_init] *)
Definition vos_lock_init : call :=
  c <- get_cookie ;;
  if c =? LINUX_LOCK_COOKIE then Return VOS_STATUS_E_BUSY
  else if in_interrupt then Return VOS_STATUS_E_FAULT
  else
    mutex_init ;; set_cookie LINUX_LOCK_COOKIE ;; set_state LOCK_RELEASED ;;
    set_processID 0 ;; set_refcount 0 ;; Return VOS_STATUS_SUCCESS.

(** [vos_lock_acquire] *)
Definition vos_lock_acquire : call :=
  c <- get_cookie ;;
  if negb (c =? LINUX_LOCK_COOKIE) then Return VOS_STATUS_E_INVAL
  else if in_interrupt then Return VOS_STATUS_E_FAULT
  else
    let acquire_a_lock :=
      mutex_lock ;;
      rc <- mutex_is_locked ;;
      if rc =? 0 then Return VOS_STATUS_E_FAILURE
      else
        st <- get_state ;;
        if negb (st =? LOCK_DESTROYED) then
          set_processID pid ;;
          n <- get_refcount ;; set_refcount (u8 (n + 1)) ;;
          set_state LOCK_ACQUIRED ;;
          Return VOS_STATUS_SUCCESS
        else mutex_unlock ;; Return VOS_STATUS_E_FAILURE in
    o <- get_processID ;;
    if o =? pid then
      st <- get_state ;;
      if st =? LOCK_ACQUIRED then
        n <- get_refcount ;; set_refcount (u8 (n + 1)) ;; Return VOS_STATUS_SUCCESS
      else acquire_a_lock
    else acquire_a_lock.

(** [vos_lock_release] *)
Definition vos_lock_release : call :=
  c <- get_cookie ;;
  if negb (c =? LINUX_LOCK_COOKIE) then Return VOS_STATUS_E_INVAL
  else if in_interrupt then Return VOS_STATUS_E_FAULT
  else
    o <- get_processID ;;
    if negb (o =? pid) then Return VOS_STATUS_E_PERM
    else
      let release_a_lock :=
        n <- get_refcount ;;
        if negb (n =? 0) then Return VOS_STATUS_SUCCESS
        else
          set_processID 0 ;; set_refcount 0 ;; set_state LOCK_RELEASED ;;
          mutex_unlock ;;
          Return VOS_STATUS_SUCCESS in
      o <- get_processID ;;
      if o =? pid then
        st <- get_state ;;
        if st =? LOCK_ACQUIRED then
          n <- get_refcount ;;
          if 0 <? n then n <- get_refcount ;; set_refcount (u8 (n - 1)) ;; release_a_lock
          else release_a_lock
        else release_a_lock
      else release_a_lock.

(** [vos_lock_destroy] *)
Definition vos_lock_destroy : call :=
  c <- get_cookie ;;
  if negb (c =? LINUX_LOCK_COOKIE) then Return VOS_STATUS_E_INVAL
  else if in_interrupt then Return VOS_STATUS_E_FAULT
  else
    free <- mutex_trylock ;;
    if free =? 0 then Return VOS_STATUS_E_BUSY
    else
      set_cookie 0 ;; set_state LOCK_DESTROYED ;; set_processID 0 ;; set_refcount 0 ;;
      mutex_unlock ;;
      Return VOS_STATUS_SUCCESS.
End Calls.

(** ** Threads *)

(** What a thread does, and how often it has acquired the lock without having begun the
    release of it *)
Inductive activity := Idle | Acquiring (c : call) | Releasing (c : call).
Record thread := { doing : activity; depth : nat }.
Record system := { lock : vos_lock_t; threads : Z -> thread }.

Definition upd (p : Z) (t : thread) (ts : Z -> thread) : Z -> thread := fun q => if decide (q = p) then t else ts q.

(** Idle threads begin a call; threads in a call make their next access; a call that is
    over returns.  A release may be by a thread that holds nothing. *)
Inductive lock_step : system -> system -> Prop :=
  | begin_acquire p l ts n :
      p <> 0 -> Z.of_nat n < 255 -> ts p = {| doing := Idle; depth := n |} ->
      lock_step {| lock := l; threads := ts |}
        {| lock := l; threads := upd p {| doing := Acquiring (vos_lock_acquire false p); depth := n |} ts |}
  | begin_release p l ts n :
      p <> 0 -> ts p = {| doing := Idle; depth := n |} ->
      lock_step {| lock := l; threads := ts |}
        {| lock := l; threads := upd p {| doing := Releasing (vos_lock_release false p); depth := pred n |} ts |}
  | access_acquire p l l' ts n a k v :
      ts p = {| doing := Acquiring (Access a k); depth := n |} -> perform p a l = Value v l' ->
      lock_step {| lock := l; threads := ts |}
        {| lock := l'; threads := upd p {| doing := Acquiring (k v); depth := n |} ts |}
  | access_release p l l' ts n a k v :
      ts p = {| doing := Releasing (Access a k); depth := n |} -> perform p a l = Value v l' ->
      lock_step {| lock := l; threads := ts |}
        {| lock := l'; threads := upd p {| doing := Releasing (k v); depth := n |} ts |}
  | end_acquire p l ts n s :
      ts p = {| doing := Acquiring (Return s); depth := n |} ->
      lock_step {| lock := l; threads := ts |}
        {| lock := l; threads := upd p {| doing := Idle;
             depth := if bool_decide (s = VOS_STATUS_SUCCESS) then S n else n |} ts |}
  | end_release p l ts n s :
      ts p = {| doing := Releasing (Return s); depth := n |} ->
      lock_step {| lock := l; threads := ts |} {| lock := l; threads := upd p {| doing := Idle; depth := n |} ts |}.

Definition lock_free : vos_lock_t :=
  {| m_lock := None; cookie := LINUX_LOCK_COOKIE; processID := 0; lstate := LOCK_RELEASED; refcount := 0 |}.
Definition lock_held (pid n : Z) : vos_lock_t :=
  {| m_lock := Some pid; cookie := LINUX_LOCK_COOKIE; processID := pid; lstate := LOCK_ACQUIRED; refcount := n |}.
Definition nobody : Z -> thread := fun _ => {| doing := Idle; depth := 0 |}.

(** ** What a thread may rely on *)

(** The thread that locked the mutex knows the fields it left; nobody else writes them.
    Another thread knows only that it is not the owner.  [may p n o c Q]: the thread [p] that
    knows [o] can run [c], whatever the others do, and ends in [Q]; with [n > 0] it does not
    give the mutex away. *)
Definition fields : Type := Z * Z * Z.
Definition released : fields := (0, LOCK_RELEASED, 0).

Fixpoint may (p : Z) (n : nat) (o : option fields) (c : call) (Q : option fields -> VOS_STATUS -> Prop) : Prop :=
  match c with
  | Return s => Q o s
  | Access a k =>
      match a, o with
      | get_cookie, _ => may p n o (k LINUX_LOCK_COOKIE) Q
      | get_processID, Some (i, st, r) => may p n o (k i) Q
      | get_processID, None => forall v, v <> p -> may p n o (k v) Q
      | get_state, Some (i, st, r) => may p n o (k st) Q
      | get_refcount, Some (i, st, r) => may p n o (k r) Q
      | get_state, None | get_refcount, None => forall v, may p n o (k v) Q
      | set_processID v, Some (i, st, r) => (v = p \/ v = 0) /\ may p n (Some (v, st, r)) (k 0) Q
      | set_state v, Some (i, st, r) => may p n (Some (i, v, r)) (k 0) Q
      | set_refcount v, Some (i, st, r) => may p n (Some (i, st, v)) (k 0) Q
      | mutex_lock, None => may p n (Some released) (k 0) Q
      | mutex_is_locked, Some _ => may p n o (k 1) Q
      | mutex_unlock, Some f => f = released /\ n = 0%nat /\ may p n None (k 0) Q
      | _, _ => False
      end
  end.

Definition at_rest (p : Z) (n : nat) : option fields :=
  match n with O => None | _ => Some (p, LOCK_ACQUIRED, Z.of_nat n) end.

Lemma may_acquire p n : p <> 0 -> Z.of_nat n < 255 ->
  may p n (at_rest p n) (vos_lock_acquire false p) (fun o s => s = VOS_STATUS_SUCCESS /\ o = at_rest p (S n)).
Proof.
  intros Hp Hn. destruct n as [|n].
  - cbn -[Z.eqb]. intros v Hv. rewrite (proj2 (Z.eqb_neq v p) Hv).
    cbn -[u8]. split; [by left|]. done.
  - unfold vos_lock_acquire. cbn -[u8 Z.of_nat Z.add]. rewrite Z.eqb_refl. cbn -[u8 Z.of_nat Z.add].
    split; [done|]. rewrite u8_small by lia. do 2 f_equal. lia.
Qed.

Lemma may_release_free p : may p 0 None (vos_lock_release false p) (fun o s => s = VOS_STATUS_E_PERM /\ o = None).
Proof. cbn -[Z.eqb]. intros v Hv. by rewrite (proj2 (Z.eqb_neq v p) Hv). Qed.
Lemma may_release_held p n : Z.of_nat n < 255 ->
  may p n (at_rest p (S n)) (vos_lock_release false p) (fun o s => s = VOS_STATUS_SUCCESS /\ o = at_rest p n).
Proof.
  intros Hn. unfold vos_lock_release.
  repeat (cbn -[u8 Z.of_nat Z.sub Z.eqb Z.ltb]; rewrite ?Z.eqb_refl).
  rewrite (proj2 (Z.ltb_lt 0 (Z.of_nat (S n)))) by lia. cbn -[u8 Z.of_nat Z.sub Z.eqb Z.ltb].
  rewrite u8_small by lia. replace (Z.of_nat (S n) - 1) with (Z.of_nat n) by lia.
  destruct n as [|n]; [cbn; naive_solver|]. rewrite (proj2 (Z.eqb_neq _ 0)) by lia. done.
Qed.

(** ** The invariant *)

Definition fields_of (l : vos_lock_t) : fields := (processID l, lstate l, refcount l).
Definition knows (p : Z) (l : vos_lock_t) : option fields :=
  if decide (m_lock l = Some p) then Some (fields_of l) else None.

Definition thread_ok (p : Z) (o : option fields) (t : thread) : Prop :=
  Z.of_nat (depth t) < 256 /\ (depth t <> 0%nat -> o <> None) /\
  match doing t with
  | Idle => o = at_rest p (depth t)
  | Acquiring c => p <> 0 /\ Z.of_nat (depth t) < 255 /\
      may p (depth t) o c (fun o s => s = VOS_STATUS_SUCCESS /\ o = at_rest p (S (depth t)))
  | Releasing c => p <> 0 /\ may p (depth t) o c (fun o _ => o = at_rest p (depth t))
  end.

Definition lock_ok (l : vos_lock_t) : Prop :=
  cookie l = LINUX_LOCK_COOKIE /\
  match m_lock l with None => fields_of l = released | Some p => processID l = p \/ processID l = 0 end.

Definition system_ok (s : system) : Prop :=
  lock_ok (lock s) /\ (m_lock (lock s) <> Some 0) /\ forall p, thread_ok p (knows p (lock s)) (threads s p).

Lemma may_mono p n o c (Q Q' : option fields -> VOS_STATUS -> Prop) :
  (forall o s, Q o s -> Q' o s) -> may p n o c Q -> may p n o c Q'.
Proof.
  intros HQ. revert o. induction c as [s|a k IH]; intros o; cbn; [apply HQ|].
  destruct a, o as [[[i st] r]|]; naive_solver.
Qed.

(** An access keeps the lock in order, gives the thread what it relies on, and leaves what
    the others know.  What sleeps waits for another thread. *)
Lemma access_ok p n l a k Q : p <> 0 -> lock_ok l -> may p n (knows p l) (Access a k) Q ->
  match perform p a l with
  | Value v l' => lock_ok l' /\ may p n (knows p l') (k v) Q /\ (n <> 0%nat -> knows p l <> None -> knows p l' <> None)
      /\ (m_lock l' = m_lock l \/ m_lock l' = Some p \/ m_lock l' = None)
      /\ forall q, q <> p -> knows q l' = knows q l
  | Sleeps => knows p l = None /\ exists q, q <> p /\ m_lock l = Some q
  | Undefined => False
  end.
Proof.
  unfold knows, lock_ok. destruct l as [m c i st r]. cbn [m_lock cookie processID lstate refcount fields_of].
  intros Hp [-> Hm] Hmay. destruct (decide (m = Some p)) as [->|Hne].
  - destruct a; cbn in Hmay |- *; rewrite ?decide_True by done; try done;
      try (destruct Hmay as [? Hmay]); repeat split; try done; try (by left); try (by right; right);
      try (intros q Hq; cbn; by rewrite !decide_False by congruence); try (cbn; naive_solver).
  - destruct a; cbn in Hmay |- *; try done;
      try (rewrite decide_False by done; repeat split; try done; try (by left); apply Hmay; fail).
    + rewrite decide_False by done. repeat split; try done; [|by left]. apply Hmay. destruct m as [q|]; cbn in Hm.
      * destruct Hm as [->| ->]; congruence.
      * by injection Hm as -> _ _.
    + destruct m as [q|]; cbn in *.
      * split; [done|]. exists q. split; [congruence|done].
      * rewrite decide_True by done. injection Hm as -> -> ->. repeat split; auto.
        intros q Hq. by rewrite !decide_False by congruence.
Qed.

Lemma upd_same p t ts : upd p t ts p = t.
Proof. unfold upd. by rewrite decide_True. Qed.
Lemma upd_other p q t ts : q <> p -> upd p t ts q = ts q.
Proof. intros. unfold upd. by rewrite decide_False. Qed.

(** One thread changes, the lock may *)
Lemma system_ok_upd l l' ts p t : system_ok {| lock := l; threads := ts |} -> lock_ok l' ->
  m_lock l' <> Some 0 -> (forall q, q <> p -> knows q l' = knows q l) -> thread_ok p (knows p l') t ->
  system_ok {| lock := l'; threads := upd p t ts |}.
Proof.
  intros (_ & _ & Hts) Hl' H0 Hk Ht. split_and!; [done|done|]. intros q. cbn.
  destruct (decide (q = p)) as [->|Hne]; [by rewrite upd_same|]. rewrite upd_other, Hk by done. apply Hts.
Qed.

Lemma system_access l l' ts p n a k v (Q : option fields -> VOS_STATUS -> Prop) t : p <> 0 ->
  system_ok {| lock := l; threads := ts |} -> may p n (knows p l) (Access a k) Q -> perform p a l = Value v l' ->
  (may p n (knows p l') (k v) Q -> (n <> 0%nat -> knows p l <> None -> knows p l' <> None) -> thread_ok p (knows p l') t) ->
  system_ok {| lock := l'; threads := upd p t ts |}.
Proof.
  intros Hp Hs Hmay Hv Ht. destruct (Hs) as (Hl & H0 & _). cbn in Hl, H0.
  pose proof (access_ok p n l a k Q Hp Hl Hmay) as H. rewrite Hv in H. destruct H as (Hl' & Hmay' & Hkeep & Hm & Hk).
  eapply system_ok_upd; [done|done| |done|by apply Ht]. destruct Hm as [->|[->| ->]]; congruence.
Qed.

Lemma lock_step_ok s s' : lock_step s s' -> system_ok s -> system_ok s'.
Proof.
  intros Hs Hi. pose proof Hi as (Hl & H0 & Hts). destruct Hs; cbn [lock threads] in Hl, H0, Hts; pose proof (Hts p) as Ht;
    match goal with H : ?f ?q = {| doing := _; depth := _ |} |- _ => rewrite H in Ht end; destruct Ht as (Hd & Hown & Ht); cbn [doing depth] in Hd, Hown, Ht.
  - apply (system_ok_upd l); try done. split; [|split]; cbn [doing depth]; [done..|].
    split; [done|]. split; [done|]. rewrite Ht. by apply may_acquire.
  - apply (system_ok_upd l); try done. rewrite Ht.
    destruct n as [|n]; (split; [|split]); cbn [doing depth pred]; try done; try lia; (split; [done|]).
    + eapply may_mono; [|apply may_release_free]. by intros o s [_ ->].
    + eapply may_mono; [|apply may_release_held; lia]. by intros o s [_ ->].
  - destruct Ht as (Hp & Hn & Hmay). eapply (system_access l); [done..|]. intros Hmay' Hkeep. split; [|split]; cbn [doing depth]; auto.
  - destruct Ht as (Hp & Hmay). eapply (system_access l); [done..|]. intros Hmay' Hkeep. split; [|split]; cbn [doing depth]; auto.
  - destruct Ht as (Hp & Hn & -> & Hk). apply (system_ok_upd l); try done. rewrite Hk.
    rewrite bool_decide_eq_true_2 by done. split; [|split]; cbn [doing depth]; [lia|done|done].
  - destruct Ht as (Hp & Hk). apply (system_ok_upd l); try done.
Qed.

Lemma lock_steps_ok s s' : rtc lock_step s s' -> system_ok s -> system_ok s'.
Proof. induction 1; eauto using lock_step_ok. Qed.
Lemma nobody_ok : system_ok {| lock := lock_free; threads := nobody |}.
Proof. split_and!; try done. Qed.

(** ** Calls by one thread *)

Fixpoint run_call (pid : Z) (c : call) : M vos_lock_t VOS_STATUS :=
  match c with
  | Return s => mreturn s
  | Access a k => fun l => match perform pid a l with Value v l' => run_call pid (k v) l' | _ => None end
  end.
Definition acquire (pid : Z) : M vos_lock_t VOS_STATUS := run_call pid (vos_lock_acquire false pid).
Definition release (pid : Z) : M vos_lock_t VOS_STATUS := run_call pid (vos_lock_release false pid).

(** Evaluate a call down to its comparisons. *)
Ltac lock_eval :=
  unfold acquire, release, vos_lock_acquire, vos_lock_release;
  repeat (cbn -[u8 Z.eqb Z.sub Z.ltb Z.add]; rewrite ?Z.eqb_refl).

Lemma acquire_free pid : pid <> 0 -> acquire pid lock_free = Some (VOS_STATUS_SUCCESS, lock_held pid 1).
Proof. intros Hp. lock_eval. rewrite (proj2 (Z.eqb_neq 0 pid)) by lia. by lock_eval. Qed.

Lemma acquire_again pid n : acquire pid (lock_held pid n) = Some (VOS_STATUS_SUCCESS, lock_held pid (u8 (n + 1))).
Proof. by lock_eval. Qed.

Lemma release_held pid n : 1 < n < 256 ->
  release pid (lock_held pid n) = Some (VOS_STATUS_SUCCESS, lock_held pid (n - 1)).
Proof.
  intros Hn. lock_eval. rewrite (proj2 (Z.ltb_lt 0 n)) by lia. lock_eval. rewrite u8_small by lia.
  by rewrite (proj2 (Z.eqb_neq (n - 1) 0)) by lia.
Qed.

Lemma release_last pid n : n = 0 \/ n = 1 ->
  release pid (lock_held pid n) = Some (VOS_STATUS_SUCCESS, lock_free).
Proof.
  intros [-> | ->]; lock_eval.
  - change (0 <? 0) with false. change (0 =? 0) with true. cbn. by rewrite decide_True.
  - change (0 <? 1) with true. cbn -[u8]. rewrite (u8_small (1 - 1)) by lia. change (1 - 1) with 0. cbn. by rewrite decide_True.
Qed.

(** ** Properties *)

(** C40.  Mutual exclusion: threads acquire the lock (nested less than 255 deep) and release it,
    also without holding it, and interleave between any two accesses of the calls to the fields
    and to the kernel mutex.  Then two threads never hold the lock at the same time; while the
    one that does is outside a call, the mutex is locked by it, it is the owner on record and
    the recursion count is how often it holds the lock, and whoever comes to lock the mutex
    sleeps; no access of anyone is undefined; and a thread sleeps only while another one has
    the mutex. *)
Theorem vos_lock_exclusive s p q : rtc lock_step {| lock := lock_free; threads := nobody |} s ->
  ((0 < depth (threads s p))%nat -> (0 < depth (threads s q))%nat -> p = q) /\
  ((0 < depth (threads s p))%nat -> doing (threads s p) = Idle ->
    lock s = lock_held p (Z.of_nat (depth (threads s p))) /\ perform q mutex_lock (lock s) = Sleeps) /\
  (forall a k, doing (threads s p) = Acquiring (Access a k) \/ doing (threads s p) = Releasing (Access a k) ->
    perform p a (lock s) <> Undefined /\ (perform p a (lock s) = Sleeps -> exists o, o <> p /\ m_lock (lock s) = Some o)).
Proof.
  intros Hs. destruct (lock_steps_ok _ _ Hs nobody_ok) as (Hl & _ & Hts).
  assert (Hown : forall r, (0 < depth (threads s r))%nat -> m_lock (lock s) = Some r).
  { intros r Hr. destruct (Hts r) as (_ & Ho & _). unfold knows in Ho.
    destruct (decide (m_lock (lock s) = Some r)); [done|]. exfalso. apply Ho; [lia|done]. }
  split_and!.
  - intros Hp Hq. apply Hown in Hp, Hq. congruence.
  - intros Hp Hidle. pose proof (Hown p Hp) as Hm. destruct (Hts p) as (_ & _ & Ho). rewrite Hidle in Ho.
    unfold knows in Ho. rewrite decide_True in Ho by done. destruct (depth (threads s p)) as [|n]; [lia|].
    destruct Hl as [Hc _]. destruct (lock s) as [m c i st r]. cbn in *. subst. by injection Ho as -> -> ->.
  - intros a k Hd. destruct (Hts p) as (_ & _ & Ht).
    assert (exists Q, p <> 0 /\ may p (depth (threads s p)) (knows p (lock s)) (Access a k) Q) as (Q & Hp & Hmay).
    { destruct Hd as [Hd|Hd]; rewrite Hd in Ht; [destruct Ht as (? & _ & ?)|destruct Ht]; eauto. }
    pose proof (access_ok _ _ _ _ _ _ Hp Hl Hmay) as H. destruct (perform p a (lock s)); [done| |done].
    split; [done|]. intros _. apply H.
Qed.

(** Thread 7 acquires the lock; thread 8 has looked at the owner and is about to lock the mutex. *)
Lemma vos_lock_exclusive_witness : exists s, rtc lock_step {| lock := lock_free; threads := nobody |} s
  /\ lock s = lock_held 7 1 /\ perform 8 mutex_lock (lock s) = Sleeps.
Proof.
  evar (s : system). assert (Hrun : rtc lock_step {| lock := lock_free; threads := nobody |} s).
  { subst s. eapply rtc_l; [by apply (begin_acquire 7 _ _ 0)|]. eapply rtc_l; [by apply (begin_acquire 8 _ _ 0)|].
    do 2 (eapply rtc_l; [by eapply (access_acquire 8)|]). do 9 (eapply rtc_l; [by eapply (access_acquire 7)|]).
    eapply rtc_l; [by eapply (end_acquire 7)|]. apply rtc_refl. }
  exists s. split; [exact Hrun|]. destruct (vos_lock_exclusive _ 7 8 Hrun) as (_ & H & _).
  apply H; [vm_compute; lia|reflexivity].
Defined.

Fixpoint acquire_n (pid : Z) (n : nat) : M vos_lock_t unit :=
  match n with
  | O => mreturn tt
  | Datatypes.S n => _ <- acquire pid ;; acquire_n pid n
  end.

Lemma acquire_n_held pid n k :
  acquire_n pid n (lock_held pid k) = Some (tt, lock_held pid (u8 (k + Z.of_nat n))) \/ n = 0%nat.
Proof.
  revert k. induction n as [|n IH]; intros k; [by right|left]. cbn [acquire_n].
  unfold mbnd. rewrite acquire_again. destruct (IH (u8 (k + 1))) as [->| ->].
  - replace (u8 (u8 (k + 1) + Z.of_nat n)) with (u8 (k + Z.of_nat (Datatypes.S n))); [done|].
    unfold u8. change (2 ^ 8) with 256. rewrite Zplus_mod_idemp_l. f_equal. lia.
  - done.
Qed.

Lemma acquire_n_free pid n : pid <> 0 -> n <> 0%nat ->
  acquire_n pid (Datatypes.S n) lock_free = Some (tt, lock_held pid (u8 (1 + Z.of_nat n))).
Proof.
  intros Hp Hn. cbn [acquire_n]. unfold mbnd. rewrite acquire_free by done.
  by destruct (acquire_n_held pid n 1) as [->|].
Qed.

(** The recursion count is a [v_U8_t]: after 256 nested acquisitions it has wrapped
    to 0, and the first of the 256 matching releases unlocks the mutex, so another thread
    can acquire the lock while the first still has 255 releases to make. *)
Theorem vos_lock_recursion_wraps pid q :
  pid <> 0 -> q <> 0 ->
  runs (acquire_n pid 256 ;; release pid ;; acquire q) lock_free
    (fun s l => s = VOS_STATUS_SUCCESS /\ l = lock_held q 1).
Proof.
  intros Hp Hq. apply runs_bnd.
  assert (Ha : acquire_n pid 256 lock_free = Some (tt, lock_held pid 0)).
  { apply (acquire_n_free pid 255); done. }
  eapply runs_intro; [exact Ha|]. cbn beta. mstep.
  eapply runs_intro; [by apply release_last; left|]. cbn beta.
  eapply runs_intro; [by apply acquire_free|]. done.
Qed.

Lemma vos_lock_recursion_wraps_witness :
  runs (acquire_n 7 256 ;; release 7 ;; acquire 8) lock_free
    (fun s l => s = VOS_STATUS_SUCCESS /\ l = lock_held 8 1).
Proof. apply (vos_lock_recursion_wraps 7 8); lia. Defined.

(** ** What clients rely on *)

(** A lock as its users see it, from one thread: acquiring and releasing in a usable
    state brings the state back. *)
Class LockOps (K : Type) := {
  lk_acquire : M K VOS_STATUS;
  lk_release : M K VOS_STATUS;
  lk_init : M K VOS_STATUS;
  lk_destroy : M K VOS_STATUS;
  lk_usable : K -> Prop;
  lk_bracket : forall k, lk_usable k -> exists k', lk_acquire k = Some (VOS_STATUS_SUCCESS, k') /\
    lk_release k' = Some (VOS_STATUS_SUCCESS, k);
  lk_init_usable : forall k k', lk_init k = Some (VOS_STATUS_SUCCESS, k') -> lk_usable k';
  lk_init_returns : forall k, is_Some (lk_init k);
  lk_destroy_returns : forall k, lk_usable k -> is_Some (lk_destroy k)
}.

(** The thread [pid] may use a lock that is free or that it already holds. *)
Definition usable_by (pid : Z) (l : vos_lock_t) : Prop :=
  l = lock_free \/ exists n, 0 < n < 255 /\ l = lock_held pid n.

Lemma vos_lock_bracket (pid : Z) (Hp : pid <> 0) l :
  usable_by pid l -> exists l', acquire pid l = Some (VOS_STATUS_SUCCESS, l') /\
    release pid l' = Some (VOS_STATUS_SUCCESS, l).
Proof.
  intros [->|(n & Hn & ->)].
  - exists (lock_held pid 1). rewrite acquire_free by done. by rewrite release_last by lia.
  - exists (lock_held pid (n + 1)). rewrite acquire_again, u8_small by lia.
    rewrite release_held by lia. by rewrite Z.add_simpl_r.
Qed.

Lemma vos_lock_init_usable pid k k' :
  run_call pid (vos_lock_init false) k = Some (VOS_STATUS_SUCCESS, k') -> usable_by pid k'.
Proof.
  cbn -[Z.eqb]. destruct (_ =? _); cbn; [done|]. intros [= <-]. by left.
Qed.

Lemma vos_lock_init_returns pid k : is_Some (run_call pid (vos_lock_init false) k).
Proof. cbn -[Z.eqb]. destruct (_ =? _); cbn; eauto. Qed.

Lemma vos_lock_destroy_returns pid l : usable_by pid l -> is_Some (run_call pid (vos_lock_destroy false) l).
Proof. intros [->|(n & _ & ->)]; cbn; rewrite ?decide_True by done; eauto. Qed.

#[export] Instance vos_lock_ops (pid : Z) (Hp : pid <> 0) : LockOps vos_lock_t := {|
  lk_acquire := acquire pid;
  lk_release := release pid;
  lk_init := run_call pid (vos_lock_init false);
  lk_destroy := run_call pid (vos_lock_destroy false);
  lk_usable := usable_by pid;
  lk_bracket := vos_lock_bracket pid Hp;
  lk_init_usable := vos_lock_init_usable pid;
  lk_init_returns := vos_lock_init_returns pid;
  lk_destroy_returns := vos_lock_destroy_returns pid
|}.
