(* ===== verification/CsrLinkList.v ===== *)
(** * The circular doubly linked lists of SME

    Models [CORE/SME/src/csr/csrLinkList.c]: intrusive circular lists whose header is
    the first member of [tDblLinkList], so that a list's address is its header's.
    Entries live in a shared store of [tListElem]s; the theorems show that every
    [csrLL] call implements the corresponding operation on a list of addresses and
    leaves every other list of the store alone. *)

From S2P Require Import Prelude VosLock.

Local Open Scope c_scope.

(** ** Data *)

Record tListElem := { e_last : Z; e_next : Z }.

Definition LIST_FLAG_CLOSE : Z := 0.
Definition LIST_FLAG_OPEN : Z := 0xa1b2c4d7.

(** The members of [tDblLinkList] besides [ListHead]; a null timer is 0. *)
Record tDblLinkList (K : Type) := {
  Lock : K;
  Count : Z;                      (* tANI_U32 *)
  hHdd : Z;
  Flag : Z;
  cmdTimeoutDuration : Z;         (* tANI_U32 *)
  cmdTimeoutTimer : Z
}.
Arguments Lock {K}.
Arguments Count {K}.
Arguments hHdd {K}.
Arguments Flag {K}.
Arguments cmdTimeoutDuration {K}.
Arguments cmdTimeoutTimer {K}.

(** Calls into the timer module. *)
Inductive timer_call := vos_timer_start (timer dur : Z) | vos_timer_stop (timer : Z).

(** The store: list entries and headers by address, list records by address, and the
    timer calls made so far (latest first). *)
Record store (K : Type) := {
  elems : gmap Z tListElem;
  lists : gmap Z (tDblLinkList K);
  timers : list timer_call
}.
Arguments elems {K}.
Arguments lists {K}.
Arguments timers {K}.

Inductive eHalStatus := eHAL_STATUS_SUCCESS | eHAL_STATUS_FAILURE.

Definition set_e_next (v : Z) (e : tListElem) : tListElem := {| e_last := e_last e; e_next := v |}.
Definition set_e_last (v : Z) (e : tListElem) : tListElem := {| e_last := v; e_next := e_next e |}.

Section Ops.
Context {K : Type} `{LK : LockOps K}.
#[local] Abbreviation ST := (store K).

Definition set_elems (v : gmap Z tListElem) (s : ST) : ST :=
  {| elems := v; lists := lists s; timers := timers s |}.
Definition set_lists (v : gmap Z (tDblLinkList K)) (s : ST) : ST :=
  {| elems := elems s; lists := v; timers := timers s |}.
Definition add_timer (c : timer_call) (s : ST) : ST :=
  {| elems := elems s; lists := lists s; timers := c :: timers s |}.

Definition set_Lock (v : K) (d : tDblLinkList K) : tDblLinkList K :=
  {| Lock := v; Count := Count d; hHdd := hHdd d; Flag := Flag d;
     cmdTimeoutDuration := cmdTimeoutDuration d; cmdTimeoutTimer := cmdTimeoutTimer d |}.
Definition set_Count (v : Z) (d : tDblLinkList K) : tDblLinkList K :=
  {| Lock := Lock d; Count := v; hHdd := hHdd d; Flag := Flag d;
     cmdTimeoutDuration := cmdTimeoutDuration d; cmdTimeoutTimer := cmdTimeoutTimer d |}.
Definition set_Flag (v : Z) (d : tDblLinkList K) : tDblLinkList K :=
  {| Lock := Lock d; Count := Count d; hHdd := hHdd d; Flag := v;
     cmdTimeoutDuration := cmdTimeoutDuration d; cmdTimeoutTimer := cmdTimeoutTimer d |}.

(** *** Reads and writes through pointers; a null or dangling pointer is undefined *)

Definition e_read (p : Z) : M ST tListElem := s <- mget ;; oget (elems s !! p).
Definition next_of (p : Z) : M ST Z := e <- e_read p ;; mreturn (e_next e).
Definition last_of (p : Z) : M ST Z := e <- e_read p ;; mreturn (e_last e).
Definition write_next (p v : Z) : M ST unit :=
  e <- e_read p ;; modify (fun s => set_elems (<[p := set_e_next v e]> (elems s)) s).
Definition write_last (p v : Z) : M ST unit :=
  e <- e_read p ;; modify (fun s => set_elems (<[p := set_e_last v e]> (elems s)) s).

Definition l_read (p : Z) : M ST (tDblLinkList K) := s <- mget ;; oget (lists s !! p).
Definition l_upd (p : Z) (f : tDblLinkList K -> tDblLinkList K) : M ST unit :=
  d <- l_read p ;; modify (fun s => set_lists (<[p := f d]> (lists s)) s).

(** *** The list primitives *)

Definition csrIsListEmpty (pHead : Z) : M ST bool :=
  n <- next_of pHead ;; mreturn (n =? pHead).

Definition csrListInit (pList : Z) : M ST unit :=
  write_next pList pList ;; write_last pList pList.

Definition csrListRemoveEntry (pEntry : Z) : M ST unit :=
  pLast <- last_of pEntry ;;
  pNext <- next_of pEntry ;;
  write_next pLast pNext ;;
  write_last pNext pLast.

Definition csrListRemoveHead (pHead : Z) : M ST Z :=
  pEntry <- next_of pHead ;;
  pNext <- next_of pEntry ;;
  write_next pHead pNext ;;
  write_last pNext pHead ;;
  mreturn pEntry.

Definition csrListRemoveTail (pHead : Z) : M ST Z :=
  pEntry <- last_of pHead ;;
  pLast <- last_of pEntry ;;
  write_last pHead pLast ;;
  write_next pLast pHead ;;
  mreturn pEntry.

Definition csrListInsertTail (pHead pEntry : Z) : M ST unit :=
  pLast <- last_of pHead ;;
  write_last pEntry pLast ;;
  write_next pEntry pHead ;;
  write_next pLast pEntry ;;
  write_last pHead pEntry.

Definition csrListInsertHead (pHead pEntry : Z) : M ST unit :=
  pNext <- next_of pHead ;;
  write_next pEntry pNext ;;
  write_last pEntry pHead ;;
  write_last pNext pEntry ;;
  write_next pHead pEntry.

Definition csrListInsertEntry (pEntry pNewEntry : Z) : M ST unit :=
  if pEntry =? 0 then mreturn tt
  else
    pLast <- last_of pEntry ;;
    write_next pLast pNewEntry ;;
    write_last pEntry pNewEntry ;;
    write_next pNewEntry pEntry ;;
    write_last pNewEntry pLast.

(** *** The [csrLL] interface *)

Definition is_open (d : tDblLinkList K) : bool := Flag d =? LIST_FLAG_OPEN.

Definition csrLLCount (pList : Z) : M ST Z :=
  if pList =? 0 then mreturn 0
  else d <- l_read pList ;; mreturn (if is_open d then Count d else 0).

(** Run a call on the list's lock; the callers ignore its status. *)
Definition on_lock (pList : Z) (f : M K VOS_STATUS) : M ST VOS_STATUS :=
  d <- l_read pList ;;
  r <- oget (f (Lock d)) ;;
  l_upd pList (set_Lock r.2) ;;
  mreturn r.1.

Definition csrLLLock (pList : Z) : M ST unit :=
  if pList =? 0 then mreturn tt
  else
    d <- l_read pList ;;
    if is_open d then _ <- on_lock pList lk_acquire ;; mreturn tt else mreturn tt.

Definition csrLLUnlock (pList : Z) : M ST unit :=
  if pList =? 0 then mreturn tt
  else
    d <- l_read pList ;;
    if is_open d then _ <- on_lock pList lk_release ;; mreturn tt else mreturn tt.

(** [if(fInterlocked) csrLLLock(pList); ... if(fInterlocked) csrLLUnlock(pList);] *)
Definition interlocked {A} (pList : Z) (fInterlocked : bool) (body : M ST A) : M ST A :=
  (if fInterlocked then csrLLLock pList else mreturn tt) ;;
  a <- body ;;
  (if fInterlocked then csrLLUnlock pList else mreturn tt) ;;
  mreturn a.

(** The guards every call starts with: a null or closed list answers [dflt]. *)
Definition if_open {A} (pList : Z) (dflt : A) (body : tDblLinkList K -> M ST A) : M ST A :=
  if pList =? 0 then mreturn dflt
  else d <- l_read pList ;; if is_open d then body d else mreturn dflt.

Definition csrLLIsListEmpty (pList : Z) (fInterlocked : bool) : M ST bool :=
  if_open pList true (fun _ => interlocked pList fInterlocked (csrIsListEmpty pList)).

Definition csrLLPeekHead (pList : Z) (fInterlocked : bool) : M ST Z :=
  if_open pList 0 (fun _ => interlocked pList fInterlocked
    (empty <- csrIsListEmpty pList ;;
     if empty : bool then mreturn 0 else next_of pList)).

Definition csrLLPeekTail (pList : Z) (fInterlocked : bool) : M ST Z :=
  if_open pList 0 (fun _ => interlocked pList fInterlocked
    (empty <- csrIsListEmpty pList ;;
     if empty : bool then mreturn 0 else last_of pList)).

(** Walk from [pEntry] until [pEntryToFind] or the header; enough fuel for any ring. *)
Definition walk_to (pList pEntryToFind pEntry : Z) : M ST bool :=
  fuel <- gets (fun s => (size (elems s) + 2)%nat) ;;
  miter fuel (fun pEntry =>
    if negb (pEntry =? 0) && negb (pEntry =? pList) then
      if pEntry =? pEntryToFind then mreturn (inr true)
      else n <- next_of pEntry ;; mreturn (inl n)
    else mreturn (inr false)) pEntry.

Definition csrLLFindEntry (pList pEntryToFind : Z) : M ST bool :=
  if_open pList false (fun _ =>
    pEntry <- csrLLPeekHead pList false ;;
    walk_to pList pEntryToFind pEntry).

Definition csrLLOpen (hdd pList : Z) : M ST eHalStatus :=
  if pList =? 0 then mreturn eHAL_STATUS_FAILURE
  else
    d <- l_read pList ;;
    if negb (is_open d) then
      l_upd pList (fun d => {| Lock := Lock d; Count := 0; hHdd := hHdd d; Flag := Flag d;
        cmdTimeoutDuration := cmdTimeoutDuration d; cmdTimeoutTimer := 0 |}) ;;
      st <- on_lock pList lk_init ;;
      if bool_decide (st = VOS_STATUS_SUCCESS) then
        csrListInit pList ;;
        l_upd pList (fun d => {| Lock := Lock d; Count := Count d; hHdd := hdd;
          Flag := LIST_FLAG_OPEN; cmdTimeoutDuration := cmdTimeoutDuration d;
          cmdTimeoutTimer := cmdTimeoutTimer d |}) ;;
        mreturn eHAL_STATUS_SUCCESS
      else mreturn eHAL_STATUS_FAILURE
    else mreturn eHAL_STATUS_SUCCESS.

Definition csrLLInsertTail (pList pEntry : Z) (fInterlocked : bool) : M ST unit :=
  if_open pList tt (fun _ => interlocked pList fInterlocked
    (csrListInsertTail pList pEntry ;;
     l_upd pList (fun d => set_Count (u32 (Count d + 1)) d))).

Definition csrLLInsertHead (pList pEntry : Z) (fInterlocked : bool) : M ST unit :=
  if_open pList tt (fun _ =>
    interlocked pList fInterlocked
      (csrListInsertHead pList pEntry ;;
       l_upd pList (fun d => set_Count (u32 (Count d + 1)) d)) ;;
    d <- l_read pList ;;
    if negb (cmdTimeoutTimer d =? 0) && negb (cmdTimeoutDuration d =? 0)
    then modify (add_timer (vos_timer_start (cmdTimeoutTimer d) (cmdTimeoutDuration d)))
    else mreturn tt).

Definition csrLLInsertEntry (pList pEntry pNewEntry : Z) (fInterlocked : bool) : M ST unit :=
  if_open pList tt (fun _ => interlocked pList fInterlocked
    (csrListInsertEntry pEntry pNewEntry ;;
     l_upd pList (fun d => set_Count (u32 (Count d + 1)) d))).

Definition csrLLRemoveTail (pList : Z) (fInterlocked : bool) : M ST Z :=
  if_open pList 0 (fun _ => interlocked pList fInterlocked
    (empty <- csrIsListEmpty pList ;;
     if empty : bool then mreturn 0
     else
       e <- csrListRemoveTail pList ;;
       l_upd pList (fun d => set_Count (u32 (Count d - 1)) d) ;;
       mreturn e)).

Definition csrLLRemoveHead (pList : Z) (fInterlocked : bool) : M ST Z :=
  if_open pList 0 (fun _ => interlocked pList fInterlocked
    (empty <- csrIsListEmpty pList ;;
     if empty : bool then mreturn 0
     else
       e <- csrListRemoveHead pList ;;
       l_upd pList (fun d => set_Count (u32 (Count d - 1)) d) ;;
       mreturn e)).

Definition csrLLPurge (pList : Z) (fInterlocked : bool) : M ST unit :=
  if_open pList tt (fun _ => interlocked pList fInterlocked
    (fuel <- gets (fun s => (size (elems s) + 2)%nat) ;;
     miter fuel (fun _ : unit =>
       pEntry <- csrLLRemoveHead pList false ;;
       if pEntry =? 0 then mreturn (inr tt) else mreturn (inl tt)) tt)).

Definition csrLLClose (pList : Z) : M ST unit :=
  if_open pList tt (fun _ =>
    csrLLPurge pList true ;;
    _ <- on_lock pList lk_destroy ;;
    l_upd pList (set_Flag LIST_FLAG_CLOSE)).

Definition csrLLRemoveEntry (pList pEntryToRemove : Z) (fInterlocked : bool) : M ST bool :=
  if_open pList false (fun _ =>
    fFound <- interlocked pList fInterlocked
      (pEntry <- csrLLPeekHead pList false ;;
       found <- walk_to pList pEntryToRemove pEntry ;;
       if found : bool then
         csrListRemoveEntry pEntryToRemove ;;
         l_upd pList (fun d => set_Count (u32 (Count d - 1)) d) ;;
         mreturn true
       else mreturn false) ;;
    d <- l_read pList ;;
    (if negb (cmdTimeoutTimer d =? 0)
     then modify (add_timer (vos_timer_stop (cmdTimeoutTimer d))) else mreturn tt) ;;
    mreturn fFound).

Definition csrLLNext (pList pEntry : Z) (fInterlocked : bool) : M ST Z :=
  if_open pList 0 (fun _ => interlocked pList fInterlocked
    (empty <- csrIsListEmpty pList ;;
     if empty : bool then mreturn 0
     else
       found <- csrLLFindEntry pList pEntry ;;
       if found : bool then
         n <- next_of pEntry ;; mreturn (if n =? pList then 0 else n)
       else mreturn 0)).

Definition csrLLPrevious (pList pEntry : Z) (fInterlocked : bool) : M ST Z :=
  if_open pList 0 (fun _ => interlocked pList fInterlocked
    (empty <- csrIsListEmpty pList ;;
     if empty : bool then mreturn 0
     else
       found <- csrLLFindEntry pList pEntry ;;
       if found : bool then
         n <- last_of pEntry ;; mreturn (if n =? pList then 0 else n)
       else mreturn 0)).
End Ops.

(** ** Rings *)

Definition nxt (h : gmap Z tListElem) (x : Z) : option Z := e_next <$> h !! x.
Definition lst (h : gmap Z tListElem) (x : Z) : option Z := e_last <$> h !! x.

(** The neighbouring pairs of the path [x], [l], [z]. *)
Fixpoint pairs (x : Z) (l : list Z) (z : Z) : list (Z * Z) :=
  match l with
  | [] => [(x, z)]
  | y :: l => (x, y) :: pairs y l z
  end.

(** The header [p] and the entries [l] form a ring. *)
Record ring (h : gmap Z tListElem) (p : Z) (l : list Z) : Prop := {
  ring_pairs : Forall (fun xy => nxt h xy.1 = Some xy.2 /\ lst h xy.2 = Some xy.1) (pairs p l p);
  ring_nodup : NoDup (p :: l);
  ring_nonnull : 0 ∉ p :: l
}.

Lemma pairs_app x l1 e l2 z : pairs x (l1 ++ e :: l2) z = pairs x l1 e ++ pairs e l2 z.
Proof. revert x. induction l1 as [|y l1 IH]; intros x; cbn; [done|]. by rewrite IH. Qed.

Lemma pairs_fst x l z : (pairs x l z).*1 = x :: l.
Proof. revert x. induction l as [|y l IH]; intros x; cbn; [done|]. by rewrite IH. Qed.

Lemma pairs_snd x l z : (pairs x l z).*2 = l ++ [z].
Proof. revert x. induction l as [|y l IH]; intros x; cbn; [done|]. by rewrite IH. Qed.

(** The neighbours of a position in a ring. *)
Definition before (p : Z) (l1 : list Z) : Z := default p (last l1).
Definition after (p : Z) (l2 : list Z) : Z := default p (head l2).

Lemma before_cons x y l : before x (y :: l) = before y l.
Proof. unfold before. rewrite last_cons. by destruct (last l). Qed.

Lemma pairs_last x l : exists A, forall z, pairs x l z = A ++ [(before x l, z)].
Proof.
  revert x. induction l as [|y l IH]; intros x; [by exists []|].
  destruct (IH y) as [A HA]. exists ((x, y) :: A). intros z. cbn.
  by rewrite HA, before_cons.
Qed.

Lemma pairs_head l z : exists B, forall x, pairs x l z = (x, after z l) :: B.
Proof. destruct l as [|y l]; [by exists []|by exists (pairs y l z)]. Qed.

Lemma pairs_split p l1 l2 : exists A B,
  (forall e, pairs p (l1 ++ e :: l2) p = A ++ (before p l1, e) :: (e, after p l2) :: B) /\
  pairs p (l1 ++ l2) p = A ++ (before p l1, after p l2) :: B.
Proof.
  destruct (pairs_last p l1) as [A HA]. destruct (pairs_head l2 p) as [B HB].
  exists A, B. split.
  - intros e. by rewrite pairs_app, HA, HB, <- app_assoc.
  - destruct l2 as [|y l2].
    + rewrite app_nil_r, HA. specialize (HB p). cbn in HB. by injection HB as <-.
    + rewrite pairs_app, HA, <- app_assoc. cbn. specialize (HB y). cbn in HB.
      by injection HB as <-.
Qed.

Lemma pairs_in x l z a b : (a, b) ∈ pairs x l z -> a ∈ x :: l /\ b ∈ l ++ [z].
Proof.
  intros Hin. split.
  - rewrite <- (pairs_fst x l z). apply (list_elem_of_fmap_2 fst) in Hin. done.
  - rewrite <- (pairs_snd x l z). apply (list_elem_of_fmap_2 snd) in Hin. done.
Qed.

(** In a ring a node is the left (right) of one pair only. *)
Lemma pairs_unique p l A a b B c d :
  NoDup (p :: l) -> pairs p l p = A ++ (a, b) :: B -> (c, d) ∈ A ++ B -> c <> a /\ d <> b.
Proof.
  intros Hnd Hp Hin.
  assert (H1 : NoDup (A ++ (a, b) :: B).*1) by (by rewrite <- Hp, pairs_fst).
  assert (H2 : NoDup (A ++ (a, b) :: B).*2).
  { rewrite <- Hp, pairs_snd, Permutation_app_comm. done. }
  rewrite fmap_app, fmap_cons, <- Permutation_middle in H1, H2. cbn in H1, H2.
  apply NoDup_cons in H1 as [H1 _], H2 as [H2 _]. rewrite <- fmap_app in H1, H2.
  split; intros ->; [apply H1|apply H2].
  - by apply (list_elem_of_fmap_2 fst) in Hin.
  - by apply (list_elem_of_fmap_2 snd) in Hin.
Qed.

Lemma ring_insert h h' p l1 l2 e :
  ring h p (l1 ++ l2) -> e ∉ p :: l1 ++ l2 -> e <> 0 ->
  (forall x, nxt h' x = if decide (x = e) then Some (after p l2)
                        else if decide (x = before p l1) then Some e else nxt h x) ->
  (forall y, lst h' y = if decide (y = e) then Some (before p l1)
                        else if decide (y = after p l2) then Some e else lst h y) ->
  ring h' p (l1 ++ e :: l2).
Proof.
  intros [Hp Hnd H0] He Hne Hn Hl. destruct (pairs_split p l1 l2) as (A & B & Hpe & Hpp).
  rewrite Hpp in Hp.
  assert (Hab : before p l1 ∈ p :: l1 ++ l2 /\ after p l2 ∈ (l1 ++ l2) ++ [p]).
  { apply pairs_in. rewrite Hpp. set_solver. }
  split.
  - rewrite Hpe. assert (HAB : Forall (fun xy => nxt h' xy.1 = Some xy.2 /\ lst h' xy.2 = Some xy.1) (A ++ B)).
    { apply Forall_forall. intros [c d] Hcd. cbn.
      destruct (pairs_unique _ _ _ _ _ _ _ _ Hnd Hpp Hcd) as [Hc Hd].
      assert (Hin : (c, d) ∈ pairs p (l1 ++ l2) p) by (rewrite Hpp; set_solver).
      apply pairs_in in Hin as [Hc' Hd'].
      rewrite Hn, Hl, !decide_False by set_solver. rewrite Forall_forall in Hp.
      apply (Hp (c, d)). set_solver. }
    apply Forall_app in HAB as [HA HB]. apply Forall_app. split; [done|].
    constructor; [|constructor; [|done]]; cbn; rewrite Hn, Hl.
    + rewrite decide_False by set_solver. by rewrite !decide_True by done.
    + rewrite decide_True by done. rewrite decide_False by set_solver. by rewrite decide_True by done.
  - rewrite <- Permutation_middle, Permutation_swap. by constructor.
  - set_solver.
Qed.

Lemma ring_remove h h' p l1 l2 e :
  ring h p (l1 ++ e :: l2) ->
  (forall x, x <> e -> nxt h' x = if decide (x = before p l1) then Some (after p l2) else nxt h x) ->
  (forall y, y <> e -> lst h' y = if decide (y = after p l2) then Some (before p l1) else lst h y) ->
  ring h' p (l1 ++ l2).
Proof.
  intros [Hp Hnd H0] Hn Hl. destruct (pairs_split p l1 l2) as (A & B & Hpe & Hpp).
  specialize (Hpe e).
  pose proof Hnd as Hnd'. rewrite <- Permutation_middle, Permutation_swap in Hnd'.
  apply NoDup_cons in Hnd' as [He Hnd'].
  assert (Hab : before p l1 ∈ p :: l1 ++ l2 /\ after p l2 ∈ (l1 ++ l2) ++ [p]).
  { apply pairs_in. rewrite Hpp. set_solver. }
  split; [|done|set_solver].
  rewrite Hpp. assert (HAB : Forall (fun xy => nxt h' xy.1 = Some xy.2 /\ lst h' xy.2 = Some xy.1) (A ++ B)).
  { apply Forall_forall. intros [c d] Hcd. cbn.
    destruct (pairs_unique _ _ _ _ _ _ _ _ Hnd' Hpp Hcd) as [Hc Hd].
    assert (Hin : (c, d) ∈ pairs p (l1 ++ l2) p) by (rewrite Hpp; set_solver).
    apply pairs_in in Hin as [Hc' Hd'].
    rewrite Hn, Hl by set_solver. rewrite !decide_False by done.
    rewrite Hpe in Hp. rewrite Forall_forall in Hp. apply (Hp (c, d)). set_solver. }
  apply Forall_app in HAB as [HA HB]. apply Forall_app. split; [done|].
  constructor; [|done]. cbn. rewrite Hn, Hl by set_solver. by rewrite !decide_True by done.
Qed.

(** The links around a position of a ring. *)
Lemma ring_at h p l1 l2 : ring h p (l1 ++ l2) ->
  nxt h (before p l1) = Some (after p l2) /\ lst h (after p l2) = Some (before p l1).
Proof.
  intros [Hp _ _]. destruct (pairs_split p l1 l2) as (A & B & _ & Hpp).
  rewrite Hpp in Hp. apply Forall_app in Hp as [_ Hp]. by inversion_clear Hp.
Qed.

Lemma ring_at_elem h p l1 e l2 : ring h p (l1 ++ e :: l2) ->
  nxt h (before p l1) = Some e /\ lst h e = Some (before p l1) /\
  nxt h e = Some (after p l2) /\ lst h (after p l2) = Some e.
Proof.
  intros [Hp _ _]. destruct (pairs_split p l1 l2) as (A & B & Hpe & _).
  rewrite Hpe in Hp. apply Forall_app in Hp as [_ Hp].
  inversion_clear Hp as [|?? [? ?] Hp']. inversion_clear Hp' as [|?? [? ?] _]. done.
Qed.

Lemma nxt_is_Some h x v : nxt h x = Some v -> is_Some (h !! x).
Proof. unfold nxt. destruct (h !! x); naive_solver. Qed.
Lemma lst_is_Some h x v : lst h x = Some v -> is_Some (h !! x).
Proof. unfold lst. destruct (h !! x); naive_solver. Qed.

Lemma ring_alloc h p l x : ring h p l -> x ∈ p :: l -> is_Some (h !! x).
Proof.
  intros Hr Hx. destruct (decide (x = p)) as [->|Hne].
  - eapply nxt_is_Some. by apply (ring_at h p [] l).
  - assert (Hin : x ∈ l) by set_solver. apply list_elem_of_split in Hin as (l1 & l2 & ->).
    eapply nxt_is_Some. by apply ring_at_elem in Hr as (_ & _ & ? & _).
Qed.

(** A ring only depends on its own nodes. *)
Lemma ring_frame h h' p l :
  ring h p l -> (forall x, x ∈ p :: l -> h' !! x = h !! x) -> ring h' p l.
Proof.
  intros [Hp Hnd H0] Heq. split; [|done..]. apply Forall_forall. intros [a b] Hin.
  rewrite Forall_forall in Hp. specialize (Hp _ Hin). apply pairs_in in Hin as [Ha Hb].
  unfold nxt, lst in *. cbn in *. rewrite !Heq by set_solver. done.
Qed.

(** ** The effect of the pointer writes *)

Definition wn (p v : Z) : gmap Z tListElem -> gmap Z tListElem := alter (set_e_next v) p.
Definition wl (p v : Z) : gmap Z tListElem -> gmap Z tListElem := alter (set_e_last v) p.

Lemma nxt_wn h p v x : is_Some (h !! p) ->
  nxt (wn p v h) x = if decide (x = p) then Some v else nxt h x.
Proof.
  intros [e He]. unfold nxt, wn. case_decide as Hx.
  - subst x. by rewrite lookup_alter_eq, He.
  - by rewrite lookup_alter_ne.
Qed.
Lemma lst_wl h p v x : is_Some (h !! p) ->
  lst (wl p v h) x = if decide (x = p) then Some v else lst h x.
Proof.
  intros [e He]. unfold lst, wl. case_decide as Hx.
  - subst x. by rewrite lookup_alter_eq, He.
  - by rewrite lookup_alter_ne.
Qed.
Lemma lst_wn h p v x : lst (wn p v h) x = lst h x.
Proof.
  unfold lst, wn. destruct (decide (x = p)) as [->|]; [rewrite lookup_alter_eq|by rewrite lookup_alter_ne].
  by destruct (h !! p).
Qed.
Lemma nxt_wl h p v x : nxt (wl p v h) x = nxt h x.
Proof.
  unfold nxt, wl. destruct (decide (x = p)) as [->|]; [rewrite lookup_alter_eq|by rewrite lookup_alter_ne].
  by destruct (h !! p).
Qed.
Lemma wn_alloc h p v x : is_Some (wn p v h !! x) <-> is_Some (h !! x).
Proof. unfold wn. apply lookup_alter_is_Some. Qed.
Lemma wl_alloc h p v x : is_Some (wl p v h !! x) <-> is_Some (h !! x).
Proof. unfold wl. apply lookup_alter_is_Some. Qed.
Lemma wn_other h p v x : x <> p -> wn p v h !! x = h !! x.
Proof. intros. unfold wn. by apply lookup_alter_ne. Qed.
Lemma wl_other h p v x : x <> p -> wl p v h !! x = h !! x.
Proof. intros. unfold wl. by apply lookup_alter_ne. Qed.

(** Facts about the links of an updated store reduce to the original store. *)
Ltac links := rewrite ?nxt_wl, ?lst_wn; repeat (rewrite ?nxt_wn, ?lst_wl, ?nxt_wl, ?lst_wn; [|by rewrite ?wn_alloc, ?wl_alloc, ?wn_alloc, ?wl_alloc..]).

Section Specs.
Context {K : Type} `{LK : LockOps K}.
#[local] Abbreviation ST := (store K).

Lemma next_of_eq p v (s : ST) : nxt (elems s) p = Some v -> next_of p s = Some (v, s).
Proof.
  unfold nxt, next_of, e_read, mbnd, mget, oget. intros Hv.
  destruct (elems s !! p); [|done]. cbn in *. by injection Hv as ->.
Qed.
Lemma runs_next_of p v (s : ST) (Q : Z -> ST -> Prop) :
  nxt (elems s) p = Some v -> Q v s -> runs (next_of p) s Q.
Proof. intros Hv HQ. eapply runs_intro; [by apply next_of_eq|done]. Qed.
Lemma runs_last_of p v (s : ST) (Q : Z -> ST -> Prop) :
  lst (elems s) p = Some v -> Q v s -> runs (last_of p) s Q.
Proof.
  unfold lst, runs, last_of, e_read, mbnd, mget, oget. intros Hv HQ.
  destruct (elems s !! p); [|done]. cbn in *. by injection Hv as ->.
Qed.
Lemma runs_write_next p v (s : ST) (Q : unit -> ST -> Prop) :
  is_Some (elems s !! p) -> Q tt (set_elems (wn p v (elems s)) s) -> runs (write_next p v) s Q.
Proof.
  intros [e He] HQ. unfold runs, write_next, e_read, mbnd, mget, oget. rewrite He. cbn.
  assert (<[p:=set_e_next v e]> (elems s) = wn p v (elems s)) as ->; [|done].
  apply map_eq. intros x. destruct (decide (x = p)) as [->|].
  - unfold wn. by rewrite lookup_insert_eq, lookup_alter_eq, He.
  - by rewrite lookup_insert_ne, wn_other.
Qed.
Lemma runs_write_last p v (s : ST) (Q : unit -> ST -> Prop) :
  is_Some (elems s !! p) -> Q tt (set_elems (wl p v (elems s)) s) -> runs (write_last p v) s Q.
Proof.
  intros [e He] HQ. unfold runs, write_last, e_read, mbnd, mget, oget. rewrite He. cbn.
  assert (<[p:=set_e_last v e]> (elems s) = wl p v (elems s)) as ->; [|done].
  apply map_eq. intros x. destruct (decide (x = p)) as [->|].
  - unfold wl. by rewrite lookup_insert_eq, lookup_alter_eq, He.
  - by rewrite lookup_insert_ne, wl_other.
Qed.

(** The stores [h] and [h'] have the same addresses and agree outside [X]. *)
Definition same_but (X : list Z) (h h' : gmap Z tListElem) : Prop :=
  (forall x, is_Some (h' !! x) <-> is_Some (h !! x)) /\ (forall x, x ∉ X -> h' !! x = h !! x).

(** A primitive turns the ring [l] into [l'], touching only entries in [X]. *)
Definition ring_step (p : Z) (X l' : list Z) (s s' : ST) : Prop :=
  exists h', s' = set_elems h' s /\ ring h' p l' /\ same_but X (elems s) h'.

Lemma before_in p l : before p l ∈ p :: l.
Proof.
  revert p. induction l as [|x l IH]; intros p; [set_solver|].
  rewrite before_cons. specialize (IH x). set_solver.
Qed.
Lemma after_in p l : after p l ∈ p :: l.
Proof. destruct l; cbn; set_solver. Qed.

Lemma same_but_refl X h : same_but X h h.
Proof. by split. Qed.
Lemma same_but_wn X h h' p v : p ∈ X -> same_but X h h' -> same_but X h (wn p v h').
Proof.
  intros Hp [Ha Ho]. split; intros x; [by rewrite wn_alloc|].
  intros Hx. rewrite wn_other by set_solver. by apply Ho.
Qed.
Lemma same_but_wl X h h' p v : p ∈ X -> same_but X h h' -> same_but X h (wl p v h').
Proof.
  intros Hp [Ha Ho]. split; intros x; [by rewrite wl_alloc|].
  intros Hx. rewrite wl_other by set_solver. by apply Ho.
Qed.
Lemma same_but_mono X Y h h' : X ⊆ Y -> same_but X h h' -> same_but Y h h'.
Proof. intros HXY [Ha Ho]. split; [done|]. intros x Hx. apply Ho. set_solver. Qed.
Lemma same_but_trans X h h' h'' : same_but X h h' -> same_but X h' h'' -> same_but X h h''.
Proof.
  intros [Ha Ho] [Ha' Ho']. split; intros x; [by rewrite Ha'|].
  intros Hx. rewrite Ho' by done. by apply Ho.
Qed.

(** Run the pointer reads and writes of a primitive. *)
Ltac ptr_read H := mstep; first [eapply runs_next_of; [exact H|] | eapply runs_last_of; [exact H|]]; cbn beta.
Ltac ptr_write :=
  try mstep;
  first [apply runs_write_next | apply runs_write_last];
  [cbn; rewrite ?wn_alloc, ?wl_alloc, ?wn_alloc, ?wl_alloc; done|]; cbn beta.
(** The links of the final store, node by node. *)
Ltac links_done :=
  intros; cbn; links; repeat case_decide; subst; try done; try congruence; exfalso; set_solver.
Ltac frame_done :=
  cbn; repeat first [apply same_but_wl; [set_solver|] | apply same_but_wn; [set_solver|]];
  apply same_but_refl.

Lemma csrListInsertTail_spec p l e (s : ST) :
  ring (elems s) p l -> e ∉ p :: l -> is_Some (elems s !! e) -> e <> 0 ->
  runs (csrListInsertTail p e) s (fun _ s' => ring_step p (p :: e :: l) (l ++ [e]) s s').
Proof.
  intros Hr He Ha Hne. unfold csrListInsertTail.
  assert (Hr2 : ring (elems s) p (l ++ [])) by (by rewrite app_nil_r).
  destruct (ring_at _ _ _ _ Hr2) as [Hb Hf]. cbn in Hf.
  pose proof (before_in p l) as Hbi.
  pose proof (ring_alloc _ _ _ _ Hr Hbi).
  pose proof (ring_alloc _ _ _ p Hr ltac:(set_solver)).
  ptr_read Hf. ptr_write. ptr_write. ptr_write. ptr_write. cbn.
  eexists. split_and!; [reflexivity| |frame_done].
  eapply (ring_insert _ _ _ _ [] _ Hr2); [by rewrite app_nil_r|done|links_done|links_done].
Qed.

Lemma csrListInsertHead_spec p l e (s : ST) :
  ring (elems s) p l -> e ∉ p :: l -> is_Some (elems s !! e) -> e <> 0 ->
  runs (csrListInsertHead p e) s (fun _ s' => ring_step p (p :: e :: l) (e :: l) s s').
Proof.
  intros Hr He Ha Hne. unfold csrListInsertHead.
  destruct (ring_at _ _ [] _ Hr) as [Hf Hb]. cbn in Hf, Hb.
  pose proof (after_in p l) as Hai.
  pose proof (ring_alloc _ _ _ _ Hr Hai).
  pose proof (ring_alloc _ _ _ p Hr ltac:(set_solver)).
  ptr_read Hf. ptr_write. ptr_write. ptr_write. ptr_write. cbn.
  eexists. split_and!; [reflexivity| |frame_done].
  eapply (ring_insert _ _ _ [] _ _ Hr); [done|done|links_done|links_done].
Qed.

Lemma csrListInsertEntry_spec p l1 l2 n e (s : ST) :
  ring (elems s) p (l1 ++ n :: l2) -> e ∉ p :: l1 ++ n :: l2 -> is_Some (elems s !! e) -> e <> 0 ->
  runs (csrListInsertEntry n e) s
    (fun _ s' => ring_step p (p :: e :: l1 ++ n :: l2) (l1 ++ e :: n :: l2) s s').
Proof.
  intros Hr He Ha Hne. unfold csrListInsertEntry.
  rewrite (proj2 (Z.eqb_neq n 0)) by (intros ->; apply (ring_nonnull _ _ _ Hr); set_solver).
  destruct (ring_at _ _ _ _ Hr) as [Hf Hb]. cbn in Hf, Hb.
  pose proof (before_in p l1) as Hbi.
  assert (Hbi' : before p l1 ∈ p :: l1 ++ n :: l2) by set_solver.
  pose proof (ring_alloc _ _ _ _ Hr Hbi').
  pose proof (ring_alloc _ _ _ n Hr ltac:(set_solver)).
  ptr_read Hb. ptr_write. ptr_write. ptr_write. ptr_write. cbn.
  eexists. split_and!; [reflexivity| |frame_done].
  eapply (ring_insert _ _ _ _ _ _ Hr); [done|done|links_done|links_done].
Qed.

Lemma csrListRemoveEntry_spec p l1 l2 e (s : ST) :
  ring (elems s) p (l1 ++ e :: l2) ->
  runs (csrListRemoveEntry e) s
    (fun _ s' => ring_step p (p :: l1 ++ e :: l2) (l1 ++ l2) s s').
Proof.
  intros Hr. unfold csrListRemoveEntry.
  destruct (ring_at_elem _ _ _ _ _ Hr) as (Hb1 & Hb2 & Ha1 & Ha2).
  pose proof (before_in p l1) as Hbi. pose proof (after_in p l2) as Hai.
  pose proof (ring_alloc _ _ _ (before p l1) Hr ltac:(set_solver)).
  pose proof (ring_alloc _ _ _ (after p l2) Hr ltac:(set_solver)).
  ptr_read Hb2. ptr_read Ha1. ptr_write. ptr_write. cbn.
  eexists. split_and!; [reflexivity| |frame_done].
  eapply (ring_remove _ _ _ _ _ _ Hr); links_done.
Qed.

Lemma csrListRemoveHead_spec p l e (s : ST) :
  ring (elems s) p (e :: l) ->
  runs (csrListRemoveHead p) s (fun a s' => a = e /\ ring_step p (p :: e :: l) l s s').
Proof.
  intros Hr. unfold csrListRemoveHead.
  destruct (ring_at_elem _ _ [] _ _ Hr) as (Hb1 & Hb2 & Ha1 & Ha2). cbn in Hb1, Hb2.
  pose proof (after_in p l) as Hai.
  pose proof (ring_alloc _ _ _ p Hr ltac:(set_solver)).
  pose proof (ring_alloc _ _ _ (after p l) Hr ltac:(set_solver)).
  ptr_read Hb1. ptr_read Ha1. ptr_write. ptr_write. mstep. split; [done|]. cbn.
  eexists. split_and!; [reflexivity| |frame_done].
  eapply (ring_remove _ _ _ [] _ _ Hr); links_done.
Qed.

Lemma csrListRemoveTail_spec p l e (s : ST) :
  ring (elems s) p (l ++ [e]) ->
  runs (csrListRemoveTail p) s (fun a s' => a = e /\ ring_step p (p :: l ++ [e]) l s s').
Proof.
  intros Hr. unfold csrListRemoveTail.
  destruct (ring_at_elem _ _ _ _ [] Hr) as (Hb1 & Hb2 & Ha1 & Ha2). cbn in Ha1, Ha2.
  pose proof (before_in p l) as Hbi.
  pose proof (ring_alloc _ _ _ p Hr ltac:(set_solver)).
  pose proof (ring_alloc _ _ _ (before p l) Hr ltac:(set_solver)).
  ptr_read Ha2. ptr_read Hb2. ptr_write. ptr_write. mstep. split; [done|]. cbn.
  eexists. split_and!; [reflexivity| |frame_done].
  rewrite <- (app_nil_r l) at 3.
  eapply (ring_remove _ _ _ _ [] _ Hr); links_done.
Qed.
(** *** Lists *)

(** The record at [p] is an open list holding [l]. *)
Record lrep (s : ST) (p : Z) (d : tDblLinkList K) (l : list Z) : Prop := {
  lrep_record : lists s !! p = Some d;
  lrep_open : is_open d = true;
  lrep_count : Count d = u32 (Z.of_nat (length l));
  lrep_ring : ring (elems s) p l
}.

(** The store with the ring links [h] and the count of [l] at [p]. *)
Definition with_list (p : Z) (d : tDblLinkList K) (h : gmap Z tListElem) (l : list Z) (s : ST) : ST :=
  {| elems := h; lists := <[p := set_Count (u32 (Z.of_nat (length l))) d]> (lists s);
     timers := timers s |}.

(** A call turns the list at [p] into [l'], touching only entries in [X]. *)
Definition lstep (p : Z) (d : tDblLinkList K) (X l' : list Z) (s s' : ST) : Prop :=
  exists h', s' = with_list p d h' l' s /\ ring h' p l' /\ same_but X (elems s) h'.

Lemma set_Count_id (d : tDblLinkList K) n : Count d = n -> set_Count n d = d.
Proof. intros <-. by destruct d. Qed.
Lemma set_Lock_id (d : tDblLinkList K) : set_Lock (Lock d) d = d.
Proof. by destruct d. Qed.
Lemma set_lists_id (s : ST) : set_lists (lists s) s = s.
Proof. by destruct s. Qed.

Lemma lstep_id s p d l X : lrep s p d l -> lstep p d X l s s.
Proof.
  intros [Hd _ Hc Hr]. exists (elems s). split_and!; [|done|apply same_but_refl].
  unfold with_list. rewrite set_Count_id by done. rewrite insert_id by done. by destruct s.
Qed.

Lemma lrep_lstep p d X l l' s s' :
  lrep s p d l -> lstep p d X l' s s' -> lrep s' p (set_Count (u32 (Z.of_nat (length l'))) d) l'.
Proof.
  intros [Hd Ho Hc Hr] (h' & -> & Hr' & _). split; [|done..]. cbn. by rewrite lookup_insert_eq.
Qed.

Lemma lstep_mono p d X Y l' s s' : X ⊆ Y -> lstep p d X l' s s' -> lstep p d Y l' s s'.
Proof. intros HXY (h' & -> & Hr & Hs). exists h'. split_and!; try done. by eapply same_but_mono. Qed.

Lemma lstep_trans p d X l1 l2 s s1 s2 :
  lstep p d X l1 s s1 -> lstep p (set_Count (u32 (Z.of_nat (length l1))) d) X l2 s1 s2 ->
  lstep p d X l2 s s2.
Proof.
  intros (h1 & -> & _ & H1) (h2 & -> & Hr & H2). exists h2.
  split_and!; [|done|by eapply same_but_trans]. unfold with_list. cbn.
  by rewrite insert_insert_eq.
Qed.

Lemma lrep_nonnull s p d l : lrep s p d l -> p <> 0.
Proof. intros [_ _ _ Hr] ->. apply (ring_nonnull _ _ _ Hr). set_solver. Qed.

Lemma runs_l_read p d (s : ST) (Q : tDblLinkList K -> ST -> Prop) :
  lists s !! p = Some d -> Q d s -> runs (l_read p) s Q.
Proof. unfold runs, l_read, mbnd, mget, oget. by intros ->. Qed.
Lemma runs_l_upd p f d (s : ST) (Q : unit -> ST -> Prop) :
  lists s !! p = Some d -> Q tt (set_lists (<[p := f d]> (lists s)) s) -> runs (l_upd p f) s Q.
Proof. unfold runs, l_upd, l_read, mbnd, mget, oget. by intros ->. Qed.

(** The guards let a call on an open list through. *)
Lemma runs_if_open {A} p dflt (body : tDblLinkList K -> M ST A) d l s Q :
  lrep s p d l -> runs (body d) s Q -> runs (if_open p dflt body) s Q.
Proof.
  intros Hl HQ. unfold if_open. rewrite (proj2 (Z.eqb_neq p 0)) by by eapply lrep_nonnull.
  mstep. eapply runs_l_read; [by apply Hl|]. by rewrite (lrep_open _ _ _ _ Hl).
Qed.

Lemma on_lock_eq p f d st k (s : ST) :
  lists s !! p = Some d -> f (Lock d) = Some (st, k) ->
  on_lock p f s = Some (st, set_lists (<[p := set_Lock k d]> (lists s)) s).
Proof. intros Hd Hf. unfold on_lock, l_upd, l_read, mbnd, mget, oget. rewrite Hd. cbn. rewrite Hf. cbn. by rewrite Hd. Qed.

Lemma csrLLLock_eq p d k (s : ST) :
  p <> 0 -> lists s !! p = Some d -> is_open d = true ->
  lk_acquire (Lock d) = Some (VOS_STATUS_SUCCESS, k) ->
  csrLLLock p s = Some (tt, set_lists (<[p := set_Lock k d]> (lists s)) s).
Proof.
  intros Hp Hd Ho Hk. unfold csrLLLock. rewrite (proj2 (Z.eqb_neq p 0)) by done.
  pose proof (on_lock_eq _ _ _ _ _ _ Hd Hk) as He.
  unfold mbnd. unfold l_read, mbnd, mget, oget. rewrite Hd. cbn. rewrite Ho. by rewrite He.
Qed.
Lemma csrLLUnlock_eq p d k (s : ST) :
  p <> 0 -> lists s !! p = Some d -> is_open d = true ->
  lk_release (Lock d) = Some (VOS_STATUS_SUCCESS, k) ->
  csrLLUnlock p s = Some (tt, set_lists (<[p := set_Lock k d]> (lists s)) s).
Proof.
  intros Hp Hd Ho Hk. unfold csrLLUnlock. rewrite (proj2 (Z.eqb_neq p 0)) by done.
  pose proof (on_lock_eq _ _ _ _ _ _ Hd Hk) as He.
  unfold mbnd. unfold l_read, mbnd, mget, oget. rewrite Hd. cbn. rewrite Ho. by rewrite He.
Qed.

(** Locked or not, a call does what its body does, and the lock is as before. *)
Lemma runs_interlocked {A} p fl (body : M ST A) d l s X l' (P : A -> Prop) :
  lrep s p d l -> (fl = true -> lk_usable (Lock d)) ->
  (forall s1 d1, lrep s1 p d1 l -> elems s1 = elems s ->
     runs body s1 (fun a s' => P a /\ lstep p d1 X l' s1 s')) ->
  runs (interlocked p fl body) s (fun a s' => P a /\ lstep p d X l' s s').
Proof.
  intros Hl Hk Hbody. unfold interlocked. destruct fl.
  - destruct (lk_bracket _ (Hk eq_refl)) as (k & Ha & Hrel).
    pose proof (lrep_nonnull _ _ _ _ Hl) as Hp. destruct Hl as [Hd Ho Hc Hr].
    mstep. eapply runs_intro; [by eapply csrLLLock_eq|]. cbn beta. mstep.
    eapply runs_mono.
    { apply (Hbody _ (set_Lock k d)); [|done]. split; [cbn; by rewrite lookup_insert_eq|done..]. }
    intros a s' [HP (h' & -> & Hr' & Hs)]. mstep.
    eapply runs_intro.
    { eapply csrLLUnlock_eq; [done|cbn; by rewrite lookup_insert_eq|done|exact Hrel]. }
    cbn beta. mstep. split; [done|]. exists h'. split_and!; [|done..].
    unfold with_list, set_lists. cbn. rewrite !insert_insert_eq. by destruct d.
  - mstep. mstep. mstep. eapply runs_mono; [by apply Hbody|]. intros a s' HQ. do 2 mstep. done.
Qed.
(** *** The calls *)

Lemma u32_succ n : u32 (u32 n + 1) = u32 (n + 1).
Proof. unfold u32. apply Zplus_mod_idemp_l. Qed.
Lemma u32_pred n : u32 (u32 n - 1) = u32 (n - 1).
Proof. unfold u32. apply Zminus_mod_idemp_l. Qed.

(** A ring step followed by the update of the count. *)
Lemma runs_count p f d l X l' s s' :
  lrep s p d l -> ring_step p X l' s s' -> f d = set_Count (u32 (Z.of_nat (length l'))) d ->
  runs (l_upd p f) s' (fun _ s'' => lstep p d X l' s s'').
Proof.
  intros [Hd Ho Hc Hr] (h' & -> & Hr' & Hs) Hf.
  eapply runs_l_upd; [exact Hd|]. rewrite Hf. by exists h'.
Qed.

Lemma csrIsListEmpty_spec s p d l :
  lrep s p d l -> csrIsListEmpty p s = Some (bool_decide (l = []), s).
Proof.
  intros [_ _ _ Hr]. destruct (ring_at _ _ [] _ Hr) as [Hf _]. cbn in Hf.
  unfold csrIsListEmpty, mbnd. rewrite (next_of_eq _ _ _ Hf). unfold mreturn. do 2 f_equal.
  destruct l as [|x l].
  - cbn. by rewrite Z.eqb_refl.
  - change (after p (x :: l)) with x. rewrite bool_decide_false by done. apply Z.eqb_neq. intros ->.
    destruct Hr as [_ Hnd _]. apply NoDup_cons in Hnd as [Hnd _]. set_solver.
Qed.

Lemma csrLLInsertTail_spec p fl e d l s :
  lrep s p d l -> (fl = true -> lk_usable (Lock d)) ->
  e ∉ p :: l -> is_Some (elems s !! e) -> e <> 0 ->
  runs (csrLLInsertTail p e fl) s (fun _ s' => lstep p d (p :: e :: l) (l ++ [e]) s s').
Proof.
  intros Hl Hk He Ha Hne. eapply runs_if_open; [done|].
  eapply runs_mono; [eapply (runs_interlocked _ _ _ _ _ _ (p :: e :: l) (l ++ [e]) (fun _ => True)); [done..|]|naive_solver].
  intros s1 d1 Hl1 Hs1. mstep. eapply runs_mono.
  { apply csrListInsertTail_spec; [by eapply lrep_ring|done|by rewrite Hs1|done]. }
  intros ? s' Hs'. eapply runs_mono; [eapply (runs_count _ _ _ _ _ _ _ _ Hl1 Hs')|naive_solver].
  rewrite (lrep_count _ _ _ _ Hl1), u32_succ, length_app. cbn. do 2 f_equal. lia.
Qed.

Lemma csrLLInsertEntry_spec p fl n e d l1 l2 s :
  lrep s p d (l1 ++ n :: l2) -> (fl = true -> lk_usable (Lock d)) ->
  e ∉ p :: l1 ++ n :: l2 -> is_Some (elems s !! e) -> e <> 0 ->
  runs (csrLLInsertEntry p n e fl) s
    (fun _ s' => lstep p d (p :: e :: l1 ++ n :: l2) (l1 ++ e :: n :: l2) s s').
Proof.
  intros Hl Hk He Ha Hne. eapply runs_if_open; [done|].
  eapply runs_mono; [eapply (runs_interlocked _ _ _ _ _ _ (p :: e :: l1 ++ n :: l2) (l1 ++ e :: n :: l2) (fun _ => True)); [done..|]|naive_solver].
  intros s1 d1 Hl1 Hs1. mstep. eapply runs_mono.
  { eapply csrListInsertEntry_spec; [by eapply lrep_ring|done|by rewrite Hs1|done]. }
  intros ? s' Hs'. eapply runs_mono; [eapply (runs_count _ _ _ _ _ _ _ _ Hl1 Hs')|naive_solver].
  rewrite (lrep_count _ _ _ _ Hl1), u32_succ, !length_app. cbn. do 2 f_equal. lia.
Qed.

Lemma csrLLRemoveHead_spec p fl d l s :
  lrep s p d l -> (fl = true -> lk_usable (Lock d)) ->
  runs (csrLLRemoveHead p fl) s
    (fun a s' => a = default 0 (head l) /\ lstep p d (p :: l) (tail l) s s').
Proof.
  intros Hl Hk. eapply runs_if_open; [done|].
  apply (runs_interlocked _ _ _ _ _ _ _ _ (fun a => a = default 0 (head l)) Hl Hk).
  intros s1 d1 Hl1 _. mstep.
  eapply runs_intro; [by eapply csrIsListEmpty_spec|]. cbn beta.
  destruct l as [|x l]; cbn.
  - split; [done|]. by apply lstep_id.
  - mstep. eapply runs_mono; [apply csrListRemoveHead_spec; by eapply lrep_ring|].
    intros a s' [-> Hs']. mstep. eapply runs_mono; [eapply (runs_count _ _ _ _ _ _ _ _ Hl1 Hs')|by intros [] s'' ?].
    rewrite (lrep_count _ _ _ _ Hl1), u32_pred. cbn. do 2 f_equal. lia.
Qed.

Lemma csrLLRemoveTail_spec p fl d l s :
  lrep s p d l -> (fl = true -> lk_usable (Lock d)) ->
  runs (csrLLRemoveTail p fl) s
    (fun a s' => a = default 0 (last l) /\ lstep p d (p :: l) (removelast l) s s').
Proof.
  intros Hl Hk. eapply runs_if_open; [done|].
  apply (runs_interlocked _ _ _ _ _ _ _ _ (fun a => a = default 0 (last l)) Hl Hk).
  intros s1 d1 Hl1 _. mstep.
  eapply runs_intro; [by eapply csrIsListEmpty_spec|]. cbn beta.
  destruct l as [|x l _] using rev_ind; cbn.
  - split; [done|]. by apply lstep_id.
  - rewrite bool_decide_false by (by destruct l). rewrite last_snoc, removelast_last. cbn.
    mstep. eapply runs_mono; [apply csrListRemoveTail_spec; by eapply lrep_ring|].
    intros a s' [-> Hs']. mstep. eapply runs_mono; [eapply (runs_count _ _ _ _ _ _ _ _ Hl1 Hs')|by intros [] s'' ?].
    rewrite (lrep_count _ _ _ _ Hl1), u32_pred, length_app. cbn. do 2 f_equal. lia.
Qed.

Lemma csrLLPeekHead_spec p fl d l s :
  lrep s p d l -> (fl = true -> lk_usable (Lock d)) ->
  runs (csrLLPeekHead p fl) s (fun a s' => a = default 0 (head l) /\ lstep p d [] l s s').
Proof.
  intros Hl Hk. eapply runs_if_open; [done|].
  apply (runs_interlocked _ _ _ _ _ _ _ _ (fun a => a = default 0 (head l)) Hl Hk).
  intros s1 d1 Hl1 _. mstep.
  eapply runs_intro; [by eapply csrIsListEmpty_spec|]. cbn beta.
  destruct l as [|x l]; cbn.
  - split; [done|]. by apply lstep_id.
  - destruct (ring_at _ _ [] _ (lrep_ring _ _ _ _ Hl1)) as [Hf _].
    eapply runs_next_of; [exact Hf|]. split; [done|]. by apply lstep_id.
Qed.

Lemma csrLLPeekTail_spec p fl d l s :
  lrep s p d l -> (fl = true -> lk_usable (Lock d)) ->
  runs (csrLLPeekTail p fl) s (fun a s' => a = default 0 (last l) /\ lstep p d [] l s s').
Proof.
  intros Hl Hk. eapply runs_if_open; [done|].
  apply (runs_interlocked _ _ _ _ _ _ _ _ (fun a => a = default 0 (last l)) Hl Hk).
  intros s1 d1 Hl1 _. mstep.
  eapply runs_intro; [by eapply csrIsListEmpty_spec|]. cbn beta.
  assert (Hr2 : ring (elems s1) p (l ++ [])) by (rewrite app_nil_r; by eapply lrep_ring).
  destruct (ring_at _ _ _ _ Hr2) as [_ Hf]. cbn in Hf.
  destruct l as [|x l _] using rev_ind; cbn.
  - split; [done|]. by apply lstep_id.
  - rewrite bool_decide_false by (by destruct l).
    eapply runs_last_of; [exact Hf|]. unfold before. rewrite last_snoc.
    split; [done|]. by apply lstep_id.
Qed.

Lemma csrLLIsListEmpty_spec p fl d l s :
  lrep s p d l -> (fl = true -> lk_usable (Lock d)) ->
  runs (csrLLIsListEmpty p fl) s (fun a s' => a = bool_decide (l = []) /\ lstep p d [] l s s').
Proof.
  intros Hl Hk. eapply runs_if_open; [done|].
  apply (runs_interlocked _ _ _ _ _ _ _ _ (fun a => a = bool_decide (l = [])) Hl Hk).
  intros s1 d1 Hl1 _. eapply runs_intro; [by eapply csrIsListEmpty_spec|].
  split; [done|]. by apply lstep_id.
Qed.

Lemma csrLLCount_spec p d l s :
  lrep s p d l -> csrLLCount p s = Some (u32 (Z.of_nat (length l)), s).
Proof.
  intros Hl. pose proof (lrep_nonnull _ _ _ _ Hl) as Hp. destruct Hl as [Hd Ho Hc _].
  unfold csrLLCount. rewrite (proj2 (Z.eqb_neq p 0)) by done.
  unfold l_read, mbnd, mget, oget. rewrite Hd. cbn. by rewrite Ho, Hc.
Qed.
(** A ring has no more nodes than the store. *)
Lemma ring_size h p l : ring h p l -> (length l < size h)%nat.
Proof.
  intros Hr. pose proof (ring_nodup _ _ _ Hr) as Hnd.
  rewrite <- (size_dom (D:=gset Z)).
  assert (Hsub : list_to_set (C:=gset Z) (p :: l) ⊆ dom h).
  { intros x Hx%elem_of_list_to_set. apply elem_of_dom. by eapply ring_alloc. }
  apply subseteq_size in Hsub. rewrite size_list_to_set in Hsub by done. cbn in Hsub. lia.
Qed.

(** Where [walk_to] stands when [l2] is still to be visited. *)
Lemma walk_to_loop p e (s : ST) l1 l2 fuel :
  ring (elems s) p (l1 ++ l2) -> (length l2 < fuel)%nat ->
  miter fuel (fun pEntry =>
    if negb (pEntry =? 0) && negb (pEntry =? p) then
      if pEntry =? e then mreturn (inr true)
      else n <- next_of pEntry ;; mreturn (inl n)
    else mreturn (inr false)) (after p l2) s = Some (bool_decide (e ∈ l2), s).
Proof.
  revert l1 fuel. induction l2 as [|x l2 IH]; intros l1 [|fuel] Hr Hf; cbn in Hf; try lia.
  - cbn -[Z.eqb bool_decide]. unfold mbnd. rewrite Z.eqb_refl. cbn -[Z.eqb bool_decide].
    rewrite andb_false_r. cbn -[bool_decide]. by rewrite bool_decide_false by set_solver.
  - cbn -[Z.eqb bool_decide next_of]. unfold mbnd at 1.
    pose proof (ring_nonnull _ _ _ Hr) as H0. pose proof (ring_nodup _ _ _ Hr) as Hnd.
    apply NoDup_cons in Hnd as [Hp _].
    rewrite (proj2 (Z.eqb_neq x 0)) by (intros ->; set_solver).
    assert (Hxp : x <> p) by (intros ->; set_solver).
    rewrite (proj2 (Z.eqb_neq _ _) Hxp). cbn [negb andb].
    destruct (Z.eqb_spec x e) as [->|Hne]; cbn -[bool_decide next_of].
    + by rewrite bool_decide_true by set_solver.
    + destruct (ring_at_elem _ _ _ _ _ Hr) as (_ & _ & Hx & _).
      unfold mbnd. rewrite (next_of_eq _ _ _ Hx). cbn -[bool_decide].
      rewrite (IH (l1 ++ [x])); [|by rewrite <- app_assoc|lia].
      do 2 f_equal. apply bool_decide_ext. set_solver.
Qed.

Lemma walk_to_spec s p d l e :
  lrep s p d l -> walk_to p e (default 0 (head l)) s = Some (bool_decide (e ∈ l), s).
Proof.
  intros Hl. pose proof (lrep_ring _ _ _ _ Hl) as Hr. pose proof (ring_size _ _ _ Hr) as Hsz.
  unfold walk_to. unfold mbnd at 1. unfold gets. cbn beta.
  destruct l as [|x l].
  - destruct (size (elems s)) as [|n]; [cbn in Hsz; lia|]. cbn -[bool_decide].
    by rewrite bool_decide_false by set_solver.
  - apply (walk_to_loop p e s [] (x :: l)); [done|lia].
Qed.

(** An unlocked peek leaves the store alone. *)
Lemma csrLLPeekHead_eq s p d l :
  lrep s p d l -> csrLLPeekHead p false s = Some (default 0 (head l), s).
Proof.
  intros Hl. pose proof (csrLLPeekHead_spec p false _ _ _ Hl ltac:(done)) as Hr.
  apply runs_elim in Hr as (a & s' & He & -> & Hs). rewrite He. do 2 f_equal.
  destruct Hs as (h' & -> & Hr' & [Ha Ho]). destruct Hl as [Hd _ Hc _].
  unfold with_list. rewrite set_Count_id, insert_id by done.
  assert (h' = elems s) as ->; [|by destruct s]. apply map_eq. intros x. apply Ho. set_solver.
Qed.

Lemma csrLLFindEntry_spec s p d l e :
  lrep s p d l -> csrLLFindEntry p e s = Some (bool_decide (e ∈ l), s).
Proof.
  intros Hl. pose proof (lrep_nonnull _ _ _ _ Hl) as Hp.
  assert (Hr : runs (csrLLFindEntry p e) s (fun b s' => b = bool_decide (e ∈ l) /\ s' = s)).
  { eapply runs_if_open; [done|]. mstep.
    eapply runs_intro; [by eapply csrLLPeekHead_eq|]. cbn beta.
    eapply runs_intro; [by eapply walk_to_spec|]. done. }
  by apply runs_elim in Hr as (b & s' & -> & -> & ->).
Qed.

(** The entry after (before) [e] in [l], or null. *)
Fixpoint succ_of (e : Z) (l : list Z) : Z :=
  match l with
  | [] => 0
  | x :: l => if decide (x = e) then default 0 (head l) else succ_of e l
  end.
Definition pred_of (e : Z) (l : list Z) : Z := succ_of e (reverse l).

Lemma succ_of_split e l1 l2 : e ∉ l1 -> succ_of e (l1 ++ e :: l2) = default 0 (head l2).
Proof.
  induction l1 as [|x l1 IH]; intros He; cbn; [by rewrite decide_True|].
  rewrite decide_False by set_solver. apply IH. set_solver.
Qed.
Lemma succ_of_absent e l : e ∉ l -> succ_of e l = 0.
Proof.
  induction l as [|x l IH]; intros He; cbn; [done|].
  rewrite decide_False by set_solver. apply IH. set_solver.
Qed.

Lemma ring_split_nodup h p l1 e l2 : ring h p (l1 ++ e :: l2) ->
  (e ∉ l1) /\ (e ∉ l2) /\ (p ∉ l1) /\ (p ∉ l2).
Proof.
  intros Hr. pose proof (ring_nodup _ _ _ Hr) as Hnd.
  rewrite <- Permutation_middle in Hnd. apply NoDup_cons in Hnd as [Hp Hnd].
  apply NoDup_cons in Hnd as [He _]. set_solver.
Qed.

Lemma head_after p l : p ∉ l -> (if after p l =? p then 0 else after p l) = default 0 (head l).
Proof.
  destruct l as [|x l]; intros Hp; cbn; [by rewrite Z.eqb_refl|].
  by rewrite (proj2 (Z.eqb_neq x p)) by set_solver.
Qed.
Lemma last_before p l : p ∉ l -> (if before p l =? p then 0 else before p l) = default 0 (last l).
Proof.
  intros Hp. unfold before. destruct l as [|x l _] using rev_ind; cbn; [by rewrite Z.eqb_refl|].
  rewrite last_snoc. cbn. by rewrite (proj2 (Z.eqb_neq x p)) by set_solver.
Qed.

Lemma csrLLNext_spec p e fl d l s :
  lrep s p d l -> (fl = true -> lk_usable (Lock d)) ->
  runs (csrLLNext p e fl) s (fun a s' => a = succ_of e l /\ lstep p d [] l s s').
Proof.
  intros Hl Hk. eapply runs_if_open; [done|].
  apply (runs_interlocked _ _ _ _ _ _ _ _ (fun a => a = succ_of e l) Hl Hk).
  intros s1 d1 Hl1 _. mstep. eapply runs_intro; [by eapply csrIsListEmpty_spec|]. cbn beta.
  case_bool_decide as Hnil; [subst l; split; [done|by apply lstep_id]|].
  mstep. eapply runs_intro; [by eapply csrLLFindEntry_spec|]. cbn beta.
  case_bool_decide as Hin.
  - apply list_elem_of_split in Hin as (l1 & l2 & ->).
    pose proof (lrep_ring _ _ _ _ Hl1) as Hr.
    destruct (ring_at_elem _ _ _ _ _ Hr) as (_ & _ & Hx & _).
    destruct (ring_split_nodup _ _ _ _ _ Hr) as (He1 & He2 & Hp1 & Hp2).
    mstep. eapply runs_next_of; [exact Hx|]. mstep. rewrite succ_of_split, head_after by done.
    split; [done|]. by apply lstep_id.
  - rewrite succ_of_absent by done. split; [done|]. by apply lstep_id.
Qed.

Lemma csrLLPrevious_spec p e fl d l s :
  lrep s p d l -> (fl = true -> lk_usable (Lock d)) ->
  runs (csrLLPrevious p e fl) s (fun a s' => a = pred_of e l /\ lstep p d [] l s s').
Proof.
  intros Hl Hk. eapply runs_if_open; [done|].
  apply (runs_interlocked _ _ _ _ _ _ _ _ (fun a => a = pred_of e l) Hl Hk).
  intros s1 d1 Hl1 _. mstep. eapply runs_intro; [by eapply csrIsListEmpty_spec|]. cbn beta.
  case_bool_decide as Hnil; [subst l; split; [done|by apply lstep_id]|].
  mstep. eapply runs_intro; [by eapply csrLLFindEntry_spec|]. cbn beta. unfold pred_of.
  case_bool_decide as Hin.
  - apply list_elem_of_split in Hin as (l1 & l2 & ->).
    pose proof (lrep_ring _ _ _ _ Hl1) as Hr.
    destruct (ring_at_elem _ _ _ _ _ Hr) as (_ & Hx & _ & _).
    destruct (ring_split_nodup _ _ _ _ _ Hr) as (He1 & He2 & Hp1 & Hp2).
    mstep. eapply runs_last_of; [exact Hx|]. mstep.
    rewrite reverse_app, reverse_cons, <- app_assoc. cbn.
    rewrite succ_of_split by (by rewrite elem_of_reverse). rewrite head_reverse, last_before by done.
    split; [done|]. by apply lstep_id.
  - rewrite succ_of_absent by (by rewrite elem_of_reverse). split; [done|]. by apply lstep_id.
Qed.
(** The timer calls, which happen after the list is unlocked. *)
Definition add_timers (tm : list timer_call) (s : ST) : ST :=
  {| elems := elems s; lists := lists s; timers := tm ++ timers s |}.

(** [lstep] together with the timer calls [tm]. *)
Definition tstep (p : Z) (d : tDblLinkList K) (X l' : list Z) (tm : list timer_call) (s s' : ST) : Prop :=
  exists s1, lstep p d X l' s s1 /\ s' = add_timers tm s1.

Lemma tstep_nil p d X l' s s' : lstep p d X l' s s' -> tstep p d X l' [] s s'.
Proof. intros Hs. exists s'. split; [done|]. by destruct s'. Qed.

Lemma tstep_trans p d X l1 l2 tm1 tm2 s s1 s2 :
  tstep p d X l1 tm1 s s1 -> tstep p (set_Count (u32 (Z.of_nat (length l1))) d) X l2 tm2 s1 s2 ->
  tstep p d X l2 (tm2 ++ tm1) s s2.
Proof.
  intros (t1 & (h1 & -> & _ & H1) & ->) (t2 & (h2 & -> & Hr & H2) & ->).
  exists (with_list p d h2 l2 s). split.
  - exists h2. split_and!; [done..|]. by eapply same_but_trans.
  - unfold add_timers, with_list. cbn. by rewrite insert_insert_eq, app_assoc.
Qed.

Lemma tstep_mono p d X Y l' tm s s' : X ⊆ Y -> tstep p d X l' tm s s' -> tstep p d Y l' tm s s'.
Proof. intros HXY (t & Hs & ->). exists t. split; [|done]. by eapply lstep_mono. Qed.

Lemma lrep_tstep p d X l l' tm s s' :
  lrep s p d l -> tstep p d X l' tm s s' -> lrep s' p (set_Count (u32 (Z.of_nat (length l'))) d) l'.
Proof.
  intros Hl (t & Hs & ->). pose proof (lrep_lstep _ _ _ _ _ _ _ Hl Hs) as [].
  by split.
Qed.

Lemma tstep_alloc p d X l' tm s s' e :
  tstep p d X l' tm s s' -> is_Some (elems s' !! e) <-> is_Some (elems s !! e).
Proof. intros (t & (h & -> & _ & Ha & _) & ->). cbn. apply Ha. Qed.

(** Other lists are left alone. *)
Lemma tstep_other p d X l' tm s s' q dq m :
  tstep p d X l' tm s s' -> q <> p -> lrep s q dq m -> (forall x, x ∈ q :: m -> x ∉ X) ->
  lrep s' q dq m.
Proof.
  intros (t & (h & -> & _ & _ & Ho) & ->) Hq [Hd Hopen Hc Hr] HX. split; cbn; [|done..|].
  - by rewrite lookup_insert_ne.
  - eapply ring_frame; [done|]. intros x Hx. apply Ho. by apply HX.
Qed.

Definition head_timer (d : tDblLinkList K) : list timer_call :=
  if negb (cmdTimeoutTimer d =? 0) && negb (cmdTimeoutDuration d =? 0)
  then [vos_timer_start (cmdTimeoutTimer d) (cmdTimeoutDuration d)] else [].
Definition remove_timer (d : tDblLinkList K) : list timer_call :=
  if negb (cmdTimeoutTimer d =? 0) then [vos_timer_stop (cmdTimeoutTimer d)] else [].

Lemma csrLLInsertHead_spec p fl e d l s :
  lrep s p d l -> (fl = true -> lk_usable (Lock d)) ->
  e ∉ p :: l -> is_Some (elems s !! e) -> e <> 0 ->
  runs (csrLLInsertHead p e fl) s
    (fun _ s' => tstep p d (p :: e :: l) (e :: l) (head_timer d) s s').
Proof.
  intros Hl Hk He Ha Hne. eapply runs_if_open; [done|]. mstep.
  eapply runs_mono; [eapply (runs_interlocked _ _ _ _ _ _ (p :: e :: l) (e :: l) (fun _ => True)); [done..|]|].
  - intros s1 d1 Hl1 Hs1. mstep. eapply runs_mono.
    { apply csrListInsertHead_spec; [by eapply lrep_ring|done|by rewrite Hs1|done]. }
    intros ? s' Hs'. eapply runs_mono; [eapply (runs_count _ _ _ _ _ _ _ _ Hl1 Hs')|naive_solver].
    rewrite (lrep_count _ _ _ _ Hl1), u32_succ. cbn. do 2 f_equal. lia.
  - intros _ s' [_ Hs']. mstep.
    eapply runs_l_read; [eapply lrep_record, lrep_lstep; [exact Hl|exact Hs']|].
    unfold head_timer. cbn. destruct (negb _ && negb _); cbn; [by exists s'|by apply tstep_nil].
Qed.

Lemma filter_ne_absent e (l : list Z) : e ∉ l -> filter (fun x => x <> e) l = l.
Proof.
  induction l as [|x l IH]; intros He; [done|].
  rewrite filter_cons_True by set_solver. rewrite IH by set_solver. done.
Qed.
Lemma filter_ne_split e (l1 l2 : list Z) : e ∉ l1 -> e ∉ l2 ->
  filter (fun x => x <> e) (l1 ++ e :: l2) = l1 ++ l2.
Proof. intros. rewrite filter_app, filter_cons_False, !filter_ne_absent by naive_solver. done. Qed.

Lemma csrLLRemoveEntry_spec p e fl d l s :
  lrep s p d l -> (fl = true -> lk_usable (Lock d)) ->
  runs (csrLLRemoveEntry p e fl) s
    (fun a s' => a = bool_decide (e ∈ l) /\
       tstep p d (p :: l) (filter (fun x => x <> e) l) (remove_timer d) s s').
Proof.
  intros Hl Hk. eapply runs_if_open; [done|]. mstep.
  eapply runs_mono; [apply (runs_interlocked _ _ _ _ _ _ (p :: l) (filter (fun x => x <> e) l)
    (fun a => a = bool_decide (e ∈ l)) Hl Hk)|].
  - intros s1 d1 Hl1 _. mstep. eapply runs_intro; [by eapply csrLLPeekHead_eq|]. cbn beta.
    mstep. eapply runs_intro; [by eapply walk_to_spec|]. cbn beta.
    case_bool_decide as Hin.
    + apply list_elem_of_split in Hin as (l1 & l2 & ->).
      pose proof (lrep_ring _ _ _ _ Hl1) as Hr.
      destruct (ring_split_nodup _ _ _ _ _ Hr) as (He1 & He2 & _).
      rewrite filter_ne_split by done.
      mstep. eapply runs_mono; [by apply csrListRemoveEntry_spec|].
      intros ? s' Hs'. mstep.
      eapply runs_mono; [eapply (runs_count _ _ _ _ _ _ _ _ Hl1 Hs')|by intros [] s'' ?].
      rewrite (lrep_count _ _ _ _ Hl1), u32_pred, !length_app. cbn. do 2 f_equal. lia.
    + mstep. split; [done|]. rewrite filter_ne_absent by done. by apply lstep_id.
  - intros a s' [-> Hs']. mstep.
    eapply runs_l_read; [eapply lrep_record, lrep_lstep; [exact Hl|exact Hs']|].
    mstep. unfold remove_timer. cbn. destruct (cmdTimeoutTimer d =? 0); cbn.
    + split; [done|]. by apply tstep_nil.
    + split; [done|]. by exists s'.
Qed.

Lemma csrLLPurge_spec p fl d l s :
  lrep s p d l -> (fl = true -> lk_usable (Lock d)) ->
  runs (csrLLPurge p fl) s (fun _ s' => lstep p d (p :: l) [] s s').
Proof.
  intros Hl Hk. eapply runs_if_open; [done|].
  eapply runs_mono; [eapply (runs_interlocked _ _ _ _ _ _ (p :: l) [] (fun _ => True)); [done..|]|naive_solver].
  intros s1 d1 Hl1 _. mstep. mstep. pose proof (ring_size _ _ _ (lrep_ring _ _ _ _ Hl1)) as Hsz.
  assert (Hf : (length l < size (elems s1) + 2)%nat) by lia.
  revert Hf. generalize (size (elems s1) + 2)%nat as fuel. clear Hsz Hl Hk.
  revert s1 d1 Hl1. induction l as [|x l IH]; intros s1 d1 Hl1 [|fuel] Hf; cbn in Hf; try lia.
  - cbn [miter]. mstep. mstep. eapply runs_mono; [apply (csrLLRemoveHead_spec p false _ _ _ Hl1); done|].
    intros a s' [-> Hs']. cbn. by split.
  - cbn [miter]. mstep. mstep. eapply runs_mono; [apply (csrLLRemoveHead_spec p false _ _ _ Hl1); done|].
    intros a s' [-> Hs']. cbn [head tail] in Hs'. change (default 0 (head (x :: l))) with x.
    assert (Hx : x <> 0) by (intros ->; apply (ring_nonnull _ _ _ (lrep_ring _ _ _ _ Hl1)); set_solver).
    rewrite (proj2 (Z.eqb_neq _ _) Hx).
    mstep. eapply runs_mono; [apply (IH s' _ (lrep_lstep _ _ _ _ _ _ _ Hl1 Hs')); lia|].
    intros [] s'' [_ Hs'']. split; [done|].
    eapply lstep_trans; [exact Hs'|]. eapply lstep_mono; [|exact Hs'']. set_solver.
Qed.
End Specs.

(** ** The abstract specification: a list of addresses *)

Inductive ll_op :=
  | OpInsertTail (e : Z) | OpInsertHead (e : Z) | OpInsertEntry (n e : Z)
  | OpRemoveHead | OpRemoveTail | OpRemoveEntry (e : Z)
  | OpPeekHead | OpPeekTail | OpFind (e : Z) | OpNext (e : Z) | OpPrevious (e : Z)
  | OpCount | OpIsEmpty | OpPurge.

Inductive ll_ans := AVoid | AAddr (a : Z) | ABool (b : bool) | ACount (n : Z).

Fixpoint insert_before (n e : Z) (l : list Z) : list Z :=
  match l with
  | [] => []
  | x :: l => if decide (x = n) then e :: x :: l else x :: insert_before n e l
  end.

(** The list after an operation. *)
Definition spec_list (op : ll_op) (l : list Z) : list Z :=
  match op with
  | OpInsertTail e => l ++ [e]
  | OpInsertHead e => e :: l
  | OpInsertEntry n e => insert_before n e l
  | OpRemoveHead => tail l
  | OpRemoveTail => removelast l
  | OpRemoveEntry e => filter (fun x => x <> e) l
  | OpPurge => []
  | _ => l
  end.

Definition spec_ans (op : ll_op) (l : list Z) : ll_ans :=
  match op with
  | OpInsertTail _ | OpInsertHead _ | OpInsertEntry _ _ | OpPurge => AVoid
  | OpRemoveHead | OpPeekHead => AAddr (default 0 (head l))
  | OpRemoveTail | OpPeekTail => AAddr (default 0 (last l))
  | OpRemoveEntry e | OpFind e => ABool (bool_decide (e ∈ l))
  | OpNext e => AAddr (succ_of e l)
  | OpPrevious e => AAddr (pred_of e l)
  | OpCount => ACount (u32 (Z.of_nat (length l)))
  | OpIsEmpty => ABool (bool_decide (l = []))
  end.

Definition new_entries (op : ll_op) : list Z :=
  match op with OpInsertTail e | OpInsertHead e | OpInsertEntry _ e => [e] | _ => [] end.

Section Refinement.
Context {K : Type} `{LK : LockOps K}.
#[local] Abbreviation ST := (store K).

(** What a caller owes: an inserted entry is allocated and not in the list (or its header),
    and it is inserted before an entry of the list. *)
Definition op_pre (p : Z) (s : ST) (op : ll_op) (l : list Z) : Prop :=
  (forall e, e ∈ new_entries op -> e <> 0 /\ (e ∉ p :: l) /\ is_Some (elems s !! e)) /\
  match op with OpInsertEntry n _ => n ∈ l | _ => True end.

Definition op_run (p : Z) (fl : bool) (op : ll_op) : M ST ll_ans :=
  match op with
  | OpInsertTail e => _ <- csrLLInsertTail p e fl ;; mreturn AVoid
  | OpInsertHead e => _ <- csrLLInsertHead p e fl ;; mreturn AVoid
  | OpInsertEntry n e => _ <- csrLLInsertEntry p n e fl ;; mreturn AVoid
  | OpRemoveHead => a <- csrLLRemoveHead p fl ;; mreturn (AAddr a)
  | OpRemoveTail => a <- csrLLRemoveTail p fl ;; mreturn (AAddr a)
  | OpRemoveEntry e => b <- csrLLRemoveEntry p e fl ;; mreturn (ABool b)
  | OpPeekHead => a <- csrLLPeekHead p fl ;; mreturn (AAddr a)
  | OpPeekTail => a <- csrLLPeekTail p fl ;; mreturn (AAddr a)
  | OpFind e => b <- csrLLFindEntry p e ;; mreturn (ABool b)
  | OpNext e => a <- csrLLNext p e fl ;; mreturn (AAddr a)
  | OpPrevious e => a <- csrLLPrevious p e fl ;; mreturn (AAddr a)
  | OpCount => n <- csrLLCount p ;; mreturn (ACount n)
  | OpIsEmpty => b <- csrLLIsListEmpty p fl ;; mreturn (ABool b)
  | OpPurge => _ <- csrLLPurge p fl ;; mreturn AVoid
  end.

Definition op_timers (d : tDblLinkList K) (op : ll_op) : list timer_call :=
  match op with
  | OpInsertHead _ => head_timer d
  | OpRemoveEntry _ => remove_timer d
  | _ => []
  end.

Lemma insert_before_split n e l1 l2 : n ∉ l1 ->
  insert_before n e (l1 ++ n :: l2) = l1 ++ e :: n :: l2.
Proof.
  induction l1 as [|x l1 IH]; intros Hn; cbn; [by rewrite decide_True|].
  rewrite decide_False by set_solver. rewrite IH by set_solver. done.
Qed.

(** Wrap the result of a call. *)
Lemma runs_wrap {A} (m : M ST A) (f : A -> ll_ans) r p d X X' l' tm s :
  X ⊆ X' ->
  runs m s (fun a s' => a = r /\ tstep p d X l' tm s s') ->
  runs (a <- m ;; mreturn (f a)) s (fun a s' => a = f r /\ tstep p d X' l' tm s s').
Proof.
  intros HX Hm. mstep. eapply runs_mono; [exact Hm|]. intros a s' [-> Hs]. mstep.
  split; [done|]. by eapply tstep_mono.
Qed.

(** The same from a call's specification without timers. *)
Lemma runs_wrap_l {A} (m : M ST A) (f : A -> ll_ans) r p d X X' l' s :
  X ⊆ X' ->
  runs m s (fun a s' => a = r /\ lstep p d X l' s s') ->
  runs (a <- m ;; mreturn (f a)) s (fun a s' => a = f r /\ tstep p d X' l' [] s s').
Proof.
  intros HX Hm. eapply runs_wrap; [done|]. eapply runs_mono; [exact Hm|].
  intros a s' [-> Hs]. split; [done|]. by apply tstep_nil.
Qed.

Lemma runs_wrap_u (m : M ST unit) p d X X' l' s :
  X ⊆ X' ->
  runs m s (fun _ s' => lstep p d X l' s s') ->
  runs (_ <- m ;; mreturn AVoid) s (fun a s' => a = AVoid /\ tstep p d X' l' [] s s').
Proof.
  intros HX Hm. apply (runs_wrap_l m (fun _ => AVoid) tt _ _ X); [done|].
  eapply runs_mono; [exact Hm|]. by intros [] s' Hs.
Qed.

Lemma op_refines p fl op d l s :
  lrep s p d l -> lk_usable (Lock d) -> op_pre p s op l ->
  runs (op_run p fl op) s (fun a s' =>
    a = spec_ans op l /\
    tstep p d (p :: l ++ new_entries op) (spec_list op l) (op_timers d op) s s').
Proof.
  intros Hl Hu [Hnew Hop]. assert (Hk : fl = true -> lk_usable (Lock d)) by done.
  assert (Hsub : p :: l ⊆ p :: l ++ new_entries op) by set_solver.
  assert (Hid : forall b : bool, tstep p d (p :: l ++ new_entries op) l [] s s)
    by (intros _; by apply tstep_nil, lstep_id).
  destruct op as [e|e|n e| | |e| | |e|e|e| | |]; cbn [op_run spec_ans spec_list op_timers new_entries] in *;
    try (destruct (Hnew e) as (Hne & He & Ha); [by constructor|]).
  - eapply runs_wrap_u; [|by apply csrLLInsertTail_spec]. set_solver.
  - eapply (runs_wrap _ (fun _ => AVoid) tt _ _ (p :: e :: l)); [set_solver|].
    eapply runs_mono; [by apply csrLLInsertHead_spec|]. by intros [] s' Hs.
  - apply list_elem_of_split in Hop as (l1 & l2 & ->).
    destruct (ring_split_nodup _ _ _ _ _ (lrep_ring _ _ _ _ Hl)) as (Hn & _).
    rewrite insert_before_split by done.
    eapply runs_wrap_u; [|by apply csrLLInsertEntry_spec]. set_solver.
  - eapply runs_wrap_l; [exact Hsub|by apply csrLLRemoveHead_spec].
  - eapply runs_wrap_l; [exact Hsub|by apply csrLLRemoveTail_spec].
  - eapply runs_wrap; [exact Hsub|by apply csrLLRemoveEntry_spec].
  - eapply (runs_wrap_l _ _ _ _ _ []); [set_solver|by apply csrLLPeekHead_spec].
  - eapply (runs_wrap_l _ _ _ _ _ []); [set_solver|by apply csrLLPeekTail_spec].
  - eapply runs_intro; [|split; [done|by apply Hid]].
    unfold mbnd. by rewrite (csrLLFindEntry_spec _ _ _ _ _ Hl).
  - eapply (runs_wrap_l _ _ _ _ _ []); [set_solver|by apply csrLLNext_spec].
  - eapply (runs_wrap_l _ _ _ _ _ []); [set_solver|by apply csrLLPrevious_spec].
  - eapply runs_intro; [|split; [done|by apply Hid]].
    unfold mbnd. by rewrite (csrLLCount_spec _ _ _ _ Hl).
  - eapply (runs_wrap_l _ _ _ _ _ []); [set_solver|by apply csrLLIsListEmpty_spec].
  - eapply runs_wrap_u; [exact Hsub|by apply csrLLPurge_spec].
Qed.

(** *** Sequences of calls *)

Fixpoint run_ops (p : Z) (calls : list (bool * ll_op)) : M ST (list ll_ans) :=
  match calls with
  | [] => mreturn []
  | (fl, op) :: calls => a <- op_run p fl op ;; r <- run_ops p calls ;; mreturn (a :: r)
  end.

Fixpoint spec_answers (calls : list (bool * ll_op)) (l : list Z) : list ll_ans :=
  match calls with
  | [] => []
  | (_, op) :: calls => spec_ans op l :: spec_answers calls (spec_list op l)
  end.
Definition spec_final (calls : list (bool * ll_op)) (l : list Z) : list Z :=
  fold_left (fun l call => spec_list call.2 l) calls l.
Fixpoint spec_timers (d : tDblLinkList K) (calls : list (bool * ll_op)) : list timer_call :=
  match calls with
  | [] => []
  | (_, op) :: calls => spec_timers d calls ++ op_timers d op
  end.
Definition all_new (calls : list (bool * ll_op)) : list Z := calls ≫= fun call => new_entries call.2.

Fixpoint ops_pre (p : Z) (s : ST) (calls : list (bool * ll_op)) (l : list Z) : Prop :=
  match calls with
  | [] => True
  | (_, op) :: calls => op_pre p s op l /\ ops_pre p s calls (spec_list op l)
  end.

Lemma spec_list_sub op l : spec_list op l ⊆ l ++ new_entries op.
Proof.
  destruct op as [e|e|n e| | |e| | |e|e|e| | |]; cbn; try set_solver.
  - induction l as [|x l IH]; cbn; [set_solver|]. case_decide; set_solver.
  - destruct l; set_solver.
  - destruct l as [|x l _] using rev_ind; [set_solver|]. rewrite removelast_last. set_solver.
  - intros x Hx%list_elem_of_filter. set_solver.
Qed.

Lemma ops_pre_alloc p s s' calls l :
  (forall e, is_Some (elems s' !! e) <-> is_Some (elems s !! e)) ->
  ops_pre p s calls l -> ops_pre p s' calls l.
Proof.
  intros Ha. revert l. induction calls as [|[fl op] calls IH]; intros l; [done|].
  intros [[Hn Hop] Hc]. split; [|by apply IH]. split; [|done].
  intros e He. rewrite Ha. by apply Hn.
Qed.

Lemma run_ops_refines p calls s d l :
  lrep s p d l -> lk_usable (Lock d) -> ops_pre p s calls l ->
  runs (run_ops p calls) s (fun ans s' =>
    ans = spec_answers calls l /\
    tstep p d (p :: l ++ all_new calls) (spec_final calls l) (spec_timers d calls) s s').
Proof.
  revert s d l. induction calls as [|[fl op] calls IH]; intros s d l Hl Hu Hp; cbn.
  - split; [done|]. by apply tstep_nil, lstep_id.
  - destruct Hp as [Hp Hps]. mstep. eapply runs_mono; [by apply op_refines|].
    intros a s1 [-> Hs1]. mstep.
    eapply runs_mono; [eapply IH; [by eapply lrep_tstep|done|]|].
    { eapply ops_pre_alloc; [|exact Hps]. intros e. by eapply tstep_alloc. }
    intros r s2 [-> Hs2]. mstep. split; [done|].
    assert (Ht : spec_timers (set_Count (u32 (Z.of_nat (length (spec_list op l)))) d) calls
                 = spec_timers d calls).
    { clear. induction calls as [|[fl' op'] calls IH]; cbn; [done|]. rewrite IH. by destruct op'. }
    rewrite Ht in Hs2. unfold all_new in *. cbn.
    eapply tstep_trans; [eapply tstep_mono; [|exact Hs1]|eapply tstep_mono; [|exact Hs2]].
    + set_solver.
    + pose proof (spec_list_sub op l). set_solver.
Qed.
End Refinement.

(** ** Properties *)

(** C38.  [csrLinkList.c] implements lists: from a well-formed open list, every sequence of
    calls, interlocked or not, whose insertions name fresh allocated entries, and whose
    [csrLLInsertEntry] name a list member to insert in front of, runs without
    a bad pointer access; every call returns, its answer is the one on the abstract list
    of addresses, the list stays a well-formed ring with the right [Count], the timer is
    started by head insertions and stopped by removals only, the lock ends as it was,
    and no other disjoint list changes.  A null [pEntry] is left out: the next theorem has what
    it does to the count. *)
Theorem csrLL_refines_list {K} `{LK : LockOps K} p calls (s : store K) d l :
  lrep s p d l -> lk_usable (Lock d) -> ops_pre p s calls l ->
  runs (run_ops p calls) s (fun ans s' =>
    ans = spec_answers calls l /\
    lrep s' p (set_Count (u32 (Z.of_nat (length (spec_final calls l)))) d) (spec_final calls l) /\
    timers s' = spec_timers d calls ++ timers s /\
    forall q dq m, q <> p -> lrep s q dq m -> (forall x, x ∈ q :: m -> x ∉ p :: l ++ all_new calls) ->
      lrep s' q dq m).
Proof.
  intros Hl Hu Hp. eapply runs_mono; [by apply run_ops_refines|].
  intros ans s' [-> Hs]. split_and!; [done|by eapply lrep_tstep| |by eauto using tstep_other].
  by destruct Hs as (s1 & (h & -> & _) & ->).
Qed.

(** A list at 10 with entries 11 and 12, an unused entry 13, and another list at 20. *)
Definition demo_list (n : Z) : tDblLinkList vos_lock_t :=
  {| Lock := lock_free; Count := n; hHdd := 1; Flag := LIST_FLAG_OPEN;
     cmdTimeoutDuration := 30; cmdTimeoutTimer := 5 |}.
Definition demo_store : store vos_lock_t :=
  {| elems := <[10 := {| e_last := 12; e_next := 11 |}]> (<[11 := {| e_last := 10; e_next := 12 |}]>
       (<[12 := {| e_last := 11; e_next := 10 |}]> (<[13 := {| e_last := 0; e_next := 0 |}]>
       (<[20 := {| e_last := 20; e_next := 20 |}]> ∅))));
     lists := <[10 := demo_list 2]> (<[20 := demo_list 0]> ∅);
     timers := [] |}.

Lemma demo_rep : lrep demo_store 10 (demo_list 2) [11; 12].
Proof.
  split; [reflexivity..|]. split.
  - repeat constructor; reflexivity.
  - repeat constructor; set_solver.
  - set_solver.
Qed.

Definition demo_calls : list (bool * ll_op) :=
  [(true, OpInsertHead 13); (true, OpNext 13); (false, OpRemoveEntry 11); (true, OpCount)].

Lemma demo_pre : ops_pre 10 demo_store demo_calls [11; 12].
Proof.
  split; [split; [|done]|].
  - intros e ->%list_elem_of_singleton. split_and!; [done|set_solver|by eexists].
  - repeat (split; [split; [by intros e ?%not_elem_of_nil|done]|]). done.
Qed.

Lemma csrLL_refines_list_witness :
  exists s', run_ops (LK := vos_lock_ops 7 ltac:(discriminate)) 10 demo_calls demo_store
  = Some ([AVoid; AAddr 11; ABool true; ACount 2], s').
Proof.
  pose proof (csrLL_refines_list (LK := vos_lock_ops 7 ltac:(discriminate)) 10 demo_calls
    demo_store (demo_list 2) [11; 12] demo_rep (or_introl eq_refl) demo_pre) as Hr.
  destruct (runs_elim _ _ _ Hr) as (ans & s' & He & -> & _).
  exists s'. exact He.
Defined.

(** A null [pEntry] inserts nothing, yet [csrLLInsertEntry] counts the entry: the count
    and the list disagree from then on. *)
Theorem csrLLInsertEntry_null_counts {K} `{LK : LockOps K} p e (s : store K) d l :
  lrep s p d l ->
  runs (csrLLInsertEntry p 0 e false) s (fun _ s' =>
    elems s' = elems s /\ ring (elems s') p l /\
    csrLLCount p s' = Some (u32 (Z.of_nat (length l) + 1), s')).
Proof.
  intros Hl. pose proof (lrep_nonnull _ _ _ _ Hl) as Hp. eapply runs_if_open; [done|].
  unfold interlocked, csrListInsertEntry. cbn [Z.eqb]. msteps.

  eapply runs_l_upd; [exact (lrep_record _ _ _ _ Hl)|]. msteps. split_and!; [done|exact (lrep_ring _ _ _ _ Hl)|].
  unfold csrLLCount. rewrite (proj2 (Z.eqb_neq p 0)) by done.
  unfold mbnd, l_read, mbnd, mget, oget. cbn. rewrite lookup_insert_eq. cbn.
  unfold is_open. cbn. pose proof (lrep_open _ _ _ _ Hl) as Ho. unfold is_open in Ho. rewrite Ho.
  by rewrite (lrep_count _ _ _ _ Hl), u32_succ.
Qed.

Lemma csrLLInsertEntry_null_counts_witness :
  exists s', csrLLInsertEntry (LK := vos_lock_ops 7 ltac:(discriminate)) 10 0 13 false demo_store = Some (tt, s') /\
    csrLLCount 10 s' = Some (3, s').
Proof.
  pose proof (csrLLInsertEntry_null_counts (LK := vos_lock_ops 7 ltac:(discriminate)) 10 13
    demo_store (demo_list 2) [11; 12] demo_rep) as Hr.
  apply runs_elim in Hr as ([] & s' & He & _ & _ & Hc). exists s'. split; [exact He|exact Hc].
Defined.
