(* ===== verification/HttRxDesc.v ===== *)
(** * Rx descriptors

    Models the accessors of [CORE/CLD_TXRX/HTT/htt_rx.c] for the two descriptor formats:
    the low-latency hardware descriptor, read with masks and shifts, and the high-latency
    descriptor sent by the firmware.  The bit fields of [rx_desc.h] and [htt.h] are packed
    least significant first, as the compilers of the (little-endian) hosts do.

    The class [RxDescOps] is what the rest of the receive path uses of a descriptor. *)

From S2P Require Import Prelude.

(** ** Packet numbers *)

(** [union htt_rx_pn_t] on a little-endian host, as its two 64-bit words. *)
Record htt_rx_pn_t := { pn128_0 : Z; pn128_1 : Z }.
Definition pn24 (pn : htt_rx_pn_t) : Z := u32 (pn128_0 pn).
Definition pn48 (pn : htt_rx_pn_t) : Z := pn128_0 pn.
(** Replace the low or the high half of a 64-bit word. *)
Definition set_lo32 (w v : Z) : Z := Z.lor (Z.shiftl (Z.shiftr w 32) 32) v.
Definition set_hi32 (w v : Z) : Z := Z.lor (Z.shiftl v 32) (u32 w).
Definition set_pn24 (v : Z) (pn : htt_rx_pn_t) : htt_rx_pn_t :=
  {| pn128_0 := set_lo32 (pn128_0 pn) v; pn128_1 := pn128_1 pn |}.
Definition set_pn128_0 (v : Z) (pn : htt_rx_pn_t) : htt_rx_pn_t :=
  {| pn128_0 := v; pn128_1 := pn128_1 pn |}.
Definition set_pn128_1 (v : Z) (pn : htt_rx_pn_t) : htt_rx_pn_t :=
  {| pn128_0 := pn128_0 pn; pn128_1 := v |}.

(** ** Low-latency descriptors *)

(** The parts of [struct htt_host_rx_desc_base] the accessors read, as 32-bit words. *)
Record htt_host_rx_desc_base := {
  attention : list Z;
  mpdu_start : list Z;
  msdu_end : list Z
}.

(** [*(((u_int32_t * ) &part) + i)] *)
Definition wd (part : list Z) (i : nat) : Z := nth i part 0.

(** The field positions of the target ([ar6320def.h]; the other targets have the same). *)
Definition RX_MSDU_END_4_FIRST_MSDU_LSB : Z := 14.
Definition RX_MSDU_END_4_FIRST_MSDU_MASK : Z := 0x00004000.
Definition RX_MPDU_START_0_RETRY_LSB : Z := 14.
Definition RX_MPDU_START_0_RETRY_MASK : Z := 0x00004000.
Definition RX_MPDU_START_0_SEQ_NUM_LSB : Z := 16.
Definition RX_MPDU_START_0_SEQ_NUM_MASK : Z := 0x0fff0000.
Definition RX_MPDU_START_2_TID_LSB : Z := 28.
Definition RX_MPDU_START_2_TID_MASK : Z := 0xf0000000.
Definition RX_MPDU_START_2_PN_47_32_LSB : Z := 0.
Definition RX_MPDU_START_2_PN_47_32_MASK : Z := 0x0000ffff.
Definition RX_MSDU_END_1_KEY_ID_OCT_MASK : Z := 0x000000ff.
Definition RX_MSDU_END_1_KEY_ID_OCT_LSB : Z := 0.
Definition RX_MSDU_END_1_EXT_WAPI_PN_63_48_LSB : Z := 16.
Definition RX_MSDU_END_1_EXT_WAPI_PN_63_48_MASK : Z := 0xffff0000.
Definition RX_MSDU_END_4_LAST_MSDU_LSB : Z := 15.
Definition RX_MSDU_END_4_LAST_MSDU_MASK : Z := 0x00008000.
Definition RX_ATTENTION_0_MCAST_BCAST_LSB : Z := 2.
Definition RX_ATTENTION_0_MCAST_BCAST_MASK : Z := 0x00000004.
Definition RX_ATTENTION_0_FRAGMENT_LSB : Z := 13.
Definition RX_ATTENTION_0_FRAGMENT_MASK : Z := 0x00002000.
Definition RX_MPDU_START_0_ENCRYPTED_LSB : Z := 13.
Definition RX_MPDU_START_0_ENCRYPTED_MASK : Z := 0x00002000.

(** [(w & MASK) >> LSB] *)
Definition get_field (w mask lsb : Z) : Z := Z.shiftr (Z.land w mask) lsb.

Definition htt_rx_msdu_first_msdu_flag_ll (d : htt_host_rx_desc_base) : Z :=
  get_field (wd (msdu_end d) 4) RX_MSDU_END_4_FIRST_MSDU_MASK RX_MSDU_END_4_FIRST_MSDU_LSB.
Definition htt_rx_mpdu_desc_retry_ll (d : htt_host_rx_desc_base) : bool :=
  negb (get_field (wd (mpdu_start d) 0) RX_MPDU_START_0_RETRY_MASK RX_MPDU_START_0_RETRY_LSB =? 0).
Definition htt_rx_mpdu_desc_seq_num_ll (d : htt_host_rx_desc_base) : Z :=
  u16 (get_field (wd (mpdu_start d) 0) RX_MPDU_START_0_SEQ_NUM_MASK RX_MPDU_START_0_SEQ_NUM_LSB).
Definition htt_rx_mpdu_desc_tid_ll (d : htt_host_rx_desc_base) : Z :=
  u8 (get_field (wd (mpdu_start d) 2) RX_MPDU_START_2_TID_MASK RX_MPDU_START_2_TID_LSB).

(** [htt_rx_mpdu_desc_pn_ll]: fill [pn]; an unknown length only prints an error *)
Definition htt_rx_mpdu_desc_pn_ll (d : htt_host_rx_desc_base) (pn_len_bits : Z) (pn : htt_rx_pn_t) : htt_rx_pn_t :=
  let pn_31_0 := wd (mpdu_start d) 1 in
  let pn_47_32 := u64 (Z.shiftl (Z.land (wd (mpdu_start d) 2) RX_MPDU_START_2_PN_47_32_MASK)
                                (32 - RX_MPDU_START_2_PN_47_32_LSB)) in
  if pn_len_bits =? 24 then set_pn24 (Z.land pn_31_0 0xffffff) pn
  else if pn_len_bits =? 48 then set_pn128_0 (Z.lor pn_31_0 pn_47_32) pn
  else if pn_len_bits =? 128 then
    let pn_63_48 := u64 (Z.shiftl (Z.land (wd (msdu_end d) 2) RX_MSDU_END_1_EXT_WAPI_PN_63_48_MASK)
                                  (48 - RX_MSDU_END_1_EXT_WAPI_PN_63_48_LSB)) in
    let ext_wapi_pn_95_64 := wd (msdu_end d) 2 in
    let ext_wapi_pn_127_96 := wd (msdu_end d) 3 in
    set_pn128_1 (Z.lor ext_wapi_pn_95_64 (u64 (Z.shiftl ext_wapi_pn_127_96 32)))
      (set_pn128_0 (Z.lor (Z.lor pn_31_0 pn_47_32) pn_63_48) pn)
  else pn.

Definition htt_rx_msdu_desc_completes_mpdu_ll (d : htt_host_rx_desc_base) : Z :=
  get_field (wd (msdu_end d) 4) RX_MSDU_END_4_LAST_MSDU_MASK RX_MSDU_END_4_LAST_MSDU_LSB.
Definition htt_rx_msdu_has_wlan_mcast_flag_ll (d : htt_host_rx_desc_base) : Z :=
  get_field (wd (msdu_end d) 4) RX_MSDU_END_4_FIRST_MSDU_MASK RX_MSDU_END_4_FIRST_MSDU_LSB.
Definition htt_rx_msdu_is_wlan_mcast_ll (d : htt_host_rx_desc_base) : Z :=
  get_field (wd (attention d) 0) RX_ATTENTION_0_MCAST_BCAST_MASK RX_ATTENTION_0_MCAST_BCAST_LSB.
Definition htt_rx_msdu_is_frag_ll (d : htt_host_rx_desc_base) : Z :=
  get_field (wd (attention d) 0) RX_ATTENTION_0_FRAGMENT_MASK RX_ATTENTION_0_FRAGMENT_LSB.
Definition htt_rx_mpdu_is_encrypted_ll (d : htt_host_rx_desc_base) : bool :=
  negb (get_field (wd (mpdu_start d) 0) RX_MPDU_START_0_ENCRYPTED_MASK RX_MPDU_START_0_ENCRYPTED_LSB =? 0).
(** [None]: the key id is not written *)
Definition htt_rx_msdu_desc_key_id_ll (d : htt_host_rx_desc_base) : option Z :=
  if htt_rx_msdu_first_msdu_flag_ll d =? 0 then None
  else Some (u8 (Z.land (wd (msdu_end d) 1)
                        (Z.shiftr RX_MSDU_END_1_KEY_ID_OCT_MASK RX_MSDU_END_1_KEY_ID_OCT_LSB))).

(** ** High-latency descriptors *)

(** The flag byte of the indication before the descriptor, and the descriptor's words. *)
Record hl_htt_rx_desc_base := { hl_flag : Z; hl_words : list Z }.

Definition HTT_RX_IND_HL_FLAG_FIRST_MSDU : Z := Z.shiftl 0x01 0.
Definition HTT_RX_IND_HL_FLAG_LAST_MSDU : Z := Z.shiftl 0x01 1.
Definition HTT_HL_RX_DESC_MPDU_SEQ_NUM_M : Z := 0xfff.
Definition HTT_HL_RX_DESC_MPDU_SEQ_NUM_S : Z := 0.
Definition HTT_HL_RX_DESC_MPDU_ENC_M : Z := 0x1000.
Definition HTT_HL_RX_DESC_MPDU_ENC_S : Z := 12.
Definition HTT_HL_RX_DESC_MCAST_BCAST_M : Z := 0x10000.
Definition HTT_HL_RX_DESC_MCAST_BCAST_S : Z := 16.
Definition HTT_HL_RX_DESC_KEY_ID_OCT_M : Z := 0x3fc0000.
Definition HTT_HL_RX_DESC_KEY_ID_OCT_S : Z := 18.

Definition htt_rx_msdu_first_msdu_flag_hl (d : hl_htt_rx_desc_base) : bool :=
  negb (Z.land (hl_flag d) HTT_RX_IND_HL_FLAG_FIRST_MSDU =? 0).
Definition htt_rx_msdu_desc_completes_mpdu_hl (d : hl_htt_rx_desc_base) : bool :=
  negb (Z.land (hl_flag d) HTT_RX_IND_HL_FLAG_LAST_MSDU =? 0).
Definition htt_rx_msdu_has_wlan_mcast_flag_hl (d : hl_htt_rx_desc_base) : bool :=
  htt_rx_msdu_first_msdu_flag_hl d.
Definition htt_rx_msdu_is_wlan_mcast_hl (d : hl_htt_rx_desc_base) : Z :=
  get_field (wd (hl_words d) 0) HTT_HL_RX_DESC_MCAST_BCAST_M HTT_HL_RX_DESC_MCAST_BCAST_S.
Definition htt_rx_msdu_is_frag_hl (d : hl_htt_rx_desc_base) : Z :=
  get_field (wd (hl_words d) 0) HTT_HL_RX_DESC_MCAST_BCAST_M HTT_HL_RX_DESC_MCAST_BCAST_S.
(** [htt_rx_mpdu_desc_seq_num_hl]: the number, and the new [cur_seq_num_hl] *)
Definition htt_rx_mpdu_desc_seq_num_hl (rx_desc_size_hl cur_seq_num_hl : Z) (d : hl_htt_rx_desc_base) : Z * Z :=
  if negb (rx_desc_size_hl =? 0) then
    let n := u16 (get_field (wd (hl_words d) 0) HTT_HL_RX_DESC_MPDU_SEQ_NUM_M HTT_HL_RX_DESC_MPDU_SEQ_NUM_S) in
    (n, n)
  else (u16 cur_seq_num_hl, cur_seq_num_hl).
(** [None]: a failed assertion *)
Definition htt_rx_mpdu_is_encrypted_hl (d : hl_htt_rx_desc_base) : option bool :=
  if htt_rx_msdu_first_msdu_flag_hl d then
    Some (negb (get_field (wd (hl_words d) 0) HTT_HL_RX_DESC_MPDU_ENC_M HTT_HL_RX_DESC_MPDU_ENC_S =? 0))
  else None.
(** The cases of [htt_rx_mpdu_desc_pn_hl] fall through from the longest number down. *)
Definition htt_rx_mpdu_desc_pn_hl (d : hl_htt_rx_desc_base) (pn_len_bits : Z) (pn : htt_rx_pn_t) : option htt_rx_pn_t :=
  if htt_rx_msdu_first_msdu_flag_hl d then
    let case24 pn := set_pn128_0 (set_lo32 (pn128_0 pn) (wd (hl_words d) 1)) pn in
    let case48 pn := case24 (set_pn128_0 (set_hi32 (pn128_0 pn) (wd (hl_words d) 2)) pn) in
    let case128 pn :=
      let pn := set_pn128_1 (set_hi32 (pn128_1 pn) (wd (hl_words d) 4)) pn in
      case48 (set_pn128_1 (set_lo32 (pn128_1 pn) (wd (hl_words d) 3)) pn) in
    if pn_len_bits =? 128 then Some (case128 pn)
    else if pn_len_bits =? 48 then Some (case48 pn)
    else if pn_len_bits =? 24 then Some (case24 pn)
    else None
  else None.
Definition htt_rx_msdu_desc_key_id_hl (d : hl_htt_rx_desc_base) : option Z :=
  if htt_rx_msdu_first_msdu_flag_hl d then
    Some (get_field (wd (hl_words d) 0) HTT_HL_RX_DESC_KEY_ID_OCT_M HTT_HL_RX_DESC_KEY_ID_OCT_S)
  else None.

(** The firmware descriptor carries neither: an invalid TID, and never a retry. *)
Definition htt_rx_mpdu_desc_tid_hl (d : hl_htt_rx_desc_base) : Z := 0xff.
Definition htt_rx_mpdu_desc_retry_hl (d : hl_htt_rx_desc_base) : bool := false.

(** ** The interface *)

(** What the receive path asks of the descriptor of a frame; [None] is a failed assertion. *)
Class RxDescOps (D : Type) := {
  rx_completes_mpdu : D -> bool;
  rx_has_mcast_flag : D -> bool;
  rx_is_mcast : D -> bool;
  rx_is_encrypted : D -> option bool;
  rx_pn : D -> Z -> htt_rx_pn_t -> option htt_rx_pn_t;
  rx_seq_num : D -> Z;
  rx_is_frag : D -> bool;
  rx_tid : D -> Z;
  rx_retry : D -> bool
}.

Definition truth (x : Z) : bool := negb (x =? 0).

#[export] Instance rx_desc_ll : RxDescOps htt_host_rx_desc_base := {|
  rx_completes_mpdu d := truth (htt_rx_msdu_desc_completes_mpdu_ll d);
  rx_has_mcast_flag d := truth (htt_rx_msdu_has_wlan_mcast_flag_ll d);
  rx_is_mcast d := truth (htt_rx_msdu_is_wlan_mcast_ll d);
  rx_is_encrypted d := Some (htt_rx_mpdu_is_encrypted_ll d);
  rx_pn d len pn := Some (htt_rx_mpdu_desc_pn_ll d len pn);
  rx_seq_num := htt_rx_mpdu_desc_seq_num_ll;
  rx_is_frag d := truth (htt_rx_msdu_is_frag_ll d);
  rx_tid := htt_rx_mpdu_desc_tid_ll;
  rx_retry := htt_rx_mpdu_desc_retry_ll
|}.

(** The high-latency descriptor, when the target sends one ([rx_desc_size_hl] is not 0). *)
#[export] Instance rx_desc_hl : RxDescOps hl_htt_rx_desc_base := {|
  rx_completes_mpdu := htt_rx_msdu_desc_completes_mpdu_hl;
  rx_has_mcast_flag := htt_rx_msdu_has_wlan_mcast_flag_hl;
  rx_is_mcast d := truth (htt_rx_msdu_is_wlan_mcast_hl d);
  rx_is_encrypted := htt_rx_mpdu_is_encrypted_hl;
  rx_pn := htt_rx_mpdu_desc_pn_hl;
  rx_seq_num d := (htt_rx_mpdu_desc_seq_num_hl 1 0 d).1;
  rx_is_frag d := truth (htt_rx_msdu_is_frag_hl d);
  rx_tid := htt_rx_mpdu_desc_tid_hl;
  rx_retry := htt_rx_mpdu_desc_retry_hl
|}.

(** ** Bit fields *)

(** A word from its fields, least significant first, as (width, value). *)
Definition pack (fs : list (Z * Z)) : Z := foldr (fun f acc => f.2 + 2 ^ f.1 * acc) 0 fs.
Definition fits (fs : list (Z * Z)) : Prop := Forall (fun f => 0 <= f.1 /\ 0 <= f.2 < 2 ^ f.1) fs.
Definition width (fs : list (Z * Z)) : Z := foldr (fun f acc => f.1 + acc) 0 fs.

Lemma width_nonneg fs : fits fs -> 0 <= width fs.
Proof.
  induction 1 as [|[w v] fs [Hw _] _ IH]; [done|]. change (0 <= w + width fs). cbn in Hw. lia.
Qed.

Lemma pack_shiftr pre post : fits pre -> Z.shiftr (pack (pre ++ post)) (width pre) = pack post.
Proof.
  induction 1 as [|[w v] pre [Hw Hv] Hf IH]; [apply Z.shiftr_0_r|]. cbn in Hw, Hv.
  change (Z.shiftr (v + 2 ^ w * pack (pre ++ post)) (w + width pre) = pack post).
  pose proof (width_nonneg _ Hf). rewrite <- Z.shiftr_shiftr by lia.
  rewrite (Z.shiftr_div_pow2 (v + _)) by lia.
  rewrite (Z.mul_comm (2 ^ w)), Z.div_add by lia. by rewrite Z.div_small by lia.
Qed.

Lemma get_field_shift x n k : 0 <= n -> 0 <= k ->
  get_field x (Z.shiftl (Z.ones n) k) k = Z.shiftr x k mod 2 ^ n.
Proof.
  intros. unfold get_field. rewrite Z.shiftr_land, Z.shiftr_shiftl_l, Z.sub_diag, Z.shiftl_0_r by lia.
  by rewrite Z.land_ones by lia.
Qed.

(** Reading a packed field gives it back. *)
Lemma get_field_pack fs pre w v post : fs = pre ++ (w, v) :: post -> fits fs ->
  forall mask, mask = Z.shiftl (Z.ones w) (width pre) -> get_field (pack fs) mask (width pre) = v.
Proof.
  intros -> Hf mask ->. apply Forall_app in Hf as [Hpre Hf].
  apply Forall_cons in Hf as [[Hw Hv] _]. cbn in Hw, Hv.
  rewrite get_field_shift by (done || by apply width_nonneg). rewrite pack_shiftr by done. cbn.
  rewrite (Z.mul_comm (2 ^ w)), Z.mod_add by lia. by rewrite Z.mod_small by lia.
Qed.

Lemma lor_shiftl a b n : 0 <= n -> 0 <= a < 2 ^ n -> Z.lor a (Z.shiftl b n) = a + 2 ^ n * b.
Proof.
  intros Hn Ha. assert (Hl : Z.land a (Z.shiftl b n) = 0).
  { apply Z.bits_inj'. intros i Hi. rewrite Z.land_spec, Z.bits_0.
    destruct (Z.ltb_spec i n) as [Hlt|Hge].
    - rewrite Z.shiftl_spec_low by lia. apply andb_false_r.
    - replace (Z.testbit a i) with false; [done|]. symmetry.
      rewrite <- (Z.mod_small a (2 ^ n)) by lia. by apply Z.mod_pow2_bits_high; lia. }
  rewrite <- Z.lxor_lor by done. rewrite <- Z.add_nocarry_lxor by done.
  rewrite Z.shiftl_mul_pow2 by lia. lia.
Qed.

(** ** The low-latency layout *)

(** The fields of [rx_desc.h] the driver reads; the [o_] members are the bits between them. *)
Record rx_fields := {
  f_mcast_bcast : Z; f_fragment : Z;
  f_encrypted : Z; f_retry : Z; f_seq_num : Z;
  f_pn_31_0 : Z; f_pn_47_32 : Z; f_tid : Z;
  f_key_id_octet : Z; f_ext_wapi_pn_63_48 : Z; f_ext_wapi_pn_95_64 : Z; f_ext_wapi_pn_127_96 : Z;
  f_first_msdu : Z; f_last_msdu : Z;
  o_att0 : Z; o_att1 : Z; o_att2 : Z; o_ms0 : Z; o_ms1 : Z; o_ms2 : Z; o_ms3 : Z;
  o_me0 : Z; o_me1 : Z; o_me2 : Z; o_me3 : Z
}.

Definition attention_0 (f : rx_fields) : list (Z * Z) :=
  [(2, o_att0 f); (1, f_mcast_bcast f); (10, o_att1 f); (1, f_fragment f); (18, o_att2 f)].
Definition mpdu_start_0 (f : rx_fields) : list (Z * Z) :=
  [(13, o_ms0 f); (1, f_encrypted f); (1, f_retry f); (1, o_ms1 f); (12, f_seq_num f); (4, o_ms2 f)].
Definition mpdu_start_2 (f : rx_fields) : list (Z * Z) :=
  [(16, f_pn_47_32 f); (12, o_ms3 f); (4, f_tid f)].
Definition msdu_end_1 (f : rx_fields) : list (Z * Z) :=
  [(8, f_key_id_octet f); (8, o_me1 f); (16, f_ext_wapi_pn_63_48 f)].
Definition msdu_end_4 (f : rx_fields) : list (Z * Z) :=
  [(14, o_me2 f); (1, f_first_msdu f); (1, f_last_msdu f); (16, o_me3 f)].

Definition rx_encode (f : rx_fields) : htt_host_rx_desc_base := {|
  attention := [pack (attention_0 f)];
  mpdu_start := [pack (mpdu_start_0 f); f_pn_31_0 f; pack (mpdu_start_2 f)];
  msdu_end := [o_me0 f; pack (msdu_end_1 f); f_ext_wapi_pn_95_64 f; f_ext_wapi_pn_127_96 f;
               pack (msdu_end_4 f)]
|}.

Record fields_ok (f : rx_fields) : Prop := {
  ok_att : fits (attention_0 f);
  ok_ms0 : fits (mpdu_start_0 f);
  ok_ms2 : fits (mpdu_start_2 f);
  ok_me1 : fits (msdu_end_1 f);
  ok_me4 : fits (msdu_end_4 f);
  ok_31 : 0 <= f_pn_31_0 f < 2 ^ 32;
  ok_95 : 0 <= f_ext_wapi_pn_95_64 f < 2 ^ 32;
  ok_127 : 0 <= f_ext_wapi_pn_127_96 f < 2 ^ 32
}.

(** Read the field after the first [n] of a packed word. *)
Ltac read_field n fs :=
  let l := eval unfold attention_0, mpdu_start_0, mpdu_start_2, msdu_end_1, msdu_end_4 in fs in
  let pre := eval cbn in (take n l) in
  lazymatch eval cbn in (drop n l) with
  | (?w, ?v) :: ?post => exact (get_field_pack fs pre w v post eq_refl ltac:(assumption) _ eq_refl)
  end.

Section Layout.
Variable f : rx_fields.
Hypothesis Hf : fields_ok f.

Lemma ll_first_msdu : htt_rx_msdu_first_msdu_flag_ll (rx_encode f) = f_first_msdu f.
Proof. destruct Hf. read_field 1%nat (msdu_end_4 f). Qed.
Lemma ll_completes_mpdu : htt_rx_msdu_desc_completes_mpdu_ll (rx_encode f) = f_last_msdu f.
Proof. destruct Hf. read_field 2%nat (msdu_end_4 f). Qed.
Lemma ll_mcast : htt_rx_msdu_is_wlan_mcast_ll (rx_encode f) = f_mcast_bcast f.
Proof. destruct Hf. read_field 1%nat (attention_0 f). Qed.
Lemma ll_frag : htt_rx_msdu_is_frag_ll (rx_encode f) = f_fragment f.
Proof. destruct Hf. read_field 3%nat (attention_0 f). Qed.
Lemma ll_retry : htt_rx_mpdu_desc_retry_ll (rx_encode f) = negb (f_retry f =? 0).
Proof. destruct Hf. unfold htt_rx_mpdu_desc_retry_ll. do 2 f_equal. read_field 2%nat (mpdu_start_0 f). Qed.
Lemma ll_encrypted : htt_rx_mpdu_is_encrypted_ll (rx_encode f) = negb (f_encrypted f =? 0).
Proof. destruct Hf. unfold htt_rx_mpdu_is_encrypted_ll. do 2 f_equal. read_field 1%nat (mpdu_start_0 f). Qed.

(** The range of a field. *)
Lemma fits_nth fs n w v : fits fs -> fs !! n = Some (w, v) -> 0 <= v < 2 ^ w.
Proof. unfold fits. intros Hfs Hn. rewrite Forall_lookup in Hfs. by apply (Hfs n (w, v)). Qed.

Lemma ll_seq_num : htt_rx_mpdu_desc_seq_num_ll (rx_encode f) = f_seq_num f.
Proof.
  unfold htt_rx_mpdu_desc_seq_num_ll.
  pose proof (fits_nth _ 4 _ _ (ok_ms0 _ Hf) eq_refl). destruct Hf.
  rewrite u16_small; [read_field 4%nat (mpdu_start_0 f)|].
  replace (get_field _ _ _) with (f_seq_num f); [lia|]. symmetry. read_field 4%nat (mpdu_start_0 f).
Qed.
Lemma ll_tid : htt_rx_mpdu_desc_tid_ll (rx_encode f) = f_tid f.
Proof.
  unfold htt_rx_mpdu_desc_tid_ll.
  pose proof (fits_nth _ 2 _ _ (ok_ms2 _ Hf) eq_refl). destruct Hf.
  replace (get_field _ _ _) with (f_tid f); [apply u8_small; lia|].
  symmetry. read_field 2%nat (mpdu_start_2 f).
Qed.
Lemma ll_key_id :
  htt_rx_msdu_desc_key_id_ll (rx_encode f) = if f_first_msdu f =? 0 then None else Some (f_key_id_octet f).
Proof.
  unfold htt_rx_msdu_desc_key_id_ll. rewrite ll_first_msdu. case_match; [done|]. f_equal.
  pose proof (fits_nth _ 0 _ _ (ok_me1 _ Hf) eq_refl). destruct Hf.
  replace (Z.land _ _) with (f_key_id_octet f); [apply u8_small; lia|].
  symmetry. rewrite <- (Z.shiftr_0_r (Z.land _ _)). read_field 0%nat (msdu_end_1 f).
Qed.

Lemma ll_pn_47_32 : Z.land (wd (mpdu_start (rx_encode f)) 2) RX_MPDU_START_2_PN_47_32_MASK = f_pn_47_32 f.
Proof.
  destruct Hf. rewrite <- (Z.shiftr_0_r (Z.land _ _)). read_field 0%nat (mpdu_start_2 f).
Qed.

Lemma u64_shiftl v k n : 0 <= k -> 0 <= n -> k + n <= 64 -> 0 <= v < 2 ^ n ->
  u64 (Z.shiftl v k) = Z.shiftl v k.
Proof.
  intros Hk Hn Hkn Hv. apply u64_small. rewrite Z.shiftl_mul_pow2 by done.
  assert (2 ^ n * 2 ^ k <= 2 ^ 64).
  { rewrite <- Z.pow_add_r by done. apply Z.pow_le_mono_r; lia. }
  assert (0 < 2 ^ k) by (by apply Z.pow_pos_nonneg). nia.
Qed.

Lemma ll_pn_47 : 0 <= f_pn_47_32 f < 2 ^ 16.
Proof. exact (fits_nth _ 0 _ _ (ok_ms2 _ Hf) eq_refl). Qed.

Lemma ll_pn_low :
  Z.lor (wd (mpdu_start (rx_encode f)) 1)
    (u64 (Z.shiftl (Z.land (wd (mpdu_start (rx_encode f)) 2) RX_MPDU_START_2_PN_47_32_MASK)
                   (32 - RX_MPDU_START_2_PN_47_32_LSB)))
  = f_pn_31_0 f + 2 ^ 32 * f_pn_47_32 f.
Proof.
  rewrite ll_pn_47_32. pose proof ll_pn_47. rewrite (u64_shiftl _ _ 16) by (done || lia).
  apply (lor_shiftl _ _ 32); [done|by destruct Hf].
Qed.

Lemma land_high w : 0 <= w < 2 ^ 32 -> Z.land w 0xffff0000 = Z.shiftl (w / 2 ^ 16) 16.
Proof.
  intros Hw. change 0xffff0000 with (Z.shiftl (Z.ones 16) 16).
  rewrite <- (Z.shiftr_div_pow2 w 16) by done.
  apply Z.bits_inj'. intros i Hi. rewrite Z.land_spec, !Z.shiftl_spec by done.
  destruct (Z.ltb_spec i 16) as [Hlt|Hge].
  - rewrite !(Z.testbit_neg_r _ (i - 16)) by lia. apply andb_false_r.
  - rewrite Z.shiftr_spec, Z.sub_simpl_r, Z.testbit_ones_nonneg by lia.
    destruct (Z.ltb_spec (i - 16) 16) as [Hlt|Hge']; [apply andb_true_r|].
    rewrite andb_false_r. symmetry. rewrite <- (Z.mod_small w (2 ^ 32)) by done.
    apply Z.mod_pow2_bits_high. lia.
Qed.

Lemma ll_pn24 pn : 0 <= pn128_0 pn ->
  pn24 (htt_rx_mpdu_desc_pn_ll (rx_encode f) 24 pn) = f_pn_31_0 f mod 2 ^ 24.
Proof.
  intros Hpn. unfold htt_rx_mpdu_desc_pn_ll. cbn [Z.eqb Pos.eqb].
  unfold pn24, set_pn24, set_lo32. cbn [pn128_0].
  change 0xffffff with (2 ^ 24 - 1). rewrite land_mask by done.
  assert (H31 : 0 <= f_pn_31_0 f mod 2 ^ 24 < 2 ^ 24) by (by apply Z.mod_pos_bound).
  change (wd (mpdu_start (rx_encode f)) 1) with (f_pn_31_0 f).
  rewrite Z.lor_comm, lor_shiftl by lia. unfold u32.
  rewrite (Z.mul_comm (2 ^ 32)), Z.mod_add by done. apply Z.mod_small. lia.
Qed.

Lemma ll_pn48 pn :
  htt_rx_mpdu_desc_pn_ll (rx_encode f) 48 pn
  = {| pn128_0 := f_pn_31_0 f + 2 ^ 32 * f_pn_47_32 f; pn128_1 := pn128_1 pn |}.
Proof. unfold htt_rx_mpdu_desc_pn_ll. cbn [Z.eqb Pos.eqb]. by rewrite ll_pn_low. Qed.

Lemma ll_pn128 pn :
  htt_rx_mpdu_desc_pn_ll (rx_encode f) 128 pn
  = {| pn128_0 := f_pn_31_0 f + 2 ^ 32 * f_pn_47_32 f + 2 ^ 48 * (f_ext_wapi_pn_95_64 f / 2 ^ 16);
       pn128_1 := f_ext_wapi_pn_95_64 f + 2 ^ 32 * f_ext_wapi_pn_127_96 f |}.
Proof.
  unfold htt_rx_mpdu_desc_pn_ll. cbn [Z.eqb Pos.eqb]. rewrite ll_pn_low.
  unfold set_pn128_1, set_pn128_0. cbn [pn128_0 pn128_1].
  change (wd (msdu_end (rx_encode f)) 2) with (f_ext_wapi_pn_95_64 f).
  change (wd (msdu_end (rx_encode f)) 3) with (f_ext_wapi_pn_127_96 f).
  destruct Hf as [_ _ _ _ _ H31 H95 H127]. pose proof ll_pn_47 as H47.
  unfold RX_MSDU_END_1_EXT_WAPI_PN_63_48_MASK, RX_MSDU_END_1_EXT_WAPI_PN_63_48_LSB.
  rewrite land_high, Z.shiftl_shiftl by done. change (16 + (48 - 16)) with 48.
  assert (Hd : 0 <= f_ext_wapi_pn_95_64 f / 2 ^ 16 < 2 ^ 16).
  { split; [apply Z.div_pos; lia|]. apply Z.div_lt_upper_bound; lia. }
  rewrite (u64_shiftl _ 48 16) by (done || lia). rewrite (u64_shiftl _ 32 32) by (done || lia).
  rewrite (lor_shiftl _ _ 48) by lia. rewrite (lor_shiftl _ _ 32) by lia. done.
Qed.
End Layout.

(** ** The high-latency layout *)

(** The fields of [struct hl_htt_rx_desc_base] and the flags of the indication. *)
Record hl_fields := {
  h_first_msdu : Z; h_last_msdu : Z; h_flags : Z;
  h_seq_num : Z; h_encrypted : Z; h_chan_info : Z; h_resv0 : Z; h_mcast_bcast : Z; h_fragment : Z;
  h_key_id_oct : Z; h_resv1 : Z;
  h_pn_31_0 : Z; h_pn_63_32 : Z; h_pn_95_64 : Z; h_pn_127_96 : Z
}.

Definition hl_flag_byte (h : hl_fields) : list (Z * Z) :=
  [(1, h_first_msdu h); (1, h_last_msdu h); (6, h_flags h)].
Definition hl_word_0 (h : hl_fields) : list (Z * Z) :=
  [(12, h_seq_num h); (1, h_encrypted h); (1, h_chan_info h); (2, h_resv0 h);
   (1, h_mcast_bcast h); (1, h_fragment h); (8, h_key_id_oct h); (6, h_resv1 h)].
Definition hl_encode (h : hl_fields) : hl_htt_rx_desc_base := {|
  hl_flag := pack (hl_flag_byte h);
  hl_words := [pack (hl_word_0 h); h_pn_31_0 h; h_pn_63_32 h; h_pn_95_64 h; h_pn_127_96 h]
|}.
Record hl_ok (h : hl_fields) : Prop := {
  hok_flag : fits (hl_flag_byte h);
  hok_word : fits (hl_word_0 h);
  hok_31 : 0 <= h_pn_31_0 h < 2 ^ 32;
  hok_63 : 0 <= h_pn_63_32 h < 2 ^ 32;
  hok_95 : 0 <= h_pn_95_64 h < 2 ^ 32;
  hok_127 : 0 <= h_pn_127_96 h < 2 ^ 32
}.

Ltac read_hl n fs :=
  let l := eval unfold hl_flag_byte, hl_word_0 in fs in
  let pre := eval cbn in (take n l) in
  lazymatch eval cbn in (drop n l) with
  | (?w, ?v) :: ?post => exact (get_field_pack fs pre w v post eq_refl ltac:(assumption) _ eq_refl)
  end.

Section HlLayout.
Variable h : hl_fields.
Hypothesis Hh : hl_ok h.

(** A one-bit flag tested by its mask. *)
Lemma land_flag w n : 0 <= n -> (Z.land w (Z.shiftl 1 n) =? 0) = (get_field w (Z.shiftl (Z.ones 1) n) n =? 0).
Proof.
  intros Hn. change (Z.ones 1) with 1. unfold get_field.
  destruct (Z.eqb_spec (Z.land w (Z.shiftl 1 n)) 0) as [->|Hne]; [by rewrite Z.shiftr_0_l|].
  symmetry. apply Z.eqb_neq. intros H0. apply Hne. apply Z.bits_inj'. intros i Hi.
  rewrite Z.bits_0. destruct (Z.ltb_spec i n) as [Hlt|Hge].
  - rewrite Z.land_spec, Z.shiftl_spec_low by lia. apply andb_false_r.
  - rewrite <- (Z.sub_simpl_r i n), <- Z.shiftr_spec, H0 by lia. apply Z.bits_0.
Qed.

Lemma hl_first : htt_rx_msdu_first_msdu_flag_hl (hl_encode h) = negb (h_first_msdu h =? 0).
Proof.
  destruct Hh. unfold htt_rx_msdu_first_msdu_flag_hl, HTT_RX_IND_HL_FLAG_FIRST_MSDU.
  rewrite land_flag by done. do 2 f_equal. read_hl 0%nat (hl_flag_byte h).
Qed.
Lemma hl_last : htt_rx_msdu_desc_completes_mpdu_hl (hl_encode h) = negb (h_last_msdu h =? 0).
Proof.
  destruct Hh. unfold htt_rx_msdu_desc_completes_mpdu_hl, HTT_RX_IND_HL_FLAG_LAST_MSDU.
  rewrite land_flag by done. do 2 f_equal. read_hl 1%nat (hl_flag_byte h).
Qed.
Lemma hl_mcast : htt_rx_msdu_is_wlan_mcast_hl (hl_encode h) = h_mcast_bcast h.
Proof. destruct Hh. read_hl 4%nat (hl_word_0 h). Qed.
Lemma hl_frag : htt_rx_msdu_is_frag_hl (hl_encode h) = h_mcast_bcast h.
Proof. destruct Hh. read_hl 4%nat (hl_word_0 h). Qed.
Lemma hl_encrypted : h_first_msdu h <> 0 ->
  htt_rx_mpdu_is_encrypted_hl (hl_encode h) = Some (negb (h_encrypted h =? 0)).
Proof.
  intros H1. unfold htt_rx_mpdu_is_encrypted_hl. rewrite hl_first, (proj2 (Z.eqb_neq _ _) H1).
  cbn [negb]. do 3 f_equal. destruct Hh. read_hl 1%nat (hl_word_0 h).
Qed.
Lemma hl_key_id : h_first_msdu h <> 0 ->
  htt_rx_msdu_desc_key_id_hl (hl_encode h) = Some (h_key_id_oct h).
Proof.
  intros H1. unfold htt_rx_msdu_desc_key_id_hl. rewrite hl_first, (proj2 (Z.eqb_neq _ _) H1).
  cbn [negb]. f_equal. destruct Hh. read_hl 6%nat (hl_word_0 h).
Qed.

Lemma set_hi_lo w lo hi : 0 <= lo < 2 ^ 32 -> set_lo32 (set_hi32 w hi) lo = lo + 2 ^ 32 * hi.
Proof.
  intros Hlo. pose proof (u32_range w) as Hw. unfold set_lo32, set_hi32.
  rewrite (Z.lor_comm (Z.shiftl hi 32)), (lor_shiftl (u32 w) hi 32) by (done || lia).
  rewrite Z.shiftr_div_pow2, (Z.mul_comm (2 ^ 32) hi), Z.div_add, Z.div_small, Z.add_0_l by (done || lia).
  rewrite Z.lor_comm, lor_shiftl by (done || lia). lia.
Qed.
Lemma set_lo_hi w lo hi : 0 <= lo < 2 ^ 32 -> set_hi32 (set_lo32 w lo) hi = lo + 2 ^ 32 * hi.
Proof.
  intros Hlo. unfold set_lo32, set_hi32. rewrite (Z.lor_comm _ lo), lor_shiftl by (done || lia).
  unfold u32. rewrite (Z.mul_comm (2 ^ 32) (Z.shiftr _ _)), Z.mod_add, Z.mod_small by (done || lia).
  by rewrite Z.lor_comm, lor_shiftl by (done || lia).
Qed.

Lemma hl_pn128 pn : h_first_msdu h <> 0 ->
  htt_rx_mpdu_desc_pn_hl (hl_encode h) 128 pn
  = Some {| pn128_0 := h_pn_31_0 h + 2 ^ 32 * h_pn_63_32 h;
            pn128_1 := h_pn_95_64 h + 2 ^ 32 * h_pn_127_96 h |}.
Proof.
  intros H1. unfold htt_rx_mpdu_desc_pn_hl. rewrite hl_first, (proj2 (Z.eqb_neq _ _) H1).
  destruct Hh as [_ _ H31 H63 H95 H127].
  change (wd (hl_words (hl_encode h)) 1) with (h_pn_31_0 h).
  change (wd (hl_words (hl_encode h)) 2) with (h_pn_63_32 h).
  change (wd (hl_words (hl_encode h)) 3) with (h_pn_95_64 h).
  change (wd (hl_words (hl_encode h)) 4) with (h_pn_127_96 h).
  cbn [negb Z.eqb Pos.eqb set_pn128_0 set_pn128_1 pn128_0 pn128_1].
  by rewrite !set_hi_lo.
Qed.
End HlLayout.

(** ** Properties *)

(** The low-latency accessors agree with the layout of [rx_desc.h]: from every
    descriptor built from fields that fit, each accessor returns its field, and the 24-bit
    and 48-bit packet numbers are the concatenation of theirs. *)
Theorem rx_desc_ll_fields f pn :
  fields_ok f -> 0 <= pn128_0 pn ->
  htt_rx_msdu_first_msdu_flag_ll (rx_encode f) = f_first_msdu f /\
  htt_rx_msdu_desc_completes_mpdu_ll (rx_encode f) = f_last_msdu f /\
  htt_rx_msdu_is_wlan_mcast_ll (rx_encode f) = f_mcast_bcast f /\
  htt_rx_msdu_is_frag_ll (rx_encode f) = f_fragment f /\
  htt_rx_mpdu_is_encrypted_ll (rx_encode f) = negb (f_encrypted f =? 0) /\
  htt_rx_mpdu_desc_retry_ll (rx_encode f) = negb (f_retry f =? 0) /\
  htt_rx_mpdu_desc_seq_num_ll (rx_encode f) = f_seq_num f /\
  htt_rx_mpdu_desc_tid_ll (rx_encode f) = f_tid f /\
  (f_first_msdu f <> 0 -> htt_rx_msdu_desc_key_id_ll (rx_encode f) = Some (f_key_id_octet f)) /\
  pn24 (htt_rx_mpdu_desc_pn_ll (rx_encode f) 24 pn) = f_pn_31_0 f mod 2 ^ 24 /\
  pn48 (htt_rx_mpdu_desc_pn_ll (rx_encode f) 48 pn) = f_pn_31_0 f + 2 ^ 32 * f_pn_47_32 f.
Proof.
  intros Hf Hpn. split_and!.
  - by apply ll_first_msdu.
  - by apply ll_completes_mpdu.
  - by apply ll_mcast.
  - by apply ll_frag.
  - by apply ll_encrypted.
  - by apply ll_retry.
  - by apply ll_seq_num.
  - by apply ll_tid.
  - intros H1. rewrite ll_key_id by done. by rewrite (proj2 (Z.eqb_neq _ _) H1).
  - by apply ll_pn24.
  - by rewrite ll_pn48.
Qed.

Definition ex_fields (w63 : Z) : rx_fields := {|
  f_mcast_bcast := 1; f_fragment := 0; f_encrypted := 1; f_retry := 0; f_seq_num := 0xabc;
  f_pn_31_0 := 0x89abcdef; f_pn_47_32 := 0x4567; f_tid := 5; f_key_id_octet := 0xc0;
  f_ext_wapi_pn_63_48 := w63; f_ext_wapi_pn_95_64 := 0x5c365c36; f_ext_wapi_pn_127_96 := 0x5c365c36;
  f_first_msdu := 1; f_last_msdu := 0; o_att0 := 3; o_att1 := 7; o_att2 := 1; o_ms0 := 9;
  o_ms1 := 1; o_ms2 := 4; o_ms3 := 0; o_me0 := 1; o_me1 := 2; o_me2 := 3; o_me3 := 4 |}.

Lemma ex_fields_ok w63 : 0 <= w63 < 2 ^ 16 -> fields_ok (ex_fields w63).
Proof. intros Hw. split; repeat constructor; cbn; lia. Qed.

Lemma rx_desc_ll_fields_witness :
  htt_rx_mpdu_desc_seq_num_ll (rx_encode (ex_fields 7)) = 0xabc.
Proof.
  destruct (rx_desc_ll_fields (ex_fields 7) {| pn128_0 := 0; pn128_1 := 0 |}) as (_ & _ & _ & _ & _ & _ & H & _).
  - apply ex_fields_ok. lia.
  - cbn. lia.
  - exact H.
Defined.

(** The 128-bit (WAPI) packet number is read wrongly from a low-latency descriptor:
    its bits 63:48 are bits 95:80 of the number, because the word after the one that holds
    [ext_wapi_pn_63_48] is read, so that field never matters.  The high-latency reader gets
    all 128 bits right. *)
Theorem rx_pn_wapi_ll_wrong_word f h pn :
  fields_ok f -> hl_ok h -> h_first_msdu h <> 0 ->
  htt_rx_mpdu_desc_pn_ll (rx_encode f) 128 pn
  = {| pn128_0 := f_pn_31_0 f + 2 ^ 32 * f_pn_47_32 f + 2 ^ 48 * (f_ext_wapi_pn_95_64 f / 2 ^ 16);
       pn128_1 := f_ext_wapi_pn_95_64 f + 2 ^ 32 * f_ext_wapi_pn_127_96 f |} /\
  htt_rx_mpdu_desc_pn_hl (hl_encode h) 128 pn
  = Some {| pn128_0 := h_pn_31_0 h + 2 ^ 32 * h_pn_63_32 h;
            pn128_1 := h_pn_95_64 h + 2 ^ 32 * h_pn_127_96 h |}.
Proof. intros Hf Hh H1. split; [by apply ll_pn128|by apply hl_pn128]. Qed.

Definition ex_hl (frag : Z) : hl_fields := {|
  h_first_msdu := 1; h_last_msdu := 1; h_flags := 0; h_seq_num := 77; h_encrypted := 1; h_chan_info := 0;
  h_resv0 := 0; h_mcast_bcast := 0; h_fragment := frag; h_key_id_oct := 0x80; h_resv1 := 0;
  h_pn_31_0 := 0x89abcdef; h_pn_63_32 := 0x01234567; h_pn_95_64 := 0x5c365c36; h_pn_127_96 := 0x5c365c36 |}.
Lemma ex_hl_ok frag : 0 <= frag < 2 -> hl_ok (ex_hl frag).
Proof. intros Hw. split; repeat constructor; cbn; lia. Qed.

Lemma rx_pn_wapi_ll_wrong_word_witness :
  htt_rx_mpdu_desc_pn_ll (rx_encode (ex_fields 0)) 128 {| pn128_0 := 0; pn128_1 := 0 |}
  = htt_rx_mpdu_desc_pn_ll (rx_encode (ex_fields 0x123)) 128 {| pn128_0 := 0; pn128_1 := 0 |}.
Proof.
  destruct (rx_pn_wapi_ll_wrong_word (ex_fields 0) (ex_hl 0) {| pn128_0 := 0; pn128_1 := 0 |}) as [-> _].
  - apply ex_fields_ok. lia.
  - apply ex_hl_ok. lia.
  - cbn. lia.
  - vm_compute. reflexivity.
Defined.

(** The high-latency accessors agree with the layout of [htt.h], but for the fragment
    test, which returns the multicast bit whatever the fragment bit is. *)
Theorem rx_desc_hl_fields h :
  hl_ok h -> h_first_msdu h <> 0 ->
  htt_rx_msdu_desc_completes_mpdu_hl (hl_encode h) = negb (h_last_msdu h =? 0) /\
  htt_rx_msdu_is_wlan_mcast_hl (hl_encode h) = h_mcast_bcast h /\
  htt_rx_mpdu_is_encrypted_hl (hl_encode h) = Some (negb (h_encrypted h =? 0)) /\
  htt_rx_msdu_desc_key_id_hl (hl_encode h) = Some (h_key_id_oct h) /\
  htt_rx_msdu_is_frag_hl (hl_encode h) = h_mcast_bcast h.
Proof.
  intros Hh H1. split_and!.
  - by apply hl_last.
  - by apply hl_mcast.
  - by apply hl_encrypted.
  - by apply hl_key_id.
  - by apply hl_frag.
Qed.

Lemma rx_desc_hl_fields_witness : htt_rx_msdu_is_frag_hl (hl_encode (ex_hl 1)) = 0.
Proof.
  destruct (rx_desc_hl_fields (ex_hl 1)) as (_ & _ & _ & _ & H).
  - apply ex_hl_ok. lia.
  - cbn. lia.
  - exact H.
Defined.
