(* ===== verification/Nbuf.v ===== *)
(** * Network buffers

    The store of [adf_nbuf_t]s the receive path works on: each buffer has the link
    [adf_nbuf_next] and an rx descriptor.  Frames travel as null-terminated lists of MSDUs
    in which the descriptors mark where each MPDU ends ([ol_rx_mpdu_list_next] in
    [CORE/CLD_TXRX/TXRX/ol_txrx_internal.h]).

    A component's state contains such a store through the class [NbufStore]. *)

From S2P Require Import Prelude HttRxDesc.

Local Open Scope c_scope.

Record nbuf (D : Type) := { nb_next : Z; nb_desc : D }.
Arguments nb_next {D}.
Arguments nb_desc {D}.

(** A state [S] with a store of buffers by address. *)
Class NbufStore (S D : Type) := {
  nbufs : S -> gmap Z (nbuf D);
  set_nbufs : gmap Z (nbuf D) -> S -> S;
  nbufs_set : forall h s, nbufs (set_nbufs h s) = h;
  set_nbufs_set : forall h h' s, set_nbufs h (set_nbufs h' s) = set_nbufs h s;
  set_nbufs_id : forall s, set_nbufs (nbufs s) s = s
}.

Definition with_next {D} (v : Z) (b : nbuf D) : nbuf D := {| nb_next := v; nb_desc := nb_desc b |}.

Section Ops.
Context {S D : Type} `{NS : NbufStore S D} `{RD : RxDescOps D}.

(** *** Buffer primitives; a null or freed buffer is undefined *)

Definition nb_read (p : Z) : M S (nbuf D) := s <- mget ;; oget (nbufs s !! p).
Definition adf_nbuf_next (p : Z) : M S Z := b <- nb_read p ;; mreturn (nb_next b).
Definition adf_nbuf_set_next (p v : Z) : M S unit :=
  b <- nb_read p ;; modify (fun s => set_nbufs (<[p := with_next v b]> (nbufs s)) s).
Definition htt_rx_msdu_desc_retrieve (p : Z) : M S D := b <- nb_read p ;; mreturn (nb_desc b).
Definition htt_rx_desc_frame_free (p : Z) : M S unit :=
  _ <- nb_read p ;; modify (fun s => set_nbufs (delete p (nbufs s)) s).

(** One round more than there are buffers. *)
Definition nb_fuel : M S nat := gets (fun s => Datatypes.S (size (nbufs s))).

(** [ol_rx_mpdu_list_next]: the last MSDU of the first MPDU, and the MSDU after it; a list
    that ends without a last-MSDU flag ends the MPDU *)
Definition ol_rx_mpdu_list_next (mpdu_list : Z) : M S (Z * Z) :=
  fuel <- nb_fuel ;;
  msdu <- miter fuel (fun msdu =>
    d <- htt_rx_msdu_desc_retrieve msdu ;;
    if rx_completes_mpdu d then mreturn (inr msdu)
    else
      n <- adf_nbuf_next msdu ;;
      if n =? 0 then mreturn (inr msdu) else mreturn (inl n)) mpdu_list ;;
  next_mpdu <- adf_nbuf_next msdu ;;
  mreturn (msdu, next_mpdu).

(** [ADD_MPDU_TO_LIST]: the new head and tail *)
Definition ADD_MPDU_TO_LIST (head tail mpdu mpdu_tail : Z) : M S (Z * Z) :=
  if head =? 0 then mreturn (mpdu, mpdu_tail)
  else adf_nbuf_set_next tail mpdu ;; mreturn (head, mpdu_tail).
End Ops.

(** ** Lists of buffers *)

Section Lists.
Context {D : Type} `{RD : RxDescOps D}.
Implicit Types (nb : gmap Z (nbuf D)) (l : list Z).

(** From [p] along [l] to [q]. *)
Fixpoint lseg nb (p : Z) l (q : Z) : Prop :=
  match l with
  | [] => p = q
  | x :: l => p = x /\ x <> 0 /\ exists b, nb !! x = Some b /\ lseg nb (nb_next b) l q
  end.

Lemma lseg_app nb p l1 l2 q : lseg nb p (l1 ++ l2) q <-> exists r, lseg nb p l1 r /\ lseg nb r l2 q.
Proof.
  revert p. induction l1 as [|x l1 IH]; intros p; cbn; [naive_solver|].
  setoid_rewrite IH. naive_solver.
Qed.

Lemma lseg_alloc nb p l q x : lseg nb p l q -> x ∈ l -> is_Some (nb !! x).
Proof.
  revert p. induction l as [|y l IH]; intros p; [set_solver|].
  intros (-> & _ & b & Hb & Hl) [->|Hx]%elem_of_cons; [by eexists|by eapply IH].
Qed.

Lemma lseg_nonnull nb p l q : lseg nb p l q -> 0 ∉ l.
Proof.
  revert p. induction l as [|y l IH]; intros p; [set_solver|].
  intros (-> & Hne & b & Hb & Hl%IH). set_solver.
Qed.

(** The segment only depends on the links of its buffers. *)
Lemma lseg_frame nb nb' p l q :
  lseg nb p l q -> (forall x, x ∈ l -> nb_next <$> nb' !! x = nb_next <$> nb !! x) -> lseg nb' p l q.
Proof.
  revert p. induction l as [|y l IH]; intros p; cbn; [done|].
  intros (-> & Hne & b & Hb & Hl) Heq. pose proof (Heq y ltac:(set_solver)) as Hy.
  rewrite Hb in Hy. cbn in Hy. apply fmap_Some in Hy as (b' & Hb' & Hn).
  split_and!; [done..|]. exists b'. split; [done|]. rewrite <- Hn. apply IH; [done|].
  intros x Hx. apply Heq. set_solver.
Qed.

Lemma lseg_head nb p l : lseg nb p l 0 -> p = default 0 (head l).
Proof. destruct l; cbn; naive_solver. Qed.

Lemma lseg_next nb p l1 x l2 q : lseg nb p (l1 ++ x :: l2) q ->
  exists b, nb !! x = Some b /\ lseg nb (nb_next b) l2 q.
Proof. intros (r & _ & -> & _ & b & Hb & Hl)%lseg_app. eauto. Qed.

(** Redirect the last link of a segment. *)
Lemma lseg_relink nb p l x q q' b : lseg nb p (l ++ [x]) q -> x ∉ l ->
  nb !! x = Some b -> lseg (<[x := with_next q' b]> nb) p (l ++ [x]) q'.
Proof.
  intros (r & Hl & -> & Hne & _)%lseg_app Hx Hb. apply lseg_app. exists x. split.
  - eapply lseg_frame; [done|]. intros y Hy. by rewrite lookup_insert_ne by set_solver.
  - split_and!; [done..|]. exists (with_next q' b). by rewrite lookup_insert_eq.
Qed.

(** *** MPDUs *)

Definition completes nb (x : Z) : bool :=
  match nb !! x with Some b => rx_completes_mpdu (nb_desc b) | None => false end.

(** Cut a list of MSDUs after each one for which [cm] holds. *)
Fixpoint mpdus (cm : Z -> bool) (l : list Z) : list (list Z) :=
  match l with
  | [] => []
  | x :: l =>
      if cm x then [x] :: mpdus cm l
      else match mpdus cm l with [] => [[x]] | m :: ms => (x :: m) :: ms end
  end.

Lemma mpdus_concat cm l : concat (mpdus cm l) = l.
Proof.
  induction l as [|x l IH]; cbn; [done|]. destruct (cm x); cbn; [by rewrite IH|].
  destruct (mpdus cm l); cbn in *; by rewrite <- IH.
Qed.

Lemma mpdus_nonempty cm l m : m ∈ mpdus cm l -> m <> [].
Proof.
  revert m. induction l as [|x l IH]; intros m; cbn; [set_solver|].
  destruct (cm x); [set_solver|]. destruct (mpdus cm l) as [|m' ms] eqn:Hm; set_solver.
Qed.

(** The first MPDU is up to its first completing MSDU, or the whole list. *)
Lemma mpdus_cons cm l m ms : mpdus cm l = m :: ms ->
  exists m' t, m = m' ++ [t] /\ (forall x, x ∈ m' -> cm x = false) /\
    (cm t = true \/ concat ms = []) /\ ms = mpdus cm (concat ms) /\ l = m ++ concat ms.
Proof.
  revert m ms. induction l as [|x l IH]; intros m ms; cbn; [done|].
  destruct (cm x) eqn:Hx.
  - intros [= <- <-]. exists [], x. rewrite mpdus_concat. split_and!; try done; [set_solver|by left].
  - destruct (mpdus cm l) as [|m1 ms1] eqn:Hl.
    + intros [= <- <-]. exists [], x. pose proof (mpdus_concat cm l) as Hc. rewrite Hl in Hc. cbn in Hc. subst l.
      split_and!; try done; [set_solver|by right].
    + intros [= <- <-]. destruct (IH _ _ eq_refl) as (m' & t & -> & Hm & Ht & Hms & ->).
      exists (x :: m'), t. split_and!; try done. intros y [->|Hy]%elem_of_cons; [done|by apply Hm].
Qed.

Lemma mpdus_ext cm cm' l : (forall x, x ∈ l -> cm x = cm' x) -> mpdus cm l = mpdus cm' l.
Proof.
  induction l as [|x l IH]; intros Heq; cbn; [done|].
  rewrite Heq by set_solver. rewrite IH by set_solver. done.
Qed.

(** A list under construction: [head] and [tail] of the buffers [l]; the last link is junk. *)
Definition open_list nb (head tail : Z) l : Prop :=
  match last l with
  | None => head = 0
  | Some t => tail = t /\ exists q, lseg nb head l q
  end.

Lemma open_list_frame nb nb' head tail l :
  open_list nb head tail l -> (forall x, x ∈ l -> nb_next <$> nb' !! x = nb_next <$> nb !! x) ->
  open_list nb' head tail l.
Proof.
  unfold open_list. destruct (last l); [|done]. intros (-> & q & Hl) Heq. split; [done|].
  exists q. by eapply lseg_frame.
Qed.
End Lists.

Section Specs.
Context {S D : Type} `{NS : NbufStore S D} `{RD : RxDescOps D}.
Implicit Types s : S.

Lemma runs_nb_read p b s (Q : nbuf D -> S -> Prop) :
  nbufs s !! p = Some b -> Q b s -> runs (nb_read p) s Q.
Proof. unfold runs, nb_read, mbnd, mget, oget. by intros ->. Qed.

Lemma runs_adf_nbuf_next p b s (Q : Z -> S -> Prop) :
  nbufs s !! p = Some b -> Q (nb_next b) s -> runs (adf_nbuf_next p) s Q.
Proof. intros Hb HQ. unfold adf_nbuf_next. mstep. by eapply runs_nb_read. Qed.

Lemma runs_desc p b s (Q : D -> S -> Prop) :
  nbufs s !! p = Some b -> Q (nb_desc b) s -> runs (htt_rx_msdu_desc_retrieve p) s Q.
Proof. intros Hb HQ. unfold htt_rx_msdu_desc_retrieve. mstep. by eapply runs_nb_read. Qed.

Lemma runs_set_next p v b s (Q : unit -> S -> Prop) :
  nbufs s !! p = Some b -> Q tt (set_nbufs (<[p := with_next v b]> (nbufs s)) s) ->
  runs (adf_nbuf_set_next p v) s Q.
Proof. intros Hb HQ. unfold adf_nbuf_set_next. mstep. by eapply runs_nb_read. Qed.

Lemma runs_free p s (Q : unit -> S -> Prop) :
  is_Some (nbufs s !! p) -> Q tt (set_nbufs (delete p (nbufs s)) s) ->
  runs (htt_rx_desc_frame_free p) s Q.
Proof. intros [b Hb] HQ. unfold htt_rx_desc_frame_free. mstep. by eapply runs_nb_read. Qed.

(** A list without repetition is no longer than the store. *)
Lemma lseg_size (nb : gmap Z (nbuf D)) p l q : lseg nb p l q -> NoDup l -> (length l <= size nb)%nat.
Proof.
  intros Hl Hnd. rewrite <- (size_dom (D:=gset Z)).
  assert (Hsub : list_to_set (C:=gset Z) l ⊆ dom nb).
  { intros x Hx%elem_of_list_to_set. apply elem_of_dom. by eapply lseg_alloc. }
  apply subseteq_size in Hsub. by rewrite size_list_to_set in Hsub.
Qed.

Lemma mpdu_walk s m t rest p fuel :
  lseg (nbufs s) p (m ++ t :: rest) 0 ->
  (forall x, x ∈ m -> completes (nbufs s) x = false) ->
  (completes (nbufs s) t = true \/ rest = []) -> (length m < fuel)%nat ->
  miter fuel (fun msdu =>
    d <- htt_rx_msdu_desc_retrieve msdu ;;
    if rx_completes_mpdu d then mreturn (inr msdu)
    else
      n <- adf_nbuf_next msdu ;;
      if n =? 0 then mreturn (inr msdu) else mreturn (inl n)) p s = Some (t, s).
Proof.
  revert p fuel. induction m as [|x m IH]; intros p [|fuel] Hl Hm Ht Hf; cbn in Hf; try lia.
  - destruct Hl as (-> & Hne & b & Hb & Hl). cbn [miter].
    unfold htt_rx_msdu_desc_retrieve, adf_nbuf_next, nb_read, mbnd, mget, oget. rewrite Hb. cbn.
    unfold completes in Ht. rewrite Hb in Ht. destruct (rx_completes_mpdu (nb_desc b)); cbn; [done|].
    destruct Ht as [Ht|Ht]; [done|subst rest]. cbn in Hl. rewrite Hb. cbn. by rewrite Hl.
  - destruct Hl as (-> & Hne & b & Hb & Hl). cbn [miter].
    unfold htt_rx_msdu_desc_retrieve at 1, adf_nbuf_next at 1, nb_read, mbnd at 1 2 3 4 5 6 7, mget, oget. rewrite Hb. cbn.
    pose proof (Hm x ltac:(set_solver)) as Hx. unfold completes in Hx. rewrite Hb in Hx. rewrite Hx. cbn.
    assert (Hn : nb_next b <> 0).
    { pose proof (lseg_nonnull _ _ _ _ Hl) as H0. apply lseg_head in Hl. rewrite Hl. destruct m; cbn; set_solver. }
    rewrite Hb. cbn. rewrite (proj2 (Z.eqb_neq _ _) Hn). cbn. apply IH; [done| |done|lia].
    intros y Hy. apply Hm. set_solver.
Qed.

Lemma ol_rx_mpdu_list_next_spec s p l m ms :
  lseg (nbufs s) p l 0 -> NoDup l -> mpdus (completes (nbufs s)) l = m :: ms ->
  ol_rx_mpdu_list_next p s = Some ((default 0 (last m), default 0 (head (concat ms))), s).
Proof.
  intros Hl Hnd Hm. pose proof (lseg_size _ _ _ _ Hl Hnd) as Hsz.
  destruct (mpdus_cons _ _ _ _ Hm) as (m' & t & -> & Hm' & Ht & _ & ->).
  rewrite <- app_assoc in Hl. cbn in Hl. rewrite !length_app in Hsz. cbn in Hsz.
  unfold ol_rx_mpdu_list_next, nb_fuel. unfold mbnd at 1. unfold gets. unfold mbnd at 1.
  rewrite (mpdu_walk _ m' t (concat ms)) by (done || lia).
  destruct (lseg_next _ _ _ _ _ _ Hl) as (b & Hb & Hr).
  unfold adf_nbuf_next, nb_read, mbnd, mget, oget. rewrite Hb. cbn.
  by rewrite last_snoc, (lseg_head _ _ _ Hr).
Qed.

(** [nb'] has the buffers and descriptors of [nb]; only the links of [X] may differ. *)
Definition relinked (X : list Z) (nb nb' : gmap Z (nbuf D)) : Prop :=
  (forall x, nb_desc <$> nb' !! x = nb_desc <$> nb !! x) /\ (forall x, x ∉ X -> nb' !! x = nb !! x).

Lemma relinked_refl X nb : relinked X nb nb.
Proof. by split. Qed.
Lemma relinked_trans X nb nb' nb'' : relinked X nb nb' -> relinked X nb' nb'' -> relinked X nb nb''.
Proof.
  intros [Hd Ho] [Hd' Ho']. split; intros x; [by rewrite Hd'|]. intros Hx. by rewrite Ho', Ho.
Qed.
Lemma relinked_mono X Y nb nb' : X ⊆ Y -> relinked X nb nb' -> relinked Y nb nb'.
Proof. intros HXY [Hd Ho]. split; [done|]. intros x Hx. apply Ho. set_solver. Qed.
Lemma relinked_next X nb x b v : x ∈ X -> nb !! x = Some b -> relinked X nb (<[x := with_next v b]> nb).
Proof.
  intros HxX Hb. split; intros y.
  - destruct (decide (y = x)) as [->|Hne]; [by rewrite lookup_insert_eq, Hb|by rewrite lookup_insert_ne].
  - intros Hy. rewrite lookup_insert_ne by set_solver. done.
Qed.
Lemma relinked_completes X nb nb' x : relinked X nb nb' -> completes nb' x = completes nb x.
Proof.
  intros [Hd _]. specialize (Hd x). unfold completes.
  destruct (nb' !! x), (nb !! x); cbn in Hd; congruence.
Qed.
Lemma relinked_lseg X nb nb' p l q : relinked X nb nb' -> (forall x, x ∈ l -> x ∉ X) ->
  lseg nb p l q -> lseg nb' p l q.
Proof. intros [_ Ho] HX Hl. eapply lseg_frame; [done|]. intros x Hx. rewrite Ho; [done|]. by apply HX. Qed.

Lemma ADD_MPDU_TO_LIST_spec s head tail mpdu l m q :
  open_list (nbufs s) head tail l -> lseg (nbufs s) mpdu m q -> m <> [] -> NoDup (l ++ m) ->
  runs (ADD_MPDU_TO_LIST head tail mpdu (default 0 (last m))) s (fun ht s' =>
    exists nb', s' = set_nbufs nb' s /\ relinked l (nbufs s) nb' /\
      open_list nb' ht.1 ht.2 (l ++ m)).
Proof.
  intros Ho Hm Hne Hnd. unfold ADD_MPDU_TO_LIST.
  destruct m as [|t m _] using rev_ind; [done|]. clear Hne. rewrite last_snoc. cbn [default from_option].
  destruct l as [|x l _] using rev_ind.
  - cbn in Ho. subst head. rewrite Z.eqb_refl. mstep. exists (nbufs s). split_and!.
    + by rewrite set_nbufs_id.
    + apply relinked_refl.
    + unfold open_list. cbn [app]. rewrite last_snoc. cbn. split; [done|by exists q].
  - unfold open_list in Ho. rewrite last_snoc in Ho. destruct Ho as (-> & r & Hl).
    pose proof (lseg_alloc _ _ _ _ x Hl ltac:(set_solver)) as [b Hb].
    assert (Hh : head <> 0).
    { pose proof (lseg_nonnull _ _ _ _ Hl) as H0. destruct l; cbn in Hl; destruct Hl as (-> & ? & _); done. }
    rewrite (proj2 (Z.eqb_neq _ _) Hh). mstep. eapply runs_set_next; [done|]. mstep.
    apply NoDup_app in Hnd as (Hnd1 & Hnd2 & _). apply NoDup_app in Hnd1 as (_ & Hx & _).
    eexists. split_and!; [reflexivity|apply relinked_next; [set_solver|done]|].
    unfold open_list. rewrite app_assoc, last_snoc. cbn. split; [done|]. exists q.
    rewrite <- app_assoc. apply lseg_app. exists mpdu. split.
    + eapply lseg_relink; [done| |done]. set_solver.
    + eapply lseg_frame; [exact Hm|]. intros y Hy. rewrite lookup_insert_ne; [done|]. set_solver.
Qed.
End Specs.
