(* ===== verification/RxPn.v ===== *)
(** * The packet-number replay check

    Models [CORE/CLD_TXRX/TXRX/ol_rx_pn.c]: the comparison functions, the filter that
    splits a list of MSDUs into MPDUs and frees those whose packet number is not larger
    than the last one accepted, and the trace ring of accepted numbers.

    The theorems show that the filter returns exactly the MPDUs an abstract replay filter
    keeps, in order, frees the others, and that the accepted numbers strictly increase. *)

From S2P Require Import Prelude HttRxDesc Nbuf.

Local Open Scope c_scope.

(** ** Comparison functions: true when the new number is a replay *)

Inductive wlan_op_mode :=
  | wlan_op_mode_unknown | wlan_op_mode_ap | wlan_op_mode_ibss | wlan_op_mode_sta
  | wlan_op_mode_monitor | wlan_op_mode_ocb | wlan_op_mode_ndi.
#[export] Instance wlan_op_mode_eqdec : EqDecision wlan_op_mode.
Proof. solve_decision. Defined.

Definition ol_rx_pn_cmp24 (new_pn old_pn : htt_rx_pn_t) (is_unicast : bool) (opmode : wlan_op_mode) : bool :=
  Z.land (pn24 new_pn) 0xffffff <=? Z.land (pn24 old_pn) 0xffffff.

Definition ol_rx_pn_cmp48 (new_pn old_pn : htt_rx_pn_t) (is_unicast : bool) (opmode : wlan_op_mode) : bool :=
  Z.land (pn48 new_pn) 0xffffffffffff <=? Z.land (pn48 old_pn) 0xffffffffffff.

Definition ol_rx_pn_wapi_cmp (new_pn old_pn : htt_rx_pn_t) (is_unicast : bool) (opmode : wlan_op_mode) : bool :=
  let pn_is_replay :=
    if pn128_1 new_pn =? pn128_1 old_pn then pn128_0 new_pn <=? pn128_0 old_pn
    else pn128_1 new_pn <? pn128_1 old_pn in
  if is_unicast then
    if decide (opmode = wlan_op_mode_ap) then pn_is_replay || negb (Z.land (pn128_0 new_pn) 1 =? 0)
    else pn_is_replay || negb (Z.land (pn128_0 new_pn) 1 =? 1)
  else pn_is_replay.

(** ** State *)

Inductive htt_sec_type :=
  | htt_sec_type_none | htt_sec_type_wep128 | htt_sec_type_wep104 | htt_sec_type_wep40
  | htt_sec_type_tkip | htt_sec_type_tkip_nomic | htt_sec_type_aes_ccmp | htt_sec_type_wapi.

(** [pdev->rx_pn[sec_type]] as [ol_txrx_pdev_attach] sets it: length and comparison. *)
Definition rx_pn_len (sec : htt_sec_type) : Z :=
  match sec with
  | htt_sec_type_tkip | htt_sec_type_tkip_nomic | htt_sec_type_aes_ccmp => 48
  | htt_sec_type_wapi => 128
  | _ => 0
  end.
Definition pn_cmp := htt_rx_pn_t -> htt_rx_pn_t -> bool -> wlan_op_mode -> bool.
Definition rx_pn_cmp (sec : htt_sec_type) : option pn_cmp :=
  match sec with
  | htt_sec_type_tkip | htt_sec_type_tkip_nomic | htt_sec_type_aes_ccmp => Some ol_rx_pn_cmp48
  | htt_sec_type_wapi => Some ol_rx_pn_wapi_cmp
  | _ => None
  end.

(** [enum pn_replay_type] *)
Definition OL_RX_TKIP_REPLAYS : Z := 0.
Definition OL_RX_CCMP_REPLAYS : Z := 1.
Definition OL_RX_OTHER_REPLAYS : Z := 2.
Definition replay_type (sec : htt_sec_type) : Z :=
  match sec with
  | htt_sec_type_tkip | htt_sec_type_tkip_nomic => OL_RX_TKIP_REPLAYS
  | htt_sec_type_aes_ccmp => OL_RX_CCMP_REPLAYS
  | _ => OL_RX_OTHER_REPLAYS
  end.

Definition txrx_sec_mcast : nat := 0.
Definition txrx_sec_ucast : nat := 1.

(** The members of the peer and the physical device the check works on, with the buffers.
    [rx_errs] are the [(tid, mpdu)] reported by [ol_rx_err], latest first. *)
Record pn_state (D : Type) := {
  pn_bufs : gmap Z (nbuf D);
  fw_pn_check : Z;
  security : list htt_sec_type;
  tids_last_pn : list htt_rx_pn_t;
  tids_last_pn_valid : list Z;
  pn_replays : list Z;
  rx_errs : list (Z * Z)
}.
Arguments pn_bufs {D}.
Arguments fw_pn_check {D}.
Arguments security {D}.
Arguments tids_last_pn {D}.
Arguments tids_last_pn_valid {D}.
Arguments pn_replays {D}.
Arguments rx_errs {D}.

Section Ops.
Context {D : Type} `{RD : RxDescOps D}.
#[local] Abbreviation ST := (pn_state D).

Definition set_pn_bufs (h : gmap Z (nbuf D)) (s : ST) : ST :=
  {| pn_bufs := h; fw_pn_check := fw_pn_check s; security := security s;
     tids_last_pn := tids_last_pn s; tids_last_pn_valid := tids_last_pn_valid s;
     pn_replays := pn_replays s; rx_errs := rx_errs s |}.
Definition set_last_pn (v : list htt_rx_pn_t) (s : ST) : ST :=
  {| pn_bufs := pn_bufs s; fw_pn_check := fw_pn_check s; security := security s;
     tids_last_pn := v; tids_last_pn_valid := tids_last_pn_valid s;
     pn_replays := pn_replays s; rx_errs := rx_errs s |}.
Definition set_valid (v : list Z) (s : ST) : ST :=
  {| pn_bufs := pn_bufs s; fw_pn_check := fw_pn_check s; security := security s;
     tids_last_pn := tids_last_pn s; tids_last_pn_valid := v;
     pn_replays := pn_replays s; rx_errs := rx_errs s |}.
Definition set_replays (v : list Z) (s : ST) : ST :=
  {| pn_bufs := pn_bufs s; fw_pn_check := fw_pn_check s; security := security s;
     tids_last_pn := tids_last_pn s; tids_last_pn_valid := tids_last_pn_valid s;
     pn_replays := v; rx_errs := rx_errs s |}.
Definition add_err (e : Z * Z) (s : ST) : ST :=
  {| pn_bufs := pn_bufs s; fw_pn_check := fw_pn_check s; security := security s;
     tids_last_pn := tids_last_pn s; tids_last_pn_valid := tids_last_pn_valid s;
     pn_replays := pn_replays s; rx_errs := e :: rx_errs s |}.

#[export] Instance pn_store : NbufStore ST D.
Proof. by refine {| nbufs := pn_bufs; set_nbufs := set_pn_bufs |}; [| |intros []]. Defined.

(** Build options: host statistics read the descriptor of a rejected MPDU again for every
    MSDU of it.  [stack_pn m] is what the uninitialised local [new_pn] holds at MPDU [m]. *)
Variables (SUPPORT_HOST_STATISTICS : bool) (stack_pn : Z -> htt_rx_pn_t) (opmode : wlan_op_mode).

(** [OL_RX_ERR_STATISTICS_1], for the descriptor of [mpdu]: it reads the multicast bit *)
Definition OL_RX_ERR_STATISTICS_1 (mpdu : Z) : M ST unit :=
  if SUPPORT_HOST_STATISTICS then
    d <- htt_rx_msdu_desc_retrieve mpdu ;;
    s <- mget ;;
    _ <- oget (security s !! (if rx_is_mcast d then txrx_sec_mcast else txrx_sec_ucast)) ;;
    mreturn tt
  else mreturn tt.

(** The loop that frees the MSDUs of a rejected MPDU. *)
Definition free_mpdu (rtype mpdu mpdu_tail : Z) : M ST unit :=
  fuel <- nb_fuel ;;
  miter fuel (fun msdu =>
    OL_RX_ERR_STATISTICS_1 mpdu ;;
    next_msdu <- adf_nbuf_next msdu ;;
    htt_rx_desc_frame_free msdu ;;
    s <- mget ;;
    n <- oget (aget (pn_replays s) rtype) ;;
    v <- oget (aset (pn_replays s) rtype (u32 (n + 1))) ;;
    modify (set_replays v) ;;
    if msdu =? mpdu_tail then mreturn (inr tt) else mreturn (inl next_msdu)) mpdu.

(** The locals of the loop over MPDUs. *)
Record locals := { mpdu_ : Z; head_ : Z; tail_ : Z; valid_ : Z }.

(** One round of the loop for a non-null [mpdu]. *)
Definition check_mpdu (tid : Z) (sec : htt_sec_type) (is_ucast : bool) (l : locals) : M ST locals :=
  let mpdu := mpdu_ l in
  rx_desc <- htt_rx_msdu_desc_retrieve mpdu ;;
  tn <- ol_rx_mpdu_list_next mpdu ;;
  encrypted <- oget (rx_is_encrypted rx_desc) ;;
  if negb encrypted then
    ht <- ADD_MPDU_TO_LIST (head_ l) (tail_ l) mpdu tn.1 ;;
    mreturn {| mpdu_ := tn.2; head_ := ht.1; tail_ := ht.2; valid_ := valid_ l |}
  else
    new_pn <- oget (rx_pn rx_desc (rx_pn_len sec) (stack_pn mpdu)) ;;
    s <- mget ;;
    last_pn <- oget (aget (tids_last_pn s) tid) ;;
    cmp <- oget (rx_pn_cmp sec) ;;
    valid <-
      (if negb (valid_ l =? 0) then mreturn (valid_ l)
       else v <- oget (aset (tids_last_pn_valid s) tid 1) ;; modify (set_valid v) ;; mreturn 1) ;;
    let pn_is_replay := if negb (valid_ l =? 0) then cmp new_pn last_pn is_ucast opmode else false in
    if pn_is_replay then
      modify (add_err (tid, mpdu)) ;;
      free_mpdu (replay_type sec) mpdu tn.1 ;;
      mreturn {| mpdu_ := tn.2; head_ := head_ l; tail_ := tail_ l; valid_ := valid |}
    else
      ht <- ADD_MPDU_TO_LIST (head_ l) (tail_ l) mpdu tn.1 ;;
      s <- mget ;;
      v <- oget (aset (tids_last_pn s) tid new_pn) ;;
      modify (set_last_pn v) ;;
      mreturn {| mpdu_ := tn.2; head_ := ht.1; tail_ := ht.2; valid_ := valid |}.

Definition ol_rx_pn_check_base (tid msdu_list : Z) : M ST Z :=
  s <- mget ;;
  if negb (fw_pn_check s =? 0) || bool_decide (opmode = wlan_op_mode_ibss) then mreturn msdu_list
  else
    rx_desc <- htt_rx_msdu_desc_retrieve msdu_list ;;
    massert (rx_has_mcast_flag rx_desc) ;;
    let index := if rx_is_mcast rx_desc then txrx_sec_mcast else txrx_sec_ucast in
    sec <- oget (security s !! index) ;;
    if rx_pn_len sec =? 0 then mreturn msdu_list
    else
      last_pn_valid <- oget (aget (tids_last_pn_valid s) tid) ;;
      fuel <- nb_fuel ;;
      out <- miter fuel (fun l =>
        if mpdu_ l =? 0 then mreturn (inr (head_ l, tail_ l))
        else l' <- check_mpdu tid sec (bool_decide (index = txrx_sec_ucast)) l ;; mreturn (inl l'))
        {| mpdu_ := msdu_list; head_ := 0; tail_ := 0; valid_ := last_pn_valid |} ;;
      (if negb (out.2 =? 0) then adf_nbuf_set_next out.2 0 else mreturn tt) ;;
      mreturn out.1.

(** [ol_rx_pn_check] and [ol_rx_pn_check_only] hand the list to the next stage, which is the
    forwarding check or the delivery to the OS. *)
Definition ol_rx_pn_check (ol_rx_fwd_check : Z -> Z -> M ST unit) (tid msdu_list : Z) : M ST unit :=
  msdu_list <- ol_rx_pn_check_base tid msdu_list ;; ol_rx_fwd_check tid msdu_list.
Definition ol_rx_pn_check_only (ol_rx_deliver : Z -> Z -> M ST unit) (tid msdu_list : Z) : M ST unit :=
  msdu_list <- ol_rx_pn_check_base tid msdu_list ;; ol_rx_deliver tid msdu_list.
End Ops.

(** ** The abstract replay filter *)

Section Filter.
(** The packet number of an MPDU, by its first MSDU ([None]: it is not encrypted), and
    whether a number is a replay after another. *)
Variables (num : Z -> option htt_rx_pn_t) (replay : htt_rx_pn_t -> htt_rx_pn_t -> bool).

Record verdict := { kept : list (list Z); dropped : list (list Z); last_num : option htt_rx_pn_t }.

Definition is_replay (last : option htt_rx_pn_t) (pn : htt_rx_pn_t) : bool :=
  match last with Some old => replay pn old | None => false end.

Fixpoint pn_filter (last : option htt_rx_pn_t) (ms : list (list Z)) : verdict :=
  match ms with
  | [] => {| kept := []; dropped := []; last_num := last |}
  | m :: ms =>
      match num (hd 0 m) with
      | None =>
          let v := pn_filter last ms in
          {| kept := m :: kept v; dropped := dropped v; last_num := last_num v |}
      | Some pn =>
          if is_replay last pn then
            let v := pn_filter last ms in
            {| kept := kept v; dropped := m :: dropped v; last_num := last_num v |}
          else
            let v := pn_filter (Some pn) ms in
            {| kept := m :: kept v; dropped := dropped v; last_num := last_num v |}
      end
  end.

(** The numbers of the encrypted MPDUs of a list. *)
Definition nums (ms : list (list Z)) : list htt_rx_pn_t := omap (fun m => num (hd 0 m)) ms.

(** Accepted numbers increase in every transitive order that non-replays respect. *)
Lemma pn_filter_sorted (R : relation htt_rx_pn_t) `{!Transitive R} last ms :
  (forall new old, replay new old = false -> R old new) ->
  StronglySorted R (option_list last ++ nums (kept (pn_filter last ms))).
Proof.
  intros HR. revert last. induction ms as [|m ms IH]; intros last; cbn.
  - destruct last; repeat constructor.
  - destruct (num (hd 0 m)) as [pn|] eqn:Hn.
    + destruct (is_replay last pn) eqn:Hr; cbn; [apply IH|]. unfold nums. cbn. rewrite Hn. cbn.
      specialize (IH (Some pn)). cbn in IH. destruct last as [old|]; cbn; [|done].
      constructor; [done|]. apply HR in Hr. inversion_clear IH as [|?? _ Hall]. constructor; [done|].
      eapply Forall_impl; [done|]. intros x Hx. by etrans.
    + cbn. unfold nums. cbn. rewrite Hn. apply IH.
Qed.

Lemma pn_filter_perm last ms :
  concat (kept (pn_filter last ms)) ++ concat (dropped (pn_filter last ms)) ≡ₚ concat ms.
Proof.
  revert last. induction ms as [|m ms IH]; intros last; cbn; [done|].
  destruct (num (hd 0 m)) as [pn|]; [destruct (is_replay last pn)|]; cbn.
  - rewrite <- (IH last). by rewrite (app_assoc _ m), (Permutation_app_comm _ m), <- app_assoc.
  - by rewrite <- (IH (Some pn)), app_assoc.
  - by rewrite <- (IH last), app_assoc.
Qed.

Lemma pn_filter_sublist last ms : kept (pn_filter last ms) `sublist_of` ms.
Proof.
  revert last. induction ms as [|m ms IH]; intros last; cbn; [done|].
  destruct (num (hd 0 m)) as [pn|]; [destruct (is_replay last pn)|]; cbn.
  - by apply sublist_cons.
  - by apply sublist_skip.
  - by apply sublist_skip.
Qed.

Lemma pn_filter_app last ms1 ms2 :
  pn_filter last (ms1 ++ ms2) =
    let v1 := pn_filter last ms1 in
    let v2 := pn_filter (last_num v1) ms2 in
    {| kept := kept v1 ++ kept v2; dropped := dropped v1 ++ dropped v2; last_num := last_num v2 |}.
Proof.
  revert last. induction ms1 as [|m ms1 IH]; intros last; cbn.
  - by destruct (pn_filter last ms2).
  - destruct (num (hd 0 m)) as [pn|]; [destruct (is_replay last pn)|]; by rewrite IH.
Qed.
End Filter.

Section Specs.
Context {D : Type} `{RD : RxDescOps D}.
Variables (stack_pn : Z -> htt_rx_pn_t) (opmode : wlan_op_mode).
#[local] Abbreviation ST := (pn_state D).
Implicit Types s : ST.

(** [pn_replays[rtype]] goes up by [n]. *)
Definition bump (rtype n : Z) (l : list Z) : list Z :=
  alter (fun c => u32 (c + n)) (Z.to_nat rtype) l.

Lemma bump_bump rtype n m l : bump rtype n (bump rtype m l) = bump rtype (m + n) l.
Proof.
  unfold bump. rewrite list_alter_alter_eq. apply list_alter_ext; [|done].
  intros c _. cbn. unfold u32. rewrite Zplus_mod_idemp_l. f_equal. lia.
Qed.
Lemma aset_bump rtype l c : aget l rtype = Some c -> aset l rtype (u32 (c + 1)) = Some (bump rtype 1 l).
Proof.
  intros Hc. pose proof (aget_Some_range _ _ _ Hc) as Hr. rewrite aset_Some by done. f_equal.
  unfold bump. rewrite aget_lookup in Hc by lia. symmetry. apply list_eq. intros i.
  destruct (decide (i = Z.to_nat rtype)) as [->|Hne].
  - rewrite list_lookup_alter_eq, Hc, list_lookup_insert_eq by lia. done.
  - by rewrite list_lookup_alter_ne, list_lookup_insert_ne by done.
Qed.
Lemma length_bump rtype n l : length (bump rtype n l) = length l.
Proof. apply length_alter. Qed.

Lemma free_mpdu_loop s rtype t p m q fuel mpdu :
  lseg (pn_bufs s) p (m ++ [t]) q -> NoDup (m ++ [t]) ->
  0 <= rtype < Z.of_nat (length (pn_replays s)) -> (length m < fuel)%nat ->
  runs (miter fuel (fun msdu =>
    OL_RX_ERR_STATISTICS_1 false mpdu ;;
    next_msdu <- adf_nbuf_next msdu ;;
    htt_rx_desc_frame_free msdu ;;
    s <- mget ;;
    n <- oget (aget (pn_replays s) rtype) ;;
    v <- oget (aset (pn_replays s) rtype (u32 (n + 1))) ;;
    modify (set_replays v) ;;
    if msdu =? t then mreturn (inr tt) else mreturn (inl next_msdu)) p) s (fun _ s' =>
    exists nb', s' = set_replays (bump rtype (Z.of_nat (length (m ++ [t]))) (pn_replays s)) (set_pn_bufs nb' s) /\
      (forall x, x ∈ m ++ [t] -> nb' !! x = None) /\
      (forall x, x ∉ m ++ [t] -> nb' !! x = pn_bufs s !! x)).
Proof.
  revert s p fuel. induction m as [|x m IH]; intros s p [|fuel] Hl Hnd Hr Hf; cbn in Hf; try lia.
  - destruct Hl as (-> & Hne & b & Hb & Hl). cbn [miter]. unfold OL_RX_ERR_STATISTICS_1. msteps.
    eapply (runs_adf_nbuf_next (S:=ST)); [exact Hb|]. mstep.
    apply (runs_free (S:=ST)); [by eexists|]. msteps.
    destruct (aget_is_Some _ _ Hr) as [c Hc]. eapply runs_oget; [exact Hc|]. msteps.
    eapply runs_oget; [by apply aset_bump|]. msteps. rewrite Z.eqb_refl. mstep. mstep.
    exists (delete t (pn_bufs s)). split_and!; [done| |].
    + intros y ->%list_elem_of_singleton. by rewrite lookup_delete_eq.
    + intros y Hy. rewrite lookup_delete_ne by set_solver. done.
  - destruct Hl as (-> & Hne & b & Hb & Hl). cbn [miter]. unfold OL_RX_ERR_STATISTICS_1. msteps.
    eapply (runs_adf_nbuf_next (S:=ST)); [exact Hb|]. mstep.
    apply (runs_free (S:=ST)); [by eexists|]. msteps.
    destruct (aget_is_Some _ _ Hr) as [c Hc]. eapply runs_oget; [exact Hc|]. msteps.
    eapply runs_oget; [by apply aset_bump|]. msteps.
    apply NoDup_cons in Hnd as [Hx Hnd].
    rewrite (proj2 (Z.eqb_neq x t)) by set_solver. mstep.
    eapply runs_mono.
    { apply IH; [|done|cbn; by rewrite length_bump|lia]. cbn.
      eapply lseg_frame; [exact Hl|]. intros y Hy. rewrite lookup_delete_ne by set_solver. done. }
    intros [] s' (nb' & -> & Hin & Hout). exists nb'. split_and!.
    + cbn. rewrite bump_bump. unfold set_replays, set_pn_bufs. cbn. do 2 f_equal. rewrite length_app. cbn. lia.
    + intros y [->|Hy]%elem_of_cons; [|by apply Hin]. rewrite Hout by done. cbn. by rewrite lookup_delete_eq.
    + intros y Hy. rewrite Hout by set_solver. cbn. rewrite lookup_delete_ne by set_solver. done.
Qed.

Lemma free_mpdu_spec s rtype p m q :
  lseg (pn_bufs s) p m q -> m <> [] -> NoDup m -> 0 <= rtype < Z.of_nat (length (pn_replays s)) ->
  runs (free_mpdu false rtype p (default 0 (last m))) s (fun _ s' =>
    exists nb', s' = set_replays (bump rtype (Z.of_nat (length m)) (pn_replays s)) (set_pn_bufs nb' s) /\
      (forall x, x ∈ m -> nb' !! x = None) /\ (forall x, x ∉ m -> nb' !! x = pn_bufs s !! x)).
Proof.
  intros Hl Hne Hnd Hr. destruct m as [|t m _] using rev_ind; [done|]. rewrite last_snoc.
  unfold free_mpdu, nb_fuel. mstep. mstep. eapply free_mpdu_loop; [done..|].
  pose proof (lseg_size _ _ _ _ Hl Hnd) as Hsz. rewrite length_app in Hsz. cbn in *. lia.
Qed.

(** ** One round of the loop *)

Section Round.
Variables (tid : Z) (sec : htt_sec_type) (is_ucast : bool) (cmp : pn_cmp).
Hypothesis Hcmp : rx_pn_cmp sec = Some cmp.

(** The descriptors as they are when the check starts. *)
Variable nb0 : gmap Z (nbuf D).

(** The packet number of the MPDU that starts at [m]. *)
Definition mpdu_num (m : Z) : option htt_rx_pn_t :=
  nb0 !! m ≫= fun b => rx_is_encrypted (nb_desc b) ≫= fun e : bool =>
  if e then rx_pn (nb_desc b) (rx_pn_len sec) (stack_pn m) else None.
Definition judge (ms : list (list Z)) (last : option htt_rx_pn_t) : verdict :=
  pn_filter mpdu_num (fun new old => cmp new old is_ucast opmode) last ms.

(** The descriptor of an MPDU answers: encrypted or not, and the number if it is. *)
Definition desc_ok (m : Z) : Prop :=
  exists b, nb0 !! m = Some b /\
    (rx_is_encrypted (nb_desc b) = Some false \/
     (rx_is_encrypted (nb_desc b) = Some true /\
      is_Some (rx_pn (nb_desc b) (rx_pn_len sec) (stack_pn m)))).

(** The peer's memory of the last number, and the counters. *)
Record pn_inv s (valid : Z) (last : option htt_rx_pn_t) : Prop := {
  inv_valid : aget (tids_last_pn_valid s) tid = Some valid;
  inv_last : match last with
             | Some pn => valid <> 0 /\ aget (tids_last_pn s) tid = Some pn
             | None => valid = 0 /\ is_Some (aget (tids_last_pn s) tid)
             end;
  inv_replays : length (pn_replays s) = 3%nat /\ Forall (fun c => 0 <= c < 2 ^ 32) (pn_replays s)
}.

(** What the check does besides relinking the buffers [X]. *)
Record pn_post (X : list Z) (v : verdict) s s' : Prop := {
  post_dropped : forall x, x ∈ concat (dropped v) -> pn_bufs s' !! x = None;
  post_kept : forall x, x ∉ concat (dropped v) -> nb_desc <$> pn_bufs s' !! x = nb_desc <$> pn_bufs s !! x;
  post_other : forall x, x ∉ X -> pn_bufs s' !! x = pn_bufs s !! x;
  post_replays : pn_replays s' = bump (replay_type sec) (Z.of_nat (length (concat (dropped v)))) (pn_replays s);
  post_errs : rx_errs s' = reverse ((fun m => (tid, hd 0 m)) <$> dropped v) ++ rx_errs s;
  post_conf : fw_pn_check s' = fw_pn_check s /\ security s' = security s;
  post_tids : forall t, t <> tid -> aget (tids_last_pn s') t = aget (tids_last_pn s) t /\
    aget (tids_last_pn_valid s') t = aget (tids_last_pn_valid s) t
}.

Lemma bump_0 rtype l : Forall (fun c => 0 <= c < 2 ^ 32) l -> bump rtype 0 l = l.
Proof.
  intros Hl. unfold bump. apply list_eq. intros i.
  destruct (decide (i = Z.to_nat rtype)) as [->|Hne]; [|by rewrite list_lookup_alter_ne].
  rewrite list_lookup_alter_eq. destruct (l !! Z.to_nat rtype) as [c|] eqn:Hc; cbn; [|done].
  f_equal. rewrite Z.add_0_r. apply u32_small. rewrite Forall_lookup in Hl. by apply Hl in Hc.
Qed.
Lemma bump_range rtype n l :
  Forall (fun c => 0 <= c < 2 ^ 32) l -> Forall (fun c => 0 <= c < 2 ^ 32) (bump rtype n l).
Proof.
  intros Hl. apply Forall_alter; [done|]. intros c _ _. apply u32_range.
Qed.

(** A round that changes nothing but links. *)
Lemma pn_post_relink X v nb' s :
  dropped v = [] -> relinked X (pn_bufs s) nb' -> Forall (fun c => 0 <= c < 2 ^ 32) (pn_replays s) ->
  pn_post X v s (set_pn_bufs nb' s).
Proof.
  intros Hd [Hdesc Ho] Hr. split; rewrite ?Hd; cbn; try done; [set_solver|by rewrite bump_0].
Qed.

Lemma pn_post_trans X Y v1 v2 v s s1 s2 :
  pn_post X v1 s s1 -> pn_post Y v2 s1 s2 ->
  dropped v = dropped v1 ++ dropped v2 -> (forall x, x ∈ concat (dropped v1) -> x ∉ Y) ->
  pn_post (X ++ Y) v s s2.
Proof.
  intros H1 H2 Hd Hdis. split; rewrite ?Hd, ?concat_app.
  - intros x [Hx|Hx]%elem_of_app; [|by apply H2]. rewrite (post_other _ _ _ _ H2) by by apply Hdis. by apply H1.
  - intros x Hx. rewrite (post_kept _ _ _ _ H2), (post_kept _ _ _ _ H1) by set_solver. done.
  - intros x Hx. rewrite (post_other _ _ _ _ H2), (post_other _ _ _ _ H1) by set_solver. done.
  - rewrite (post_replays _ _ _ _ H2), (post_replays _ _ _ _ H1), bump_bump, length_app. f_equal. lia.
  - rewrite (post_errs _ _ _ _ H2), (post_errs _ _ _ _ H1), fmap_app, reverse_app. by rewrite app_assoc.
  - destruct (post_conf _ _ _ _ H1) as [<- <-]. apply H2.
  - intros t Ht. destruct (post_tids _ _ _ _ H1 t Ht) as [<- <-]. by apply H2.
Qed.

(** The loop's state: [done] is linked up to [tail_], [mpdu_] leads to the MPDUs [ms]. *)
Record round_pre (done : list Z) (ms : list (list Z)) (last : option htt_rx_pn_t) (l : locals) s : Prop := {
  rp_inv : pn_inv s (valid_ l) last;
  rp_out : open_list (pn_bufs s) (head_ l) (tail_ l) done;
  rp_tail : done = [] -> tail_ l = 0;
  rp_in : lseg (pn_bufs s) (mpdu_ l) (concat ms) 0;
  rp_nodup : NoDup (done ++ concat ms);
  rp_mpdus : mpdus (completes nb0) (concat ms) = ms;
  rp_desc : forall x, x ∈ concat ms -> nb_desc <$> pn_bufs s !! x = nb_desc <$> nb0 !! x
}.

Lemma completes_desc (nb nb' : gmap Z (nbuf D)) x :
  nb_desc <$> nb !! x = nb_desc <$> nb' !! x -> completes nb x = completes nb' x.
Proof. unfold completes. intros Hx. destruct (nb !! x), (nb' !! x); cbn in Hx; congruence. Qed.

Lemma round_next done m ms last l s :
  round_pre done (m :: ms) last l s ->
  ol_rx_mpdu_list_next (mpdu_ l) s
  = Some ((default 0 (list.last m), default 0 (head (concat ms))), s).
Proof.
  intros [Hi Ho Ht0 Hl Hnd Hm Hd]. eapply (ol_rx_mpdu_list_next_spec (S:=ST)); [exact Hl| |].
  - by apply NoDup_app in Hnd as (_ & _ & ?).
  - etrans; [|exact Hm]. apply mpdus_ext. intros x Hx. apply completes_desc. by apply Hd.
Qed.

Lemma round_rest done m ms last l s : round_pre done (m :: ms) last l s ->
  m <> [] /\ mpdus (completes nb0) (concat ms) = ms /\ mpdu_ l = hd 0 m /\
  exists r, lseg (pn_bufs s) (mpdu_ l) m r /\ lseg (pn_bufs s) r (concat ms) 0.
Proof.
  intros [Hi Ho Ht0 Hl Hnd Hm Hd]. destruct (mpdus_cons _ _ _ _ Hm) as (m' & t & Hmt & _ & _ & Hms & _).
  cbn in Hl. apply lseg_app in Hl as (r & Hl1 & Hl2). split_and!; [by destruct m', m|done| |by exists r].
  destruct m as [|x m]; [by destruct m'|]. by destruct Hl1 as (-> & _).
Qed.

(** A round that keeps the MPDU. *)
Lemma round_keep done m ms last last' l s valid' lp va :
  round_pre done (m :: ms) last l s ->
  (forall s', pn_inv s' (valid_ l) last -> tids_last_pn_valid s' = tids_last_pn_valid s ->
     tids_last_pn s' = tids_last_pn s -> pn_inv (set_last_pn lp (set_valid va s')) valid' last') ->
  (forall t, t <> tid -> aget lp t = aget (tids_last_pn s) t /\ aget va t = aget (tids_last_pn_valid s) t) ->
  runs (ADD_MPDU_TO_LIST (head_ l) (tail_ l) (mpdu_ l) (default 0 (list.last m))) (set_valid va s) (fun ht s' =>
    exists nb', s' = set_pn_bufs nb' (set_valid va s) /\
    let l' := {| mpdu_ := default 0 (head (concat ms)); head_ := ht.1; tail_ := ht.2; valid_ := valid' |} in
    let s2 := set_last_pn lp (set_valid va (set_pn_bufs nb' s)) in
    round_pre (done ++ m) ms last' l' s2 /\
    pn_post done {| kept := [m]; dropped := []; last_num := last' |} s s2).
Proof.
  intros Hp Hinv Ht. destruct (round_rest _ _ _ _ _ _ Hp) as (Hne & Hms & _ & r & Hl1 & Hl2).
  destruct Hp as [Hi Ho Ht0 Hl Hnd Hm Hd]. cbn in Hnd, Hd. rewrite app_assoc in Hnd.
  pose proof Hnd as (Hnd1 & Hdis & Hnd2)%NoDup_app.
  eapply runs_mono; [by eapply (ADD_MPDU_TO_LIST_spec (S:=ST))|].
  intros [h t] s' (nb' & -> & Hrel & Hopen). exists nb'. split; [done|]. cbn. split.
  - split; cbn; try done.
    + apply Hinv; [|done..]. by destruct Hi.
    + intros [_ ->]%app_nil. done.
    + rewrite <- (lseg_head _ _ _ Hl2). eapply relinked_lseg; [exact Hrel| |exact Hl2].
      intros x Hx Hx'. apply (Hdis x); set_solver.
    + intros x Hx. destruct Hrel as [Hdesc _]. cbn in Hdesc. rewrite Hdesc. apply Hd. set_solver.
  - destruct (pn_post_relink done {| kept := [m]; dropped := []; last_num := last' |} nb' s eq_refl Hrel
      (proj2 (inv_replays _ _ _ Hi))) as [H1 H2 H3 H4 H5 H6 H7]. by split.
Qed.

(** A round that drops it. *)
Lemma round_drop done m ms last l s errs :
  round_pre done (m :: ms) last l s -> errs = (tid, hd 0 m) :: rx_errs s ->
  runs (free_mpdu false (replay_type sec) (mpdu_ l) (default 0 (list.last m))) (add_err (tid, mpdu_ l) s)
    (fun _ s' =>
      let l' := {| mpdu_ := default 0 (head (concat ms)); head_ := head_ l; tail_ := tail_ l; valid_ := valid_ l |} in
      round_pre done ms last l' s' /\
      pn_post m {| kept := []; dropped := [m]; last_num := last |} s s').
Proof.
  intros Hp ->. destruct (round_rest _ _ _ _ _ _ Hp) as (Hne & Hms & Hhd & r & Hl1 & Hl2).
  destruct Hp as [Hi Ho Ht0 Hl Hnd Hm Hd]. cbn in Hnd, Hd.
  pose proof Hnd as (Hnd1 & Hdis & Hnd2)%NoDup_app. pose proof Hnd2 as (Hndm & Hdis2 & Hndr)%NoDup_app.
  eapply runs_mono.
  { eapply free_mpdu_spec; [exact Hl1|done|done|]. cbn.
    rewrite (proj1 (inv_replays _ _ _ Hi)). by destruct sec. }
  intros [] s' (nb' & -> & Hin & Hout). cbn in Hout. cbn. split.
  - split; cbn; try done.
    + destruct Hi as [Hv Hla [Hlen Hr]]. split; cbn; [done|done|]. rewrite length_bump. split; [done|by apply bump_range].
    + eapply open_list_frame; [exact Ho|]. intros x Hx. rewrite Hout; [done|]. set_solver.
    + rewrite <- (lseg_head _ _ _ Hl2). eapply lseg_frame; [exact Hl2|]. intros x Hx. rewrite Hout; [done|]. set_solver.
    + apply NoDup_app. split_and!; [done| |done]. set_solver.
    + intros x Hx. rewrite Hout by set_solver. apply Hd. set_solver.
  - split; cbn; rewrite ?app_nil_r; try done.
    + intros x Hx. by rewrite Hout.
    + by rewrite Hhd.
Qed.

Lemma pn_post_mono X Y v s s' : X ⊆ Y -> pn_post X v s s' -> pn_post Y v s s'.
Proof. intros HXY [H1 H2 H3 H4 H5 H6 H7]. split; try done. intros x Hx. apply H3. set_solver. Qed.

Lemma judge_plain m last : mpdu_num (hd 0 m) = None ->
  judge [m] last = {| kept := [m]; dropped := []; last_num := last |}.
Proof. unfold judge. cbn. by intros ->. Qed.
Lemma judge_number m last pn : mpdu_num (hd 0 m) = Some pn ->
  judge [m] last =
    if is_replay (fun new old => cmp new old is_ucast opmode) last pn
    then {| kept := []; dropped := [m]; last_num := last |}
    else {| kept := [m]; dropped := []; last_num := Some pn |}.
Proof. unfold judge. cbn. by intros ->. Qed.

(** Writing the number of an accepted MPDU, and the valid flag if it was clear. *)
Lemma accept_inv s valid last pn lp va :
  aset (tids_last_pn s) tid pn = Some lp ->
  (if valid =? 0 then aset (tids_last_pn_valid s) tid 1 = Some va else va = tids_last_pn_valid s) ->
  forall s', pn_inv s' valid last -> tids_last_pn_valid s' = tids_last_pn_valid s ->
    tids_last_pn s' = tids_last_pn s ->
    pn_inv (set_last_pn lp (set_valid va s')) (if valid =? 0 then 1 else valid) (Some pn).
Proof.
  intros Hlp Hva s' [Hv Hl Hr] Hev Hel. split; cbn; [| |done].
  - destruct (valid =? 0); [by eapply aget_aset_eq|]. subst va. by rewrite <- Hev.
  - split; [|by eapply aget_aset_eq]. by destruct (Z.eqb_spec valid 0).
Qed.

Lemma check_mpdu_spec done m ms last l s :
  round_pre done (m :: ms) last l s -> desc_ok (hd 0 m) ->
  runs (check_mpdu false stack_pn opmode tid sec is_ucast l) s (fun l' s' =>
    let v := judge [m] last in
    round_pre (done ++ concat (kept v)) ms (last_num v) l' s' /\ pn_post (done ++ m) v s s').
Proof.
  intros Hp (b0 & Hb0 & Hdec). destruct (round_rest _ _ _ _ _ _ Hp) as (Hne & Hms & Hhd & r & Hl1 & Hl2).
  assert (Hin : hd 0 m ∈ m) by (destruct m; [done|cbn; set_solver]).
  pose proof (rp_desc _ _ _ _ _ Hp (hd 0 m) ltac:(cbn; set_solver)) as Hdesc.
  rewrite Hb0 in Hdesc. apply fmap_Some in Hdesc as (b & Hb & Hbb). rewrite <- Hhd in Hb.
  pose proof (round_next _ _ _ _ _ _ Hp) as Hnext. unfold check_mpdu.
  mstep. eapply (runs_desc (S:=ST)); [exact Hb|]. mstep.
  eapply runs_intro; [exact Hnext|]. cbn beta. mstep. rewrite <- Hbb. cbn [fst snd].
  pose proof (rp_inv _ _ _ _ _ Hp) as [Hv Hla Hrep].
  assert (Hnum : forall e, rx_is_encrypted (nb_desc b0) = Some e -> mpdu_num (hd 0 m) =
    if e then rx_pn (nb_desc b0) (rx_pn_len sec) (stack_pn (hd 0 m)) else None).
  { intros e He. unfold mpdu_num. rewrite Hb0. cbn. by rewrite He. }
  destruct Hdec as [He|(He & pn & Hpn)].
  - eapply runs_oget; [exact He|]. cbn [negb]. cbv beta. mstep.
    rewrite judge_plain by by rewrite (Hnum _ He).
    assert (Hs : set_valid (tids_last_pn_valid s) s = s) by by destruct s.
    pose proof (round_keep done m ms last last l s (valid_ l) (tids_last_pn s) (tids_last_pn_valid s) Hp) as Hk.
    rewrite Hs in Hk. eapply runs_mono.
    { apply Hk; [|done]. intros s' [] Hev Hel. split; cbn; rewrite ?Hev, ?Hel in *; done. }
    intros ht s' (nb' & -> & Hnext' & Hpost). mstep. cbn. rewrite app_nil_r.
    split; [exact Hnext'|]. eapply pn_post_mono; [|exact Hpost]. set_solver.
  - eapply runs_oget; [exact He|]. cbn [negb]. cbv beta. mstep.
    rewrite <- Hhd in Hpn. eapply runs_oget; [exact Hpn|]. do 3 mstep.
    rewrite Hhd in Hpn. rewrite (judge_number _ _ pn) by by rewrite (Hnum _ He).
    assert (Hlast : exists old, aget (tids_last_pn s) tid = Some old /\
      (forall o, last = Some o -> o = old)).
    { destruct last as [o|]; [exists o; split; [apply Hla|congruence]|].
      destruct Hla as [_ [o Ho]]. exists o. by split. }
    destruct Hlast as (old & Hold & Heq). eapply runs_oget; [exact Hold|]. mstep.
    eapply runs_oget; [exact Hcmp|]. mstep.
    pose proof (aset_Some (tids_last_pn s) tid pn (aget_Some_range _ _ _ Hold)) as Hlp.
    pose proof (aset_Some (tids_last_pn_valid s) tid 1 (aget_Some_range _ _ _ Hv)) as Hva.
    set (lp := <[Z.to_nat tid := pn]> (tids_last_pn s)) in *.
    assert (Hother : forall va, (va = tids_last_pn_valid s \/ aset (tids_last_pn_valid s) tid 1 = Some va) ->
      forall t, t <> tid -> aget lp t = aget (tids_last_pn s) t /\ aget va t = aget (tids_last_pn_valid s) t).
    { intros va Hor t Ht. split; [by eapply aget_aset_ne|].
      destruct Hor as [->|Hor]; [done|by eapply aget_aset_ne]. }
    assert (Hkeep : forall va valid', valid' = (if valid_ l =? 0 then 1 else valid_ l) ->
      (if valid_ l =? 0 then aset (tids_last_pn_valid s) tid 1 = Some va else va = tids_last_pn_valid s) ->
      runs (ht <- ADD_MPDU_TO_LIST (head_ l) (tail_ l) (mpdu_ l) (default 0 (list.last m)) ;;
            s <- mget ;; v <- oget (aset (tids_last_pn s) tid pn) ;; modify (set_last_pn v) ;;
            mreturn {| mpdu_ := default 0 (head (concat ms)); head_ := ht.1; tail_ := ht.2; valid_ := valid' |})
        (set_valid va s) (fun l' s' =>
        let v := {| kept := [m]; dropped := []; last_num := Some pn |} in
        round_pre (done ++ concat (kept v)) ms (last_num v) l' s' /\ pn_post (done ++ m) v s s')).
    { intros va valid' -> Hva'. mstep. eapply runs_mono.
      { eapply (round_keep done m ms last (Some pn) l s _ lp va Hp); [by apply accept_inv|].
        apply Hother. destruct (valid_ l =? 0); [by right|by left]. }
      intros ht s' (nb' & -> & Hnext' & Hpost). do 3 mstep.
      eapply runs_oget; [exact Hlp|]. msteps. cbn. rewrite app_nil_r.
      split; [exact Hnext'|]. eapply pn_post_mono; [|exact Hpost]. set_solver. }
    destruct last as [o|].
    + destruct Hla as [Hv0 Ho]. rewrite (proj2 (Z.eqb_neq _ _) Hv0) in *. cbn [negb]. mstep.
      pose proof (Heq _ eq_refl) as <-. cbn [is_replay]. destruct (cmp pn o is_ucast opmode).
      * do 3 mstep. eapply runs_mono; [by eapply (round_drop done m ms _ l s)|].
        intros [] s' [Hnext' Hpost]. mstep. cbn. rewrite app_nil_r. split; [exact Hnext'|].
        eapply pn_post_mono; [|exact Hpost]. set_solver.
      * assert (Hs : set_valid (tids_last_pn_valid s) s = s) by by destruct s.
        pose proof (Hkeep _ _ eq_refl eq_refl) as Hk. rewrite Hs in Hk. exact Hk.
    + destruct Hla as [Hv0 _]. rewrite Hv0 in *. cbn [negb Z.eqb] in *. mstep.
      eapply runs_oget; [exact Hva|]. do 3 mstep. cbn [is_replay]. by apply Hkeep.
Qed.

Lemma round_null done ms last l s : round_pre done ms last l s -> (mpdu_ l =? 0) = bool_decide (ms = []).
Proof.
  intros Hp. destruct ms as [|m ms].
  - pose proof (rp_in _ _ _ _ _ Hp) as Hl. cbn in Hl. by rewrite Hl.
  - rewrite bool_decide_false by done. apply Z.eqb_neq.
    destruct (round_rest _ _ _ _ _ _ Hp) as (Hne & _ & Hhd & r & Hl1 & _).
    pose proof (lseg_nonnull _ _ _ _ Hl1) as H0. rewrite Hhd. destruct m; [done|]. cbn. set_solver.
Qed.

Definition check_body (l : locals) : M ST (locals + Z * Z) :=
  if mpdu_ l =? 0 then mreturn (inr (head_ l, tail_ l))
  else l' <- check_mpdu false stack_pn opmode tid sec is_ucast l ;; mreturn (inl l').

Lemma check_loop ms done last l s fuel :
  round_pre done ms last l s -> Forall (fun m => desc_ok (hd 0 m)) ms -> (length ms < fuel)%nat ->
  runs (miter fuel check_body l) s (fun out s' =>
    let v := judge ms last in
    open_list (pn_bufs s') out.1 out.2 (done ++ concat (kept v)) /\
    (done ++ concat (kept v) = [] -> out.2 = 0) /\
    pn_post (done ++ concat ms) v s s' /\ exists valid', pn_inv s' valid' (last_num v)).
Proof.
  revert done last l s fuel. induction ms as [|m ms IH]; intros done last l s [|fuel] Hp Hd Hf; cbn in Hf; try lia.
  - cbn [miter]. mstep. unfold check_body. rewrite (round_null _ _ _ _ _ Hp). rewrite bool_decide_true by done.
    do 2 mstep. cbn. rewrite app_nil_r. destruct Hp as [Hi Ho Ht0 Hl Hnd Hm Hdd].
    split_and!; [done|done| |by eexists]. split; cbn; try done; [set_solver|].
    rewrite bump_0; [done|]. by apply Hi.
  - apply Forall_cons in Hd as [Hd Hds]. cbn [miter]. mstep. unfold check_body at 1.
    rewrite (round_null _ _ _ _ _ Hp). rewrite bool_decide_false by done. mstep.
    assert (Hdis : forall x, x ∈ concat (dropped (judge [m] last)) -> x ∉ (done ++ concat (kept (judge [m] last))) ++ concat ms).
    { pose proof (rp_nodup _ _ _ _ _ Hp) as Hnd. cbn in Hnd. intros x Hx.
      pose proof (pn_filter_perm mpdu_num (fun new old => cmp new old is_ucast opmode) last [m]) as Hperm.
      cbn in Hperm. rewrite app_nil_r in Hperm. fold (judge [m] last) in Hperm.
      rewrite <- Hperm in Hnd. rewrite <- app_assoc in Hnd.
      apply NoDup_app in Hnd as (_ & H1 & Hnd). apply NoDup_app in Hnd as (_ & H2 & Hnd).
      apply NoDup_app in Hnd as (_ & H3 & _). set_solver. }
    eapply runs_mono; [by eapply check_mpdu_spec|]. intros l' s1 [Hp1 Hpost1]. mstep.
    eapply runs_mono; [eapply IH; [exact Hp1|done|lia]|]. intros out s2 (Ho & Ht & Hpost2 & Hinv).
    change (m :: ms) with ([m] ++ ms). unfold judge at 1 2 3 4. rewrite pn_filter_app. cbn zeta.
    fold (judge [m] last). fold (judge ms (last_num (judge [m] last))). cbn [kept dropped last_num].
    rewrite concat_app, app_assoc. split_and!; [done|done| |done].
    eapply pn_post_mono; [|eapply pn_post_trans; [exact Hpost1|exact Hpost2|done|exact Hdis]].
    cbn. intros x Hx. pose proof (pn_filter_perm mpdu_num (fun new old => cmp new old is_ucast opmode) last [m]) as Hperm.
    cbn in Hperm. rewrite app_nil_r in Hperm. fold (judge [m] last) in Hperm.
    apply elem_of_app in Hx as [Hx|Hx]; [set_solver|].
    apply elem_of_app in Hx as [Hx|Hx]; [|set_solver]. apply elem_of_app in Hx as [Hx|Hx]; [set_solver|].
    assert (x ∈ m) by (rewrite <- Hperm; set_solver). set_solver.
Qed.
End Round.

(** ** The whole check *)

Lemma pn_post_last tid sec X v s s' nb' : pn_post tid sec X v s s' -> relinked X (pn_bufs s') nb' ->
  pn_post tid sec X v s (set_pn_bufs nb' s').
Proof.
  intros [H1 H2 H3 H4 H5 H6 H7] [Hd Ho]. split; cbn; try done.
  - intros x Hx. specialize (Hd x). rewrite (H1 x Hx) in Hd. by destruct (nb' !! x).
  - intros x Hx. by rewrite Hd, H2.
  - intros x Hx. by rewrite Ho, H3.
Qed.

Lemma judge_perm sec ucast cmp nb ms last :
  concat (kept (judge sec ucast cmp nb ms last)) ++ concat (dropped (judge sec ucast cmp nb ms last)) ≡ₚ concat ms.
Proof. apply pn_filter_perm. Qed.

(** The check applies to the list at [p] with the cipher [sec]. *)
Definition pn_active s (p : Z) (sec : htt_sec_type) (ucast : bool) : Prop :=
  fw_pn_check s = 0 /\ opmode <> wlan_op_mode_ibss /\ rx_pn_len sec <> 0 /\
  exists b, pn_bufs s !! p = Some b /\ rx_has_mcast_flag (nb_desc b) = true /\
    rx_is_mcast (nb_desc b) = negb ucast /\
    security s !! (if ucast then txrx_sec_ucast else txrx_sec_mcast) = Some sec.

Definition the_cmp (sec : htt_sec_type) : pn_cmp :=
  match sec with htt_sec_type_wapi => ol_rx_pn_wapi_cmp | _ => ol_rx_pn_cmp48 end.
Lemma the_cmp_eq sec : rx_pn_len sec <> 0 -> rx_pn_cmp sec = Some (the_cmp sec).
Proof. by destruct sec. Qed.

(** What the replay filter makes of the list [l]. *)
Definition verdict_of s (sec : htt_sec_type) (ucast : bool) (last : option htt_rx_pn_t) (l : list Z) : verdict :=
  judge sec ucast (the_cmp sec) (pn_bufs s) (mpdus (completes (pn_bufs s)) l) last.

(** A list of frames to check: linked, not repeating, with usable descriptors. *)
Record frames_ok s (p : Z) (sec : htt_sec_type) (l : list Z) : Prop := {
  fo_list : lseg (pn_bufs s) p l 0;
  fo_nodup : NoDup l;
  fo_desc : Forall (fun m => desc_ok sec (pn_bufs s) (hd 0 m)) (mpdus (completes (pn_bufs s)) l)
}.

Lemma mpdus_length cm l : (length (mpdus cm l) <= length l)%nat.
Proof.
  induction l as [|x l IH]; cbn; [done|]. destruct (cm x); cbn; [lia|].
  destruct (mpdus cm l); cbn in *; lia.
Qed.

Lemma check_base_spec s tid p l sec ucast valid last :
  pn_active s p sec ucast -> frames_ok s p sec l -> pn_inv tid s valid last ->
  runs (ol_rx_pn_check_base false stack_pn opmode tid p) s (fun r s' =>
    let v := verdict_of s sec ucast last l in
    lseg (pn_bufs s') r (concat (kept v)) 0 /\ pn_post tid sec l v s s' /\
    exists valid', pn_inv tid s' valid' (last_num v)).
Proof.
  intros (Hfw & Hop & Hlen & b & Hb & Hflag & Hmc & Hsec) [Hl Hnd Hd] Hi.
  pose proof (the_cmp_eq _ Hlen) as Hcmp. unfold ol_rx_pn_check_base. do 2 mstep.
  rewrite Hfw. cbn [negb Z.eqb orb]. rewrite bool_decide_false by done. cbv iota. mstep.
  eapply (runs_desc (S:=ST)); [exact Hb|]. mstep. eapply runs_massert; [exact Hflag|]. mstep.
  rewrite Hmc. assert (Hidx : (if negb ucast then txrx_sec_mcast else txrx_sec_ucast)
    = (if ucast then txrx_sec_ucast else txrx_sec_mcast)) by by destruct ucast.
  rewrite Hidx. eapply runs_oget; [exact Hsec|]. rewrite (proj2 (Z.eqb_neq _ _) Hlen). cbv iota. mstep.
  eapply runs_oget; [by apply Hi|]. mstep. unfold nb_fuel. do 2 mstep.
  assert (Huc : bool_decide ((if ucast then txrx_sec_ucast else txrx_sec_mcast) = txrx_sec_ucast) = ucast) by by destruct ucast.
  rewrite Huc. set (ms := mpdus (completes (pn_bufs s)) l).
  assert (Hc : concat ms = l) by apply mpdus_concat.
  eapply runs_mono.
  { apply (check_loop tid sec ucast (the_cmp sec) Hcmp (pn_bufs s) ms [] last); [|exact Hd|].
    - split; cbn; rewrite ?Hc; done.
    - pose proof (mpdus_length (completes (pn_bufs s)) l). pose proof (lseg_size _ _ _ _ Hl Hnd).
      unfold ms. cbn. lia. }
  cbn [app]. rewrite Hc. intros [h t] s1 (Ho & Ht0 & Hpost & Hinv). cbn [fst snd] in *.
  set (v := verdict_of s sec ucast last l).
  change (judge sec ucast (the_cmp sec) (pn_bufs s) ms last) with v in *.
  pose proof (judge_perm sec ucast (the_cmp sec) (pn_bufs s) ms last) as Hperm.
  rewrite Hc in Hperm. change (judge sec ucast (the_cmp sec) (pn_bufs s) ms last) with v in Hperm.
  assert (Hkl : concat (kept v) ⊆ l) by (intros x Hx; rewrite <- Hperm; set_solver).
  assert (Hkn : NoDup (concat (kept v))) by (rewrite <- Hperm in Hnd; by apply NoDup_app in Hnd as [? _]).
  mstep. destruct (concat (kept v)) as [|x k _] eqn:Hk using rev_ind.
  - rewrite Ht0 by done. cbn [Z.eqb negb]. do 2 mstep. by rewrite Ho.
  - unfold open_list in Ho. rewrite last_snoc in Ho. destruct Ho as (-> & q & Hseg).
    pose proof (lseg_nonnull _ _ _ _ Hseg) as H0.
    pose proof (lseg_alloc _ _ _ _ x Hseg ltac:(set_solver)) as [bx Hbx].
    rewrite (proj2 (Z.eqb_neq x 0)) by set_solver. cbn [negb].
    eapply (runs_set_next (S:=ST)); [exact Hbx|]. mstep. cbn [nbufs pn_store set_nbufs].
    assert (Hx : x ∉ k).
    { apply NoDup_app in Hkn as (_ & Hdis & _). set_solver. }
    split_and!; [by eapply lseg_relink| |destruct Hinv as (valid' & []); by exists valid'].
    apply pn_post_last; [done|]. apply relinked_next; [|done]. apply Hkl. set_solver.
Qed.
End Specs.

(** The order of the packet numbers of a cipher. *)
Definition pn_lt (sec : htt_sec_type) (old new : htt_rx_pn_t) : Prop :=
  match sec with
  | htt_sec_type_wapi =>
      pn128_1 old < pn128_1 new \/ (pn128_1 old = pn128_1 new /\ pn128_0 old < pn128_0 new)
  | _ => pn48 old mod 2 ^ 48 < pn48 new mod 2 ^ 48
  end.

#[export] Instance pn_lt_trans sec : Transitive (pn_lt sec).
Proof. intros x y z. destruct sec; cbn; lia. Qed.

Lemma the_cmp_lt sec ucast opmode new old :
  the_cmp sec new old ucast opmode = false -> pn_lt sec old new.
Proof.
  assert (H48 : ol_rx_pn_cmp48 new old ucast opmode = false -> pn48 old mod 2 ^ 48 < pn48 new mod 2 ^ 48).
  { unfold ol_rx_pn_cmp48. change 0xffffffffffff with (2 ^ 48 - 1). rewrite !land_mask by done.
    intros Hc%Z.leb_gt. done. }
  destruct sec; try exact H48. cbn. unfold ol_rx_pn_wapi_cmp. intros Hc.
  assert (Hr : (if pn128_1 new =? pn128_1 old then pn128_0 new <=? pn128_0 old
                else pn128_1 new <? pn128_1 old) = false).
  { destruct ucast; [|done]. case_decide; by apply orb_false_iff in Hc as [? _]. }
  destruct (Z.eqb_spec (pn128_1 new) (pn128_1 old)); [right|left]; lia.
Qed.

(** ** Properties *)

(** C35.  The replay check returns exactly the MPDUs the abstract filter keeps, in order, as
    a null-terminated list; it frees every MSDU of the others, counts them in the counter
    of the cipher and reports each once; it touches no other buffer and no other TID, and
    it remembers the filter's last number. *)
Theorem ol_rx_pn_check_filters {D} `{RD : RxDescOps D} stack_pn opmode (s : pn_state D)
    tid p l sec ucast valid last :
  pn_active opmode s p sec ucast -> frames_ok stack_pn s p sec l -> pn_inv tid s valid last ->
  runs (ol_rx_pn_check_base false stack_pn opmode tid p) s (fun r s' =>
    let v := verdict_of stack_pn opmode s sec ucast last l in
    lseg (pn_bufs s') r (concat (kept v)) 0 /\
    concat (kept v) ++ concat (dropped v) ≡ₚ l /\
    pn_post tid sec l v s s' /\ exists valid', pn_inv tid s' valid' (last_num v)).
Proof.
  intros Ha Hf Hi. eapply runs_mono; [by eapply check_base_spec|].
  intros r s' (Hl & Hp & Hv). split_and!; [done| |done|done].
  unfold verdict_of. by rewrite judge_perm, mpdus_concat.
Qed.

(** C36.  Replay protection, while the host checks packet numbers: those of the encrypted MPDUs
    the check lets through strictly increase, starting above the number remembered before
    (48-bit numbers by value, WAPI numbers as 128-bit values), so that no encrypted MPDU is let
    through twice.  MPDUs that were not encrypted have no number and pass unchecked. *)
Theorem ol_rx_pn_check_increasing {D} `{RD : RxDescOps D} stack_pn opmode (s : pn_state D)
    tid p l sec ucast valid last :
  pn_active opmode s p sec ucast -> frames_ok stack_pn s p sec l -> pn_inv tid s valid last ->
  runs (ol_rx_pn_check_base false stack_pn opmode tid p) s (fun r s' => exists ms,
    lseg (pn_bufs s') r (concat ms) 0 /\ ms `sublist_of` mpdus (completes (pn_bufs s)) l /\
    StronglySorted (pn_lt sec)
      (option_list last ++ nums (mpdu_num stack_pn sec (pn_bufs s)) ms)).
Proof.
  intros Ha Hf Hi. eapply runs_mono; [by eapply check_base_spec|].
  intros r s' (Hl & _ & _). exists (kept (verdict_of stack_pn opmode s sec ucast last l)).
  split_and!; [done| |].
  - apply pn_filter_sublist.
  - apply pn_filter_sorted; [apply _|]. intros new old. apply the_cmp_lt.
Qed.

(** An example: [1;2] is an MPDU with number 5, 3 one with number 5 again, 4 one with 6. *)
Definition ex_desc (pn first last : Z) : htt_host_rx_desc_base := rx_encode {|
  f_mcast_bcast := 0; f_fragment := 0; f_encrypted := 1; f_retry := 0; f_seq_num := 9;
  f_pn_31_0 := pn; f_pn_47_32 := 0; f_tid := 0; f_key_id_octet := 0; f_ext_wapi_pn_63_48 := 0;
  f_ext_wapi_pn_95_64 := 0; f_ext_wapi_pn_127_96 := 0; f_first_msdu := first; f_last_msdu := last;
  o_att0 := 0; o_att1 := 0; o_att2 := 0; o_ms0 := 0; o_ms1 := 0; o_ms2 := 0; o_ms3 := 0;
  o_me0 := 0; o_me1 := 0; o_me2 := 0; o_me3 := 0 |}.
Definition ex_pn (n : Z) : htt_rx_pn_t := {| pn128_0 := n; pn128_1 := 0 |}.
Definition ex_state : pn_state htt_host_rx_desc_base := {|
  pn_bufs := <[1 := {| nb_next := 2; nb_desc := ex_desc 5 1 0 |}]>
    (<[2 := {| nb_next := 3; nb_desc := ex_desc 0 0 1 |}]>
    (<[3 := {| nb_next := 4; nb_desc := ex_desc 5 1 1 |}]>
    (<[4 := {| nb_next := 0; nb_desc := ex_desc 6 1 1 |}]> ∅)));
  fw_pn_check := 0;
  security := [htt_sec_type_aes_ccmp; htt_sec_type_aes_ccmp];
  tids_last_pn := replicate 19 (ex_pn 4);
  tids_last_pn_valid := replicate 19 1;
  pn_replays := [0; 0; 0];
  rx_errs := [] |}.

Lemma ex_active : pn_active wlan_op_mode_sta ex_state 1 htt_sec_type_aes_ccmp true.
Proof. split_and!; [done..|]. eexists. split_and!; reflexivity. Qed.
Lemma ex_frames : frames_ok ex_pn ex_state 1 htt_sec_type_aes_ccmp [1; 2; 3; 4].
Proof.
  split.
  - repeat (split; [done|]; split; [done|]; eexists; split; [reflexivity|]). done.
  - repeat constructor; set_solver.
  - repeat constructor; (eexists; split; [reflexivity|]; right; split; [reflexivity|by eexists]).
Qed.
Lemma ex_inv : pn_inv 0 ex_state 1 (Some (ex_pn 4)).
Proof. split; [done|done|]. split; [done|]. repeat constructor; done. Qed.

Lemma ol_rx_pn_check_filters_witness :
  runs (ol_rx_pn_check_base false ex_pn wlan_op_mode_sta 0 1) ex_state (fun r s' =>
    r = 1 /\ lseg (pn_bufs s') r [1; 2; 4] 0 /\ pn_bufs s' !! 3 = None /\ pn_replays s' = [0; 1; 0]).
Proof.
  eapply runs_mono.
  - exact (ol_rx_pn_check_filters _ _ _ _ _ _ _ _ _ _ ex_active ex_frames ex_inv).
  - intros r s' (Hl & _ & Hp & _).
    assert (Hk : concat (kept (verdict_of ex_pn wlan_op_mode_sta ex_state htt_sec_type_aes_ccmp true (Some (ex_pn 4)) [1; 2; 3; 4])) = [1; 2; 4]) by reflexivity.
    rewrite Hk in Hl. split_and!; [by destruct Hl|exact Hl| |].
    + apply (post_dropped _ _ _ _ _ _ Hp). vm_compute. left.
    + rewrite (post_replays _ _ _ _ _ _ Hp). reflexivity.
Defined.

Lemma ol_rx_pn_check_increasing_witness :
  runs (ol_rx_pn_check_base false ex_pn wlan_op_mode_sta 0 1) ex_state (fun r s' => exists ms,
    lseg (pn_bufs s') r (concat ms) 0 /\
    StronglySorted (pn_lt htt_sec_type_aes_ccmp)
      (ex_pn 4 :: nums (mpdu_num ex_pn htt_sec_type_aes_ccmp (pn_bufs ex_state)) ms)).
Proof.
  eapply runs_mono.
  - exact (ol_rx_pn_check_increasing _ _ _ _ _ _ _ _ _ _ ex_active ex_frames ex_inv).
  - intros r s' (ms & Hl & _ & Hs). by exists ms.
Defined.

(** Reading the statistics of a freed MPDU. *)
Lemma statistics_freed {D} `{RD : RxDescOps D} (s : pn_state D) x :
  pn_bufs s !! x = None -> OL_RX_ERR_STATISTICS_1 true x s = None.
Proof.
  intros Hx. unfold OL_RX_ERR_STATISTICS_1, htt_rx_msdu_desc_retrieve, nb_read, mbnd, mget, oget.
  cbn. by rewrite Hx.
Qed.

(** The first round of the loop that frees an MPDU. *)
Lemma free_first_round {D} `{RD : RxDescOps D} (s : pn_state D) rtype x b mpdu_tail :
  pn_bufs s !! x = Some b -> mpdu_tail <> x ->
  (forall r s1, (OL_RX_ERR_STATISTICS_1 true x ;;
    next_msdu <- adf_nbuf_next x ;;
    htt_rx_desc_frame_free x ;;
    s <- mget ;;
    n <- oget (aget (pn_replays s) rtype) ;;
    v <- oget (aset (pn_replays s) rtype (u32 (n + 1))) ;;
    modify (set_replays v) ;;
    if x =? mpdu_tail then mreturn (inr tt) else mreturn (inl next_msdu)) s = Some (r, s1) ->
    r = inl (nb_next b) /\ pn_bufs s1 !! x = None).
Proof.
  intros Hb Ht r s1. rewrite (proj2 (Z.eqb_neq x mpdu_tail)) by done.
  unfold OL_RX_ERR_STATISTICS_1, htt_rx_msdu_desc_retrieve, adf_nbuf_next, htt_rx_desc_frame_free,
    nb_read, mbnd, mget, oget, modify, mreturn. cbn. rewrite Hb. cbn.
  destruct (security s !! _); cbn; [|done]. rewrite Hb. cbn. rewrite Hb. cbn.
  destruct (aget (pn_replays s) rtype) as [n|]; cbn; [|done].
  destruct (aset _ _ _); cbn; [|done]. intros [= <- <-]. cbn. split; [done|]. apply lookup_delete_eq.
Qed.

(** With host statistics built in, freeing a rejected MPDU of two or more MSDUs reads
    the descriptor of its first MSDU after that MSDU has been freed: undefined behaviour. *)
Theorem pn_replay_statistics_use_after_free {D} `{RD : RxDescOps D} (s : pn_state D) rtype x b mpdu_tail :
  pn_bufs s !! x = Some b -> mpdu_tail <> x ->
  free_mpdu true rtype x mpdu_tail s = None.
Proof.
  intros Hb Ht. unfold free_mpdu, nb_fuel. unfold mbnd at 1. unfold gets. cbn beta iota.
  cbn [miter]. unfold mbnd at 1.
  destruct ((_ ;; _) s) as [[r s1]|] eqn:Hr; [|done].
  destruct (free_first_round _ _ _ _ _ Hb Ht _ _ Hr) as [-> Hx].
  destruct (size (nbufs s)) as [|n]; [done|]. cbn [miter]. unfold mbnd at 1 2.
  by rewrite statistics_freed.
Qed.

Definition ex_replay2 : pn_state htt_host_rx_desc_base := {|
  pn_bufs := <[1 := {| nb_next := 2; nb_desc := ex_desc 5 1 0 |}]>
    (<[2 := {| nb_next := 0; nb_desc := ex_desc 0 0 1 |}]> ∅);
  fw_pn_check := 0;
  security := [htt_sec_type_aes_ccmp; htt_sec_type_aes_ccmp];
  tids_last_pn := replicate 19 (ex_pn 5);
  tids_last_pn_valid := replicate 19 1;
  pn_replays := [0; 0; 0];
  rx_errs := [] |}.

Lemma pn_replay_statistics_use_after_free_witness :
  free_mpdu true OL_RX_CCMP_REPLAYS 1 2 ex_replay2 = None /\
  ol_rx_pn_check_base true ex_pn wlan_op_mode_sta 0 1 ex_replay2 = None /\
  is_Some (ol_rx_pn_check_base false ex_pn wlan_op_mode_sta 0 1 ex_replay2).
Proof.
  split; [|split].
  - apply (pn_replay_statistics_use_after_free _ _ _ {| nb_next := 2; nb_desc := ex_desc 5 1 0 |});
      [reflexivity|lia].
  - vm_compute. reflexivity.
  - vm_compute. by eexists.
Defined.
