(* ===== verification/RxReorder.v ===== *)
(** * The rx reorder buffer

    Models [CORE/CLD_TXRX/TXRX/ol_rx_reorder.c] for one peer: per TID, an array of slots
    that each hold the MSDUs of the MPDUs received for that window position, from which the
    target's indications release (deliver in window order), flush or discard ranges.

    The theorems show what a release, a flush and a discard do to the frames of a window,
    where a release loses frames, and the duplicate check on sequence numbers. *)

From S2P Require Import Prelude HttRxDesc Nbuf.

Local Open Scope c_scope.

(** ** Data *)

Definition IEEE80211_SEQ_MAX : Z := 4096.
Definition OL_TXRX_NUM_EXT_TIDS : Z := 19.
Definition OL_RX_MCAST_TID : Z := 18.
Definition INVALID_REORDER_INDEX : Z := 0xFFFF.
Definition OL_MAX_RX_REORDER_HISTORY : Z := 50.

Definition g_log2ceil : list Z :=
  [1; 1; 2; 4; 4; 8; 8; 8; 8] ++ replicate 8 16 ++ replicate 16 32 ++ replicate 32 64.

Inductive htt_rx_status := htt_rx_status_ok | htt_rx_status_err_replay.
Inductive htt_rx_flush_action := htt_rx_flush_release | htt_rx_flush_discard.

(** A slot: the first and last of its MSDUs, null when it is empty. *)
Record ol_rx_reorder_array_elem_t := { el_head : Z; el_tail : Z }.
Definition null_elem : ol_rx_reorder_array_elem_t := {| el_head := 0; el_tail := 0 |}.

(** [array] is [None] when it points to [base].  [on_waitlist] is whether the links of
    [defrag_waitlist_elem] are set. *)
Record ol_rx_reorder_t := {
  win_sz : Z;        (* u_int8_t *)
  win_sz_mask : Z;   (* u_int8_t *)
  num_mpdus : Z;     (* u_int8_t *)
  array : option (list ol_rx_reorder_array_elem_t);
  base : ol_rx_reorder_array_elem_t;
  on_waitlist : bool;
  defrag_timeout_ms : Z;
  rr_tid : Z
}.

(** [struct ol_rx_reorder_record] and the ring of them *)
Record ol_rx_reorder_record := {
  h_msg_type : Z; h_tid : Z; h_peer_id : Z; h_start_seq : Z; h_end_seq : Z; h_reorder_idx : Z }.
Record ol_rx_reorder_history := {
  curr_index : Z;    (* uint8_t *)
  wrap_around : Z;
  record : list ol_rx_reorder_record
}.

(** One peer, with the buffers.  [waitlist] holds the TIDs of the peer waiting for
    fragments; [rx_errs], [holes] and [addba_done] are the calls of [ol_rx_err],
    [ol_rx_aggregation_hole] and [ol_ctrl_rx_addba_complete], latest first. *)
Record ro_state (D : Type) := {
  ro_bufs : gmap Z (nbuf D);
  tids_rx_reorder : list ol_rx_reorder_t;
  tids_next_rel_idx : list Z;     (* u_int16_t *)
  tids_last_seq : list Z;         (* u_int16_t *)
  tids_mcast_last_seq : list Z;   (* uint16_t *)
  ro_fw_pn_check : Z;
  msdu_mc_dup_drop : Z;
  waitlist : list Z;
  reorder_history : option ol_rx_reorder_history;
  ro_errs : list (Z * Z);
  holes : list Z;
  addba_done : list (Z * Z)
}.
Arguments ro_bufs {D}.
Arguments tids_rx_reorder {D}.
Arguments tids_next_rel_idx {D}.
Arguments tids_last_seq {D}.
Arguments tids_mcast_last_seq {D}.
Arguments ro_fw_pn_check {D}.
Arguments msdu_mc_dup_drop {D}.
Arguments waitlist {D}.
Arguments reorder_history {D}.
Arguments ro_errs {D}.
Arguments holes {D}.
Arguments addba_done {D}.

Section Ops.
Context {D : Type} `{RD : RxDescOps D}.
#[local] Abbreviation ST := (ro_state D).

Definition set_ro_bufs (v : gmap Z (nbuf D)) (s : ST) : ST :=
  {| ro_bufs := v; tids_rx_reorder := tids_rx_reorder s;
     tids_next_rel_idx := tids_next_rel_idx s; tids_last_seq := tids_last_seq s;
     tids_mcast_last_seq := tids_mcast_last_seq s; ro_fw_pn_check := ro_fw_pn_check s;
     msdu_mc_dup_drop := msdu_mc_dup_drop s; waitlist := waitlist s;
     reorder_history := reorder_history s; ro_errs := ro_errs s; holes := holes s;
     addba_done := addba_done s |}.
Definition set_reorder (v : list ol_rx_reorder_t) (s : ST) : ST :=
  {| ro_bufs := ro_bufs s; tids_rx_reorder := v; tids_next_rel_idx := tids_next_rel_idx s;
     tids_last_seq := tids_last_seq s; tids_mcast_last_seq := tids_mcast_last_seq s;
     ro_fw_pn_check := ro_fw_pn_check s; msdu_mc_dup_drop := msdu_mc_dup_drop s;
     waitlist := waitlist s; reorder_history := reorder_history s; ro_errs := ro_errs s;
     holes := holes s; addba_done := addba_done s |}.
Definition set_next_rel (v : list Z) (s : ST) : ST :=
  {| ro_bufs := ro_bufs s; tids_rx_reorder := tids_rx_reorder s; tids_next_rel_idx := v;
     tids_last_seq := tids_last_seq s; tids_mcast_last_seq := tids_mcast_last_seq s;
     ro_fw_pn_check := ro_fw_pn_check s; msdu_mc_dup_drop := msdu_mc_dup_drop s;
     waitlist := waitlist s; reorder_history := reorder_history s; ro_errs := ro_errs s;
     holes := holes s; addba_done := addba_done s |}.
Definition set_last_seq (v : list Z) (s : ST) : ST :=
  {| ro_bufs := ro_bufs s; tids_rx_reorder := tids_rx_reorder s;
     tids_next_rel_idx := tids_next_rel_idx s; tids_last_seq := v;
     tids_mcast_last_seq := tids_mcast_last_seq s; ro_fw_pn_check := ro_fw_pn_check s;
     msdu_mc_dup_drop := msdu_mc_dup_drop s; waitlist := waitlist s;
     reorder_history := reorder_history s; ro_errs := ro_errs s; holes := holes s;
     addba_done := addba_done s |}.
Definition set_mcast_seq (v : list Z) (s : ST) : ST :=
  {| ro_bufs := ro_bufs s; tids_rx_reorder := tids_rx_reorder s;
     tids_next_rel_idx := tids_next_rel_idx s; tids_last_seq := tids_last_seq s;
     tids_mcast_last_seq := v; ro_fw_pn_check := ro_fw_pn_check s;
     msdu_mc_dup_drop := msdu_mc_dup_drop s; waitlist := waitlist s;
     reorder_history := reorder_history s; ro_errs := ro_errs s; holes := holes s;
     addba_done := addba_done s |}.
Definition set_fw_pn (v : Z) (s : ST) : ST :=
  {| ro_bufs := ro_bufs s; tids_rx_reorder := tids_rx_reorder s;
     tids_next_rel_idx := tids_next_rel_idx s; tids_last_seq := tids_last_seq s;
     tids_mcast_last_seq := tids_mcast_last_seq s; ro_fw_pn_check := v;
     msdu_mc_dup_drop := msdu_mc_dup_drop s; waitlist := waitlist s;
     reorder_history := reorder_history s; ro_errs := ro_errs s; holes := holes s;
     addba_done := addba_done s |}.
Definition set_dup_drop (v : Z) (s : ST) : ST :=
  {| ro_bufs := ro_bufs s; tids_rx_reorder := tids_rx_reorder s;
     tids_next_rel_idx := tids_next_rel_idx s; tids_last_seq := tids_last_seq s;
     tids_mcast_last_seq := tids_mcast_last_seq s; ro_fw_pn_check := ro_fw_pn_check s;
     msdu_mc_dup_drop := v; waitlist := waitlist s; reorder_history := reorder_history s;
     ro_errs := ro_errs s; holes := holes s; addba_done := addba_done s |}.
Definition set_waitlist (v : list Z) (s : ST) : ST :=
  {| ro_bufs := ro_bufs s; tids_rx_reorder := tids_rx_reorder s;
     tids_next_rel_idx := tids_next_rel_idx s; tids_last_seq := tids_last_seq s;
     tids_mcast_last_seq := tids_mcast_last_seq s; ro_fw_pn_check := ro_fw_pn_check s;
     msdu_mc_dup_drop := msdu_mc_dup_drop s; waitlist := v; reorder_history := reorder_history s;
     ro_errs := ro_errs s; holes := holes s; addba_done := addba_done s |}.
Definition set_history (v : option ol_rx_reorder_history) (s : ST) : ST :=
  {| ro_bufs := ro_bufs s; tids_rx_reorder := tids_rx_reorder s;
     tids_next_rel_idx := tids_next_rel_idx s; tids_last_seq := tids_last_seq s;
     tids_mcast_last_seq := tids_mcast_last_seq s; ro_fw_pn_check := ro_fw_pn_check s;
     msdu_mc_dup_drop := msdu_mc_dup_drop s; waitlist := waitlist s; reorder_history := v;
     ro_errs := ro_errs s; holes := holes s; addba_done := addba_done s |}.
Definition add_ro_err (e : Z * Z) (s : ST) : ST :=
  {| ro_bufs := ro_bufs s; tids_rx_reorder := tids_rx_reorder s;
     tids_next_rel_idx := tids_next_rel_idx s; tids_last_seq := tids_last_seq s;
     tids_mcast_last_seq := tids_mcast_last_seq s; ro_fw_pn_check := ro_fw_pn_check s;
     msdu_mc_dup_drop := msdu_mc_dup_drop s; waitlist := waitlist s;
     reorder_history := reorder_history s; ro_errs := e :: ro_errs s; holes := holes s;
     addba_done := addba_done s |}.
Definition add_hole (e : Z) (s : ST) : ST :=
  {| ro_bufs := ro_bufs s; tids_rx_reorder := tids_rx_reorder s;
     tids_next_rel_idx := tids_next_rel_idx s; tids_last_seq := tids_last_seq s;
     tids_mcast_last_seq := tids_mcast_last_seq s; ro_fw_pn_check := ro_fw_pn_check s;
     msdu_mc_dup_drop := msdu_mc_dup_drop s; waitlist := waitlist s;
     reorder_history := reorder_history s; ro_errs := ro_errs s; holes := e :: holes s;
     addba_done := addba_done s |}.
Definition add_addba (e : Z * Z) (s : ST) : ST :=
  {| ro_bufs := ro_bufs s; tids_rx_reorder := tids_rx_reorder s;
     tids_next_rel_idx := tids_next_rel_idx s; tids_last_seq := tids_last_seq s;
     tids_mcast_last_seq := tids_mcast_last_seq s; ro_fw_pn_check := ro_fw_pn_check s;
     msdu_mc_dup_drop := msdu_mc_dup_drop s; waitlist := waitlist s;
     reorder_history := reorder_history s; ro_errs := ro_errs s; holes := holes s;
     addba_done := e :: addba_done s |}.

#[export] Instance ro_store : NbufStore ST D.
Proof. by refine {| nbufs := ro_bufs; set_nbufs := set_ro_bufs |}; [| |intros []]. Defined.

(** *** Access to the TID's reorder record and slots; an index out of range is undefined *)

Definition rr (tid : Z) : M ST ol_rx_reorder_t := s <- mget ;; oget (aget (tids_rx_reorder s) tid).
Definition set_rr (tid : Z) (r : ol_rx_reorder_t) : M ST unit :=
  s <- mget ;; v <- oget (aset (tids_rx_reorder s) tid r) ;; modify (set_reorder v).

Definition set_array (a : option (list ol_rx_reorder_array_elem_t)) (r : ol_rx_reorder_t) : ol_rx_reorder_t :=
  {| win_sz := win_sz r; win_sz_mask := win_sz_mask r; num_mpdus := num_mpdus r; array := a;
     base := base r; on_waitlist := on_waitlist r; defrag_timeout_ms := defrag_timeout_ms r;
     rr_tid := rr_tid r |}.
Definition set_base (e : ol_rx_reorder_array_elem_t) (r : ol_rx_reorder_t) : ol_rx_reorder_t :=
  {| win_sz := win_sz r; win_sz_mask := win_sz_mask r; num_mpdus := num_mpdus r; array := array r;
     base := e; on_waitlist := on_waitlist r; defrag_timeout_ms := defrag_timeout_ms r;
     rr_tid := rr_tid r |}.
Definition set_on_waitlist (b : bool) (r : ol_rx_reorder_t) : ol_rx_reorder_t :=
  {| win_sz := win_sz r; win_sz_mask := win_sz_mask r; num_mpdus := num_mpdus r; array := array r;
     base := base r; on_waitlist := b; defrag_timeout_ms := defrag_timeout_ms r;
     rr_tid := rr_tid r |}.

(** [rx_reorder->array[i]] *)
Definition elems_of (r : ol_rx_reorder_t) : list ol_rx_reorder_array_elem_t :=
  match array r with Some a => a | None => [base r] end.
Definition with_elems (a : list ol_rx_reorder_array_elem_t) (r : ol_rx_reorder_t) : ol_rx_reorder_t :=
  match array r with Some _ => set_array (Some a) r | None => set_base (hd null_elem a) r end.
Definition slot (tid i : Z) : M ST ol_rx_reorder_array_elem_t :=
  r <- rr tid ;; oget (aget (elems_of r) i).
Definition set_slot (tid i : Z) (e : ol_rx_reorder_array_elem_t) : M ST unit :=
  r <- rr tid ;; a <- oget (aset (elems_of r) i e) ;; set_rr tid (with_elems a r).

(** *** Init, history and the sequence number check *)

(** [ol_rx_reorder_init]: the new record; the stale wait list entry, if any, stays queued *)
Definition ol_rx_reorder_init (r : ol_rx_reorder_t) (tid : Z) : ol_rx_reorder_t :=
  {| win_sz := 1; win_sz_mask := 0; num_mpdus := num_mpdus r; array := None; base := null_elem;
     on_waitlist := false; defrag_timeout_ms := 0; rr_tid := tid |}.

Definition ol_rx_reorder_update_history (local_id msg_type tid start_seq end_seq reorder_idx : Z) : M ST unit :=
  s <- mget ;;
  match reorder_history s with
  | None => mreturn tt
  | Some h =>
      let index := curr_index h in
      recs <- oget (aset (record h) index
        {| h_msg_type := u8 msg_type; h_tid := u8 tid; h_peer_id := u16 local_id;
           h_start_seq := u8 start_seq; h_end_seq := u8 end_seq; h_reorder_idx := u8 reorder_idx |}) ;;
      let next := u8 (index + 1) in
      modify (set_history (Some
        (if OL_MAX_RX_REORDER_HISTORY <=? next
         then {| curr_index := 0; wrap_around := 1; record := recs |}
         else {| curr_index := next; wrap_around := wrap_around h; record := recs |})))
  end.

Definition ol_rx_reorder_seq_num_check (tid seq_num : Z) : M ST htt_rx_status :=
  s <- mget ;;
  last <- oget (aget (tids_last_seq s) tid) ;;
  if last =? IEEE80211_SEQ_MAX then mreturn htt_rx_status_ok
  else
    let seq_num_delta := Z.land (u32 (seq_num - 1 - last)) (IEEE80211_SEQ_MAX - 1) in
    if Z.shiftr IEEE80211_SEQ_MAX 1 <? seq_num_delta then mreturn htt_rx_status_err_replay
    else mreturn htt_rx_status_ok.

Definition ol_rx_seq_num_check (tid : Z) (rx_mpdu_desc : D) : M ST htt_rx_status :=
  let seq_num := rx_seq_num rx_mpdu_desc in
  if OL_RX_MCAST_TID =? tid then
    let pkt_tid := rx_tid rx_mpdu_desc in
    if OL_TXRX_NUM_EXT_TIDS <=? pkt_tid then mreturn htt_rx_status_ok
    else
      s <- mget ;;
      last <- oget (aget (tids_mcast_last_seq s) pkt_tid) ;;
      if rx_retry rx_mpdu_desc && (seq_num =? last) then
        modify (set_dup_drop (msdu_mc_dup_drop s + 1)) ;;
        mreturn htt_rx_status_err_replay
      else
        v <- oget (aset (tids_mcast_last_seq s) pkt_tid seq_num) ;;
        modify (set_mcast_seq v) ;;
        mreturn htt_rx_status_ok
  else ol_rx_reorder_seq_num_check tid seq_num.

(** *** Store, release, flush *)

Definition ol_rx_reorder_store (tid idx head_msdu tail_msdu : Z) : M ST unit :=
  r <- rr tid ;;
  let idx := Z.land idx (win_sz_mask r) in
  e <- slot tid idx ;;
  if negb (el_head e =? 0) then
    adf_nbuf_set_next (el_tail e) head_msdu ;;
    set_slot tid idx {| el_head := el_head e; el_tail := tail_msdu |}
  else set_slot tid idx {| el_head := head_msdu; el_tail := tail_msdu |}.

(** [rx_opt_proc]: the next stage, given the TID and a null-terminated list of MSDUs. *)
Variable rx_opt_proc : Z -> Z -> M ST unit.

(** The window has at most 256 slots. *)
Definition window_fuel : nat := 257.

Definition set_next_rel_idx (tid v : Z) : M ST unit :=
  s <- mget ;; l <- oget (aset (tids_next_rel_idx s) tid (u16 v)) ;; modify (set_next_rel l).
Definition set_last_seq_num (tid v : Z) : M ST unit :=
  s <- mget ;; l <- oget (aset (tids_last_seq s) tid (u16 v)) ;; modify (set_last_seq l).

(** What a release and a flush do with a list: remember the sequence number of its first
    MSDU, terminate it, hand it over. *)
Definition close_list (tid head_msdu tail_msdu : Z) : M ST unit :=
  d <- htt_rx_msdu_desc_retrieve head_msdu ;;
  set_last_seq_num tid (rx_seq_num d) ;;
  adf_nbuf_set_next tail_msdu 0.

(** One round of the loop of a release: the index and the tail of the list so far *)
Definition release_round (tid mask idx_end : Z) (l : Z * Z) : M ST (Z * Z + Z) :=
  let (idx, tail_msdu) := l in
  if idx =? idx_end then mreturn (inr tail_msdu)
  else
    e <- slot tid idx ;;
    tail_msdu <-
      (if negb (el_head e =? 0) then
         (if negb (tail_msdu =? 0) then adf_nbuf_set_next tail_msdu (el_head e) else mreturn tt) ;;
         mreturn (el_tail e)
       else mreturn tail_msdu) ;;
    set_slot tid idx null_elem ;;
    mreturn (inl (Z.land (idx + 1) mask, tail_msdu)).

Definition ol_rx_reorder_release (tid idx_start idx_end : Z) : M ST unit :=
  set_next_rel_idx tid idx_end ;;
  r <- rr tid ;;
  let mask := win_sz_mask r in
  let idx_start := Z.land idx_start mask in
  let idx_end := Z.land idx_end mask in
  e <- slot tid idx_start ;;
  let head_msdu := el_head e in
  set_slot tid idx_start null_elem ;;
  tail_msdu <- miter window_fuel (release_round tid mask idx_end)
    (Z.land (idx_start + 1) mask, el_tail e) ;;
  if negb (head_msdu =? 0) then
    close_list tid head_msdu tail_msdu ;;
    rx_opt_proc tid head_msdu
  else mreturn tt.

(** [ol_rx_defrag_waitlist_remove] *)
Definition ol_rx_defrag_waitlist_remove (tid : Z) : M ST unit :=
  r <- rr tid ;;
  if on_waitlist r then
    modify (fun s => set_waitlist (filter (fun t => t <> tid) (waitlist s)) s) ;;
    set_rr tid (set_on_waitlist false r)
  else mreturn tt.

(** [ol_rx_frames_free], and the same loop in the flush *)
Definition ol_rx_frames_free (frames : Z) : M ST unit :=
  fuel <- nb_fuel ;;
  miter fuel (fun frag =>
    if frag =? 0 then mreturn (inr tt)
    else
      next <- adf_nbuf_next frag ;;
      htt_rx_desc_frame_free frag ;;
      mreturn (inl next)) frames.

(** One round of the loop of a flush: the index, and the head and tail of the list so far *)
Definition flush_round (tid mask idx_end : Z) (l : Z * (Z * Z)) : M ST (Z * (Z * Z) + Z * Z) :=
  let (idx, ht) := l in
  e <- slot tid idx ;;
  let idx' := Z.land (idx + 1) mask in
  ht <-
    (if negb (el_head e =? 0) then
       ht <- ADD_MPDU_TO_LIST ht.1 ht.2 (el_head e) (el_tail e) ;;
       set_slot tid idx null_elem ;;
       mreturn ht
     else mreturn ht) ;;
  if idx' =? idx_end then mreturn (inr ht) else mreturn (inl (idx', ht)).

Definition ol_rx_reorder_flush (tid idx_start idx_end : Z) (action : htt_rx_flush_action) : M ST unit :=
  r <- rr tid ;;
  let mask := win_sz_mask r in
  idx_end <-
    (if idx_end =? 0xffff then set_next_rel_idx tid 0 ;; mreturn idx_start
     else set_next_rel_idx tid idx_end ;; mreturn idx_end) ;;
  let idx_start := Z.land idx_start mask in
  let idx_end := Z.land idx_end mask in
  ht <- miter window_fuel (flush_round tid mask idx_end) (idx_start, (0, 0)) ;;
  ol_rx_defrag_waitlist_remove tid ;;
  let head_msdu := ht.1 in
  if negb (head_msdu =? 0) then
    close_list tid head_msdu ht.2 ;;
    match action with
    | htt_rx_flush_release => rx_opt_proc tid head_msdu
    | htt_rx_flush_discard => ol_rx_frames_free head_msdu
    end
  else mreturn tt.

(** [ol_rx_reorder_first_hole]: the first slot of the second hole *)
Definition ol_rx_reorder_first_hole (tid : Z) : M ST Z :=
  r <- rr tid ;;
  let mask := win_sz_mask r in
  let skip (present : bool) (tmp_idx : Z) : M ST Z :=
    miter window_fuel (fun tmp_idx =>
      if tmp_idx =? 0 then mreturn (inr tmp_idx)
      else
        e <- slot tid tmp_idx ;;
        if Bool.eqb (negb (el_head e =? 0)) present
        then mreturn (inl (Z.land (tmp_idx + 1) mask)) else mreturn (inr tmp_idx)) tmp_idx in
  tmp_idx <- skip false (Z.land 1 mask) ;;
  skip true tmp_idx.

Variable HL_RX_AGGREGATION_HOLE_DETCTION : bool.

Definition ol_rx_reorder_detect_hole (tid idx_start : Z) : M ST unit :=
  if negb HL_RX_AGGREGATION_HOLE_DETCTION then mreturn tt
  else if OL_TXRX_NUM_EXT_TIDS <=? tid then mreturn tt
  else
    s <- mget ;;
    next <- oget (aget (tids_next_rel_idx s) tid) ;;
    if next =? INVALID_REORDER_INDEX then mreturn tt
    else
      r <- rr tid ;;
      let mask := win_sz_mask r in
      if mask =? 0 then mreturn tt
      else
        let idx_start := Z.land idx_start mask in
        let next_rel_idx := Z.land next mask in
        if negb (idx_start =? next_rel_idx) then
          modify (add_hole (u32 (Z.land (idx_start - next_rel_idx) mask)))
        else mreturn tt.

Definition ol_rx_reorder_peer_cleanup : M ST unit :=
  mfor (seqZ 0 OL_TXRX_NUM_EXT_TIDS) (fun tid => ol_rx_reorder_flush tid 0 0 htt_rx_flush_discard).

(** [ol_rx_reorder_flush_frag] *)
Definition ol_rx_reorder_flush_frag (tid seq_num : Z) : M ST unit :=
  r <- rr tid ;;
  let seq := Z.land seq_num (win_sz_mask r) in
  e <- slot tid seq ;;
  if negb (el_head e =? 0) then
    ol_rx_frames_free (el_head e) ;;
    set_slot tid seq null_elem
  else mreturn tt.

(** *** Indications from the target; [found] is whether the peer id is known *)

Definition ol_rx_addba_handler (found host_addba alloc_ok : bool) (tid win start_seq_num failed : Z) : M ST unit :=
  if OL_TXRX_NUM_EXT_TIDS <=? tid then mreturn tt
  else if negb found then mreturn tt
  else
    (if host_addba then modify (add_addba (tid, failed)) else mreturn tt) ;;
    if negb (failed =? 0) then mreturn tt
    else
      set_last_seq_num tid IEEE80211_SEQ_MAX ;;
      r <- rr tid ;;
      round_pwr2_win_sz <- oget (aget g_log2ceil win) ;;
      massert alloc_ok ;;
      set_rr tid {| win_sz := win; win_sz_mask := round_pwr2_win_sz - 1; num_mpdus := 0;
                    array := Some (replicate (Z.to_nat round_pwr2_win_sz) null_elem);
                    base := base r; on_waitlist := on_waitlist r;
                    defrag_timeout_ms := defrag_timeout_ms r; rr_tid := rr_tid r |} ;;
      set_next_rel_idx tid 0.

(** [debug] is whether assertions are compiled in ([ADF_OS_DEBUG]). *)
Definition ol_rx_delba_handler (debug found : bool) (tid : Z) : M ST unit :=
  if OL_TXRX_NUM_EXT_TIDS <=? tid then mreturn tt
  else if negb found then mreturn tt
  else
    set_next_rel_idx tid INVALID_REORDER_INDEX ;;
    r <- rr tid ;;
    (if debug then massert (negb (win_sz_mask r =? 0)) else mreturn tt) ;;
    set_rr tid (ol_rx_reorder_init r tid).

Definition ol_rx_flush_handler (found : bool) (tid idx_start idx_end : Z) (action : htt_rx_flush_action) : M ST unit :=
  if OL_TXRX_NUM_EXT_TIDS <=? tid then mreturn tt
  else if negb found then mreturn tt
  else
    r <- rr tid ;;
    e <- slot tid (Z.land idx_start (win_sz_mask r)) ;;
    frag <-
      (if negb (el_head e =? 0) then
         d <- htt_rx_msdu_desc_retrieve (el_head e) ;; mreturn (rx_is_frag d)
       else mreturn false) ;;
    if frag : bool then ol_rx_reorder_flush_frag tid idx_start
    else
      match action with
      | htt_rx_flush_release => ol_rx_reorder_detect_hole tid idx_start
      | htt_rx_flush_discard => mreturn tt
      end ;;
      ol_rx_reorder_flush tid idx_start idx_end action.

(** [ol_rx_pn_ind_handler]: [pn_ie] are the window positions the target rejected *)
Definition ol_rx_pn_ind_handler (found : bool) (tid seq_num_start seq_num_end pn_ie_cnt : Z) (pn_ie : list Z) : M ST unit :=
  if OL_TXRX_NUM_EXT_TIDS <=? tid then mreturn tt
  else if negb found then mreturn tt
  else
    modify (set_fw_pn 1) ;;
    r <- rr tid ;;
    let mask := win_sz_mask r in
    let seq_num_start := Z.land seq_num_start mask in
    let seq_num_end := Z.land seq_num_end mask in
    ht <- miter window_fuel (fun '((seq_num, cnt, i, ht) : Z * Z * Z * (Z * Z)) =>
      e <- slot tid seq_num ;;
      next <-
        (if negb (el_head e =? 0) then
           rejected <-
             (if negb (cnt =? 0) then
                v <- oget (aget pn_ie i) ;; mreturn (seq_num =? v)
              else mreturn false) ;;
           next <-
             (if rejected : bool then
                modify (add_ro_err (tid, el_head e)) ;;
                fuel <- nb_fuel ;;
                miter fuel (fun msdu =>
                  next_msdu <- adf_nbuf_next msdu ;;
                  htt_rx_desc_frame_free msdu ;;
                  if msdu =? el_tail e then mreturn (inr tt) else mreturn (inl next_msdu)) (el_head e) ;;
                mreturn (u8 (cnt - 1), i + 1, ht)
              else
                ht <- ADD_MPDU_TO_LIST ht.1 ht.2 (el_head e) (el_tail e) ;;
                mreturn (cnt, i, ht)) ;;
           set_slot tid seq_num null_elem ;;
           mreturn next
         else mreturn (cnt, i, ht)) ;;
      let seq_num := Z.land (seq_num + 1) mask in
      if seq_num =? seq_num_end then mreturn (inr next.2)
      else mreturn (inl (seq_num, next.1.1, next.1.2, next.2)))
      (seq_num_start, pn_ie_cnt, 0, (0, 0)) ;;
    if negb (ht.1 =? 0) then
      adf_nbuf_set_next ht.2 0 ;;
      rx_opt_proc tid ht.1
    else mreturn tt.
End Ops.

(** ** The frames of a window *)

(** The frames in the slots, and the walk that takes them. *)
Definition at_slot (f : list (list Z)) (i : Z) : list Z := default [] (f !! Z.to_nat i).
Fixpoint sweep (n : Z) (f : list (list Z)) (i : Z) (m : nat) : list Z * list (list Z) :=
  match m with
  | O => ([], f)
  | Datatypes.S m =>
      let r := sweep n (<[Z.to_nat i := []]> f) ((i + 1) mod n) m in
      (at_slot f i ++ r.1, r.2)
  end.

(** The [m] positions from [i] on, around a window of [n]. *)
Definition window (n i m : Z) : list Z := (fun j => (i + j) mod n) <$> seqZ 0 m.

Lemma window_cons n i m : 0 < n -> 0 <= i < n -> 0 < m ->
  window n i m = i :: window n ((i + 1) mod n) (m - 1).
Proof.
  intros Hn Hi Hm. unfold window. rewrite seqZ_cons by done. cbn.
  rewrite Z.add_0_r, Z.mod_small by done. f_equal.
  change (Z.succ 0) with (1 + 0). rewrite <- (fmap_add_seqZ 1 0).
  replace (Z.pred m) with (m - 1) by lia. rewrite <- list_fmap_compose. apply list_fmap_ext.
  intros _ j _. cbn. rewrite Zplus_mod_idemp_l. f_equal. lia.
Qed.

Lemma window_nodup n i m : 0 < n -> 0 <= m <= n -> NoDup (window n i m).
Proof.
  intros Hn Hm. apply NoDup_fmap_2_strong; [|apply NoDup_seqZ].
  intros a b Ha%elem_of_seqZ Hb%elem_of_seqZ Heq.
  assert (Hz : (a - b) mod n = 0).
  { replace (a - b) with ((i + a) - (i + b)) by lia.
    rewrite Zminus_mod, Heq, Z.sub_diag. by apply Z.mod_0_l; lia. }
  apply Z.mod_divide in Hz; [|lia]. destruct Hz as [q Hq].
  assert (q = 0) by nia. lia.
Qed.

Lemma window_range n i m x : 0 < n -> x ∈ window n i m -> 0 <= x < n.
Proof. intros Hn (j & -> & _)%list_elem_of_fmap. by apply Z.mod_pos_bound. Qed.

Lemma bind_ext_in {A B} (f g : A -> list B) l : (forall x, x ∈ l -> f x = g x) -> l ≫= f = l ≫= g.
Proof.
  induction l as [|x l IH]; intros Heq; cbn; [done|]. rewrite Heq by set_solver.
  f_equal. apply IH. intros y Hy. apply Heq. set_solver.
Qed.
Lemma at_slot_eq f i v : 0 <= i < Z.of_nat (length f) -> at_slot (<[Z.to_nat i := v]> f) i = v.
Proof. intros Hi. unfold at_slot. by rewrite list_lookup_insert_eq by lia. Qed.
Lemma at_slot_ne f i x v : 0 <= i -> 0 <= x -> x <> i -> at_slot (<[Z.to_nat i := v]> f) x = at_slot f x.
Proof. intros Hi Hx Hne. unfold at_slot. by rewrite list_lookup_insert_ne by lia. Qed.

Lemma mod_ne i k n : 0 <= i < n -> 0 < k < n -> (i + k) mod n <> i.
Proof.
  intros Hi Hk. destruct (decide (i + k < n)); [rewrite Z.mod_small; lia|].
  replace (i + k) with (i + k - n + 1 * n) by lia. rewrite Z.mod_add, Z.mod_small by lia. lia.
Qed.
Lemma mod_step i k n : 0 < n -> ((i + 1) mod n + k) mod n = (i + (k + 1)) mod n.
Proof. intros Hn. rewrite Zplus_mod_idemp_l. f_equal. lia. Qed.

(** The walk takes the frames of its positions in order and empties those slots. *)
Lemma sweep_spec n f i (m : nat) : 0 < n -> 0 <= i < n -> Z.of_nat m <= n -> Z.of_nat (length f) = n ->
  (sweep n f i m).1 = window n i (Z.of_nat m) ≫= at_slot f /\
  length (sweep n f i m).2 = length f /\
  (forall x, 0 <= x < n -> at_slot (sweep n f i m).2 x
    = if decide (x ∈ window n i (Z.of_nat m)) then [] else at_slot f x).
Proof.
  intros Hn. revert f i. induction m as [|m IH]; intros f i Hi Hm Hf; cbn [sweep fst snd].
  - split_and!; [done|done|]. intros x Hx. by rewrite decide_False by set_solver.
  - pose proof (window_nodup n i (Z.of_nat (Datatypes.S m)) Hn ltac:(lia)) as Hnd.
    rewrite window_cons in Hnd |- * by lia.
    replace (Z.of_nat (Datatypes.S m) - 1) with (Z.of_nat m) in * by lia.
    apply NoDup_cons in Hnd as [Hni Hnd].
    assert (Hi' : 0 <= (i + 1) mod n < n) by (by apply Z.mod_pos_bound).
    destruct (IH (<[Z.to_nat i := []]> f) ((i + 1) mod n)) as (IH1 & IH2 & IH3);
      [done|lia|by rewrite length_insert|]. split_and!.
    + cbn. rewrite IH1. f_equal. apply bind_ext_in. intros x Hx.
      apply at_slot_ne; [lia| |by intros ->]. by eapply window_range in Hx as [? _].
    + by rewrite IH2, length_insert.
    + intros x Hx. rewrite IH3 by done. destruct (decide (x = i)) as [->|Hne].
      * rewrite decide_False by done. rewrite decide_True by set_solver. apply at_slot_eq. lia.
      * rewrite at_slot_ne by (done || lia). destruct (decide (x ∈ window _ _ _)).
        -- by rewrite decide_True by set_solver.
        -- by rewrite decide_False by set_solver.
Qed.

Lemma concat_clear (f : list (list Z)) i : 0 <= i < Z.of_nat (length f) ->
  concat f ≡ₚ at_slot f i ++ concat (<[Z.to_nat i := []]> f).
Proof.
  intros Hi. unfold at_slot. destruct (f !! Z.to_nat i) as [fr|] eqn:Hf.
  - pose proof (take_drop_middle f _ fr Hf) as Htd. pose proof (lookup_lt_Some _ _ _ Hf).
    rewrite <- Htd at 1. rewrite insert_take_drop by done. rewrite !concat_app. cbn.
    rewrite !app_assoc. apply Permutation_app_tail, Permutation_app_comm.
  - apply lookup_ge_None in Hf. lia.
Qed.

Section Rep.
Context {D : Type} `{RD : RxDescOps D}.
#[local] Abbreviation ST := (ro_state D).
Implicit Types (s : ST) (f : list (list Z)).

(** A slot holding the frames [fr]; an empty one is null. *)
Definition slot_ok (nb : gmap Z (nbuf D)) (e : ol_rx_reorder_array_elem_t) (fr : list Z) : Prop :=
  open_list nb (el_head e) (el_tail e) fr /\ (fr = [] -> e = null_elem).

(** The TID's window has [n] slots, a power of two, holding the frames [f]. *)
Record win_rep (nb : gmap Z (nbuf D)) (r : ol_rx_reorder_t) (n : Z) f : Prop := {
  wr_size : exists k, 0 <= k <= 8 /\ n = 2 ^ k;
  wr_mask : win_sz_mask r = n - 1;
  wr_slots : Forall2 (slot_ok nb) (elems_of r) f;
  wr_length : Z.of_nat (length f) = n;
  wr_nodup : NoDup (concat f)
}.
Definition tid_rep s (tid : Z) (r : ol_rx_reorder_t) (n : Z) f : Prop :=
  aget (tids_rx_reorder s) tid = Some r /\ win_rep (ro_bufs s) r n f.

Lemma win_mask nb r n f x : win_rep nb r n f -> Z.land x (win_sz_mask r) = x mod n.
Proof. intros [(k & Hk & ->) Hm _ _ _]. rewrite Hm. apply land_mask. lia. Qed.
Lemma win_pos nb r n f : win_rep nb r n f -> 0 < n <= 256.
Proof.
  intros [(k & Hk & ->) _ _ _ _]. split; [by apply Z.pow_pos_nonneg; lia|].
  change 256 with (2 ^ 8). by apply Z.pow_le_mono_r; lia.
Qed.

Lemma elems_with a r : length a = length (elems_of r) -> elems_of (with_elems a r) = a.
Proof.
  unfold elems_of, with_elems. destruct (array r) as [l|] eqn:Ha; cbn; [done|]. rewrite Ha.
  destruct a as [|x [|]]; done.
Qed.
Lemma with_elems_mask a r : win_sz_mask (with_elems a r) = win_sz_mask r.
Proof. unfold with_elems. by destruct (array r). Qed.
Lemma with_elems_waitlist a r : on_waitlist (with_elems a r) = on_waitlist r.
Proof. unfold with_elems. by destruct (array r). Qed.

Lemma slot_ok_frame nb nb' e fr :
  slot_ok nb e fr -> (forall x, x ∈ fr -> nb' !! x = nb !! x) -> slot_ok nb' e fr.
Proof.
  intros [Ho He] Heq. split; [|done]. eapply open_list_frame; [done|]. intros x Hx. by rewrite Heq.
Qed.

Lemma win_rep_frame nb nb' r n f :
  win_rep nb r n f -> (forall x, x ∈ concat f -> nb' !! x = nb !! x) -> win_rep nb' r n f.
Proof.
  intros [H1 H2 H3 H4 H5] Heq. split; try done. apply Forall2_same_length_lookup_2.
  - by eapply Forall2_length.
  - intros j e fr He Hfr. eapply slot_ok_frame; [by eapply Forall2_lookup_lr|].
    intros x Hx. apply Heq. apply elem_of_concat. exists fr. split; [done|]. by eapply list_elem_of_lookup_2.
Qed.

(** What reading a slot finds. *)
Lemma win_slot nb r n f i : win_rep nb r n f -> 0 <= i < n ->
  exists e, aget (elems_of r) i = Some e /\ slot_ok nb e (at_slot f i) /\ at_slot f i ⊆ concat f.
Proof.
  intros [_ _ Hs Hlen _] Hi.
  destruct (lookup_lt_is_Some_2 f (Z.to_nat i)) as [fr Hfr]; [lia|].
  destruct (Forall2_lookup_r _ _ _ _ _ Hs Hfr) as (e & He & Hok).
  exists e. rewrite aget_lookup by lia. unfold at_slot. rewrite Hfr. split_and!; [done..|].
  cbn. intros x Hx. apply elem_of_concat. exists fr. split; [done|]. by eapply list_elem_of_lookup_2.
Qed.

Lemma slot_head_null nb e fr : slot_ok nb e fr -> (el_head e =? 0) = bool_decide (fr = []).
Proof.
  intros [Ho He]. destruct fr as [|x fr _] using rev_ind.
  - by rewrite He.
  - rewrite bool_decide_false by (by destruct fr). unfold open_list in Ho. rewrite last_snoc in Ho.
    destruct Ho as (_ & q & Hl). apply Z.eqb_neq. destruct fr; cbn in Hl; naive_solver.
Qed.
Lemma slot_tail nb e fr : slot_ok nb e fr -> el_tail e = default 0 (last fr).
Proof.
  intros [Ho He]. destruct fr as [|x fr _] using rev_ind; [by rewrite He|].
  unfold open_list in Ho. rewrite last_snoc in Ho |- *. by destruct Ho as [-> _].
Qed.

Lemma runs_rr s tid r (Q : ol_rx_reorder_t -> ST -> Prop) :
  aget (tids_rx_reorder s) tid = Some r -> Q r s -> runs (rr tid) s Q.
Proof. intros Hr HQ. unfold rr. do 2 mstep. by eapply runs_oget. Qed.
Lemma runs_slot s tid i r e (Q : ol_rx_reorder_array_elem_t -> ST -> Prop) :
  aget (tids_rx_reorder s) tid = Some r -> aget (elems_of r) i = Some e -> Q e s ->
  runs (slot tid i) s Q.
Proof. intros Hr He HQ. unfold slot. mstep. eapply runs_rr; [done|]. by eapply runs_oget. Qed.

(** Emptying a slot. *)
Definition cleared (r : ol_rx_reorder_t) (i : Z) : ol_rx_reorder_t :=
  with_elems (<[Z.to_nat i := null_elem]> (elems_of r)) r.

Lemma runs_clear s tid i r n (Q : unit -> ST -> Prop) :
  aget (tids_rx_reorder s) tid = Some r -> 0 <= i < n -> Z.of_nat (length (elems_of r)) = n ->
  Q tt (set_reorder (<[Z.to_nat tid := cleared r i]> (tids_rx_reorder s)) s) ->
  runs (set_slot tid i null_elem) s Q.
Proof.
  intros Hr Hi Hlen HQ. unfold set_slot, set_rr. mstep. eapply runs_rr; [done|]. mstep.
  eapply runs_oget; [apply aset_Some; lia|]. do 2 mstep. mstep.
  eapply runs_oget; [apply aset_Some; by eapply aget_Some_range|]. by mstep.
Qed.

Lemma win_clear nb nb' r n f i : win_rep nb r n f -> 0 <= i < n ->
  (forall x, x ∈ concat (<[Z.to_nat i := []]> f) -> nb' !! x = nb !! x) ->
  win_rep nb' (cleared r i) n (<[Z.to_nat i := []]> f).
Proof.
  intros [Hk Hm Hs Hl Hnd] Hi Heq. pose proof (Forall2_length _ _ _ Hs) as Hlen. split.
  - done.
  - unfold cleared. by rewrite with_elems_mask.
  - unfold cleared. rewrite elems_with by apply length_insert.
    apply Forall2_lookup. intros j.
    destruct (<[Z.to_nat i := []]> f !! j) as [fr|] eqn:Hfr.
    + pose proof Hfr as Hfr'. destruct (decide (j = Z.to_nat i)) as [->|Hne].
      * rewrite list_lookup_insert_eq in Hfr by lia. injection Hfr as <-.
        rewrite list_lookup_insert_eq by lia. by repeat constructor.
      * rewrite list_lookup_insert_ne in Hfr by done. rewrite list_lookup_insert_ne by done.
        destruct (Forall2_lookup_r _ _ _ _ _ Hs Hfr) as (e & -> & He).
        constructor. eapply slot_ok_frame; [done|]. intros x Hx. apply Heq. apply elem_of_concat.
        exists fr. split; [done|]. by eapply list_elem_of_lookup_2.
    + apply lookup_ge_None in Hfr. rewrite length_insert in Hfr.
      rewrite (proj2 (lookup_ge_None _ _)); [constructor|]. rewrite length_insert. lia.
  - by rewrite length_insert.
  - rewrite (concat_clear f i) in Hnd by lia. by apply NoDup_app in Hnd as (_ & _ & ?).
Qed.

(** The state after frames were collected from the TID's window. *)
Definition collected s (tid : Z) (r' : ol_rx_reorder_t) (nb' : gmap Z (nbuf D)) : ST :=
  set_reorder (<[Z.to_nat tid := r']> (tids_rx_reorder s)) (set_ro_bufs nb' s).

(** A list under construction whose tail is null as long as it is empty. *)
Definition out_list (nb : gmap Z (nbuf D)) (head tail : Z) (l : list Z) : Prop :=
  open_list nb head tail l /\ (l = [] -> tail = 0).

Lemma open_list_head (nb : gmap Z (nbuf D)) h t l : open_list nb h t l -> h = hd 0 l.
Proof.
  unfold open_list. destruct l as [|y l]; [done|]. rewrite last_cons.
  destruct (last l); cbn; by intros (_ & q & -> & _).
Qed.

Lemma out_list_null (nb : gmap Z (nbuf D)) h t l : out_list nb h t l ->
  (h =? 0) = bool_decide (l = []) /\ (t =? 0) = bool_decide (l = []).
Proof.
  intros [Ho Ht]. destruct l as [|x l _] using rev_ind; [by rewrite (Ht eq_refl), Ho|].
  rewrite bool_decide_false by (by destruct l). pose proof (open_list_head _ _ _ _ Ho) as Hh.
  unfold open_list in Ho. rewrite last_snoc in Ho. destruct Ho as (-> & q & Hl).
  pose proof (lseg_nonnull _ _ _ _ Hl) as H0. split; apply Z.eqb_neq; [|set_solver].
  rewrite Hh. destruct l; cbn; set_solver.
Qed.

Lemma collected_twice s tid r1 nb1 r2 nb2 :
  collected (collected s tid r1 nb1) tid r2 nb2 = collected s tid r2 nb2.
Proof. unfold collected, set_reorder, set_ro_bufs. cbn. by rewrite list_insert_insert_eq. Qed.

(** The frames of a slot move to the list; the slot can then be emptied. *)
Lemma collect_slot s tid r n f i l head tail e :
  tid_rep s tid r n f -> 0 <= i < n -> aget (elems_of r) i = Some e -> el_head e <> 0 ->
  slot_ok (ro_bufs s) e (at_slot f i) ->
  out_list (ro_bufs s) head tail l -> NoDup (l ++ concat f) ->
  runs (ADD_MPDU_TO_LIST head tail (el_head e) (el_tail e)) s (fun ht s' => exists nb',
    s' = set_ro_bufs nb' s /\ relinked l (ro_bufs s) nb' /\
    out_list nb' ht.1 ht.2 (l ++ at_slot f i) /\
    win_rep nb' (cleared r i) n (<[Z.to_nat i := []]> f) /\ ht.2 = el_tail e).
Proof.
  intros [Hr Hw] Hi He Hh0 Hok [Ho Ht] Hnd.
  pose proof (wr_length _ _ _ _ Hw) as Hlen.
  pose proof (slot_head_null _ _ _ Hok) as Hh. rewrite (proj2 (Z.eqb_neq _ _) Hh0) in Hh.
  assert (Hfr : at_slot f i <> []).
  { intros Hfr. rewrite Hfr in Hh. by rewrite bool_decide_true in Hh. }
  rewrite (concat_clear f i) in Hnd by lia. rewrite app_assoc in Hnd.
  pose proof Hnd as (Hnd1 & Hdis & _)%NoDup_app.
  pose proof Hok as [Hopen _]. unfold open_list in Hopen.
  pose proof (slot_tail _ _ _ Hok) as Htail.
  destruct (last (at_slot f i)) as [t|] eqn:Hlast; [|by apply last_None in Hlast].
  destruct Hopen as (_ & q & Hl). cbn in Htail.
  replace (el_tail e) with (default 0 (last (at_slot f i))) by by rewrite Hlast.
  eapply runs_mono; [by eapply (ADD_MPDU_TO_LIST_spec (S:=ST))|].
  intros [h' t'] s' (nb' & -> & Hrel & Hopen'). exists nb'. split_and!; [done|done| | |].
  - split; [done|]. by intros [_ ?]%app_nil.
  - apply win_clear with (ro_bufs s); [done|done|]. intros x Hx. apply Hrel. set_solver.
  - unfold open_list in Hopen'. rewrite last_app, Hlast in Hopen'. cbn in *. rewrite Hlast. by destruct Hopen'.
Qed.

(** The release appends to its list as the flush does. *)
Lemma release_append s head tail l e ht s' :
  out_list (ro_bufs s) head tail l ->
  ADD_MPDU_TO_LIST head tail (el_head e) (el_tail e) s = Some (ht, s') ->
  ((if negb (tail =? 0) then adf_nbuf_set_next tail (el_head e) else mreturn tt) ;; mreturn (el_tail e)) s
  = Some (el_tail e, s').
Proof.
  intros Hout. destruct (out_list_null _ _ _ _ Hout) as [Hh Ht].
  unfold ADD_MPDU_TO_LIST. rewrite Hh, Ht. case_bool_decide as Hl; cbn [negb].
  - intros [= <- <-]. done.
  - unfold mbnd. destruct (adf_nbuf_set_next tail (el_head e) s) as [[[] s1]|]; [|done].
    by intros [= <- <-].
Qed.

(** Emptying a slot whose frames, if any, have been collected. *)
Lemma clear_slot s tid r n f i nb' (Q : unit -> ST -> Prop) :
  tid_rep s tid r n f -> 0 <= i < n ->
  Q tt (collected s tid (cleared r i) nb') ->
  runs (set_slot tid i null_elem) (set_ro_bufs nb' s) Q.
Proof.
  intros [Hr Hw] Hi HQ. eapply runs_clear; [exact Hr|exact Hi| |exact HQ].
  rewrite (Forall2_length _ _ _ (wr_slots _ _ _ _ Hw)). apply Hw.
Qed.

Lemma collected_rep s tid r n f r' nb' f' :
  tid_rep s tid r n f -> win_rep nb' r' n f' -> tid_rep (collected s tid r' nb') tid r' n f'.
Proof.
  intros [Hr _] Hw. split; [|done]. cbn. by apply aget_insert_eq, (aget_Some_range _ _ _ Hr).
Qed.

(** What a walk over the window leaves: the state, and the collected frames. *)
Definition swept s (tid : Z) (r : ol_rx_reorder_t) (n : Z) (l : list Z) (sw : list Z * list (list Z))
    (head tail : Z) s' : Prop :=
  exists nb' r', s' = collected s tid r' nb' /\ relinked (l ++ sw.1) (ro_bufs s) nb' /\
    win_rep nb' r' n sw.2 /\ on_waitlist r' = on_waitlist r /\ out_list nb' head tail (l ++ sw.1).

Lemma swept_nil s tid r n f l head tail :
  tid_rep s tid r n f -> out_list (ro_bufs s) head tail l -> swept s tid r n l ([], f) head tail s.
Proof.
  intros [Hr Hw] Ho. exists (ro_bufs s), r. split_and!.
  - unfold collected. rewrite list_insert_id; [by destruct s|].
    rewrite <- aget_lookup; [done|]. by eapply aget_Some_range.
  - apply relinked_refl.
  - done.
  - done.
  - cbn. by rewrite app_nil_r.
Qed.

Lemma swept_cons s tid r n f l i nb1 r1 sw head tail s' :
  relinked l (ro_bufs s) nb1 -> on_waitlist r1 = on_waitlist r ->
  swept (collected s tid r1 nb1) tid r1 n (l ++ at_slot f i) sw head tail s' ->
  swept s tid r n l (at_slot f i ++ sw.1, sw.2) head tail s'.
Proof.
  intros Hrel Hwl1 (nb' & r' & -> & Hrel' & Hw & Hwl & Ho). exists nb', r'. cbn in *.
  rewrite app_assoc. split_and!; [by rewrite collected_twice| |done|by rewrite Hwl|done].
  eapply relinked_trans; [|exact Hrel']. eapply relinked_mono; [|exact Hrel]. set_solver.
Qed.

Lemma win_next nb r n f i : win_rep nb r n f -> Z.land (i + 1) (win_sz_mask r) = (i + 1) mod n.
Proof. intros Hw. by erewrite win_mask. Qed.

(** The loop of a release. *)
Lemma release_loop tid m : forall s r n f l i head tail fuel idx_end,
  tid_rep s tid r n f -> 0 <= i < n -> out_list (ro_bufs s) head tail l -> NoDup (l ++ concat f) ->
  Z.of_nat m < n -> (i + Z.of_nat m) mod n = idx_end -> (m < fuel)%nat ->
  runs (miter fuel (release_round tid (win_sz_mask r) idx_end) (i, tail)) s (fun tail' s' =>
    exists head', swept s tid r n l (sweep n f i m) head' tail' s').
Proof.
  induction m as [|m IH]; intros s r n f l i head tail [|fuel] idx_end Hrep Hi Ho Hnd Hm Hend Hf; try lia.
  - cbn [miter]. mstep. unfold release_round. rewrite Z.add_0_r, Z.mod_small in Hend by done.
    rewrite (proj2 (Z.eqb_eq i idx_end) Hend). do 2 mstep. exists head. by apply swept_nil.
  - pose proof (proj2 Hrep) as Hw. destruct (win_slot _ _ _ _ _ Hw Hi) as (e & He & Hok & Hsub).
    pose proof (wr_length _ _ _ _ Hw) as Hlen.
    assert (Hne : i <> idx_end) by (rewrite <- Hend; symmetry; apply mod_ne; lia).
    assert (Hi' : 0 <= (i + 1) mod n < n) by (apply Z.mod_pos_bound; lia).
    assert (Hend' : ((i + 1) mod n + Z.of_nat m) mod n = idx_end) by (rewrite <- Hend, mod_step by lia; f_equal; lia).
    cbn [miter]. mstep. unfold release_round at 1. rewrite (proj2 (Z.eqb_neq _ _) Hne).
    mstep. eapply runs_slot; [apply Hrep|exact He|]. mstep. cbn [sweep]. cbv zeta.
    destruct (el_head e =? 0) eqn:Hh.
    + assert (Hfr : at_slot f i = []).
      { rewrite (slot_head_null _ _ _ Hok) in Hh. by apply bool_decide_eq_true in Hh. }
      cbn [negb]. do 2 mstep. rewrite <- (set_nbufs_id (NbufStore:=ro_store) s) at 1.
      eapply clear_slot; [exact Hrep|exact Hi|]. mstep.
      rewrite (win_next _ _ _ _ _ Hw). eapply runs_mono.
      { erewrite <- (with_elems_mask _ r). eapply IH; [| | | | |exact Hend'|lia].
        - eapply collected_rep; [exact Hrep|]. by apply win_clear with (ro_bufs s).
        - done.
        - exact Ho.
        - rewrite (concat_clear f i), Hfr in Hnd by lia. done.
        - lia. }
      intros tail' s' (head' & Hsw). exists head'.
      apply (swept_cons _ _ _ _ f _ i (ro_bufs s) (cleared r i)); [apply relinked_refl|apply with_elems_waitlist|].
      rewrite Hfr, app_nil_r. exact Hsw.
    + apply Z.eqb_neq in Hh. cbn [negb].
      pose proof (collect_slot _ _ _ _ _ _ _ _ _ _ Hrep Hi He Hh Hok Ho Hnd) as Hc.
      apply runs_elim in Hc as ([h' t'] & s1 & Hadd & nb' & -> & Hrel & Ho' & Hw' & Ht'). cbn in Ho', Ht'. subst t'.
      eapply runs_intro; [by eapply release_append|]. cbn beta. mstep.
      eapply clear_slot; [exact Hrep|exact Hi|]. mstep.
      rewrite (win_next _ _ _ _ _ Hw). eapply runs_mono.
      { erewrite <- (with_elems_mask _ r). eapply IH; [| | | | |exact Hend'|lia].
        - by eapply collected_rep.
        - done.
        - exact Ho'.
        - rewrite (concat_clear f i) in Hnd by lia. by rewrite <- app_assoc.
        - lia. }
      intros tail' s' (head' & Hsw). exists head'.
      by apply (swept_cons _ _ _ _ f _ i nb' (cleared r i)); [|apply with_elems_waitlist|].
Qed.

(** A round of a flush collects one slot. *)
Lemma collect_step s tid r n f i l ht e :
  tid_rep s tid r n f -> 0 <= i < n -> aget (elems_of r) i = Some e ->
  slot_ok (ro_bufs s) e (at_slot f i) ->
  out_list (ro_bufs s) ht.1 ht.2 l -> NoDup (l ++ concat f) ->
  runs (if negb (el_head e =? 0) then
          ht <- ADD_MPDU_TO_LIST ht.1 ht.2 (el_head e) (el_tail e) ;; set_slot tid i null_elem ;; mreturn ht
        else mreturn ht) s
    (fun ht1 s1 => exists nb1 r1, s1 = collected s tid r1 nb1 /\
      relinked l (ro_bufs s) nb1 /\ win_rep nb1 r1 n (<[Z.to_nat i := []]> f) /\
      on_waitlist r1 = on_waitlist r /\ win_sz_mask r1 = win_sz_mask r /\
      out_list nb1 ht1.1 ht1.2 (l ++ at_slot f i)).
Proof.
  intros Hrep Hi He Hok Ho Hnd. pose proof (proj2 Hrep) as Hw.
  pose proof (wr_length _ _ _ _ Hw) as Hlen. destruct (el_head e =? 0) eqn:Hh; cbn [negb].
  - rewrite (slot_head_null _ _ _ Hok) in Hh. apply bool_decide_eq_true in Hh. mstep.
    exists (ro_bufs s), r. destruct (swept_nil s tid r n f l _ _ Hrep Ho) as (nb' & r' & Hs & _).
    rewrite Hh, app_nil_r. rewrite list_insert_id; [|unfold at_slot in Hh].
    + split_and!; try done.
      unfold collected. rewrite list_insert_id; [by destruct s|].
      destruct Hrep as [Hr _]. rewrite <- aget_lookup; [done|]. by eapply aget_Some_range.
    + destruct (lookup_lt_is_Some_2 f (Z.to_nat i)) as [fr Hfr]; [lia|]. rewrite Hfr in Hh |- *. cbn in Hh. by subst fr.
  - apply Z.eqb_neq in Hh. mstep. eapply runs_mono; [by eapply collect_slot|].
    intros ht' s' (nb' & -> & Hrel & Ho' & Hw' & _). mstep.
    eapply clear_slot; [exact Hrep|exact Hi|]. mstep. exists nb', (cleared r i).
    split_and!; try done; [apply with_elems_waitlist|apply with_elems_mask].
Qed.

(** The loop of a flush: at least one slot, up to the whole window. *)
Lemma flush_loop tid m : forall s r n f l i ht fuel idx_end,
  tid_rep s tid r n f -> 0 <= i < n -> out_list (ro_bufs s) ht.1 ht.2 l -> NoDup (l ++ concat f) ->
  Z.of_nat m < n -> (i + Z.of_nat (Datatypes.S m)) mod n = idx_end -> (m < fuel)%nat ->
  runs (miter fuel (flush_round tid (win_sz_mask r) idx_end) (i, ht)) s (fun ht' s' =>
    swept s tid r n l (sweep n f i (Datatypes.S m)) ht'.1 ht'.2 s').
Proof.
  induction m as [|m IH]; intros s r n f l i ht [|fuel] idx_end Hrep Hi Ho Hnd Hm Hend Hf; try lia.
  all: pose proof (proj2 Hrep) as Hw; destruct (win_slot _ _ _ _ _ Hw Hi) as (e & He & Hok & Hsub).
  all: pose proof (wr_length _ _ _ _ Hw) as Hlen; cbn [miter]; mstep; unfold flush_round at 1; mstep.
  all: eapply runs_slot; [apply Hrep|exact He|]; mstep; rewrite (win_next _ _ _ _ _ Hw).
  all: eapply runs_mono; [by eapply collect_step|].
  all: intros ht1 s1 (nb1 & r1 & -> & Hrel1 & Hw1 & Hwl1 & Hm1 & Ho1).
  - change (Z.of_nat 1) with 1 in Hend. rewrite (proj2 (Z.eqb_eq _ _) Hend). do 2 mstep. apply (swept_cons _ _ _ _ f _ i nb1 r1); [done..|].
    apply swept_nil; [by eapply collected_rep|exact Ho1].
  - assert (Hi' : 0 <= (i + 1) mod n < n) by (apply Z.mod_pos_bound; lia).
    assert (Hend' : ((i + 1) mod n + Z.of_nat (Datatypes.S m)) mod n = idx_end)
      by (rewrite <- Hend, mod_step by lia; f_equal; lia).
    assert (Hne : (i + 1) mod n <> idx_end) by (rewrite <- Hend'; symmetry; apply mod_ne; lia).
    rewrite (proj2 (Z.eqb_neq _ _) Hne). mstep. rewrite <- Hm1.
    eapply runs_mono; [eapply IH; [by eapply collected_rep|done|exact Ho1| |lia|exact Hend'|lia]|].
    + rewrite (concat_clear f i) in Hnd by lia. by rewrite <- app_assoc.
    + intros ht' s' Hsw. by apply (swept_cons _ _ _ _ f _ i nb1 r1).
Qed.

(** ** Whole operations *)

(** The positions a release or a flush from [idx_start] to [idx_end] (exclusive) visits: at
    least one, the whole window if they coincide. *)
Definition visited (n idx_start idx_end : Z) : list Z :=
  window n (idx_start mod n) ((idx_end - idx_start - 1) mod n + 1).
Definition visited_frames (n : Z) f (idx_start idx_end : Z) : list Z :=
  visited n idx_start idx_end ≫= at_slot f.

(** The TID has valid entries in the per-TID arrays. *)
Definition tid_ok s (tid : Z) : Prop :=
  is_Some (aget (tids_next_rel_idx s) tid) /\ is_Some (aget (tids_last_seq s) tid).

(** The sequence number in the descriptor of a buffer. *)
Definition seq_of (nb : gmap Z (nbuf D)) (x : Z) : Z :=
  match nb !! x with Some b => u16 (rx_seq_num (nb_desc b)) | None => 0 end.

(** The window afterwards: the visited slots are empty, the others as before. *)
Definition window_after s s' (tid n : Z) f (idx_start idx_end : Z) : Prop :=
  exists r' f', tid_rep s' tid r' n f' /\
    forall x, 0 <= x < n -> at_slot f' x = if decide (x ∈ visited n idx_start idx_end) then [] else at_slot f x.

(** Other TIDs are not touched. *)
Definition other_tids s s' (tid : Z) : Prop :=
  forall t, t <> tid -> aget (tids_rx_reorder s') t = aget (tids_rx_reorder s) t /\
    aget (tids_next_rel_idx s') t = aget (tids_next_rel_idx s) t /\
    aget (tids_last_seq s') t = aget (tids_last_seq s) t.

Lemma visited_sweep n f idx_start idx_end : 0 < n -> Z.of_nat (length f) = n ->
  let m := Z.to_nat ((idx_end - idx_start - 1) mod n) in
  let sw := sweep n f (idx_start mod n) (Datatypes.S m) in
  Z.of_nat m < n /\ (idx_start mod n + Z.of_nat (Datatypes.S m)) mod n = idx_end mod n /\
  sw.1 = visited_frames n f idx_start idx_end /\
  (forall x, 0 <= x < n -> at_slot sw.2 x = if decide (x ∈ visited n idx_start idx_end) then [] else at_slot f x).
Proof.
  intros Hn Hf m sw. pose proof (Z.mod_pos_bound (idx_end - idx_start - 1) n Hn) as Hb.
  pose proof (Z.mod_pos_bound idx_start n Hn) as Hs.
  assert (Hm : Z.of_nat (Datatypes.S m) = (idx_end - idx_start - 1) mod n + 1) by lia.
  destruct (sweep_spec n f (idx_start mod n) (Datatypes.S m) Hn Hs ltac:(lia) Hf) as (H1 & _ & H3).
  rewrite Hm in H1, H3. split_and!; [lia| |exact H1|exact H3].
  rewrite Hm, Zplus_mod_idemp_l, (Z.add_comm _ 1), Z.add_assoc, Zplus_mod_idemp_r. f_equal. lia.
Qed.

Lemma frames_in (sw : list Z * list (list Z)) n f i m : Z.of_nat (length f) = n -> 0 < n -> 0 <= i < n ->
  NoDup (concat f) -> sw = sweep n f i m -> NoDup (sw.1 ++ concat sw.2).
Proof.
  intros Hf Hn Hi Hnd ->. assert (Hp : (sweep n f i m).1 ++ concat (sweep n f i m).2 ≡ₚ concat f).
  { clear Hnd. revert f i Hf Hi. induction m as [|m IH]; intros f i Hf Hi; cbn; [done|].
    rewrite <- app_assoc, IH by (rewrite ?length_insert; auto using Z.mod_pos_bound).
    by rewrite <- concat_clear by lia. }
  by rewrite Hp.
Qed.

(** Closing a collected list. *)
Lemma close_list_spec s tid head tail l :
  out_list (ro_bufs s) head tail l -> l <> [] -> NoDup l -> is_Some (aget (tids_last_seq s) tid) ->
  runs (close_list tid head tail) s (fun _ s' => exists nb' v,
    s' = set_ro_bufs nb' (set_last_seq v s) /\
    aset (tids_last_seq s) tid (seq_of (ro_bufs s) head) = Some v /\
    lseg nb' head l 0 /\ relinked l (ro_bufs s) nb').
Proof.
  intros [Ho _] Hne Hnd [q0 Hq0]. pose proof (open_list_head _ _ _ _ Ho) as Hh.
  destruct l as [|x l _] using rev_ind; [done|]. unfold open_list in Ho. rewrite last_snoc in Ho.
  destruct Ho as (-> & q & Hl).
  assert (Hhin : head ∈ l ++ [x]) by (rewrite Hh; destruct l; cbn; set_solver).
  destruct (lseg_alloc _ _ _ _ head Hl Hhin) as [bh Hbh].
  destruct (lseg_alloc _ _ _ _ x Hl ltac:(set_solver)) as [bx Hbx].
  pose proof (aset_Some (tids_last_seq s) tid (u16 (rx_seq_num (nb_desc bh))) (aget_Some_range _ _ _ Hq0)) as Hv.
  unfold close_list, set_last_seq_num. mstep. eapply (runs_desc (S:=ST)); [exact Hbh|]. do 3 mstep. mstep.
  eapply runs_oget; [exact Hv|]. mstep. eapply (runs_set_next (S:=ST)); [exact Hbx|].
  eexists _, _. split_and!; [reflexivity| | |].
  - unfold seq_of. by rewrite Hbh.
  - eapply lseg_relink; [exact Hl| |exact Hbx]. apply NoDup_app in Hnd as (_ & Hd & _). set_solver.
  - apply relinked_next; [set_solver|exact Hbx].
Qed.

Lemma runs_set_next_rel s tid v (Q : unit -> ST -> Prop) :
  is_Some (aget (tids_next_rel_idx s) tid) ->
  (forall l, aset (tids_next_rel_idx s) tid (u16 v) = Some l -> Q tt (set_next_rel l s)) ->
  runs (set_next_rel_idx tid v) s Q.
Proof.
  intros [w Hw] HQ. unfold set_next_rel_idx. do 2 mstep. mstep.
  pose proof (aset_Some (tids_next_rel_idx s) tid (u16 v) (aget_Some_range _ _ _ Hw)) as Hl.
  eapply runs_oget; [exact Hl|]. mstep. by apply HQ.
Qed.

Lemma slot_out nb e fr : slot_ok nb e fr -> out_list nb (el_head e) (el_tail e) fr.
Proof. intros [Ho He]. split; [done|]. intros Hfr. by rewrite He. Qed.

(** The collecting part of a release. *)
Lemma release_sweep (rx_opt_proc : Z -> Z -> M ST unit) s tid r n f idx_start idx_end Q :
  tid_rep s tid r n f -> tid_ok s tid ->
  (forall e head' tail' s0 s', (exists v, aset (tids_next_rel_idx s) tid (u16 idx_end) = Some v /\ s0 = set_next_rel v s) ->
     slot_ok (ro_bufs s) e (at_slot f (idx_start mod n)) ->
     swept s0 tid r n [] (sweep n f (idx_start mod n) (Datatypes.S (Z.to_nat ((idx_end - idx_start - 1) mod n)))) head' tail' s' ->
     runs (if negb (el_head e =? 0) then close_list tid (el_head e) tail' ;; rx_opt_proc tid (el_head e)
           else mreturn tt) s' Q) ->
  runs (ol_rx_reorder_release rx_opt_proc tid idx_start idx_end) s Q.
Proof.
  intros Hrep [Hnr Hls] HQ. pose proof (proj2 Hrep) as Hw. pose proof (win_pos _ _ _ _ Hw) as Hn.
  pose proof (wr_length _ _ _ _ Hw) as Hlen.
  destruct (visited_sweep n f idx_start idx_end ltac:(lia) Hlen) as (Hm & Hend & _ & _).
  set (m := Z.to_nat ((idx_end - idx_start - 1) mod n)) in *.
  assert (Hi : 0 <= idx_start mod n < n) by (apply Z.mod_pos_bound; lia).
  destruct (win_slot _ _ _ _ _ Hw Hi) as (e & He & Hok & Hsub).
  unfold ol_rx_reorder_release. mstep. apply runs_set_next_rel; [done|]. intros v Hv.
  assert (Hrep0 : tid_rep (set_next_rel v s) tid r n f) by exact Hrep.
  mstep. eapply runs_rr; [apply Hrep0|]. rewrite !(win_mask _ _ _ _ _ Hw). mstep.
  eapply runs_slot; [apply Hrep0|exact He|]. mstep.
  rewrite <- (set_nbufs_id (NbufStore:=ro_store) (set_next_rel v s)).
  eapply clear_slot; [exact Hrep0|exact Hi|]. mstep.
  assert (Hnd : NoDup (at_slot f (idx_start mod n) ++ concat (<[Z.to_nat (idx_start mod n) := []]> f))).
  { rewrite <- concat_clear by lia. apply Hw. }
  assert (Hend' : ((idx_start mod n + 1) mod n + Z.of_nat m) mod n = idx_end mod n).
  { rewrite <- Hend, mod_step by lia. f_equal. lia. }
  eapply runs_mono.
  { rewrite <- (with_elems_mask (<[Z.to_nat (idx_start mod n) := null_elem]> (elems_of r)) r).
    eapply release_loop with (n := n) (m := m).
    - eapply collected_rep; [exact Hrep0|]. by apply win_clear with (ro_bufs s).
    - apply Z.mod_pos_bound. lia.
    - apply slot_out. exact Hok.
    - exact Hnd.
    - exact Hm.
    - exact Hend'.
    - unfold window_fuel. lia. }
  cbn beta. intros tail' s' (head' & Hsw).
  eapply (HQ e head' tail' (set_next_rel v s)); [by exists v|exact Hok|].
 
  cbn [sweep]. cbv zeta. eapply (swept_cons _ _ _ _ f _ _ (ro_bufs s)); [apply relinked_refl|apply with_elems_waitlist|].
  exact Hsw.
Qed.

(** The state in which a released list is handed over. *)
Record handed_over s s' (tid n : Z) f (idx_start idx_end next : Z) (frames : list Z) : Prop := {
  ho_window : window_after s s' tid n f idx_start idx_end;
  ho_list : lseg (ro_bufs s') (hd 0 frames) frames 0;
  ho_bufs : relinked frames (ro_bufs s) (ro_bufs s');
  ho_seq : aget (tids_last_seq s') tid = Some (seq_of (ro_bufs s) (hd 0 frames));
  ho_next : aget (tids_next_rel_idx s') tid = Some (u16 next);
  ho_others : other_tids s s' tid
}.

Lemma seq_of_relinked X nb nb' x : relinked X nb nb' -> seq_of nb' x = seq_of nb x.
Proof.
  intros [Hd _]. specialize (Hd x). unfold seq_of.
  destruct (nb' !! x), (nb !! x); cbn in Hd; congruence.
Qed.

(** A non-empty collected list is closed and handed over in the right state. *)
Lemma swept_handed_over s tid r r0 n f idx_start idx_end next v head tail s1 :
  tid_rep s tid r n f -> tid_ok s tid -> aset (tids_next_rel_idx s) tid (u16 next) = Some v ->
  swept (set_next_rel v s) tid r0 n [] (sweep n f (idx_start mod n)
    (Datatypes.S (Z.to_nat ((idx_end - idx_start - 1) mod n)))) head tail s1 ->
  visited_frames n f idx_start idx_end <> [] ->
  head = hd 0 (visited_frames n f idx_start idx_end) /\
  runs (close_list tid head tail) s1 (fun _ s' =>
    handed_over s s' tid n f idx_start idx_end next (visited_frames n f idx_start idx_end) /\
    waitlist s' = waitlist s /\
    exists r', aget (tids_rx_reorder s') tid = Some r' /\ on_waitlist r' = on_waitlist r0).
Proof.
  intros Hrep [Hnr Hls] Hv (nb1 & r1 & -> & Hrel & Hw1 & Hwl & Ho) Hne.
  pose proof (proj2 Hrep) as Hw. pose proof (win_pos _ _ _ _ Hw) as Hn. pose proof (wr_length _ _ _ _ Hw) as Hlen.
  destruct (visited_sweep n f idx_start idx_end ltac:(lia) Hlen) as (Hm & Hend & Hfr & Hafter).
  set (sw := sweep _ _ _ _) in *. cbn [app] in Ho, Hrel. rewrite Hfr in Ho, Hrel.
  set (l := visited_frames n f idx_start idx_end) in *.
  assert (Hi : 0 <= idx_start mod n < n) by (apply Z.mod_pos_bound; lia).
  assert (Hnd : NoDup l).
  { pose proof (frames_in sw n f _ _ Hlen ltac:(lia) Hi (wr_nodup _ _ _ _ Hw) eq_refl) as Hnd.
    rewrite Hfr in Hnd. by apply NoDup_app in Hnd as [? _]. }
  assert (Hdis : forall x, x ∈ l -> x ∉ concat sw.2).
  { pose proof (frames_in sw n f _ _ Hlen ltac:(lia) Hi (wr_nodup _ _ _ _ Hw) eq_refl) as Hnd'.
    rewrite Hfr in Hnd'. by apply NoDup_app in Hnd' as (_ & ? & _). }
  pose proof (open_list_head _ _ _ _ (proj1 Ho)) as Hh. split; [exact Hh|].
  pose proof (aget_Some_range _ _ _ (proj1 Hrep)) as Htid.
  eapply runs_mono; [by apply (close_list_spec _ tid head tail l)|].
  intros [] s' (nb2 & q & -> & Hq & Hl & Hrel2). cbn in Hq, Hrel2. split.
  - split; cbn.
    + exists r1, sw.2. split; [split; [by apply aget_insert_eq|]|exact Hafter].
      eapply win_rep_frame; [exact Hw1|]. intros x Hx. apply Hrel2. intros Hx'. by apply (Hdis x Hx').
    + rewrite <- Hh. exact Hl.
    + eapply relinked_trans; [exact Hrel|exact Hrel2].
    + rewrite <- Hh. pose proof (seq_of_relinked _ _ _ head Hrel) as Hsq. cbn in Hsq.
      rewrite <- Hsq. by eapply aget_aset_eq.
    + by eapply aget_aset_eq.
    + intros t Ht. cbn. split_and!; [|by eapply aget_aset_ne|by eapply aget_aset_ne].
      apply aget_insert_ne; [lia|done].
  - split; [done|]. exists r1. cbn. split; [by apply aget_insert_eq|done].
Qed.

(** With no frame collected, the window is walked and nothing else happens. *)
Lemma swept_none s tid r r0 n f idx_start idx_end next v head tail s1 :
  tid_rep s tid r n f -> aset (tids_next_rel_idx s) tid (u16 next) = Some v ->
  swept (set_next_rel v s) tid r0 n [] (sweep n f (idx_start mod n)
    (Datatypes.S (Z.to_nat ((idx_end - idx_start - 1) mod n)))) head tail s1 ->
  window_after s s1 tid n f idx_start idx_end /\
  relinked (visited_frames n f idx_start idx_end) (ro_bufs s) (ro_bufs s1) /\
  out_list (ro_bufs s1) head tail (visited_frames n f idx_start idx_end) /\
  aget (tids_next_rel_idx s1) tid = Some (u16 next) /\ tids_last_seq s1 = tids_last_seq s /\
  other_tids s s1 tid.
Proof.
  intros Hrep Hv (nb1 & r1 & -> & Hrel & Hw1 & _ & Ho).
  pose proof (proj2 Hrep) as Hw. pose proof (win_pos _ _ _ _ Hw) as Hn. pose proof (wr_length _ _ _ _ Hw) as Hlen.
  destruct (visited_sweep n f idx_start idx_end ltac:(lia) Hlen) as (Hm & Hend & Hfr & Hafter).
  set (sw := sweep _ _ _ _) in *. cbn [app] in Ho, Hrel. rewrite Hfr in Ho, Hrel.
  pose proof (aget_Some_range _ _ _ (proj1 Hrep)) as Htid.
  split; [exists r1, sw.2; split; [split; [by apply aget_insert_eq|done]|exact Hafter]|].
  split; [exact Hrel|]. split; [exact Ho|].
  split; [exact (aget_aset_eq _ _ _ _ Hv)|]. split; [done|].
  intros t Ht. cbn. split; [apply aget_insert_ne; [lia|done]|].
  split; [by eapply aget_aset_ne|done].
Qed.

Lemma waitlist_remove_spec s tid r :
  aget (tids_rx_reorder s) tid = Some r ->
  ol_rx_defrag_waitlist_remove tid s = Some (tt,
    if on_waitlist r
    then set_reorder (<[Z.to_nat tid := set_on_waitlist false r]> (tids_rx_reorder s))
           (set_waitlist (filter (fun t => t <> tid) (waitlist s)) s)
    else s).
Proof.
  intros Hr. unfold ol_rx_defrag_waitlist_remove, set_rr, rr, mbnd, mget, oget, modify. cbn. rewrite Hr. cbn.
  destruct (on_waitlist r); [|done]. cbn.
  rewrite (aset_Some _ _ _ (aget_Some_range _ _ _ Hr)). done.
Qed.

Definition flush_end (idx_start idx_end : Z) : Z := if idx_end =? 0xffff then idx_start else idx_end.
Definition flush_next (idx_end : Z) : Z := if idx_end =? 0xffff then 0 else idx_end.

(** The collecting part of a flush. *)
Lemma flush_sweep (rx_opt_proc : Z -> Z -> M ST unit) s tid r n f idx_start idx_end action Q :
  tid_rep s tid r n f -> tid_ok s tid ->
  (forall w v ht s1, aset (tids_next_rel_idx s) tid (u16 (flush_next idx_end)) = Some v ->
     w = (if on_waitlist r then filter (fun t => t <> tid) (waitlist s) else waitlist s) ->
     swept (set_next_rel v (set_waitlist w s)) tid (set_on_waitlist false r) n []
       (sweep n f (idx_start mod n)
          (Datatypes.S (Z.to_nat ((flush_end idx_start idx_end - idx_start - 1) mod n)))) ht.1 ht.2 s1 ->
     runs (if negb (ht.1 =? 0) then
             close_list tid ht.1 ht.2 ;;
             match action with
             | htt_rx_flush_release => rx_opt_proc tid ht.1
             | htt_rx_flush_discard => ol_rx_frames_free ht.1
             end
           else mreturn tt) s1 Q) ->
  runs (ol_rx_reorder_flush rx_opt_proc tid idx_start idx_end action) s Q.
Proof.
  intros Hrep [Hnr Hls] HQ. pose proof (proj2 Hrep) as Hw. pose proof (win_pos _ _ _ _ Hw) as Hn.
  pose proof (wr_length _ _ _ _ Hw) as Hlen.
  destruct (visited_sweep n f idx_start (flush_end idx_start idx_end) ltac:(lia) Hlen) as (Hm & Hend & _ & _).
  set (m := Z.to_nat ((flush_end idx_start idx_end - idx_start - 1) mod n)) in *.
  unfold ol_rx_reorder_flush. mstep. eapply runs_rr; [apply Hrep|]. mstep.
  assert (Hnext : runs (if idx_end =? 0xffff then set_next_rel_idx tid 0 ;; mreturn idx_start
     else set_next_rel_idx tid idx_end ;; mreturn idx_end) s (fun ie s0 =>
     ie = flush_end idx_start idx_end /\
     exists v, aset (tids_next_rel_idx s) tid (u16 (flush_next idx_end)) = Some v /\ s0 = set_next_rel v s)).
  { unfold flush_end, flush_next. destruct (idx_end =? 0xffff); mstep;
      (apply runs_set_next_rel; [done|]; intros v Hv; mstep; split; [done|by exists v]). }
  eapply runs_mono; [exact Hnext|]. intros ie s0 (-> & v & Hv & ->). mstep.
  rewrite !(win_mask _ _ _ _ _ Hw). eapply runs_mono.
  { eapply (flush_loop tid m (set_next_rel v s) r n f []); [exact Hrep| |by split| |exact Hm|exact Hend|].
    - apply Z.mod_pos_bound. lia.
    - apply Hw.
    - unfold window_fuel. lia. }
  intros ht s1 (nb1 & r1 & -> & Hrel & Hw1 & Hwl & Ho). mstep.
  pose proof (aget_Some_range _ _ _ (proj1 Hrep)) as Htid.
  eapply runs_intro; [apply waitlist_remove_spec; cbn; by apply aget_insert_eq|]. cbn beta.
  apply (HQ (if on_waitlist r then filter (fun t => t <> tid) (waitlist s) else waitlist s) v); [exact Hv|done|].
  exists nb1, (set_on_waitlist false r1). rewrite Hwl.
  split; [|split; [exact Hrel|split; [by destruct Hw1|split; [done|exact Ho]]]].
  destruct (on_waitlist r) eqn:Hwr.
  - unfold collected, set_reorder. cbn. by rewrite list_insert_insert_eq.
  - assert (Hr1 : set_on_waitlist false r1 = r1) by (unfold set_on_waitlist; rewrite <- Hwl; by destruct r1).
    rewrite Hr1. by destruct s.
Qed.

(** *** Freeing *)

(** [nb'] is [nb] without the buffers [l]. *)
Definition freed (l : list Z) (nb nb' : gmap Z (nbuf D)) : Prop :=
  forall x, nb' !! x = if decide (x ∈ l) then None else nb !! x.

Lemma freed_nil nb : freed [] nb nb.
Proof. intros x. by rewrite decide_False by set_solver. Qed.
Lemma freed_app l1 l2 nb nb1 nb2 : freed l1 nb nb1 -> freed l2 nb1 nb2 -> freed (l1 ++ l2) nb nb2.
Proof.
  intros H1 H2 x. rewrite H2, H1. repeat case_decide; set_solver.
Qed.
Lemma freed_relinked l nb nb1 nb2 : relinked l nb nb1 -> freed l nb1 nb2 -> freed l nb nb2.
Proof. intros [_ Ho] Hf x. rewrite Hf. case_decide; [done|by apply Ho]. Qed.

Lemma frames_free_loop (l : list Z) : forall s p fuel,
  lseg (ro_bufs s) p l 0 -> NoDup l -> (length l < fuel)%nat ->
  runs (miter fuel (fun frag =>
    if frag =? 0 then mreturn (inr tt)
    else
      next <- adf_nbuf_next frag ;;
      htt_rx_desc_frame_free frag ;;
      mreturn (inl next)) p) s (fun _ s' => exists nb', s' = set_ro_bufs nb' s /\ freed l (ro_bufs s) nb').
Proof.
  induction l as [|x l IH]; intros s p [|fuel] Hl Hnd Hf; cbn in Hf; try lia; cbn [miter].
  - cbn in Hl. subst p. cbn [Z.eqb]. do 2 mstep. mstep. exists (ro_bufs s). split; [by destruct s|apply freed_nil].
  - destruct Hl as (-> & Hne & b & Hb & Hl). apply NoDup_cons in Hnd as [Hx Hnd].
    rewrite (proj2 (Z.eqb_neq _ _) Hne). do 2 mstep. eapply (runs_adf_nbuf_next (S:=ST)); [exact Hb|].
    mstep. apply (runs_free (S:=ST)); [by exists b|]. mstep. cbn [nbufs set_nbufs ro_store].
    eapply runs_mono; [apply IH; [|done|lia]|].
    + eapply lseg_frame; [exact Hl|]. intros y Hy. cbn. rewrite lookup_delete_ne; [done|]. set_solver.
    + intros [] s' (nb' & -> & Hfr). exists nb'. split; [done|]. intros y. rewrite Hfr. cbn.
      destruct (decide (y = x)) as [->|Hyx].
      * rewrite lookup_delete_eq. rewrite (decide_True (P := x ∈ x :: l)) by set_solver. by case_decide.
      * rewrite lookup_delete_ne by done. repeat case_decide; set_solver.
Qed.

Lemma ol_rx_frames_free_spec s p l :
  lseg (ro_bufs s) p l 0 -> NoDup l ->
  runs (ol_rx_frames_free p) s (fun _ s' => exists nb', s' = set_ro_bufs nb' s /\ freed l (ro_bufs s) nb').
Proof.
  intros Hl Hnd. unfold ol_rx_frames_free, nb_fuel. do 2 mstep.
  apply frames_free_loop; [done..|]. pose proof (lseg_size _ _ _ _ Hl Hnd). cbn. lia.
Qed.

Lemma visited_frames_nodup s tid r n f a b : tid_rep s tid r n f -> NoDup (visited_frames n f a b).
Proof.
  intros [_ Hw]. pose proof (win_pos _ _ _ _ Hw) as Hn. pose proof (wr_length _ _ _ _ Hw) as Hlen.
  destruct (visited_sweep n f a b ltac:(lia) Hlen) as (_ & _ & <- & _).
  assert (Hi : 0 <= a mod n < n) by (apply Z.mod_pos_bound; lia).
  pose proof (frames_in _ n f _ (Datatypes.S (Z.to_nat ((b - a - 1) mod n))) Hlen ltac:(lia) Hi (wr_nodup _ _ _ _ Hw) eq_refl) as Hnd.
  exact (proj1 (proj1 (NoDup_app _ _) Hnd)).
Qed.

(** *** Release and flush *)

Lemma handed_over_waitlist s s' w tid n f a b next l :
  handed_over (set_waitlist w s) s' tid n f a b next l -> handed_over s s' tid n f a b next l.
Proof. by intros [? ? ? ? ? ?]. Qed.

(** A flush with frames hands its list over, or frees it. *)
Lemma flush_some (rx_opt_proc : Z -> Z -> M ST unit) s tid r n f a b action Q :
  tid_rep s tid r n f -> tid_ok s tid -> visited_frames n f a (flush_end a b) <> [] ->
  (forall s', handed_over s s' tid n f a (flush_end a b) (flush_next b) (visited_frames n f a (flush_end a b)) ->
     (on_waitlist r = true -> waitlist s' = filter (fun t => t <> tid) (waitlist s)) ->
     runs (match action with
           | htt_rx_flush_release => rx_opt_proc tid (hd 0 (visited_frames n f a (flush_end a b)))
           | htt_rx_flush_discard => ol_rx_frames_free (hd 0 (visited_frames n f a (flush_end a b)))
           end) s' Q) ->
  runs (ol_rx_reorder_flush rx_opt_proc tid a b action) s Q.
Proof.
  intros Hrep Hok Hne HQ. eapply flush_sweep; [exact Hrep|exact Hok|].
  intros w v ht s1 Hv Hw Hsw.
  destruct (swept_handed_over (set_waitlist w s) tid r _ n f a (flush_end a b) (flush_next b) v ht.1 ht.2 s1
    Hrep Hok Hv Hsw Hne) as [Hh Hrun].
  assert (Hh0 : ht.1 <> 0).
  { destruct Hsw as (nb1 & r1 & -> & _ & _ & _ & Ho).
    destruct (visited_sweep n f a (flush_end a b)) as (_ & _ & Hfr & _);
      [pose proof (win_pos _ _ _ _ (proj2 Hrep)); lia|apply (proj2 Hrep)|].
    cbn [app] in Ho. rewrite Hfr in Ho. apply out_list_null in Ho as [Ho _].
    rewrite bool_decide_false in Ho by done. by apply Z.eqb_neq in Ho. }
  rewrite (proj2 (Z.eqb_neq _ _) Hh0). cbn [negb]. mstep. eapply runs_mono; [exact Hrun|].
  intros [] s' (Hho & Hwl & _). rewrite Hh. apply HQ; [by eapply handed_over_waitlist|].
  intros Hon. rewrite Hon in Hw. by rewrite Hwl, <- Hw.
Qed.

(** A flush that finds no frame only moves the next index. *)
Lemma flush_none (rx_opt_proc : Z -> Z -> M ST unit) s tid r n f a b action :
  tid_rep s tid r n f -> tid_ok s tid -> visited_frames n f a (flush_end a b) = [] ->
  runs (ol_rx_reorder_flush rx_opt_proc tid a b action) s (fun _ s' =>
    window_after s s' tid n f a (flush_end a b) /\ ro_bufs s' = ro_bufs s /\
    aget (tids_next_rel_idx s') tid = Some (u16 (flush_next b)) /\ tids_last_seq s' = tids_last_seq s /\
    other_tids s s' tid).
Proof.
  intros Hrep Hok Hnil. eapply flush_sweep; [exact Hrep|exact Hok|].
  intros w v ht s1 Hv _ Hsw.
  destruct (swept_none (set_waitlist w s) tid r _ n f a (flush_end a b) (flush_next b) v ht.1 ht.2 s1 Hrep Hv Hsw)
    as (Hwin & Hrel & Ho & Hnext & Hseq & Hoth).
  rewrite Hnil in Ho, Hrel. apply out_list_null in Ho as [-> _]. rewrite bool_decide_true by done.
  cbn [negb]. mstep. split; [exact Hwin|]. split; [|done]. apply map_eq. intros x. apply Hrel. set_solver.
Qed.

Lemma out_list_alloc (nb : gmap Z (nbuf D)) h t l x : out_list nb h t l -> x ∈ l -> is_Some (nb !! x).
Proof.
  intros [Ho _] Hx. unfold open_list in Ho. destruct (last l) eqn:Hl; [|by apply last_None in Hl as ->; set_solver].
  destruct Ho as (_ & q & Ho). by eapply lseg_alloc.
Qed.

(** A frame is in one slot. *)
Lemma frame_slot f i j x : NoDup (concat f) -> 0 <= i -> 0 <= j ->
  x ∈ at_slot f i -> x ∈ at_slot f j -> i = j.
Proof.
  intros Hnd Hi Hj Hxi Hxj. destruct (decide (i = j)) as [|Hne]; [done|exfalso].
  assert (Hif : 0 <= i < Z.of_nat (length f)).
  { split; [done|]. unfold at_slot in Hxi. destruct (f !! Z.to_nat i) eqn:Hf; [|set_solver].
    apply lookup_lt_Some in Hf. lia. }
  rewrite (concat_clear f i) in Hnd by done. apply NoDup_app in Hnd as (_ & Hd & _).
  apply (Hd x Hxi). rewrite <- (at_slot_ne f i j []) in Hxj by (done || lia). unfold at_slot in Hxj.
  destruct (_ !! Z.to_nat j) as [l|] eqn:Hl; [|set_solver].
  apply elem_of_concat. exists l. split; [done|]. by eapply list_elem_of_lookup_2.
Qed.

Lemma visited_gone n f f' a b x : NoDup (concat f) -> Z.of_nat (length f') = n ->
  (forall i, 0 <= i < n -> at_slot f' i = if decide (i ∈ visited n a b) then [] else at_slot f i) ->
  x ∈ visited_frames n f a b -> x ∈ concat f' -> False.
Proof.
  intros Hnd Hlen Hf' Hv (l & Hx & [j Hj]%list_elem_of_lookup)%elem_of_concat.
  pose proof (lookup_lt_Some _ _ _ Hj) as Hlt. specialize (Hf' (Z.of_nat j) ltac:(lia)).
  unfold at_slot in Hf' at 1. rewrite Nat2Z.id, Hj in Hf'. cbn in Hf'. case_decide as Hd; [set_solver|].
  apply list_elem_of_bind in Hv as (i & Hxi & Hi). subst l.
  assert (Hi0 : 0 <= i) by (eapply window_range in Hi; lia).
  by rewrite (frame_slot f i (Z.of_nat j) x Hnd Hi0 ltac:(lia) Hxi Hx) in Hi.
Qed.

(** A release that returns although the next stage cannot be called returns with any. *)
Lemma release_undefined (p : Z -> Z -> M ST unit) s tid a b x :
  ol_rx_reorder_release (fun _ _ => undefined) tid a b s = Some x ->
  ol_rx_reorder_release p tid a b s = Some x.
Proof.
  unfold ol_rx_reorder_release, mbnd.
  repeat match goal with |- context [match ?m with Some _ => _ | None => _ end] =>
    lazymatch m with
    | (if _ then _ else _) _ => fail
    | _ => destruct m as [[]|]; [|done]
    end end.
  case_match; [|done]. by destruct (close_list tid _ _ _) as [[]|].
Qed.
End Rep.

Section Props.
Context {D : Type} `{RD : RxDescOps D}.
#[local] Abbreviation ST := (ro_state D).

(** C33.  A release from a non-empty first slot hands the visited frames, in window order
    and as one null-terminated list, to the next stage, with those slots emptied, the
    next index advanced and the TID's last sequence number set from the first frame; the
    other slots, TIDs and buffer contents are as before.  Whatever the next stage then
    establishes, the release establishes. *)
Theorem ol_rx_reorder_release_delivers (rx_opt_proc : Z -> Z -> M ST unit) s tid r n f a b Q
    (Hrep : tid_rep s tid r n f) (Hok : tid_ok s tid) (Hfirst : at_slot f (a mod n) <> [])
    (Hproc : forall s', handed_over s s' tid n f a b b (visited_frames n f a b) ->
       runs (rx_opt_proc tid (hd 0 (visited_frames n f a b))) s' Q) :
  runs (ol_rx_reorder_release rx_opt_proc tid a b) s Q.
Proof.
  eapply release_sweep; [exact Hrep|exact Hok|].
  intros e head' tail' s0 s' (v & Hv & ->) He Hsw.
  pose proof (slot_head_null _ _ _ He) as Hnull. rewrite bool_decide_false in Hnull by done.
  rewrite Hnull. cbn [negb]. mstep.
  assert (Hvis : exists l, visited_frames n f a b = at_slot f (a mod n) ++ l).
  { pose proof (win_pos _ _ _ _ (proj2 Hrep)) as Hn.
    destruct (visited_sweep n f a b) as (_ & _ & <- & _); [lia|apply (proj2 Hrep)|]. by eexists. }
  destruct Hvis as [l Hl].
  assert (Hhd : el_head e = hd 0 (visited_frames n f a b)).
  { rewrite Hl. rewrite (open_list_head _ _ _ _ (proj1 He)). by destruct (at_slot f (a mod n)). }
  destruct (swept_handed_over s tid r r n f a b b v head' tail' s' Hrep Hok Hv Hsw) as [Hh Hrun].
  { rewrite Hl. by intros [? _]%app_nil. }
  rewrite Hhd, <- Hh. eapply runs_mono; [exact Hrun|]. intros [] s1 (Hho & _). rewrite Hh. by apply Hproc.
Qed.

(** C34.  A release whose first slot is empty empties every slot it visits, and neither
    hands the frames found there to the next stage, whatever that is, nor frees them:
    their buffers stay allocated in no slot, and the next index advances past them. *)
Theorem ol_rx_reorder_release_loses_frames s tid r n f a b
    (Hrep : tid_rep s tid r n f) (Hok : tid_ok s tid) (Hfirst : at_slot f (a mod n) = []) :
  exists s', (forall rx_opt_proc, ol_rx_reorder_release rx_opt_proc tid a b s = Some (tt, s')) /\
    window_after s s' tid n f a b /\ relinked (visited_frames n f a b) (ro_bufs s) (ro_bufs s') /\
    (forall x, x ∈ visited_frames n f a b -> is_Some (ro_bufs s' !! x)) /\
    aget (tids_next_rel_idx s') tid = Some (u16 b) /\ tids_last_seq s' = tids_last_seq s /\
    other_tids s s' tid.
Proof.
  assert (Hrun : runs (ol_rx_reorder_release (fun _ _ => undefined) tid a b) s (fun _ s' =>
    window_after s s' tid n f a b /\ relinked (visited_frames n f a b) (ro_bufs s) (ro_bufs s') /\
    (forall x, x ∈ visited_frames n f a b -> is_Some (ro_bufs s' !! x)) /\
    aget (tids_next_rel_idx s') tid = Some (u16 b) /\ tids_last_seq s' = tids_last_seq s /\
    other_tids s s' tid)).
  { eapply release_sweep; [exact Hrep|exact Hok|].
    intros e head' tail' s0 s' (v & Hv & ->) He Hsw.
    pose proof (slot_head_null _ _ _ He) as Hnull. rewrite Hfirst, bool_decide_true in Hnull by done.
    rewrite Hnull. cbn [negb]. mstep.
    destruct (swept_none s tid r r n f a b b v head' tail' s' Hrep Hv Hsw) as (H1 & H2 & H3 & H4).
    split; [exact H1|]. split; [exact H2|]. split; [|exact H4]. intros x. by eapply out_list_alloc. }
  apply runs_elim in Hrun as ([] & s' & Hs & HQ). exists s'. split; [|exact HQ].
  intros p. by apply release_undefined.
Qed.

(** A flush that releases hands the visited frames over as a release does, even if its
    first slot is empty; the end 0xffff stands for the whole window and resets the next
    index. *)
Theorem ol_rx_reorder_flush_release (rx_opt_proc : Z -> Z -> M ST unit) s tid r n f a b Q
    (Hrep : tid_rep s tid r n f) (Hok : tid_ok s tid)
    (Hne : visited_frames n f a (flush_end a b) <> [])
    (Hproc : forall s',
       handed_over s s' tid n f a (flush_end a b) (flush_next b) (visited_frames n f a (flush_end a b)) ->
       (on_waitlist r = true -> tid ∉ waitlist s') ->
       runs (rx_opt_proc tid (hd 0 (visited_frames n f a (flush_end a b)))) s' Q) :
  runs (ol_rx_reorder_flush rx_opt_proc tid a b htt_rx_flush_release) s Q.
Proof.
  eapply flush_some; [exact Hrep|exact Hok|exact Hne|]. intros s' Hho Hwl. apply Hproc; [exact Hho|].
  intros Hon. rewrite (Hwl Hon). by intros [? _]%list_elem_of_filter.
Qed.

Lemma flush_discard (rx_opt_proc : Z -> Z -> M ST unit) s tid r n f a b :
  tid_rep s tid r n f -> tid_ok s tid ->
  runs (ol_rx_reorder_flush rx_opt_proc tid a b htt_rx_flush_discard) s (fun _ s' =>
    window_after s s' tid n f a (flush_end a b) /\
    freed (visited_frames n f a (flush_end a b)) (ro_bufs s) (ro_bufs s') /\
    aget (tids_next_rel_idx s') tid = Some (u16 (flush_next b)) /\ tid_ok s' tid /\
    other_tids s s' tid).
Proof.
  intros Hrep Hok. destruct (decide (visited_frames n f a (flush_end a b) = [])) as [Hnil|Hne].
  - eapply runs_mono; [by eapply flush_none|]. intros [] s' (H1 & H2 & H3 & H4 & H5).
    rewrite Hnil, H2. split; [exact H1|]. split; [apply freed_nil|]. split; [exact H3|]. split; [|exact H5].
    split; [by eexists|]. rewrite H4. apply Hok.
  - eapply flush_some; [exact Hrep|exact Hok|exact Hne|]. intros s' [H1 H2 H3 H4 H5 H6] _.
    eapply runs_mono; [by eapply ol_rx_frames_free_spec, visited_frames_nodup|].
    intros [] s'' (nb' & -> & Hfr). pose proof (freed_relinked _ _ _ _ H3 Hfr) as Hfr'.
    split; [|split; [exact Hfr'|split; [exact H5|split; [by split; eexists|exact H6]]]].
    destruct H1 as (r' & f' & [Hr' Hw'] & Hf'). exists r', f'. split; [|exact Hf']. split; [exact Hr'|].
    eapply win_rep_frame; [exact Hw'|]. intros x Hx. rewrite Hfr.
    rewrite decide_False; [done|]. intros Hin.
    by eapply (visited_gone n f f' a (flush_end a b)); [apply Hrep|apply Hw'|..].
Qed.

(** A flush that discards frees exactly the frames of the visited slots. *)
Theorem ol_rx_reorder_flush_discard (rx_opt_proc : Z -> Z -> M ST unit) s tid r n f a b
    (Hrep : tid_rep s tid r n f) (Hok : tid_ok s tid) :
  runs (ol_rx_reorder_flush rx_opt_proc tid a b htt_rx_flush_discard) s (fun _ s' =>
    window_after s s' tid n f a (flush_end a b) /\
    freed (visited_frames n f a (flush_end a b)) (ro_bufs s) (ro_bufs s') /\
    aget (tids_next_rel_idx s') tid = Some (u16 (flush_next b)) /\ tid_ok s' tid /\
    other_tids s s' tid).
Proof. by eapply flush_discard. Qed.

(** The peer: each of its TIDs holds the frames [F tid] in a window of [N tid] slots, and
    no frame is in two TIDs. *)
Record peer_rep (s : ST) (N : Z -> Z) (F : Z -> list (list Z)) : Prop := {
  pr_tids : forall tid, 0 <= tid < OL_TXRX_NUM_EXT_TIDS ->
    tid_ok s tid /\ exists r, tid_rep s tid r (N tid) (F tid);
  pr_disjoint : forall t1 t2, 0 <= t1 < OL_TXRX_NUM_EXT_TIDS -> 0 <= t2 < OL_TXRX_NUM_EXT_TIDS -> t1 <> t2 ->
    concat (F t1) ## concat (F t2)
}.

Lemma visited_all n f x : 0 < n -> Z.of_nat (length f) = n ->
  (x ∈ visited_frames n f 0 0 <-> x ∈ concat f) /\ (forall i, 0 <= i < n -> i ∈ visited n 0 0).
Proof.
  intros Hn Hf.
  assert (Hall : visited n 0 0 = seqZ 0 n).
  { unfold visited, window. replace ((0 - 0 - 1) mod n + 1) with n.
    - rewrite <- (list_fmap_id (seqZ 0 n)) at 2. apply list_fmap_ext. intros k i Hi%lookup_seqZ.
      cbn. rewrite Z.mod_0_l, Z.add_0_l by lia. rewrite Z.mod_small; [done|lia].
    - replace (0 - 0 - 1) with (n - 1 + (-1) * n) by lia. rewrite Z.mod_add, Z.mod_small by lia. lia. }
  unfold visited_frames. rewrite Hall. split; [|intros i Hi; apply elem_of_seqZ; lia].
  rewrite list_elem_of_bind, elem_of_concat. unfold at_slot. split.
  - intros (i & Hx & Hi%elem_of_seqZ). destruct (f !! Z.to_nat i) as [l|] eqn:Hl; [|set_solver].
    exists l. split; [done|]. by eapply list_elem_of_lookup_2.
  - intros (l & Hx & [i Hi]%list_elem_of_lookup). exists (Z.of_nat i). rewrite Nat2Z.id, Hi. split; [done|].
    apply lookup_lt_Some in Hi. apply elem_of_seqZ. lia.
Qed.

(** During the cleanup: the TIDs [dn] are done. *)
Definition cleaning (s s' : ST) (N : Z -> Z) (F : Z -> list (list Z)) (dn : list Z) : Prop :=
  (forall t, 0 <= t < OL_TXRX_NUM_EXT_TIDS -> tid_ok s' t /\
     exists r f', tid_rep s' t r (N t) f' /\ (t ∈ dn -> forall i, 0 <= i < N t -> at_slot f' i = []) /\
       (t ∉ dn -> f' = F t)) /\
  freed (dn ≫= fun t => concat (F t)) (ro_bufs s) (ro_bufs s').

Lemma all_empty (f : list (list Z)) n x : Z.of_nat (length f) = n ->
  (forall i, 0 <= i < n -> at_slot f i = []) -> x ∉ concat f.
Proof.
  intros Hn Hi (l & Hx & [j Hj]%list_elem_of_lookup)%elem_of_concat.
  pose proof (lookup_lt_Some _ _ _ Hj). specialize (Hi (Z.of_nat j) ltac:(lia)).
  unfold at_slot in Hi. rewrite Nat2Z.id, Hj in Hi. cbn in Hi. subst l. set_solver.
Qed.

Lemma cleanup_step (p : Z -> Z -> M ST unit) s s' N F dn i :
  peer_rep s N F -> 0 <= i < OL_TXRX_NUM_EXT_TIDS -> i ∉ dn -> cleaning s s' N F dn ->
  runs (ol_rx_reorder_flush p i 0 0 htt_rx_flush_discard) s' (fun _ s'' => cleaning s s'' N F (dn ++ [i])).
Proof.
  intros [Hp Hdis] Hi Hni [Ht Hfr]. destruct (Ht i Hi) as (Hok & r & f' & Hrep & _ & Hf).
  rewrite (Hf Hni) in Hrep. clear Hf f'.
  pose proof (win_pos _ _ _ _ (proj2 Hrep)) as Hn. pose proof (wr_length _ _ _ _ (proj2 Hrep)) as Hlen.
  eapply runs_mono; [by eapply flush_discard|]. cbn [flush_end].
  intros [] s'' ((r' & f' & Hrep' & Hf') & Hfr' & _ & Hok' & Hoth).
  change (flush_end 0 0) with 0 in *.
  assert (Hin : forall x, x ∈ visited_frames (N i) (F i) 0 0 <-> x ∈ concat (F i))
    by (intros x; apply (visited_all _ _ x (proj1 Hn) Hlen)).
  split.
  - intros t Htr. destruct (decide (t = i)) as [->|Hne].
    + split; [done|]. exists r', f'. split; [done|]. split; [|set_solver].
      intros _ j Hj. rewrite Hf' by done. rewrite decide_True; [done|].
      by apply (visited_all _ _ 0 (proj1 Hn) Hlen).
    + destruct (Ht t Htr) as ([Hok1 Hok2] & rt & ft & [Hr Hw] & Hdone & Hnot).
      destruct (Hoth t Hne) as (He1 & He2 & He3). split; [split; [by rewrite He2|by rewrite He3]|].
      exists rt, ft. split; [split; [by rewrite He1|]|split; [set_solver|set_solver]].
      eapply win_rep_frame; [exact Hw|]. intros x Hx. rewrite Hfr'. rewrite decide_False; [done|].
      rewrite Hin. intros Hxi. destruct (decide (t ∈ dn)) as [Hd|Hd].
      * by eapply all_empty; [apply Hw|apply (Hdone Hd)|].
      * rewrite (Hnot Hd) in Hx. by apply (Hdis t i Htr Hi Hne x).
  - rewrite bind_app. eapply freed_app; [exact Hfr|]. intros x. rewrite Hfr'. cbn.
    rewrite app_nil_r. by apply decide_ext.
Qed.

(** Cleaning up a peer frees every frame buffered in any of its windows and no other,
    and leaves all its slots empty. *)
Theorem ol_rx_reorder_peer_cleanup_frees (rx_opt_proc : Z -> Z -> M ST unit) s N F
    (Hp : peer_rep s N F) :
  runs (ol_rx_reorder_peer_cleanup rx_opt_proc) s (fun _ s' =>
    freed (seqZ 0 OL_TXRX_NUM_EXT_TIDS ≫= fun t => concat (F t)) (ro_bufs s) (ro_bufs s') /\
    forall t, 0 <= t < OL_TXRX_NUM_EXT_TIDS -> exists r f', tid_rep s' t r (N t) f' /\ concat f' = []).
Proof.
  unfold ol_rx_reorder_peer_cleanup.
  eapply runs_mono; [apply runs_mfor with (I := fun dn s' => cleaning s s' N F dn)|].
  - intros dn i todo s' Heq Hcl. assert (Hi : i ∈ seqZ 0 OL_TXRX_NUM_EXT_TIDS) by (rewrite Heq; set_solver).
    apply elem_of_seqZ in Hi. eapply cleanup_step; [done|lia| |done].
    pose proof (NoDup_seqZ 0 OL_TXRX_NUM_EXT_TIDS) as Hnd. rewrite Heq in Hnd.
    apply NoDup_app in Hnd as (_ & Hd & _). intros Hin. apply (Hd i Hin). set_solver.
  - split; [|apply freed_nil]. intros t Ht. destruct (pr_tids _ _ _ Hp t Ht) as (Hok & r & Hrep).
    split; [done|]. exists r, (F t). split; [done|]. split; [set_solver|done].
  - intros [] s' [Ht Hfr]. split; [exact Hfr|]. intros t Htr.
    destruct (Ht t Htr) as (_ & r & f' & Hrep & Hempty & _). exists r, f'. split; [done|].
    apply elem_of_nil_inv. intros x. eapply all_empty; [apply Hrep|]. apply Hempty, elem_of_seqZ. lia.
Qed.

(** Without block ack a sequence number is rejected exactly if it is the last one or
    one of the 2046 before it, modulo 4096; with no last number all are accepted. *)
Theorem ol_rx_seq_num_check_window (s : ST) tid d last
    (Hlast : aget (tids_last_seq s) tid = Some last) (Htid : tid <> OL_RX_MCAST_TID) :
  ol_rx_seq_num_check tid d s = Some
    (if negb (last =? IEEE80211_SEQ_MAX) && ((last - rx_seq_num d) mod IEEE80211_SEQ_MAX <=? 2046)
     then htt_rx_status_err_replay else htt_rx_status_ok, s).
Proof.
  unfold ol_rx_seq_num_check, ol_rx_reorder_seq_num_check, mbnd, mget, oget.
  rewrite (proj2 (Z.eqb_neq OL_RX_MCAST_TID tid)) by done. cbn. rewrite Hlast. cbn.
  destruct (last =? IEEE80211_SEQ_MAX); cbn; [done|].
  set (q := rx_seq_num d). change (Z.shiftr IEEE80211_SEQ_MAX 1) with 2048.
  replace (Z.land (u32 (q - 1 - last)) (IEEE80211_SEQ_MAX - 1)) with (4095 - (last - q) mod 4096).
  - change IEEE80211_SEQ_MAX with 4096. pose proof (Z.mod_pos_bound (last - q) 4096).
    by destruct (Z.ltb_spec 2048 (4095 - (last - q) mod 4096)), (Z.leb_spec ((last - q) mod 4096) 2046); (lia || done).
  - change (IEEE80211_SEQ_MAX - 1) with (2 ^ 12 - 1). rewrite land_mask by lia. unfold u32.
    change (2 ^ 32) with (2 ^ 12 * 2 ^ 20).
    rewrite Z.rem_mul_r by lia. rewrite (Z.mul_comm (2 ^ 12)), Z.mod_add, Z.mod_mod by lia.
    replace (q - 1 - last) with (4095 - (last - q) + (-1) * 2 ^ 12) by lia. rewrite Z.mod_add by lia.
    change (2 ^ 12) with 4096. set (e := last - q). pose proof (Z.mod_pos_bound e 4096 ltac:(lia)) as He.
    pose proof (Z.div_mod e 4096 ltac:(lia)) as Hdm.
    replace (4095 - e) with (4095 - e mod 4096 + (- (e / 4096)) * 4096) by lia.
    rewrite Z.mod_add by lia. symmetry. apply Z.mod_small. lia.
Qed.

Lemma g_log2ceil_spec win : 0 <= win <= 64 -> aget g_log2ceil win = Some (2 ^ Z.log2_up win).
Proof.
  intros Hw. apply (Forall_forall (fun w => aget g_log2ceil w = Some (2 ^ Z.log2_up w)) (seqZ 0 65)).
  - by repeat constructor.
  - apply elem_of_seqZ. lia.
Qed.

Lemma empty_slots (nb : gmap Z (nbuf D)) m :
  Forall2 (slot_ok nb) (replicate m null_elem) (replicate m []) /\ concat (replicate m []) = ([] : list Z).
Proof. induction m as [|m [IH1 IH2]]; cbn; [done|]. split; [by constructor|done]. Qed.

(** An ADDBA indication for a window of at most 64 gives the TID an empty window of the
    least power of two that holds it, starting at 0 with no last sequence number, and
    touches no other TID and no buffer; a larger window reads past the size table. *)
Theorem ol_rx_addba_handler_window (s : ST) tid r win start
    (Hr : aget (tids_rx_reorder s) tid = Some r) (Hok : tid_ok s tid)
    (Htid : tid < OL_TXRX_NUM_EXT_TIDS) :
  (0 <= win <= 64 ->
   runs (ol_rx_addba_handler true false true tid win start 0) s (fun _ s' =>
     let n := 2 ^ Z.log2_up win in
     win <= n /\ (exists r', tid_rep s' tid r' n (replicate (Z.to_nat n) []) /\ win_sz r' = win) /\
     aget (tids_next_rel_idx s') tid = Some 0 /\ aget (tids_last_seq s') tid = Some IEEE80211_SEQ_MAX /\
     ro_bufs s' = ro_bufs s /\ other_tids s s' tid)) /\
  (64 < win -> ol_rx_addba_handler true false true tid win start 0 s = None).
Proof.
  destruct Hok as [[x Hx] [y Hy]].
  pose proof (aset_Some (tids_last_seq s) tid (u16 IEEE80211_SEQ_MAX) (aget_Some_range _ _ _ Hy)) as Hl.
  unfold ol_rx_addba_handler. rewrite (proj2 (Z.leb_gt _ _)) by done. cbn [negb]. split; intros Hw.
  - cbn [Z.eqb negb]. do 2 mstep. cbn [negb]. mstep. unfold set_last_seq_num. do 2 mstep. mstep.
    eapply runs_oget; [exact Hl|]. do 2 mstep. eapply runs_rr; [exact Hr|]. mstep.
    eapply runs_oget; [by apply g_log2ceil_spec|]. mstep. mstep. mstep. unfold set_rr. do 2 mstep. mstep.
    pose proof (aget_Some_range _ _ _ Hr) as Htr.
    eapply runs_oget; [by apply aset_Some|]. mstep. apply runs_set_next_rel; [by exists x|]. intros v Hv.
    assert (Hle : win <= 2 ^ Z.log2_up win).
    { destruct (decide (win <= 1)); [rewrite Z.log2_up_eqn0 by done; lia|]. by apply Z.log2_up_spec; lia. }
    assert (Hlog : 0 <= Z.log2_up win <= 6).
    { split; [apply Z.log2_up_nonneg|]. change 6 with (Z.log2_up 64). apply Z.log2_up_le_mono. lia. }
    pose proof (Z.pow_pos_nonneg 2 (Z.log2_up win)) as Hpos.
    split; [exact Hle|]. split; [|split; [exact (aget_aset_eq _ _ _ _ Hv)|split; [exact (aget_aset_eq _ _ _ _ Hl)|split; [done|]]]].
    + eexists. split; [split; [by apply aget_insert_eq|]|done]. split.
      * exists (Z.log2_up win). split; [lia|done].
      * done.
      * cbn. apply empty_slots.
      * rewrite length_replicate. lia.
      * rewrite (proj2 (empty_slots (ro_bufs s) _)). constructor.
    + intros t Ht. cbn. split; [apply aget_insert_ne; [lia|done]|].
      split; by eapply aget_aset_ne.
  - unfold set_last_seq_num, mbnd, mget, oget, rr, modify. cbn. unfold mget, oget. cbn. rewrite Hl. cbn. rewrite Hr. cbn.
    rewrite aget_lookup by lia. rewrite lookup_ge_None_2; [done|]. cbn. lia.
Qed.
End Props.

(** ** Examples *)

(** Three MPDUs in slots 1, 2 and 3 of a window of four; slot 1 holds the buffers 1 and 2. *)
Definition ex_rx_desc (seq last : Z) : htt_host_rx_desc_base := rx_encode {|
  f_mcast_bcast := 0; f_fragment := 0; f_encrypted := 0; f_retry := 0; f_seq_num := seq;
  f_pn_31_0 := 0; f_pn_47_32 := 0; f_tid := 0; f_key_id_octet := 0; f_ext_wapi_pn_63_48 := 0;
  f_ext_wapi_pn_95_64 := 0; f_ext_wapi_pn_127_96 := 0; f_first_msdu := 1; f_last_msdu := last;
  o_att0 := 0; o_att1 := 0; o_att2 := 0; o_ms0 := 0; o_ms1 := 0; o_ms2 := 0; o_ms3 := 0;
  o_me0 := 0; o_me1 := 0; o_me2 := 0; o_me3 := 0 |}.
Definition ex_tid : ol_rx_reorder_t := {|
  win_sz := 4; win_sz_mask := 3; num_mpdus := 0;
  array := Some [null_elem; {| el_head := 1; el_tail := 2 |}; {| el_head := 3; el_tail := 3 |};
                 {| el_head := 4; el_tail := 4 |}];
  base := null_elem; on_waitlist := false; defrag_timeout_ms := 0; rr_tid := 0 |}.
Definition ex_ro_state : ro_state htt_host_rx_desc_base := {|
  ro_bufs := <[1 := {| nb_next := 2; nb_desc := ex_rx_desc 101 0 |}]>
    (<[2 := {| nb_next := 0; nb_desc := ex_rx_desc 101 1 |}]>
    (<[3 := {| nb_next := 0; nb_desc := ex_rx_desc 102 1 |}]>
    (<[4 := {| nb_next := 0; nb_desc := ex_rx_desc 103 1 |}]> ∅)));
  tids_rx_reorder := ex_tid :: replicate 18 (ol_rx_reorder_init ex_tid 0);
  tids_next_rel_idx := replicate 19 0;
  tids_last_seq := replicate 19 100;
  tids_mcast_last_seq := replicate 19 0;
  ro_fw_pn_check := 0; msdu_mc_dup_drop := 0; waitlist := []; reorder_history := None;
  ro_errs := []; holes := []; addba_done := [] |}.
Definition ex_ro_frames : list (list Z) := [[]; [1; 2]; [3]; [4]].

Lemma ex_tid_rep : tid_rep ex_ro_state 0 ex_tid 4 ex_ro_frames.
Proof.
  split; [reflexivity|]. split; [exists 2; split; [lia|reflexivity]|done| |done|].
  - repeat constructor; try done.
    all: repeat (first [eexists; split; [reflexivity|]|split; [done|]|done]).
  - repeat constructor; set_solver.
Qed.
Lemma ex_tid_ok : tid_ok ex_ro_state 0.
Proof. split; by eexists. Qed.

Lemma ol_rx_reorder_release_delivers_witness :
  runs (ol_rx_reorder_release (fun _ head => s <- mget ;; massert (bool_decide (is_Some (ro_bufs s !! head)))) 0 1 3)
    ex_ro_state (fun _ s' => lseg (ro_bufs s') 1 [1; 2; 3] 0 /\ aget (tids_last_seq s') 0 = Some 101).
Proof.
  eapply (ol_rx_reorder_release_delivers _ _ _ _ _ _ _ _ _ ex_tid_rep ex_tid_ok); [done|].
  intros s' [_ Hl Hb Hs _ _]. mstep. mstep.
  assert (Hv : visited_frames 4 ex_ro_frames 1 3 = [1; 2; 3]) by (vm_compute; reflexivity).
  rewrite Hv in *. pose proof (lseg_alloc _ _ _ _ 1 Hl ltac:(set_solver)) as Ha.
  eapply runs_massert; [by apply bool_decide_eq_true|]. split; [exact Hl|]. rewrite Hs. by vm_compute.
Defined.

Lemma ol_rx_reorder_release_loses_frames_witness : exists s',
  (forall p, ol_rx_reorder_release p 0 0 3 ex_ro_state = Some (tt, s')) /\
  is_Some (ro_bufs s' !! 1) /\ is_Some (ro_bufs s' !! 3) /\
  exists r, aget (tids_rx_reorder s') 0 = Some r /\ el_head <$> elems_of r = [0; 0; 0; 4].
Proof.
  destruct (ol_rx_reorder_release_loses_frames _ _ _ _ _ 0 3 ex_tid_rep ex_tid_ok eq_refl)
    as (s' & Hs & _ & _ & Ha & _).
  exists s'. split; [exact Hs|]. split; [apply Ha; vm_compute; set_solver|]. split; [apply Ha; vm_compute; set_solver|].
  specialize (Hs (fun _ _ => undefined)). vm_compute in Hs. injection Hs as <-. by eexists.
Defined.

Lemma ol_rx_reorder_flush_release_witness :
  runs (ol_rx_reorder_flush (fun _ _ => mreturn tt) 0 0 0xffff htt_rx_flush_release) ex_ro_state
    (fun _ s' => lseg (ro_bufs s') 1 [1; 2; 3; 4] 0).
Proof.
  eapply (ol_rx_reorder_flush_release _ _ _ _ _ _ _ _ _ ex_tid_rep ex_tid_ok); [done|].
  intros s' [_ Hl _ _ _ _] _. mstep.
  assert (Hv : visited_frames 4 ex_ro_frames 0 (flush_end 0 0xffff) = [1; 2; 3; 4]) by (vm_compute; reflexivity).
  by rewrite Hv in Hl.
Defined.

Lemma ol_rx_reorder_flush_discard_witness :
  runs (ol_rx_reorder_flush (fun _ _ => undefined) 0 2 0 htt_rx_flush_discard) ex_ro_state
    (fun _ s' => ro_bufs s' !! 3 = None /\ ro_bufs s' !! 4 = None /\ ro_bufs s' !! 1 = ro_bufs ex_ro_state !! 1).
Proof.
  eapply runs_mono; [exact (ol_rx_reorder_flush_discard _ _ _ _ _ _ 2 0 ex_tid_rep ex_tid_ok)|].
  intros [] s' (_ & Hf & _).
  assert (Hv : visited_frames 4 ex_ro_frames 2 (flush_end 2 0) = [3; 4]) by (vm_compute; reflexivity).
  rewrite Hv in Hf. split; [|split]; rewrite Hf; [done|done|]. by rewrite decide_False by set_solver.
Defined.

Definition ex_sizes (t : Z) : Z := if t =? 0 then 4 else 1.
Definition ex_peer_frames (t : Z) : list (list Z) := if t =? 0 then ex_ro_frames else [[]].
Lemma ex_base_rep t : 0 < t < 19 ->
  tid_ok ex_ro_state t /\ exists r, tid_rep ex_ro_state t r 1 [[]].
Proof.
  intros Ht. split; [split; rewrite aget_lookup by lia; apply lookup_lt_is_Some_2; cbn; lia|].
  exists (ol_rx_reorder_init ex_tid 0). split.
  - rewrite aget_lookup by lia. cbn [tids_rx_reorder ex_ro_state].
    replace (Z.to_nat t) with (Datatypes.S (Z.to_nat (t - 1))) by lia. cbn [lookup list_lookup].
    apply lookup_replicate_2. lia.
  - split; [by exists 0|done|by repeat constructor|done|constructor].
Qed.
Lemma ex_peer_rep : peer_rep ex_ro_state ex_sizes ex_peer_frames.
Proof.
  unfold ex_sizes, ex_peer_frames. split.
  - intros t Ht. destruct (Z.eqb_spec t 0) as [->|Hne].
    + split; [apply ex_tid_ok|]. exists ex_tid. apply ex_tid_rep.
    + apply ex_base_rep. unfold OL_TXRX_NUM_EXT_TIDS in Ht. lia.
  - intros t1 t2 _ _ Hne. destruct (Z.eqb_spec t1 0), (Z.eqb_spec t2 0); [lia|set_solver..].
Qed.
Lemma ol_rx_reorder_peer_cleanup_frees_witness :
  runs (ol_rx_reorder_peer_cleanup (fun _ _ => undefined)) ex_ro_state (fun _ s' => ro_bufs s' = ∅).
Proof.
  eapply runs_mono; [exact (ol_rx_reorder_peer_cleanup_frees _ _ _ _ ex_peer_rep)|].
  intros [] s' [Hf _]. apply map_eq. intros x. rewrite Hf.
  assert (Hv : (seqZ 0 OL_TXRX_NUM_EXT_TIDS ≫= fun t => concat (ex_peer_frames t)) = [1; 2; 3; 4]) by (vm_compute; reflexivity).
  rewrite Hv. case_decide as Hx; [done|]. unfold ex_ro_state. cbn [ro_bufs].
  by rewrite !lookup_insert_ne by set_solver.
Defined.

Lemma ol_rx_seq_num_check_window_witness :
  ol_rx_seq_num_check 0 (ex_rx_desc 100 1) ex_ro_state = Some (htt_rx_status_err_replay, ex_ro_state) /\
  ol_rx_seq_num_check 0 (ex_rx_desc 101 1) ex_ro_state = Some (htt_rx_status_ok, ex_ro_state).
Proof.
  split.
  - exact (ol_rx_seq_num_check_window ex_ro_state 0 (ex_rx_desc 100 1) 100 eq_refl ltac:(done)).
  - exact (ol_rx_seq_num_check_window ex_ro_state 0 (ex_rx_desc 101 1) 100 eq_refl ltac:(done)).
Defined.

Lemma ol_rx_addba_handler_window_witness :
  runs (ol_rx_addba_handler true false true 0 5 0 0) ex_ro_state (fun _ s' =>
    exists r', tid_rep s' 0 r' 8 (replicate 8 []) /\ win_sz r' = 5) /\
  ol_rx_addba_handler true false true 0 65 0 0 ex_ro_state = None.
Proof.
  split.
  - eapply runs_mono; [apply (ol_rx_addba_handler_window ex_ro_state 0 ex_tid 5 0 eq_refl ex_tid_ok eq_refl); lia|].
    intros [] s' (_ & H & _). exact H.
  - apply (ol_rx_addba_handler_window ex_ro_state 0 ex_tid 65 0 eq_refl ex_tid_ok eq_refl). lia.
Defined.
