(* ===== verification/Defrag.v ===== *)
(** * Defragmentation

    [CORE/CLD_TXRX/TXRX/ol_rx_defrag.c] for one peer, in the low-latency build, where the rx
    descriptor is not part of the data of a buffer: the lists of fragments by TID, the wait
    list and its time-outs, removing what the cipher added to a fragment, recombining, the
    Michael MIC, and the conversion of headers.  The packet number check is that of [RxPn], the
    records of the TIDs those of [RxReorder]; [DefragInv] has the lemmas, [DefragProps] the
    theorems.

    The descriptor of a buffer of [Nbuf] is here its rx descriptor with the bytes of its data.
    Reading outside the data is undefined. *)

From S2P Require Import Prelude HttRxDesc Nbuf RxPn RxReorder.

Local Open Scope c_scope.

Definition IEEE80211_ADDR_LEN : Z := 6.
Definition IEEE80211_FC0_TYPE_MASK : Z := 0x0c.
Definition IEEE80211_FC0_TYPE_DATA : Z := 0x08.
Definition IEEE80211_FC0_SUBTYPE_QOS : Z := 0x80.
Definition IEEE80211_FC1_DIR_MASK : Z := 0x03.
Definition IEEE80211_FC1_DIR_NODS : Z := 0x00.
Definition IEEE80211_FC1_DIR_TODS : Z := 0x01.
Definition IEEE80211_FC1_DIR_FROMDS : Z := 0x02.
Definition IEEE80211_FC1_DIR_DSTODS : Z := 0x03.
Definition IEEE80211_FC1_MORE_FRAG : Z := 0x04.
Definition IEEE80211_FC1_ORDER : Z := 0x80.
Definition IEEE80211_SEQ_FRAG_MASK : Z := 0x000f.
Definition IEEE80211_SEQ_SEQ_SHIFT : Z := 4.
Definition IEEE80211_QOS_TID : Z := 0x0f.
Definition IEEE80211_WEP_IVLEN : Z := 3.
Definition IEEE80211_WEP_EXTIV : Z := 0x20.
Definition DEFRAG_IEEE80211_FCS_LEN : Z := 4.
Definition OL_RX_DEFRAG_ERR : Z := 0.
Definition OL_RX_DEFRAG_OK : Z := 1.

Record ol_rx_defrag_cipher := { ic_header : Z; ic_trailer : Z; ic_miclen : Z }.
Definition f_ccmp : ol_rx_defrag_cipher := {| ic_header := 8; ic_trailer := 8; ic_miclen := 0 |}.
Definition f_tkip : ol_rx_defrag_cipher := {| ic_header := 8; ic_trailer := 4; ic_miclen := 8 |}.
Definition f_wep : ol_rx_defrag_cipher := {| ic_header := 4; ic_trailer := 4; ic_miclen := 0 |}.

(** ** Bytes *)

#[local] Abbreviation bytes := (list Z).
Definition blen (d : bytes) : Z := Z.of_nat (length d).
(** [n] bytes from [i]; [None] when they are not all there *)
Definition slice (d : bytes) (i n : Z) : option bytes :=
  if (0 <=? i) && (0 <=? n) && (i + n <=? blen d) then Some (take (Z.to_nat n) (drop (Z.to_nat i) d)) else None.
Definition adf_os_mem_move (d : bytes) (dst src n : Z) : option bytes :=
  v ← slice d src n; if (0 <=? dst) && (dst + n <=? blen d) then Some (write_at d dst v) else None.
(** [skb_pull] and [skb_trim] leave a buffer that is too short as it is. *)
Definition pull_head (n : Z) (d : bytes) : bytes := if blen d <? n then d else drop (Z.to_nat n) d.
Definition trim_tail (n : Z) (d : bytes) : bytes := if blen d <? n then d else take (Z.to_nat (blen d - n)) d.

(** *** The 802.11 header *)
Definition i_fc0 (d : bytes) : option Z := aget d 0.
Definition i_fc1 (d : bytes) : option Z := aget d 1.
Definition i_addr1 (d : bytes) : option bytes := slice d 4 6.
Definition i_addr2 (d : bytes) : option bytes := slice d 10 6.
Definition i_addr3 (d : bytes) : option bytes := slice d 16 6.
Definition i_addr4 (d : bytes) : option bytes := slice d 24 6.
Definition i_seq (d : bytes) : option Z := lo ← aget d 22; hi ← aget d 23; Some (lo + hi * 2 ^ 8).
Definition frag_no (d : bytes) : option Z := s ← i_seq d; Some (Z.land s IEEE80211_SEQ_FRAG_MASK).
Definition frag_seq (d : bytes) : option Z := s ← i_seq d; Some (Z.shiftr s IEEE80211_SEQ_SEQ_SHIFT).
Definition more_frag (d : bytes) : option bool := f ← i_fc1 d; Some (negb (Z.land f IEEE80211_FC1_MORE_FRAG =? 0)).
Definition fc_dir (d : bytes) : option Z := f ← i_fc1 d; Some (Z.land f IEEE80211_FC1_DIR_MASK).
Definition has_order (d : bytes) : option bool := f ← i_fc1 d; Some (negb (Z.land f IEEE80211_FC1_ORDER =? 0)).

Definition DEFRAG_IEEE80211_QOS_HAS_SEQ (d : bytes) : option bool :=
  f ← i_fc0 d;
  Some (Z.land f (Z.lor IEEE80211_FC0_TYPE_MASK IEEE80211_FC0_SUBTYPE_QOS) =? Z.lor IEEE80211_FC0_TYPE_DATA IEEE80211_FC0_SUBTYPE_QOS).

Definition ol_rx_frag_hdrsize (d : bytes) : option Z :=
  dir ← fc_dir d;
  let size := 24 + (if dir =? IEEE80211_FC1_DIR_DSTODS then IEEE80211_ADDR_LEN else 0) in
  qos ← DEFRAG_IEEE80211_QOS_HAS_SEQ d;
  order ← has_order d;
  Some (u16 (size + (if qos : bool then 2 + (if order : bool then 4 else 0) else 0))).

(** *** What the ciphers added: the status and the data *)

(** The header moves over the IV. *)
Definition decap (c : ol_rx_defrag_cipher) (hdrlen : Z) (d : bytes) : option bytes :=
  d ← adf_os_mem_move d (ic_header c) 0 hdrlen; Some (pull_head (ic_header c) d).
Definition has_extiv (hdrlen : Z) (d : bytes) : option bool :=
  iv ← aget d (hdrlen + IEEE80211_WEP_IVLEN); Some (negb (Z.land iv IEEE80211_WEP_EXTIV =? 0)).

Definition ol_rx_frag_tkip_decap (hdrlen : Z) (d : bytes) : option (Z * bytes) :=
  ext ← has_extiv hdrlen d;
  if negb ext then Some (OL_RX_DEFRAG_ERR, d)
  else d ← decap f_tkip hdrlen d; Some (OL_RX_DEFRAG_OK, trim_tail (ic_trailer f_tkip) d).
Definition ol_rx_frag_wep_decap (hdrlen : Z) (d : bytes) : option (Z * bytes) :=
  d ← decap f_wep hdrlen d; Some (OL_RX_DEFRAG_OK, trim_tail (ic_trailer f_wep) d).
Definition ol_rx_frag_ccmp_decap (hdrlen : Z) (d : bytes) : option (Z * bytes) :=
  ext ← has_extiv hdrlen d;
  if negb ext then Some (OL_RX_DEFRAG_ERR, d)
  else d ← decap f_ccmp hdrlen d; Some (OL_RX_DEFRAG_OK, d).
Definition ol_rx_frag_ccmp_demic (hdrlen : Z) (d : bytes) : option (Z * bytes) :=
  ext ← has_extiv hdrlen d;
  if negb ext then Some (OL_RX_DEFRAG_ERR, d)
  else Some (OL_RX_DEFRAG_OK, trim_tail (ic_trailer f_ccmp) d).

(** *** Headers of the recombined frame *)

(** Clear the more-fragments bit and the fragment number. *)
Definition clear_frag_bits (d : bytes) : option bytes :=
  f ← i_fc1 d; d ← aset d 1 (Z.land f (Z.lnot IEEE80211_FC1_MORE_FRAG));
  lo ← aget d 22; _ ← aget d 23; aset d 22 (Z.land lo (Z.lnot IEEE80211_SEQ_FRAG_MASK)).

Definition ol_rx_defrag_qos_decap (hdrlen : Z) (d : bytes) : option bytes :=
  qos ← DEFRAG_IEEE80211_QOS_HAS_SEQ d;
  if negb qos then Some d
  else
    order ← has_order d;
    let qoslen := if order : bool then 2 + 4 else 2 in
    let hdrlen := u16 (hdrlen - qoslen) in
    d ← adf_os_mem_move d qoslen 0 hdrlen;
    if blen d <? qoslen then Some d
    else
      let d := pull_head qoslen d in
      f ← i_fc0 d; aset d 0 (Z.land f (Z.lnot IEEE80211_FC0_SUBTYPE_QOS)).

(** The header is taken to have three addresses, and an LLC/SNAP header of 8 bytes to follow;
    with four addresses the Ethernet addresses stay what the bytes were. *)
Definition ol_rx_defrag_nwifi_to_8023 (d : bytes) : option bytes :=
  wh ← slice d 0 24;
  llchdr ← slice d 24 8;
  dir ← fc_dir wh; addr1 ← i_addr1 wh; addr2 ← i_addr2 wh; addr3 ← i_addr3 wh;
  let d := pull_head (24 + 8 - 14) d in
  let d :=
    if dir =? IEEE80211_FC1_DIR_NODS then write_at (write_at d 0 addr1) 6 addr2
    else if dir =? IEEE80211_FC1_DIR_TODS then write_at (write_at d 0 addr3) 6 addr2
    else if dir =? IEEE80211_FC1_DIR_FROMDS then write_at (write_at d 0 addr1) 6 addr3
    else d in
  ethertype ← slice llchdr 6 2;
  Some (write_at d 12 ethertype).

(** *** Michael *)

Definition rotl (val bits : Z) : Z := Z.lor (u32 (Z.shiftl val bits)) (Z.shiftr val (32 - bits)).
Definition rotr (val bits : Z) : Z := Z.lor (Z.shiftr val bits) (u32 (Z.shiftl val (32 - bits))).
Definition xswap (val : Z) : Z := Z.lor (u32 (Z.shiftl (Z.land val 0x00ff00ff) 8)) (Z.shiftr (Z.land val 0xff00ff00) 8).
Definition michael_block (lr : Z * Z) : Z * Z :=
  let '(l, r) := lr in
  let r := Z.lxor r (rotl l 17) in let l := u32 (l + r) in
  let r := Z.lxor r (xswap l) in let l := u32 (l + r) in
  let r := Z.lxor r (rotl l 3) in let l := u32 (l + r) in
  let r := Z.lxor r (rotr l 2) in let l := u32 (l + r) in
  (l, r).
Definition get_le32_split (b0 b1 b2 b3 : Z) : Z := Z.lor (Z.lor (Z.lor b0 (Z.shiftl b1 8)) (Z.shiftl b2 16)) (Z.shiftl b3 24).
Definition put_le32 (v : Z) : bytes := map (fun k => Z.land (Z.shiftr v (8 * k)) 0xff) [0; 1; 2; 3].
Definition michael_word (w : Z) (lr : Z * Z) : Z * Z := michael_block (Z.lxor lr.1 w, lr.2).

(** [space / 4] words from [data] *)
Fixpoint collect (n : nat) (lr : Z * Z) (data : bytes) : option (Z * Z * bytes) :=
  match n with
  | O => Some (lr, data)
  | Datatypes.S n =>
      match data with
      | b0 :: b1 :: b2 :: b3 :: data => collect n (michael_word (get_le32_split b0 b1 b2 b3) lr) data
      | _ => None
      end
  end.

Definition ol_rx_defrag_michdr (d : bytes) : option bytes :=
  dir ← fc_dir d;
  a ← (if dir =? IEEE80211_FC1_DIR_NODS then i_addr1 d
       else if dir =? IEEE80211_FC1_DIR_TODS then i_addr3 d
       else if dir =? IEEE80211_FC1_DIR_FROMDS then i_addr1 d
       else i_addr3 d);
  b ← (if dir =? IEEE80211_FC1_DIR_NODS then i_addr2 d
       else if dir =? IEEE80211_FC1_DIR_TODS then i_addr2 d
       else if dir =? IEEE80211_FC1_DIR_FROMDS then i_addr3 d
       else i_addr4 d);
  f ← i_fc0 d;
  tid ← (if Z.land f IEEE80211_FC0_SUBTYPE_QOS =? 0 then Some 0 else q ← aget d 24; Some (Z.land q IEEE80211_QOS_TID));
  Some (a ++ b ++ [tid; 0; 0; 0]).

(** The last words: the bytes left, 0x5a and zeroes *)
Definition last_word (data_len : Z) (data : bytes) : option Z :=
  if data_len =? 0 then Some (get_le32_split 0x5a 0 0 0)
  else if data_len =? 1 then b0 ← aget data 0; Some (get_le32_split b0 0x5a 0 0)
  else if data_len =? 2 then b0 ← aget data 0; b1 ← aget data 1; Some (get_le32_split b0 b1 0x5a 0)
  else b0 ← aget data 0; b1 ← aget data 1; b2 ← aget data 2; Some (get_le32_split b0 b1 b2 0x5a).

(** ** State *)

Record frag (Dsc : Type) := { fr_desc : Dsc; fr_bytes : bytes }.
Arguments fr_desc {Dsc}.
Arguments fr_bytes {Dsc}.
Definition with_bytes {Dsc} (d : bytes) (f : frag Dsc) : frag Dsc := {| fr_desc := fr_desc f; fr_bytes := d |}.

#[export] Instance frag_desc_ops {Dsc} `{RD : RxDescOps Dsc} : RxDescOps (frag Dsc) := {|
  rx_completes_mpdu f := rx_completes_mpdu (fr_desc f);
  rx_has_mcast_flag f := rx_has_mcast_flag (fr_desc f);
  rx_is_mcast f := rx_is_mcast (fr_desc f);
  rx_is_encrypted f := rx_is_encrypted (fr_desc f);
  rx_pn f := rx_pn (fr_desc f);
  rx_seq_num f := rx_seq_num (fr_desc f);
  rx_is_frag f := rx_is_frag (fr_desc f);
  rx_tid f := rx_tid (fr_desc f);
  rx_retry f := rx_retry (fr_desc f)
|}.

(** The configuration, and the time of the call in milliseconds *)
Record df_conf := { safemode : bool; full_reorder_offload : bool; frm_802_3 : bool; defrag_timeout_check : bool; timeout_ms : Z; now_ms : Z }.

(** [df_pn] has the buffers; [df_waitlist] are the TIDs on the wait list, first to time out
    first. *)
Record df_state (Dsc : Type) := {
  df_pn : pn_state (frag Dsc);
  df_reorder : list ol_rx_reorder_t;
  df_waitlist : list Z;
  df_last_seq : list Z;
  michael_key : list bytes
}.
Arguments df_pn {Dsc}.
Arguments df_reorder {Dsc}.
Arguments df_waitlist {Dsc}.
Arguments df_last_seq {Dsc}.
Arguments michael_key {Dsc}.

Definition set_timeout (v : Z) (r : ol_rx_reorder_t) : ol_rx_reorder_t :=
  {| win_sz := win_sz r; win_sz_mask := win_sz_mask r; num_mpdus := num_mpdus r; array := array r;
     base := base r; on_waitlist := on_waitlist r; defrag_timeout_ms := v; rr_tid := rr_tid r |}.

Section Ops.
Context {Dsc : Type} `{RD : RxDescOps Dsc}.
#[local] Abbreviation ST := (df_state Dsc).

Definition set_df (p : pn_state (frag Dsc)) (r : list ol_rx_reorder_t) (w sq : list Z) (s : ST) : ST :=
  {| df_pn := p; df_reorder := r; df_waitlist := w; df_last_seq := sq; michael_key := michael_key s |}.
Definition set_df_pn (p : pn_state (frag Dsc)) (s : ST) : ST := set_df p (df_reorder s) (df_waitlist s) (df_last_seq s) s.
Definition set_df_reorder (r : list ol_rx_reorder_t) (s : ST) : ST := set_df (df_pn s) r (df_waitlist s) (df_last_seq s) s.
Definition set_df_waitlist (w : list Z) (s : ST) : ST := set_df (df_pn s) (df_reorder s) w (df_last_seq s) s.
Definition set_df_last_seq (sq : list Z) (s : ST) : ST := set_df (df_pn s) (df_reorder s) (df_waitlist s) sq s.

#[export] Instance df_store : NbufStore ST (frag Dsc).
Proof. by refine {| nbufs s := pn_bufs (df_pn s); set_nbufs h s := set_df_pn (set_pn_bufs h (df_pn s)) s |}; [| |intros [[] ? ? ? ?]]. Defined.

(** A function of the packet number check *)
Definition lift_pn {A} (m : M (pn_state (frag Dsc)) A) : M ST A :=
  fun s => match m (df_pn s) with Some (a, p) => Some (a, set_df_pn p s) | None => None end.

Definition df_rr (tid : Z) : M ST ol_rx_reorder_t := s <- mget ;; oget (aget (df_reorder s) tid).
Definition df_set_rr (tid : Z) (r : ol_rx_reorder_t) : M ST unit := s <- mget ;; v <- oget (aset (df_reorder s) tid r) ;; modify (set_df_reorder v).
Definition df_slot (tid i : Z) : M ST ol_rx_reorder_array_elem_t := r <- df_rr tid ;; oget (aget (elems_of r) i).
Definition df_set_slot (tid i : Z) (e : ol_rx_reorder_array_elem_t) : M ST unit :=
  r <- df_rr tid ;; a <- oget (aset (elems_of r) i e) ;; df_set_rr tid (with_elems a r).

(** Reading and changing the data of a buffer *)
Definition data_of {A} (p : Z) (f : bytes -> option A) : M ST A := b <- nb_read p ;; oget (f (fr_bytes (nb_desc b))).
Definition set_data (p : Z) (d : bytes) : M ST unit :=
  b <- nb_read p ;; modify (fun s => set_nbufs (<[p := {| nb_next := nb_next b; nb_desc := with_bytes d (nb_desc b) |}]> (nbufs s)) s).
Definition on_data {A} (p : Z) (f : bytes -> option (A * bytes)) : M ST A :=
  r <- data_of p f ;; set_data p r.2 ;; mreturn r.1.

Definition ol_rx_frames_free (frames : Z) : M ST unit :=
  fuel <- nb_fuel ;;
  miter fuel (fun frag =>
    if frag =? 0 then mreturn (inr tt)
    else next <- adf_nbuf_next frag ;; htt_rx_desc_frame_free frag ;; mreturn (inl next)) frames.

(** *** Lists of fragments *)

(** The walk from the head to the first fragment whose number is not smaller: it, its number and
    the one after it *)
Definition find_place (head fragno : Z) : M ST (Z * Z * Z) :=
  fuel <- nb_fuel ;;
  miter fuel (fun cur =>
    cur_fragno <- data_of cur frag_no ;;
    next <- adf_nbuf_next cur ;;
    if cur_fragno <? fragno then mreturn (inl next) else mreturn (inr (cur, cur_fragno, next))) head.

(** Whether the fragments after the first are numbered from 1 on *)
Definition all_numbered (next : Z) : M ST bool :=
  fuel <- nb_fuel ;;
  miter fuel (fun '(next, count) =>
    next_fragno <- data_of next frag_no ;;
    let count := u8 (count + 1) in
    if negb (next_fragno =? count) then mreturn (inr false)
    else next <- adf_nbuf_next next ;; if next =? 0 then mreturn (inr true) else mreturn (inl (next, count))) (next, 0).

(** The new head and tail, and [all_frag_present] *)
Definition ol_rx_fraglist_insert (head tail frag : Z) : M ST (Z * Z * bool) :=
  fragno <- data_of frag frag_no ;;
  if head =? 0 then adf_nbuf_set_next frag 0 ;; mreturn (frag, frag, false)
  else
    lfragno <- data_of tail frag_no ;;
    kept <- (if lfragno <? fragno then
               adf_nbuf_set_next tail frag ;; adf_nbuf_set_next frag 0 ;; mreturn (Some frag)
             else
               place <- find_place head fragno ;;
               let '(prev, cur_fragno, cur) := place in
               if fragno =? cur_fragno then htt_rx_desc_frame_free frag ;; mreturn None
               else adf_nbuf_set_next prev frag ;; adf_nbuf_set_next frag cur ;; mreturn (Some tail)) ;;
    match kept with
    | None => mreturn (head, tail, false)
    | Some tail =>
        next <- adf_nbuf_next head ;;
        last_morefrag <- data_of tail more_frag ;;
        present <- (if last_morefrag : bool then mreturn false else all_numbered next) ;;
        mreturn (head, tail, present)
    end.

Definition ol_rx_reorder_flush_frag (tid seq_num : Z) : M ST unit :=
  r <- df_rr tid ;;
  let seq := Z.land seq_num (win_sz_mask r) in
  e <- df_slot tid seq ;;
  if negb (el_head e =? 0) then ol_rx_frames_free (el_head e) ;; df_set_slot tid seq null_elem else mreturn tt.

(** *** The wait list *)

Definition ol_rx_defrag_waitlist_add (tid : Z) : M ST unit :=
  r <- df_rr tid ;; df_set_rr tid (set_on_waitlist true r) ;; modify (fun s => set_df_waitlist (df_waitlist s ++ [tid]) s).
Definition df_waitlist_remove (tid : Z) : M ST unit :=
  r <- df_rr tid ;;
  if on_waitlist r then
    df_set_rr tid (set_on_waitlist false r) ;; modify (fun s => set_df_waitlist (List.filter (fun t => negb (t =? tid)) (df_waitlist s)) s)
  else mreturn tt.
Definition flush_stale (now tid : Z) : M ST (unit + unit) :=
  r <- df_rr tid ;;
  if now <? defrag_timeout_ms r then mreturn (inr tt)
  else if OL_TXRX_NUM_EXT_TIDS <=? rr_tid r then mreturn (inl tt)
  else df_waitlist_remove (rr_tid r) ;; ol_rx_reorder_flush_frag (rr_tid r) 0 ;; mreturn (inl tt).
Definition ol_rx_defrag_waitlist_flush (now : Z) : M ST unit :=
  s <- mget ;;
  miter (Datatypes.S (length (df_waitlist s))) (fun todo : list Z =>
    match todo with
    | [] => mreturn (inr tt)
    | tid :: todo => r <- flush_stale now tid ;; mreturn (match r with inl _ => inl todo | inr _ => inr tt end)
    end) (df_waitlist s).

(** *** The MIC of the data of a list of buffers; [None]: the data is too short *)

Record mic_locals := { ml_lr : Z * Z; ml_data : bytes; ml_space : Z; ml_len : Z; ml_buf : Z }.
Definition mic_round (l : mic_locals) : M ST (mic_locals + option (Z * Z * bytes * Z)) :=
  let space := if ml_len l <? ml_space l then ml_len l else ml_space l in
  r <- oget (collect (Z.to_nat (space / 4)) (ml_lr l) (ml_data l)) ;;
  let '(lr, data) := r in
  let data_len := u16 (ml_len l - 4 * (space / 4)) in
  let space := space mod 4 in
  if data_len <? 4 then mreturn (inr (Some (lr, data, data_len)))
  else
    wbuf <- adf_nbuf_next (ml_buf l) ;;
    if wbuf =? 0 then mreturn (inr None)
    else
      data_next <- data_of wbuf Some ;;
      if space =? 0 then
        mreturn (inl {| ml_lr := lr; ml_data := data_next; ml_space := blen data_next; ml_len := data_len; ml_buf := wbuf |})
      else if blen data_next <? 4 - space then mreturn (inr None)
      else
        let n := Z.to_nat (4 - space) in
        head <- oget (slice data 0 space) ;;
        r <- oget (collect 1 lr (head ++ take n data_next)) ;;
        mreturn (inl {| ml_lr := r.1; ml_data := drop n data_next; ml_space := blen data_next - (4 - space); ml_len := u16 (data_len - 4); ml_buf := wbuf |}).
Definition ol_rx_defrag_mic (key : bytes) (wbuf off data_len : Z) : M ST (option bytes) :=
  hdr <- data_of wbuf ol_rx_defrag_michdr ;;
  k <- oget (slice key 0 8) ;;
  lr <- oget (match k with [k0; k1; k2; k3; k4; k5; k6; k7] => Some (get_le32_split k0 k1 k2 k3, get_le32_split k4 k5 k6 k7) | _ => None end) ;;
  r <- oget (collect 4 lr hdr) ;;
  d <- data_of wbuf Some ;;
  fuel <- nb_fuel ;;
  out <- miter fuel mic_round {| ml_lr := r.1; ml_data := drop (Z.to_nat off) d; ml_space := u32 (blen d - off); ml_len := data_len; ml_buf := wbuf |} ;;
  match out with
  | None => mreturn None
  | Some (lr, data, data_len) =>
      w <- oget (last_word data_len data) ;;
      let '(l, r) := michael_block (michael_word w lr) in
      mreturn (Some (put_le32 l ++ put_le32 r))
  end.

Definition ol_rx_frag_tkip_demic (key : bytes) (msdu hdrlen : Z) : M ST Z :=
  d <- data_of msdu Some ;;
  let pktlen := blen d in
  mic <- ol_rx_defrag_mic key msdu hdrlen (u16 (pktlen - (hdrlen + ic_miclen f_tkip))) ;;
  match mic with
  | None => mreturn OL_RX_DEFRAG_ERR
  | Some mic =>
      mic0 <- oget (slice d (pktlen - ic_miclen f_tkip) (ic_miclen f_tkip)) ;;
      if bool_decide (mic = mic0) then set_data msdu (trim_tail (ic_miclen f_tkip) d) ;; mreturn OL_RX_DEFRAG_OK else mreturn OL_RX_DEFRAG_ERR
  end.

(** *** Recombining: the data of the fragments behind the header of the first *)

(** Whether there is room for the data of the second behind that of the first, in the buffer or in
    memory for a larger one *)
Variable (skb_room : bytes -> bytes -> bool).

(** The status; [src] is freed when it went well. *)
Definition ol_rx_defrag_concat (dst src : Z) : M ST Z :=
  d <- data_of dst Some ;; e <- data_of src Some ;;
  if skb_room d e then set_data dst (d ++ e) ;; htt_rx_desc_frame_free src ;; mreturn OL_RX_DEFRAG_OK else mreturn OL_RX_DEFRAG_ERR.
Definition ol_rx_defrag_decap_recombine (frag_list hdrsize : Z) : M ST Z :=
  msdu <- adf_nbuf_next frag_list ;;
  adf_nbuf_set_next frag_list 0 ;;
  fuel <- nb_fuel ;;
  ok <- miter fuel (fun msdu =>
    if msdu =? 0 then mreturn (inr true)
    else
      tmp <- adf_nbuf_next msdu ;;
      adf_nbuf_set_next msdu 0 ;;
      on_data msdu (fun d => Some (tt, pull_head hdrsize d)) ;;
      ok <- ol_rx_defrag_concat frag_list msdu ;;
      if ok =? OL_RX_DEFRAG_ERR then
        ol_rx_frames_free tmp ;; htt_rx_desc_frame_free frag_list ;; htt_rx_desc_frame_free msdu ;; mreturn (inr false)
      else mreturn (inl tmp)) msdu ;;
  if negb ok then mreturn 0
  else
    on_data frag_list (fun d => d ← clear_frag_bits d; Some (tt, d)) ;;
    mreturn frag_list.

(** *** The whole of a list of fragments *)

Variables (stack_pn : Z -> htt_rx_pn_t) (opmode : wlan_op_mode) (cfg : df_conf).
(** The next stages *)
Variables (ol_rx_fwd_check ol_rx_deliver ol_rx_in_order_deliver : Z -> Z -> M ST unit).

(** The packet numbers, one fragment after the other; whether to go on.  Locals are [prev] and
    [cur]. *)
Definition check_frag (tid frag_list : Z) : Z * Z -> M ST (Z * Z + bool) := fun '(prev, cur) =>
  if cur =? 0 then mreturn (inr true)
  else
    tmp_next <- adf_nbuf_next cur ;;
    adf_nbuf_set_next cur 0 ;;
    ok <- lift_pn (ol_rx_pn_check_base false stack_pn opmode tid cur) ;;
    if ok =? 0 then
      (if negb (prev =? 0) then adf_nbuf_set_next prev 0 ;; ol_rx_frames_free frag_list else mreturn tt) ;;
      ol_rx_frames_free tmp_next ;;
      mreturn (inr false)
    else
      on_data cur (fun d => Some (tt, trim_tail DEFRAG_IEEE80211_FCS_LEN d)) ;;
      adf_nbuf_set_next cur tmp_next ;;
      mreturn (inl (cur, tmp_next)).

(** [decap] of every fragment; the list is freed when one fails. *)
Definition each_frag (frag_list : Z) (f : bytes -> option (Z * bytes)) : M ST bool :=
  fuel <- nb_fuel ;;
  miter fuel (fun cur =>
    if cur =? 0 then mreturn (inr true)
    else
      tmp_next <- adf_nbuf_next cur ;;
      ok <- on_data cur f ;;
      if ok =? OL_RX_DEFRAG_ERR then ol_rx_frames_free frag_list ;; mreturn (inr false) else mreturn (inl tmp_next)) frag_list.
Definition demic_decap (hdrlen : Z) (d : bytes) : option (Z * bytes) :=
  '(ok, d) ← ol_rx_frag_ccmp_demic hdrlen d;
  if ok =? OL_RX_DEFRAG_ERR then Some (ok, d) else ol_rx_frag_ccmp_decap hdrlen d.

Definition remove_cipher (sec : htt_sec_type) (frag_list hdr_space : Z) : M ST bool :=
  match sec with
  | htt_sec_type_tkip | htt_sec_type_tkip_nomic => each_frag frag_list (ol_rx_frag_tkip_decap hdr_space)
  | htt_sec_type_aes_ccmp => each_frag frag_list (demic_decap hdr_space)
  | htt_sec_type_wep40 | htt_sec_type_wep104 | htt_sec_type_wep128 => each_frag frag_list (ol_rx_frag_wep_decap hdr_space)
  | _ => mreturn true
  end.

(** The headers of the recombined frame *)
Definition finish (msdu hdr_space : Z) : M ST unit :=
  on_data msdu (fun d => d ← ol_rx_defrag_qos_decap hdr_space d; Some (tt, d)) ;;
  if frm_802_3 cfg then on_data msdu (fun d => d ← ol_rx_defrag_nwifi_to_8023 d; Some (tt, d)) else mreturn tt.

Definition ol_rx_defrag (tid frag_list : Z) : M ST unit :=
  if safemode cfg then
    if full_reorder_offload cfg then ol_rx_in_order_deliver tid frag_list else ol_rx_deliver tid frag_list
  else
    fuel <- nb_fuel ;;
    go_on <- miter fuel (check_frag tid frag_list) (0, frag_list) ;;
    if negb go_on then mreturn tt
    else
      hdr_space <- data_of frag_list ol_rx_frag_hdrsize ;;
      d <- htt_rx_msdu_desc_retrieve frag_list ;;
      massert (rx_has_mcast_flag d) ;;
      let index := if rx_is_mcast d then txrx_sec_mcast else txrx_sec_ucast in
      s <- mget ;;
      sec <- oget (security (df_pn s) !! index) ;;
      ok <- remove_cipher sec frag_list hdr_space ;;
      if negb ok then mreturn tt
      else
        msdu <- ol_rx_defrag_decap_recombine frag_list hdr_space ;;
        if msdu =? 0 then mreturn tt
        else
          ok <- match sec with
                | htt_sec_type_tkip => s <- mget ;; key <- oget (michael_key s !! index) ;; ol_rx_frag_tkip_demic key msdu hdr_space
                | _ => mreturn OL_RX_DEFRAG_OK
                end ;;
          if ok =? OL_RX_DEFRAG_ERR then
            htt_rx_desc_frame_free msdu ;; lift_pn (modify (add_err (tid, msdu)))
          else
            finish msdu hdr_space ;;
            ol_rx_fwd_check tid msdu.

(** *** Incoming fragments *)

Definition same_frame (d first : bytes) : option bool :=
  rxseq ← frag_seq d; frxseq ← frag_seq first; a1 ← i_addr1 d; b1 ← i_addr1 first; a2 ← i_addr2 d; b2 ← i_addr2 first;
  Some ((rxseq =? frxseq) && bool_decide (a1 = b1) && bool_decide (a2 = b2)).

Definition ol_rx_reorder_store_frag (tid seq_num frag : Z) : M ST unit :=
  r <- df_rr tid ;;
  let seq := Z.land seq_num (win_sz_mask r) in
  massert (seq =? 0) ;;
  e <- df_slot tid seq ;;
  fragno <- data_of frag frag_no ;;
  more <- data_of frag more_frag ;;
  if negb more && (fragno =? 0) && (el_head e =? 0) then
    res <- ol_rx_fraglist_insert (el_head e) (el_tail e) frag ;;
    df_set_slot tid seq {| el_head := res.1.1; el_tail := res.1.2 |} ;;
    adf_nbuf_set_next frag 0 ;;
    ol_rx_defrag tid res.1.1 ;;
    df_set_slot tid seq null_elem
  else
    (if negb (el_head e =? 0) then
       d <- data_of frag Some ;;
       same <- data_of (el_head e) (same_frame d) ;;
       if negb same then ol_rx_frames_free (el_head e) ;; df_set_slot tid seq null_elem else mreturn tt
     else mreturn tt) ;;
    e <- df_slot tid seq ;;
    res <- ol_rx_fraglist_insert (el_head e) (el_tail e) frag ;;
    let '(head, tail, all_frag_present) := res in
    df_set_slot tid seq {| el_head := head; el_tail := tail |} ;;
    (if defrag_timeout_check cfg then df_waitlist_remove tid else mreturn tt) ;;
    if all_frag_present : bool then
      ol_rx_defrag tid head ;;
      df_set_slot tid seq null_elem ;;
      r <- df_rr tid ;; df_set_rr tid (set_timeout 0 r) ;;
      s <- mget ;; l <- oget (aset (df_last_seq s) tid seq_num) ;; modify (set_df_last_seq l)
    else if defrag_timeout_check cfg then
      r <- df_rr tid ;; df_set_rr tid (set_timeout (u32 (now_ms cfg + timeout_ms cfg)) r) ;;
      ol_rx_defrag_waitlist_add tid
    else mreturn tt.

(** [peer]: whether the peer is found; [flush_seq]: the sequence number of the flush the
    message has, if any; [head_msdu] and [seq_num] are of the fragment popped. *)
Definition ol_rx_frag_indication_handler (tid : Z) (peer : bool) (flush_seq : option Z) (head_msdu seq_num : Z) : M ST unit :=
  if OL_TXRX_NUM_EXT_TIDS <=? tid then mreturn tt
  else
    (match flush_seq with
     | Some seq_num_start => if negb (full_reorder_offload cfg) && peer then ol_rx_reorder_flush_frag tid seq_num_start else mreturn tt
     | None => mreturn tt
     end) ;;
    if peer then ol_rx_reorder_store_frag tid seq_num head_msdu else htt_rx_desc_frame_free head_msdu.
End Ops.
