(* ===== verification/DefragInv.v ===== *)
(** * Defragmentation: specifications

    The specifications of the functions of [Defrag] on lists of buffers, and the functions of
    bytes they implement: the Michael MIC as a fold over the words of the padded data, and the
    reassembly of a frame from the fragments a sender makes of it. *)

From S2P Require Import Prelude HttRxDesc Nbuf RxPn RxReorder Defrag.

Local Open Scope c_scope.

#[local] Abbreviation bytes := (list Z).

(** ** Bytes *)

Lemma blen_nonneg d : 0 <= blen d.
Proof. unfold blen. lia. Qed.
Lemma blen_app d e : blen (d ++ e) = blen d + blen e.
Proof. unfold blen. rewrite length_app. lia. Qed.
Lemma blen_cons x d : blen (x :: d) = 1 + blen d.
Proof. unfold blen. cbn. lia. Qed.
Lemma blen_nil : blen [] = 0.
Proof. done. Qed.
Lemma blen_drop n d : 0 <= n <= blen d -> blen (drop (Z.to_nat n) d) = blen d - n.
Proof. unfold blen. rewrite length_drop. lia. Qed.
Lemma blen_take n d : 0 <= n <= blen d -> blen (take (Z.to_nat n) d) = n.
Proof. unfold blen. rewrite length_take. lia. Qed.
Lemma blen_write_at d i v : blen (write_at d i v) = blen d.
Proof. unfold blen. by rewrite length_write_at. Qed.
Lemma blen_upd d i v : blen (upd d i v) = blen d.
Proof. unfold blen. by rewrite length_upd. Qed.

Lemma aget_in d i : 0 <= i < blen d -> exists b, aget d i = Some b.
Proof. intros Hi. by apply aget_is_Some. Qed.
Lemma aget_app_l d e i : i < blen d -> aget (d ++ e) i = aget d i.
Proof.
  unfold aget. intros Hi. case_decide; [|done]. unfold blen in Hi. by rewrite lookup_app_l by lia.
Qed.
Lemma aget_app_r d e i : blen d <= i -> aget (d ++ e) i = aget e (i - blen d).
Proof.
  intros Hi. pose proof (blen_nonneg d). rewrite !aget_lookup by lia. unfold blen in *.
  rewrite lookup_app_r by lia. f_equal. lia.
Qed.

(** A slice of an append that lies on one side *)
Lemma slice_Some d i n : 0 <= i -> 0 <= n -> i + n <= blen d ->
  slice d i n = Some (take (Z.to_nat n) (drop (Z.to_nat i) d)).
Proof.
  intros H1 H2 H3. unfold slice. by rewrite (proj2 (Z.leb_le _ _) H1), (proj2 (Z.leb_le _ _) H2), (proj2 (Z.leb_le _ _) H3).
Qed.
Lemma slice_length d i n v : slice d i n = Some v -> blen v = n.
Proof.
  unfold slice. destruct (_ && _) eqn:H; [|done]. intros [= <-]. unfold blen in *.
  rewrite length_take, length_drop. lia.
Qed.
Lemma slice_at d e f n i : blen d = i -> blen e = n -> slice (d ++ e ++ f) i n = Some e.
Proof.
  intros <- <-. pose proof (blen_nonneg d). pose proof (blen_nonneg e). pose proof (blen_nonneg f).
  rewrite slice_Some by (rewrite ?blen_app; lia). unfold blen. rewrite !Nat2Z.id, drop_app_length, take_app_length. done.
Qed.

Lemma pull_head_app d e n : blen d = n -> pull_head n (d ++ e) = e.
Proof.
  intros <-. unfold pull_head. pose proof (blen_nonneg e). rewrite (proj2 (Z.ltb_ge _ _)) by (rewrite blen_app; lia).
  unfold blen. by rewrite Nat2Z.id, drop_app_length.
Qed.
Lemma trim_tail_app d e n : blen e = n -> trim_tail n (d ++ e) = d.
Proof.
  intros <-. unfold trim_tail. pose proof (blen_nonneg d). rewrite (proj2 (Z.ltb_ge _ _)) by (rewrite blen_app; lia).
  rewrite blen_app. replace (blen d + blen e - blen e) with (blen d) by lia. unfold blen. by rewrite Nat2Z.id, take_app_length.
Qed.

Lemma write_at_app d e f i : blen d = i -> blen e = blen f -> forall g, write_at (d ++ e ++ g) i f = d ++ f ++ g.
Proof.
  intros <- He g. apply list_eq_aget.
  - rewrite length_write_at, !length_app. unfold blen in He. lia.
  - intros k. pose proof (blen_nonneg d). destruct (decide (0 <= k)) as [Hk|Hk].
    2: { unfold aget. by rewrite !decide_False. }
    assert (Hb : blen d + Z.of_nat (length f) <= Z.of_nat (length (d ++ e ++ g))).
    { rewrite !length_app. unfold blen in *. lia. }
    rewrite aget_write_at by lia.
    destruct (decide (k < blen d)) as [H1|H1].
    { destruct (decide _) as [[]|]; [lia|]. by rewrite !aget_app_l by lia. }
    rewrite (aget_app_r d (f ++ g)) by lia.
    destruct (decide (blen d <= k < blen d + Z.of_nat (length f))) as [H2|H2].
    + by rewrite aget_app_l by (unfold blen in *; lia).
    + rewrite (aget_app_r f) by (unfold blen in *; lia). rewrite aget_app_r, aget_app_r by (unfold blen in *; lia). by rewrite He.
Qed.

(** ** Michael as a fold over words *)

Fixpoint le_words (d : bytes) : list Z :=
  match d with
  | b0 :: b1 :: b2 :: b3 :: d => get_le32_split b0 b1 b2 b3 :: le_words d
  | _ => []
  end.
Definition michael_words (lr : Z * Z) (ws : list Z) : Z * Z := foldl (fun lr w => michael_word w lr) lr ws.
(** 0x5a, and four to seven zeroes up to a multiple of four *)
Definition michael_pad (d : bytes) : bytes := d ++ 0x5a :: replicate (Z.to_nat (4 + (- (blen d + 5)) mod 4)) 0.
Definition michael (key data : bytes) : bytes :=
  match le_words key with
  | l :: r :: _ => let '(l, r) := michael_words (l, r) (le_words (michael_pad data)) in put_le32 l ++ put_le32 r
  | _ => []
  end.

Lemma le_words_app n d e : length d = (4 * n)%nat -> le_words (d ++ e) = le_words d ++ le_words e.
Proof.
  revert d. induction n as [|n IH]; intros d Hd; [by destruct d|].
  do 4 (destruct d as [|? d]; [cbn in Hd; lia|]). cbn. f_equal. apply IH. cbn in Hd. lia.
Qed.
Lemma michael_words_app lr ws vs : michael_words lr (ws ++ vs) = michael_words (michael_words lr ws) vs.
Proof. apply foldl_app. Qed.
Lemma collect_spec n lr d : (4 * n <= length d)%nat ->
  collect n lr d = Some (michael_words lr (le_words (take (4 * n) d)), drop (4 * n) d).
Proof.
  revert lr d. induction n as [|n IH]; intros lr d Hd; [done|].
  do 4 (destruct d as [|? d]; [cbn in Hd; lia|]). replace (4 * Datatypes.S n)%nat with (4 + 4 * n)%nat by lia.
  cbn [collect take drop Nat.add le_words]. apply IH. cbn in Hd. lia.
Qed.

(** [last_word] with a final empty word is the padding. *)
Lemma last_word_spec d e : blen d < 4 ->
  exists w, last_word (blen d) (d ++ e) = Some w /\ le_words (michael_pad d) = [w; 0].
Proof.
  intros Hd. unfold blen in Hd.
  do 4 (destruct d as [|? d]; [by eexists|]). cbn in Hd. lia.
Qed.
Lemma michael_pad_app n d e : length d = (4 * n)%nat -> michael_pad (d ++ e) = d ++ michael_pad e.
Proof.
  intros Hd. unfold michael_pad. rewrite <- app_assoc, blen_app. do 4 f_equal.
  assert (blen d = 4 * Z.of_nat n) as -> by (unfold blen; lia).
  replace (- (4 * Z.of_nat n + blen e + 5)) with (- (blen e + 5) + (- Z.of_nat n) * 4) by lia. by rewrite Z_mod_plus_full.
Qed.
Lemma michael_last lr n d tail e w : length d = (4 * n)%nat -> blen tail < 4 ->
  last_word (blen tail) (tail ++ e) = Some w ->
  michael_words lr (le_words (michael_pad (d ++ tail))) = michael_block (michael_word w (michael_words lr (le_words d))).
Proof.
  intros Hd Ht Hw. rewrite (michael_pad_app n), (le_words_app n), michael_words_app by done.
  destruct (last_word_spec tail e Ht) as (w' & Hw' & ->). rewrite Hw in Hw'. injection Hw' as <-.
  set (lr' := michael_words lr _). change (michael_word 0 (michael_word w lr') = michael_block (michael_word w lr')).
  destruct (michael_word w lr') as [l r]. unfold michael_word. cbn [fst snd]. by rewrite Z.lxor_0_r.
Qed.

(** ** Lists of buffers *)

Section Specs.
Context {Dsc : Type} `{RD : RxDescOps Dsc}.
#[local] Abbreviation ST := (df_state Dsc).
#[local] Abbreviation store := (gmap Z (nbuf (frag Dsc))).
Implicit Types (s : ST) (nb : store) (l : list Z).

(** The data of a buffer *)
Definition body nb (x : Z) : bytes := match nb !! x with Some b => fr_bytes (nb_desc b) | None => [] end.
Definition bodies nb l : list bytes := body nb <$> l.

Lemma body_lookup nb x b : nb !! x = Some b -> body nb x = fr_bytes (nb_desc b).
Proof. unfold body. by intros ->. Qed.
Lemma bodies_ext nb nb' l : (forall x, x ∈ l -> body nb' x = body nb x) -> bodies nb' l = bodies nb l.
Proof. intros H. unfold bodies. apply list_fmap_ext. intros i x Hx. apply H. by eapply list_elem_of_lookup_2. Qed.

Lemma runs_data_of {A} p (f : bytes -> option A) a s (Q : A -> ST -> Prop) :
  is_Some (nbufs s !! p) -> f (body (nbufs s) p) = Some a -> Q a s -> runs (data_of p f) s Q.
Proof.
  intros [b Hb] Hf HQ. unfold data_of. mstep. eapply runs_nb_read; [exact Hb|].
  rewrite (body_lookup _ _ _ Hb) in Hf. by eapply runs_oget.
Qed.
Lemma data_of_eq {A} p (f : bytes -> option A) a s :
  is_Some (nbufs s !! p) -> f (body (nbufs s) p) = Some a -> data_of p f s = Some (a, s).
Proof.
  intros [b Hb] Hf. unfold data_of, nb_read, mbnd, mget, oget. rewrite (body_lookup _ _ _ Hb) in Hf. rewrite Hb. cbn. by rewrite Hf.
Qed.
Lemma next_eq p b s : nbufs s !! p = Some b -> adf_nbuf_next p s = Some (nb_next b, s).
Proof. intros Hb. unfold adf_nbuf_next, nb_read, mbnd, mget, oget, mreturn. by rewrite Hb. Qed.

(** *** The MIC over a list of buffers *)

Lemma runs_mic_round lm s (Q : mic_locals + option (Z * Z * bytes * Z) -> ST -> Prop) :
  let n := (if ml_len lm <? ml_space lm then ml_len lm else ml_space lm) / 4 in
  let k := (if ml_len lm <? ml_space lm then ml_len lm else ml_space lm) mod 4 in
  let d1 := take (Z.to_nat (4 * n)) (ml_data lm) in
  let d2 := drop (Z.to_nat (4 * n)) (ml_data lm) in
  let lr := michael_words (ml_lr lm) (le_words d1) in
  0 <= ml_space lm <= blen (ml_data lm) -> 0 <= ml_len lm < 65536 ->
  (if ml_len lm - 4 * n <? 4 then Q (inr (Some (lr, d2, ml_len lm - 4 * n))) s
   else exists b nx b', nbufs s !! ml_buf lm = Some b /\ nb_next b = nx /\ nx <> 0 /\ nbufs s !! nx = Some b' /\
     let e := body (nbufs s) nx in
     if k =? 0 then Q (inl {| ml_lr := lr; ml_data := e; ml_space := blen e; ml_len := ml_len lm - 4 * n; ml_buf := nx |}) s
     else 4 - k <= blen e /\ k <= blen d2 /\
       Q (inl {| ml_lr := michael_words lr (le_words (take (Z.to_nat k) d2 ++ take (Z.to_nat (4 - k)) e));
                 ml_data := drop (Z.to_nat (4 - k)) e; ml_space := blen e - (4 - k); ml_len := ml_len lm - 4 * n - 4; ml_buf := nx |}) s) ->
  runs (mic_round lm) s Q.
Proof.
  intros n k d1 d2 lr Hsp Hlen. unfold mic_round.
  set (sp := if ml_len lm <? ml_space lm then ml_len lm else ml_space lm) in *.
  assert (Hspr : 0 <= sp <= ml_len lm /\ sp <= blen (ml_data lm)).
  { unfold sp. destruct (ml_len lm <? ml_space lm) eqn:H; [apply Z.ltb_lt in H|apply Z.ltb_ge in H]; lia. }
  pose proof (Z.div_mod sp 4 ltac:(lia)) as Hdm. pose proof (Z.mod_pos_bound sp 4 ltac:(lia)).
  fold n k in Hdm, H |- *. intros HQ. mstep.
  eapply runs_oget.
  { rewrite collect_spec by (unfold blen in *; lia). do 2 f_equal. }
  cbn [fst snd]. replace (4 * Z.to_nat n)%nat with (Z.to_nat (4 * n)) by lia.
  fold d1 d2. fold lr. rewrite u16_small by lia. revert HQ. cbv zeta.
  destruct (ml_len lm - 4 * n <? 4) eqn:Hl4; intros HQ; [by mstep|].
  destruct HQ as (b & nx & b' & Hb & Hnx & Hne & Hb' & HQ). mstep. eapply runs_adf_nbuf_next; [exact Hb|].
  rewrite Hnx, (proj2 (Z.eqb_neq _ _) Hne). mstep.
  eapply runs_data_of; [by eexists|reflexivity|].
  destruct (k =? 0) eqn:Hk0; [by mstep|]. destruct HQ as (Hk1 & Hk2 & HQ).
  rewrite (proj2 (Z.ltb_ge _ _) Hk1). mstep. eapply runs_oget.
  { rewrite slice_Some by lia. change (drop (Z.to_nat 0) d2) with d2. reflexivity. }
  mstep. eapply runs_oget.
  { apply collect_spec. rewrite length_app, !length_take. unfold blen in *. lia. }
  mstep. apply Z.ltb_ge in Hl4. rewrite u16_small by lia. cbn [fst snd].
  rewrite (take_ge _ (4 * 1)) by (rewrite length_app, !length_take; unfold blen in *; lia). exact HQ.
Qed.

(** How the loop ends: after [pre] of the data, whose end [rest] of a buffer is left, without
    the data [post] of the buffers behind *)
Definition mic_end (lm : mic_locals) (ds : list bytes) (out : option (Z * Z * bytes * Z)) : Prop :=
  exists pre rest (n : nat) done post,
    out = Some (michael_words (ml_lr lm) (le_words pre), rest, ml_len lm - 4 * Z.of_nat n) /\
    length pre = (4 * n)%nat /\ 0 <= ml_len lm - 4 * Z.of_nat n < 4 /\
    ds = done ++ post /\ ml_data lm ++ concat done = pre ++ rest.

Lemma mic_end_here lm ds n : 0 <= n -> 4 * n <= blen (ml_data lm) -> 0 <= ml_len lm - 4 * n < 4 ->
  mic_end lm ds (Some (michael_words (ml_lr lm) (le_words (take (Z.to_nat (4 * n)) (ml_data lm))),
    drop (Z.to_nat (4 * n)) (ml_data lm), ml_len lm - 4 * n)).
Proof.
  intros Hn Hd Hr. exists (take (Z.to_nat (4 * n)) (ml_data lm)), (drop (Z.to_nat (4 * n)) (ml_data lm)), (Z.to_nat n), [], ds.
  rewrite Z2Nat.id by lia. split_and!; [done| |lia|lia|done|by rewrite app_nil_r, take_drop].
  rewrite length_take. unfold blen in *. lia.
Qed.

(** One more buffer: [4 * n] bytes came from the buffers before. *)
Lemma mic_end_next lm lm' (n : nat) pre d ds out :
  mic_end lm' ds out -> length pre = (4 * n)%nat -> ml_lr lm' = michael_words (ml_lr lm) (le_words pre) ->
  ml_len lm' = ml_len lm - 4 * Z.of_nat n -> ml_data lm ++ d = pre ++ ml_data lm' -> mic_end lm (d :: ds) out.
Proof.
  intros (pre' & rest & n' & dn & post & -> & Hpre' & Hr & Hds & Hd) Hpre Hlr Hlen Hdata.
  exists (pre ++ pre'), rest, (n + n')%nat, (d :: dn), post. split_and!; [| |lia|lia|by rewrite Hds|].
  - rewrite (le_words_app n), michael_words_app, <- Hlr by done. do 2 f_equal. lia.
  - rewrite length_app. lia.
  - cbn. rewrite (app_assoc (ml_data lm)), Hdata, <- !app_assoc. by f_equal.
Qed.

Lemma mic_loop s nxts : forall lm b fuel,
  nbufs s !! ml_buf lm = Some b -> lseg (nbufs s) (nb_next b) nxts 0 ->
  Forall (fun d => 4 <= blen d) (bodies (nbufs s) nxts) ->
  ml_space lm = blen (ml_data lm) -> 0 <= ml_len lm < 65536 ->
  ml_len lm <= blen (ml_data lm ++ concat (bodies (nbufs s) nxts)) -> (length nxts < fuel)%nat ->
  runs (miter fuel mic_round lm) s (fun out s' => s' = s /\ mic_end lm (bodies (nbufs s) nxts) out).
Proof.
  induction nxts as [|x nxts IH]; intros lm b [|fuel] Hb Hl Hds Hsp Hlen Htot Hf; cbn [length] in Hf; try lia;
    cbn [miter]; mstep; apply runs_mic_round; rewrite ?Hsp; pose proof (blen_nonneg (ml_data lm)) as H0; [lia|lia| |lia|lia|];
    set (sp := if ml_len lm <? blen (ml_data lm) then ml_len lm else blen (ml_data lm));
    assert (Hspr : 0 <= sp <= ml_len lm /\ sp <= blen (ml_data lm) /\ (sp = ml_len lm \/ sp = blen (ml_data lm)))
      by (unfold sp; destruct (ml_len lm <? blen (ml_data lm)) eqn:E; [apply Z.ltb_lt in E|apply Z.ltb_ge in E]; lia);
    pose proof (Z.div_mod sp 4 ltac:(lia)) as Hdm; pose proof (Z.mod_pos_bound sp 4 ltac:(lia)) as Hmod;
    set (n := sp / 4) in *; set (k := sp mod 4) in *; rewrite blen_app in Htot;
    (destruct (ml_len lm - 4 * n <? 4) eqn:Hl4;
      [mstep; split; [done|]; apply Z.ltb_lt in Hl4; apply mic_end_here; lia|apply Z.ltb_ge in Hl4]).
  - change (bodies (nbufs s) []) with (@nil bytes) in Htot. cbn [concat] in Htot. rewrite blen_nil in Htot. lia.
  - destruct Hl as (Hx & Hne & b' & Hb' & Hl). cbn [bodies fmap list_fmap] in Hds, Htot |- *.
    apply Forall_cons in Hds as [Hd Hds]. cbn [concat] in Htot. rewrite blen_app in Htot.
    change (body (nbufs s) <$> nxts) with (bodies (nbufs s) nxts) in *.
    set (d := body (nbufs s) x) in *. assert (Hspb : sp = blen (ml_data lm)) by lia.
    exists b, x, b'. split_and!; [done..|]. destruct (k =? 0) eqn:Hk0.
    + apply Z.eqb_eq in Hk0. eapply runs_mono; [eapply (IH _ b'); cbn [ml_buf ml_data ml_space ml_len]; try done; [lia| |lia]|].
      * rewrite blen_app. fold d. lia.
      * intros out s' [-> Hout]. split; [done|]. eapply (mic_end_next _ _ (Z.to_nat n) (ml_data lm)); [exact Hout| | | |done].
        -- unfold blen in *. lia.
        -- cbn. rewrite take_ge by (unfold blen in *; lia). done.
        -- cbn. lia.
    + apply Z.eqb_neq in Hk0. split_and!; [fold d; lia|rewrite blen_drop; lia|].
      assert (Hd2 : blen (drop (Z.to_nat (4 * n)) (ml_data lm)) = k) by (rewrite blen_drop; lia).
      rewrite (take_ge (drop _ _)) by (unfold blen in *; lia).
      eapply runs_mono; [eapply (IH _ b'); cbn [ml_buf ml_data ml_space ml_len]; try done|].
      * fold d. rewrite blen_drop by lia. done.
      * lia.
      * fold d. rewrite blen_app, blen_drop by lia. lia.
      * lia.
      * intros out s' [-> Hout]. split; [done|].
        eapply (mic_end_next _ _ (Z.to_nat n + 1) (ml_data lm ++ take (Z.to_nat (4 - k)) d)); [exact Hout| | | |].
        -- rewrite length_app, length_take. unfold blen in *. lia.
        -- cbn [ml_lr]. rewrite <- michael_words_app, <- (le_words_app (Z.to_nat n)) by (rewrite length_take; unfold blen in *; lia).
           by rewrite app_assoc, take_drop.
        -- cbn. lia.
        -- cbn [ml_data]. fold d. by rewrite <- app_assoc, take_drop.
Qed.

(** The words end in the last buffer, or with the data. *)
Definition ends_in_last (ds : list bytes) (len : Z) : Prop :=
  length ds = 1%nat \/ len mod 4 = 0 \/ blen (concat (removelast ds)) < 4 * (len / 4).

Lemma concat_prefix (ds ds1 ds2 : list bytes) : ds = ds1 ++ ds2 -> ds2 <> [] -> blen (concat ds1) <= blen (concat (removelast ds)).
Proof.
  intros -> Hne. rewrite removelast_app, concat_app, blen_app by done. pose proof (blen_nonneg (concat (removelast ds2))). lia.
Qed.
Lemma mic_end_word d ds lm out : ml_data lm = d -> ml_len lm <= blen (d ++ concat ds) -> 0 <= ml_len lm -> ends_in_last (d :: ds) (ml_len lm) ->
  mic_end lm ds out -> exists lr rest w (n : nat) pre tl post,
    out = Some (lr, rest, blen tl) /\ last_word (blen tl) rest = Some w /\ rest = tl ++ post /\ blen tl < 4 /\
    lr = michael_words (ml_lr lm) (le_words pre) /\ length pre = (4 * n)%nat /\
    take (Z.to_nat (ml_len lm)) (d ++ concat ds) = pre ++ tl.
Proof.
  intros <- Htot Hlen He (pre & rest & n & dn & post & -> & Hpre & Hr & Hds & Hd).
  set (k := ml_len lm - 4 * Z.of_nat n) in *.
  assert (Hk : k <= blen rest).
  { assert (Hq : 4 * Z.of_nat n = 4 * (ml_len lm / 4) /\ k = ml_len lm mod 4) by (unfold k; Z.div_mod_to_equations; lia).
    assert (Hb : blen (ml_data lm) + blen (concat dn) = 4 * Z.of_nat n + blen rest).
    { rewrite <- blen_app, Hd, blen_app. unfold blen. lia. }
    destruct post as [|e post].
    - rewrite app_nil_r in Hds. subst dn. rewrite blen_app in Htot. lia.
    - pose proof (blen_nonneg rest). destruct He as [He|[He|He]].
      + rewrite Hds in He. cbn in He. rewrite length_app in He. cbn in He. lia.
      + lia.
      + pose proof (concat_prefix (ml_data lm :: ds) (ml_data lm :: dn) (e :: post) ltac:(by rewrite Hds) ltac:(done)) as Hc.
        change (concat (ml_data lm :: dn)) with (ml_data lm ++ concat dn) in Hc. rewrite blen_app in Hc. lia. }
  assert (Hsplit : blen (take (Z.to_nat k) rest) = k) by (apply blen_take; lia).
  rewrite <- (take_drop (Z.to_nat k) rest) in Hd |- *. set (tl := take (Z.to_nat k) rest) in *. set (more := drop (Z.to_nat k) rest) in *.
  destruct (last_word_spec tl more ltac:(lia)) as (w & Hw & _). rewrite <- Hsplit.
  exists (michael_words (ml_lr lm) (le_words pre)), (tl ++ more), w, n, pre, tl, more. split_and!; try done; [lia|].
  rewrite Hds, concat_app, app_assoc, Hd, app_assoc, <- (app_assoc (pre ++ tl)). rewrite take_app_le.
  - rewrite take_ge; [done|]. rewrite length_app. unfold k, blen in *. lia.
  - rewrite length_app. unfold k, blen in *. lia.
Qed.

Lemma michdr_length d hdr : ol_rx_defrag_michdr d = Some hdr -> length hdr = 16%nat.
Proof.
  unfold ol_rx_defrag_michdr. intros (dir & _ & H)%bind_Some. apply bind_Some in H as (a & Ha & H).
  apply bind_Some in H as (b & Hb & H). apply bind_Some in H as (f & _ & H). apply bind_Some in H as (tid & _ & [= <-]).
  assert (Hs : forall i v, slice d i 6 = Some v -> length v = 6%nat).
  { intros i v Hv%slice_length. unfold blen in Hv. lia. }
  unfold i_addr1, i_addr2, i_addr3, i_addr4 in *. rewrite !length_app. cbn.
  assert (length a = 6%nat) as -> by (by repeat case_match; eapply Hs).
  assert (length b = 6%nat) as -> by (by repeat case_match; eapply Hs). done.
Qed.

Lemma mic_spec s p b nxts key off len hdr :
  nbufs s !! p = Some b -> lseg (nbufs s) (nb_next b) nxts 0 -> NoDup nxts ->
  ol_rx_defrag_michdr (body (nbufs s) p) = Some hdr -> 8 <= blen key ->
  0 <= off <= blen (body (nbufs s) p) -> blen (body (nbufs s) p) < 2 ^ 32 ->
  Forall (fun d => 4 <= blen d) (bodies (nbufs s) nxts) ->
  let ds := drop (Z.to_nat off) (body (nbufs s) p) :: bodies (nbufs s) nxts in
  0 <= len < 65536 -> len <= blen (concat ds) -> ends_in_last ds len ->
  runs (ol_rx_defrag_mic key p off len) s (fun out s' =>
    s' = s /\ out = Some (michael key (hdr ++ take (Z.to_nat len) (concat ds)))).
Proof.
  intros Hb Hl Hnd Hhdr Hkey Hoff H32 H4 ds Hlen Htot He. unfold ol_rx_defrag_mic.
  pose proof (michdr_length _ _ Hhdr) as Hh16.
  mstep. eapply runs_data_of; [by eexists|exact Hhdr|]. mstep. eapply runs_oget; [apply slice_Some; lia|].
  unfold michael. do 8 (destruct key as [|? key]; [unfold blen in Hkey; cbn in Hkey; lia|]).
  cbn [take drop Z.to_nat Pos.to_nat Pos.iter_op Nat.add]. mstep. eapply runs_oget; [reflexivity|].
  mstep. eapply runs_oget; [apply collect_spec; lia|]. mstep. eapply runs_data_of; [by eexists|reflexivity|].
  unfold nb_fuel. do 2 mstep. rewrite (take_ge hdr) by lia. cbn [fst snd le_words]. mstep.
  set (lr0 := (get_le32_split _ _ _ _, get_le32_split _ _ _ _)).
  rewrite u32_small by lia. rewrite <- blen_drop by lia.
  eapply runs_mono.
  { eapply (mic_loop s nxts); [exact Hb|exact Hl|exact H4|done|done|exact Htot|]. pose proof (lseg_size _ _ _ _ Hl Hnd). lia. }
  intros out s' [-> Hout]. eapply mic_end_word in Hout as (lr & rest & w & n & pre & tl & post & -> & Hw & -> & Ht4 & -> & Hpre & Htake);
    [|reflexivity|exact Htot|apply Hlen|exact He]. cbn [ml_len ml_lr ml_data] in *.
  mstep. eapply runs_oget; [exact Hw|]. unfold ds. cbn [concat]. rewrite Htake, app_assoc.
  rewrite (michael_last lr0 (4 + n) (hdr ++ pre) tl post w) by (try done; rewrite length_app; lia).
  rewrite (le_words_app 4), michael_words_app by done.
  destruct (michael_block _) as [l r]. by mstep.
Qed.

(** *** Walking a list *)

(** A loop that goes from a buffer to the next and stops at null *)
Lemma runs_walk {B} (I : list Z -> list Z -> ST -> Prop) (Q : B -> ST -> Prop) bdy fuel todo s :
  (forall done x todo s, I done (x :: todo) s -> x <> 0 /\ runs (bdy x) s (fun r s' =>
     match r with inl y => y = hd 0 todo /\ I (done ++ [x]) todo s' | inr b => Q b s' end)) ->
  (forall done s, I done [] s -> runs (bdy 0) s (fun r s' => match r with inl _ => False | inr b => Q b s' end)) ->
  (length todo < fuel)%nat -> I [] todo s -> runs (miter fuel bdy (hd 0 todo)) s Q.
Proof.
  intros Hstep Hend. generalize (@nil Z) as dn. revert todo s. induction fuel as [|fuel IH]; intros todo s dn Hf HI; [lia|].
  cbn [miter]. mstep. destruct todo as [|x todo]; cbn [hd].
  - eapply runs_mono; [by eapply Hend|]. intros [?|b] s'; [done|]. intros HQ. by mstep.
  - destruct (Hstep _ _ _ _ HI) as [_ Hr]. eapply runs_mono; [exact Hr|]. intros [y|b] s'; cbn beta iota.
    + intros [-> HI']. eapply IH; [cbn in Hf; lia|exact HI'].
    + intros HQ. by mstep.
Qed.

(** Everything but the packet number memory of [tid], the counts and reports of replays, and the
    buffers [X] is as it was. *)
Record kept_but (tid : Z) (X : list Z) s s' : Prop := {
  kb_tids : forall t, t <> tid -> aget (tids_last_pn (df_pn s')) t = aget (tids_last_pn (df_pn s)) t /\
    aget (tids_last_pn_valid (df_pn s')) t = aget (tids_last_pn_valid (df_pn s)) t;
  kb_reorder : df_reorder s' = df_reorder s;
  kb_waitlist : df_waitlist s' = df_waitlist s;
  kb_last_seq : df_last_seq s' = df_last_seq s;
  kb_key : michael_key s' = michael_key s;
  kb_security : security (df_pn s') = security (df_pn s);
  kb_fw : fw_pn_check (df_pn s') = fw_pn_check (df_pn s);
  kb_bufs : forall x, x ∉ X -> nbufs s' !! x = nbufs s !! x
}.
Lemma kept_but_refl tid X s : kept_but tid X s s.
Proof. by split. Qed.
Lemma kept_but_trans tid X s1 s2 s3 : kept_but tid X s1 s2 -> kept_but tid X s2 s3 -> kept_but tid X s1 s3.
Proof.
  intros [] []. split; try (by etrans).
  - intros t Ht. destruct (kb_tids0 t Ht), (kb_tids1 t Ht). split; congruence.
  - intros x Hx. rewrite kb_bufs1, kb_bufs0 by done. done.
Qed.
Lemma kept_but_mono tid X Y s s' : X ⊆ Y -> kept_but tid X s s' -> kept_but tid Y s s'.
Proof. intros HXY []. split; try done. intros x Hx. apply kb_bufs0. set_solver. Qed.
Lemma kept_but_bufs tid X nb s : (forall x, x ∉ X -> nb !! x = nbufs s !! x) -> kept_but tid X s (set_nbufs nb s).
Proof. intros H. by split. Qed.

(** Without the buffers [l] *)
Definition dropped_bufs l nb : store := foldr delete nb l.
Lemma dropped_in l nb x : x ∈ l -> dropped_bufs l nb !! x = None.
Proof. apply lookup_foldr_delete. Qed.
Lemma dropped_out l nb x : x ∉ l -> dropped_bufs l nb !! x = nb !! x.
Proof. apply lookup_foldr_delete_not_elem_of. Qed.
Lemma dropped_snoc l x nb : dropped_bufs (l ++ [x]) nb = delete x (dropped_bufs l nb).
Proof.
  apply map_eq. intros y. destruct (decide (y = x)) as [->|Hy].
  - by rewrite lookup_delete_eq, dropped_in by set_solver.
  - rewrite lookup_delete_ne by done. destruct (decide (y ∈ l)).
    + by rewrite !dropped_in by set_solver.
    + by rewrite !dropped_out by set_solver.
Qed.
Lemma dropped_app l1 l2 nb : dropped_bufs l1 (dropped_bufs l2 nb) = dropped_bufs (l1 ++ l2) nb.
Proof. unfold dropped_bufs. by rewrite foldr_app. Qed.

Lemma lseg_hd nb p l : lseg nb p l 0 -> p = hd 0 l.
Proof. destruct l; cbn; [done|]. by intros []. Qed.

Lemma frames_free_spec s p l : lseg (nbufs s) p l 0 -> NoDup l ->
  runs (ol_rx_frames_free p) s (fun _ s' => s' = set_nbufs (dropped_bufs l (nbufs s)) s).
Proof.
  intros Hl Hnd. unfold ol_rx_frames_free, nb_fuel. do 2 mstep. rewrite (lseg_hd _ _ _ Hl).
  pose proof (lseg_size _ _ _ _ Hl Hnd) as Hsz.
  eapply (runs_walk (fun done todo s' => l = done ++ todo /\ s' = set_nbufs (dropped_bufs done (nbufs s)) s)); [| |lia|].
  - intros dn x todo s' [-> ->]. pose proof (lseg_nonnull _ _ _ _ Hl). split; [set_solver|].
    rewrite (proj2 (Z.eqb_neq x 0)) by set_solver. destruct (lseg_next _ _ _ _ _ _ Hl) as (b & Hb & Hn).
    apply NoDup_app in Hnd as (_ & Hdis & _). assert (Hx : x ∉ dn) by set_solver.
    mstep. eapply runs_adf_nbuf_next; [rewrite nbufs_set, dropped_out by done; exact Hb|]. mstep.
    eapply runs_free; [rewrite nbufs_set, dropped_out by done; by eexists|]. mstep. split; [by eapply lseg_hd|].
    split; [by rewrite <- app_assoc|]. by rewrite nbufs_set, set_nbufs_set, dropped_snoc.
  - intros dn s' [-> ->]. rewrite app_nil_r, Z.eqb_refl. by mstep.
  - split; [done|]. symmetry. apply set_nbufs_id.
Qed.

(** *** Inserting a fragment *)

(** The fragment number and the more-fragments bit of a buffer *)
Definition fno nb (x : Z) : Z := default 0 (frag_no (body nb x)).
Definition fmore nb (x : Z) : bool := default false (more_frag (body nb x)).
(** A buffer with a header *)
Definition headed nb (x : Z) : Prop := is_Some (nb !! x) /\ 24 <= blen (body nb x).

Lemma headed_no nb x : headed nb x -> frag_no (body nb x) = Some (fno nb x) /\ 0 <= fno nb x < 16.
Proof.
  intros [_ Hb]. unfold fno, frag_no, i_seq. destruct (aget_in (body nb x) 22 ltac:(lia)) as [lo ->].
  destruct (aget_in (body nb x) 23 ltac:(lia)) as [hi ->]. cbn [mbind option_bind]. split; [done|]. cbn [default from_option id].
  change IEEE80211_SEQ_FRAG_MASK with (2 ^ 4 - 1). rewrite land_mask by lia. apply Z.mod_pos_bound. lia.
Qed.
Lemma headed_more nb x : headed nb x -> more_frag (body nb x) = Some (fmore nb x).
Proof. intros [_ Hb]. unfold fmore, more_frag, i_fc1. by destruct (aget_in (body nb x) 1 ltac:(lia)) as [f ->]. Qed.

(** Relinking keeps headers. *)
Lemma relinked_body X nb nb' x : relinked X nb nb' -> body nb' x = body nb x.
Proof. intros [H _]. specialize (H x). unfold body. destruct (nb' !! x), (nb !! x); cbn in H; congruence. Qed.
Lemma relinked_headed X nb nb' x : relinked X nb nb' -> headed nb x -> headed nb' x.
Proof.
  intros Hr [Hs Hb]. split; [|by rewrite (relinked_body _ _ _ _ Hr)]. destruct Hr as [H _]. specialize (H x).
  destruct Hs as [b Hs]. rewrite Hs in H. destruct (nb' !! x); [done|discriminate].
Qed.
Lemma relinked_fno X nb nb' x : relinked X nb nb' -> fno nb' x = fno nb x.
Proof. intros Hr. unfold fno. by rewrite (relinked_body _ _ _ _ Hr). Qed.
Lemma relinked_fmore X nb nb' x : relinked X nb nb' -> fmore nb' x = fmore nb x.
Proof. intros Hr. unfold fmore. by rewrite (relinked_body _ _ _ _ Hr). Qed.

(** The last fragment is there, and those after the first are numbered from 1 on. *)
Definition looks_complete nb l (t : Z) : bool :=
  negb (fmore nb t) && bool_decide (fno nb <$> tl l = seqZ 1 (Z.of_nat (length (tl l)))).

Lemma find_place_spec s head a y c k :
  lseg (nbufs s) head (a ++ y :: c) 0 -> NoDup (a ++ y :: c) -> Forall (headed (nbufs s)) (a ++ y :: c) ->
  Forall (fun z => fno (nbufs s) z < k) a -> k <= fno (nbufs s) y ->
  runs (find_place head k) s (fun r s' => r = (y, fno (nbufs s) y, hd 0 c) /\ s' = s).
Proof.
  intros Hl Hnd Hh Ha Hy. pose proof (lseg_size _ _ _ _ Hl Hnd) as Hsz. rewrite length_app in Hsz. cbn [length] in Hsz.
  unfold find_place, nb_fuel. do 2 mstep.
  assert (Hf : (length a < Datatypes.S (size (nbufs s)))%nat) by lia. revert Hf.
  generalize (Datatypes.S (size (nbufs s))) as fuel. clear Hsz Hnd.
  revert head Hl Hh Ha. induction a as [|z a IH]; intros head Hl Hh Ha [|fuel] Hf; cbn in Hf; try lia;
    cbn [miter]; mstep; destruct Hl as (-> & Hne & b & Hb & Hl); apply Forall_cons in Hh as [Hz Hh];
    mstep; (eapply runs_data_of; [by eexists|by apply headed_no|]); mstep; (eapply runs_adf_nbuf_next; [exact Hb|]).
  - rewrite (proj2 (Z.ltb_ge _ _) Hy). do 2 mstep. by rewrite (lseg_hd _ _ _ Hl).
  - apply Forall_cons in Ha as [Hzk Ha]. rewrite (proj2 (Z.ltb_lt _ _) Hzk). mstep. apply IH; try done. lia.
Qed.

Lemma bool_decide_cons {A} `{EqDecision A} (x : A) (l l' : list A) : bool_decide (x :: l = x :: l') = bool_decide (l = l').
Proof. apply bool_decide_ext. naive_solver. Qed.

Lemma all_numbered_loop s m : forall p count fuel, lseg (nbufs s) p m 0 -> m <> [] -> Forall (headed (nbufs s)) m ->
  0 <= count <= 15 -> (length m < fuel)%nat ->
  runs (miter fuel (fun '(next, count) =>
    next_fragno <- data_of next frag_no ;;
    let count := u8 (count + 1) in
    if negb (next_fragno =? count) then mreturn (inr false)
    else next <- adf_nbuf_next next ;; if next =? 0 then mreturn (inr true) else mreturn (inl (next, count))) (p, count)) s
    (fun r s' => r = bool_decide (fno (nbufs s) <$> m = seqZ (count + 1) (Z.of_nat (length m))) /\ s' = s).
Proof.
  induction m as [|z m IH]; intros p count [|fuel] Hl Hne Hh Hc Hf; cbn [length] in Hf; try lia; [done|].
  cbn [miter]. mstep. destruct Hl as (-> & Hz0 & b & Hb & Hl). apply Forall_cons in Hh as [Hz Hh].
  destruct (headed_no _ _ Hz) as [Hno Hrange]. mstep. eapply runs_data_of; [by eexists|exact Hno|].
  rewrite u8_small by lia. cbn [length]. rewrite Nat2Z.inj_succ, seqZ_cons by lia.
  rewrite Z.pred_succ, fmap_cons. destruct (fno (nbufs s) z =? count + 1) eqn:Heq; cbn [negb].
  - apply Z.eqb_eq in Heq. mstep. eapply runs_adf_nbuf_next; [exact Hb|]. rewrite (lseg_hd _ _ _ Hl), Heq, bool_decide_cons.
    replace (Z.succ (count + 1)) with (count + 1 + 1) by lia. destruct m as [|z' m].
    + cbn [hd]. rewrite Z.eqb_refl. do 2 mstep. done.
    + cbn [hd]. pose proof (lseg_nonnull _ _ _ _ Hl). rewrite (proj2 (Z.eqb_neq z' 0)) by set_solver. mstep.
      apply IH; [|done|done|lia|cbn [length] in *; lia]. pose proof (lseg_hd _ _ _ Hl) as Hhd. cbn in Hhd. by rewrite Hhd in Hl.
  - apply Z.eqb_neq in Heq. do 2 mstep. split; [|done]. symmetry. apply bool_decide_eq_false. naive_solver.
Qed.

Lemma all_numbered_spec s p m : lseg (nbufs s) p m 0 -> m <> [] -> NoDup m -> Forall (headed (nbufs s)) m ->
  runs (all_numbered p) s (fun r s' => r = bool_decide (fno (nbufs s) <$> m = seqZ 1 (Z.of_nat (length m))) /\ s' = s).
Proof.
  intros Hl Hne Hnd Hh. pose proof (lseg_size _ _ _ _ Hl Hnd) as Hsz.
  unfold all_numbered, nb_fuel. do 2 mstep. apply all_numbered_loop; try done; lia.
Qed.

(** The end of an insertion that left the list [l] with the tail [t] *)
Lemma insert_end s head l t (Q : Z * Z * bool -> ST -> Prop) :
  lseg (nbufs s) head l 0 -> NoDup l -> Forall (headed (nbufs s)) l -> (1 < length l)%nat -> t ∈ l ->
  Q (head, t, looks_complete (nbufs s) l t) s ->
  runs (next <- adf_nbuf_next head ;;
        last_morefrag <- data_of t more_frag ;;
        present <- (if last_morefrag : bool then mreturn false else all_numbered next) ;;
        mreturn (head, t, present)) s Q.
Proof.
  intros Hl Hnd Hh Hlen Ht HQ. destruct l as [|x l]; [cbn in Hlen; lia|].
  destruct Hl as (-> & _ & b & Hb & Hl). rewrite Forall_forall in Hh. pose proof (Hh t Ht) as Hth.
  mstep. eapply runs_adf_nbuf_next; [exact Hb|]. mstep. eapply runs_data_of; [apply Hth|by apply headed_more|].
  unfold looks_complete in HQ. cbn [tl] in HQ. apply NoDup_cons in Hnd as [_ Hnd].
  destruct (fmore (nbufs s) t); cbn [negb andb] in HQ; mstep; [by do 2 mstep|].
  eapply runs_mono; [apply all_numbered_spec; [exact Hl| |done|]|].
  - destruct l; [cbn in Hlen; lia|done].
  - apply Forall_forall. intros y Hy. apply Hh. set_solver.
  - intros r s' [-> ->]. by mstep.
Qed.

(** A first fragment *)
Lemma insert_first s tail x b : nbufs s !! x = Some b -> headed (nbufs s) x ->
  runs (ol_rx_fraglist_insert 0 tail x) s (fun r s' => r = (x, x, false) /\ s' = set_nbufs (<[x := with_next 0 b]> (nbufs s)) s).
Proof.
  intros Hb Hx. unfold ol_rx_fraglist_insert. mstep. eapply runs_data_of; [by eexists|by apply headed_no|].
  cbn [Z.eqb]. mstep. eapply runs_set_next; [exact Hb|]. by mstep.
Qed.

(** A number above that of the tail, which may not be the last of the list: what is behind the
    tail is cut off. *)
Lemma insert_above s head tail l1 l2 x :
  lseg (nbufs s) head (l1 ++ tail :: l2) 0 -> NoDup (x :: l1 ++ tail :: l2) -> Forall (headed (nbufs s)) (x :: l1 ++ tail :: l2) ->
  x <> 0 -> fno (nbufs s) tail < fno (nbufs s) x ->
  runs (ol_rx_fraglist_insert head tail x) s (fun r s' => exists nb', s' = set_nbufs nb' s /\ relinked [tail; x] (nbufs s) nb' /\
    lseg nb' head (l1 ++ [tail; x]) 0 /\ r = (head, x, looks_complete (nbufs s) (l1 ++ [tail; x]) x)).
Proof.
  intros Hl Hnd Hh Hx0 Hlt. rewrite Forall_forall in Hh. pose proof (Hh x ltac:(set_solver)) as Hx. pose proof (Hh tail ltac:(set_solver)) as Ht.
  destruct (proj1 Ht) as [bt Hbt]. destruct (proj1 Hx) as [bx Hbx].
  apply NoDup_cons in Hnd as [Hxl Hnd]. assert (Hxt : x <> tail) by set_solver.
  unfold ol_rx_fraglist_insert. mstep. eapply runs_data_of; [by eexists|by apply headed_no|].
  assert (Hhd0 : head <> 0) by (pose proof (lseg_nonnull _ _ _ _ Hl); rewrite (lseg_hd _ _ _ Hl); destruct l1; set_solver).
  rewrite (proj2 (Z.eqb_neq _ _) Hhd0). mstep. eapply runs_data_of; [by eexists|by apply headed_no|].
  rewrite (proj2 (Z.ltb_lt _ _) Hlt). do 2 mstep. eapply runs_set_next; [exact Hbt|]. mstep.
  eapply runs_set_next; [rewrite nbufs_set, lookup_insert_ne by done; exact Hbx|]. mstep.
  rewrite nbufs_set, set_nbufs_set. set (nb' := <[x := _]> _).
  assert (Hr : relinked [tail; x] (nbufs s) nb').
  { eapply relinked_trans; eapply relinked_next; [set_solver|done|set_solver|]. by rewrite lookup_insert_ne. }
  assert (Hl' : lseg nb' head (l1 ++ [tail; x]) 0).
  { apply lseg_app in Hl as (r & Hl1 & -> & Ht0 & _). apply lseg_app. exists tail. split.
    - eapply relinked_lseg; [exact Hr| |exact Hl1]. intros y Hy. apply NoDup_app in Hnd as (_ & Hdis & _). specialize (Hdis y Hy). set_solver.
    - unfold nb'. cbn. split_and!; [done..|]. eexists. rewrite lookup_insert_ne, lookup_insert_eq by done. split; [done|].
      cbn. split_and!; [done..|]. eexists. by rewrite lookup_insert_eq. }
  eapply insert_end; rewrite ?nbufs_set.
  - exact Hl'.
  - apply NoDup_app in Hnd as (H1 & H2 & _). apply NoDup_app. split_and!; [done| |].
    + intros y Hy. specialize (H2 y Hy). set_solver.
    + apply NoDup_cons. split; [set_solver|]. apply NoDup_singleton.
  - apply Forall_forall. intros y Hy. eapply relinked_headed; [exact Hr|]. apply Hh. set_solver.
  - rewrite length_app. cbn. lia.
  - set_solver.
  - exists nb'. split_and!; [done..|]. f_equal. unfold looks_complete. rewrite (relinked_fmore _ _ _ _ Hr). do 2 f_equal.
    apply bool_decide_ext. by rewrite (list_fmap_ext (fno nb') (fno (nbufs s))) by (intros; by eapply relinked_fno).
Qed.

(** A number that is not above that of the tail: [y] is the first fragment whose number is not
    smaller.  A fragment with the same number is dropped, another one is put behind [y], and the
    tail stays. *)
Lemma insert_below s head tail a y c x :
  let nb := nbufs s in
  lseg nb head (a ++ y :: c) 0 -> NoDup (x :: a ++ y :: c) -> Forall (headed nb) (x :: a ++ y :: c) -> x <> 0 ->
  tail ∈ a ++ y :: c -> fno nb x <= fno nb tail -> Forall (fun z => fno nb z < fno nb x) a -> fno nb x <= fno nb y ->
  runs (ol_rx_fraglist_insert head tail x) s (fun r s' =>
    if fno nb x =? fno nb y then r = (head, tail, false) /\ s' = set_nbufs (delete x nb) s
    else exists nb', s' = set_nbufs nb' s /\ relinked [y; x] nb nb' /\ lseg nb' head (a ++ y :: x :: c) 0 /\
      r = (head, tail, looks_complete nb (a ++ y :: x :: c) tail)).
Proof.
  cbv zeta. intros Hl Hnd Hh Hx0 Htail Hle Ha Hy. pose proof Hh as Hhl. rewrite Forall_forall in Hh.
  pose proof (Hh x ltac:(set_solver)) as Hx. pose proof (Hh tail ltac:(set_solver)) as Ht. pose proof (Hh y ltac:(set_solver)) as Hyh.
  destruct (proj1 Hyh) as [by_ Hby]. destruct (proj1 Hx) as [bx Hbx].
  pose proof Hnd as Hnd'. apply NoDup_cons in Hnd as [Hxl Hnd]. assert (Hxy : x <> y) by set_solver.
  unfold ol_rx_fraglist_insert. mstep. eapply runs_data_of; [by eexists|by apply headed_no|].
  assert (Hhd0 : head <> 0) by (pose proof (lseg_nonnull _ _ _ _ Hl); rewrite (lseg_hd _ _ _ Hl); destruct a; set_solver).
  rewrite (proj2 (Z.eqb_neq _ _) Hhd0). mstep. eapply runs_data_of; [apply Ht|by apply headed_no|].
  rewrite (proj2 (Z.ltb_ge _ _) Hle). do 2 mstep.
  eapply runs_mono; [eapply find_place_spec; [exact Hl|done| |exact Ha|exact Hy]|].
  { apply Forall_cons in Hhl as [_ Hhl]. exact Hhl. }
  intros [[prev no] cur] s' [[= -> -> ->] ->]. cbn beta iota.
  change (fno (pn_bufs (df_pn s)) y) with (fno (nbufs s) y). destruct (fno (nbufs s) x =? fno (nbufs s) y) eqn:Heq.
  - mstep. eapply runs_free; [by eexists|]. by do 2 mstep.
  - mstep. eapply runs_set_next; [exact Hby|]. mstep. eapply runs_set_next; [rewrite nbufs_set, lookup_insert_ne by done; exact Hbx|].
    mstep. rewrite nbufs_set, set_nbufs_set. set (nb' := <[x := _]> _).
    assert (Hr : relinked [y; x] (nbufs s) nb').
    { eapply relinked_trans; eapply relinked_next; [set_solver|done|set_solver|]. by rewrite lookup_insert_ne. }
    assert (Hperm : a ++ y :: x :: c ≡ₚ x :: a ++ y :: c) by (rewrite (Permutation_middle a), (Permutation_swap y x); done).
    assert (Hl' : lseg nb' head (a ++ y :: x :: c) 0).
    { pose proof (lseg_nonnull _ _ _ _ Hl) as H0. apply NoDup_app in Hnd as (_ & Hdis & Hyc).
      apply NoDup_cons in Hyc as [Hyc _]. apply lseg_app in Hl as (r & Hl1 & -> & Hy0 & b' & Hb' & Hl2).
      apply lseg_app. exists y. split.
      - eapply relinked_lseg; [exact Hr| |exact Hl1]. intros z Hz. specialize (Hdis z Hz). set_solver.
      - cbn. split_and!; [done..|]. eexists. split; [by unfold nb'; rewrite lookup_insert_ne, lookup_insert_eq by done|].
        split_and!; [done..|]. eexists. split; [by unfold nb'; rewrite lookup_insert_eq|]. cbn.
        eapply relinked_lseg; [exact Hr| |]; [intros z Hz; set_solver|]. by rewrite <- (lseg_hd _ _ _ Hl2). }
    eapply insert_end; rewrite ?nbufs_set.
    + exact Hl'.
    + by rewrite Hperm.
    + rewrite Hperm. apply Forall_forall. intros z Hz. eapply relinked_headed; [exact Hr|]. by apply Hh.
    + rewrite length_app. cbn. lia.
    + rewrite Hperm. set_solver.
    + exists nb'. split_and!; [done..|]. f_equal. unfold looks_complete. rewrite (relinked_fmore _ _ _ _ Hr). do 2 f_equal.
      apply bool_decide_ext. by rewrite (list_fmap_ext (fno nb') (fno (nbufs s))) by (intros; by eapply relinked_fno).
Qed.
End Specs.
