(* ===== verification/DefragMic.v ===== *)
(** * Defragmentation: the Michael function

    Michael as the standard gives it, by arithmetic on 32-bit numbers and with none of the
    bit operations of the driver, and that the driver's blocks, words and bytes compute it. *)

From S2P Require Import Prelude HttRxDesc Nbuf RxPn RxReorder Defrag DefragInv.

Local Open Scope c_scope.

#[local] Abbreviation bytes := (list Z).

(** ** The definition *)

Definition is_octet (b : Z) : Prop := 0 <= b < 2 ^ 8.
Definition is_word (x : Z) : Prop := 0 <= x < 2 ^ 32.

(** Octet [i] of a word *)
Definition octet (i x : Z) : Z := x / 2 ^ (8 * i) mod 2 ^ 8.
Definition rol32 (n x : Z) : Z := x * 2 ^ n mod 2 ^ 32 + x / 2 ^ (32 - n).
(** The octets of both halves swapped *)
Definition swap_octets (x : Z) : Z := octet 1 x + octet 0 x * 2 ^ 8 + octet 3 x * 2 ^ 16 + octet 2 x * 2 ^ 24.
Definition add32 (x y : Z) : Z := (x + y) mod 2 ^ 32.

Definition block (l r : Z) : Z * Z :=
  let r := Z.lxor r (rol32 17 l) in let l := add32 l r in
  let r := Z.lxor r (swap_octets l) in let l := add32 l r in
  let r := Z.lxor r (rol32 3 l) in let l := add32 l r in
  let r := Z.lxor r (rol32 30 l) in let l := add32 l r in
  (l, r).

(** Words have their lowest octet first. *)
Fixpoint words_of (d : bytes) : list Z :=
  match d with
  | b0 :: b1 :: b2 :: b3 :: d => b0 + b1 * 2 ^ 8 + b2 * 2 ^ 16 + b3 * 2 ^ 24 :: words_of d
  | _ => []
  end.
Definition octets_of (x : Z) : bytes := [octet 0 x; octet 1 x; octet 2 x; octet 3 x].

(** The message goes on with 0x5a and at least four zeroes, up to a whole word. *)
Definition padded (d : bytes) : bytes := d ++ 0x5a :: replicate (Z.to_nat (4 + (- (blen d + 5)) mod 4)) 0.
Definition Michael (key data : bytes) : bytes :=
  match words_of key with
  | l :: r :: _ =>
      let '(l, r) := foldl (fun '(l, r) w => block (Z.lxor l w) r) (l, r) (words_of (padded data)) in octets_of l ++ octets_of r
  | _ => []
  end.

(** The test vectors of IEEE 802.11: each MIC is the key of the next *)
Example Michael_empty : Michael (replicate 8 0) [] = [0x82; 0x92; 0x5c; 0x1c; 0xa1; 0xd1; 0x30; 0xb8].
Proof. vm_compute. reflexivity. Qed.
Example Michael_one : Michael [0x82; 0x92; 0x5c; 0x1c; 0xa1; 0xd1; 0x30; 0xb8] [0x4d] = [0x43; 0x47; 0x21; 0xca; 0x40; 0x63; 0x9b; 0x3f].
Proof. vm_compute. reflexivity. Qed.
Example Michael_two : Michael [0x43; 0x47; 0x21; 0xca; 0x40; 0x63; 0x9b; 0x3f] [0x4d; 0x69] = [0xe8; 0xf9; 0xbe; 0xca; 0xe9; 0x7e; 0x5d; 0x29].
Proof. vm_compute. reflexivity. Qed.
Example Michael_three : Michael [0xe8; 0xf9; 0xbe; 0xca; 0xe9; 0x7e; 0x5d; 0x29] [0x4d; 0x69; 0x63] = [0x90; 0x03; 0x8f; 0xc6; 0xcf; 0x13; 0xc1; 0xdb].
Proof. vm_compute. reflexivity. Qed.
Example Michael_four : Michael [0x90; 0x03; 0x8f; 0xc6; 0xcf; 0x13; 0xc1; 0xdb] [0x4d; 0x69; 0x63; 0x68] = [0xd5; 0x5e; 0x10; 0x05; 0x10; 0x12; 0x89; 0x86].
Proof. vm_compute. reflexivity. Qed.

(** ** The driver's bit operations *)

Lemma is_word_lxor x y : is_word x -> is_word y -> is_word (Z.lxor x y).
Proof.
  intros Hx Hy. unfold is_word in *. assert (0 <= Z.lxor x y) by (apply Z.lxor_nonneg; lia). split; [done|].
  destruct (decide (Z.lxor x y = 0)) as [->|Hne]; [lia|]. apply Z.log2_lt_pow2; [lia|].
  pose proof (Z.log2_lxor x y ltac:(lia) ltac:(lia)) as Hl.
  assert (Hlog : forall z, 0 <= z < 2 ^ 32 -> Z.log2 z < 32).
  { intros z Hz. destruct (decide (z = 0)) as [->|]; [done|]. apply Z.log2_lt_pow2; lia. }
  pose proof (Hlog x Hx). pose proof (Hlog y Hy). lia.
Qed.
Lemma is_word_add32 x y : is_word (add32 x y).
Proof. apply Z.mod_pos_bound. lia. Qed.

Lemma rotated n x : 0 < n < 32 -> is_word x -> Z.lor (u32 (Z.shiftl x n)) (Z.shiftr x (32 - n)) = rol32 n x /\ is_word (rol32 n x).
Proof.
  intros Hn Hx. unfold is_word, rol32, u32 in *. rewrite Z.shiftl_mul_pow2, Z.shiftr_div_pow2 by lia.
  assert (Hp : 2 ^ 32 = 2 ^ (32 - n) * 2 ^ n) by (rewrite <- Z.pow_add_r by lia; f_equal; lia).
  assert (0 < 2 ^ n) by (apply Z.pow_pos_nonneg; lia). assert (0 < 2 ^ (32 - n)) by (apply Z.pow_pos_nonneg; lia).
  assert (Hm : x * 2 ^ n mod 2 ^ 32 = (x mod 2 ^ (32 - n)) * 2 ^ n) by (rewrite Hp, Z.mul_mod_distr_r by lia; done).
  assert (Hd : 0 <= x / 2 ^ (32 - n) < 2 ^ n).
  { split; [apply Z.div_pos; lia|]. apply Z.div_lt_upper_bound; lia. }
  pose proof (Z.mod_pos_bound x (2 ^ (32 - n)) ltac:(lia)) as Hb. rewrite Hm. split; [|nia].
  rewrite Z.lor_comm, <- Z.shiftl_mul_pow2, lor_shiftl by lia. rewrite Z.shiftl_mul_pow2 by lia. lia.
Qed.
Lemma rotl_rol n x : 0 < n < 32 -> is_word x -> rotl x n = rol32 n x.
Proof. intros Hn Hx. by apply rotated. Qed.
Lemma rotr_rol n x : 0 < n < 32 -> is_word x -> rotr x n = rol32 (32 - n) x.
Proof.
  intros Hn Hx. unfold rotr. rewrite Z.lor_comm. replace n with (32 - (32 - n)) at 2 by lia. by apply rotated; [lia|].
Qed.

(** A word by its octets *)
Lemma is_octet_octet i x : is_octet (octet i x).
Proof. apply Z.mod_pos_bound. lia. Qed.
Lemma word_octets x : is_word x -> x = octet 0 x + octet 1 x * 2 ^ 8 + octet 2 x * 2 ^ 16 + octet 3 x * 2 ^ 24.
Proof.
  intros Hx. unfold is_word, octet in *. change (2 ^ (8 * 0)) with 1. change (2 ^ (8 * 1)) with (2 ^ 8). change (2 ^ (8 * 2)) with (2 ^ 8 * 2 ^ 8). change (2 ^ (8 * 3)) with (2 ^ 8 * 2 ^ 8 * 2 ^ 8).
  rewrite Z.div_1_r, <- !Z.div_div by lia. set (a := x / 2 ^ 8). set (b := a / 2 ^ 8). set (c := b / 2 ^ 8).
  pose proof (Z.div_mod x (2 ^ 8) ltac:(lia)). pose proof (Z.div_mod a (2 ^ 8) ltac:(lia)). pose proof (Z.div_mod b (2 ^ 8) ltac:(lia)).
  assert (0 <= c < 2 ^ 8).
  { unfold c, b, a. rewrite !Z.div_div by lia. split; [apply Z.div_pos; lia|apply Z.div_lt_upper_bound; lia]. }
  rewrite (Z.mod_small c) by lia. lia.
Qed.

(** Masking two octets and shifting them *)
Lemma land_octet x i : 0 <= i -> Z.land x (Z.shiftl 0xff (8 * i)) = Z.shiftl (octet i x) (8 * i).
Proof.
  intros Hi. apply Z.bits_inj'. intros k Hk. rewrite Z.land_spec, !Z.shiftl_spec by lia. unfold octet.
  destruct (Z.ltb_spec k (8 * i)) as [Hlt|Hge].
  - rewrite !(Z.testbit_neg_r _ (k - 8 * i)) by lia. apply andb_false_r.
  - change 0xff with (Z.ones 8). destruct (Z.ltb_spec (k - 8 * i) 8).
    + rewrite Z.ones_spec_low, Z.mod_pow2_bits_low, <- Z.shiftr_div_pow2, Z.shiftr_spec by lia. rewrite andb_true_r. f_equal. lia.
    + rewrite Z.ones_spec_high, Z.mod_pow2_bits_high by lia. apply andb_false_r.
Qed.
(** The octets of a sum of shifted octets *)
Lemma lor_octets a b c d : is_octet a -> is_octet b -> is_octet c ->
  Z.lor (Z.lor (Z.lor a (Z.shiftl b 8)) (Z.shiftl c 16)) (Z.shiftl d 24) = a + b * 2 ^ 8 + c * 2 ^ 16 + d * 2 ^ 24.
Proof.
  unfold is_octet. intros Ha Hb Hc. rewrite (lor_shiftl a b 8), (lor_shiftl _ c 16), (lor_shiftl _ d 24) by lia. lia.
Qed.
Lemma xswap_swap x : is_word x -> xswap x = swap_octets x /\ is_word (swap_octets x).
Proof.
  intros Hx. unfold xswap, swap_octets, is_word.
  pose proof (is_octet_octet 0 x) as H0. pose proof (is_octet_octet 1 x) as H1. pose proof (is_octet_octet 2 x) as H2. pose proof (is_octet_octet 3 x) as H3.
  split; [|unfold is_octet in *; lia]. rewrite <- lor_octets by done.
  change 0x00ff00ff with (Z.lor (Z.shiftl 0xff (8 * 0)) (Z.shiftl 0xff (8 * 2))). change 0xff00ff00 with (Z.lor (Z.shiftl 0xff (8 * 1)) (Z.shiftl 0xff (8 * 3))).
  rewrite !Z.land_lor_distr_r, !land_octet by lia. set (a := octet 0 x) in *. set (b := octet 1 x) in *. set (c := octet 2 x) in *. set (d := octet 3 x) in *.
  unfold is_octet in *. rewrite (lor_shiftl (Z.shiftl a (8 * 0)) c (8 * 2)) by (rewrite ?Z.shiftl_mul_pow2 by lia; lia).
  unfold u32. rewrite Z.mod_small by (rewrite !Z.shiftl_mul_pow2 by lia; lia).
  rewrite <- lor_shiftl by (rewrite ?Z.shiftl_mul_pow2 by lia; lia).
  rewrite Z.shiftl_lor, Z.shiftr_lor, !Z.shiftl_shiftl, !Z.shiftr_shiftl_l by lia. cbn [Z.mul Z.add Z.sub Pos.mul Pos.add].
  change (8 * 1 - 8) with 0. change (8 * 3 - 8) with 16. change (8 * 0 + 8) with 8. change (8 * 2 + 8) with 24. rewrite Z.shiftl_0_r.
  rewrite (Z.lor_comm (Z.lor (Z.shiftl a 8) (Z.shiftl c 24))), <- !Z.lor_assoc. f_equal.
  rewrite (Z.lor_comm (Z.shiftl d 16)), <- !Z.lor_assoc. f_equal. apply Z.lor_comm.
Qed.

(** ** The driver's Michael is the standard's *)

Lemma get_le32_octets b0 b1 b2 b3 : is_octet b0 -> is_octet b1 -> is_octet b2 -> is_octet b3 ->
  get_le32_split b0 b1 b2 b3 = b0 + b1 * 2 ^ 8 + b2 * 2 ^ 16 + b3 * 2 ^ 24 /\ is_word (b0 + b1 * 2 ^ 8 + b2 * 2 ^ 16 + b3 * 2 ^ 24).
Proof. intros H0 H1 H2 H3. split; [by apply lor_octets|]. unfold is_octet, is_word in *. lia. Qed.
Lemma put_le32_octets x : put_le32 x = octets_of x.
Proof.
  unfold put_le32, octets_of, octet. cbn [map]. change 0xff with (Z.ones 8).
  by rewrite !Z.land_ones, !Z.shiftr_div_pow2 by lia.
Qed.
Lemma le_words_of d : Forall is_octet d -> le_words d = words_of d /\ Forall is_word (words_of d).
Proof.
  assert (H : forall n d, (length d <= n)%nat -> Forall is_octet d -> le_words d = words_of d /\ Forall is_word (words_of d)).
  { clear d. induction n as [|n IH]; intros d Hn Hd; [by destruct d; [|cbn in Hn; lia]|].
    destruct d as [|b0 [|b1 [|b2 [|b3 d]]]]; try done. inversion_clear Hd as [|? ? H0 Hd1]. inversion_clear Hd1 as [|? ? H1 Hd2].
    inversion_clear Hd2 as [|? ? H2 Hd3]. inversion_clear Hd3 as [|? ? H3 Hd4]. cbn in Hn.
    destruct (IH d ltac:(lia) Hd4) as [Hw Hf]. destruct (get_le32_octets _ _ _ _ H0 H1 H2 H3) as [Hg Hb]. cbn [le_words words_of].
    rewrite Hw, Hg. split; [done|by constructor]. }
  intros Hd. by apply (H (length d)).
Qed.
Lemma michael_block_is_block l r : is_word l -> is_word r ->
  michael_block (l, r) = block l r /\ is_word (block l r).1 /\ is_word (block l r).2.
Proof.
  intros Hl Hr. unfold michael_block, block. change (fun v : Z => u32 v) with (fun v => v mod 2 ^ 32).
  pose proof (is_word_lxor _ _ Hr (proj2 (rotated 17 l ltac:(lia) Hl))) as Hr1. rewrite rotl_rol by (done || lia).
  set (r1 := Z.lxor r (rol32 17 l)) in *. change (u32 (l + r1)) with (add32 l r1). pose proof (is_word_add32 l r1) as Hl1. set (l1 := add32 l r1) in *.
  destruct (xswap_swap l1 Hl1) as [-> Hs]. pose proof (is_word_lxor _ _ Hr1 Hs) as Hr2.
  set (r2 := Z.lxor r1 (swap_octets l1)) in *. change (u32 (l1 + r2)) with (add32 l1 r2). pose proof (is_word_add32 l1 r2) as Hl2. set (l2 := add32 l1 r2) in *.
  pose proof (is_word_lxor _ _ Hr2 (proj2 (rotated 3 l2 ltac:(lia) Hl2))) as Hr3. rewrite rotl_rol by (done || lia).
  set (r3 := Z.lxor r2 (rol32 3 l2)) in *. change (u32 (l2 + r3)) with (add32 l2 r3). pose proof (is_word_add32 l2 r3) as Hl3. set (l3 := add32 l2 r3) in *.
  pose proof (is_word_lxor _ _ Hr3 (proj2 (rotated 30 l3 ltac:(lia) Hl3))) as Hr4. rewrite rotr_rol by (done || lia). change (32 - 2) with 30.
  set (r4 := Z.lxor r3 (rol32 30 l3)) in *. change (u32 (l3 + r4)) with (add32 l3 r4). cbn [fst snd]. split_and!; [done|apply is_word_add32|done].
Qed.
Lemma michael_words_blocks ws l r : is_word l -> is_word r -> Forall is_word ws ->
  michael_words (l, r) ws = foldl (fun '(l, r) w => block (Z.lxor l w) r) (l, r) ws.
Proof.
  intros Hl Hr Hws. revert l r Hl Hr. induction Hws as [|w ws Hw _ IH]; intros l r Hl Hr; [done|].
  change (michael_words (michael_block (Z.lxor l w, r)) ws = foldl (fun '(l, r) w => block (Z.lxor l w) r) (block (Z.lxor l w) r) ws).
  destruct (michael_block_is_block _ r (is_word_lxor _ _ Hl Hw) Hr) as (-> & H1 & H2).
  destruct (block _ _) as [l1 r1]. by apply IH.
Qed.

Lemma Forall_is_octet_padded d : Forall is_octet d -> Forall is_octet (padded d).
Proof.
  intros Hd. unfold padded. apply Forall_app. split; [done|]. constructor; [by unfold is_octet|]. apply Forall_replicate. by unfold is_octet.
Qed.
Lemma michael_is_Michael key data : Forall is_octet key -> Forall is_octet data -> michael key data = Michael key data.
Proof.
  intros Hk Hd. unfold michael, Michael. destruct (le_words_of key Hk) as [-> Hkw].
  destruct (words_of key) as [|l [|r ws]]; [done..|]. inversion_clear Hkw as [|? ? Hl Hkw1]. inversion_clear Hkw1 as [|? ? Hr _].
  destruct (le_words_of _ (Forall_is_octet_padded data Hd)) as [Hw Hf]. change (michael_pad data) with (padded data). rewrite Hw, michael_words_blocks by done.
  destruct (foldl _ _ _) as [l1 r1]. by rewrite !put_le32_octets.
Qed.

(** The pseudo header is octets of the frame. *)
Lemma slice_octets d i n v : Forall is_octet d -> slice d i n = Some v -> Forall is_octet v.
Proof.
  intros Hd H. unfold slice in H. case_match; [|done]. injection H as <-. by apply Forall_take, Forall_drop.
Qed.
Lemma michdr_octets d hdr : Forall is_octet d -> ol_rx_defrag_michdr d = Some hdr -> Forall is_octet hdr.
Proof.
  intros Hd. unfold ol_rx_defrag_michdr. intros (dir & _ & H)%bind_Some. apply bind_Some in H as (a & Ha & H).
  apply bind_Some in H as (b & Hb & H). apply bind_Some in H as (f & _ & H). apply bind_Some in H as (tid & Htid & [= <-]).
  unfold i_addr1, i_addr2, i_addr3, i_addr4 in *.
  assert (Forall is_octet a) by (repeat case_match; (eapply (slice_octets d); [done|eassumption])).
  assert (Forall is_octet b) by (repeat case_match; (eapply (slice_octets d); [done|eassumption])).
  assert (is_octet tid).
  { case_match; [injection Htid as <-; by unfold is_octet|]. apply bind_Some in Htid as (q & _ & [= <-]).
    unfold is_octet, IEEE80211_QOS_TID. change 0x0f with (Z.ones 4). rewrite Z.land_ones by lia. pose proof (Z.mod_pos_bound q (2 ^ 4)). lia. }
  apply Forall_app; split; [done|]. apply Forall_app; split; [done|]. constructor; [done|]. repeat constructor; by unfold is_octet.
Qed.
Lemma aset_octets d i v d' : Forall is_octet d -> is_octet v -> aset d i v = Some d' -> Forall is_octet d'.
Proof. intros Hd Hv H. unfold aset in H. case_decide; [|done]. injection H as <-. by apply Forall_insert. Qed.
Lemma aget_octet d i v : Forall is_octet d -> aget d i = Some v -> is_octet v.
Proof. intros Hd H. unfold aget in H. case_decide; [|done]. by eapply Forall_lookup_1 in H. Qed.
Lemma masked_octet b m : is_octet b -> is_octet (Z.land b m).
Proof.
  intros Hb. assert (H : Z.land b m = Z.land b m mod 2 ^ 8); [|rewrite H; apply Z.mod_pos_bound; lia].
  rewrite <- Z.land_ones by lia. rewrite <- Z.land_assoc, (Z.land_comm m), Z.land_assoc, Z.land_ones by lia. by rewrite Z.mod_small.
Qed.
Lemma clear_frag_bits_octets d d' : Forall is_octet d -> clear_frag_bits d = Some d' -> Forall is_octet d'.
Proof.
  intros Hd. unfold clear_frag_bits. intros (f & Hf & H)%bind_Some. apply bind_Some in H as (d1 & Hd1 & H).
  apply bind_Some in H as (lo & Hlo & H). apply bind_Some in H as (hi & Hhi & H).
  eapply aset_octets in Hd1; [|done|eapply masked_octet, aget_octet, Hf; done].
  eapply aset_octets in H; [done..|eapply masked_octet, aget_octet, Hlo; done].
Qed.
