(* ===== verification/DefragRun.v ===== *)
(** * Defragmentation: a complete list

    What [ol_rx_defrag] makes of the list of all the fragments of a frame: the packet numbers
    one after the other, the ciphers, recombining and the conversion of the header, stage by
    stage.  [fragment_of] says what a sender made of the header and a piece of the data. *)

From S2P Require Import Prelude HttRxDesc Nbuf RxPn RxReorder Defrag DefragInv DefragMic.

Local Open Scope c_scope.

#[local] Abbreviation bytes := (list Z).

(** ** Bytes of a frame *)

Implicit Types (d e : bytes).

Lemma aget_app d e i v : aget d i = Some v -> aget (d ++ e) i = Some v.
Proof. intros H. pose proof (aget_Some_range _ _ _ H). by rewrite aget_app_l by (unfold blen; lia). Qed.
Lemma slice_app d e i n v : slice d i n = Some v -> slice (d ++ e) i n = Some v.
Proof.
  unfold slice. destruct (_ && _) eqn:H; [|done]. intros [= <-]. apply andb_true_iff in H as [H H3]. apply andb_true_iff in H as [H1 H2].
  apply Z.leb_le in H1, H2, H3. pose proof (blen_nonneg e).
  rewrite (proj2 (Z.leb_le _ _) H1), (proj2 (Z.leb_le _ _) H2), (proj2 (Z.leb_le _ _)) by (rewrite blen_app; lia). cbn [andb].
  unfold blen in *. by rewrite drop_app_le, take_app_le by (rewrite ?length_drop; lia).
Qed.
Lemma aset_app d e i v d' : aset d i v = Some d' -> aset (d ++ e) i v = Some (d' ++ e).
Proof. intros [Hi ->]%aset_inv. rewrite aset_Some by (rewrite length_app; lia). by rewrite insert_app_l by lia. Qed.

Lemma i_fc0_app d e v : i_fc0 d = Some v -> i_fc0 (d ++ e) = Some v.
Proof. apply aget_app. Qed.
Lemma i_fc1_app d e v : i_fc1 d = Some v -> i_fc1 (d ++ e) = Some v.
Proof. apply aget_app. Qed.
Lemma fc_dir_app d e v : fc_dir d = Some v -> fc_dir (d ++ e) = Some v.
Proof. unfold fc_dir. intros (f & Hf & H)%bind_Some. by rewrite (i_fc1_app _ e _ Hf). Qed.
Lemma has_order_app d e v : has_order d = Some v -> has_order (d ++ e) = Some v.
Proof. unfold has_order. intros (f & Hf & H)%bind_Some. by rewrite (i_fc1_app _ e _ Hf). Qed.
Lemma has_seq_app d e v : DEFRAG_IEEE80211_QOS_HAS_SEQ d = Some v -> DEFRAG_IEEE80211_QOS_HAS_SEQ (d ++ e) = Some v.
Proof. unfold DEFRAG_IEEE80211_QOS_HAS_SEQ. intros (f & Hf & H)%bind_Some. by rewrite (i_fc0_app _ e _ Hf). Qed.

Lemma hdrsize_app d e v : ol_rx_frag_hdrsize d = Some v -> ol_rx_frag_hdrsize (d ++ e) = Some v.
Proof.
  unfold ol_rx_frag_hdrsize. intros (dir & Hdir & H)%bind_Some. apply bind_Some in H as (q & Hq & H).
  apply bind_Some in H as (o & Ho & H). by rewrite (fc_dir_app _ e _ Hdir), (has_seq_app _ e _ Hq), (has_order_app _ e _ Ho).
Qed.
Lemma michdr_app d e v : ol_rx_defrag_michdr d = Some v -> ol_rx_defrag_michdr (d ++ e) = Some v.
Proof.
  unfold ol_rx_defrag_michdr, i_addr1, i_addr2, i_addr3, i_addr4. intros (dir & Hdir & H)%bind_Some. apply bind_Some in H as (a & Ha & H).
  apply bind_Some in H as (b & Hb & H). apply bind_Some in H as (f & Hf & H). apply bind_Some in H as (t & Ht & H).
  rewrite (fc_dir_app _ e _ Hdir), (i_fc0_app _ e _ Hf). cbn [mbind option_bind].
  assert (Ht' : (if Z.land f IEEE80211_FC0_SUBTYPE_QOS =? 0 then Some 0 else q ← aget (d ++ e) 24; Some (Z.land q IEEE80211_QOS_TID)) = Some t).
  { destruct (_ =? 0); [done|]. apply bind_Some in Ht as (q & Hq & Ht). by rewrite (aget_app _ e _ _ Hq). }
  rewrite Ht'. destruct (dir =? IEEE80211_FC1_DIR_NODS), (dir =? IEEE80211_FC1_DIR_TODS), (dir =? IEEE80211_FC1_DIR_FROMDS);
    by rewrite (slice_app _ e _ _ _ Ha), (slice_app _ e _ _ _ Hb).
Qed.

Lemma clear_frag_bits_app d e d' : clear_frag_bits d = Some d' -> clear_frag_bits (d ++ e) = Some (d' ++ e).
Proof.
  unfold clear_frag_bits. intros (f & Hf & H)%bind_Some. apply bind_Some in H as (d1 & Hd1 & H).
  apply bind_Some in H as (lo & Hlo & H). apply bind_Some in H as (hi & Hhi & H).
  rewrite (i_fc1_app _ e _ Hf). cbn [mbind option_bind]. rewrite (aset_app _ e _ _ _ Hd1). cbn [mbind option_bind].
  rewrite (aget_app _ e _ _ Hlo). cbn [mbind option_bind]. rewrite (aget_app _ e _ _ Hhi). cbn [mbind option_bind]. by apply aset_app.
Qed.
Lemma clear_frag_bits_length d d' : clear_frag_bits d = Some d' -> blen d' = blen d.
Proof.
  unfold clear_frag_bits. intros (f & Hf & H)%bind_Some. apply bind_Some in H as (d1 & Hd1 & H).
  apply bind_Some in H as (lo & Hlo & H). apply bind_Some in H as (hi & Hhi & H).
  apply length_aset in Hd1, H. unfold blen. by rewrite H, Hd1.
Qed.
Lemma clear_frag_bits_defined d : 24 <= blen d -> is_Some (clear_frag_bits d).
Proof.
  intros Hd. unfold clear_frag_bits, i_fc1. destruct (aget_in d 1 ltac:(lia)) as [f ->]. cbn [mbind option_bind].
  unfold blen in Hd. rewrite aset_Some by lia. cbn [mbind option_bind]. set (d1 := <[_ := _]> d).
  assert (Hd1 : 24 <= blen d1) by (unfold blen, d1; rewrite length_insert; lia).
  destruct (aget_in d1 22 ltac:(lia)) as [lo ->]. cbn [mbind option_bind]. destruct (aget_in d1 23 ltac:(lia)) as [hi ->].
  cbn [mbind option_bind]. unfold blen in Hd1. rewrite aset_Some by lia. by eexists.
Qed.

(** *** What a sender made of a header and a piece of data *)

(** The bytes in front of the data of a fragment and behind it *)
Definition iv_len (sec : htt_sec_type) : Z :=
  match sec with
  | htt_sec_type_tkip | htt_sec_type_tkip_nomic | htt_sec_type_aes_ccmp => 8
  | htt_sec_type_wep40 | htt_sec_type_wep104 | htt_sec_type_wep128 => 4
  | htt_sec_type_none | htt_sec_type_wapi => 0
  end.
Definition trailer_len (sec : htt_sec_type) : Z :=
  match sec with
  | htt_sec_type_aes_ccmp => 8
  | htt_sec_type_tkip | htt_sec_type_tkip_nomic | htt_sec_type_wep40 | htt_sec_type_wep104 | htt_sec_type_wep128 => 4
  | htt_sec_type_none | htt_sec_type_wapi => 0
  end.
(** An IV of eight bytes has the extended-IV bit; the frame check sequence is four bytes. *)
Definition fragment_of (sec : htt_sec_type) (h p d : bytes) : Prop :=
  exists iv t fcs, d = (h ++ iv ++ p ++ t) ++ fcs /\ blen fcs = 4 /\ blen iv = iv_len sec /\ blen t = trailer_len sec /\
    (iv_len sec = 8 -> exists b, iv !! 3%nat = Some b /\ Z.testbit b 5 = true).

Lemma blen_zero_nil (d : bytes) : blen d = 0 -> d = [].
Proof. destruct d; [done|]. unfold blen. cbn. lia. Qed.
Lemma has_extiv_set iv b : iv !! 3%nat = Some b -> Z.testbit b 5 = true -> has_extiv 0 iv = Some true.
Proof.
  intros Hb Ht. unfold has_extiv. change (aget iv (0 + IEEE80211_WEP_IVLEN)) with (iv !! 3%nat). rewrite Hb. cbn [mbind option_bind].
  destruct (Z.eqb_spec (Z.land b IEEE80211_WEP_EXTIV) 0) as [H|]; [|done].
  assert (Hf : Z.testbit (Z.land b IEEE80211_WEP_EXTIV) 5 = false) by (rewrite H; done). rewrite Z.land_spec, Ht in Hf. discriminate.
Qed.

Lemma decap_spec c h iv r : blen iv = ic_header c -> decap c (blen h) (h ++ iv ++ r) = Some (h ++ r).
Proof.
  intros Hiv. pose proof (blen_nonneg h). pose proof (blen_nonneg iv). pose proof (blen_nonneg r).
  unfold decap, adf_os_mem_move. rewrite (slice_at [] h (iv ++ r)) by done. cbn [mbind option_bind].
  rewrite (proj2 (Z.leb_le _ _)), (proj2 (Z.leb_le _ _)) by (rewrite ?blen_app; lia). cbn [andb mbind option_bind].
  assert (Hsplit : h ++ iv = take (length iv) (h ++ iv) ++ drop (length iv) (h ++ iv)) by by rewrite take_drop.
  rewrite (app_assoc h), Hsplit, <- app_assoc, (write_at_app _ _ h).
  - by rewrite pull_head_app by (unfold blen; rewrite length_take, length_app; unfold blen in Hiv; lia).
  - unfold blen in *. rewrite length_take, length_app. lia.
  - unfold blen in *. rewrite length_drop, length_app. lia.
Qed.
Lemma has_extiv_spec h iv r v : has_extiv 0 iv = Some v -> has_extiv (blen h) (h ++ iv ++ r) = Some v.
Proof.
  unfold has_extiv. intros (b & Hb & H)%bind_Some. pose proof (blen_nonneg h). pose proof (aget_Some_range _ _ _ Hb) as Hr. change (0 + IEEE80211_WEP_IVLEN) with 3 in *.
  change (blen h + IEEE80211_WEP_IVLEN) with (blen h + 3).
  rewrite aget_app_r by lia. replace (blen h + 3 - blen h) with 3 by lia. by rewrite (aget_app _ _ _ _ Hb).
Qed.

(** What is done to the data of every fragment *)
Definition remover (sec : htt_sec_type) (hs : Z) : option (bytes -> option (Z * bytes)) :=
  match sec with
  | htt_sec_type_tkip | htt_sec_type_tkip_nomic => Some (ol_rx_frag_tkip_decap hs)
  | htt_sec_type_aes_ccmp => Some (demic_decap hs)
  | htt_sec_type_wep40 | htt_sec_type_wep104 | htt_sec_type_wep128 => Some (ol_rx_frag_wep_decap hs)
  | htt_sec_type_none | htt_sec_type_wapi => None
  end.

Lemma removed sec h p d : fragment_of sec h p d ->
  match remover sec (blen h) with
  | Some f => f (trim_tail DEFRAG_IEEE80211_FCS_LEN d) = Some (OL_RX_DEFRAG_OK, h ++ p)
  | None => trim_tail DEFRAG_IEEE80211_FCS_LEN d = h ++ p
  end.
Proof.
  intros (iv & t & fcs & -> & Hfcs & Hiv & Ht & Hext). rewrite trim_tail_app by done.
  assert (Hx : iv_len sec = 8 -> has_extiv 0 iv = Some true) by (intros H; destruct (Hext H) as (b & Hb & Hbit); by eapply has_extiv_set).
  clear Hext. destruct sec; cbn [iv_len trailer_len remover] in *;
    try (apply blen_zero_nil in Hiv, Ht; subst; by rewrite app_nil_r);
    unfold ol_rx_frag_tkip_decap, ol_rx_frag_wep_decap, demic_decap, ol_rx_frag_ccmp_demic, ol_rx_frag_ccmp_decap.
  1-3: rewrite decap_spec by done; cbn [mbind option_bind]; by rewrite app_assoc, trim_tail_app.
  1-2: rewrite (has_extiv_spec _ _ _ true) by auto; cbn [mbind option_bind negb]; rewrite decap_spec by done;
    cbn [mbind option_bind]; by rewrite app_assoc, trim_tail_app.
  rewrite (has_extiv_spec _ _ _ true) by auto. cbn [mbind option_bind negb].
  replace (h ++ iv ++ p ++ t) with ((h ++ iv ++ p) ++ t) by by rewrite <- !app_assoc.
  rewrite trim_tail_app by done. cbn [Z.eqb OL_RX_DEFRAG_OK OL_RX_DEFRAG_ERR]. rewrite (has_extiv_spec _ _ _ true) by auto.
  cbn [mbind option_bind negb]. by rewrite decap_spec.
Qed.

#[export] Instance htt_sec_type_eqdec : EqDecision htt_sec_type.
Proof. solve_decision. Defined.

Section Run.
Context {Dsc : Type} `{RD : RxDescOps Dsc}.
Variables (stack_pn : Z -> htt_rx_pn_t) (opmode : wlan_op_mode).
#[local] Abbreviation ST := (df_state Dsc).
#[local] Abbreviation store := (gmap Z (nbuf (frag Dsc))).
Implicit Types (s : ST) (nb : store) (l : list Z).

(** ** Changing the data of buffers *)

(** The rx descriptor of a buffer *)
Definition desc nb (x : Z) : option Dsc := fr_desc ∘ nb_desc <$> nb !! x.

Definition rebody (g : bytes -> bytes) (b : nbuf (frag Dsc)) : nbuf (frag Dsc) :=
  {| nb_next := nb_next b; nb_desc := with_bytes (g (fr_bytes (nb_desc b))) (nb_desc b) |}.
(** The data of the buffers [l] went through [g]. *)
Definition changed l (g : bytes -> bytes) nb nb' : Prop :=
  forall x, nb' !! x = if decide (x ∈ l) then rebody g <$> nb !! x else nb !! x.

Lemma changed_nil g nb : changed [] g nb nb.
Proof. intros x. by rewrite decide_False by set_solver. Qed.
Lemma changed_snoc l g nb nb' x b : changed l g nb nb' -> x ∉ l -> nb' !! x = Some b -> changed (l ++ [x]) g nb (<[x := rebody g b]> nb').
Proof.
  intros H Hx Hb y. pose proof (H x) as Hxx. rewrite decide_False, Hb in Hxx by done. destruct (decide (y = x)) as [->|Hy].
  - rewrite lookup_insert_eq, decide_True by set_solver. by rewrite <- Hxx.
  - rewrite lookup_insert_ne by done. rewrite H. destruct (decide (y ∈ l)); [by rewrite decide_True by set_solver|].
    by rewrite decide_False by set_solver.
Qed.
Lemma changed_trans l g h nb1 nb2 nb3 : changed l g nb1 nb2 -> changed l h nb2 nb3 -> changed l (h ∘ g) nb1 nb3.
Proof.
  intros H1 H2 x. rewrite H2, H1. destruct (decide (x ∈ l)); [|done]. by destruct (nb1 !! x).
Qed.
Lemma changed_id l g nb : (forall x, x ∈ l -> g (body nb x) = body nb x) -> changed l g nb nb.
Proof.
  intros H x. destruct (decide (x ∈ l)) as [Hx|]; [|done]. specialize (H x Hx). unfold body in H.
  destruct (nb !! x) as [[nx [d e]]|]; [|done]. cbn in *. unfold rebody. cbn. by rewrite H.
Qed.
Lemma changed_next l g nb nb' x : changed l g nb nb' -> nb_next <$> nb' !! x = nb_next <$> nb !! x.
Proof. intros H. rewrite H. destruct (decide (x ∈ l)); [|done]. by destruct (nb !! x). Qed.
Lemma changed_lseg l g nb nb' p m q : changed l g nb nb' -> lseg nb p m q -> lseg nb' p m q.
Proof. intros H Hl. eapply lseg_frame; [exact Hl|]. intros x _. by eapply changed_next. Qed.
Lemma changed_desc l g nb nb' x : changed l g nb nb' -> desc nb' x = desc nb x.
Proof. unfold desc. intros H. rewrite H. destruct (decide (x ∈ l)); [|done]. by destruct (nb !! x). Qed.
Lemma changed_body l g nb nb' x : changed l g nb nb' -> x ∈ l -> is_Some (nb !! x) -> body nb' x = g (body nb x).
Proof. unfold body. intros H Hx [b Hb]. by rewrite H, decide_True, Hb. Qed.
Lemma changed_out l g nb nb' x : changed l g nb nb' -> x ∉ l -> nb' !! x = nb !! x.
Proof. intros H Hx. by rewrite H, decide_False. Qed.
Lemma changed_bodies l g nb nb' p q : changed l g nb nb' -> lseg nb p l q -> bodies nb' l = g <$> bodies nb l.
Proof.
  intros H Hl. unfold bodies. rewrite <- list_fmap_compose. apply list_fmap_ext. intros i x Hx%list_elem_of_lookup_2.
  eapply changed_body; [done..|]. by eapply lseg_alloc.
Qed.

Lemma runs_on_data {A} p (f : bytes -> option (A * bytes)) a d b s (Q : A -> ST -> Prop) :
  nbufs s !! p = Some b -> f (fr_bytes (nb_desc b)) = Some (a, d) ->
  Q a (set_nbufs (<[p := rebody (fun _ => d) b]> (nbufs s)) s) -> runs (on_data p f) s Q.
Proof.
  intros Hb Hf HQ. unfold on_data. mstep. eapply runs_data_of; [by eexists| |].
  - rewrite (body_lookup _ _ _ Hb). exact Hf.
  - unfold set_data. do 2 mstep. eapply runs_nb_read; [exact Hb|]. do 2 mstep. exact HQ.
Qed.

(** ** Packet numbers *)

Section Pn.
Variables (tid : Z) (sec : htt_sec_type) (ucast checking : bool) (nb0 : store).

(** The packet number of a fragment, [None] when it was not encrypted *)
Definition number (x : Z) : option htt_rx_pn_t := mpdu_num stack_pn sec nb0 x.
(** Whether packet numbers are checked at all *)
Definition checks s : bool := (fw_pn_check (df_pn s) =? 0) && negb (bool_decide (opmode = wlan_op_mode_ibss)) && negb (rx_pn_len sec =? 0).

(** The number remembered after a fragment; [None]: it is refused *)
Definition next_number (last : option htt_rx_pn_t) (x : Z) : option (option htt_rx_pn_t) :=
  if checking then
    match number x with
    | None => Some last
    | Some pn => if is_replay (fun new old => the_cmp sec new old ucast opmode) last pn then None else Some (Some pn)
    end
  else Some last.
Fixpoint next_numbers (last : option htt_rx_pn_t) l : option (option htt_rx_pn_t) :=
  match l with
  | [] => Some last
  | x :: l => last ← next_number last x; next_numbers last l
  end.

(** A descriptor as those of the frame: unicast or multicast alike, and telling whether it was
    encrypted and its number. *)
Definition desc_fits (x : Z) : Prop :=
  exists b, nb0 !! x = Some b /\ rx_has_mcast_flag (nb_desc b) = true /\ rx_is_mcast (nb_desc b) = negb ucast /\ desc_ok stack_pn sec nb0 x.

(** The memory of the packet numbers *)
Definition remembers s (last : option htt_rx_pn_t) : Prop :=
  if checking then exists valid, pn_inv tid (df_pn s) valid last else True.

Lemma number_desc nb x : desc nb x = desc nb0 x -> mpdu_num stack_pn sec nb x = number x.
Proof.
  unfold number, mpdu_num, desc. destruct (nb !! x) as [b|], (nb0 !! x) as [b0|]; cbn; intros H; try done.
  injection H as H. by rewrite H.
Qed.
Lemma desc_fits_desc nb x b : desc nb x = desc nb0 x -> desc_fits x -> nb !! x = Some b ->
  rx_has_mcast_flag (nb_desc b) = true /\ rx_is_mcast (nb_desc b) = negb ucast /\ desc_ok stack_pn sec nb x.
Proof.
  intros Hd (b0 & Hb0 & Hf & Hm & b1 & Hb1 & Hok) Hb. rewrite Hb0 in Hb1. injection Hb1 as <-.
  unfold desc in Hd. rewrite Hb, Hb0 in Hd. injection Hd as Hd. cbn in *. rewrite Hd. split_and!; try done.
  exists b. cbn. rewrite Hd. done.
Qed.

Lemma runs_lift {A} (m : M (pn_state (frag Dsc)) A) s (Q : A -> ST -> Prop) :
  runs m (df_pn s) (fun a p => Q a (set_df_pn p s)) -> runs (lift_pn m) s Q.
Proof. unfold runs, lift_pn. by destruct (m (df_pn s)) as [[]|]. Qed.

(** One fragment *)
Lemma unchecked_one s x b :
  nbufs s !! x = Some b -> desc (nbufs s) x = desc nb0 x -> desc_fits x ->
  security (df_pn s) !! (if ucast then txrx_sec_ucast else txrx_sec_mcast) = Some sec -> checks s = false ->
  runs (lift_pn (ol_rx_pn_check_base false stack_pn opmode tid x)) s (fun ok s' => ok = x /\ s' = s).
Proof.
  intros Hb Hdesc Hfits Hsec Hck. destruct (desc_fits_desc _ _ _ Hdesc Hfits Hb) as (Hf & Hm & _).
  assert (Hs : set_df_pn (df_pn s) s = s) by (by destruct s). unfold checks in Hck.
  apply runs_lift. unfold ol_rx_pn_check_base. do 2 mstep.
  destruct (fw_pn_check (df_pn s) =? 0); cbn [andb negb orb] in *; [|by mstep].
  destruct (bool_decide _); cbn [andb negb orb] in *; [by mstep|]. mstep. eapply (runs_desc (S:=pn_state _)); [exact Hb|].
  mstep. eapply runs_massert; [exact Hf|]. mstep. eapply runs_oget; [rewrite Hm; by destruct ucast|].
  destruct (rx_pn_len sec =? 0); [by mstep|done].
Qed.

Lemma check_one s x b last :
  nbufs s !! x = Some b -> nb_next b = 0 -> x <> 0 -> desc (nbufs s) x = desc nb0 x -> desc_fits x ->
  security (df_pn s) !! (if ucast then txrx_sec_ucast else txrx_sec_mcast) = Some sec -> checks s = checking -> remembers s last ->
  runs (lift_pn (ol_rx_pn_check_base false stack_pn opmode tid x)) s (fun ok s' =>
    kept_but tid [x] s s' /\
    match next_number last x with
    | Some last' => ok = x /\ nbufs s' = nbufs s /\ rx_errs (df_pn s') = rx_errs (df_pn s) /\ remembers s' last'
    | None => ok = 0 /\ nbufs s' !! x = None /\ rx_errs (df_pn s') = (tid, x) :: rx_errs (df_pn s) /\ remembers s' last
    end).
Proof.
  unfold next_number, remembers. destruct checking; intros Hb Hn Hx0 Hdesc Hfits Hsec Hck Hrem.
  2: { eapply runs_mono; [by eapply unchecked_one|]. intros ok s' [-> ->]. done. }
  destruct Hrem as (valid & Hinv). destruct (desc_fits_desc _ _ _ Hdesc Hfits Hb) as (Hf & Hm & Hok).
  unfold checks in Hck. apply andb_true_iff in Hck as [Hck Hlen]. apply andb_true_iff in Hck as [Hfw Hop].
  apply Z.eqb_eq in Hfw. apply negb_true_iff, bool_decide_eq_false in Hop. apply negb_true_iff, Z.eqb_neq in Hlen.
  apply runs_lift. eapply runs_mono.
  { apply (check_base_spec stack_pn opmode (df_pn s) tid x [x] sec ucast valid last); [|split|exact Hinv].
    - split_and!; try done. by exists b.
    - cbn. split_and!; try done. by exists b.
    - apply NoDup_singleton.
    - cbn. destruct (completes _ x); by apply Forall_singleton. }
  intros ok p. cbv zeta. unfold verdict_of.
  assert (Hms : mpdus (completes (pn_bufs (df_pn s))) [x] = [[x]]) by (cbn; by destruct (completes _ x)).
  rewrite Hms. unfold judge. cbn [pn_filter hd]. change (mpdu_num stack_pn sec (pn_bufs (df_pn s)) x) with (mpdu_num stack_pn sec (nbufs s) x).
  rewrite (number_desc _ _ Hdesc).
  assert (Hkeep : forall v, dropped v = [] -> lseg (pn_bufs p) ok [x] 0 -> pn_post tid sec [x] v (df_pn s) p ->
    kept_but tid [x] s (set_df_pn p s) /\ ok = x /\ nbufs (set_df_pn p s) = nbufs s /\ rx_errs (df_pn (set_df_pn p s)) = rx_errs (df_pn s)).
  { intros v Hv (-> & _ & b' & Hb' & Hn') [H1 H2 H3 H4 H5 [H6 H6'] H7]. rewrite Hv in *. cbn in *. split_and!; try done.
    apply map_eq. intros y. destruct (decide (y = x)) as [->|Hy]; [|apply H3; set_solver].
    specialize (H2 x ltac:(set_solver)). change (nbufs s !! x) with (pn_bufs (df_pn s) !! x) in Hb. rewrite Hb', Hb in H2. cbn in H2.
    rewrite Hb, Hb'. f_equal. destruct b, b'. cbn in *. congruence. }
  destruct (number x) as [pn|] eqn:Hnum; [destruct (is_replay _ last pn) eqn:Hrep|]; cbn [kept dropped last_num concat app].
  - intros (-> & [H1 H2 H3 H4 H5 [H6 H6'] H7] & valid' & Hinv'). cbn in *. split; [by split|]. split_and!; try done.
    + apply H1. set_solver.
    + by exists valid'.
  - intros (Hl & Hp & valid' & Hinv'). eapply Hkeep in Hp as (? & ? & ? & ?); [|done|done]. split_and!; try done. by exists valid'.
  - intros (Hl & Hp & valid' & Hinv'). eapply Hkeep in Hp as (? & ? & ? & ?); [|done|done]. split_and!; try done. by exists valid'.
Qed.

(** The loop over the fragments of a list *)
Lemma next_numbers_snoc last l x : next_numbers last (l ++ [x]) = next_numbers last l ≫= fun last => next_number last x.
Proof.
  revert last. induction l as [|y l IH]; intros last; cbn; [by destruct (next_number last x)|].
  destruct (next_number last y); cbn; [apply IH|done].
Qed.
Lemma next_numbers_stop last l x rest last' : next_numbers last l = Some last' -> next_number last' x = None ->
  next_numbers last (l ++ x :: rest) = None.
Proof.
  intros Hl Hx. revert last Hl. induction l as [|y l IH]; intros last; cbn; [intros [= ->]; by rewrite Hx|].
  destruct (next_number last y); cbn; [apply IH|done].
Qed.

Lemma kept_but_set_bufs X nb s s' : kept_but tid X s s' -> (forall x, x ∉ X -> nb !! x = nbufs s' !! x) -> kept_but tid X s (set_nbufs nb s').
Proof. intros H Hnb. eapply kept_but_trans; [exact H|]. by apply kept_but_bufs. Qed.
Lemma remembers_set_bufs nb s last : remembers s last -> remembers (set_nbufs nb s) last.
Proof. unfold remembers. destruct checking; [|done]. intros (v & [H1 H2 H3]). exists v. by split. Qed.
Lemma checks_kept X s s' : kept_but tid X s s' -> checks s' = checks s.
Proof. intros H. unfold checks. by rewrite (kb_fw _ _ _ _ H). Qed.

Lemma remembers_kept s s' last : df_pn s' = set_pn_bufs (nbufs s') (df_pn s) -> remembers s last -> remembers s' last.
Proof. unfold remembers. destruct checking; [|done]. intros Hs (v & [H1 H2 H3]). exists v. rewrite Hs. by split. Qed.

(** At the fragments [todo] of the list [done ++ todo] at [p] *)
Section Loop.
Variables (s0 : ST) (p : Z) (l : list Z) (last0 : option htt_rx_pn_t).
Hypothesis Hnb0 : nb0 = nbufs s0.
Hypothesis Hlist : lseg (nbufs s0) p l 0.
Hypothesis Hnodup : NoDup l.
Hypothesis Hfits : forall x, x ∈ l -> desc_fits x.
Hypothesis Hsec : security (df_pn s0) !! (if ucast then txrx_sec_ucast else txrx_sec_mcast) = Some sec.
Hypothesis Hck : checks s0 = checking.

Record frags_at (done todo : list Z) (last : option htt_rx_pn_t) s : Prop := {
  fa_list : l = done ++ todo;
  fa_kept : kept_but tid l s0 s;
  fa_changed : changed done (trim_tail DEFRAG_IEEE80211_FCS_LEN) (nbufs s0) (nbufs s);
  fa_errs : rx_errs (df_pn s) = rx_errs (df_pn s0);
  fa_numbers : next_numbers last0 done = Some last;
  fa_remembers : remembers s last
}.
Definition refused_list (s' : ST) : Prop :=
  kept_but tid l s0 s' /\ (forall x, x ∈ l -> nbufs s' !! x = None) /\
  exists x, x ∈ l /\ rx_errs (df_pn s') = (tid, x) :: rx_errs (df_pn s0).

Lemma hd_lseg nb q m : lseg nb q m 0 -> lseg nb (hd 0 m) m 0.
Proof. intros H. by rewrite <- (lseg_hd _ _ _ H). Qed.
Lemma last_nonnull m : 0 ∉ m -> m <> [] -> default 0 (last m) <> 0.
Proof. destruct m as [|x m _] using rev_ind; [done|]. rewrite last_snoc. cbn. set_solver. Qed.

(** The rest of the list is freed when a fragment is refused. *)
Lemma free_the_others done x todo s1 :
  l = done ++ x :: todo -> kept_but tid l s0 s1 -> lseg (nbufs s1) (hd 0 todo) todo 0 ->
  (exists q, lseg (nbufs s1) p done q) -> nbufs s1 !! x = None ->
  runs ((if negb (default 0 (last done) =? 0) then adf_nbuf_set_next (default 0 (last done)) 0 ;; ol_rx_frames_free p else mreturn tt) ;;
        ol_rx_frames_free (hd 0 todo)) s1
    (fun _ s' => kept_but tid l s0 s' /\ (forall y, y ∈ l -> nbufs s' !! y = None) /\ rx_errs (df_pn s') = rx_errs (df_pn s1)).
Proof.
  intros Hl Hk Htodo (q & Hdone) Hx. rewrite Hl in Hnodup. apply NoDup_app in Hnodup as (Hnd1 & Hdis & Hnd2).
  apply NoDup_cons in Hnd2 as [Hxt Hnd2]. pose proof (lseg_nonnull _ _ _ _ Hdone) as H0.
  mstep. apply (runs_mono _ _ (fun _ s2 => kept_but tid done s1 s2 /\ (forall y, y ∈ done -> nbufs s2 !! y = None) /\ rx_errs (df_pn s2) = rx_errs (df_pn s1))).
  - destruct done as [|y done _] using rev_ind; [change (default 0 (last (@nil Z)) =? 0) with true; cbn [negb]; mstep; split_and!; [apply kept_but_refl|set_solver|done]|].
    rewrite last_snoc. cbn [default from_option id]. rewrite (proj2 (Z.eqb_neq y 0)) by set_solver. cbn [negb].
    destruct (lseg_alloc _ _ _ _ y Hdone ltac:(set_solver)) as [b Hb]. mstep. eapply runs_set_next; [exact Hb|].
    assert (Hy : y ∉ done) by (apply NoDup_app in Hnd1 as (_ & H & _); set_solver).
    eapply runs_mono; [eapply frames_free_spec; [rewrite nbufs_set; by eapply lseg_relink|done]|].
    intros _ s2 ->. rewrite nbufs_set, set_nbufs_set. split_and!; [|intros z Hz; rewrite nbufs_set; by apply dropped_in|done].
    apply kept_but_bufs. intros z Hz. rewrite dropped_out by done. by rewrite lookup_insert_ne by set_solver.
  - intros _ s2 (Hk2 & Hd2 & He2). eapply runs_mono.
    { eapply frames_free_spec; [|exact Hnd2]. eapply lseg_frame; [exact Htodo|]. intros y Hy. rewrite (kb_bufs _ _ _ _ Hk2); [done|]. set_solver. }
    intros _ s3 ->. split_and!; [| |done].
    + apply kept_but_set_bufs.
      * eapply kept_but_trans; [exact Hk|]. eapply kept_but_mono; [|exact Hk2]. set_solver.
      * intros y Hy. rewrite dropped_out; [done|]. set_solver.
    + intros y Hy. rewrite nbufs_set. destruct (decide (y ∈ todo)); [by apply dropped_in|]. rewrite dropped_out by done.
      rewrite Hl in Hy. destruct (decide (y ∈ done)); [by apply Hd2|]. assert (y = x) as -> by set_solver. by rewrite (kb_bufs _ _ _ _ Hk2).
Qed.

Lemma check_frag_round done x todo last s : frags_at done (x :: todo) last s ->
  runs (check_frag stack_pn opmode tid p (default 0 (list.last done), x)) s (fun r s' =>
    match next_number last x with
    | Some last' => r = inl (x, hd 0 todo) /\ frags_at (done ++ [x]) todo last' s'
    | None => r = inr false /\ refused_list s'
    end).
Proof.
  intros [Hl Hk Hch Herr Hnum Hrem]. pose proof (lseg_nonnull _ _ _ _ Hlist) as H0.
  assert (Hx : x ∈ l) by (rewrite Hl; set_solver). unfold check_frag. rewrite (proj2 (Z.eqb_neq x 0)) by set_solver.
  pose proof (changed_lseg _ _ _ _ _ _ _ Hch Hlist) as Hls. pose proof Hls as Hls'. rewrite Hl in Hls'.
  destruct (lseg_next _ _ _ _ _ _ Hls') as (b & Hb & Htodo). rewrite (lseg_hd _ _ _ Htodo) in Htodo.
  assert (Hnx : nb_next b = hd 0 todo) by (destruct (lseg_next _ _ _ _ _ _ Hls') as (b' & Hb' & H); rewrite Hb in Hb'; injection Hb' as <-; by apply lseg_hd in H).
  assert (Hxo : (x ∉ done) /\ (x ∉ todo) /\ forall y, y ∈ done -> y ∉ todo).
  { rewrite Hl in Hnodup. apply NoDup_app in Hnodup as (_ & Hdis & Hnd). apply NoDup_cons in Hnd as [Hxt _].
    split_and!; [intros H; specialize (Hdis x H); set_solver|done|intros y Hy; specialize (Hdis y Hy); set_solver]. }
  destruct Hxo as (Hxd & Hxt & Hdt). mstep. eapply runs_adf_nbuf_next; [exact Hb|]. rewrite Hnx. mstep.
  eapply runs_set_next; [exact Hb|]. set (s1 := set_nbufs _ s).
  assert (Hb1 : nbufs s1 !! x = Some (with_next 0 b)) by (unfold s1; by rewrite nbufs_set, lookup_insert_eq).
  assert (Hk1 : kept_but tid l s0 s1).
  { apply kept_but_set_bufs; [exact Hk|]. intros y Hy. rewrite lookup_insert_ne by set_solver. done. }
  mstep. eapply runs_mono.
  { eapply (check_one s1 x _ last); [exact Hb1|done|set_solver| | | | |].
    - rewrite Hnb0, <- (changed_desc _ _ _ _ x Hch). unfold desc. by rewrite Hb1, Hb.
    - by apply Hfits.
    - by rewrite (kb_security _ _ _ _ Hk1).
    - by rewrite (checks_kept _ _ _ Hk1).
    - by apply remembers_set_bufs. }
  intros ok s2 [Hk2 Hres]. assert (Hk02 : kept_but tid l s0 s2).
  { eapply kept_but_trans; [exact Hk1|]. eapply kept_but_mono; [|exact Hk2]. set_solver. }
  destruct (next_number last x) as [last'|] eqn:Hnum'.
  - destruct Hres as (-> & Hnb2 & He2 & Hrem2). rewrite (proj2 (Z.eqb_neq x 0)) by set_solver.
    assert (Hb2 : nbufs s2 !! x = Some (with_next 0 b)) by by rewrite Hnb2.
    mstep. eapply runs_on_data; [exact Hb2|reflexivity|]. mstep.
    eapply runs_set_next; [rewrite nbufs_set, lookup_insert_eq; reflexivity|]. mstep. rewrite nbufs_set, set_nbufs_set, insert_insert_eq.
    split; [done|]. split.
    + by rewrite <- app_assoc.
    + apply kept_but_set_bufs; [exact Hk02|]. intros y Hy. by rewrite lookup_insert_ne by set_solver.
    + rewrite nbufs_set, Hnb2. unfold s1. rewrite nbufs_set, insert_insert_eq.
      replace (with_next _ _) with (rebody (trim_tail DEFRAG_IEEE80211_FCS_LEN) b); [by apply changed_snoc|].
      unfold rebody, with_next. cbn. by rewrite Hnx.
    + transitivity (rx_errs (df_pn s2)); [done|]. rewrite He2. exact Herr.
    + by rewrite next_numbers_snoc, Hnum.
    + by apply remembers_set_bufs.
  - destruct Hres as (-> & Hnb2 & He2 & Hrem2). cbn [Z.eqb].
    assert (Hsame : forall y, y <> x -> nbufs s2 !! y = nbufs s !! y).
    { intros y Hy. rewrite (kb_bufs _ _ _ _ Hk2) by set_solver. unfold s1. by rewrite nbufs_set, lookup_insert_ne by done. }
    mstep. eapply runs_mono.
    { eapply runs_bnd_inv, (free_the_others done x todo s2); [exact Hl|exact Hk02| | |exact Hnb2].
      - eapply lseg_frame; [by eapply hd_lseg|]. intros y Hy. rewrite Hsame; [done|]. set_solver.
      - apply lseg_app in Hls' as (q & Hd & _). exists q. eapply lseg_frame; [exact Hd|]. intros y Hy. rewrite Hsame; [done|]. set_solver. }
    cbn beta. intros [] s3 H3. mstep. eapply runs_mono; [exact H3|]. intros _ s4 (Hk4 & Hg4 & He4). mstep. split; [done|].
    split; [done|]. split; [done|]. exists x. split; [done|]. rewrite He4, He2. f_equal. exact Herr.
Qed.

Lemma check_frags_loop done todo last s fuel : frags_at done todo last s -> (length todo < fuel)%nat ->
  runs (miter fuel (check_frag stack_pn opmode tid p) (default 0 (list.last done), hd 0 todo)) s (fun ok s' =>
    match next_numbers last todo with
    | Some last' => ok = true /\ frags_at l [] last' s'
    | None => ok = false /\ refused_list s'
    end).
Proof.
  revert done last s fuel. induction todo as [|x todo IH]; intros done last s [|fuel] Hat Hf; cbn [length] in Hf; try lia; cbn [miter hd next_numbers].
  - mstep. cbn [check_frag Z.eqb]. do 2 mstep. split; [done|]. pose proof (fa_list _ _ _ _ Hat) as Hl. rewrite app_nil_r in Hl. by rewrite Hl.
  - mstep. eapply runs_mono; [by apply check_frag_round|]. intros r s' Hr. destruct (next_number last x) as [last'|]; cbn [mbind option_bind].
    + destruct Hr as [-> Hat']. replace x with (default 0 (list.last (done ++ [x]))) at 1 by by rewrite last_snoc. apply IH; [done|lia].
    + destruct Hr as [-> Hr]. by mstep.
Qed.

Lemma check_frags s0' : s0' = s0 -> remembers s0 last0 ->
  runs (miter (Datatypes.S (size (nbufs s0))) (check_frag stack_pn opmode tid p) (0, p)) s0' (fun ok s' =>
    match next_numbers last0 l with
    | Some last' => ok = true /\ frags_at l [] last' s'
    | None => ok = false /\ refused_list s'
    end).
Proof.
  intros -> Hrem. pose proof (lseg_size _ _ _ _ Hlist Hnodup). rewrite (lseg_hd _ _ _ Hlist) at 2.
  apply (check_frags_loop []); [|lia]. by split; try apply changed_nil.
Qed.
End Loop.
End Pn.

(** ** Ciphers *)

Lemma each_frag_spec s p l f g (bad : Z -> bool) :
  lseg (nbufs s) p l 0 -> NoDup l ->
  (forall x, x ∈ l -> exists d, f (body (nbufs s) x) = Some (if bad x then OL_RX_DEFRAG_ERR else OL_RX_DEFRAG_OK, d) /\
     (bad x = false -> d = g (body (nbufs s) x))) ->
  runs (each_frag p f) s (fun ok s' => ok = forallb (negb ∘ bad) l /\ exists nb', s' = set_nbufs nb' s /\
    if ok then changed l g (nbufs s) nb' else forall x, nb' !! x = if decide (x ∈ l) then None else nbufs s !! x).
Proof.
  intros Hl Hnd Hf. unfold each_frag, nb_fuel. do 2 mstep.
  pose proof (lseg_size _ _ _ _ Hl Hnd) as Hsz. pose proof (lseg_nonnull _ _ _ _ Hl) as H0. rewrite (lseg_hd _ _ _ Hl).
  eapply (runs_walk (fun done todo s' => l = done ++ todo /\ forallb (negb ∘ bad) done = true /\
    exists nb', s' = set_nbufs nb' s /\ changed done g (nbufs s) nb')); [| |lia|].
  - intros dn x todo s' (Hld & Hok & nb' & -> & Hch). assert (Hx : x ∈ l) by (rewrite Hld; set_solver). split; [set_solver|].
    rewrite (proj2 (Z.eqb_neq x 0)) by set_solver.
    assert (Hxd : x ∉ dn) by (rewrite Hld in Hnd; apply NoDup_app in Hnd as (_ & Hdis & _); set_solver).
    pose proof (changed_lseg _ _ _ _ _ _ _ Hch Hl) as Hls. rewrite Hld in Hls.
    destruct (lseg_next _ _ _ _ _ _ Hls) as (b & Hb & Htodo).
    assert (Hbody : fr_bytes (nb_desc b) = body (nbufs s) x).
    { rewrite <- (body_lookup _ _ _ Hb). unfold body. by rewrite (changed_out _ _ _ _ _ Hch). }
    destruct (Hf x Hx) as (d & Hfd & Hd). mstep. eapply runs_adf_nbuf_next; [by rewrite nbufs_set|]. mstep.
    eapply runs_on_data; [by rewrite nbufs_set|by rewrite Hbody|]. rewrite nbufs_set, set_nbufs_set. destruct (bad x) eqn:Hbad.
    + cbn [Z.eqb OL_RX_DEFRAG_ERR]. mstep. eapply runs_mono.
      { eapply frames_free_spec; [|exact Hnd]. rewrite nbufs_set. eapply lseg_frame; [eapply changed_lseg; [exact Hch|eapply hd_lseg; exact Hl]|].
        intros y Hy. destruct (decide (y = x)) as [->|Hne]; [by rewrite lookup_insert_eq, Hb|by rewrite lookup_insert_ne]. }
      intros _ s2 ->. mstep. split.
      * rewrite Hld, forallb_app. cbn [forallb compose]. rewrite Hbad. cbn. by rewrite andb_false_r.
      * eexists. rewrite nbufs_set, set_nbufs_set. split; [done|]. intros y. case_decide as Hy; [by apply dropped_in|].
        rewrite dropped_out by done. rewrite lookup_insert_ne by set_solver. eapply changed_out; [exact Hch|]. rewrite Hld in Hy. set_solver.
    + cbn [Z.eqb OL_RX_DEFRAG_ERR OL_RX_DEFRAG_OK]. mstep. split; [by eapply lseg_hd|]. split; [by rewrite <- app_assoc|].
      split; [rewrite forallb_app; cbn; by rewrite Hok, Hbad|].
      eexists. split; [done|]. replace (rebody _ b) with (rebody g b); [by apply changed_snoc|].
      unfold rebody. rewrite Hbody, Hd by done. done.
  - intros dn s' (Hld & Hok & nb' & -> & Hch). rewrite app_nil_r in Hld. subst dn. rewrite Z.eqb_refl. mstep.
    split; [done|]. exists nb'. by split.
  - split; [done|]. split; [done|]. exists (nbufs s). split; [symmetry; apply set_nbufs_id|apply changed_nil].
Qed.

(** ** Recombining *)

Section Recombine.
Variable (skb_room : bytes -> bytes -> bool).

(** Whether there was room for everything *)
Fixpoint all_fit (d : bytes) (ps : list bytes) : bool :=
  match ps with [] => true | p :: ps => skb_room d p && all_fit (d ++ p) ps end.
Lemma all_fit_app d ps p : all_fit d (ps ++ [p]) = all_fit d ps && skb_room (d ++ concat ps) p.
Proof.
  revert d. induction ps as [|q ps IH]; intros d; cbn; [by rewrite app_nil_r, andb_comm|]. by rewrite IH, andb_assoc, <- app_assoc.
Qed.
Lemma all_fit_stop d ps p qs : skb_room (d ++ concat ps) p = false -> all_fit d (ps ++ p :: qs) = false.
Proof.
  revert d. induction ps as [|q ps IH]; intros d; cbn; [rewrite app_nil_r; by intros ->|].
  intros H. rewrite IH by (by rewrite <- app_assoc). by rewrite andb_false_r.
Qed.

(** The first buffer has the data [d] so far, [done] are in it. *)
Definition gathered s x b (d : bytes) done nb' : Prop :=
  nb' !! x = Some {| nb_next := 0; nb_desc := with_bytes d (nb_desc b) |} /\
  (forall y, y ∈ done -> nb' !! y = None) /\ (forall y, y ∉ x :: done -> nb' !! y = nbufs s !! y).

Lemma concat_spec s x y b c nb' d :
  nb' !! x = Some {| nb_next := 0; nb_desc := with_bytes d (nb_desc b) |} -> nb' !! y = Some c -> y <> x ->
  runs (ol_rx_defrag_concat skb_room x y) (set_nbufs nb' s) (fun ok s' =>
    if skb_room d (fr_bytes (nb_desc c)) then ok = OL_RX_DEFRAG_OK /\ exists nb2, s' = set_nbufs nb2 s /\
      nb2 !! x = Some {| nb_next := 0; nb_desc := with_bytes (d ++ fr_bytes (nb_desc c)) (nb_desc b) |} /\ nb2 !! y = None /\
      (forall z, z <> x -> z <> y -> nb2 !! z = nb' !! z)
    else ok = OL_RX_DEFRAG_ERR /\ s' = set_nbufs nb' s).
Proof.
  intros Hx Hy Hyx. unfold ol_rx_defrag_concat.
  mstep. eapply runs_data_of; [rewrite nbufs_set; by eexists|reflexivity|].
  mstep. eapply runs_data_of; [rewrite nbufs_set; by eexists|reflexivity|]. rewrite nbufs_set, (body_lookup _ _ _ Hx), (body_lookup _ _ _ Hy).
  cbn [fr_bytes nb_desc with_bytes]. destruct (skb_room d (fr_bytes (nb_desc c))); [|by mstep].
  mstep. unfold set_data. mstep. eapply runs_nb_read; [rewrite nbufs_set; exact Hx|]. do 2 mstep.
  rewrite nbufs_set, set_nbufs_set. eapply runs_free; [rewrite nbufs_set, lookup_insert_ne by done; by eexists|].
  rewrite nbufs_set, set_nbufs_set. mstep. split; [done|]. eexists. split; [done|]. split_and!.
  - by rewrite lookup_delete_ne, lookup_insert_eq by done.
  - by rewrite lookup_delete_eq.
  - intros z Hzx Hzy. by rewrite lookup_delete_ne, lookup_insert_ne by done.
Qed.

(** One fragment more *)
Lemma gather_one s x b d dn y todo hdrsize nb' :
  gathered s x b d dn nb' -> NoDup (x :: dn ++ y :: todo) -> 0 ∉ x :: dn ++ y :: todo -> lseg (nbufs s) y (y :: todo) 0 ->
  runs (tmp <- adf_nbuf_next y ;;
        adf_nbuf_set_next y 0 ;;
        on_data y (fun d => Some (tt, pull_head hdrsize d)) ;;
        ok <- ol_rx_defrag_concat skb_room x y ;;
        if ok =? OL_RX_DEFRAG_ERR then
          ol_rx_frames_free tmp ;; htt_rx_desc_frame_free x ;; htt_rx_desc_frame_free y ;; mreturn (inr false)
        else mreturn (inl tmp)) (set_nbufs nb' s) (fun r s' => exists nb2, s' = set_nbufs nb2 s /\
    if skb_room d (pull_head hdrsize (body (nbufs s) y)) then
      r = inl (hd 0 todo) /\ gathered s x b (d ++ pull_head hdrsize (body (nbufs s) y)) (dn ++ [y]) nb2
    else r = inr false /\ forall z, nb2 !! z = if decide (z ∈ x :: dn ++ y :: todo) then None else nbufs s !! z).
Proof.
  intros Hg Hnd H0 Hl. pose proof Hg as (Hx & Hdn & Ho). destruct Hl as (_ & _ & by_ & Hby & Htodo).
  pose proof Hnd as Hnd'. apply NoDup_cons in Hnd' as [Hxn Hnd']. apply NoDup_app in Hnd' as (Hnd1 & Hdis & Hnd2). apply NoDup_cons in Hnd2 as [Hyt Hndt].
  assert (Hyd : y ∉ dn) by (intros H; specialize (Hdis y H); set_solver). assert (Hyx : y <> x) by set_solver.
  assert (Hyb : nb' !! y = Some by_) by (rewrite Ho by set_solver; done).
  mstep. eapply runs_adf_nbuf_next; [by rewrite nbufs_set|]. mstep. eapply runs_set_next; [by rewrite nbufs_set|]. rewrite nbufs_set, set_nbufs_set.
  mstep. eapply runs_on_data; [rewrite nbufs_set, lookup_insert_eq; reflexivity|reflexivity|]. rewrite nbufs_set, set_nbufs_set, insert_insert_eq.
  cbn [nb_desc with_next fr_bytes]. set (c := rebody _ _). mstep.
  assert (Hc : fr_bytes (nb_desc c) = pull_head hdrsize (body (nbufs s) y)) by (by rewrite (body_lookup _ _ _ Hby)).
  eapply runs_mono.
  { apply (concat_spec s x y b c (<[y := c]> nb') d); [by rewrite lookup_insert_ne by done|by rewrite lookup_insert_eq|done]. }
  intros ok s2. rewrite Hc. destruct (skb_room d _).
  - intros (-> & nb2 & -> & H1 & H2 & H3). cbn [Z.eqb OL_RX_DEFRAG_OK OL_RX_DEFRAG_ERR]. mstep. exists nb2. split; [done|].
    split; [by rewrite (lseg_hd _ _ _ Htodo)|]. split; [exact H1|]. split.
    + intros z [Hz| ->%list_elem_of_singleton]%elem_of_app; [|done]. rewrite H3, lookup_insert_ne by set_solver. by apply Hdn.
    + intros z Hz. rewrite H3, lookup_insert_ne by set_solver. apply Ho. set_solver.
  - intros [-> ->]. cbn [Z.eqb OL_RX_DEFRAG_ERR]. set (nb2 := <[y := c]> nb').
    assert (Htodo2 : lseg nb2 (nb_next by_) todo 0).
    { eapply lseg_frame; [exact Htodo|]. intros z Hz. unfold nb2. rewrite lookup_insert_ne by set_solver. rewrite Ho; [done|].
      intros [->|Hzd]%elem_of_cons; [set_solver|]. specialize (Hdis z Hzd). set_solver. }
    mstep. eapply runs_mono; [eapply frames_free_spec; [rewrite nbufs_set; exact Htodo2|exact Hndt]|]. intros _ s3 ->. rewrite nbufs_set, set_nbufs_set.
    assert (Hxt : x ∉ todo) by set_solver.
    mstep. eapply runs_free; [rewrite nbufs_set, dropped_out by done; unfold nb2; rewrite lookup_insert_ne by done; by eexists|].
    rewrite nbufs_set, set_nbufs_set. mstep.
    eapply runs_free; [rewrite nbufs_set, lookup_delete_ne, dropped_out by done; unfold nb2; rewrite lookup_insert_eq; by eexists|].
    rewrite nbufs_set, set_nbufs_set. mstep. eexists. split; [done|]. split; [done|]. intros z.
    destruct (decide (z = y)) as [->|Hzy]; [rewrite lookup_delete_eq, decide_True by set_solver; done|]. rewrite lookup_delete_ne by done.
    destruct (decide (z = x)) as [->|Hzx]; [rewrite lookup_delete_eq, decide_True by set_solver; done|]. rewrite lookup_delete_ne by done.
    destruct (decide (z ∈ todo)) as [Hzt|Hzt]; [rewrite dropped_in, decide_True by set_solver; done|]. rewrite dropped_out by done.
    unfold nb2. rewrite lookup_insert_ne by done. destruct (decide (z ∈ dn)) as [Hzd|Hzd]; [rewrite Hdn, decide_True by set_solver; done|].
    rewrite decide_False by set_solver. apply Ho. set_solver.
Qed.

Lemma recombine_spec s x l hdrsize d d' :
  lseg (nbufs s) x (x :: l) 0 -> NoDup (x :: l) -> body (nbufs s) x = d ->
  clear_frag_bits (d ++ concat (pull_head hdrsize <$> bodies (nbufs s) l)) = Some d' ->
  runs (ol_rx_defrag_decap_recombine skb_room x hdrsize) s (fun r s' => exists nb' b, s' = set_nbufs nb' s /\ nbufs s !! x = Some b /\
    (forall y, y ∉ x :: l -> nb' !! y = nbufs s !! y) /\
    if all_fit d (pull_head hdrsize <$> bodies (nbufs s) l) then
      r = x /\ nb' !! x = Some {| nb_next := 0; nb_desc := with_bytes d' (nb_desc b) |} /\ (forall y, y ∈ l -> nb' !! y = None)
    else r = 0 /\ (forall y, y ∈ x :: l -> nb' !! y = None)).
Proof.
  intros Hl Hnd Hd Hclear. pose proof (lseg_nonnull _ _ _ _ Hl) as H0. pose proof (lseg_size _ _ _ _ Hl Hnd) as Hsz.
  destruct Hl as (_ & Hx0 & b & Hb & Hl). rewrite (body_lookup _ _ _ Hb) in Hd. pose proof Hnd as Hnd'. apply NoDup_cons in Hnd' as [Hxl _].
  unfold ol_rx_defrag_decap_recombine. mstep. eapply runs_adf_nbuf_next; [exact Hb|]. mstep. eapply runs_set_next; [exact Hb|].
  unfold nb_fuel. do 3 mstep. rewrite (lseg_hd _ _ _ Hl), nbufs_set.
  set (ps := pull_head hdrsize <$> bodies (nbufs s) l) in *.
  apply (runs_mono _ _ (fun ok s' => ok = all_fit d ps /\ exists nb', s' = set_nbufs nb' s /\
    if ok then gathered s x b (d ++ concat ps) l nb' else forall z, nb' !! z = if decide (z ∈ x :: l) then None else nbufs s !! z)).
  - eapply (runs_walk (fun done todo s' => l = done ++ todo /\ exists nb', s' = set_nbufs nb' s /\
      all_fit d (pull_head hdrsize <$> bodies (nbufs s) done) = true /\
      gathered s x b (d ++ concat (pull_head hdrsize <$> bodies (nbufs s) done)) done nb')).
    + intros dn y todo s' (Hld & nb' & -> & Hfit & Hg). split; [set_solver|]. rewrite (proj2 (Z.eqb_neq y 0)) by set_solver.
      assert (Hly : lseg (nbufs s) y (y :: todo) 0).
      { rewrite Hld in Hl. apply lseg_app in Hl as (q & _ & Hq). pose proof (lseg_hd _ _ _ Hq) as Hqy. cbn in Hqy. by rewrite Hqy in Hq. }
      rewrite Hld in Hnd, H0. eapply runs_mono; [eapply gather_one; [exact Hg|exact Hnd|exact H0|exact Hly]|].
      assert (Hps : ps = (pull_head hdrsize <$> bodies (nbufs s) dn) ++ pull_head hdrsize (body (nbufs s) y) :: (pull_head hdrsize <$> bodies (nbufs s) todo)).
      { unfold ps, bodies. by rewrite Hld, !fmap_app, !fmap_cons. }
      assert (Hsn : pull_head hdrsize <$> bodies (nbufs s) (dn ++ [y]) = (pull_head hdrsize <$> bodies (nbufs s) dn) ++ [pull_head hdrsize (body (nbufs s) y)]).
      { unfold bodies. by rewrite !fmap_app. }
      intros r s2 (nb2 & -> & Hres). destruct (skb_room _ _) eqn:Hroom.
      * destruct Hres as [-> Hg2]. split; [done|]. split; [by rewrite <- app_assoc|]. exists nb2. rewrite Hsn. split; [done|]. split.
        -- by rewrite all_fit_app, Hfit, Hroom.
        -- rewrite concat_app. cbn [concat]. by rewrite app_nil_r, app_assoc.
      * destruct Hres as [-> Hall]. split; [by rewrite Hps, all_fit_stop|]. exists nb2. split; [done|]. by rewrite Hld.
    + intros dn s' (Hld & nb' & -> & Hfit & Hg). rewrite app_nil_r in Hld. subst dn. rewrite Z.eqb_refl. mstep.
      split; [by rewrite <- Hfit|]. by exists nb'.
    + cbn [length] in Hsz. rewrite map_size_insert, Hb. unfold id. lia.
    + split; [done|]. eexists. split; [done|]. split; [done|]. split; [|split].
      * rewrite lookup_insert_eq. cbn. rewrite app_nil_r, <- Hd. by destruct b as [? []].
      * set_solver.
      * intros y Hy. by rewrite lookup_insert_ne by set_solver.
  - intros ok s' (-> & nb' & -> & Hres). destruct (all_fit d ps); cbn [negb].
    + destruct Hres as (Hx & Hdn & Ho). mstep. eapply runs_on_data; [by rewrite nbufs_set|cbn [fr_bytes nb_desc with_bytes]; rewrite Hclear; reflexivity|].
      mstep. rewrite nbufs_set, set_nbufs_set. eexists _, b. split; [done|]. split; [done|]. split_and!; [|done|by rewrite lookup_insert_eq|].
      * intros y Hy. rewrite lookup_insert_ne by set_solver. by apply Ho.
      * intros y Hy. rewrite lookup_insert_ne by set_solver. by apply Hdn.
    + mstep. exists nb', b. split_and!; try done; intros y Hy; rewrite Hres; [by rewrite decide_False|by rewrite decide_True].
Qed.
End Recombine.

(** *** The ciphers over a list of fragments *)

Lemma remove_cipher_eq sec p hs :
  remove_cipher (Dsc:=Dsc) sec p hs = match remover sec hs with Some f => each_frag p f | None => mreturn true end.
Proof. by destruct sec. Qed.

(** The data of the fragments without what protected them *)
Definition stripped (sec : htt_sec_type) (hs : Z) (d : bytes) : bytes :=
  match remover sec hs with Some f => match f d with Some (_, d') => d' | None => d end | None => d end.
Definition fragments_of (sec : htt_sec_type) (hs : Z) (ds : list bytes) (hps : list (bytes * bytes)) : Prop :=
  Forall2 (fun d hp => blen hp.1 = hs /\ fragment_of sec hp.1 hp.2 d) ds hps.

Lemma stripped_fragment sec h p d : fragment_of sec h p d -> stripped sec (blen h) (trim_tail DEFRAG_IEEE80211_FCS_LEN d) = h ++ p.
Proof. intros H. pose proof (removed _ _ _ _ H) as Hr. unfold stripped. destruct (remover sec (blen h)); by rewrite Hr. Qed.
Lemma stripped_fragments sec hs ds hps : fragments_of sec hs ds hps ->
  stripped sec hs <$> (trim_tail DEFRAG_IEEE80211_FCS_LEN <$> ds) = (fun hp => hp.1 ++ hp.2) <$> hps.
Proof.
  induction 1 as [|d hp ds hps [<- Hf] _ IH]; [done|]. cbn. by rewrite (stripped_fragment _ _ _ _ Hf), <- IH.
Qed.

Lemma remove_cipher_spec sec s p l hs ds hps :
  lseg (nbufs s) p l 0 -> NoDup l -> bodies (nbufs s) l = trim_tail DEFRAG_IEEE80211_FCS_LEN <$> ds -> fragments_of sec hs ds hps ->
  runs (remove_cipher sec p hs) s (fun ok s' => ok = true /\ exists nb', s' = set_nbufs nb' s /\
    changed l (stripped sec hs) (nbufs s) nb' /\ bodies nb' l = (fun hp => hp.1 ++ hp.2) <$> hps).
Proof.
  intros Hl Hnd Hb Hfr. rewrite remove_cipher_eq.
  assert (Hbs : forall nb', changed l (stripped sec hs) (nbufs s) nb' -> bodies nb' l = (fun hp => hp.1 ++ hp.2) <$> hps).
  { intros nb' Hch. rewrite (changed_bodies _ _ _ _ _ _ Hch Hl), Hb. by apply stripped_fragments. }
  destruct (remover sec hs) as [f|] eqn:Hf.
  - eapply runs_mono; [eapply (each_frag_spec s p l f (stripped sec hs) (fun _ => false)); [exact Hl|exact Hnd|]|].
    + intros x Hx. assert (Hd : exists d hp, body (nbufs s) x = trim_tail DEFRAG_IEEE80211_FCS_LEN d /\ blen hp.1 = hs /\ fragment_of sec hp.1 hp.2 d).
      { apply list_elem_of_lookup in Hx as [i Hi]. assert (Hbi : bodies (nbufs s) l !! i = Some (body (nbufs s) x)) by (unfold bodies; by rewrite list_lookup_fmap, Hi).
        rewrite Hb, list_lookup_fmap in Hbi. apply fmap_Some in Hbi as (d & Hd & Hdx).
        destruct (Forall2_lookup_l _ _ _ _ _ Hfr Hd) as (hp & _ & Hhp & Hfd). by exists d, hp. }
      destruct Hd as (d & hp & -> & <- & Hfd). pose proof (removed _ _ _ _ Hfd) as Hr. rewrite Hf in Hr. eexists. split; [exact Hr|].
      intros _. unfold stripped. by rewrite Hf, Hr.
    + intros ok s' (-> & nb' & -> & Hch). assert (Hall : forallb (negb ∘ (fun _ : Z => false)) l = true) by (clear; by induction l).
      rewrite Hall in *. split; [done|]. exists nb'. split_and!; [done..|by apply Hbs].
  - mstep. split; [done|]. exists (nbufs s). assert (Hch : changed l (stripped sec hs) (nbufs s) (nbufs s)).
    { apply changed_id. intros x _. unfold stripped. by rewrite Hf. }
    split_and!; [symmetry; apply set_nbufs_id|exact Hch|by apply Hbs].
Qed.

(** *** The MIC of the recombined frame *)

Lemma tkip_demic_spec key s x b h data mic0 hdr :
  nbufs s !! x = Some b -> nb_next b = 0 -> fr_bytes (nb_desc b) = h ++ data ++ mic0 -> blen mic0 = 8 ->
  ol_rx_defrag_michdr h = Some hdr -> 8 <= blen key -> blen data < 65536 -> blen h < 65536 ->
  runs (ol_rx_frag_tkip_demic key x (blen h)) s (fun ok s' =>
    if bool_decide (mic0 = michael key (hdr ++ data)) then ok = OL_RX_DEFRAG_OK /\ s' = set_nbufs (<[x := rebody (fun _ => h ++ data) b]> (nbufs s)) s
    else ok = OL_RX_DEFRAG_ERR /\ s' = s).
Proof.
  intros Hb Hn Hd Hmic Hhdr Hkey Hdata Hh. pose proof (blen_nonneg h). pose proof (blen_nonneg data).
  assert (Hlen : blen (h ++ data ++ mic0) = blen h + blen data + 8) by (rewrite !blen_app; lia).
  assert (Hbody : body (nbufs s) x = h ++ data ++ mic0) by by rewrite (body_lookup _ _ _ Hb).
  unfold ol_rx_frag_tkip_demic. mstep. eapply runs_data_of; [by eexists|reflexivity|]. rewrite Hbody, Hlen. mstep.
  change (ic_miclen f_tkip) with 8. replace (blen h + blen data + 8 - (blen h + 8)) with (blen data) by lia. rewrite u16_small by lia.
  eapply runs_mono.
  { eapply (mic_spec s x b [] key (blen h) (blen data) hdr); [exact Hb|by rewrite Hn|apply NoDup_nil_2| |exact Hkey| | |by apply Forall_nil| | |by left].
    - rewrite Hbody. by apply michdr_app.
    - rewrite Hbody, Hlen. lia.
    - rewrite Hbody, Hlen. lia.
    - lia.
    - rewrite Hbody. cbn [bodies fmap list_fmap concat]. rewrite app_nil_r, blen_drop; rewrite Hlen; lia. }
  intros out s' [-> ->]. rewrite Hbody. cbn [bodies fmap list_fmap concat].
  assert (Hdrop : take (Z.to_nat (blen data)) (drop (Z.to_nat (blen h)) (h ++ data ++ mic0) ++ []) = data).
  { unfold blen. rewrite app_nil_r, !Nat2Z.id, drop_app_length, take_app_length. done. }
  rewrite Hdrop. mstep. eapply runs_oget.
  { rewrite app_assoc. replace ((h ++ data) ++ mic0) with ((h ++ data) ++ mic0 ++ []) by by rewrite app_nil_r.
    apply slice_at; [rewrite blen_app; lia|done]. }
  rewrite (bool_decide_ext (michael key (hdr ++ data) = mic0) (mic0 = michael key (hdr ++ data))) by done.
  case_bool_decide; [|by mstep]. unfold set_data. do 2 mstep. eapply runs_nb_read; [exact Hb|]. do 2 mstep. split; [done|].
  rewrite app_assoc, trim_tail_app by done. done.
Qed.

(** ** All the stages *)

Section Whole.
Variables (skb_room : bytes -> bytes -> bool) (cfg : df_conf) (ol_rx_fwd_check ol_rx_deliver ol_rx_in_order_deliver : Z -> Z -> M ST unit).
Variables (tid : Z) (sec : htt_sec_type) (ucast checking : bool).

(** The headers of the recombined frame *)
Definition finish_bytes (hs : Z) (d : bytes) : option bytes :=
  d ← ol_rx_defrag_qos_decap hs d; if frm_802_3 cfg then ol_rx_defrag_nwifi_to_8023 d else Some d.

Lemma finish_spec s x b hs d :
  nbufs s !! x = Some b -> finish_bytes hs (fr_bytes (nb_desc b)) = Some d ->
  runs (finish cfg x hs) s (fun _ s' => s' = set_nbufs (<[x := rebody (fun _ => d) b]> (nbufs s)) s).
Proof.
  unfold finish_bytes. intros Hb (d1 & Hd1 & Hd)%bind_Some. unfold finish. mstep.
  eapply runs_on_data; [exact Hb|by rewrite Hd1|]. destruct (frm_802_3 cfg).
  - eapply runs_on_data; [by rewrite nbufs_set, lookup_insert_eq|cbn; by rewrite Hd|].
    by rewrite nbufs_set, set_nbufs_set, insert_insert_eq.
  - injection Hd as ->. by mstep.
Qed.

(** The list [head :: l] came in. *)
Record list_in s (head : Z) l (last : option htt_rx_pn_t) : Prop := {
  li_list : lseg (nbufs s) head (head :: l) 0;
  li_nodup : NoDup (head :: l);
  li_fits : forall x, x ∈ head :: l -> desc_fits sec ucast (nbufs s) x;
  li_sec : security (df_pn s) !! (if ucast then txrx_sec_ucast else txrx_sec_mcast) = Some sec;
  li_checks : checks sec s = checking;
  li_memory : remembers tid checking s last
}.
Definition numbers s l last := next_numbers sec ucast checking (nbufs s) last l.

(** The frame is at [head], the other buffers are gone. *)
Record frame_out s head l (d : bytes) (last' : option htt_rx_pn_t) s' : Prop := {
  fo_kept : kept_but tid (head :: l) s s';
  fo_head : exists b, nbufs s !! head = Some b /\ nbufs s' !! head = Some {| nb_next := 0; nb_desc := with_bytes d (nb_desc b) |};
  fo_gone : forall x, x ∈ l -> nbufs s' !! x = None;
  fo_errs : rx_errs (df_pn s') = rx_errs (df_pn s);
  fo_memory : remembers tid checking s' last'
}.

(** A step that only changes the buffers of the list *)
Lemma frags_at_bufs s head l last last' s1 nb :
  frags_at tid sec ucast checking (nbufs s) s (head :: l) last (head :: l) [] last' s1 ->
  (forall x, x ∉ head :: l -> nb !! x = nbufs s1 !! x) ->
  kept_but tid (head :: l) s (set_nbufs nb s1) /\ rx_errs (df_pn (set_nbufs nb s1)) = rx_errs (df_pn s) /\ remembers tid checking (set_nbufs nb s1) last'.
Proof.
  intros [_ Hk _ He _ Hr] Hnb. split_and!; [by apply kept_but_set_bufs|exact He|by apply remembers_set_bufs].
Qed.

(** The frame was dropped, with an error for it or without. *)
Record dropped_list s l (errs : list (Z * Z)) last' s' : Prop := {
  dl_kept : kept_but tid l s s';
  dl_gone : forall x, x ∈ l -> nbufs s' !! x = None;
  dl_errs : rx_errs (df_pn s') = errs ++ rx_errs (df_pn s);
  dl_memory : remembers tid checking s' last'
}.

(** From the fragments to the recombined frame, with the cipher removed, and on with [k] *)
Lemma recombine_all s head l last last' s1 hs h0 p0 hps h0' (k : Z -> M ST unit) (Q : unit -> ST -> Prop) :
  list_in s head l last ->
  frags_at tid sec ucast checking (nbufs s) s (head :: l) last (head :: l) [] last' s1 ->
  fragments_of sec hs (bodies (nbufs s) (head :: l)) ((h0, p0) :: hps) -> clear_frag_bits h0 = Some h0' ->
  (if all_fit skb_room (h0 ++ p0) (snd <$> hps)
   then forall s', frame_out s head l (h0' ++ p0 ++ concat (snd <$> hps)) last' s' -> runs (k head) s' Q
   else forall s', dropped_list s (head :: l) [] last' s' -> Q tt s') ->
  runs (ok <- remove_cipher sec head hs ;;
        if negb ok then mreturn tt
        else msdu <- ol_rx_defrag_decap_recombine skb_room head hs ;; if msdu =? 0 then mreturn tt else k msdu) s1 Q.
Proof.
  intros [Hl Hnd Hfits Hsec Hck Hmem] Hat Hfr Hclear HQ. pose proof (fa_changed _ _ _ _ _ _ _ _ _ _ _ _ Hat) as Hch.
  mstep. eapply runs_mono.
  { eapply (remove_cipher_spec sec s1 head (head :: l)); [by eapply changed_lseg|exact Hnd|by eapply changed_bodies|exact Hfr]. }
  intros ok s2 (-> & nb2 & -> & Hch2 & Hbodies). cbn [negb].
  pose proof (changed_trans _ _ _ _ _ _ Hch Hch2) as Hch02. unfold bodies in Hbodies. rewrite !fmap_cons in Hbodies. injection Hbodies as Hhead Hrest.
  assert (Hps : pull_head hs <$> bodies nb2 l = snd <$> hps).
  { unfold bodies. rewrite Hrest, <- list_fmap_compose. apply list_fmap_ext. intros i hp Hi. cbn. apply pull_head_app.
    apply Forall2_cons_inv_r in Hfr as (d & ds & _ & Hfr & _). destruct (Forall2_lookup_r _ _ _ _ _ Hfr Hi) as (? & _ & Hhs & _). exact Hhs. }
  mstep. eapply runs_mono.
  { eapply recombine_spec; rewrite ?nbufs_set; [by eapply changed_lseg|exact Hnd|exact Hhead|].
    instantiate (1 := h0' ++ p0 ++ concat (snd <$> hps)). rewrite Hps, <- app_assoc. by erewrite clear_frag_bits_app. }
  rewrite nbufs_set, Hps. intros r s3 (nb3 & b & -> & Hb & Ho & Hres). rewrite set_nbufs_set.
  destruct (frags_at_bufs _ _ _ _ _ _ nb3 Hat) as (Hk & He & Hr).
  { intros x Hx. rewrite Ho by done. eapply changed_out; [exact Hch2|exact Hx]. }
  pose proof (lseg_nonnull _ _ _ _ Hl) as H0. cbn [fst snd] in Hres. destruct (all_fit _ _ _).
  - destruct Hres as (-> & Hhd & Hgone). rewrite (proj2 (Z.eqb_neq head 0)) by set_solver. apply HQ.
    split; try done. pose proof (Hch02 head) as Hc. rewrite decide_True in Hc by set_solver.
    rewrite Hb in Hc. destruct (nbufs s !! head) as [b0|]; [|done]. injection Hc as ->. exists b0. split; [done|].
    rewrite nbufs_set, Hhd. done.
  - destruct Hres as [-> Hgone]. rewrite Z.eqb_refl. mstep. apply HQ. by split.
Qed.

(** The data of the recombined frame, [None] when the MIC is wrong: the last eight bytes of TKIP *)
Definition checked_data (key h payload : bytes) : option bytes :=
  match sec with
  | htt_sec_type_tkip =>
      let data := take (length payload - 8) payload in
      hdr ← ol_rx_defrag_michdr h; if bool_decide (drop (length payload - 8) payload = Michael key (hdr ++ data)) then Some data else None
  | _ => Some payload
  end.
Definition mic_index : nat := if ucast then txrx_sec_ucast else txrx_sec_mcast.

(** The fragments of a frame of at most 65535 bytes, with the keys for its MIC *)
Record frame_in s (hs : Z) (ds : list bytes) (h0 h0' p0 : bytes) (hps : list (bytes * bytes)) (key : bytes) : Prop := {
  fi_fragments : fragments_of sec hs ds ((h0, p0) :: hps);
  fi_hdrsize : ol_rx_frag_hdrsize h0 = Some hs;
  fi_length : 24 <= hs /\ blen (p0 ++ concat (snd <$> hps)) < 65536;
  fi_header : clear_frag_bits h0 = Some h0';
  fi_key : sec = htt_sec_type_tkip -> michael_key s !! mic_index = Some key /\ 8 <= blen key /\
    8 <= blen (p0 ++ concat (snd <$> hps)) /\ is_Some (ol_rx_defrag_michdr h0') /\
    Forall is_octet key /\ Forall is_octet h0' /\ Forall is_octet (p0 ++ concat (snd <$> hps))
}.

Lemma defrag_start s head l last (hs : Z) ds h0 h0' p0 hps key (Q : unit -> ST -> Prop) :
  safemode cfg = false -> list_in s head l last -> frame_in s hs ds h0 h0' p0 hps key -> ds = bodies (nbufs s) (head :: l) ->
  match numbers s (head :: l) last with
  | None => forall s', refused_list tid s (head :: l) s' -> Q tt s'
  | Some last' => forall s1, frags_at tid sec ucast checking (nbufs s) s (head :: l) last (head :: l) [] last' s1 ->
      runs (ok <- remove_cipher sec head hs ;;
            if negb ok then mreturn tt
            else
              msdu <- ol_rx_defrag_decap_recombine skb_room head hs ;;
              if msdu =? 0 then mreturn tt
              else
                ok <- match sec with
                      | htt_sec_type_tkip => s <- mget ;; key <- oget (michael_key s !! mic_index) ;; ol_rx_frag_tkip_demic key msdu hs
                      | _ => mreturn OL_RX_DEFRAG_OK
                      end ;;
                if ok =? OL_RX_DEFRAG_ERR then htt_rx_desc_frame_free msdu ;; lift_pn (modify (add_err (tid, msdu)))
                else finish cfg msdu hs ;; ol_rx_fwd_check tid msdu) s1 Q
  end ->
  runs (ol_rx_defrag skb_room stack_pn opmode cfg ol_rx_fwd_check ol_rx_deliver ol_rx_in_order_deliver tid head) s Q.
Proof.
  intros Hsafe [Hl Hnd Hfits Hsec Hck Hmem] [Hfr Hhs [Hhs24 Hlen] Hclear Hkey] Hds Hgo. unfold ol_rx_defrag. rewrite Hsafe. unfold nb_fuel. do 2 mstep. mstep.
  eapply runs_mono; [eapply (check_frags tid sec ucast checking (nbufs s) s head (head :: l) last); done|].
  intros ok s1. fold (numbers s (head :: l) last). revert Hgo. unfold numbers. destruct (next_numbers _ _ _ _ _ _) as [last'|]; intros Hgo [-> Hres]; cbn [negb].
  2: { mstep. by apply Hgo. }
  pose proof (fa_changed _ _ _ _ _ _ _ _ _ _ _ _ Hres) as Hch. pose proof (fa_kept _ _ _ _ _ _ _ _ _ _ _ _ Hres) as Hk.
  pose proof (Hfits head ltac:(set_solver)) as (b0 & Hb0 & Hf & Hm & _).
  assert (Hb1 : nbufs s1 !! head = Some (rebody (trim_tail DEFRAG_IEEE80211_FCS_LEN) b0)) by (rewrite (Hch head), decide_True, Hb0 by set_solver; done).
  mstep. eapply runs_data_of; [by eexists| |].
  { rewrite (changed_body _ _ _ _ _ Hch) by (set_solver || by eexists). apply Forall2_cons_inv_r in Hfr as (d & ds' & [_ Hfd] & _ & Hds').
    rewrite Hds' in Hds. injection Hds as Hd _. change (body (nbufs s) head) with (body (pn_bufs (df_pn s)) head). rewrite <- Hd. destruct Hfd as (iv & t & fcs & -> & Hfcs & _). rewrite trim_tail_app by done.
    by apply hdrsize_app. }
  mstep. eapply runs_desc; [exact Hb1|]. mstep. eapply runs_massert; [exact Hf|]. cbn [nb_desc rebody rx_is_mcast frag_desc_ops with_bytes fr_desc].
  change (rx_is_mcast (fr_desc (nb_desc b0))) with (rx_is_mcast (nb_desc b0)). rewrite Hm.
  assert (Hidx : (if negb ucast then txrx_sec_mcast else txrx_sec_ucast) = mic_index) by (unfold mic_index; by destruct ucast). rewrite Hidx.
  do 2 mstep. mstep. eapply runs_oget; [rewrite (kb_security _ _ _ _ Hk); exact Hsec|]. apply (Hgo s1). exact Hres.
Qed.

Lemma frame_out_rebody s head l d d' last' s1 b : frame_out s head l d last' s1 -> nbufs s1 !! head = Some b -> head ∉ l ->
  frame_out s head l d' last' (set_nbufs (<[head := rebody (fun _ => d') b]> (nbufs s1)) s1).
Proof.
  intros [Hk (b0 & Hb0 & Hb1) Hg He Hm] Hb Hl. rewrite Hb1 in Hb. injection Hb as <-. split; [| | |done|by apply remembers_set_bufs].
  - apply kept_but_set_bufs; [done|]. intros x Hx. by rewrite lookup_insert_ne by set_solver.
  - exists b0. split; [done|]. by rewrite nbufs_set, lookup_insert_eq.
  - intros x Hx. rewrite nbufs_set, lookup_insert_ne by set_solver. by apply Hg.
Qed.

Lemma mic_failed_free s head l d last' s1 : frame_out s head l d last' s1 -> head ∉ l ->
  runs (htt_rx_desc_frame_free head ;; lift_pn (modify (add_err (tid, head)))) s1 (fun _ s' => dropped_list s (head :: l) [(tid, head)] last' s').
Proof.
  intros [Hk (b0 & Hb0 & Hb1) Hg He Hm] Hl. mstep. eapply runs_free; [by eexists|]. apply runs_lift, runs_modify. split.
  - eapply kept_but_trans; [apply (kept_but_set_bufs tid (head :: l) (delete head (nbufs s1)) s s1 Hk)|by split].
    intros x Hx. apply lookup_delete_ne. set_solver.
  - intros x Hx. change (delete head (nbufs s1) !! x = None). destruct (decide (x = head)) as [->|Hne]; [apply lookup_delete_eq|].
    rewrite lookup_delete_ne by done. apply Hg. set_solver.
  - cbn. by rewrite <- He.
  - unfold remembers in *. destruct checking; [|done]. destruct Hm as (v & [H1 H2 H3]). exists v. by split.
Qed.

Lemma defrag_result s head l last hs h0 h0' p0 hps key (Q : unit -> ST -> Prop) :
  safemode cfg = false -> list_in s head l last -> frame_in s hs (bodies (nbufs s) (head :: l)) h0 h0' p0 hps key ->
  match numbers s (head :: l) last with
  | None => forall s', refused_list tid s (head :: l) s' -> Q tt s'
  | Some last' =>
      if all_fit skb_room (h0 ++ p0) (snd <$> hps) then
        match checked_data key h0' (p0 ++ concat (snd <$> hps)) with
        | None => forall s', dropped_list s (head :: l) [(tid, head)] last' s' -> Q tt s'
        | Some data => exists d, finish_bytes hs (h0' ++ data) = Some d /\
            forall s', frame_out s head l d last' s' -> runs (ol_rx_fwd_check tid head) s' Q
        end
      else forall s', dropped_list s (head :: l) [] last' s' -> Q tt s'
  end ->
  runs (ol_rx_defrag skb_room stack_pn opmode cfg ol_rx_fwd_check ol_rx_deliver ol_rx_in_order_deliver tid head) s Q.
Proof.
  intros Hsafe Hin Hfr Hgo. eapply defrag_start; [exact Hsafe|exact Hin|exact Hfr|done|]. pose proof Hfr as [Hfrags Hhs [Hhs24 Hlen] Hclear Hkey].
  destruct (numbers s (head :: l) last) as [last'|]; [|exact Hgo]. intros s1 Hat.
  assert (Hhl : head ∉ l) by (pose proof (li_nodup _ _ _ _ Hin) as Hnd; by apply NoDup_cons in Hnd as [? _]).
  eapply recombine_all; [exact Hin|exact Hat|exact Hfrags|exact Hclear|]. destruct (all_fit _ _ _); [|exact Hgo].
  clear Hat s1. intros s1 Hout. revert Hgo.
  set (payload := p0 ++ concat (snd <$> hps)) in *. intros Hgo. pose proof (fo_head _ _ _ _ _ _ Hout) as (b0 & Hb0 & Hb1).
  assert (Hhl0 : blen h0' = hs).
  { rewrite (clear_frag_bits_length _ _ Hclear). apply Forall2_cons_inv_r in Hfrags as (d & ds & [? _] & _). done. }
  assert (Hfin : forall data s2 b, frame_out s head l (h0' ++ data) last' s2 -> nbufs s2 !! head = Some b -> fr_bytes (nb_desc b) = h0' ++ data ->
    (exists d, finish_bytes hs (h0' ++ data) = Some d /\ forall s', frame_out s head l d last' s' -> runs (ol_rx_fwd_check tid head) s' Q) ->
    runs (finish cfg head hs ;; ol_rx_fwd_check tid head) s2 Q).
  { intros data s2 b Hout2 Hb Hd (d & Hfb & Hd'). mstep. eapply runs_mono; [eapply finish_spec; [exact Hb|by rewrite Hd]|].
    intros _ s3 ->. apply Hd'. by eapply frame_out_rebody. }
  mstep. destruct (decide (sec = htt_sec_type_tkip)) as [Htkip|Hne].
  - destruct (Hkey Htkip) as (Hmk & Hk8 & Hp8 & (hdr & Hhdr) & Hko & Hho & Hpo). revert Hgo. unfold checked_data. rewrite Htkip, Hhdr. cbn [mbind option_bind]. intros Hgo.
    mstep. mstep. mstep. eapply runs_oget; [rewrite (kb_key _ _ _ _ (fo_kept _ _ _ _ _ _ Hout)); exact Hmk|]. rewrite <- Hhl0.
    set (data := take (length payload - 8) payload) in *. set (mic0 := drop (length payload - 8) payload) in *.
    assert (Hsplit : payload = data ++ mic0) by (unfold data, mic0; by rewrite take_drop).
    assert (Hmic8 : blen mic0 = 8) by (unfold mic0, blen in *; rewrite length_drop; lia).
    eapply runs_mono; [eapply (tkip_demic_spec key s1 head _ h0' data mic0 hdr); [exact Hb1|done| |done|done|done| |]|].
    + cbn. by rewrite Hsplit.
    + unfold data, blen in *. rewrite length_take. lia.
    + assert (Hh0 : blen h0' = hs) by done. unfold ol_rx_frag_hdrsize in Hhs. apply bind_Some in Hhs as (dir & _ & Hhs).
      apply bind_Some in Hhs as (q & _ & Hhs). apply bind_Some in Hhs as (o & _ & [= Hhs]). rewrite Hh0, <- Hhs. apply u16_range.
    + assert (Hoct : Forall is_octet (hdr ++ data)) by (apply Forall_app; split; [by apply (michdr_octets h0')|unfold data; by apply Forall_take]).
      rewrite michael_is_Michael by done.
      intros ok s2. destruct (bool_decide (mic0 = Michael key (hdr ++ data))).
      * intros [-> ->]. cbn [Z.eqb OL_RX_DEFRAG_OK OL_RX_DEFRAG_ERR]. rewrite Hhl0. eapply Hfin; [by eapply frame_out_rebody|by rewrite nbufs_set, lookup_insert_eq|done|exact Hgo].
      * intros [-> ->]. cbn [Z.eqb OL_RX_DEFRAG_ERR]. eapply runs_mono; [by eapply mic_failed_free|]. intros [] s3 H3. by apply Hgo.
  - assert (Hck : checked_data key h0' payload = Some payload) by (unfold checked_data; by destruct sec). rewrite Hck in Hgo.
    replace (match sec with htt_sec_type_tkip => _ | _ => _ end) with (@mreturn ST Z OL_RX_DEFRAG_OK) by by destruct sec.
    mstep. cbn [Z.eqb OL_RX_DEFRAG_OK OL_RX_DEFRAG_ERR]. eapply Hfin; [exact Hout|exact Hb1|done|exact Hgo].
Qed.
End Whole.
End Run.
