(* ===== verification/DefragStore.v ===== *)
(** * Defragmentation: the fragments of a TID

    [ol_rx_reorder_store_frag] and the wait list in terms of the list of fragments of a TID: how
    an arriving fragment joins it, when the list is handed to [ol_rx_defrag], and which lists
    [ol_rx_defrag_waitlist_flush] drops. *)

From S2P Require Import Prelude HttRxDesc Nbuf RxPn RxReorder Defrag DefragInv.

Local Open Scope c_scope.

#[local] Abbreviation bytes := (list Z).

(** What matters of the record of a TID: its slot 0, and the time-out *)
Record tid_view := { tv_mask : Z; tv_slot : option ol_rx_reorder_array_elem_t; tv_timeout : Z; tv_waiting : bool; tv_tid : Z }.
Definition view (r : ol_rx_reorder_t) : tid_view :=
  {| tv_mask := win_sz_mask r; tv_slot := aget (elems_of r) 0; tv_timeout := defrag_timeout_ms r;
     tv_waiting := on_waitlist r; tv_tid := rr_tid r |}.
Definition with_slot (e : ol_rx_reorder_array_elem_t) (v : tid_view) : tid_view :=
  {| tv_mask := tv_mask v; tv_slot := Some e; tv_timeout := tv_timeout v; tv_waiting := tv_waiting v; tv_tid := tv_tid v |}.
Definition with_wait (t : Z) (w : bool) (v : tid_view) : tid_view :=
  {| tv_mask := tv_mask v; tv_slot := tv_slot v; tv_timeout := t; tv_waiting := w; tv_tid := tv_tid v |}.

(** The slot that holds the list [l] *)
Definition slot_of (l : list Z) : ol_rx_reorder_array_elem_t := {| el_head := hd 0 l; el_tail := default 0 (last l) |}.

Lemma view_with_elems e r : is_Some (aget (elems_of r) 0) -> view (with_elems (upd (elems_of r) 0 e) r) = with_slot e (view r).
Proof.
  intros [e0 He]. pose proof (aget_Some_range _ _ _ He) as Hr. unfold view, with_slot. cbn.
  rewrite elems_with by apply length_upd. rewrite aget_upd, decide_True by lia. unfold with_elems. by destruct (array r).
Qed.

Section Store.
Context {Dsc : Type} `{RD : RxDescOps Dsc}.
#[local] Abbreviation ST := (df_state Dsc).
Implicit Types (s : ST) (l : list Z).

Definition at_tid s (tid : Z) (v : tid_view) : Prop := exists r, aget (df_reorder s) tid = Some r /\ view r = v.

(** Only the record of [tid], the wait list and the buffers differ. *)
Record stored_only (tid : Z) s s' : Prop := {
  so_tids : forall t, t <> tid -> aget (df_reorder s') t = aget (df_reorder s) t;
  so_pn : df_pn s' = set_pn_bufs (nbufs s') (df_pn s);
  so_last_seq : df_last_seq s' = df_last_seq s;
  so_key : michael_key s' = michael_key s
}.
Lemma stored_only_refl tid s : stored_only tid s s.
Proof. split; try done. by destruct s as [[] ? ? ? ?]. Qed.
Lemma stored_only_trans tid s1 s2 s3 : stored_only tid s1 s2 -> stored_only tid s2 s3 -> stored_only tid s1 s3.
Proof.
  intros [A1 A2 A3 A4] [B1 B2 B3 B4]. split; [|by rewrite B2, A2|by rewrite B3|by rewrite B4].
  intros t Ht. by rewrite B1, A1.
Qed.
Lemma stored_only_bufs tid nb s : stored_only tid s (set_nbufs nb s).
Proof. by split. Qed.

Lemma runs_df_rr s tid r (Q : ol_rx_reorder_t -> ST -> Prop) : aget (df_reorder s) tid = Some r -> Q r s -> runs (df_rr tid) s Q.
Proof. intros Hr HQ. unfold df_rr. do 2 mstep. by eapply runs_oget. Qed.

(** Changing the record of a TID *)
Lemma runs_df_set_rr s tid v r' (Q : unit -> ST -> Prop) : at_tid s tid v ->
  (forall s', at_tid s' tid (view r') -> stored_only tid s s' -> nbufs s' = nbufs s -> df_waitlist s' = df_waitlist s ->
     length (df_reorder s') = length (df_reorder s) -> Q tt s') -> runs (df_set_rr tid r') s Q.
Proof.
  intros (r & Hr & _) HQ. pose proof (aget_Some_range _ _ _ Hr) as Hrange. unfold df_set_rr. do 2 mstep. mstep.
  eapply runs_oget; [by apply aset_upd|]. mstep. apply HQ.
  - exists r'. split; [|done]. cbn. by rewrite aget_upd, decide_True.
  - split; try done; [|by destruct s as [[] ? ? ? ?]]. intros t Ht. cbn. rewrite aget_upd by done. by rewrite decide_False.
  - done.
  - done.
  - apply length_upd.
Qed.
Lemma runs_df_slot s tid v e (Q : ol_rx_reorder_array_elem_t -> ST -> Prop) :
  at_tid s tid v -> tv_slot v = Some e -> Q e s -> runs (df_slot tid 0) s Q.
Proof. intros (r & Hr & <-) He HQ. unfold df_slot. mstep. eapply runs_df_rr; [exact Hr|]. by eapply runs_oget. Qed.
Lemma runs_df_set_slot s tid v e (Q : unit -> ST -> Prop) : at_tid s tid v -> is_Some (tv_slot v) ->
  (forall s', at_tid s' tid (with_slot e v) -> stored_only tid s s' -> nbufs s' = nbufs s -> df_waitlist s' = df_waitlist s ->
     length (df_reorder s') = length (df_reorder s) -> Q tt s') -> runs (df_set_slot tid 0 e) s Q.
Proof.
  intros (r & Hr & <-) [e0 He] HQ. cbn in He. pose proof (aget_Some_range _ _ _ He) as Hrange. unfold df_set_slot. mstep.
  eapply runs_df_rr; [exact Hr|]. mstep. eapply runs_oget; [apply aset_upd; lia|]. eapply runs_df_set_rr; [by exists r|].
  intros s' Hat. rewrite view_with_elems in Hat by by eexists. apply HQ. exact Hat.
Qed.

(** ** The wait list *)

Definition unqueue (tid : Z) (wl : list Z) : list Z := List.filter (fun t => negb (t =? tid)) wl.
Lemma unqueue_out tid wl : tid ∉ wl -> unqueue tid wl = wl.
Proof.
  unfold unqueue. induction wl as [|t wl IH]; intros Ht; [done|]. cbn. rewrite (proj2 (Z.eqb_neq t tid)) by set_solver. cbn.
  f_equal. apply IH. set_solver.
Qed.
Lemma elem_of_unqueue t tid wl : t ∈ unqueue tid wl <-> t <> tid /\ t ∈ wl.
Proof.
  unfold unqueue. rewrite !list_elem_of_In, filter_In, negb_true_iff, Z.eqb_neq. tauto.
Qed.

Lemma store_waitlist_remove_spec s tid v : at_tid s tid v -> (tv_waiting v = false -> tid ∉ df_waitlist s) ->
  runs (df_waitlist_remove tid) s (fun _ s' => at_tid s' tid (with_wait (tv_timeout v) false v) /\ stored_only tid s s' /\ nbufs s' = nbufs s /\
    df_waitlist s' = unqueue tid (df_waitlist s) /\ length (df_reorder s') = length (df_reorder s)).
Proof.
  intros (r & Hr & <-) Hw. unfold df_waitlist_remove. mstep. eapply runs_df_rr; [exact Hr|]. cbn in Hw. destruct (on_waitlist r) eqn:Hon.
  - mstep. eapply runs_df_set_rr; [by exists r|]. intros s' Hat Ho Hb Hwl Hlen. mstep. rewrite <- Hwl. split_and!; try done.
    eapply stored_only_trans; [exact Ho|]. split; try done. by destruct s' as [[] ? ? ? ?].
  - mstep. rewrite unqueue_out by by apply Hw. split_and!; try done; [|apply stored_only_refl]. exists r. split; [done|].
    unfold with_wait, view. cbn. by rewrite Hon.
Qed.

Lemma at_tid_ext s s' tid v : df_reorder s' = df_reorder s -> at_tid s tid v -> at_tid s' tid v.
Proof. unfold at_tid. by intros ->. Qed.

Lemma slot_head l : 0 ∉ l -> (el_head (slot_of l) =? 0) = bool_decide (l = []).
Proof.
  destruct l as [|x l]; [done|]. intros H0. rewrite bool_decide_false by done. apply Z.eqb_neq. cbn. set_solver.
Qed.

(** Emptying the slot of a TID *)
Lemma flush_frag_spec s tid v l seq_num : at_tid s tid v -> Z.land seq_num (tv_mask v) = 0 -> tv_slot v = Some (slot_of l) ->
  lseg (nbufs s) (hd 0 l) l 0 -> NoDup l ->
  runs (ol_rx_reorder_flush_frag tid seq_num) s (fun _ s' => at_tid s' tid (with_slot null_elem v) /\ stored_only tid s s' /\
    nbufs s' = dropped_bufs l (nbufs s) /\ df_waitlist s' = df_waitlist s /\ length (df_reorder s') = length (df_reorder s)).
Proof.
  intros Hat Hmask Hslot Hl Hnd. destruct Hat as (r & Hr & Hv). unfold ol_rx_reorder_flush_frag. mstep. eapply runs_df_rr; [exact Hr|].
  subst v. cbn in Hmask. rewrite Hmask. mstep. eapply runs_df_slot; [by exists r|exact Hslot|].
  rewrite slot_head by by eapply lseg_nonnull. destruct l as [|x l]; cbn [bool_decide].
  - rewrite bool_decide_true by done. cbn [negb]. mstep. split_and!; try done; [|apply stored_only_refl].
    exists r. split; [done|]. cbn in Hslot. unfold view, with_slot. cbn. by rewrite Hslot.
  - rewrite bool_decide_false by done. cbn [negb]. mstep. eapply runs_mono; [eapply frames_free_spec; [exact Hl|exact Hnd]|].
    intros _ s1 ->. eapply runs_df_set_slot; [exists r; split; [exact Hr|reflexivity]|by rewrite Hslot|].
    intros s2 Hat2 Ho Hb Hwl Hlen. split_and!; try done. eapply stored_only_trans; [apply stored_only_bufs|exact Ho].
Qed.

(** The wait list: TID [t] waits until [T t] with the fragments [F t]. *)
Section Waiting.
Variables (F : Z -> list Z) (T : Z -> Z).

Record waiting s : Prop := {
  wl_nodup : NoDup (df_waitlist s);
  wl_tids : forall t, t ∈ df_waitlist s -> 0 <= t < OL_TXRX_NUM_EXT_TIDS /\ exists v, at_tid s t v /\ tv_tid v = t /\ tv_waiting v = true /\
    tv_timeout v = T t /\ tv_slot v = Some (slot_of (F t)) /\ lseg (nbufs s) (hd 0 (F t)) (F t) 0 /\ NoDup (F t);
  wl_disjoint : forall t u x, t ∈ df_waitlist s -> u ∈ df_waitlist s -> t <> u -> x ∈ F t -> x ∉ F u
}.

(** The stale TIDs at the front of the wait list *)
Fixpoint stale (now : Z) (wl : list Z) : list Z :=
  match wl with [] => [] | t :: wl => if now <? T t then [] else t :: stale now wl end.
Definition flushed (now : Z) s s' : Prop :=
  df_waitlist s = stale now (df_waitlist s) ++ df_waitlist s' /\
  (forall x, nbufs s' !! x = if decide (x ∈ concat (F <$> stale now (df_waitlist s))) then None else nbufs s !! x) /\
  (forall t, t ∈ stale now (df_waitlist s) -> exists v, at_tid s' t v /\ tv_slot v = Some null_elem /\ tv_waiting v = false) /\
  (forall t, t ∉ stale now (df_waitlist s) -> aget (df_reorder s') t = aget (df_reorder s) t) /\ waiting s'.

Lemma flush_one s t wl : waiting s -> df_waitlist s = t :: wl ->
  runs (df_waitlist_remove t ;; ol_rx_reorder_flush_frag t 0) s (fun _ s' =>
    waiting s' /\ df_waitlist s' = wl /\ nbufs s' = dropped_bufs (F t) (nbufs s) /\
    (exists v, at_tid s' t v /\ tv_slot v = Some null_elem /\ tv_waiting v = false) /\
    (forall u, u <> t -> aget (df_reorder s') u = aget (df_reorder s) u)).
Proof.
  intros [Hnd Htids Hdis] Hwl. destruct (Htids t ltac:(rewrite Hwl; set_solver)) as (Ht & v & Hat & Htid & Hw & HT & Hslot & Hl & HndF).
  rewrite Hwl in Hnd, Htids, Hdis. apply NoDup_cons in Hnd as [Htwl Hnd].
  mstep. eapply runs_mono; [eapply store_waitlist_remove_spec; [exact Hat|by rewrite Hw]|]. intros _ s1 (Hat1 & Ho1 & Hb1 & Hwl1 & Hlen1).
  assert (Hun : unqueue t (df_waitlist s) = wl).
  { rewrite Hwl. unfold unqueue. cbn. rewrite Z.eqb_refl. cbn. by apply unqueue_out. }
  eapply runs_mono; [eapply (flush_frag_spec s1 t _ (F t)); [exact Hat1|done|exact Hslot|by rewrite Hb1|exact HndF]|].
  intros _ s2 (Hat2 & Ho2 & Hb2 & Hwl2 & Hlen2). pose proof (stored_only_trans _ _ _ _ Ho1 Ho2) as Ho.
  assert (Hwl' : df_waitlist s2 = wl) by by rewrite Hwl2, Hwl1, Hun.
  assert (Hothers : forall u, u <> t -> aget (df_reorder s2) u = aget (df_reorder s) u) by apply (so_tids _ _ _ Ho).
  rewrite Hb1 in Hb2. split_and!; [|done|done|by eexists|done].
  split; rewrite Hwl'; [done| |intros u w x Hu Hw'; apply Hdis; set_solver].
  intros u Hu. assert (Hut : u <> t) by set_solver. destruct (Htids u ltac:(set_solver)) as (Hur & w & (r & Hr & <-) & H1 & H2 & H3 & H4 & H5 & H6).
  split; [done|]. exists (view r). split_and!; try done.
  - exists r. by rewrite Hothers.
  - rewrite Hb2. eapply lseg_frame; [exact H5|]. intros x Hx. rewrite dropped_out; [done|].
    apply (Hdis u t x); [set_solver|set_solver|done|done].
Qed.

Lemma waitlist_flush_loop now wl : forall s s0 fuel,
  waiting s -> df_waitlist s = wl -> (length wl < fuel)%nat ->
  (forall s', flushed now s s' -> flushed now s0 s') ->
  runs (miter fuel (fun todo : list Z =>
    match todo with
    | [] => mreturn (inr tt)
    | tid :: todo => r <- flush_stale now tid ;; mreturn (match r with inl _ => inl todo | inr _ => inr tt end)
    end) wl) s (fun _ s' => flushed now s0 s').
Proof.
  induction wl as [|t wl IH]; intros s s0 [|fuel] Hw Hwl Hf Hk; cbn [length] in Hf; try lia; cbn [miter]; mstep.
  - do 2 mstep. apply Hk. unfold flushed. rewrite Hwl. cbn. split_and!; try done. set_solver.
  - pose proof (wl_tids _ Hw t ltac:(rewrite Hwl; set_solver)) as (Ht & v & (r & Hr & Hv) & Htid & Hon & HT & Hslot & Hl & HndF).
    unfold flush_stale. mstep. mstep. eapply runs_df_rr; [exact Hr|].
    assert (Hto : defrag_timeout_ms r = T t) by by rewrite <- HT, <- Hv. assert (Hrt : rr_tid r = t) by by rewrite <- Htid, <- Hv.
    rewrite Hto, Hrt. destruct (now <? T t) eqn:Hnow.
    + do 3 mstep. apply Hk. unfold flushed. rewrite Hwl. cbn. rewrite Hnow. cbn. split_and!; try done. set_solver.
    + rewrite (proj2 (Z.leb_gt _ _)) by lia.
      mstep. eapply runs_mono; [eapply runs_bnd_inv; by apply (flush_one s t wl)|]. cbn beta. intros [] s1 Hs1. mstep.
      eapply runs_mono; [exact Hs1|]. intros _ s2 (Hw2 & Hwl2 & Hb2 & Hat2 & Ho2). do 2 mstep.
      apply IH; [done|done|lia|]. intros s' (H1 & H2 & H3 & H4 & H5). apply Hk. unfold flushed. rewrite Hwl. cbn [stale]. rewrite Hnow.
      rewrite Hwl2 in *. split_and!.
      * cbn. f_equal. exact H1.
      * intros x. rewrite H2, Hb2. cbn [fmap list_fmap concat]. destruct (decide (x ∈ F t)) as [Hx|Hx].
        { rewrite dropped_in by done. rewrite (decide_True (P:=x ∈ _ ++ _)) by set_solver. by case_decide. }
        rewrite dropped_out by done. case_decide; [by rewrite decide_True by set_solver|by rewrite decide_False by set_solver].
      * intros u [->|Hu]%elem_of_cons; [|by apply H3]. destruct Hat2 as (v2 & (r2 & Hr2 & Hv2) & Hs2).
        exists v2. split; [|done]. exists r2. split; [|done]. rewrite H4; [done|].
        pose proof (wl_nodup _ Hw) as Hnd. rewrite Hwl in Hnd. apply NoDup_cons in Hnd as [Hn _]. intros Hin. apply Hn. rewrite H1. set_solver.
      * intros u Hu. rewrite H4 by set_solver. apply Ho2. set_solver.
      * done.
Qed.
End Waiting.

(** ** Storing a fragment *)

(** In order, the list grows at its end. *)
Lemma insert_next s l x :
  lseg (nbufs s) (hd 0 l) l 0 -> NoDup (l ++ [x]) -> Forall (headed (nbufs s)) (l ++ [x]) -> x <> 0 ->
  (forall t, last l = Some t -> fno (nbufs s) t < fno (nbufs s) x) ->
  runs (ol_rx_fraglist_insert (hd 0 l) (default 0 (last l)) x) s (fun r s' => exists nb', s' = set_nbufs nb' s /\
    relinked (l ++ [x]) (nbufs s) nb' /\ lseg nb' (hd 0 (l ++ [x])) (l ++ [x]) 0 /\
    r = (hd 0 (l ++ [x]), x, negb (bool_decide (l = [])) && looks_complete (nbufs s) (l ++ [x]) x)).
Proof.
  intros Hl Hnd Hh Hx0 Hlast. rewrite Forall_forall in Hh. pose proof (Hh x ltac:(set_solver)) as Hx.
  destruct l as [|t l _] using rev_ind.
  - destruct (proj1 Hx) as [b Hb]. eapply runs_mono; [eapply insert_first; [exact Hb|exact Hx]|]. intros r s' [-> ->].
    eexists. split; [done|]. split_and!; [apply relinked_next; [set_solver|done]| |done].
    cbn. split_and!; [done..|]. eexists. by rewrite lookup_insert_eq.
  - rewrite last_snoc in Hlast |- *. cbn [default from_option id]. rewrite bool_decide_false by (by destruct l). cbn [negb andb].
    assert (Hhd : hd 0 ((l ++ [t]) ++ [x]) = hd 0 (l ++ [t])) by by destruct l. rewrite Hhd.
    eapply runs_mono; [eapply (insert_above s _ t l [] x); [exact Hl| | |exact Hx0|by apply Hlast]|].
    + apply NoDup_app in Hnd as (H1 & H2 & _). apply NoDup_cons. split; [|done]. intros Hin. specialize (H2 x Hin). set_solver.
    + apply Forall_forall. intros y Hy. apply Hh. set_solver.
    + intros r s' (nb' & -> & Hr & Hl' & ->). exists nb'. rewrite <- !app_assoc. cbn [app]. split_and!; try done.
      eapply relinked_mono; [|exact Hr]. set_solver.
Qed.

(** With ascending numbers, the list looks complete when it is. *)
Lemma complete_in_order (nb : gmap Z (nbuf (frag Dsc))) h m x : StronglySorted Z.lt (fno nb <$> h :: m ++ [x]) -> headed nb h ->
  looks_complete nb (h :: m ++ [x]) x = negb (fmore nb x) && bool_decide (fno nb <$> h :: m ++ [x] = seqZ 0 (Z.of_nat (length (h :: m ++ [x])))).
Proof.
  intros Hs Hh. unfold looks_complete. cbn [tl]. f_equal. apply bool_decide_ext. cbn [length]. rewrite Nat2Z.inj_succ, (seqZ_cons 0) by lia.
  rewrite Z.pred_succ, fmap_cons. split; [|by intros [= _ ->]]. intros Heq. rewrite Heq. f_equal.
  destruct (headed_no _ _ Hh) as [_ Hr]. rewrite fmap_cons in Hs. apply StronglySorted_inv in Hs as [_ Hall].
  rewrite Heq, seqZ_cons in Hall by (rewrite length_app; cbn; lia). apply Forall_cons in Hall as [Hlt _]. lia.
Qed.

Section Frag.
Variables (cfg : df_conf) (tid seq_num : Z).

(** The wait list and the time-out of the TID after a fragment *)
Definition deadline : Z := u32 (now_ms cfg + timeout_ms cfg).
Definition rearmed (v : tid_view) : tid_view := if defrag_timeout_check cfg then with_wait deadline true v else v.
Definition requeued (wl : list Z) : list Z := if defrag_timeout_check cfg then unqueue tid wl ++ [tid] else wl.
Definition disarmed (v : tid_view) : tid_view := if defrag_timeout_check cfg then with_wait (tv_timeout v) false v else v.
Definition dequeued (wl : list Z) : list Z := if defrag_timeout_check cfg then unqueue tid wl else wl.

(** The TID has the fragments [l]. *)
Record collects s (v : tid_view) l : Prop := {
  co_at : at_tid s tid v;
  co_mask : Z.land seq_num (tv_mask v) = 0;
  co_slot : tv_slot v = Some (slot_of l);
  co_list : lseg (nbufs s) (hd 0 l) l 0;
  co_wait : tv_waiting v = false -> tid ∉ df_waitlist s
}.

(** The fragments [l] stay, waiting for the others. *)
Record kept_waiting s s' (v : tid_view) l : Prop := {
  kw_at : at_tid s' tid (rearmed (with_slot (slot_of l) v));
  kw_waitlist : df_waitlist s' = requeued (df_waitlist s);
  kw_list : lseg (nbufs s') (hd 0 l) l 0;
  kw_only : stored_only tid s s'
}.
(** The fragments [l] are all there and handed on. *)
Record handed_on s s' (v : tid_view) l : Prop := {
  ho_at : at_tid s' tid (disarmed (with_slot (slot_of l) v));
  ho_waitlist : df_waitlist s' = dequeued (df_waitlist s);
  ho_list : lseg (nbufs s') (hd 0 l) l 0;
  ho_relinked : relinked l (nbufs s) (nbufs s');
  ho_only : stored_only tid s s'
}.
(** After that the slot is empty. *)
Record slot_emptied (v : tid_view) s s' : Prop := {
  se_at : at_tid s' tid (with_wait 0 (tv_waiting (disarmed v)) (with_slot null_elem v));
  se_tids : forall t, t <> tid -> aget (df_reorder s') t = aget (df_reorder s) t;
  se_pn : df_pn s' = df_pn s;
  se_waitlist : df_waitlist s' = df_waitlist s;
  se_key : michael_key s' = michael_key s;
  se_seq : df_last_seq s' = upd (df_last_seq s) tid seq_num
}.

Variables (skb_room : bytes -> bytes -> bool) (stack_pn : Z -> htt_rx_pn_t) (opmode : wlan_op_mode) (ol_rx_fwd_check ol_rx_deliver ol_rx_in_order_deliver : Z -> Z -> M ST unit).
#[local] Abbreviation defrag := (ol_rx_defrag skb_room stack_pn opmode cfg ol_rx_fwd_check ol_rx_deliver ol_rx_in_order_deliver tid).
#[local] Abbreviation store_frag := (ol_rx_reorder_store_frag skb_room stack_pn opmode cfg ol_rx_fwd_check ol_rx_deliver ol_rx_in_order_deliver tid seq_num).

(** What follows the insertion *)
Definition after_insert (res : Z * Z * bool) : M ST unit :=
  let '(head, tail, all_frag_present) := res in
  df_set_slot tid 0 {| el_head := head; el_tail := tail |} ;;
  (if defrag_timeout_check cfg then df_waitlist_remove tid else mreturn tt) ;;
  if all_frag_present : bool then
    defrag head ;;
    df_set_slot tid 0 null_elem ;;
    r <- df_rr tid ;; df_set_rr tid (set_timeout 0 r) ;;
    s <- mget ;; l <- oget (aset (df_last_seq s) tid seq_num) ;; modify (set_df_last_seq l)
  else if defrag_timeout_check cfg then
    r <- df_rr tid ;; df_set_rr tid (set_timeout (u32 (now_ms cfg + timeout_ms cfg)) r) ;;
    ol_rx_defrag_waitlist_add tid
  else mreturn tt.

Lemma remove_waiting s v : at_tid s tid v -> (tv_waiting v = false -> tid ∉ df_waitlist s) ->
  runs (if defrag_timeout_check cfg then df_waitlist_remove tid else mreturn tt) s (fun _ s' => at_tid s' tid (disarmed v) /\
    stored_only tid s s' /\ nbufs s' = nbufs s /\ df_waitlist s' = dequeued (df_waitlist s) /\ length (df_reorder s') = length (df_reorder s)).
Proof.
  intros Hat Hw. unfold disarmed, dequeued. destruct (defrag_timeout_check cfg); [by apply store_waitlist_remove_spec|].
  mstep. split_and!; try done. apply stored_only_refl.
Qed.

Lemma stored_nbufs s s' : stored_only tid s s' -> nbufs s' = nbufs s -> df_pn s' = df_pn s.
Proof. intros [_ Hpn _ _] Hb. rewrite Hb in Hpn. rewrite Hpn. by destruct s as [[] ? ? ? ?]. Qed.

Lemma after_insert_keeps s v h t : at_tid s tid v -> is_Some (tv_slot v) -> (tv_waiting v = false -> tid ∉ df_waitlist s) ->
  runs (after_insert (h, t, false)) s (fun _ s' => at_tid s' tid (rearmed (with_slot {| el_head := h; el_tail := t |} v)) /\
    df_waitlist s' = requeued (df_waitlist s) /\ nbufs s' = nbufs s /\ stored_only tid s s').
Proof.
  intros Hat Hslot Hw. unfold after_insert. mstep. eapply runs_df_set_slot; [exact Hat|exact Hslot|].
  intros s1 Hat1 Ho1 Hb1 Hwl1 Hlen1. mstep. eapply runs_mono; [apply remove_waiting; [exact Hat1|by rewrite Hwl1]|].
  intros _ s2 (Hat2 & Ho2 & Hb2 & Hwl2 & Hlen2). unfold disarmed, dequeued, rearmed, requeued in *.
  pose proof (stored_only_trans _ _ _ _ Ho1 Ho2) as Ho. destruct (defrag_timeout_check cfg).
  - destruct Hat2 as (r2 & Hr2 & Hv2). mstep. eapply runs_df_rr; [exact Hr2|]. mstep. eapply runs_df_set_rr; [by exists r2|].
    intros s3 Hat3 Ho3 Hb3 Hwl3 Hlen3. unfold ol_rx_defrag_waitlist_add. destruct Hat3 as (r3 & Hr3 & Hv3). mstep.
    eapply runs_df_rr; [exact Hr3|]. mstep. eapply runs_df_set_rr; [by exists r3|]. intros s4 Hat4 Ho4 Hb4 Hwl4 Hlen4. mstep.
    split_and!.
    + destruct Hat4 as (r4 & Hr4 & Hv4). exists r4. split; [done|]. rewrite Hv4. clear -Hv2 Hv3. unfold view, with_wait, with_slot, elems_of, deadline in *. cbn in *.
      injection Hv2 as Ha1 Ha2 Ha3 Ha4 Ha5. injection Hv3 as Hb1 Hb2 Hb3 Hb4 Hb5. f_equal; congruence.
    + cbn. by rewrite Hwl4, Hwl3, Hwl2, Hwl1.
    + transitivity (nbufs s4); [done|]. by rewrite Hb4, Hb3, Hb2, Hb1.
    + eapply stored_only_trans; [exact Ho|]. eapply stored_only_trans; [exact Ho3|]. eapply stored_only_trans; [exact Ho4|].
      split; try done. by destruct s4 as [[] ? ? ? ?].
  - mstep. split_and!; [exact Hat2|by rewrite Hwl2, Hwl1|by rewrite Hb2, Hb1|exact Ho].
Qed.

Lemma after_insert_hands s v h t (R : ST -> Prop) : at_tid s tid v -> is_Some (tv_slot v) -> (tv_waiting v = false -> tid ∉ df_waitlist s) ->
  (forall s1, at_tid s1 tid (disarmed (with_slot {| el_head := h; el_tail := t |} v)) -> df_waitlist s1 = dequeued (df_waitlist s) ->
     nbufs s1 = nbufs s -> stored_only tid s s1 ->
     runs (defrag h) s1 (fun _ s2 => df_reorder s2 = df_reorder s1 /\ is_Some (aget (df_last_seq s2) tid) /\ R s2)) ->
  runs (after_insert (h, t, true)) s (fun _ s' => exists s2, R s2 /\ slot_emptied v s2 s').
Proof.
  intros Hat Hslot Hw HQ. unfold after_insert. mstep. eapply runs_df_set_slot; [exact Hat|exact Hslot|].
  intros s1 Hat1 Ho1 Hb1 Hwl1 Hlen1. mstep. eapply runs_mono; [apply remove_waiting; [exact Hat1|by rewrite Hwl1]|].
  intros _ s2 (Hat2 & Ho2 & Hb2 & Hwl2 & Hlen2). mstep. eapply runs_mono.
  { apply HQ; [exact Hat2|by rewrite Hwl2, Hwl1|by rewrite Hb2, Hb1|by eapply stored_only_trans]. }
  intros _ s3 (Hr3 & [q Hq] & HR). mstep. eapply runs_df_set_slot; [by eapply at_tid_ext; [exact Hr3|]|unfold disarmed; by destruct (defrag_timeout_check cfg)|].
  intros s4 Hat4 Ho4 Hb4 Hwl4 Hlen4. destruct Hat4 as (r4 & Hr4 & Hv4). mstep. eapply runs_df_rr; [exact Hr4|]. mstep.
  eapply runs_df_set_rr; [by exists r4|]. intros s5 Hat5 Ho5 Hb5 Hwl5 Hlen5. mstep. mstep. mstep.
  pose proof (aget_Some_range _ _ _ Hq) as Hrange. pose proof (stored_only_trans _ _ _ _ Ho4 Ho5) as Ho.
  eapply runs_oget; [apply aset_upd; by rewrite (so_last_seq _ _ _ Ho)|]. mstep. exists s3. split; [exact HR|]. split; cbn.
  - destruct Hat5 as (r5 & Hr5 & Hv5). exists r5. split; [done|]. rewrite Hv5. clear -Hv4. unfold disarmed in *. unfold view, with_wait, with_slot, elems_of, deadline in *.
    destruct (defrag_timeout_check cfg); cbn in *; injection Hv4 as Ha1 Ha2 Ha3 Ha4 Ha5; f_equal; congruence.
  - intros u Hu. by apply (so_tids _ _ _ Ho).
  - apply stored_nbufs; [exact Ho|]. by rewrite Hb5, Hb4.
  - by rewrite Hwl5, Hwl4.
  - apply (so_key _ _ _ Ho).
  - by rewrite (so_last_seq _ _ _ Ho).
Qed.

(** Fragments of another frame are dropped first. *)
Definition clean_slot (x : Z) (e : ol_rx_reorder_array_elem_t) : M ST unit :=
  if negb (el_head e =? 0) then
    d <- data_of x Some ;;
    same <- data_of (el_head e) (same_frame d) ;;
    if negb same then ol_rx_frames_free (el_head e) ;; df_set_slot tid 0 null_elem else mreturn tt
  else mreturn tt.

Lemma store_frag_cases s v l x (Q : unit -> ST -> Prop) : collects s v l -> headed (nbufs s) x ->
  (if negb (fmore (nbufs s) x) && (fno (nbufs s) x =? 0) && bool_decide (l = []) then
     runs (res <- ol_rx_fraglist_insert 0 0 x ;;
           df_set_slot tid 0 {| el_head := res.1.1; el_tail := res.1.2 |} ;;
           adf_nbuf_set_next x 0 ;; defrag res.1.1 ;; df_set_slot tid 0 null_elem) s Q
   else
     runs (clean_slot x (slot_of l) ;; e <- df_slot tid 0 ;; res <- ol_rx_fraglist_insert (el_head e) (el_tail e) x ;; after_insert res) s Q) ->
  runs (store_frag x) s Q.
Proof.
  intros [Hat Hmask Hslot Hl Hw] Hx HQ. unfold ol_rx_reorder_store_frag. destruct Hat as (r & Hr & Hv). mstep.
  eapply runs_df_rr; [exact Hr|]. assert (Hm : Z.land seq_num (win_sz_mask r) = 0) by by rewrite <- Hmask, <- Hv.
  rewrite Hm. mstep. eapply runs_massert; [done|]. mstep. eapply runs_df_slot; [by exists r|exact Hslot|].
  mstep. eapply runs_data_of; [apply Hx|by apply headed_no|]. mstep. eapply runs_data_of; [apply Hx|by apply headed_more|].
  rewrite slot_head by by eapply lseg_nonnull. destruct (negb _ && _ && _) eqn:Hlone.
  - apply andb_true_iff in Hlone as [_ Hnil%bool_decide_eq_true]. subst l. exact HQ.
  - unfold clean_slot in HQ. rewrite slot_head in HQ by by eapply lseg_nonnull. exact HQ.
Qed.

Lemma clean_same s v l x : collects s v l -> headed (nbufs s) x ->
  (l <> [] -> same_frame (body (nbufs s) x) (body (nbufs s) (hd 0 l)) = Some true) ->
  runs (clean_slot x (slot_of l)) s (fun _ s' => s' = s).
Proof.
  intros [Hat Hmask Hslot Hl Hw] Hx Hsame. unfold clean_slot. rewrite slot_head by by eapply lseg_nonnull.
  destruct l as [|h l]; [rewrite bool_decide_true by done; cbn [negb]; by mstep|]. rewrite bool_decide_false by done. cbn [negb].
  mstep. eapply runs_data_of; [apply Hx|reflexivity|]. mstep. destruct Hl as (_ & _ & b & Hb & _).
  eapply runs_data_of; [by eexists|by apply Hsame|]. cbn [negb]. by mstep.
Qed.

Lemma clean_other s v l x : collects s v l -> NoDup (l ++ [x]) -> headed (nbufs s) x -> l <> [] ->
  same_frame (body (nbufs s) x) (body (nbufs s) (hd 0 l)) = Some false ->
  runs (clean_slot x (slot_of l)) s (fun _ s' => at_tid s' tid (with_slot null_elem v) /\ stored_only tid s s' /\
    df_waitlist s' = df_waitlist s /\ nbufs s' = dropped_bufs l (nbufs s)).
Proof.
  intros [Hat Hmask Hslot Hl Hw] Hnd Hx Hne Hsame. unfold clean_slot. rewrite slot_head by by eapply lseg_nonnull.
  rewrite bool_decide_false by done. cbn [negb]. mstep. eapply runs_data_of; [apply Hx|reflexivity|]. mstep.
  assert (His : is_Some (nbufs s !! hd 0 l)) by (destruct l; [done|]; destruct Hl as (_ & _ & b & Hb & _); by eexists).
  eapply runs_data_of; [exact His|exact Hsame|]. cbn [negb]. mstep. apply NoDup_app in Hnd as (Hnd & _).
  eapply runs_mono; [eapply frames_free_spec; [exact Hl|exact Hnd]|]. intros _ s1 ->. eapply runs_df_set_slot; [exact Hat|by rewrite Hslot|].
  intros s2 Hat2 Ho2 Hb2 Hwl2 Hlen2. split_and!; try done. eapply stored_only_trans; [apply stored_only_bufs|exact Ho2].
Qed.

(** The next fragment in order *)
Lemma store_next s v l x (R : ST -> Prop) :
  collects s v l -> NoDup (l ++ [x]) -> Forall (headed (nbufs s)) (l ++ [x]) -> x <> 0 ->
  (l <> [] -> same_frame (body (nbufs s) x) (body (nbufs s) (hd 0 l)) = Some true) ->
  StronglySorted Z.lt (fno (nbufs s) <$> l ++ [x]) -> (l = [] -> fmore (nbufs s) x = true \/ fno (nbufs s) x <> 0) ->
  let whole := negb (fmore (nbufs s) x) && bool_decide (fno (nbufs s) <$> l ++ [x] = seqZ 0 (Z.of_nat (length (l ++ [x])))) in
  (whole = true -> forall s1, handed_on s s1 v (l ++ [x]) ->
     runs (defrag (hd 0 (l ++ [x]))) s1 (fun _ s2 => df_reorder s2 = df_reorder s1 /\ is_Some (aget (df_last_seq s2) tid) /\ R s2)) ->
  runs (store_frag x) s (fun _ s' => if whole then exists s2, R s2 /\ slot_emptied v s2 s' else kept_waiting s s' v (l ++ [x])).
Proof.
  intros Hco Hnd Hh Hx0 Hsame Hsort Hnot whole HQ. pose proof Hco as [Hat Hmask Hslot Hl Hw].
  assert (Hx : headed (nbufs s) x) by (rewrite Forall_forall in Hh; apply Hh; set_solver).
  eapply store_frag_cases; [exact Hco|exact Hx|].
  assert (Hlone : negb (fmore (nbufs s) x) && (fno (nbufs s) x =? 0) && bool_decide (l = []) = false).
  { destruct l; [|by rewrite andb_false_r]. destruct (Hnot eq_refl) as [->|H]; [done|]. by rewrite (proj2 (Z.eqb_neq _ _) H), andb_false_r. }
  rewrite Hlone. mstep. eapply runs_mono; [eapply clean_same; [exact Hco|exact Hx|exact Hsame]|]. intros _ s1 ->.
  mstep. eapply runs_df_slot; [exact Hat|exact Hslot|]. mstep. cbn [slot_of el_head el_tail].
  eapply runs_mono; [eapply insert_next; [exact Hl|exact Hnd|exact Hh|exact Hx0|]|].
  { intros t Ht. destruct l as [|t' l _] using rev_ind; [done|]. rewrite last_snoc in Ht. injection Ht as ->.
    rewrite <- app_assoc, fmap_app in Hsort. apply StronglySorted_app_1_r in Hsort. cbn in Hsort.
    apply StronglySorted_inv in Hsort as [_ Hall]. by apply Forall_cons in Hall as [? _]. }
  intros r s1 (nb' & -> & Hr & Hl' & ->).
  assert (Hwhole : negb (bool_decide (l = [])) && looks_complete (nbufs s) (l ++ [x]) x = whole).
  { unfold whole. destruct l as [|h m]; cbn [app].
    - rewrite bool_decide_true by done. cbn [negb andb]. symmetry. apply andb_false_iff.
      destruct (Hnot eq_refl) as [->|H]; [by left|]. right. apply bool_decide_eq_false. cbn. intros [= H']. by apply H.
    - rewrite bool_decide_false by done. cbn [negb andb]. apply complete_in_order; [exact Hsort|]. by apply Forall_cons in Hh as [? _]. }
  rewrite Hwhole. assert (Hsl : {| el_head := hd 0 (l ++ [x]); el_tail := x |} = slot_of (l ++ [x])) by (unfold slot_of; by rewrite last_snoc).
  assert (Hat' : at_tid (set_nbufs nb' s) tid v) by (by eapply at_tid_ext; [|exact Hat]).
  destruct whole.
  - eapply runs_mono; [eapply (after_insert_hands _ v _ _ R); [exact Hat'|by rewrite Hslot|exact Hw|]|done].
    intros s1 Hat1 Hwl1 Hb1 Ho1. apply HQ; [done|]. rewrite Hsl in Hat1. rewrite nbufs_set in Hb1. split; [exact Hat1|exact Hwl1|by rewrite Hb1|by rewrite Hb1|].
    eapply stored_only_trans; [apply stored_only_bufs|exact Ho1].
  - eapply runs_mono; [eapply after_insert_keeps; [exact Hat'|by rewrite Hslot|exact Hw]|].
    intros _ s1 (Hat1 & Hwl1 & Hb1 & Ho1). rewrite Hsl in Hat1. rewrite nbufs_set in Hb1. split; [exact Hat1|exact Hwl1|by rewrite Hb1|].
    eapply stored_only_trans; [apply stored_only_bufs|exact Ho1].
Qed.

(** A fragment of another frame: those of the frame under construction are dropped, and it starts
    a list by itself. *)
Lemma store_other s v l x :
  collects s v l -> l <> [] -> NoDup (l ++ [x]) -> headed (nbufs s) x -> x <> 0 ->
  same_frame (body (nbufs s) x) (body (nbufs s) (hd 0 l)) = Some false ->
  runs (store_frag x) s (fun _ s' => kept_waiting s s' v [x] /\ (forall y, y ∈ l -> nbufs s' !! y = None) /\
    (forall y, y ∉ l ++ [x] -> nbufs s' !! y = nbufs s !! y)).
Proof.
  intros Hco Hne Hnd Hx Hx0 Hsame. pose proof Hco as [Hat Hmask Hslot Hl Hw]. pose proof Hnd as Hnd'.
  apply NoDup_app in Hnd' as (_ & Hdis & _). assert (Hxl : x ∉ l) by (intros Hin; specialize (Hdis x Hin); set_solver).
  eapply store_frag_cases; [exact Hco|exact Hx|]. rewrite bool_decide_false, andb_false_r by done.
  mstep. eapply runs_mono; [eapply clean_other; [exact Hco|exact Hnd|exact Hx|exact Hne|exact Hsame]|].
  intros _ s1 (Hat1 & Ho1 & Hwl1 & Hb1). destruct (proj1 Hx) as [b Hb].
  assert (Hb' : nbufs s1 !! x = Some b) by by rewrite Hb1, dropped_out.
  assert (Hx1 : headed (nbufs s1) x) by (split; [by eexists|rewrite (body_lookup _ _ _ Hb'), <- (body_lookup _ _ _ Hb); apply Hx]).
  mstep. eapply runs_df_slot; [exact Hat1|done|]. cbn [el_head el_tail null_elem]. mstep.
  eapply runs_mono; [eapply insert_first; [exact Hb'|exact Hx1]|]. intros r s2 [-> ->].
  eapply runs_mono; [eapply after_insert_keeps; [by eapply at_tid_ext; [|exact Hat1]|done|]|].
  { intros H. change (tid ∉ df_waitlist s1). rewrite Hwl1. by apply Hw. }
  intros _ s3 (Hat3 & Hwl3 & Hb3 & Ho3). rewrite nbufs_set in Hb3. change (df_waitlist (set_nbufs _ s1)) with (df_waitlist s1) in Hwl3.
  rewrite Hwl1 in Hwl3. split; [|rewrite Hb3, Hb1; split].
  - split; [exact Hat3|exact Hwl3| |].
    + rewrite Hb3. cbn. split_and!; [done..|]. eexists. by rewrite lookup_insert_eq.
    + eapply stored_only_trans; [exact Ho1|]. eapply stored_only_trans; [apply stored_only_bufs|exact Ho3].
  - intros y Hy. rewrite lookup_insert_ne by set_solver. by apply dropped_in.
  - intros y Hy. rewrite lookup_insert_ne by set_solver. apply dropped_out. set_solver.
Qed.

(** A fragment that came before *)
Lemma store_again s v a y c x :
  let l := a ++ y :: c in
  collects s v l -> NoDup (l ++ [x]) -> Forall (headed (nbufs s)) (l ++ [x]) -> x <> 0 ->
  same_frame (body (nbufs s) x) (body (nbufs s) (hd 0 l)) = Some true ->
  StronglySorted Z.lt (fno (nbufs s) <$> l) -> fno (nbufs s) x = fno (nbufs s) y ->
  runs (store_frag x) s (fun _ s' => kept_waiting s s' v l /\ nbufs s' = delete x (nbufs s)).
Proof.
  intros l Hco Hnd Hh Hx0 Hsame Hsort Heq. pose proof Hco as [Hat Hmask Hslot Hl Hw].
  assert (Hx : headed (nbufs s) x) by (rewrite Forall_forall in Hh; apply Hh; set_solver).
  assert (Hne : l <> []) by (unfold l; by destruct a).
  eapply store_frag_cases; [exact Hco|exact Hx|]. rewrite bool_decide_false, andb_false_r by done.
  mstep. eapply runs_mono; [eapply clean_same; [exact Hco|exact Hx|by intros _]|]. intros _ s1 ->.
  mstep. eapply runs_df_slot; [exact Hat|exact Hslot|]. mstep. cbn [slot_of el_head el_tail].
  unfold l in Hsort. rewrite fmap_app, fmap_cons in Hsort. apply StronglySorted_app in Hsort as (Hac & _ & Hyc).
  apply StronglySorted_cons in Hyc as [Hyc _]. rewrite Forall_forall in Hyc.
  assert (Htl : exists t, last l = Some t /\ t ∈ l /\ fno (nbufs s) y <= fno (nbufs s) t).
  { unfold l. rewrite last_app. destruct (last (y :: c)) as [t|] eqn:Ht; [|by apply last_None in Ht]. exists t. split; [done|].
    apply last_Some in Ht as (c' & Hc'). rewrite Hc'. split; [set_solver|]. destruct c' as [|y' c']; injection Hc' as -> ->; [lia|].
    specialize (Hyc (fno (nbufs s) t)). assert (fno (nbufs s) y' < fno (nbufs s) t); [|lia]. apply Hyc. rewrite fmap_app. set_solver. }
  destruct Htl as (t & Ht & Htl & Hyt). rewrite Ht. cbn [default from_option id].
  assert (Hperm : x :: l ≡ₚ l ++ [x]) by apply Permutation_cons_append.
  eapply runs_mono; [eapply (insert_below s (hd 0 l) t a y c x); [exact Hl| | |exact Hx0|exact Htl|lia| |lia]|].
  - fold l. by rewrite Hperm.
  - fold l. by rewrite Hperm.
  - apply Forall_forall. intros z Hz. rewrite Heq. apply Hac; set_solver.
  - intros r s1. rewrite Heq, Z.eqb_refl. intros [-> ->].
    eapply runs_mono; [eapply after_insert_keeps; [by eapply at_tid_ext; [|exact Hat]|by rewrite Hslot|exact Hw]|].
    intros _ s2 (Hat2 & Hwl2 & Hb2 & Ho2). rewrite nbufs_set in Hb2. split; [|exact Hb2].
    assert (Hxl : x ∉ l) by (rewrite <- Hperm in Hnd; by apply NoDup_cons in Hnd as [? _]).
    split; [by unfold slot_of; rewrite Ht|exact Hwl2| |eapply stored_only_trans; [apply stored_only_bufs|exact Ho2]].
    eapply lseg_frame; [exact Hl|]. intros z Hz. rewrite Hb2. by rewrite lookup_delete_ne by set_solver.
Qed.

(** A frame that was not fragmented, when no fragments wait *)
Lemma store_lone s v x (R : ST -> Prop) :
  collects s v [] -> headed (nbufs s) x -> x <> 0 -> fmore (nbufs s) x = false -> fno (nbufs s) x = 0 ->
  (forall s1, at_tid s1 tid (with_slot (slot_of [x]) v) -> lseg (nbufs s1) x [x] 0 -> relinked [x] (nbufs s) (nbufs s1) ->
     stored_only tid s s1 -> df_waitlist s1 = df_waitlist s ->
     runs (defrag x) s1 (fun _ s2 => df_reorder s2 = df_reorder s1 /\ R s2)) ->
  runs (store_frag x) s (fun _ s' => exists s2, R s2 /\ at_tid s' tid (with_slot null_elem v) /\ stored_only tid s2 s' /\
    nbufs s' = nbufs s2 /\ df_waitlist s' = df_waitlist s2).
Proof.
  intros Hco Hx Hx0 Hmore Hno HQ. pose proof Hco as [Hat Hmask Hslot Hl Hw]. destruct (proj1 Hx) as [b Hb].
  eapply store_frag_cases; [exact Hco|exact Hx|]. rewrite Hmore, Hno. cbn [negb andb Z.eqb]. rewrite bool_decide_true by done.
  mstep. eapply runs_mono; [eapply insert_first; [exact Hb|exact Hx]|]. intros r s1 [-> ->]. cbn [fst snd]. mstep.
  eapply runs_df_set_slot; [by eapply at_tid_ext; [|exact Hat]|by rewrite Hslot|]. intros s2 Hat2 Ho2 Hb2 Hwl2 Hlen2. rewrite nbufs_set in Hb2.
  mstep. eapply runs_set_next; [by rewrite Hb2, lookup_insert_eq|]. rewrite Hb2, insert_insert_eq. mstep.
  eapply runs_mono; [eapply HQ|].
  - by eapply at_tid_ext; [|exact Hat2].
  - rewrite nbufs_set. cbn. split_and!; [done..|]. eexists. by rewrite lookup_insert_eq.
  - rewrite nbufs_set. apply (relinked_next [x] _ x b 0); [set_solver|done].
  - eapply stored_only_trans; [apply stored_only_bufs|]. eapply stored_only_trans; [exact Ho2|apply stored_only_bufs].
  - done.
  - intros _ s3 (Hr3 & HR). eapply runs_df_set_slot; [eapply at_tid_ext; [exact Hr3|by eapply at_tid_ext; [|exact Hat2]]|done|].
    intros s4 Hat4 Ho4 Hb4 Hwl4 Hlen4. exists s3. by split_and!.
Qed.
End Frag.
End Store.
