(* ===== verification/DefragFrame.v ===== *)
(** * Defragmentation: the frame as it was sent

    A data frame with three addresses, field by field, with what the receiver is to make of it:
    the Ethernet frame, and the pseudo header its MIC is over.  Nothing of that is by the
    operations of the driver; the lemmas say that its header conversions arrive at it. *)

From S2P Require Import Prelude HttRxDesc Nbuf RxPn RxReorder Defrag DefragInv DefragMic DefragRun.

Local Open Scope c_scope.

#[local] Abbreviation bytes := (list Z).

(** ** The frame *)

(** [sf_qos] is the QoS control field with the HT control field; [sf_llc] is the LLC/SNAP header
    up to the type. *)
Record sent := {
  sf_fc0 : Z; sf_fc1 : Z; sf_dur : bytes; sf_addr1 : bytes; sf_addr2 : bytes; sf_addr3 : bytes; sf_sq : bytes; sf_qos : bytes;
  sf_llc : bytes; sf_type : bytes; sf_rest : bytes
}.
Definition to_ds (f : sent) : bool := Z.testbit (sf_fc1 f) 0.
Definition from_ds (f : sent) : bool := Z.testbit (sf_fc1 f) 1.
Definition with_qos (f : sent) : bool := Z.testbit (sf_fc0 f) 7.
Definition with_htc (f : sent) : bool := Z.testbit (sf_fc1 f) 7.

(** A data frame, not from one access point to another *)
Record well_sent (f : sent) : Prop := {
  ws_fc : is_octet (sf_fc0 f) /\ is_octet (sf_fc1 f);
  ws_data : sf_fc0 f / 4 mod 4 = 2;
  ws_three : ~ (to_ds f = true /\ from_ds f = true);
  ws_addrs : length (sf_addr1 f) = 6%nat /\ length (sf_addr2 f) = 6%nat /\ length (sf_addr3 f) = 6%nat;
  ws_dur : length (sf_dur f) = 2%nat;
  ws_sq : length (sf_sq f) = 2%nat;
  ws_qos : length (sf_qos f) = (if with_qos f then if with_htc f then 6 else 2 else 0)%nat;
  ws_llc : length (sf_llc f) = 6%nat;
  ws_type : length (sf_type f) = 2%nat
}.

Definition mac_header (f : sent) : bytes :=
  ([sf_fc0 f; sf_fc1 f] ++ sf_dur f ++ sf_addr1 f ++ sf_addr2 f ++ sf_addr3 f ++ sf_sq f) ++ sf_qos f.
Definition destination (f : sent) : bytes := if to_ds f then sf_addr3 f else sf_addr1 f.
Definition source_address (f : sent) : bytes := if from_ds f then sf_addr3 f else sf_addr2 f.
Definition priority (f : sent) : Z := if with_qos f then hd 0 (sf_qos f) mod 16 else 0.
Definition msdu (f : sent) : bytes := sf_llc f ++ sf_type f ++ sf_rest f.
Definition pseudo_header (f : sent) : bytes := destination f ++ source_address f ++ [priority f; 0; 0; 0].
Definition ethernet (f : sent) : bytes := destination f ++ source_address f ++ sf_type f ++ sf_rest f.
(** What is cut into fragments: with TKIP the MIC is behind the data. *)
Definition payload (sec : htt_sec_type) (key : bytes) (f : sent) : bytes :=
  msdu f ++ (if decide (sec = htt_sec_type_tkip) then Michael key (pseudo_header f ++ msdu f) else []).

(** ** The conversions of the driver *)

(** Moving the header over [qos], as the code does it *)
Lemma drop_over_header (h qos r : bytes) (K : bytes -> option bytes) :
  (d ← adf_os_mem_move (h ++ qos ++ r) (blen qos) 0 (blen h); if blen d <? blen qos then Some d else K (pull_head (blen qos) d)) = K (h ++ r).
Proof.
  pose proof (decap_spec {| ic_header := blen qos; ic_trailer := 0; ic_miclen := 0 |} h qos r eq_refl) as Hd. unfold decap in Hd. cbn [ic_header] in Hd.
  apply bind_Some in Hd as (d & Hd & [= Hp]). rewrite Hd. cbn [mbind option_bind]. rewrite Hp.
  assert (Hlen : blen d = blen (h ++ qos ++ r)).
  { unfold adf_os_mem_move in Hd. apply bind_Some in Hd as (v & _ & Hd). destruct (_ && _); [|done]. injection Hd as <-. apply blen_write_at. }
  pose proof (blen_nonneg h). pose proof (blen_nonneg r). rewrite (proj2 (Z.ltb_ge _ _)); [done|]. rewrite Hlen, !blen_app. lia.
Qed.

Lemma nwifi_start f0 f1 (dur a1 a2 a3 sq llc ty r : bytes) :
  length dur = 2%nat -> length a1 = 6%nat -> length a2 = 6%nat -> length a3 = 6%nat -> length sq = 2%nat -> length llc = 6%nat -> length ty = 2%nat ->
  let dir := Z.land f1 IEEE80211_FC1_DIR_MASK in
  let d := drop 2 a3 ++ sq ++ llc ++ ty ++ r in
  ol_rx_defrag_nwifi_to_8023 (([f0; f1] ++ dur ++ a1 ++ a2 ++ a3 ++ sq) ++ llc ++ ty ++ r) =
  Some (write_at (if dir =? IEEE80211_FC1_DIR_NODS then write_at (write_at d 0 a1) 6 a2
    else if dir =? IEEE80211_FC1_DIR_TODS then write_at (write_at d 0 a3) 6 a2
    else if dir =? IEEE80211_FC1_DIR_FROMDS then write_at (write_at d 0 a1) 6 a3 else d) 12 ty).
Proof.
  intros Hdur H1 H2 H3 Hsq Hllc Hty dir d. unfold ol_rx_defrag_nwifi_to_8023.
  set (h := [f0; f1] ++ dur ++ a1 ++ a2 ++ a3 ++ sq). assert (Hh : blen h = 24) by (unfold h, blen; rewrite !length_app; cbn; lia).
  assert (Hlt : blen (llc ++ ty) = 8) by (unfold blen; rewrite length_app; lia).
  assert (Hs0 : slice (h ++ llc ++ ty ++ r) 0 24 = Some h) by by apply (slice_at [] h).
  rewrite Hs0. cbn [mbind option_bind]. rewrite (app_assoc llc), (slice_at h (llc ++ ty) r 8 24) by done.
  cbn [mbind option_bind]. change (fc_dir h) with (Some dir). cbn [mbind option_bind].
  do 2 (destruct dur as [|? dur]; [discriminate|]). destruct dur; [|discriminate].
  assert (Hs1 : i_addr1 h = Some a1) by (apply (slice_at [f0; f1; _; _] a1 (a2 ++ a3 ++ sq)); [done|unfold blen; lia]).
  assert (Hs2 : i_addr2 h = Some a2).
  { unfold h, i_addr2. rewrite (app_assoc _ a1), (app_assoc _ _ (a2 ++ _)). apply slice_at; unfold blen; rewrite ?length_app; cbn; lia. }
  assert (Hs3 : i_addr3 h = Some a3).
  { unfold h, i_addr3. rewrite (app_assoc a1), (app_assoc _ (a1 ++ a2)), (app_assoc _ _ (a3 ++ _)). apply slice_at; unfold blen; rewrite ?length_app; cbn; lia. }
  rewrite Hs1, Hs2, Hs3. cbn [mbind option_bind].
  assert (Hty' : slice (llc ++ ty) 6 2 = Some ty) by (rewrite <- (app_nil_r (llc ++ ty)), <- app_assoc; apply slice_at; unfold blen; lia).
  assert (Hpull : pull_head (24 + 8 - 14) (h ++ (llc ++ ty) ++ r) = d).
  { unfold h, d. rewrite <- (take_drop 2 a3) at 1. rewrite <- !app_assoc.
    replace ([f0; f1] ++ [z; z0] ++ a1 ++ a2 ++ take 2 a3 ++ drop 2 a3 ++ sq ++ llc ++ ty ++ r)
      with (([f0; f1] ++ [z; z0] ++ a1 ++ a2 ++ take 2 a3) ++ drop 2 a3 ++ sq ++ llc ++ ty ++ r) by by rewrite <- !app_assoc.
    apply pull_head_app. unfold blen. rewrite !length_app, length_take. cbn [length]. lia. }
  rewrite Hpull, Hty'. done.
Qed.

(** Addresses and type are written over what is left of the header. *)
Lemma write_ethernet (d da sa ty r : bytes) : length d = 14%nat -> length da = 6%nat -> length sa = 6%nat -> length ty = 2%nat ->
  write_at (write_at (write_at (d ++ r) 0 da) 6 sa) 12 ty = da ++ sa ++ ty ++ r.
Proof.
  intros Hd Hda Hsa Hty. assert (Hs : d = take 6 d ++ take 6 (drop 6 d) ++ drop 12 d).
  { change 12%nat with (6 + 6)%nat. by rewrite <- drop_drop, !take_drop. }
  assert (Hx : length (take 6 d) = 6%nat) by (rewrite length_take; lia).
  assert (Hy : length (take 6 (drop 6 d)) = 6%nat) by (rewrite length_take, length_drop; lia).
  assert (Hz : length (drop 12 d) = 2%nat) by (rewrite length_drop; lia).
  rewrite Hs. revert Hx Hy Hz. generalize (take 6 d), (take 6 (drop 6 d)), (drop 12 d). clear -Hda Hsa Hty. intros x y z Hx Hy Hz. rewrite <- !app_assoc.
  pose proof (write_at_app [] x da 0 eq_refl ltac:(unfold blen; lia) (y ++ z ++ r)) as H1. cbn [app] in H1. rewrite H1.
  rewrite (write_at_app da y sa 6) by (unfold blen; lia).
  rewrite (app_assoc da), (write_at_app (da ++ sa) z ty 12) by (unfold blen; rewrite ?length_app; lia). by rewrite <- app_assoc.
Qed.

Lemma nwifi_spec f0 f1 (dur a1 a2 a3 sq llc ty r : bytes) :
  length dur = 2%nat -> length a1 = 6%nat -> length a2 = 6%nat -> length a3 = 6%nat -> length sq = 2%nat -> length llc = 6%nat -> length ty = 2%nat ->
  let dir := Z.land f1 IEEE80211_FC1_DIR_MASK in dir <> IEEE80211_FC1_DIR_DSTODS ->
  ol_rx_defrag_nwifi_to_8023 (([f0; f1] ++ dur ++ a1 ++ a2 ++ a3 ++ sq) ++ llc ++ ty ++ r) =
  Some ((if dir =? IEEE80211_FC1_DIR_TODS then a3 else a1) ++ (if dir =? IEEE80211_FC1_DIR_FROMDS then a3 else a2) ++ ty ++ r).
Proof.
  intros Hdur H1 H2 H3 Hsq Hllc Hty dir Hdir. rewrite nwifi_start by done. cbv zeta. fold dir. f_equal.
  assert (Hr : 0 <= dir < 4) by (unfold dir; change IEEE80211_FC1_DIR_MASK with (2 ^ 2 - 1); rewrite land_mask by lia; apply Z.mod_pos_bound; lia).
  assert (Hd : drop 2 a3 ++ sq ++ llc ++ ty ++ r = (drop 2 a3 ++ sq ++ llc ++ ty) ++ r) by by rewrite <- !app_assoc. rewrite Hd.
  unfold IEEE80211_FC1_DIR_NODS, IEEE80211_FC1_DIR_TODS, IEEE80211_FC1_DIR_FROMDS, IEEE80211_FC1_DIR_DSTODS in *.
  assert (Hcase : dir = 0 \/ dir = 1 \/ dir = 2) by lia.
  destruct Hcase as [->|[->| ->]]; cbn [Z.eqb Pos.eqb]; apply write_ethernet; rewrite ?length_app, ?length_drop; lia.
Qed.
Lemma nwifi_four f0 f1 (dur a1 a2 a3 sq a4 llc ty r : bytes) :
  length dur = 2%nat -> length a1 = 6%nat -> length a2 = 6%nat -> length a3 = 6%nat -> length sq = 2%nat -> length a4 = 6%nat -> length llc = 6%nat ->
  Z.land f1 IEEE80211_FC1_DIR_MASK = IEEE80211_FC1_DIR_DSTODS ->
  ol_rx_defrag_nwifi_to_8023 (([f0; f1] ++ dur ++ a1 ++ a2 ++ a3 ++ sq) ++ a4 ++ llc ++ ty ++ r) = Some (drop 2 a3 ++ sq ++ a4 ++ llc ++ ty ++ r).
Proof.
  intros Hdur H1 H2 H3 Hsq H4 Hllc Hdir. rewrite <- (take_drop 2 llc), <- (app_assoc (take 2 llc)).
  rewrite (nwifi_start f0 f1 dur a1 a2 a3 sq a4 (take 2 llc)) by (done || rewrite length_take; lia). cbv zeta. rewrite Hdir. cbn [Z.eqb Pos.eqb]. f_equal.
  replace (drop 2 a3 ++ sq ++ a4 ++ take 2 llc ++ drop 2 llc ++ ty ++ r) with ((drop 2 a3 ++ sq ++ a4) ++ take 2 llc ++ drop 2 llc ++ ty ++ r) by by rewrite <- !app_assoc.
  apply write_at_app; [|done]. unfold blen. rewrite !length_app, length_drop. lia.
Qed.

(** The header of a three-address frame, and of one with four, in the driver's terms *)
Lemma headers_are_converted (cfg : df_conf) (f0 f1 : Z) (dur a1 a2 a3 sq qos a4 llc ty r : bytes) :
  frm_802_3 cfg = true -> length dur = 2%nat -> length a1 = 6%nat -> length a2 = 6%nat -> length a3 = 6%nat -> length sq = 2%nat ->
  length llc = 6%nat -> length ty = 2%nat -> length a4 = 6%nat ->
  let dir := Z.land f1 IEEE80211_FC1_DIR_MASK in
  let with_qos := Z.land f0 (Z.lor IEEE80211_FC0_TYPE_MASK IEEE80211_FC0_SUBTYPE_QOS) =? Z.lor IEEE80211_FC0_TYPE_DATA IEEE80211_FC0_SUBTYPE_QOS in
  let h := [f0; f1] ++ dur ++ a1 ++ a2 ++ a3 ++ sq in
  (blen qos = (if with_qos then if Z.land f1 IEEE80211_FC1_ORDER =? 0 then 2 else 6 else 0) -> dir <> IEEE80211_FC1_DIR_DSTODS ->
     (forall d, ol_rx_frag_hdrsize (h ++ d) = Some (24 + blen qos)) /\
     finish_bytes cfg (24 + blen qos) (h ++ qos ++ llc ++ ty ++ r) =
       Some ((if dir =? IEEE80211_FC1_DIR_TODS then a3 else a1) ++ (if dir =? IEEE80211_FC1_DIR_FROMDS then a3 else a2) ++ ty ++ r)) /\
  (with_qos = false -> dir = IEEE80211_FC1_DIR_DSTODS ->
     finish_bytes cfg 30 (h ++ a4 ++ llc ++ ty ++ r) = Some (drop 2 a3 ++ sq ++ a4 ++ llc ++ ty ++ r)).
Proof.
  intros H3 Hdur Ha1 Ha2 Ha3 Hsq Hllc Hty Ha4 dir with_qos h.
  assert (Hh : blen h = 24) by (unfold h, blen; rewrite !length_app; cbn; lia). split.
  - intros Hqos Hdir. assert (Hseq : forall d, DEFRAG_IEEE80211_QOS_HAS_SEQ (h ++ d) = Some with_qos) by done.
    assert (Hord : forall d, has_order (h ++ d) = Some (negb (Z.land f1 IEEE80211_FC1_ORDER =? 0))) by done. split.
    + intros d. unfold ol_rx_frag_hdrsize. change (fc_dir (h ++ _)) with (Some dir). cbn [mbind option_bind]. rewrite Hseq, Hord. cbn [mbind option_bind].
      rewrite (proj2 (Z.eqb_neq _ _) Hdir), Hqos. destruct with_qos; [destruct (_ =? 0)|]; done.
    + unfold finish_bytes. rewrite H3. unfold ol_rx_defrag_qos_decap. rewrite Hseq. cbn [mbind option_bind].
      destruct with_qos eqn:Hq; cbn [negb].
      * rewrite Hord. cbn [mbind option_bind].
        assert (Hql : (if negb (Z.land f1 IEEE80211_FC1_ORDER =? 0) then 2 + 4 else 2) = blen qos) by (rewrite Hqos; by destruct (_ =? 0)).
        rewrite Hql. rewrite u16_small by (rewrite Hqos; destruct (_ =? 0); lia). replace (24 + blen qos - blen qos) with (blen h) by lia.
        pose proof (drop_over_header h qos (llc ++ ty ++ r) (fun d => f ← i_fc0 d; aset d 0 (Z.land f (Z.lnot IEEE80211_FC0_SUBTYPE_QOS)))) as Hdrop.
        cbv beta in Hdrop. cbv zeta. rewrite Hdrop. cbn [mbind option_bind].
        change (i_fc0 (h ++ _)) with (Some f0). cbn [mbind option_bind]. change (h ++ llc ++ ty ++ r) with ([f0] ++ (f1 :: dur ++ a1 ++ a2 ++ a3 ++ sq) ++ llc ++ ty ++ r).
        rewrite aset_Some by (cbn; lia). cbn [mbind option_bind]. by apply nwifi_spec.
      * assert (qos = []) as -> by (destruct qos; [done|]; unfold blen in Hqos; cbn in Hqos; lia). cbn [app]. by apply nwifi_spec.
  - intros Hq Hdir. unfold finish_bytes. rewrite H3. unfold ol_rx_defrag_qos_decap.
    change (DEFRAG_IEEE80211_QOS_HAS_SEQ (h ++ _)) with (Some with_qos). rewrite Hq. cbn [mbind option_bind negb]. by apply nwifi_four.
Qed.

(** ** The driver's conversions arrive at the frame *)

Lemma octet_cases (P : Z -> bool) b : forallb P (seqZ 0 256) = true -> is_octet b -> P b = true.
Proof. intros H Hb. rewrite forallb_forall in H. apply H, list_elem_of_In, elem_of_seqZ. exact Hb. Qed.

(** The bits of the frame control field as the driver reads them *)
Lemma fc0_bits b : is_octet b -> b / 4 mod 4 = 2 ->
  (Z.land b (Z.lor IEEE80211_FC0_TYPE_MASK IEEE80211_FC0_SUBTYPE_QOS) =? Z.lor IEEE80211_FC0_TYPE_DATA IEEE80211_FC0_SUBTYPE_QOS) = Z.testbit b 7 /\
  (Z.land b IEEE80211_FC0_SUBTYPE_QOS =? 0) = negb (Z.testbit b 7).
Proof.
  intros Hb Hd.
  pose proof (octet_cases (fun b => negb (b / 4 mod 4 =? 2) ||
    (eqb (Z.land b (Z.lor IEEE80211_FC0_TYPE_MASK IEEE80211_FC0_SUBTYPE_QOS) =? Z.lor IEEE80211_FC0_TYPE_DATA IEEE80211_FC0_SUBTYPE_QOS) (Z.testbit b 7) &&
     eqb (Z.land b IEEE80211_FC0_SUBTYPE_QOS =? 0) (negb (Z.testbit b 7)))) b ltac:(vm_compute; reflexivity) Hb) as H.
  cbv beta in H. rewrite Hd in H. cbn [Z.eqb Pos.eqb negb orb] in H. apply andb_prop in H as [H1%eqb_prop H2%eqb_prop]. done.
Qed.
Lemma fc1_bits b : is_octet b ->
  (Z.land b IEEE80211_FC1_DIR_MASK =? IEEE80211_FC1_DIR_NODS) = negb (Z.testbit b 0) && negb (Z.testbit b 1) /\
  (Z.land b IEEE80211_FC1_DIR_MASK =? IEEE80211_FC1_DIR_TODS) = Z.testbit b 0 && negb (Z.testbit b 1) /\
  (Z.land b IEEE80211_FC1_DIR_MASK =? IEEE80211_FC1_DIR_FROMDS) = negb (Z.testbit b 0) && Z.testbit b 1 /\
  (Z.land b IEEE80211_FC1_DIR_MASK =? IEEE80211_FC1_DIR_DSTODS) = Z.testbit b 0 && Z.testbit b 1 /\
  (Z.land b IEEE80211_FC1_ORDER =? 0) = negb (Z.testbit b 7).
Proof.
  intros Hb.
  pose proof (octet_cases (fun b =>
    eqb (Z.land b IEEE80211_FC1_DIR_MASK =? IEEE80211_FC1_DIR_NODS) (negb (Z.testbit b 0) && negb (Z.testbit b 1)) &&
    (eqb (Z.land b IEEE80211_FC1_DIR_MASK =? IEEE80211_FC1_DIR_TODS) (Z.testbit b 0 && negb (Z.testbit b 1)) &&
    (eqb (Z.land b IEEE80211_FC1_DIR_MASK =? IEEE80211_FC1_DIR_FROMDS) (negb (Z.testbit b 0) && Z.testbit b 1) &&
    (eqb (Z.land b IEEE80211_FC1_DIR_MASK =? IEEE80211_FC1_DIR_DSTODS) (Z.testbit b 0 && Z.testbit b 1) &&
    eqb (Z.land b IEEE80211_FC1_ORDER =? 0) (negb (Z.testbit b 7)))))) b ltac:(vm_compute; reflexivity) Hb) as H.
  cbv beta in H. apply andb_prop in H as [H1%eqb_prop H]. apply andb_prop in H as [H2%eqb_prop H]. apply andb_prop in H as [H3%eqb_prop H].
  apply andb_prop in H as [H4%eqb_prop H5%eqb_prop]. done.
Qed.
Lemma cleared_bits b : is_octet b ->
  is_octet (Z.land b (Z.lnot IEEE80211_FC1_MORE_FRAG)) /\
  (forall k, k = 0 \/ k = 1 \/ k = 7 -> Z.testbit (Z.land b (Z.lnot IEEE80211_FC1_MORE_FRAG)) k = Z.testbit b k).
Proof.
  intros Hb. split.
  - pose proof (octet_cases (fun b => (0 <=? Z.land b (Z.lnot IEEE80211_FC1_MORE_FRAG)) && (Z.land b (Z.lnot IEEE80211_FC1_MORE_FRAG) <? 2 ^ 8)) b
      ltac:(vm_compute; reflexivity) Hb) as H. cbv beta in H. apply andb_prop in H as [?%Z.leb_le ?%Z.ltb_lt]. done.
  - intros k Hk. rewrite Z.land_spec. destruct Hk as [->|[->| ->]]; apply andb_true_r.
Qed.

(** The header without its fragment bits *)
Definition cleared (f : sent) : sent := {|
  sf_fc0 := sf_fc0 f; sf_fc1 := Z.land (sf_fc1 f) (Z.lnot IEEE80211_FC1_MORE_FRAG); sf_dur := sf_dur f;
  sf_addr1 := sf_addr1 f; sf_addr2 := sf_addr2 f; sf_addr3 := sf_addr3 f;
  sf_sq := Z.land (hd 0 (sf_sq f)) (Z.lnot IEEE80211_SEQ_FRAG_MASK) :: tl (sf_sq f);
  sf_qos := sf_qos f; sf_llc := sf_llc f; sf_type := sf_type f; sf_rest := sf_rest f |}.

Section Sent.
Variable (f : sent).
Hypothesis (Hf : well_sent f).

Lemma cleared_flags : to_ds (cleared f) = to_ds f /\ from_ds (cleared f) = from_ds f /\ with_qos (cleared f) = with_qos f /\ with_htc (cleared f) = with_htc f.
Proof.
  destruct (cleared_bits (sf_fc1 f) (proj2 (ws_fc f Hf))) as [_ H]. unfold to_ds, from_ds, with_qos, with_htc. cbn [cleared sf_fc0 sf_fc1].
  rewrite !H by auto. done.
Qed.
Lemma well_cleared : well_sent (cleared f).
Proof.
  destruct cleared_flags as (Ht & Hd & Hq & Hh). destruct Hf. split; rewrite ?Ht, ?Hd, ?Hq, ?Hh; cbn [cleared sf_fc0 sf_fc1 sf_dur sf_addr1 sf_addr2 sf_addr3 sf_sq sf_qos sf_llc sf_type]; try done.
  - destruct ws_fc0. split; [done|by apply cleared_bits].
  - destruct (sf_sq f); [done|exact ws_sq0].
Qed.
Lemma cleared_same : destination (cleared f) = destination f /\ source_address (cleared f) = source_address f /\ priority (cleared f) = priority f /\
  pseudo_header (cleared f) = pseudo_header f /\ ethernet (cleared f) = ethernet f.
Proof.
  destruct cleared_flags as (Ht & Hd & Hq & _). unfold pseudo_header, ethernet, destination, source_address, priority. by rewrite Ht, Hd, Hq.
Qed.
Lemma mac_header_length : blen (mac_header f) = 24 + blen (sf_qos f).
Proof. destruct Hf as [? ? ? (? & ? & ?)]. unfold mac_header, blen. rewrite !length_app. cbn [length]. lia. Qed.

(** The header by its places *)
Lemma header_fields d : let h := mac_header f ++ d in
  i_fc0 h = Some (sf_fc0 f) /\ i_fc1 h = Some (sf_fc1 f) /\ i_addr1 h = Some (sf_addr1 f) /\ i_addr2 h = Some (sf_addr2 f) /\ i_addr3 h = Some (sf_addr3 f) /\
  (with_qos f = true -> aget h 24 = Some (hd 0 (sf_qos f))).
Proof.
  destruct Hf as [? ? ? (H1 & H2 & H3) Hdur Hsq Hqos ? ?]. cbv zeta. unfold mac_header. rewrite <- !app_assoc.
  destruct (sf_dur f) as [|d0 [|d1 [|]]]; try discriminate. split_and!; [done..| | | |].
  - apply (slice_at [_; _; d0; d1]); [done|unfold blen; lia].
  - rewrite (app_assoc [d0; d1]), (app_assoc [_; _]). apply slice_at; unfold blen; rewrite ?length_app; cbn [length]; lia.
  - rewrite (app_assoc (sf_addr1 f)), (app_assoc [d0; d1]), (app_assoc [_; _]). apply slice_at; unfold blen; rewrite ?length_app; cbn [length]; lia.
  - intros Hq. rewrite Hq in Hqos. destruct (sf_qos f) as [|q qs]; [by destruct (with_htc f)|].
    set (h := [sf_fc0 f; sf_fc1 f] ++ [d0; d1] ++ sf_addr1 f ++ sf_addr2 f ++ sf_addr3 f ++ sf_sq f).
    assert (Hh : blen h = 24) by (unfold h, blen; rewrite !length_app; cbn [length]; lia).
    replace (_ ++ _) with (h ++ (q :: qs) ++ d) by (unfold h; by rewrite <- !app_assoc). rewrite aget_app_r by lia. by rewrite Hh.
Qed.

(** Its directions in the driver's terms *)
Lemma directions : let dir := Z.land (sf_fc1 f) IEEE80211_FC1_DIR_MASK in
  dir <> IEEE80211_FC1_DIR_DSTODS /\
  (forall A (a b c d : A), (if dir =? IEEE80211_FC1_DIR_NODS then a else if dir =? IEEE80211_FC1_DIR_TODS then b
     else if dir =? IEEE80211_FC1_DIR_FROMDS then c else d) = if to_ds f then b else if from_ds f then c else a) /\
  (dir =? IEEE80211_FC1_DIR_TODS) = to_ds f /\ (dir =? IEEE80211_FC1_DIR_FROMDS) = from_ds f.
Proof.
  cbv zeta. destruct (fc1_bits (sf_fc1 f) (proj2 (ws_fc f Hf))) as (H0 & H1 & H2 & H3 & _). pose proof (ws_three f Hf) as Hthree.
  fold (to_ds f) (from_ds f) in H0, H1, H2, H3. rewrite H0, H1, H2. split_and!.
  - apply Z.eqb_neq. rewrite H3. destruct (to_ds f), (from_ds f); try done. by exfalso; apply Hthree.
  - intros A a b c d. destruct (to_ds f), (from_ds f); try done. by exfalso; apply Hthree.
  - destruct (to_ds f), (from_ds f); try done. by exfalso; apply Hthree.
  - destruct (to_ds f), (from_ds f); try done. by exfalso; apply Hthree.
Qed.

(** The pseudo header of the MIC *)
Lemma michdr_pseudo : ol_rx_defrag_michdr (mac_header f) = Some (pseudo_header f).
Proof.
  destruct (header_fields []) as (Hf0 & Hf1 & H1 & H2 & H3 & Hq). rewrite app_nil_r in *. destruct directions as (_ & Hd & _).
  destruct (fc0_bits _ (proj1 (ws_fc f Hf)) (ws_data f Hf)) as [_ Hqos]. pose proof (ws_three f Hf) as Hthree. fold (with_qos f) in Hqos.
  unfold ol_rx_defrag_michdr, fc_dir. rewrite Hf1. cbn [mbind option_bind]. rewrite !Hd, H1, H2, H3, Hf0.
  unfold pseudo_header, destination, source_address, priority.
  destruct (to_ds f), (from_ds f); [by exfalso; apply Hthree|..]; cbn [mbind option_bind]; rewrite Hqos;
    destruct (with_qos f); cbn [negb]; rewrite ?Hq by done; cbn [mbind option_bind]; try done;
    unfold IEEE80211_QOS_TID; by rewrite (Z.land_ones _ 4) by lia.
Qed.

Lemma clear_header : clear_frag_bits (mac_header f) = Some (mac_header (cleared f)).
Proof.
  destruct (header_fields []) as (_ & Hf1 & _). rewrite app_nil_r in Hf1. unfold clear_frag_bits. rewrite Hf1. cbn [mbind option_bind].
  destruct Hf as [? ? ? (H1 & H2 & H3) Hdur Hsq ? ? ?]. unfold mac_header. cbn [cleared sf_fc0 sf_fc1 sf_dur sf_addr1 sf_addr2 sf_addr3 sf_sq sf_qos].
  destruct (sf_sq f) as [|s0 [|s1 [|]]]; try discriminate. cbn [hd tl].
  rewrite aset_Some by (rewrite !length_app; cbn [length]; lia). cbn [mbind option_bind].
  set (g := Z.land (sf_fc1 f) _).
  set (h := [sf_fc0 f; g] ++ sf_dur f ++ sf_addr1 f ++ sf_addr2 f ++ sf_addr3 f).
  assert (Hh : length h = 22%nat) by (unfold h; rewrite !length_app; cbn [length]; lia).
  replace (<[Z.to_nat 1:=g]> _) with (h ++ [s0; s1] ++ sf_qos f) by (unfold h; rewrite <- !app_assoc; done).
  assert (Hb : blen h = 22) by (unfold blen; lia).
  assert (Hs0 : aget (h ++ [s0; s1] ++ sf_qos f) 22 = Some s0) by (rewrite aget_app_r, Hb by lia; done).
  assert (Hs1 : aget (h ++ [s0; s1] ++ sf_qos f) 23 = Some s1) by (rewrite aget_app_r, Hb by lia; done).
  rewrite Hs0. cbn [mbind option_bind]. rewrite Hs1. cbn [mbind option_bind]. rewrite aset_Some by (rewrite !length_app; cbn [length]; lia).
  rewrite insert_app_r_alt by lia. rewrite Hh. unfold h. rewrite <- !app_assoc. done.
Qed.

(** Removing the QoS field, and the conversion *)
Lemma converted cfg : frm_802_3 cfg = true -> 
  ol_rx_frag_hdrsize (mac_header f) = Some (blen (mac_header f)) /\
  finish_bytes cfg (blen (mac_header f)) (mac_header f ++ msdu f) = Some (ethernet f).
Proof.
  intros H3. destruct directions as (Hdir & _ & Ht & Hd). destruct (fc0_bits _ (proj1 (ws_fc f Hf)) (ws_data f Hf)) as [Hq _]. fold (with_qos f) in Hq.
  destruct (fc1_bits _ (proj2 (ws_fc f Hf))) as (_ & _ & _ & _ & Ho). fold (with_htc f) in Ho.
  destruct Hf as [? ? ? (Ha1 & Ha2 & Ha3) Hdur Hsq Hqos Hllc Hty].
  destruct (proj1 (headers_are_converted cfg (sf_fc0 f) (sf_fc1 f) (sf_dur f) (sf_addr1 f) (sf_addr2 f) (sf_addr3 f) (sf_sq f) (sf_qos f) (sf_addr1 f) (sf_llc f) (sf_type f)
    (sf_rest f) H3 Hdur Ha1 Ha2 Ha3 Hsq Hllc Hty Ha1)) as [Hsize Hfin]; [|exact Hdir|].
  - rewrite Hq, Ho. unfold blen. rewrite Hqos. destruct (with_qos f), (with_htc f); done.
  - rewrite mac_header_length. split; [apply Hsize|]. rewrite Ht, Hd in Hfin. unfold mac_header, msdu. rewrite <- (app_assoc _ (sf_qos f)). exact Hfin.
Qed.
End Sent.

(** ** The MIC behind the data *)

Lemma Michael_octets key d : Forall is_octet (Michael key d).
Proof.
  unfold Michael. destruct (words_of key) as [|l [|r ws]]; [by apply Forall_nil..|]. destruct (foldl _ _ _) as [l1 r1].
  apply Forall_app. split; repeat (apply Forall_cons; split; [apply is_octet_octet|]); by apply Forall_nil.
Qed.
Lemma Michael_length key d : 8 <= blen key -> length (Michael key d) = 8%nat.
Proof.
  intros Hk. unfold Michael. do 8 (destruct key as [|? key]; [unfold blen in Hk; cbn in Hk; lia|]). cbn [words_of]. by destruct (foldl _ _ _).
Qed.
Lemma payload_checked sec key f : well_sent f -> (sec = htt_sec_type_tkip -> 8 <= blen key) ->
  checked_data sec key (mac_header (cleared f)) (payload sec key f) = Some (msdu f).
Proof.
  intros Hf Hk. unfold checked_data, payload. destruct (decide (sec = htt_sec_type_tkip)) as [->|Hne].
  - rewrite (michdr_pseudo _ (well_cleared f Hf)). destruct (cleared_same f Hf) as (_ & _ & _ & -> & _). cbn [mbind option_bind].
    pose proof (Michael_length key (pseudo_header f ++ msdu f) (Hk eq_refl)) as Hl. set (m := Michael _ _) in *.
    replace (length (msdu f ++ m) - 8)%nat with (length (msdu f)) by (rewrite length_app; lia).
    by rewrite take_app_length, drop_app_length, bool_decide_true.
  - rewrite app_nil_r. by destruct sec.
Qed.
