(* ===== verification/DefragProps.v ===== *)
(** * Defragmentation: theorems

    The frame a sender cut into fragments arrives whole, or is dropped for a stated reason; how
    fragments collect in and out of order, the Michael MIC against its definition, the header
    conversions, and the time-outs. *)

From S2P Require Import Prelude HttRxDesc Nbuf RxPn RxReorder Defrag DefragInv DefragMic DefragRun DefragStore DefragFrame.

Local Open Scope c_scope.

#[local] Abbreviation bytes := (list Z).

Lemma StronglySorted_seqZ m n : StronglySorted Z.lt (seqZ m n).
Proof.
  destruct (decide (n <= 0)); [rewrite seqZ_nil by done; constructor|].
  revert m. apply (Z_lt_induction (fun n => forall m, StronglySorted Z.lt (seqZ m n))); [|lia]. clear n n0. intros n IH m.
  destruct (decide (n <= 0)); [rewrite seqZ_nil by done; constructor|]. rewrite seqZ_cons by lia. constructor; [apply IH; lia|].
  apply Forall_forall. intros x Hx%elem_of_seqZ. lia.
Qed.

Section Props.
Context {Dsc : Type} `{RD : RxDescOps Dsc}.
#[local] Abbreviation ST := (df_state Dsc).
#[local] Abbreviation store := (gmap Z (nbuf (frag Dsc))).
Implicit Types (s : ST) (nb : store) (l : list Z).

(** ** Carrying facts over relinking *)

Lemma relinked_bodies X nb nb' l : relinked X nb nb' -> bodies nb' l = bodies nb l.
Proof. intros H. apply bodies_ext. intros x _. by eapply relinked_body. Qed.
Lemma relinked_desc X nb nb' x : relinked X nb nb' -> desc nb' x = desc nb x.
Proof. intros [H _]. specialize (H x). unfold desc. destruct (nb' !! x), (nb !! x); cbn in *; congruence. Qed.

Section Numbers.
Variables (stack_pn : Z -> htt_rx_pn_t) (opmode : wlan_op_mode) (tid : Z) (sec : htt_sec_type) (ucast checking : bool).

Lemma next_numbers_ext nb nb' l last : (forall x, desc nb' x = desc nb x) ->
  next_numbers stack_pn opmode sec ucast checking nb' last l = next_numbers stack_pn opmode sec ucast checking nb last l.
Proof.
  intros H. revert last. induction l as [|x l IH]; intros last; [done|]. cbn. unfold next_number at 1 2.
  rewrite (number_desc stack_pn sec nb nb' x (H x) : number stack_pn sec nb' x = _).
  destruct checking; [|apply IH]. destruct (number stack_pn sec nb x); [|apply IH]. by destruct (is_replay _ _ _); [|apply IH].
Qed.
Lemma desc_fits_ext nb nb' x : relinked [x] nb nb' \/ (exists X, relinked X nb nb') ->
  desc_fits stack_pn sec ucast nb x -> desc_fits stack_pn sec ucast nb' x.
Proof.
  intros Hr (b & Hb & Hf & Hm & b1 & Hb1 & Hok). rewrite Hb in Hb1. injection Hb1 as <-.
  assert (Hd : nb_desc <$> nb' !! x = nb_desc <$> nb !! x) by (destruct Hr as [[H _]|(X & H & _)]; apply H).
  rewrite Hb in Hd. destruct (nb' !! x) as [b'|] eqn:Hb'; [|done]. injection Hd as Hd.
  exists b'. rewrite Hd. split_and!; try done. exists b'. by rewrite Hd.
Qed.

(** The fragments [l] of a frame have descriptors and a key; packet numbers are remembered. *)
Record ready s l (last : option htt_rx_pn_t) : Prop := {
  rd_fits : forall x, x ∈ l -> desc_fits stack_pn sec ucast (nbufs s) x;
  rd_sec : security (df_pn s) !! (if ucast then txrx_sec_ucast else txrx_sec_mcast) = Some sec;
  rd_checks : checks opmode sec s = checking;
  rd_memory : remembers tid checking s last
}.

Lemma ready_handed cfg s s1 v head rest last : ready s (head :: rest) last -> handed_on cfg tid s s1 v (head :: rest) -> NoDup (head :: rest) ->
  list_in stack_pn opmode tid sec ucast checking s1 head rest last.
Proof.
  intros [Hf Hsec Hck Hm] [_ _ Hl Hr Ho] Hnd. pose proof (so_pn _ _ _ Ho) as Hpn. split; try done.
  - intros x Hx. eapply desc_fits_ext; [right; by eexists|]. by apply Hf.
  - by rewrite Hpn.
  - unfold checks. by rewrite Hpn.
  - by eapply remembers_kept.
Qed.
End Numbers.

Section Theorems.
Variables (skb_room : bytes -> bytes -> bool) (stack_pn : Z -> htt_rx_pn_t) (opmode : wlan_op_mode) (cfg : df_conf) (tid : Z) (sec : htt_sec_type) (ucast checking : bool).
Variables (ol_rx_fwd_check ol_rx_deliver ol_rx_in_order_deliver : Z -> Z -> M ST unit).
#[local] Abbreviation defrag := (ol_rx_defrag skb_room stack_pn opmode cfg ol_rx_fwd_check ol_rx_deliver ol_rx_in_order_deliver tid).
#[local] Abbreviation store_frag := (ol_rx_reorder_store_frag skb_room stack_pn opmode cfg ol_rx_fwd_check ol_rx_deliver ol_rx_in_order_deliver tid).

(** The frame as it comes in *)
Lemma sent_frame_in s head rest f p0 hps key :
  well_sent f -> fragments_of sec (blen (mac_header f)) (bodies (nbufs s) (head :: rest)) ((mac_header f, p0) :: hps) ->
  p0 ++ concat (snd <$> hps) = payload sec key f -> blen (payload sec key f) < 65536 ->
  (sec = htt_sec_type_tkip -> michael_key s !! mic_index ucast = Some key /\ 8 <= blen key /\
     Forall is_octet key /\ Forall is_octet (mac_header f) /\ Forall is_octet (msdu f)) ->
  frame_in sec ucast s (blen (mac_header f)) (bodies (nbufs s) (head :: rest)) (mac_header f) (mac_header (cleared f)) p0 hps key.
Proof.
  intros Hf Hfr Hpay Hlen Hkey. assert (H24 : 24 <= blen (mac_header f)) by (rewrite (mac_header_length f Hf); pose proof (blen_nonneg (sf_qos f)); lia).
  split; [done| | |by apply clear_header|].
  - apply (converted f Hf {| safemode := false; full_reorder_offload := false; frm_802_3 := true; defrag_timeout_check := false; timeout_ms := 0; now_ms := 0 |} eq_refl).
  - by rewrite Hpay.
  - intros Ht. destruct (Hkey Ht) as (Hm & Hk8 & Hko & Hho & Hdo). rewrite Hpay. unfold payload. rewrite decide_True by done. split_and!; try done.
    + pose proof (blen_nonneg (msdu f)). pose proof (Michael_length key (pseudo_header f ++ msdu f) Hk8). rewrite blen_app. unfold blen in *. lia.
    + rewrite (michdr_pseudo _ (well_cleared f Hf)). by eexists.
    + by apply (clear_frag_bits_octets (mac_header f)); [|apply clear_header].
    + apply Forall_app. split; [done|apply Michael_octets].
Qed.

(** C29.  A data frame with three addresses, cut into two or more fragments that are protected
    with any of the ciphers and arrive in order, is delivered whole: when the last fragment is
    stored behind the others, and the packet numbers are not refused, the MIC is right and memory
    suffices, the next stage gets one buffer with the Ethernet frame, that is destination, source
    and type from the fields of the frame as it was sent, and all of its data without header,
    IV, trailer, check sequence and MIC; all other buffers are freed, and after the next stage
    returns the slot of the TID is empty.  The MIC is Michael over the frame's destination, source,
    priority and data.  Frames are to be converted to 802.3. *)
Theorem last_fragment_delivers_the_frame s v seq_num l x head rest last last' f p0 hps key (R : ST -> Prop) :
  safemode cfg = false -> frm_802_3 cfg = true ->
  collects tid seq_num s v l -> l <> [] -> l ++ [x] = head :: rest -> NoDup (head :: rest) ->
  Forall (headed (nbufs s)) (head :: rest) -> x <> 0 -> same_frame (body (nbufs s) x) (body (nbufs s) head) = Some true ->
  fno (nbufs s) <$> head :: rest = seqZ 0 (Z.of_nat (length (head :: rest))) -> fmore (nbufs s) x = false ->
  ready stack_pn opmode tid sec ucast checking s (head :: rest) last ->
  next_numbers stack_pn opmode sec ucast checking (nbufs s) last (head :: rest) = Some last' ->
  well_sent f -> fragments_of sec (blen (mac_header f)) (bodies (nbufs s) (head :: rest)) ((mac_header f, p0) :: hps) ->
  p0 ++ concat (snd <$> hps) = payload sec key f -> blen (payload sec key f) < 65536 ->
  (sec = htt_sec_type_tkip -> michael_key s !! mic_index ucast = Some key /\ 8 <= blen key /\
     Forall is_octet key /\ Forall is_octet (mac_header f) /\ Forall is_octet (msdu f)) ->
  all_fit skb_room (mac_header f ++ p0) (snd <$> hps) = true ->
  (forall s1 s2, handed_on cfg tid s s1 v (head :: rest) -> frame_out tid checking s1 head rest (ethernet f) last' s2 ->
     runs (ol_rx_fwd_check tid head) s2 (fun _ s3 => df_reorder s3 = df_reorder s2 /\ is_Some (aget (df_last_seq s3) tid) /\ R s3)) ->
  runs (store_frag seq_num x) s (fun _ s' => exists s3, R s3 /\ slot_emptied cfg tid seq_num v s3 s').
Proof.
  intros Hsafe H3 Hco Hne Heq Hnd Hh Hx0 Hsame Hno Hmore Hready Hnum Hf Hfr Hpay Hlen Hkey Hfit Hfwd.
  assert (Hhd : hd 0 l = head) by (destruct l; [done|by injection Heq]).
  destruct (converted _ (well_cleared f Hf) cfg H3) as [_ Hfin]. destruct (converted _ Hf cfg H3) as [Hsize _].
  destruct (cleared_same f Hf) as (_ & _ & _ & _ & Heth). rewrite Heth, (clear_frag_bits_length _ _ (clear_header f Hf)) in Hfin.
  eapply runs_mono; [eapply (store_next cfg tid seq_num skb_room stack_pn opmode ol_rx_fwd_check ol_rx_deliver ol_rx_in_order_deliver s v l x R);
    rewrite ?Heq, ?Hhd; try done|].
  - rewrite Hno. apply StronglySorted_seqZ.
  - rewrite Hno, Hmore, bool_decide_true by done. intros _ s1 Hho. cbn [hd].
    pose proof (ho_relinked _ _ _ _ _ _ Hho) as Hr. pose proof (ready_handed _ _ _ _ _ _ _ _ _ _ _ _ _ Hready Hho Hnd) as Hin.
    eapply (defrag_result) with (hs := blen (mac_header f)) (h0 := mac_header f) (h0' := mac_header (cleared f)) (p0 := p0) (hps := hps) (key := key);
      [exact Hsafe|exact Hin| |].
    + apply (sent_frame_in s1 head rest f p0 hps key); rewrite ?(relinked_bodies _ _ _ _ Hr), ?(so_key _ _ _ (ho_only _ _ _ _ _ _ Hho)); done.
    + unfold numbers. rewrite (next_numbers_ext _ _ _ _ _ _ _ _ _ (fun y => relinked_desc _ _ _ y Hr)), Hnum, Hfit, Hpay, payload_checked by (try done; apply Hkey).
      exists (ethernet f). split; [exact Hfin|]. intros s2 Hout. eapply runs_mono; [by eapply Hfwd|]. intros _ s3 (Hr3 & Hq3 & HR).
      split_and!; try done. rewrite Hr3. apply (fo_kept _ _ _ _ _ _ _ _ Hout).
  - cbv beta zeta. intros _ s'. rewrite Heq, Hno, Hmore, bool_decide_true by done. done.
Qed.

(** C30.  A refused packet number, a wrong MIC or lack of memory drops the frame: every fragment of
    the list is freed, nothing reaches the next stage, and one error is reported for a buffer of
    the list unless it was memory that lacked.  No other buffer, slot, wait list, key or TID
    changes.  What does change is this TID's memory of packet numbers, and the counts of replays:
    when no number was refused the numbers of the dropped frame are remembered all the same. *)
Theorem bad_fragments_drop_the_frame s head l last hs h0 h0' p0 hps key :
  safemode cfg = false -> list_in stack_pn opmode tid sec ucast checking s head l last ->
  frame_in sec ucast s hs (bodies (nbufs s) (head :: l)) h0 h0' p0 hps key ->
  let numbered := next_numbers stack_pn opmode sec ucast checking (nbufs s) last (head :: l) in
  let fits := all_fit skb_room (h0 ++ p0) (snd <$> hps) in
  numbered = None \/ fits = false \/ checked_data sec key h0' (p0 ++ concat (snd <$> hps)) = None ->
  runs (defrag head) s (fun _ s' => (forall x, x ∈ head :: l -> nbufs s' !! x = None) /\ kept_but tid (head :: l) s s' /\
    (forall last', numbered = Some last' -> remembers tid checking s' last') /\
    ((exists x, x ∈ head :: l /\ rx_errs (df_pn s') = (tid, x) :: rx_errs (df_pn s)) \/
     (fits = false /\ rx_errs (df_pn s') = rx_errs (df_pn s)))).
Proof.
  intros Hsafe Hin Hfr numbered fits Hbad. eapply defrag_result; [exact Hsafe|exact Hin|exact Hfr|].
  unfold numbers. fold numbered. destruct numbered as [last'|] eqn:Hn.
  - fold fits. destruct fits eqn:Hf.
    + destruct Hbad as [Hbad|[Hbad|Hbad]]; [done|done|]. rewrite Hbad. intros s' [Hk Hg He Hm]. split_and!; [exact Hg|exact Hk| |].
      * intros ? [= <-]. exact Hm.
      * left. exists head. split; [set_solver|exact He].
    + intros s' [Hk Hg He Hm]. split_and!; [exact Hg|exact Hk| |by right]. intros ? [= <-]. exact Hm.
  - intros s' (Hk & Hg & He). split_and!; [exact Hg|exact Hk|done|]. by left.
Qed.

(** C31.  What an arriving fragment does to the fragments of a TID, kept in ascending order.  One
    of another frame drops them all and takes their place; one that came before is dropped; one
    above all others goes to the end, and then the list is handed to [ol_rx_defrag] if it has
    all numbers from 0 on and the last has no fragments after it, else it waits.  A new fragment
    below one that is there is not covered: [out_of_order_fragment_is_misplaced]. *)
Theorem fragments_collect_in_order s v seq_num l x (R : ST -> Prop) :
  collects tid seq_num s v l -> l <> [] -> NoDup (l ++ [x]) -> Forall (headed (nbufs s)) (l ++ [x]) -> x <> 0 ->
  StronglySorted Z.lt (fno (nbufs s) <$> l) ->
  (same_frame (body (nbufs s) x) (body (nbufs s) (hd 0 l)) = Some false ->
     runs (store_frag seq_num x) s (fun _ s' => kept_waiting cfg tid s s' v [x] /\ forall y, y ∈ l -> nbufs s' !! y = None)) /\
  (same_frame (body (nbufs s) x) (body (nbufs s) (hd 0 l)) = Some true ->
     fno (nbufs s) x ∈ fno (nbufs s) <$> l ->
     runs (store_frag seq_num x) s (fun _ s' => kept_waiting cfg tid s s' v l /\ nbufs s' !! x = None)) /\
  (same_frame (body (nbufs s) x) (body (nbufs s) (hd 0 l)) = Some true ->
     (forall y, y ∈ l -> fno (nbufs s) y < fno (nbufs s) x) ->
     let whole := negb (fmore (nbufs s) x) && bool_decide (fno (nbufs s) <$> l ++ [x] = seqZ 0 (Z.of_nat (length (l ++ [x])))) in
     (whole = true -> forall s1, handed_on cfg tid s s1 v (l ++ [x]) ->
        runs (defrag (hd 0 l)) s1 (fun _ s2 => df_reorder s2 = df_reorder s1 /\ is_Some (aget (df_last_seq s2) tid) /\ R s2)) ->
     runs (store_frag seq_num x) s (fun _ s' =>
       if whole then exists s2, R s2 /\ slot_emptied cfg tid seq_num v s2 s' else kept_waiting cfg tid s s' v (l ++ [x]))).
Proof.
  intros Hco Hne Hnd Hh Hx0 Hsort. assert (Hx : headed (nbufs s) x) by (rewrite Forall_forall in Hh; apply Hh; set_solver).
  split_and!.
  - intros Hsame. eapply runs_mono; [by eapply store_other|]. intros _ s' (H1 & H2 & _). done.
  - intros Hsame (y & Heq & (a & c & ->)%list_elem_of_split)%list_elem_of_fmap.
    eapply runs_mono; [by eapply store_again|]. intros _ s' [H1 ->]. by rewrite lookup_delete_eq.
  - intros Hsame Hlt whole HQ. assert (Hhd : hd 0 (l ++ [x]) = hd 0 l) by by destruct l.
    eapply store_next; rewrite ?Hhd; try done. rewrite fmap_app. apply StronglySorted_app_2; [|done|repeat constructor].
    intros n1 n2 (y & -> & Hy)%list_elem_of_fmap Hn2. cbn in Hn2. apply list_elem_of_singleton in Hn2 as ->. by apply Hlt.
Qed.

End Theorems.

(** C32.  [ol_rx_defrag_mic] over the data of one or more buffers of octets is the standard's
    Michael over the pseudo header and the data.  The buffers after the first have four bytes or
    more, and the bytes after the last whole word of the data, if any, lie in the last buffer, as
    they do for the single buffer of a recombined frame; buffers may end within a word anywhere
    else.  Where the last bytes themselves are split the code reads past the end of a buffer:
    [mic_split_tail_is_undefined]. *)
Theorem ol_rx_defrag_mic_is_michael s p b nxts key off len hdr :
  nbufs s !! p = Some b -> lseg (nbufs s) (nb_next b) nxts 0 -> NoDup nxts ->
  ol_rx_defrag_michdr (body (nbufs s) p) = Some hdr -> 8 <= blen key ->
  0 <= off <= blen (body (nbufs s) p) -> blen (body (nbufs s) p) < 2 ^ 32 ->
  Forall (fun d => 4 <= blen d) (bodies (nbufs s) nxts) ->
  Forall is_octet key -> Forall (Forall is_octet) (body (nbufs s) p :: bodies (nbufs s) nxts) ->
  let ds := drop (Z.to_nat off) (body (nbufs s) p) :: bodies (nbufs s) nxts in
  0 <= len < 65536 -> len <= blen (concat ds) -> ends_in_last ds len ->
  runs (ol_rx_defrag_mic key p off len) s (fun out s' => s' = s /\ out = Some (Michael key (hdr ++ take (Z.to_nat len) (concat ds)))).
Proof.
  intros Hb Hl Hnd Hhdr Hk8 Hoff H32 H4 Hko Hoct ds Hlen Htot He. apply Forall_cons in Hoct as [Hp Hn].
  rewrite <- michael_is_Michael; [by eapply mic_spec|done|].
  apply Forall_app. split; [by apply (michdr_octets (body (nbufs s) p))|]. apply Forall_take, Forall_concat, Forall_cons. split; [by apply Forall_drop|done].
Qed.

(** ** Out of order *)

Lemma first_not_below nb l k t : t ∈ l -> k <= fno nb t ->
  exists a y c, l = a ++ y :: c /\ Forall (fun z => fno nb z < k) a /\ k <= fno nb y.
Proof.
  induction l as [|z l IH]; intros Ht Hk; [set_solver|]. destruct (decide (k <= fno nb z)) as [Hz|Hz].
  - exists [], z, l. by split_and!.
  - apply elem_of_cons in Ht as [->|Ht]; [done|]. destruct (IH Ht Hk) as (a & y & c & -> & Ha & Hy).
    exists (z :: a), y, c. split_and!; [done| |done]. constructor; [lia|done].
Qed.

(** A fragment that arrives after one with a higher number is put behind it, and the tail of
    the list stays where it was: the numbers no longer ascend, so that the frame is never
    recombined in order.  If it has number 1 and meets a single last fragment the list even passes
    for complete, with fragment 0 missing. *)
Theorem out_of_order_fragment_is_misplaced s head l t x :
  lseg (nbufs s) head l 0 -> last l = Some t -> NoDup (x :: l) -> Forall (headed (nbufs s)) (x :: l) -> x <> 0 ->
  StronglySorted Z.lt (fno (nbufs s) <$> l) -> fno (nbufs s) x ∉ fno (nbufs s) <$> l -> fno (nbufs s) x < fno (nbufs s) t ->
  runs (ol_rx_fraglist_insert head t x) s (fun r s' => exists a y c present, l = a ++ y :: c /\ fno (nbufs s) x < fno (nbufs s) y /\
    lseg (nbufs s') head (a ++ y :: x :: c) 0 /\ r = (head, t, present) /\
    (present = true <-> l = [y] /\ fno (nbufs s) x = 1 /\ fmore (nbufs s) y = false)).
Proof.
  intros Hl Ht Hnd Hh Hx0 Hsort Hnew Hlt. assert (Htl : t ∈ l) by (apply last_Some in Ht as (l' & ->); set_solver).
  destruct (first_not_below (nbufs s) l (fno (nbufs s) x) t Htl (Z.lt_le_incl _ _ Hlt)) as (a & y & c & Hsplit & Ha & Hy).
  assert (Hxy : fno (nbufs s) x <> fno (nbufs s) y).
  { intros H. apply Hnew. rewrite H. apply list_elem_of_fmap. exists y. split; [done|]. rewrite Hsplit. set_solver. }
  rewrite Hsplit in Hl, Hnd, Hh. eapply runs_mono; [eapply (insert_below s head t a y c x); [exact Hl|exact Hnd|exact Hh|exact Hx0|by rewrite <- Hsplit|lia|exact Ha|exact Hy]|].
  rewrite (proj2 (Z.eqb_neq _ _) Hxy). intros r s' (nb' & -> & Hr & Hl' & ->). exists a, y, c. eexists. split_and!; [done|lia|exact Hl'|done|].
  unfold looks_complete. rewrite andb_true_iff, negb_true_iff, bool_decide_eq_true.
  rewrite Hsplit, fmap_app, fmap_cons in Hsort. apply StronglySorted_app in Hsort as (Hac & _ & Hyc). apply StronglySorted_cons in Hyc as [Hyc _]. rewrite Forall_forall in Hyc.
  pose proof (headed_no (nbufs s) x ltac:(rewrite Forall_forall in Hh; apply Hh; set_solver)) as [_ Hxr]. split.
  - intros [Hmore Hnum]. destruct a as [|h a].
    + cbn [app tl] in Hnum. destruct c as [|z c].
      * rewrite Hsplit in Ht. injection Ht as <-. cbn in Hnum. injection Hnum as Hx1. by rewrite Hsplit.
      * exfalso. assert (Hxi : (fno (nbufs s) <$> x :: z :: c) !! 0%nat = Some (fno (nbufs s) x)) by done.
        assert (Hzi : (fno (nbufs s) <$> x :: z :: c) !! 1%nat = Some (fno (nbufs s) z)) by done.
        rewrite Hnum in Hxi, Hzi. apply lookup_seqZ in Hxi as [Hxi _], Hzi as [Hzi _].
        assert (Hyz : fno (nbufs s) y < fno (nbufs s) z) by (apply Hyc; set_solver). lia.
    + exfalso. cbn [app tl] in Hnum. assert (Hyi : (fno (nbufs s) <$> a ++ y :: x :: c) !! length a = Some (fno (nbufs s) y)).
      { by rewrite list_lookup_fmap, list_lookup_middle. }
      assert (Hxi : (fno (nbufs s) <$> a ++ y :: x :: c) !! S (length a) = Some (fno (nbufs s) x)).
      { rewrite list_lookup_fmap, lookup_app_r by lia. by replace (S (length a) - length a)%nat with 1%nat by lia. }
      rewrite Hnum in Hyi, Hxi. apply lookup_seqZ in Hyi as [Hyi _], Hxi as [Hxi _]. lia.
  - intros (Hone & Hx1 & Hmore). rewrite Hsplit in Hone. destruct a as [|h a]; [|by destruct a]. injection Hone as ->.
    rewrite Hsplit in Ht. injection Ht as <-. split; [done|]. cbn [app tl length]. rewrite fmap_cons, Hx1. done.
Qed.

(** ** Time-outs *)

(** [ol_rx_defrag_waitlist_flush] goes along the wait list up to the first TID whose time has
    not come.  It frees the fragments of exactly the TIDs before that, takes them off the list and
    empties their slots; all other TIDs and buffers stay as they are. *)
Theorem ol_rx_defrag_waitlist_flush_stale F T now s : waiting F T s ->
  runs (ol_rx_defrag_waitlist_flush now) s (fun _ s' => flushed F T now s s').
Proof.
  intros Hw. unfold ol_rx_defrag_waitlist_flush. do 2 mstep. by apply (waitlist_flush_loop F T now (df_waitlist s) s s); [| |lia|].
Qed.
End Props.

(** ** Examples *)

Lemma octets_dec d : forallb (fun b => (0 <=? b) && (b <? 256)) d = true -> Forall is_octet d.
Proof.
  intros H. apply Forall_forall. intros b Hb. rewrite forallb_forall in H. apply list_elem_of_In, H, andb_prop in Hb as [?%Z.leb_le ?%Z.ltb_lt]. done.
Qed.

(** Fragment [k] of a QoS frame from the distribution system with the sequence number 5 *)
Definition ex_header (more k : Z) : bytes :=
  [0x88; 0x42 + more] ++ [0; 0] ++ [2; 0; 0; 0; 0; 1] ++ [2; 0; 0; 0; 0; 2] ++ [2; 0; 0; 0; 0; 3] ++ [0x50 + k; 0] ++ [0; 0].
Definition ex_fragment (more k : Z) (p : bytes) : bytes :=
  (ex_header more k ++ [5; 0; 0; 0x20; 0; 0; 0; 0] ++ p ++ replicate 8 7) ++ replicate 4 9.
Definition ex_tkip_fragment (more k : Z) (p : bytes) : bytes :=
  (ex_header more k ++ [5; 0; 0; 0x20; 0; 0; 0; 0] ++ p ++ replicate 4 7) ++ replicate 4 9.
(** Buffers have room for a hundred bytes. *)
Definition ex_room (d e : bytes) : bool := blen (d ++ e) <=? 100.
Definition ex_p0 : bytes := [0xaa; 0xaa; 3; 0; 0; 0; 8; 0; 1; 2; 3].
Definition ex_p1 : bytes := [4; 5].
Definition ex_key : bytes := [1; 2; 3; 4; 5; 6; 7; 8].
(** The frame that fragment 0 with [ex_p0] begins *)
Definition ex_sent : sent := {|
  sf_fc0 := 0x88; sf_fc1 := 0x46; sf_dur := [0; 0]; sf_addr1 := [2; 0; 0; 0; 0; 1]; sf_addr2 := [2; 0; 0; 0; 0; 2]; sf_addr3 := [2; 0; 0; 0; 0; 3];
  sf_sq := [0x50; 0]; sf_qos := [0; 0]; sf_llc := [0xaa; 0xaa; 3; 0; 0; 0]; sf_type := [8; 0]; sf_rest := [1; 2; 3; 4; 5] |}.
(** The rest of the data and the MIC *)
Definition ex_p1_mic : bytes := ex_p1 ++ [104; 27; 167; 69; 114; 55; 111; 123].
Definition ex_buf (next pn : Z) (d : bytes) : nbuf (frag htt_host_rx_desc_base) :=
  {| nb_next := next; nb_desc := {| fr_desc := ex_desc pn 1 1; fr_bytes := d |} |}.
Definition ex_tid (head tail : Z) (wait : bool) (t tid : Z) : ol_rx_reorder_t :=
  {| win_sz := 0; win_sz_mask := 0; num_mpdus := 0; array := None; base := {| el_head := head; el_tail := tail |};
     on_waitlist := wait; defrag_timeout_ms := t; rr_tid := tid |}.
Definition ex_defrag_sec (sec : htt_sec_type) (h : gmap Z (nbuf (frag htt_host_rx_desc_base))) (rr : list ol_rx_reorder_t) (wl : list Z) : df_state htt_host_rx_desc_base := {|
  df_pn := {| pn_bufs := h; fw_pn_check := 0; security := [sec; sec];
     tids_last_pn := replicate 19 (ex_pn 4); tids_last_pn_valid := replicate 19 1; pn_replays := [0; 0; 0]; rx_errs := [] |};
  df_reorder := rr; df_waitlist := wl; df_last_seq := replicate 19 0; michael_key := [ex_key; ex_key] |}.
Definition ex_defrag := ex_defrag_sec htt_sec_type_aes_ccmp.
Definition ex_cfg : df_conf :=
  {| safemode := false; full_reorder_offload := false; frm_802_3 := true; defrag_timeout_check := true; timeout_ms := 100; now_ms := 1000 |}.

(** Fragment 0 waits, fragment 1 arrives with the packet number [pn]; they have TKIP. *)
Definition ex_frags (pn : Z) := ex_defrag_sec htt_sec_type_tkip (<[1 := ex_buf 0 5 (ex_tkip_fragment 4 0 ex_p0)]> (<[2 := ex_buf 0 pn (ex_tkip_fragment 0 1 ex_p1_mic)]> ∅))
  [ex_tid 1 1 false 0 0] [].
Definition ex_view : tid_view := view (ex_tid 1 1 false 0 0).

Lemma ex_fragment_of more k p : fragment_of htt_sec_type_aes_ccmp (ex_header more k) p (ex_fragment more k p).
Proof. exists [5; 0; 0; 0x20; 0; 0; 0; 0], (replicate 8 7), (replicate 4 9). split_and!; try done. intros _. by exists 0x20. Qed.
Lemma ex_tkip_fragment_of more k p : fragment_of htt_sec_type_tkip (ex_header more k) p (ex_tkip_fragment more k p).
Proof. exists [5; 0; 0; 0x20; 0; 0; 0; 0], (replicate 4 7), (replicate 4 9). split_and!; try done. intros _. by exists 0x20. Qed.

Lemma ex_frame_in (s : df_state htt_host_rx_desc_base) :
  frame_in htt_sec_type_aes_ccmp true s 26 [ex_fragment 4 0 ex_p0; ex_fragment 0 1 ex_p1] (ex_header 4 0) (ex_header 0 0) ex_p0 [(ex_header 0 1, ex_p1)] [].
Proof.
  split.
  - repeat (constructor; [split; [done|apply ex_fragment_of]|]). constructor.
  - done.
  - by split.
  - vm_compute. reflexivity.
  - done.
Qed.
Lemma ex_well_sent : well_sent ex_sent.
Proof. split; try done. vm_compute. by intros [? ?]. Qed.
Lemma ex_ready pn : ready ex_pn wlan_op_mode_sta 0 htt_sec_type_tkip true true (ex_frags pn) [1; 2] (Some (ex_pn 4)).
Proof.
  split; [|done|done|].
  - intros x [->|[->|[]%elem_of_nil]%elem_of_cons]%elem_of_cons; (eexists; split_and!; [reflexivity|reflexivity|reflexivity|];
      eexists; split; [reflexivity|]; right; split; [reflexivity|by eexists]).
  - exists 1. split; [done|done|]. split; [done|]. repeat constructor; done.
Qed.

Lemma ex_collects pn : collects 0 5 (ex_frags pn) ex_view [1].
Proof. split; [by eexists|done|done| |set_solver]. cbn. split_and!; [done..|]. by eexists. Qed.
Lemma ex_headed pn : Forall (headed (nbufs (ex_frags pn))) [1; 2].
Proof. repeat (apply Forall_cons; split; [split; [by eexists|vm_compute; discriminate]|]). by apply Forall_nil. Qed.
Lemma ex_nodup : NoDup [1; 2].
Proof. repeat constructor; set_solver. Qed.

Lemma last_fragment_delivers_the_frame_witness :
  runs (ol_rx_reorder_store_frag ex_room ex_pn wlan_op_mode_sta ex_cfg (fun _ _ => mreturn tt) (fun _ _ => mreturn tt) (fun _ _ => mreturn tt) 0 5 2) (ex_frags 6)
    (fun _ s' => body (nbufs s') 1 = [2; 0; 0; 0; 0; 1; 2; 0; 0; 0; 0; 3; 8; 0; 1; 2; 3; 4; 5] /\ nbufs s' !! 2 = None /\
       exists r, aget (df_reorder s') 0 = Some r /\ aget (elems_of r) 0 = Some null_elem).
Proof.
  eapply runs_mono.
  - eapply (last_fragment_delivers_the_frame ex_room ex_pn wlan_op_mode_sta ex_cfg 0 htt_sec_type_tkip true true (fun _ _ => mreturn tt) (fun _ _ => mreturn tt)
      (fun _ _ => mreturn tt) (ex_frags 6) ex_view 5 [1] 2 1 [2] (Some (ex_pn 4)) (Some (ex_pn 6)) ex_sent ex_p0
      [(ex_header 0 1, ex_p1_mic)] ex_key
      (fun s3 => body (nbufs s3) 1 = [2; 0; 0; 0; 0; 1; 2; 0; 0; 0; 0; 3; 8; 0; 1; 2; 3; 4; 5] /\ nbufs s3 !! 2 = None)).
    + done.
    + done.
    + apply ex_collects.
    + done.
    + done.
    + apply ex_nodup.
    + apply ex_headed.
    + done.
    + vm_compute. reflexivity.
    + vm_compute. reflexivity.
    + vm_compute. reflexivity.
    + apply ex_ready.
    + vm_compute. reflexivity.
    + apply ex_well_sent.
    + repeat (constructor; [split; [done|apply ex_tkip_fragment_of]|]). constructor.
    + vm_compute. reflexivity.
    + vm_compute. reflexivity.
    + intros _. split_and!; [done|vm_compute; discriminate|..]; apply octets_dec; vm_compute; reflexivity.
    + vm_compute. reflexivity.
    + intros s1 s2 Hho Hout. pose proof (fo_head _ _ _ _ _ _ _ _ Hout) as (b & _ & Hb). pose proof (fo_kept _ _ _ _ _ _ _ _ Hout) as Hk. mstep.
      split; [done|]. split; [|split].
      * rewrite (kb_last_seq _ _ _ _ Hk), (so_last_seq _ _ _ (ho_only _ _ _ _ _ _ Hho)). by eexists.
      * by rewrite (body_lookup _ _ _ Hb).
      * apply (fo_gone _ _ _ _ _ _ _ _ Hout). set_solver.
  - intros _ s' (s3 & [Hb Hg] & Hse). change (nbufs s') with (pn_bufs (df_pn s')). rewrite (se_pn _ _ _ _ _ _ Hse). split_and!; [exact Hb|exact Hg|].
    destruct (se_at _ _ _ _ _ _ Hse) as (r & Hr & Hv). exists r. split; [done|]. by injection Hv.
Defined.

(** The packet number 5 comes a second time. *)
Definition ex_replayed := ex_defrag (<[1 := ex_buf 2 5 (ex_fragment 4 0 ex_p0)]> (<[2 := ex_buf 0 5 (ex_fragment 0 1 ex_p1)]> ∅))
  [ex_tid 1 2 false 0 0] [].
Lemma bad_fragments_drop_the_frame_witness :
  runs (ol_rx_defrag ex_room ex_pn wlan_op_mode_sta ex_cfg (fun _ _ => undefined) (fun _ _ => undefined) (fun _ _ => undefined) 0 1) ex_replayed
    (fun _ s' => nbufs s' !! 1 = None /\ nbufs s' !! 2 = None).
Proof.
  eapply runs_mono.
  - apply (bad_fragments_drop_the_frame ex_room ex_pn wlan_op_mode_sta ex_cfg 0 htt_sec_type_aes_ccmp true true (fun _ _ => undefined) (fun _ _ => undefined)
      (fun _ _ => undefined) ex_replayed 1 [2] (Some (ex_pn 4)) 26 (ex_header 4 0) (ex_header 0 0) ex_p0 [(ex_header 0 1, ex_p1)] []).
    + done.
    + split; [|apply ex_nodup| |done|done|].
      * cbn. split_and!; [done..|]. eexists. split; [reflexivity|]. split_and!; [done..|]. eexists. split; reflexivity.
      * intros x [->|[->|[]%elem_of_nil]%elem_of_cons]%elem_of_cons; (eexists; split_and!; [reflexivity|reflexivity|reflexivity|];
          eexists; split; [reflexivity|]; right; split; [reflexivity|by eexists]).
      * exists 1. split; [done|done|]. split; [done|]. repeat constructor; done.
    + apply ex_frame_in.
    + left. vm_compute. done.
  - intros _ s' (Hg & _). split; apply Hg; set_solver.
Defined.

(** Fragment 0 comes again. *)
Definition ex_again := ex_defrag (<[1 := ex_buf 0 5 (ex_fragment 4 0 ex_p0)]> (<[2 := ex_buf 0 6 (ex_fragment 4 0 ex_p0)]> ∅))
  [ex_tid 1 1 false 0 0] [].
Lemma fragments_collect_in_order_witness :
  runs (ol_rx_reorder_store_frag ex_room ex_pn wlan_op_mode_sta ex_cfg (fun _ _ => undefined) (fun _ _ => undefined) (fun _ _ => undefined) 0 5 2) ex_again
    (fun _ s' => df_waitlist s' = [0] /\ nbufs s' !! 2 = None).
Proof.
  eapply runs_mono.
  - refine (proj1 (proj2 (fragments_collect_in_order ex_room ex_pn wlan_op_mode_sta ex_cfg 0 (fun _ _ => undefined) (fun _ _ => undefined) (fun _ _ => undefined)
      ex_again ex_view 5 [1] 2 (fun _ => True) _ _ _ _ _ _)) _ _).
    + split; [by eexists|done|done| |set_solver]. cbn. split_and!; [done..|]. by eexists.
    + done.
    + apply ex_nodup.
    + repeat (apply Forall_cons; split; [split; [by eexists|vm_compute; discriminate]|]). by apply Forall_nil.
    + done.
    + repeat constructor.
    + vm_compute. reflexivity.
    + apply list_elem_of_fmap. exists 1. split; [vm_compute; reflexivity|set_solver].
  - intros _ s' [Hk Hg]. split; [|exact Hg]. by rewrite (kw_waitlist _ _ _ _ _ _ Hk).
Defined.

(** The MIC of five bytes that begin in one buffer and end in the next *)
Definition ex_split := ex_defrag (<[1 := ex_buf 2 0 (ex_header 0 0 ++ [1])]> (<[2 := ex_buf 0 0 [2; 3; 4; 5]]> ∅)) [] [].
Lemma ol_rx_defrag_mic_is_michael_witness :
  runs (ol_rx_defrag_mic ex_key 1 26 5) ex_split (fun out s' =>
    out = Some (Michael ex_key ([2; 0; 0; 0; 0; 1; 2; 0; 0; 0; 0; 3; 0; 0; 0; 0] ++ [1; 2; 3; 4; 5]))).
Proof.
  eapply runs_mono.
  - apply (ol_rx_defrag_mic_is_michael ex_split 1 (ex_buf 2 0 (ex_header 0 0 ++ [1])) [2] ex_key 26 5 [2; 0; 0; 0; 0; 1; 2; 0; 0; 0; 0; 3; 0; 0; 0; 0]).
    + reflexivity.
    + cbn. split_and!; [done..|]. eexists. split; reflexivity.
    + repeat constructor; set_solver.
    + vm_compute. reflexivity.
    + vm_compute. discriminate.
    + zcompute.
    + zcompute.
    + repeat constructor. vm_compute. discriminate.
    + apply octets_dec. vm_compute. reflexivity.
    + repeat (apply Forall_cons; split; [apply octets_dec; vm_compute; reflexivity|]). by apply Forall_nil.
    + lia.
    + vm_compute. discriminate.
    + right. right. zcompute.
  - cbn beta. intros out s' [_ ->]. reflexivity.
Defined.

(** Of two bytes the second is in the next buffer: it is read behind the first. *)
Example mic_split_tail_is_undefined : ol_rx_defrag_mic ex_key 1 26 2 ex_split = None.
Proof. vm_compute. reflexivity. Qed.

(** Fragment 1 arrives after the last one, number 2: the list passes for complete. *)
Definition ex_late := ex_defrag (<[1 := ex_buf 0 5 (ex_fragment 0 2 ex_p0)]> (<[2 := ex_buf 0 6 (ex_fragment 4 1 ex_p1)]> ∅)) [ex_tid 1 1 false 0 0] [].
Lemma out_of_order_fragment_is_misplaced_witness :
  runs (ol_rx_fraglist_insert 1 1 2) ex_late (fun r s' => r = (1, 1, true) /\ lseg (nbufs s') 1 [1; 2] 0).
Proof.
  eapply runs_mono.
  - apply (out_of_order_fragment_is_misplaced ex_late 1 [1] 1 2).
    + cbn. split_and!; [done..|]. by eexists.
    + done.
    + repeat constructor; set_solver.
    + repeat (apply Forall_cons; split; [split; [by eexists|vm_compute; discriminate]|]). by apply Forall_nil.
    + done.
    + repeat constructor.
    + vm_compute. intros H. by inversion H as [|? ? ? H']; inversion H'.
    + zcompute.
  - intros r s' (a & y & c & present & Hl & _ & Hlist & -> & Hp). destruct a as [|? a]; [|by destruct a].
    injection Hl as <- <-. rewrite (proj2 Hp); [done|]. vm_compute. done.
Defined.

(** TID 0 waits until 50, TID 1 until 70; it is 60. *)
Definition ex_waiting := ex_defrag (<[1 := ex_buf 0 5 (ex_fragment 4 0 ex_p0)]> (<[2 := ex_buf 0 6 (ex_fragment 4 0 ex_p0)]> ∅))
  [ex_tid 1 1 true 50 0; ex_tid 2 2 true 70 1] [0; 1].
Lemma ol_rx_defrag_waitlist_flush_stale_witness :
  runs (ol_rx_defrag_waitlist_flush 60) ex_waiting (fun _ s' => df_waitlist s' = [1] /\ nbufs s' !! 1 = None /\ is_Some (nbufs s' !! 2)).
Proof.
  eapply runs_mono.
  - apply (ol_rx_defrag_waitlist_flush_stale (fun t => [t + 1]) (fun t => 50 + 20 * t) 60 ex_waiting). split.
    + repeat constructor; set_solver.
    + intros t [->|[->|[]%elem_of_nil]%elem_of_cons]%elem_of_cons; (split; [done|]; eexists; split; [eexists; split; reflexivity|];
        split_and!; [reflexivity|reflexivity|reflexivity|reflexivity|cbn; split_and!; [done..|]; by eexists|apply NoDup_singleton]).
    + intros t u x _ _ Hne Hx. set_solver by lia.
  - intros _ s' (Hwl & Hb & _). vm_compute (stale _ _ _) in Hwl, Hb. cbn [df_waitlist ex_waiting ex_defrag] in Hwl. injection Hwl as Hwl.
    split_and!; [done|by rewrite Hb|]. rewrite Hb. by eexists.
Defined.
