(* ===== verification/TxSched.v ===== *)
(** * The tx queues and the download scheduler

    Models the high-latency tx path between the classifier and the target: the tx queues of
    [CORE/CLD_TXRX/TXRX/ol_tx_queue.c] (enqueue, dequeue, discard, free, pause) and the
    weighted round robin scheduler of [ol_tx_sched.c], which is the one compiled in.  The
    theorems are in [TxSchedInv].

    Builds with [QCA_BAD_PEER_TX_FLOW_CL] (a limit per peer), with
    [FEATURE_HL_GROUP_CREDIT_FLOW_CONTROL] (credit per group of queues) and with
    [CONFIG_PER_VDEV_TX_DESC_POOL] are not modelled: their hooks are no-ops here, as the
    headers define them when the feature is off. *)

From S2P Require Import Prelude.

Local Open Scope c_scope.

(** ** Data *)

Definition OL_TX_SCHED_WRR_ADV_NUM_CATEGORIES : Z := 8.
Definition CAT_BE : Z := 0.
Definition CAT_BK : Z := 1.
Definition CAT_VI : Z := 2.
Definition CAT_VO : Z := 3.
Definition CAT_NON_QOS_DATA : Z := 4.
Definition CAT_UCAST_MGMT : Z := 5.
Definition CAT_MCAST_DATA : Z := 6.
Definition CAT_MCAST_MGMT : Z := 7.

Definition OL_TX_NUM_TIDS : Z := 18.
Definition OL_TX_MGMT_TID : Z := 17.
Definition HTT_TX_EXT_TID_MGMT : Z := 17.
Definition HTT_TX_EXT_TID_NON_QOS_MCAST_BCAST : Z := 18.

Definition TXRX_TID_TO_WMM_AC (tid : Z) : Z :=
  if Z.shiftr tid 1 =? 3 then CAT_VO
  else if Z.shiftr tid 1 =? 2 then CAT_VI
  else if negb (Z.land (Z.lxor tid (Z.shiftr tid 1)) 1 =? 0) then CAT_BK
  else CAT_BE.

(** [pdev->tid_to_ac], as [ol_txrx_pdev_attach] fills it *)
Definition tid_to_ac : list Z :=
  (TXRX_TID_TO_WMM_AC <$> seqZ 0 16) ++ [CAT_NON_QOS_DATA; CAT_UCAST_MGMT; CAT_MCAST_DATA; CAT_MCAST_MGMT].

Inductive ol_tx_queue_status := ol_tx_queue_empty | ol_tx_queue_active | ol_tx_queue_paused.
#[global] Instance ol_tx_queue_status_eqdec : EqDecision ol_tx_queue_status.
Proof. solve_decision. Defined.

(** A tx queue: the descriptors waiting in it, oldest first. *)
Record ol_tx_frms_queue_t := {
  paused_total : Z;         (* u_int8_t *)
  q_frms : Z;               (* u_int16_t *)
  q_bytes : Z;              (* u_int32_t *)
  q_head : list Z;
  q_flag : ol_tx_queue_status
}.

(** A traffic category: its configuration, and its state with the active tx queues *)
Record category_specs := {
  wrr_skip_weight : Z;
  credit_threshold : Z;     (* u_int32_t *)
  send_limit : Z;           (* u_int16_t *)
  credit_reserve : Z;
  discard_weight : Z
}.
Record ol_tx_sched_wrr_adv_category_info_t := {
  specs : category_specs;
  wrr_count : Z;
  c_frms : Z;
  c_bytes : Z;
  c_head : list Z;
  c_active : bool
}.

(** The device.  [tx_freed] and [tx_sent] are the descriptors freed and the ones handed to
    the target, latest last; [nb_links] are the [next] links of their network buffers. *)
Record tx_state := {
  txqs : gmap Z ol_tx_frms_queue_t;
  categories : list ol_tx_sched_wrr_adv_category_info_t;
  order : list Z;
  sched_index : Z;
  last_used_txq : option Z;
  first_select : bool;
  target_tx_credit : Z;
  sched_running : bool;
  rsrc_cnt : Z;
  hl_paused_reason : gmap Z Z;
  nb_links : gmap Z Z;
  tx_freed : list Z;
  tx_sent : list Z
}.

#[local] Abbreviation ST := tx_state.

Definition set_txqs (v : gmap Z ol_tx_frms_queue_t) (s : ST) : ST :=
  {| txqs := v; categories := categories s; order := order s; sched_index := sched_index s;
     last_used_txq := last_used_txq s; first_select := first_select s;
     target_tx_credit := target_tx_credit s; sched_running := sched_running s;
     rsrc_cnt := rsrc_cnt s; hl_paused_reason := hl_paused_reason s; nb_links := nb_links s;
     tx_freed := tx_freed s; tx_sent := tx_sent s |}.
Definition set_categories (v : list ol_tx_sched_wrr_adv_category_info_t) (s : ST) : ST :=
  {| txqs := txqs s; categories := v; order := order s; sched_index := sched_index s;
     last_used_txq := last_used_txq s; first_select := first_select s;
     target_tx_credit := target_tx_credit s; sched_running := sched_running s;
     rsrc_cnt := rsrc_cnt s; hl_paused_reason := hl_paused_reason s; nb_links := nb_links s;
     tx_freed := tx_freed s; tx_sent := tx_sent s |}.
(** The scheduler's own variables *)
Definition set_sched (o : list Z) (i : Z) (l : option Z) (f r : bool) (s : ST) : ST :=
  {| txqs := txqs s; categories := categories s; order := o; sched_index := i;
     last_used_txq := l; first_select := f; target_tx_credit := target_tx_credit s;
     sched_running := r; rsrc_cnt := rsrc_cnt s; hl_paused_reason := hl_paused_reason s;
     nb_links := nb_links s; tx_freed := tx_freed s; tx_sent := tx_sent s |}.
Definition set_order (v : list Z) (s : ST) : ST :=
  set_sched v (sched_index s) (last_used_txq s) (first_select s) (sched_running s) s.
Definition set_index (v : Z) (s : ST) : ST :=
  set_sched (order s) v (last_used_txq s) (first_select s) (sched_running s) s.
Definition set_last_used (v : option Z) (s : ST) : ST :=
  set_sched (order s) (sched_index s) v (first_select s) (sched_running s) s.
Definition set_first (v : bool) (s : ST) : ST :=
  set_sched (order s) (sched_index s) (last_used_txq s) v (sched_running s) s.
Definition set_running (v : bool) (s : ST) : ST :=
  set_sched (order s) (sched_index s) (last_used_txq s) (first_select s) v s.
(** The counters *)
Definition set_counts (c r : Z) (s : ST) : ST :=
  {| txqs := txqs s; categories := categories s; order := order s; sched_index := sched_index s;
     last_used_txq := last_used_txq s; first_select := first_select s; target_tx_credit := c;
     sched_running := sched_running s; rsrc_cnt := r; hl_paused_reason := hl_paused_reason s;
     nb_links := nb_links s; tx_freed := tx_freed s; tx_sent := tx_sent s |}.
Definition add_credit (v : Z) (s : ST) : ST := set_counts (s32 (target_tx_credit s + v)) (rsrc_cnt s) s.
Definition add_rsrc (v : Z) (s : ST) : ST := set_counts (target_tx_credit s) (s32 (rsrc_cnt s + v)) s.
(** The buffers and where they went *)
Definition set_out (l : gmap Z Z) (f t : list Z) (s : ST) : ST :=
  {| txqs := txqs s; categories := categories s; order := order s; sched_index := sched_index s;
     last_used_txq := last_used_txq s; first_select := first_select s;
     target_tx_credit := target_tx_credit s; sched_running := sched_running s;
     rsrc_cnt := rsrc_cnt s; hl_paused_reason := hl_paused_reason s; nb_links := l;
     tx_freed := f; tx_sent := t |}.
Definition set_links (v : gmap Z Z) (s : ST) : ST := set_out v (tx_freed s) (tx_sent s) s.
Definition add_freed (d : Z) (s : ST) : ST := set_out (nb_links s) (tx_freed s ++ [d]) (tx_sent s) s.
Definition add_sent (d : Z) (s : ST) : ST := set_out (nb_links s) (tx_freed s) (tx_sent s ++ [d]) s.
Definition set_reasons (v : gmap Z Z) (s : ST) : ST :=
  {| txqs := txqs s; categories := categories s; order := order s; sched_index := sched_index s;
     last_used_txq := last_used_txq s; first_select := first_select s;
     target_tx_credit := target_tx_credit s; sched_running := sched_running s;
     rsrc_cnt := rsrc_cnt s; hl_paused_reason := v; nb_links := nb_links s;
     tx_freed := tx_freed s; tx_sent := tx_sent s |}.

(** *** Access; a queue or category that does not exist is undefined *)

Definition txq_get (q : Z) : M ST ol_tx_frms_queue_t := s <- mget ;; oget (txqs s !! q).
Definition txq_put (q : Z) (t : ol_tx_frms_queue_t) : M ST unit :=
  modify (fun s => set_txqs (<[q := t]> (txqs s)) s).
Definition cat_get (c : Z) : M ST ol_tx_sched_wrr_adv_category_info_t :=
  s <- mget ;; oget (aget (categories s) c).
Definition cat_put (c : Z) (k : ol_tx_sched_wrr_adv_category_info_t) : M ST unit :=
  s <- mget ;; v <- oget (aset (categories s) c k) ;; modify (set_categories v).

Definition with_queue (frms bytes : Z) (head : list Z) (flag : ol_tx_queue_status)
    (t : ol_tx_frms_queue_t) : ol_tx_frms_queue_t :=
  {| paused_total := paused_total t; q_frms := frms; q_bytes := bytes; q_head := head; q_flag := flag |}.
Definition with_flag (flag : ol_tx_queue_status) (t : ol_tx_frms_queue_t) : ol_tx_frms_queue_t :=
  with_queue (q_frms t) (q_bytes t) (q_head t) flag t.
Definition with_paused (n : Z) (t : ol_tx_frms_queue_t) : ol_tx_frms_queue_t :=
  {| paused_total := n; q_frms := q_frms t; q_bytes := q_bytes t; q_head := q_head t; q_flag := q_flag t |}.

Definition with_wrr (n : Z) (k : ol_tx_sched_wrr_adv_category_info_t) : ol_tx_sched_wrr_adv_category_info_t :=
  {| specs := specs k; wrr_count := n; c_frms := c_frms k; c_bytes := c_bytes k; c_head := c_head k;
     c_active := c_active k |}.
Definition with_count (frms bytes : Z) (k : ol_tx_sched_wrr_adv_category_info_t) : ol_tx_sched_wrr_adv_category_info_t :=
  {| specs := specs k; wrr_count := wrr_count k; c_frms := frms; c_bytes := bytes; c_head := c_head k;
     c_active := c_active k |}.
Definition with_list (l : list Z) (k : ol_tx_sched_wrr_adv_category_info_t) : ol_tx_sched_wrr_adv_category_info_t :=
  {| specs := specs k; wrr_count := wrr_count k; c_frms := c_frms k; c_bytes := c_bytes k; c_head := l;
     c_active := c_active k |}.
Definition with_active (b : bool) (k : ol_tx_sched_wrr_adv_category_info_t) : ol_tx_sched_wrr_adv_category_info_t :=
  {| specs := specs k; wrr_count := wrr_count k; c_frms := c_frms k; c_bytes := c_bytes k; c_head := c_head k;
     c_active := b |}.
Definition with_specs (p : category_specs) (k : ol_tx_sched_wrr_adv_category_info_t) : ol_tx_sched_wrr_adv_category_info_t :=
  {| specs := p; wrr_count := wrr_count k; c_frms := c_frms k; c_bytes := c_bytes k; c_head := c_head k;
     c_active := c_active k |}.

(** A queue has one link: inserting it while it is in a list, or removing it from a list it
    is not in, corrupts the lists. *)
Definition TAILQ_REMOVE (c q : Z) : M ST unit :=
  k <- cat_get c ;;
  massert (bool_decide (q ∈ c_head k)) ;;
  cat_put c (with_list (filter (fun x => x <> q) (c_head k)) k).
Definition unlinked (q : Z) : M ST unit :=
  s <- mget ;; massert (bool_decide (Forall (fun k => q ∉ c_head k) (categories s))).
Definition TAILQ_INSERT_TAIL (c q : Z) : M ST unit :=
  unlinked q ;; k <- cat_get c ;; cat_put c (with_list (c_head k ++ [q]) k).
Definition TAILQ_INSERT_HEAD (c q : Z) : M ST unit :=
  unlinked q ;; k <- cat_get c ;; cat_put c (with_list (q :: c_head k) k).

(** ** Configuration and environment

    [nbuf_len] is the length of a frame; [id_storage] whether its buffer has room for the
    descriptor's id; [htt_accepts] whether HTT accepts it ([htt_tx_send_std] and
    [htt_tx_send_base]).  [wrr_ini] are the parameters the ini file sets for a category, and [adf_os_debug] whether assertions are compiled in. *)
Class TxEnv := {
  nbuf_len : Z -> Z;
  id_storage : Z -> bool;
  htt_accepts : Z -> bool;
  wrr_ini : Z -> option category_specs;
  tx_desc_pool_size : Z;
  rsrc_threshold_lo : Z;
  rsrc_threshold_hi : Z;
  adf_os_debug : bool
}.

(** [htt_tx_msdu_credit]: one credit per buffer *)
Definition htt_tx_msdu_credit : Z := 1.

Section Ops.
Context `{ENV : TxEnv}.

(** The total length of frames *)
Fixpoint bytes_of (ds : list Z) : Z :=
  match ds with [] => 0 | d :: ds => nbuf_len d + bytes_of ds end.

Definition adf_os_assert (b : bool) : M ST unit := if adf_os_debug then massert b else mreturn tt.

(** *** The scheduler's categories *)

Definition ol_tx_sched_txq_enqueue (q tid frms bytes : Z) : M ST unit :=
  c <- oget (aget tid_to_ac tid) ;;
  k <- cat_get c ;;
  cat_put c (with_count (s32 (c_frms k + frms)) (s32 (c_bytes k + bytes)) k) ;;
  t <- txq_get q ;;
  if negb (bool_decide (q_flag t = ol_tx_queue_active)) then
    TAILQ_INSERT_TAIL c q ;;
    k <- cat_get c ;;
    cat_put c (with_active true k)
  else mreturn tt.

Definition ol_tx_sched_txq_deactivate (q tid : Z) : M ST unit :=
  c <- oget (aget tid_to_ac tid) ;;
  k <- cat_get c ;;
  t <- txq_get q ;;
  cat_put c (with_count (s32 (c_frms k - q_frms t)) (s32 (c_bytes k - q_bytes t)) k) ;;
  TAILQ_REMOVE c q ;;
  k <- cat_get c ;;
  if (c_frms k =? 0) && c_active k then cat_put c (with_active false k) else mreturn tt.

Definition ol_tx_sched_txq_discard (q cat frames bytes : Z) : M ST unit :=
  t <- txq_get q ;;
  (if q_frms t =? 0 then TAILQ_REMOVE cat q else mreturn tt) ;;
  k <- cat_get cat ;;
  let k := with_count (s32 (c_frms k - frames)) (s32 (c_bytes k - bytes)) k in
  cat_put cat (if c_frms k =? 0 then with_active false k else k).

(** The loop that picks the highest score, and its first element if all are 0 so far *)
Definition ol_tx_sched_discard_select_category : M ST Z :=
  miter 9 (fun '((i, cat, max_score) : Z * Z * Z) =>
    if i <? OL_TX_SCHED_WRR_ADV_NUM_CATEGORIES then
      k <- cat_get i ;;
      let score := s32 (c_frms k * discard_weight (specs k)) in
      if (max_score =? 0) || (max_score <? score) then mreturn (inl (i + 1, i, score))
      else mreturn (inl (i + 1, cat, max_score))
    else mreturn (inr cat)) (0, 0, 0).

Definition ol_tx_sched_category_info (cat : Z) : M ST (bool * Z * Z) :=
  k <- cat_get cat ;; mreturn (c_active k, c_frms k, c_bytes k).

(** [ol_tx_sched_wrr_adv_rotate_order_list_tail] *)
Definition rotate_order_list_tail (idx : Z) : M ST unit :=
  s <- mget ;;
  value <- oget (aget (order s) idx) ;;
  mfor (seqZ idx (OL_TX_SCHED_WRR_ADV_NUM_CATEGORIES - 1 - idx)) (fun i =>
    s <- mget ;;
    v <- oget (aget (order s) (i + 1)) ;;
    o <- oget (aset (order s) i v) ;;
    modify (set_order o)) ;;
  s <- mget ;;
  o <- oget (aset (order s) (OL_TX_SCHED_WRR_ADV_NUM_CATEGORIES - 1) value) ;;
  modify (set_order o).

Definition ol_tx_sched_select_init : M ST unit :=
  modify (fun s => set_last_used None (set_index 0 s)).

Definition credit_sanity_check (credit : Z) : M ST unit :=
  s <- mget ;;
  adf_os_assert (forallb (fun k => credit_threshold (specs k) <=? credit) (categories s)).

(** Every round moves past a category or brings one a step closer to its turn. *)
Definition select_fuel (s : ST) : nat :=
  10 + sum_list ((fun k => Z.to_nat (wrr_skip_weight (specs k) - wrr_count k)) <$> categories s).

(** The loop that finds the first active category whose turn it is: its place and number *)
Definition select_round (index : Z) : M ST (Z + option (Z * Z)) :=
  if index <? OL_TX_SCHED_WRR_ADV_NUM_CATEGORIES then
    s <- mget ;;
    c <- oget (aget (order s) index) ;;
    k <- cat_get c ;;
    if negb (c_active k) then mreturn (inl (index + 1))
    else
      let n := s32 (wrr_count k + 1) in
      cat_put c (with_wrr n k) ;;
      if n <? wrr_skip_weight (specs k) then
        rotate_order_list_tail index ;;
        mreturn (inl index)
      else mreturn (inr (Some (index, c)))
  else mreturn (inr None).

(** *** Tx queues *)

(** One round of the loop of [ol_tx_dequeue] *)
Definition dequeue_round (q max_frames credit : Z) (l : Z * Z * Z * list Z) :
    M ST (Z * Z * Z * list Z + bool * Z * Z * Z * list Z) :=
  let '(num_frames, bytes_sum, credit_sum, head) := l in
  if num_frames <? max_frames then
    t <- txq_get q ;;
    match q_head t with
    | [] => mreturn (inr (true, num_frames, bytes_sum, credit_sum, head))
    | d :: rest =>
        if credit <? u32 (credit_sum + htt_tx_msdu_credit)
        then mreturn (inr (false, num_frames, bytes_sum, credit_sum, head))
        else
          txq_put q (with_queue (q_frms t) (q_bytes t) rest (q_flag t) t) ;;
          mreturn (inl (u16 (num_frames + 1), s32 (bytes_sum + nbuf_len d),
                        u32 (credit_sum + htt_tx_msdu_credit), head ++ [d]))
    end
  else mreturn (inr (false, num_frames, bytes_sum, credit_sum, head)).

(** The frames taken, the list they were appended to, the credit they use and their size *)
Definition ol_tx_dequeue (q : Z) (head : list Z) (max_frames credit : Z) : M ST (Z * list Z * Z * Z) :=
  t <- txq_get q ;;
  adf_os_assert (negb (bool_decide (q_flag t = ol_tx_queue_paused))) ;;
  let temp_bytes := q_bytes t in
  let max_frames := if q_frms t <? max_frames then q_frms t else max_frames in
  r <- miter (Datatypes.S (Z.to_nat max_frames)) (dequeue_round q max_frames credit) (0, 0, 0, head) ;;
  let '(flush_all, num_frames, bytes_sum, credit_sum, head) := r in
  t <- txq_get q ;;
  let frms := u16 (q_frms t - num_frames) in
  let flag := if (frms =? 0) && bool_decide (q_flag t = ol_tx_queue_active) then ol_tx_queue_empty else q_flag t in
  txq_put q (with_queue frms (u32 (q_bytes t - bytes_sum)) (q_head t) flag t) ;;
  if flush_all && negb (bytes_sum =? 0) then
    t <- txq_get q ;;
    txq_put q (with_queue 0 0 (q_head t) (q_flag t) t) ;;
    head <- miter (Datatypes.S (Z.to_nat num_frames)) (fun '((num_frames, head) : Z * list Z) =>
      if num_frames =? 0 then mreturn (inr head)
      else
        match head with
        | [] => undefined
        | d :: head => modify (add_freed d) ;; mreturn (inl (num_frames - 1, head))
        end) (num_frames, head) ;;
    mreturn (0, head, 0, s32 temp_bytes)
  else mreturn (num_frames, head, credit_sum, bytes_sum).

(** *** Selection of a batch; the result is the credit used *)

(** What happens to the queue at the head of the selected category; [sctx] are the frames
    selected so far and their number *)
Definition serve_txq (c q : Z) (sctx : list Z * Z) (credit : Z) : M ST (Z * (list Z * Z)) :=
  k <- cat_get c ;;
  if u32 (credit_reserve (specs k)) <? credit then
    let credit := u32 (credit - credit_reserve (specs k)) in
    modify (set_last_used (Some q)) ;;
    r <- ol_tx_dequeue q sctx.1 (send_limit (specs k)) credit ;;
    let '(frames, head, used, bytes) := r in
    k <- cat_get c ;;
    cat_put c (with_count (s32 (c_frms k - frames)) (s32 (c_bytes k - bytes)) k) ;;
    t <- txq_get q ;;
    (if 0 <? q_frms t then TAILQ_INSERT_TAIL c q
     else
       k <- cat_get c ;;
       if c_frms k =? 0 then cat_put c (with_active false k) else mreturn tt) ;;
    mreturn (s32 used, (head, s32 (sctx.2 + frames)))
  else
    TAILQ_INSERT_TAIL c q ;;
    s <- mget ;;
    match last_used_txq s with
    | None => modify (set_last_used (Some q))
    | Some _ => mreturn tt
    end ;;
    mreturn (0, sctx).

Definition ol_tx_sched_select_batch (sctx : list Z * Z) (credit : Z) : M ST (Z * (list Z * Z)) :=
  s <- mget ;;
  (if first_select s then modify (set_first false) ;; credit_sanity_check credit else mreturn tt) ;;
  s <- mget ;;
  sel <- miter (select_fuel s) select_round (sched_index s) ;;
  match sel with
  | None => mreturn (0, sctx)
  | Some (index, c) =>
      k <- cat_get c ;;
      if credit <? credit_threshold (specs k) then
        cat_put c (with_wrr (s32 (wrr_count k - 1)) k) ;;
        mreturn (0, sctx)
      else
        cat_put c (with_wrr 0 k) ;;
        rotate_order_list_tail index ;;
        modify (set_index index) ;;
        k <- cat_get c ;;
        match c_head k with
        | [] => mreturn (0, sctx)
        | q :: _ =>
            TAILQ_REMOVE c q ;;
            serve_txq c q sctx credit
        end
  end.

(** *** Dispatch to the target *)

(** [htt_tx_send_batch]: the buffers it rejects are linked to one another, latest first *)
Definition htt_tx_send_batch (head_msdu num_msdus : Z) : M ST (option Z) :=
  miter (Datatypes.S (Z.to_nat num_msdus)) (fun '((msdu, num, rejected) : option Z * Z * option Z) =>
    if num =? 0 then mreturn (inr rejected)
    else
      d <- oget msdu ;;
      s <- mget ;;
      let next_msdu := nb_links s !! d in
      rejected <-
        (if htt_accepts d then modify (add_sent d) ;; mreturn rejected
         else
           modify (fun s => set_links (partial_alter (fun _ => rejected) d (nb_links s)) s) ;;
           mreturn (Some d)) ;;
      mreturn (inl (next_msdu, num - 1, rejected))) (Some head_msdu, num_msdus, None).

(** [ol_tx_send_batch]: a rejected frame is freed and its credit given back *)
Definition ol_tx_send_batch (head_msdu num_msdus : Z) : M ST unit :=
  rejected <- htt_tx_send_batch head_msdu num_msdus ;;
  miter (Datatypes.S (Z.to_nat num_msdus)) (fun rejected =>
    match rejected with
    | None => mreturn (inr tt)
    | Some d =>
        s <- mget ;;
        let next := nb_links s !! d in
        modify (add_credit htt_tx_msdu_credit) ;;
        modify (add_freed d) ;;
        mreturn (inl next)
    end) rejected.

(** One round of the loop: the frames left and their number, the last buffer, the first one
    of the batch and their number *)
Definition dispatch_round (l : list Z * Z * option Z * option Z * Z) :
    M ST (list Z * Z * option Z * option Z * Z + option Z * Z) :=
  let '(head, frms, prev, head_msdu, num_msdus) := l in
  if frms =? 0 then mreturn (inr (head_msdu, num_msdus))
  else
    match head with
    | [] => mreturn (inr (head_msdu, num_msdus))
    | d :: head =>
        let h := default d head_msdu in
        match prev with
        | Some p => modify (fun s => set_links (<[p := d]> (nb_links s)) s)
        | None => mreturn tt
        end ;;
        if id_storage d then mreturn (inl (head, frms - 1, Some d, Some h, num_msdus + 1))
        else
          ol_tx_send_batch h num_msdus ;;
          (if htt_accepts d then modify (add_sent d)
           else modify (add_credit htt_tx_msdu_credit) ;; modify (add_freed d)) ;;
          mreturn (inl (head, frms - 1, None, None, 0))
    end.

Definition ol_tx_sched_dispatch (sctx : list Z * Z) : M ST unit :=
  r <- miter (Datatypes.S (length sctx.1)) dispatch_round (sctx.1, sctx.2, None, None, 0) ;;
  match r.1 with
  | Some h => ol_tx_send_batch h r.2
  | None => mreturn tt
  end.

(** The loop of [ol_tx_sched]: every round that does not stop it uses up credit. *)
Definition sched_round (sctx : list Z * Z) : M ST (list Z * Z + list Z * Z) :=
  s <- mget ;;
  if 0 <? target_tx_credit s then
    r <- ol_tx_sched_select_batch sctx (u32 (target_tx_credit s)) ;;
    (if 0 <? r.1 then modify (add_credit (- r.1)) else mreturn tt) ;;
    if r.1 =? 0 then mreturn (inr r.2) else mreturn (inl r.2)
  else mreturn (inr sctx).

Definition ol_tx_sched : M ST unit :=
  s <- mget ;;
  if sched_running s then mreturn tt
  else
    modify (set_running true) ;;
    ol_tx_sched_select_init ;;
    s <- mget ;;
    sctx <- miter (Datatypes.S (Z.to_nat (target_tx_credit s))) sched_round ([], 0) ;;
    ol_tx_sched_dispatch sctx ;;
    modify (set_running false).

(** Credit from the target ([ol_tx_target_credit_update]), and credit taken for frames that are
    not scheduled; the latter's result says whether there was enough *)
Definition ol_tx_credit_completion_handler (credits : Z) : M ST unit :=
  (if 0 <? credits then modify (add_credit credits) else mreturn tt) ;;
  ol_tx_sched.

Definition ol_tx_target_credit_dec (credit : Z) : M ST bool :=
  s <- mget ;;
  if target_tx_credit s <? credit then mreturn false
  else modify (add_credit (- credit)) ;; mreturn true.

(** *** Notifications to the scheduler *)

(** The event, with the TID or category and the counts of its context *)
Inductive ol_tx_queue_action :=
| OL_TX_ENQUEUE_FRAME (ext_tid bytes : Z)
| OL_TX_DELETE_QUEUE (ext_tid : Z)
| OL_TX_PAUSE_QUEUE (ext_tid : Z)
| OL_TX_UNPAUSE_QUEUE (ext_tid : Z)
| OL_TX_DISCARD_FRAMES (ext_tid frames bytes : Z).

Definition ol_tx_sched_notify (q : Z) (event : ol_tx_queue_action) : M ST unit :=
  match event with
  | OL_TX_ENQUEUE_FRAME tid bytes => ol_tx_sched_txq_enqueue q tid 1 bytes
  | OL_TX_DELETE_QUEUE tid | OL_TX_PAUSE_QUEUE tid =>
      t <- txq_get q ;;
      if bool_decide (q_flag t = ol_tx_queue_active) then ol_tx_sched_txq_deactivate q tid else mreturn tt
  | OL_TX_UNPAUSE_QUEUE tid =>
      t <- txq_get q ;;
      if negb (q_frms t =? 0) then ol_tx_sched_txq_enqueue q tid (q_frms t) (q_bytes t) else mreturn tt
  | OL_TX_DISCARD_FRAMES cat frames bytes => ol_tx_sched_txq_discard q cat frames bytes
  end.

(** *** Discarding *)

Definition ol_tx_sched_discard_select_txq (queues : list Z) : M ST (option Z) :=
  miter (Datatypes.S (length queues)) (fun '((queues, sel, max_frms) : list Z * option Z * Z) =>
    match queues with
    | [] => mreturn (inr sel)
    | q :: queues =>
        t <- txq_get q ;;
        if max_frms <? q_frms t then mreturn (inl (queues, Some q, q_frms t))
        else mreturn (inl (queues, sel, max_frms))
    end) (queues, None, 0).

Definition OL_TX_DISCARD_QUANTUM : Z := 10.

(** How many frames of a queue of [txq_frms] to discard *)
Definition discard_count (frms txq_frms : Z) (force : bool) : Z :=
  if force then frms
  else
    let frms := if OL_TX_DISCARD_QUANTUM <? frms then OL_TX_DISCARD_QUANTUM else frms in
    if (1 <? txq_frms) && (Z.shiftr txq_frms 1 <=? frms) then Z.shiftr txq_frms 1 else frms.

(** The number of frames discarded, and the list with them *)
Definition ol_tx_sched_discard_select (frms : Z) (tx_descs : list Z) (force : bool) : M ST (Z * list Z) :=
  cat <- ol_tx_sched_discard_select_category ;;
  k <- cat_get cat ;;
  sel <- ol_tx_sched_discard_select_txq (c_head k) ;;
  match sel with
  | None => mreturn (0, tx_descs)
  | Some q =>
      t <- txq_get q ;;
      r <- ol_tx_dequeue q tx_descs (discard_count frms (q_frms t) force) 10000 ;;
      let '(frms, tx_descs, _, bytes) := r in
      ol_tx_sched_notify q (OL_TX_DISCARD_FRAMES cat frms bytes) ;;
      mreturn (frms, tx_descs)
  end.

(** The loop of [ol_tx_queue_discard]: what is left to discard, and the list *)
Definition discard_loop (num : Z) (flush_all : bool) (tx_descs : list Z) : M ST (Z * list Z) :=
  r <- miter (Datatypes.S (Z.to_nat num)) (fun '((num, actual, tx_descs) : Z * Z * list Z) =>
    if 0 <? num then
      r <- ol_tx_sched_discard_select num tx_descs flush_all ;;
      if r.1 =? 0 then mreturn (inr (num, actual, r.2))
      else mreturn (inl (u16 (num - r.1), u16 (actual + r.1), r.2))
    else mreturn (inr (num, actual, tx_descs))) (num, 0, tx_descs) ;;
  modify (add_rsrc r.1.2) ;;
  mreturn (r.1.1, r.2).

(** *** Freeing a queue, enqueueing *)

(** [ol_tx_queue_free]; the frames counted are looked at one by one *)
Definition ol_tx_queue_free (q tid : Z) : M ST unit :=
  ol_tx_sched_notify q (OL_TX_DELETE_QUEUE tid) ;;
  t <- txq_get q ;;
  let frms := q_frms t in
  massert (frms <=? Z.of_nat (length (q_head t))) ;;
  let bytes := s32 (bytes_of (take (Z.to_nat frms) (q_head t))) in
  txq_put q (with_queue 0 (u32 (q_bytes t - bytes)) [] ol_tx_queue_empty t) ;;
  modify (add_rsrc frms) ;;
  modify (fun s => set_out (nb_links s) (tx_freed s ++ take (Z.to_nat frms) (q_head t)) (tx_sent s) s).

(** The queues of a virtual device: two of its own, and one per TID for each of its peers. *)
Record ol_txrx_vdev_t := {
  vdev_id : Z;
  mcast_bcast_txq : Z;
  default_mgmt_txq : Z;
  peer_list : list (list Z)
}.

Definition PEER_ARRAY_COUNT : nat := 10.

Definition has_frames (q : Z) : M ST bool := t <- txq_get q ;; mreturn (negb (q_frms t =? 0)).

(** The peers with frames, at most [n] of them *)
Fixpoint select_peers (n : nat) (peers : list (list Z)) : M ST (list (list Z)) :=
  match n, peers with
  | O, _ | _, [] => mreturn []
  | Datatypes.S m, peer :: peers =>
      any <- miter (Datatypes.S (length peer)) (fun qs =>
        match qs with
        | [] => mreturn (inr false)
        | q :: qs => b <- has_frames q ;; if b : bool then mreturn (inr true) else mreturn (inl qs)
        end) peer ;;
      if any : bool then
        r <- select_peers m peers ;; mreturn (peer :: r)
      else select_peers n peers
  end.

Definition flush_peer (peer : list Z) : M ST unit :=
  mfor (seqZ 0 OL_TX_NUM_TIDS) (fun j =>
    q <- oget (aget peer j) ;;
    b <- has_frames q ;;
    if b : bool then ol_tx_queue_free q j else mreturn tt).

(** [ol_tx_queue_vdev_flush], without the queues of frames waiting to be bundled, which are
    not part of this model *)
Definition ol_tx_queue_vdev_flush (vdev : ol_txrx_vdev_t) : M ST unit :=
  ol_tx_queue_free (mcast_bcast_txq vdev) HTT_TX_EXT_TID_NON_QOS_MCAST_BCAST ;;
  ol_tx_queue_free (default_mgmt_txq vdev) HTT_TX_EXT_TID_MGMT ;;
  miter (Datatypes.S (length (peer_list vdev))) (fun _ =>
    peers <- select_peers PEER_ARRAY_COUNT (peer_list vdev) ;;
    mfor (seqZ 0 (Z.of_nat (length peers))) (fun i =>
      peer <- oget (aget peers i) ;; flush_peer peer) ;;
    if (PEER_ARRAY_COUNT <=? length peers)%nat then mreturn (inl tt) else mreturn (inr tt)) tt.

Fixpoint for_vdevs (body : ol_txrx_vdev_t -> M ST unit) (vdevs : list ol_txrx_vdev_t) : M ST unit :=
  match vdevs with
  | [] => mreturn tt
  | v :: vdevs => body v ;; for_vdevs body vdevs
  end.

Definition ol_tx_queue_flush (vdevs : list ol_txrx_vdev_t) : M ST unit := for_vdevs ol_tx_queue_vdev_flush vdevs.

Definition ol_tx_queue_discard (vdevs : list ol_txrx_vdev_t) (flush_all : bool) (tx_descs : list Z) : M ST (list Z) :=
  s <- mget ;;
  let num := if flush_all then tx_desc_pool_size - rsrc_cnt s else rsrc_threshold_hi - rsrc_threshold_lo in
  r <- discard_loop (u16 num) flush_all tx_descs ;;
  (if flush_all && (0 <? r.1) then ol_tx_queue_flush vdevs else mreturn tt) ;;
  mreturn r.2.

(** [ol_tx_desc_frame_list_free] *)
Definition ol_tx_desc_frame_list_free (tx_descs : list Z) : M ST unit :=
  modify (fun s => set_out (nb_links s) (tx_freed s ++ tx_descs) (tx_sent s) s).

(** [ol_tx_enqueue] once there is room *)
Definition enqueue_frame (q tx_desc ext_tid : Z) : M ST unit :=
  t <- txq_get q ;;
  let t := with_queue (u16 (q_frms t + 1)) (u32 (q_bytes t + nbuf_len tx_desc))
             (q_head t ++ [tx_desc]) (q_flag t) t in
  txq_put q t ;;
  if negb (bool_decide (q_flag t = ol_tx_queue_paused)) then
    ol_tx_sched_notify q (OL_TX_ENQUEUE_FRAME ext_tid (s32 (nbuf_len tx_desc))) ;;
    t <- txq_get q ;;
    txq_put q (with_flag ol_tx_queue_active t)
  else mreturn tt.

Definition ol_tx_enqueue (vdevs : list ol_txrx_vdev_t) (q tx_desc ext_tid : Z) : M ST unit :=
  s <- mget ;;
  (if rsrc_cnt s <=? rsrc_threshold_lo then
     tx_descs <- ol_tx_queue_discard vdevs false [] ;;
     ol_tx_desc_frame_list_free tx_descs
   else mreturn tt) ;;
  enqueue_frame q tx_desc ext_tid.

(** *** Pausing *)

Definition ol_txrx_peer_tid_pause_base (q tid : Z) : M ST unit :=
  t <- txq_get q ;;
  txq_put q (with_paused (u8 (paused_total t + 1)) t) ;;
  if paused_total t =? 0 then
    ol_tx_sched_notify q (OL_TX_PAUSE_QUEUE tid) ;;
    t <- txq_get q ;;
    txq_put q (with_flag ol_tx_queue_paused t)
  else mreturn tt.

Definition ol_txrx_peer_tid_unpause_base (q tid : Z) : M ST unit :=
  t <- txq_get q ;;
  adf_os_assert (0 <? paused_total t) ;;
  if paused_total t =? 0 then mreturn tt
  else
    let n := u8 (paused_total t - 1) in
    txq_put q (with_paused n t) ;;
    if n =? 0 then
      ol_tx_sched_notify q (OL_TX_UNPAUSE_QUEUE tid) ;;
      t <- txq_get q ;;
      if q_frms t =? 0 then txq_put q (with_flag ol_tx_queue_empty t)
      else
        txq_put q (with_flag ol_tx_queue_active t) ;;
        ol_tx_sched
    else mreturn tt.

(** The queues of a peer with their TIDs *)
Definition for_txqs (body : Z -> Z -> M ST unit) (n : Z) (peer : list Z) : M ST unit :=
  mfor (seqZ 0 n) (fun i => q <- oget (aget peer i) ;; body q i).

Definition ol_txrx_peer_pause_but_no_mgmt_q_base (peer : list Z) : M ST unit :=
  for_txqs ol_txrx_peer_tid_pause_base OL_TX_MGMT_TID peer.
Definition ol_txrx_peer_pause_base (peer : list Z) : M ST unit :=
  for_txqs ol_txrx_peer_tid_pause_base OL_TX_NUM_TIDS peer.
Definition ol_txrx_peer_unpause_but_no_mgmt_q_base (peer : list Z) : M ST unit :=
  for_txqs ol_txrx_peer_tid_unpause_base OL_TX_MGMT_TID peer.
Definition ol_txrx_peer_tid_unpause (peer : list Z) (tid : Z) : M ST unit :=
  if tid =? -1 then for_txqs ol_txrx_peer_tid_unpause_base OL_TX_NUM_TIDS peer
  else q <- oget (aget peer tid) ;; ol_txrx_peer_tid_unpause_base q tid.

Fixpoint for_peers (body : list Z -> M ST unit) (peers : list (list Z)) : M ST unit :=
  match peers with
  | [] => mreturn tt
  | p :: peers => body p ;; for_peers body peers
  end.

(** The high-latency branches; a device that never paused has no reason set *)
Definition ol_txrx_vdev_pause (vdev : ol_txrx_vdev_t) (reason : Z) : M ST unit :=
  s <- mget ;;
  let r := default 0 (hl_paused_reason s !! vdev_id vdev) in
  if Z.land r reason =? 0 then
    modify (set_reasons (<[vdev_id vdev := Z.lor r reason]> (hl_paused_reason s))) ;;
    for_peers ol_txrx_peer_pause_base (peer_list vdev)
  else mreturn tt.

Definition ol_txrx_vdev_unpause (vdev : ol_txrx_vdev_t) (reason : Z) : M ST unit :=
  s <- mget ;;
  let r := default 0 (hl_paused_reason s !! vdev_id vdev) in
  if negb (Z.land r reason =? 0) then
    modify (set_reasons (<[vdev_id vdev := Z.ldiff r reason]> (hl_paused_reason s))) ;;
    for_peers (for_txqs ol_txrx_peer_tid_unpause_base OL_TX_NUM_TIDS) (peer_list vdev)
  else mreturn tt.

Definition ol_txrx_pdev_pause (vdevs : list ol_txrx_vdev_t) (reason : Z) : M ST unit :=
  for_vdevs (fun v => ol_txrx_vdev_pause v reason) vdevs.
Definition ol_txrx_pdev_unpause (vdevs : list ol_txrx_vdev_t) (reason : Z) : M ST unit :=
  for_vdevs (fun v => ol_txrx_vdev_unpause v reason) vdevs.
Definition ol_txrx_pdev_pause_other_vdev (vdevs : list ol_txrx_vdev_t) (reason current_id : Z) : M ST unit :=
  for_vdevs (fun v => if negb (vdev_id v =? current_id) then ol_txrx_vdev_pause v reason else mreturn tt) vdevs.
Definition ol_txrx_pdev_unpause_other_vdev (vdevs : list ol_txrx_vdev_t) (reason current_id : Z) : M ST unit :=
  for_vdevs (fun v => if negb (vdev_id v =? current_id) then ol_txrx_vdev_unpause v reason else mreturn tt) vdevs.

(** [ol_txrx_discard_tx_pending], after HTT has discarded its own *)
Definition ol_txrx_discard_tx_pending (vdevs : list ol_txrx_vdev_t) : M ST unit :=
  tx_descs <- ol_tx_queue_discard vdevs true [] ;;
  ol_tx_desc_frame_list_free tx_descs.

(** *** Configuration *)

(** The default weights, of a build without [HIF_SDIO] *)
Definition default_specs : list category_specs :=
  [ {| wrr_skip_weight := 10; credit_threshold := 12; send_limit := 12; credit_reserve := 1; discard_weight := 8 |};
    {| wrr_skip_weight := 12; credit_threshold := 6; send_limit := 6; credit_reserve := 1; discard_weight := 8 |};
    {| wrr_skip_weight := 3; credit_threshold := 16; send_limit := 16; credit_reserve := 1; discard_weight := 4 |};
    {| wrr_skip_weight := 1; credit_threshold := 16; send_limit := 24; credit_reserve := 0; discard_weight := 1 |};
    {| wrr_skip_weight := 12; credit_threshold := 6; send_limit := 4; credit_reserve := 1; discard_weight := 8 |};
    {| wrr_skip_weight := 1; credit_threshold := 1; send_limit := 4; credit_reserve := 0; discard_weight := 1 |};
    {| wrr_skip_weight := 10; credit_threshold := 16; send_limit := 4; credit_reserve := 1; discard_weight := 4 |};
    {| wrr_skip_weight := 1; credit_threshold := 1; send_limit := 4; credit_reserve := 0; discard_weight := 1 |} ].

(** [ol_tx_sched_wrr_param_update]: the four access categories the ini file sets *)
Definition ol_tx_sched_wrr_param_update (i : Z) (p : category_specs) : category_specs :=
  if i <=? CAT_VO then
    match wrr_ini i with
    | Some p' => if negb (wrr_skip_weight p' =? 0) then p' else p
    | None => p
    end
  else p.

(** [ol_tx_sched_init_wrr_adv] *)
Definition ol_tx_sched_init (s : ST) : ST :=
  let cats := imap (fun i p =>
    let p := ol_tx_sched_wrr_param_update (Z.of_nat i) p in
    {| specs := p; wrr_count := s32 (wrr_skip_weight p - 1); c_frms := 0; c_bytes := 0; c_head := [];
       c_active := false |}) default_specs in
  set_categories cats (set_sched (seqZ 0 OL_TX_SCHED_WRR_ADV_NUM_CATEGORIES) 0 (last_used_txq s)
    (first_select s) (sched_running s) s).

(** [ol_txrx_set_wmm_param]: which category's defaults an access category of the given AIFS
    and CWmin gets *)
Definition wmm_category (aifs cwmin : Z) : Z :=
  let weight := u32 (aifs + cwmin) in
  if weight <=? 2 + 3 then CAT_VO
  else if weight <=? 2 + 7 then CAT_VI
  else if weight <=? 3 + 15 then CAT_BE
  else CAT_BK.

Definition ol_txrx_set_wmm_param (ac : Z -> Z * Z) : M ST unit :=
  mfor (seqZ 0 4) (fun i =>
    k <- cat_get i ;;
    p <- oget (aget default_specs (wmm_category (ac i).1 (ac i).2)) ;;
    cat_put i (with_specs p k)).
End Ops.
