(* ===== verification/TxSchedInv.v ===== *)
(** * The tx queues and the scheduler: invariant and theorems

    The invariant relates the counters of queues and categories to the frames queued, and a
    category's list to the flags of its queues.  Every operation of [TxSched] preserves it,
    and the scheduler loses no frame and no credit. *)

From S2P Require Import Prelude TxSched.

Local Open Scope c_scope.

(** ** Counting modulo 2^32 *)

Lemma s32_eq a b : a mod 2 ^ 32 = b mod 2 ^ 32 -> s32 a = s32 b.
Proof. intros H. unfold s32. by rewrite <- Zplus_mod_idemp_l, H, Zplus_mod_idemp_l. Qed.
Lemma s32_mod a : s32 a mod 2 ^ 32 = a mod 2 ^ 32.
Proof.
  unfold s32. rewrite Zminus_mod_idemp_l. f_equal. lia.
Qed.
Lemma u32_mod a : u32 a mod 2 ^ 32 = a mod 2 ^ 32.
Proof. unfold u32. by rewrite Z.mod_mod. Qed.
Lemma s32_add a b a' b' : a mod 2 ^ 32 = a' mod 2 ^ 32 -> b mod 2 ^ 32 = b' mod 2 ^ 32 -> s32 (a + b) = s32 (a' + b').
Proof. intros Ha Hb. apply s32_eq. by rewrite Z.add_mod, Ha, Hb, <- Z.add_mod by lia. Qed.
Lemma s32_sub a b a' b' : a mod 2 ^ 32 = a' mod 2 ^ 32 -> b mod 2 ^ 32 = b' mod 2 ^ 32 -> s32 (a - b) = s32 (a' - b').
Proof. intros Ha Hb. apply s32_eq. by rewrite Zminus_mod, Ha, Hb, <- Zminus_mod. Qed.
Lemma u32_add a b a' b' : a mod 2 ^ 32 = a' mod 2 ^ 32 -> b mod 2 ^ 32 = b' mod 2 ^ 32 -> u32 (a + b) = u32 (a' + b').
Proof. intros Ha Hb. unfold u32. by rewrite Z.add_mod, Ha, Hb, <- Z.add_mod by lia. Qed.
Lemma u32_sub a b a' b' : a mod 2 ^ 32 = a' mod 2 ^ 32 -> b mod 2 ^ 32 = b' mod 2 ^ 32 -> u32 (a - b) = u32 (a' - b').
Proof. intros Ha Hb. unfold u32. by rewrite Zminus_mod, Ha, Hb, <- Zminus_mod. Qed.
Lemma s32_u32 a : s32 (u32 a) = s32 a.
Proof. apply s32_eq, u32_mod. Qed.

#[export] Hint Resolve s32_mod u32_mod : qca.

(** ** Frames in queues *)

Definition heads (tq : gmap Z ol_tx_frms_queue_t) (q : Z) : list Z :=
  match tq !! q with Some t => q_head t | None => [] end.
Definition descs_of (tq : gmap Z ol_tx_frms_queue_t) (l : list Z) : list Z := l ≫= heads tq.
Definition queued_in (tq : gmap Z ol_tx_frms_queue_t) : list Z :=
  map_to_list tq ≫= fun p => q_head p.2.
Definition queued (s : tx_state) : list Z := queued_in (txqs s).

Lemma descs_perm tq l l' : l ≡ₚ l' -> descs_of tq l ≡ₚ descs_of tq l'.
Proof. intros Hp. unfold descs_of. by rewrite Hp. Qed.

Lemma descs_ext tq tq' l : (forall q, q ∈ l -> tq' !! q = tq !! q) -> descs_of tq' l = descs_of tq l.
Proof.
  induction l as [|x l IH]; intros Heq; cbn; [done|]. unfold heads. rewrite Heq by set_solver.
  f_equal. apply IH. intros q Hq. apply Heq. set_solver.
Qed.
Lemma descs_insert tq q t l : q ∉ l -> descs_of (<[q := t]> tq) l = descs_of tq l.
Proof. intros Hq. apply descs_ext. intros x Hx. apply lookup_insert_ne. set_solver. Qed.

Lemma queued_delete tq q t : tq !! q = Some t -> queued_in tq ≡ₚ q_head t ++ queued_in (delete q tq).
Proof. intros Hq. unfold queued_in. by rewrite <- (map_to_list_delete _ _ _ Hq). Qed.
Lemma queued_insert tq q t t' : tq !! q = Some t ->
  queued_in (<[q := t']> tq) ≡ₚ q_head t' ++ queued_in (delete q tq).
Proof.
  intros Hq. rewrite (queued_delete _ q t') by apply lookup_insert_eq.
  by rewrite delete_insert_eq.
Qed.

(** Distinct queues hold distinct parts of the queued frames. *)
Lemma descs_queued tq l : NoDup l -> descs_of tq l ⊆+ queued_in tq.
Proof.
  revert tq. induction l as [|q l IH]; intros tq; [intros _; apply submseteq_nil_l|].
  intros [Hq Hnd]%NoDup_cons. change (heads tq q ++ descs_of tq l ⊆+ queued_in tq).
  unfold heads. destruct (tq !! q) as [t|] eqn:Ht.
  - rewrite (queued_delete _ _ _ Ht). apply submseteq_app; [done|].
    rewrite <- (descs_ext tq (delete q tq)); [by apply IH|]. intros x Hx. apply lookup_delete_ne. set_solver.
  - by apply IH.
Qed.

Section Inv.
Context `{ENV : TxEnv}.
(** The category of a queue, and the length of a frame *)
Variable cat_of : Z -> Z.

Lemma bytes_app l1 l2 : bytes_of (l1 ++ l2) = bytes_of l1 + bytes_of l2.
Proof. induction l1 as [|x l1 IH]; cbn; lia. Qed.
#[global] Instance bytes_perm : Proper ((≡ₚ) ==> (=)) bytes_of.
Proof. intros l l' H. induction H; cbn; lia. Qed.

(** ** The invariant *)

Record txq_ok (t : ol_tx_frms_queue_t) : Prop := {
  to_frms : q_frms t = Z.of_nat (length (q_head t));
  to_bytes : q_bytes t = u32 (bytes_of (q_head t));
  to_active : q_flag t = ol_tx_queue_active -> q_head t <> [];
  to_empty : q_flag t = ol_tx_queue_empty -> q_head t = [];
  to_paused : q_flag t = ol_tx_queue_paused <-> paused_total t <> 0;
  to_range : 0 <= paused_total t < 256
}.

Definition active (tq : gmap Z ol_tx_frms_queue_t) (q : Z) : Prop :=
  exists t, tq !! q = Some t /\ q_flag t = ol_tx_queue_active.

(** A category counts the frames of its queues, which are the active ones of that category. *)
Record cat_ok (tq : gmap Z ol_tx_frms_queue_t) (c : Z) (k : ol_tx_sched_wrr_adv_category_info_t) : Prop := {
  co_nodup : NoDup (c_head k);
  co_elem : forall q, q ∈ c_head k <-> active tq q /\ cat_of q = c;
  co_frms : c_frms k = Z.of_nat (length (descs_of tq (c_head k)));
  co_bytes : c_bytes k = s32 (bytes_of (descs_of tq (c_head k)));
  co_active : c_active k = negb (bool_decide (c_head k = []))
}.

Record specs_ok (k : ol_tx_sched_wrr_adv_category_info_t) : Prop := {
  so_skip : 0 <= wrr_skip_weight (specs k) < 2 ^ 31;
  so_thresh : 0 <= credit_threshold (specs k) < 2 ^ 32;
  so_limit : 0 <= send_limit (specs k) < 65536;
  so_reserve : 0 <= credit_reserve (specs k) < 2 ^ 31;
  so_count : -1 <= wrr_count k < 2 ^ 31 - 1
}.

Record inv (s : tx_state) : Prop := {
  i_txq : forall q t, txqs s !! q = Some t -> txq_ok t;
  i_len : length (categories s) = 8%nat;
  i_cat : forall c k, aget (categories s) c = Some k -> cat_ok (txqs s) c k /\ specs_ok k;
  i_order : order s ≡ₚ seqZ 0 8;
  i_index : 0 <= sched_index s <= 8;
  i_room : Z.of_nat (length (queued s)) < 65536;
  i_nodup : NoDup (queued s)
}.

(** The queues of a category other than [q]. *)
Definition others (q : Z) (l : list Z) : list Z := filter (fun x => x <> q) l.
Lemma others_notin q l : q ∉ others q l.
Proof. unfold others. rewrite list_elem_of_filter. naive_solver. Qed.
Lemma others_elem q l x : x ∈ others q l <-> x <> q /\ x ∈ l.
Proof. unfold others. by rewrite list_elem_of_filter. Qed.
Lemma others_id q l : q ∉ l -> others q l = l.
Proof.
  intros Hq. unfold others. induction l as [|x l IH]; [done|].
  rewrite filter_cons_True by set_solver. f_equal. apply IH. set_solver.
Qed.
Lemma others_perm q l : NoDup l -> q ∈ l -> l ≡ₚ q :: others q l.
Proof.
  intros Hnd Hq. apply list_elem_of_split in Hq as (l1 & l2 & ->).
  apply NoDup_app in Hnd as (_ & Hd & [Hq2 _]%NoDup_cons).
  assert (Hq1 : q ∉ l1) by (intros Hq1; apply (Hd q Hq1); set_solver).
  unfold others. rewrite filter_app, filter_cons_False by naive_solver.
  fold (others q l1) (others q l2). rewrite !others_id by done. by rewrite Permutation_middle.
Qed.
Lemma others_head q l : q ∉ l -> others q (q :: l) = l.
Proof. intros Hq. unfold others. rewrite filter_cons_False by naive_solver. by apply others_id. Qed.

(** What a queue contributes to its category. *)
Definition act_q (q : Z) (t : ol_tx_frms_queue_t) : list Z :=
  if decide (q_flag t = ol_tx_queue_active) then [q] else [].
Definition act_descs (t : ol_tx_frms_queue_t) : list Z :=
  if decide (q_flag t = ol_tx_queue_active) then q_head t else [].

Lemma active_at tq q t : tq !! q = Some t -> active tq q <-> q_flag t = ol_tx_queue_active.
Proof. intros Hq. unfold active. rewrite Hq. naive_solver. Qed.

Lemma cat_base tq q t k : cat_ok tq (cat_of q) k -> tq !! q = Some t ->
  c_head k ≡ₚ act_q q t ++ others q (c_head k) /\
  descs_of tq (c_head k) ≡ₚ act_descs t ++ descs_of tq (others q (c_head k)).
Proof.
  intros [Hnd Hel _ _ _] Hq.
  assert (Hperm : c_head k ≡ₚ act_q q t ++ others q (c_head k)).
  { unfold act_q. destruct (decide (q_flag t = ol_tx_queue_active)) as [Hf|Hf]; cbn.
    - apply others_perm; [done|]. apply Hel. split; [by apply (active_at _ _ _ Hq)|done].
    - rewrite others_id; [done|]. intros [Ha _]%Hel. by apply (active_at _ _ _ Hq) in Ha. }
  split; [exact Hperm|]. rewrite (descs_perm _ _ _ Hperm) at 1. unfold descs_of, act_q, act_descs.
  rewrite bind_app. case_decide; cbn; [|done]. unfold heads at 1. by rewrite Hq, app_nil_r.
Qed.

(** Rewriting one queue and the category it belongs to. *)
Lemma cat_update tq q t t' k k' :
  cat_ok tq (cat_of q) k -> tq !! q = Some t ->
  c_head k' ≡ₚ act_q q t' ++ others q (c_head k) ->
  c_frms k' = Z.of_nat (length (act_descs t' ++ descs_of tq (others q (c_head k)))) ->
  c_bytes k' = s32 (bytes_of (act_descs t' ++ descs_of tq (others q (c_head k)))) ->
  c_active k' = negb (bool_decide (c_head k' = [])) ->
  cat_ok (<[q := t']> tq) (cat_of q) k'.
Proof.
  intros Hk Hq Hhead Hfrms Hbytes Hact. pose proof Hk as [Hnd Hel _ _ _].
  set (base := others q (c_head k)) in *.
  assert (Hni : q ∉ base) by apply others_notin.
  assert (Hd : descs_of (<[q := t']> tq) (c_head k') ≡ₚ act_descs t' ++ descs_of tq base).
  { rewrite (descs_perm _ _ _ Hhead). unfold descs_of, act_q, act_descs. rewrite bind_app.
    fold (descs_of (<[q := t']> tq) base). rewrite (descs_insert _ _ _ _ Hni).
    case_decide; cbn; [|done]. unfold heads at 1. by rewrite lookup_insert_eq, app_nil_r. }
  assert (Hndb : NoDup base) by by apply NoDup_filter.
  split.
  - rewrite Hhead. unfold act_q. case_decide; cbn; [|done]. by apply NoDup_cons.
  - intros x. rewrite Hhead, elem_of_app. unfold base. rewrite others_elem, Hel. unfold act_q.
    destruct (decide (x = q)) as [->|Hne].
    + rewrite (active_at (<[q := t']> tq) q t') by apply lookup_insert_eq. case_decide; set_solver.
    + assert (Hx : active (<[q := t']> tq) x <-> active tq x) by (unfold active; by rewrite lookup_insert_ne).
      rewrite Hx. case_decide; set_solver.
  - by rewrite Hd.
  - by rewrite Hd.
  - done.
Qed.

Lemma cat_frame tq q t' c k : cat_ok tq c k -> c <> cat_of q -> cat_ok (<[q := t']> tq) c k.
Proof.
  intros [Hnd Hel Hf Hb Ha] Hc. assert (Hni : q ∉ c_head k) by (intros [_ Hq]%Hel; congruence).
  split; try done.
  - intros x. rewrite Hel. split; intros [Hx <-]; (split; [|done]); unfold active in *;
      (rewrite lookup_insert_ne in * by congruence); done.
  - by rewrite descs_insert.
  - by rewrite descs_insert.
Qed.

(** The state with one queue and its category rewritten. *)
Record upd (s s' : tx_state) (q : Z) (t' : ol_tx_frms_queue_t) (k' : ol_tx_sched_wrr_adv_category_info_t) : Prop := {
  u_txqs : txqs s' = <[q := t']> (txqs s);
  u_cats : categories s' = <[Z.to_nat (cat_of q) := k']> (categories s);
  u_order : order s' ≡ₚ seqZ 0 8;
  u_index : 0 <= sched_index s' <= 8
}.

Lemma aget_insert {A} (l : list A) c c' v : 0 <= c < Z.of_nat (length l) ->
  aget (<[Z.to_nat c := v]> l) c' = if decide (c' = c) then Some v else aget l c'.
Proof.
  intros Hc. case_decide as Hd; [subst; by apply aget_insert_eq|]. apply aget_insert_ne; [lia|congruence].
Qed.

(** The invariant survives such an update. *)
Lemma inv_update s s' q t t' k k' :
  inv s -> txqs s !! q = Some t -> aget (categories s) (cat_of q) = Some k ->
  upd s s' q t' k' -> txq_ok t' -> specs_ok k' ->
  c_head k' ≡ₚ act_q q t' ++ others q (c_head k) ->
  c_frms k' = Z.of_nat (length (act_descs t' ++ descs_of (txqs s) (others q (c_head k)))) ->
  c_bytes k' = s32 (bytes_of (act_descs t' ++ descs_of (txqs s) (others q (c_head k)))) ->
  c_active k' = negb (bool_decide (c_head k' = [])) ->
  Z.of_nat (length (queued s')) < 65536 /\ NoDup (queued s') -> inv s'.
Proof.
  intros [H1 H2 H3 H4 H5 H6 H7] Hq Hk [U1 U2 U3 U4] Ht' Hs' Hh Hf Hb Ha [Hroom Hnd].
  pose proof (aget_Some_range _ _ _ Hk) as Hr. split.
  - intros x tx. rewrite U1. intros [[<- <-]|[_ Hx]]%lookup_insert_Some; [done|by eapply H1].
  - by rewrite U2, length_insert.
  - intros c kc. rewrite U2, U1, aget_insert by done. case_decide as Hd.
    + intros [= <-]. subst c. split; [|done]. destruct (H3 _ _ Hk) as [Hco _]. by eapply cat_update.
    + intros Hc. destruct (H3 _ _ Hc) as [Hco Hso]. split; [|done]. by apply cat_frame.
  - done.
  - done.
  - done.
  - done.
Qed.

(** ** Primitives *)

Lemma runs_txq_get s q t (Q : ol_tx_frms_queue_t -> tx_state -> Prop) :
  txqs s !! q = Some t -> Q t s -> runs (txq_get q) s Q.
Proof. intros Hq HQ. unfold txq_get. mstep. mstep. by eapply runs_oget. Qed.
Lemma runs_txq_put s q t (Q : unit -> tx_state -> Prop) :
  Q tt (set_txqs (<[q := t]> (txqs s)) s) -> runs (txq_put q t) s Q.
Proof. done. Qed.
Lemma runs_cat_get s c k (Q : ol_tx_sched_wrr_adv_category_info_t -> tx_state -> Prop) :
  aget (categories s) c = Some k -> Q k s -> runs (cat_get c) s Q.
Proof. intros Hc HQ. unfold cat_get. mstep. mstep. by eapply runs_oget. Qed.

(** The state with a category replaced *)
Definition put_cat (c : Z) (k : ol_tx_sched_wrr_adv_category_info_t) (s : tx_state) : tx_state :=
  set_categories (<[Z.to_nat c := k]> (categories s)) s.

Lemma runs_cat_put s c k k0 (Q : unit -> tx_state -> Prop) :
  aget (categories s) c = Some k0 -> Q tt (put_cat c k s) -> runs (cat_put c k) s Q.
Proof.
  intros Hc HQ. unfold cat_put. mstep. mstep. mstep.
  eapply runs_oget; [apply aset_Some, (aget_Some_range _ _ _ Hc)|]. by mstep.
Qed.

Lemma put_cat_get s c k k0 : aget (categories s) c = Some k0 -> aget (categories (put_cat c k s)) c = Some k.
Proof. intros Hc. cbn. apply aget_insert_eq, (aget_Some_range _ _ _ Hc). Qed.
Lemma put_cat_twice s c k1 k2 : put_cat c k2 (put_cat c k1 s) = put_cat c k2 s.
Proof. unfold put_cat, set_categories. cbn. by rewrite list_insert_insert_eq. Qed.

(** The queue is in no category's list. *)
Definition is_unlinked (s : tx_state) (q : Z) : Prop :=
  forall c k, aget (categories s) c = Some k -> q ∉ c_head k.

Lemma is_unlinked_put s c k k0 q : is_unlinked s q -> aget (categories s) c = Some k0 -> q ∉ c_head k ->
  is_unlinked (put_cat c k s) q.
Proof.
  intros Hu Hc Hk c' k'. cbn. rewrite aget_insert by apply (aget_Some_range _ _ _ Hc).
  case_decide; [by intros [= <-]|by apply Hu].
Qed.

Lemma runs_unlinked s q (Q : unit -> tx_state -> Prop) : is_unlinked s q -> Q tt s -> runs (unlinked q) s Q.
Proof.
  intros Hu HQ. unfold unlinked. mstep. mstep. eapply runs_massert; [|done].
  apply bool_decide_eq_true, Forall_lookup. intros i k Hk. eapply (Hu (Z.of_nat i)). by rewrite aget_nat.
Qed.

Lemma runs_insert_tail s c q k (Q : unit -> tx_state -> Prop) :
  aget (categories s) c = Some k -> is_unlinked s q ->
  Q tt (put_cat c (with_list (c_head k ++ [q]) k) s) -> runs (TAILQ_INSERT_TAIL c q) s Q.
Proof.
  intros Hc Hu HQ. unfold TAILQ_INSERT_TAIL. mstep. apply runs_unlinked; [done|]. mstep.
  eapply runs_cat_get; [exact Hc|]. by eapply runs_cat_put.
Qed.

Lemma runs_tailq_remove s c q k (Q : unit -> tx_state -> Prop) :
  aget (categories s) c = Some k -> q ∈ c_head k ->
  Q tt (put_cat c (with_list (others q (c_head k)) k) s) -> runs (TAILQ_REMOVE c q) s Q.
Proof.
  intros Hc Hq HQ. unfold TAILQ_REMOVE. mstep. eapply runs_cat_get; [exact Hc|]. mstep.
  eapply runs_massert; [by apply bool_decide_eq_true|]. by eapply runs_cat_put.
Qed.

(** *** The categories' operations *)

Definition enq_cat (q frms bytes : Z) (was_active : bool) (k : ol_tx_sched_wrr_adv_category_info_t) :=
  let k1 := with_count (s32 (c_frms k + frms)) (s32 (c_bytes k + bytes)) k in
  if was_active then k1 else with_active true (with_list (c_head k ++ [q]) k1).

Lemma txq_enqueue_spec s q tid c frms bytes t k (Q : unit -> tx_state -> Prop) :
  aget tid_to_ac tid = Some c -> txqs s !! q = Some t -> aget (categories s) c = Some k ->
  (q_flag t <> ol_tx_queue_active -> is_unlinked s q) ->
  Q tt (put_cat c (enq_cat q frms bytes (bool_decide (q_flag t = ol_tx_queue_active)) k) s) ->
  runs (ol_tx_sched_txq_enqueue q tid frms bytes) s Q.
Proof.
  intros Hc Hq Hk Hu HQ. unfold ol_tx_sched_txq_enqueue. mstep. eapply runs_oget; [exact Hc|]. mstep.
  eapply runs_cat_get; [exact Hk|]. mstep. eapply runs_cat_put; [exact Hk|]. mstep.
  eapply runs_txq_get; [exact Hq|]. unfold enq_cat in HQ. case_bool_decide as Hf; cbn [negb].
  - mstep. exact HQ.
  - pose proof (put_cat_get _ _ (with_count (s32 (c_frms k + frms)) (s32 (c_bytes k + bytes)) k) _ Hk) as Hk1.
    mstep. eapply runs_insert_tail; [exact Hk1| |].
    + eapply is_unlinked_put; [by apply Hu|exact Hk|]. cbn. by eapply (Hu Hf).
    + rewrite put_cat_twice. mstep. eapply runs_cat_get; [by eapply put_cat_get|].
      eapply runs_cat_put; [by eapply put_cat_get|]. by rewrite put_cat_twice.
Qed.

Definition deq_cat (q : Z) (t : ol_tx_frms_queue_t) (k : ol_tx_sched_wrr_adv_category_info_t) :=
  let k1 := with_list (others q (c_head k)) (with_count (s32 (c_frms k - q_frms t)) (s32 (c_bytes k - q_bytes t)) k) in
  if (c_frms k1 =? 0) && c_active k then with_active false k1 else k1.

Lemma txq_deactivate_spec s q tid c t k (Q : unit -> tx_state -> Prop) :
  aget tid_to_ac tid = Some c -> txqs s !! q = Some t -> aget (categories s) c = Some k ->
  q ∈ c_head k -> Q tt (put_cat c (deq_cat q t k) s) ->
  runs (ol_tx_sched_txq_deactivate q tid) s Q.
Proof.
  intros Hc Hq Hk Hin HQ. unfold ol_tx_sched_txq_deactivate. mstep. eapply runs_oget; [exact Hc|]. mstep.
  eapply runs_cat_get; [exact Hk|]. mstep. eapply runs_txq_get; [exact Hq|]. mstep.
  eapply runs_cat_put; [exact Hk|]. mstep.
  eapply runs_tailq_remove; [by eapply put_cat_get|done|]. rewrite put_cat_twice. mstep.
  eapply runs_cat_get; [by eapply put_cat_get|]. unfold deq_cat in HQ. cbn -[put_cat] in *.
  destruct ((s32 (c_frms k - q_frms t) =? 0) && c_active k).
  - eapply runs_cat_put; [by eapply put_cat_get|]. by rewrite put_cat_twice.
  - by mstep.
Qed.

Definition disc_cat (q frames bytes : Z) (empty : bool) (k : ol_tx_sched_wrr_adv_category_info_t) :=
  let k0 := if empty then with_list (others q (c_head k)) k else k in
  let k1 := with_count (s32 (c_frms k - frames)) (s32 (c_bytes k - bytes)) k0 in
  if c_frms k1 =? 0 then with_active false k1 else k1.

Lemma txq_discard_spec s q c frames bytes t k (Q : unit -> tx_state -> Prop) :
  txqs s !! q = Some t -> aget (categories s) c = Some k -> q ∈ c_head k ->
  Q tt (put_cat c (disc_cat q frames bytes (q_frms t =? 0) k) s) ->
  runs (ol_tx_sched_txq_discard q c frames bytes) s Q.
Proof.
  intros Hq Hk Hin HQ. unfold ol_tx_sched_txq_discard. mstep. eapply runs_txq_get; [exact Hq|]. mstep.
  unfold disc_cat in HQ. destruct (q_frms t =? 0).
  - eapply runs_tailq_remove; [exact Hk|done|]. mstep. eapply runs_cat_get; [by eapply put_cat_get|].
    eapply runs_cat_put; [by eapply put_cat_get|]. by rewrite put_cat_twice.
  - mstep. mstep. eapply runs_cat_get; [exact Hk|]. by eapply runs_cat_put.
Qed.

(** ** Dequeueing *)

Lemma set_txqs_id s q t : txqs s !! q = Some t -> set_txqs (<[q := t]> (txqs s)) s = s.
Proof. intros Hq. rewrite insert_id by done. by destruct s. Qed.

Lemma dequeue_loop q max credit taken : forall s t rest num B head fuel,
  txqs s !! q = Some t -> q_head t = taken ++ rest ->
  0 <= num -> Z.of_nat (length taken) = Z.min (max - num) (credit - num) ->
  max - num <= Z.of_nat (length (q_head t)) -> max < 65536 -> credit < 2 ^ 32 ->
  (length taken < fuel)%nat ->
  runs (miter fuel (dequeue_round q max credit) (num, s32 B, num, head)) s (fun r s' =>
    r = (false, num + Z.of_nat (length taken), s32 (B + bytes_of taken), num + Z.of_nat (length taken), head ++ taken) /\
    s' = set_txqs (<[q := with_queue (q_frms t) (q_bytes t) rest (q_flag t) t]> (txqs s)) s).
Proof.
  induction taken as [|d taken IH]; intros s t rest num B head [|fuel] Hq Hh Hn Hlen Hmax H16 H32 Hf;
    cbn [length] in *; try lia; cbn [miter]; mstep; unfold dequeue_round at 1.
  - cbn [app] in Hh. rewrite !Z.add_0_r, app_nil_r. cbn [bytes_of].
    assert (Hid : set_txqs (<[q := with_queue (q_frms t) (q_bytes t) rest (q_flag t) t]> (txqs s)) s = s).
    { rewrite <- Hh. apply set_txqs_id. rewrite Hq. by destruct t. }
    destruct (Z.ltb_spec num max) as [Hlt|Hge]; [|mstep; mstep; by rewrite Hid].
    mstep. eapply runs_txq_get; [exact Hq|]. destruct (q_head t) as [|d l] eqn:Hd; [cbn in Hmax; lia|].
    unfold htt_tx_msdu_credit. rewrite u32_small by lia. rewrite (proj2 (Z.ltb_lt _ _)) by lia.
    mstep. mstep. by rewrite Hid.
  - rewrite (proj2 (Z.ltb_lt _ _)) by lia. mstep. eapply runs_txq_get; [exact Hq|].
    rewrite Hh in Hmax |- *. cbn [app] in *. unfold htt_tx_msdu_credit. rewrite u32_small by lia.
    rewrite (proj2 (Z.ltb_ge _ _)) by lia. mstep. apply runs_txq_put. mstep.
    rewrite u16_small by lia.
    replace (s32 (s32 B + nbuf_len d)) with (s32 (B + nbuf_len d)) by (apply s32_add; auto with qca).
    cbn [length] in Hmax. eapply runs_mono.
    { apply (IH _ (with_queue (q_frms t) (q_bytes t) (taken ++ rest) (q_flag t) t) rest);
        [apply lookup_insert_eq|done|lia|lia|cbn [q_head with_queue]; lia|done|done|lia]. }
    intros r s' [-> ->]. cbn [bytes_of]. split.
    + rewrite <- app_assoc. cbn [app]. by replace (B + nbuf_len d + bytes_of taken) with (B + (nbuf_len d + bytes_of taken)) by lia;
      replace (num + 1 + Z.of_nat (length taken)) with (num + Z.of_nat (Datatypes.S (length taken))) by lia.
    + cbn. by rewrite insert_insert_eq.
Qed.

(** How many frames a dequeue takes, and the queue it leaves. *)
Definition dequeued (t : ol_tx_frms_queue_t) (max credit : Z) : nat :=
  Z.to_nat (Z.min (Z.min (q_frms t) max) credit).
Definition txq_after (n : nat) (t : ol_tx_frms_queue_t) : ol_tx_frms_queue_t :=
  with_queue (q_frms t - Z.of_nat n) (u32 (bytes_of (drop n (q_head t)))) (drop n (q_head t))
    (if decide (q_flag t = ol_tx_queue_active /\ drop n (q_head t) = []) then ol_tx_queue_empty else q_flag t) t.

Lemma ol_tx_dequeue_spec s q t head max credit :
  txqs s !! q = Some t -> txq_ok t -> q_flag t <> ol_tx_queue_paused ->
  0 <= max -> 0 <= credit < 2 ^ 32 -> Z.of_nat (length (q_head t)) < 65536 ->
  let n := dequeued t max credit in
  runs (ol_tx_dequeue q head max credit) s (fun r s' =>
    r = (Z.of_nat n, head ++ take n (q_head t), Z.of_nat n, s32 (bytes_of (take n (q_head t)))) /\
    s' = set_txqs (<[q := txq_after n t]> (txqs s)) s).
Proof.
  intros Hq Hok Hf Hmax Hcr Hlen n. pose proof (to_frms _ Hok) as Hfr.
  unfold ol_tx_dequeue. mstep. eapply runs_txq_get; [exact Hq|]. mstep.
  unfold adf_os_assert. rewrite bool_decide_false by done.
  assert (Hn : Z.of_nat n = Z.min (Z.min (q_frms t) max) credit) by (unfold n, dequeued; lia).
  set (mf := if q_frms t <? max then q_frms t else max).
  assert (Hmf : mf = Z.min (q_frms t) max) by (unfold mf; destruct (Z.ltb_spec (q_frms t) max); lia).
  eapply runs_mono with (Q := fun _ s' => s' = s); [destruct adf_os_debug; [by apply runs_massert|by mstep]|].
  intros [] s0 ->. cbn beta. mstep.
  assert (Htk : length (take n (q_head t)) = n) by (rewrite length_take; lia).
  eapply runs_mono.
  { eapply (dequeue_loop q mf credit (take n (q_head t)) s t (drop n (q_head t)) 0 0 head);
      [exact Hq|by rewrite take_drop|lia|lia|lia|lia|lia|lia]. }
  intros r s1 [-> ->]. mstep. eapply runs_txq_get; [apply lookup_insert_eq|]. mstep. apply runs_txq_put. cbn [andb]. mstep.
  rewrite Htk. rewrite Z.add_0_l. split; [done|].
  match goal with |- set_txqs (<[_ := ?a]> _) _ = _ => replace a with (txq_after n t) end;
    [unfold set_txqs; cbn; by rewrite insert_insert_eq|].
  symmetry. unfold txq_after, with_queue. cbn. rewrite u16_small by lia. f_equal.
  - rewrite (to_bytes _ Hok). rewrite <- (take_drop n (q_head t)) at 1. rewrite bytes_app. cbn.
    rewrite <- (u32_sub (bytes_of (take n (q_head t)) + bytes_of (drop n (q_head t))) (bytes_of (take n (q_head t)))).
    + f_equal. lia.
    + symmetry. apply u32_mod.
    + by rewrite s32_mod.
  - assert (Hz : (q_frms t - Z.of_nat n =? 0) = bool_decide (drop n (q_head t) = [])).
    { case_bool_decide as Hd.
      - apply Z.eqb_eq. apply (f_equal length) in Hd. rewrite length_drop in Hd. cbn in Hd. lia.
      - apply Z.eqb_neq. intros Hz. apply Hd. apply nil_length_inv. rewrite length_drop. lia. }
    rewrite Hz. repeat case_bool_decide; case_decide; cbn; naive_solver.
Qed.

(** ** Selecting a category *)

(** The rotation moves the element to the end. *)
Lemma rotate_spec s idx v : length (order s) = 8%nat -> aget (order s) idx = Some v ->
  rotate_order_list_tail idx s = Some (tt, set_order (delete (Z.to_nat idx) (order s) ++ [v]) s).
Proof.
  intros Hlen Hv. pose proof (aget_Some_range _ _ _ Hv) as Hr. rewrite Hlen in Hr.
  destruct (order s) as [|a0 [|a1 [|a2 [|a3 [|a4 [|a5 [|a6 [|a7 [|]]]]]]]]] eqn:Ho; try discriminate Hlen.
  assert (Hi : idx ∈ [0; 1; 2; 3; 4; 5; 6; 7]) by (rewrite !elem_of_cons; lia).
  destruct s. cbn in Ho. subst order. cbn in Hv.
  repeat (apply elem_of_cons in Hi as [->|Hi]; [vm_compute in Hv; injection Hv as <-; by vm_compute|]).
  by apply elem_of_nil in Hi.
Qed.

Lemma aget_delete_before (l : list Z) v idx j : 0 <= idx < Z.of_nat (length l) -> j < idx ->
  aget (delete (Z.to_nat idx) l ++ [v]) j = aget l j.
Proof.
  intros Hi Hj. unfold aget. case_decide; [|done]. rewrite lookup_app_l by (rewrite length_delete; [lia|apply lookup_lt_is_Some; lia]).
  apply list_lookup_delete_lt. lia.
Qed.

Lemma runs_rotate s idx v (Q : unit -> tx_state -> Prop) :
  order s ≡ₚ seqZ 0 8 -> aget (order s) idx = Some v ->
  (forall o, o ≡ₚ seqZ 0 8 -> (forall j, j < idx -> aget o j = aget (order s) j) -> Q tt (set_order o s)) ->
  runs (rotate_order_list_tail idx) s Q.
Proof.
  intros Hp Hv HQ. eapply runs_intro; [apply rotate_spec; [by rewrite Hp|exact Hv]|].
  apply HQ; [|intros j Hj; apply aget_delete_before; [by apply (aget_Some_range _ _ _ Hv)|done]].
  rewrite <- Hp. pose proof (aget_Some_range _ _ _ Hv) as Hr. rewrite aget_lookup in Hv by lia.
  etrans; [|symmetry; by apply delete_Permutation]. symmetry. apply Permutation_cons_append.
Qed.

(** The categories up to their WRR counters *)
Definition same_cat (k k' : ol_tx_sched_wrr_adv_category_info_t) : Prop :=
  exists n, k' = with_wrr n k /\ -1 <= n < 2 ^ 31 - 1.
Record picking (s s' : tx_state) : Prop := {
  pk_rest : exists o cs, s' = set_categories cs (set_order o s);
  pk_order : order s' ≡ₚ seqZ 0 8;
  pk_cats : Forall2 same_cat (categories s) (categories s')
}.

Definition turns (k : ol_tx_sched_wrr_adv_category_info_t) : nat :=
  Z.to_nat (wrr_skip_weight (specs k) - wrr_count k).

Lemma sum_list_insert (cs : list ol_tx_sched_wrr_adv_category_info_t) i k k' : cs !! i = Some k ->
  (sum_list (turns <$> <[i := k']> cs) + turns k = sum_list (turns <$> cs) + turns k')%nat.
Proof.
  revert i. induction cs as [|x cs IH]; intros [|i]; cbn; try done.
  - intros [= ->]. lia.
  - intros Hi. specialize (IH i Hi). rewrite <- !Nat.add_assoc. f_equal. exact IH.
Qed.

Lemma same_cat_specs k k' : specs_ok k -> same_cat k k' -> specs_ok k'.
Proof. intros [H1 H2 H3 H4 H5] (n & -> & Hn). by split. Qed.
Lemma same_cat_trans k k' n : same_cat k k' -> -1 <= n < 2 ^ 31 - 1 -> same_cat k (with_wrr n k').
Proof. intros (m & -> & _) Hn. by exists n. Qed.

Lemma picking_refl s : inv s -> picking s s.
Proof.
  intros [_ _ Hcat Hord _ _ _]. split; [exists (order s), (categories s); by destruct s|done|].
  apply Forall2_same_length_lookup_2; [done|]. intros i k k' Hk Hk'.
  rewrite Hk in Hk'. injection Hk' as <-. rewrite <- aget_nat in Hk. destruct (Hcat _ _ Hk) as [_ Hso].
  exists (wrr_count k). split; [by destruct k|apply Hso].
Qed.

(** The category at a place of the order, while picking. *)
Lemma picking_cat s s' i : inv s -> picking s s' -> 0 <= i < 8 ->
  exists c k k', aget (order s') i = Some c /\ aget (categories s) c = Some k /\
    aget (categories s') c = Some k' /\ same_cat k k' /\ specs_ok k'.
Proof.
  intros [_ Hlen Hcat _ _ _ _] [_ Hord Hcs] Hi.
  assert (Hl : length (order s') = 8%nat) by by rewrite Hord.
  destruct (aget_is_Some (order s') i) as [c Hc]; [lia|].
  assert (Hcr : 0 <= c < 8).
  { assert (Hin : c ∈ seqZ 0 8); [|apply elem_of_seqZ in Hin; lia].
    rewrite <- Hord. rewrite aget_lookup in Hc by lia. by eapply list_elem_of_lookup_2. }
  destruct (aget_is_Some (categories s) c) as [k Hk]; [lia|].
  pose proof Hk as Hk0. rewrite aget_lookup in Hk0 by lia.
  destruct (Forall2_lookup_l _ _ _ _ _ Hcs Hk0) as (k' & Hk' & Hsame).
  exists c, k, k'. rewrite (aget_lookup (categories s')) by lia. split_and!; try done.
  eapply same_cat_specs; [|done]. by apply (Hcat c).
Qed.

Lemma picking_put s s' c k k' n : picking s s' -> aget (categories s') c = Some k' ->
  aget (categories s) c = Some k -> same_cat k k' -> -1 <= n < 2 ^ 31 - 1 ->
  picking s (put_cat c (with_wrr n k') s').
Proof.
  intros [(o & cs & ->) Hord Hcs] Hk' Hk Hsame Hn. split; [by eexists _, _|done|].
  cbn. rewrite <- (list_insert_id (categories s) (Z.to_nat c) k).
  - apply Forall2_insert; [exact Hcs|]. by eapply same_cat_trans.
  - rewrite <- aget_lookup; [done|]. apply (aget_Some_range _ _ _ Hk).
Qed.
Lemma picking_order s s' o : picking s s' -> o ≡ₚ seqZ 0 8 -> picking s (set_order o s').
Proof. intros [(o' & cs & ->) Hord Hcs] Ho. split; [by eexists _, _|done|done]. Qed.

(** The categories in the first [i] places of the order are inactive. *)
Definition idle_upto (s : tx_state) (i : Z) : Prop := forall j c k, j < i ->
  aget (order s) j = Some c -> aget (categories s) c = Some k -> c_active k = false.

Lemma idle_next s i c k : idle_upto s i -> aget (order s) i = Some c -> aget (categories s) c = Some k ->
  c_active k = false -> idle_upto s (i + 1).
Proof.
  intros Hid Hi Hk Ha j c' k' Hj Hc' Hk'. destruct (decide (j = i)) as [->|Hne]; [|eapply (Hid j); (done || lia)].
  congruence.
Qed.
(** Changing an active category, or the order from [i] on, keeps them idle. *)
Lemma idle_change s s' i c k0 k : idle_upto s i -> (forall j, j < i -> aget (order s') j = aget (order s) j) ->
  aget (categories s) c = Some k0 -> c_active k0 = true -> categories s' = <[Z.to_nat c := k]> (categories s) ->
  idle_upto s' i.
Proof.
  intros Hid Ho Hk0 Ha Hcs j c' k' Hj. rewrite (Ho j Hj), Hcs. intros Hc' Hk'. eapply (Hid j); [done|exact Hc'|].
  rewrite aget_insert in Hk' by apply (aget_Some_range _ _ _ Hk0). case_decide; [|done]. subst c'. exfalso.
  specialize (Hid j c k0 Hj Hc' Hk0). congruence.
Qed.
Lemma idle_le s i j : idle_upto s i -> j <= i -> idle_upto s j.
Proof. intros Hid Hij x c k Hx. apply Hid. lia. Qed.
(** With the whole order idle, nothing is active. *)
Lemma idle_all s : inv s -> idle_upto s 8 -> forall c k, aget (categories s) c = Some k -> c_active k = false.
Proof.
  intros [_ Hlen _ Hord _ _ _] Hid c k Hk. pose proof (aget_Some_range _ _ _ Hk) as Hr. rewrite Hlen in Hr.
  assert (Hin : c ∈ order s) by (rewrite Hord; apply elem_of_seqZ; lia).
  apply list_elem_of_lookup_1 in Hin as [i Hi]. pose proof (lookup_lt_Some _ _ _ Hi) as Hl. rewrite Hord in Hl. change (length (seqZ 0 8)) with 8%nat in Hl.
  apply (Hid (Z.of_nat i) c); [lia|by rewrite aget_nat|done].
Qed.

(** The outcome of the loop: no category is active, or one whose turn has come. *)
Definition picked (s : tx_state) (r : option (Z * Z)) (s' : tx_state) : Prop :=
  match r with
  | None => picking s s' /\ idle_upto s' 8
  | Some (i, c) => exists s1 k k1, picking s s1 /\ idle_upto s1 i /\ sched_index s <= i < 8 /\ aget (order s1) i = Some c /\
      aget (categories s) c = Some k /\ aget (categories s1) c = Some k1 /\ same_cat k k1 /\
      c_active k = true /\ s' = put_cat c (with_wrr (wrr_count k1 + 1) k1) s1
  end.

Lemma select_loop s : inv s -> 0 <= sched_index s <= 8 -> idle_upto s (sched_index s) ->
  runs (miter (select_fuel s) select_round (sched_index s)) s (picked s).
Proof.
  intros Hinv Hidx Hidle.
  apply runs_miter with (I := fun i s' => sched_index s <= i <= 8 /\ idle_upto s' i /\ picking s s')
    (mu := fun i s' => (Z.to_nat (8 - i) + sum_list (turns <$> categories s'))%nat).
  - intros i s' (Hi & Hid & Hp). unfold select_round, OL_TX_SCHED_WRR_ADV_NUM_CATEGORIES.
    destruct (Z.ltb_spec i 8) as [Hlt|Hge]; [|mstep; by replace i with 8 in Hid by lia].
    destruct (picking_cat _ _ i Hinv Hp ltac:(lia)) as (c & k & k' & Hc & Hk & Hk' & Hsame & Hso).
    do 2 mstep. mstep. eapply runs_oget; [exact Hc|]. mstep. eapply runs_cat_get; [exact Hk'|].
    destruct (c_active k') eqn:Hact; cbn [negb].
    2: { mstep. split; [|lia]. split; [lia|]. split; [by eapply idle_next|done]. }
    pose proof (so_count _ Hso) as Hcnt. pose proof (so_skip _ Hso) as Hskip.
    rewrite s32_small by lia. mstep. eapply runs_cat_put; [exact Hk'|].
    destruct (Z.ltb_spec (wrr_count k' + 1) (wrr_skip_weight (specs k'))) as [Hw|Hw].
    + mstep. eapply runs_rotate; [apply Hp|exact Hc|]. intros o Ho Hbefore. mstep.
      split; [split; [lia|]; split; [by eapply (idle_change s' _ i c k')|]; apply picking_order; [|done]; eapply picking_put; (done || lia)|].
      cbn [categories set_order set_sched put_cat set_categories].
      pose proof Hk' as Hk0. rewrite aget_lookup in Hk0 by apply (aget_Some_range _ _ _ Hk').
      pose proof (sum_list_insert _ _ _ (with_wrr (wrr_count k' + 1) k') Hk0) as Hsum.
      unfold turns at 2 4 in Hsum. cbn [specs wrr_count with_wrr] in Hsum. lia.
    + mstep. exists s', k, k'. split; [done|]. split; [done|]. split; [lia|]. split_and!; try done.
      destruct Hsame as (n & -> & _). exact Hact.
  - split; [lia|]. split; [done|by apply picking_refl].
  - unfold select_fuel. fold turns. lia.
Qed.

(** ** Batches *)

Lemma picking_inv s s' : inv s -> picking s s' -> inv s'.
Proof.
  intros [H1 H2 H3 H4 H5 H6 H7] [(o & cs & ->) Hord Hcs]. split; try done.
  - by rewrite <- (Forall2_length _ _ _ Hcs).
  - intros c k' Hk'. pose proof (aget_Some_range _ _ _ Hk') as Hr. rewrite aget_lookup in Hk' by lia.
    destruct (Forall2_lookup_r _ _ _ _ _ Hcs Hk') as (k & Hk & Hsame).
    rewrite <- aget_lookup in Hk by lia. destruct (H3 _ _ Hk) as [Hco Hso].
    split; [|by eapply same_cat_specs]. destruct Hsame as (n & -> & _). by destruct Hco.
Qed.

(** What an operation on queues and categories leaves alone. *)
Record same_out (s s' : tx_state) : Prop := {
  sa_credit : target_tx_credit s' = target_tx_credit s;
  sa_rsrc : rsrc_cnt s' = rsrc_cnt s;
  sa_reasons : hl_paused_reason s' = hl_paused_reason s;
  sa_links : nb_links s' = nb_links s;
  sa_freed : tx_freed s' = tx_freed s;
  sa_sent : tx_sent s' = tx_sent s;
  sa_running : sched_running s' = sched_running s
}.

Lemma active_listed s q t k : inv s -> txqs s !! q = Some t -> q_flag t = ol_tx_queue_active ->
  aget (categories s) (cat_of q) = Some k -> q ∈ c_head k /\ c_active k = true.
Proof.
  intros Hinv Hq Hf Hk. destruct (i_cat _ Hinv _ _ Hk) as [Hco _].
  assert (Hin : q ∈ c_head k).
  { apply (co_elem _ _ _ Hco). split; [|done]. by apply (active_at _ _ _ Hq). }
  split; [done|]. rewrite (co_active _ _ _ Hco), bool_decide_false; [done|]. by destruct (c_head k); [set_solver|].
Qed.

Lemma descs_nil s c k q : inv s -> aget (categories s) c = Some k ->
  (descs_of (txqs s) (others q (c_head k)) = [] <-> others q (c_head k) = []).
Proof.
  intros Hinv Hk. split; [|by intros ->].
  destruct (others q (c_head k)) as [|x l] eqn:Ho; [done|]. intros Hd.
  assert (Hx : x ∈ others q (c_head k)) by (rewrite Ho; set_solver).
  apply others_elem in Hx as [_ Hx]. destruct (i_cat _ Hinv _ _ Hk) as [Hco _].
  apply (co_elem _ _ _ Hco) in Hx as [(t & Ht & Hf) _].
  apply (to_active _ (i_txq _ Hinv _ _ Ht)) in Hf. exfalso. apply Hf.
  cbn in Hd. unfold heads in Hd. rewrite Ht in Hd. by apply app_nil in Hd as [? _].
Qed.

Lemma inv_unlinked s q : inv s -> ~ active (txqs s) q -> is_unlinked s q.
Proof. intros Hinv Hq c k Hk Hin. destruct (i_cat _ Hinv _ _ Hk) as [Hco _]. by apply (co_elem _ _ _ Hco) in Hin as [? _]. Qed.

Lemma removed_unlinked s s1 q k k' : inv s -> aget (categories s) (cat_of q) = Some k -> q ∉ c_head k' ->
  categories s1 = categories s -> is_unlinked (put_cat (cat_of q) k' s1) q.
Proof.
  intros Hinv Hk Hq Hs1 c kc. cbn. rewrite Hs1. rewrite aget_insert by apply (aget_Some_range _ _ _ Hk).
  case_decide as Hd; [by intros [= <-]|]. intros Hc Hin.
  destruct (i_cat _ Hinv _ _ Hc) as [Hco _]. apply (co_elem _ _ _ Hco) in Hin as [_ Hin]. congruence.
Qed.

Lemma queued_le s q t : txqs s !! q = Some t -> (length (q_head t) <= length (queued s))%nat.
Proof. intros Hq. unfold queued. rewrite (queued_delete _ _ _ Hq), length_app. lia. Qed.

(** A category's counters fit their types. *)
Lemma cat_small s q t k : inv s -> txqs s !! q = Some t -> aget (categories s) (cat_of q) = Some k ->
  (length (act_descs t ++ descs_of (txqs s) (others q (c_head k))) <= length (queued s))%nat.
Proof.
  intros Hinv Hq Hk. destruct (i_cat _ Hinv _ _ Hk) as [Hco _].
  destruct (cat_base _ _ _ _ Hco Hq) as [_ <-].
  apply submseteq_length, descs_queued, Hco.
Qed.

Lemma txq_after_ok n t : txq_ok t -> q_flag t = ol_tx_queue_active -> (n <= length (q_head t))%nat -> txq_ok (txq_after n t).
Proof.
  intros [H1 H2 H3 H4 H5 H6] Hf Hn. unfold txq_after. split; cbn; try done.
  - rewrite length_drop. lia.
  - case_decide; naive_solver.
  - case_decide as Hd; naive_solver.
  - case_decide; rewrite <- H5; split; congruence.
Qed.
Lemma txq_after_descs n t : q_flag t = ol_tx_queue_active -> act_descs (txq_after n t) = drop n (q_head t).
Proof. intros Hf. unfold act_descs, txq_after. cbn. repeat case_decide; naive_solver. Qed.

(** After a dequeue from an active queue, its category's counters are adjusted. *)
Lemma counts_after s q t k n : inv s -> txqs s !! q = Some t -> aget (categories s) (cat_of q) = Some k ->
  q_flag t = ol_tx_queue_active -> (n <= length (q_head t))%nat ->
  s32 (c_frms k - Z.of_nat n) = Z.of_nat (length (act_descs (txq_after n t) ++ descs_of (txqs s) (others q (c_head k)))) /\
  s32 (c_bytes k - s32 (bytes_of (take n (q_head t))))
    = s32 (bytes_of (act_descs (txq_after n t) ++ descs_of (txqs s) (others q (c_head k)))).
Proof.
  intros Hinv Hq Hk Hf Hn. destruct (i_cat _ Hinv _ _ Hk) as [Hco _].
  pose proof (cat_small _ _ _ _ Hinv Hq Hk) as Hsm. pose proof (i_room _ Hinv) as Hroom.
  destruct (cat_base _ _ _ _ Hco Hq) as [_ Hd]. rewrite txq_after_descs by done.
  rewrite (co_frms _ _ _ Hco), (co_bytes _ _ _ Hco), Hd.
  assert (Ha : act_descs t = q_head t) by (unfold act_descs; by case_decide).
  rewrite Ha in *. rewrite !length_app, !bytes_app in *. rewrite length_drop. split.
  - rewrite s32_small by lia. lia.
  - rewrite <- (take_drop n (q_head t)) at 1. rewrite bytes_app.
    rewrite (s32_sub _ _ (bytes_of (take n (q_head t)) + bytes_of (drop n (q_head t)) + bytes_of (descs_of (txqs s) (others q (c_head k))))
      (bytes_of (take n (q_head t)))); [f_equal; lia|apply s32_mod|apply s32_mod].
Qed.

(** The queue, if any, that a batch comes from, and the limits it respects. *)
Definition batch_from s (credit : Z) (taken : list Z) s' : Prop :=
  taken = [] /\ txqs s' = txqs s \/ exists q t k, txqs s !! q = Some t /\ q_flag t = ol_tx_queue_active /\
    aget (categories s) (cat_of q) = Some k /\ taken = take (length taken) (q_head t) /\
    txqs s' = <[q := txq_after (length taken) t]> (txqs s) /\
    Z.of_nat (length taken) <= send_limit (specs k) /\
    Z.of_nat (length taken) + credit_reserve (specs k) <= credit.

(** An active category that is waiting for credit, or may not send at all *)
Definition held s (credit : Z) : Prop := exists c k, aget (categories s) c = Some k /\ c_active k = true /\
  (credit < credit_threshold (specs k) \/ credit <= credit_reserve (specs k) \/ send_limit (specs k) = 0).
Definition none_active s : Prop := forall c k, aget (categories s) c = Some k -> c_active k = false.

(** Why a batch is empty *)
Definition batch_end s' (credit : Z) (taken : list Z) : Prop :=
  idle_upto s' (sched_index s') /\ (taken = [] -> none_active s' \/ held s' credit).

Definition batch_post s (sctx : list Z * Z) (credit : Z) (r : Z * (list Z * Z)) s' : Prop :=
  inv s' /\ same_out s s' /\ first_select s' = first_select s /\ exists taken,
    r = (Z.of_nat (length taken), (sctx.1 ++ taken, s32 (sctx.2 + Z.of_nat (length taken)))) /\
    Z.of_nat (length taken) <= credit /\ queued s ≡ₚ taken ++ queued s' /\ batch_from s credit taken s' /\ batch_end s' credit taken.

Lemma batch_nothing s sctx credit s' : inv s' -> same_out s s' -> first_select s' = first_select s ->
  txqs s' = txqs s -> 0 <= credit -> - 2 ^ 31 <= sctx.2 < 2 ^ 31 -> batch_end s' credit [] ->
  batch_post s sctx credit (0, sctx) s'.
Proof.
  intros Hinv Hout Hfirst Htq Hcr Hs Hend. split_and!; try done. exists []. cbn. split; [|split; [done|split; [|split; [by left|exact Hend]]]].
  - rewrite app_nil_r, Z.add_0_r, s32_small by done. by destruct sctx.
  - unfold queued. by rewrite Htq.
Qed.

Lemma queued_after s s' q t n : txqs s !! q = Some t -> txqs s' = <[q := txq_after n t]> (txqs s) ->
  queued s ≡ₚ take n (q_head t) ++ queued s'.
Proof.
  intros Hq Hs'. unfold queued. rewrite Hs', (queued_insert _ _ _ _ Hq), (queued_delete _ _ _ Hq).
  cbn. by rewrite app_assoc, take_drop.
Qed.

(** The frames [taken] leave queues from their heads: of every queue, a prefix, in order. *)
Definition fifo (tq : gmap Z ol_tx_frms_queue_t) (taken : list Z) (tq' : gmap Z ol_tx_frms_queue_t) : Prop :=
  forall own : Z -> Z, (forall q d, d ∈ heads tq q -> own d = q) ->
  forall q, filter (fun d => own d = q) taken ++ heads tq' q = heads tq q.

Lemma fifo_nil tq : fifo tq [] tq.
Proof. done. Qed.
Lemma fifo_trans tq1 l1 tq2 l2 tq3 : fifo tq1 l1 tq2 -> fifo tq2 l2 tq3 -> fifo tq1 (l1 ++ l2) tq3.
Proof.
  intros H1 H2 own Hown q. rewrite filter_app, <- app_assoc. rewrite <- (H1 own Hown q). f_equal.
  apply H2. intros x d Hd. apply Hown. rewrite <- (H1 own Hown x). set_solver.
Qed.
Definition same_heads (tq tq' : gmap Z ol_tx_frms_queue_t) : Prop := forall q, heads tq' q = heads tq q.
Lemma heads_insert tq q t t' : tq !! q = Some t -> q_head t' = q_head t -> same_heads tq (<[q := t']> tq).
Proof.
  intros Hq Hh x. unfold heads. destruct (decide (x = q)) as [->|Hne].
  - by rewrite lookup_insert_eq, Hq.
  - by rewrite lookup_insert_ne.
Qed.
Lemma fifo_heads tq tq1 l tq' : same_heads tq tq1 -> fifo tq1 l tq' -> fifo tq l tq'.
Proof.
  intros Hs Hf own Hown q. rewrite (Hf own); [by apply Hs|]. intros x d Hd. apply Hown. by rewrite <- Hs.
Qed.
Lemma fifo_same tq tq' : same_heads tq tq' -> fifo tq [] tq'.
Proof. intros Hs own _ q. apply Hs. Qed.

Lemma fifo_one tq q t t' l : tq !! q = Some t -> q_head t = l ++ q_head t' -> fifo tq l (<[q := t']> tq).
Proof.
  clear cat_of.
  intros Hq Hh own Hown x. unfold heads. destruct (decide (x = q)) as [->|Hne].
  - rewrite lookup_insert_eq, Hq, Hh. f_equal.
    assert (Hall : forall d, d ∈ l -> own d = q).
    { intros d Hd. apply Hown. unfold heads. rewrite Hq, Hh. set_solver. }
    clear -Hall. induction l as [|d l IH]; [done|]. rewrite filter_cons_True by (apply Hall; set_solver).
    f_equal. apply IH. intros. apply Hall. set_solver.
  - rewrite lookup_insert_ne by done.
    assert (Hall : forall d, d ∈ l -> own d <> x).
    { intros d Hd <-. apply Hne, Hown. unfold heads. rewrite Hq, Hh. set_solver. }
    replace (filter (fun d => own d = x) l) with (@nil Z); [done|]. clear -Hall. induction l as [|d l IH]; [done|].
    rewrite filter_cons_False by (apply Hall; set_solver). apply IH. intros. apply Hall. set_solver.
Qed.
Lemma fifo_after tq q t n : tq !! q = Some t -> fifo tq (take n (q_head t)) (<[q := txq_after n t]> tq).
Proof.
  clear cat_of. intros Hq. eapply fifo_one; [exact Hq|]. cbn. by rewrite take_drop. Qed.
Lemma batch_fifo s credit taken s' : batch_from s credit taken s' -> fifo (txqs s) taken (txqs s').
Proof.
  intros [[-> ->]|(q & t & k & Hq & _ & _ & Htk & -> & _)]; [apply fifo_nil|].
  rewrite Htk at 1. by apply fifo_after.
Qed.

(** Queues that are not active are left alone. *)
Definition frozen (tq tq' : gmap Z ol_tx_frms_queue_t) : Prop :=
  forall q t, tq !! q = Some t -> q_flag t <> ol_tx_queue_active -> tq' !! q = Some t.
Lemma batch_frozen s credit taken s' tq : batch_from s credit taken s' -> frozen tq (txqs s) -> frozen tq (txqs s').
Proof.
  intros [[_ ->]|(q & t & k & Hq & Hf & _ & _ & -> & _)]; [done|]. intros Hfr x tx Hx Hna.
  specialize (Hfr _ _ Hx Hna). rewrite lookup_insert_ne; [done|]. intros ->. congruence.
Qed.

(** Only the category of [q] has been changed, and not its parameters. *)
Definition served (s : tx_state) (q : Z) (k : ol_tx_sched_wrr_adv_category_info_t) (s' : tx_state) : Prop :=
  order s' = order s /\ sched_index s' = sched_index s /\
  exists k', categories s' = <[Z.to_nat (cat_of q) := k']> (categories s) /\ specs k' = specs k.

(** The queue is put back at the end of its category's list, or dropped from it. *)
Lemma serve_back s q t k n s' :
  inv s -> txqs s !! q = Some t -> aget (categories s) (cat_of q) = Some k ->
  q_flag t = ol_tx_queue_active -> c_active k = true -> (n <= length (q_head t))%nat ->
  let k1 := with_count (s32 (c_frms k - Z.of_nat n)) (s32 (c_bytes k - s32 (bytes_of (take n (q_head t)))))
              (with_list (others q (c_head k)) k) in
  s' = put_cat (cat_of q) k1 (set_txqs (<[q := txq_after n t]> (txqs s)) s) ->
  runs (t <- txq_get q ;;
        if 0 <? q_frms t then TAILQ_INSERT_TAIL (cat_of q) q
        else
          k <- cat_get (cat_of q) ;;
          if c_frms k =? 0 then cat_put (cat_of q) (with_active false k) else mreturn tt) s' (fun _ s'' =>
    inv s'' /\ txqs s'' = <[q := txq_after n t]> (txqs s) /\ same_out s s'' /\ first_select s'' = first_select s /\ served s q k s'').
Proof.
  intros Hinv Hq Hk Hf Hact Hn k1 ->. mstep. eapply runs_txq_get; [apply lookup_insert_eq|].
  destruct (counts_after s q t k n Hinv Hq Hk Hf Hn) as [Hfr Hby]. pose proof (i_txq _ Hinv _ _ Hq) as Hok.
  pose proof (txq_after_ok n t Hok Hf Hn) as Hok'. pose proof (i_cat _ Hinv _ _ Hk) as [Hco Hso].
  assert (Hk1 : aget (categories (put_cat (cat_of q) k1 (set_txqs (<[q := txq_after n t]> (txqs s)) s))) (cat_of q) = Some k1)
    by by eapply put_cat_get.
  assert (Hroom : forall kk, let s1 := put_cat (cat_of q) kk (set_txqs (<[q := txq_after n t]> (txqs s)) s) in
    Z.of_nat (length (queued s1)) < 65536 /\ NoDup (queued s1)).
  { intros kk s1. pose proof (i_room _ Hinv) as Hr. pose proof (i_nodup _ Hinv) as Hnd.
    rewrite (queued_after s s1 q t n Hq eq_refl) in Hr, Hnd. rewrite length_app in Hr.
    split; [lia|by apply NoDup_app in Hnd as (_ & _ & ?)]. }
  assert (Hzero : (c_frms k1 =? 0) = bool_decide (drop n (q_head t) = [] /\ others q (c_head k) = [])).
  { cbn. rewrite Hfr, txq_after_descs by done. pose proof (descs_nil s _ k q Hinv Hk) as Hnil.
    rewrite length_app. case_bool_decide as Hd.
    - destruct Hd as [-> Ho]. rewrite (proj2 Hnil Ho). done.
    - apply Z.eqb_neq. intros Hz. apply Hd. split; [apply nil_length_inv; lia|]. apply Hnil, nil_length_inv. lia. }
  assert (Hfrm : q_frms (txq_after n t) = Z.of_nat (length (drop n (q_head t)))) by (by rewrite (to_frms _ Hok')).
  destruct (Z.ltb_spec 0 (q_frms (txq_after n t))) as [Hpos|Hneg].
  - assert (Hd : drop n (q_head t) <> []) by (intros Hd; rewrite Hd in Hfrm; change (Z.of_nat (length (@nil Z))) with 0 in Hfrm; lia).
    assert (Hfl : q_flag (txq_after n t) = ol_tx_queue_active) by (cbn; case_decide; naive_solver).
    eapply runs_insert_tail; [exact Hk1| |].
    { eapply removed_unlinked; [exact Hinv|exact Hk| |done]. apply others_notin. }
    rewrite put_cat_twice. split; [|split; [done|split; [done|split; [done|by split; [|split; [|eexists; split]]]]]].
    eapply (inv_update s _ q t (txq_after n t) k); [exact Hinv|exact Hq|exact Hk| | | | | | | |apply Hroom].
    + split; [done|done|apply Hinv|apply Hinv].
    + exact Hok'.
    + by destruct Hso.
    + cbn. unfold act_q. rewrite decide_True by done. by rewrite Permutation_app_comm.
    + exact Hfr.
    + exact Hby.
    + cbn. rewrite Hact. rewrite bool_decide_false; [done|]. by destruct (others q (c_head k)).
  - assert (Hd : drop n (q_head t) = []) by (apply nil_length_inv; lia).
    mstep. eapply runs_cat_get; [exact Hk1|]. rewrite Hzero.
    assert (Hfin : forall b, b = negb (bool_decide (others q (c_head k) = [])) ->
      inv (put_cat (cat_of q) (with_active b k1) (set_txqs (<[q := txq_after n t]> (txqs s)) s))).
    { intros b Hb.
      eapply (inv_update s _ q t (txq_after n t) k); [exact Hinv|exact Hq|exact Hk| | | | | | | |apply Hroom].
      - split; [done|done|apply Hinv|apply Hinv].
      - exact Hok'.
      - by destruct Hso.
      - cbn. unfold act_q. rewrite decide_False; [done|]. cbn. case_decide; naive_solver.
      - exact Hfr.
      - exact Hby.
      - exact Hb. }
    destruct (decide (others q (c_head k) = [])) as [Ho|Ho].
    + rewrite bool_decide_true by done. eapply runs_cat_put; [exact Hk1|]. rewrite put_cat_twice.
      split; [|split; [done|split; [done|split; [done|by split; [|split; [|eexists; split]]]]]]. apply Hfin. by rewrite bool_decide_true.
    + rewrite bool_decide_false by naive_solver. mstep. split; [|split; [done|split; [done|split; [done|by split; [|split; [|eexists; split]]]]]].
      replace k1 with (with_active true k1) by (unfold k1, with_active; cbn; by rewrite <- Hact).
      apply Hfin. by rewrite bool_decide_false.
Qed.

Lemma runs_assoc {A B C} (m : M tx_state A) (f : A -> M tx_state B) (g : B -> M tx_state C) s Q :
  runs (y <- (x <- m ;; f x) ;; g y) s Q -> runs (x <- m ;; y <- f x ;; g y) s Q.
Proof. unfold runs, mbnd. by destruct (m s) as [[]|]. Qed.

(** An active category has a queue at its head. *)
Lemma cat_first s c k : inv s -> aget (categories s) c = Some k -> c_active k = true ->
  exists q l t, c_head k = q :: l /\ cat_of q = c /\ txqs s !! q = Some t /\ q_flag t = ol_tx_queue_active.
Proof.
  intros Hinv Hk Hact. destruct (i_cat _ Hinv _ _ Hk) as [Hco _]. rewrite (co_active _ _ _ Hco) in Hact.
  destruct (c_head k) as [|q l] eqn:Hh; [done|].
  destruct (proj1 (co_elem _ _ _ Hco q) ltac:(rewrite Hh; set_solver)) as [(t & Ht & Hf) Hc].
  by exists q, l, t.
Qed.

Lemma serve_txq_spec s k q t l sctx credit :
  inv s -> aget (categories s) (cat_of q) = Some k -> c_active k = true -> c_head k = q :: l ->
  txqs s !! q = Some t -> q_flag t = ol_tx_queue_active ->
  0 <= credit < 2 ^ 32 -> - 2 ^ 31 <= sctx.2 < 2 ^ 31 -> idle_upto s (sched_index s) ->
  runs (TAILQ_REMOVE (cat_of q) q ;; serve_txq (cat_of q) q sctx credit) s (batch_post s sctx credit).
Proof.
  intros Hinv Hk Hact Hh Hq Hf Hcr Hs Hidle. pose proof (i_cat _ Hinv _ _ Hk) as [Hco Hso].
  pose proof (i_txq _ Hinv _ _ Hq) as Hok.
  assert (Hin : q ∈ c_head k) by (rewrite Hh; set_solver).
  mstep. eapply runs_tailq_remove; [exact Hk|exact Hin|]. unfold serve_txq. mstep.
  eapply runs_cat_get; [by eapply put_cat_get|]. cbn [specs with_list]. cbv beta.
  pose proof (so_reserve _ Hso) as Hres. pose proof (so_limit _ Hso) as Hlim. rewrite u32_small by lia.
  destruct (Z.ltb_spec (credit_reserve (specs k)) credit) as [Hlt|Hge].
  - mstep. mstep. mstep. rewrite u32_small by lia.
    pose proof (queued_le _ _ _ Hq) as Hle. pose proof (i_room _ Hinv) as Hroom.
    set (n := dequeued t (send_limit (specs k)) (credit - credit_reserve (specs k))).
    assert (Hn : Z.of_nat n = Z.min (Z.min (q_frms t) (send_limit (specs k))) (credit - credit_reserve (specs k))).
    { unfold n, dequeued. pose proof (to_frms _ Hok). lia. }
    pose proof (to_frms _ Hok) as Hfr.
    eapply runs_mono.
    { eapply ol_tx_dequeue_spec; [exact Hq|exact Hok|by rewrite Hf|lia|lia|lia]. }
    fold n. intros r s1 [-> ->]. cbv beta iota.
    mstep. eapply runs_cat_get; [by eapply put_cat_get|]. mstep.
    eapply runs_cat_put; [by eapply put_cat_get|]. cbn [c_frms c_bytes with_list].
    apply runs_assoc with (f := fun t => if 0 <? q_frms t then TAILQ_INSERT_TAIL (cat_of q) q
        else k <- cat_get (cat_of q) ;; if c_frms k =? 0 then cat_put (cat_of q) (with_active false k) else mreturn tt).
    mstep. eapply runs_mono.
    { eapply (serve_back (set_last_used (Some q) s) q t k n); [|exact Hq|exact Hk|exact Hf|exact Hact|lia|].
      - by destruct Hinv.
      - unfold put_cat, set_last_used, set_sched, set_txqs, set_categories. cbn. by rewrite !list_insert_insert_eq. }
    intros [] s2 (Hinv2 & Htq & Hout & Hfirst & Hord & Hix & k2 & Hk2 & Hsp2). mstep.
    assert (Hlen : length (take n (q_head t)) = n) by (rewrite length_take; lia).
    split; [exact Hinv2|]. split; [by destruct Hout|]. split; [done|]. exists (take n (q_head t)). rewrite Hlen.
    split; [rewrite s32_small by lia; done|]. split; [lia|]. split; [by eapply queued_after|].
    split; [right; exists q, t, k; rewrite Hlen; split_and!; (done || lia)|].
    split; [rewrite Hix; eapply (idle_change s s2); [done|by rewrite Hord|exact Hk|done|exact Hk2]|].
    intros Hnil. right. assert (Hn0 : n = 0%nat) by (by rewrite <- Hlen, Hnil).
    assert (Hq0 : 0 < q_frms t).
    { rewrite Hfr. destruct (q_head t) eqn:Hhd; [by apply (to_active _ Hok) in Hf|cbn; lia]. }
    exists (cat_of q), k2. rewrite Hk2, aget_insert_eq by apply (aget_Some_range _ _ _ Hk).
    split; [done|]. rewrite Hsp2. split; [|lia].
    apply (active_listed s2 q (txq_after n t)); [done|by rewrite Htq, lookup_insert_eq| |].
    + rewrite Hn0. cbn. rewrite decide_False; [done|]. intros [_ Hd]. by apply (to_active _ Hok) in Hf.
    + rewrite Hk2. apply aget_insert_eq, (aget_Some_range _ _ _ Hk).
  - assert (Hu : is_unlinked (put_cat (cat_of q) (with_list (others q (c_head k)) k) s) q).
    { eapply removed_unlinked; [exact Hinv|exact Hk|apply others_notin|done]. }
    mstep. eapply runs_insert_tail; [by eapply put_cat_get|exact Hu|]. rewrite put_cat_twice. mstep. mstep. mstep.
    set (k' := with_list _ _). assert (Hinv' : inv (put_cat (cat_of q) k' s)).
    { destruct (cat_base _ _ _ _ Hco Hq) as [Hp Hd].
      eapply (inv_update s _ q t t k k'); [exact Hinv|exact Hq|exact Hk| |exact Hok|by destruct Hso| | | | |split; apply Hinv].
      - split; [by rewrite insert_id|done|apply Hinv|apply Hinv].
      - cbn. unfold act_q. rewrite decide_True by done. by rewrite Permutation_app_comm.
      - cbn. by rewrite <- Hd, (co_frms _ _ _ Hco).
      - cbn. by rewrite <- Hd, (co_bytes _ _ _ Hco).
      - cbn. rewrite Hact, bool_decide_false; [done|]. by destruct (others q (c_head k)). }
    assert (Hend : forall s2, categories s2 = categories (put_cat (cat_of q) k' s) -> order s2 = order s ->
      sched_index s2 = sched_index s -> batch_end s2 credit []).
    { intros s2 Hc2 Ho2 Hi2. split; [rewrite Hi2; apply (idle_change s s2 _ (cat_of q) k k'); [done|by rewrite Ho2|exact Hk|done|by rewrite Hc2]|].
      intros _. right. exists (cat_of q), k'. rewrite Hc2. split; [by eapply put_cat_get|]. split; [done|]. cbn. lia. }
    destruct (last_used_txq _); mstep; mstep.
    + apply batch_nothing; [done|done|done|done|lia|done|by apply Hend].
    + apply batch_nothing; [by destruct Hinv'|by destruct s|by destruct s|by destruct s|lia|done|by apply Hend].
Qed.

Lemma same_out_trans s1 s2 s3 : same_out s1 s2 -> same_out s2 s3 -> same_out s1 s3.
Proof. intros [] []. split; congruence. Qed.
Lemma picking_out s s' : picking s s' -> same_out s s' /\ first_select s' = first_select s /\ txqs s' = txqs s.
Proof. intros [(o & cs & ->) _ _]. by split_and!. Qed.

Lemma picking_post s s' sctx credit r s'' :
  picking s s' -> batch_post s' sctx credit r s'' -> batch_post s sctx credit r s''.
Proof.
  intros Hp (Hinv & Hout & Hfirst & taken & Hr & Hle & Hq & Hfrom & Hend).
  destruct (picking_out _ _ Hp) as (Hout' & Hfirst' & Htq).
  split; [done|]. split; [by eapply same_out_trans|]. split; [by rewrite Hfirst|]. exists taken.
  split; [done|]. split; [done|]. split; [unfold queued in *; by rewrite <- Htq|].
  split; [|exact Hend]. destruct Hfrom as [[Hnil Hsame]|(q & t & k & Hqt & Hf & Hk & Htk & Hs'' & Hl1 & Hl2)];
    [left; by rewrite Hsame|right].
  pose proof (aget_Some_range _ _ _ Hk) as Hrg. rewrite aget_lookup in Hk by lia.
  destruct (Forall2_lookup_r _ _ _ _ _ (pk_cats _ _ Hp) Hk) as (k0 & Hk0 & m & -> & _).
  exists q, t, k0. rewrite aget_lookup by lia. rewrite <- Htq. by split_and!.
Qed.

Lemma inv_index s i : inv s -> 0 <= i <= 8 -> inv (set_index i s).
Proof. intros [] Hi. by split. Qed.

(** Serving the category picked. *)
Lemma serve_picked s i c s1 k k1 sctx credit :
  inv s -> picking s s1 -> 0 <= i < 8 -> aget (order s1) i = Some c ->
  aget (categories s) c = Some k -> aget (categories s1) c = Some k1 -> same_cat k k1 -> c_active k = true ->
  0 <= credit < 2 ^ 32 -> - 2 ^ 31 <= sctx.2 < 2 ^ 31 -> idle_upto s1 i -> sched_index s <= i ->
  runs (k <- cat_get c ;;
      if credit <? credit_threshold (specs k) then
        cat_put c (with_wrr (s32 (wrr_count k - 1)) k) ;;
        mreturn (0, sctx)
      else
        cat_put c (with_wrr 0 k) ;;
        rotate_order_list_tail i ;;
        modify (set_index i) ;;
        k <- cat_get c ;;
        match c_head k with
        | [] => mreturn (0, sctx)
        | q :: _ =>
            TAILQ_REMOVE c q ;;
            serve_txq c q sctx credit
        end) (put_cat c (with_wrr (wrr_count k1 + 1) k1) s1) (batch_post s sctx credit).
Proof.
  intros Hinv Hp Hi Hc Hk Hk1 Hsame Hact Hcr Hs Hidle Hle.
  assert (Hact1 : c_active k1 = true) by (destruct Hsame as (m & -> & _); done).
  pose proof (so_count _ (proj2 (i_cat _ (picking_inv _ _ Hinv Hp) _ _ Hk1))) as Hcnt.
  mstep. eapply runs_cat_get; [by eapply put_cat_get|]. cbn [specs with_wrr wrr_count].
  destruct (Z.ltb_spec credit (credit_threshold (specs k1))) as [Hth|Hth].
  - mstep. eapply runs_cat_put; [by eapply put_cat_get|]. rewrite put_cat_twice. mstep.
    rewrite s32_small by lia. replace (wrr_count k1 + 1 - 1) with (wrr_count k1) by lia.
    assert (Hp' : picking s (put_cat c (with_wrr (wrr_count k1) (with_wrr (wrr_count k1 + 1) k1)) s1)).
    { change (with_wrr (wrr_count k1) (with_wrr (wrr_count k1 + 1) k1)) with (with_wrr (wrr_count k1) k1).
      eapply picking_put; (done || lia). }
    destruct (picking_out _ _ Hp') as (H1 & H2 & H3).
    apply batch_nothing; [by eapply picking_inv|done|done|done|lia|done|].
    assert (Hix : sched_index s1 = sched_index s) by (destruct (pk_rest _ _ Hp) as (o & cs & ->); done).
    split; [cbn; rewrite Hix; eapply (idle_le _ i); [by eapply (idle_change s1 _ i c k1)|done]|].
    intros _. right. eexists c, _. split; [by eapply put_cat_get|]. split; [done|]. by left.
  - mstep. eapply runs_cat_put; [by eapply put_cat_get|]. rewrite put_cat_twice. mstep.
    change (with_wrr 0 (with_wrr (wrr_count k1 + 1) k1)) with (with_wrr 0 k1).
    assert (Hp' : picking s (put_cat c (with_wrr 0 k1) s1)) by (eapply picking_put; (done || lia)).
    eapply runs_rotate; [apply Hp'|exact Hc|]. intros o Ho Hbefore. mstep. mstep. mstep.
    eapply runs_cat_get; [cbn; by eapply put_cat_get|]. cbn [c_head with_wrr].
    assert (Hp2 : picking s (set_order o (put_cat c (with_wrr 0 k1) s1))) by by apply picking_order.
    pose proof (inv_index _ i (picking_inv _ _ Hinv Hp2) ltac:(lia)) as Hinv2.
    set (s2 := set_index i _) in *.
    assert (Hk2 : aget (categories s2) c = Some (with_wrr 0 k1)) by (cbn; by eapply put_cat_get).
    assert (Hact2 : c_active (with_wrr 0 k1) = true) by (destruct Hsame as (m & -> & _); done).
    destruct (cat_first _ _ _ Hinv2 Hk2 Hact2) as (q & l & t & Hh & <- & Hq & Hf).
    assert (Hid2 : idle_upto s2 i) by (by eapply (idle_change s1 s2 i (cat_of q) k1)).
    cbn in Hh. rewrite Hh. eapply runs_mono; [by eapply serve_txq_spec|].
    intros r s' (H1 & H2 & H3 & taken & Hpost). eapply picking_post; [exact Hp2|]. split; [done|]. split; [by destruct H2|].
    split; [by rewrite H3|]. by exists taken.
Qed.

Definition credit_ok s (credit : Z) : Prop :=
  adf_os_debug = true -> first_select s = true ->
  Forall (fun k => credit_threshold (specs k) <= credit) (categories s).

Lemma select_batch_spec s sctx credit :
  inv s -> credit_ok s credit -> 0 <= credit < 2 ^ 32 -> - 2 ^ 31 <= sctx.2 < 2 ^ 31 ->
  idle_upto s (sched_index s) ->
  runs (ol_tx_sched_select_batch sctx credit) s (fun r s' =>
    first_select s' = false /\ batch_post (set_first false s) sctx credit r s').
Proof.
  intros Hinv Hok Hcr Hs Hidle. unfold ol_tx_sched_select_batch. mstep. mstep. mstep.
  eapply runs_mono with (Q := fun _ s' => s' = set_first false s).
  { destruct (first_select s) eqn:Hf.
    - mstep. mstep. unfold credit_sanity_check. mstep. mstep. unfold adf_os_assert.
      destruct adf_os_debug eqn:Hd; [|by mstep]. apply runs_massert; [|done].
      apply forallb_forall. intros k Hk. specialize (Hok Hd Hf).
      rewrite Forall_forall in Hok. by apply Z.leb_le, Hok, list_elem_of_In.
    - mstep. destruct s. cbn in Hf. by subst. }
  intros [] s0 ->. assert (Hinv0 : inv (set_first false s)) by by destruct Hinv.
  mstep. mstep. mstep. eapply runs_mono; [apply select_loop; [done|apply Hinv0|exact Hidle]|].
  intros [[i c]|] s1; cbn [picked].
  - intros (s2 & k & k1 & Hp & Hid & Hi & Hc & Hk & Hk1 & Hsame & Hact & ->).
    pose proof (i_index _ Hinv) as Hix. change (sched_index (set_first false s)) with (sched_index s) in Hi.
    eapply runs_mono; [apply (serve_picked (set_first false s) i c s2 k k1); try done; cbn; lia|]. intros r s' Hpost. split; [|exact Hpost].
    destruct Hpost as (_ & _ & Hf & _). exact Hf.
  - intros [Hp Hid]. mstep. destruct (picking_out _ _ Hp) as (H1 & H2 & H3). split; [done|].
    pose proof (picking_inv _ _ Hinv0 Hp) as Hinv1.
    apply batch_nothing; [done|done|done|done|lia|done|].
    split; [eapply idle_le; [exact Hid|apply Hinv1]|]. intros _. left. exact (idle_all _ Hinv1 Hid).
Qed.

(** ** Dispatch *)

Definition rejects (l : list Z) : list Z := filter (fun d => htt_accepts d = false) l.
Definition accepted (l : list Z) : list Z := filter (fun d => htt_accepts d = true) l.

Lemma accepted_cons d l : accepted (d :: l) = if htt_accepts d then d :: accepted l else accepted l.
Proof. unfold accepted. rewrite filter_cons. by destruct (htt_accepts d). Qed.
Lemma rejects_cons d l : rejects (d :: l) = if htt_accepts d then rejects l else d :: rejects l.
Proof. unfold rejects. rewrite filter_cons. by destruct (htt_accepts d). Qed.

Lemma rejects_length l : (length (rejects l) <= length l)%nat.
Proof. apply length_filter. Qed.

(** The frames [l] are sent in order or freed, and the credit of the freed ones returned. *)
Record dispatched (l : list Z) (s s' : tx_state) : Prop := {
  di_sent : tx_sent s' = tx_sent s ++ accepted l;
  di_freed : exists fr, tx_freed s' = tx_freed s ++ fr /\ fr ≡ₚ rejects l;
  di_credit : target_tx_credit s' = target_tx_credit s + Z.of_nat (length (rejects l));
  di_txqs : txqs s' = txqs s;
  di_cats : categories s' = categories s;
  di_order : order s' = order s;
  di_index : sched_index s' = sched_index s;
  di_first : first_select s' = first_select s;
  di_running : sched_running s' = sched_running s;
  di_rsrc : rsrc_cnt s' = rsrc_cnt s;
  di_reasons : hl_paused_reason s' = hl_paused_reason s
}.

Lemma dispatched_nil s : dispatched [] s s.
Proof. split; try done; [by rewrite app_nil_r|exists []; by rewrite app_nil_r|cbn; lia]. Qed.
Lemma dispatched_app l1 l2 s1 s2 s3 : dispatched l1 s1 s2 -> dispatched l2 s2 s3 -> dispatched (l1 ++ l2) s1 s3.
Proof.
  intros [A1 (f1 & A2 & A2') A3 A4 A5 A6 A7 A8 A9 A10 A11] [B1 (f2 & B2 & B2') B3 B4 B5 B6 B7 B8 B9 B10 B11].
  split; try congruence.
  - unfold accepted. by rewrite filter_app, app_assoc, B1, A1.
  - exists (f1 ++ f2). split; [by rewrite B2, A2, app_assoc|]. unfold rejects in *. rewrite filter_app.
    by apply Permutation_app.
  - rewrite B3, A3. unfold rejects. rewrite filter_app, length_app. lia.
Qed.
Lemma dispatched_links l s s' v : dispatched l s s' -> dispatched l s (set_links v s').
Proof. by intros []. Qed.
Lemma dispatched_from_links l s s' v : dispatched l (set_links v s) s' -> dispatched l s s'.
Proof. by intros []. Qed.

(** Consecutive buffers of [l] are linked. *)
Fixpoint chain (links : gmap Z Z) (l : list Z) : Prop :=
  match l with
  | x :: (y :: _) as l' => links !! x = Some y /\ chain links l'
  | _ => True
  end.
(** The rejected buffers, from [r] on. *)
Fixpoint rchain (links : gmap Z Z) (r : option Z) (l : list Z) : Prop :=
  match l with [] => r = None | x :: l => r = Some x /\ rchain links (links !! x) l end.

Lemma chain_ext links links' l : (forall x, x ∈ l -> links' !! x = links !! x) -> chain links l -> chain links' l.
Proof.
  induction l as [|x [|y l] IH]; intros Heq; try done. intros [Hx Hl]. split; [by rewrite Heq by set_solver|].
  apply IH; [|done]. intros z Hz. apply Heq. set_solver.
Qed.
Lemma rchain_ext links links' r l : (forall x, x ∈ l -> links' !! x = links !! x) -> rchain links r l -> rchain links' r l.
Proof.
  revert r. induction l as [|x l IH]; intros r Heq; [done|]. intros [Hx Hl]. split; [done|].
  rewrite Heq by set_solver. apply IH; [|done]. intros z Hz. apply Heq. set_solver.
Qed.
Lemma chain_snoc links l x y : chain links (l ++ [x]) -> x ∉ l -> chain (<[x := y]> links) (l ++ [x; y]).
Proof.
  induction l as [|a [|b l] IH]; intros Hc Hx; cbn -[lookup] in *.
  - by rewrite lookup_insert_eq.
  - destruct Hc as [Ha _]. rewrite lookup_insert_ne by set_solver. by rewrite lookup_insert_eq.
  - destruct Hc as [Ha Hc]. split; [by rewrite lookup_insert_ne by set_solver|]. apply IH; [exact Hc|set_solver].
Qed.

(** The state after the batch went to HTT: the rejected frames [R] are linked, not yet freed. *)
Record sending (l R : list Z) (s s' : tx_state) : Prop := {
  se_state : exists links, s' = set_out links (tx_freed s) (tx_sent s ++ accepted l) s;
  se_perm : R ≡ₚ rejects l
}.

Lemma htt_send_loop (l : list Z) : forall s msdu R dn rejected fuel,
  NoDup (dn ++ l) -> (forall x, x ∈ R -> x ∈ dn) -> chain (nb_links s) l -> (l <> [] -> msdu = head l) ->
  rchain (nb_links s) rejected R -> (length l < fuel)%nat ->
  runs (miter fuel (fun '((msdu, num, rejected) : option Z * Z * option Z) =>
    if num =? 0 then mreturn (inr rejected)
    else
      d <- oget msdu ;;
      s <- mget ;;
      let next_msdu := nb_links s !! d in
      rejected <-
        (if htt_accepts d then modify (add_sent d) ;; mreturn rejected
         else
           modify (fun s => set_links (partial_alter (fun _ => rejected) d (nb_links s)) s) ;;
           mreturn (Some d)) ;;
      mreturn (inl (next_msdu, num - 1, rejected))) (msdu, Z.of_nat (length l), rejected)) s
  (fun rejected' s' => exists R', sending l R' s s' /\ rchain (nb_links s') rejected' (R' ++ R)).
Proof.
  induction l as [|d l IH]; intros s msdu R dn rejected [|fuel] Hnd HR Hc Hm Hr Hf; cbn [length] in *; try lia; cbn [miter]; mstep.
  - change (Z.of_nat 0 =? 0) with true. cbv iota. mstep. mstep. exists []. split; [|done]. split; [|done]. exists (nb_links s). cbn. rewrite app_nil_r. by destruct s.
  - rewrite (proj2 (Z.eqb_neq _ _)) by lia. cbv iota. mstep. eapply runs_oget; [by apply Hm|]. mstep. mstep.
    assert (Hdn : (d ∉ dn) /\ (d ∉ l)).
    { apply NoDup_app in Hnd as (_ & Hd & [Hl _]%NoDup_cons). split; [|done]. intros Hin. apply (Hd d Hin). set_solver. }
    assert (Hnd' : NoDup ((dn ++ [d]) ++ l)) by by rewrite <- app_assoc.
    assert (Hnext : l <> [] -> nb_links s !! d = head l) by (destruct l; [done|intros _; apply Hc]).
    assert (Hcl : chain (nb_links s) l) by (destruct l; [done|apply Hc]).
    replace (Z.of_nat (Datatypes.S (length l)) - 1) with (Z.of_nat (length l)) by lia.
    destruct (htt_accepts d) eqn:Ha.
    + mstep. mstep. mstep. mstep. mstep.
      eapply runs_mono; [apply (IH (add_sent d s) _ R (dn ++ [d])); [done|set_solver|done|done|done|lia]|].
      intros r' s' (R' & [(links & ->) Hp] & Hr'). exists R'. split; [|done]. split.
      * exists links. rewrite accepted_cons, Ha. cbn [tx_sent add_sent set_out]. by rewrite <- app_assoc.
      * by rewrite rejects_cons, Ha.
    + mstep. mstep. mstep. mstep. mstep.
      set (links' := partial_alter (fun _ => rejected) d (nb_links s)).
      assert (Hext : forall x, x <> d -> links' !! x = nb_links s !! x) by (intros x Hx; by apply lookup_partial_alter_ne).
      eapply runs_mono; [apply (IH (set_links links' s) _ (d :: R) (dn ++ [d]));
        [done|set_solver| |done| |lia]|].
      * eapply chain_ext; [|exact Hcl]. intros x Hx. apply Hext. set_solver.
      * split; [done|]. change (rchain links' (links' !! d) R).
        assert (Hd : links' !! d = rejected) by apply lookup_partial_alter_eq. rewrite Hd.
        eapply rchain_ext; [|exact Hr]. intros x Hx. apply Hext. set_solver.
      * intros r' s' (R' & [(links & ->) Hp] & Hr'). exists (R' ++ [d]). rewrite <- app_assoc. split; [|done]. split.
        -- exists links. by rewrite accepted_cons, Ha.
        -- rewrite rejects_cons, Ha, Hp. symmetry. apply Permutation_cons_append.
Qed.

Lemma reject_loop (R : list Z) : forall s r fuel,
  rchain (nb_links s) r R -> (length R < fuel)%nat ->
  - 2 ^ 31 <= target_tx_credit s -> target_tx_credit s + Z.of_nat (length R) < 2 ^ 31 ->
  runs (miter fuel (fun rejected =>
    match rejected with
    | None => mreturn (inr tt)
    | Some d =>
        s <- mget ;;
        let next := nb_links s !! d in
        modify (add_credit htt_tx_msdu_credit) ;;
        modify (add_freed d) ;;
        mreturn (inl next)
    end) r) s (fun _ s' =>
    s' = set_out (nb_links s) (tx_freed s ++ R) (tx_sent s)
           (set_counts (target_tx_credit s + Z.of_nat (length R)) (rsrc_cnt s) s)).
Proof.
  induction R as [|d R IH]; intros s r [|fuel] Hr Hf H1 H2; cbn [length] in *; try lia; cbn [miter]; mstep.
  - cbn in Hr. subst r. mstep. mstep. rewrite app_nil_r, Z.add_0_r. by destruct s.
  - destruct Hr as [-> Hr]. mstep. mstep. mstep. mstep. mstep. mstep. mstep.
    assert (Hs : s32 (target_tx_credit s + htt_tx_msdu_credit) = target_tx_credit s + 1)
      by (apply s32_small; unfold htt_tx_msdu_credit; lia).
    eapply runs_mono; [apply IH; cbn; rewrite ?Hs; [exact Hr|lia|lia|lia]|].
    intros [] s' ->. cbn. rewrite Hs, <- app_assoc. cbn. unfold set_out, set_counts. cbn. f_equal. lia.
Qed.

Lemma ol_tx_send_batch_spec s (l : list Z) h :
  NoDup l -> chain (nb_links s) l -> (l <> [] -> Some h = head l) ->
  - 2 ^ 31 <= target_tx_credit s -> target_tx_credit s + Z.of_nat (length l) < 2 ^ 31 ->
  runs (ol_tx_send_batch h (Z.of_nat (length l))) s (fun _ s' => dispatched l s s').
Proof.
  intros Hnd Hc Hh H1 H2. unfold ol_tx_send_batch, htt_tx_send_batch. mstep.
  eapply runs_mono; [apply (htt_send_loop l s (Some h) [] [] None); [done|set_solver|done|done|done|lia]|].
  intros r s1 (R & [(links & ->) Hp] & Hr). rewrite app_nil_r in Hr.
  assert (Hlen : (length R <= length l)%nat) by (rewrite Hp; apply rejects_length).
  eapply runs_mono; [apply reject_loop; [exact Hr|lia|cbn; lia|cbn; lia]|].
  intros [] s' ->. cbn. split; try done.
  - exists R. by split.
  - cbn. by rewrite Hp.
Qed.

Lemma dispatch_loop (l : list Z) : forall s b fuel,
  NoDup (b ++ l) -> chain (nb_links s) b -> (length l < fuel)%nat ->
  - 2 ^ 31 <= target_tx_credit s -> target_tx_credit s + Z.of_nat (length (b ++ l)) < 2 ^ 31 ->
  runs (r <- miter fuel dispatch_round (l, Z.of_nat (length l), last b, head b, Z.of_nat (length b)) ;;
        match r.1 with
        | Some h => ol_tx_send_batch h r.2
        | None => mreturn tt
        end) s (fun _ s' => dispatched (b ++ l) s s').
Proof.
  induction l as [|d l IH]; intros s b [|fuel] Hnd Hc Hf H1 H2; cbn [length] in *; try lia;
    cbn [miter]; mstep; mstep; unfold dispatch_round at 1.
  - change (Z.of_nat 0 =? 0) with true. cbv iota. mstep. mstep. rewrite app_nil_r in *.
    destruct (head b) as [h|] eqn:Hh; cbn [fst snd].
    + by apply ol_tx_send_batch_spec.
    + mstep. destruct b; [apply dispatched_nil|done].
  - rewrite (proj2 (Z.eqb_neq _ _)) by lia. cbv iota.
    replace (Z.of_nat (Datatypes.S (length l)) - 1) with (Z.of_nat (length l)) by lia.
    assert (Hlink : runs (match last b with
        | Some p => modify (fun s => set_links (<[p := d]> (nb_links s)) s)
        | None => mreturn tt end) s (fun _ s1 => exists links, s1 = set_links links s /\ chain links (b ++ [d]))).
    { destruct b as [|p b _] using rev_ind; [cbn [last]; mstep; exists (nb_links s); split; [by destruct s|done]|].
      rewrite last_snoc. cbv iota. mstep. eexists. split; [reflexivity|]. rewrite <- app_assoc. cbn [app].
      apply chain_snoc; [done|]. rewrite <- !app_assoc in Hnd. apply NoDup_app in Hnd as (_ & Hd & _). set_solver. }
    assert (Hnd' : NoDup ((b ++ [d]) ++ l)) by by rewrite <- app_assoc.
    mstep. eapply runs_mono; [exact Hlink|]. intros [] s1 (links & -> & Hc1).
    assert (Hhd : Some (default d (head b)) = head (b ++ [d])) by by destruct b.
    destruct (id_storage d).
    + mstep. cbv iota. apply runs_bnd_inv.
      replace (Some d) with (last (b ++ [d])) by by rewrite last_snoc. rewrite Hhd.
      replace (Z.of_nat (length b) + 1) with (Z.of_nat (length (b ++ [d]))) by (rewrite length_app; cbn; lia).
      eapply runs_mono; [apply IH; [done|exact Hc1|lia|done|by rewrite <- app_assoc]|].
      intros [] s' Hdi. rewrite <- app_assoc in Hdi. by eapply dispatched_from_links.
    + assert (Hb : NoDup b) by (by apply NoDup_app in Hnd as [? _]).
      rewrite length_app in H2. cbn [length] in H2.
      mstep. eapply runs_mono; [apply (ol_tx_send_batch_spec _ b); [done| |by destruct b|done|cbn; lia]|].
      { cbn. clear -Hc1. induction b as [|x [|y b] IHb]; [done|done|]. destruct Hc1 as [Hx Hb]. split; [done|by apply IHb]. }
      intros [] s2 Hd2. mstep.
      assert (Hone : runs (if htt_accepts d then modify (add_sent d)
          else modify (add_credit htt_tx_msdu_credit) ;; modify (add_freed d)) s2 (fun _ s3 => dispatched [d] s2 s3)).
      { destruct (htt_accepts d) eqn:Ha; mstep; [|mstep].
        - split; rewrite ?accepted_cons, ?rejects_cons, ?Ha; try done; [exists []; by rewrite app_nil_r|cbn; lia].
        - assert (Hcr : s32 (target_tx_credit s2 + htt_tx_msdu_credit) = target_tx_credit s2 + 1).
          { rewrite (di_credit _ _ _ Hd2). apply s32_small. unfold htt_tx_msdu_credit.
            pose proof (rejects_length b). change (target_tx_credit (set_links links s)) with (target_tx_credit s). lia. }
          split; rewrite ?accepted_cons, ?rejects_cons, ?Ha; try done.
          + cbn. by rewrite app_nil_r.
          + by exists [d]. }
      eapply runs_mono; [exact Hone|]. intros [] s3 Hd3. mstep. cbv iota. apply runs_bnd_inv.
      pose proof (dispatched_from_links _ _ _ _ (dispatched_app _ _ _ _ _ Hd2 Hd3)) as Hd23.
      assert (Hlf : (length (rejects (b ++ [d])) <= length b + 1)%nat).
      { pose proof (rejects_length (b ++ [d])) as Hl. rewrite length_app in Hl. cbn [length] in Hl. lia. }
      eapply runs_mono; [apply (IH s3 []); [|done|lia| |]|].
      * by apply NoDup_app in Hnd' as (_ & _ & ?).
      * rewrite (di_credit _ _ _ Hd23). lia.
      * rewrite (di_credit _ _ _ Hd23). cbn. lia.
      * intros [] s' Hdi. replace (b ++ d :: l) with ((b ++ [d]) ++ l) by by rewrite <- app_assoc.
        by eapply dispatched_app.
Qed.

(** ** The scheduler *)

(** The frames [sctx] have been selected and paid for. *)
Record selected (s : tx_state) (sctx : list Z * Z) (s' : tx_state) : Prop := {
  sl_inv : inv s';
  sl_queued : queued s ≡ₚ sctx.1 ++ queued s';
  sl_fifo : fifo (txqs s) sctx.1 (txqs s') /\ frozen (txqs s) (txqs s');
  sl_count : sctx.2 = Z.of_nat (length sctx.1);
  sl_credit : target_tx_credit s' = target_tx_credit s - Z.of_nat (length sctx.1);
  sl_nonneg : sctx.1 <> [] -> 0 <= target_tx_credit s';
  sl_idle : idle_upto s' (sched_index s');
  sl_ok : credit_ok s' (target_tx_credit s');
  sl_rsrc : rsrc_cnt s' = rsrc_cnt s;
  sl_reasons : hl_paused_reason s' = hl_paused_reason s;
  sl_freed : tx_freed s' = tx_freed s;
  sl_sent : tx_sent s' = tx_sent s
}.

Lemma selected_length s sctx s' : inv s -> selected s sctx s' -> Z.of_nat (length sctx.1) < 65536.
Proof.
  intros Hinv Hs. pose proof (i_room _ Hinv) as Hr. rewrite (sl_queued _ _ _ Hs), length_app in Hr. lia.
Qed.

(** Why the scheduler stops: no credit, nothing to send, or a category that must wait *)
Definition stopped s' : Prop := target_tx_credit s' <= 0 \/ none_active s' \/ held s' (target_tx_credit s').

Lemma sched_round_spec s sctx s' : inv s -> - 2 ^ 31 <= target_tx_credit s < 2 ^ 31 -> selected s sctx s' ->
  runs (sched_round sctx) s' (fun r s'' =>
    match r with
    | inl sctx' => selected s sctx' s'' /\ (Z.to_nat (target_tx_credit s'') < Z.to_nat (target_tx_credit s'))%nat
    | inr sctx' => selected s sctx' s'' /\ stopped s''
    end).
Proof.
  intros Hinv Hcr Hs. pose proof (selected_length _ _ _ Hinv Hs) as Hlen.
  destruct Hs as [H1 H2 H0 H3 H4 H5 Hid H6 H7 H8 H9 H10]. unfold sched_round. mstep. mstep.
  destruct (Z.ltb_spec 0 (target_tx_credit s')) as [Hpos|Hneg]; [|mstep; split; [done|by left]].
  rewrite u32_small by lia. mstep.
  eapply runs_mono; [apply select_batch_spec; [done|done|lia|lia|done]|].
  intros r s1 [Hfirst (Hinv1 & Hout & _ & taken & -> & Hle & Hq & Hfrom & Hid1 & Hend)]. cbn [fst snd].
  change (queued (set_first false s')) with (queued s') in Hq.
  assert (Hlen' : Z.of_nat (length (sctx.1 ++ taken)) < 65536).
  { pose proof (i_room _ Hinv) as Hr. rewrite H2, Hq, app_assoc, length_app in Hr. lia. }
  assert (Hsel : forall s2, s2 = (if 0 <? Z.of_nat (length taken) then add_credit (- Z.of_nat (length taken)) s1 else s1) ->
    selected s (sctx.1 ++ taken, s32 (sctx.2 + Z.of_nat (length taken))) s2 /\
    target_tx_credit s2 = target_tx_credit s' - Z.of_nat (length taken)).
  { intros s2 Hs2. destruct Hout as [O1 O2 O3 O4 O5 O6 O7]. cbn in O1, O2, O3, O5, O6.
    assert (Hcr2 : target_tx_credit s2 = target_tx_credit s' - Z.of_nat (length taken)).
    { rewrite Hs2. destruct (Z.ltb_spec 0 (Z.of_nat (length taken))); cbn; rewrite O1; [apply s32_small; lia|lia]. }
    split; [|done]. rewrite length_app in Hlen'.
    assert (Hsame : inv s2 /\ txqs s2 = txqs s1 /\ first_select s2 = false /\ (order s2 = order s1 /\ sched_index s2 = sched_index s1 /\ categories s2 = categories s1) /\ rsrc_cnt s2 = rsrc_cnt s1 /\
      hl_paused_reason s2 = hl_paused_reason s1 /\ tx_freed s2 = tx_freed s1 /\ tx_sent s2 = tx_sent s1).
    { rewrite Hs2. destruct (0 <? Z.of_nat (length taken)); [|done].
      split; [by destruct Hinv1|done]. }
    destruct Hsame as (S1 & S2 & S3 & (S8 & S9 & S0) & S4 & S5 & S6 & S7).
    split; cbn [fst snd]; [done| | |rewrite s32_small by lia; rewrite length_app; lia
      |rewrite length_app; lia|lia| | |congruence|congruence|congruence|congruence].
    - unfold queued at 2. rewrite S2. by rewrite H2, Hq, <- app_assoc.
    - rewrite S2. destruct H0 as [H0 H0']. split; [eapply fifo_trans; [exact H0|by eapply (batch_fifo _ _ _ _ Hfrom)]|].
      by eapply (batch_frozen _ _ _ _ _ Hfrom).
    - unfold idle_upto. by rewrite S8, S9, S0.
    - intros _ Hf. congruence. }
  mstep. eapply runs_mono with (Q := fun _ s2 => s2 = (if 0 <? Z.of_nat (length taken) then add_credit (- Z.of_nat (length taken)) s1 else s1)).
  { destruct (0 <? Z.of_nat (length taken)); by mstep. }
  intros [] s2 Hs2. destruct (Hsel s2 Hs2) as [Hsel2 Hcr2].
  destruct (Z.eqb_spec (Z.of_nat (length taken)) 0) as [Hz|Hnz]; mstep; [|split; [done|lia]]. split; [done|]. right.
  assert (taken = []) as -> by (apply nil_length_inv; lia). cbn in Hs2, Hcr2. rewrite Hcr2, Z.sub_0_r, Hs2. by apply Hend.
Qed.

Lemma sched_loop s : inv s -> - 2 ^ 31 <= target_tx_credit s < 2 ^ 31 -> credit_ok s (target_tx_credit s) ->
  sched_index s = 0 ->
  runs (miter (Datatypes.S (Z.to_nat (target_tx_credit s))) sched_round ([], 0)) s (fun sctx s' =>
    selected s sctx s' /\ stopped s').
Proof.
  intros Hinv Hcr Hok Hidx.
  apply runs_miter with (I := selected s) (mu := fun _ s' => Z.to_nat (target_tx_credit s')); [| |lia].
  2: { split; cbn; try done; [|lia|].
       - split; [apply fifo_nil|by intros q t Ht _].
       - rewrite Hidx. intros j c k Hj Hc. unfold aget in Hc. by rewrite decide_False in Hc by lia. }
  intros sctx s' Hs. by apply sched_round_spec.
Qed.

(** What the scheduler does: some queued frames [taken], in this order, went to the target
    or, if it rejected them, were freed; the credit pays for the ones sent. *)
Definition scheduled (s : tx_state) (taken : list Z) (s' : tx_state) : Prop :=
  inv s' /\ queued s ≡ₚ taken ++ queued s' /\ fifo (txqs s) taken (txqs s') /\
  tx_sent s' = tx_sent s ++ accepted taken /\
  (exists fr, tx_freed s' = tx_freed s ++ fr /\ fr ≡ₚ rejects taken) /\
  target_tx_credit s' = target_tx_credit s - Z.of_nat (length (accepted taken)) /\
  (taken <> [] -> 0 <= target_tx_credit s') /\
  sched_running s' = false /\ credit_ok s' (target_tx_credit s') /\
  rsrc_cnt s' = rsrc_cnt s /\ hl_paused_reason s' = hl_paused_reason s.

Lemma accepted_rejects l : (length (accepted l) + length (rejects l) = length l)%nat.
Proof. induction l as [|d l IH]; [done|]. rewrite accepted_cons, rejects_cons. destruct (htt_accepts d); cbn; lia. Qed.

Lemma ol_tx_sched_spec s : inv s -> sched_running s = false -> - 2 ^ 31 <= target_tx_credit s < 2 ^ 31 ->
  credit_ok s (target_tx_credit s) ->
  runs ol_tx_sched s (fun _ s' => frozen (txqs s) (txqs s') /\ exists taken, scheduled s taken s' /\
    stopped (set_counts (target_tx_credit s - Z.of_nat (length taken)) (rsrc_cnt s') s')).
Proof.
  intros Hinv Hrun Hcr Hok. unfold ol_tx_sched. mstep. mstep. rewrite Hrun. mstep. mstep. mstep.
  unfold ol_tx_sched_select_init. mstep. mstep. mstep. mstep.
  set (s0 := set_last_used None _). assert (Hinv0 : inv s0) by (destruct Hinv; split; done || (cbn; lia)).
  eapply runs_mono; [apply (sched_loop s0); done|]. intros [taken frms] s1 [Hs1 Hstop].
  pose proof (selected_length _ _ _ Hinv0 Hs1) as Hlen. destruct Hs1 as [H1 H2 [H0 H0'] H3 H4 H5 _ H6 H7 H8 H9 H10].
  cbn [fst snd] in *. subst frms. mstep. unfold ol_tx_sched_dispatch. cbn [fst snd].
  change (target_tx_credit s0) with (target_tx_credit s) in *. change (queued s0) with (queued s) in *.
  pose proof (i_nodup _ Hinv) as Hnd. rewrite H2 in Hnd. apply NoDup_app in Hnd as (Hnd & _ & _).
  assert (Hlow : - 2 ^ 31 <= target_tx_credit s1).
  { destruct taken; [cbn in H4; lia|]. specialize (H5 ltac:(done)). lia. }
  eapply runs_mono; [apply (dispatch_loop taken s1 []); [done|done|lia|done|cbn; lia]|].
  intros [] s2 [D1 (fr & D2 & D2') D3 D4 D5 D6 D7 D8 D9 D10 D11]. mstep. split; [cbn; by rewrite D4|]. exists taken. cbn [app] in *.
  split; [|unfold stopped, none_active, held in *; cbn; by rewrite D5, <- H4].
  pose proof (accepted_rejects taken) as Har.
  split; [|split; [|split; [|split; [|split; [|split; [|split; [|split; [|split; [|split]]]]]]]]]; cbn.
  - destruct H1 as [I1 I2 I3 I4 I5 I6 I7].
    split; cbn; rewrite ?D4, ?D5, ?D6, ?D7; try done; unfold queued in *; cbn; by rewrite D4.
  - unfold queued at 2. cbn. rewrite D4. done.
  - by rewrite D4.
  - by rewrite D1, H10.
  - exists fr. by rewrite D2, H9.
  - rewrite D3, H4. lia.
  - intros Ht. specialize (H5 Ht). lia.
  - done.
  - intros Hd. cbn. rewrite D8, D5, D3. intros Hf. eapply Forall_impl; [by apply (H6 Hd Hf)|]. cbn. lia.
  - by rewrite D10, H7.
  - by rewrite D11, H8.
Qed.

(** ** Operations on a queue *)

(** [tid] is a TID of the queue [q], which is [t]. *)
Record queue_at s (q tid : Z) (t : ol_tx_frms_queue_t) (k : ol_tx_sched_wrr_adv_category_info_t) : Prop := {
  qa_txq : txqs s !! q = Some t;
  qa_tid : aget tid_to_ac tid = Some (cat_of q);
  qa_cat : aget (categories s) (cat_of q) = Some k
}.

Lemma tid_to_ac_range tid c : aget tid_to_ac tid = Some c -> 0 <= c < 8.
Proof.
  intros Hc. pose proof (aget_Some_range _ _ _ Hc) as Hr. rewrite aget_lookup in Hc by lia.
  assert (Hall : Forall (fun c => 0 <= c < 8) tid_to_ac).
  { vm_compute tid_to_ac. repeat constructor; discriminate. }
  rewrite Forall_lookup in Hall. by eapply Hall.
Qed.

Lemma queue_exists s q tid t : inv s -> txqs s !! q = Some t -> aget tid_to_ac tid = Some (cat_of q) ->
  exists k, queue_at s q tid t k.
Proof.
  intros Hinv Hq Ht. pose proof (tid_to_ac_range _ _ Ht) as Hr.
  destruct (aget_is_Some (categories s) (cat_of q)) as [k Hk]; [rewrite (i_len _ Hinv); lia|]. by exists k.
Qed.

(** A change of a queue that does not concern the scheduler. *)
Lemma inv_same_act s s' q t t' : inv s -> txqs s !! q = Some t -> txqs s' = <[q := t']> (txqs s) ->
  categories s' = categories s -> order s' = order s -> sched_index s' = sched_index s ->
  txq_ok t' -> act_q q t' = act_q q t -> act_descs t' = act_descs t ->
  Z.of_nat (length (queued s')) < 65536 /\ NoDup (queued s') -> inv s'.
Proof.
  intros Hinv Hq Htq Hcs Hord Hidx Hok Haq Had Hroom.
  destruct (aget (categories s) (cat_of q)) as [k|] eqn:Hk.
  - destruct (i_cat _ Hinv _ _ Hk) as [Hco Hso]. destruct (cat_base _ _ _ _ Hco Hq) as [Hp Hd].
    eapply (inv_update s s' q t t' k k); [exact Hinv|exact Hq|exact Hk| |exact Hok|exact Hso|by rewrite Haq| | |apply Hco|exact Hroom].
    + split; [done| |rewrite Hord; apply Hinv|rewrite Hidx; apply Hinv].
      pose proof (aget_Some_range _ _ _ Hk) as Hrg. rewrite aget_lookup in Hk by lia.
      by rewrite (list_insert_id _ _ _ Hk).
    + by rewrite Had, <- Hd, (co_frms _ _ _ Hco).
    + by rewrite Had, <- Hd, (co_bytes _ _ _ Hco).
  - destruct Hinv as [I1 I2 I3 I4 I5 I6 I7]. destruct Hroom. split; rewrite ?Hcs, ?Hord, ?Hidx, ?Htq; try done.
    + intros x tx. intros [[<- <-]|[_ Hx]]%lookup_insert_Some; [done|by eapply I1].
    + intros c kc Hc. destruct (I3 _ _ Hc). split; [|done].
      apply cat_frame; [done|]. congruence.
Qed.

Lemma queued_put s s' q t t' : txqs s !! q = Some t -> txqs s' = <[q := t']> (txqs s) ->
  q_head t' = q_head t -> queued s' ≡ₚ queued s.
Proof.
  intros Hq Hs' Hh. unfold queued. by rewrite Hs', (queued_insert _ _ _ _ Hq), (queued_delete _ _ _ Hq), Hh.
Qed.
Lemma room_put s s' : inv s -> queued s' ≡ₚ queued s -> Z.of_nat (length (queued s')) < 65536 /\ NoDup (queued s').
Proof. intros Hinv Hp. rewrite Hp. split; apply Hinv. Qed.

Lemma with_paused_ok n t : txq_ok t -> (n <> 0 <-> paused_total t <> 0) -> 0 <= n < 256 -> txq_ok (with_paused n t).
Proof. intros [H1 H2 H3 H4 H5 H6] Hn Hr. split; cbn; try done. by rewrite H5. Qed.

(** Deactivating an active queue; it is then paused or emptied. *)
Lemma deactivate_inv s s' q tid t t' k :
  inv s -> queue_at s q tid t k -> q_flag t = ol_tx_queue_active ->
  txqs s' = <[q := t']> (txqs s) -> categories s' = <[Z.to_nat (cat_of q) := deq_cat q t k]> (categories s) ->
  order s' = order s -> sched_index s' = sched_index s -> txq_ok t' -> q_flag t' <> ol_tx_queue_active ->
  Z.of_nat (length (queued s')) < 65536 /\ NoDup (queued s') -> inv s'.
Proof.
  intros Hinv [Hq _ Hk] Hf Htq Hcs Hord Hidx Hok' Hf' Hroom.
  destruct (i_cat _ Hinv _ _ Hk) as [Hco Hso]. destruct (cat_base _ _ _ _ Hco Hq) as [Hp Hd].
  pose proof (cat_small _ _ _ _ Hinv Hq Hk) as Hsm. pose proof (i_room _ Hinv) as Hr.
  pose proof (i_txq _ Hinv _ _ Hq) as Hok.
  assert (Ha : act_descs t = q_head t) by (unfold act_descs; by case_decide).
  assert (Hn : act_descs t' = [] /\ act_q q t' = []) by (unfold act_descs, act_q; by case_decide).
  destruct Hn as [Hd' Hq']. rewrite Ha in *.
  assert (Hfr : s32 (c_frms k - q_frms t) = Z.of_nat (length (descs_of (txqs s) (others q (c_head k))))).
  { rewrite (co_frms _ _ _ Hco), Hd, (to_frms _ Hok). rewrite !length_app in *. rewrite s32_small; lia. }
  assert (Hact : c_active k = true).
  { rewrite (co_active _ _ _ Hco). rewrite bool_decide_false; [done|]. intros Hnil.
    assert (Hin : q ∈ c_head k); [|rewrite Hnil in Hin; set_solver].
    apply (co_elem _ _ _ Hco). split; [|done]. by apply (active_at _ _ _ Hq). }
  assert (Hdq : deq_cat q t k = with_active (negb (bool_decide (others q (c_head k) = [])))
    (with_list (others q (c_head k)) (with_count (s32 (c_frms k - q_frms t)) (s32 (c_bytes k - q_bytes t)) k))).
  { unfold deq_cat. cbn [c_frms with_list with_count]. rewrite Hact, Hfr, andb_true_r.
    pose proof (descs_nil s _ k q Hinv Hk) as Hnil. case_bool_decide as Ho.
    - rewrite (proj2 Hnil Ho). done.
    - rewrite (proj2 (Z.eqb_neq _ _)); [unfold with_active, with_list, with_count; cbn; by rewrite Hact|].
      intros Hz. apply Ho, Hnil, nil_length_inv. lia. }
  rewrite Hdq in Hcs.
  eapply (inv_update s s' q t t' k); [exact Hinv|exact Hq|exact Hk| |exact Hok'| | | | | |exact Hroom].
  - split; [done|exact Hcs|rewrite Hord; apply Hinv|rewrite Hidx; apply Hinv].
  - by destruct Hso.
  - by rewrite Hq'.
  - by rewrite Hd'.
  - rewrite Hd'. cbn. rewrite (co_bytes _ _ _ Hco), Hd, bytes_app, (to_bytes _ Hok).
    rewrite (s32_sub _ _ (bytes_of (q_head t) + bytes_of (descs_of (txqs s) (others q (c_head k)))) (bytes_of (q_head t)));
      [f_equal; lia|apply s32_mod|apply u32_mod].
  - reflexivity.
Qed.

(** Adding frames to a queue that is or becomes active. *)
Lemma activate_inv s s' q tid t t' k frms bytes :
  inv s -> queue_at s q tid t k -> txqs s' = <[q := t']> (txqs s) ->
  categories s' = <[Z.to_nat (cat_of q) := enq_cat q frms bytes (bool_decide (q_flag t = ol_tx_queue_active)) k]> (categories s) ->
  order s' = order s -> sched_index s' = sched_index s -> txq_ok t' -> q_flag t' = ol_tx_queue_active ->
  Z.of_nat (length (q_head t')) = Z.of_nat (length (act_descs t)) + frms ->
  bytes_of (q_head t') mod 2 ^ 32 = (bytes_of (act_descs t) + bytes) mod 2 ^ 32 ->
  Z.of_nat (length (queued s')) < 65536 /\ NoDup (queued s') -> inv s'.
Proof.
  intros Hinv [Hq Htid Hk] Htq Hcs Hord Hidx Hok' Hf' Hlen Hby Hroom.
  destruct (i_cat _ Hinv _ _ Hk) as [Hco Hso]. destruct (cat_base _ _ _ _ Hco Hq) as [Hp Hd].
  assert (Ha' : act_descs t' = q_head t' /\ act_q q t' = [q]) by (unfold act_descs, act_q; by rewrite !decide_True by done).
  destruct Ha' as [Hd' Hq'].
  assert (Hsm : Z.of_nat (length (q_head t' ++ descs_of (txqs s) (others q (c_head k)))) < 65536).
  { destruct Hroom as [Hr _]. unfold queued in Hr. rewrite Htq, (queued_insert _ _ _ _ Hq), length_app in Hr.
    rewrite length_app. pose proof (submseteq_length _ _ (descs_queued (delete q (txqs s)) (others q (c_head k))
      (NoDup_filter _ _ (co_nodup _ _ _ Hco)))) as Hsub.
    rewrite (descs_ext (txqs s)) in Hsub; [lia|]. intros x Hx. apply lookup_delete_ne.
    intros ->. by apply (others_notin x (c_head k)). }
  assert (Hnum : s32 (c_frms k + frms) = Z.of_nat (length (act_descs t' ++ descs_of (txqs s) (others q (c_head k)))) /\
    s32 (c_bytes k + bytes) = s32 (bytes_of (act_descs t' ++ descs_of (txqs s) (others q (c_head k))))).
  { rewrite Hd', (co_frms _ _ _ Hco), (co_bytes _ _ _ Hco), Hd, !length_app, !bytes_app in *. split.
    - rewrite s32_small by lia. lia.
    - rewrite (s32_add (s32 _) bytes (bytes_of (act_descs t) + bytes_of (descs_of (txqs s) (others q (c_head k)))) bytes);
        [|apply s32_mod|done].
      replace (bytes_of (act_descs t) + bytes_of (descs_of (txqs s) (others q (c_head k))) + bytes) with
        (bytes_of (act_descs t) + bytes + bytes_of (descs_of (txqs s) (others q (c_head k)))) by lia.
      by apply s32_add. }
  destruct Hnum as [Hn1 Hn2].
  eapply (inv_update s s' q t t' k); [exact Hinv|exact Hq|exact Hk| |exact Hok'| | | | | |exact Hroom].
  - split; [done|exact Hcs|rewrite Hord; apply Hinv|rewrite Hidx; apply Hinv].
  - destruct Hso. by unfold enq_cat; case_bool_decide.
  - rewrite Hq'. unfold enq_cat, act_q in *. case_bool_decide as Hf; cbn.
    + by rewrite decide_True in Hp by done.
    + rewrite decide_False in Hp by done. cbn in Hp. rewrite <- Hp. symmetry. apply Permutation_cons_append.
  - unfold enq_cat. by case_bool_decide.
  - unfold enq_cat. by case_bool_decide.
  - unfold enq_cat, act_q in *. case_bool_decide as Hf; cbn; [apply Hco|].
    rewrite bool_decide_false; [done|]. by destruct (c_head k).
Qed.

(** What an operation that neither sends nor configures leaves alone. *)
Record quiet (s s' : tx_state) : Prop := {
  qt_out : same_out s s';
  qt_first : first_select s' = first_select s;
  qt_specs : specs <$> categories s' = specs <$> categories s
}.
Lemma quiet_refl s : quiet s s.
Proof. by split; [split|..]. Qed.

Lemma specs_put (cs : list ol_tx_sched_wrr_adv_category_info_t) c k k' :
  aget cs c = Some k -> specs k' = specs k -> specs <$> <[Z.to_nat c := k']> cs = specs <$> cs.
Proof.
  intros Hk Hs. pose proof (aget_Some_range _ _ _ Hk) as Hr. rewrite aget_lookup in Hk by lia.
  rewrite list_fmap_insert, Hs. apply list_insert_id. by rewrite list_lookup_fmap, Hk.
Qed.
Lemma quiet_put s s' c k k' : aget (categories s) c = Some k -> specs k' = specs k ->
  categories s' = <[Z.to_nat c := k']> (categories s) -> same_out s s' -> first_select s' = first_select s -> quiet s s'.
Proof. intros Hk Hs Hc Ho Hf. split; [done|done|]. rewrite Hc. by eapply specs_put. Qed.
Lemma deq_specs q t k : specs (deq_cat q t k) = specs k.
Proof. unfold deq_cat. cbn. by case_match. Qed.
Lemma enq_specs q f b a k : specs (enq_cat q f b a k) = specs k.
Proof. by destruct a. Qed.

Lemma disc_specs q f b e k : specs (disc_cat q f b e k) = specs k.
Proof. unfold disc_cat. destruct e; cbn; by case_match. Qed.

Lemma credit_ok_quiet s s' c : quiet s s' -> credit_ok s c -> credit_ok s' c.
Proof.
  intros [_ Hf Hs] Hok Hd Hf'. rewrite Hf in Hf'. specialize (Hok Hd Hf').
  apply (Forall_fmap specs (fun p => credit_threshold p <= c)). rewrite Hs. by apply Forall_fmap.
Qed.

(** *** Pausing *)

Lemma pause_spec s q tid t :
  inv s -> txqs s !! q = Some t -> aget tid_to_ac tid = Some (cat_of q) -> paused_total t < 255 ->
  runs (ol_txrx_peer_tid_pause_base q tid) s (fun _ s' => inv s' /\ quiet s s' /\ queued s' ≡ₚ queued s /\
    exists t', txqs s' = <[q := t']> (txqs s) /\ q_flag t' = ol_tx_queue_paused /\
      paused_total t' = paused_total t + 1 /\ q_head t' = q_head t).
Proof.
  intros Hinv Hq Htid Hmax. destruct (queue_exists _ _ _ _ Hinv Hq Htid) as [k Hat].
  pose proof (i_txq _ Hinv _ _ Hq) as Hok. pose proof (to_range _ Hok) as Hr.
  unfold ol_txrx_peer_tid_pause_base. mstep. eapply runs_txq_get; [exact Hq|]. mstep. apply runs_txq_put.
  rewrite u8_small by lia. set (n := paused_total t + 1). set (t1 := with_paused n t).
  set (s1 := set_txqs (<[q := t1]> (txqs s)) s).
  assert (Hq1 : txqs s1 !! q = Some t1) by apply lookup_insert_eq.
  destruct (Z.eqb_spec (paused_total t) 0) as [Hz|Hnz].
  - assert (Hfl : q_flag t <> ol_tx_queue_paused) by (rewrite (to_paused _ Hok); lia).
    set (t2 := with_flag ol_tx_queue_paused t1).
    assert (Hok2 : txq_ok t2).
    { destruct Hok. split; cbn; try done; [split; [intros _; unfold n; lia|done]|unfold n; lia]. }
    assert (Hpost : forall s3, txqs s3 = <[q := t2]> (txqs s) -> quiet s s3 ->
      inv s3 -> inv s3 /\ quiet s s3 /\ queued s3 ≡ₚ queued s /\
      exists t', txqs s3 = <[q := t']> (txqs s) /\ q_flag t' = ol_tx_queue_paused /\
        paused_total t' = paused_total t + 1 /\ q_head t' = q_head t).
    { intros s3 H1 H2 H3. split; [done|]. split; [done|]. split; [by eapply queued_put|by exists t2]. }
    mstep. unfold ol_tx_sched_notify. mstep. eapply runs_txq_get; [exact Hq1|].
    case_bool_decide as Hact; cbn in Hact.
    + pose proof (qa_cat _ _ _ _ _ Hat) as Hk.
      assert (Hin : q ∈ c_head k).
      { apply (co_elem _ _ _ (proj1 (i_cat _ Hinv _ _ Hk))). split; [|done]. by apply (active_at _ _ _ Hq). }
      eapply txq_deactivate_spec; [exact Htid|exact Hq1|exact Hk|exact Hin|]. mstep.
      eapply runs_txq_get; [exact Hq1|]. apply runs_txq_put.
      apply Hpost; [cbn; by rewrite insert_insert_eq|by eapply quiet_put; [exact Hk|apply deq_specs|..]|].
      eapply (deactivate_inv s _ q tid t t2 k); [done|done|done|cbn; by rewrite insert_insert_eq|done|done|done|done|done|].
      apply (room_put s); [done|]. eapply queued_put; [exact Hq|cbn; by rewrite insert_insert_eq|done].
    + mstep. mstep. eapply runs_txq_get; [exact Hq1|]. apply runs_txq_put.
      apply Hpost; [cbn; by rewrite insert_insert_eq|by destruct s|].
      eapply (inv_same_act s _ q t t2); [done|done|cbn; by rewrite insert_insert_eq|done|done|done|done| | |].
      * unfold act_q. cbn. by repeat case_decide.
      * unfold act_descs. cbn. by repeat case_decide.
      * apply (room_put s); [done|]. eapply queued_put; [exact Hq|cbn; by rewrite insert_insert_eq|done].
  - mstep. assert (Hp : q_flag t = ol_tx_queue_paused) by by apply (to_paused _ Hok).
    assert (Hqd : queued s1 ≡ₚ queued s) by by eapply queued_put.
    split; [|split; [by destruct s|split; [done|by exists t1]]].
    eapply (inv_same_act s s1 q t t1); try done; [apply with_paused_ok; (done || lia)|by apply (room_put s)].
Qed.

(** *** Unpausing *)

Lemma scheduled_quiet s s1 taken s' : quiet s s1 -> queued s1 ≡ₚ queued s -> same_heads (txqs s) (txqs s1) ->
  scheduled s1 taken s' -> scheduled s taken s'.
Proof.
  intros [[O1 O2 O3 O4 O5 O6 O7] _ _] Hq Hh (H1 & H2 & H0 & H3 & H4 & H5 & H6 & H7 & H8 & H9 & H10).
  split; [done|]. rewrite <- Hq, <- O1, <- O2, <- O3, <- O5, <- O6. split; [done|].
  split; [by eapply fifo_heads|]. by repeat (split; [done|]).
Qed.
Lemma scheduled_nil s s' : inv s' -> quiet s s' -> queued s' ≡ₚ queued s -> same_heads (txqs s) (txqs s') ->
  sched_running s = false -> credit_ok s (target_tx_credit s) -> scheduled s [] s'.
Proof.
  intros Hinv Hqu Hq Hh Hrun Hok. pose proof Hqu as [[O1 O2 O3 O4 O5 O6 O7] _ _].
  split; [done|]. split; [by rewrite Hq|]. split; [by apply fifo_same|]. cbn. rewrite O1, O2, O3, O5, O6, O7, app_nil_r.
  split; [done|]. split; [exists []; by rewrite app_nil_r|]. split; [lia|]. split; [done|].
  split; [done|]. split; [|done]. by eapply credit_ok_quiet.
Qed.

(** The last unpause makes the queue's frames available to the scheduler and runs it. *)
Lemma unpause_spec s q tid t :
  inv s -> txqs s !! q = Some t -> aget tid_to_ac tid = Some (cat_of q) -> 0 < paused_total t ->
  sched_running s = false -> - 2 ^ 31 <= target_tx_credit s < 2 ^ 31 -> credit_ok s (target_tx_credit s) ->
  runs (ol_txrx_peer_tid_unpause_base q tid) s (fun _ s' => exists taken, scheduled s taken s').
Proof.
  intros Hinv Hq Htid Hpos Hrun Hcr Hok. destruct (queue_exists _ _ _ _ Hinv Hq Htid) as [k Hat].
  pose proof (i_txq _ Hinv _ _ Hq) as Hto. pose proof (to_range _ Hto) as Hr.
  assert (Hfl : q_flag t = ol_tx_queue_paused) by (apply (to_paused _ Hto); lia).
  unfold ol_txrx_peer_tid_unpause_base. mstep. eapply runs_txq_get; [exact Hq|]. mstep.
  unfold adf_os_assert. eapply runs_mono with (Q := fun _ s' => s' = s).
  { destruct adf_os_debug; [apply runs_massert; [by apply Z.ltb_lt|done]|by mstep]. }
  intros [] s0 ->. rewrite (proj2 (Z.eqb_neq _ _)) by lia. rewrite u8_small by lia.
  cbv zeta iota. mstep. apply runs_txq_put. set (n := paused_total t - 1).
  set (t1 := with_paused n t). set (s1 := set_txqs (<[q := t1]> (txqs s)) s).
  assert (Hq1 : txqs s1 !! q = Some t1) by apply lookup_insert_eq.
  assert (Hqd : queued s1 ≡ₚ queued s) by by eapply queued_put.
  destruct (Z.eqb_spec n 0) as [Hz|Hnz].
  - mstep. unfold ol_tx_sched_notify. mstep. eapply runs_txq_get; [exact Hq1|].
    destruct (Z.eqb_spec (q_frms t1) 0) as [He|Hne]; cbn [negb]; cbn in He || cbn in Hne.
    + mstep. mstep. eapply runs_txq_get; [exact Hq1|]. rewrite (proj2 (Z.eqb_eq _ _)) by done. apply runs_txq_put.
      assert (Hnil : q_head t = []) by (apply nil_length_inv; rewrite (to_frms _ Hto) in He; lia).
      set (t2 := with_flag ol_tx_queue_empty t1).
      exists []. apply scheduled_nil; [|by destruct s|eapply queued_put; [exact Hq|cbn; by rewrite insert_insert_eq|done]|cbn; rewrite insert_insert_eq; by eapply heads_insert|done|done].
      eapply (inv_same_act s _ q t t2); [done|done|cbn; by rewrite insert_insert_eq|done|done|done| | | |].
      * destruct Hto as [T1 T2 T3 T4 T5 T6]. split; cbn; try done; lia.
      * unfold act_q. cbn. by rewrite !decide_False by (rewrite ?Hfl; done).
      * unfold act_descs. cbn. by rewrite !decide_False by (rewrite ?Hfl; done).
      * apply (room_put s); [done|]. eapply queued_put; [exact Hq|cbn; by rewrite insert_insert_eq|done].
    + eapply txq_enqueue_spec; [exact Htid|exact Hq1|exact (qa_cat _ _ _ _ _ Hat)| |].
      { intros _. change (is_unlinked s q). apply (inv_unlinked s); [done|].
        intros Ha. apply (active_at _ _ _ Hq) in Ha. congruence. }
      mstep. eapply runs_txq_get; [exact Hq1|]. rewrite (proj2 (Z.eqb_neq _ _)) by done.
      mstep. apply runs_txq_put.
      set (t2 := with_flag ol_tx_queue_active t1). set (s2 := set_txqs _ _).
      assert (Hs2 : txqs s2 = <[q := t2]> (txqs s)) by (cbn; by rewrite insert_insert_eq).
      assert (Hq2 : queued s2 ≡ₚ queued s) by (eapply queued_put; [exact Hq|exact Hs2|done]).
      assert (Hqu : quiet s s2) by (eapply quiet_put; [exact (qa_cat _ _ _ _ _ Hat)|apply (enq_specs q)|done|done|done]).
      assert (Had : act_descs t = []) by (unfold act_descs; by rewrite decide_False by congruence).
      assert (Hinv2 : inv s2).
      { eapply (activate_inv s s2 q tid t t2 k (q_frms t1) (q_bytes t1));
          [done|done|done|reflexivity|done|done| |done| | |by apply (room_put s)].
        - destruct Hto as [T1 T2 T3 T4 T5 T6]. split; cbn; try done.
          + intros _ Hn. rewrite T1, Hn in Hne. done.
          + lia.
        - rewrite Had. cbn. rewrite (to_frms _ Hto). lia.
        - rewrite Had. cbn. rewrite (to_bytes _ Hto). symmetry. rewrite Z.add_0_l. apply u32_mod. }
      eapply runs_mono; [apply (ol_tx_sched_spec s2); [done|done|done|by eapply credit_ok_quiet]|].
      intros _ s' [_ (taken & Ht & _)]. exists taken. eapply scheduled_quiet; [exact Hqu|exact Hq2|rewrite Hs2; by eapply heads_insert|exact Ht].
  - mstep. exists []. apply scheduled_nil; [|by destruct s|done|by eapply heads_insert|done|done].
    eapply (inv_same_act s s1 q t t1); try done; [apply with_paused_ok; (done || lia)|by apply (room_put s)].
Qed.

(** *** Discarding *)

Lemma room_after s s' q t n : inv s -> txqs s !! q = Some t -> txqs s' = <[q := txq_after n t]> (txqs s) ->
  Z.of_nat (length (queued s')) < 65536 /\ NoDup (queued s').
Proof.
  intros Hinv Hq Hs'. pose proof (i_room _ Hinv) as Hr. pose proof (i_nodup _ Hinv) as Hnd.
  rewrite (queued_after s s' q t n Hq Hs') in Hr, Hnd. rewrite length_app in Hr.
  split; [lia|by apply NoDup_app in Hnd as (_ & _ & ?)].
Qed.

Lemma discard_inv s s' q t k n :
  inv s -> txqs s !! q = Some t -> aget (categories s) (cat_of q) = Some k ->
  q_flag t = ol_tx_queue_active -> (n <= length (q_head t))%nat ->
  txqs s' = <[q := txq_after n t]> (txqs s) ->
  categories s' = <[Z.to_nat (cat_of q) :=
    disc_cat q (Z.of_nat n) (s32 (bytes_of (take n (q_head t)))) (q_frms (txq_after n t) =? 0) k]> (categories s) ->
  order s' = order s -> sched_index s' = sched_index s -> inv s'.
Proof.
  intros Hinv Hq Hk Hf Hn Htq Hcs Hord Hidx.
  destruct (counts_after s q t k n Hinv Hq Hk Hf Hn) as [Hfr Hby]. pose proof (i_txq _ Hinv _ _ Hq) as Hok.
  pose proof (txq_after_ok n t Hok Hf Hn) as Hok'. pose proof (i_cat _ Hinv _ _ Hk) as [Hco Hso].
  destruct (active_listed _ _ _ _ Hinv Hq Hf Hk) as [Hin Hact].
  destruct (cat_base _ _ _ _ Hco Hq) as [Hp _]. unfold act_q in Hp. rewrite decide_True in Hp by done.
  set (e := q_frms (txq_after n t) =? 0) in *.
  assert (He : e = bool_decide (drop n (q_head t) = [])).
  { unfold e. rewrite (to_frms _ Hok'). cbn. case_bool_decide as Hd; [by rewrite Hd|].
    apply Z.eqb_neq. intros Hz. apply Hd, nil_length_inv. lia. }
  set (k' := disc_cat q _ _ e k) in *.
  assert (Hk' : c_head k' = (if e then others q (c_head k) else c_head k) /\
    c_frms k' = s32 (c_frms k - Z.of_nat n) /\ c_bytes k' = s32 (c_bytes k - s32 (bytes_of (take n (q_head t)))) /\
    specs k' = specs k /\ wrr_count k' = wrr_count k /\
    c_active k' = negb (s32 (c_frms k - Z.of_nat n) =? 0)).
  { unfold k', disc_cat. destruct e; cbn; destruct (s32 (c_frms k - Z.of_nat n) =? 0); cbn; by rewrite ?Hact. }
  destruct Hk' as (K1 & K2 & K3 & K4 & K5 & K6).
  eapply (inv_update s s' q t (txq_after n t) k k'); [exact Hinv|exact Hq|exact Hk| |exact Hok'| | | | | |by eapply room_after].
  - split; [done|exact Hcs|rewrite Hord; apply Hinv|rewrite Hidx; apply Hinv].
  - destruct Hso. by split; rewrite ?K4, ?K5.
  - rewrite K1, He. unfold act_q. cbn. repeat case_decide; case_bool_decide; naive_solver.
  - by rewrite K2.
  - by rewrite K3.
  - rewrite K6, Hfr, K1, He, txq_after_descs by done. pose proof (descs_nil s _ k q Hinv Hk) as Hnil.
    rewrite length_app. case_bool_decide as Hd.
    + rewrite Hd. cbn [length Nat.add]. f_equal. case_bool_decide as Ho; [by rewrite (proj2 Hnil Ho)|].
      apply Z.eqb_neq. intros Hz. apply Ho, Hnil, nil_length_inv. lia.
    + rewrite (bool_decide_false (c_head k = [])) by (destruct (c_head k); [set_solver|done]). f_equal.
      apply Z.eqb_neq. intros Hz. apply Hd, nil_length_inv. lia.
Qed.

(** Selecting the category and the queue changes nothing. *)
Lemma discard_category_spec s : inv s ->
  runs ol_tx_sched_discard_select_category s (fun c s' => s' = s /\ 0 <= c < 8).
Proof.
  intros Hinv. unfold ol_tx_sched_discard_select_category.
  apply runs_miter with (I := fun '(i, cat, _) s' => s' = s /\ 0 <= cat < 8 /\ 0 <= i <= 8)
    (mu := fun '(i, _, _) _ => Z.to_nat (8 - i)); [|split; [done|lia]|lia].
  intros [[i cat] max] s' (-> & Hc & Hi). unfold OL_TX_SCHED_WRR_ADV_NUM_CATEGORIES.
  destruct (Z.ltb_spec i 8) as [Hlt|Hge]; [|by mstep].
  destruct (aget_is_Some (categories s) i) as [k Hk]; [rewrite (i_len _ Hinv); lia|].
  mstep. eapply runs_cat_get; [exact Hk|]. destruct (_ || _); mstep; (split; [split; [done|lia]|lia]).
Qed.

Lemma discard_txq_spec s l : (forall q, q ∈ l -> active (txqs s) q) -> inv s ->
  runs (ol_tx_sched_discard_select_txq l) s (fun r s' => s' = s /\
    match r with Some q => q ∈ l | None => l = [] end).
Proof.
  intros Hl Hinv. unfold ol_tx_sched_discard_select_txq.
  apply runs_miter with (I := fun '(l', sel, max) s' => s' = s /\ (forall q, q ∈ l' -> q ∈ l) /\
      match sel with Some q => q ∈ l | None => l' = l /\ max = 0 end)
    (mu := fun '(l', _, _) _ => length l'); [|split_and!; done|lia].
  intros [[[|q l'] sel] max] s' (-> & Hsub & Hsel).
  - mstep. split; [done|]. destruct sel; [done|]. by destruct Hsel as [<- _].
  - destruct (Hl q) as (t & Ht & Hf); [apply Hsub; set_solver|]. mstep. eapply runs_txq_get; [exact Ht|].
    assert (Hsub' : forall x, x ∈ l' -> x ∈ l) by (intros x Hx; apply Hsub; set_solver).
    destruct (Z.ltb_spec max (q_frms t)) as [Hlt|Hge]; mstep; cbn [length].
    + split; [|lia]. split; [done|]. split; [done|]. apply Hsub. set_solver.
    + split; [|lia]. split; [done|]. split; [done|]. destruct sel as [q'|]; [done|]. destruct Hsel as [_ ->].
      pose proof (i_txq _ Hinv _ _ Ht) as Hok. rewrite (to_frms _ Hok) in Hge.
      exfalso. apply (to_active _ Hok Hf), nil_length_inv. lia.
Qed.

(** The frames [taken] leave the queues; nothing else happens. *)
Definition withdrawn (s : tx_state) (taken : list Z) (s' : tx_state) : Prop :=
  inv s' /\ quiet s s' /\ queued s ≡ₚ taken ++ queued s' /\ fifo (txqs s) taken (txqs s') /\ dom (txqs s') = dom (txqs s) /\
  forall q t', txqs s' !! q = Some t' -> exists t, txqs s !! q = Some t /\ paused_total t' = paused_total t /\
    (q_flag t = ol_tx_queue_paused -> t' = t).

Lemma withdrawn_nil s : inv s -> withdrawn s [] s.
Proof. intros Hinv. split_and!; [done|apply quiet_refl|done|done|done|]. intros q t Ht. by exists t. Qed.
Lemma quiet_trans s1 s2 s3 : quiet s1 s2 -> quiet s2 s3 -> quiet s1 s3.
Proof. intros [O1 F1 S1] [O2 F2 S2]. split; [by eapply same_out_trans|congruence|congruence]. Qed.
Lemma withdrawn_trans s1 l1 s2 l2 s3 : withdrawn s1 l1 s2 -> withdrawn s2 l2 s3 -> withdrawn s1 (l1 ++ l2) s3.
Proof.
  intros (H1 & H2 & H3 & H0 & H4 & H5) (K1 & K2 & K3 & K0 & K4 & K5). split; [done|].
  split; [by eapply quiet_trans|]. split; [by rewrite H3, K3, <- app_assoc|]. split; [by eapply fifo_trans|]. split; [congruence|].
  intros q t3 H. destruct (K5 _ _ H) as (t2 & Ht2 & Hp2 & Hf2). destruct (H5 _ _ Ht2) as (t1 & Ht1 & Hp1 & Hf1).
  exists t1. split; [done|]. split; [congruence|]. intros Hf. specialize (Hf1 Hf). subst t2. by apply Hf2.
Qed.

Lemma discard_count_spec num n force : 0 < num -> 0 < n -> 0 < discard_count num n force <= num.
Proof.
  intros Hnum Hn. unfold discard_count, OL_TX_DISCARD_QUANTUM. destruct force; [lia|].
  rewrite Z.shiftr_div_pow2 by lia. change (2 ^ 1) with 2.
  pose proof (Z.div_le_upper_bound n 2 n). pose proof (Z.div_le_lower_bound n 2 1).
  destruct (Z.ltb_spec 10 num), (Z.ltb_spec 1 n), (Z.leb_spec (n / 2) 10), (Z.leb_spec (n / 2) num); cbn; lia.
Qed.

Lemma discard_select_spec s num head force : inv s -> 0 < num < 65536 ->
  runs (ol_tx_sched_discard_select num head force) s (fun r s' => exists taken,
    r = (Z.of_nat (length taken), head ++ taken) /\ withdrawn s taken s' /\ Z.of_nat (length taken) <= num).
Proof.
  intros Hinv Hnum. unfold ol_tx_sched_discard_select. mstep.
  eapply runs_mono; [by apply discard_category_spec|]. intros c s0 [-> Hc].
  destruct (aget_is_Some (categories s) c) as [k Hk]; [rewrite (i_len _ Hinv); lia|].
  destruct (i_cat _ Hinv _ _ Hk) as [Hco _].
  mstep. eapply runs_cat_get; [exact Hk|]. mstep.
  eapply runs_mono; [apply discard_txq_spec; [|done]; intros q Hq; by apply (co_elem _ _ _ Hco)|].
  intros [q|] s0 [-> Hsel].
  2: { mstep. exists []. rewrite app_nil_r. split; [done|]. split; [by apply withdrawn_nil|cbn; lia]. }
  apply (co_elem _ _ _ Hco) in Hsel as Hq. destruct Hq as [(t & Hq & Hf) <-].
  pose proof (i_txq _ Hinv _ _ Hq) as Hok. pose proof (to_frms _ Hok) as Hfr.
  pose proof (queued_le _ _ _ Hq) as Hle. pose proof (i_room _ Hinv) as Hroom.
  assert (Hpos : 0 < q_frms t).
  { rewrite Hfr. destruct (q_head t) eqn:Hh; [by apply (to_active _ Hok) in Hf|cbn; lia]. }
  pose proof (discard_count_spec num (q_frms t) force ltac:(lia) Hpos) as Hcnt.
  mstep. eapply runs_txq_get; [exact Hq|]. mstep. set (n := dequeued t (discard_count num (q_frms t) force) 10000).
  assert (Hn : Z.of_nat n = Z.min (Z.min (q_frms t) (discard_count num (q_frms t) force)) 10000) by (unfold n, dequeued; lia).
  eapply runs_mono; [eapply ol_tx_dequeue_spec; [exact Hq|exact Hok|by rewrite Hf|lia|lia|lia]|].
  fold n. intros r s1 [-> ->]. cbv beta iota. mstep. unfold ol_tx_sched_notify.
  eapply txq_discard_spec; [apply lookup_insert_eq|exact Hk|exact Hsel|]. mstep.
  assert (Hlen : length (take n (q_head t)) = n) by (rewrite length_take; lia).
  exists (take n (q_head t)). rewrite Hlen. split; [done|]. split; [|lia].
  set (s' := put_cat _ _ _). split; [by eapply (discard_inv s s' q t k n); try done; lia|].
  split; [eapply quiet_put; [exact Hk|apply (disc_specs q)|reflexivity|done|done]|].
  split; [by eapply queued_after|]. split; [by apply fifo_after|]. split; [cbn; apply dom_insert_lookup_L; by exists t|].
  intros x t'. cbn. intros [[<- <-]|[Hne Hx]]%lookup_insert_Some; [|by exists t'].
  exists t. split; [done|]. split; [done|]. congruence.
Qed.

Lemma discard_loop_spec s num force head : inv s -> 0 <= num < 65536 ->
  runs (discard_loop num force head) s (fun r s' => exists taken s1,
    r = (num - Z.of_nat (length taken), head ++ taken) /\ withdrawn s taken s1 /\
    Z.of_nat (length taken) <= num /\ s' = add_rsrc (Z.of_nat (length taken)) s1).
Proof.
  intros Hinv Hnum. unfold discard_loop. mstep.
  eapply runs_mono with (Q := fun r s1 => exists taken, r = (num - Z.of_nat (length taken), Z.of_nat (length taken), head ++ taken) /\
    withdrawn s taken s1 /\ Z.of_nat (length taken) <= num).
  - apply runs_miter with (I := fun r s1 => exists taken, r = (num - Z.of_nat (length taken), Z.of_nat (length taken), head ++ taken) /\
      withdrawn s taken s1 /\ Z.of_nat (length taken) <= num) (mu := fun '(n, _, _) _ => Z.to_nat n); [| |lia].
    2: { exists []. rewrite app_nil_r. cbn. rewrite Z.sub_0_r. split; [done|]. split; [by apply withdrawn_nil|lia]. }
    intros r s1 (taken & -> & Hw & Hle).
    destruct (Z.ltb_spec 0 (num - Z.of_nat (length taken))) as [Hlt|Hge]; [|mstep; by exists taken].
    mstep. eapply runs_mono; [apply discard_select_spec; [apply Hw|lia]|].
    intros r s2 (more & -> & Hm & Hle2). cbn [fst snd].
    destruct (Z.eqb_spec (Z.of_nat (length more)) 0) as [Hz|Hnz]; mstep.
    + assert (more = []) as -> by (apply nil_length_inv; lia). exists taken. rewrite app_nil_r.
      split; [done|]. split; [|done]. rewrite <- (app_nil_r taken). by eapply withdrawn_trans.
    + rewrite !u16_small by lia. split; [|lia]. exists (taken ++ more). rewrite length_app, Nat2Z.inj_add, app_assoc.
      split; [f_equal; f_equal; lia|]. split; [by eapply withdrawn_trans|lia].
  - intros r s1 (taken & -> & Hw & Hle). cbn [fst snd]. mstep. mstep. mstep. by exists taken, s1.
Qed.

(** *** Freeing *)

Definition emptied (t : ol_tx_frms_queue_t) : ol_tx_frms_queue_t := with_queue 0 0 [] ol_tx_queue_empty t.

Lemma emptied_ok t : paused_total t = 0 -> txq_ok (emptied t).
Proof. intros Hp. split; cbn; try done; lia. Qed.

(** The frames [l] leave the queues and are freed. *)
Record freed (s : tx_state) (l : list Z) (s' : tx_state) : Prop := {
  fr_inv : inv s';
  fr_queued : queued s ≡ₚ l ++ queued s';
  fr_freed : tx_freed s' = tx_freed s ++ l;
  fr_rsrc : rsrc_cnt s' = s32 (rsrc_cnt s + Z.of_nat (length l));
  fr_rest : sched_running s' = sched_running s /\ first_select s' = first_select s /\
    tx_sent s' = tx_sent s /\ target_tx_credit s' = target_tx_credit s /\
    hl_paused_reason s' = hl_paused_reason s /\ specs <$> categories s' = specs <$> categories s
}.

Lemma inv_proj s s' : txqs s' = txqs s -> categories s' = categories s -> order s' = order s ->
  sched_index s' = sched_index s -> inv s -> inv s'.
Proof.
  intros H1 H2 H3 H4 [I1 I2 I3 I4 I5 I6 I7]. split; unfold queued in *; rewrite ?H1, ?H2, ?H3, ?H4; try done.
Qed.

Lemma ol_tx_queue_free_spec s q tid t : inv s -> txqs s !! q = Some t -> aget tid_to_ac tid = Some (cat_of q) ->
  paused_total t = 0 ->
  runs (ol_tx_queue_free q tid) s (fun _ s' => freed s (q_head t) s' /\ txqs s' = <[q := emptied t]> (txqs s)).
Proof.
  intros Hinv Hq Htid Hp. destruct (queue_exists _ _ _ _ Hinv Hq Htid) as [k [_ _ Hk]].
  pose proof (i_txq _ Hinv _ _ Hq) as Hok. pose proof (emptied_ok t Hp) as Hok'.
  assert (Hb : u32 (q_bytes t - s32 (bytes_of (take (length (q_head t)) (q_head t)))) = 0).
  { rewrite take_ge by lia. rewrite (to_bytes _ Hok).
    rewrite (u32_sub _ _ (bytes_of (q_head t)) (bytes_of (q_head t))) by auto with qca. by rewrite Z.sub_diag. }
  assert (Hqd : forall s', txqs s' = <[q := emptied t]> (txqs s) -> queued s ≡ₚ q_head t ++ queued s').
  { intros s' Hs'. unfold queued. rewrite Hs', (queued_insert _ _ _ _ Hq), (queued_delete _ _ _ Hq). done. }
  assert (Hroom : forall s', txqs s' = <[q := emptied t]> (txqs s) ->
    Z.of_nat (length (queued s')) < 65536 /\ NoDup (queued s')).
  { intros s' Hs'. pose proof (i_room _ Hinv) as Hr. pose proof (i_nodup _ Hinv) as Hnd.
    rewrite (Hqd s' Hs') in Hr, Hnd. rewrite length_app in Hr. split; [lia|by apply NoDup_app in Hnd as (_ & _ & ?)]. }
  unfold ol_tx_queue_free, ol_tx_sched_notify. mstep. mstep. eapply runs_txq_get; [exact Hq|].
  eapply runs_mono with (Q := fun _ s1 => txqs s1 = txqs s /\ quiet s s1 /\
    inv (set_txqs (<[q := emptied t]> (txqs s)) s1)).
  { case_bool_decide as Hf.
    - destruct (active_listed _ _ _ _ Hinv Hq Hf Hk) as [Hin _].
      eapply txq_deactivate_spec; [exact Htid|exact Hq|exact Hk|exact Hin|]. split; [done|].
      split; [eapply quiet_put; [exact Hk|apply deq_specs|done..]|].
      eapply (deactivate_inv s _ q tid t (emptied t) k); try done. by apply Hroom.
    - mstep. split; [done|]. split; [apply quiet_refl|].
      eapply (inv_same_act s _ q t (emptied t)); try done; [..|by apply Hroom]; unfold act_q, act_descs; by repeat case_decide. }
  intros [] s1 (Htq & [[O1 O2 O3 O4 O5 O6 O7] Hfs Hsp] & Hinv1). mstep. eapply runs_txq_get; [by rewrite Htq|].
  mstep. eapply runs_massert; [rewrite (to_frms _ Hok); by apply Z.leb_le|].
  rewrite (to_frms _ Hok), Nat2Z.id, Hb. mstep. apply runs_txq_put. mstep. mstep. mstep.
  rewrite take_ge by lia. change (with_queue 0 0 [] ol_tx_queue_empty t) with (emptied t).
  split; [|by cbn; rewrite Htq]. rewrite Htq. split; cbn; try congruence.
  - eapply inv_proj; [..|exact Hinv1]; done.
  - by apply Hqd.
  - split_and!; congruence.
Qed.

(** *** Enqueueing *)

Lemma bytes_snoc l d : bytes_of (l ++ [d]) = bytes_of l + nbuf_len d.
Proof. rewrite bytes_app. cbn. lia. Qed.

(** The queue with the frame added; unless paused, it is active. *)
Definition enqueued (d : Z) (t : ol_tx_frms_queue_t) : ol_tx_frms_queue_t :=
  with_queue (q_frms t + 1) (u32 (bytes_of (q_head t ++ [d]))) (q_head t ++ [d])
    (if decide (q_flag t = ol_tx_queue_paused) then ol_tx_queue_paused else ol_tx_queue_active) t.

Lemma enqueued_ok d t : txq_ok t -> txq_ok (enqueued d t).
Proof.
  intros [H1 H2 H3 H4 H5 H6]. split; cbn; try done.
  - rewrite H1, length_app. cbn. lia.
  - intros _. by destruct (q_head t).
  - by case_decide.
  - rewrite <- H5. case_decide; naive_solver.
Qed.

Lemma enqueue_frame_spec s q tid t d : inv s -> txqs s !! q = Some t -> aget tid_to_ac tid = Some (cat_of q) ->
  d ∉ queued s -> Z.of_nat (length (queued s)) < 65535 ->
  runs (enqueue_frame q d tid) s (fun _ s' => inv s' /\ quiet s s' /\ queued s' ≡ₚ d :: queued s /\
    txqs s' = <[q := enqueued d t]> (txqs s)).
Proof.
  intros Hinv Hq Htid Hd Hroom. destruct (queue_exists _ _ _ _ Hinv Hq Htid) as [k Hat].
  pose proof (qa_cat _ _ _ _ _ Hat) as Hk.
  pose proof (i_txq _ Hinv _ _ Hq) as Hok. pose proof (enqueued_ok d t Hok) as Hok'.
  pose proof (queued_le _ _ _ Hq) as Hle.
  assert (Hqd : forall s', txqs s' = <[q := enqueued d t]> (txqs s) -> queued s' ≡ₚ d :: queued s).
  { intros s' Hs'. unfold queued. rewrite Hs', (queued_insert _ _ _ _ Hq), (queued_delete _ _ _ Hq). cbn.
    rewrite <- app_assoc. by rewrite Permutation_middle. }
  assert (Hrm : forall s', txqs s' = <[q := enqueued d t]> (txqs s) ->
    Z.of_nat (length (queued s')) < 65536 /\ NoDup (queued s')).
  { intros s' Hs'. rewrite (Hqd _ Hs'). cbn [length]. split; [lia|]. apply NoDup_cons. split; [done|apply Hinv]. }
  unfold enqueue_frame. mstep. eapply runs_txq_get; [exact Hq|]. mstep. apply runs_txq_put.
  assert (Hby : u32 (q_bytes t + nbuf_len d) = u32 (bytes_of (q_head t ++ [d]))).
  { rewrite bytes_snoc, (to_bytes _ Hok). apply u32_add; auto with qca. }
  rewrite (to_frms _ Hok), Hby, u16_small by lia. set (t1 := with_queue _ _ _ _ t).
  set (s1 := set_txqs (<[q := t1]> (txqs s)) s).
  assert (Hq1 : txqs s1 !! q = Some t1) by apply lookup_insert_eq.
  change (q_flag t1) with (q_flag t). case_bool_decide as Hp; cbn [negb].
  - mstep. assert (Ht1 : t1 = enqueued d t).
    { unfold t1, enqueued. rewrite decide_True by done. by rewrite (to_frms _ Hok), Hp. }
    assert (Hs1 : txqs s1 = <[q := enqueued d t]> (txqs s)) by by rewrite <- Ht1.
    split; [|split; [by destruct s|split; [by apply Hqd|done]]].
    eapply (inv_same_act s s1 q t (enqueued d t)); try done; [..|by apply Hrm]; unfold act_q, act_descs; cbn;
      by rewrite (decide_True _ _ Hp), !decide_False by (rewrite ?Hp; done).
  - mstep. unfold ol_tx_sched_notify. eapply txq_enqueue_spec; [exact Htid|exact Hq1|exact Hk| |].
    { intros Hna. change (is_unlinked s q). apply (inv_unlinked s); [done|].
      intros Ha. by apply (active_at _ _ _ Hq) in Ha. }
    mstep. eapply runs_txq_get; [exact Hq1|]. apply runs_txq_put.
    assert (Ht1 : with_flag ol_tx_queue_active t1 = enqueued d t).
    { unfold t1, enqueued. rewrite decide_False by done. by rewrite (to_frms _ Hok). }
    rewrite Ht1. set (s2 := set_txqs _ _).
    assert (Hs2 : txqs s2 = <[q := enqueued d t]> (txqs s)) by (cbn; by rewrite insert_insert_eq).
    assert (Hqu : quiet s s2) by (eapply quiet_put; [exact Hk|apply (enq_specs q)|done..]).
    split; [|split; [done|split; [by apply Hqd|done]]].
    assert (Had : act_descs t = q_head t).
    { unfold act_descs. case_decide as Hf; [done|]. destruct (q_flag t) eqn:Hfl; [by rewrite (to_empty _ Hok)|done|done]. }
    eapply (activate_inv s s2 q tid t (enqueued d t) k 1 (s32 (nbuf_len d)));
      [done|done|done|reflexivity|done|done|done|cbn; by rewrite decide_False| | |by apply Hrm].
    + rewrite Had. cbn. rewrite length_app. cbn. lia.
    + rewrite Had. cbn [enqueued with_queue q_head]. rewrite bytes_snoc, <- Zplus_mod_idemp_r, <- (s32_mod (nbuf_len d)), Zplus_mod_idemp_r.
      done.
Qed.

(** Making room: queued frames may be dropped, and are freed. *)
Lemma make_room_spec vdevs s : inv s ->
  runs (if rsrc_cnt s <=? rsrc_threshold_lo then
     tx_descs <- ol_tx_queue_discard vdevs false [] ;;
     ol_tx_desc_frame_list_free tx_descs
   else mreturn tt) s (fun _ s' => exists dropped,
    inv s' /\ queued s ≡ₚ dropped ++ queued s' /\ fifo (txqs s) dropped (txqs s') /\
    dom (txqs s') = dom (txqs s) /\ tx_freed s' = tx_freed s ++ dropped /\ tx_sent s' = tx_sent s /\
    target_tx_credit s' = target_tx_credit s /\ sched_running s' = sched_running s).
Proof.
  intros Hinv. destruct (rsrc_cnt s <=? rsrc_threshold_lo).
  2: { mstep. exists []. rewrite app_nil_r. split_and!; try done. }
  mstep. unfold ol_tx_queue_discard. mstep. mstep. mstep.
  eapply runs_mono; [apply discard_loop_spec; [done|apply u16_range]|].
  intros r s1 (dropped & s0 & -> & (Hw1 & [[O1 O2 O3 O4 O5 O6 O7] _ _] & Hw2 & Hw3 & Hw4 & _) & _ & ->).
  cbn [andb snd]. mstep. mstep. mstep. unfold ol_tx_desc_frame_list_free. mstep.
  exists dropped. cbn. rewrite O5. split_and!; try done. eapply inv_proj; [..|exact Hw1]; done.
Qed.

(** The frame is queued after any frames dropped to make room for it. *)
Lemma ol_tx_enqueue_spec vdevs s q tid d : inv s -> q ∈ dom (txqs s) -> aget tid_to_ac tid = Some (cat_of q) ->
  d ∉ queued s -> Z.of_nat (length (queued s)) < 65535 ->
  runs (ol_tx_enqueue vdevs q d tid) s (fun _ s' => exists dropped s1 t,
    inv s' /\ d :: queued s ≡ₚ dropped ++ queued s' /\ fifo (txqs s) dropped (txqs s1) /\
    txqs s1 !! q = Some t /\ txqs s' = <[q := enqueued d t]> (txqs s1) /\
    dom (txqs s') = dom (txqs s) /\ tx_freed s' = tx_freed s ++ dropped /\ tx_sent s' = tx_sent s /\
    target_tx_credit s' = target_tx_credit s /\ sched_running s' = sched_running s).
Proof.
  intros Hinv Hq Htid Hd Hroom. unfold ol_tx_enqueue. mstep. mstep. mstep.
  eapply runs_mono; [by apply make_room_spec|].
  intros [] s1 (dropped & H1 & H2 & H3 & H4 & H5 & H6 & H7 & H8). rewrite <- H4 in Hq.
  apply elem_of_dom in Hq as [t Hq]. rewrite H2, elem_of_app in Hd. rewrite H2, length_app in Hroom.
  eapply runs_mono; [apply (enqueue_frame_spec s1 q tid t d); try done; [naive_solver|lia]|].
  intros [] s2 (K1 & [[O1 O2 O3 O4 O5 O6 O7] _ _] & K2 & K3). exists dropped, s1, t.
  rewrite K3, O5, O6, O1, O7. split_and!; try done.
  - by rewrite K2, H2, Permutation_middle.
  - rewrite dom_insert_lookup_L by (by eexists). done.
Qed.
End Inv.
