(* ===== verification/TxSchedProps.v ===== *)
(** * The tx queues and the scheduler: theorems

    [tx_op] is what happens to the device from the outside; [reach] are the states that
    sequences of these operations reach from an attached device.  In all of them the
    invariant holds, no frame and no credit is lost, and every queue is first in first out. *)

From S2P Require Import Prelude TxSched TxSchedInv.

Local Open Scope c_scope.

(** ** Operations *)

Inductive tx_op :=
| TxEnqueue (vdevs : list ol_txrx_vdev_t) (q tx_desc tid : Z)
| TxPause (q tid : Z)
| TxUnpause (q tid : Z)
| TxFree (q tid : Z)
| TxCredit (credits : Z)
| TxCreditDec (credit : Z).

(** The frame an operation brings, and its queue *)
Definition op_frames (op : tx_op) : list Z := match op with TxEnqueue _ _ d _ => [d] | _ => [] end.
Definition op_owned (own : Z -> Z) (op : tx_op) : Prop :=
  match op with TxEnqueue _ q d _ => own d = q | _ => True end.
(** The credit an operation adds *)
Definition credited (op : tx_op) (s : tx_state) : Z :=
  match op with
  | TxCredit n => Z.max 0 n
  | TxCreditDec n => if target_tx_credit s <? n then 0 else - n
  | _ => 0
  end.

Definition owned (own : Z -> Z) (s : tx_state) : Prop := forall q d, d ∈ heads (txqs s) q -> own d = q.

Lemma filter_sublist (P1 P2 : Z -> Prop) `{!forall x, Decision (P1 x)} `{!forall x, Decision (P2 x)} (l : list Z) :
  filter P1 (filter P2 l) `sublist_of` filter P1 l.
Proof.
  induction l as [|x l IH]; [done|]. rewrite !filter_cons. destruct (decide (P2 x)).
  - rewrite filter_cons. destruct (decide (P1 x)); [by constructor|done].
  - destruct (decide (P1 x)); [by constructor|done].
Qed.

Section Props.
Context `{ENV : TxEnv}.
Variable cat_of : Z -> Z.

Definition exec (op : tx_op) : M tx_state unit :=
  match op with
  | TxEnqueue vdevs q d tid => ol_tx_enqueue vdevs q d tid
  | TxPause q tid => ol_txrx_peer_tid_pause_base q tid
  | TxUnpause q tid => ol_txrx_peer_tid_unpause_base q tid
  | TxFree q tid => ol_tx_queue_free q tid
  | TxCredit n => ol_tx_credit_completion_handler n
  | TxCreditDec n => ol_tx_target_credit_dec n ;; mreturn tt
  end.

(** [tid] is a TID of the queue [q], which exists and has property [P]. *)
Definition on_queue (s : tx_state) (q tid : Z) (P : ol_tx_frms_queue_t -> Prop) : Prop :=
  aget tid_to_ac tid = Some (cat_of q) /\ exists t, txqs s !! q = Some t /\ P t.

(** How the callers use the operations: a descriptor is queued once and the pool is smaller
    than 65536, pauses and unpauses are paired, a queue is freed while it is not paused, and
    the target returns credit it was paid. *)
Definition allowed (op : tx_op) (s : tx_state) : Prop :=
  match op with
  | TxEnqueue _ q d tid =>
      on_queue s q tid (fun _ => True) /\ (d ∉ queued s) /\ Z.of_nat (length (queued s)) < 65535
  | TxPause q tid => on_queue s q tid (fun t => paused_total t < 255)
  | TxUnpause q tid => on_queue s q tid (fun t => 0 < paused_total t) /\ credit_ok s (target_tx_credit s)
  | TxFree q tid => on_queue s q tid (fun t => paused_total t = 0)
  | TxCredit n => target_tx_credit s + Z.max 0 n < 2 ^ 31 /\ credit_ok s (target_tx_credit s + Z.max 0 n)
  | TxCreditDec n => 0 <= n < 2 ^ 31
  end.

(** What an operation does with the frames and the credit *)
Definition moved (op : tx_op) (s s' : tx_state) : Prop := exists sent gone,
  tx_sent s' = tx_sent s ++ sent /\ tx_freed s' = tx_freed s ++ gone /\
  op_frames op ++ queued s ≡ₚ sent ++ gone ++ queued s' /\
  target_tx_credit s' = target_tx_credit s + credited op s - Z.of_nat (length sent) /\
  (0 <= target_tx_credit s -> 0 <= target_tx_credit s') /\
  forall own, owned own s -> op_owned own op -> forall q, exists left,
    heads (txqs s) q ++ filter (fun d => own d = q) (op_frames op) = left ++ heads (txqs s') q /\
    filter (fun d => own d = q) sent `sublist_of` left.

Record good (s : tx_state) : Prop := {
  g_inv : inv cat_of s;
  g_running : sched_running s = false;
  g_credit : - 2 ^ 31 <= target_tx_credit s < 2 ^ 31
}.

Lemma credited_none op s s' : credited op s = 0 -> target_tx_credit s' = target_tx_credit s ->
  target_tx_credit s' = target_tx_credit s + credited op s - Z.of_nat (length (@nil Z)).
Proof. intros -> ->. cbn. lia. Qed.

(** The scheduler runs, perhaps after credit has come in. *)
Lemma scheduled_moved op s s1 taken s' : good s -> op_frames op = [] -> 0 <= credited op s ->
  txqs s1 = txqs s -> tx_sent s1 = tx_sent s -> tx_freed s1 = tx_freed s ->
  target_tx_credit s1 = target_tx_credit s + credited op s -> target_tx_credit s1 < 2 ^ 31 ->
  scheduled cat_of s1 taken s' -> good s' /\ moved op s s'.
Proof.
  intros [Hinv Hrun Hcr] Hop Hpos Htq Hse Hfr Hcr1 Hlim (H1 & H2 & H3 & H4 & (fr & H5 & H5') & H6 & H7 & H8 & _).
  assert (Hc' : - 2 ^ 31 <= target_tx_credit s' < 2 ^ 31).
  { destruct (decide (taken = [])) as [->|Ht]; [cbn in H6; lia|]. specialize (H7 Ht). lia. }
  split; [by split|]. exists (accepted taken), fr. rewrite <- Hse, <- Hfr, Hop. split; [done|]. split; [done|]. split.
  { cbn [app]. unfold queued at 1. rewrite <- Htq. fold (queued s1). rewrite H2, H5', app_assoc. f_equiv.
    clear. induction taken as [|d l IH]; [done|]. rewrite accepted_cons, rejects_cons.
    destruct (htt_accepts d); [by cbn; f_equiv|]. rewrite <- Permutation_middle. by f_equiv. }
  split; [lia|]. split; [intros Hc; destruct (decide (taken = [])) as [->|Ht]; [cbn in H6; lia|by specialize (H7 Ht)]|].
  intros own Hown _ q. cbn [app]. exists (filter (fun d => own d = q) taken). split.
  - unfold heads in *. rewrite <- Htq, app_nil_r. symmetry. apply (H3 own). rewrite Htq. exact Hown.
  - unfold accepted. apply filter_sublist.
Qed.

Lemma enqueue_moved vdevs q d tid s : good s -> allowed (TxEnqueue vdevs q d tid) s ->
  runs (ol_tx_enqueue vdevs q d tid) s (fun _ s' => good s' /\ moved (TxEnqueue vdevs q d tid) s s').
Proof.
  intros [Hinv Hrun Hcr] ((Htid & t0 & Hq0 & _) & Hd & Hroom).
  eapply runs_mono; [eapply ol_tx_enqueue_spec; try done; by apply elem_of_dom_2 in Hq0|].
  intros _ s' (dropped & s1 & t & H1 & H2 & H3 & Hq & H4 & _ & H5 & H6 & H7 & H8).
  split; [by split; rewrite ?H8, ?H7|]. exists [], dropped. rewrite H6, app_nil_r. split; [done|]. split; [done|].
  split; [done|]. split; [by apply credited_none|]. split; [by rewrite H7|].
  intros own Hown Ho x. cbn in Ho. exists (filter (fun d => own d = x) dropped).
  split; [|apply sublist_nil_l]. rewrite H4, <- (H3 own Hown x), <- app_assoc. f_equal. cbn [op_frames].
  unfold heads. destruct (decide (x = q)) as [->|Hne].
  - rewrite lookup_insert_eq, Hq. by rewrite filter_cons_True.
  - rewrite lookup_insert_ne, filter_cons_False by congruence. by rewrite app_nil_r.
Qed.

Lemma free_moved q tid s : good s -> allowed (TxFree q tid) s ->
  runs (ol_tx_queue_free q tid) s (fun _ s' => good s' /\ moved (TxFree q tid) s s').
Proof.
  intros [Hinv Hrun Hcr] (Htid & t & Hq & Hp).
  eapply runs_mono; [by eapply ol_tx_queue_free_spec|].
  intros _ s' ([H1 H2 H3 _ (H4 & _ & H5 & H6 & _)] & Htq).
  split; [by split; rewrite ?H4, ?H6|]. exists [], (q_head t). rewrite H5, app_nil_r. split; [done|]. split; [done|].
  split; [done|]. split; [by apply credited_none|]. split; [by rewrite H6|].
  intros own Hown _ x. exists (filter (fun d => own d = x) (q_head t)). split; [|apply sublist_nil_l].
  rewrite Htq. cbn. rewrite app_nil_r. symmetry.
  assert (Hf : fifo (txqs s) (q_head t) (<[q := emptied t]> (txqs s))) by (by apply (fifo_one _ _ t); [|rewrite app_nil_r]).
  by apply (Hf own).
Qed.

Lemma pause_moved q tid s : good s -> allowed (TxPause q tid) s ->
  runs (ol_txrx_peer_tid_pause_base q tid) s (fun _ s' => good s' /\ moved (TxPause q tid) s s').
Proof.
  intros [Hinv Hrun Hcr] (Htid & t & Hq & Hp).
  eapply runs_mono; [by eapply pause_spec|].
  intros _ s' (H1 & [[O1 O2 O3 O4 O5 O6 O7] _ _] & H2 & t' & Htq & _ & _ & Hh).
  split; [by split; rewrite ?O7, ?O1|]. exists [], []. rewrite O5, O6, !app_nil_r. split; [done|]. split; [done|].
  split; [by cbn; rewrite H2|]. split; [by apply credited_none|]. split; [by rewrite O1|].
  intros own _ _ x. exists []. split; [|done]. cbn. rewrite app_nil_r, Htq. symmetry. by eapply heads_insert.
Qed.

Lemma dec_moved n s : good s -> allowed (TxCreditDec n) s ->
  runs (ol_tx_target_credit_dec n ;; mreturn tt) s (fun _ s' => good s' /\ moved (TxCreditDec n) s s').
Proof.
  intros Hg Hn. pose proof Hg as [Hinv Hrun Hcr]. cbn in Hn. unfold ol_tx_target_credit_dec.
  assert (Hm : forall s', txqs s' = txqs s -> tx_sent s' = tx_sent s -> tx_freed s' = tx_freed s ->
    target_tx_credit s' = target_tx_credit s + credited (TxCreditDec n) s -> moved (TxCreditDec n) s s').
  { intros s' H1 H2 H3 H4. exists [], []. rewrite H2, H3, !app_nil_r. unfold queued. rewrite H1. split; [done|].
    split; [done|]. split; [done|]. split; [rewrite H4; cbn; lia|].
    split; [rewrite H4; cbn; destruct (Z.ltb_spec (target_tx_credit s) n); lia|].
    intros own _ _ x. exists []. cbn. by rewrite app_nil_r. }
  mstep. mstep. mstep. destruct (Z.ltb_spec (target_tx_credit s) n) as [Hlt|Hge].
  - mstep. mstep. split; [done|]. apply Hm; try done. cbn. rewrite (proj2 (Z.ltb_lt _ _)) by done. lia.
  - mstep. mstep. mstep. mstep. assert (Hs : s32 (target_tx_credit s - n) = target_tx_credit s - n) by (apply s32_small; lia).
    split; [split; [by eapply inv_proj; [..|exact Hinv]|done|cbn; rewrite Z.add_opp_r, Hs; lia]|].
    apply Hm; try done. cbn. rewrite (proj2 (Z.ltb_ge _ _)) by done. by rewrite Z.add_opp_r, Hs.
Qed.

Lemma step_moved op s : good s -> allowed op s -> runs (exec op) s (fun _ s' => good s' /\ moved op s s').
Proof.
  intros Hg Ha. destruct op as [vdevs q d tid|q tid|q tid|q tid|n|n]; cbn [exec].
  - by apply enqueue_moved.
  - by apply pause_moved.
  - destruct Ha as [(Htid & t & Hq & Hp) Hok]. pose proof Hg as [Hinv Hrun Hcr].
    eapply runs_mono; [by eapply unpause_spec|]. intros _ s' [taken Hs].
    eapply (scheduled_moved _ s s); try done; cbn; lia.
  - by apply free_moved.
  - destruct Ha as [Hlim Hok]. pose proof Hg as [Hinv Hrun Hcr]. unfold ol_tx_credit_completion_handler. mstep.
    eapply runs_mono with (Q := fun _ s1 => s1 = set_counts (target_tx_credit s + Z.max 0 n) (rsrc_cnt s) s).
    { destruct (Z.ltb_spec 0 n) as [Hpos|Hneg]; mstep.
      - unfold add_credit. rewrite Z.max_r, s32_small by lia. done.
      - rewrite Z.max_l, Z.add_0_r by lia. by destruct s. }
    intros [] s1 ->. eapply runs_mono.
    { apply (ol_tx_sched_spec cat_of); [by eapply inv_proj; [..|exact Hinv]|done|cbn; lia|exact Hok]. }
    intros _ s' [_ (taken & Hs & _)]. eapply (scheduled_moved (TxCredit n) s); [done|done|cbn; lia|..|exact Hs]; try done; cbn; lia.
  - by apply dec_moved.
Qed.

(** ** The device after attaching *)

Definition txq_new : ol_tx_frms_queue_t :=
  {| paused_total := 0; q_frms := 0; q_bytes := 0; q_head := []; q_flag := ol_tx_queue_empty |}.

(** The ranges of the parameters, which the ini file must respect *)
Definition specs_range (p : category_specs) : bool :=
  (0 <=? wrr_skip_weight p) && (wrr_skip_weight p <? 2 ^ 31) &&
  (0 <=? credit_threshold p) && (credit_threshold p <? 2 ^ 32) &&
  (0 <=? send_limit p) && (send_limit p <? 65536) &&
  (0 <=? credit_reserve p) && (credit_reserve p <? 2 ^ 31).
Definition ini_ok : Prop := forall i p, wrr_ini i = Some p -> specs_range p = true.

(** A device with new queues, before its scheduler is set up *)
Record attaching (s : tx_state) : Prop := {
  at_txqs : forall q t, txqs s !! q = Some t -> t = txq_new;
  at_running : sched_running s = false;
  at_credit : - 2 ^ 31 <= target_tx_credit s < 2 ^ 31;
  at_out : tx_sent s = [] /\ tx_freed s = []
}.

Lemma queued_new s : (forall q t, txqs s !! q = Some t -> t = txq_new) -> queued s = [].
Proof.
  intros Hnew. unfold queued, queued_in. destruct (map_to_list (txqs s) ≫= _) as [|d l] eqn:Hl; [done|].
  assert (Hd : d ∈ map_to_list (txqs s) ≫= fun p => q_head p.2) by (rewrite Hl; set_solver).
  apply list_elem_of_bind in Hd as ([q t] & Hd & Hq). apply elem_of_map_to_list in Hq.
  rewrite (Hnew _ _ Hq) in Hd. cbn in Hd. set_solver.
Qed.

Lemma param_ok i p : ini_ok -> specs_range p = true -> specs_range (ol_tx_sched_wrr_param_update i p) = true.
Proof.
  intros Hini Hp. unfold ol_tx_sched_wrr_param_update. destruct (i <=? CAT_VO); [|done].
  destruct (wrr_ini i) as [p'|] eqn:Hi; [|done]. destruct (_ =? _); [done|]. by apply (Hini i).
Qed.

Lemma init_good s : ini_ok -> attaching s -> good (ol_tx_sched_init s).
Proof.
  intros Hini [Hnew Hrun Hcr _]. split; [|done|done].
  assert (Hq : queued (ol_tx_sched_init s) = []) by by apply queued_new.
  split; [|done| |done|done|by rewrite Hq|rewrite Hq; constructor].
  - intros q t Ht. cbn in Ht. rewrite (Hnew _ _ Ht). by split.
  - intros c k Hk. unfold ol_tx_sched_init in Hk. cbn [categories set_categories] in Hk. unfold aget in Hk. case_decide as Hc; [|done].
    apply list_lookup_imap_Some in Hk as (p & Hp & ->).
    assert (Hr : specs_range p = true).
    { assert (Hall : Forall (fun p => specs_range p = true) default_specs) by repeat constructor.
      rewrite Forall_lookup in Hall. by eapply Hall. }
    pose proof (param_ok (Z.of_nat (Z.to_nat c)) p Hini Hr) as Hr'.
    set (p' := ol_tx_sched_wrr_param_update _ p) in *. unfold specs_range in Hr'.
    rewrite !andb_true_iff, !Z.leb_le, !Z.ltb_lt in Hr'. split; [split|split]; cbn; try lia; try done.
    + constructor.
    + intros q. split; [set_solver|]. intros [(t & Ht & Hf) _]. cbn in Ht. by rewrite (Hnew _ _ Ht) in Hf.
    + rewrite s32_small; lia.
Qed.

(** ** Sequences of operations *)

(** [reach s0 ops credits s]: the operations lead from [s0] to [s] and add [credits]. *)
Inductive reach (s0 : tx_state) : list tx_op -> Z -> tx_state -> Prop :=
| reach_nil : reach s0 [] 0 s0
| reach_step ops c op s s' : reach s0 ops c s -> allowed op s -> exec op s = Some (tt, s') ->
    reach s0 (ops ++ [op]) (c + credited op s) s'.

Definition frames (ops : list tx_op) : list Z := ops ≫= op_frames.

(** What holds along every sequence *)
Record along (s0 : tx_state) (ops : list tx_op) (c : Z) (s : tx_state) : Prop := {
  al_good : good s;
  al_frames : frames ops ≡ₚ queued s ++ tx_sent s ++ tx_freed s;
  al_credit : target_tx_credit s + Z.of_nat (length (tx_sent s)) = target_tx_credit s0 + c;
  al_nonneg : 0 <= target_tx_credit s0 -> 0 <= target_tx_credit s;
  al_fifo : forall own, Forall (op_owned own) ops -> owned own s /\ forall q, exists left,
    filter (fun d => own d = q) (frames ops) = left ++ heads (txqs s) q /\
    filter (fun d => own d = q) (tx_sent s) `sublist_of` left
}.

Lemma along_start s : ini_ok -> attaching s -> along (ol_tx_sched_init s) [] 0 (ol_tx_sched_init s).
Proof.
  intros Hini Hat. pose proof Hat as [Hnew _ _ [Hs Hf]].
  assert (Hheads : forall q, heads (txqs s) q = []).
  { intros q. unfold heads. destruct (txqs s !! q) as [t|] eqn:Hq; [|done]. by rewrite (Hnew _ _ Hq). }
  split; [by apply init_good| |cbn; rewrite Hs; cbn; lia|done|].
  - rewrite (queued_new (ol_tx_sched_init s)) by done. cbn. by rewrite Hs, Hf.
  - intros own _. split; [intros q d; cbn; rewrite Hheads; set_solver|].
    intros q. exists []. cbn. by rewrite Hheads, Hs.
Qed.

Lemma along_step s0 ops c op s s' : along s0 ops c s -> good s' /\ moved op s s' ->
  along s0 (ops ++ [op]) (c + credited op s) s'.
Proof.
  intros [Hg Hf Hc Hn Ho] [Hg' (sent & gone & M1 & M2 & M3 & M4 & M5 & M6)].
  assert (Hfr : frames (ops ++ [op]) = frames ops ++ op_frames op).
  { unfold frames. rewrite bind_app. cbn. by rewrite app_nil_r. }
  split; [done| | |by eauto|].
  - rewrite Hfr, Hf, M1, M2. rewrite (Permutation_app_comm _ (op_frames op)), app_assoc, M3. solve_Permutation.
  - rewrite M1, length_app, M4. lia.
  - intros own [Hops [Hop _]%Forall_cons_1]%Forall_app. destruct (Ho own Hops) as [Hown Hq]. split.
    + intros q d Hd. destruct (M6 own Hown Hop q) as (left & Hl & _).
      assert (Hin : d ∈ heads (txqs s) q ++ filter (fun d => own d = q) (op_frames op)) by (rewrite Hl; set_solver).
      apply elem_of_app in Hin as [Hin|Hin]; [by apply Hown|]. by apply list_elem_of_filter in Hin as [? _].
    + intros q. destruct (Hq q) as (l1 & H1 & H1'), (M6 own Hown Hop q) as (l2 & H2 & H2').
      exists (l1 ++ l2). rewrite Hfr, filter_app, H1, <- app_assoc, H2, app_assoc. split; [done|].
      rewrite M1, filter_app. by apply sublist_app.
Qed.

Lemma reach_along s ops c s' : ini_ok -> attaching s -> reach (ol_tx_sched_init s) ops c s' ->
  along (ol_tx_sched_init s) ops c s'.
Proof.
  intros Hini Hat Hr. induction Hr as [|ops c op s1 s2 Hr IH Ha He]; [by apply along_start|].
  eapply along_step; [exact IH|]. exact (runs_result _ _ _ _ _ (step_moved op s1 (al_good _ _ _ _ IH) Ha) He).
Qed.

(** *** Playing a sequence *)

Definition on_queueb (s : tx_state) (q tid : Z) (P : ol_tx_frms_queue_t -> bool) : bool :=
  bool_decide (aget tid_to_ac tid = Some (cat_of q)) &&
  match txqs s !! q with Some t => P t | None => false end.
Definition credit_okb (s : tx_state) (credit : Z) : bool :=
  negb adf_os_debug || negb (first_select s) ||
  forallb (fun k => credit_threshold (specs k) <=? credit) (categories s).
Definition allowedb (op : tx_op) (s : tx_state) : bool :=
  match op with
  | TxEnqueue _ q d tid =>
      on_queueb s q tid (fun _ => true) && bool_decide (d ∉ queued s) && (Z.of_nat (length (queued s)) <? 65535)
  | TxPause q tid => on_queueb s q tid (fun t => paused_total t <? 255)
  | TxUnpause q tid => on_queueb s q tid (fun t => 0 <? paused_total t) && credit_okb s (target_tx_credit s)
  | TxFree q tid => on_queueb s q tid (fun t => paused_total t =? 0)
  | TxCredit n => (target_tx_credit s + Z.max 0 n <? 2 ^ 31) && credit_okb s (target_tx_credit s + Z.max 0 n)
  | TxCreditDec n => (0 <=? n) && (n <? 2 ^ 31)
  end.

Lemma on_queueb_spec s q tid P P' : (forall t, P t = true -> P' t) -> on_queueb s q tid P = true -> on_queue s q tid P'.
Proof.
  intros HP. unfold on_queueb, on_queue. rewrite andb_true_iff, bool_decide_eq_true. intros [Ht Hq].
  split; [done|]. destruct (txqs s !! q) as [t|]; [|done]. exists t. split; [done|by apply HP].
Qed.
Lemma credit_okb_spec s c : credit_okb s c = true -> credit_ok s c.
Proof.
  unfold credit_okb, credit_ok. intros H Hd Hf. rewrite Hd, Hf in H. cbn in H. rewrite forallb_forall in H. apply Forall_forall.
  intros k Hk. apply list_elem_of_In, H in Hk. by apply Z.leb_le in Hk.
Qed.
Lemma allowedb_spec op s : allowedb op s = true -> allowed op s.
Proof.
  destruct op as [vdevs q d tid|q tid|q tid|q tid|n|n]; cbn [allowedb allowed]; rewrite ?andb_true_iff, ?bool_decide_eq_true, ?Z.ltb_lt, ?Z.leb_le.
  - intros [[Hq Hd] Hl]. split; [|done]. by eapply on_queueb_spec.
  - apply on_queueb_spec. intros t. apply Z.ltb_lt.
  - intros [Hq Hc%credit_okb_spec]. split; [|done]. eapply on_queueb_spec; [|exact Hq]. intros t. apply Z.ltb_lt.
  - apply on_queueb_spec. intros t. apply Z.eqb_eq.
  - intros [Hn Hc%credit_okb_spec]. done.
  - done.
Qed.

Fixpoint play (ops : list tx_op) (c : Z) (s : tx_state) : option (Z * tx_state) :=
  match ops with
  | [] => Some (c, s)
  | op :: ops =>
      if allowedb op s then
        match exec op s with Some (_, s') => play ops (c + credited op s) s' | None => None end
      else None
  end.

Lemma play_reach s0 ops : forall before c s c' s', reach s0 before c s -> play ops c s = Some (c', s') ->
  reach s0 (before ++ ops) c' s'.
Proof.
  induction ops as [|op ops IH]; intros before c s c' s' Hr; cbn.
  - intros [= <- <-]. by rewrite app_nil_r.
  - destruct (allowedb op s) eqn:Ha; [|done]. destruct (exec op s) as [[[] s1]|] eqn:He; [|done]. intros Hp.
    replace (before ++ op :: ops) with ((before ++ [op]) ++ ops) by by rewrite <- app_assoc.
    eapply IH; [|exact Hp]. apply reach_step; [done|by apply allowedb_spec|done].
Qed.
End Props.

(** ** A device with two queues, for examples *)

#[local] Instance demo_env : TxEnv := {|
  nbuf_len := fun d => 100 + d;
  id_storage := fun d => negb (d =? 8);
  htt_accepts := fun d => negb (d =? 6);
  wrr_ini := fun _ => None;
  tx_desc_pool_size := 100;
  rsrc_threshold_lo := 4;
  rsrc_threshold_hi := 10;
  adf_os_debug := true
|}.
Definition demo_cat (q : Z) : Z := if q =? 0 then CAT_BE else CAT_VO.
Definition demo_dev (credit : Z) : tx_state := {|
  txqs := {[ 0 := txq_new; 1 := txq_new ]}; categories := []; order := []; sched_index := 0; last_used_txq := None;
  first_select := true; target_tx_credit := credit; sched_running := false; rsrc_cnt := 50;
  hl_paused_reason := ∅; nb_links := ∅; tx_freed := []; tx_sent := []
|}.

Lemma demo_ini : ini_ok.
Proof. by intros i p. Qed.
Lemma demo_attaching c : - 2 ^ 31 <= c < 2 ^ 31 -> attaching (demo_dev c).
Proof.
  intros Hc. split; try done. intros q t. cbn. intros [[_ <-]|[_ [_ <-]%lookup_singleton_Some]]%lookup_insert_Some; done.
Qed.

(** Three frames for queue 0 and one for queue 1; the target rejects the frame 6. *)
Definition demo_ops : list tx_op :=
  [TxEnqueue [] 0 2 0; TxEnqueue [] 0 6 0; TxEnqueue [] 1 4 6; TxPause 1 6; TxEnqueue [] 0 8 0; TxCredit 20; TxUnpause 1 6].

Definition demo_end : tx_state :=
  match play demo_cat demo_ops 0 (ol_tx_sched_init (demo_dev 0)) with Some (_, s) => s | None => demo_dev 0 end.

Example demo_end_state : tx_sent demo_end = [2; 8; 4] /\ tx_freed demo_end = [6] /\ target_tx_credit demo_end = 17.
Proof. by vm_compute. Qed.

Lemma demo_reach : reach demo_cat (ol_tx_sched_init (demo_dev 0)) demo_ops 20 demo_end.
Proof. apply (play_reach demo_cat _ demo_ops [] 0 (ol_tx_sched_init (demo_dev 0))); [constructor|by vm_compute]. Qed.

(** ** Theorems *)

Section Theorems.
Context `{ENV : TxEnv}.
Variable cat_of : Z -> Z.

(** C1.  Whatever sequence of enqueue, pause, unpause, free and credit operations an attached
    device goes through, each [allowed] where it happens, every frame it was given is exactly
    once either still in a queue, or handed to the target, or freed; and the credit left and the
    frames sent add up to the credit received, which never goes negative.  [allowed] asks that a
    descriptor is not queued twice and fewer than 65535 are, that pauses nest less than 256 deep
    and unpauses are paired with them, that a queue is freed only while it is not paused (what
    happens otherwise is [ol_tx_queue_free_forgets_pause]), that the credit stays below 2^31,
    and, where assertions are compiled in, that the first credit covers every threshold. *)
Theorem tx_frames_and_credit_conserved s0 ops c s :
  ini_ok -> attaching s0 -> reach cat_of (ol_tx_sched_init s0) ops c s ->
  frames ops ≡ₚ queued s ++ tx_sent s ++ tx_freed s /\
  target_tx_credit s + Z.of_nat (length (tx_sent s)) = target_tx_credit s0 + c /\
  (0 <= target_tx_credit s0 -> 0 <= target_tx_credit s).
Proof. intros Hini Hat Hr. by destruct (reach_along _ _ _ _ _ Hini Hat Hr). Qed.

(** C2.  Along every sequence of [allowed] operations, every tx queue is first in first out:
    of the frames put into it, in order, some prefix has left it, the rest are in it in that
    order, and the ones of the prefix that went to the target did so in that order. *)
Theorem tx_queues_fifo s0 ops c s own q :
  ini_ok -> attaching s0 -> reach cat_of (ol_tx_sched_init s0) ops c s -> Forall (op_owned own) ops ->
  exists left, filter (fun d => own d = q) (frames ops) = left ++ heads (txqs s) q /\
    filter (fun d => own d = q) (tx_sent s) `sublist_of` left.
Proof.
  intros Hini Hat Hr Hown. destruct (reach_along _ _ _ _ _ Hini Hat Hr) as [_ _ _ _ Hf].
  by destruct (Hf own Hown) as [_ Hq].
Qed.

(** C3.  From every state reached so, every allowed operation runs: its loops end, no list
    of queues is corrupted, no assertion fails, and the counters of queues and categories
    still agree with the frames queued. *)
Theorem tx_operations_run s0 ops c s op :
  ini_ok -> attaching s0 -> reach cat_of (ol_tx_sched_init s0) ops c s -> allowed cat_of op s ->
  runs (exec op) s (fun _ s' => inv cat_of s' /\ sched_running s' = false).
Proof.
  intros Hini Hat Hr Ha. destruct (reach_along _ _ _ _ _ Hini Hat Hr) as [Hg _ _ _ _].
  eapply runs_mono; [by eapply step_moved|]. intros _ s' [[H1 H2 _] _]. done.
Qed.

(** C4.  The scheduler conserves work: it sends, or has rejected, the frames [taken] from the
    queues, and stops only when the credit it found less one for each of them is used up, or no
    category has an active queue, or one that has is waiting for its credit threshold or reserve
    (or has a send limit of 0). *)
Theorem ol_tx_sched_work_conserving s :
  inv cat_of s -> sched_running s = false -> - 2 ^ 31 <= target_tx_credit s < 2 ^ 31 ->
  credit_ok s (target_tx_credit s) ->
  runs ol_tx_sched s (fun _ s' => exists taken,
    queued s ≡ₚ taken ++ queued s' /\ tx_sent s' = tx_sent s ++ accepted taken /\
    let credit := target_tx_credit s - Z.of_nat (length taken) in
    credit <= 0 \/
    (forall q t, txqs s' !! q = Some t -> 0 <= cat_of q < 8 -> q_flag t <> ol_tx_queue_active) \/
    exists c k, aget (categories s') c = Some k /\ c_active k = true /\
      (credit < credit_threshold (specs k) \/ credit <= credit_reserve (specs k) \/ send_limit (specs k) = 0)).
Proof.
  intros Hinv Hrun Hcr Hok. eapply runs_mono; [by apply (ol_tx_sched_spec cat_of)|].
  intros _ s' (_ & taken & (Hinv' & Hq & _ & Hs & _) & Hstop). exists taken. split; [done|]. split; [done|].
  destruct Hstop as [Hc|[Hnone|Hheld]]; [by left| |by right; right]. right. left. intros q t Ht Hc Hf.
  destruct (aget (categories s') (cat_of q)) as [k|] eqn:Hk.
  - destruct (active_listed _ _ _ _ _ Hinv' Ht Hf Hk) as [_ Ha]. by rewrite (Hnone _ _ Hk) in Ha.
  - unfold aget in Hk. rewrite decide_True in Hk by lia. apply lookup_ge_None in Hk. rewrite (i_len _ _ Hinv') in Hk. lia.
Qed.

(** The scheduler leaves every queue that is not active as it is: no frame of a paused
    queue is sent; what it takes it sends in the order taken, or frees. *)
Theorem ol_tx_sched_respects_pause s q t :
  inv cat_of s -> sched_running s = false -> - 2 ^ 31 <= target_tx_credit s < 2 ^ 31 ->
  credit_ok s (target_tx_credit s) -> txqs s !! q = Some t -> q_flag t <> ol_tx_queue_active ->
  runs ol_tx_sched s (fun _ s' => txqs s' !! q = Some t /\ exists taken, queued s ≡ₚ taken ++ queued s' /\
    Forall (fun d => d ∉ q_head t) taken /\ tx_sent s' = tx_sent s ++ accepted taken).
Proof.
  intros Hinv Hrun Hcr Hok Hq Hf. eapply runs_mono; [by apply (ol_tx_sched_spec cat_of)|].
  intros _ s' (Hfr & taken & (_ & Hqd & _ & Hs & _) & _). specialize (Hfr _ _ Hq Hf). split; [done|].
  exists taken. split; [done|]. split; [|done]. apply Forall_forall. intros d Hd Hin.
  pose proof (i_nodup _ _ Hinv) as Hnd. rewrite Hqd in Hnd. apply NoDup_app in Hnd as (_ & Hdis & _).
  apply (Hdis d Hd). unfold queued. rewrite (queued_delete _ _ _ Hfr). set_solver.
Qed.

(** A batch is a prefix of one active queue, within the send limit of its category and
    the credit less its reserve; it is appended to the frames already selected. *)
Theorem ol_tx_sched_select_batch_limits s sctx credit :
  inv cat_of s -> credit_ok s credit -> 0 <= credit < 2 ^ 32 -> - 2 ^ 31 <= sctx.2 < 2 ^ 31 ->
  idle_upto s (sched_index s) ->
  runs (ol_tx_sched_select_batch sctx credit) s (fun r s' => inv cat_of s' /\ exists taken,
    r = (Z.of_nat (length taken), (sctx.1 ++ taken, s32 (sctx.2 + Z.of_nat (length taken)))) /\
    queued s ≡ₚ taken ++ queued s' /\
    (taken = [] \/ exists q t k, txqs s !! q = Some t /\ q_flag t = ol_tx_queue_active /\
      aget (categories s) (cat_of q) = Some k /\ taken = take (length taken) (q_head t) /\
      Z.of_nat (length taken) <= send_limit (specs k) /\
      Z.of_nat (length taken) + credit_reserve (specs k) <= credit)).
Proof.
  intros Hinv Hok Hcr Hs Hid. eapply runs_mono; [by apply (select_batch_spec cat_of)|].
  intros r s' (_ & H1 & _ & _ & taken & Hr & _ & Hq & Hfrom & _). split; [done|]. exists taken.
  split; [done|]. split; [done|]. destruct Hfrom as [[Hnil _]|(q & t & k & H2 & H3 & H4 & H5 & _ & H6 & H7)]; [by left|].
  right. by exists q, t, k.
Qed.
(** C5.  [ol_tx_queue_free] marks a paused queue empty and keeps its pause count.  A queue that
    was paused any number of times, is freed and lives on, as after [ol_tx_queue_vdev_flush], and
    is given a frame, is then active with the same pause count and in the list its category serves:
    the scheduler may send its frames.  (The frame finds room without others being discarded.) *)
Theorem ol_tx_queue_free_forgets_pause s q tid t d vdevs :
  inv cat_of s -> txqs s !! q = Some t -> aget tid_to_ac tid = Some (cat_of q) -> paused_total t <> 0 ->
  rsrc_threshold_lo < s32 (rsrc_cnt s + Z.of_nat (length (q_head t))) ->
  runs (ol_tx_queue_free q tid ;; ol_tx_enqueue vdevs q d tid) s (fun _ s' => exists t' k,
    txqs s' !! q = Some t' /\ q_head t' = [d] /\ q_flag t' = ol_tx_queue_active /\
    paused_total t' = paused_total t /\
    aget (categories s') (cat_of q) = Some k /\ c_active k = true /\ q ∈ c_head k /\ ~ inv cat_of s').
Proof.
  intros Hinv Hq Htid Hp Hroom. pose proof (i_txq _ _ Hinv _ _ Hq) as Hok.
  destruct (queue_exists _ _ _ _ _ Hinv Hq Htid) as [k [_ _ Hk]]. apply (to_paused _ Hok) in Hp as Hf.
  unfold ol_tx_queue_free, ol_tx_sched_notify. mstep. mstep. mstep. eapply runs_txq_get; [exact Hq|].
  rewrite Hf. cbn [bool_decide]. rewrite bool_decide_eq_false_2 by done. mstep. mstep. eapply runs_txq_get; [exact Hq|].
  mstep. eapply runs_massert; [rewrite (to_frms _ Hok); by apply Z.leb_le|].
  rewrite (to_frms _ Hok), Nat2Z.id. mstep. apply runs_txq_put. mstep. mstep. mstep.
  set (t1 := with_queue 0 _ [] _ t). set (s1 := set_out _ _ _ _).
  assert (Hq1 : txqs s1 !! q = Some t1) by apply lookup_insert_eq.
  unfold ol_tx_enqueue. mstep. mstep. change (rsrc_cnt s1) with (s32 (rsrc_cnt s + Z.of_nat (length (q_head t)))).
  rewrite (proj2 (Z.leb_gt _ _)) by lia. mstep. mstep. unfold enqueue_frame. mstep. eapply runs_txq_get; [exact Hq1|].
  cbn [q_flag with_queue t1]. mstep. apply runs_txq_put. cbn [q_flag with_queue].
  rewrite bool_decide_eq_false_2 by done. cbn [negb]. mstep. set (t2 := with_queue _ _ _ _ t1).
  eapply txq_enqueue_spec; [exact Htid|apply lookup_insert_eq|exact Hk| |].
  { intros _. apply (inv_unlinked cat_of s); [done|]. intros Ha. destruct Ha as (t0 & Ht0 & Hf0). congruence. }
  mstep. eapply runs_txq_get; [apply lookup_insert_eq|]. apply runs_txq_put.
  eexists _, _. split; [apply lookup_insert_eq|]. split; [done|]. split; [done|]. split; [done|].
  split; [by eapply put_cat_get|]. cbn [q_flag t2 with_queue]. rewrite bool_decide_eq_false_2 by done.
  split; [done|]. split; [cbn; set_solver|]. intros Hinv'.
  assert (Hok' := i_txq _ _ Hinv' _ _ (lookup_insert_eq _ _ _)). by apply (to_paused _ Hok') in Hp.
Qed.
End Theorems.

(** Freeing a paused queue that lives on, as [ol_tx_queue_vdev_flush] does *)
Definition bug_ops : M tx_state unit :=
  ol_tx_enqueue [] 0 2 0 ;; ol_txrx_peer_tid_pause_base 0 0 ;; ol_tx_queue_free 0 0 ;; ol_tx_enqueue [] 0 8 0.
Definition bug_state : tx_state := match bug_ops (ol_tx_sched_init (demo_dev 0)) with Some (_, s) => s | None => demo_dev 0 end.
Definition bug_end : tx_state :=
  match (ol_txrx_peer_tid_unpause_base 0 0 ;; ol_tx_credit_completion_handler 20) bug_state with
  | Some (_, s) => s
  | None => demo_dev 0
  end.

(** What follows on a device: the last unpause counts the frames twice, and once they are
    sent the category stays active with an empty list and a frame counted that no queue holds. *)
Example forgotten_pause_miscounts :
  (exists k, aget (categories bug_end) CAT_BE = Some k /\ c_active k = true /\ c_head k = [] /\ c_frms k = 1) /\
  queued bug_end = [] /\ tx_sent bug_end = [8].
Proof. split; [eexists|]; by vm_compute. Qed.

(** *** Witnesses *)

Lemma tx_frames_and_credit_conserved_witness :
  frames demo_ops ≡ₚ queued demo_end ++ tx_sent demo_end ++ tx_freed demo_end /\
  target_tx_credit demo_end + Z.of_nat (length (tx_sent demo_end)) = target_tx_credit (demo_dev 0) + 20 /\
  (0 <= target_tx_credit (demo_dev 0) -> 0 <= target_tx_credit demo_end).
Proof.
  apply (tx_frames_and_credit_conserved demo_cat (demo_dev 0) demo_ops 20 demo_end);
    [exact demo_ini|by apply demo_attaching|exact demo_reach].
Defined.

Lemma tx_queues_fifo_witness : exists left,
  filter (fun d => (fun d => if d =? 4 then 1 else 0) d = 0) (frames demo_ops) = left ++ heads (txqs demo_end) 0 /\
  filter (fun d => (fun d => if d =? 4 then 1 else 0) d = 0) (tx_sent demo_end) `sublist_of` left.
Proof.
  apply (tx_queues_fifo demo_cat (demo_dev 0) demo_ops 20 demo_end (fun d => if d =? 4 then 1 else 0) 0);
    [exact demo_ini|by apply demo_attaching|exact demo_reach|by repeat constructor].
Defined.

Lemma tx_operations_run_witness : runs (exec (TxEnqueue [] 0 10 0)) demo_end (fun _ s' => inv demo_cat s' /\ sched_running s' = false).
Proof.
  apply (tx_operations_run demo_cat (demo_dev 0) demo_ops 20 demo_end (TxEnqueue [] 0 10 0));
    [exact demo_ini|by apply demo_attaching|exact demo_reach|by apply allowedb_spec; vm_compute].
Defined.

(** A state with a paused queue of one frame, an active one of two, and credit *)
Definition busy_ops : list tx_op := [TxEnqueue [] 0 2 0; TxEnqueue [] 0 6 0; TxEnqueue [] 1 4 6; TxPause 1 6].
Definition busy : tx_state :=
  match play demo_cat busy_ops 0 (ol_tx_sched_init (demo_dev 20)) with Some (_, s) => s | None => demo_dev 0 end.
Lemma busy_good : good demo_cat busy.
Proof.
  eapply (al_good demo_cat), (reach_along demo_cat (demo_dev 20) busy_ops 0);
    [exact demo_ini|by apply demo_attaching|].
  apply (play_reach demo_cat _ busy_ops [] 0 (ol_tx_sched_init (demo_dev 20))); [constructor|by vm_compute].
Qed.

Lemma ol_tx_sched_work_conserving_witness :
  runs ol_tx_sched busy (fun _ s' => exists taken,
    queued busy ≡ₚ taken ++ queued s' /\ tx_sent s' = tx_sent busy ++ accepted taken /\
    let credit := target_tx_credit busy - Z.of_nat (length taken) in
    credit <= 0 \/
    (forall q t, txqs s' !! q = Some t -> 0 <= demo_cat q < 8 -> q_flag t <> ol_tx_queue_active) \/
    exists c k, aget (categories s') c = Some k /\ c_active k = true /\
      (credit < credit_threshold (specs k) \/ credit <= credit_reserve (specs k) \/ send_limit (specs k) = 0)).
Proof.
  apply (ol_tx_sched_work_conserving demo_cat busy);
    [apply busy_good|apply busy_good|apply busy_good|apply credit_okb_spec; by vm_compute].
Defined.

Definition busy_txq : ol_tx_frms_queue_t :=
  {| paused_total := 1; q_frms := 1; q_bytes := 104; q_head := [4]; q_flag := ol_tx_queue_paused |}.
Lemma ol_tx_queue_free_forgets_pause_witness :
  runs (ol_tx_queue_free 1 6 ;; ol_tx_enqueue [] 1 10 6) busy (fun _ s' => exists t' k,
    txqs s' !! 1 = Some t' /\ q_head t' = [10] /\ q_flag t' = ol_tx_queue_active /\
    paused_total t' = 1 /\
    aget (categories s') CAT_VO = Some k /\ c_active k = true /\ 1 ∈ c_head k /\ ~ inv demo_cat s').
Proof.
  apply (ol_tx_queue_free_forgets_pause demo_cat busy 1 6 busy_txq 10 []);
    [apply busy_good|by vm_compute|by vm_compute|done|by vm_compute].
Defined.

Lemma ol_tx_sched_respects_pause_witness :
  runs ol_tx_sched busy (fun _ s' => txqs s' !! 1 = Some busy_txq /\ exists taken, queued busy ≡ₚ taken ++ queued s' /\
    Forall (fun d => d ∉ q_head busy_txq) taken /\ tx_sent s' = tx_sent busy ++ accepted taken).
Proof.
  apply (ol_tx_sched_respects_pause demo_cat busy);
    [apply busy_good|apply busy_good|apply busy_good|apply credit_okb_spec; by vm_compute|by vm_compute|done].
Defined.

Lemma ol_tx_sched_select_batch_limits_witness :
  runs (ol_tx_sched_select_batch (@nil Z, 0) 20) busy (fun r s' => inv demo_cat s' /\ exists taken,
    r = (Z.of_nat (length taken), ((@nil Z, 0).1 ++ taken, s32 ((@nil Z, 0).2 + Z.of_nat (length taken)))) /\
    queued busy ≡ₚ taken ++ queued s' /\
    (taken = [] \/ exists q t k, txqs busy !! q = Some t /\ q_flag t = ol_tx_queue_active /\
      aget (categories busy) (demo_cat q) = Some k /\ taken = take (length taken) (q_head t) /\
      Z.of_nat (length taken) <= send_limit (specs k) /\
      Z.of_nat (length taken) + credit_reserve (specs k) <= 20)).
Proof.
  apply (ol_tx_sched_select_batch_limits demo_cat busy (@nil Z, 0) 20);
    [apply busy_good|apply credit_okb_spec; by vm_compute|lia|cbn; lia|].
  intros j c k Hj Hc. unfold aget in Hc. replace (sched_index busy) with 0 in Hj by (by vm_compute). by rewrite decide_False in Hc by lia.
Defined.
