(* ===== verification/Peers.v ===== *)
(** * Peers: look-up, reference counts and life time

    Models the objects that stand for stations on the data path: their attach and detach, the
    reference counts that decide when their memory goes, the hash table by address and the map
    by the firmware's peer ids ([CORE/CLD_TXRX/TXRX/ol_txrx_peer_find.c]), the pool of local
    ids, and the life of the virtual devices they belong to ([ol_txrx.c]).

    Peers and virtual devices are objects in a heap; the object of a freed address is gone, and
    any access to it is undefined.  The tail queues that link peers through their elements are
    lists of addresses.  Calls that hand a peer or a virtual device to another component, and
    callbacks, are recorded in order in [calls].  Builds have [CONFIG_HL_SUPPORT] and
    [QCA_SUPPORT_TXRX_LOCAL_PEER_ID] on, and the processor is little-endian.  Invariant and
    specifications are in [PeersInv], the theorems in [PeersProps]. *)

From S2P Require Import Prelude TxSched.

Local Open Scope c_scope.

(** ** Data *)

Definition MAX_NUM_PEER_ID_PER_PEER : Z := 8.
Definition HTT_INVALID_PEER : Z := 65535.
Definition OL_TXRX_NUM_LOCAL_PEER_IDS : Z := 2 + 32.
Definition OL_TXRX_INVALID_LOCAL_PEER_ID : Z := 65535.
Definition OL_TXRX_NUM_EXT_TIDS : Z := 19.
Definition OL_TX_NUM_QOS_TIDS : Z := 16.
Definition OL_TX_VDEV_NUM_QUEUES : Z := 2.

(** A MAC address, by its bytes, with the views of the union. *)
Record ol_txrx_align_mac_addr_t := MAC { raw0 : Z; raw1 : Z; raw2 : Z; raw3 : Z; raw4 : Z; raw5 : Z }.
#[global] Instance mac_eqdec : EqDecision ol_txrx_align_mac_addr_t.
Proof. solve_decision. Defined.
Definition bytes_ab (m : ol_txrx_align_mac_addr_t) : Z := raw0 m + 256 * raw1 m.
Definition bytes_cd (m : ol_txrx_align_mac_addr_t) : Z := raw2 m + 256 * raw3 m.
Definition bytes_ef (m : ol_txrx_align_mac_addr_t) : Z := raw4 m + 256 * raw5 m.
Definition bytes_abcd (m : ol_txrx_align_mac_addr_t) : Z := bytes_ab m + 65536 * bytes_cd m.

Inductive ol_txrx_peer_state :=
  ol_txrx_peer_state_invalid | ol_txrx_peer_state_disc | ol_txrx_peer_state_conn | ol_txrx_peer_state_auth.
#[global] Instance peer_state_eqdec : EqDecision ol_txrx_peer_state.
Proof. solve_decision. Defined.

(** The functions a peer's pointers designate. *)
Inductive ol_tx_filter := ol_tx_filter_discard | ol_tx_filter_non_auth | ol_tx_filter_pass_thru.
Inductive rx_opt := rx_opt_normal | ol_rx_discard.

Inductive htt_sec_type :=
  htt_sec_type_none | htt_sec_type_wep128 | htt_sec_type_wep104 | htt_sec_type_wep40
| htt_sec_type_tkip | htt_sec_type_tkip_nomic | htt_sec_type_aes_ccmp | htt_sec_type_wapi.
Inductive ol_sec_type :=
  ol_sec_type_none | ol_sec_type_wep128 | ol_sec_type_wep104 | ol_sec_type_wep40
| ol_sec_type_tkip | ol_sec_type_tkip_nomic | ol_sec_type_aes_ccmp | ol_sec_type_wapi | ol_sec_type_other.

(** What of a peer does not bear on its life: [sec_type] is the unicast and the multicast one,
    [reorder_history] whether that buffer was allocated, [own_array] per TID whether the reorder
    queue has an array of its own. *)
Record peer_info := {
  keyinstalled : Z;
  qos_capable : Z;
  uapsd_mask : Z;
  sec_type : htt_sec_type * htt_sec_type;
  bss_peer : bool;
  reorder_history : bool;
  own_array : list bool
}.
Record ol_txrx_peer_t := {
  p_vdev : Z;
  p_mac : ol_txrx_align_mac_addr_t;
  ref_cnt : Z;
  delete_in_progress : Z;
  valid : bool;
  peer_ids : list Z;
  local_id : Z;
  p_state : ol_txrx_peer_state;
  tx_filter : option ol_tx_filter;
  rx_opt_proc : option rx_opt;
  p_info : peer_info
}.
(** [wait_delete_comp] counts the completions that were signalled and not yet taken. *)
Record ol_txrx_vdev_t := {
  v_id : Z;
  v_mac : ol_txrx_align_mac_addr_t;
  peer_list : list Z;
  last_real_peer : Z;
  delete_pending : bool;
  delete_callback : option Z;
  wait_on_peer_id : Z;
  wait_delete_comp : Z;
  disable_intrabss_fwd : bool;
  ll_pause_txq : list Z
}.

(** Calls that leave the component. *)
Inductive call :=
| Rx_peer_init (p : Z)                (** the reorder queues of the peer are initialised *)
| Rx_reorder_cleanup (v p : Z)        (** [ol_rx_reorder_peer_cleanup] *)
| Reorder_array_free (p tid : Z)
| Txqs_init (p : Z)                   (** the tx queues of the peer are empty *)
| Peer_pause (p : Z)                  (** [ol_txrx_peer_pause] *)
| Tid_unpause (p tid : Z)             (** [ol_txrx_peer_tid_unpause] *)
| Queue_decs_reinit (p id : Z)        (** [ol_tx_queue_decs_reinit] *)
| Peer_queue_free (p tid : Z)         (** [ol_tx_queue_free] of a peer's queue *)
| Vdev_queue_free (v tid : Z)
| Vdev_frame_free (v msdu : Z)        (** a frame of the pause queue is unmapped and freed *)
| Vdev_deleted (context : Z).         (** the callback of [ol_txrx_vdev_detach] *)

(** The device.  Of [local_peer_ids], [lid_pool] links the free ids from [lid_freelist] on.
    [desc_vdev] is the virtual device of each tx descriptor. *)
Record pdev_t := {
  peers : gmap Z ol_txrx_peer_t;
  vdevs : gmap Z ol_txrx_vdev_t;
  vdev_list : list Z;
  hash_mask : Z;
  hash_idx_bits : Z;
  hash_bins : list (list Z);
  peer_id_to_obj_map : list Z;
  lid_pool : list Z;
  lid_freelist : Z;
  lid_map : list Z;
  self_peer : Z;
  desc_vdev : list Z;
  calls : list call
}.

#[local] Abbreviation ST := pdev_t.

(** *** Field updates *)

Definition set_ref_cnt (v : Z) (p : ol_txrx_peer_t) : ol_txrx_peer_t :=
  {| p_vdev := p_vdev p; p_mac := p_mac p; ref_cnt := v;
     delete_in_progress := delete_in_progress p; valid := valid p; peer_ids := peer_ids p;
     local_id := local_id p; p_state := p_state p; tx_filter := tx_filter p;
     rx_opt_proc := rx_opt_proc p; p_info := p_info p |}.
Definition set_dip (v : Z) (p : ol_txrx_peer_t) : ol_txrx_peer_t :=
  {| p_vdev := p_vdev p; p_mac := p_mac p; ref_cnt := ref_cnt p; delete_in_progress := v;
     valid := valid p; peer_ids := peer_ids p; local_id := local_id p; p_state := p_state p;
     tx_filter := tx_filter p; rx_opt_proc := rx_opt_proc p; p_info := p_info p |}.
Definition set_valid (v : bool) (p : ol_txrx_peer_t) : ol_txrx_peer_t :=
  {| p_vdev := p_vdev p; p_mac := p_mac p; ref_cnt := ref_cnt p;
     delete_in_progress := delete_in_progress p; valid := v; peer_ids := peer_ids p;
     local_id := local_id p; p_state := p_state p; tx_filter := tx_filter p;
     rx_opt_proc := rx_opt_proc p; p_info := p_info p |}.
Definition set_peer_ids (v : list Z) (p : ol_txrx_peer_t) : ol_txrx_peer_t :=
  {| p_vdev := p_vdev p; p_mac := p_mac p; ref_cnt := ref_cnt p;
     delete_in_progress := delete_in_progress p; valid := valid p; peer_ids := v;
     local_id := local_id p; p_state := p_state p; tx_filter := tx_filter p;
     rx_opt_proc := rx_opt_proc p; p_info := p_info p |}.
Definition set_local_id (v : Z) (p : ol_txrx_peer_t) : ol_txrx_peer_t :=
  {| p_vdev := p_vdev p; p_mac := p_mac p; ref_cnt := ref_cnt p;
     delete_in_progress := delete_in_progress p; valid := valid p; peer_ids := peer_ids p;
     local_id := v; p_state := p_state p; tx_filter := tx_filter p; rx_opt_proc := rx_opt_proc p;
     p_info := p_info p |}.
Definition set_p_state (v : ol_txrx_peer_state) (p : ol_txrx_peer_t) : ol_txrx_peer_t :=
  {| p_vdev := p_vdev p; p_mac := p_mac p; ref_cnt := ref_cnt p;
     delete_in_progress := delete_in_progress p; valid := valid p; peer_ids := peer_ids p;
     local_id := local_id p; p_state := v; tx_filter := tx_filter p;
     rx_opt_proc := rx_opt_proc p; p_info := p_info p |}.
Definition set_tx_filter (v : option ol_tx_filter) (p : ol_txrx_peer_t) : ol_txrx_peer_t :=
  {| p_vdev := p_vdev p; p_mac := p_mac p; ref_cnt := ref_cnt p;
     delete_in_progress := delete_in_progress p; valid := valid p; peer_ids := peer_ids p;
     local_id := local_id p; p_state := p_state p; tx_filter := v; rx_opt_proc := rx_opt_proc p;
     p_info := p_info p |}.
Definition set_rx_opt_proc (v : option rx_opt) (p : ol_txrx_peer_t) : ol_txrx_peer_t :=
  {| p_vdev := p_vdev p; p_mac := p_mac p; ref_cnt := ref_cnt p;
     delete_in_progress := delete_in_progress p; valid := valid p; peer_ids := peer_ids p;
     local_id := local_id p; p_state := p_state p; tx_filter := tx_filter p; rx_opt_proc := v;
     p_info := p_info p |}.
Definition set_p_info (v : peer_info) (p : ol_txrx_peer_t) : ol_txrx_peer_t :=
  {| p_vdev := p_vdev p; p_mac := p_mac p; ref_cnt := ref_cnt p;
     delete_in_progress := delete_in_progress p; valid := valid p; peer_ids := peer_ids p;
     local_id := local_id p; p_state := p_state p; tx_filter := tx_filter p;
     rx_opt_proc := rx_opt_proc p; p_info := v |}.
Definition set_keyinstalled (v : Z) (i : peer_info) : peer_info :=
  {| keyinstalled := v; qos_capable := qos_capable i; uapsd_mask := uapsd_mask i;
     sec_type := sec_type i; bss_peer := bss_peer i; reorder_history := reorder_history i;
     own_array := own_array i |}.
Definition set_qos_capable (v : Z) (i : peer_info) : peer_info :=
  {| keyinstalled := keyinstalled i; qos_capable := v; uapsd_mask := uapsd_mask i;
     sec_type := sec_type i; bss_peer := bss_peer i; reorder_history := reorder_history i;
     own_array := own_array i |}.
Definition set_uapsd_mask (v : Z) (i : peer_info) : peer_info :=
  {| keyinstalled := keyinstalled i; qos_capable := qos_capable i; uapsd_mask := v;
     sec_type := sec_type i; bss_peer := bss_peer i; reorder_history := reorder_history i;
     own_array := own_array i |}.
Definition set_sec_type (v : htt_sec_type * htt_sec_type) (i : peer_info) : peer_info :=
  {| keyinstalled := keyinstalled i; qos_capable := qos_capable i; uapsd_mask := uapsd_mask i;
     sec_type := v; bss_peer := bss_peer i; reorder_history := reorder_history i;
     own_array := own_array i |}.
Definition set_bss_peer (v : bool) (i : peer_info) : peer_info :=
  {| keyinstalled := keyinstalled i; qos_capable := qos_capable i; uapsd_mask := uapsd_mask i;
     sec_type := sec_type i; bss_peer := v; reorder_history := reorder_history i;
     own_array := own_array i |}.
Definition set_history (v : bool) (i : peer_info) : peer_info :=
  {| keyinstalled := keyinstalled i; qos_capable := qos_capable i; uapsd_mask := uapsd_mask i;
     sec_type := sec_type i; bss_peer := bss_peer i; reorder_history := v;
     own_array := own_array i |}.
Definition set_own_array (v : list bool) (i : peer_info) : peer_info :=
  {| keyinstalled := keyinstalled i; qos_capable := qos_capable i; uapsd_mask := uapsd_mask i;
     sec_type := sec_type i; bss_peer := bss_peer i; reorder_history := reorder_history i;
     own_array := v |}.
Definition set_peer_list (v : list Z) (d : ol_txrx_vdev_t) : ol_txrx_vdev_t :=
  {| v_id := v_id d; v_mac := v_mac d; peer_list := v; last_real_peer := last_real_peer d;
     delete_pending := delete_pending d; delete_callback := delete_callback d;
     wait_on_peer_id := wait_on_peer_id d; wait_delete_comp := wait_delete_comp d;
     disable_intrabss_fwd := disable_intrabss_fwd d; ll_pause_txq := ll_pause_txq d |}.
Definition set_last_real (v : Z) (d : ol_txrx_vdev_t) : ol_txrx_vdev_t :=
  {| v_id := v_id d; v_mac := v_mac d; peer_list := peer_list d; last_real_peer := v;
     delete_pending := delete_pending d; delete_callback := delete_callback d;
     wait_on_peer_id := wait_on_peer_id d; wait_delete_comp := wait_delete_comp d;
     disable_intrabss_fwd := disable_intrabss_fwd d; ll_pause_txq := ll_pause_txq d |}.
Definition set_wait_on (v : Z) (d : ol_txrx_vdev_t) : ol_txrx_vdev_t :=
  {| v_id := v_id d; v_mac := v_mac d; peer_list := peer_list d;
     last_real_peer := last_real_peer d; delete_pending := delete_pending d;
     delete_callback := delete_callback d; wait_on_peer_id := v;
     wait_delete_comp := wait_delete_comp d; disable_intrabss_fwd := disable_intrabss_fwd d;
     ll_pause_txq := ll_pause_txq d |}.
Definition set_comp (v : Z) (d : ol_txrx_vdev_t) : ol_txrx_vdev_t :=
  {| v_id := v_id d; v_mac := v_mac d; peer_list := peer_list d;
     last_real_peer := last_real_peer d; delete_pending := delete_pending d;
     delete_callback := delete_callback d; wait_on_peer_id := wait_on_peer_id d;
     wait_delete_comp := v; disable_intrabss_fwd := disable_intrabss_fwd d;
     ll_pause_txq := ll_pause_txq d |}.
Definition set_intrabss (v : bool) (d : ol_txrx_vdev_t) : ol_txrx_vdev_t :=
  {| v_id := v_id d; v_mac := v_mac d; peer_list := peer_list d;
     last_real_peer := last_real_peer d; delete_pending := delete_pending d;
     delete_callback := delete_callback d; wait_on_peer_id := wait_on_peer_id d;
     wait_delete_comp := wait_delete_comp d; disable_intrabss_fwd := v;
     ll_pause_txq := ll_pause_txq d |}.
Definition set_ll_txq (v : list Z) (d : ol_txrx_vdev_t) : ol_txrx_vdev_t :=
  {| v_id := v_id d; v_mac := v_mac d; peer_list := peer_list d;
     last_real_peer := last_real_peer d; delete_pending := delete_pending d;
     delete_callback := delete_callback d; wait_on_peer_id := wait_on_peer_id d;
     wait_delete_comp := wait_delete_comp d; disable_intrabss_fwd := disable_intrabss_fwd d;
     ll_pause_txq := v |}.
Definition set_delete (pending : bool) (cb : option Z) (d : ol_txrx_vdev_t) : ol_txrx_vdev_t :=
  {| v_id := v_id d; v_mac := v_mac d; peer_list := peer_list d; last_real_peer := last_real_peer d;
     delete_pending := pending; delete_callback := cb; wait_on_peer_id := wait_on_peer_id d;
     wait_delete_comp := wait_delete_comp d; disable_intrabss_fwd := disable_intrabss_fwd d;
     ll_pause_txq := ll_pause_txq d |}.
Definition set_peers (v : gmap Z ol_txrx_peer_t) (s : ST) : ST :=
  {| peers := v; vdevs := vdevs s; vdev_list := vdev_list s; hash_mask := hash_mask s;
     hash_idx_bits := hash_idx_bits s; hash_bins := hash_bins s;
     peer_id_to_obj_map := peer_id_to_obj_map s; lid_pool := lid_pool s;
     lid_freelist := lid_freelist s; lid_map := lid_map s; self_peer := self_peer s;
     desc_vdev := desc_vdev s; calls := calls s |}.
Definition set_vdevs (v : gmap Z ol_txrx_vdev_t) (s : ST) : ST :=
  {| peers := peers s; vdevs := v; vdev_list := vdev_list s; hash_mask := hash_mask s;
     hash_idx_bits := hash_idx_bits s; hash_bins := hash_bins s;
     peer_id_to_obj_map := peer_id_to_obj_map s; lid_pool := lid_pool s;
     lid_freelist := lid_freelist s; lid_map := lid_map s; self_peer := self_peer s;
     desc_vdev := desc_vdev s; calls := calls s |}.
Definition set_vdev_list (v : list Z) (s : ST) : ST :=
  {| peers := peers s; vdevs := vdevs s; vdev_list := v; hash_mask := hash_mask s;
     hash_idx_bits := hash_idx_bits s; hash_bins := hash_bins s;
     peer_id_to_obj_map := peer_id_to_obj_map s; lid_pool := lid_pool s;
     lid_freelist := lid_freelist s; lid_map := lid_map s; self_peer := self_peer s;
     desc_vdev := desc_vdev s; calls := calls s |}.
Definition set_bins (v : list (list Z)) (s : ST) : ST :=
  {| peers := peers s; vdevs := vdevs s; vdev_list := vdev_list s; hash_mask := hash_mask s;
     hash_idx_bits := hash_idx_bits s; hash_bins := v;
     peer_id_to_obj_map := peer_id_to_obj_map s; lid_pool := lid_pool s;
     lid_freelist := lid_freelist s; lid_map := lid_map s; self_peer := self_peer s;
     desc_vdev := desc_vdev s; calls := calls s |}.
Definition set_id_map (v : list Z) (s : ST) : ST :=
  {| peers := peers s; vdevs := vdevs s; vdev_list := vdev_list s; hash_mask := hash_mask s;
     hash_idx_bits := hash_idx_bits s; hash_bins := hash_bins s; peer_id_to_obj_map := v;
     lid_pool := lid_pool s; lid_freelist := lid_freelist s; lid_map := lid_map s;
     self_peer := self_peer s; desc_vdev := desc_vdev s; calls := calls s |}.
Definition set_self_peer (v : Z) (s : ST) : ST :=
  {| peers := peers s; vdevs := vdevs s; vdev_list := vdev_list s; hash_mask := hash_mask s;
     hash_idx_bits := hash_idx_bits s; hash_bins := hash_bins s;
     peer_id_to_obj_map := peer_id_to_obj_map s; lid_pool := lid_pool s;
     lid_freelist := lid_freelist s; lid_map := lid_map s; self_peer := v;
     desc_vdev := desc_vdev s; calls := calls s |}.
Definition set_desc_vdev (v : list Z) (s : ST) : ST :=
  {| peers := peers s; vdevs := vdevs s; vdev_list := vdev_list s; hash_mask := hash_mask s;
     hash_idx_bits := hash_idx_bits s; hash_bins := hash_bins s;
     peer_id_to_obj_map := peer_id_to_obj_map s; lid_pool := lid_pool s;
     lid_freelist := lid_freelist s; lid_map := lid_map s; self_peer := self_peer s;
     desc_vdev := v; calls := calls s |}.
Definition set_calls (v : list call) (s : ST) : ST :=
  {| peers := peers s; vdevs := vdevs s; vdev_list := vdev_list s; hash_mask := hash_mask s;
     hash_idx_bits := hash_idx_bits s; hash_bins := hash_bins s;
     peer_id_to_obj_map := peer_id_to_obj_map s; lid_pool := lid_pool s;
     lid_freelist := lid_freelist s; lid_map := lid_map s; self_peer := self_peer s;
     desc_vdev := desc_vdev s; calls := v |}.
Definition set_lids (pool : list Z) (free : Z) (map : list Z) (s : ST) : ST :=
  {| peers := peers s; vdevs := vdevs s; vdev_list := vdev_list s; hash_mask := hash_mask s;
     hash_idx_bits := hash_idx_bits s; hash_bins := hash_bins s;
     peer_id_to_obj_map := peer_id_to_obj_map s; lid_pool := pool; lid_freelist := free;
     lid_map := map; self_peer := self_peer s; desc_vdev := desc_vdev s; calls := calls s |}.
Definition set_hash (mask idx_bits : Z) (bins : list (list Z)) (s : ST) : ST :=
  {| peers := peers s; vdevs := vdevs s; vdev_list := vdev_list s; hash_mask := mask;
     hash_idx_bits := idx_bits; hash_bins := bins;
     peer_id_to_obj_map := peer_id_to_obj_map s; lid_pool := lid_pool s;
     lid_freelist := lid_freelist s; lid_map := lid_map s; self_peer := self_peer s;
     desc_vdev := desc_vdev s; calls := calls s |}.

(** *** Objects and tail queues *)

Definition emit (c : call) : M ST unit := modify (fun s => set_calls (calls s ++ [c]) s).
Definition get_peer (p : Z) : M ST ol_txrx_peer_t := s <- mget ;; oget (peers s !! p).
Definition put_peer (p : Z) (x : ol_txrx_peer_t) : M ST unit := modify (fun s => set_peers (<[p := x]> (peers s)) s).
Definition upd_peer (p : Z) (f : ol_txrx_peer_t -> ol_txrx_peer_t) : M ST unit := x <- get_peer p ;; put_peer p (f x).
Definition get_vdev (v : Z) : M ST ol_txrx_vdev_t := s <- mget ;; oget (vdevs s !! v).
Definition put_vdev (v : Z) (x : ol_txrx_vdev_t) : M ST unit := modify (fun s => set_vdevs (<[v := x]> (vdevs s)) s).
Definition upd_vdev (v : Z) (f : ol_txrx_vdev_t -> ol_txrx_vdev_t) : M ST unit := x <- get_vdev v ;; put_vdev v (f x).
Definition upd_info (p : Z) (f : peer_info -> peer_info) : M ST unit := upd_peer p (fun x => set_p_info (f (p_info x)) x).
Definition free_peer (p : Z) : M ST unit := _ <- get_peer p ;; modify (fun s => set_peers (delete p (peers s)) s).
Definition free_vdev (v : Z) : M ST unit := _ <- get_vdev v ;; modify (fun s => set_vdevs (delete v (vdevs s)) s).

(** [adf_os_atomic_inc], [adf_os_atomic_dec] of a reference count, with the new value *)
Definition ref_add (d : Z) (p : Z) : M ST Z :=
  x <- get_peer p ;; let n := s32 (ref_cnt x + d) in put_peer p (set_ref_cnt n x) ;; mreturn n.

(** [TAILQ_REMOVE] of an element that must be there; [TAILQ_FOREACH_SAFE]'s next element *)
Definition tq_remove (p : Z) (l : list Z) : option (list Z) :=
  if bool_decide (p ∈ l) then Some (filter (fun q => q <> p) l) else None.
Fixpoint tq_next (p : Z) (l : list Z) : option Z :=
  match l with [] => None | q :: l => if q =? p then Some (default 0 (head l)) else tq_next p l end.

Section Peers.
(** The configuration: the largest peer id of the firmware, whether the device is a high
    latency one, whether the driver monitors, whether the host starts block ack sessions. *)
Record txrx_cfg := { max_peer_id : Z; is_high_latency : bool; monitor_mode : bool; host_addba : bool }.
Context (cfg : txrx_cfg).

(** ** Addresses *)

(** [ol_txrx_log2_ceil] of a positive number *)
Definition ol_txrx_log2_ceil (value : Z) : M ST Z :=
  if value =? 0 then mreturn 0
  else
    log2 <- miter 33 (fun '(tmp, log2) =>
      if tmp =? 0 then mreturn (inr log2)
      else mreturn (inl (Z.shiftr tmp 1, log2 + 1))) (value, -1) ;;
    mreturn (if u32 (Z.shiftl 1 log2) =? value then log2 else log2 + 1).

Definition ol_txrx_peer_find_mac_addr_cmp (m1 m2 : ol_txrx_align_mac_addr_t) : Z :=
  if negb (Z.land (if bytes_abcd m1 =? bytes_abcd m2 then 1 else 0) (if bytes_ef m1 =? bytes_ef m2 then 1 else 0) =? 0)
  then 0 else 1.

Definition ol_txrx_peer_find_hash_index (mac_addr : ol_txrx_align_mac_addr_t) : M ST Z :=
  s <- mget ;;
  let index := Z.lxor (Z.lxor (bytes_ab mac_addr) (bytes_cd mac_addr)) (bytes_ef mac_addr) in
  let index := Z.lxor index (Z.shiftr index (hash_idx_bits s)) in
  mreturn (Z.land index (hash_mask s)).

(** ** The hash table *)

(** [have_mem] is whether the allocation succeeds *)
Definition ol_txrx_peer_find_hash_attach (have_mem : bool) : M ST Z :=
  let hash_elems := s32 (max_peer_id cfg + 1) in
  let hash_elems := s32 (hash_elems * 2) in
  let hash_elems := Z.shiftr hash_elems 0 in
  log2 <- ol_txrx_log2_ceil (u32 hash_elems) ;;
  let hash_elems := s32 (Z.shiftl 1 log2) in
  if have_mem then
    modify (set_hash (u32 (hash_elems - 1)) log2 (replicate (Z.to_nat hash_elems) [])) ;; mreturn 0
  else modify (set_hash (u32 (hash_elems - 1)) log2 []) ;; mreturn 1.

Definition ol_txrx_peer_find_hash_detach : M ST unit := modify (set_bins []).

Definition get_bin (index : Z) : M ST (list Z) := s <- mget ;; oget (aget (hash_bins s) index).
Definition put_bin (index : Z) (l : list Z) : M ST unit :=
  s <- mget ;; bins <- oget (aset (hash_bins s) index l) ;; modify (set_bins bins).

Definition ol_txrx_peer_find_hash_add (peer : Z) : M ST unit :=
  x <- get_peer peer ;;
  index <- ol_txrx_peer_find_hash_index (p_mac x) ;;
  bin <- get_bin index ;; put_bin index (bin ++ [peer]).

Definition ol_txrx_peer_find_hash_remove (peer : Z) : M ST unit :=
  x <- get_peer peer ;;
  index <- ol_txrx_peer_find_hash_index (p_mac x) ;;
  bin <- get_bin index ;; bin' <- oget (tq_remove peer bin) ;; put_bin index bin'.

(** The walk of both look-ups: the first peer of the bin that [test]s true gets a reference. *)
Fixpoint find_in_bin (test : ol_txrx_peer_t -> bool) (bin : list Z) : M ST Z :=
  match bin with
  | [] => mreturn 0
  | peer :: bin =>
      x <- get_peer peer ;;
      if test x then ref_add 1 peer ;; mreturn peer
      else find_in_bin test bin
  end.

Definition ol_txrx_peer_vdev_find_hash (vdev : Z) (mac_addr : ol_txrx_align_mac_addr_t) (check_valid : bool) : M ST Z :=
  index <- ol_txrx_peer_find_hash_index mac_addr ;;
  bin <- get_bin index ;;
  find_in_bin (fun x => (ol_txrx_peer_find_mac_addr_cmp mac_addr (p_mac x) =? 0)
    && (negb check_valid || valid x) && (p_vdev x =? vdev)) bin.

Definition ol_txrx_peer_find_hash_find (mac_addr : ol_txrx_align_mac_addr_t) (check_valid : bool) : M ST Z :=
  index <- ol_txrx_peer_find_hash_index mac_addr ;;
  bin <- get_bin index ;;
  find_in_bin (fun x => (ol_txrx_peer_find_mac_addr_cmp mac_addr (p_mac x) =? 0)
    && (negb check_valid || valid x)) bin.

(** ** Deleting *)

(** [ol_rx_peer_cleanup] *)
Definition ol_rx_peer_cleanup (vdev peer : Z) : M ST unit :=
  upd_info peer (set_keyinstalled 0) ;;
  emit (Rx_reorder_cleanup vdev peer) ;;
  upd_info peer (set_history false).

(** The tx descriptors forget the virtual device. *)
Definition forget_vdev (vdev : Z) : M ST unit :=
  modify (fun s => set_desc_vdev ((fun d => if d =? vdev then 0 else d) <$> desc_vdev s) s).

(** The deletion of a virtual device that waited for its last peer *)
Definition finish_vdev (vdev : Z) : M ST unit :=
  d <- get_vdev vdev ;;
  if bool_decide (peer_list d = []) && delete_pending d then
    let vdev_delete_cb := delete_callback d in
    forget_vdev vdev ;; free_vdev vdev ;;
    match vdev_delete_cb with Some context => emit (Vdev_deleted context) | None => mreturn tt end
  else mreturn tt.

(** What is left of a peer that is in no list any more *)
Definition release_peer (peer : Z) : M ST unit :=
  (if is_high_latency cfg then mfor (seqZ 0 OL_TX_NUM_TIDS) (fun i => emit (Peer_queue_free peer i))
   else mreturn tt) ;;
  mfor (seqZ 0 OL_TXRX_NUM_EXT_TIDS) (fun i =>
    x <- get_peer peer ;;
    own <- oget (aget (own_array (p_info x)) i) ;;
    if own : bool then
      emit (Reorder_array_free peer i) ;;
      a <- oget (aset (own_array (p_info x)) i false) ;; upd_info peer (set_own_array a)
    else mreturn tt) ;;
  free_peer peer.

Definition ol_txrx_peer_unref_delete (peer : Z) : M ST unit :=
  x <- get_peer peer ;;
  let vdev := p_vdev x in
  if vdev =? 0 then mreturn tt else
  massert (negb (ref_cnt x =? 0)) ;;
  n <- ref_add (-1) peer ;;
  if n =? 0 then
    s <- mget ;;
    (if (peer =? self_peer s) && monitor_mode cfg then modify (set_self_peer 0) else mreturn tt) ;;
    let peer_id := local_id x in
    ol_txrx_peer_find_hash_remove peer ;;
    d <- get_vdev vdev ;;
    l <- oget (tq_remove peer (peer_list d)) ;; upd_vdev vdev (set_peer_list l) ;;
    ol_rx_peer_cleanup vdev peer ;;
    upd_peer peer (set_dip 0) ;;
    d <- get_vdev vdev ;;
    (if peer_id =? wait_on_peer_id d then
       upd_vdev vdev (fun d => set_comp (wait_delete_comp d + 1) d) ;;
       upd_vdev vdev (set_wait_on OL_TXRX_INVALID_LOCAL_PEER_ID)
     else mreturn tt) ;;
    finish_vdev vdev ;;
    release_peer peer
  else mreturn tt.

(** One bin of [ol_txrx_peer_find_hash_erase]; [peer] is the first to visit *)
Definition erase_bin (fuel : nat) (i peer : Z) : M ST unit :=
  miter fuel (fun peer =>
    if peer =? 0 then mreturn (inr tt)
    else
      bin <- get_bin i ;;
      peer_next <- oget (tq_next peer bin) ;;
      upd_peer peer (set_ref_cnt 0) ;; _ <- ref_add 1 peer ;;
      ol_txrx_peer_unref_delete peer ;;
      mreturn (inl peer_next)) peer.
Definition ol_txrx_peer_find_hash_erase : M ST unit :=
  s <- mget ;;
  mfor (seqZ 0 (hash_mask s + 1)) (fun i =>
    bin <- get_bin i ;;
    erase_bin (Datatypes.S (length bin)) i (default 0 (head bin))).

(** ** Peer ids of the firmware *)

Definition ol_txrx_peer_find_map_attach (have_mem : bool) : M ST Z :=
  if have_mem then modify (set_id_map (replicate (Z.to_nat (max_peer_id cfg + 1)) 0)) ;; mreturn 0
  else mreturn 1.
Definition ol_txrx_peer_find_map_detach : M ST unit := modify (set_id_map []).

Definition ol_txrx_peer_find_attach (have_map have_hash : bool) : M ST Z :=
  r <- ol_txrx_peer_find_map_attach have_map ;;
  if negb (r =? 0) then mreturn 1
  else
    r <- ol_txrx_peer_find_hash_attach have_hash ;;
    if negb (r =? 0) then ol_txrx_peer_find_map_detach ;; mreturn 1
    else mreturn 0.
Definition ol_txrx_peer_find_detach : M ST unit :=
  ol_txrx_peer_find_map_detach ;; ol_txrx_peer_find_hash_detach.

Definition map_read (peer_id : Z) : M ST Z := s <- mget ;; oget (aget (peer_id_to_obj_map s) peer_id).
Definition map_write (peer_id peer : Z) : M ST unit :=
  s <- mget ;; m <- oget (aset (peer_id_to_obj_map s) peer_id peer) ;; modify (set_id_map m).

(** 0 for success *)
Definition ol_txrx_peer_find_add_id_to_obj (peer peer_id : Z) : M ST Z :=
  miter 9 (fun i =>
    if MAX_NUM_PEER_ID_PER_PEER <=? i then mreturn (inr 1)
    else
      x <- get_peer peer ;;
      id <- oget (aget (peer_ids x) i) ;;
      if id =? HTT_INVALID_PEER then
        ids <- oget (aset (peer_ids x) i peer_id) ;;
        put_peer peer (set_peer_ids ids x) ;; mreturn (inr 0)
      else mreturn (inl (i + 1))) 0.

Definition ol_txrx_peer_find_add_id (peer_mac_addr : ol_txrx_align_mac_addr_t) (peer_id : Z) : M ST unit :=
  peer <- ol_txrx_peer_find_hash_find peer_mac_addr false ;;
  if negb (peer =? 0) then
    map_write peer_id peer ;;
    x <- get_peer peer ;;
    id0 <- oget (aget (peer_ids x) 0) ;;
    (if id0 =? HTT_INVALID_PEER then ol_txrx_peer_unref_delete peer else mreturn tt) ;;
    r <- ol_txrx_peer_find_add_id_to_obj peer peer_id ;;
    massert (r =? 0)
  else mreturn tt.

(** [ol_txrx_peer_find_by_id]: only a peer that was not detached *)
Definition ol_txrx_peer_find_by_id (peer_id : Z) : M ST Z :=
  if max_peer_id cfg <? peer_id then mreturn 0
  else
    peer <- map_read peer_id ;;
    if peer =? 0 then mreturn 0
    else x <- get_peer peer ;; mreturn (if valid x then peer else 0).

Definition ol_rx_peer_map_handler (peer_id vdev_id : Z) (peer_mac_addr : ol_txrx_align_mac_addr_t) (tx_ready : bool) : M ST unit :=
  ol_txrx_peer_find_add_id peer_mac_addr peer_id ;;
  if is_high_latency cfg && negb tx_ready then
    peer <- ol_txrx_peer_find_by_id peer_id ;;
    if peer =? 0 then mreturn tt
    else if tx_ready then mfor (seqZ 0 OL_TX_NUM_TIDS) (fun i => emit (Tid_unpause peer i))
    else emit (Queue_decs_reinit peer peer_id) ;; emit (Tid_unpause peer HTT_TX_EXT_TID_MGMT)
  else mreturn tt.

Definition ol_txrx_peer_tx_ready_handler (peer_id : Z) : M ST unit :=
  peer <- ol_txrx_peer_find_by_id peer_id ;;
  if negb (peer =? 0) then
    mfor (seqZ 0 OL_TX_NUM_TIDS) (fun i =>
      if i =? HTT_TX_EXT_TID_MGMT then mreturn tt else emit (Tid_unpause peer i))
  else mreturn tt.

Definition ol_rx_peer_unmap_handler (peer_id : Z) : M ST unit :=
  peer <- (if peer_id =? HTT_INVALID_PEER then mreturn 0 else map_read peer_id) ;;
  map_write peer_id 0 ;;
  if peer =? 0 then mreturn tt else ol_txrx_peer_unref_delete peer.

(** The firmware's messages, as [htt_t2h_lp_msg_handler] receives them *)
Definition htt_t2h_peer_map (peer_id vdev_id : Z) (peer_mac_addr : ol_txrx_align_mac_addr_t) : M ST unit :=
  if max_peer_id cfg <? peer_id then mreturn tt
  else ol_rx_peer_map_handler peer_id vdev_id peer_mac_addr true.
Definition htt_t2h_peer_unmap (peer_id : Z) : M ST unit :=
  if max_peer_id cfg <? peer_id then mreturn tt else ol_rx_peer_unmap_handler peer_id.

(** ** Local ids *)

Definition OL_TXRX_LOCAL_PEER_ID_POOL_INIT : M ST unit :=
  modify (set_lids ((fun i => i + 1) <$> seqZ 0 OL_TXRX_NUM_LOCAL_PEER_IDS) 0
    (replicate (Z.to_nat OL_TXRX_NUM_LOCAL_PEER_IDS) 0)) ;;
  s <- mget ;;
  modify (set_lids (lid_pool s ++ [OL_TXRX_NUM_LOCAL_PEER_IDS]) (lid_freelist s) (lid_map s)).

Definition OL_TXRX_LOCAL_PEER_ID_ALLOC (peer : Z) : M ST unit :=
  s <- mget ;;
  let i := lid_freelist s in
  next <- oget (aget (lid_pool s) i) ;;
  if next =? i then upd_peer peer (set_local_id OL_TXRX_INVALID_LOCAL_PEER_ID)
  else
    upd_peer peer (set_local_id i) ;;
    m <- oget (aset (lid_map s) i peer) ;; modify (set_lids (lid_pool s) next m).

Definition OL_TXRX_LOCAL_PEER_ID_FREE (peer : Z) : M ST unit :=
  x <- get_peer peer ;;
  let i := local_id x in
  if (i =? OL_TXRX_INVALID_LOCAL_PEER_ID) || (OL_TXRX_NUM_LOCAL_PEER_IDS <=? i) then mreturn tt
  else
    s <- mget ;;
    pool <- oget (aset (lid_pool s) i (u8 (lid_freelist s))) ;;
    m <- oget (aset (lid_map s) i 0) ;;
    modify (set_lids pool i m).

Definition ol_txrx_peer_find_by_local_id (local_peer_id : Z) : M ST Z :=
  if (local_peer_id =? OL_TXRX_INVALID_LOCAL_PEER_ID) || (OL_TXRX_NUM_LOCAL_PEER_IDS <=? local_peer_id)
  then mreturn 0
  else s <- mget ;; oget (aget (lid_map s) local_peer_id).

Definition ol_txrx_local_peer_id (peer : Z) : M ST Z := x <- get_peer peer ;; mreturn (local_id x).

(** ** Look-ups of the control path; the second result is the local id that they store *)

Definition ol_txrx_find_peer_by_addr_and_vdev (vdev : Z) (peer_addr : ol_txrx_align_mac_addr_t) : M ST (Z * option Z) :=
  peer <- ol_txrx_peer_vdev_find_hash vdev peer_addr true ;;
  if peer =? 0 then mreturn (0, None)
  else x <- get_peer peer ;; ref_add (-1) peer ;; mreturn (peer, Some (u8 (local_id x))).
Definition ol_txrx_find_peer_by_addr (peer_addr : ol_txrx_align_mac_addr_t) : M ST (Z * option Z) :=
  peer <- ol_txrx_peer_find_hash_find peer_addr true ;;
  if peer =? 0 then mreturn (0, None)
  else x <- get_peer peer ;; ref_add (-1) peer ;; mreturn (peer, Some (u8 (local_id x))).
Definition ol_txrx_peer_find_by_addr (peer_mac_addr : ol_txrx_align_mac_addr_t) : M ST Z :=
  peer <- ol_txrx_peer_find_hash_find peer_mac_addr false ;;
  if negb (peer =? 0) then ol_txrx_peer_unref_delete peer ;; mreturn peer else mreturn peer.
Definition ol_txrx_assoc_peer_find (vdev : Z) : M ST Z :=
  d <- get_vdev vdev ;;
  let peer := last_real_peer d in
  if peer =? 0 then mreturn 0
  else
    x <- get_peer peer ;;
    id0 <- oget (aget (peer_ids x) 0) ;;
    if negb (id0 =? HTT_INVALID_PEER) then ref_add 1 peer ;; mreturn peer else mreturn 0.

(** ** The state of a peer *)

(** Does a tx filter let a frame of this ethertype pass? *)
Definition run_tx_filter (f : ol_tx_filter) (ethertype : Z) : bool :=
  match f with
  | ol_tx_filter_discard => false
  | ol_tx_filter_non_auth => (ethertype =? 34958) || (ethertype =? 34996)
  | ol_tx_filter_pass_thru => true
  end.

Definition ol_txrx_peer_state_update (peer_mac : ol_txrx_align_mac_addr_t) (state : ol_txrx_peer_state) : M ST unit :=
  peer <- ol_txrx_peer_find_hash_find peer_mac true ;;
  if peer =? 0 then mreturn tt else
  x <- get_peer peer ;;
  if bool_decide (p_state x = state) then ref_add (-1) peer ;; mreturn tt
  else
    upd_peer peer (set_tx_filter (Some (if bool_decide (state = ol_txrx_peer_state_auth) then ol_tx_filter_pass_thru
      else if bool_decide (state = ol_txrx_peer_state_conn) then ol_tx_filter_non_auth else ol_tx_filter_discard))) ;;
    _ <- get_vdev (p_vdev x) ;;
    (if host_addba cfg && bool_decide (state = ol_txrx_peer_state_auth) then
       emit (Peer_pause peer) ;;
       mfor (seqZ OL_TX_NUM_QOS_TIDS (OL_TX_NUM_TIDS - OL_TX_NUM_QOS_TIDS)) (fun tid => emit (Tid_unpause peer tid))
     else mreturn tt) ;;
    ref_add (-1) peer ;;
    upd_peer peer (set_p_state state).

Definition ol_txrx_peer_keyinstalled_state_update (peer val : Z) : M ST unit := upd_info peer (set_keyinstalled val).

Inductive ol_txrx_peer_update_param :=
| update_qos_capable (v : Z) | update_uapsdMask (v : Z) | update_peer_security (t : ol_sec_type) | update_other.

Definition peer_sec_type (t : ol_sec_type) : htt_sec_type :=
  match t with
  | ol_sec_type_none => htt_sec_type_none
  | ol_sec_type_wep128 => htt_sec_type_wep128
  | ol_sec_type_wep104 => htt_sec_type_wep104
  | ol_sec_type_wep40 => htt_sec_type_wep40
  | ol_sec_type_tkip => htt_sec_type_tkip
  | ol_sec_type_tkip_nomic => htt_sec_type_tkip_nomic
  | ol_sec_type_aes_ccmp => htt_sec_type_aes_ccmp
  | ol_sec_type_wapi => htt_sec_type_wapi
  | ol_sec_type_other => htt_sec_type_none
  end.

(** [htt_peer_qos_update] and [htt_peer_uapsdmask_update] are empty macros ([ol_htt_api.h]). *)
Definition ol_txrx_peer_update (vdev : Z) (peer_mac : ol_txrx_align_mac_addr_t) (param : ol_txrx_peer_update_param) : M ST unit :=
  _ <- get_vdev vdev ;;
  peer <- ol_txrx_peer_find_hash_find peer_mac true ;;
  if peer =? 0 then mreturn tt else
  match param with
  | update_qos_capable v => upd_info peer (set_qos_capable v)
  | update_uapsdMask v => upd_info peer (set_uapsd_mask v)
  | update_peer_security t => upd_info peer (set_sec_type (peer_sec_type t, peer_sec_type t))
  | update_other => mreturn tt
  end ;;
  _ <- ref_add (-1) peer ;; mreturn tt.

Definition ol_txrx_peer_uapsdmask_get (peer_id : Z) : M ST Z :=
  peer <- ol_txrx_peer_find_by_id peer_id ;;
  if negb (peer =? 0) then x <- get_peer peer ;; mreturn (uapsd_mask (p_info x)) else mreturn 0.
Definition ol_txrx_peer_qoscapable_get (peer_id : Z) : M ST Z :=
  peer <- ol_txrx_peer_find_by_id peer_id ;;
  if negb (peer =? 0) then x <- get_peer peer ;; mreturn (qos_capable (p_info x)) else mreturn 0.

(** ** Attach and detach *)

(** [ol_vdev_rx_set_intrabss_fwd] *)
Definition ol_vdev_rx_set_intrabss_fwd (vdev : Z) (val : bool) : M ST unit :=
  if vdev =? 0 then mreturn tt else upd_vdev vdev (set_intrabss val).

(** [ol_rx_peer_init] of the fields kept here *)
Definition ol_rx_peer_init (peer : Z) : M ST unit :=
  emit (Rx_peer_init peer) ;;
  upd_info peer (set_own_array (replicate (Z.to_nat OL_TXRX_NUM_EXT_TIDS) false)) ;;
  upd_info peer (set_sec_type (htt_sec_type_none, htt_sec_type_none)) ;;
  upd_info peer (set_keyinstalled 0).

(** What a new peer is checked against: 0 that the address is in use, 1 that it is free,
    2 that its peer is being deleted *)
Fixpoint duplicate_in (vdev : Z) (mac : ol_txrx_align_mac_addr_t) (l : list Z) (wait : Z) : M ST Z :=
  match l with
  | [] => mreturn wait
  | temp_peer :: l =>
      x <- get_peer temp_peer ;;
      if ol_txrx_peer_find_mac_addr_cmp (p_mac x) mac =? 0 then
        if negb (delete_in_progress x =? 0) then
          upd_vdev vdev (fun d => set_comp 0 (set_wait_on (local_id x) d)) ;;
          duplicate_in vdev mac l 2
        else mreturn 0
      else duplicate_in vdev mac l wait
  end.
Definition attach_check (vdev : Z) (mac : ol_txrx_align_mac_addr_t) : M ST Z :=
  d <- get_vdev vdev ;; duplicate_in vdev mac (peer_list d) 1.

(** A peer of zeros *)
Definition zero_info : peer_info :=
  {| keyinstalled := 0; qos_capable := 0; uapsd_mask := 0; sec_type := (htt_sec_type_none, htt_sec_type_none);
     bss_peer := false; reorder_history := false; own_array := [] |}.
Definition zero_peer (vdev : Z) (mac : ol_txrx_align_mac_addr_t) : ol_txrx_peer_t :=
  {| p_vdev := vdev; p_mac := mac; ref_cnt := 0; delete_in_progress := 0; valid := false;
     peer_ids := replicate (Z.to_nat MAX_NUM_PEER_ID_PER_PEER) 0; local_id := 0;
     p_state := ol_txrx_peer_state_invalid; tx_filter := None; rx_opt_proc := None; p_info := zero_info |}.

(** A new peer in the memory at [peer] is entered in every structure. *)
Definition attach_enter (vdev : Z) (mac : ol_txrx_align_mac_addr_t) (peer : Z) : M ST unit :=
  put_peer peer (zero_peer vdev mac) ;;
  (if is_high_latency cfg then emit (Txqs_init peer) else mreturn tt) ;;
  emit (Peer_pause peer) ;;
  upd_vdev vdev (fun d => set_peer_list (peer_list d ++ [peer]) d) ;;
  d <- get_vdev vdev ;;
  (if negb (ol_txrx_peer_find_mac_addr_cmp (v_mac d) mac =? 0) then upd_vdev vdev (set_last_real peer) else mreturn tt) ;;
  upd_peer peer (set_rx_opt_proc (Some rx_opt_normal)) ;;
  ol_rx_peer_init peer ;;
  upd_peer peer (set_peer_ids (replicate (Z.to_nat MAX_NUM_PEER_ID_PER_PEER) HTT_INVALID_PEER)) ;;
  upd_peer peer (set_dip 0) ;;
  upd_peer peer (set_ref_cnt 0) ;;
  _ <- ref_add 1 peer ;;
  _ <- ref_add 1 peer ;;
  upd_peer peer (set_valid true) ;;
  ol_txrx_peer_find_hash_add peer ;;
  (if bool_decide (mac = v_mac d) then upd_info peer (set_bss_peer true) else mreturn tt) ;;
  upd_peer peer (set_p_state ol_txrx_peer_state_invalid).

(** The creation of a peer; [mem] is the memory for it, null if there is none, [have_history]
    whether there is memory for the reorder history *)
Definition attach_create (vdev : Z) (mac : ol_txrx_align_mac_addr_t) (mem : Z) (have_history : bool) : M ST Z :=
  if mem =? 0 then mreturn 0 else
  let peer := mem in
  attach_enter vdev mac peer ;;
  ol_txrx_peer_state_update mac ol_txrx_peer_state_disc ;;
  s <- mget ;;
  (if monitor_mode cfg && (self_peer s =? 0) then
     modify (set_self_peer peer) ;; ol_vdev_rx_set_intrabss_fwd vdev true
   else mreturn tt) ;;
  OL_TXRX_LOCAL_PEER_ID_ALLOC peer ;;
  upd_info peer (set_history have_history) ;;
  mreturn peer.

(** [completed] is what the other threads do until the wait for a deletion ends, with whether
    the completion came in time. *)
Definition ol_txrx_peer_attach (vdev : Z) (mac : ol_txrx_align_mac_addr_t) (completed : M ST bool)
    (mem : Z) (have_history : bool) : M ST Z :=
  r <- attach_check vdev mac ;;
  if r =? 0 then mreturn 0
  else if r =? 2 then
    rc <- completed ;;
    if negb rc then upd_vdev vdev (set_wait_on OL_TXRX_INVALID_LOCAL_PEER_ID) ;; mreturn 0
    else attach_create vdev mac mem have_history
  else attach_create vdev mac mem have_history.

Definition ol_txrx_peer_detach (peer : Z) : M ST unit :=
  x <- get_peer peer ;;
  let vdev := p_vdev x in
  upd_peer peer (set_rx_opt_proc (Some ol_rx_discard)) ;;
  upd_peer peer (set_valid false) ;;
  OL_TXRX_LOCAL_PEER_ID_FREE peer ;;
  d <- get_vdev vdev ;;
  (if last_real_peer d =? peer then upd_vdev vdev (set_last_real 0) else mreturn tt) ;;
  d <- get_vdev vdev ;;
  (if last_real_peer d =? peer then upd_vdev vdev (set_last_real 0) else mreturn tt) ;;
  upd_peer peer (set_dip 1) ;;
  ol_txrx_peer_unref_delete peer.

(** The fields of a new virtual device that are kept here *)
Definition new_vdev (vdev_id : Z) (mac : ol_txrx_align_mac_addr_t) : ol_txrx_vdev_t :=
  {| v_id := vdev_id; v_mac := mac; peer_list := []; last_real_peer := 0; delete_pending := false;
     delete_callback := None; wait_on_peer_id := OL_TXRX_INVALID_LOCAL_PEER_ID; wait_delete_comp := 0;
     disable_intrabss_fwd := false; ll_pause_txq := [] |}.
Definition ol_txrx_vdev_attach (mac : ol_txrx_align_mac_addr_t) (vdev_id mem : Z) : M ST Z :=
  if mem =? 0 then mreturn 0 else
  put_vdev mem (new_vdev vdev_id mac) ;;
  modify (fun s => set_vdev_list (vdev_list s ++ [mem]) s) ;;
  mreturn mem.

(** [context] is [None] when there is no callback.  [htt_vdev_detach] is an empty macro
    ([ol_htt_api.h]). *)
Definition ol_txrx_vdev_detach (vdev : Z) (context : option Z) : M ST unit :=
  _ <- get_vdev vdev ;;
  (if is_high_latency cfg then
     mfor (seqZ 0 OL_TX_VDEV_NUM_QUEUES) (fun i => emit (Vdev_queue_free vdev (i + OL_TX_NUM_TIDS)))
   else mreturn tt) ;;
  d <- get_vdev vdev ;;
  mfor (ll_pause_txq d) (fun msdu => emit (Vdev_frame_free vdev msdu)) ;;
  upd_vdev vdev (set_ll_txq []) ;;
  s <- mget ;; l <- oget (tq_remove vdev (vdev_list s)) ;; modify (set_vdev_list l) ;;
  d <- get_vdev vdev ;;
  if negb (bool_decide (peer_list d = [])) then upd_vdev vdev (set_delete true context)
  else
    forget_vdev vdev ;; free_vdev vdev ;;
    match context with Some context => emit (Vdev_deleted context) | None => mreturn tt end.
End Peers.
