(* ===== verification/PeersInv.v ===== *)
(** * Peers: the specification and how the code's state represents it

    The abstract state has the peers in the order of their attachment, the virtual devices,
    which peer each firmware id stands for, and the references that other code holds.  A peer
    exists as long as something claims it; [a_drop] is the only way one disappears.  [core] and
    [lids_ok] relate it to the structures of the code: every bin of the hash table and every
    list of a virtual device is the part of the one list of peers that belongs there, and a
    reference count is the number of claims. *)

From S2P Require Import Prelude TxSched Peers.

Local Open Scope c_scope.
#[local] Abbreviation ST := pdev_t.
#[local] Abbreviation mac_addr := ol_txrx_align_mac_addr_t.

(** ** The abstract state *)

Record apeer := {
  a_at : Z;              (** its address *)
  a_vdev : Z;
  a_mac : mac_addr;
  a_attached : bool;
  a_given : list Z;      (** the firmware ids it was ever given *)
  a_state : ol_txrx_peer_state
}.
(** [av_deleting] is [Some] of the callback's context once deletion was requested *)
Record avdev := { av_mac : mac_addr; av_deleting : option (option Z); av_last : Z }.
Record abs := {
  a_peers : list apeer;
  a_vdevs : gmap Z avdev;
  a_map : list Z;
  a_held : list Z;
  a_deleted : list Z     (** the callbacks that were made *)
}.

Definition set_a_peers (l : list apeer) (A : abs) : abs :=
  {| a_peers := l; a_vdevs := a_vdevs A; a_map := a_map A; a_held := a_held A; a_deleted := a_deleted A |}.
Definition set_a_vdevs (m : gmap Z avdev) (A : abs) : abs :=
  {| a_peers := a_peers A; a_vdevs := m; a_map := a_map A; a_held := a_held A; a_deleted := a_deleted A |}.
Definition set_a_map (m : list Z) (A : abs) : abs :=
  {| a_peers := a_peers A; a_vdevs := a_vdevs A; a_map := m; a_held := a_held A; a_deleted := a_deleted A |}.
Definition set_a_held (l : list Z) (A : abs) : abs :=
  {| a_peers := a_peers A; a_vdevs := a_vdevs A; a_map := a_map A; a_held := l; a_deleted := a_deleted A |}.
Definition set_a_deleted (l : list Z) (A : abs) : abs :=
  {| a_peers := a_peers A; a_vdevs := a_vdevs A; a_map := a_map A; a_held := a_held A; a_deleted := l |}.

(** The peer at an address, and a change of it *)
Definition a_peer (A : abs) (p : Z) : option apeer := find (fun e => a_at e =? p) (a_peers A).
Definition a_upd (p : Z) (f : apeer -> apeer) (A : abs) : abs :=
  set_a_peers ((fun e => if a_at e =? p then f e else e) <$> a_peers A) A.
Definition with_attached (b : bool) (e : apeer) : apeer :=
  {| a_at := a_at e; a_vdev := a_vdev e; a_mac := a_mac e; a_attached := b; a_given := a_given e; a_state := a_state e |}.
Definition with_given (l : list Z) (e : apeer) : apeer :=
  {| a_at := a_at e; a_vdev := a_vdev e; a_mac := a_mac e; a_attached := a_attached e; a_given := l; a_state := a_state e |}.
Definition with_state (st : ol_txrx_peer_state) (e : apeer) : apeer :=
  {| a_at := a_at e; a_vdev := a_vdev e; a_mac := a_mac e; a_attached := a_attached e; a_given := a_given e; a_state := st |}.

(** *** Claims *)

Definition count (p : Z) (l : list Z) : Z := Z.of_nat (length (filter (fun q => q = p) l)).

(** The number of claims on a peer: its attachment; until the firmware gave it an id, the
    announcement of one; its ids; the references held. *)
Definition claims (A : abs) (e : apeer) : Z :=
  (if a_attached e then 1 else 0)
  + (if bool_decide (a_given e = []) then 1 else count (a_at e) (a_map A))
  + count (a_at e) (a_held A).

Definition on_vdev (v : Z) (l : list apeer) : list apeer := filter (fun e => a_vdev e = v) l.

(** A virtual device disappears when its deletion was requested and it has no peer. *)
Definition v_drop (v : Z) (A : abs) : abs :=
  match a_vdevs A !! v with
  | Some {| av_deleting := Some cb |} =>
      if bool_decide (on_vdev v (a_peers A) = [])
      then set_a_deleted (a_deleted A ++ option_list cb) (set_a_vdevs (delete v (a_vdevs A)) A)
      else A
  | _ => A
  end.

(** A peer without claims disappears, and perhaps its virtual device with it. *)
Definition a_drop (p : Z) (A : abs) : abs :=
  match a_peer A p with
  | Some e =>
      if claims A e =? 0 then v_drop (a_vdev e) (set_a_peers (filter (fun e => a_at e <> p) (a_peers A)) A)
      else A
  | None => A
  end.

(** *** Look-up: the first peer to have been attached *)

Definition a_find (mac : mac_addr) (check_valid : bool) (A : abs) : option apeer :=
  find (fun e => bool_decide (a_mac e = mac) && (negb check_valid || a_attached e)) (a_peers A).
Definition a_vfind (v : Z) (mac : mac_addr) (check_valid : bool) (A : abs) : option apeer :=
  find (fun e => bool_decide (a_mac e = mac) && (negb check_valid || a_attached e) && (a_vdev e =? v)) (a_peers A).

(** ** Representation *)

Definition byte (b : Z) : Prop := 0 <= b < 256.
Definition mac_ok (m : mac_addr) : Prop :=
  byte (raw0 m) /\ byte (raw1 m) /\ byte (raw2 m) /\ byte (raw3 m) /\ byte (raw4 m) /\ byte (raw5 m).

Definition bucket (idx_bits mask : Z) (m : mac_addr) : Z :=
  let index := Z.lxor (Z.lxor (bytes_ab m) (bytes_cd m)) (bytes_ef m) in
  Z.land (Z.lxor index (Z.shiftr index idx_bits)) mask.

(** The [peer_ids] of a peer that was given [l] *)
Definition id_slots (l : list Z) : list Z := l ++ replicate (8 - length l) HTT_INVALID_PEER.

Record peer_rel (A : abs) (e : apeer) (x : ol_txrx_peer_t) : Prop := {
  pr_vdev : p_vdev x = a_vdev e;
  pr_mac : p_mac x = a_mac e;
  pr_mac_ok : mac_ok (a_mac e);
  pr_valid : valid x = a_attached e;
  pr_dip : delete_in_progress x = if a_attached e then 0 else 1;
  pr_ids : peer_ids x = id_slots (a_given e);
  pr_given : (length (a_given e) <= 8)%nat /\ HTT_INVALID_PEER ∉ a_given e;
  pr_state : p_state x = a_state e;
  pr_ref : ref_cnt x = claims A e;
  pr_claimed : 0 < claims A e;
  pr_arrays : length (own_array (p_info x)) = 19%nat
}.

Record vdev_rel (A : abs) (v : Z) (a : avdev) (d : ol_txrx_vdev_t) : Prop := {
  vr_mac : v_mac d = av_mac a;
  vr_mac_ok : mac_ok (av_mac a);
  vr_list : peer_list d = a_at <$> on_vdev v (a_peers A);
  vr_last : last_real_peer d = av_last a;
  vr_last_live : av_last a <> 0 -> exists e, e ∈ a_peers A /\ a_at e = av_last a /\ a_attached e = true /\ a_vdev e = v;
  vr_delete : delete_pending d = bool_decide (is_Some (av_deleting a));
  vr_callback : forall cb, av_deleting a = Some cb -> delete_callback d = cb /\ on_vdev v (a_peers A) <> []
}.

(** The callbacks among the calls *)
Definition deleted_of (c : call) : option Z := match c with Vdev_deleted x => Some x | _ => None end.

Section Rel.
Context (cfg : txrx_cfg).

Record core (A : abs) (s : ST) : Prop := {
  co_nodup : NoDup (a_at <$> a_peers A);
  co_null : forall e, e ∈ a_peers A -> a_at e <> 0;
  co_peer : forall e, e ∈ a_peers A -> exists x, peers s !! a_at e = Some x /\ peer_rel A e x;
  co_only : forall p, is_Some (peers s !! p) -> p ∈ a_at <$> a_peers A;
  co_hash : hash_mask s = 2 ^ hash_idx_bits s - 1 /\ 0 <= hash_idx_bits s <= 30;
  co_bins : Z.of_nat (length (hash_bins s)) = 2 ^ hash_idx_bits s;
  co_bin : forall i bin, aget (hash_bins s) i = Some bin ->
    bin = a_at <$> filter (fun e => bucket (hash_idx_bits s) (hash_mask s) (a_mac e) = i) (a_peers A);
  co_vdev : forall v, match a_vdevs A !! v, vdevs s !! v with
                      | Some a, Some d => vdev_rel A v a d
                      | None, None => True
                      | _, _ => False
                      end;
  co_owner : forall e, e ∈ a_peers A -> is_Some (a_vdevs A !! a_vdev e);
  co_vnull : a_vdevs A !! 0 = None;
  co_vlist : NoDup (vdev_list s) /\
    forall v, v ∈ vdev_list s <-> exists a, a_vdevs A !! v = Some a /\ av_deleting a = None;
  co_max : 0 <= max_peer_id cfg < 65535;
  co_map : peer_id_to_obj_map s = a_map A /\ Z.of_nat (length (a_map A)) = max_peer_id cfg + 1;
  co_mapped : forall id p, aget (a_map A) id = Some p -> p <> 0 ->
    exists e, e ∈ a_peers A /\ a_at e = p /\ id ∈ a_given e;
  co_held : Z.of_nat (length (a_held A)) <= 1048576 /\ (forall p, p ∈ a_held A -> p ∈ a_at <$> a_peers A);
  co_self : self_peer s <> 0 -> self_peer s ∈ a_at <$> a_peers A /\ monitor_mode cfg = true;
  co_desc : forall v, v ∈ desc_vdev s -> v = 0 \/ is_Some (a_vdevs A !! v);
  co_calls : omap deleted_of (calls s) = a_deleted A
}.

(** The free local ids, from [i] on *)
Fixpoint free_ids (pool : list Z) (i : Z) (l : list Z) : Prop :=
  match l with
  | [] => i = OL_TXRX_NUM_LOCAL_PEER_IDS
  | x :: l => i = x /\ 0 <= x < OL_TXRX_NUM_LOCAL_PEER_IDS /\ exists n, aget pool x = Some n /\ free_ids pool n l
  end.

(** [who]: the attached peers that have a local id or found none free *)
Definition lids_ok (who : gmap Z ol_txrx_peer_t) (s : ST) : Prop :=
  exists free, free_ids (lid_pool s) (lid_freelist s) free /\ NoDup free
  /\ aget (lid_pool s) OL_TXRX_NUM_LOCAL_PEER_IDS = Some OL_TXRX_NUM_LOCAL_PEER_IDS
  /\ length (lid_pool s) = 35%nat /\ length (lid_map s) = 34%nat
  /\ (forall i, i ∈ free -> aget (lid_map s) i = Some 0)
  /\ (forall i p, aget (lid_map s) i = Some p -> p = 0 -> i ∈ free)
  /\ (forall i p, aget (lid_map s) i = Some p -> p <> 0 ->
        exists x, who !! p = Some x /\ valid x = true /\ local_id x = i)
  /\ (forall p x, who !! p = Some x -> valid x = true ->
        local_id x = OL_TXRX_INVALID_LOCAL_PEER_ID \/ aget (lid_map s) (local_id x) = Some p).

Definition rep (A : abs) (s : ST) : Prop := core A s /\ lids_ok (peers s) s.
End Rel.

(** ** Lists *)

Section Lists.

Lemma find_app_l {A} (f : A -> bool) l1 l2 x : find f l1 = Some x -> find f (l1 ++ l2) = Some x.
Proof. induction l1 as [|y l1 IH]; cbn; [done|]. by destruct (f y). Qed.

Lemma find_None_iff {A} (f : A -> bool) l : find f l = None <-> forall x, x ∈ l -> f x = false.
Proof.
  induction l as [|y l IH]; cbn; [set_solver|]. destruct (f y) eqn:Hf; [|set_solver].
  split; [done|]. intros H. specialize (H y ltac:(set_solver)). congruence.
Qed.

Lemma find_Some_in {A} (f : A -> bool) l x : find f l = Some x -> x ∈ l /\ f x = true.
Proof. intros [Hin Hf]%find_some. by apply list_elem_of_In in Hin. Qed.

Lemma find_filter {A} (f : A -> bool) (P : A -> Prop) `{!forall x, Decision (P x)} l :
  (forall x, x ∈ l -> f x = true -> P x) -> find f (filter P l) = find f l.
Proof.
  induction l as [|y l IH]; intros Hin; [done|]. rewrite filter_cons. cbn [find].
  destruct (f y) eqn:Hf; [rewrite decide_True by set_solver; cbn; by rewrite Hf|].
  rewrite <- IH by set_solver. destruct (decide (P y)); cbn; by rewrite ?Hf.
Qed.

Lemma find_fmap {A B} (f : B -> bool) (g : A -> B) l : find f (g <$> l) = g <$> find (fun x => f (g x)) l.
Proof. induction l as [|y l IH]; [done|]. cbn. by destruct (f (g y)). Qed.

Lemma find_ext_in {A} (f f' : A -> bool) l : (forall x, x ∈ l -> f x = f' x) -> find f l = find f' l.
Proof. induction l as [|y l IH]; intros H; [done|]. cbn. rewrite (H y), IH by set_solver. done. Qed.

Lemma fmap_filter_map {A B} (at' : A -> B) (g : A -> A) (P : A -> Prop) `{!forall x, Decision (P x)} (l : list A) :
  (forall x, at' (g x) = at' x) -> (forall x, P (g x) <-> P x) -> at' <$> filter P (g <$> l) = at' <$> filter P l.
Proof.
  intros Ha HP. induction l as [|y l IH]; [done|]. cbn [fmap list_fmap]. rewrite !filter_cons.
  destruct (decide (P (g y))) as [Hy|Hy].
  - rewrite decide_True by by apply HP. cbn. by rewrite Ha, IH.
  - rewrite decide_False by (by rewrite <- HP). apply IH.
Qed.

Lemma filter_filter_comm {A} (P Q : A -> Prop) `{!forall x, Decision (P x)} `{!forall x, Decision (Q x)} (l : list A) :
  filter P (filter Q l) = filter Q (filter P l).
Proof.
  induction l as [|y l IH]; [done|]. rewrite !filter_cons.
  destruct (decide (Q y)), (decide (P y)); rewrite ?filter_cons, ?IH; by repeat case_decide.
Qed.

Lemma fmap_filter_at p (l : list apeer) : a_at <$> filter (fun e => a_at e <> p) l = filter (fun q => q <> p) (a_at <$> l).
Proof.
  induction l as [|y l IH]; [done|]. cbn [fmap list_fmap]. rewrite !filter_cons.
  destruct (decide (a_at y <> p)); cbn; by rewrite ?IH.
Qed.

Lemma filter_none {A} (P : A -> Prop) `{!forall x, Decision (P x)} (l : list A) : filter P l = [] <-> forall x, x ∈ l -> ~ P x.
Proof.
  induction l as [|y l IH]; [set_solver|]. rewrite filter_cons. destruct (decide (P y)); [|set_solver].
  split; [done|]. intros Hx. by destruct (Hx y ltac:(set_solver)).
Qed.

Lemma count_nil p : count p [] = 0.
Proof. done. Qed.
Lemma count_cons p q l : count p (q :: l) = (if decide (q = p) then 1 else 0) + count p l.
Proof. unfold count. rewrite filter_cons. destruct (decide (q = p)); cbn [length]; lia. Qed.
Lemma count_nonneg p l : 0 <= count p l.
Proof. unfold count. lia. Qed.
Lemma count_zero p l : count p l = 0 <-> p ∉ l.
Proof.
  induction l as [|q l IH]; [set_solver|]. rewrite count_cons. pose proof (count_nonneg p l).
  destruct (decide (q = p)); set_solver by lia.
Qed.
Lemma count_bound p l : count p l <= Z.of_nat (length l).
Proof. unfold count. pose proof (length_filter (fun q => q = p) l). lia. Qed.
Lemma count_app p l1 l2 : count p (l1 ++ l2) = count p l1 + count p l2.
Proof. unfold count. rewrite filter_app, length_app. lia. Qed.
Lemma count_upd p l i v w : aget l i = Some v ->
  count p (upd l i w) = count p l - (if decide (v = p) then 1 else 0) + (if decide (w = p) then 1 else 0).
Proof.
  intros Hg. pose proof (aget_Some_range _ _ _ Hg) as Hr. rewrite aget_lookup in Hg by lia.
  unfold upd. rewrite <- (take_drop_middle l (Z.to_nat i) v) at 2 by done.
  rewrite insert_take_drop by lia. rewrite !count_app, !count_cons. lia.
Qed.
End Lists.

(** ** Addresses and the hash *)

Lemma mac_cmp m1 m2 : mac_ok m1 -> mac_ok m2 -> (ol_txrx_peer_find_mac_addr_cmp m1 m2 =? 0) = bool_decide (m1 = m2).
Proof.
  unfold mac_ok, byte, ol_txrx_peer_find_mac_addr_cmp, bytes_abcd, bytes_ab, bytes_cd, bytes_ef.
  destruct m1, m2; cbn. intros H1 H2. case_bool_decide as Heq; [simplify_eq; by rewrite !Z.eqb_refl|].
  match goal with |- context [if ?a =? ?b then _ else _] => destruct (Z.eqb_spec a b) end; [|done].
  match goal with |- context [if ?a =? ?b then _ else _] => destruct (Z.eqb_spec a b) end; [|done].
  exfalso. apply Heq. f_equal; lia.
Qed.

Lemma bucket_range b m : 0 <= b -> 0 <= bucket b (2 ^ b - 1) m < 2 ^ b.
Proof. intros. unfold bucket. rewrite land_mask by done. apply Z.mod_pos_bound. lia. Qed.

Lemma hash_index_spec m s : runs (ol_txrx_peer_find_hash_index m) s (fun i s' => s' = s /\ i = bucket (hash_idx_bits s) (hash_mask s) m).
Proof. done. Qed.

(** ** Changes of the abstract state *)

Section Core.
Context (cfg : txrx_cfg).
Implicit Types (A : abs) (s : ST) (p v : Z).

Lemma in_at A e : e ∈ a_peers A -> a_at e ∈ a_at <$> a_peers A.
Proof. apply list_elem_of_fmap_2. Qed.

Lemma at_inj A e e' : NoDup (a_at <$> a_peers A) -> e ∈ a_peers A -> e' ∈ a_peers A -> a_at e = a_at e' -> e = e'.
Proof.
  intros Hnd [i Hi]%list_elem_of_lookup [j Hj]%list_elem_of_lookup Heq.
  assert (i = j) as ->; [|congruence]. eapply (NoDup_lookup _ i j (a_at e)); [done|..]; rewrite list_lookup_fmap.
  - by rewrite Hi.
  - by rewrite Hj, Heq.
Qed.

Lemma core_at A s e x : core cfg A s -> e ∈ a_peers A -> peers s !! a_at e = Some x -> peer_rel A e x.
Proof. intros Hc He Hx. destruct (co_peer _ _ _ Hc e He) as (x' & Hx' & Hr). by simplify_eq. Qed.

Lemma core_entry A s p x : core cfg A s -> peers s !! p = Some x ->
  exists e, e ∈ a_peers A /\ a_at e = p /\ peer_rel A e x.
Proof.
  intros Hc Hx.
  assert (Hp : p ∈ a_at <$> a_peers A) by (apply (co_only _ _ _ Hc); by eexists).
  apply list_elem_of_fmap in Hp as (e & -> & He). eauto using core_at.
Qed.

Lemma a_peer_in A e : NoDup (a_at <$> a_peers A) -> e ∈ a_peers A -> a_peer A (a_at e) = Some e.
Proof.
  intros Hnd He. unfold a_peer. destruct (find _ _) as [e'|] eqn:Hf.
  - apply find_Some_in in Hf as [He' Heq]. f_equal. eapply at_inj; eauto. lia.
  - rewrite find_None_iff in Hf. specialize (Hf e He). lia.
Qed.

Lemma core_vdev A s v a : core cfg A s -> a_vdevs A !! v = Some a -> exists d, vdevs s !! v = Some d /\ vdev_rel A v a d.
Proof. intros Hc Ha. pose proof (co_vdev _ _ _ Hc v) as H. rewrite Ha in H. destruct (vdevs s !! v); [eauto|done]. Qed.

Lemma core_vdev' A s v d : core cfg A s -> vdevs s !! v = Some d -> exists a, a_vdevs A !! v = Some a /\ vdev_rel A v a d.
Proof. intros Hc Hd. pose proof (co_vdev _ _ _ Hc v) as H. rewrite Hd in H. destruct (a_vdevs A !! v); [eauto|done]. Qed.

Lemma on_vdev_nil v (l : list apeer) : on_vdev v l = [] <-> a_at <$> on_vdev v l = [].
Proof. by destruct (on_vdev v l). Qed.

(** Only the peer at [p] changes, with the claims on it. *)
Lemma core_upd A s p f x' m h : core cfg A s -> p ∈ a_at <$> a_peers A ->
  (forall e, a_at (f e) = a_at e /\ a_vdev (f e) = a_vdev e /\ a_mac (f e) = a_mac e) ->
  (forall e v a, e ∈ a_peers A -> a_at e = p -> a_vdevs A !! v = Some a -> av_last a = p -> a_attached (f e) = a_attached e) ->
  Z.of_nat (length m) = max_peer_id cfg + 1 ->
  (forall id q, aget m id = Some q -> q <> 0 -> exists e, e ∈ a_peers A /\ a_at e = q /\ id ∈ a_given (if a_at e =? p then f e else e)) ->
  (Z.of_nat (length h) <= 1048576 /\ (forall q, q ∈ h -> q ∈ a_at <$> a_peers A)) ->
  (forall e, e ∈ a_peers A -> a_at e <> p -> count (a_at e) m = count (a_at e) (a_map A) /\ count (a_at e) h = count (a_at e) (a_held A)) ->
  let A' := set_a_held h (set_a_map m (a_upd p f A)) in
  (forall e, e ∈ a_peers A -> a_at e = p -> peer_rel A' (f e) x') ->
  core cfg A' (set_id_map m (set_peers (<[p := x']> (peers s)) s)).
Proof.
  intros Hc Hp Hf Hlast Hlen Hmap Hh Hcnt A' Hx'. set (g := fun e => if a_at e =? p then f e else e).
  assert (Hg : forall e, a_at (g e) = a_at e /\ a_vdev (g e) = a_vdev e /\ a_mac (g e) = a_mac e)
    by (intros e; unfold g; destruct (a_at e =? p); [apply Hf|done]).
  assert (Hat : a_at <$> a_peers A' = a_at <$> a_peers A).
  { cbn. rewrite <- list_fmap_compose. apply list_fmap_ext. intros i e He. apply (Hg e). }
  assert (Hon : forall v, a_at <$> on_vdev v (a_peers A') = a_at <$> on_vdev v (a_peers A)).
  { intros v. cbn. apply fmap_filter_map; intros e; [apply (Hg e)|]. change (a_vdev (g e) = v <-> a_vdev e = v).
    by rewrite (proj1 (proj2 (Hg e))). }
  assert (Hin : forall e', e' ∈ a_peers A' -> exists e, e' = g e /\ e ∈ a_peers A) by (intros e'; cbn; by rewrite list_elem_of_fmap).
  destruct Hc; split; cbn [set_id_map set_peers peers vdevs vdev_list hash_mask hash_idx_bits hash_bins
    peer_id_to_obj_map self_peer desc_vdev calls]; try done; rewrite ?Hat; auto.
  - intros e' (e & -> & He)%Hin. rewrite (proj1 (Hg e)). by apply co_null0.
  - intros e' (e & -> & He)%Hin. rewrite (proj1 (Hg e)). destruct (decide (a_at e = p)) as [Heq|Hne].
    + rewrite Heq, lookup_insert_eq. eexists. split; [done|]. unfold g. rewrite Heq, Z.eqb_refl. by apply Hx'.
    + rewrite lookup_insert_ne by done. destruct (co_peer0 e He) as (x & Hx & Hr). exists x. split; [done|].
      unfold g. rewrite (proj2 (Z.eqb_neq _ _) Hne). destruct (Hcnt e He Hne) as [Hm Hhe].
      assert (Hcl : claims A' e = claims A e) by (unfold claims; cbn; by rewrite Hm, Hhe).
      destruct Hr; split; rewrite ?Hcl; done.
  - intros q. rewrite lookup_insert_is_Some. intros [->|[_ Hq]]; auto.
  - intros i bin Hb. rewrite (co_bin0 i bin Hb). symmetry. apply fmap_filter_map; intros e; [apply (Hg e)|].
    change (bucket (hash_idx_bits s) (hash_mask s) (a_mac (g e)) = i <-> bucket (hash_idx_bits s) (hash_mask s) (a_mac e) = i).
    by rewrite (proj2 (proj2 (Hg e))).
  - intros v. specialize (co_vdev0 v). cbn. destruct (a_vdevs A !! v) as [a|] eqn:Ha, (vdevs s !! v) as [d|]; try done.
    destruct co_vdev0; split; try done; rewrite ?Hon; [done|..].
    + intros Hl. destruct (vr_last_live0 Hl) as (e & He & Heq & Hat' & Hv). exists (g e).
      split; [cbn; by apply list_elem_of_fmap_2|]. destruct (Hg e) as (-> & -> & _). split; [done|]. split; [|done].
      unfold g. destruct (Z.eqb_spec (a_at e) p); [|done]. rewrite (Hlast e v a); [done..|congruence].
    + intros cb Hcb. rewrite on_vdev_nil, Hon, <- on_vdev_nil. by apply vr_callback0.
  - intros e' (e & -> & He)%Hin. cbn. rewrite (proj1 (proj2 (Hg e))). by apply co_owner0.
  - intros id q Hq Hne. destruct (Hmap id q Hq Hne) as (e & He & Heq & Hid). exists (g e).
    rewrite (proj1 (Hg e)). split; [cbn; by apply list_elem_of_fmap_2|done].
Qed.

(** A peer without claims leaves.  [s'] is the state without it. *)
Record removed (A : abs) (p : Z) (e : apeer) (s s' : ST) : Prop := {
  rm_peers : peers s' = delete p (peers s);
  rm_hash : hash_mask s' = hash_mask s /\ hash_idx_bits s' = hash_idx_bits s;
  rm_bins : length (hash_bins s') = length (hash_bins s) /\ forall i, aget (hash_bins s') i =
    (if decide (i = bucket (hash_idx_bits s) (hash_mask s) (a_mac e)) then filter (fun q => q <> p) <$> aget (hash_bins s) i
     else aget (hash_bins s) i);
  rm_vlist : vdev_list s' = vdev_list s;
  rm_map : peer_id_to_obj_map s' = peer_id_to_obj_map s;
  rm_self : self_peer s' = if (p =? self_peer s) && monitor_mode cfg then 0 else self_peer s
}.

Lemma claims_zero A e : claims A e = 0 ->
  a_attached e = false /\ a_given e <> [] /\ a_at e ∉ a_map A /\ a_at e ∉ a_held A.
Proof.
  unfold claims. pose proof (count_nonneg (a_at e) (a_map A)). pose proof (count_nonneg (a_at e) (a_held A)).
  intros Hz. case_bool_decide; destruct (a_attached e); try lia. split_and!; [done|done|apply count_zero; lia..].
Qed.

Lemma claims_held A e p h : a_held A = p :: h -> a_at e <> p -> claims A e = claims (set_a_held h A) e.
Proof. intros Hh Hne. unfold claims. cbn. rewrite Hh, count_cons. by rewrite decide_False. Qed.

(** What the virtual devices must satisfy is left to the user of the lemma. *)
Lemma core_remove_gen A s s' p e h V dl : core cfg A s -> e ∈ a_peers A -> a_at e = p -> a_held A = p :: h ->
  claims (set_a_held h A) e = 0 -> removed A p e s s' ->
  let A' := {| a_peers := filter (fun e => a_at e <> p) (a_peers A); a_vdevs := V; a_map := a_map A; a_held := h; a_deleted := dl |} in
  (forall v, match V !! v, vdevs s' !! v with Some a, Some d => vdev_rel A' v a d | None, None => True | _, _ => False end) ->
  (forall e', e' ∈ a_peers A -> a_at e' <> p -> is_Some (V !! a_vdev e')) ->
  V !! 0 = None ->
  (forall v, v ∈ vdev_list s <-> exists a, V !! v = Some a /\ av_deleting a = None) ->
  (forall v, v ∈ desc_vdev s' -> v = 0 \/ is_Some (V !! v)) ->
  omap deleted_of (calls s') = dl -> core cfg A' s'.
Proof.
  intros Hc He Hat Hh Hz Hrm A' HV Hown Hnull Hvl Hdesc Hcalls.
  apply claims_zero in Hz as (Hna & Hg & Hnm & Hnh). cbn in Hnm, Hnh. rewrite Hat in Hnm, Hnh.
  assert (Hin : forall e', e' ∈ a_peers A' <-> a_at e' <> p /\ e' ∈ a_peers A) by (intros e'; unfold A'; cbn [a_peers]; by rewrite list_elem_of_filter).
  assert (Hats : a_at <$> a_peers A' = filter (fun q => q <> p) (a_at <$> a_peers A)) by apply fmap_filter_at.
  destruct Hrm as [Hps [Hm Hib] [Hbl Hb] Hvls Hmap Hself]. destruct Hc.
  split; rewrite ?Hm, ?Hib, ?Hats, ?Hvls, ?Hmap, ?Hbl; try done.
  - by apply NoDup_filter.
  - intros e' [_ He']%Hin. by apply co_null0.
  - intros e' [Hne He']%Hin. destruct (co_peer0 e' He') as (x & Hx & Hr). exists x.
    rewrite Hps, lookup_delete_ne by done. split; [done|].
    assert (Hcl : claims A' e' = claims A e') by (rewrite (claims_held A e' p h) by done; done).
    destruct Hr; split; rewrite ?Hcl; done.
  - intros q. rewrite Hps, lookup_delete_is_Some. intros [Hne Hq]. rewrite list_elem_of_filter. split; [done|by apply co_only0].
  - intros i bin. rewrite Hb. case_decide as Hi.
    + intros (old & Hold & ->)%fmap_Some. rewrite (co_bin0 _ _ Hold). rewrite <- fmap_filter_at. by rewrite filter_filter_comm.
    + intros Hbin. rewrite (co_bin0 _ _ Hbin). cbn. rewrite filter_filter_comm. f_equal. symmetry. apply filter_all.
      intros e' [Hbk He']%list_elem_of_filter Heq. assert (e' = e) as -> by (eapply at_inj; eauto; congruence). congruence.
  - intros e' [Hne He']%Hin. by apply Hown.
  - split; [apply co_vlist0|done].
  - intros id q Hq Hne. destruct (co_mapped0 id q Hq Hne) as (e' & He' & Hat' & Hid). exists e'. rewrite Hin.
    split_and!; try done. rewrite Hat'. intros ->. apply Hnm. pose proof (aget_Some_range _ _ _ Hq).
    rewrite aget_lookup in Hq by lia. by eapply list_elem_of_lookup_2.
  - destruct co_held0 as [Hl Hhe]. rewrite Hh in Hl, Hhe. cbn [length] in Hl. split; [cbn [a_held A']; lia|]. intros q Hq. rewrite list_elem_of_filter.
    split; [by intros ->|]. apply Hhe. set_solver.
  - rewrite Hself. destruct ((p =? self_peer s) && monitor_mode cfg) eqn:Hb'; [done|]. intros Hs.
    destruct (co_self0 Hs) as [Hin' Hmon]. split; [|done]. rewrite list_elem_of_filter. split; [|done].
    intros Heq. rewrite Hmon, Heq, Z.eqb_refl in Hb'. done.
Qed.

(** What becomes of the virtual device of a peer that leaves *)
Definition vdev_after (p v : Z) (d : ol_txrx_vdev_t) (s s' : ST) : Prop :=
  (forall w, w <> v -> vdevs s' !! w = vdevs s !! w) /\
  if bool_decide (filter (fun q => q <> p) (peer_list d) = []) && delete_pending d
  then vdevs s' !! v = None
    /\ desc_vdev s' = (fun w => if w =? v then 0 else w) <$> desc_vdev s
    /\ omap deleted_of (calls s') = omap deleted_of (calls s) ++ option_list (delete_callback d)
  else (exists d', vdevs s' !! v = Some d' /\ v_mac d' = v_mac d
         /\ peer_list d' = filter (fun q => q <> p) (peer_list d) /\ last_real_peer d' = last_real_peer d
         /\ delete_pending d' = delete_pending d /\ delete_callback d' = delete_callback d)
    /\ desc_vdev s' = desc_vdev s /\ omap deleted_of (calls s') = omap deleted_of (calls s).

Lemma on_vdev_filter p v (l : list apeer) :
  a_at <$> on_vdev v (filter (fun e => a_at e <> p) l) = filter (fun q => q <> p) (a_at <$> on_vdev v l).
Proof. unfold on_vdev. by rewrite filter_filter_comm, fmap_filter_at. Qed.

(** Another virtual device does not notice. *)
Lemma vdev_rel_other A e p h V dl v a d : NoDup (a_at <$> a_peers A) -> e ∈ a_peers A -> a_at e = p ->
  v <> a_vdev e -> vdev_rel A v a d ->
  vdev_rel {| a_peers := filter (fun e => a_at e <> p) (a_peers A); a_vdevs := V; a_map := a_map A; a_held := h; a_deleted := dl |} v a d.
Proof.
  intros Hnd He Hat Hv Hr. assert (Heq : on_vdev v (filter (fun e => a_at e <> p) (a_peers A)) = on_vdev v (a_peers A)).
  { unfold on_vdev. rewrite filter_filter_comm. apply filter_all. intros e' [Hv' He']%list_elem_of_filter Hat'.
    assert (e' = e) as -> by (eapply at_inj; eauto; congruence). congruence. }
  destruct Hr; split; cbn [a_peers]; rewrite ?Heq; try done.
  intros Hl. destruct (vr_last_live0 Hl) as (e' & He' & Ha & Ht & Hv'). exists e'. rewrite list_elem_of_filter.
  split_and!; try done. intros Hat'. assert (e' = e) as -> by (eapply at_inj; eauto; congruence). congruence.
Qed.

Lemma core_drop A s s' p e h d : core cfg A s -> e ∈ a_peers A -> a_at e = p -> a_held A = p :: h ->
  claims (set_a_held h A) e = 0 -> removed A p e s s' -> vdevs s !! a_vdev e = Some d ->
  vdev_after p (a_vdev e) d s s' -> core cfg (a_drop p (set_a_held h A)) s'.
Proof.
  intros Hc He Hat Hh Hz Hrm Hd [Hother Hown]. pose proof (co_nodup _ _ _ Hc) as Hnd.
  destruct (core_vdev' _ _ _ _ Hc Hd) as (a & Ha & Hr). unfold a_drop.
  rewrite <- Hat at 1. rewrite (a_peer_in (set_a_held h A)) by done. rewrite Hz, Z.eqb_refl. unfold v_drop. cbn [a_vdevs set_a_peers set_a_held].
  rewrite Ha. set (P' := filter (fun e => a_at e <> p) (a_peers A)).
  assert (Hlist : peer_list d = a_at <$> on_vdev (a_vdev e) (a_peers A)) by apply Hr.
  assert (Hemp : on_vdev (a_vdev e) P' = [] <-> filter (fun q => q <> p) (peer_list d) = []).
  { rewrite on_vdev_nil, Hlist. unfold P'. by rewrite on_vdev_filter. }
  assert (Hlast : av_last a <> 0 -> exists e', e' ∈ P' /\ a_at e' = av_last a /\ a_attached e' = true /\ a_vdev e' = a_vdev e).
  { intros Hl. destruct (vr_last_live _ _ _ _ Hr Hl) as (e' & He' & Ha' & Ht & Hv'). exists e'. unfold P'.
    rewrite list_elem_of_filter. split_and!; try done. intros Hat'.
    assert (e' = e) as -> by (eapply at_inj; eauto; congruence). apply claims_zero in Hz as (Hna & _). congruence. }
  assert (Hvl : forall v, v ∈ vdev_list s <-> exists a, a_vdevs A !! v = Some a /\ av_deleting a = None) by apply Hc.
  pose proof (vr_delete _ _ _ _ Hr) as Hdel.
  destruct (bool_decide (filter (fun q => q <> p) (peer_list d) = []) && delete_pending d) eqn:Hgone.
  - apply andb_true_iff in Hgone as [He0%bool_decide_eq_true Hp]. destruct Hown as (Hv & Hdesc & Hcalls).
    destruct (av_deleting a) as [cb|] eqn:Hav; [|rewrite Hdel in Hp; by apply bool_decide_eq_true in Hp as [? ?]].
    destruct a as [am ad al]. cbn in Hav. subst ad. rewrite bool_decide_true by (by apply Hemp).
    destruct (vr_callback _ _ _ _ Hr cb eq_refl) as [Hcb _].
    refine (core_remove_gen A s s' p e h (delete (a_vdev e) (a_vdevs A)) (a_deleted A ++ option_list cb)
      Hc He Hat Hh Hz Hrm _ _ _ _ _ _); fold P'.
    + intros v. destruct (decide (v = a_vdev e)) as [->|Hne]; [by rewrite lookup_delete_eq, Hv|].
      rewrite lookup_delete_ne, Hother by done. pose proof (co_vdev _ _ _ Hc v) as Hcv.
      destruct (a_vdevs A !! v), (vdevs s !! v); try done. by eapply vdev_rel_other.
    + intros e' He' Hne. rewrite lookup_delete_is_Some. split; [|by apply (co_owner _ _ _ Hc)].
      intros Hvv. apply Hemp in He0. unfold on_vdev in He0. rewrite filter_none in He0.
      apply (He0 e'); [|done]. unfold P'. by rewrite list_elem_of_filter.
    + rewrite lookup_delete_None. right. apply Hc.
    + intros v. rewrite Hvl. split; intros (a & Hav & Hn); exists a.
      * split; [|done]. rewrite lookup_delete_ne; [done|]. intros <-. rewrite Ha in Hav. by simplify_eq.
      * apply lookup_delete_Some in Hav as [_ Hav]. done.
    + intros w. rewrite Hdesc. intros (w0 & -> & Hw0)%list_elem_of_fmap. destruct (Z.eqb_spec w0 (a_vdev e)); [by left|].
      rewrite lookup_delete_is_Some. destruct (co_desc _ _ _ Hc w0 Hw0); [by left|by right].
    + rewrite Hcalls, Hcb. by rewrite (co_calls _ _ _ Hc).
  - destruct Hown as ((d' & Hd' & Hm & Hl & Hlr & Hdp & Hdc) & Hdesc & Hcalls).
    assert (Hnogone : forall cb, av_deleting a = Some cb -> on_vdev (a_vdev e) P' <> []).
    { intros cb Hcb He0%Hemp. rewrite (bool_decide_true _ He0) in Hgone. cbn in Hgone. rewrite Hdel, Hcb in Hgone.
      by rewrite bool_decide_true in Hgone by (by eexists). }
    assert (Hres : forall dl, omap deleted_of (calls s') = dl ->
      core cfg {| a_peers := P'; a_vdevs := a_vdevs A; a_map := a_map A; a_held := h; a_deleted := dl |} s').
    { intros dl Hdl. refine (core_remove_gen A s s' p e h (a_vdevs A) dl Hc He Hat Hh Hz Hrm _ _ _ _ _ Hdl); fold P'.
      - intros v. destruct (decide (v = a_vdev e)) as [->|Hne].
        + rewrite Ha, Hd'. destruct Hr. split; try congruence; cbn [a_peers]; auto.
          * rewrite Hl, Hlist. unfold P'. by rewrite on_vdev_filter.
          * intros cb Hcb. split; [rewrite Hdc; by apply vr_callback0|eauto].
        + rewrite Hother by done. pose proof (co_vdev _ _ _ Hc v) as Hcv.
          destruct (a_vdevs A !! v), (vdevs s !! v); try done. by eapply vdev_rel_other.
      - intros e' He' _. by apply (co_owner _ _ _ Hc).
      - apply Hc.
      - done.
      - rewrite Hdesc. apply Hc. }
    destruct a as [am [cb|] al]; cbn in Hnogone; [rewrite bool_decide_false by eauto|];
      (apply Hres; rewrite Hcalls; apply Hc).
Qed.
End Core.
