(* ===== verification/PeersRun.v ===== *)
(** * Peers: what every function does to the abstract state

    The local ids first, then the look-ups, the release of a reference, the firmware's messages,
    attach and detach.  Each lemma says that the function runs without undefined behaviour from
    a state that represents an abstract one, and which abstract state it ends in. *)

From S2P Require Import Prelude TxSched Peers PeersInv.

Local Open Scope c_scope.
#[local] Abbreviation ST := pdev_t.
#[local] Abbreviation mac_addr := ol_txrx_align_mac_addr_t.

(** ** Objects *)

Section Objects.
Implicit Types (s : ST) (p v : Z).

Lemma runs_get_peer p x s (Q : _ -> ST -> Prop) : peers s !! p = Some x -> Q x s -> runs (get_peer p) s Q.
Proof. intros Hx HQ. unfold get_peer. mstep. mstep. by eapply runs_oget. Qed.
Lemma runs_upd_peer p f x s (Q : _ -> ST -> Prop) : peers s !! p = Some x ->
  Q tt (set_peers (<[p := f x]> (peers s)) s) -> runs (upd_peer p f) s Q.
Proof. intros Hx HQ. unfold upd_peer. mstep. eapply runs_get_peer; [done|]. cbn beta. unfold put_peer. by mstep. Qed.
Lemma runs_upd_info p f x s (Q : _ -> ST -> Prop) : peers s !! p = Some x ->
  Q tt (set_peers (<[p := set_p_info (f (p_info x)) x]> (peers s)) s) -> runs (upd_info p f) s Q.
Proof. intros. unfold upd_info. by eapply runs_upd_peer. Qed.
Lemma runs_get_vdev v d s (Q : _ -> ST -> Prop) : vdevs s !! v = Some d -> Q d s -> runs (get_vdev v) s Q.
Proof. intros Hx HQ. unfold get_vdev. mstep. mstep. by eapply runs_oget. Qed.
Lemma runs_upd_vdev v f d s (Q : _ -> ST -> Prop) : vdevs s !! v = Some d ->
  Q tt (set_vdevs (<[v := f d]> (vdevs s)) s) -> runs (upd_vdev v f) s Q.
Proof. intros Hx HQ. unfold upd_vdev. mstep. eapply runs_get_vdev; [done|]. cbn beta. unfold put_vdev. by mstep. Qed.
Lemma runs_ref_add k p x s (Q : _ -> ST -> Prop) : peers s !! p = Some x ->
  Q (s32 (ref_cnt x + k)) (set_peers (<[p := set_ref_cnt (s32 (ref_cnt x + k)) x]> (peers s)) s) -> runs (ref_add k p) s Q.
Proof.
  intros Hx HQ. unfold ref_add. mstep. eapply runs_get_peer; [done|]. cbn beta zeta. unfold put_peer. by do 3 mstep.
Qed.

(** The calls of a loop accumulate. *)
Lemma runs_mfor_emit (f : Z -> call) idxs s (Q : _ -> ST -> Prop) :
  (Q tt (set_calls (calls s ++ (f <$> idxs)) s)) -> runs (mfor idxs (fun i => emit (f i))) s Q.
Proof.
  revert s. induction idxs as [|i idxs IH]; intros s HQ.
  - cbn in *. apply runs_ret. rewrite app_nil_r in HQ. by destruct s.
  - cbn [mfor]. apply runs_bnd. unfold emit at 1. mstep. apply IH. cbn in *. by rewrite <- app_assoc.
Qed.

Lemma omap_other (f : Z -> call) idxs : (forall i, deleted_of (f i) = None) -> omap deleted_of (f <$> idxs) = [].
Proof. intros Hf. induction idxs as [|i idxs IH]; [done|]. cbn. by rewrite Hf. Qed.
End Objects.

(** ** Local ids *)

Section Lids.
Implicit Types (who : gmap Z ol_txrx_peer_t) (s : ST).

(** Who has a local id is what counts. *)
Lemma lids_same who who' s s' : lids_ok who s ->
  lid_pool s' = lid_pool s -> lid_freelist s' = lid_freelist s -> lid_map s' = lid_map s ->
  (forall p x, who !! p = Some x -> valid x = true ->
     exists x', who' !! p = Some x' /\ valid x' = true /\ local_id x' = local_id x) ->
  (forall p x', who' !! p = Some x' -> valid x' = true ->
     exists x, who !! p = Some x /\ valid x = true /\ local_id x = local_id x') -> lids_ok who' s'.
Proof.
  intros (free & Hfree & Hnd & Hend & Hl1 & Hl2 & Hz & Hz' & Hw & Hw') Hp Hf Hm H1 H2.
  exists free. rewrite Hp, Hf, Hm. split_and!; try done.
  - intros i p Hi Hne. destruct (Hw i p Hi Hne) as (x & Hx & Hv & Hid). destruct (H1 p x Hx Hv) as (x' & ? & ? & Hid').
    exists x'. split_and!; congruence.
  - intros p x' Hx' Hv'. destruct (H2 p x' Hx' Hv') as (x & Hx & Hv & Hid). rewrite <- Hid. by apply Hw'.
Qed.

Lemma lids_upd who s s' p x x' : lids_ok who s -> who !! p = Some x ->
  lid_pool s' = lid_pool s -> lid_freelist s' = lid_freelist s -> lid_map s' = lid_map s ->
  valid x' = valid x -> local_id x' = local_id x -> lids_ok (<[p := x']> who) s'.
Proof.
  intros Hok Hx Hp Hf Hm Hv Hid. eapply lids_same; [done..| |].
  - intros q y Hy Hvy. destruct (decide (q = p)) as [->|Hne].
    + exists x'. rewrite lookup_insert_eq. simplify_eq. split_and!; congruence.
    + exists y. by rewrite lookup_insert_ne.
  - intros q y. destruct (decide (q = p)) as [->|Hne].
    + rewrite lookup_insert_eq. intros [= <-] Hvy. exists x. split_and!; congruence.
    + rewrite lookup_insert_ne by done. eauto.
Qed.

Lemma free_ids_range pool i l : free_ids pool i l -> 0 <= i <= OL_TXRX_NUM_LOCAL_PEER_IDS.
Proof. unfold OL_TXRX_NUM_LOCAL_PEER_IDS. destruct l; cbn; unfold OL_TXRX_NUM_LOCAL_PEER_IDS; lia. Qed.

Lemma free_ids_insert pool i l k n : k ∉ l -> 0 <= k -> free_ids pool i l -> free_ids (<[Z.to_nat k := n]> pool) i l.
Proof.
  intros Hk Hk0. revert i. induction l as [|x l IH]; intros i; cbn; [done|].
  intros (-> & Hx & m & Hm & Hl). split_and!; [done|lia|lia|]. exists m. rewrite aget_insert_ne by set_solver. split; [done|].
  apply IH; set_solver.
Qed.

Lemma alloc_spec who s p x : lids_ok who s -> who !! p = None -> who !! 0 = None -> p <> 0 -> peers s !! p = Some x -> valid x = true ->
  runs (OL_TXRX_LOCAL_PEER_ID_ALLOC p) s (fun _ s' => exists id pool free map,
    s' = set_lids pool free map (set_peers (<[p := set_local_id id x]> (peers s)) s)
    /\ lids_ok (<[p := set_local_id id x]> who) s').
Proof.
  intros (free & Hfree & Hnd & Hend & Hl1 & Hl2 & Hz & Hz' & Hw & Hw') Hnew Hnull Hp Hx Hv.
  unfold OL_TXRX_LOCAL_PEER_ID_ALLOC. mstep. mstep. cbn zeta.
  assert (Hother : forall i q, aget (lid_map s) i = Some q -> q <> 0 -> q <> p).
  { intros i q Hi Hq ->. destruct (Hw i p Hi Hp) as (y & Hy & _). congruence. }
  destruct free as [|i free]; cbn in Hfree.
  - mstep. rewrite Hfree, Hend. mstep. rewrite Z.eqb_refl. eapply runs_upd_peer; [done|].
    exists OL_TXRX_INVALID_LOCAL_PEER_ID, (lid_pool s), (lid_freelist s), (lid_map s). split; [by destruct s|].
    exists []. cbn. split_and!; try done.
    + intros i q Hi Hq. destruct (Hw i q Hi Hq) as (y & Hy & Hvy). exists y. rewrite lookup_insert_ne by (by apply not_eq_sym, (Hother i)). done.
    + intros q y. destruct (decide (q = p)) as [->|Hne]; [rewrite lookup_insert_eq; intros [= <-]; by left|].
      rewrite lookup_insert_ne by done. apply Hw'.
  - destruct Hfree as (Hi & Hr & n & Hn & Hfree). rewrite Hi, Hn. mstep. mstep.
    assert (Hni : n <> i). { destruct free as [|j free]; cbn in Hfree; [lia|]. destruct Hfree as [-> _].
      intros ->. apply NoDup_cons in Hnd as [Hnd _]. apply Hnd. by left. }
    rewrite (proj2 (Z.eqb_neq _ _) Hni). mstep. eapply runs_upd_peer; [done|]. mstep. cbn [lid_map set_peers].
    assert (Hr' : 0 <= i < Z.of_nat (length (lid_map s))) by (rewrite Hl2; unfold OL_TXRX_NUM_LOCAL_PEER_IDS in Hr; lia).
    eapply runs_oget; [by apply aset_Some|]. mstep.
    exists i, (lid_pool s), n, (<[Z.to_nat i := p]> (lid_map s)). split; [done|]. exists free. cbn.
    rewrite length_insert. apply NoDup_cons in Hnd as [Hni' Hnd]. split_and!; try done.
    + intros j Hj. rewrite aget_insert_ne by (set_solver || lia). apply Hz. set_solver.
    + intros j q Hj ->. destruct (decide (i = j)) as [<-|Hne].
      * rewrite aget_insert_eq in Hj by done. congruence.
      * rewrite aget_insert_ne in Hj by lia. specialize (Hz' j 0 Hj eq_refl). set_solver.
    + intros j q Hj Hq. destruct (decide (i = j)) as [<-|Hne].
      * rewrite aget_insert_eq in Hj by done. injection Hj as <-. rewrite lookup_insert_eq. eauto.
      * rewrite aget_insert_ne in Hj by lia. destruct (Hw j q Hj Hq) as (y & Hy & Hvy). exists y.
        rewrite lookup_insert_ne by (by apply not_eq_sym, (Hother j)). done.
    + intros q y. destruct (decide (q = p)) as [->|Hne].
      * rewrite lookup_insert_eq. intros [= <-] _. right. cbn. by apply aget_insert_eq.
      * rewrite lookup_insert_ne by done. intros Hy Hvy. destruct (Hw' q y Hy Hvy) as [Hid|Hid]; [by left|right].
        rewrite aget_insert_ne; [done|lia|]. intros ->. rewrite (Hz (local_id y)) in Hid by set_solver.
        simplify_eq.
Qed.

Lemma free_spec who s p x y : lids_ok who s -> who !! p = Some x -> p <> 0 -> valid x = true ->
  peers s !! p = Some y -> local_id y = local_id x -> valid y = false ->
  runs (OL_TXRX_LOCAL_PEER_ID_FREE p) s (fun _ s' => exists pool free map,
    s' = set_lids pool free map s /\ lids_ok (<[p := y]> who) s').
Proof.
  intros (free & Hfree & Hnd & Hend & Hl1 & Hl2 & Hz & Hz' & Hw & Hw') Hx Hp Hvx Hy Hid Hvy.
  unfold OL_TXRX_LOCAL_PEER_ID_FREE. mstep. eapply runs_get_peer; [done|]. cbn beta zeta. rewrite Hid.
  assert (Hout : forall q z, <[p := y]> who !! q = Some z -> valid z = true -> who !! q = Some z /\ q <> p).
  { intros q z. destruct (decide (q = p)) as [->|Hne]; [rewrite lookup_insert_eq; congruence|by rewrite lookup_insert_ne]. }
  destruct (Hw' p x Hx Hvx) as [Hinv|Hmap].
  - rewrite Hinv, Z.eqb_refl. cbn [orb]. mstep. exists (lid_pool s), (lid_freelist s), (lid_map s). split; [by destruct s|].
    exists free. split_and!; try done.
    + intros i q Hi Hq. destruct (Hw i q Hi Hq) as (z & Hz0 & Hvz & Hiz). exists z. rewrite lookup_insert_ne; [done|].
      intros <-. simplify_eq. apply aget_Some_range in Hi. unfold OL_TXRX_INVALID_LOCAL_PEER_ID in Hinv. lia.
    + intros q z Hq Hvz. destruct (Hout q z Hq Hvz) as [Hq' _]. by apply Hw'.
  - set (i := local_id x) in *. pose proof (aget_Some_range _ _ _ Hmap) as Hr.
    assert (Hi : 0 <= i < 34) by lia. unfold OL_TXRX_INVALID_LOCAL_PEER_ID, OL_TXRX_NUM_LOCAL_PEER_IDS in *.
    replace (i =? 65535) with false by lia. replace (2 + 32 <=? i) with false by lia. cbn [orb]. mstep. mstep.
    pose proof (free_ids_range _ _ _ Hfree) as Hfr. unfold OL_TXRX_NUM_LOCAL_PEER_IDS in Hfr. rewrite u8_small by lia.
    mstep. eapply runs_oget; [apply aset_Some; rewrite Hl1; lia|]. mstep. eapply runs_oget; [by apply aset_Some|]. mstep.
    eexists _, _, _. split; [done|]. exists (i :: free). cbn. unfold OL_TXRX_NUM_LOCAL_PEER_IDS. rewrite !length_insert.
    assert (Hni : i ∉ free) by (intros Hin; specialize (Hz i Hin); congruence).
    split_and!; try done; try lia.
    + exists (lid_freelist s). rewrite aget_insert_eq by (rewrite Hl1; lia). split; [done|]. apply free_ids_insert; [done|lia|done].
    + by apply NoDup_cons.
    + rewrite aget_insert_ne by lia. done.
    + intros j [->|Hj]%elem_of_cons; [by apply aget_insert_eq|]. rewrite aget_insert_ne by (lia || set_solver). by apply Hz.
    + intros j q Hj ->. destruct (decide (i = j)) as [<-|Hne]; [by left|]. rewrite aget_insert_ne in Hj by lia.
      right. by eapply Hz'.
    + intros j q Hj Hq. destruct (decide (i = j)) as [<-|Hne]; [rewrite aget_insert_eq in Hj by done; congruence|].
      rewrite aget_insert_ne in Hj by lia. destruct (Hw j q Hj Hq) as (z & Hz0 & Hvz & Hiz). exists z.
      rewrite lookup_insert_ne; [done|]. by intros <-; simplify_eq.
    + intros q z Hq Hvz. destruct (Hout q z Hq Hvz) as [Hq' Hqp]. destruct (Hw' q z Hq' Hvz) as [?|Hm]; [by left|right].
      rewrite aget_insert_ne; [done|lia|]. intros Heq. rewrite <- Heq, Hmap in Hm. congruence.
Qed.

Lemma pool_init_spec s : runs OL_TXRX_LOCAL_PEER_ID_POOL_INIT s (fun _ s' => exists pool free map,
  s' = set_lids pool free map s /\ lids_ok ∅ s').
Proof.
  unfold OL_TXRX_LOCAL_PEER_ID_POOL_INIT. do 4 mstep. eexists _, _, _. split; [reflexivity|].
  exists (seqZ 0 34). cbn [lid_pool lid_freelist lid_map set_lids].
  assert (Hz : forall i p, aget (replicate (Z.to_nat OL_TXRX_NUM_LOCAL_PEER_IDS) 0) i = Some p -> p = 0 /\ 0 <= i < 34).
  { intros i p Hp. pose proof (aget_Some_range _ _ _ Hp) as Hr. rewrite length_replicate in Hr.
    unfold OL_TXRX_NUM_LOCAL_PEER_IDS in *. rewrite aget_lookup in Hp by lia. apply lookup_replicate in Hp as [-> _]. lia. }
  split_and!; try done.
  - vm_compute. repeat (split; [done|split; [split; congruence|eexists; split; [reflexivity|]]]). done.
  - apply NoDup_seqZ.
  - intros i Hi%elem_of_seqZ. destruct (aget_is_Some (replicate (Z.to_nat OL_TXRX_NUM_LOCAL_PEER_IDS) 0) i) as [p Hp].
    { rewrite length_replicate. unfold OL_TXRX_NUM_LOCAL_PEER_IDS. lia. } by destruct (Hz i p Hp) as [-> _].
  - intros i p Hp _. apply elem_of_seqZ. destruct (Hz i p Hp). lia.
  - intros i p Hp Hne. by destruct (Hz i p Hp).
Qed.
End Lids.

(** ** References *)

Section Refs.
Context (cfg : txrx_cfg).
Implicit Types (A : abs) (s : ST) (p v : Z).

Lemma claims_bound A s e : core cfg A s -> e ∈ a_peers A -> 0 < claims A e < 2 ^ 30.
Proof.
  intros Hc He. destruct (co_peer _ _ _ Hc e He) as (x & _ & Hr). split; [apply Hr|]. unfold claims.
  pose proof (count_bound (a_at e) (a_map A)). pose proof (count_bound (a_at e) (a_held A)).
  pose proof (proj2 (co_map _ _ _ Hc)). pose proof (co_max _ _ _ Hc). pose proof (proj1 (co_held _ _ _ Hc)).
  destruct (a_attached e), (bool_decide _); lia.
Qed.

Lemma a_upd_id p A : a_upd p id A = A.
Proof.
  unfold a_upd, set_a_peers. destruct A as [l V m h d]; cbn. f_equal. rewrite <- (list_fmap_id l) at 2.
  apply list_fmap_ext. intros i e _. by destruct (a_at e =? p).
Qed.

Lemma set_id_map_same s m : peer_id_to_obj_map s = m -> set_id_map m s = s.
Proof. intros <-. by destruct s. Qed.

Lemma core_in_at A s p : core cfg A s -> p ∈ a_at <$> a_peers A -> exists e x, e ∈ a_peers A /\ a_at e = p /\ peers s !! p = Some x /\ peer_rel A e x.
Proof.
  intros Hc (e & -> & He)%list_elem_of_fmap. destruct (co_peer _ _ _ Hc e He) as (x & Hx & Hr). eauto 10.
Qed.

(** A peer with another reference count stands for the same, when that is the claims. *)
Lemma peer_rel_ref A A' e x n : peer_rel A e x -> n = claims A' e -> 0 < n -> peer_rel A' e (set_ref_cnt n x).
Proof. intros Hr -> Hn. destruct Hr. by split. Qed.

(** The references held change at one peer only, and its count with them. *)
Lemma core_held_change A s p x h : core cfg A s -> peers s !! p = Some x ->
  (Z.of_nat (length h) <= 1048576 /\ forall q, q ∈ h -> q ∈ a_at <$> a_peers A) ->
  (forall q, q <> p -> count q h = count q (a_held A)) ->
  let n := ref_cnt x + count p h - count p (a_held A) in
  0 < n -> core cfg (set_a_held h A) (set_peers (<[p := set_ref_cnt n x]> (peers s)) s).
Proof.
  intros Hc Hx Hh Hcnt n Hn. destruct (core_entry _ _ _ _ _ Hc Hx) as (e & He & Hat & Hr).
  pose proof (co_map _ _ _ Hc) as [Hmap Hlen].
  assert (Hgoal : core cfg (set_a_held h (set_a_map (a_map A) (a_upd p id A)))
    (set_id_map (a_map A) (set_peers (<[p := set_ref_cnt n x]> (peers s)) s))).
  { apply core_upd; try done.
    - rewrite <- Hat. by apply in_at.
    - intros id q Hq Hne. destruct (co_mapped _ _ _ Hc id q Hq Hne) as (e' & ? & ? & ?). exists e'. by destruct (a_at e' =? p).
    - intros e' He' Hne. split; [done|by apply Hcnt].
    - intros e' He' Hat'. assert (e' = e) as -> by (apply (at_inj A); [apply Hc|done|done|congruence]).
      rewrite a_upd_id. unfold id. apply peer_rel_ref with A; [done| |done].
      unfold n. rewrite (pr_ref _ _ _ Hr). unfold claims. cbn. rewrite Hat. lia. }
  rewrite a_upd_id in Hgoal. rewrite set_id_map_same in Hgoal by done. by destruct A.
Qed.

Lemma ref_range A s p x : core cfg A s -> peers s !! p = Some x -> 0 < ref_cnt x < 2 ^ 30.
Proof.
  intros Hc Hx. destruct (core_entry _ _ _ _ _ Hc Hx) as (e & He & _ & Hr). rewrite (pr_ref _ _ _ Hr).
  by eapply claims_bound.
Qed.

(** A reference is taken. *)
Lemma core_hold A s p x : core cfg A s -> peers s !! p = Some x -> Z.of_nat (length (a_held A)) < 1048576 ->
  core cfg (set_a_held (p :: a_held A) A) (set_peers (<[p := set_ref_cnt (s32 (ref_cnt x + 1)) x]> (peers s)) s).
Proof.
  intros Hc Hx Hl. pose proof (ref_range _ _ _ _ Hc Hx). rewrite s32_small by lia.
  destruct (core_entry _ _ _ _ _ Hc Hx) as (e & He & Hat & Hr).
  pose proof (core_held_change A s p x (p :: a_held A) Hc Hx) as H1. rewrite count_cons, decide_True in H1 by done.
  replace (ref_cnt x + (1 + count p (a_held A)) - count p (a_held A)) with (ref_cnt x + 1) in H1 by lia. apply H1; [|..|lia].
  - split; [cbn [length]; lia|]. intros q [->|Hq]%elem_of_cons; [rewrite <- Hat; by apply in_at|by apply (proj2 (co_held _ _ _ Hc))].
  - intros q Hne. rewrite count_cons, decide_False by done. lia.
Qed.

(** ** Look-up *)

Lemma find_in_bin_spec test t s (l : list apeer) : (forall e, e ∈ l -> exists x, peers s !! a_at e = Some x /\ test x = t e) ->
  runs (find_in_bin test (a_at <$> l)) s (fun r s' =>
    match find t l with
    | Some e => r = a_at e /\ exists x, peers s !! a_at e = Some x
                /\ s' = set_peers (<[a_at e := set_ref_cnt (s32 (ref_cnt x + 1)) x]> (peers s)) s
    | None => r = 0 /\ s' = s
    end).
Proof.
  induction l as [|e l IH]; intros Hl; cbn [find fmap list_fmap find_in_bin]; [by mstep|].
  destruct (Hl e) as (x & Hx & Ht); [by left|]. mstep. eapply runs_get_peer; [done|]. cbn beta. rewrite Ht.
  destruct (t e).
  - mstep. eapply runs_ref_add; [done|]. mstep. eauto.
  - apply IH. intros e' He'. apply Hl. by right.
Qed.

Lemma bin_lookup A s mac : core cfg A s -> runs (index <- ol_txrx_peer_find_hash_index mac ;; get_bin index) s (fun bin s' =>
  s' = s /\ bin = a_at <$> filter (fun e => bucket (hash_idx_bits s) (hash_mask s) (a_mac e) =
    bucket (hash_idx_bits s) (hash_mask s) mac) (a_peers A)).
Proof.
  intros Hc. mstep. eapply runs_mono; [apply hash_index_spec|]. intros i s' [-> ->]. unfold get_bin. mstep. mstep.
  set (i := bucket _ _ _). destruct (aget_is_Some (hash_bins s) i) as [bin Hbin].
  { rewrite (co_bins _ _ _ Hc). unfold i. destruct (co_hash _ _ _ Hc) as [-> ?]. apply bucket_range. lia. }
  eapply runs_oget; [done|]. split; [done|]. by apply (co_bin _ _ _ Hc).
Qed.

Lemma find_spec A s mac (test : ol_txrx_peer_t -> bool) (t : apeer -> bool) : core cfg A s -> mac_ok mac ->
  (forall e x, peer_rel A e x -> test x = t e) -> (forall e, t e = true -> a_mac e = mac) ->
  runs (index <- ol_txrx_peer_find_hash_index mac ;; bin <- get_bin index ;; find_in_bin test bin) s (fun r s' =>
    match find t (a_peers A) with
    | Some e => r = a_at e /\ exists x, peers s !! a_at e = Some x
                /\ s' = set_peers (<[a_at e := set_ref_cnt (s32 (ref_cnt x + 1)) x]> (peers s)) s
    | None => r = 0 /\ s' = s
    end).
Proof.
  intros Hc Hm Ht Htm. mstep. eapply runs_mono; [apply hash_index_spec|]. intros i s' [-> ->].
  pose proof (bin_lookup A s mac Hc) as Hb. apply runs_bnd_inv in Hb.
  apply runs_elim in Hb as (i & s' & Hi & Hb). injection Hi as <- <-. mstep.
  eapply runs_mono; [exact Hb|]. intros bin s' [-> ->].
  eapply runs_mono; [apply (find_in_bin_spec test t)|].
  - intros e [_ He]%list_elem_of_filter. destruct (co_peer _ _ _ Hc e He) as (x & Hx & Hr). eauto.
  - intros r s'. rewrite find_filter; [done|]. intros e He Hte. by rewrite (Htm e Hte).
Qed.

Lemma hash_find_spec A s mac cv : core cfg A s -> mac_ok mac ->
  runs (ol_txrx_peer_find_hash_find mac cv) s (fun r s' =>
    match a_find mac cv A with
    | Some e => r = a_at e /\ exists x, peers s !! a_at e = Some x
                /\ s' = set_peers (<[a_at e := set_ref_cnt (s32 (ref_cnt x + 1)) x]> (peers s)) s
    | None => r = 0 /\ s' = s
    end).
Proof.
  intros Hc Hm. apply find_spec; [done..| |].
  - intros e x Hr. rewrite mac_cmp by (rewrite ?(pr_mac _ _ _ Hr); done || apply Hr).
    rewrite (pr_mac _ _ _ Hr), (pr_valid _ _ _ Hr). f_equal. apply bool_decide_ext. done.
  - intros e [Hd%bool_decide_eq_true _]%andb_true_iff. done.
Qed.

Lemma vdev_find_spec A s v mac cv : core cfg A s -> mac_ok mac ->
  runs (ol_txrx_peer_vdev_find_hash v mac cv) s (fun r s' =>
    match a_vfind v mac cv A with
    | Some e => r = a_at e /\ exists x, peers s !! a_at e = Some x
                /\ s' = set_peers (<[a_at e := set_ref_cnt (s32 (ref_cnt x + 1)) x]> (peers s)) s
    | None => r = 0 /\ s' = s
    end).
Proof.
  intros Hc Hm. apply find_spec; [done..| |].
  - intros e x Hr. rewrite mac_cmp by (rewrite ?(pr_mac _ _ _ Hr); done || apply Hr).
    rewrite (pr_mac _ _ _ Hr), (pr_valid _ _ _ Hr), (pr_vdev _ _ _ Hr). do 2 f_equal. apply bool_decide_ext. done.
  - intros e [[Hd%bool_decide_eq_true _]%andb_true_iff _]%andb_true_iff. done.
Qed.

(** ** Deletion *)

Ltac pcbn := cbn [peers vdevs vdev_list hash_mask hash_idx_bits hash_bins peer_id_to_obj_map lid_pool lid_freelist
  lid_map self_peer desc_vdev calls set_peers set_vdevs set_vdev_list set_bins set_id_map set_self_peer set_desc_vdev
  set_calls set_lids set_ref_cnt set_dip set_valid set_peer_ids set_local_id set_p_state set_tx_filter set_rx_opt_proc
  set_p_info p_vdev p_mac ref_cnt delete_in_progress valid peer_ids local_id p_state tx_filter rx_opt_proc p_info
  set_keyinstalled set_history set_own_array set_sec_type set_bss_peer own_array
  v_id v_mac peer_list last_real_peer delete_pending delete_callback wait_on_peer_id wait_delete_comp
  disable_intrabss_fwd ll_pause_txq set_peer_list set_last_real set_wait_on set_comp set_intrabss set_ll_txq set_delete].
Ltac at_peer := eapply runs_get_peer; [pcbn; rewrite ?lookup_insert_eq; (eassumption || reflexivity)|]; cbn beta.

Lemma release_spec p x s : peers s !! p = Some x -> length (own_array (p_info x)) = 19%nat ->
  runs (release_peer cfg p) s (fun _ s' => exists cs,
    s' = set_calls (calls s ++ cs) (set_peers (delete p (peers s)) s) /\ omap deleted_of cs = []).
Proof.
  intros Hx Ha. unfold release_peer. mstep.
  eapply runs_mono with (Q := fun _ s1 => exists cs, s1 = set_calls (calls s ++ cs) s /\ omap deleted_of cs = []).
  { destruct (is_high_latency cfg).
    - apply runs_mfor_emit. eexists. split; [done|]. by apply omap_other.
    - apply runs_ret. exists []. rewrite app_nil_r. by destruct s. }
  intros _ s1 (cs1 & -> & Hcs1). mstep.
  eapply runs_mono; [apply (runs_mfor (fun _ s2 => exists cs x', s2 = set_calls (calls s ++ cs) (set_peers (<[p := x']> (peers s)) s)
    /\ omap deleted_of cs = [] /\ length (own_array (p_info x')) = 19%nat))|].
  - intros dn i todo s2 Hi (cs & x' & -> & Hcs & Hl). mstep. at_peer. mstep.
    assert (Hr : 0 <= i < 19).
    { assert (Hin : i ∈ seqZ 0 OL_TXRX_NUM_EXT_TIDS) by (rewrite Hi; set_solver). by apply elem_of_seqZ in Hin. }
    destruct (aget_is_Some (own_array (p_info x')) i) as [own Hown]; [lia|]. eapply runs_oget; [done|].
    destruct own; [|by mstep; eauto]. mstep. unfold emit. mstep. mstep. eapply runs_oget; [apply aset_Some; lia|].
    eapply runs_upd_info; [pcbn; by rewrite lookup_insert_eq|]. pcbn. rewrite insert_insert_eq. eexists (cs ++ [_]), _.
    rewrite app_assoc. split; [reflexivity|]. split; [by rewrite omap_app, Hcs|]. pcbn. by rewrite length_insert.
  - exists cs1, x. split_and!; try done. rewrite (insert_id (peers s)) by done. by destruct s.
  - intros _ s2 (cs & x' & -> & Hcs & _). unfold free_peer. mstep. at_peer. mstep. exists cs.
    split; [|done]. pcbn. rewrite delete_insert_eq. by destruct s.
Qed.

Lemma finish_vdev_spec v d s : vdevs s !! v = Some d -> runs (finish_vdev v) s (fun _ s' =>
  if bool_decide (peer_list d = []) && delete_pending d
  then s' = set_calls (calls s ++ (Vdev_deleted <$> option_list (delete_callback d)))
              (set_vdevs (delete v (vdevs s)) (set_desc_vdev ((fun w => if w =? v then 0 else w) <$> desc_vdev s) s))
  else s' = s).
Proof.
  intros Hd. unfold finish_vdev. mstep. eapply runs_get_vdev; [done|]. cbn beta.
  destruct (bool_decide (peer_list d = []) && delete_pending d); [|by mstep].
  mstep. unfold forget_vdev. mstep. mstep. unfold free_vdev. mstep. eapply runs_get_vdev; [done|]. cbn beta. mstep.
  destruct (delete_callback d); cbn [option_list fmap list_fmap]; unfold emit; mstep; [done|].
  rewrite app_nil_r. by destruct s.
Qed.

Lemma tq_remove_in p l : p ∈ l -> tq_remove p l = Some (filter (fun q => q <> p) l).
Proof. intros. unfold tq_remove. by rewrite bool_decide_true. Qed.

Lemma hash_remove_spec A s t p e x : core cfg A s -> e ∈ a_peers A -> a_at e = p -> peers t !! p = Some x -> p_mac x = a_mac e ->
  hash_bins t = hash_bins s -> hash_mask t = hash_mask s -> hash_idx_bits t = hash_idx_bits s ->
  let i := bucket (hash_idx_bits s) (hash_mask s) (a_mac e) in
  runs (ol_txrx_peer_find_hash_remove p) t (fun _ s' => exists bin, aget (hash_bins s) i = Some bin
    /\ s' = set_bins (upd (hash_bins s) i (filter (fun q => q <> p) bin)) t).
Proof.
  intros Hc He Hat Hx Hmac Hb Hm Hbits i. unfold ol_txrx_peer_find_hash_remove. mstep. at_peer. mstep.
  eapply runs_mono; [apply hash_index_spec|]. intros i' s' [-> ->]. rewrite Hmac, Hm, Hbits. fold i.
  assert (Hi : 0 <= i < Z.of_nat (length (hash_bins s))).
  { rewrite (co_bins _ _ _ Hc). unfold i. destruct (co_hash _ _ _ Hc) as [-> ?]. apply bucket_range. lia. }
  destruct (aget_is_Some _ _ Hi) as [bin Hbin]. unfold get_bin, put_bin. mstep. mstep. mstep. rewrite Hb. eapply runs_oget; [done|].
  assert (Hin : p ∈ bin).
  { rewrite (co_bin _ _ _ Hc _ _ Hbin), <- Hat. apply list_elem_of_fmap_2, list_elem_of_filter. done. }
  rewrite tq_remove_in by done. mstep. mstep. mstep. mstep. mstep. rewrite Hb. eapply runs_oget; [by apply aset_Some|]. mstep. eauto.
Qed.

(** The peer leaves its virtual device, and the attach that waits for it is told. *)
Lemma leave_vdev_spec p v d x s : vdevs s !! v = Some d -> p ∈ peer_list d -> peers s !! p = Some x ->
  length (own_array (p_info x)) = 19%nat ->
  runs (d <- get_vdev v ;; l <- oget (tq_remove p (peer_list d)) ;; upd_vdev v (set_peer_list l) ;;
    ol_rx_peer_cleanup v p ;; upd_peer p (set_dip 0) ;; d <- get_vdev v ;;
    (if local_id x =? wait_on_peer_id d then
       upd_vdev v (fun d => set_comp (wait_delete_comp d + 1) d) ;; upd_vdev v (set_wait_on OL_TXRX_INVALID_LOCAL_PEER_ID)
     else mreturn tt) ;;
    finish_vdev v ;; release_peer cfg p) s
  (fun _ s' => vdev_after p v d s s' /\ peers s' = delete p (peers s) /\ hash_mask s' = hash_mask s
     /\ hash_idx_bits s' = hash_idx_bits s /\ hash_bins s' = hash_bins s /\ vdev_list s' = vdev_list s
     /\ peer_id_to_obj_map s' = peer_id_to_obj_map s /\ self_peer s' = self_peer s
     /\ lid_pool s' = lid_pool s /\ lid_freelist s' = lid_freelist s /\ lid_map s' = lid_map s).
Proof.
  intros Hd Hin Hx Ha. mstep. eapply runs_get_vdev; [done|]. cbn beta. rewrite tq_remove_in by done. mstep. mstep. mstep.
  eapply runs_upd_vdev; [done|]. mstep. unfold ol_rx_peer_cleanup. mstep. eapply runs_upd_info; [done|]. mstep.
  unfold emit. mstep. eapply runs_upd_info; [pcbn; by rewrite lookup_insert_eq|]. pcbn. mstep.
  eapply runs_upd_peer; [pcbn; by rewrite lookup_insert_eq|]. pcbn. rewrite !insert_insert_eq. mstep.
  eapply runs_get_vdev; [pcbn; by rewrite lookup_insert_eq|]. cbn beta. mstep.
  set (s1 := set_peers _ _). set (l := filter (fun q => q <> p) (peer_list d)).
  eapply runs_mono with (Q := fun _ s2 => exists d2, s2 = set_vdevs (<[v := d2]> (vdevs s)) s1 /\ v_mac d2 = v_mac d
    /\ peer_list d2 = l /\ last_real_peer d2 = last_real_peer d /\ delete_pending d2 = delete_pending d
    /\ delete_callback d2 = delete_callback d).
  { destruct (_ =? _).
    - mstep. eapply runs_upd_vdev; [unfold s1; pcbn; by rewrite lookup_insert_eq|].
      eapply runs_upd_vdev; [pcbn; by rewrite lookup_insert_eq|]. eexists.
      split; [unfold s1; pcbn; rewrite !insert_insert_eq; reflexivity|by pcbn].
    - mstep. eexists. split; [unfold s1; pcbn; reflexivity|by pcbn]. }
  intros _ s2 (d2 & -> & Hm2 & Hl2 & Hr2 & Hp2 & Hc2). mstep.
  eapply runs_mono; [apply (finish_vdev_spec v d2); pcbn; by rewrite lookup_insert_eq|]. cbn beta. intros _ s3 Hs3.
  eapply runs_mono; [eapply release_spec with (x := set_dip 0 (set_p_info (set_history false (p_info (set_p_info (set_keyinstalled 0 (p_info x)) x))) (set_p_info (set_keyinstalled 0 (p_info x)) x)))|].
  - destruct (_ && _) in Hs3; rewrite Hs3; unfold s1; pcbn; by rewrite lookup_insert_eq.
  - done.
  - cbn beta. intros _ s4 (cs & -> & Hcs). unfold vdev_after. fold l. rewrite <- Hl2, <- Hp2.
    destruct (bool_decide (peer_list d2 = []) && delete_pending d2); rewrite Hs3; unfold s1; pcbn.
    + rewrite !omap_app, Hcs, Hc2, !delete_insert_eq. cbn [omap list_omap deleted_of]. rewrite app_nil_r.
      split_and!; try done; [intros w Hw; by rewrite lookup_delete_ne|by rewrite lookup_delete_eq|].
      destruct (delete_callback d); cbn; by rewrite ?app_nil_r.
    + rewrite !omap_app, Hcs, delete_insert_eq. cbn [omap list_omap deleted_of]. rewrite !app_nil_r.
      split_and!; try done; [intros w Hw; by rewrite lookup_insert_ne|]. exists d2. by rewrite lookup_insert_eq.
Qed.

Lemma unref_last A s p e x h : core cfg A s -> e ∈ a_peers A -> a_at e = p -> a_held A = p :: h ->
  peers s !! p = Some x -> ref_cnt x = 1 ->
  runs (ol_txrx_peer_unref_delete cfg p) s (fun _ s' => removed cfg A p e s s'
    /\ (exists d, vdevs s !! a_vdev e = Some d /\ vdev_after p (a_vdev e) d s s')
    /\ lid_pool s' = lid_pool s /\ lid_freelist s' = lid_freelist s /\ lid_map s' = lid_map s).
Proof.
  intros Hc He Hat Hh Hx Hone. assert (Hr : peer_rel A e x) by (rewrite <- Hat in Hx; by eapply core_at).
  pose proof (pr_vdev _ _ _ Hr) as Hv. unfold ol_txrx_peer_unref_delete. mstep. at_peer. cbn zeta. rewrite Hv.
  destruct (co_owner _ _ _ Hc e He) as [a Ha]. destruct (core_vdev _ _ _ _ _ Hc Ha) as (d & Hd & Hvr).
  replace (a_vdev e =? 0) with false; [|symmetry; apply Z.eqb_neq; intros Hz; rewrite Hz, (co_vnull _ _ _ Hc) in Ha; done].
  rewrite Hone. cbn [Z.eqb negb]. mstep. eapply runs_massert; [done|]. mstep.
  eapply runs_ref_add; [done|]. rewrite Hone. change (s32 (1 + -1)) with 0. cbn [Z.eqb]. mstep. mstep. mstep. pcbn.
  set (self := if (p =? self_peer s) && monitor_mode cfg then 0 else self_peer s).
  eapply runs_mono with (Q := fun _ s1 => s1 = set_self_peer self (set_peers (<[p := set_ref_cnt 0 x]> (peers s)) s)).
  { unfold self. destruct ((p =? self_peer s) && monitor_mode cfg); [by mstep|]. mstep. by destruct s. }
  intros _ s1 ->. mstep.
  eapply runs_mono; [apply (hash_remove_spec A s _ p e (set_ref_cnt 0 x)); try done; [pcbn; by rewrite lookup_insert_eq|apply Hr]|].
  cbn beta. intros _ s2 (bin & Hbin & ->).
  eapply runs_mono; [apply (leave_vdev_spec p (a_vdev e) d (set_ref_cnt 0 x)); pcbn; try done; rewrite ?lookup_insert_eq; try done|].
  - rewrite (vr_list _ _ _ _ Hvr), <- Hat. by apply list_elem_of_fmap_2, list_elem_of_filter.
  - apply Hr.
  - pcbn. rewrite delete_insert_eq. intros _ s3 (Hva & Hps & Hm & Hib & Hb & Hvl & Hmap & Hself & Hlids).
    split; [|split; [exists d; by split|done]].
    split; try done. rewrite Hb. pcbn. split; [by rewrite length_upd|]. intros i.
    assert (Hi := aget_Some_range _ _ _ Hbin). rewrite aget_upd by done. case_decide as Hd'; [|done].
    subst i. by rewrite Hbin.
Qed.

(** A reference is released; it was one of those held. *)
Lemma unref_spec A s p h : core cfg A s -> a_held A = p :: h ->
  runs (ol_txrx_peer_unref_delete cfg p) s (fun _ s' => core cfg (a_drop p (set_a_held h A)) s'
    /\ (lids_ok (peers s) s -> lids_ok (peers s') s')).
Proof.
  intros Hc Hh. destruct (core_in_at A s p Hc) as (e & x & He & Hat & Hx & Hr).
  { apply (proj2 (co_held _ _ _ Hc)). rewrite Hh. by left. }
  assert (Hcl : ref_cnt x = claims (set_a_held h A) e + 1).
  { rewrite (pr_ref _ _ _ Hr). unfold claims. cbn. rewrite Hh, count_cons, decide_True by done. lia. }
  destruct (decide (claims (set_a_held h A) e = 0)) as [Hz|Hnz].
  - eapply runs_mono; [eapply unref_last; try done; lia|]. cbn beta.
    intros _ s' (Hrm & (d & Hd & Hva) & Hl1 & Hl2 & Hl3). split; [by eapply core_drop|].
    intros Hlids. rewrite (rm_peers _ _ _ _ _ _ Hrm). apply claims_zero in Hz as (Hna & _).
    assert (Hvx : valid x = false) by (by rewrite (pr_valid _ _ _ Hr)). eapply lids_same; [done..| |].
    + intros q y Hy Hvy. exists y. rewrite lookup_delete_ne; [done|]. intros <-. congruence.
    + intros q y [_ Hy]%lookup_delete_Some Hvy. eauto.
  - pose proof (ref_range _ _ _ _ Hc Hx) as Hrange.
    assert (Hpos : 0 < claims (set_a_held h A) e) by lia.
    assert (Hd : a_drop p (set_a_held h A) = set_a_held h A).
    { unfold a_drop. rewrite <- Hat. rewrite (a_peer_in (set_a_held h A)) by (done || apply Hc).
      by rewrite (proj2 (Z.eqb_neq _ _) Hnz). }
    rewrite Hd. unfold ol_txrx_peer_unref_delete. mstep. at_peer. cbn zeta.
    destruct (co_owner _ _ _ Hc e He) as [a Ha]. rewrite (pr_vdev _ _ _ Hr).
    replace (a_vdev e =? 0) with false; [|symmetry; apply Z.eqb_neq; intros Hz; rewrite Hz, (co_vnull _ _ _ Hc) in Ha; done].
    mstep. eapply runs_massert; [by replace (ref_cnt x =? 0) with false by lia|]. mstep.
    eapply runs_ref_add; [done|]. rewrite s32_small by lia. replace (ref_cnt x + -1 =? 0) with false by lia. mstep.
    pose proof (co_held _ _ _ Hc) as [Hlen Hheld]. rewrite Hh in Hlen, Hheld. cbn [length] in Hlen.
    pose proof (core_held_change A s p x h Hc Hx) as H1. rewrite Hh, count_cons, decide_True in H1 by done. cbn zeta in H1.
    replace (ref_cnt x + count p h - (1 + count p h)) with (ref_cnt x + -1) in H1 by lia. split.
    + apply H1; [split; [lia|set_solver]| |lia]. intros q Hq. rewrite count_cons, decide_False by done. lia.
    + intros Hl. pcbn. by eapply lids_upd.
Qed.
End Refs.
