(* ===== verification/PeersOps.v ===== *)
(** * Peers: the operations

    Every operation of the component, as a change of the abstract state: look-ups, the peer's
    own state, the firmware's map and unmap messages, attach and detach of peers and of virtual
    devices.  The abstract operations are defined first. *)

From S2P Require Import Prelude TxSched Peers PeersInv PeersRun.

Local Open Scope c_scope.
#[local] Abbreviation ST := pdev_t.
#[local] Abbreviation mac_addr := ol_txrx_align_mac_addr_t.

(** ** The abstract operations *)

Definition a_hold (e : option apeer) (A : abs) : abs :=
  match e with Some e => set_a_held (a_at e :: a_held A) A | None => A end.
Definition at_or_0 (e : option apeer) : Z := match e with Some e => a_at e | None => 0 end.

(** [a_release]: one of the references is given up *)
Fixpoint remove1 (p : Z) (l : list Z) : list Z :=
  match l with [] => [] | q :: l => if q =? p then l else q :: remove1 p l end.
Definition a_release (p : Z) (A : abs) : abs := a_drop p (set_a_held (remove1 p (a_held A)) A).

Definition a_state_update (mac : mac_addr) (st : ol_txrx_peer_state) (A : abs) : abs :=
  match a_find mac true A with Some e => a_upd (a_at e) (with_state st) A | None => A end.

(** A new id for the first peer with the address, attached or not *)
Definition a_map_id (id : Z) (mac : mac_addr) (A : abs) : abs :=
  match a_find mac false A with
  | Some e => set_a_map (upd (a_map A) id (a_at e)) (a_upd (a_at e) (fun e => with_given (a_given e ++ [id]) e) A)
  | None => A
  end.
Definition a_unmap_id (id : Z) (A : abs) : abs :=
  match aget (a_map A) id with
  | Some p => let A := set_a_map (upd (a_map A) id 0) A in if p =? 0 then A else a_drop p A
  | None => A
  end.

Definition a_last (v : Z) (A : abs) : Z := match a_vdevs A !! v with Some a => av_last a | None => 0 end.
Definition set_a_last (v p : Z) (A : abs) : abs :=
  match a_vdevs A !! v with
  | Some a => set_a_vdevs (<[v := {| av_mac := av_mac a; av_deleting := av_deleting a; av_last := p |}]> (a_vdevs A)) A
  | None => A
  end.
Definition a_assoc (v : Z) (A : abs) : option apeer :=
  match a_peer A (a_last v A) with
  | Some e => if bool_decide (a_given e = []) then None else Some e
  | None => None
  end.

(** The new peer, before the update of its state *)
Definition a_add (v : Z) (mac : mac_addr) (p : Z) (A : abs) : abs :=
  let e := {| a_at := p; a_vdev := v; a_mac := mac; a_attached := true; a_given := []; a_state := ol_txrx_peer_state_invalid |} in
  let A' := set_a_peers (a_peers A ++ [e]) A in
  match a_vdevs A !! v with
  | Some a => if bool_decide (av_mac a = mac) then A' else set_a_last v p A'
  | None => A'
  end.
Definition a_attach (v : Z) (mac : mac_addr) (p : Z) (A : abs) : abs :=
  a_state_update mac ol_txrx_peer_state_disc (a_add v mac p A).

Definition a_detach (p : Z) (A : abs) : abs :=
  match a_peer A p with
  | Some e =>
      let A := if a_last (a_vdev e) A =? p then set_a_last (a_vdev e) 0 A else A in
      a_drop p (a_upd p (with_attached false) A)
  | None => A
  end.

Definition a_vdev_attach (v : Z) (mac : mac_addr) (A : abs) : abs :=
  set_a_vdevs (<[v := {| av_mac := mac; av_deleting := None; av_last := 0 |}]> (a_vdevs A)) A.
Definition a_vdev_detach (v : Z) (cb : option Z) (A : abs) : abs :=
  match a_vdevs A !! v with
  | Some a => v_drop v (set_a_vdevs (<[v := {| av_mac := av_mac a; av_deleting := Some cb; av_last := av_last a |}]> (a_vdevs A)) A)
  | None => A
  end.

(** ** Frames *)

Section Ops.
Context (cfg : txrx_cfg).
Implicit Types (A : abs) (s : ST) (p v : Z).

Lemma core_calls A s cs : core cfg A s -> omap deleted_of cs = [] -> core cfg A (set_calls (calls s ++ cs) s).
Proof. intros Hc Hcs. destruct Hc. split; try done. cbn. by rewrite omap_app, Hcs, app_nil_r. Qed.

(** One peer and the references held change, no id does. *)
Lemma core_peer A s p e f x' h : core cfg A s -> e ∈ a_peers A -> a_at e = p ->
  (forall e, a_at (f e) = a_at e /\ a_vdev (f e) = a_vdev e /\ a_mac (f e) = a_mac e /\ a_given (f e) = a_given e) ->
  (a_attached (f e) = a_attached e \/ a_last (a_vdev e) A <> p) ->
  (Z.of_nat (length h) <= 1048576 /\ forall q, q ∈ h -> q ∈ a_at <$> a_peers A) ->
  (forall q, q <> p -> count q h = count q (a_held A)) ->
  let A' := set_a_held h (a_upd p f A) in
  peer_rel A' (f e) x' -> core cfg A' (set_peers (<[p := x']> (peers s)) s).
Proof.
  intros Hc He Hat Hf Hlast Hh Hcnt A' Hx'. pose proof (co_map _ _ _ Hc) as [Hmap Hlen].
  assert (Huniq : forall e', e' ∈ a_peers A -> a_at e' = p -> e' = e).
  { intros e' He' Hat'. apply (at_inj A); [apply Hc|done|done|congruence]. }
  rewrite <- (set_id_map_same (set_peers (<[p := x']> (peers s)) s) (a_map A)) by done.
  apply (core_upd cfg A s p f x' (a_map A) h); try done.
  - rewrite <- Hat. by apply in_at.
  - intros e'. by destruct (Hf e') as (? & ? & ? & ?).
  - intros e' v a He' Hat' Ha Hl. rewrite (Huniq e' He' Hat'). destruct Hlast as [?|Hne]; [done|].
    destruct (core_vdev _ _ _ _ _ Hc Ha) as (d & _ & Hr). destruct (vr_last_live _ _ _ _ Hr) as (e2 & He2 & Hat2 & _ & Hv2).
    { rewrite Hl, <- Hat. by apply (co_null _ _ _ Hc). }
    rewrite Hl in Hat2. rewrite (Huniq e2 He2 Hat2) in Hv2. subst v. unfold a_last in Hne. by rewrite Ha in Hne.
  - intros id q Hq Hne. destruct (co_mapped _ _ _ Hc id q Hq Hne) as (e' & ? & ? & ?). exists e'. split_and!; [done..|].
    destruct (a_at e' =? p); [|done]. by rewrite (proj2 (proj2 (proj2 (Hf e')))).
  - intros e' He' Hne. split; [done|by apply Hcnt].
  - intros e' He' Hat'. by rewrite (Huniq e' He' Hat').
Qed.

(** A peer whose changes are not represented *)
Lemma core_same A s p x x' : core cfg A s -> peers s !! p = Some x ->
  (forall e, peer_rel A e x -> peer_rel A e x') -> core cfg A (set_peers (<[p := x']> (peers s)) s).
Proof.
  intros Hc Hx Hx'. destruct (core_entry _ _ _ _ _ Hc Hx) as (e & He & Hat & Hr).
  assert (H1 : core cfg (set_a_held (a_held A) (a_upd p id A)) (set_peers (<[p := x']> (peers s)) s)).
  { apply (core_peer A s p e); try done; [by left|apply Hc|]. rewrite a_upd_id. replace (set_a_held (a_held A) A) with A by (by destruct A).
    unfold id. auto. }
  rewrite a_upd_id in H1. by destruct A.
Qed.

(** A virtual device whose changes are not represented *)
Lemma core_vsame A s v d d' : core cfg A s -> vdevs s !! v = Some d ->
  v_mac d' = v_mac d -> peer_list d' = peer_list d -> last_real_peer d' = last_real_peer d ->
  delete_pending d' = delete_pending d -> delete_callback d' = delete_callback d ->
  core cfg A (set_vdevs (<[v := d']> (vdevs s)) s).
Proof.
  intros Hc Hd H1 H2 H3 H4 H5. pose proof (co_vdev _ _ _ Hc) as Hvd. destruct Hc. split; try done. intros w. specialize (Hvd w) as Hw. cbn.
  destruct (decide (w = v)) as [->|Hne]; [|by rewrite lookup_insert_ne]. rewrite lookup_insert_eq. rewrite Hd in Hw.
  destruct (a_vdevs A !! v); [|done]. destruct Hw. split; rewrite ?H1, ?H2, ?H3, ?H4, ?H5; done.
Qed.

Lemma lids_calls who s cs : lids_ok who s -> lids_ok who (set_calls cs s).
Proof. intros H. exact H. Qed.

Lemma rep_calls A s cs : rep cfg A s -> omap deleted_of cs = [] -> rep cfg A (set_calls (calls s ++ cs) s).
Proof. intros [Hc Hl] Hcs. split; [by apply core_calls|by apply lids_calls]. Qed.

Lemma rep_same A s p x x' : rep cfg A s -> peers s !! p = Some x ->
  (forall e, peer_rel A e x -> peer_rel A e x') -> local_id x' = local_id x -> rep cfg A (set_peers (<[p := x']> (peers s)) s).
Proof.
  intros [Hc Hl] Hx Hx' Hid. split; [by eapply core_same|]. destruct (core_entry _ _ _ _ _ Hc Hx) as (e & He & Hat & Hr).
  eapply lids_upd; try done. by rewrite (pr_valid _ _ _ Hr), (pr_valid _ _ _ (Hx' e Hr)).
Qed.

Lemma rep_peer A s p e x f x' h : rep cfg A s -> e ∈ a_peers A -> a_at e = p -> peers s !! p = Some x ->
  (forall e, a_at (f e) = a_at e /\ a_vdev (f e) = a_vdev e /\ a_mac (f e) = a_mac e /\ a_given (f e) = a_given e) ->
  a_attached (f e) = a_attached e -> local_id x' = local_id x ->
  (Z.of_nat (length h) <= 1048576 /\ forall q, q ∈ h -> q ∈ a_at <$> a_peers A) ->
  (forall q, q <> p -> count q h = count q (a_held A)) ->
  let A' := set_a_held h (a_upd p f A) in
  peer_rel A' (f e) x' -> rep cfg A' (set_peers (<[p := x']> (peers s)) s).
Proof.
  intros [Hc Hl] He Hat Hx Hf Ha Hid Hh Hcnt A' Hr'. split; [eapply core_peer; eauto|]. eapply lids_upd; try done.
  rewrite <- Hat in Hx. rewrite (pr_valid _ _ _ Hr'), Ha. symmetry. apply (pr_valid A). by eapply core_at.
Qed.

(** Nothing that has claims disappears. *)
Lemma a_drop_claimed A s p : core cfg A s -> a_drop p A = A.
Proof.
  intros Hc. unfold a_drop. destruct (a_peer A p) as [e|] eqn:He; [|done]. apply find_Some_in in He as [He _].
  pose proof (claims_bound _ _ _ _ Hc He). by replace (claims A e =? 0) with false by lia.
Qed.

(** ** Look-ups that keep a reference *)

Definition room A : Prop := Z.of_nat (length (a_held A)) < 1048576.

Lemma rep_hold A s e x : rep cfg A s -> e ∈ a_peers A -> peers s !! a_at e = Some x -> room A ->
  rep cfg (a_hold (Some e) A) (set_peers (<[a_at e := set_ref_cnt (s32 (ref_cnt x + 1)) x]> (peers s)) s).
Proof. intros [Hc Hl] He Hx Hr. split; [by apply core_hold|]. by eapply lids_upd. Qed.

Lemma hash_find_rep A s mac cv : rep cfg A s -> mac_ok mac -> room A ->
  runs (ol_txrx_peer_find_hash_find mac cv) s (fun r s' => rep cfg (a_hold (a_find mac cv A) A) s' /\ r = at_or_0 (a_find mac cv A)).
Proof.
  intros Hrep Hm Hroom. eapply runs_mono; [apply (hash_find_spec cfg A); [apply Hrep|done]|]. intros r s'.
  destruct (a_find mac cv A) as [e|] eqn:Hf; [|by intros [-> ->]].
  intros (-> & x & Hx & ->). apply find_Some_in in Hf as [He _]. split; [by apply rep_hold|done].
Qed.

Lemma vdev_find_rep A s v mac cv : rep cfg A s -> mac_ok mac -> room A ->
  runs (ol_txrx_peer_vdev_find_hash v mac cv) s (fun r s' => rep cfg (a_hold (a_vfind v mac cv A) A) s' /\ r = at_or_0 (a_vfind v mac cv A)).
Proof.
  intros Hrep Hm Hroom. eapply runs_mono; [apply (vdev_find_spec cfg A); [apply Hrep|done]|]. intros r s'.
  destruct (a_vfind v mac cv A) as [e|] eqn:Hf; [|by intros [-> ->]].
  intros (-> & x & Hx & ->). apply find_Some_in in Hf as [He _]. split; [by apply rep_hold|done].
Qed.

Lemma first_id l : (length l <= 8)%nat -> exists i, aget (id_slots l) 0 = Some i /\
  ((i = HTT_INVALID_PEER /\ l = []) \/ (l <> [] /\ head l = Some i)).
Proof.
  destruct l as [|i l]; intros _; [exists HTT_INVALID_PEER; split; [done|by left]|]. exists i. split; [done|by right].
Qed.

Lemma assoc_find_rep A s v : rep cfg A s -> is_Some (a_vdevs A !! v) -> room A ->
  runs (ol_txrx_assoc_peer_find v) s (fun r s' => rep cfg (a_hold (a_assoc v A) A) s' /\ r = at_or_0 (a_assoc v A)).
Proof.
  intros [Hc Hl] [a Ha] Hroom. destruct (core_vdev _ _ _ _ _ Hc Ha) as (d & Hd & Hr). unfold ol_txrx_assoc_peer_find.
  mstep. eapply runs_get_vdev; [done|]. cbn beta zeta. rewrite (vr_last _ _ _ _ Hr). unfold a_assoc, a_last. rewrite Ha.
  destruct (Z.eqb_spec (av_last a) 0) as [Hz|Hnz].
  - mstep. assert (Hn : a_peer A (av_last a) = None).
    { unfold a_peer. apply find_None_iff. intros e He. apply Z.eqb_neq. rewrite Hz. by apply (co_null _ _ _ Hc). }
    by rewrite Hn.
  - destruct (vr_last_live _ _ _ _ Hr Hnz) as (e & He & Hat & Hatt & _). destruct (co_peer _ _ _ Hc e He) as (x & Hx & Hpr).
    rewrite <- Hat, a_peer_in by (done || apply Hc). mstep. eapply runs_get_peer; [done|]. cbn beta.
    rewrite (pr_ids _ _ _ Hpr). destruct (first_id (a_given e)) as (i & Hi & Hcase); [apply Hpr|]. mstep.
    eapply runs_oget; [done|]. destruct Hcase as [[-> Hnil]|[Hne Hhd]].
    + rewrite Hnil, Z.eqb_refl. cbn [negb]. by mstep.
    + rewrite bool_decide_false by done. replace (i =? HTT_INVALID_PEER) with false.
      * cbn [negb]. mstep. eapply runs_ref_add; [done|]. mstep. split; [|done]. by apply rep_hold.
      * symmetry. apply Z.eqb_neq. intros ->. apply (proj2 (pr_given _ _ _ Hpr)). destruct (a_given e); [done|]. cbn in Hhd.
        injection Hhd as ->. by left.
Qed.

(** ** Look-ups that give the reference back *)

Lemma ref_round A s p x : core cfg A s -> peers s !! p = Some x ->
  s32 (s32 (ref_cnt x + 1) + -1) = ref_cnt x.
Proof. intros Hc Hx. pose proof (ref_range _ _ _ _ _ Hc Hx). rewrite (s32_small (ref_cnt x + 1)), s32_small by lia. lia. Qed.

Lemma set_ref_same x n : n = ref_cnt x -> set_ref_cnt n x = x.
Proof. intros ->. by destruct x. Qed.

Lemma set_peers_same s p x : peers s !! p = Some x -> set_peers (<[p := x]> (peers s)) s = s.
Proof. intros Hx. rewrite insert_id by done. by destruct s. Qed.

Lemma find_by_addr_rep A s mac : core cfg A s -> mac_ok mac ->
  runs (ol_txrx_find_peer_by_addr mac) s (fun r s' => s' = s /\
    match a_find mac true A with
    | Some e => exists x, peers s !! a_at e = Some x /\ r = (a_at e, Some (u8 (local_id x)))
    | None => r = (0, None)
    end).
Proof.
  intros Hc Hm. unfold ol_txrx_find_peer_by_addr. mstep. eapply runs_mono; [by apply (hash_find_spec cfg A)|]. intros r s'.
  destruct (a_find mac true A) as [e|] eqn:Hf; [|intros [-> ->]; rewrite Z.eqb_refl; by mstep].
  intros (-> & x & Hx & ->). apply find_Some_in in Hf as [He _].
  replace (a_at e =? 0) with false by (symmetry; apply Z.eqb_neq; by apply (co_null _ _ _ Hc)).
  mstep. eapply runs_get_peer; [cbn; by rewrite lookup_insert_eq|]. cbn beta. mstep.
  eapply runs_ref_add; [cbn; by rewrite lookup_insert_eq|]. mstep. split; [|eauto].
  cbn [peers set_peers]. rewrite insert_insert_eq. cbn [ref_cnt set_ref_cnt]. rewrite (ref_round _ _ _ _ Hc Hx).
  etrans; [|by apply (set_peers_same s (a_at e) x)]. by destruct x.
Qed.

Lemma find_by_addr_and_vdev_rep A s v mac : core cfg A s -> mac_ok mac ->
  runs (ol_txrx_find_peer_by_addr_and_vdev v mac) s (fun r s' => s' = s /\
    match a_vfind v mac true A with
    | Some e => exists x, peers s !! a_at e = Some x /\ r = (a_at e, Some (u8 (local_id x)))
    | None => r = (0, None)
    end).
Proof.
  intros Hc Hm. unfold ol_txrx_find_peer_by_addr_and_vdev. mstep. eapply runs_mono; [by apply (vdev_find_spec cfg A)|]. intros r s'.
  destruct (a_vfind v mac true A) as [e|] eqn:Hf; [|intros [-> ->]; rewrite Z.eqb_refl; by mstep].
  intros (-> & x & Hx & ->). apply find_Some_in in Hf as [He _].
  replace (a_at e =? 0) with false by (symmetry; apply Z.eqb_neq; by apply (co_null _ _ _ Hc)).
  mstep. eapply runs_get_peer; [cbn; by rewrite lookup_insert_eq|]. cbn beta. mstep.
  eapply runs_ref_add; [cbn; by rewrite lookup_insert_eq|]. mstep. split; [|eauto].
  cbn [peers set_peers]. rewrite insert_insert_eq. cbn [ref_cnt set_ref_cnt]. rewrite (ref_round _ _ _ _ Hc Hx).
  etrans; [|by apply (set_peers_same s (a_at e) x)]. by destruct x.
Qed.

Lemma unref_rep A s p h : rep cfg A s -> a_held A = p :: h ->
  runs (ol_txrx_peer_unref_delete cfg p) s (fun _ s' => rep cfg (a_drop p (set_a_held h A)) s').
Proof.
  intros [Hc Hl] Hh. eapply runs_mono; [by eapply unref_spec|]. intros _ s' [Hc' Hl']. split; [done|by apply Hl'].
Qed.

Lemma hold_release A e : set_a_held (a_held A) (a_hold (Some e) A) = A.
Proof. by destruct A. Qed.

Lemma peer_find_by_addr_rep A s mac : rep cfg A s -> mac_ok mac -> room A ->
  runs (ol_txrx_peer_find_by_addr cfg mac) s (fun r s' => rep cfg A s' /\ r = at_or_0 (a_find mac false A)).
Proof.
  intros Hrep Hm Hroom. unfold ol_txrx_peer_find_by_addr. mstep. eapply runs_mono; [by apply hash_find_rep|].
  intros r s' [Hrep' ->]. destruct (a_find mac false A) as [e|] eqn:Hf; cbn [at_or_0]; [|rewrite Z.eqb_refl; cbn [negb]; by mstep].
  apply find_Some_in in Hf as [He _].
  replace (a_at e =? 0) with false by (symmetry; apply Z.eqb_neq; by apply (co_null _ _ _ (proj1 Hrep))).
  cbn [negb]. mstep. eapply runs_mono; [by eapply unref_rep|]. cbn beta. intros _ s2 Hrep2. mstep.
  rewrite hold_release in Hrep2. by rewrite (a_drop_claimed A s) in Hrep2 by apply Hrep.
Qed.

(** ** The state of a peer *)

(** Local ids and the validity of peers are as before. *)
Definition lid_frame s s' : Prop :=
  lid_pool s' = lid_pool s /\ lid_freelist s' = lid_freelist s /\ lid_map s' = lid_map s
  /\ forall p, (fun x => (valid x, local_id x)) <$> peers s' !! p = (fun x => (valid x, local_id x)) <$> peers s !! p.

Lemma lid_frame_lids s s' (f : gmap Z ol_txrx_peer_t -> gmap Z ol_txrx_peer_t) :
  (forall m p, f m !! p = m !! p \/ forall m', f m' !! p = None) -> lid_frame s s' -> lids_ok (f (peers s)) s -> lids_ok (f (peers s')) s'.
Proof.
  intros Hf (H1 & H2 & H3 & Hp) Hl.
  assert (Hg : forall p, (fun x => (valid x, local_id x)) <$> f (peers s') !! p = (fun x => (valid x, local_id x)) <$> f (peers s) !! p).
  { intros p. destruct (Hf (peers s') p) as [E1|E1]; [|by rewrite !E1]. destruct (Hf (peers s) p) as [E2|E2]; [|by rewrite !E2].
    by rewrite E1, E2. }
  eapply lids_same; [done..| |].
  - intros p x Hx Hv. specialize (Hg p). rewrite Hx in Hg. apply fmap_Some in Hg as (x' & Hx' & [= Hv' Hi']). exists x'. by rewrite <- Hv', <- Hi'.
  - intros p x' Hx' Hv. specialize (Hg p). rewrite Hx' in Hg. symmetry in Hg. apply fmap_Some in Hg as (x & Hx & [= Hv' Hi']).
    exists x. by rewrite <- Hv', <- Hi'.
Qed.

Lemma lid_frame_rep A A' s s' : rep cfg A s -> core cfg A' s' -> lid_frame s s' -> rep cfg A' s'.
Proof. intros [Hc Hl] Hc' Hf. split; [done|]. apply (lid_frame_lids s s' id); [by left|done|done]. Qed.

Lemma lid_frame_upd s p x x' : peers s !! p = Some x -> valid x' = valid x -> local_id x' = local_id x ->
  lid_frame s (set_peers (<[p := x']> (peers s)) s).
Proof.
  intros Hx Hv Hi. split_and!; [done..|]. intros q. cbn. destruct (decide (q = p)) as [->|Hne].
  - rewrite lookup_insert_eq, Hx. cbn. by rewrite Hv, Hi.
  - by rewrite lookup_insert_ne.
Qed.

Lemma a_upd_at_in A e (f : apeer -> apeer) : NoDup (a_at <$> a_peers A) -> e ∈ a_peers A -> f e = e -> a_upd (a_at e) f A = A.
Proof.
  intros Hnd He Hf. unfold a_upd, set_a_peers. destruct A as [l V m h d]; cbn in *. f_equal. rewrite <- (list_fmap_id l) at 2.
  apply list_fmap_ext. intros i e' Hi. destruct (Z.eqb_spec (a_at e') (a_at e)) as [Heq|]; [|done].
  apply list_elem_of_lookup_2 in Hi. assert (e' = e) as -> by (by apply (at_inj {| a_peers := l; a_vdevs := V; a_map := m; a_held := h; a_deleted := d |})).
  by rewrite Hf.
Qed.

Lemma state_update_spec A s mac st : core cfg A s -> mac_ok mac ->
  runs (ol_txrx_peer_state_update cfg mac st) s (fun _ s' => core cfg (a_state_update mac st A) s' /\ lid_frame s s'
    /\ self_peer s' = self_peer s /\ vdevs s' = vdevs s /\ dom (peers s') = dom (peers s)).
Proof.
  intros Hc Hm. unfold ol_txrx_peer_state_update. mstep. eapply runs_mono; [by apply (hash_find_spec cfg A)|]. intros r s'.
  unfold a_state_update. destruct (a_find mac true A) as [e|] eqn:Hf; [|intros [-> ->]; rewrite Z.eqb_refl; by mstep].
  intros (-> & x & Hx & ->). apply find_Some_in in Hf as [He _].
  replace (a_at e =? 0) with false by (symmetry; apply Z.eqb_neq; by apply (co_null _ _ _ Hc)).
  mstep. eapply runs_get_peer; [cbn; by rewrite lookup_insert_eq|]. cbn beta. cbn [p_state set_ref_cnt].
  pose proof (core_at _ _ _ _ _ Hc He Hx) as Hr. rewrite (pr_state _ _ _ Hr). case_bool_decide as Hst.
  - mstep. eapply runs_ref_add; [cbn; by rewrite lookup_insert_eq|]. mstep. set (s2 := set_peers _ _).
    rewrite (a_upd_at_in A e) by (done || apply Hc || by destruct e; cbn in *; subst).
    assert (Heq : s2 = s); [|by rewrite Heq]. unfold s2. cbn [peers set_peers ref_cnt set_ref_cnt].
    rewrite insert_insert_eq, (ref_round _ _ _ _ Hc Hx). etrans; [|by apply (set_peers_same s (a_at e) x)]. by destruct x.
  - mstep. eapply runs_upd_peer; [cbn; by rewrite lookup_insert_eq|]. mstep.
    destruct (co_owner _ _ _ Hc e He) as [a Ha]. destruct (core_vdev _ _ _ _ _ Hc Ha) as (d & Hd & Hvr).
    eapply runs_get_vdev; [cbn; by rewrite (pr_vdev _ _ _ Hr)|]. cbn beta. mstep.
    set (filt := Some _). set (s1 := set_peers _ _).
    eapply runs_mono with (Q := fun _ s2 => exists cs, s2 = set_calls (calls s1 ++ cs) s1 /\ omap deleted_of cs = []).
    { destruct (_ && _); [|mstep; exists []; rewrite app_nil_r; by destruct s1].
      mstep. unfold emit at 1. mstep. apply runs_mfor_emit. cbn [calls set_calls]. rewrite <- app_assoc. eexists. split; [done|].
      rewrite omap_app. by rewrite omap_other. }
    intros _ s2 (cs & -> & Hcs). mstep. unfold s1. cbn [peers set_peers]. rewrite insert_insert_eq.
    eapply runs_ref_add; [cbn; by rewrite lookup_insert_eq|]. eapply runs_upd_peer; [cbn; by rewrite lookup_insert_eq|].
    cbn [peers set_peers set_calls calls ref_cnt set_ref_cnt set_tx_filter]. rewrite !insert_insert_eq, (ref_round _ _ _ _ Hc Hx).
    set (x' := set_p_state _ _). assert (Hx' : x' = set_p_state st (set_tx_filter filt x)) by (unfold x'; by destruct x).
    split_and!; try done.
    + rewrite Hx'. apply (core_calls _ (set_peers _ s)); [|done].
      replace (a_upd (a_at e) (with_state st) A) with (set_a_held (a_held A) (a_upd (a_at e) (with_state st) A)) by (by destruct A).
      eapply core_peer; try done; [by left|apply Hc|]. by destruct Hr; split.
    + split_and!; try done. cbn. intros q. destruct (decide (q = a_at e)) as [->|Hne]; [by rewrite lookup_insert_eq, Hx, Hx'|by rewrite lookup_insert_ne].
    + cbn. rewrite dom_insert_lookup_L; [done|by eexists].
Qed.

Lemma state_update_rep A s mac st : rep cfg A s -> mac_ok mac ->
  runs (ol_txrx_peer_state_update cfg mac st) s (fun _ s' => rep cfg (a_state_update mac st A) s').
Proof.
  intros Hrep Hm. eapply runs_mono; [apply state_update_spec; [apply Hrep|done]|]. intros _ s' (Hc & Hf & _). by eapply lid_frame_rep.
Qed.

(** Updates the specification does not see *)
Lemma info_update_rep A s p f : rep cfg A s -> p ∈ a_at <$> a_peers A ->
  (forall i, length (own_array (f i)) = length (own_array i)) -> runs (upd_info p f) s (fun _ s' => rep cfg A s').
Proof.
  intros Hrep Hp Hf. destruct (core_in_at cfg A s p (proj1 Hrep) Hp) as (e & x & He & Hat & Hx & Hr).
  eapply runs_upd_info; [done|]. eapply rep_same; try done. intros e' Hr'. destruct Hr'. split; try done. cbn. by rewrite Hf.
Qed.

Lemma peer_update_rep A s v mac param : rep cfg A s -> mac_ok mac -> room A -> is_Some (a_vdevs A !! v) ->
  runs (ol_txrx_peer_update v mac param) s (fun _ s' => rep cfg A s').
Proof.
  intros Hrep Hm Hroom [a Ha]. unfold ol_txrx_peer_update. destruct (core_vdev _ _ _ _ _ (proj1 Hrep) Ha) as (d & Hd & _).
  mstep. eapply runs_get_vdev; [done|]. cbn beta. mstep. eapply runs_mono; [by apply (hash_find_rep A)|].
  intros r s' [Hrep' ->]. destruct (a_find mac true A) as [e|] eqn:Hf; cbn [at_or_0]; [|rewrite Z.eqb_refl; by mstep].
  apply find_Some_in in Hf as [He _].
  replace (a_at e =? 0) with false by (symmetry; apply Z.eqb_neq; by apply (co_null _ _ _ (proj1 Hrep))). mstep.
  eapply runs_mono with (Q := fun _ s2 => rep cfg (a_hold (Some e) A) s2).
  { destruct param; try (by mstep); (apply info_update_rep; [done|by apply in_at|done]). }
  intros _ s2 [Hc2 Hl2]. mstep. destruct (co_peer _ _ _ Hc2 e He) as (x & Hx & Hr). eapply runs_ref_add; [done|]. mstep.
  pose proof (pr_ref _ _ _ Hr) as Href. pose proof (ref_range _ _ _ _ _ Hc2 Hx) as Hrng.
  destruct (co_peer _ _ _ (proj1 Hrep) e He) as (x0 & Hx0 & Hr0). pose proof (pr_ref _ _ _ Hr0). pose proof (pr_claimed _ _ _ Hr0).
  assert (Hone : ref_cnt x = claims A e + 1). { rewrite Href. unfold claims. cbn. rewrite count_cons, decide_True by done. lia. }
  rewrite s32_small by lia. split; [|by eapply lids_upd].
  pose proof (core_held_change cfg _ s2 (a_at e) x (a_held A) Hc2 Hx) as H1. cbn [a_hold a_held set_a_held] in H1.
  rewrite count_cons, decide_True in H1 by done. cbn zeta in H1.
  replace (ref_cnt x + count (a_at e) (a_held A) - (1 + count (a_at e) (a_held A))) with (ref_cnt x + -1) in H1 by lia.
  replace A with (set_a_held (a_held A) (set_a_held (a_at e :: a_held A) A)) by (by destruct A).
  apply H1; [apply (proj1 Hrep)| |lia]. intros q Hq. by rewrite count_cons, decide_False.
Qed.

(** ** The firmware's messages *)

Lemma unref_many s p x : peers s !! p = Some x -> p_vdev x <> 0 -> 1 < ref_cnt x < 2 ^ 31 ->
  runs (ol_txrx_peer_unref_delete cfg p) s (fun _ s' => s' = set_peers (<[p := set_ref_cnt (ref_cnt x - 1) x]> (peers s)) s).
Proof.
  intros Hx Hv Hr. unfold ol_txrx_peer_unref_delete. mstep. eapply runs_get_peer; [done|]. cbn beta zeta.
  replace (p_vdev x =? 0) with false by lia. mstep. eapply runs_massert; [by replace (ref_cnt x =? 0) with false by lia|].
  mstep. eapply runs_ref_add; [done|]. rewrite s32_small by lia. replace (ref_cnt x + -1 =? 0) with false by lia. by mstep.
Qed.

Lemma id_slots_snoc g id : (length g < 8)%nat -> <[length g := id]> (id_slots g) = id_slots (g ++ [id]).
Proof.
  intros Hg. unfold id_slots. rewrite length_app. cbn [length]. replace (8 - length g)%nat with (Datatypes.S (8 - (length g + 1))) by lia.
  cbn [replicate]. rewrite <- (Nat.add_0_r (length g)) at 1. by rewrite insert_app_r, <- app_assoc.
Qed.

Lemma add_id_spec s p x g id : peers s !! p = Some x -> peer_ids x = id_slots g -> (length g < 8)%nat -> HTT_INVALID_PEER ∉ g ->
  runs (ol_txrx_peer_find_add_id_to_obj p id) s (fun r s' => r = 0 /\ s' = set_peers (<[p := set_peer_ids (id_slots (g ++ [id])) x]> (peers s)) s).
Proof.
  intros Hx Hids Hg Hnin. unfold ol_txrx_peer_find_add_id_to_obj.
  apply (runs_miter (fun i s' => s' = s /\ 0 <= i <= Z.of_nat (length g)) (fun i _ => Z.to_nat (Z.of_nat (length g) - i))); [|by split; [|lia]|lia].
  intros i s' [-> Hi]. replace (MAX_NUM_PEER_ID_PER_PEER <=? i) with false by (unfold MAX_NUM_PEER_ID_PER_PEER; lia).
  mstep. eapply runs_get_peer; [done|]. cbn beta. rewrite Hids.
  assert (Hlen : Z.of_nat (length (id_slots g)) = 8) by (unfold id_slots; rewrite length_app, length_replicate; lia).
  destruct (decide (i = Z.of_nat (length g))) as [->|Hne].
  - assert (Hget : aget (id_slots g) (Z.of_nat (length g)) = Some HTT_INVALID_PEER).
    { rewrite aget_nat. unfold id_slots. rewrite lookup_app_r, Nat.sub_diag by lia. apply lookup_replicate. lia. }
    rewrite Hget. mstep. mstep. rewrite Z.eqb_refl. mstep. eapply runs_oget; [apply aset_Some; lia|].
    rewrite Nat2Z.id, id_slots_snoc by done. mstep. unfold put_peer. mstep. by mstep.
  - destruct (lookup_lt_is_Some_2 g (Z.to_nat i)) as [v Hv]; [lia|].
    assert (Hget : aget (id_slots g) i = Some v) by (rewrite aget_lookup by lia; unfold id_slots; by apply lookup_app_l_Some).
    rewrite Hget. mstep. mstep. replace (v =? HTT_INVALID_PEER) with false.
    + mstep. split; [split; [done|lia]|lia].
    + symmetry. apply Z.eqb_neq. intros ->. apply Hnin. by eapply list_elem_of_lookup_2.
Qed.

(** What the firmware must respect: a new id is free, and a peer has room for it. *)
Definition may_map (id : Z) (mac : mac_addr) A : Prop :=
  match a_find mac false A with
  | Some e => aget (a_map A) id = Some 0 /\ (length (a_given e) < 8)%nat
  | None => True
  end.

Lemma map_fresh A s e : core cfg A s -> e ∈ a_peers A -> a_given e = [] -> count (a_at e) (a_map A) = 0.
Proof.
  intros Hc He Hg. apply count_zero. intros [i Hi]%list_elem_of_lookup. rewrite <- aget_nat in Hi.
  destruct (co_mapped _ _ _ Hc _ _ Hi) as (e' & He' & Hat & Hid); [by apply (co_null _ _ _ Hc)|].
  assert (e' = e) as -> by (apply (at_inj A); [apply Hc|done..]). rewrite Hg in Hid. by apply elem_of_nil in Hid.
Qed.

Lemma claims_map A e id : a_at e <> 0 -> aget (a_map A) id = Some 0 -> (a_given e = [] -> count (a_at e) (a_map A) = 0) ->
  let f := fun e => with_given (a_given e ++ [id]) e in
  claims (set_a_map (upd (a_map A) id (a_at e)) (a_upd (a_at e) f A)) (f e) = claims A e + if bool_decide (a_given e = []) then 0 else 1.
Proof.
  intros Hne Hget Hz f. unfold claims. cbn. rewrite (count_upd _ _ _ 0) by done.
  destruct (decide (0 = a_at e)); [lia|]. rewrite decide_True by done.
  rewrite (bool_decide_false (_ ++ _ = [])) by (by destruct (a_given e)). case_bool_decide; [rewrite Hz by done|]; lia.
Qed.

(** The state in which the id is entered *)
Lemma core_map A s e x id : core cfg A s -> e ∈ a_peers A -> peers s !! a_at e = Some x ->
  aget (a_map A) id = Some 0 -> (length (a_given e) < 8)%nat -> id <> HTT_INVALID_PEER ->
  let f := fun e => with_given (a_given e ++ [id]) e in
  let n := ref_cnt x + if bool_decide (a_given e = []) then 0 else 1 in
  core cfg (set_a_map (upd (a_map A) id (a_at e)) (a_upd (a_at e) f A))
    (set_id_map (upd (a_map A) id (a_at e)) (set_peers (<[a_at e := set_peer_ids (id_slots (a_given e ++ [id])) (set_ref_cnt n x)]> (peers s)) s)).
Proof.
  intros Hc He Hx Hget Hg Hid f n. pose proof (co_null _ _ _ Hc e He) as Hnz. pose proof (core_at _ _ _ _ _ Hc He Hx) as Hr.
  assert (Huniq : forall e', e' ∈ a_peers A -> a_at e' = a_at e -> e' = e) by (intros; apply (at_inj A); [apply Hc|done..]).
  pose proof (core_upd cfg A s (a_at e) f (set_peer_ids (id_slots (a_given e ++ [id])) (set_ref_cnt n x)) (upd (a_map A) id (a_at e)) (a_held A)) as H1.
  cbn zeta in H1. match goal with |- core _ ?A' _ => replace A' with (set_a_held (a_held A) A') by done end. apply H1; clear H1; try done.
  - by apply in_at.
  - rewrite length_upd. by apply (co_map _ _ _ Hc).
  - intros i q. rewrite aget_upd by (by apply aget_Some_range in Hget). case_decide as Hi.
    + intros [= <-] _. exists e. rewrite Z.eqb_refl. split_and!; try done. cbn. subst i. set_solver.
    + intros Hq Hne. destruct (co_mapped _ _ _ Hc i q Hq Hne) as (e' & ? & ? & ?). exists e'. split_and!; try done.
      destruct (Z.eqb_spec (a_at e') (a_at e)); [|done]. cbn. set_solver.
  - apply Hc.
  - intros e' He' Hne. split; [|done]. rewrite (count_upd _ _ _ 0) by done. rewrite !decide_False; [lia|congruence|].
    by apply not_eq_sym, (co_null _ _ _ Hc).
  - intros e' He' Hat'. rewrite (Huniq e' He' Hat'). pose proof (claims_map A e id Hnz Hget (map_fresh A s e Hc He)) as Hcl.
    cbn zeta in Hcl. fold f in Hcl. pose proof (pr_claimed _ _ _ Hr). pose proof (pr_ref _ _ _ Hr).
    assert (Hcl' : claims (set_a_held (a_held A) (set_a_map (upd (a_map A) id (a_at e)) (a_upd (a_at e) f A))) (f e) = n).
    { unfold n. rewrite H0. exact Hcl. }
    destruct Hr. split; rewrite ?Hcl'; try done; [|by unfold n; destruct (bool_decide _); lia].
    cbn. rewrite length_app. cbn [length]. split; [lia|]. set_solver.
Qed.

Lemma add_id_rep A s id mac : rep cfg A s -> mac_ok mac -> 0 <= id <= max_peer_id cfg -> may_map id mac A ->
  runs (ol_txrx_peer_find_add_id cfg mac id) s (fun _ s' => rep cfg (a_map_id id mac A) s').
Proof.
  intros Hrep Hm Hid Hmay. pose proof (proj1 Hrep) as Hc. unfold ol_txrx_peer_find_add_id. mstep.
  eapply runs_mono; [by apply (hash_find_spec cfg A)|]. intros r s'. unfold a_map_id, may_map in *.
  destruct (a_find mac false A) as [e|] eqn:Hf; [|intros [-> ->]; rewrite Z.eqb_refl; cbn [negb]; by mstep].
  intros (-> & x & Hx & ->). apply find_Some_in in Hf as [He _]. destruct Hmay as [Hget Hg].
  pose proof (co_null _ _ _ Hc e He) as Hnz. replace (a_at e =? 0) with false by (symmetry; by apply Z.eqb_neq). cbn [negb].
  pose proof (core_at _ _ _ _ _ Hc He Hx) as Hr. pose proof (ref_range _ _ _ _ _ Hc Hx) as Hrng. rewrite s32_small by lia.
  pose proof (co_max _ _ _ Hc) as Hmax. destruct (co_map _ _ _ Hc) as [Hmap Hlen].
  mstep. unfold map_write. mstep. mstep. mstep. cbn [peer_id_to_obj_map set_peers]. rewrite Hmap.
  eapply runs_oget; [apply aset_upd; lia|]. mstep. mstep. eapply runs_get_peer; [cbn; by rewrite lookup_insert_eq|]. cbn beta.
  cbn [peer_ids set_ref_cnt]. rewrite (pr_ids _ _ _ Hr). destruct (first_id (a_given e)) as (i & Hi & Hcase); [lia|]. mstep.
  eapply runs_oget; [done|]. mstep. set (s1 := set_id_map _ _).
  set (n := ref_cnt x + if bool_decide (a_given e = []) then 0 else 1).
  eapply runs_mono with (Q := fun _ s2 => s2 = set_id_map (upd (a_map A) id (a_at e)) (set_peers (<[a_at e := set_ref_cnt n x]> (peers s)) s)).
  { unfold n. destruct Hcase as [[-> Hnil]|[Hne Hhd]].
    - rewrite Z.eqb_refl, bool_decide_true by done. unfold s1.
      assert (Hv : p_vdev x <> 0).
      { rewrite (pr_vdev _ _ _ Hr). intros Hz. destruct (co_owner _ _ _ Hc e He) as [a Ha]. by rewrite Hz, (co_vnull _ _ _ Hc) in Ha. }
      eapply runs_mono; [apply (unref_many _ _ (set_ref_cnt (ref_cnt x + 1) x)); [cbn; by rewrite lookup_insert_eq|done|cbn; lia]|].
      intros _ s2 ->. cbn [peers set_id_map set_peers ref_cnt set_ref_cnt]. rewrite insert_insert_eq.
      replace (ref_cnt x + 1 - 1) with (ref_cnt x + 0) by lia. done.
    - rewrite bool_decide_false by done. replace (i =? HTT_INVALID_PEER) with false; [by mstep|].
      symmetry. apply Z.eqb_neq. intros ->. apply (proj2 (pr_given _ _ _ Hr)). destruct (a_given e); [done|]. cbn in Hhd.
      injection Hhd as ->. by left. }
  intros _ s2 ->. mstep.
  eapply runs_mono; [apply (add_id_spec _ (a_at e) (set_ref_cnt n x) (a_given e) id); [cbn; by rewrite lookup_insert_eq|apply Hr|done|apply Hr]|].
  intros r s2 [-> ->]. eapply runs_massert; [done|]. cbn [peers set_id_map set_peers]. rewrite insert_insert_eq.
  assert (Hcore := core_map A s e x id Hc He Hx Hget Hg ltac:(unfold HTT_INVALID_PEER; lia)). cbn zeta in Hcore. fold n in Hcore.
  eapply lid_frame_rep; [done|exact Hcore|]. 
  exact (lid_frame_upd s (a_at e) x (set_peer_ids (id_slots (a_given e ++ [id])) (set_ref_cnt n x)) Hx eq_refl eq_refl).
Qed.

Lemma map_handler_rep A s id vid mac : rep cfg A s -> mac_ok mac -> 0 <= id -> (id <= max_peer_id cfg -> may_map id mac A) ->
  runs (htt_t2h_peer_map cfg id vid mac) s (fun _ s' => rep cfg (if max_peer_id cfg <? id then A else a_map_id id mac A) s').
Proof.
  intros Hrep Hm Hid Hmay. unfold htt_t2h_peer_map. destruct (Z.ltb_spec (max_peer_id cfg) id); [by mstep|].
  unfold ol_rx_peer_map_handler. mstep. eapply runs_mono; [apply add_id_rep; [done|done|lia|by apply Hmay]|]. intros [] s' Hrep'.
  rewrite andb_false_r. by mstep.
Qed.

(** Clearing an id leaves a reference to give up. *)
Lemma core_unmap A s id p : core cfg A s -> room A -> aget (a_map A) id = Some p -> p <> 0 ->
  core cfg (set_a_held (p :: a_held A) (set_a_map (upd (a_map A) id 0) A)) (set_id_map (upd (a_map A) id 0) s).
Proof.
  intros Hc Hroom Hget Hp. destruct (co_mapped _ _ _ Hc id p Hget Hp) as (e & He & Hat & Hid).
  destruct (co_peer _ _ _ Hc e He) as (x & Hx & Hr). rewrite Hat in Hx.
  assert (Hg : a_given e <> []) by (intros Hg; rewrite Hg in Hid; by apply elem_of_nil in Hid).
  pose proof (core_upd cfg A s p (@Datatypes.id apeer) x (upd (a_map A) id 0) (p :: a_held A)) as H1. cbn zeta in H1.
  rewrite a_upd_id in H1. rewrite (set_peers_same s p x Hx) in H1. apply H1; clear H1; try done.
  - rewrite <- Hat. by apply in_at.
  - rewrite length_upd. by apply (co_map _ _ _ Hc).
  - intros i q. rewrite aget_upd by (by apply aget_Some_range in Hget). case_decide as Hi; [congruence|].
    intros Hq Hne. destruct (co_mapped _ _ _ Hc i q Hq Hne) as (e' & ? & ? & ?). exists e'. by destruct (a_at e' =? p).
  - split; [unfold room in Hroom; cbn [length]; lia|]. intros q [->|Hq]%elem_of_cons; [rewrite <- Hat; by apply in_at|].
    by apply (proj2 (co_held _ _ _ Hc)).
  - intros e' He' Hne. rewrite (count_upd _ _ _ p) by done. rewrite count_cons.
    pose proof (co_null _ _ _ Hc e' He'). destruct (decide (p = a_at e')), (decide (0 = a_at e')); try congruence; lia.
  - intros e' He' Hat'. assert (e' = e) as -> by (apply (at_inj A); [apply Hc|done|done|congruence]).
    assert (Hcl : claims (set_a_held (p :: a_held A) (set_a_map (upd (a_map A) id 0) A)) e = claims A e).
    { unfold claims. cbn. rewrite bool_decide_false by done. rewrite (count_upd _ _ _ p) by done. rewrite count_cons, Hat.
      rewrite decide_True by done. destruct (decide (0 = p)); [congruence|]. lia. }
    destruct Hr. split; unfold Datatypes.id; rewrite ?Hcl; done.
Qed.

Lemma unmap_rep A s id : rep cfg A s -> room A -> 0 <= id ->
  runs (htt_t2h_peer_unmap cfg id) s (fun _ s' => rep cfg (a_unmap_id id A) s').
Proof.
  intros [Hc Hl] Hroom Hid. pose proof (co_max _ _ _ Hc) as Hmax. destruct (co_map _ _ _ Hc) as [Hmap Hlen].
  unfold htt_t2h_peer_unmap, a_unmap_id. destruct (Z.ltb_spec (max_peer_id cfg) id).
  - mstep. destruct (aget (a_map A) id) eqn:Hget; [|done]. apply aget_Some_range in Hget. lia.
  - destruct (aget_is_Some (a_map A) id) as [p Hget]; [lia|]. rewrite Hget.
    unfold ol_rx_peer_unmap_handler. mstep. replace (id =? HTT_INVALID_PEER) with false by (unfold HTT_INVALID_PEER; lia).
    unfold map_read, map_write. mstep. mstep. rewrite Hmap. eapply runs_oget; [done|]. mstep. mstep. mstep. mstep. rewrite Hmap.
    eapply runs_oget; [apply aset_upd; lia|]. mstep. destruct (Z.eqb_spec p 0) as [->|Hp].
    + mstep. assert (Hsame : upd (a_map A) id 0 = a_map A).
      { unfold upd. apply list_insert_id. by rewrite aget_lookup in Hget by lia. }
      rewrite Hsame, set_id_map_same by done. replace (set_a_map (a_map A) A) with A by (by destruct A). by split.
    + eapply runs_mono; [apply (unref_rep (set_a_held (p :: a_held A) (set_a_map (upd (a_map A) id 0) A)) _ p (a_held A)); [split|]|].
      * by apply core_unmap.
      * exact Hl.
      * done.
      * intros [] s'. by destruct A.
Qed.
End Ops.
