(* ===== verification/PeersLife.v ===== *)
(** * Peers: attach and detach

    The operations that make peers and virtual devices and that end them. *)

From S2P Require Import Prelude TxSched Peers PeersInv PeersRun PeersOps.

Local Open Scope c_scope.
#[local] Abbreviation ST := pdev_t.
#[local] Abbreviation mac_addr := ol_txrx_align_mac_addr_t.

(** What the check of an attach finds among the peers of the virtual device *)
Fixpoint dup_result (mac : mac_addr) (l : list apeer) (wait : Z) : Z :=
  match l with
  | [] => wait
  | e :: l => if bool_decide (a_mac e = mac) then if a_attached e then 0 else dup_result mac l 2 else dup_result mac l wait
  end.
Definition a_dup (v : Z) (mac : mac_addr) (A : abs) : Z := dup_result mac (on_vdev v (a_peers A)) 1.

Section Life.
Context (cfg : txrx_cfg).
Implicit Types (A : abs) (s : ST) (p v : Z).

(** ** The check for a duplicate *)

Lemma rep_vsame A s v d d' : rep cfg A s -> vdevs s !! v = Some d ->
  v_mac d' = v_mac d -> peer_list d' = peer_list d -> last_real_peer d' = last_real_peer d ->
  delete_pending d' = delete_pending d -> delete_callback d' = delete_callback d ->
  rep cfg A (set_vdevs (<[v := d']> (vdevs s)) s).
Proof. intros [Hc Hl] ? ? ? ? ? ?. split; [by eapply core_vsame|exact Hl]. Qed.

Lemma duplicate_spec A v mac l : mac_ok mac -> (forall e, e ∈ l -> e ∈ a_peers A) -> is_Some (a_vdevs A !! v) -> forall w s, rep cfg A s ->
  runs (duplicate_in v mac (a_at <$> l) w) s (fun r s' => rep cfg A s' /\ r = dup_result mac l w).
Proof.
  intros Hm. induction l as [|e l IH]; intros Hl [a Ha] w s Hrep; cbn [fmap list_fmap duplicate_in dup_result]; [by mstep|].
  pose proof (proj1 Hrep) as Hc. destruct (co_peer _ _ _ Hc e) as (x & Hx & Hr); [apply Hl; by left|].
  mstep. eapply runs_get_peer; [done|]. cbn beta. rewrite (pr_mac _ _ _ Hr), mac_cmp by (done || apply Hr). rewrite (pr_dip _ _ _ Hr).
  assert (Hl' : forall e', e' ∈ l -> e' ∈ a_peers A) by set_solver.
  destruct (bool_decide (a_mac e = mac)); [|by apply IH]. destruct (a_attached e); cbn [Z.eqb negb]; [by mstep|].
  destruct (core_vdev _ _ _ _ _ Hc Ha) as (d & Hd & _). mstep. eapply runs_upd_vdev; [done|].
  apply IH; [done|by eexists|]. by eapply rep_vsame.
Qed.

Lemma attach_check_rep A s v mac : rep cfg A s -> mac_ok mac -> is_Some (a_vdevs A !! v) ->
  runs (attach_check v mac) s (fun r s' => rep cfg A s' /\ r = a_dup v mac A).
Proof.
  intros Hrep Hm [a Ha]. unfold attach_check. destruct (core_vdev _ _ _ _ _ (proj1 Hrep) Ha) as (d & Hd & Hr).
  mstep. eapply runs_get_vdev; [done|]. cbn beta. rewrite (vr_list _ _ _ _ Hr).
  apply duplicate_spec; [done| |by eexists|done]. intros e [_ He]%list_elem_of_filter. done.
Qed.

(** ** A new peer *)

Definition new_apeer v (mac : mac_addr) p : apeer :=
  {| a_at := p; a_vdev := v; a_mac := mac; a_attached := true; a_given := []; a_state := ol_txrx_peer_state_invalid |}.

Lemma on_vdev_snoc v (l : list apeer) e : on_vdev v (l ++ [e]) = on_vdev v l ++ (if decide (a_vdev e = v) then [e] else []).
Proof. unfold on_vdev. by rewrite filter_app. Qed.

Lemma a_add_eq v mac p A a : a_vdevs A !! v = Some a ->
  a_add v mac p A = set_a_vdevs (<[v := {| av_mac := av_mac a; av_deleting := av_deleting a;
    av_last := if bool_decide (av_mac a = mac) then av_last a else p |}]> (a_vdevs A)) (set_a_peers (a_peers A ++ [new_apeer v mac p]) A).
Proof.
  intros Ha. unfold a_add. rewrite Ha. case_bool_decide; unfold set_a_last; cbn; rewrite ?Ha.
  - unfold set_a_vdevs, set_a_peers; cbn. rewrite insert_id; [done|]. by destruct a.
  - done.
Qed.

Lemma not_in_at A e p : p ∉ a_at <$> a_peers A -> e ∈ a_peers A -> a_at e <> p.
Proof. intros Hp He <-. by apply Hp, in_at. Qed.

Lemma core_add A s s' v mac p a d d' x i bin : core cfg A s -> p ∉ a_at <$> a_peers A -> p <> 0 -> mac_ok mac ->
  a_vdevs A !! v = Some a -> vdevs s !! v = Some d ->
  i = bucket (hash_idx_bits s) (hash_mask s) mac -> aget (hash_bins s) i = Some bin ->
  peer_rel (a_add v mac p A) (new_apeer v mac p) x ->
  v_mac d' = v_mac d -> peer_list d' = peer_list d ++ [p] ->
  last_real_peer d' = (if bool_decide (av_mac a = mac) then last_real_peer d else p) ->
  delete_pending d' = delete_pending d -> delete_callback d' = delete_callback d ->
  omap deleted_of (calls s') = omap deleted_of (calls s) ->
  s' = set_calls (calls s') (set_bins (upd (hash_bins s) i (bin ++ [p])) (set_vdevs (<[v := d']> (vdevs s)) (set_peers (<[p := x]> (peers s)) s))) ->
  core cfg (a_add v mac p A) s'.
Proof.
  intros Hc Hp Hp0 Hm Ha Hd Hi Hbin Hrel Hd1 Hd2 Hd3 Hd4 Hd5 Hcalls Hs'. rewrite (a_add_eq _ _ _ _ _ Ha) in *.
  set (A' := set_a_vdevs _ _) in *. destruct (core_vdev _ _ _ _ _ Hc Ha) as (d0 & Hd0 & Hvr). rewrite Hd in Hd0. injection Hd0 as <-.
  assert (Hcl : forall e, e ∈ a_peers A -> claims A' e = claims A e) by done.
  assert (Hats : a_at <$> a_peers A' = (a_at <$> a_peers A) ++ [p]) by (cbn; by rewrite fmap_app).
  assert (Hin : forall e, e ∈ a_peers A' <-> e ∈ a_peers A \/ e = new_apeer v mac p) by (intros e; cbn; set_solver).
  rewrite Hs' in *. clear Hs'. cbn [calls set_calls] in Hcalls. destruct Hc.
  split; cbn [peers vdevs vdev_list hash_mask hash_idx_bits hash_bins peer_id_to_obj_map self_peer desc_vdev calls
    set_calls set_bins set_vdevs set_peers]; rewrite ?Hats, ?length_upd; try done.
  - apply NoDup_app. split_and!; [done| |apply NoDup_singleton]. intros q Hq [= ->]%list_elem_of_singleton. done.
  - intros e [He| ->]%Hin; [by apply co_null|done].
  - intros e [He| ->]%Hin; [|cbn; rewrite lookup_insert_eq; eauto].
    destruct (co_peer e He) as (y & Hy & Hr). exists y. rewrite lookup_insert_ne by (by apply not_eq_sym, (not_in_at A)).
    split; [done|]. destruct Hr. split; rewrite ?Hcl; done.
  - intros q. rewrite lookup_insert_is_Some, elem_of_app, list_elem_of_singleton. intros [->|[_ Hq]]; [by right|left; by apply co_only].
  - intros j bin'. rewrite aget_upd by (by apply aget_Some_range in Hbin). cbn. rewrite filter_app, fmap_app, filter_cons, filter_nil. cbn.
    rewrite <- Hi. destruct (decide (j = i)) as [Hij|Hij].
    + intros [= <-]. subst j. rewrite decide_True by done. cbn. f_equal. by apply co_bin.
    + intros Hb. rewrite decide_False by congruence. cbn. rewrite app_nil_r. by apply co_bin.
  - intros w. cbn. destruct (decide (w = v)) as [->|Hne].
    + rewrite !lookup_insert_eq. destruct Hvr. split; cbn [av_mac av_deleting av_last a_peers set_a_vdevs set_a_peers A'];
        rewrite ?Hd1, ?Hd2, ?Hd3, ?Hd4, ?Hd5, ?on_vdev_snoc; try done.
      * cbn. by rewrite decide_True, fmap_app, vr_list.
      * by rewrite vr_last.
      * destruct (bool_decide (av_mac a = mac)); intros Hl.
        -- destruct (vr_last_live Hl) as (e & He & ?). exists e. rewrite elem_of_app. split; [by left|done].
        -- exists (new_apeer v mac p). rewrite elem_of_app, list_elem_of_singleton. split; [by right|done].
      * intros cb Hcb. destruct (vr_callback cb Hcb) as [? Hnil]. split; [done|]. by destruct (on_vdev v (a_peers A)).
    + rewrite !lookup_insert_ne by done. specialize (co_vdev w) as Hcv. destruct (a_vdevs A !! w), (vdevs s !! w); try done.
      destruct Hcv. split; cbn [a_peers set_a_vdevs set_a_peers A']; rewrite ?on_vdev_snoc; cbn;
        rewrite ?decide_False, ?app_nil_r by congruence; try done.
      intros Hl. destruct (vr_last_live Hl) as (e & He & ?). exists e. rewrite elem_of_app. split; [by left|done].
  - intros e [He| ->]%Hin; cbn; rewrite lookup_insert_is_Some'; [right; by apply co_owner|by left].
  - cbn. rewrite lookup_insert_ne; [done|]. intros ->. congruence.
  - split; [apply co_vlist|]. intros w. rewrite (proj2 co_vlist w). cbn. destruct (decide (w = v)) as [->|Hne].
    + rewrite lookup_insert_eq, Ha. split; intros (a' & [= <-] & Hn); eexists; split; try done.
    + by rewrite lookup_insert_ne.
  - intros id q Hq Hne. destruct (co_mapped id q Hq Hne) as (e & He & ?). exists e. rewrite Hin. split; [by left|done].
  - split; [apply co_held|]. intros q Hq. rewrite elem_of_app. left. by apply (proj2 co_held).
  - intros Hs. rewrite elem_of_app. destruct (co_self Hs). split; [by left|done].
  - intros w Hw. cbn. rewrite lookup_insert_is_Some'. destruct (co_desc w Hw); [by left|right; by right].
  - rewrite Hcalls. done.
Qed.

Ltac lcbn := cbn [peers vdevs vdev_list hash_mask hash_idx_bits hash_bins peer_id_to_obj_map lid_pool lid_freelist
  lid_map self_peer desc_vdev calls set_peers set_vdevs set_vdev_list set_bins set_id_map set_self_peer set_desc_vdev
  set_calls set_lids p_mac p_info].
Ltac at_new := first [eapply runs_upd_peer | eapply runs_upd_info]; [lcbn; by rewrite lookup_insert_eq|]; lcbn; rewrite ?insert_insert_eq.

(** The new peer, when it is entered in the hash table *)
Definition fresh_info : peer_info :=
  set_keyinstalled 0 (set_sec_type (htt_sec_type_none, htt_sec_type_none)
    (set_own_array (replicate (Z.to_nat OL_TXRX_NUM_EXT_TIDS) false) zero_info)).
Definition fresh_peer v mac (bss : bool) : ol_txrx_peer_t :=
  {| p_vdev := v; p_mac := mac; ref_cnt := 2; delete_in_progress := 0; valid := true; peer_ids := id_slots [];
     local_id := 0; p_state := ol_txrx_peer_state_invalid; tx_filter := None; rx_opt_proc := Some rx_opt_normal;
     p_info := if bss then set_bss_peer true fresh_info else fresh_info |}.

Lemma fresh_rel A s v mac p bss : core cfg A s -> p ∉ a_at <$> a_peers A -> mac_ok mac ->
  forall A', a_map A' = a_map A -> a_held A' = a_held A -> peer_rel A' (new_apeer v mac p) (fresh_peer v mac bss).
Proof.
  intros Hc Hp Hm A' Hmap Hheld.
  assert (Hcl : claims A' (new_apeer v mac p) = 2).
  { unfold claims. cbn. rewrite Hheld. replace (count p (a_held A)) with 0; [done|]. symmetry. apply count_zero.
    intros Hin. by apply Hp, (proj2 (co_held _ _ _ Hc)). }
  split; rewrite ?Hcl; try done; [cbn; split; [lia|apply not_elem_of_nil]|]. by destruct bss.
Qed.

Lemma last_choice s v mac p a d : mac_ok mac -> mac_ok (av_mac a) -> v_mac d = av_mac a -> vdevs s !! v = Some d ->
  runs (if negb (ol_txrx_peer_find_mac_addr_cmp (v_mac d) mac =? 0) then upd_vdev v (set_last_real p) else mreturn tt) s
  (fun _ s' => s' = set_vdevs (<[v := set_last_real (if bool_decide (av_mac a = mac) then last_real_peer d else p) d]> (vdevs s)) s).
Proof.
  intros Hm Hma Hmac Hd. rewrite Hmac, mac_cmp by done. case_bool_decide; cbn [negb].
  - mstep. replace (set_last_real _ d) with d by (by destruct d). rewrite insert_id by done. by destruct s.
  - by eapply runs_upd_vdev.
Qed.

(** The peer is in all structures but has no local id yet. *)
Lemma attach_enter_spec A s v mac p a : core cfg A s -> mac_ok mac -> p <> 0 -> p ∉ a_at <$> a_peers A ->
  a_vdevs A !! v = Some a ->
  runs (attach_enter cfg v mac p) s (fun _ s' => core cfg (a_add v mac p A) s' /\ self_peer s' = self_peer s
    /\ lid_pool s' = lid_pool s /\ lid_freelist s' = lid_freelist s /\ lid_map s' = lid_map s
    /\ exists bss, peers s' = <[p := fresh_peer v mac bss]> (peers s)).
Proof.
  intros Hc Hm Hp0 Hp Ha. destruct (core_vdev _ _ _ _ _ Hc Ha) as (d & Hd & Hvr). pose proof (vr_mac_ok _ _ _ _ Hvr) as Hma.
  unfold attach_enter. mstep. unfold put_peer. mstep. mstep.
  eapply runs_mono with (Q := fun _ s1 => exists cs, s1 = set_calls (calls s ++ cs) (set_peers (<[p := zero_peer v mac]> (peers s)) s) /\ omap deleted_of cs = []).
  { destruct (is_high_latency cfg); unfold emit; mstep; [by eexists|]. exists []. rewrite app_nil_r. by destruct s. }
  intros _ s1 (cs1 & -> & Hcs1). mstep. unfold emit. mstep. mstep. eapply runs_upd_vdev; [done|]. mstep.
  eapply runs_get_vdev; [lcbn; by rewrite lookup_insert_eq|]. cbn beta. mstep.
  eapply runs_mono; [eapply (last_choice _ v mac p a); [done|done|apply Hvr|lcbn; by rewrite lookup_insert_eq]|].
  cbn beta. intros _ s2 ->. lcbn. rewrite insert_insert_eq. mstep. at_new. unfold ol_rx_peer_init. mstep. mstep. unfold emit. mstep.
  mstep. at_new. mstep. at_new. at_new. mstep. at_new. mstep. at_new. mstep. at_new.
  mstep. eapply runs_ref_add; [lcbn; by rewrite lookup_insert_eq|]. lcbn. rewrite insert_insert_eq.
  mstep. eapply runs_ref_add; [lcbn; by rewrite lookup_insert_eq|]. lcbn. rewrite insert_insert_eq. mstep. at_new. mstep.
  unfold ol_txrx_peer_find_hash_add. mstep. eapply runs_get_peer; [lcbn; by rewrite lookup_insert_eq|]. cbn beta. mstep.
  eapply runs_mono; [apply hash_index_spec|]. intros i s' [-> ->]. lcbn.
  set (i := bucket _ _ _). assert (Hi : 0 <= i < Z.of_nat (length (hash_bins s))).
  { rewrite (co_bins _ _ _ Hc). unfold i. destruct (co_hash _ _ _ Hc) as [-> ?]. apply bucket_range. lia. }
  destruct (aget_is_Some _ _ Hi) as [bin Hbin]. unfold get_bin, put_bin. mstep. mstep. mstep. lcbn. eapply runs_oget; [done|].
  mstep. mstep. mstep. lcbn. eapply runs_oget; [by apply aset_upd|]. mstep. mstep.
  match goal with |- runs _ (set_bins _ (set_peers (insert _ ?y _) _)) _ => set (x := y) end. set (s1 := set_bins _ _).
  eapply runs_mono with (Q := fun _ s2 => exists bss : bool, s2 = set_peers (<[p := if bss then set_p_info (set_bss_peer true (p_info x)) x else x]> (peers s)) s1).
  { case_bool_decide.
    - eapply runs_upd_info; [unfold s1; lcbn; by rewrite lookup_insert_eq|]. exists true. unfold s1. lcbn. by rewrite insert_insert_eq.
    - mstep. by exists false. }
  intros _ s2 (bss & ->). eapply runs_upd_peer; [lcbn; by rewrite lookup_insert_eq|]. lcbn. rewrite insert_insert_eq.
  replace (set_p_state _ _) with (fresh_peer v mac bss) by (by destruct bss).
  split; [|split; [done|split_and!; try done; by exists bss]].
  apply (core_add A s _ v mac p a d
    (set_last_real (if bool_decide (av_mac a = mac) then last_real_peer d else p) (set_peer_list (peer_list d ++ [p]) d))
    (fresh_peer v mac bss) i bin); try done.
  - eapply fresh_rel; try done; unfold a_add; rewrite Ha; destruct (bool_decide _); try done; unfold set_a_last; cbn; by rewrite Ha.
  - unfold s1. lcbn. rewrite !omap_app, Hcs1. cbn. by rewrite !app_nil_r.
Qed.

Lemma core_lids A s pool free map : core cfg A s -> core cfg A (set_lids pool free map s).
Proof. intros Hc. destruct Hc. by split. Qed.

Lemma core_self A s p : core cfg A s -> p ∈ a_at <$> a_peers A -> monitor_mode cfg = true -> core cfg A (set_self_peer p s).
Proof. intros Hc Hp Hmon. destruct Hc. by split. Qed.

Lemma a_upd_ats p f A : (forall e, a_at (f e) = a_at e) -> a_at <$> a_peers (a_upd p f A) = a_at <$> a_peers A.
Proof.
  intros Hf. cbn. rewrite <- list_fmap_compose. apply list_fmap_ext. intros i e _. cbn. destruct (a_at e =? p); [apply Hf|done].
Qed.

Lemma a_attach_ats v mac p A : a_at <$> a_peers (a_attach v mac p A) = (a_at <$> a_peers A) ++ [p].
Proof.
  assert (Hadd : a_at <$> a_peers (a_add v mac p A) = (a_at <$> a_peers A) ++ [p]).
  { unfold a_add, set_a_last. destruct (a_vdevs A !! v); [|cbn; by rewrite fmap_app]. case_bool_decide; [cbn; by rewrite fmap_app|].
    destruct (a_vdevs _ !! v); cbn; by rewrite fmap_app. }
  unfold a_attach, a_state_update. destruct (a_find _ _ _); [by rewrite a_upd_ats|done].
Qed.

Lemma attach_create_rep A s v mac p hist : rep cfg A s -> mac_ok mac -> is_Some (a_vdevs A !! v) -> (p <> 0 -> p ∉ a_at <$> a_peers A) ->
  runs (attach_create cfg v mac p hist) s (fun r s' => rep cfg (if p =? 0 then A else a_attach v mac p A) s' /\ r = p).
Proof.
  intros [Hc Hl] Hm [a Ha] Hp. unfold attach_create. destruct (Z.eqb_spec p 0) as [->|Hp0]; [by mstep|]. specialize (Hp Hp0).
  assert (Hnone : peers s !! p = None).
  { destruct (peers s !! p) eqn:E; [|done]. destruct Hp. apply (co_only _ _ _ Hc). by eexists. }
  mstep. eapply runs_mono; [by apply (attach_enter_spec A s v mac p a)|]. intros [] s1 (Hc1 & Hself1 & Hp1 & Hf1 & Hm1 & bss & Hps1).
  mstep. eapply runs_mono; [by apply (state_update_spec cfg (a_add v mac p A))|].
  intros [] s2 (Hc2 & Hfr & Hself2 & Hvd2 & Hdom2). fold (a_attach v mac p A) in Hc2.
  assert (Hl2 : lids_ok (delete p (peers s2)) s2).
  { apply (lid_frame_lids s1 s2 (delete p)); [|done|].
    - intros m q. destruct (decide (q = p)) as [->|]; [right; intros; apply lookup_delete_eq|left; by rewrite lookup_delete_ne].
    - rewrite Hps1, delete_insert_id by done. unfold lids_ok in *. by rewrite Hp1, Hf1, Hm1. }
  assert (Hin : p ∈ a_at <$> a_peers (a_attach v mac p A)) by (rewrite a_attach_ats; set_solver).
  destruct (core_in_at cfg _ s2 p Hc2 Hin) as (e & x & He & Hat & Hx & Hr).
  assert (Hv : valid x = true).
  { destruct Hfr as (_ & _ & _ & Hq). specialize (Hq p). rewrite Hx, Hps1, lookup_insert_eq in Hq. by injection Hq as -> _. }
  mstep. mstep. mstep.
  eapply runs_mono with (Q := fun _ s3 => core cfg (a_attach v mac p A) s3 /\ peers s3 = peers s2 /\ lids_ok (delete p (peers s2)) s3).
  { destruct (monitor_mode cfg) eqn:Hmon; cbn [andb]; [|by mstep]. destruct (self_peer s2 =? 0); [|by mstep].
    mstep. mstep. unfold ol_vdev_rx_set_intrabss_fwd. destruct (v =? 0); [mstep; split_and!; [by apply core_self|done|exact Hl2]|].
    assert (Hav : is_Some (a_vdevs (a_add v mac p A) !! v)) by (rewrite (a_add_eq _ _ _ _ _ Ha); cbn; rewrite lookup_insert_eq; by eexists).
    destruct Hav as [a' Ha']. destruct (core_vdev _ _ _ _ _ Hc1 Ha') as (d & Hd & _).
    eapply runs_upd_vdev; [cbn; by rewrite Hvd2|]. split_and!; [|done|exact Hl2].
    eapply core_vsame; [by apply core_self|cbn; by rewrite Hvd2|done..]. }
  intros [] s3 (Hc3 & Hps3 & Hl3). mstep.
  eapply runs_mono; [apply (alloc_spec (delete p (peers s2)) s3 p x); try done|].
  - apply lookup_delete_eq.
  - rewrite lookup_delete_None. right. destruct (peers s2 !! 0) eqn:E; [|done].
    destruct (core_entry _ _ _ _ _ Hc2 E) as (e0 & He0 & Hz & _). by destruct (co_null _ _ _ Hc2 e0 He0).
  - by rewrite Hps3.
  - intros [] s4 (id & pool & free & map & -> & Hl4). mstep. rewrite insert_delete_eq in Hl4.
    eapply runs_mono; [apply (info_update_rep cfg (a_attach v mac p A)); [split|done|done]|].
    + apply core_lids. eapply core_same; [done|by rewrite Hps3|]. intros e' Hr'. by destruct Hr'; split.
    + cbn [peers set_lids set_peers]. by rewrite Hps3 in *.
    + intros [] s5 Hrep5. by mstep.
Qed.

(** ** Detach *)

Lemma core_last A s v a d : core cfg A s -> a_vdevs A !! v = Some a -> vdevs s !! v = Some d ->
  core cfg (set_a_last v 0 A) (set_vdevs (<[v := set_last_real 0 d]> (vdevs s)) s).
Proof.
  intros Hc Ha Hd. pose proof (co_vdev _ _ _ Hc) as Hvd. unfold set_a_last. rewrite Ha. destruct Hc.
  split; cbn [a_peers a_vdevs a_map a_held a_deleted set_a_vdevs vdevs set_vdevs]; try done.
  - intros e He. destruct (co_peer e He) as (x & Hx & Hr). exists x. split; [done|]. by destruct Hr; split.
  - intros w. destruct (decide (w = v)) as [->|Hne].
    2: { rewrite !lookup_insert_ne by done. specialize (Hvd w). destruct (a_vdevs A !! w), (vdevs s !! w); try done. by destruct Hvd; split. }
    rewrite !lookup_insert_eq. specialize (Hvd v) as Hr. rewrite Ha, Hd in Hr. destruct Hr. by split.
  - intros e He. rewrite lookup_insert_is_Some'. right. by apply co_owner.
  - rewrite lookup_insert_ne; [done|]. intros ->. congruence.
  - split; [apply co_vlist|]. intros w. rewrite (proj2 co_vlist w). destruct (decide (w = v)) as [->|Hne].
    + rewrite lookup_insert_eq, Ha. split; intros (a' & [= <-] & Hn); eexists; split; try done.
    + by rewrite lookup_insert_ne.
  - intros w Hw. rewrite lookup_insert_is_Some'. destruct (co_desc w Hw); [by left|right; by right].
Qed.

(** The attachment becomes a reference to give up. *)
Lemma core_flip A s p e x x' : core cfg A s -> room A -> e ∈ a_peers A -> a_at e = p -> a_attached e = true -> peers s !! p = Some x ->
  a_last (a_vdev e) A <> p -> x' = set_dip 1 (set_valid false (set_rx_opt_proc (Some ol_rx_discard) x)) ->
  core cfg (set_a_held (p :: a_held A) (a_upd p (with_attached false) A)) (set_peers (<[p := x']> (peers s)) s).
Proof.
  intros Hc Hroom He Hat Hatt Hx Hlast ->. assert (Hr : peer_rel A e x) by (rewrite <- Hat in Hx; by eapply core_at).
  eapply core_peer; try done; [by right| |intros q Hq; by rewrite count_cons, decide_False|].
  - split; [unfold room in Hroom; cbn [length]; lia|]. intros q [->|Hq]%elem_of_cons; [rewrite <- Hat; by apply in_at|].
    by apply (proj2 (co_held _ _ _ Hc)).
  - assert (Hcl : claims (set_a_held (p :: a_held A) (a_upd p (with_attached false) A)) (with_attached false e) = claims A e).
    { unfold claims. cbn. rewrite count_cons, Hat, Hatt, decide_True by done. lia. }
    destruct Hr. split; rewrite ?Hcl; done.
Qed.

Lemma detach_rep A s e : rep cfg A s -> room A -> e ∈ a_peers A -> a_attached e = true ->
  runs (ol_txrx_peer_detach cfg (a_at e)) s (fun _ s' => rep cfg (a_detach (a_at e) A) s').
Proof.
  intros [Hc Hl] Hroom He Hatt. set (p := a_at e). destruct (co_peer _ _ _ Hc e He) as (x & Hx & Hr). fold p in Hx.
  destruct (co_owner _ _ _ Hc e He) as [a Ha]. destruct (core_vdev _ _ _ _ _ Hc Ha) as (d & Hd & Hvr).
  assert (Hap : a_peer A p = Some e) by (unfold p; apply a_peer_in; [apply Hc|done]). unfold a_detach. rewrite Hap.
  unfold ol_txrx_peer_detach. mstep. eapply runs_get_peer; [done|]. cbn beta zeta. rewrite (pr_vdev _ _ _ Hr).
  mstep. eapply runs_upd_peer; [done|]. mstep. at_new. set (y := set_valid _ _). mstep.
  eapply runs_mono; [apply (free_spec (peers s) _ p x y); try done|].
  { by apply (co_null _ _ _ Hc). }
  { by rewrite (pr_valid _ _ _ Hr). }
  { lcbn. by rewrite lookup_insert_eq. }
  intros [] s1 (pool & free & map & -> & Hl1). mstep. eapply runs_get_vdev; [done|]. cbn beta. mstep.
  set (s1 := set_lids _ _ _ _) in *.
  set (A0 := if a_last (a_vdev e) A =? p then set_a_last (a_vdev e) 0 A else A).
  eapply runs_mono with (Q := fun _ s2 => exists d2, vdevs s2 !! a_vdev e = Some d2 /\ (p =? 0 = false -> (last_real_peer d2 =? p) = false)
    /\ s2 = set_vdevs (vdevs s2) s1 /\ core cfg A0 (set_vdevs (vdevs s2) s)).
  { unfold A0, a_last. rewrite Ha, (vr_last _ _ _ _ Hvr). destruct (Z.eqb_spec (av_last a) p) as [Heq|Hne].
    - eapply runs_upd_vdev; [done|]. exists (set_last_real 0 d). lcbn. rewrite lookup_insert_eq. split_and!; try done.
      by apply (core_last A s (a_vdev e) a).
    - mstep. exists d. split_and!; try done; [intros _; rewrite (vr_last _ _ _ _ Hvr); by apply Z.eqb_neq|].
      unfold s1. lcbn. by destruct s. }
  intros [] s2 (d2 & Hd2 & Hlast2 & -> & Hc2). cbn [vdevs set_vdevs] in Hd2, Hc2. mstep.
  assert (Hp0 : p <> 0) by by apply (co_null _ _ _ Hc).
  eapply runs_get_vdev; [done|]. cbn beta. rewrite Hlast2 by by apply Z.eqb_neq. mstep. mstep. mstep. unfold s1. at_new. set (x' := set_dip _ _).
  eapply runs_mono; [apply (unref_rep cfg (set_a_held (p :: a_held A0) (a_upd p (with_attached false) A0)) _ p (a_held A0)); [split|done]|].
  - assert (He0 : e ∈ a_peers A0) by (unfold A0, set_a_last; destruct (_ =? _); [|done]; by destruct (a_vdevs A !! _)).
    assert (Hflip : core cfg (set_a_held (p :: a_held A0) (a_upd p (with_attached false) A0))
      (set_peers (<[p := x']> (peers s)) (set_vdevs (vdevs s2) s))); [|exact (core_lids _ _ pool free map Hflip)].
    apply (core_flip A0 (set_vdevs (vdevs s2) s) p e x); try done.
    + unfold A0, room, set_a_last in *. destruct (_ =? _); [|done]. by destruct (a_vdevs A !! _).
    + unfold A0. destruct (Z.eqb_spec (a_last (a_vdev e) A) p) as [Heq|Hne]; [|done].
      unfold a_last, set_a_last. rewrite Ha. cbn. rewrite lookup_insert_eq. cbn. lia.
  - lcbn. rewrite <- (insert_insert_eq (peers s) p x' y). eapply lids_upd; [exact Hl1|by rewrite lookup_insert_eq|done..].
  - intros [] s3 Hrep3. exact Hrep3.
Qed.

(** ** Virtual devices *)

Lemma vdev_attach_rep A s mac vid v : rep cfg A s -> mac_ok mac -> (v <> 0 -> a_vdevs A !! v = None) ->
  runs (ol_txrx_vdev_attach mac vid v) s (fun r s' => rep cfg (if v =? 0 then A else a_vdev_attach v mac A) s' /\ r = v).
Proof.
  intros [Hc Hl] Hm Hv. unfold ol_txrx_vdev_attach. destruct (Z.eqb_spec v 0) as [->|Hv0]; [by mstep|]. specialize (Hv Hv0).
  mstep. unfold put_vdev. mstep. mstep. mstep. mstep. split; [|done]. split; [|exact Hl].
  assert (Hon : on_vdev v (a_peers A) = []).
  { unfold on_vdev. apply filter_none. intros e He Heq. destruct (co_owner _ _ _ Hc e He) as [a Ha]. congruence. }
  pose proof (co_vdev _ _ _ Hc) as Hvd. unfold a_vdev_attach. destruct Hc.
  split; cbn [a_peers a_vdevs a_map a_held a_deleted set_a_vdevs vdevs set_vdevs vdev_list set_vdev_list]; try done.
  - intros e He. destruct (co_peer e He) as (x & Hx & Hr). exists x. split; [done|]. by destruct Hr; split.
  - intros w. destruct (decide (w = v)) as [->|Hne].
    2: { rewrite !lookup_insert_ne by done. specialize (Hvd w). destruct (a_vdevs A !! w), (vdevs s !! w); try done. by destruct Hvd; split. }
    rewrite !lookup_insert_eq. split; try done; cbn [a_peers set_a_vdevs peer_list new_vdev]. by rewrite Hon.
  - intros e He. rewrite lookup_insert_is_Some'. right. by apply co_owner.
  - by rewrite lookup_insert_ne.
  - destruct co_vlist as [Hnd Hin]. split.
    + apply NoDup_app. split_and!; [done| |apply NoDup_singleton]. intros w Hw ->%list_elem_of_singleton.
      apply Hin in Hw as (a & Ha & _). congruence.
    + intros w. rewrite elem_of_app, list_elem_of_singleton, Hin. destruct (decide (w = v)) as [->|Hne].
      * rewrite lookup_insert_eq. split; [intros _; by eexists|by right].
      * rewrite lookup_insert_ne by done. naive_solver.
  - intros w Hw. rewrite lookup_insert_is_Some'. destruct (co_desc w Hw); [by left|right; by right].
Qed.

Definition deleting_vdev (a : avdev) (cb : option Z) : avdev := {| av_mac := av_mac a; av_deleting := Some cb; av_last := av_last a |}.

(** The deletion waits for the peers. *)
Lemma core_pending A s v a d cb : core cfg A s -> a_vdevs A !! v = Some a -> av_deleting a = None -> vdevs s !! v = Some d ->
  on_vdev v (a_peers A) <> [] ->
  core cfg (set_a_vdevs (<[v := deleting_vdev a cb]> (a_vdevs A)) A)
    (set_vdevs (<[v := set_delete true cb d]> (vdevs s)) (set_vdev_list (filter (fun w => w <> v) (vdev_list s)) s)).
Proof.
  intros Hc Ha Hna Hd Hon. pose proof (co_vdev _ _ _ Hc) as Hvd. destruct Hc.
  split; cbn [a_peers a_vdevs a_map a_held a_deleted set_a_vdevs vdevs set_vdevs vdev_list set_vdev_list]; try done.
  - intros e He. destruct (co_peer e He) as (x & Hx & Hr). exists x. split; [done|]. by destruct Hr; split.
  - intros w. destruct (decide (w = v)) as [->|Hne].
    2: { rewrite !lookup_insert_ne by done. specialize (Hvd w). destruct (a_vdevs A !! w), (vdevs s !! w); try done. by destruct Hvd; split. }
    rewrite !lookup_insert_eq. specialize (Hvd v). rewrite Ha, Hd in Hvd. destruct Hvd. split; try done. by intros cb' [= <-].
  - intros e He. rewrite lookup_insert_is_Some'. right. by apply co_owner.
  - rewrite lookup_insert_ne; [done|]. intros ->. congruence.
  - destruct co_vlist as [Hnd Hin]. split; [by apply NoDup_filter|]. intros w. rewrite list_elem_of_filter, Hin.
    destruct (decide (w = v)) as [->|Hne]; [rewrite lookup_insert_eq; split; [by intros [? _]|by intros (? & [= <-] & ?)]|].
    rewrite lookup_insert_ne by done. naive_solver.
  - intros w Hw. rewrite lookup_insert_is_Some'. destruct (co_desc w Hw); [by left|right; by right].
Qed.

(** It goes at once when there are none. *)
Lemma core_gone A s v a cb cs : core cfg A s -> a_vdevs A !! v = Some a -> av_deleting a = None ->
  on_vdev v (a_peers A) = [] -> omap deleted_of cs = option_list cb ->
  core cfg (set_a_deleted (a_deleted A ++ option_list cb) (set_a_vdevs (delete v (a_vdevs A)) A))
    (set_calls (calls s ++ cs) (set_vdevs (delete v (vdevs s)) (set_desc_vdev ((fun w => if w =? v then 0 else w) <$> desc_vdev s)
      (set_vdev_list (filter (fun w => w <> v) (vdev_list s)) s)))).
Proof.
  intros Hc Ha Hna Hon Hcs. pose proof (co_vdev _ _ _ Hc) as Hvd. destruct Hc.
  split; cbn [a_peers a_vdevs a_map a_held a_deleted set_a_vdevs set_a_deleted vdevs set_vdevs vdev_list set_vdev_list
    desc_vdev set_desc_vdev calls set_calls]; try done.
  - intros e He. destruct (co_peer e He) as (x & Hx & Hr). exists x. split; [done|]. by destruct Hr; split.
  - intros w. destruct (decide (w = v)) as [->|Hne]; [by rewrite !lookup_delete_eq|].
    rewrite !lookup_delete_ne by done. specialize (Hvd w). destruct (a_vdevs A !! w), (vdevs s !! w); try done. by destruct Hvd; split.
  - intros e He. rewrite lookup_delete_is_Some. split; [|by apply co_owner]. intros Heq. unfold on_vdev in Hon.
    rewrite filter_none in Hon. by apply (Hon e He).
  - rewrite lookup_delete_None. by right.
  - destruct co_vlist as [Hnd Hin]. split; [by apply NoDup_filter|]. intros w. rewrite list_elem_of_filter, Hin.
    destruct (decide (w = v)) as [->|Hne]; [rewrite lookup_delete_eq; naive_solver|]. rewrite lookup_delete_ne by done. naive_solver.
  - intros w (w0 & -> & Hw0)%list_elem_of_fmap. destruct (Z.eqb_spec w0 v); [by left|].
    rewrite lookup_delete_is_Some. destruct (co_desc w0 Hw0); [by left|by right].
  - by rewrite omap_app, Hcs, co_calls.
Qed.

Lemma vdev_detach_rep A s v a cb : rep cfg A s -> a_vdevs A !! v = Some a -> av_deleting a = None ->
  runs (ol_txrx_vdev_detach cfg v cb) s (fun _ s' => rep cfg (a_vdev_detach v cb A) s').
Proof.
  intros Hrep Ha Hna. destruct (core_vdev _ _ _ _ _ (proj1 Hrep) Ha) as (d & Hd & Hvr).
  unfold ol_txrx_vdev_detach. mstep. eapply runs_get_vdev; [done|]. cbn beta. mstep.
  eapply runs_mono with (Q := fun _ s1 => exists cs, s1 = set_calls (calls s ++ cs) s /\ omap deleted_of cs = []).
  { destruct (is_high_latency cfg).
    - apply (runs_mfor_emit (fun i => Vdev_queue_free v (i + OL_TX_NUM_TIDS))). eexists. split; [done|]. by apply omap_other.
    - mstep. exists []. rewrite app_nil_r. by destruct s. }
  intros [] s1 (cs1 & -> & Hcs1). mstep. eapply runs_get_vdev; [done|]. cbn beta. mstep.
  apply runs_mfor_emit. lcbn. mstep. eapply runs_upd_vdev; [done|]. lcbn. mstep. mstep. mstep. lcbn.
  set (cs := (_ ++ (_ <$> _))). assert (Hrep1 : rep cfg A (set_calls cs s)).
  { unfold cs. rewrite <- app_assoc. apply rep_calls; [done|]. by rewrite omap_app, Hcs1, omap_other. }
  assert (Hrep2 : rep cfg A (set_vdevs (<[v := set_ll_txq [] d]> (vdevs s)) (set_calls cs s))) by by eapply (rep_vsame _ (set_calls cs s)).
  set (s2 := set_vdevs _ _) in *.
  assert (Hin : v ∈ vdev_list s) by (apply (proj2 (co_vlist _ _ _ (proj1 Hrep))); eauto).
  rewrite tq_remove_in by done. mstep. mstep. mstep. lcbn. mstep.
  eapply runs_get_vdev; [unfold s2; lcbn; by rewrite lookup_insert_eq|]. cbn beta. cbn [peer_list set_ll_txq]. rewrite (vr_list _ _ _ _ Hvr). unfold a_vdev_detach. rewrite Ha. fold (deleting_vdev a cb).
  unfold v_drop. cbn [a_vdevs set_a_vdevs a_peers]. rewrite lookup_insert_eq. unfold deleting_vdev at 1.
  destruct (decide (on_vdev v (a_peers A) = [])) as [Hon|Hon].
  - rewrite Hon, !bool_decide_true by done. cbn [negb]. mstep. unfold forget_vdev. mstep. mstep. unfold free_vdev. mstep.
    eapply runs_get_vdev; [unfold s2; lcbn; by rewrite lookup_insert_eq|]. cbn beta. mstep. lcbn.
    pose proof (core_gone A s2 v a cb (Vdev_deleted <$> option_list cb) (proj1 Hrep2) Ha Hna Hon) as Hg.
    cbn [a_deleted set_a_vdevs]. rewrite delete_insert_eq.
    assert (Hg' : core cfg (set_a_deleted (a_deleted A ++ option_list cb) (set_a_vdevs (delete v (a_vdevs A)) A))
      (set_calls (calls s2 ++ (Vdev_deleted <$> option_list cb)) (set_vdevs (delete v (vdevs s2))
        (set_desc_vdev ((fun w => if w =? v then 0 else w) <$> desc_vdev s2) (set_vdev_list (filter (fun w => w <> v) (vdev_list s2)) s2)))))
      by (apply Hg; by destruct cb).
    destruct cb as [ctx|]; [unfold emit|]; mstep; (split; [|exact (proj2 Hrep)]); [exact Hg'|].
    change (Vdev_deleted <$> option_list None) with (@nil call) in Hg'. rewrite (app_nil_r (calls s2)) in Hg'. exact Hg'.
  - assert (Hon' : a_at <$> on_vdev v (a_peers A) <> []) by by intros H%on_vdev_nil.
    rewrite (bool_decide_false _ Hon), (bool_decide_false _ Hon'). cbn [negb].
    eapply runs_upd_vdev; [unfold s2; lcbn; by rewrite lookup_insert_eq|]. split; [|exact (proj2 Hrep)].
    apply (core_pending A s2 v a (set_ll_txq [] d) cb (proj1 Hrep2) Ha Hna); [unfold s2; lcbn; by rewrite lookup_insert_eq|done].
Qed.

End Life.
