(* ===== verification/CfgTable.v ===== *)
(** * The configuration table

    The parameters of the configuration store and their defaults: [cfg_static] and
    [cfg_static_string] of [CORE/MAC/src/cfg/cfgProcMsg.c], with the identifiers and limits of
    [wni_cfg.h] as numbers.  A comment names each entry.  [Cfg] is the store. *)

From S2P Require Import Prelude.

(** ** Control flags ([cfgDef.h]) *)

Inductive ctl_flag := VALID | RE | WE | INT | SAVE | RESTART | RELOAD | NTF_HAL | NTF_SCH | NTF_LIM.
Definition flag_bits (f : ctl_flag) : Z :=
  match f with
  | VALID => 0x00010000
  | RE => 0x00020000
  | WE => 0x00040000
  | INT => 0x00080000
  | SAVE => 0x00100000
  | RESTART => 0x00200000
  | RELOAD => 0x00400000
  | NTF_HAL => 0x04000000
  | NTF_SCH => 0x20000000
  | NTF_LIM => 0x40000000
  end.

(** ** Entries *)

Record cgstatic := {
  cfg_id : Z;
  control : Z;              (* uint32_t *)
  cfg_imin : Z;
  cfg_imax : Z;
  cfg_ival : Z
}.
Record cfgstatic_string := {
  str_cfg_id : Z;
  max_len : Z;              (* uint8_t *)
  str_length : Z;           (* uint8_t *)
  str_data : list Z         (* uint8_t [255] *)
}.

Definition static (id : Z) (flags : list ctl_flag) (imin imax ival : Z) : cgstatic :=
  {| cfg_id := id; control := foldr (fun f c => Z.lor (flag_bits f) c) 0 flags; cfg_imin := imin;
     cfg_imax := imax; cfg_ival := ival |}.
(** An initialiser; the rest of the array is zero. *)
Definition string (id max len : Z) (data : list Z) : cfgstatic_string :=
  {| str_cfg_id := id; max_len := max; str_length := len; str_data := data ++ replicate (255 - length data) 0 |}.

Definition cfg_static_1 : list cgstatic := [
  static 0 [VALID; RE; WE; RELOAD; NTF_HAL] 0 255 1; (* WNI_CFG_STA_ID *)
  static 1 [VALID; RE; INT] 0 255 1; (* WNI_CFG_CFP_PERIOD *)
  static 2 [VALID; RE; INT] 0 65535 30000; (* WNI_CFG_CFP_MAX_DURATION *)
  static 3 [VALID; RE; WE; RESTART] 0 255 6; (* WNI_CFG_SSID *)
  static 4 [VALID; RE; WE; INT; NTF_SCH] 0 65535 100; (* WNI_CFG_BEACON_INTERVAL *)
  static 5 [VALID; RE; INT] 0 65535 1; (* WNI_CFG_DTIM_PERIOD *)
  static 6 [VALID; RE; WE; INT; RESTART] 5 13 5; (* WNI_CFG_WEP_KEY_LENGTH *)
  static 7 [VALID; WE; RESTART] 0 65535 0; (* WNI_CFG_WEP_DEFAULT_KEY_1 *)
  static 8 [VALID; WE; RESTART] 1 1 1; (* WNI_CFG_WEP_DEFAULT_KEY_2 *)
  static 9 [VALID; WE; RESTART] 0 5 5; (* WNI_CFG_WEP_DEFAULT_KEY_3 *)
  static 10 [VALID; WE; RESTART] 0 1 0; (* WNI_CFG_WEP_DEFAULT_KEY_4 *)
  static 11 [VALID; RE; WE; INT; NTF_LIM] 0 3 0; (* WNI_CFG_WEP_DEFAULT_KEYID *)
  static 12 [VALID; RE; WE; INT; NTF_LIM] 0 1 0; (* WNI_CFG_EXCLUDE_UNENCRYPTED *)
  static 13 [VALID; RE; WE; INT; NTF_HAL] 0 1048576 2347; (* WNI_CFG_RTS_THRESHOLD *)
  static 14 [VALID; RE; WE; INT; NTF_HAL] 0 255 6; (* WNI_CFG_SHORT_RETRY_LIMIT *)
  static 15 [VALID; RE; WE; INT; NTF_HAL] 0 255 6; (* WNI_CFG_LONG_RETRY_LIMIT *)
  static 16 [VALID; RE; WE; INT; NTF_HAL] 256 8000 8000; (* WNI_CFG_FRAGMENTATION_THRESHOLD *)
  static 17 [VALID; RE; WE; INT] 0 65535 20; (* WNI_CFG_ACTIVE_MINIMUM_CHANNEL_TIME *)
  static 18 [VALID; RE; WE; INT] 0 65535 40; (* WNI_CFG_ACTIVE_MAXIMUM_CHANNEL_TIME *)
  static 19 [VALID; RE; WE; INT] 0 65535 60; (* WNI_CFG_PASSIVE_MINIMUM_CHANNEL_TIME *)
  static 20 [VALID; RE; WE; INT] 0 65535 110; (* WNI_CFG_PASSIVE_MAXIMUM_CHANNEL_TIME *)
  static 21 [VALID; RE; WE; INT] 0 65535 3000; (* WNI_CFG_JOIN_FAILURE_TIMEOUT *)
  static 22 [VALID; RE; WE; INT] 0 65535 1000; (* WNI_CFG_AUTHENTICATE_FAILURE_TIMEOUT *)
  static 23 [VALID; RE; WE; INT] 0 65535 1000; (* WNI_CFG_AUTHENTICATE_RSP_TIMEOUT *)
  static 24 [VALID; RE; WE; INT; NTF_LIM] 0 65535 2000 (* WNI_CFG_ASSOCIATION_FAILURE_TIMEOUT *)
].

Definition cfg_static_2 : list cgstatic := [
  static 25 [VALID; RE; WE; INT] 0 65535 1000; (* WNI_CFG_REASSOCIATION_FAILURE_TIMEOUT *)
  static 26 [VALID; RE; WE; INT; NTF_HAL] 0 65535 1000; (* WNI_CFG_RA_PERIODICITY_TIMEOUT_IN_PS *)
  static 27 [VALID; RE; WE; INT; NTF_HAL] 0 1 1; (* WNI_CFG_PS_ENABLE_BCN_FILTER *)
  static 28 [VALID; RE; WE; INT; NTF_HAL] 0 1 1; (* WNI_CFG_PS_ENABLE_HEART_BEAT *)
  static 29 [VALID; RE; WE; INT; NTF_HAL] 0 1 0; (* WNI_CFG_PS_ENABLE_RSSI_MONITOR *)
  static 30 [VALID; RE; WE; INT; NTF_HAL] 1 255 20; (* WNI_CFG_PS_DATA_INACTIVITY_TIMEOUT *)
  static 31 [VALID; RE; WE; INT; NTF_HAL] 0 60000 1500; (* WNI_CFG_RF_SETTLING_TIME_CLK *)
  static 32 [VALID; RE] 0 3 1; (* WNI_CFG_SUPPORTED_RATES_11B *)
  static 33 [VALID; RE] 0 255 15; (* WNI_CFG_SUPPORTED_RATES_11A *)
  static 34 [VALID; RE; WE; INT; RESTART] 0 3 0; (* WNI_CFG_PHY_MODE *)
  static 35 [VALID; RE; WE; INT; RESTART; NTF_LIM] 0 11 0; (* WNI_CFG_DOT11_MODE *)
  static 36 [VALID; RE; WE; RESTART] 0 1 1; (* WNI_CFG_OPERATIONAL_RATE_SET *)
  static 37 [VALID; RE; WE; RESTART] 0 65535 65534; (* WNI_CFG_EXTENDED_OPERATIONAL_RATE_SET *)
  static 38 [VALID; RE; WE; RESTART] 0 0 0; (* WNI_CFG_PROPRIETARY_OPERATIONAL_RATE_SET *)
  static 39 [VALID; RE; WE; INT; RESTART] 0 65535 1; (* WNI_CFG_LISTEN_INTERVAL *)
  static 40 [VALID; RE; WE; RESTART; NTF_LIM] 0 1 1; (* WNI_CFG_VALID_CHANNEL_LIST *)
  static 41 [VALID; RE; INT] 0 173 1; (* WNI_CFG_CURRENT_CHANNEL *)
  static 42 [VALID; RE; WE; INT] 0 11 5; (* WNI_CFG_DEFAULT_RATE_INDEX_5GHZ *)
  static 43 [VALID; RE; WE; INT] 0 31 1; (* WNI_CFG_DEFAULT_RATE_INDEX_24GHZ *)
  static 44 [VALID; RE; WE; INT; NTF_SCH] 0 2 1; (* WNI_CFG_RATE_ADAPTATION_TYPE *)
  static 45 [VALID; RE; WE; INT; NTF_HAL] 0 44 0; (* WNI_CFG_FIXED_RATE *)
  static 46 [VALID; RE; WE; INT; NTF_HAL] 0 31 1; (* WNI_CFG_FIXED_RATE_MULTICAST_24GHZ *)
  static 47 [VALID; RE; WE; INT; NTF_HAL] 0 31 5; (* WNI_CFG_FIXED_RATE_MULTICAST_5GHZ *)
  static 48 [VALID; RE; WE; INT; NTF_HAL] 0 255 4 (* WNI_CFG_RETRYRATE_POLICY *)
].

Definition cfg_static_3 : list cgstatic := [
  static 49 [VALID; RE; WE; INT; NTF_HAL] 0 255 0; (* WNI_CFG_RETRYRATE_SECONDARY *)
  static 50 [VALID; RE; WE; INT; NTF_HAL] 0 255 0; (* WNI_CFG_RETRYRATE_TERTIARY *)
  static 51 [VALID; RE; WE; INT] 0 1 0; (* WNI_CFG_APSD_ENABLED *)
  static 52 [VALID; RE; WE; INT] 0 1 1; (* WNI_CFG_SHARED_KEY_AUTH_ENABLE *)
  static 53 [VALID; RE; WE; INT] 0 1 1; (* WNI_CFG_OPEN_SYSTEM_AUTH_ENABLE *)
  static 54 [VALID; RE; WE; INT; RESTART] 0 65535 0; (* WNI_CFG_AUTHENTICATION_TYPE *)
  static 55 [VALID; RE; WE; INT; RESTART] 0 1 0; (* WNI_CFG_PRIVACY_ENABLED *)
  static 56 [VALID; RE; WE; INT; RESTART] 0 1 1; (* WNI_CFG_SHORT_PREAMBLE *)
  static 57 [VALID; RE; WE; INT] 0 1 1; (* WNI_CFG_SHORT_SLOT_TIME *)
  static 58 [VALID; RE; WE; INT; RESTART] 0 1 0; (* WNI_CFG_ACCEPT_SHORT_SLOT_ASSOC_ONLY *)
  static 59 [VALID; RE; WE; INT; RESTART] 0 1 0; (* WNI_CFG_QOS_ENABLED *)
  static 60 [VALID; RE; WE; INT; RESTART] 0 1 0; (* WNI_CFG_HCF_ENABLED *)
  static 61 [VALID; RE; WE; INT; RESTART] 0 1 0; (* WNI_CFG_RSN_ENABLED *)
  static 62 [VALID; RE; WE; INT; NTF_LIM] 0 180000 5000; (* WNI_CFG_BACKGROUND_SCAN_PERIOD *)
  static 63 [VALID; RE; WE; INT; RESTART] 0 256 64; (* WNI_CFG_MAX_NUM_PRE_AUTH *)
  static 64 [VALID; RE; WE; INT; NTF_LIM] 0 65535 40; (* WNI_CFG_HEART_BEAT_THRESHOLD *)
  static 65 [VALID; RE; WE; INT] 10 10000 70; (* WNI_CFG_PROBE_AFTER_HB_FAIL_TIMEOUT *)
  static 66 [VALID; RE] 0 0 0; (* WNI_CFG_MANUFACTURER_OUI *)
  static 67 [VALID; RE] 0 0 0; (* WNI_CFG_MANUFACTURER_NAME *)
  static 68 [VALID; RE] 0 0 0; (* WNI_CFG_MODEL_NUMBER *)
  static 69 [VALID; RE] 0 0 0; (* WNI_CFG_MODEL_NAME *)
  static 70 [VALID; RE] 0 0 0; (* WNI_CFG_MANUFACTURER_PRODUCT_NAME *)
  static 71 [VALID; RE] 0 0 0; (* WNI_CFG_MANUFACTURER_PRODUCT_VERSION *)
  static 72 [VALID; RE; WE; INT; RESTART] 0 1 1; (* WNI_CFG_11D_ENABLED *)
  static 73 [VALID; RE; WE] 0 0 0 (* WNI_CFG_MAX_TX_POWER_2_4 *)
].

Definition cfg_static_4 : list cgstatic := [
  static 74 [VALID; RE; WE] 0 0 0; (* WNI_CFG_MAX_TX_POWER_5 *)
  static 75 [VALID; RE; WE; INT; NTF_HAL] 0 3 3; (* WNI_CFG_NETWORK_DENSITY *)
  static 76 [VALID; RE; WE; INT; NTF_HAL] 1 2 2; (* WNI_CFG_ADAPTIVE_THRESHOLD_ALGORITHM *)
  static 77 [VALID; RE; WE; INT; NTF_HAL] 1 1 1; (* WNI_CFG_CURRENT_TX_ANTENNA *)
  static 78 [VALID; RE; WE; INT; NTF_HAL] 1 2 2; (* WNI_CFG_CURRENT_RX_ANTENNA *)
  static 79 [VALID; RE; WE; INT] 0 128 27; (* WNI_CFG_CURRENT_TX_POWER_LEVEL *)
  static 80 [VALID; RE; WE; INT] 0 1 0; (* WNI_CFG_NEW_BSS_FOUND_IND *)
  static 81 [VALID; RE; WE; INT; RESTART] 0 1 0; (* WNI_CFG_PROPRIETARY_RATES_ENABLED *)
  static 82 [VALID; RE; WE; NTF_SCH] 0 0 0; (* WNI_CFG_COUNTRY_CODE *)
  static 83 [VALID; RE; WE; INT; RESTART] 0 1 1; (* WNI_CFG_11H_ENABLED *)
  static 84 [VALID; RE; WE; INT] 10 3000 1000; (* WNI_CFG_WT_CNF_TIMEOUT *)
  static 85 [VALID; RE; WE; INT] 0 3600000 0; (* WNI_CFG_KEEPALIVE_TIMEOUT *)
  static 86 [VALID; RE; WE; INT; NTF_HAL] 0 1 0; (* WNI_CFG_PROXIMITY *)
  static 87 [VALID; RE; WE; INT] 0 7 4; (* WNI_CFG_LOG_LEVEL *)
  static 88 [VALID; RE; WE; INT] 1000 30000 10000; (* WNI_CFG_OLBC_DETECT_TIMEOUT *)
  static 89 [VALID; RE; WE; INT; RESTART; NTF_LIM] 0 65535 65535; (* WNI_CFG_PROTECTION_ENABLED *)
  static 90 [VALID; RE; WE; INT; RESTART] 0 1 0; (* WNI_CFG_11G_PROTECTION_ALWAYS *)
  static 91 [VALID; RE; WE; INT; RESTART; NTF_HAL] 0 5 5; (* WNI_CFG_FORCE_POLICY_PROTECTION *)
  static 92 [VALID; RE; WE; INT; RESTART] 0 1 0; (* WNI_CFG_11G_SHORT_PREAMBLE_ENABLED *)
  static 93 [VALID; RE; WE; INT; RESTART] 0 1 1; (* WNI_CFG_11G_SHORT_SLOT_TIME_ENABLED *)
  static 94 [VALID; RE; WE; INT] 0 1 0; (* WNI_CFG_11G_ONLY_POLICY *)
  static 95 [VALID; RE; WE; INT; NTF_HAL] 0 3 0; (* WNI_CFG_PACKET_CLASSIFICATION *)
  static 96 [VALID; RE; WE; INT; RESTART] 0 1 1 (* WNI_CFG_WME_ENABLED *)
].

Definition cfg_static_5 : list cgstatic := [
  static 97 [VALID; RE; WE; INT] 0 65535 1000; (* WNI_CFG_ADDTS_RSP_TIMEOUT *)
  static 98 [VALID; RE; WE; INT] 0 3 0; (* WNI_CFG_MAX_SP_LENGTH *)
  static 99 [VALID; RE; WE; INT] 0 1 0; (* WNI_CFG_SEND_SINGLE_SSID_ALWAYS *)
  static 100 [VALID; RE; WE; INT] 0 1 0; (* WNI_CFG_WSM_ENABLED *)
  static 101 [VALID; RE; WE; INT; NTF_SCH] 0 255 1; (* WNI_CFG_EDCA_PROFILE *)
  static 102 [VALID; RE; WE; RESTART] 0 0 0; (* WNI_CFG_EDCA_ANI_ACBK_LOCAL *)
  static 103 [VALID; RE; WE; RESTART] 0 0 0; (* WNI_CFG_EDCA_ANI_ACBE_LOCAL *)
  static 104 [VALID; RE; WE; RESTART] 0 0 0; (* WNI_CFG_EDCA_ANI_ACVI_LOCAL *)
  static 105 [VALID; RE; WE; RESTART] 0 0 0; (* WNI_CFG_EDCA_ANI_ACVO_LOCAL *)
  static 106 [VALID; RE; WE; RESTART] 0 0 0; (* WNI_CFG_EDCA_ANI_ACBK *)
  static 107 [VALID; RE; WE; RESTART] 0 0 0; (* WNI_CFG_EDCA_ANI_ACBE *)
  static 108 [VALID; RE; WE; RESTART] 0 0 0; (* WNI_CFG_EDCA_ANI_ACVI *)
  static 109 [VALID; RE; WE; RESTART] 0 0 0; (* WNI_CFG_EDCA_ANI_ACVO *)
  static 110 [VALID; RE; WE; RESTART] 0 0 0; (* WNI_CFG_EDCA_WME_ACBK_LOCAL *)
  static 111 [VALID; RE; WE; RESTART] 0 0 0; (* WNI_CFG_EDCA_WME_ACBE_LOCAL *)
  static 112 [VALID; RE; WE; RESTART] 0 0 0; (* WNI_CFG_EDCA_WME_ACVI_LOCAL *)
  static 113 [VALID; RE; WE; RESTART] 0 0 0; (* WNI_CFG_EDCA_WME_ACVO_LOCAL *)
  static 114 [VALID; RE; WE; RESTART] 0 0 0; (* WNI_CFG_EDCA_WME_ACBK *)
  static 115 [VALID; RE; WE; RESTART] 0 0 0; (* WNI_CFG_EDCA_WME_ACBE *)
  static 116 [VALID; RE; WE; RESTART] 0 0 0; (* WNI_CFG_EDCA_WME_ACVI *)
  static 117 [VALID; RE; WE; RESTART] 0 0 0; (* WNI_CFG_EDCA_WME_ACVO *)
  static 118 [VALID; RE; WE; INT] 0 1 0; (* WNI_CFG_RDET_FLAG *)
  static 119 [VALID; RE; WE; RESTART] 0 0 0; (* WNI_CFG_RADAR_CHANNEL_LIST *)
  static 120 [VALID; RE; WE; INT; RESTART] 0 255 0; (* WNI_CFG_LOCAL_POWER_CONSTRAINT *)
  static 121 [VALID; RE; WE; INT; RESTART] 0 2 0; (* WNI_CFG_ADMIT_POLICY *)
  static 122 [VALID; RE; WE; INT; RESTART] 0 100 20; (* WNI_CFG_ADMIT_BWFACTOR *)
  static 123 [VALID; RE; WE; INT; RESTART] 0 256 60; (* WNI_CFG_MAX_CONSECUTIVE_BACKGROUND_SCAN_FAILURE *)
  static 124 [VALID; RE; WE; INT; RESTART; NTF_LIM] 0 10 0; (* WNI_CFG_CHANNEL_BONDING_MODE *)
  static 125 [VALID; RE; WE; INT] 0 10 0 (* WNI_CFG_CB_SECONDARY_CHANNEL_STATE *)
].

Definition cfg_static_6 : list cgstatic := [
  static 126 [VALID; RE; WE; INT; NTF_HAL] 0 255 2; (* WNI_CFG_DYNAMIC_THRESHOLD_ZERO *)
  static 127 [VALID; RE; WE; INT; NTF_HAL] 0 255 4; (* WNI_CFG_DYNAMIC_THRESHOLD_ONE *)
  static 128 [VALID; RE; WE; INT; NTF_HAL] 0 255 6; (* WNI_CFG_DYNAMIC_THRESHOLD_TWO *)
  static 129 [VALID; RE; WE; INT; NTF_LIM] 0 1 0; (* WNI_CFG_TRIG_STA_BK_SCAN *)
  static 130 [VALID; RE; WE; INT; RESTART] 0 255 255; (* WNI_CFG_DYNAMIC_PROFILE_SWITCHING *)
  static 131 [VALID; RE; WE; RESTART; NTF_LIM] 0 0 0; (* WNI_CFG_SCAN_CONTROL_LIST *)
  static 132 [VALID; RE; WE; INT; RELOAD] 0 1 1; (* WNI_CFG_MIMO_ENABLED *)
  static 133 [VALID; RE; WE; INT; RESTART; NTF_LIM] 0 3 0; (* WNI_CFG_BLOCK_ACK_ENABLED *)
  static 134 [VALID; RE; WE; INT; NTF_HAL] 0 65535 1000; (* WNI_CFG_BA_ACTIVITY_CHECK_TIMEOUT *)
  static 135 [VALID; RE; WE; INT; RESTART; NTF_LIM] 0 3 1; (* WNI_CFG_HT_RX_STBC *)
  static 136 [VALID; RE; WE; INT; RESTART; NTF_LIM] 0 65535 364; (* WNI_CFG_HT_CAP_INFO *)
  static 137 [VALID; RE; WE; INT; RESTART; NTF_LIM] 0 255 0; (* WNI_CFG_HT_AMPDU_PARAMS *)
  static 138 [VALID; RE; WE; SAVE; RESTART; NTF_LIM] 0 0 0; (* WNI_CFG_SUPPORTED_MCS_SET *)
  static 139 [VALID; RE; WE; INT; SAVE; RESTART; NTF_LIM] 0 65535 1024; (* WNI_CFG_EXT_HT_CAP_INFO *)
  static 140 [VALID; RE; INT; RESTART; NTF_LIM] 0 4294967295 0; (* WNI_CFG_TX_BF_CAP *)
  static 141 [VALID; RE; WE; INT; SAVE; RESTART; NTF_LIM] 0 255 0; (* WNI_CFG_AS_CAP *)
  static 142 [VALID; RE; WE; INT; RESTART; NTF_LIM] 0 255 15; (* WNI_CFG_HT_INFO_FIELD1 *)
  static 143 [VALID; RE; WE; INT; SAVE; NTF_LIM] 0 65535 0; (* WNI_CFG_HT_INFO_FIELD2 *)
  static 144 [VALID; RE; WE; INT; SAVE; NTF_LIM] 0 65535 0; (* WNI_CFG_HT_INFO_FIELD3 *)
  static 145 [VALID; RE; WE; SAVE; RESTART; NTF_LIM] 0 0 0; (* WNI_CFG_BASIC_MCS_SET *)
  static 146 [VALID; RE; WE; SAVE; RESTART; NTF_LIM] 0 0 0; (* WNI_CFG_CURRENT_MCS_SET *)
  static 147 [VALID; RE; WE; INT; RESTART; NTF_LIM] 0 1 0 (* WNI_CFG_GREENFIELD_CAPABILITY *)
].

Definition cfg_static_7 : list cgstatic := [
  static 148 [VALID; RE; WE; INT; NTF_LIM] 0 2 0; (* WNI_CFG_VHT_MAX_MPDU_LENGTH *)
  static 149 [VALID; RE; WE; INT; NTF_LIM] 0 0 0; (* WNI_CFG_VHT_SUPPORTED_CHAN_WIDTH_SET *)
  static 150 [VALID; RE; WE; INT; NTF_LIM] 0 1 0; (* WNI_CFG_VHT_LDPC_CODING_CAP *)
  static 151 [VALID; RE; WE; INT; NTF_LIM] 0 1 1; (* WNI_CFG_VHT_SHORT_GI_80MHZ *)
  static 152 [VALID; RE; WE; INT; NTF_LIM] 0 1 0; (* WNI_CFG_VHT_SHORT_GI_160_AND_80_PLUS_80MHZ *)
  static 153 [VALID; RE; WE; INT; NTF_LIM] 0 1 0; (* WNI_CFG_VHT_TXSTBC *)
  static 154 [VALID; RE; WE; INT; NTF_LIM] 0 1 1; (* WNI_CFG_VHT_RXSTBC *)
  static 155 [VALID; RE; WE; INT; NTF_LIM] 0 1 0; (* WNI_CFG_VHT_SU_BEAMFORMER_CAP *)
  static 156 [VALID; RE; WE; INT; NTF_LIM] 0 1 1; (* WNI_CFG_VHT_SU_BEAMFORMEE_CAP *)
  static 157 [VALID; RE; WE; INT; NTF_LIM] 0 4 0; (* WNI_CFG_VHT_CSN_BEAMFORMEE_ANT_SUPPORTED *)
  static 158 [VALID; RE; WE; INT; NTF_LIM] 0 3 0; (* WNI_CFG_VHT_NUM_SOUNDING_DIMENSIONS *)
  static 159 [VALID; RE; WE; INT; NTF_LIM] 0 1 0; (* WNI_CFG_VHT_MU_BEAMFORMER_CAP *)
  static 160 [VALID; RE; WE; INT; NTF_LIM] 0 1 1; (* WNI_CFG_VHT_MU_BEAMFORMEE_CAP *)
  static 161 [VALID; RE; WE; INT; NTF_LIM] 0 1 0; (* WNI_CFG_VHT_TXOP_PS *)
  static 162 [VALID; RE; WE; INT; NTF_LIM] 0 1 0; (* WNI_CFG_VHT_HTC_VHTC_CAP *)
  static 163 [VALID; RE; WE; INT; NTF_LIM] 0 7 3; (* WNI_CFG_VHT_AMPDU_LEN_EXPONENT *)
  static 164 [VALID; RE; WE; INT; NTF_LIM] 0 3 0; (* WNI_CFG_VHT_LINK_ADAPTATION_CAP *)
  static 165 [VALID; RE; WE; INT; NTF_LIM] 0 1 1; (* WNI_CFG_VHT_RX_ANT_PATTERN *)
  static 166 [VALID; RE; WE; INT; NTF_LIM] 0 1 1; (* WNI_CFG_VHT_TX_ANT_PATTERN *)
  static 167 [VALID; RE; WE; INT; NTF_LIM] 0 65535 65534; (* WNI_CFG_VHT_RX_MCS_MAP *)
  static 168 [VALID; RE; WE; INT; NTF_LIM] 0 65535 65534 (* WNI_CFG_VHT_TX_MCS_MAP *)
].

Definition cfg_static_8 : list cgstatic := [
  static 169 [VALID; RE; WE; INT; NTF_LIM] 0 780 780; (* WNI_CFG_VHT_RX_HIGHEST_SUPPORTED_DATA_RATE *)
  static 170 [VALID; RE; WE; INT; NTF_LIM] 0 780 780; (* WNI_CFG_VHT_TX_HIGHEST_SUPPORTED_DATA_RATE *)
  static 171 [VALID; RE; WE; INT; NTF_LIM] 0 256 0; (* WNI_CFG_VHT_CHANNEL_CENTER_FREQ_SEGMENT1 *)
  static 172 [VALID; RE; WE; INT; NTF_LIM] 0 0 0; (* WNI_CFG_VHT_CHANNEL_CENTER_FREQ_SEGMENT2 *)
  static 173 [VALID; RE; WE; INT; NTF_LIM] 0 65535 65534; (* WNI_CFG_VHT_BASIC_MCS_SET *)
  static 174 [VALID; RE; WE; INT; NTF_LIM] 0 4 0; (* WNI_CFG_VHT_MU_MIMO_CAP_STA_COUNT *)
  static 175 [VALID; RE; WE; INT; NTF_LIM] 0 0 0; (* WNI_CFG_VHT_SS_UNDER_UTIL *)
  static 176 [VALID; RE; WE; INT; NTF_LIM] 0 0 0; (* WNI_CFG_VHT_40MHZ_UTILIZATION *)
  static 177 [VALID; RE; WE; INT; NTF_LIM] 0 0 0; (* WNI_CFG_VHT_80MHZ_UTILIZATION *)
  static 178 [VALID; RE; WE; INT; NTF_LIM] 0 0 0; (* WNI_CFG_VHT_160MHZ_UTILIZATION *)
  static 179 [VALID; RE; WE; INT; RESTART; NTF_LIM] 0 1 0; (* WNI_CFG_MAX_AMSDU_LENGTH *)
  static 180 [VALID; RE; WE; INT; RESTART; NTF_LIM] 0 7 7; (* WNI_CFG_MPDU_DENSITY *)
  static 181 [VALID; RE; WE; INT; NTF_LIM] 0 128 64; (* WNI_CFG_NUM_BUFF_ADVERT *)
  static 182 [VALID; RE; WE; INT; RESTART; NTF_LIM] 0 3 3; (* WNI_CFG_MAX_RX_AMPDU_FACTOR *)
  static 183 [VALID; RE; WE; INT; RESTART; NTF_LIM] 0 1 1; (* WNI_CFG_SHORT_GI_20MHZ *)
  static 184 [VALID; RE; WE; INT; RESTART; NTF_LIM] 0 1 0; (* WNI_CFG_SHORT_GI_40MHZ *)
  static 185 [VALID; RE; WE; INT; RESTART] 0 1 1; (* WNI_CFG_RIFS_ENABLED *)
  static 186 [VALID; RE; WE; INT; NTF_LIM] 0 255 0; (* WNI_CFG_MAX_PS_POLL *)
  static 187 [VALID; RE; WE; INT; NTF_LIM] 1 20 20; (* WNI_CFG_NUM_BEACON_PER_RSSI_AVERAGE *)
  static 188 [VALID; RE; WE; INT; NTF_LIM] 0 255 5; (* WNI_CFG_RSSI_FILTER_PERIOD *)
  static 189 [VALID; RE; WE; INT; NTF_LIM] 0 10 10 (* WNI_CFG_MIN_RSSI_THRESHOLD *)
].

Definition cfg_static_9 : list cgstatic := [
  static 190 [VALID; RE; WE; INT; NTF_LIM] 0 255 10; (* WNI_CFG_NTH_BEACON_FILTER *)
  static 191 [VALID; RE; WE; INT; NTF_LIM] 0 1 0; (* WNI_CFG_BROADCAST_FRAME_FILTER_ENABLE *)
  static 192 [VALID; RE; WE; INT; NTF_LIM] 0 1 1; (* WNI_CFG_SCAN_IN_POWERSAVE *)
  static 193 [VALID; RE; WE; INT] 0 1 0; (* WNI_CFG_IGNORE_DTIM *)
  static 194 [VALID; RE; WE; INT] 0 1 1; (* WNI_CFG_WOWLAN_UCAST_PATTERN_FILTER_ENABLE *)
  static 195 [VALID; RE; WE; INT] 0 1 1; (* WNI_CFG_WOWLAN_CHANNEL_SWITCH_ENABLE *)
  static 196 [VALID; RE; WE; INT] 0 1 1; (* WNI_CFG_WOWLAN_DEAUTH_ENABLE *)
  static 197 [VALID; RE; WE; INT] 0 1 1; (* WNI_CFG_WOWLAN_DISASSOC_ENABLE *)
  static 198 [VALID; RE; WE; INT] 0 65535 40; (* WNI_CFG_WOWLAN_MAX_MISSED_BEACON *)
  static 199 [VALID; RE; WE; INT] 0 65535 65535; (* WNI_CFG_WOWLAN_MAX_SLEEP_PERIOD *)
  static 200 [VALID; RE; WE; INT; RESTART; NTF_HAL] 0 65535 0; (* WNI_CFG_BA_TIMEOUT *)
  static 201 [VALID; RE; WE; INT; RESTART; NTF_HAL] 0 65535 128; (* WNI_CFG_BA_THRESHOLD_HIGH *)
  static 202 [VALID; RE; WE; INT; RESTART; NTF_HAL] 0 2560 2560; (* WNI_CFG_MAX_BA_BUFFERS *)
  static 203 [VALID; RE; WE; INT; RESTART; NTF_HAL] 0 64 40; (* WNI_CFG_MAX_BA_SESSIONS *)
  static 204 [VALID; RE; WE; INT; RESTART; NTF_HAL] 0 1 1; (* WNI_CFG_BA_AUTO_SETUP *)
  static 205 [VALID; RE; WE; INT; RESTART; NTF_LIM] 0 255 0; (* WNI_CFG_ADDBA_REQ_DECLINE *)
  static 206 [VALID; RE; WE; INT; NTF_LIM] 0 1 0; (* WNI_CFG_DEL_ALL_RX_BA_SESSIONS_2_4_G_BTC *)
  static 207 [VALID; RE; WE; NTF_LIM] 0 0 0; (* WNI_CFG_BG_SCAN_CHANNEL_LIST *)
  static 208 [VALID; RE; WE; INT; NTF_HAL] 0 65535 2048; (* WNI_CFG_MAX_MEDIUM_TIME *)
  static 209 [VALID; RE; WE; INT; NTF_HAL] 0 65535 64; (* WNI_CFG_MAX_MPDUS_IN_AMPDU *)
  static 210 [VALID; RE; WE; INT] 0 1 1; (* WNI_CFG_IBSS_AUTO_BSSID *)
  static 211 [VALID; RE; WE; INT] 0 1 0; (* WNI_CFG_PROBE_REQ_ADDNIE_FLAG *)
  static 212 [VALID; RE; WE] 0 0 0 (* WNI_CFG_PROBE_REQ_ADDNIE_DATA *)
].

Definition cfg_static_10 : list cgstatic := [
  static 213 [VALID; RE; WE; INT] 0 1 0; (* WNI_CFG_PROBE_RSP_ADDNIE_FLAG *)
  static 214 [VALID; RE; WE] 0 0 0; (* WNI_CFG_PROBE_RSP_ADDNIE_DATA1 *)
  static 215 [VALID; RE; WE] 0 0 0; (* WNI_CFG_PROBE_RSP_ADDNIE_DATA2 *)
  static 216 [VALID; RE; WE] 0 0 0; (* WNI_CFG_PROBE_RSP_ADDNIE_DATA3 *)
  static 217 [VALID; RE; WE; INT] 0 1 0; (* WNI_CFG_ASSOC_RSP_ADDNIE_FLAG *)
  static 218 [VALID; RE; WE] 0 0 0; (* WNI_CFG_ASSOC_RSP_ADDNIE_DATA *)
  static 219 [VALID; RE; WE; INT] 0 1 0; (* WNI_CFG_PROBE_REQ_ADDNP2PIE_FLAG *)
  static 220 [VALID; RE; WE] 0 0 0; (* WNI_CFG_PROBE_REQ_ADDNP2PIE_DATA *)
  static 221 [VALID; RE; WE; INT; NTF_LIM] 0 1 0; (* WNI_CFG_PROBE_RSP_BCN_ADDNIE_FLAG *)
  static 222 [VALID; RE; WE; NTF_LIM] 0 0 0; (* WNI_CFG_PROBE_RSP_BCN_ADDNIE_DATA *)
  static 223 [VALID; RE; WE; INT; NTF_LIM] 0 255 0; (* WNI_CFG_WPS_ENABLE *)
  static 224 [VALID; RE; WE; INT; NTF_LIM] 0 255 1; (* WNI_CFG_WPS_STATE *)
  static 225 [VALID; RE; WE; INT; NTF_LIM] 0 1 0; (* WNI_CFG_WPS_PROBE_REQ_FLAG *)
  static 226 [VALID; RE; WE; INT; NTF_LIM] 0 255 16; (* WNI_CFG_WPS_VERSION *)
  static 227 [VALID; RE; WE; INT; NTF_LIM] 0 255 0; (* WNI_CFG_WPS_REQUEST_TYPE *)
  static 228 [VALID; RE; WE; INT; NTF_LIM] 0 4294967295 8; (* WNI_CFG_WPS_CFG_METHOD *)
  static 229 [VALID; RE; WE; NTF_LIM] 0 0 0; (* WNI_CFG_WPS_UUID *)
  static 230 [VALID; RE; WE; INT; NTF_LIM] 0 65535 1; (* WNI_CFG_WPS_PRIMARY_DEVICE_CATEGORY *)
  static 231 [VALID; RE; WE; INT; NTF_LIM] 0 4294967295 5304836; (* WNI_CFG_WPS_PIMARY_DEVICE_OUI *)
  static 232 [VALID; RE; WE; INT; NTF_LIM] 0 65535 1; (* WNI_CFG_WPS_DEVICE_SUB_CATEGORY *)
  static 233 [VALID; RE; WE; INT; NTF_LIM] 0 65535 0; (* WNI_CFG_WPS_ASSOCIATION_STATE *)
  static 234 [VALID; RE; WE; INT; NTF_LIM] 0 65535 0; (* WNI_CFG_WPS_CONFIGURATION_ERROR *)
  static 235 [VALID; RE; WE; INT; NTF_LIM] 0 4294967295 0; (* WNI_CFG_WPS_DEVICE_PASSWORD_ID *)
  static 236 [VALID; RE; WE; INT; NTF_LIM] 0 65535 0; (* WNI_CFG_WPS_ASSOC_METHOD *)
  static 237 [VALID; RE; WE; INT; NTF_HAL] 0 1 0 (* WNI_CFG_LOW_GAIN_OVERRIDE *)
].

Definition cfg_static_11 : list cgstatic := [
  static 238 [VALID; RE; WE; INT; NTF_HAL] 0 128 128; (* WNI_CFG_ENABLE_PHY_AGC_LISTEN_MODE *)
  static 239 [VALID; RE; WE; INT; NTF_HAL] 0 65535 10; (* WNI_CFG_RPE_POLLING_THRESHOLD *)
  static 240 [VALID; RE; WE; INT; NTF_HAL] 0 65535 30; (* WNI_CFG_RPE_AGING_THRESHOLD_FOR_AC0_REG *)
  static 241 [VALID; RE; WE; INT; NTF_HAL] 0 65535 30; (* WNI_CFG_RPE_AGING_THRESHOLD_FOR_AC1_REG *)
  static 242 [VALID; RE; WE; INT; NTF_HAL] 0 65535 30; (* WNI_CFG_RPE_AGING_THRESHOLD_FOR_AC2_REG *)
  static 243 [VALID; RE; WE; INT; NTF_HAL] 0 65535 30; (* WNI_CFG_RPE_AGING_THRESHOLD_FOR_AC3_REG *)
  static 244 [VALID; RE; WE; INT; NTF_HAL] 0 2 1; (* WNI_CFG_NO_OF_ONCHIP_REORDER_SESSIONS *)
  static 245 [VALID; RE; WE; INT] 0 1 1; (* WNI_CFG_SINGLE_TID_RC *)
  static 246 [VALID; RE; WE; INT] 0 1 1; (* WNI_CFG_TX_PWR_CTRL_ENABLE *)
  static 247 [VALID; RE; WE; INT; NTF_HAL] 0 3 0; (* WNI_CFG_MCAST_BCAST_FILTER_SETTING *)
  static 248 [VALID; RE; WE; INT; NTF_HAL] 0 255 0; (* WNI_CFG_BTC_DHCP_BT_SLOTS_TO_BLOCK *)
  static 249 [VALID; RE; WE; INT; NTF_HAL] 0 255 0; (* WNI_CFG_DYNAMIC_PS_POLL_VALUE *)
  static 250 [VALID; RE; WE; INT; NTF_HAL] 0 80 0; (* WNI_CFG_PS_NULLDATA_AP_RESP_TIMEOUT *)
  static 251 [VALID; RE; WE; INT; NTF_HAL] 0 1 0; (* WNI_CFG_TELE_BCN_WAKEUP_EN *)
  static 252 [VALID; RE; WE; INT; NTF_HAL] 0 7 3; (* WNI_CFG_TELE_BCN_TRANS_LI *)
  static 253 [VALID; RE; WE; INT; NTF_HAL] 5 255 10; (* WNI_CFG_TELE_BCN_TRANS_LI_IDLE_BCNS *)
  static 254 [VALID; RE; WE; INT; NTF_HAL] 0 7 5; (* WNI_CFG_TELE_BCN_MAX_LI *)
  static 255 [VALID; RE; WE; INT; NTF_HAL] 5 255 15; (* WNI_CFG_TELE_BCN_MAX_LI_IDLE_BCNS *)
  static 256 [VALID; RE; WE; INT; NTF_HAL] 0 255 7; (* WNI_CFG_BTC_A2DP_DHCP_BT_SUB_INTERVALS *)
  static 257 [VALID; RE; WE; INT; NTF_HAL] 0 1000 0; (* WNI_CFG_INFRA_STA_KEEP_ALIVE_PERIOD *)
  static 258 [VALID; RE; WE; INT; NTF_LIM] 1 32 10; (* WNI_CFG_ASSOC_STA_LIMIT *)
  static 259 [VALID; RE; WE; INT] 1 252 1 (* WNI_CFG_SAP_CHANNEL_SELECT_START_CHANNEL *)
].

Definition cfg_static_12 : list cgstatic := [
  static 260 [VALID; RE; WE; INT] 1 252 11; (* WNI_CFG_SAP_CHANNEL_SELECT_END_CHANNEL *)
  static 261 [VALID; RE; WE; INT] 0 5 0; (* WNI_CFG_SAP_CHANNEL_SELECT_OPERATING_BAND *)
  static 262 [VALID; RE; WE; INT] 0 65535 5; (* WNI_CFG_AP_DATA_AVAIL_POLL_PERIOD *)
  static 263 [VALID; RE; WE; INT] 0 1 0; (* WNI_CFG_ENABLE_CLOSE_LOOP *)
  static 264 [VALID; RE; WE; INT] 0 1 0; (* WNI_CFG_ENABLE_LTE_COEX *)
  static 265 [VALID; RE; WE; INT; NTF_HAL] 1 65535 20; (* WNI_CFG_AP_KEEP_ALIVE_TIMEOUT *)
  static 266 [VALID; RE; WE; INT; NTF_HAL] 1 65535 20; (* WNI_CFG_GO_KEEP_ALIVE_TIMEOUT *)
  static 267 [VALID; RE; WE; INT; NTF_HAL] 0 1 0; (* WNI_CFG_ENABLE_MC_ADDR_LIST *)
  static 268 [VALID; RE; WE; INT; NTF_HAL] 0 1 0; (* WNI_CFG_ENABLE_UC_FILTER *)
  static 269 [VALID; RE; WE; INT] 0 1 0; (* WNI_CFG_ENABLE_LPWR_IMG_TRANSITION *)
  static 270 [VALID; RE; WE; INT] 0 1 0; (* WNI_CFG_ENABLE_MCC_ADAPTIVE_SCHED *)
  static 271 [VALID; RE; WE; INT] 0 1 0; (* WNI_CFG_DISABLE_LDPC_WITH_TXBF_AP *)
  static 272 [VALID; RE; WE; INT; NTF_HAL] 1 255 3; (* WNI_CFG_AP_LINK_MONITOR_TIMEOUT *)
  static 273 [VALID; RE; WE; INT; NTF_LIM] 0 15 0; (* WNI_CFG_TDLS_QOS_WMM_UAPSD_MASK *)
  static 274 [VALID; RE; WE; INT; NTF_LIM] 0 1 0; (* WNI_CFG_TDLS_BUF_STA_ENABLED *)
  static 275 [VALID; RE; WE; INT; NTF_LIM] 0 10 0; (* WNI_CFG_TDLS_PUAPSD_INACT_TIME *)
  static 276 [VALID; RE; WE; INT; NTF_LIM] 10 20 10; (* WNI_CFG_TDLS_RX_FRAME_THRESHOLD *)
  static 277 [VALID; RE; WE; INT; RESTART] 0 20 5; (* WNI_CFG_PMF_SA_QUERY_MAX_RETRIES *)
  static 278 [VALID; RE; WE; INT; RESTART] 10 2000 200; (* WNI_CFG_PMF_SA_QUERY_RETRY_INTERVAL *)
  static 279 [VALID; RE; WE; INT; NTF_HAL] 0 1 1; (* WNI_CFG_ENABLE_ADAPT_RX_DRAIN *)
  static 280 [VALID; RE; WE; INT] 0 9 0; (* WNI_CFG_FLEX_CONNECT_POWER_FACTOR *)
  static 281 [VALID; RE; WE; INT; NTF_HAL] 0 3 0 (* WNI_CFG_ANTENNA_DIVESITY *)
].

Definition cfg_static_13 : list cgstatic := [
  static 282 [VALID; RE; WE; INT; NTF_HAL] 3 50 10; (* WNI_CFG_GO_LINK_MONITOR_TIMEOUT *)
  static 283 [VALID; RE; WE; INT; NTF_HAL] 100 1000 300; (* WNI_CFG_RMC_ACTION_PERIOD_FREQUENCY *)
  static 284 [VALID; RE; WE; INT] 0 127 0; (* WNI_CFG_CURRENT_RSSI *)
  static 285 [VALID; RE; WE; INT] 0 1 1; (* WNI_CFG_RTT3_ENABLE *)
  static 286 [VALID; RE; WE; INT] 0 1 0; (* WNI_CFG_DEBUG_P2P_REMAIN_ON_CHANNEL *)
  static 287 [VALID; RE; WE; INT; NTF_LIM] 0 1 0; (* WNI_CFG_TDLS_OFF_CHANNEL_ENABLED *)
  static 288 [VALID; RE; WE; INT] 0 100 0; (* WNI_CFG_IBSS_ATIM_WIN_SIZE *)
  static 289 [VALID; RE; WE; INT] 0 1 0; (* WNI_CFG_DFS_MASTER_ENABLED *)
  static 290 [VALID; RE; WE; INT] 0 1 0; (* WNI_CFG_VHT_ENABLE_TXBF_20MHZ *)
  static 291 [VALID; RE; WE; INT; NTF_LIM] 0 1 0; (* WNI_CFG_TDLS_WMM_MODE_ENABLED *)
  static 292 [VALID; RE; WE; INT] 0 32 32; (* WNI_CFG_TGT_GTX_USR_CFG *)
  static 293 [VALID; RE; WE; INT; NTF_LIM] 1 32 10; (* WNI_CFG_ASSOC_STA_LIMIT_GO *)
  static 294 [VALID; RE; WE; INT; NTF_LIM] 1 32 10; (* WNI_CFG_ASSOC_STA_LIMIT_AP *)
  static 295 [VALID; RE; WE; INT] 0 383 0; (* WNI_CFG_MAX_HT_MCS_TX_DATA *)
  static 296 [VALID; RE; WE; INT] 0 1 0; (* WNI_CFG_DISABLE_ABG_RATE_FOR_TX_DATA *)
  static 297 [VALID; RE; WE; INT] 0 255 255; (* WNI_CFG_RATE_FOR_TX_MGMT *)
  static 298 [VALID; RE; WE; INT] 0 255 255; (* WNI_CFG_RATE_FOR_TX_MGMT_2G *)
  static 299 [VALID; RE; WE; INT] 0 255 255; (* WNI_CFG_RATE_FOR_TX_MGMT_5G *)
  static 300 [VALID; RE; WE; RESTART] 0 0 0; (* WNI_CFG_EDCA_ETSI_ACBK_LOCAL *)
  static 301 [VALID; RE; WE; RESTART] 0 0 0; (* WNI_CFG_EDCA_ETSI_ACBE_LOCAL *)
  static 302 [VALID; RE; WE; RESTART] 0 0 0; (* WNI_CFG_EDCA_ETSI_ACVI_LOCAL *)
  static 303 [VALID; RE; WE; RESTART] 0 0 0; (* WNI_CFG_EDCA_ETSI_ACVO_LOCAL *)
  static 304 [VALID; RE; WE; RESTART] 0 0 0; (* WNI_CFG_EDCA_ETSI_ACBK *)
  static 305 [VALID; RE; WE; RESTART] 0 0 0; (* WNI_CFG_EDCA_ETSI_ACBE *)
  static 306 [VALID; RE; WE; RESTART] 0 0 0; (* WNI_CFG_EDCA_ETSI_ACVI *)
  static 307 [VALID; RE; WE; RESTART] 0 0 0; (* WNI_CFG_EDCA_ETSI_ACVO *)
  static 310 [VALID; RE; WE; RESTART] 0 0 0 (* WNI_CFG_EDCA_HOSTAPD_ACBK_LOCAL *)
].

Definition cfg_static_14 : list cgstatic := [
  static 311 [VALID; RE; WE; RESTART] 0 0 0; (* WNI_CFG_EDCA_HOSTAPD_ACBE_LOCAL *)
  static 309 [VALID; RE; WE; RESTART] 0 0 0; (* WNI_CFG_EDCA_HOSTAPD_ACVI_LOCAL *)
  static 308 [VALID; RE; WE; RESTART] 0 0 0; (* WNI_CFG_EDCA_HOSTAPD_ACVO_LOCAL *)
  static 312 [VALID; RE; WE; INT] 0 1 0 (* WNI_CFG_REMOVE_TIME_SYNC_CMD *)
].

Definition cfg_static : list cgstatic :=
  cfg_static_1 ++ cfg_static_2 ++ cfg_static_3 ++ cfg_static_4 ++ cfg_static_5 ++ cfg_static_6 ++ cfg_static_7 ++ cfg_static_8 ++ cfg_static_9 ++ cfg_static_10 ++ cfg_static_11 ++ cfg_static_12 ++ cfg_static_13 ++ cfg_static_14.

Definition cfg_static_string_1 : list cfgstatic_string := [
  string 0 6 6 [34; 34; 68; 68; 51; 51]; (* WNI_CFG_STA_ID *)
  string 3 32 10 [1; 2; 3; 4; 5; 6; 7; 8; 9; 0]; (* WNI_CFG_SSID *)
  string 7 13 0 [0]; (* WNI_CFG_WEP_DEFAULT_KEY_1 *)
  string 8 13 0 [0]; (* WNI_CFG_WEP_DEFAULT_KEY_2 *)
  string 9 13 0 [0]; (* WNI_CFG_WEP_DEFAULT_KEY_3 *)
  string 10 13 0 [0]; (* WNI_CFG_WEP_DEFAULT_KEY_4 *)
  string 32 4 4 [2; 4; 11; 22]; (* WNI_CFG_SUPPORTED_RATES_11B *)
  string 33 8 8 [12; 18; 24; 36; 48; 72; 96; 108]; (* WNI_CFG_SUPPORTED_RATES_11A *)
  string 36 12 0 [0]; (* WNI_CFG_OPERATIONAL_RATE_SET *)
  string 37 8 0 [0]; (* WNI_CFG_EXTENDED_OPERATIONAL_RATE_SET *)
  string 38 4 4 [1; 3; 5; 7]; (* WNI_CFG_PROPRIETARY_OPERATIONAL_RATE_SET *)
  string 40 100 55 [36; 40; 44; 48; 52; 56; 60; 64; 1; 6; 11; 34; 38; 42; 46; 2; 3; 4; 5; 7; 8; 9; 10; 12; 13; 14; 100; 104; 108; 112; 116; 120; 124; 128; 132; 136; 140; 149; 151; 153; 155; 157; 159; 161; 50; 54; 58; 62; 240; 242; 244; 246; 248; 250; 252]; (* WNI_CFG_VALID_CHANNEL_LIST *)
  string 66 3 3 [0; 10; 245]; (* WNI_CFG_MANUFACTURER_OUI *)
  string 67 64 8 [81; 117; 97; 108; 99; 111; 109; 109]; (* WNI_CFG_MANUFACTURER_NAME *)
  string 68 32 6 [77; 78; 49; 50; 51; 52]; (* WNI_CFG_MODEL_NUMBER *)
  string 69 32 7 [87; 70; 82; 52; 48; 51; 49]; (* WNI_CFG_MODEL_NAME *)
  string 70 32 6 [49; 49; 110; 45; 65; 80]; (* WNI_CFG_MANUFACTURER_PRODUCT_NAME *)
  string 71 32 6 [83; 78; 49; 50; 51; 52]; (* WNI_CFG_MANUFACTURER_PRODUCT_VERSION *)
  string 73 128 3 [1; 14; 20]; (* WNI_CFG_MAX_TX_POWER_2_4 *)
  string 74 128 3 [36; 126; 20]; (* WNI_CFG_MAX_TX_POWER_5 *)
  string 82 3 0 [0]; (* WNI_CFG_COUNTRY_CODE *)
  string 102 20 17 [0; 7; 0; 15; 3; 255; 0; 0; 31; 3; 255; 0; 0; 15; 3; 255; 0]; (* WNI_CFG_EDCA_ANI_ACBK_LOCAL *)
  string 103 20 17 [0; 2; 0; 15; 3; 255; 100; 0; 31; 3; 255; 100; 0; 15; 3; 255; 100]; (* WNI_CFG_EDCA_ANI_ACBE_LOCAL *)
  string 104 20 17 [0; 2; 0; 7; 0; 15; 200; 0; 15; 0; 31; 188; 0; 7; 0; 15; 200]; (* WNI_CFG_EDCA_ANI_ACVI_LOCAL *)
  string 105 20 17 [0; 2; 0; 3; 0; 7; 100; 0; 7; 0; 15; 102; 0; 3; 0; 7; 100]; (* WNI_CFG_EDCA_ANI_ACVO_LOCAL *)
  string 106 20 17 [0; 7; 0; 15; 3; 255; 0; 0; 31; 3; 255; 0; 0; 15; 3; 255; 0]; (* WNI_CFG_EDCA_ANI_ACBK *)
  string 107 20 17 [0; 2; 0; 15; 3; 255; 100; 0; 31; 3; 255; 100; 0; 15; 3; 255; 100]; (* WNI_CFG_EDCA_ANI_ACBE *)
  string 108 20 17 [0; 2; 0; 7; 0; 15; 200; 0; 15; 0; 31; 188; 0; 7; 0; 15; 200] (* WNI_CFG_EDCA_ANI_ACVI *)
].

Definition cfg_static_string_2 : list cfgstatic_string := [
  string 109 20 17 [0; 2; 0; 3; 0; 7; 100; 0; 7; 0; 15; 102; 0; 3; 0; 7; 100]; (* WNI_CFG_EDCA_ANI_ACVO *)
  string 110 20 17 [0; 7; 0; 15; 3; 255; 0; 0; 31; 3; 255; 0; 0; 15; 3; 255; 0]; (* WNI_CFG_EDCA_WME_ACBK_LOCAL *)
  string 111 20 17 [0; 3; 0; 15; 0; 63; 0; 0; 31; 3; 255; 0; 0; 15; 0; 63; 0]; (* WNI_CFG_EDCA_WME_ACBE_LOCAL *)
  string 112 20 17 [0; 1; 0; 7; 0; 15; 94; 0; 7; 0; 15; 188; 0; 7; 0; 15; 94]; (* WNI_CFG_EDCA_WME_ACVI_LOCAL *)
  string 113 20 17 [0; 1; 0; 3; 0; 7; 47; 0; 3; 0; 7; 102; 0; 3; 0; 7; 47]; (* WNI_CFG_EDCA_WME_ACVO_LOCAL *)
  string 114 20 17 [0; 7; 0; 15; 3; 255; 0; 0; 15; 3; 255; 0; 0; 15; 3; 255; 0]; (* WNI_CFG_EDCA_WME_ACBK *)
  string 115 20 17 [0; 3; 0; 15; 3; 255; 0; 0; 15; 3; 255; 0; 0; 15; 3; 255; 0]; (* WNI_CFG_EDCA_WME_ACBE *)
  string 116 20 17 [0; 2; 0; 7; 0; 15; 94; 0; 7; 0; 15; 188; 0; 7; 0; 15; 94]; (* WNI_CFG_EDCA_WME_ACVI *)
  string 117 20 17 [0; 2; 0; 3; 0; 7; 47; 0; 3; 0; 7; 102; 0; 3; 0; 7; 47]; (* WNI_CFG_EDCA_WME_ACVO *)
  string 300 20 17 [0; 7; 0; 15; 3; 255; 187; 0; 31; 3; 255; 0; 0; 15; 3; 255; 0]; (* WNI_CFG_EDCA_ETSI_ACBK_LOCAL *)
  string 301 20 17 [0; 3; 0; 15; 0; 63; 187; 0; 31; 3; 255; 0; 0; 15; 0; 63; 0]; (* WNI_CFG_EDCA_ETSI_ACBE_LOCAL *)
  string 302 20 17 [0; 1; 0; 7; 0; 15; 125; 0; 7; 0; 15; 188; 0; 7; 0; 15; 94]; (* WNI_CFG_EDCA_ETSI_ACVI_LOCAL *)
  string 303 20 17 [0; 1; 0; 3; 0; 7; 62; 0; 3; 0; 7; 102; 0; 3; 0; 7; 47]; (* WNI_CFG_EDCA_ETSI_ACVO_LOCAL *)
  string 304 20 17 [0; 7; 0; 15; 3; 255; 187; 0; 15; 3; 255; 0; 0; 15; 3; 255; 0]; (* WNI_CFG_EDCA_ETSI_ACBK *)
  string 305 20 17 [0; 3; 0; 15; 3; 255; 187; 0; 15; 3; 255; 0; 0; 15; 3; 255; 0]; (* WNI_CFG_EDCA_ETSI_ACBE *)
  string 306 20 17 [0; 2; 0; 7; 0; 15; 125; 0; 7; 0; 15; 188; 0; 7; 0; 15; 94]; (* WNI_CFG_EDCA_ETSI_ACVI *)
  string 307 20 17 [0; 2; 0; 3; 0; 7; 62; 0; 3; 0; 7; 102; 0; 3; 0; 7; 47]; (* WNI_CFG_EDCA_ETSI_ACVO *)
  string 308 20 18 [0; 0; 0; 0; 0; 0; 0; 0; 0; 0; 0; 0; 0; 0; 0; 0; 0; 0]; (* WNI_CFG_EDCA_HOSTAPD_ACVO_LOCAL *)
  string 309 20 18 [0; 0; 0; 0; 0; 0; 0; 0; 0; 0; 0; 0; 0; 0; 0; 0; 0; 0]; (* WNI_CFG_EDCA_HOSTAPD_ACVI_LOCAL *)
  string 310 20 18 [0; 0; 0; 0; 0; 0; 0; 0; 0; 0; 0; 0; 0; 0; 0; 0; 0; 0]; (* WNI_CFG_EDCA_HOSTAPD_ACBK_LOCAL *)
  string 311 20 18 [0; 0; 0; 0; 0; 0; 0; 0; 0; 0; 0; 0; 0; 0; 0; 0; 0; 0]; (* WNI_CFG_EDCA_HOSTAPD_ACBE_LOCAL *)
  string 119 20 15 [52; 56; 60; 64; 100; 104; 108; 112; 116; 120; 124; 128; 132; 136; 140]; (* WNI_CFG_RADAR_CHANNEL_LIST *)
  string 131 128 114 [1; 1; 2; 1; 3; 1; 4; 1; 5; 1; 6; 1; 7; 1; 8; 1; 9; 1; 10; 1; 11; 1; 12; 1; 13; 1; 14; 1; 34; 1; 36; 1; 38; 1; 40; 1; 42; 1; 44; 1; 46; 1; 48; 1; 50; 1; 52; 0; 54; 0; 56; 0; 58; 0; 60; 0; 62; 0; 64; 0; 100; 0; 104; 0; 108; 0; 112; 0; 116; 0; 120; 0; 124; 0; 128; 0; 132; 0; 136; 0; 140; 0; 144; 0; 149; 1; 151; 1; 153; 1; 155; 1; 157; 1; 159; 1; 161; 1; 165; 1; 240; 1; 242; 1; 244; 1; 246; 1; 248; 1; 250; 1; 252; 1] (* WNI_CFG_SCAN_CONTROL_LIST *)
].

Definition cfg_static_string_3 : list cfgstatic_string := [
  string 138 16 16 [255; 0; 0; 0; 0; 0; 0; 0; 0; 0; 0; 0; 0; 0; 0; 0]; (* WNI_CFG_SUPPORTED_MCS_SET *)
  string 145 16 16 [0; 0; 0; 0; 0; 0; 0; 0; 0; 0; 0; 0; 0; 0; 0; 0]; (* WNI_CFG_BASIC_MCS_SET *)
  string 146 16 16 [0; 0; 0; 0; 0; 0; 0; 0; 0; 0; 0; 0; 0; 0; 0; 0]; (* WNI_CFG_CURRENT_MCS_SET *)
  string 207 100 55 [36; 40; 44; 48; 52; 56; 60; 64; 1; 6; 11; 34; 38; 42; 46; 2; 3; 4; 5; 7; 8; 9; 10; 12; 13; 14; 100; 104; 108; 112; 116; 120; 124; 128; 132; 136; 140; 149; 151; 153; 155; 157; 159; 161; 50; 54; 58; 62; 240; 242; 244; 246; 248; 250; 252]; (* WNI_CFG_BG_SCAN_CHANNEL_LIST *)
  string 212 255 0 [0]; (* WNI_CFG_PROBE_REQ_ADDNIE_DATA *)
  string 214 255 0 [0]; (* WNI_CFG_PROBE_RSP_ADDNIE_DATA1 *)
  string 215 255 0 [0]; (* WNI_CFG_PROBE_RSP_ADDNIE_DATA2 *)
  string 216 255 0 [0]; (* WNI_CFG_PROBE_RSP_ADDNIE_DATA3 *)
  string 218 255 0 [0]; (* WNI_CFG_ASSOC_RSP_ADDNIE_DATA *)
  string 220 255 0 [0]; (* WNI_CFG_PROBE_REQ_ADDNP2PIE_DATA *)
  string 222 255 0 [0]; (* WNI_CFG_PROBE_RSP_BCN_ADDNIE_DATA *)
  string 229 16 6 [10; 11; 12; 13; 14; 15] (* WNI_CFG_WPS_UUID *)
].

Definition cfg_static_string : list cfgstatic_string :=
  cfg_static_string_1 ++ cfg_static_string_2 ++ cfg_static_string_3.
