(* ===== verification/Cfg.v ===== *)
(** * The configuration store

    [CORE/MAC/src/cfg/cfgApi.c] and the message handlers of [cfgProcMsg.c]: a fixed set of
    parameters, integers with a range and byte strings with a maximum length, kept in four
    arrays that the control words of the parameters index.  [CfgTable] is the table they are
    loaded from, [CfgProps] has the theorems. *)

From S2P Require Import Prelude CfgTable.

Local Open Scope c_scope.

(** ** Constants and state *)

Definition WNI_CFG_MAX : Z := 313.
Definition CFG_STA_IBUF_MAX_SIZE : Z := 250.
Definition CFG_STA_SBUF_MAX_SIZE : Z := 3465.
Definition CFG_MAX_STR_LEN : Z := 256.
Definition CFG_MAX_STATIC_STRING : Z := 70.
Definition CFG_BUF_INDX_MASK : Z := 0xfff.
Definition CFG_CTL_NTF_MASK : Z := 0xFFE00000.
Definition CFG_STA_MAGIC_DWORD : Z := 0xbeefbeef.
Definition WNI_CFG_LOG_LEVEL : Z := 87.
Definition WNI_CFG_MAX_TX_POWER_2_4 : Z := 73.
Definition WNI_CFG_MAX_TX_POWER_5 : Z := 74.

Inductive tSirRetStatus := eSIR_SUCCESS | eSIR_CFG_INVALID_ID | eSIR_CFG_INVALID_LEN.
#[global] Instance tSirRetStatus_eqdec : EqDecision tSirRetStatus.
Proof. solve_decision. Defined.

(** Results in the messages to the host *)
Definition WNI_CFG_SUCCESS : Z := 1.
Definition WNI_CFG_NOT_READY : Z := 2.
Definition WNI_CFG_INVALID_PID : Z := 3.
Definition WNI_CFG_INVALID_LEN : Z := 4.
Definition WNI_CFG_RO_PARAM : Z := 5.
Definition WNI_CFG_WO_PARAM : Z := 6.
Definition WNI_CFG_OTHER_ERROR : Z := 8.
Definition WNI_CFG_NEED_RESTART : Z := 9.
Definition WNI_CFG_NEED_RELOAD : Z := 10.

(** [gCfgStatus] *)
Definition CFG_INCOMPLETE : Z := 0.
Definition CFG_SUCCESS : Z := 1.
Definition CFG_FAILURE : Z := 2.

(** The modules told of a change, the messages posted to them, and the messages to the host
    with their parameters and the bytes of their data *)
Inductive cfg_module := TO_SCH | TO_LIM | TO_HAL.
Inductive posted_msg := CFG_PARAM_UPDATE_IND (to : cfg_module) (cfgId : Z) | CFG_DOWNLOAD_COMPLETE_IND.
Inductive host_msg :=
| WNI_CFG_DNLD_REQ
| WNI_CFG_DNLD_CNF (res : Z)
| WNI_CFG_GET_RSP (res pid plen : Z) (data : list Z)
| WNI_CFG_SET_CNF (res pid : Z).

(** [gCfg_set]: the pointers to the buffers are not null.  [gCfgEntry] are the control words.
    [p_str_data] belongs to [cfg_static]: where the default of a string is.  [host_msgs] are the
    messages handed to [SysProcessMmhMsg], and [allocs] says of the coming allocations of message
    buffers which succeed; those after the end of the list do. *)
Record tAniSirCfg := {
  gCfgStatus : Z;
  gCfg_set : bool;
  gCfgEntry : list Z;       (* tANI_U32 [WNI_CFG_MAX] *)
  gCfgIBufMin : list Z;     (* tANI_U32 [CFG_STA_IBUF_MAX_SIZE], as the next two *)
  gCfgIBufMax : list Z;
  gCfgIBuf : list Z;
  gCfgSBuf : list Z;        (* tANI_U8 [CFG_STA_SBUF_MAX_SIZE] *)
  gSBuffer : list Z;        (* tANI_U8 [CFG_MAX_STR_LEN] *)
  p_str_data : list (option cfgstatic_string);
  gLogLevel : option Z;
  posted : list posted_msg;
  host_msgs : list host_msg;
  allocs : list bool
}.

#[local] Abbreviation ST := tAniSirCfg.

Definition set_status (v : Z) (s : ST) : ST :=
  {| gCfgStatus := v; gCfg_set := gCfg_set s; gCfgEntry := gCfgEntry s; gCfgIBufMin := gCfgIBufMin s;
     gCfgIBufMax := gCfgIBufMax s; gCfgIBuf := gCfgIBuf s; gCfgSBuf := gCfgSBuf s; gSBuffer := gSBuffer s;
     p_str_data := p_str_data s; gLogLevel := gLogLevel s; posted := posted s; host_msgs := host_msgs s; allocs := allocs s |}.
Definition set_set (v : bool) (s : ST) : ST :=
  {| gCfgStatus := gCfgStatus s; gCfg_set := v; gCfgEntry := gCfgEntry s; gCfgIBufMin := gCfgIBufMin s;
     gCfgIBufMax := gCfgIBufMax s; gCfgIBuf := gCfgIBuf s; gCfgSBuf := gCfgSBuf s; gSBuffer := gSBuffer s;
     p_str_data := p_str_data s; gLogLevel := gLogLevel s; posted := posted s; host_msgs := host_msgs s; allocs := allocs s |}.
Definition set_bufs (entry mn mx ib sb : list Z) (s : ST) : ST :=
  {| gCfgStatus := gCfgStatus s; gCfg_set := gCfg_set s; gCfgEntry := entry; gCfgIBufMin := mn;
     gCfgIBufMax := mx; gCfgIBuf := ib; gCfgSBuf := sb; gSBuffer := gSBuffer s;
     p_str_data := p_str_data s; gLogLevel := gLogLevel s; posted := posted s; host_msgs := host_msgs s; allocs := allocs s |}.
Definition set_entry (v : list Z) (s : ST) : ST := set_bufs v (gCfgIBufMin s) (gCfgIBufMax s) (gCfgIBuf s) (gCfgSBuf s) s.
Definition set_min (v : list Z) (s : ST) : ST := set_bufs (gCfgEntry s) v (gCfgIBufMax s) (gCfgIBuf s) (gCfgSBuf s) s.
Definition set_max (v : list Z) (s : ST) : ST := set_bufs (gCfgEntry s) (gCfgIBufMin s) v (gCfgIBuf s) (gCfgSBuf s) s.
Definition set_ibuf (v : list Z) (s : ST) : ST := set_bufs (gCfgEntry s) (gCfgIBufMin s) (gCfgIBufMax s) v (gCfgSBuf s) s.
Definition set_sbuf (v : list Z) (s : ST) : ST := set_bufs (gCfgEntry s) (gCfgIBufMin s) (gCfgIBufMax s) (gCfgIBuf s) v s.
Definition set_rest (b : list Z) (p : list (option cfgstatic_string)) (l : option Z) (po : list posted_msg) (h : list host_msg) (s : ST) : ST :=
  {| gCfgStatus := gCfgStatus s; gCfg_set := gCfg_set s; gCfgEntry := gCfgEntry s; gCfgIBufMin := gCfgIBufMin s;
     gCfgIBufMax := gCfgIBufMax s; gCfgIBuf := gCfgIBuf s; gCfgSBuf := gCfgSBuf s; gSBuffer := b;
     p_str_data := p; gLogLevel := l; posted := po; host_msgs := h; allocs := allocs s |}.
Definition set_buffer (v : list Z) (s : ST) : ST := set_rest v (p_str_data s) (gLogLevel s) (posted s) (host_msgs s) s.
Definition set_strs (v : list (option cfgstatic_string)) (s : ST) : ST := set_rest (gSBuffer s) v (gLogLevel s) (posted s) (host_msgs s) s.
Definition set_level (v : option Z) (s : ST) : ST := set_rest (gSBuffer s) (p_str_data s) v (posted s) (host_msgs s) s.
Definition add_posted (v : posted_msg) (s : ST) : ST := set_rest (gSBuffer s) (p_str_data s) (gLogLevel s) (posted s ++ [v]) (host_msgs s) s.
Definition send_msg (v : list host_msg) (a : list bool) (s : ST) : ST :=
  {| gCfgStatus := gCfgStatus s; gCfg_set := gCfg_set s; gCfgEntry := gCfgEntry s; gCfgIBufMin := gCfgIBufMin s;
     gCfgIBufMax := gCfgIBufMax s; gCfgIBuf := gCfgIBuf s; gCfgSBuf := gCfgSBuf s; gSBuffer := gSBuffer s;
     p_str_data := p_str_data s; gLogLevel := gLogLevel s; posted := posted s; host_msgs := host_msgs s ++ v; allocs := a |}.

(** [cfgSendHostMsg]: a message without a buffer is dropped.  The message is given by its type and
    its parameters, so what the function checks first holds of every call: none of the callers
    announces parameters or data and passes a null pointer for them, and the type is known. *)
Definition cfgSendHostMsg (v : host_msg) : M ST unit :=
  s <- mget ;;
  match allocs s with
  | false :: rest => modify (send_msg [] rest)
  | true :: rest => modify (send_msg [v] rest)
  | [] => modify (send_msg [v] [])
  end.

(** Reading and writing the buffers; a null pointer or a place outside is undefined. *)
Definition rd (f : ST -> list Z) (i : Z) : M ST Z :=
  s <- mget ;; massert (gCfg_set s) ;; oget (aget (f s) i).
Definition wr (f : ST -> list Z) (put : list Z -> ST -> ST) (i v : Z) : M ST unit :=
  s <- mget ;; massert (gCfg_set s) ;; l <- oget (aset (f s) i v) ;; modify (put l).
Definition put_sbuf : Z -> Z -> M ST unit := wr gCfgSBuf set_sbuf.

Definition has_flag (c : Z) (f : ctl_flag) : bool := negb (Z.land c (flag_bits f) =? 0).

(** ** The interface ([cfgApi.c]) *)

Definition cfgNeedRestart (cfgId : Z) : M ST bool :=
  s <- mget ;;
  if negb (gCfg_set s) then mreturn false
  else c <- rd gCfgEntry cfgId ;; mreturn (has_flag c RESTART).
Definition cfgNeedReload (cfgId : Z) : M ST bool :=
  s <- mget ;;
  if negb (gCfg_set s) then mreturn false
  else c <- rd gCfgEntry cfgId ;; mreturn (has_flag c RELOAD).

Definition wlan_cfgInit : M ST unit := modify (set_status CFG_INCOMPLETE) ;; cfgSendHostMsg WNI_CFG_DNLD_REQ.
Definition cfgCleanup : M ST unit := modify (set_status CFG_INCOMPLETE).
Definition cfgDeInit : M ST unit := modify (set_set false).

Definition Notify (cfgId ntfMask : Z) : M ST unit :=
  (if has_flag ntfMask NTF_SCH then modify (add_posted (CFG_PARAM_UPDATE_IND TO_SCH cfgId)) else mreturn tt) ;;
  (if has_flag ntfMask NTF_LIM then modify (add_posted (CFG_PARAM_UPDATE_IND TO_LIM cfgId)) else mreturn tt) ;;
  (if has_flag ntfMask NTF_HAL then modify (add_posted (CFG_PARAM_UPDATE_IND TO_HAL cfgId)) else mreturn tt).

(** Both setters end so. *)
Definition notify_change (cfgId control : Z) : M ST unit :=
  let mask := Z.land control CFG_CTL_NTF_MASK in
  if negb (mask =? 0) then Notify cfgId mask else mreturn tt.

(** Most functions begin so: the control word, unless the identifier is out of range or the
    store is not set up. *)
Definition cfg_control (cfgId : Z) : M ST (option Z) :=
  if WNI_CFG_MAX <=? cfgId then mreturn None
  else
    s <- mget ;;
    if negb (gCfg_set s) then mreturn None
    else c <- rd gCfgEntry cfgId ;; mreturn (Some c).

Definition cfgSetInt (cfgId value : Z) : M ST tSirRetStatus :=
  oc <- cfg_control cfgId ;;
  match oc with
  | None => mreturn eSIR_CFG_INVALID_ID
  | Some control =>
      let index := Z.land control CFG_BUF_INDX_MASK in
      if CFG_STA_IBUF_MAX_SIZE <=? index then mreturn eSIR_CFG_INVALID_ID
      else if negb (has_flag control VALID) then mreturn eSIR_CFG_INVALID_ID
      else
        mn <- rd gCfgIBufMin index ;;
        mx <- rd gCfgIBufMax index ;;
        if (value <? mn) || (mx <? value) then mreturn eSIR_CFG_INVALID_ID
        else
          wr gCfgIBuf set_ibuf index value ;;
          notify_change cfgId control ;;
          mreturn eSIR_SUCCESS
  end.

Definition cfgCheckValid (cfgId : Z) : M ST tSirRetStatus :=
  oc <- cfg_control cfgId ;;
  match oc with
  | None => mreturn eSIR_CFG_INVALID_ID
  | Some control => mreturn (if has_flag control VALID then eSIR_SUCCESS else eSIR_CFG_INVALID_ID)
  end.

(** A value is returned when one is written through the caller's pointer. *)
Definition wlan_cfgGetInt (cfgId : Z) : M ST (tSirRetStatus * option Z) :=
  oc <- cfg_control cfgId ;;
  match oc with
  | None => mreturn (eSIR_CFG_INVALID_ID, None)
  | Some control =>
      let index := Z.land control CFG_BUF_INDX_MASK in
      if CFG_STA_IBUF_MAX_SIZE <=? index then mreturn (eSIR_CFG_INVALID_ID, None)
      else if negb (has_flag control VALID) then mreturn (eSIR_CFG_INVALID_ID, None)
      else v <- rd gCfgIBuf index ;; mreturn (eSIR_SUCCESS, Some v)
  end.

(** The copying loops *)
Definition copy_in (at_ : Z) (bytes : list Z) (n : Z) : M ST unit :=
  mfor (seqZ 0 n) (fun j => b <- oget (aget bytes j) ;; put_sbuf (at_ + j) b).
Definition copy_out (at_ n : Z) : M ST (list Z) :=
  miter (Datatypes.S (Z.to_nat n)) (fun '((j, out) : Z * list Z) =>
    if j <? n then b <- rd gCfgSBuf (at_ + j) ;; mreturn (inl (j + 1, out ++ [b]))
    else mreturn (inr out)) (0, []).

Definition cfgSetStrNotify (cfgId : Z) (pStr : list Z) (length : Z) (notifyMod : bool) : M ST tSirRetStatus :=
  oc <- cfg_control cfgId ;;
  match oc with
  | None => mreturn eSIR_CFG_INVALID_ID
  | Some control =>
      let index := Z.land control CFG_BUF_INDX_MASK in
      if negb (has_flag control VALID) then mreturn eSIR_CFG_INVALID_ID
      else if CFG_STA_SBUF_MAX_SIZE <=? index then mreturn eSIR_CFG_INVALID_ID
      else
        paramLen <- rd gCfgSBuf index ;;
        if paramLen <? length then mreturn eSIR_CFG_INVALID_LEN
        else
          put_sbuf (index + 1) (u8 length) ;;
          copy_in (index + 2) pStr length ;;
          (if notifyMod then notify_change cfgId control else mreturn tt) ;;
          mreturn eSIR_SUCCESS
  end.
Definition cfgSetStr (cfgId : Z) (pStr : list Z) (length : Z) : M ST tSirRetStatus := cfgSetStrNotify cfgId pStr length true.

(** [pLength] is the size of the caller's buffer; the bytes copied to it are returned. *)
Definition wlan_cfgGetStr (cfgId pLength : Z) : M ST (tSirRetStatus * option (list Z)) :=
  oc <- cfg_control cfgId ;;
  match oc with
  | None => mreturn (eSIR_CFG_INVALID_ID, None)
  | Some control =>
      let index := Z.land control CFG_BUF_INDX_MASK in
      if CFG_STA_SBUF_MAX_SIZE <=? index then mreturn (eSIR_CFG_INVALID_ID, None)
      else if negb (has_flag control VALID) then mreturn (eSIR_CFG_INVALID_ID, None)
      else
        len <- rd gCfgSBuf (index + 1) ;;
        if pLength <? len then mreturn (eSIR_CFG_INVALID_LEN, None)
        else out <- copy_out (index + 2) len ;; mreturn (eSIR_SUCCESS, Some out)
  end.

(** The next two set their result when the identifier is out of range, and go on. *)
Definition wlan_cfgGetStrMaxLen (cfgId : Z) : M ST (tSirRetStatus * option Z) :=
  s <- mget ;;
  if negb (gCfg_set s) then mreturn (eSIR_CFG_INVALID_ID, None)
  else
    control <- rd gCfgEntry cfgId ;;
    let index := Z.land control CFG_BUF_INDX_MASK in
    if CFG_STA_SBUF_MAX_SIZE <=? index then mreturn (eSIR_CFG_INVALID_ID, None)
    else if negb (has_flag control VALID) then mreturn (eSIR_CFG_INVALID_ID, None)
    else v <- rd gCfgSBuf index ;; mreturn (eSIR_SUCCESS, Some v).
Definition wlan_cfgGetStrLen (cfgId : Z) : M ST (tSirRetStatus * option Z) :=
  s <- mget ;;
  if negb (gCfg_set s) then mreturn (eSIR_CFG_INVALID_ID, None)
  else
    control <- rd gCfgEntry cfgId ;;
    let index := Z.land control CFG_BUF_INDX_MASK in
    if CFG_STA_SBUF_MAX_SIZE - 1 <=? index then mreturn (eSIR_CFG_INVALID_ID, None)
    else if negb (has_flag control VALID) then mreturn (eSIR_CFG_INVALID_ID, None)
    else v <- rd gCfgSBuf (index + 1) ;; mreturn (eSIR_SUCCESS, Some v).

(** *** Transmit power from the country information *)

Definition WDA_MAX_TXPOWER_INVALID : Z := 127.
(** Conversion to [tPowerdBm], a signed byte *)
Definition s8 (x : Z) : Z := (x + 128) mod 256 - 128.
Definition CHAN_INFO_SIZE : Z := 3.

(** The walk over the tuples; [info] is the buffer. *)
Definition tx_power_round (info : list Z) (cfgLength channel : Z) : Z * Z -> M ST (Z * Z + Z) := fun '(count, maxTxPwr) =>
  if count <=? u32 (cfgLength - CHAN_INFO_SIZE) then
    firstChannel <- oget (aget info count) ;;
    maxChannels <- oget (aget info (u8 (count + 1))) ;;
    pwr <- oget (aget info (u8 (count + 2))) ;;
    if (firstChannel <=? channel) && (channel <? firstChannel + maxChannels) then mreturn (inr (s8 pwr))
    else mreturn (inl (u8 (count + 3), s8 pwr))
  else mreturn (inr maxTxPwr).

(** [pCountryInfo] is the buffer [vos_mem_malloc] returns, with what is in it.  Failing to get
    the string is the only other way out. *)
Definition cfgGetDot11dTransmitPower (cfgId cfgLength channel : Z) (pCountryInfo : option (list Z)) : M ST Z :=
  if cfgLength <? CHAN_INFO_SIZE then mreturn WDA_MAX_TXPOWER_INVALID
  else
    match pCountryInfo with
    | None => mreturn WDA_MAX_TXPOWER_INVALID
    | Some buf =>
        r <- wlan_cfgGetStr cfgId cfgLength ;;
        match r with
        | (eSIR_SUCCESS, Some bytes) =>
            miter 257 (tx_power_round (bytes ++ drop (length bytes) buf) (Z.of_nat (length bytes)) channel) (0, WDA_MAX_TXPOWER_INVALID)
        | _ => mreturn WDA_MAX_TXPOWER_INVALID
        end
    end.

Definition cfgGetRegulatoryMaxTransmitPower (channel : Z) (pCountryInfo : option (list Z)) : M ST Z :=
  if (34 <=? channel) && (channel <=? 165) then cfgGetDot11dTransmitPower WNI_CFG_MAX_TX_POWER_5 128 channel pCountryInfo
  else cfgGetDot11dTransmitPower WNI_CFG_MAX_TX_POWER_2_4 128 channel pCountryInfo.

(** *** Information elements *)

Definition SIR_MAC_EID_VENDOR : Z := 221.

(** [memcmp(buf + at_, a, n) == 0] *)
Fixpoint memcmp_eq {S} (a buf : list Z) (at_ : Z) : M S bool :=
  match a with
  | [] => mreturn true
  | x :: a => b <- oget (aget buf at_) ;; if b =? x then memcmp_eq a buf (at_ + 1) else mreturn false
  end.

(** The place of the first vendor element with the given OUI; [ie] is the buffer. *)
Definition vendor_round {S} (oui ie : list Z) : Z * Z -> M S (Z * Z + option Z) := fun '(rest, ptr) =>
  if 2 <=? rest then
    elem_id <- oget (aget ie ptr) ;;
    elem_len <- oget (aget ie (ptr + 1)) ;;
    let rest := rest - 2 in
    if rest <? elem_len then mreturn (inr None)
    else
      found <-
        (if SIR_MAC_EID_VENDOR =? elem_id then
           if Z.of_nat (length oui) <=? elem_len then memcmp_eq oui ie (ptr + 2) else mreturn false
         else mreturn false) ;;
      if found : bool then mreturn (inr (Some ptr))
      else mreturn (inl (rest - elem_len, ptr + (elem_len + 2)))
  else mreturn (inr None).
Definition cfg_get_vendor_ie_ptr_from_oui {S} (oui ie : list Z) (ie_len : Z) : M S (option Z) :=
  miter (Datatypes.S (Z.to_nat ie_len)) (vendor_round oui ie) (ie_len, 0).

(** ** Setting up and downloading the defaults *)

(** The array of strings has room for more than are initialised; the rest is zero. *)
Definition null_string : cfgstatic_string := string 0 0 0 [].
Definition static_strings : list cfgstatic_string :=
  cfg_static_string ++ replicate (Z.to_nat CFG_MAX_STATIC_STRING - length cfg_static_string) null_string.

Definition cfg_get_str_index (cfg_id : Z) : M ST unit :=
  let found := List.find (fun x => str_cfg_id x =? cfg_id) static_strings in
  s <- mget ;; l <- oget (aset (p_str_data s) cfg_id found) ;; modify (set_strs l).

Definition cfgInit : M ST tSirRetStatus :=
  modify (set_set true) ;;
  mfor (seqZ 0 WNI_CFG_MAX) (fun i =>
    e <- oget (aget cfg_static i) ;;
    if negb (has_flag (control e) INT) then cfg_get_str_index i
    else s <- mget ;; l <- oget (aset (p_str_data s) i None) ;; modify (set_strs l)) ;;
  mreturn eSIR_SUCCESS.

(** The control words: the counters number the integers and lay out the strings. *)
Definition control_round : Z * Z * Z -> M ST (Z * Z * Z + unit) := fun '(i, icount, scount) =>
  if i <? WNI_CFG_MAX then
    e <- oget (aget cfg_static i) ;;
    s <- mget ;;
    p <- oget (aget (p_str_data s) i) ;;
    if has_flag (control e) VALID then
      if negb (has_flag (control e) INT) then
        match p with
        | None => mreturn (inl (i + 1, icount, scount))
        | Some str_cfg =>
            wr gCfgEntry set_entry i (Z.lor (control e) (Z.land scount CFG_BUF_INDX_MASK)) ;;
            mreturn (inl (i + 1, icount, u32 (scount + (max_len str_cfg + 1 + 1))))
        end
      else
        wr gCfgEntry set_entry i (Z.lor (control e) (Z.land icount CFG_BUF_INDX_MASK)) ;;
        mreturn (inl (i + 1, u32 (icount + 1), scount))
    else wr gCfgEntry set_entry i (Z.lor (control e) 0) ;; mreturn (inl (i + 1, icount, scount))
  else mreturn (inr tt).
Definition download_control : M ST unit := miter (Datatypes.S (Z.to_nat WNI_CFG_MAX)) control_round (0, 0, 0).

(** The room each string has, from the last one down *)
Definition fill_round : Z * Z -> M ST (Z * Z + unit) := fun '(i, buf_end) =>
  if 0 <=? i then
    c <- rd gCfgEntry i ;;
    if has_flag c INT then mreturn (inl (i - 1, buf_end))
    else if negb (has_flag c VALID) then mreturn (inl (i - 1, buf_end))
    else
      let buf_start := Z.land c CFG_BUF_INDX_MASK in
      put_sbuf buf_start (u8 (buf_end - buf_start - 2)) ;;
      mreturn (inl (i - 1, buf_start))
  else mreturn (inr tt).
Definition fill_max_lengths : M ST unit :=
  miter (Datatypes.S (Z.to_nat WNI_CFG_MAX)) fill_round (WNI_CFG_MAX - 1, CFG_STA_SBUF_MAX_SIZE).

Definition download_default (i : Z) : M ST unit :=
  c <- rd gCfgEntry i ;;
  e <- oget (aget cfg_static i) ;;
  let index := Z.land c CFG_BUF_INDX_MASK in
  if has_flag c INT then
    wr gCfgIBufMin set_min index (cfg_imin e) ;;
    wr gCfgIBufMax set_max index (cfg_imax e) ;;
    wr gCfgIBuf set_ibuf index (cfg_ival e)
  else if negb (has_flag c VALID) then mreturn tt
  else if CFG_STA_SBUF_MAX_SIZE <=? index then mreturn tt
  else
    s <- mget ;;
    p <- oget (aget (p_str_data s) i) ;;
    match p with
    | None => mreturn tt
    | Some str_cfg =>
        max_saved_len <- rd gCfgSBuf index ;;
        let len := str_length str_cfg in
        if max_saved_len <? len then mreturn tt
        else
          put_sbuf index (max_len str_cfg) ;;
          put_sbuf (index + 1) len ;;
          copy_in (index + 2) (str_data str_cfg) len
    end.

(** The level is read into a local that is not initialised. *)
Definition set_log_level : M ST unit :=
  r <- wlan_cfgGetInt WNI_CFG_LOG_LEVEL ;; v <- oget (snd r) ;; modify (set_level (Some v)).

Definition processCfgDownloadReq : M ST unit :=
  download_control ;;
  fill_max_lengths ;;
  mfor (seqZ 0 WNI_CFG_MAX) download_default ;;
  set_log_level ;;
  modify (set_status CFG_SUCCESS).

(** ** Messages from the host *)

(** A message body is a list of 32-bit words, [at_] the place the code has read up to.  The
    bytes of a word are those of a little-endian machine. *)
Definition word_bytes (w : Z) : list Z :=
  [Z.land w 0xff; Z.land (Z.shiftr w 8) 0xff; Z.land (Z.shiftr w 16) 0xff; Z.land (Z.shiftr w 24) 0xff].
Definition body_bytes (pParam : list Z) (at_ : Z) : list Z := flat_map word_bytes (drop (Z.to_nat at_) pParam).

(** The word whose bytes are read in network order *)
Definition sirReadU32N (w : Z) : Z :=
  match word_bytes w with
  | [b0; b1; b2; b3] => Z.lor (Z.lor (Z.lor (Z.shiftl b0 24) (Z.shiftl b1 16)) (Z.shiftl b2 8)) b3
  | _ => 0
  end.

(** *** A binary image of the table *)

(** The words the copying loops take, and those left *)
Definition copy_words (pSrc : list Z) (n : Z) : M ST (list Z * list Z) :=
  massert (n <=? Z.of_nat (length pSrc)) ;; mreturn (take (Z.to_nat n) pSrc, drop (Z.to_nat n) pSrc).

(** The defaults of the strings; [None] at the end of the data, else the failure. *)
Definition download_strings (pSrc : list Z) (strSize : Z) : M ST (option Z) :=
  miter (Datatypes.S (Z.to_nat strSize)) (fun '((pSrc, strSize) : list Z * Z) =>
    if strSize =? 0 then mreturn (inr None)
    else if strSize <? 4 then mreturn (inr (Some WNI_CFG_INVALID_LEN))
    else
      w <- oget (head pSrc) ;;
      let paramId := Z.shiftr w 16 in
      let paramLen := Z.land w 0xff in
      let pSrc := tail pSrc in
      let strSize := strSize - 4 in
      let paramLenCeil4 := Z.shiftr (paramLen + 3) 2 in
      if strSize <? Z.shiftl paramLenCeil4 2 then mreturn (inr (Some WNI_CFG_INVALID_LEN))
      else
        ws <- copy_words pSrc paramLenCeil4 ;;
        let pStr := flat_map (fun w => rev (word_bytes w)) (fst ws) in
        r <- cfgSetStr (u16 paramId) pStr paramLen ;;
        if bool_decide (r = eSIR_SUCCESS) then mreturn (inl (snd ws, strSize - 4 * paramLenCeil4))
        else mreturn (inr (Some WNI_CFG_INVALID_LEN))) (pSrc, strSize).

(** The four words of the header are read before the length is checked. *)
Definition ProcDnldRsp_body (len : Z) (pParam : list Z) : M ST Z :=
  magic <- oget (aget pParam 0) ;;
  if negb (magic =? CFG_STA_MAGIC_DWORD) then mreturn WNI_CFG_INVALID_LEN
  else
    let len := u16 (len - 4) in
    controlSize <- oget (aget pParam 2) ;;
    iBufSize <- oget (aget pParam 3) ;;
    sBufSize <- oget (aget pParam 4) ;;
    let expLen := u32 (Z.shiftl (WNI_CFG_MAX + 3 * CFG_STA_IBUF_MAX_SIZE) 2 + sBufSize + 16) in
    if negb (len =? expLen) then mreturn WNI_CFG_INVALID_LEN
    else if negb (controlSize =? WNI_CFG_MAX) then mreturn WNI_CFG_INVALID_LEN
    else if negb (iBufSize =? CFG_STA_IBUF_MAX_SIZE) then mreturn WNI_CFG_INVALID_LEN
    else
      s <- mget ;; massert (gCfg_set s) ;;
      c <- copy_words (drop 5 pParam) WNI_CFG_MAX ;; modify (set_entry (fst c)) ;;
      v <- copy_words (snd c) CFG_STA_IBUF_MAX_SIZE ;; modify (set_ibuf (fst v)) ;;
      mn <- copy_words (snd v) CFG_STA_IBUF_MAX_SIZE ;; modify (set_min (fst mn)) ;;
      mx <- copy_words (snd mn) CFG_STA_IBUF_MAX_SIZE ;; modify (set_max (fst mx)) ;;
      fill_max_lengths ;;
      r <- download_strings (snd mx) sBufSize ;;
      match r with
      | Some retVal => mreturn retVal
      | None =>
          set_log_level ;;
          modify (set_status CFG_SUCCESS) ;;
          mreturn WNI_CFG_SUCCESS
      end.

Definition ProcDnldRsp (len : Z) (pParam : list Z) : M ST unit :=
  retVal <- ProcDnldRsp_body len pParam ;;
  (if negb (retVal =? WNI_CFG_SUCCESS) then modify (set_status CFG_FAILURE) else mreturn tt) ;;
  cfgSendHostMsg (WNI_CFG_DNLD_CNF retVal) ;;
  modify (add_posted CFG_DOWNLOAD_COMPLETE_IND).

(** *** Reading and writing parameters *)

(** [None]: the check passed; otherwise what is stored through [pResult]. *)
Definition CheckParam (cfgId : Z) (flag : ctl_flag) (failedResult : Z) : M ST (option Z) :=
  if WNI_CFG_MAX <=? cfgId then mreturn (Some WNI_CFG_INVALID_PID)
  else
    c <- rd gCfgEntry cfgId ;;
    if negb (has_flag c VALID) then mreturn (Some WNI_CFG_INVALID_PID)
    else if negb (has_flag c flag) then mreturn (Some failedResult)
    else mreturn None.

(** The buffer shared by the two handlers *)
Definition GetStrValue (bytes : list Z) (n : Z) : M ST unit :=
  s <- mget ;;
  massert (gCfg_set s && (n <=? Z.of_nat (length bytes)) && (n <=? Z.of_nat (length (gSBuffer s)))) ;;
  modify (set_buffer (take (Z.to_nat n) bytes ++ drop (Z.to_nat n) (gSBuffer s))).

Definition round_up4 (n : Z) : Z := Z.shiftl (Z.shiftr (n + 3) 2) 2.

(** What the integer and the string branch of the loop give: result, length and data;
    [ptr_size] is the size of a pointer, [sizeof(pMac->cfg.gSBuffer)]. *)
Definition get_param (ptr_size cfgId : Z) : M ST (Z * Z * list Z) :=
  c <- rd gCfgEntry cfgId ;;
  if has_flag c INT then
    r <- wlan_cfgGetInt cfgId ;;
    value <- oget (snd r) ;;
    mreturn (if bool_decide (fst r = eSIR_SUCCESS) then WNI_CFG_SUCCESS else WNI_CFG_OTHER_ERROR, 4, word_bytes value)
  else
    r <- wlan_cfgGetStr cfgId ptr_size ;;
    match snd r with
    | Some bytes =>
        GetStrValue bytes (Z.of_nat (length bytes)) ;;
        s <- mget ;;
        let valueLen := Z.of_nat (length bytes) in
        mreturn (WNI_CFG_SUCCESS, valueLen, take (Z.to_nat (round_up4 valueLen)) (gSBuffer s))
    | None => s <- mget ;; mreturn (WNI_CFG_OTHER_ERROR, ptr_size, take (Z.to_nat (round_up4 ptr_size)) (gSBuffer s))
    end.

Definition get_round (ptr_size : Z) (pParam : list Z) : Z * Z -> M ST (Z * Z + unit) := fun '(at_, len) =>
  if 4 <=? len then
    w <- oget (aget pParam at_) ;;
    let cfgId := u16 w in
    ok <- CheckParam cfgId RE WNI_CFG_WO_PARAM ;;
    r <- (match ok with
          | None => get_param ptr_size cfgId
          | Some _ => mreturn (WNI_CFG_INVALID_LEN, 0, [])
          end) ;;
    let '(result, valueLen, data) := r in
    cfgSendHostMsg (WNI_CFG_GET_RSP result cfgId valueLen data) ;;
    mreturn (inl (at_ + 1, len - 4))
  else mreturn (inr tt).
Definition ProcGetReq (ptr_size len : Z) (pParam : list Z) : M ST unit :=
  s <- mget ;;
  if gCfgStatus s =? CFG_INCOMPLETE then
    w <- oget (aget pParam 0) ;; cfgSendHostMsg (WNI_CFG_GET_RSP WNI_CFG_NOT_READY (u16 (sirReadU32N w)) 0 [])
  else miter (Datatypes.S (Z.to_nat len)) (get_round ptr_size pParam) (0, len).

Definition set_result (cfgId : Z) (r : tSirRetStatus) : M ST Z :=
  if bool_decide (r = eSIR_SUCCESS) then
    restart <- cfgNeedRestart cfgId ;;
    if restart : bool then mreturn WNI_CFG_NEED_RESTART
    else reload <- cfgNeedReload cfgId ;; mreturn (if reload : bool then WNI_CFG_NEED_RELOAD else WNI_CFG_SUCCESS)
  else mreturn WNI_CFG_OTHER_ERROR.

Definition set_param (cfgId valueLen len : Z) (pParam : list Z) (at_ : Z) : M ST Z :=
  c <- rd gCfgEntry cfgId ;;
  if has_flag c INT then
    if negb (valueLen =? 4) then mreturn WNI_CFG_INVALID_LEN
    else
      value <- oget (aget pParam at_) ;;
      r <- cfgSetInt cfgId value ;;
      set_result cfgId r
  else if (len <? u16 (round_up4 valueLen)) || (CFG_MAX_STR_LEN <? valueLen) then mreturn WNI_CFG_INVALID_LEN
  else
    GetStrValue (body_bytes pParam at_) valueLen ;;
    s <- mget ;;
    r <- cfgSetStr cfgId (gSBuffer s) valueLen ;;
    set_result cfgId r.

(** [fRsp]: the host wants confirmations. *)
Definition confirm (fRsp : bool) (res pid : Z) : M ST unit :=
  if fRsp then cfgSendHostMsg (WNI_CFG_SET_CNF res pid) else mreturn tt.
Definition set_round (pParam : list Z) (fRsp : bool) : Z * Z -> M ST (Z * Z + unit) := fun '(at_, len) =>
  if 8 <=? len then
    w0 <- oget (aget pParam at_) ;;
    w1 <- oget (aget pParam (at_ + 1)) ;;
    let cfgId := u16 w0 in
    let valueLen := u16 w1 in
    let at_ := at_ + 2 in
    let len := len - 8 in
    let valueLenRoundedUp4 := u16 (round_up4 valueLen) in
    ok <- CheckParam cfgId WE WNI_CFG_RO_PARAM ;;
    result <- (match ok with
               | None => set_param cfgId valueLen len pParam at_
               | Some _ => mreturn WNI_CFG_INVALID_LEN
               end) ;;
    confirm fRsp result cfgId ;;
    mreturn (inl (if len <? valueLenRoundedUp4 then (at_, 0)
                  else (at_ + Z.shiftr valueLenRoundedUp4 2, len - valueLenRoundedUp4)))
  else mreturn (inr tt).
Definition ProcSetReqInternal (len : Z) (pParam : list Z) (fRsp : bool) : M ST unit :=
  s <- mget ;;
  if gCfgStatus s =? CFG_INCOMPLETE then
    w <- oget (aget pParam 0) ;; confirm fRsp WNI_CFG_NOT_READY (u16 (sirReadU32N w))
  else miter (Datatypes.S (Z.to_nat len)) (set_round pParam fRsp) (0, len).

Definition ProcSetReq (len : Z) (pParam : list Z) : M ST unit := ProcSetReqInternal len pParam true.
Definition ProcSetReqNoRsp (len : Z) (pParam : list Z) : M ST unit := ProcSetReqInternal len pParam false.

(** [gCfgFunc] is indexed by the low bits of the type; the message is freed in any case. *)
Definition cfgProcessMbMsg (ptr_size type msgLen : Z) (pParam : list Z) : M ST unit :=
  let index := Z.land type 0x7f in
  let len := u16 (msgLen - 4) in
  if 4 <=? index then mreturn tt
  else if index =? 0 then ProcDnldRsp len pParam
  else if index =? 1 then ProcGetReq ptr_size len pParam
  else if index =? 2 then ProcSetReq len pParam
  else ProcSetReqNoRsp len pParam.
