(* ===== verification/CfgInv.v ===== *)
(** * The configuration store: abstract parameters and the layout of the buffers

    A store of [Cfg] is related to a list of parameters, each with its flags and an integer
    with a range or a string with a maximum length; every function of the interface acts on
    the one as its specification does on the other. *)

From S2P Require Import Prelude CfgTable Cfg.

Local Open Scope c_scope.

#[local] Abbreviation ST := tAniSirCfg.

(** ** Control words: flags above, an index below *)

Definition flags_only (f : Z) : Prop := Z.land f CFG_BUF_INDX_MASK = 0.

Lemma mask_index f i : flags_only f -> 0 <= i < 4096 -> Z.land (Z.lor f i) CFG_BUF_INDX_MASK = i.
Proof.
  unfold flags_only. intros Hf Hi. rewrite Z.land_lor_distr_l, Hf, Z.lor_0_l.
  change CFG_BUF_INDX_MASK with (2 ^ 12 - 1). rewrite land_mask by lia. apply Z.mod_small; lia.
Qed.

Lemma land_low i c : 0 <= i < 4096 -> Z.land 4095 c = 0 -> Z.land i c = 0.
Proof.
  intros Hi Hc. assert (Hm : Z.land i 4095 = i).
  { change 4095 with (2 ^ 12 - 1). rewrite land_mask by lia. apply Z.mod_small; lia. }
  by rewrite <- Hm, <- Z.land_assoc, Hc, Z.land_0_r.
Qed.

Lemma has_flag_index f i g : 0 <= i < 4096 -> has_flag (Z.lor f i) g = has_flag f g.
Proof.
  intros Hi. unfold has_flag. rewrite Z.land_lor_distr_l.
  rewrite (land_low i) by (done || by destruct g). by rewrite Z.lor_0_r.
Qed.

Lemma ntf_mask_index f i : 0 <= i < 4096 -> Z.land (Z.lor f i) CFG_CTL_NTF_MASK = Z.land f CFG_CTL_NTF_MASK.
Proof.
  intros Hi. rewrite Z.land_lor_distr_l, (land_low i) by done. by rewrite Z.lor_0_r.
Qed.

(** ** Parameters *)

Inductive pvalue :=
| PInt (mn mx v : Z)
| PStr (mx : Z) (v : list Z).
Record param := { p_flags : Z; p_val : pvalue }.

Definition is_int (p : param) : bool := match p_val p with PInt _ _ _ => true | PStr _ _ => false end.

(** The place of a parameter's value in the buffers of a state *)
Definition holds (s : ST) (at_ : Z) (v : pvalue) : Prop :=
  match v with
  | PInt mn mx v =>
      0 <= at_ < CFG_STA_IBUF_MAX_SIZE /\ aget (gCfgIBufMin s) at_ = Some mn /\ aget (gCfgIBufMax s) at_ = Some mx /\
      aget (gCfgIBuf s) at_ = Some v /\ mn <= v <= mx
  | PStr mx v =>
      0 <= at_ /\ at_ + 2 + mx <= CFG_STA_SBUF_MAX_SIZE /\ Z.of_nat (length v) <= mx <= 255 /\
      aget (gCfgSBuf s) at_ = Some mx /\ aget (gCfgSBuf s) (at_ + 1) = Some (Z.of_nat (length v)) /\
      forall k, 0 <= k < Z.of_nat (length v) -> aget (gCfgSBuf s) (at_ + 2 + k) = aget v k
  end.

(** Two values at their places do not overlap. *)
Definition apart (at1 : Z) (v1 : pvalue) (at2 : Z) (v2 : pvalue) : Prop :=
  match v1, v2 with
  | PInt _ _ _, PInt _ _ _ => at1 <> at2
  | PStr mx1 _, PStr mx2 _ => at1 + 2 + mx1 <= at2 \/ at2 + 2 + mx2 <= at1
  | _, _ => True
  end.

Record bufs_ok (s : ST) : Prop := {
  bo_entry : length (gCfgEntry s) = Z.to_nat WNI_CFG_MAX;
  bo_min : length (gCfgIBufMin s) = Z.to_nat CFG_STA_IBUF_MAX_SIZE;
  bo_max : length (gCfgIBufMax s) = Z.to_nat CFG_STA_IBUF_MAX_SIZE;
  bo_ibuf : length (gCfgIBuf s) = Z.to_nat CFG_STA_IBUF_MAX_SIZE;
  bo_sbuf : length (gCfgSBuf s) = Z.to_nat CFG_STA_SBUF_MAX_SIZE;
  bo_buffer : length (gSBuffer s) = Z.to_nat CFG_MAX_STR_LEN
}.

Record cfg_rel (loc : Z -> Z) (m : list param) (s : ST) : Prop := {
  cr_set : gCfg_set s = true;
  cr_bufs : bufs_ok s;
  cr_dom : length m = Z.to_nat WNI_CFG_MAX;
  cr_ctl : forall id p, aget m id = Some p -> aget (gCfgEntry s) id = Some (Z.lor (p_flags p) (loc id));
  cr_flags : forall id p, aget m id = Some p ->
    flags_only (p_flags p) /\ has_flag (p_flags p) VALID = true /\ has_flag (p_flags p) INT = is_int p;
  cr_holds : forall id p, aget m id = Some p -> holds s (loc id) (p_val p);
  cr_apart : forall i j p q, i <> j -> aget m i = Some p -> aget m j = Some q -> apart (loc i) (p_val p) (loc j) (p_val q)
}.

(** *** What the interface promises *)

Definition set_val (m : list param) (id : Z) (p : param) (v : pvalue) : list param :=
  upd m id {| p_flags := p_flags p; p_val := v |}.

Definition notifies (p : param) (id : Z) : list posted_msg :=
  (if has_flag (p_flags p) NTF_SCH then [CFG_PARAM_UPDATE_IND TO_SCH id] else []) ++
  (if has_flag (p_flags p) NTF_LIM then [CFG_PARAM_UPDATE_IND TO_LIM id] else []) ++
  (if has_flag (p_flags p) NTF_HAL then [CFG_PARAM_UPDATE_IND TO_HAL id] else []).

Definition spec_set_int (id v : Z) (m : list param) : tSirRetStatus * list param * list posted_msg :=
  match aget m id with
  | Some {| p_flags := f; p_val := PInt mn mx _ |} =>
      if (mn <=? v) && (v <=? mx)
      then (eSIR_SUCCESS, upd m id {| p_flags := f; p_val := PInt mn mx v |}, notifies {| p_flags := f; p_val := PInt mn mx v |} id)
      else (eSIR_CFG_INVALID_ID, m, [])
  | _ => (eSIR_CFG_INVALID_ID, m, [])
  end.

Definition spec_set_str (id : Z) (bytes : list Z) (len : Z) (m : list param) : tSirRetStatus * list param * list posted_msg :=
  match aget m id with
  | Some {| p_flags := f; p_val := PStr mx _ |} =>
      if len <=? mx
      then (eSIR_SUCCESS, upd m id {| p_flags := f; p_val := PStr mx (take (Z.to_nat len) bytes) |}, notifies {| p_flags := f; p_val := PStr mx [] |} id)
      else (eSIR_CFG_INVALID_LEN, m, [])
  | _ => (eSIR_CFG_INVALID_ID, m, [])
  end.

Definition spec_get_int (id : Z) (m : list param) : tSirRetStatus * option Z :=
  match aget m id with
  | Some {| p_val := PInt _ _ v |} => (eSIR_SUCCESS, Some v)
  | _ => (eSIR_CFG_INVALID_ID, None)
  end.
Definition spec_get_str (id cap : Z) (m : list param) : tSirRetStatus * option (list Z) :=
  match aget m id with
  | Some {| p_val := PStr _ v |} => if Z.of_nat (length v) <=? cap then (eSIR_SUCCESS, Some v) else (eSIR_CFG_INVALID_LEN, None)
  | _ => (eSIR_CFG_INVALID_ID, None)
  end.
Definition spec_get_str_len (id : Z) (m : list param) : tSirRetStatus * option Z :=
  match aget m id with
  | Some {| p_val := PStr _ v |} => (eSIR_SUCCESS, Some (Z.of_nat (length v)))
  | _ => (eSIR_CFG_INVALID_ID, None)
  end.
Definition spec_get_str_max_len (id : Z) (m : list param) : tSirRetStatus * option Z :=
  match aget m id with
  | Some {| p_val := PStr mx _ |} => (eSIR_SUCCESS, Some mx)
  | _ => (eSIR_CFG_INVALID_ID, None)
  end.

(** [None]: the identifier is not a parameter's. *)
Definition kind_at (m : list param) (id : Z) : option bool := is_int <$> aget m id.

(** ** The parts a store operation leaves alone *)

Definition frame (po : list posted_msg) (s s' : ST) : Prop :=
  gCfgStatus s' = gCfgStatus s /\ gSBuffer s' = gSBuffer s /\ p_str_data s' = p_str_data s /\ gLogLevel s' = gLogLevel s /\
  host_msgs s' = host_msgs s /\ posted s' = posted s ++ po /\ allocs s' = allocs s.

Lemma frame_refl s : frame [] s s.
Proof. unfold frame. rewrite app_nil_r. naive_solver. Qed.
Lemma frame_trans po1 po2 s1 s2 s3 : frame po1 s1 s2 -> frame po2 s2 s3 -> frame (po1 ++ po2) s1 s3.
Proof.
  unfold frame. intros (? & ? & ? & ? & ? & Hp & ?) (? & ? & ? & ? & ? & Hp2 & ?). rewrite Hp2, Hp, app_assoc.
  intuition congruence.
Qed.
#[export] Hint Resolve frame_refl : qca.

(** ** Reading and writing *)

Lemma runs_rd (f : ST -> list Z) i v s (Q : Z -> ST -> Prop) :
  gCfg_set s = true -> aget (f s) i = Some v -> Q v s -> runs (rd f i) s Q.
Proof. intros Hs Hv HQ. unfold rd. do 4 mstep. eapply runs_oget; [exact Hv|done]. Qed.

Lemma runs_wr (f : ST -> list Z) put i v s (Q : unit -> ST -> Prop) :
  gCfg_set s = true -> 0 <= i < Z.of_nat (length (f s)) -> Q tt (put (upd (f s) i v) s) -> runs (wr f put i v) s Q.
Proof.
  intros Hs Hi HQ. unfold wr. do 5 mstep. eapply runs_oget; [by apply aset_Some|]. by apply runs_modify.
Qed.

Lemma set_sbuf_id s : set_sbuf (gCfgSBuf s) s = s.
Proof. by destruct s. Qed.

Lemma seqZ_prefix n dn i todo : seqZ 0 n = dn ++ i :: todo -> i = Z.of_nat (length dn) /\ 0 <= i < n.
Proof.
  intros H. assert (Hi : seqZ 0 n !! length dn = Some i) by (rewrite H; by apply list_lookup_middle).
  apply lookup_seqZ in Hi. lia.
Qed.

Lemma copy_in_spec at_ bytes n s (Q : unit -> ST -> Prop) :
  gCfg_set s = true -> 0 <= at_ -> 0 <= n -> n <= Z.of_nat (length bytes) -> at_ + n <= Z.of_nat (length (gCfgSBuf s)) ->
  Q tt (set_sbuf (write_at (gCfgSBuf s) at_ (take (Z.to_nat n) bytes)) s) -> runs (copy_in at_ bytes n) s Q.
Proof.
  intros Hs Hat Hn Hlen Hin HQ. unfold copy_in.
  eapply runs_mono.
  { apply runs_mfor with (I := fun dn s' => s' = set_sbuf (write_at (gCfgSBuf s) at_ (take (length dn) bytes)) s).
    - intros dn i todo s' Heq ->. apply seqZ_prefix in Heq as [-> Hi].
      destruct (lookup_lt_is_Some_2 bytes (length dn)) as [b Hb]; [lia|].
      mstep. eapply runs_oget; [rewrite aget_nat; exact Hb|]. apply runs_wr; [done|cbn; rewrite length_write_at; lia|].
      cbn. rewrite length_app, Nat.add_1_r, (take_S_r _ _ _ Hb), write_at_snoc by lia.
      rewrite length_take_le by lia. done.
    - by destruct s. }
  cbn. intros [] s' ->. rewrite length_seqZ. done.
Qed.

Lemma copy_out_spec at_ n v s (Q : list Z -> ST -> Prop) :
  gCfg_set s = true -> n = Z.of_nat (length v) -> (forall k, 0 <= k < n -> aget (gCfgSBuf s) (at_ + k) = aget v k) ->
  Q v s -> runs (copy_out at_ n) s Q.
Proof.
  intros Hs -> Hv HQ. unfold copy_out.
  apply runs_miter with (I := fun '((j, out) : Z * list Z) s' => s' = s /\ 0 <= j <= Z.of_nat (length v) /\ out = take (Z.to_nat j) v)
    (mu := fun '((j, out) : Z * list Z) _ => Z.to_nat (Z.of_nat (length v) - j)); [| |lia].
  - intros [j out] s' (-> & Hj & ->). cbv iota. destruct (Z.ltb_spec j (Z.of_nat (length v))).
    + destruct (aget_is_Some v j) as [b Hb]; [lia|]. mstep. apply runs_rd with b; [done|rewrite Hv by lia; done|].
      mstep. split; [|lia]. split; [done|]. split; [lia|]. rewrite Z2Nat.inj_add, Nat.add_1_r by lia. symmetry. apply take_S_r.
      by rewrite <- aget_lookup by lia.
    + mstep. rewrite take_ge by lia. done.
  - split; [done|]. split; [lia|done].
Qed.

(** ** Keeping the relation *)

(** A value stays where it is if its part of the buffers does. *)
Lemma holds_mono s s' at_ v :
  (forall mn mx w, v = PInt mn mx w -> aget (gCfgIBufMin s') at_ = aget (gCfgIBufMin s) at_ /\
     aget (gCfgIBufMax s') at_ = aget (gCfgIBufMax s) at_ /\ aget (gCfgIBuf s') at_ = aget (gCfgIBuf s) at_) ->
  (forall mx w, v = PStr mx w -> forall k, at_ <= k < at_ + 2 + mx -> aget (gCfgSBuf s') k = aget (gCfgSBuf s) k) ->
  holds s at_ v -> holds s' at_ v.
Proof.
  intros Hi Hs. destruct v as [mn mx w|mx w]; cbn.
  - destruct (Hi _ _ _ eq_refl) as (-> & -> & ->). done.
  - specialize (Hs _ _ eq_refl). intros (? & ? & ? & Hm & Hl & Hv). rewrite !Hs by lia.
    split_and!; try done; try lia. intros k Hk. rewrite Hs by lia. by apply Hv.
Qed.

Lemma apart_sym a v b w : apart a v b w -> apart b w a v.
Proof. destruct v, w; cbn; (done || lia). Qed.

(** The places and extents of values are what [apart] is about. *)
Definition same_shape (v w : pvalue) : Prop :=
  match v, w with
  | PInt _ _ _, PInt _ _ _ => True
  | PStr mx _, PStr mx' _ => mx = mx'
  | _, _ => False
  end.

Lemma apart_shape a v w b u : same_shape v w -> apart a v b u -> apart a w b u.
Proof. destruct v, w, u; cbn; try done; intros; subst; done. Qed.

Section Rel.
Context (loc : Z -> Z) (m : list param) (s : ST).
Context (HR : cfg_rel loc m s).

Lemma rel_id id p : aget m id = Some p -> 0 <= id < WNI_CFG_MAX.
Proof. intros Hp%aget_Some_range. rewrite (cr_dom _ _ _ HR) in Hp. done. Qed.

Lemma rel_none id : 0 <= id -> aget m id = None -> WNI_CFG_MAX <= id.
Proof.
  intros H0 Hn. destruct (decide (WNI_CFG_MAX <= id)); [done|].
  destruct (aget_is_Some m id) as [p Hp]; [|by rewrite Hp in Hn]. rewrite (cr_dom _ _ _ HR). unfold WNI_CFG_MAX in *. lia.
Qed.

Lemma rel_loc id p : aget m id = Some p -> 0 <= loc id < 4096 /\ (is_int p = true -> loc id < CFG_STA_IBUF_MAX_SIZE) /\ loc id < CFG_STA_SBUF_MAX_SIZE - 1.
Proof.
  intros Hp. pose proof (cr_holds _ _ _ HR _ _ Hp) as Hh. unfold is_int. destruct p as [f [mn mx v|mx v]]; cbn in *.
  - unfold CFG_STA_IBUF_MAX_SIZE, CFG_STA_SBUF_MAX_SIZE in *. lia.
  - unfold CFG_STA_SBUF_MAX_SIZE in *. split; [lia|]. split; [done|lia].
Qed.

(** Storing another value of the same shape *)
Lemma rel_update id p w s' :
  aget m id = Some p -> same_shape (p_val p) w -> gCfg_set s' = true -> bufs_ok s' -> gCfgEntry s' = gCfgEntry s ->
  holds s' (loc id) w ->
  (forall j q, j <> id -> aget m j = Some q -> holds s' (loc j) (p_val q)) ->
  cfg_rel loc (upd m id {| p_flags := p_flags p; p_val := w |}) s'.
Proof.
  intros Hp Hsh Hset Hb He Hw Hoth. pose proof (aget_Some_range _ _ _ Hp) as Hr.
  assert (Hlk : forall j q, aget (upd m id {| p_flags := p_flags p; p_val := w |}) j = Some q ->
    (j = id /\ q = {| p_flags := p_flags p; p_val := w |}) \/ (j <> id /\ aget m j = Some q)).
  { intros j q. rewrite aget_upd by done. case_decide; [left; split; [done|congruence]|by right]. }
  assert (Hii : forall f, is_int {| p_flags := f; p_val := w |} = is_int p).
  { intros f. unfold is_int. cbn. destruct (p_val p), w; done. }
  split; [done|done| | | | |].
  - by rewrite length_upd, (cr_dom _ _ _ HR).
  - intros j q [[-> ->]|[_ Hq]]%Hlk; cbn; rewrite He; by apply (cr_ctl _ _ _ HR).
  - intros j q [[-> ->]|[_ Hq]]%Hlk; cbn; [rewrite Hii|]; exact (cr_flags _ _ _ HR _ _ ltac:(eassumption)).
  - intros j q [[-> ->]|[Hne Hq]]%Hlk; cbn; [done|by apply Hoth].
  - intros i j q1 q2 Hne [[-> ->]|[Hi Hq1]]%Hlk [[-> ->]|[Hj Hq2]]%Hlk; cbn.
    + done.
    + eapply apart_shape; [exact Hsh|]. by apply (cr_apart _ _ _ HR).
    + apply apart_sym. eapply apart_shape; [exact Hsh|]. by apply (cr_apart _ _ _ HR).
    + by apply (cr_apart _ _ _ HR).
Qed.
End Rel.

(** The relation is about the buffers only. *)
Lemma rel_bufs loc m s s' :
  cfg_rel loc m s -> gCfg_set s' = true -> bufs_ok s' -> gCfgEntry s' = gCfgEntry s -> gCfgIBufMin s' = gCfgIBufMin s ->
  gCfgIBufMax s' = gCfgIBufMax s -> gCfgIBuf s' = gCfgIBuf s -> gCfgSBuf s' = gCfgSBuf s -> cfg_rel loc m s'.
Proof.
  intros [] ? ? He Hn Hx Hi Hs. split; try done; rewrite ?He; try done.
  intros id p Hp. eapply holds_mono; [| |by eauto]; intros; by rewrite ?Hn, ?Hx, ?Hi, ?Hs.
Qed.

(** ** The operations *)

Definition post_all (po : list posted_msg) (s : ST) : ST :=
  set_rest (gSBuffer s) (p_str_data s) (gLogLevel s) (posted s ++ po) (host_msgs s) s.

Lemma has_flag_ntf f g : In g [NTF_SCH; NTF_LIM; NTF_HAL] -> has_flag (Z.land f CFG_CTL_NTF_MASK) g = has_flag f g.
Proof. intros Hg. unfold has_flag. rewrite <- Z.land_assoc. by destruct Hg as [<-|[<-|[<-|[]]]]. Qed.

Lemma post_if (b : bool) v po s (Q : unit -> ST -> Prop) :
  Q tt (post_all (po ++ if b then [v] else []) s) -> runs (if b then modify (add_posted v) else mreturn tt) (post_all po s) Q.
Proof.
  destruct b; intros HQ.
  - apply runs_modify. unfold post_all, add_posted, set_rest in *. cbn in *. by rewrite app_assoc in HQ.
  - apply runs_ret. by rewrite app_nil_r in HQ.
Qed.

Lemma post_all_nil s : post_all [] s = s.
Proof. unfold post_all, set_rest. rewrite app_nil_r. by destruct s. Qed.

Lemma notify_spec p id at_ s (Q : unit -> ST -> Prop) :
  0 <= at_ < 4096 -> Q tt (post_all (notifies p id) s) -> runs (notify_change id (Z.lor (p_flags p) at_)) s Q.
Proof.
  intros Hat HQ. unfold notify_change. rewrite ntf_mask_index by done. destruct (Z.eqb_spec (Z.land (p_flags p) CFG_CTL_NTF_MASK) 0) as [H0|_]; cbn [negb].
  - apply runs_ret. unfold notifies in HQ. rewrite <- !(has_flag_ntf (p_flags p)), H0 in HQ by (cbn; tauto).
    change (has_flag 0 NTF_SCH) with false in HQ. change (has_flag 0 NTF_LIM) with false in HQ. change (has_flag 0 NTF_HAL) with false in HQ.
    by rewrite post_all_nil in HQ.
  - unfold Notify. rewrite !has_flag_ntf by (cbn; tauto). rewrite <- (post_all_nil s) at 1.
    apply runs_bnd, post_if, runs_bnd, post_if, post_if. unfold notifies in HQ. by rewrite app_nil_l, <- app_assoc.
Qed.

Lemma post_rel loc m po s : cfg_rel loc m s -> cfg_rel loc m (post_all po s).
Proof. intros HR. eapply rel_bufs; [exact HR|..]; try done; destruct HR as [? [] ? ? ? ? ?]; done. Qed.

Lemma post_frame po s s' : gCfgStatus s' = gCfgStatus s -> gSBuffer s' = gSBuffer s -> p_str_data s' = p_str_data s ->
  gLogLevel s' = gLogLevel s -> host_msgs s' = host_msgs s -> posted s' = posted s -> allocs s' = allocs s -> frame po s (post_all po s').
Proof. intros. unfold frame. cbn. intuition congruence. Qed.

Lemma int_range mn mx v : negb ((v <? mn) || (mx <? v)) = (mn <=? v) && (v <=? mx).
Proof. lia. Qed.

Section Ops.
Context (loc : Z -> Z) (m : list param) (s : ST).
Context (HR : cfg_rel loc m s).

Lemma cfg_control_some id p (Q : option Z -> ST -> Prop) :
  aget m id = Some p -> Q (Some (Z.lor (p_flags p) (loc id))) s -> runs (cfg_control id) s Q.
Proof.
  intros Hp HQ. pose proof (rel_id _ _ _ HR _ _ Hp). unfold cfg_control. destruct (Z.leb_spec WNI_CFG_MAX id); [lia|].
  do 2 mstep. rewrite (cr_set _ _ _ HR). cbn [negb]. mstep. eapply runs_rd; [apply HR|by apply (cr_ctl _ _ _ HR)|]. by mstep.
Qed.

Lemma cfg_control_none id (Q : option Z -> ST -> Prop) :
  0 <= id -> aget m id = None -> Q None s -> runs (cfg_control id) s Q.
Proof.
  intros H0 Hn HQ. pose proof (rel_none _ _ _ HR _ H0 Hn). unfold cfg_control. destruct (Z.leb_spec WNI_CFG_MAX id); [|lia]. by mstep.
Qed.

(** The control word of a parameter, decomposed *)
Lemma ctl_facts id p : aget m id = Some p ->
  Z.land (Z.lor (p_flags p) (loc id)) CFG_BUF_INDX_MASK = loc id /\
  (forall g, has_flag (Z.lor (p_flags p) (loc id)) g = has_flag (p_flags p) g) /\
  has_flag (p_flags p) VALID = true /\ has_flag (p_flags p) INT = is_int p /\ 0 <= loc id < 4096.
Proof.
  intros Hp. destruct (rel_loc _ _ _ HR _ _ Hp) as (Hl & _). destruct (cr_flags _ _ _ HR _ _ Hp) as (Hf & Hv & Hi).
  split; [by apply mask_index|]. split; [|done]. intros g. by apply has_flag_index.
Qed.

Lemma get_int_spec id (Q : tSirRetStatus * option Z -> ST -> Prop) :
  0 <= id -> kind_at m id <> Some false -> Q (spec_get_int id m) s -> runs (wlan_cfgGetInt id) s Q.
Proof.
  unfold kind_at, spec_get_int, wlan_cfgGetInt. intros H0 Hk HQ. apply runs_bnd. destruct (aget m id) as [p|] eqn:Hp.
  - apply cfg_control_some with p; [done|]. destruct (ctl_facts _ _ Hp) as (-> & Hf & Hv & _). rewrite Hf, Hv.
    pose proof (cr_holds _ _ _ HR _ _ Hp) as Hh. destruct p as [f [mn mx v|mx v]]; [|done]. cbn in *.
    destruct Hh as (Hr & _ & _ & Hib & _). destruct (Z.leb_spec CFG_STA_IBUF_MAX_SIZE (loc id)); [lia|].
    mstep. apply runs_rd with v; [apply HR|done|]. by mstep.
  - apply cfg_control_none; [done|done|]. by mstep.
Qed.

Lemma check_valid_spec id (Q : tSirRetStatus -> ST -> Prop) :
  0 <= id -> Q (match aget m id with Some _ => eSIR_SUCCESS | None => eSIR_CFG_INVALID_ID end) s -> runs (cfgCheckValid id) s Q.
Proof.
  unfold cfgCheckValid. intros H0 HQ. apply runs_bnd. destruct (aget m id) as [p|] eqn:Hp.
  - apply cfg_control_some with p; [done|]. destruct (ctl_facts _ _ Hp) as (_ & Hf & Hv & _). rewrite Hf, Hv. by mstep.
  - apply cfg_control_none; [done|done|]. by mstep.
Qed.

Lemma get_str_spec id cap (Q : tSirRetStatus * option (list Z) -> ST -> Prop) :
  0 <= id -> kind_at m id <> Some true -> Q (spec_get_str id cap m) s -> runs (wlan_cfgGetStr id cap) s Q.
Proof.
  unfold kind_at, spec_get_str, wlan_cfgGetStr. intros H0 Hk HQ. apply runs_bnd. destruct (aget m id) as [p|] eqn:Hp.
  - apply cfg_control_some with p; [done|]. destruct (ctl_facts _ _ Hp) as (-> & Hf & Hv & _). rewrite Hf, Hv.
    pose proof (cr_holds _ _ _ HR _ _ Hp) as Hh. destruct p as [f [mn mx v|mx v]]; [done|]. cbn in *.
    destruct Hh as (Hr & Hr' & Hmx & _ & Hlen & Hbytes). destruct (Z.leb_spec CFG_STA_SBUF_MAX_SIZE (loc id)); [lia|].
    mstep. eapply runs_rd; [apply HR|exact Hlen|]. destruct (Z.ltb_spec cap (Z.of_nat (length v))), (Z.leb_spec (Z.of_nat (length v)) cap); try lia.
    + by mstep.
    + mstep. apply copy_out_spec with v; [apply HR|done|done|]. by mstep.
  - apply cfg_control_none; [done|done|]. by mstep.
Qed.

(** The two length functions are for identifiers of parameters only. *)
Lemma get_str_len_spec id (Q : tSirRetStatus * option Z -> ST -> Prop) :
  kind_at m id = Some false -> Q (spec_get_str_len id m) s -> runs (wlan_cfgGetStrLen id) s Q.
Proof.
  unfold kind_at, spec_get_str_len, wlan_cfgGetStrLen. intros Hk HQ. destruct (aget m id) as [p|] eqn:Hp; [|done].
  do 2 mstep. rewrite (cr_set _ _ _ HR). cbn [negb]. mstep. eapply runs_rd; [apply HR|by apply (cr_ctl _ _ _ HR)|].
  destruct (ctl_facts _ _ Hp) as (-> & Hf & Hv & _). rewrite Hf, Hv. destruct (rel_loc _ _ _ HR _ _ Hp) as (_ & _ & Hl).
  destruct (Z.leb_spec (CFG_STA_SBUF_MAX_SIZE - 1) (loc id)); [lia|]. cbn [negb].
  pose proof (cr_holds _ _ _ HR _ _ Hp) as Hh. destruct p as [f [mn mx v|mx v]]; [done|]. cbn in *.
  mstep. eapply runs_rd; [apply HR|apply Hh|]. by mstep.
Qed.

Lemma get_str_max_len_spec id (Q : tSirRetStatus * option Z -> ST -> Prop) :
  kind_at m id = Some false -> Q (spec_get_str_max_len id m) s -> runs (wlan_cfgGetStrMaxLen id) s Q.
Proof.
  unfold kind_at, spec_get_str_max_len, wlan_cfgGetStrMaxLen. intros Hk HQ. destruct (aget m id) as [p|] eqn:Hp; [|done].
  do 2 mstep. rewrite (cr_set _ _ _ HR). cbn [negb]. mstep. eapply runs_rd; [apply HR|by apply (cr_ctl _ _ _ HR)|].
  destruct (ctl_facts _ _ Hp) as (-> & Hf & Hv & _). rewrite Hf, Hv. destruct (rel_loc _ _ _ HR _ _ Hp) as (_ & _ & Hl).
  destruct (Z.leb_spec CFG_STA_SBUF_MAX_SIZE (loc id)); [lia|]. cbn [negb].
  pose proof (cr_holds _ _ _ HR _ _ Hp) as Hh. destruct p as [f [mn mx v|mx v]]; [done|]. cbn in *.
  mstep. eapply runs_rd; [apply HR|apply Hh|]. by mstep.
Qed.

(** What a setter leaves *)
Definition set_post {A} (out : A * list param * list posted_msg) (r : A) (s' : ST) : Prop :=
  let '(r', m', po) := out in r = r' /\ cfg_rel loc m' s' /\ frame po s s'.

Lemma set_post_same {A} (r : A) : set_post (r, m, []) r s.
Proof. unfold set_post. auto with qca. Qed.

Lemma set_int_rel id f mn mx old v : aget m id = Some {| p_flags := f; p_val := PInt mn mx old |} -> mn <= v <= mx ->
  cfg_rel loc (upd m id {| p_flags := f; p_val := PInt mn mx v |}) (set_ibuf (upd (gCfgIBuf s) (loc id) v) s).
Proof.
  intros Hp Hv. pose proof (cr_holds _ _ _ HR _ _ Hp) as (Hr & Hmn & Hmx & _). pose proof (cr_bufs _ _ _ HR) as Hb.
  assert (Hir : 0 <= loc id < Z.of_nat (length (gCfgIBuf s))) by (rewrite (bo_ibuf _ Hb); exact Hr).
  eapply (rel_update _ _ _ HR id _ (PInt mn mx v) _ Hp); cbn; [done|apply HR| |done| |].
  - destruct Hb. split; cbn; rewrite ?length_upd; done.
  - rewrite aget_upd, decide_True by done. done.
  - intros j q Hne Hq. eapply holds_mono; [| |by apply (cr_holds _ _ _ HR)].
    + intros mn' mx' w Hw. cbn. split; [done|]. split; [done|]. rewrite aget_upd by done.
      apply decide_False. pose proof (cr_apart _ _ _ HR _ _ _ _ Hne Hq Hp) as Ha. rewrite Hw in Ha. exact Ha.
    + done.
Qed.

Lemma set_int_spec id v : 0 <= id -> kind_at m id <> Some false ->
  runs (cfgSetInt id v) s (set_post (spec_set_int id v m)).
Proof.
  unfold kind_at, spec_set_int, cfgSetInt. intros H0 Hk. apply runs_bnd. destruct (aget m id) as [p|] eqn:Hp.
  - apply cfg_control_some with p; [done|]. destruct (ctl_facts _ _ Hp) as (-> & Hf & Hv & _ & Hl). rewrite Hf, Hv.
    pose proof (cr_holds _ _ _ HR _ _ Hp) as Hh. destruct p as [f [mn mx old|mx old]]; [|done]. cbn [holds p_val p_flags negb] in *.
    destruct Hh as (Hr & Hmn & Hmx & _). destruct (Z.leb_spec CFG_STA_IBUF_MAX_SIZE (loc id)); [lia|].
    mstep. apply runs_rd with mn; [apply HR|done|]. mstep. apply runs_rd with mx; [apply HR|done|].
    rewrite <- int_range. destruct ((v <? mn) || (mx <? v)) eqn:Hrange; cbn [negb].
    + mstep. apply set_post_same.
    + mstep. apply runs_wr; [apply HR|rewrite (bo_ibuf _ (cr_bufs _ _ _ HR)); exact Hr|]. mstep.
      eapply (notify_spec {| p_flags := f; p_val := PInt mn mx v |}); [done|]. mstep. split; [done|]. split.
      * eapply post_rel, set_int_rel; [exact Hp|lia].
      * by apply post_frame.
  - apply cfg_control_none; [done|done|]. mstep. apply set_post_same.
Qed.

Lemma set_str_rel id f mx old bytes len : aget m id = Some {| p_flags := f; p_val := PStr mx old |} ->
  0 <= len <= mx -> len <= Z.of_nat (length bytes) ->
  cfg_rel loc (upd m id {| p_flags := f; p_val := PStr mx (take (Z.to_nat len) bytes) |})
    (set_sbuf (write_at (upd (gCfgSBuf s) (loc id + 1) (u8 len)) (loc id + 2) (take (Z.to_nat len) bytes)) s).
Proof.
  intros Hp Hlen Hin. pose proof (cr_holds _ _ _ HR _ _ Hp) as (Hr & Hr' & Hmx & Hm & _). pose proof (cr_bufs _ _ _ HR) as Hb.
  assert (Hsl : Z.of_nat (length (gCfgSBuf s)) = CFG_STA_SBUF_MAX_SIZE) by (by rewrite (bo_sbuf _ Hb)).
  assert (Htl : length (take (Z.to_nat len) bytes) = Z.to_nat len) by (rewrite length_take; lia).
  assert (Hat : forall k, aget (write_at (upd (gCfgSBuf s) (loc id + 1) (u8 len)) (loc id + 2) (take (Z.to_nat len) bytes)) k =
     if decide (loc id + 2 <= k < loc id + 2 + len) then aget (take (Z.to_nat len) bytes) (k - (loc id + 2))
     else if decide (k = loc id + 1) then Some (u8 len) else aget (gCfgSBuf s) k).
  { intros k. rewrite aget_write_at by (rewrite ?length_upd, ?Htl; lia). rewrite Htl, Z2Nat.id by lia. by rewrite aget_upd by lia. }
  eapply (rel_update _ _ _ HR id _ (PStr mx _) _ Hp); cbn [same_shape p_val p_flags]; [done|apply HR| |done| |].
  - destruct Hb. split; cbn; rewrite ?length_write_at, ?length_upd; done.
  - cbn. rewrite Htl, Z2Nat.id, !Hat by lia. split_and!; try lia.
    + by rewrite !decide_False by lia.
    + rewrite decide_False, decide_True by lia. by rewrite u8_small by lia.
    + intros k Hk. rewrite Hat, decide_True by lia. f_equal. lia.
  - intros j q Hne Hq. eapply holds_mono; [| |by apply (cr_holds _ _ _ HR)]; [done|].
    intros mx' w Hw k Hk. cbn. pose proof (cr_apart _ _ _ HR _ _ _ _ Hne Hq Hp) as Ha. rewrite Hw in Ha. cbn in Ha.
    rewrite Hat. by rewrite !decide_False by lia.
Qed.

Lemma set_str_spec id bytes len : 0 <= id -> kind_at m id <> Some true -> 0 <= len <= Z.of_nat (length bytes) ->
  runs (cfgSetStr id bytes len) s (set_post (spec_set_str id bytes len m)).
Proof.
  unfold kind_at, spec_set_str, cfgSetStr, cfgSetStrNotify. intros H0 Hk Hlen. apply runs_bnd. destruct (aget m id) as [p|] eqn:Hp.
  - apply cfg_control_some with p; [done|]. destruct (ctl_facts _ _ Hp) as (-> & Hf & Hv & _ & Hl). rewrite Hf, Hv.
    pose proof (cr_holds _ _ _ HR _ _ Hp) as Hh. destruct p as [f [mn mx old|mx old]]; [done|]. cbn [holds p_val p_flags negb] in *.
    destruct Hh as (Hr & Hr' & Hmx & Hm & _). destruct (Z.leb_spec CFG_STA_SBUF_MAX_SIZE (loc id)); [lia|].
    assert (Hsl : Z.of_nat (length (gCfgSBuf s)) = CFG_STA_SBUF_MAX_SIZE) by (by rewrite (bo_sbuf _ (cr_bufs _ _ _ HR))).
    mstep. apply runs_rd with mx; [apply HR|done|]. destruct (Z.ltb_spec mx len), (Z.leb_spec len mx); try lia.
    + mstep. apply set_post_same.
    + mstep. apply runs_wr; [apply HR|lia|]. mstep. apply copy_in_spec; [apply HR|lia|lia|lia|cbn; rewrite length_upd; lia|].
      apply runs_bnd. eapply (notify_spec {| p_flags := f; p_val := PStr mx [] |}); [done|]. mstep. split; [done|]. split.
      * eapply post_rel, set_str_rel; [exact Hp|lia|lia].
      * by apply post_frame.
  - apply cfg_control_none; [done|done|]. mstep. apply set_post_same.
Qed.
End Ops.

(** ** Sequences of operations *)

Inductive cfg_op :=
| OSetInt (cfgId value : Z)
| OSetStr (cfgId : Z) (pStr : list Z) (len : Z)
| OGetInt (cfgId : Z)
| OGetStr (cfgId cap : Z)
| OGetStrLen (cfgId : Z)
| OGetStrMaxLen (cfgId : Z)
| OCheckValid (cfgId : Z).

Inductive cfg_res :=
| RStatus (st : tSirRetStatus)
| RInt (r : tSirRetStatus * option Z)
| RStr (r : tSirRetStatus * option (list Z)).

Definition run_op (op : cfg_op) : M ST cfg_res :=
  match op with
  | OSetInt id v => r <- cfgSetInt id v ;; mreturn (RStatus r)
  | OSetStr id b n => r <- cfgSetStr id b n ;; mreturn (RStatus r)
  | OGetInt id => r <- wlan_cfgGetInt id ;; mreturn (RInt r)
  | OGetStr id cap => r <- wlan_cfgGetStr id cap ;; mreturn (RStr r)
  | OGetStrLen id => r <- wlan_cfgGetStrLen id ;; mreturn (RInt r)
  | OGetStrMaxLen id => r <- wlan_cfgGetStrMaxLen id ;; mreturn (RInt r)
  | OCheckValid id => r <- cfgCheckValid id ;; mreturn (RStatus r)
  end.
Fixpoint run_ops (ops : list cfg_op) : M ST (list cfg_res) :=
  match ops with
  | [] => mreturn []
  | op :: ops => r <- run_op op ;; rs <- run_ops ops ;; mreturn (r :: rs)
  end.

Definition spec_op (op : cfg_op) (m : list param) : cfg_res * list param * list posted_msg :=
  match op with
  | OSetInt id v => let '(r, m', po) := spec_set_int id v m in (RStatus r, m', po)
  | OSetStr id b n => let '(r, m', po) := spec_set_str id b n m in (RStatus r, m', po)
  | OGetInt id => (RInt (spec_get_int id m), m, [])
  | OGetStr id cap => (RStr (spec_get_str id cap m), m, [])
  | OGetStrLen id => (RInt (spec_get_str_len id m), m, [])
  | OGetStrMaxLen id => (RInt (spec_get_str_max_len id m), m, [])
  | OCheckValid id => (RStatus (match aget m id with Some _ => eSIR_SUCCESS | None => eSIR_CFG_INVALID_ID end), m, [])
  end.
Fixpoint spec_ops (ops : list cfg_op) (m : list param) : list cfg_res * list param * list posted_msg :=
  match ops with
  | [] => ([], m, [])
  | op :: ops =>
      let '(r, m', po) := spec_op op m in
      let '(rs, m'', po') := spec_ops ops m' in (r :: rs, m'', po ++ po')
  end.

(** An operation for the kind of the parameter; where the code checks the range of the
    identifier, also one that is out of range. *)
Definition op_ok (m : list param) (op : cfg_op) : Prop :=
  match op with
  | OSetInt id _ | OGetInt id => 0 <= id /\ kind_at m id <> Some false
  | OSetStr id b n => 0 <= id /\ kind_at m id <> Some true /\ 0 <= n <= Z.of_nat (length b)
  | OGetStr id _ => 0 <= id /\ kind_at m id <> Some true
  | OGetStrLen id | OGetStrMaxLen id => kind_at m id = Some false
  | OCheckValid id => 0 <= id
  end.

Lemma kind_upd m id p p' j : aget m id = Some p -> is_int p' = is_int p -> kind_at (upd m id p') j = kind_at m j.
Proof.
  intros Hp Hi. unfold kind_at. rewrite aget_upd by (by eapply aget_Some_range).
  case_decide; [subst; rewrite Hp; cbn; by rewrite Hi|done].
Qed.

Lemma spec_set_int_kind id v m r m' po : spec_set_int id v m = (r, m', po) -> forall j, kind_at m' j = kind_at m j.
Proof.
  unfold spec_set_int. destruct (aget m id) as [[f [mn mx old|mx old]]|] eqn:Hp; [|by intros [= <- <- <-]..].
  case_match; [|by intros [= <- <- <-]]. intros [= <- <- <-] j. by apply (kind_upd _ _ _ _ _ Hp).
Qed.
Lemma spec_set_str_kind id b n m r m' po : spec_set_str id b n m = (r, m', po) -> forall j, kind_at m' j = kind_at m j.
Proof.
  unfold spec_set_str. destruct (aget m id) as [[f [mn mx old|mx old]]|] eqn:Hp; [by intros [= <- <- <-]| |by intros [= <- <- <-]].
  case_match; [|by intros [= <- <- <-]]. intros [= <- <- <-] j. by apply (kind_upd _ _ _ _ _ Hp).
Qed.

Lemma spec_op_kind op m r m' po : spec_op op m = (r, m', po) -> forall j, kind_at m' j = kind_at m j.
Proof.
  destruct op; cbn; try (by intros [= <- <- <-]).
  - destruct (spec_set_int cfgId value m) as [[r' m1] po'] eqn:Hs. intros [= <- <- <-]. by eapply spec_set_int_kind.
  - destruct (spec_set_str cfgId pStr len m) as [[r' m1] po'] eqn:Hs. intros [= <- <- <-]. by eapply spec_set_str_kind.
Qed.

Lemma op_ok_kind op m m' : (forall j, kind_at m' j = kind_at m j) -> op_ok m op -> op_ok m' op.
Proof. intros Hk. destruct op; cbn; rewrite ?Hk; done. Qed.

Lemma run_op_spec loc m s op : cfg_rel loc m s -> op_ok m op -> runs (run_op op) s (set_post loc s (spec_op op m)).
Proof.
  intros HR Hok. destruct op; cbn in *; apply runs_bnd.
  - eapply runs_mono; [eapply set_int_spec; [exact HR|apply Hok..]|]. cbn. intros r s' H. destruct (spec_set_int cfgId value m) as [[r' m'] po].
    unfold set_post in *. naive_solver.
  - eapply runs_mono; [eapply set_str_spec; [exact HR|apply Hok..]|]. cbn. intros r s' H. destruct (spec_set_str cfgId pStr len m) as [[r' m'] po].
    unfold set_post in *. naive_solver.
  - eapply get_int_spec; [exact HR|apply Hok..|]. mstep. by apply set_post_same.
  - eapply get_str_spec; [exact HR|apply Hok..|]. mstep. by apply set_post_same.
  - eapply get_str_len_spec; [exact HR|apply Hok|]. mstep. by apply set_post_same.
  - eapply get_str_max_len_spec; [exact HR|apply Hok|]. mstep. by apply set_post_same.
  - eapply check_valid_spec; [exact HR|apply Hok|]. mstep. by apply set_post_same.
Qed.

Lemma run_ops_spec loc ops : forall m s, cfg_rel loc m s -> Forall (op_ok m) ops ->
  runs (run_ops ops) s (set_post loc s (spec_ops ops m)).
Proof.
  induction ops as [|op ops IH]; intros m s HR Hok; cbn [run_ops spec_ops].
  - mstep. by apply set_post_same.
  - apply Forall_cons in Hok as [Hop Hok]. apply runs_bnd. eapply runs_mono; [by eapply run_op_spec|].
    intros r s1. destruct (spec_op op m) as [[r' m1] po1] eqn:Hs. intros (-> & HR1 & Hf1).
    apply runs_bnd. eapply runs_mono.
    { apply (IH m1 _ HR1). eapply Forall_impl; [exact Hok|]. intros o Ho. by eapply op_ok_kind; [eapply spec_op_kind|]. }
    intros rs s2. destruct (spec_ops ops m1) as [[rs' m2] po2]. intros (-> & HR2 & Hf2). mstep.
    split; [done|]. split; [done|]. by eapply frame_trans.
Qed.
