(* ===== verification/CfgDownload.v ===== *)
(** * The configuration store: loading the table

    The layout [processCfgDownloadReq] gives the parameters of the table, and that the store
    then holds the defaults. *)

From S2P Require Import Prelude CfgTable Cfg CfgInv.

Local Open Scope c_scope.

#[local] Abbreviation ST := tAniSirCfg.

(** ** The pointers to the strings *)

Definition static_ptr (i : nat) (e : cgstatic) : option cfgstatic_string :=
  if has_flag (control e) INT then None else List.find (fun x => str_cfg_id x =? Z.of_nat i) static_strings.
Definition static_ptrs : list (option cfgstatic_string) := imap static_ptr cfg_static.

Lemma length_static : length cfg_static = Z.to_nat WNI_CFG_MAX.
Proof. by vm_compute. Qed.
Lemma length_ptrs : length static_ptrs = Z.to_nat WNI_CFG_MAX.
Proof. unfold static_ptrs. rewrite length_imap. exact length_static. Qed.

(** Overwriting a list from the front *)
Lemma aset_progress {A} (a b : list A) n v :
  length a = length b -> a !! n = Some v -> aset (take n a ++ drop n b) (Z.of_nat n) v = Some (take (Datatypes.S n) a ++ drop (Datatypes.S n) b).
Proof.
  intros Hl Hv. pose proof (lookup_lt_Some _ _ _ Hv).
  rewrite aset_Some by (rewrite length_app, length_take, length_drop; lia). f_equal. rewrite Nat2Z.id.
  destruct (lookup_lt_is_Some_2 b n) as [w Hw]; [lia|]. rewrite (drop_S _ _ _ Hw), (take_S_r _ _ _ Hv), <- app_assoc.
  rewrite insert_app_r_alt by (rewrite length_take; lia). rewrite length_take, Nat.min_l, Nat.sub_diag by lia. done.
Qed.

Lemma upd_progress {A} (a b : list A) n v :
  length a = length b -> a !! n = Some v -> upd (take n a ++ drop n b) (Z.of_nat n) v = take (Datatypes.S n) a ++ drop (Datatypes.S n) b.
Proof. intros Hl Hv. pose proof (aset_progress a b n v Hl Hv) as (_ & ->)%aset_inv. done. Qed.

Lemma cfgInit_spec s : length (p_str_data s) = Z.to_nat WNI_CFG_MAX ->
  runs cfgInit s (fun r s' => r = eSIR_SUCCESS /\ s' = set_strs static_ptrs (set_set true s)).
Proof.
  intros Hlen. unfold cfgInit. do 2 mstep. apply runs_bnd. eapply runs_mono.
  { apply runs_mfor with (I := fun dn s' =>
      s' = set_strs (take (length dn) static_ptrs ++ drop (length dn) (p_str_data s)) (set_set true s)).
    - intros dn i todo s' Heq ->. apply seqZ_prefix in Heq as [-> Hi].
      destruct (lookup_lt_is_Some_2 cfg_static (length dn)) as [e He]; [rewrite length_static; lia|].
      assert (Hp : static_ptrs !! length dn = Some (static_ptr (length dn) e)).
      { unfold static_ptrs. by rewrite list_lookup_imap, He. }
      pose proof (aset_progress static_ptrs (p_str_data s) (length dn) _ ltac:(by rewrite length_ptrs) Hp) as Has.
      mstep. eapply runs_oget; [rewrite aget_nat; exact He|]. unfold static_ptr in Has. rewrite length_app, Nat.add_1_r.
      destruct (has_flag (control e) INT); cbn [negb].
      + do 3 mstep. eapply runs_oget; [exact Has|]. by apply runs_modify.
      + unfold cfg_get_str_index. do 3 mstep. eapply runs_oget; [exact Has|]. by apply runs_modify.
    - by destruct s. }
  cbn. intros [] s' ->. rewrite length_seqZ, <- length_ptrs, firstn_all, length_ptrs, drop_ge, app_nil_r by lia. done.
Qed.

(** ** The control words *)

#[local] Abbreviation tab_entry := (cgstatic * option cfgstatic_string)%type.
Definition cfg_tab : list tab_entry := zip cfg_static static_ptrs.

Fixpoint lay (tab : list tab_entry) (icount scount : Z) : list Z :=
  match tab with
  | [] => []
  | (e, p) :: tab =>
      if has_flag (control e) INT
      then Z.lor (control e) (Z.land icount CFG_BUF_INDX_MASK) :: lay tab (u32 (icount + 1)) scount
      else Z.lor (control e) (Z.land scount CFG_BUF_INDX_MASK) ::
        lay tab icount (u32 (scount + (match p with Some x => max_len x | None => 0 end + 1 + 1)))
  end.
Definition layout : list Z := lay cfg_tab 0 0.

Definition entry_ok (x : tab_entry) : bool :=
  let '(e, p) := x in
  has_flag (control e) VALID && (Z.land (control e) CFG_BUF_INDX_MASK =? 0) &&
  if has_flag (control e) INT then (cfg_imin e <=? cfg_ival e) && (cfg_ival e <=? cfg_imax e)
  else match p with
       | Some x => (0 <=? str_length x) && (str_length x <=? max_len x) && (max_len x <=? 255) && (length (str_data x) =? 255)%nat
       | None => false
       end.

Lemma cfg_tab_ok : forallb entry_ok cfg_tab = true.
Proof. by vm_compute. Qed.

Lemma length_lay tab ic sc : length (lay tab ic sc) = length tab.
Proof. revert ic sc. induction tab as [|[e p] tab IH]; intros; cbn; [done|]. case_match; cbn; by rewrite IH. Qed.
Lemma length_tab : length cfg_tab = Z.to_nat WNI_CFG_MAX.
Proof. unfold cfg_tab. rewrite length_zip_with, length_static, length_ptrs. done. Qed.
Lemma length_layout : length layout = Z.to_nat WNI_CFG_MAX.
Proof. unfold layout. by rewrite length_lay, length_tab. Qed.

Lemma tab_lookup i e p : cfg_tab !! i = Some (e, p) -> cfg_static !! i = Some e /\ static_ptrs !! i = Some p.
Proof. unfold cfg_tab. rewrite lookup_zip_with. intros. simplify_option_eq. done. Qed.

Lemma tab_of_static i e : cfg_static !! i = Some e -> cfg_tab !! i = Some (e, static_ptr i e).
Proof. intros He. unfold cfg_tab, static_ptrs. rewrite lookup_zip_with, list_lookup_imap, He. reflexivity. Qed.

Lemma static_string_found i e : aget cfg_static i = Some e -> has_flag (control e) INT = false -> is_Some (static_ptr (Z.to_nat i) e).
Proof.
  intros He HI. pose proof (aget_Some_range _ _ _ He). rewrite aget_lookup in He by lia.
  pose proof cfg_tab_ok as Hall. rewrite forallb_forall in Hall.
  specialize (Hall _ (proj1 (list_elem_of_In _ _) (list_elem_of_lookup_2 _ _ _ (tab_of_static _ _ He)))). cbn in Hall.
  rewrite HI, andb_true_iff in Hall. destruct Hall as [_ Hall]. destruct (static_ptr (Z.to_nat i) e); [eauto|done].
Qed.

Lemma take_S_insert {A} (l : list A) i x : (i < length l)%nat -> take (Datatypes.S i) (<[i:=x]> l) = take i l ++ [x].
Proof.
  intros Hi. rewrite (take_S_r _ _ x) by (by apply list_lookup_insert_eq). by rewrite take_insert_ge by lia.
Qed.

Lemma control_rounds suf : forall i ic sc fuel s,
  drop i cfg_tab = suf -> (length suf < fuel)%nat -> gCfg_set s = true -> p_str_data s = static_ptrs ->
  length (gCfgEntry s) = Z.to_nat WNI_CFG_MAX ->
  runs (miter fuel control_round (Z.of_nat i, ic, sc)) s (fun _ s' => s' = set_entry (take i (gCfgEntry s) ++ lay suf ic sc) s).
Proof.
  induction suf as [|[e p] suf IH]; intros i ic sc fuel s Hsuf Hfuel Hset Hstr Hlen; (destruct fuel as [|fuel]; [cbn in Hfuel; lia|]); cbn [miter]; apply runs_bnd; unfold control_round at 1.
  - assert (Z.to_nat WNI_CFG_MAX <= i)%nat.
    { apply (f_equal length) in Hsuf. rewrite length_drop, length_tab in Hsuf. cbn in Hsuf. lia. }
    destruct (Z.ltb_spec (Z.of_nat i) WNI_CFG_MAX); [lia|]. mstep. apply runs_ret. cbn. rewrite app_nil_r, take_ge by lia. by destruct s.
  - assert (Hi : cfg_tab !! i = Some (e, p)).
    { pose proof (lookup_drop cfg_tab i 0) as Hd. rewrite Hsuf, Nat.add_0_r in Hd. by symmetry. }
    assert (Hok : entry_ok (e, p) = true).
    { pose proof cfg_tab_ok as Hall. rewrite forallb_forall in Hall. apply Hall. apply list_elem_of_In. by eapply list_elem_of_lookup_2. }
    pose proof (lookup_lt_Some _ _ _ Hi) as Hlt. rewrite length_tab in Hlt. pose proof (tab_lookup _ _ _ Hi) as [He Hp].
    destruct (Z.ltb_spec (Z.of_nat i) WNI_CFG_MAX); [|lia].
    mstep. eapply runs_oget; [rewrite aget_nat; exact He|]. do 3 mstep. eapply runs_oget; [rewrite aget_nat, Hstr; exact Hp|].
    unfold entry_ok in Hok. apply andb_prop in Hok as [Hok Hok']. apply andb_prop in Hok as [HV _]. rewrite HV. cbn [lay].
    assert (Hsuf' : drop (Datatypes.S i) cfg_tab = suf).
    { rewrite <- Nat.add_1_r, <- drop_drop, Hsuf. done. }
    assert (Hnext : forall c ic' sc', runs (miter fuel control_round (Z.of_nat i + 1, ic', sc')) (set_entry (upd (gCfgEntry s) (Z.of_nat i) c) s)
      (fun _ s' => s' = set_entry (take i (gCfgEntry s) ++ c :: lay suf ic' sc') s)).
    { intros c ic' sc'. replace (Z.of_nat i + 1) with (Z.of_nat (Datatypes.S i)) by lia. eapply runs_mono.
      { apply IH; [done|cbn in Hfuel; lia|done|done|cbn; by rewrite length_upd]. }
      cbn. intros _ s' ->. unfold upd. rewrite Nat2Z.id, take_S_insert by lia. by rewrite <- app_assoc. }
    destruct (has_flag (control e) INT); cbn [negb].
    + mstep. apply runs_wr; [done|rewrite Hlen; lia|]. mstep. apply Hnext.
    + destruct p as [x|]; [|done]. mstep. apply runs_wr; [done|rewrite Hlen; lia|]. mstep. apply Hnext.
Qed.

Lemma download_control_spec s :
  gCfg_set s = true -> p_str_data s = static_ptrs -> length (gCfgEntry s) = Z.to_nat WNI_CFG_MAX ->
  runs download_control s (fun _ s' => s' = set_entry layout s).
Proof.
  intros. eapply runs_mono; [by apply (control_rounds cfg_tab 0); [by rewrite drop_0|rewrite length_tab; lia|..]|].
  intros [] s' ->. unfold layout. by rewrite take_0, app_nil_l.
Qed.

(** ** The room of the strings *)

Definition is_str_ctl (c : Z) : bool := negb (has_flag c INT) && has_flag c VALID.
(** The places and values written, for control words in the order the loop reads them *)
Fixpoint rooms (ctls : list Z) (buf_end : Z) : list (Z * Z) :=
  match ctls with
  | [] => []
  | c :: ctls =>
      if is_str_ctl c
      then let start := Z.land c CFG_BUF_INDX_MASK in (start, u8 (buf_end - start - 2)) :: rooms ctls start
      else rooms ctls buf_end
  end.
Definition write_all (sb : list Z) (ws : list (Z * Z)) : list Z := foldl (fun sb w => upd sb (fst w) (snd w)) sb ws.

Lemma length_write_all ws sb : length (write_all sb ws) = length sb.
Proof. revert sb. induction ws as [|w ws IH]; intros; cbn; [done|]. by rewrite IH, length_upd. Qed.

Lemma write_all_lookup ws : forall sb k v, NoDup ws.*1 -> (k, v) ∈ ws ->
  Forall (fun w => 0 <= fst w < Z.of_nat (length sb)) ws -> aget (write_all sb ws) k = Some v.
Proof.
  assert (Hskip : forall ws sb k, k ∉ ws.*1 -> Forall (fun w : Z * Z => 0 <= fst w < Z.of_nat (length sb)) ws ->
    aget (write_all sb ws) k = aget sb k).
  { clear. induction ws as [|w ws IH]; intros sb k Hk Hr; [done|]. cbn in *. apply not_elem_of_cons in Hk as [Hne Hk].
    apply Forall_cons in Hr as [Hw Hr]. rewrite IH; [|done|by rewrite length_upd]. rewrite aget_upd by done. by apply decide_False. }
  induction ws as [|[i u] ws IH]; intros sb k v Hnd Hin Hr; [by apply not_elem_of_nil in Hin|].
  cbn in *. apply NoDup_cons in Hnd as [Hni Hnd]. apply Forall_cons in Hr as [Hw Hr].
  apply elem_of_cons in Hin as [[= <- <-]|Hin].
  - rewrite Hskip; [|done|by rewrite length_upd]. rewrite aget_upd, decide_True by done. done.
  - apply IH; [done|done|by rewrite length_upd].
Qed.

Lemma fill_rounds n : forall be fuel s,
  (n < fuel)%nat -> (n <= length (gCfgEntry s))%nat -> gCfg_set s = true ->
  Forall (fun w => 0 <= fst w < Z.of_nat (length (gCfgSBuf s))) (rooms (rev (take n (gCfgEntry s))) be) ->
  runs (miter fuel fill_round (Z.of_nat n - 1, be)) s
    (fun _ s' => s' = set_sbuf (write_all (gCfgSBuf s) (rooms (rev (take n (gCfgEntry s))) be)) s).
Proof.
  induction n as [|n IH]; intros be fuel s Hfuel Hn Hset Hr; (destruct fuel as [|fuel]; [lia|]); cbn [miter]; apply runs_bnd; unfold fill_round at 1.
  - change (0 <=? Z.of_nat 0 - 1) with false. cbv beta iota. do 2 apply runs_ret. cbn. by destruct s.
  - replace (Z.of_nat (Datatypes.S n) - 1) with (Z.of_nat n) by lia.
    destruct (Z.leb_spec 0 (Z.of_nat n)); [|lia].
    destruct (lookup_lt_is_Some_2 (gCfgEntry s) n) as [c Hc]; [lia|].
    rewrite (take_S_r _ _ _ Hc), rev_unit in Hr |- *. cbn [rooms] in Hr |- *.
    mstep. apply runs_rd with c; [done|by rewrite aget_nat|]. unfold is_str_ctl in *.
    destruct (has_flag c INT), (has_flag c VALID); cbn [negb andb] in Hr |- *; try (mstep; apply IH; [lia|lia|done|done]).
    apply Forall_cons in Hr as [Hw Hr]. mstep. apply runs_wr; [done|exact Hw|]. mstep.
    eapply runs_mono; [apply IH; [lia|cbn; lia|done|cbn; by rewrite length_upd]|].
    cbn. intros _ s' ->. done.
Qed.

Definition layout_rooms : list (Z * Z) := rooms (rev layout) CFG_STA_SBUF_MAX_SIZE.

Lemma layout_rooms_ok :
  bool_decide (NoDup layout_rooms.*1) && forallb (fun w => (0 <=? fst w) && (fst w <? CFG_STA_SBUF_MAX_SIZE)) layout_rooms = true.
Proof. by vm_compute. Qed.

Lemma layout_rooms_unfold : rooms (rev layout) CFG_STA_SBUF_MAX_SIZE = layout_rooms.
Proof. unfold layout_rooms. reflexivity. Qed.

#[local] Opaque layout cfg_tab static_ptrs layout_rooms cfg_static.

Lemma layout_rooms_range s : bufs_ok s -> Forall (fun w => 0 <= fst w < Z.of_nat (length (gCfgSBuf s))) layout_rooms.
Proof.
  intros Hb. pose proof layout_rooms_ok as [_ H]%andb_prop. rewrite (bo_sbuf _ Hb). apply Forall_forall.
  rewrite forallb_forall in H. intros w Hw%list_elem_of_In%H. unfold CFG_STA_SBUF_MAX_SIZE in *. lia.
Qed.

Lemma fill_max_lengths_spec s : gCfg_set s = true -> bufs_ok s -> gCfgEntry s = layout ->
  runs fill_max_lengths s (fun _ s' => s' = set_sbuf (write_all (gCfgSBuf s) layout_rooms) s).
Proof.
  intros Hset Hb He. assert (Htake : rev (take (Z.to_nat WNI_CFG_MAX) (gCfgEntry s)) = rev layout).
  { rewrite He, take_ge by (rewrite length_layout; lia). reflexivity. }
  unfold fill_max_lengths. change (WNI_CFG_MAX - 1) with (Z.of_nat (Z.to_nat WNI_CFG_MAX) - 1).
  eapply runs_mono; [refine (fill_rounds (Z.to_nat WNI_CFG_MAX) CFG_STA_SBUF_MAX_SIZE (Datatypes.S (Z.to_nat WNI_CFG_MAX)) s _ _ Hset _)|].
  - lia.
  - by rewrite (bo_entry _ Hb).
  - rewrite Htake, layout_rooms_unfold. by apply layout_rooms_range.
  - intros [] s' ->. by rewrite Htake, layout_rooms_unfold.
Qed.

(** ** Places and defaults *)

Definition loc (id : Z) : Z := Z.land (default 0 (aget layout id)) CFG_BUF_INDX_MASK.

Definition default_value (x : tab_entry) : pvalue :=
  let '(e, p) := x in
  if has_flag (control e) INT then PInt (cfg_imin e) (cfg_imax e) (cfg_ival e)
  else match p with
       | Some x => PStr (max_len x) (take (Z.to_nat (str_length x)) (str_data x))
       | None => PStr 0 []
       end.
Definition default_param (x : tab_entry) : param := {| p_flags := control (fst x); p_val := default_value x |}.
(** The store after the download, abstractly *)
Definition defaults : list param := default_param <$> cfg_tab.

Definition place_ok (y : Z * tab_entry) : bool :=
  let '(c, (e, p)) := y in
  let at_ := Z.land c CFG_BUF_INDX_MASK in
  (c =? Z.lor (control e) at_) &&
  match default_value (e, p) with
  | PInt _ _ _ => at_ <? CFG_STA_IBUF_MAX_SIZE
  | PStr mx v => (at_ + 2 + mx <=? CFG_STA_SBUF_MAX_SIZE) && (length v =? Z.to_nat (match p with Some x => str_length x | None => 0 end))%nat &&
      existsb (fun w => (fst w =? at_) && (Z.of_nat (length v) <=? snd w)) layout_rooms
  end.
(** Places grow along the table, values of the same kind one after the other. *)
Fixpoint chain (l : list (Z * pvalue)) (ib sb : Z) : bool :=
  match l with
  | [] => true
  | (at_, PInt _ _ _) :: l => (ib <=? at_) && chain l (at_ + 1) sb
  | (at_, PStr mx _) :: l => (sb <=? at_) && (0 <=? mx) && chain l ib (at_ + 2 + mx)
  end.
Definition placed : list (Z * pvalue) := zip ((fun c => Z.land c CFG_BUF_INDX_MASK) <$> layout) (default_value <$> cfg_tab).

Lemma places_ok : forallb place_ok (zip layout cfg_tab) && chain placed 0 0 = true.
Proof. vm_compute. reflexivity. Qed.
Lemma chain_bound l : forall ib sb i a v, chain l ib sb = true -> l !! i = Some (a, v) ->
  match v with PInt _ _ _ => ib <= a | PStr _ _ => sb <= a end.
Proof.
  induction l as [|[b w] l IH]; intros ib sb i a v Hc Hi; [done|]. cbn in Hc. destruct i as [|i].
  - injection Hi as -> ->. destruct v; lia.
  - cbn in Hi. destruct w as [mn mx x|mx x]; repeat apply andb_prop in Hc as [Hc ?].
    + pose proof (IH _ _ _ _ _ H Hi) as Hb. destruct v; lia.
    + pose proof (IH _ _ _ _ _ H Hi) as Hb. destruct v; lia.
Qed.

Lemma chain_apart l : forall ib sb i j a v b w, chain l ib sb = true -> (i < j)%nat ->
  l !! i = Some (a, v) -> l !! j = Some (b, w) -> apart a v b w.
Proof.
  induction l as [|[c u] l IH]; intros ib sb i j a v b w Hc Hij Hi Hj; [done|].
  destruct j as [|j]; [lia|]. cbn in Hj, Hc. destruct i as [|i].
  - injection Hi as -> ->. destruct v as [mn mx x|mx x]; repeat apply andb_prop in Hc as [Hc ?];
      pose proof (chain_bound _ _ _ _ _ _ H Hj); destruct w; cbn; (done || lia).
  - cbn in Hi. destruct u; repeat apply andb_prop in Hc as [Hc ?]; (eapply (IH _ _ i j); [eassumption|lia|eassumption..]).
Qed.

Lemma length_defaults : length defaults = Z.to_nat WNI_CFG_MAX.
Proof. unfold defaults. rewrite length_fmap. exact length_tab. Qed.

(** A parameter, its entry in the table and its control word *)
Lemma default_entry id p : aget defaults id = Some p ->
  exists e q c, aget cfg_static id = Some e /\ aget static_ptrs id = Some q /\ aget layout id = Some c /\
    p = default_param (e, q) /\ loc id = Z.land c CFG_BUF_INDX_MASK /\
    placed !! Z.to_nat id = Some (loc id, p_val p) /\ entry_ok (e, q) = true /\ place_ok (c, (e, q)) = true.
Proof.
  intros Hp. pose proof (aget_Some_range _ _ _ Hp) as Hr. rewrite length_defaults in Hr.
  rewrite aget_lookup in Hp by lia. unfold defaults in Hp. rewrite list_lookup_fmap in Hp.
  destruct (cfg_tab !! Z.to_nat id) as [[e q]|] eqn:Ht; [|done]. injection Hp as <-.
  destruct (tab_lookup _ _ _ Ht) as [He Hq].
  destruct (lookup_lt_is_Some_2 layout (Z.to_nat id)) as [c Hc]; [rewrite length_layout; lia|].
  assert (Hz : zip layout cfg_tab !! Z.to_nat id = Some (c, (e, q))) by (rewrite lookup_zip_with, Hc; cbn; by rewrite Ht).
  assert (Hloc : loc id = Z.land c CFG_BUF_INDX_MASK) by (unfold loc; rewrite aget_lookup, Hc by lia; done).
  exists e, q, c. rewrite !aget_lookup by lia. split_and!; try done.
  - unfold placed. rewrite lookup_zip_with, !list_lookup_fmap, Hc. cbn. rewrite Ht. cbn. by rewrite Hloc.
  - pose proof cfg_tab_ok as Hall. rewrite forallb_forall in Hall. apply Hall, list_elem_of_In. by eapply list_elem_of_lookup_2.
  - pose proof places_ok as [Hall _]%andb_prop. rewrite forallb_forall in Hall. apply Hall, list_elem_of_In. by eapply list_elem_of_lookup_2.
Qed.

Lemma default_of_static i e : aget cfg_static i = Some e -> aget defaults i = Some (default_param (e, static_ptr (Z.to_nat i) e)).
Proof.
  intros He. pose proof (aget_Some_range _ _ _ He). rewrite aget_lookup in He by lia. rewrite aget_lookup by lia. unfold defaults.
  rewrite list_lookup_fmap. by rewrite (tab_of_static _ _ He).
Qed.

#[local] Opaque placed defaults.

Record default_facts (id : Z) (p : param) : Prop := {
  df_id : 0 <= id < WNI_CFG_MAX;
  df_ctl : aget layout id = Some (Z.lor (p_flags p) (loc id));
  df_flags : flags_only (p_flags p) /\ has_flag (p_flags p) VALID = true /\ has_flag (p_flags p) INT = is_int p;
  df_index : Z.land (Z.lor (p_flags p) (loc id)) CFG_BUF_INDX_MASK = loc id;
  df_place : match p_val p with
    | PInt mn mx v => 0 <= loc id < CFG_STA_IBUF_MAX_SIZE /\ mn <= v <= mx
    | PStr mx v => 0 <= loc id /\ loc id + 2 + mx <= CFG_STA_SBUF_MAX_SIZE /\ Z.of_nat (length v) <= mx <= 255 /\
        exists r, (loc id, r) ∈ layout_rooms /\ Z.of_nat (length v) <= r
    end;
  df_entry : exists e q, aget cfg_static id = Some e /\ aget static_ptrs id = Some q /\
    match p_val p with
    | PInt mn mx v => mn = cfg_imin e /\ mx = cfg_imax e /\ v = cfg_ival e
    | PStr mx v => exists x, q = Some x /\ mx = max_len x /\ str_length x = Z.of_nat (length v) /\
        v = take (Z.to_nat (str_length x)) (str_data x) /\ Z.of_nat (length v) <= Z.of_nat (length (str_data x))
    end
}.

Lemma aget_defaults_facts id p : aget defaults id = Some p -> default_facts id p.
Proof.
  intros Hp. pose proof (aget_Some_range _ _ _ Hp) as Hr. rewrite length_defaults in Hr.
  destruct (default_entry _ _ Hp) as (e & q & c & He & Hq & Hc & -> & Hloc & Hpl & Hok & Hplace).
  pose proof places_ok as [_ Hch]%andb_prop. pose proof (chain_bound _ _ _ _ _ _ Hch Hpl) as Hlow. cbn [default_param p_val] in Hlow. clear Hch Hpl Hp.
  unfold entry_ok in Hok. apply andb_prop in Hok as [[HV Hfl%Z.eqb_eq]%andb_prop Hok].
  unfold place_ok in Hplace. rewrite <- Hloc in Hplace. apply andb_prop in Hplace as [->%Z.eqb_eq Hplace].
  unfold default_param in *. unfold is_int. cbn [p_flags p_val fst] in *.
  assert (Hint : has_flag (control e) INT = match default_value (e, q) with PInt _ _ _ => true | _ => false end).
  { cbn. destruct (has_flag (control e) INT), q; done. }
  split; cbn [p_flags p_val].
  - exact Hr.
  - exact Hc.
  - split; [exact Hfl|]. split; [exact HV|exact Hint].
  - symmetry. exact Hloc.
  - cbn [default_value] in *. destruct (has_flag (control e) INT); [lia|]. destruct q as [x|]; [|done].
    apply andb_prop in Hplace as [[Hin Hlen]%andb_prop Hex]. apply Nat.eqb_eq in Hlen. split; [lia|]. split; [lia|]. split; [lia|].
    apply existsb_exists in Hex as ([st r] & Hw%list_elem_of_In & [Hst%Z.eqb_eq Hle]%andb_prop). cbn in Hst, Hle. subst st.
    exists r. split; [exact Hw|lia].
  - exists e, q. split; [done|]. split; [done|]. cbn [default_value] in *. destruct (has_flag (control e) INT); [done|].
    destruct q as [x|]; [|done]. exists x. apply andb_prop in Hplace as [[Hin Hlen]%andb_prop _]. apply Nat.eqb_eq in Hlen.
    repeat apply andb_prop in Hok as [Hok ?]. apply Nat.eqb_eq in H. split_and!; try done; rewrite ?Hlen; lia.
Qed.

Lemma default_apart i j p q : i <> j -> aget defaults i = Some p -> aget defaults j = Some q -> apart (loc i) (p_val p) (loc j) (p_val q).
Proof.
  intros Hne Hp Hq. pose proof (aget_Some_range _ _ _ Hp). pose proof (aget_Some_range _ _ _ Hq).
  destruct (default_entry _ _ Hp) as (? & ? & ? & _ & _ & _ & _ & _ & Hpl & _).
  destruct (default_entry _ _ Hq) as (? & ? & ? & _ & _ & _ & _ & _ & Hql & _).
  pose proof places_ok as [_ Hch]%andb_prop. destruct (decide (i < j)).
  - eapply chain_apart; [exact Hch| |exact Hpl|exact Hql]. lia.
  - apply apart_sym. eapply chain_apart; [exact Hch| |exact Hql|exact Hpl]. lia.
Qed.

(** ** The defaults *)

(** Entries before [k] have their default, the strings from [k] on have room for theirs. *)
Record downloading (s0 : ST) (k : Z) (s : ST) : Prop := {
  dl_set : gCfg_set s = true;
  dl_bufs : bufs_ok s;
  dl_entry : gCfgEntry s = layout;
  dl_ptrs : p_str_data s = static_ptrs;
  dl_done : forall id p, id < k -> aget defaults id = Some p -> holds s (loc id) (p_val p);
  dl_todo : forall id p mx v, k <= id -> aget defaults id = Some p -> p_val p = PStr mx v ->
    exists r, aget (gCfgSBuf s) (loc id) = Some r /\ Z.of_nat (length v) <= r;
  dl_frame : frame [] s0 s
}.

Lemma download_default_spec s0 k s : 0 <= k < WNI_CFG_MAX -> downloading s0 k s ->
  runs (download_default k) s (fun _ s' => downloading s0 (k + 1) s').
Proof.
  intros Hk D. destruct (aget_is_Some defaults k) as [p Hp]; [rewrite length_defaults; unfold WNI_CFG_MAX in *; lia|].
  destruct (aget_defaults_facts _ _ Hp) as [_ Hctl (Hfl & HV & HI) Hidx Hpl (e & q & He & Hq & Hent)].
  destruct D as [Hset Hb Hen Hpt Hdone Htodo Hfr]. pose proof Hb as [Hbe Hbn Hbx Hbi Hbs Hbb].
  assert (Hl : 0 <= loc k < 4096).
  { destruct (p_val p); unfold CFG_STA_IBUF_MAX_SIZE, CFG_STA_SBUF_MAX_SIZE in *; lia. }
  unfold download_default. mstep. eapply runs_rd; [done|by rewrite Hen|]. mstep. eapply runs_oget; [exact He|].
  rewrite Hidx, !has_flag_index, HI, HV by done. cbn [negb]. unfold is_int. destruct (p_val p) as [mn mx v|mx v] eqn:Hv; cbn iota.
  - destruct Hpl as [Hpl Hle], Hent as (-> & -> & ->).
    mstep. apply runs_wr; [done|by rewrite Hbn|]. mstep. apply runs_wr; [done|cbn; by rewrite Hbx|]. apply runs_wr; [done|cbn; by rewrite Hbi|].
    split; cbn; try done.
    + split; cbn; rewrite ?length_upd; done.
    + intros id p' Hid Hp'. destruct (decide (id = k)) as [->|Hne].
      * rewrite Hp in Hp'. injection Hp' as <-. rewrite Hv. cbn. rewrite !aget_upd by (rewrite ?Hbn, ?Hbx, ?Hbi; exact Hpl).
        by rewrite !decide_True by done.
      * eapply holds_mono; [| |apply Hdone; [lia|done]]; [|done]. intros mn' mx' w Hw. cbn.
        pose proof (default_apart _ _ _ _ Hne Hp' Hp) as Ha. rewrite Hw, Hv in Ha. cbn in Ha.
        rewrite !aget_upd by (rewrite ?Hbn, ?Hbx, ?Hbi; exact Hpl). by rewrite !decide_False by done.
    + intros id p' mx' w Hid Hp' Hw. eapply Htodo; [lia|done|done].
  - destruct Hpl as (Hl0 & Hl1 & Hlen & _), Hent as (x & -> & -> & Hslen & Hx & Hdl).
    destruct (Z.leb_spec CFG_STA_SBUF_MAX_SIZE (loc k)); [lia|].
    do 3 mstep. eapply runs_oget; [by rewrite Hpt|]. cbn beta iota.
    destruct (Htodo k p _ _ ltac:(lia) Hp Hv) as (r & Hr & Hle).
    mstep. eapply runs_rd; [done|exact Hr|]. rewrite Hslen. destruct (Z.ltb_spec r (Z.of_nat (length v))); [lia|].
    assert (Hsl : Z.of_nat (length (gCfgSBuf s)) = CFG_STA_SBUF_MAX_SIZE) by (rewrite Hbs; done).
    mstep. apply runs_wr; [done|lia|]. mstep. apply runs_wr; [done|cbn; rewrite length_upd; lia|].
    apply copy_in_spec; [done|lia|lia|done|cbn; rewrite !length_upd; lia|].
    rewrite <- Hslen, <- Hx. cbn [gCfgSBuf set_sbuf set_bufs]. rewrite Hslen.
    assert (Hat : forall j, aget (write_at (upd (upd (gCfgSBuf s) (loc k) (max_len x)) (loc k + 1) (Z.of_nat (length v))) (loc k + 2) v) j =
      if decide (loc k + 2 <= j < loc k + 2 + Z.of_nat (length v)) then aget v (j - (loc k + 2))
      else if decide (j = loc k + 1) then Some (Z.of_nat (length v)) else if decide (j = loc k) then Some (max_len x) else aget (gCfgSBuf s) j).
    { intros j. rewrite aget_write_at by (rewrite ?length_upd; lia). case_decide; [done|].
      rewrite aget_upd by (rewrite ?length_upd; lia). case_decide; [done|]. by rewrite aget_upd by lia. }
    split; cbn; try done.
    + split; cbn; rewrite ?length_write_at, ?length_upd; done.
    + intros id p' Hid Hp'. destruct (decide (id = k)) as [->|Hne].
      * rewrite Hp in Hp'. injection Hp' as <-. rewrite Hv. cbn. rewrite !Hat. split_and!; try lia.
        -- by rewrite decide_False, decide_False, decide_True by lia.
        -- by rewrite decide_False, decide_True by lia.
        -- intros j Hj. rewrite Hat, decide_True by lia. f_equal. lia.
      * eapply holds_mono; [| |apply Hdone; [lia|done]]; [done|]. intros mx' w Hw j Hj. cbn.
        pose proof (default_apart _ _ _ _ Hne Hp' Hp) as Ha. rewrite Hw, Hv in Ha. cbn in Ha.
        rewrite Hat. by rewrite !decide_False by lia.
    + intros id p' mx' w Hid Hp' Hw. destruct (Htodo id p' mx' w ltac:(lia) Hp' Hw) as (r' & Hr' & Hle').
      exists r'. split; [|done]. pose proof (default_apart id k _ _ ltac:(lia) Hp' Hp) as Ha. rewrite Hw, Hv in Ha. cbn in Ha.
      destruct (aget_defaults_facts _ _ Hp') as [_ _ _ _ Hpl' _]. rewrite Hw in Hpl'.
      rewrite Hat. by rewrite !decide_False by lia.
Qed.

(** The level the table gives, as the store reads it back *)
Definition default_log_level : Z := match aget cfg_static WNI_CFG_LOG_LEVEL with Some e => cfg_ival e | None => 0 end.
Lemma spec_log_level : spec_get_int WNI_CFG_LOG_LEVEL defaults = (eSIR_SUCCESS, Some default_log_level) /\ kind_at defaults WNI_CFG_LOG_LEVEL = Some true.
Proof. vm_compute. done. Qed.
#[local] Opaque default_log_level.

Lemma rooms_todo s id p mx v : bufs_ok s -> aget defaults id = Some p -> p_val p = PStr mx v ->
  exists r, aget (write_all (gCfgSBuf s) layout_rooms) (loc id) = Some r /\ Z.of_nat (length v) <= r.
Proof.
  intros Hb Hp Hv. destruct (aget_defaults_facts _ _ Hp) as [_ _ _ _ Hpl _]. rewrite Hv in Hpl.
  destruct Hpl as (_ & _ & _ & r & Hin & Hle). exists r. split; [|exact Hle].
  pose proof layout_rooms_ok as [Hnd%bool_decide_eq_true_1 _]%andb_prop.
  exact (write_all_lookup _ _ _ _ Hnd Hin (layout_rooms_range _ Hb)).
Qed.

Lemma downloading_rel s0 s : downloading s0 WNI_CFG_MAX s -> cfg_rel loc defaults s.
Proof.
  intros D. destruct D as [Hset Hb Hen Hpt Hdone _ _]. split; [exact Hset|exact Hb|exact length_defaults| | | |].
  - intros id p Hp. rewrite Hen. exact (df_ctl _ _ (aget_defaults_facts _ _ Hp)).
  - intros id p Hp. exact (df_flags _ _ (aget_defaults_facts _ _ Hp)).
  - intros id p Hp. apply Hdone; [|exact Hp]. apply (df_id _ _ (aget_defaults_facts _ _ Hp)).
  - intros i j p q Hne Hp Hq. exact (default_apart i j p q Hne Hp Hq).
Qed.

Lemma download_spec s : gCfg_set s = true -> bufs_ok s -> p_str_data s = static_ptrs ->
  runs processCfgDownloadReq s (fun _ s' =>
    cfg_rel loc defaults s' /\ gCfgStatus s' = CFG_SUCCESS /\ gLogLevel s' = Some default_log_level /\
    gSBuffer s' = gSBuffer s /\ posted s' = posted s /\ host_msgs s' = host_msgs s).
Proof.
  intros Hset Hb Hpt. unfold processCfgDownloadReq. apply runs_bnd.
  eapply runs_mono; [apply (download_control_spec s Hset Hpt (bo_entry _ Hb))|]. intros [] s1 Hs1.
  assert (Hb1 : bufs_ok s1) by (subst s1; destruct Hb; split; cbn; (exact length_layout || assumption)).
  apply runs_bnd. eapply runs_mono; [apply (fill_max_lengths_spec s1); [by subst s1|exact Hb1|by subst s1]|].
  intros [] s2 Hs2. apply runs_bnd. eapply runs_mono.
  { apply runs_mfor with (I := fun dn s' => downloading s2 (Z.of_nat (length dn)) s').
    - intros dn i todo s' Heq D. apply seqZ_prefix in Heq as [-> Hi]. eapply runs_mono; [exact (download_default_spec _ _ _ Hi D)|].
      intros [] s'' D'. rewrite length_app, Nat2Z.inj_add. exact D'.
    - subst s2. split; cbn.
      + by subst s1.
      + destruct Hb1. split; cbn; rewrite ?length_write_all; assumption.
      + by subst s1.
      + by subst s1.
      + intros id p Hid Hp. pose proof (df_id _ _ (aget_defaults_facts _ _ Hp)). lia.
      + intros id p mx v _ Hp Hv. exact (rooms_todo _ _ _ _ _ Hb1 Hp Hv).
      + apply frame_refl. }
  intros [] s3 D. rewrite length_seqZ in D. change (Z.of_nat (Z.to_nat WNI_CFG_MAX)) with WNI_CFG_MAX in D.
  pose proof (downloading_rel _ _ D) as HR. destruct (dl_frame _ _ _ D) as (_ & Hf1 & _ & _ & Hf4 & Hf5 & _). rewrite app_nil_r in Hf5.
  destruct spec_log_level as [Hspec Hkind]. unfold set_log_level. do 2 apply runs_bnd.
  eapply get_int_spec; [exact HR|done|by rewrite Hkind|]. rewrite Hspec. do 3 mstep. split.
  { eapply rel_bufs; [exact HR|..]; try reflexivity; [apply HR|]. destruct (cr_bufs _ _ _ HR). by split. }
  cbn. subst s2 s1. done.
Qed.

Lemma init_download_spec s : bufs_ok s -> length (p_str_data s) = Z.to_nat WNI_CFG_MAX ->
  runs (_ <- cfgInit ;; processCfgDownloadReq) s (fun _ s' =>
    cfg_rel loc defaults s' /\ gCfgStatus s' = CFG_SUCCESS /\ gLogLevel s' = Some default_log_level /\
    gSBuffer s' = gSBuffer s /\ posted s' = posted s /\ host_msgs s' = host_msgs s).
Proof.
  intros Hb Hlen. apply runs_bnd. eapply runs_mono; [exact (cfgInit_spec _ Hlen)|]. intros _ s' [_ ->].
  apply (download_spec (set_strs static_ptrs (set_set true s))); [reflexivity| |reflexivity]. destruct Hb. by split.
Qed.

(** The store at start-up: static memory is zero. *)
Definition boot : ST :=
  {| gCfgStatus := CFG_INCOMPLETE; gCfg_set := false; gCfgEntry := replicate 313 0; gCfgIBufMin := replicate 250 0;
     gCfgIBufMax := replicate 250 0; gCfgIBuf := replicate 250 0; gCfgSBuf := replicate 3465 0; gSBuffer := replicate 256 0;
     p_str_data := replicate 313 None; gLogLevel := None; posted := []; host_msgs := []; allocs := [true; true; false] |}.
Lemma boot_bufs : bufs_ok boot.
Proof. by split. Qed.
