(* ===== verification/CfgHost.v ===== *)
(** * The configuration store: messages of the host

    What [ProcSetReq] and [ProcGetReq] do with the messages that encode a list of parameters,
    on the parameters of [CfgInv]. *)

From S2P Require Import Prelude CfgTable Cfg CfgInv.

Local Open Scope c_scope.

#[local] Abbreviation ST := tAniSirCfg.

(** ** Bytes in words *)

Definition is_byte (b : Z) : Prop := 0 <= b < 256.
Definition le_word (b0 b1 b2 b3 : Z) : Z := b0 + 256 * b1 + 65536 * b2 + 16777216 * b3.
(** Bytes packed into words, with zeros to the word boundary *)
Fixpoint pack (bytes : list Z) : list Z :=
  match bytes with
  | [] => []
  | [b0] => [le_word b0 0 0 0]
  | [b0; b1] => [le_word b0 b1 0 0]
  | [b0; b1; b2] => [le_word b0 b1 b2 0]
  | b0 :: b1 :: b2 :: b3 :: bytes => le_word b0 b1 b2 b3 :: pack bytes
  end.

Lemma byte_at w k : 0 <= k -> Z.land (Z.shiftr w k) 0xff = w / 2 ^ k mod 256.
Proof. intros. rewrite Z.shiftr_div_pow2 by done. change 0xff with (2 ^ 8 - 1). by rewrite land_mask. Qed.

Lemma word_bytes_le b0 b1 b2 b3 : is_byte b0 -> is_byte b1 -> is_byte b2 -> is_byte b3 ->
  word_bytes (le_word b0 b1 b2 b3) = [b0; b1; b2; b3].
Proof.
  unfold is_byte, word_bytes. intros H0 H1 H2 H3. rewrite <- (Z.shiftr_0_r (le_word b0 b1 b2 b3)) at 1.
  rewrite !byte_at by lia. unfold le_word. change (2 ^ 0) with 1. change (2 ^ 8) with 256. change (2 ^ 16) with 65536. change (2 ^ 24) with 16777216.
  f_equal; [|f_equal; [|f_equal; [|f_equal]]]; Z.to_euclidean_division_equations; lia.
Qed.

(** Induction four bytes at a time *)
Lemma pack_ind (P : list Z -> Prop) :
  P [] -> (forall b0, P [b0]) -> (forall b0 b1, P [b0; b1]) -> (forall b0 b1 b2, P [b0; b1; b2]) ->
  (forall b0 b1 b2 b3 l, P l -> P (b0 :: b1 :: b2 :: b3 :: l)) -> forall l, P l.
Proof.
  intros P0 P1 P2 P3 P4. enough (H : forall n l, (length l <= n)%nat -> P l) by (intros l; by apply (H (length l))).
  induction n as [|n IH]; intros l Hl; [destruct l; [done|cbn in Hl; lia]|].
  destruct l as [|b0 [|b1 [|b2 [|b3 l]]]]; try done. apply P4, IH. cbn in Hl. lia.
Qed.

Lemma length_pack l : Z.of_nat (length (pack l)) = Z.shiftr (Z.of_nat (length l) + 3) 2.
Proof.
  induction l as [| | | |b0 b1 b2 b3 l IH] using pack_ind; try done. cbn [pack length].
  rewrite Nat2Z.inj_succ, IH, !Z.shiftr_div_pow2 by lia. change (2 ^ 2) with 4. rewrite !Nat2Z.inj_succ.
  Z.to_euclidean_division_equations; lia.
Qed.

Lemma pack_bytes l rest : Forall is_byte l -> take (length l) (flat_map word_bytes (pack l ++ rest)) = l.
Proof.
  assert (B0 : is_byte 0) by (unfold is_byte; lia).
  induction l as [| | | |b0 b1 b2 b3 l IH] using pack_ind; intros Hl; [done|..]; repeat (apply Forall_cons in Hl as [? Hl]);
    cbn [pack app flat_map]; rewrite word_bytes_le by done; try done. cbn [app length take]. by rewrite IH.
Qed.

Lemma length_flat_bytes l : length (flat_map word_bytes l) = (4 * length l)%nat.
Proof. induction l as [|w l IH]; cbn; [done|]. rewrite IH. lia. Qed.

(** ** Set requests *)

Inductive tlv := TInt (cfgId value : Z) | TStr (cfgId : Z) (bytes : list Z).
Definition tlv_id (t : tlv) : Z := match t with TInt id _ | TStr id _ => id end.
Definition encode_tlv (t : tlv) : list Z :=
  match t with
  | TInt id v => [id; 4; v]
  | TStr id b => id :: Z.of_nat (length b) :: pack b
  end.
Definition encode (ts : list tlv) : list Z := flat_map encode_tlv ts.

(** The value is of the parameter's kind. *)
Definition tlv_ok (m : list param) (t : tlv) : Prop :=
  0 <= tlv_id t < 65536 /\
  match t with
  | TInt id _ => kind_at m id <> Some false
  | TStr id b => kind_at m id <> Some true /\ Forall is_byte b
  end.

(** The result of a set that the store accepted *)
Definition accepted (p : param) : Z :=
  if has_flag (p_flags p) RESTART then WNI_CFG_NEED_RESTART
  else if has_flag (p_flags p) RELOAD then WNI_CFG_NEED_RELOAD else WNI_CFG_SUCCESS.

(** What a set request asks for *)
Definition host_set (t : tlv) (m : list param) : Z * list param * list posted_msg :=
  match aget m (tlv_id t) with
  | None => (WNI_CFG_INVALID_LEN, m, [])
  | Some p =>
      if negb (has_flag (p_flags p) WE) then (WNI_CFG_INVALID_LEN, m, [])
      else
        let '(r, m', po) :=
          match t with
          | TInt id v => spec_set_int id v m
          | TStr id b => spec_set_str id b (Z.of_nat (length b)) m
          end in
        match t with
        | TStr id b => if CFG_MAX_STR_LEN <? Z.of_nat (length b) then (WNI_CFG_INVALID_LEN, m, [])
                       else (if bool_decide (r = eSIR_SUCCESS) then accepted p else WNI_CFG_OTHER_ERROR, m', po)
        | TInt _ _ => (if bool_decide (r = eSIR_SUCCESS) then accepted p else WNI_CFG_OTHER_ERROR, m', po)
        end
  end.
Fixpoint host_sets (ts : list tlv) (m : list param) : list Z * list param * list posted_msg :=
  match ts with
  | [] => ([], m, [])
  | t :: ts => let '(r, m', po) := host_set t m in let '(rs, m'', po') := host_sets ts m' in (r :: rs, m'', po ++ po')
  end.

(** The messages for which there is a buffer *)
Fixpoint sent (a : list bool) (out : list host_msg) : list host_msg :=
  match a, out with
  | b :: a, v :: out => if b : bool then v :: sent a out else sent a out
  | _, _ => out
  end.
Lemma sent_nil a : sent a [] = [].
Proof. by destruct a. Qed.
Lemma sent_app o1 o2 : forall a, sent a (o1 ++ o2) = sent a o1 ++ sent (drop (length o1) a) o2.
Proof.
  induction o1 as [|v o1 IH]; intros [|b a]; cbn [app length drop]; rewrite ?sent_nil; try done.
  cbn. rewrite IH. by destruct b.
Qed.

(** The state after part of a request; [gSBuffer] is scratch. *)
Definition host_post (s : ST) (po : list posted_msg) (out : list host_msg) (s' : ST) : Prop :=
  gCfgStatus s' = gCfgStatus s /\ posted s' = posted s ++ po /\ host_msgs s' = host_msgs s ++ sent (allocs s) out /\
  allocs s' = drop (length out) (allocs s).

Lemma host_post_refl s : host_post s [] [] s.
Proof. unfold host_post. by rewrite sent_nil, !app_nil_r. Qed.
Lemma host_post_trans s1 s2 s3 po1 po2 o1 o2 :
  host_post s1 po1 o1 s2 -> host_post s2 po2 o2 s3 -> host_post s1 (po1 ++ po2) (o1 ++ o2) s3.
Proof.
  unfold host_post. intros (? & Hp & Ho & Ha) (? & Hp' & Ho' & Ha').
  rewrite Hp', Ho', Ha', Hp, Ho, Ha, sent_app, length_app, drop_drop, !app_assoc. intuition congruence.
Qed.
Lemma host_post_frame s s' po : frame po s s' -> host_post s po [] s'.
Proof. unfold frame, host_post. rewrite sent_nil, app_nil_r. cbn. tauto. Qed.

Lemma CheckParam_spec loc m s id flag failed (Q : option Z -> ST -> Prop) :
  cfg_rel loc m s -> 0 <= id ->
  Q (match aget m id with
     | None => Some WNI_CFG_INVALID_PID
     | Some p => if has_flag (p_flags p) flag then None else Some failed
     end) s -> runs (CheckParam id flag failed) s Q.
Proof.
  intros HR H0 HQ. unfold CheckParam. destruct (aget m id) as [p|] eqn:Hp.
  - pose proof (rel_id _ _ _ HR _ _ Hp). destruct (Z.leb_spec WNI_CFG_MAX id); [lia|].
    destruct (ctl_facts _ _ _ HR _ _ Hp) as (_ & Hf & Hv & _ & Hl).
    mstep. eapply runs_rd; [apply HR|by apply (cr_ctl _ _ _ HR)|]. rewrite !Hf, Hv. cbn [negb].
    destruct (has_flag (p_flags p) flag); by apply runs_ret.
  - pose proof (rel_none _ _ _ HR _ H0 Hp). destruct (Z.leb_spec WNI_CFG_MAX id); [by apply runs_ret|lia].
Qed.

Lemma set_result_spec loc m s id p r (Q : Z -> ST -> Prop) :
  cfg_rel loc m s -> aget m id = Some p ->
  Q (if bool_decide (r = eSIR_SUCCESS) then accepted p else WNI_CFG_OTHER_ERROR) s -> runs (set_result id r) s Q.
Proof.
  intros HR Hp HQ. unfold set_result. destruct (ctl_facts _ _ _ HR _ _ Hp) as (_ & Hf & _).
  case_bool_decide; [|by apply runs_ret]. unfold accepted in HQ. apply runs_bnd. unfold cfgNeedRestart.
  do 2 mstep. rewrite (cr_set _ _ _ HR). cbn [negb]. mstep. eapply runs_rd; [apply HR|by apply (cr_ctl _ _ _ HR)|]. rewrite Hf. mstep.
  destruct (has_flag (p_flags p) RESTART); [by apply runs_ret|]. apply runs_bnd. unfold cfgNeedReload.
  do 2 mstep. rewrite (cr_set _ _ _ HR). cbn [negb]. mstep. eapply runs_rd; [apply HR|by apply (cr_ctl _ _ _ HR)|]. rewrite Hf. mstep.
  destruct (has_flag (p_flags p) RELOAD); by apply runs_ret.
Qed.

(** The buffer then begins with the bytes; the rest of the store is as it was. *)
Lemma GetStrValue_spec loc m s bytes n :
  cfg_rel loc m s -> 0 <= n <= CFG_MAX_STR_LEN -> n <= Z.of_nat (length bytes) ->
  runs (GetStrValue bytes n) s (fun _ s' => cfg_rel loc m s' /\ host_post s [] [] s' /\ take (Z.to_nat n) (gSBuffer s') = take (Z.to_nat n) bytes).
Proof.
  intros HR Hn Hl. pose proof (bo_buffer _ (cr_bufs _ _ _ HR)) as Hb. unfold CFG_MAX_STR_LEN in *. unfold GetStrValue. do 3 mstep.
  apply runs_massert; [rewrite (cr_set _ _ _ HR), Hb; cbn [andb]; apply andb_true_intro; split; apply Z.leb_le; lia|]. mstep. split; [|split].
  - eapply rel_bufs; [exact HR|..]; try reflexivity; [apply HR|]. destruct (cr_bufs _ _ _ HR). split; cbn; try done.
    rewrite length_app, length_take, length_drop, Hb. lia.
  - unfold host_post. cbn. by rewrite sent_nil, !app_nil_r.
  - cbn. rewrite take_app_le, take_take by (rewrite length_take; lia). f_equal. lia.
Qed.

(** What one value of the request leads to *)
Definition set_outcome (loc : Z -> Z) (s : ST) (out : Z * list param * list posted_msg) (r : Z) (s' : ST) : Prop :=
  let '(r', m', po) := out in r = r' /\ cfg_rel loc m' s' /\ host_post s po [] s'.

Lemma set_outcome_store loc s s0 p id (out : tSirRetStatus * list param * list posted_msg) r m' s1 :
  set_post loc s0 out r s1 -> host_post s [] [] s0 -> aget m' id = Some p -> m' = out.1.2 ->
  runs (set_result id r) s1 (set_outcome loc s (if bool_decide (out.1.1 = eSIR_SUCCESS) then accepted p else WNI_CFG_OTHER_ERROR, m', out.2)).
Proof.
  destruct out as [[r' m1] po]. cbn. intros (-> & HR & Hf) H0 Hp ->. eapply set_result_spec; [exact HR|exact Hp|].
  split; [done|]. split; [exact HR|]. pose proof (host_post_trans _ _ _ _ _ _ _ H0 (host_post_frame _ _ _ Hf)) as H. by rewrite !app_nil_l in H.
Qed.

(** A set keeps the flags. *)
Lemma spec_set_flags (out : tSirRetStatus * list param * list posted_msg) m id p :
  (exists v, out = spec_set_int id v m) \/ (exists b n, out = spec_set_str id b n m) ->
  aget m id = Some p -> exists p', aget out.1.2 id = Some p' /\ p_flags p' = p_flags p.
Proof.
  intros Hout Hp. pose proof (aget_Some_range _ _ _ Hp).
  destruct Hout as [[v ->]|(b & n & ->)]; unfold spec_set_int, spec_set_str; rewrite Hp; destruct p as [f [mn mx old|mx old]];
    try case_match; cbn; rewrite ?aget_upd, ?decide_True by done; eauto.
Qed.

Lemma accepted_flags p p' : p_flags p' = p_flags p -> accepted p' = accepted p.
Proof. unfold accepted. by intros ->. Qed.

Lemma set_param_spec loc m s p t len pParam at_ rest :
  cfg_rel loc m s -> tlv_ok m t -> aget m (tlv_id t) = Some p -> has_flag (p_flags p) WE = true -> 0 <= at_ ->
  drop (Z.to_nat at_) pParam = drop 2 (encode_tlv t) ++ rest -> len = 4 * Z.of_nat (length (drop 2 (encode_tlv t) ++ rest)) -> len < 65536 ->
  runs (set_param (tlv_id t) (match t with TInt _ _ => 4 | TStr _ b => Z.of_nat (length b) end) len pParam at_) s
    (set_outcome loc s (host_set t m)).
Proof.
  intros HR [Hid Hok] Hp HWE Hat Hdrop -> Hlen. unfold set_param, host_set. rewrite Hp, HWE. cbn [negb].
  destruct (ctl_facts _ _ _ HR _ _ Hp) as (_ & Hf & _ & Hint & _).
  mstep. eapply runs_rd; [apply HR|by apply (cr_ctl _ _ _ HR)|]. rewrite Hf, Hint.
  destruct t as [id v|id b]; cbn [tlv_id encode_tlv drop] in *; unfold kind_at in Hok; rewrite Hp in Hok; cbn in Hok.
  - destruct (is_int p) eqn:Hi; [|by destruct Hok]. cbn [negb Z.eqb Pos.eqb].
    mstep. eapply runs_oget.
    { rewrite aget_lookup by done. rewrite <- (Nat.add_0_r (Z.to_nat at_)), <- lookup_drop, Hdrop. done. }
    apply runs_bnd. eapply runs_mono; [eapply set_int_spec; [exact HR|lia|unfold kind_at; rewrite Hp; cbn; congruence]|].
    intros r s1 H1. destruct (spec_set_flags (spec_set_int id v m) m id p) as (p' & Hp' & Hfl); [eauto|done|].
    rewrite <- (accepted_flags _ _ Hfl). pose proof (set_outcome_store loc s s p' id _ r _ s1 H1 (host_post_refl s) Hp' eq_refl) as H.
    by destruct (spec_set_int id v m) as [[r' m'] po].
  - destruct Hok as [Hk Hbytes]. destruct (is_int p) eqn:Hi; [by destruct Hk|].
    rewrite ?drop_0 in Hlen, Hdrop |- *. rewrite length_app, Nat2Z.inj_add, length_pack in Hlen |- *.
    assert (Hru : u16 (round_up4 (Z.of_nat (length b))) = 4 * Z.shiftr (Z.of_nat (length b) + 3) 2).
    { unfold round_up4. rewrite Z.shiftl_mul_pow2 by done. rewrite u16_small; [lia|].
      rewrite !Z.shiftr_div_pow2 in * by done. change (2 ^ 2) with 4 in *. Z.to_euclidean_division_equations; lia. }
    rewrite Hru. destruct (Z.ltb_spec (4 * (Z.shiftr (Z.of_nat (length b) + 3) 2 + Z.of_nat (length rest))) (4 * Z.shiftr (Z.of_nat (length b) + 3) 2)) as [?|_]; [lia|].
    cbn [orb]. destruct (Z.ltb_spec CFG_MAX_STR_LEN (Z.of_nat (length b))) as [Hbig|Hsmall].
    + mstep. destruct (spec_set_str id b (Z.of_nat (length b)) m) as [[r' m'] po]. split; [done|]. split; [done|apply host_post_refl].
    + assert (Hbl : (length b <= length (body_bytes pParam at_))%nat).
      { unfold body_bytes. rewrite Hdrop, length_flat_bytes, length_app. pose proof (length_pack b) as Hpk.
        rewrite Z.shiftr_div_pow2 in Hpk by done. change (2 ^ 2) with 4 in Hpk. Z.to_euclidean_division_equations; lia. }
      apply runs_bnd. eapply runs_mono; [eapply (GetStrValue_spec loc m s); [exact HR|lia|lia]|].
      intros [] s0 (HR0 & Hp0 & Htake). rewrite Nat2Z.id in Htake.
      assert (Hb : take (length b) (gSBuffer s0) = b).
      { rewrite Htake. unfold body_bytes. rewrite Hdrop. by apply pack_bytes. }
      do 2 mstep. apply runs_bnd. eapply runs_mono.
      { eapply set_str_spec; [exact HR0|lia|unfold kind_at; rewrite Hp; cbn; congruence|].
        apply (f_equal length) in Hb. rewrite length_take in Hb. lia. }
      assert (Hspec : spec_set_str id (gSBuffer s0) (Z.of_nat (length b)) m = spec_set_str id b (Z.of_nat (length b)) m).
      { unfold spec_set_str. rewrite Hp. destruct p as [f [mn mx old|mx old]]; [done|]. by rewrite !Nat2Z.id, Hb, take_ge by lia. }
      rewrite Hspec. intros r s1 H1.
      destruct (spec_set_flags (spec_set_str id b (Z.of_nat (length b)) m) m id p) as (p' & Hp' & Hfl); [eauto|done|].
      rewrite <- (accepted_flags _ _ Hfl). pose proof (set_outcome_store loc s s0 p' id _ r _ s1 H1 Hp0 Hp' eq_refl) as H.
      by destruct (spec_set_str id b (Z.of_nat (length b)) m) as [[r' m'] po].
Qed.

Lemma host_set_kind t m r m' po : host_set t m = (r, m', po) -> forall j, kind_at m' j = kind_at m j.
Proof.
  unfold host_set. destruct (aget m (tlv_id t)) as [p|]; [|by intros [= <- <- <-]]. destruct (negb _); [by intros [= <- <- <-]|].
  destruct t as [id v|id b].
  - destruct (spec_set_int id v m) as [[r' m1] po'] eqn:Hs. intros [= <- <- <-]. by eapply spec_set_int_kind.
  - destruct (spec_set_str id b _ m) as [[r' m1] po'] eqn:Hs. destruct (_ <? _); intros [= <- <- <-]; [done|]. by eapply spec_set_str_kind.
Qed.

Lemma tlv_ok_kind t m m' : (forall j, kind_at m' j = kind_at m j) -> tlv_ok m t -> tlv_ok m' t.
Proof. intros Hk. destruct t; unfold tlv_ok; by rewrite Hk. Qed.

Lemma length_payload t : Z.of_nat (length (encode_tlv t)) = 2 + Z.shiftr (match t with TInt _ _ => 4 | TStr _ b => Z.of_nat (length b) end + 3) 2.
Proof. destruct t as [id v|id b]; cbn [encode_tlv length]; rewrite ?Nat2Z.inj_succ, ?length_pack; [done|lia]. Qed.

Lemma send_spec loc m s0 s po out msg :
  cfg_rel loc m s -> host_post s0 po out s ->
  runs (cfgSendHostMsg msg) s (fun _ s' => cfg_rel loc m s' /\ host_post s0 po (out ++ [msg]) s').
Proof.
  intros HR Hp. unfold cfgSendHostMsg. do 2 mstep.
  assert (H : forall v a, sent (allocs s) [msg] = v -> a = drop 1 (allocs s) ->
    cfg_rel loc m (send_msg v a s) /\ host_post s0 po (out ++ [msg]) (send_msg v a s)).
  { intros v a Hv Ha. split.
    - eapply rel_bufs; [exact HR|..]; try reflexivity; [apply HR|]. destruct (cr_bufs _ _ _ HR). by split.
    - rewrite <- (app_nil_r po). eapply host_post_trans; [exact Hp|]. unfold host_post. cbn [send_msg gCfgStatus posted host_msgs allocs].
      by rewrite Hv, Ha, app_nil_r. }
  destruct (allocs s) as [|[] a]; apply runs_modify, H; cbn; by rewrite ?sent_nil.
Qed.

(** One turn of the loop *)
Lemma set_round_spec loc m s fRsp t pre rest :
  cfg_rel loc m s -> tlv_ok m t -> 4 * Z.of_nat (length (encode_tlv t ++ rest)) < 65536 ->
  runs (set_round (pre ++ encode_tlv t ++ rest) fRsp (Z.of_nat (length pre), 4 * Z.of_nat (length (encode_tlv t ++ rest)))) s (fun next s' =>
    next = inl (Z.of_nat (length (pre ++ encode_tlv t)), 4 * Z.of_nat (length rest)) /\
    let '(r, m', po) := host_set t m in
    cfg_rel loc m' s' /\ host_post s po (if fRsp then [WNI_CFG_SET_CNF r (tlv_id t)] else []) s').
Proof.
  intros HR Hok Hlen. pose proof (length_payload t) as Hpl. set (vlen := match t with TInt _ _ => 4 | TStr _ b => Z.of_nat (length b) end) in Hpl.
  set (msg := pre ++ encode_tlv t ++ rest).
  assert (Hpos : 0 <= vlen) by (subst vlen; destruct t; lia).
  assert (Hsh : 0 <= vlen <= 4 * Z.shiftr (vlen + 3) 2).
  { rewrite Z.shiftr_div_pow2 by done. change (2 ^ 2) with 4. Z.to_euclidean_division_equations; lia. }
  rewrite length_app, Nat2Z.inj_add, Hpl in Hlen |- *.
  assert (Hhd : encode_tlv t = tlv_id t :: vlen :: drop 2 (encode_tlv t)) by (subst vlen; by destruct t).
  assert (Hw0 : aget msg (Z.of_nat (length pre)) = Some (tlv_id t)).
  { subst msg. rewrite aget_nat, lookup_app_r, Nat.sub_diag, Hhd by lia. done. }
  assert (Hw1 : aget msg (Z.of_nat (length pre) + 1) = Some vlen).
  { subst msg. rewrite aget_lookup by lia. replace (Z.to_nat (Z.of_nat (length pre) + 1)) with (length pre + 1)%nat by lia.
    rewrite lookup_app_r by lia. replace (length pre + 1 - length pre)%nat with 1%nat by lia. by rewrite Hhd. }
  destruct (Hok) as [Hid _]. unfold set_round. destruct (Z.leb_spec 8 (4 * (2 + Z.shiftr (vlen + 3) 2 + Z.of_nat (length rest)))); [|lia].
  mstep. eapply runs_oget; [exact Hw0|]. mstep. eapply runs_oget; [exact Hw1|].
  rewrite !u16_small by lia. assert (Hru : u16 (round_up4 vlen) = 4 * Z.shiftr (vlen + 3) 2).
  { unfold round_up4. rewrite Z.shiftl_mul_pow2 by done. rewrite u16_small; lia. }
  rewrite Hru. apply runs_bnd. eapply CheckParam_spec; [exact HR|lia|]. apply runs_bnd.
  eapply runs_mono with (Q := set_outcome loc s (host_set t m)).
  { destruct (aget m (tlv_id t)) as [p|] eqn:Hp.
    - destruct (has_flag (p_flags p) WE) eqn:HWE.
      + eapply set_param_spec; [exact HR|exact Hok|exact Hp|exact HWE|lia| | |].
        * subst msg. replace (Z.to_nat (Z.of_nat (length pre) + 2)) with (length pre + 2)%nat by lia.
          rewrite <- drop_drop, drop_app_length, Hhd. reflexivity.
        * rewrite length_app, length_drop. lia.
        * lia.
      + unfold host_set. rewrite Hp, HWE. apply runs_ret. split; [done|]. split; [done|apply host_post_refl].
    - unfold host_set. rewrite Hp. apply runs_ret. split; [done|]. split; [done|apply host_post_refl]. }
  intros r s1 H1. destruct (host_set t m) as [[r' m'] po]. destruct H1 as (-> & HR1 & Hp1). apply runs_bnd.
  eapply runs_mono with (Q := fun _ s' => cfg_rel loc m' s' /\ host_post s po (if fRsp then [WNI_CFG_SET_CNF r' (tlv_id t)] else []) s').
  { destruct fRsp; cbn [confirm]; [|by apply runs_ret]. by apply (send_spec _ _ s s1 po []). }
  intros [] s2 [HR2 Hp2]. mstep. split; [|done].
  destruct (Z.ltb_spec (4 * (2 + Z.shiftr (vlen + 3) 2 + Z.of_nat (length rest)) - 8) (4 * Z.shiftr (vlen + 3) 2)); [lia|].
  f_equal. f_equal; [|lia]. rewrite length_app, Nat2Z.inj_add, Hpl. rewrite (Z.shiftr_div_pow2 (4 * _)) by done. change (2 ^ 2) with 4.
  rewrite (Z.mul_comm 4), Z.div_mul by done. lia.
Qed.

Definition confirms (fRsp : bool) (ts : list tlv) (rs : list Z) : list host_msg :=
  if fRsp then zip_with WNI_CFG_SET_CNF rs (tlv_id <$> ts) else [].

Lemma length_encode_tlv_pos t : (2 <= length (encode_tlv t))%nat.
Proof. destruct t; cbn; lia. Qed.

Lemma length_encode ts : (length ts <= length (encode ts))%nat.
Proof. induction ts as [|t ts IH]; cbn; [lia|]. rewrite length_app. pose proof (length_encode_tlv_pos t). fold (encode ts). lia. Qed.

Lemma set_rounds_spec loc fRsp ts : forall m s pre fuel,
  cfg_rel loc m s -> Forall (tlv_ok m) ts -> 4 * Z.of_nat (length (encode ts)) < 65536 -> (length ts < fuel)%nat ->
  runs (miter fuel (set_round (pre ++ encode ts) fRsp) (Z.of_nat (length pre), 4 * Z.of_nat (length (encode ts)))) s (fun _ s' =>
    let '(rs, m', po) := host_sets ts m in
    length rs = length ts /\ cfg_rel loc m' s' /\ host_post s po (confirms fRsp ts rs) s').
Proof.
  induction ts as [|t ts IH]; intros m s pre fuel HR Hok Hlen Hfuel; (destruct fuel as [|fuel]; [lia|]); cbn [miter]; apply runs_bnd.
  - unfold set_round. cbn [encode flat_map length Z.of_nat Z.mul Z.leb Z.compare]. apply runs_ret, runs_ret. cbn [host_sets].
    split; [done|]. split; [done|]. unfold confirms. destruct fRsp; cbn; apply host_post_refl.
  - apply Forall_cons in Hok as [Ht Hok]. change (encode (t :: ts)) with (encode_tlv t ++ encode ts) in Hlen |- *.
    eapply runs_mono; [exact (set_round_spec loc m s fRsp t pre (encode ts) HR Ht Hlen)|].
    intros next s1. cbn [host_sets]. destruct (host_set t m) as [[r m1] po] eqn:Hs. intros (-> & HR1 & Hp1).
    rewrite (app_assoc pre). eapply runs_mono.
    { apply (IH m1 s1 (pre ++ encode_tlv t) fuel HR1).
      - eapply Forall_impl; [exact Hok|]. intros t' Ht'. eapply tlv_ok_kind; [|exact Ht']. by eapply host_set_kind.
      - rewrite length_app in Hlen. lia.
      - cbn in Hfuel. lia. }
    cbn beta. intros _ s2. destruct (host_sets ts m1) as [[rs m2] po']. intros (Hl & HR2 & Hp2). split; [cbn; by rewrite Hl|]. split; [done|].
    pose proof (host_post_trans _ _ _ _ _ _ _ Hp1 Hp2) as H. unfold confirms in *. by destruct fRsp.
Qed.

(** ** Get requests *)

(** The answer to one identifier.  The data of an answer with an error is what the scratch
    buffer holds, and not part of the contract. *)
Definition answers (ptr_size : Z) (m : list param) (id : Z) (msg : host_msg) : Prop :=
  match aget m id with
  | None => msg = WNI_CFG_GET_RSP WNI_CFG_INVALID_LEN id 0 []
  | Some p =>
      if negb (has_flag (p_flags p) RE) then msg = WNI_CFG_GET_RSP WNI_CFG_INVALID_LEN id 0 []
      else match p_val p with
           | PInt _ _ v => msg = WNI_CFG_GET_RSP WNI_CFG_SUCCESS id 4 (word_bytes v)
           | PStr _ v =>
               if Z.of_nat (length v) <=? ptr_size
               then exists data, msg = WNI_CFG_GET_RSP WNI_CFG_SUCCESS id (Z.of_nat (length v)) data /\ take (length v) data = v
               else exists data, msg = WNI_CFG_GET_RSP WNI_CFG_OTHER_ERROR id ptr_size data
           end
  end.

Lemma round_up4_ge n : 0 <= n -> n <= round_up4 n.
Proof.
  intros. unfold round_up4. rewrite Z.shiftl_mul_pow2, Z.shiftr_div_pow2 by done. change (2 ^ 2) with 4. Z.to_euclidean_division_equations; lia.
Qed.

Lemma get_param_spec loc m s ptr_size id p : cfg_rel loc m s -> aget m id = Some p -> has_flag (p_flags p) RE = true ->
  runs (get_param ptr_size id) s (fun '(res, plen, data) s' =>
    cfg_rel loc m s' /\ host_post s [] [] s' /\ answers ptr_size m id (WNI_CFG_GET_RSP res id plen data)).
Proof.
  intros HR Hp HRE. destruct (ctl_facts _ _ _ HR _ _ Hp) as (_ & Hf & _ & Hint & _). pose proof (rel_id _ _ _ HR _ _ Hp).
  unfold get_param, answers. rewrite Hp, HRE. cbn [negb]. mstep. eapply runs_rd; [apply HR|by apply (cr_ctl _ _ _ HR)|]. rewrite Hf, Hint.
  pose proof (cr_holds _ _ _ HR _ _ Hp) as Hh. destruct p as [f [mn mx v|mx v]]; cbn [is_int p_val p_flags] in *.
  - apply runs_bnd. eapply get_int_spec; [exact HR|lia|unfold kind_at; by rewrite Hp|]. unfold spec_get_int. rewrite Hp.
    do 2 mstep. apply runs_ret. split; [done|]. split; [apply host_post_refl|done].
  - apply runs_bnd. eapply get_str_spec; [exact HR|lia|unfold kind_at; by rewrite Hp|]. unfold spec_get_str. rewrite Hp.
    destruct (Z.of_nat (length v) <=? ptr_size); cbn [snd].
    + apply runs_bnd. eapply runs_mono; [eapply (GetStrValue_spec loc m s); [exact HR|destruct Hh as (_ & _ & Hm & _); unfold CFG_MAX_STR_LEN; lia|lia]|].
      intros [] s1 (HR1 & Hp1 & Htake). do 3 mstep. split; [done|]. split; [done|]. eexists. split; [done|].
      rewrite Nat2Z.id in Htake. pose proof (round_up4_ge (Z.of_nat (length v))). rewrite take_take, Nat.min_l by lia. by rewrite Htake, firstn_all.
    + do 3 mstep. split; [done|]. split; [apply host_post_refl|]. eauto.
Qed.

Lemma get_rounds_spec loc m ptr_size ids : forall s pre fuel,
  cfg_rel loc m s -> Forall (fun id => 0 <= id < 65536) ids -> (length ids < fuel)%nat ->
  runs (miter fuel (get_round ptr_size (pre ++ ids)) (Z.of_nat (length pre), 4 * Z.of_nat (length ids))) s (fun _ s' =>
    cfg_rel loc m s' /\ exists msgs, host_post s [] msgs s' /\ Forall2 (answers ptr_size m) ids msgs).
Proof.
  induction ids as [|id ids IH]; intros s pre fuel HR Hids Hfuel; (destruct fuel as [|fuel]; [lia|]); cbn [miter]; apply runs_bnd.
  - unfold get_round. cbn [length Z.of_nat Z.mul Z.leb Z.compare]. apply runs_ret, runs_ret. split; [done|]. exists []. split; [apply host_post_refl|done].
  - apply Forall_cons in Hids as [Hid Hids]. unfold get_round at 1. destruct (Z.leb_spec 4 (4 * Z.of_nat (length (id :: ids)))); [|cbn [length] in *; lia].
    mstep. eapply runs_oget; [rewrite aget_nat, lookup_app_r, Nat.sub_diag by lia; reflexivity|]. rewrite u16_small by lia.
    apply runs_bnd. eapply CheckParam_spec; [exact HR|lia|]. apply runs_bnd.
    eapply runs_mono with (Q := fun '(res, plen, data) s' =>
      cfg_rel loc m s' /\ host_post s [] [] s' /\ answers ptr_size m id (WNI_CFG_GET_RSP res id plen data)).
    { destruct (aget m id) as [p|] eqn:Hp.
      - destruct (has_flag (p_flags p) RE) eqn:HRE; [by eapply get_param_spec|].
        apply runs_ret. split; [done|]. split; [apply host_post_refl|]. unfold answers. by rewrite Hp, HRE.
      - apply runs_ret. split; [done|]. split; [apply host_post_refl|]. unfold answers. by rewrite Hp. }
    intros [[res plen] data] s1 (HR1 & Hp1 & Ha). apply runs_bnd. eapply runs_mono; [eapply send_spec; [exact HR1|exact Hp1]|].
    intros [] s2 [HR2 Hp2]. mstep. replace (pre ++ id :: ids) with ((pre ++ [id]) ++ ids) by (by rewrite <- app_assoc).
    replace (Z.of_nat (length pre) + 1) with (Z.of_nat (length (pre ++ [id]))) by (rewrite length_app; cbn; lia).
    replace (4 * Z.of_nat (length (id :: ids)) - 4) with (4 * Z.of_nat (length ids)) by (cbn [length]; lia).
    eapply runs_mono; [apply IH; [done|done|cbn in Hfuel; lia]|]. intros _ s3 (HR3 & msgs & Hp3 & Hall). split; [done|].
    eexists (_ :: msgs). split; [exact (host_post_trans _ _ _ _ _ _ _ Hp2 Hp3)|]. by constructor.
Qed.
