(* ===== verification/CfgProps.v ===== *)
(** * The configuration store: properties

    The store behaves as a set of independent parameters ([cfg_operations_refine_parameters]),
    the download fills it from the table, the message handlers act on the encoded lists of
    parameters, and the two look-ups in stored or received bytes find what they should. *)

From S2P Require Import Prelude CfgTable Cfg CfgInv CfgDownload CfgHost.

Local Open Scope c_scope.

#[local] Abbreviation ST := tAniSirCfg.

(** ** Reference definitions *)

(** The power of the first tuple (first channel, number of channels, power) that covers the
    channel, else of the last tuple *)
Fixpoint tuples_power (l : list Z) (channel none : Z) : Z :=
  match l with
  | first :: n :: pwr :: l =>
      if (first <=? channel) && (channel <? first + n) then s8 pwr else tuples_power l channel (s8 pwr)
  | _ => none
  end.

(** Information elements: where each begins, its identifier and its body.  A truncated one
    ends the list. *)
Fixpoint elements (fuel : nat) (off : Z) (l : list Z) : list (Z * Z * list Z) :=
  match fuel, l with
  | Datatypes.S fuel, id :: len :: rest =>
      if len <=? Z.of_nat (length rest)
      then (off, id, take (Z.to_nat len) rest) :: elements fuel (off + 2 + len) (drop (Z.to_nat len) rest)
      else []
  | _, _ => []
  end.
Definition vendor_element (oui : list Z) (x : Z * Z * list Z) : bool :=
  (x.1.2 =? SIR_MAC_EID_VENDOR) && bool_decide (take (length oui) x.2 = oui).
Definition vendor_ie (oui l : list Z) : option Z := x ← List.find (vendor_element oui) (elements (length l) 0 l); Some x.1.1.

(** ** Walking the tuples *)

Lemma tx_power_rounds (s : ST) v rest channel l : forall c cur fuel,
  Z.of_nat (length v) <= 128 -> (3 <= length v)%nat -> drop c v = l -> (c + length l = length v)%nat -> (length l < fuel)%nat ->
  runs (miter fuel (tx_power_round (v ++ rest) (Z.of_nat (length v)) channel) (Z.of_nat c, cur)) s
    (fun r s' => r = tuples_power l channel cur /\ s' = s).
Proof.
  induction l as [l IH] using (induction_ltof1 _ (@length Z)). unfold ltof in IH. intros c cur fuel Hv H3 Hd Hc Hfuel.
  destruct fuel as [|fuel]; [lia|]. cbn [miter]. apply runs_bnd. unfold tx_power_round at 1.
  rewrite (u32_small (Z.of_nat (length v) - CHAN_INFO_SIZE)) by (unfold CHAN_INFO_SIZE; lia). unfold CHAN_INFO_SIZE.
  destruct l as [|first [|n [|pwr l]]]; cbn [length] in Hc; (destruct (Z.leb_spec (Z.of_nat c) (Z.of_nat (length v) - 3)); try lia);
    try (apply runs_ret, runs_ret; done).
  assert (Hat : forall k x, (first :: n :: pwr :: l) !! k = Some x -> aget (v ++ rest) (Z.of_nat (c + k)) = Some x).
  { intros k x Hk. rewrite aget_nat, lookup_app_l.
    - by rewrite <- lookup_drop, Hd.
    - apply lookup_lt_Some in Hk. cbn [length] in *. lia. }
  assert (Hu1 : u8 (Z.of_nat c + 1) = Z.of_nat (c + 1)) by (rewrite u8_small; lia).
  assert (Hu2 : u8 (Z.of_nat c + 2) = Z.of_nat (c + 2)) by (rewrite u8_small; lia).
  assert (Hu3 : u8 (Z.of_nat c + 3) = Z.of_nat (c + 3)) by (rewrite u8_small; lia).
  mstep. eapply runs_oget; [rewrite <- (Nat.add_0_r c); by apply (Hat 0%nat)|].
  mstep. eapply runs_oget; [rewrite Hu1; by apply (Hat 1%nat)|].
  mstep. eapply runs_oget; [rewrite Hu2; by apply (Hat 2%nat)|]. cbn [tuples_power].
  destruct ((first <=? channel) && (channel <? first + n)); [by apply runs_ret, runs_ret|]. apply runs_ret.
  rewrite Hu3. apply IH; [cbn; lia|done|done| |lia|cbn [length] in Hfuel; lia].
  rewrite <- drop_drop, Hd. done.
Qed.

(** ** Walking the elements *)

Lemma memcmp_eq_spec {S} (s : S) buf a : forall at_ body,
  (forall k, 0 <= k < Z.of_nat (length a) -> aget buf (at_ + k) = aget body k) -> (length a <= length body)%nat ->
  runs (memcmp_eq a buf at_) s (fun r s' => r = bool_decide (take (length a) body = a) /\ s' = s).
Proof.
  induction a as [|x a IH]; intros at_ body Hb Hl; cbn [memcmp_eq].
  - apply runs_ret. by rewrite bool_decide_eq_true_2 by done.
  - destruct body as [|b body]; [cbn in Hl; lia|]. mstep.
    eapply runs_oget; [rewrite <- (Z.add_0_r at_); rewrite Hb by (cbn; lia); reflexivity|]. cbn [length take].
    destruct (Z.eqb_spec b x) as [->|Hne].
    + eapply runs_mono; [apply (IH (at_ + 1) body)|].
      * intros k Hk. replace (at_ + 1 + k) with (at_ + (k + 1)) by lia. rewrite Hb by (cbn [length]; lia).
        rewrite !aget_lookup by lia. replace (Z.to_nat (k + 1)) with (Datatypes.S (Z.to_nat k)) by lia. done.
      * cbn in Hl. lia.
      * intros r s' [-> ->]. split; [|done]. apply bool_decide_ext. split; [by intros ->|by intros [=]].
    + apply runs_ret. rewrite bool_decide_eq_false_2 by (by intros [=]). done.
Qed.

Lemma vendor_rounds {S} (s : S) oui ie l : forall ptr fuel efuel,
  (forall k, 0 <= k < Z.of_nat (length l) -> aget ie (ptr + k) = aget l k) -> Forall (fun b => 0 <= b) l ->
  (length l < fuel)%nat -> (length l <= efuel)%nat ->
  runs (miter fuel (vendor_round oui ie) (Z.of_nat (length l), ptr)) s
    (fun r s' => r = (x ← List.find (vendor_element oui) (elements efuel ptr l); Some x.1.1) /\ s' = s).
Proof.
  induction l as [l IH] using (induction_ltof1 _ (@length Z)). unfold ltof in IH. intros ptr fuel efuel Hie Hnn Hfuel Hef.
  destruct fuel as [|fuel]; [lia|]. cbn [miter]. apply runs_bnd. unfold vendor_round at 1.
  destruct l as [|id [|len body]].
  1-2: cbn [length]; destruct efuel; by apply runs_ret, runs_ret.
  cbn [length] in *. destruct efuel as [|efuel]; [lia|]. destruct (Z.leb_spec 2 (Z.of_nat (Datatypes.S (Datatypes.S (length body))))); [|lia].
  assert (Hlen : 0 <= len) by (do 2 apply Forall_cons in Hnn as [? Hnn]; lia).
  mstep. eapply runs_oget; [rewrite <- (Z.add_0_r ptr), Hie by lia; reflexivity|]. mstep. eapply runs_oget; [rewrite Hie by lia; reflexivity|].
  replace (Z.of_nat (Datatypes.S (Datatypes.S (length body))) - 2) with (Z.of_nat (length body)) by lia. cbn [elements].
  destruct (Z.ltb_spec (Z.of_nat (length body)) len), (Z.leb_spec len (Z.of_nat (length body))); try lia.
  { by apply runs_ret, runs_ret. }
  assert (Hbody : forall k, 0 <= k < Z.of_nat (length body) -> aget ie (ptr + 2 + k) = aget body k).
  { intros k Hk. replace (ptr + 2 + k) with (ptr + (k + 2)) by lia. rewrite Hie by lia. rewrite !aget_lookup by lia.
    by replace (Z.to_nat (k + 2)) with (Datatypes.S (Datatypes.S (Z.to_nat k))) by lia. }
  assert (Htl : length (take (Z.to_nat len) body) = Z.to_nat len) by (rewrite length_take; lia).
  cbn [List.find]. unfold vendor_element at 1. cbn [fst snd]. apply runs_bnd.
  eapply runs_mono with (Q := fun r s' => r = ((id =? SIR_MAC_EID_VENDOR) && bool_decide (take (length oui) (take (Z.to_nat len) body) = oui)) /\ s' = s).
  { rewrite Z.eqb_sym. destruct (id =? SIR_MAC_EID_VENDOR); cbn [andb]; [|by apply runs_ret].
    destruct (Z.leb_spec (Z.of_nat (length oui)) len).
    - apply memcmp_eq_spec; [|lia]. intros k Hk. rewrite Hbody by lia. rewrite !aget_lookup, lookup_take_lt by lia. done.
    - apply runs_ret. rewrite bool_decide_eq_false_2; [done|]. intros He. apply (f_equal length) in He. rewrite length_take in He. lia. }
  intros found s' [-> ->]. destruct ((id =? SIR_MAC_EID_VENDOR) && _); cbn iota; [by apply runs_ret, runs_ret|]. apply runs_ret.
  replace (Z.of_nat (length body) - len) with (Z.of_nat (length (drop (Z.to_nat len) body))) by (rewrite length_drop; lia).
  replace (ptr + (len + 2)) with (ptr + 2 + len) by lia. apply IH; rewrite ?length_drop; try lia.
  - intros k Hk. replace (ptr + 2 + len + k) with (ptr + 2 + (len + k)) by lia. rewrite Hbody by lia. rewrite !aget_lookup, lookup_drop by lia. f_equal. lia.
  - do 2 apply Forall_cons in Hnn as [_ Hnn]. by apply Forall_drop.
Qed.

(** ** Properties *)

(** C9.  On a store that holds the parameters [m], any sequence of calls of the interface that are
    [op_ok], that is for a parameter of the call's kind or, where the code checks it, for an
    identifier that is no parameter's, returns what a set of independent parameters returns, with the ranges and
    maximum lengths enforced, leaves a store that holds the updated parameters, tells the
    modules of the changes the flags ask for, and changes nothing else. *)
Theorem cfg_operations_refine_parameters loc m s ops :
  cfg_rel loc m s -> Forall (op_ok m) ops ->
  runs (run_ops ops) s (fun rs s' => exists m' po,
    spec_ops ops m = (rs, m', po) /\ cfg_rel loc m' s' /\ frame po s s').
Proof.
  intros HR Hok. eapply runs_mono; [exact (run_ops_spec loc ops m s HR Hok)|]. intros rs s'.
  destruct (spec_ops ops m) as [[rs' m'] po]. intros (-> & HR' & Hf). eauto.
Qed.

Definition demo_ops : list cfg_op :=
  [OSetInt 4 200; OGetInt 4; OSetInt 4 70000; OSetStr 3 [65; 66; 67] 3; OGetStr 3 2; OGetStr 3 3; OGetStrMaxLen 3; OGetInt 400].
Lemma cfg_operations_refine_parameters_witness : exists s : ST,
  cfg_rel loc defaults s /\
  (spec_ops demo_ops defaults).1.1 = [RStatus eSIR_SUCCESS; RInt (eSIR_SUCCESS, Some 200); RStatus eSIR_CFG_INVALID_ID;
    RStatus eSIR_SUCCESS; RStr (eSIR_CFG_INVALID_LEN, None); RStr (eSIR_SUCCESS, Some [65; 66; 67]); RInt (eSIR_SUCCESS, Some 32);
    RInt (eSIR_CFG_INVALID_ID, None)] /\
  runs (run_ops demo_ops) s (fun rs s' => exists m' po,
    spec_ops demo_ops defaults = (rs, m', po) /\ cfg_rel loc m' s' /\ frame po s s').
Proof.
  destruct (runs_elim _ _ _ (init_download_spec boot boot_bufs eq_refl)) as (u & s & _ & HR & _). exists s. split; [exact HR|].
  split; [vm_compute; reflexivity|]. apply (cfg_operations_refine_parameters loc defaults s demo_ops HR).
  repeat constructor; vm_compute; discriminate.
Defined.

(** C10.  From any memory, initialising and downloading gives a store in which every integer of
    the table has its default and every string the bytes and the maximum length of its entry
    in the table of strings, laid out without overlap; the status is set and the log level
    taken from the table. *)
Theorem processCfgDownloadReq_loads_the_table s :
  bufs_ok s -> length (p_str_data s) = Z.to_nat WNI_CFG_MAX ->
  runs (_ <- cfgInit ;; processCfgDownloadReq) s (fun _ s' =>
    gCfgStatus s' = CFG_SUCCESS /\ gLogLevel s' = Some 4 /\ cfg_rel loc defaults s' /\
    forall i e, aget cfg_static i = Some e ->
      if has_flag (control e) INT
      then runs (wlan_cfgGetInt i) s' (fun r s'' => r = (eSIR_SUCCESS, Some (cfg_ival e)) /\ s'' = s')
      else exists x, List.find (fun x => str_cfg_id x =? i) static_strings = Some x /\
        runs (wlan_cfgGetStr i CFG_MAX_STR_LEN) s' (fun r s'' =>
          r = (eSIR_SUCCESS, Some (take (Z.to_nat (str_length x)) (str_data x))) /\ s'' = s') /\
        runs (wlan_cfgGetStrMaxLen i) s' (fun r s'' => r = (eSIR_SUCCESS, Some (max_len x)) /\ s'' = s')).
Proof.
  intros Hb Hlen. eapply runs_mono; [exact (init_download_spec s Hb Hlen)|].
  intros _ s' (HR & Hst & Hlog & _). split; [exact Hst|]. split; [exact Hlog|]. split; [exact HR|]. intros i e He.
  pose proof (default_of_static i e He) as Hp. pose proof (static_string_found i e He) as Hfound. destruct (aget_defaults_facts _ _ Hp) as [Hid _ (_ & _ & HI) _ Hpl _].
  unfold default_param, default_value, static_ptr in Hp, Hpl, HI, Hfound. cbn [fst p_val p_flags] in Hp, Hpl, HI.
  unfold is_int in HI. cbn [p_val] in HI. rewrite Z2Nat.id in Hp, Hpl, HI, Hfound by lia.
  destruct (has_flag (control e) INT); cbv iota in Hp, Hpl, HI, Hfound.
  - eapply get_int_spec; [exact HR|lia|unfold kind_at; rewrite Hp; discriminate|]. unfold spec_get_int. by rewrite Hp.
  - destruct (List.find _ static_strings) as [x|]; [|by destruct (Hfound eq_refl)]. exists x. split; [done|]. split.
    + eapply get_str_spec; [exact HR|lia|unfold kind_at; rewrite Hp; discriminate|]. unfold spec_get_str. rewrite Hp.
      destruct (Z.leb_spec (Z.of_nat (length (take (Z.to_nat (str_length x)) (str_data x)))) CFG_MAX_STR_LEN); [done|].
      destruct Hpl as (_ & _ & Hmx & _). unfold CFG_MAX_STR_LEN in *. lia.
    + eapply get_str_max_len_spec; [exact HR|unfold kind_at; by rewrite Hp|]. unfold spec_get_str_max_len. by rewrite Hp.
Qed.

Lemma processCfgDownloadReq_loads_the_table_witness : bufs_ok boot /\
  runs (_ <- cfgInit ;; processCfgDownloadReq) boot (fun _ s' => runs (wlan_cfgGetInt 4) s' (fun r _ => r = (eSIR_SUCCESS, Some 100))).
Proof.
  split; [exact boot_bufs|].
  eapply runs_mono; [apply (processCfgDownloadReq_loads_the_table boot boot_bufs eq_refl)|]. intros _ s' (_ & _ & _ & Hall).
  specialize (Hall 4 _ eq_refl). eapply runs_mono; [exact Hall|]. intros r s'' [-> _]. reflexivity.
Defined.

(** C11.  A set request that encodes a list of values sets them one after the other: each is
    stored if its parameter is writable and accepts it, the modules are told, and the host
    gets one confirmation per value, in order, with the result, of the ones a buffer can be
    allocated for: the others are dropped (also a parameter that does not exist or is read-only is
    confirmed with an invalid length, whatever [CheckParam] found). *)
Theorem ProcSetReq_sets_in_order loc m s ts :
  cfg_rel loc m s -> gCfgStatus s <> CFG_INCOMPLETE -> Forall (tlv_ok m) ts -> 4 * Z.of_nat (length (encode ts)) < 65536 ->
  runs (ProcSetReq (4 * Z.of_nat (length (encode ts))) (encode ts)) s (fun _ s' =>
    let '(rs, m', po) := host_sets ts m in
    cfg_rel loc m' s' /\ posted s' = posted s ++ po /\
    host_msgs s' = host_msgs s ++ sent (allocs s) (zip_with WNI_CFG_SET_CNF rs (tlv_id <$> ts))).
Proof.
  intros HR Hst Hok Hlen. unfold ProcSetReq, ProcSetReqInternal. do 2 mstep.
  destruct (Z.eqb_spec (gCfgStatus s) CFG_INCOMPLETE); [done|]. pose proof (length_encode ts).
  eapply runs_mono; [apply (set_rounds_spec loc true ts m s [] _ HR Hok Hlen); lia|].
  intros [] s'. cbn beta. destruct (host_sets ts m) as [[rs m'] po]. intros (_ & HR' & _ & Hp & Hh & _). done.
Qed.

Definition demo_tlvs : list tlv := [TStr 3 [104; 105]; TInt 4 300; TInt 4 70000; TInt 2 5; TInt 400 0].
Lemma ProcSetReq_sets_in_order_witness : exists s : ST,
  cfg_rel loc defaults s /\
  (host_sets demo_tlvs defaults).1.1 =
    [WNI_CFG_NEED_RESTART; WNI_CFG_SUCCESS; WNI_CFG_OTHER_ERROR; WNI_CFG_INVALID_LEN; WNI_CFG_INVALID_LEN] /\
  runs (ProcSetReq (4 * Z.of_nat (length (encode demo_tlvs))) (encode demo_tlvs)) s (fun _ s' =>
    let '(rs, m', po) := host_sets demo_tlvs defaults in
    cfg_rel loc m' s' /\ posted s' = posted s ++ po /\
    host_msgs s' = host_msgs s ++ sent (allocs s) (zip_with WNI_CFG_SET_CNF rs (tlv_id <$> demo_tlvs))).
Proof.
  destruct (runs_elim _ _ _ (init_download_spec boot boot_bufs eq_refl)) as (u & s & _ & HR & Hst & _). exists s. split; [exact HR|].
  split; [vm_compute; reflexivity|]. apply (ProcSetReq_sets_in_order loc defaults s demo_tlvs HR).
  - rewrite Hst. discriminate.
  - repeat constructor; vm_compute; try discriminate; reflexivity.
  - vm_compute. reflexivity.
Defined.

(** A get request for a list of identifiers is answered one by one, and changes nothing: an
    integer with its value, a string with its bytes if they fit the size of a pointer and
    with an error otherwise (the handler takes the size of the pointer [gSBuffer] for that of
    the buffer), a parameter that does not exist or cannot be read with an invalid length. *)
Theorem ProcGetReq_answers loc m s ptr_size ids :
  cfg_rel loc m s -> gCfgStatus s <> CFG_INCOMPLETE -> Forall (fun id => 0 <= id < 65536) ids ->
  runs (ProcGetReq ptr_size (4 * Z.of_nat (length ids)) ids) s (fun _ s' =>
    cfg_rel loc m s' /\ posted s' = posted s /\
    exists msgs, host_msgs s' = host_msgs s ++ sent (allocs s) msgs /\ Forall2 (answers ptr_size m) ids msgs).
Proof.
  intros HR Hst Hids. unfold ProcGetReq. do 2 mstep.
  destruct (Z.eqb_spec (gCfgStatus s) CFG_INCOMPLETE); [done|].
  eapply runs_mono; [apply (get_rounds_spec loc m ptr_size ids s [] _ HR Hids); lia|].
  intros _ s' (HR' & msgs & (_ & Hp & Hh & _) & Hall). rewrite app_nil_r in Hp. eauto.
Qed.

Lemma ProcGetReq_answers_witness : exists s : ST,
  cfg_rel loc defaults s /\
  runs (ProcGetReq 8 12 [4; 3; 400]) s (fun _ s' => exists msg data,
    host_msgs s' = host_msgs s ++ sent (allocs s) [WNI_CFG_GET_RSP WNI_CFG_SUCCESS 4 4 [100; 0; 0; 0]; msg; WNI_CFG_GET_RSP WNI_CFG_INVALID_LEN 400 0 []] /\
    msg = WNI_CFG_GET_RSP WNI_CFG_OTHER_ERROR 3 8 data).
Proof.
  destruct (runs_elim _ _ _ (init_download_spec boot boot_bufs eq_refl)) as (u & s & _ & HR & Hst & _). exists s. split; [exact HR|].
  eapply runs_mono; [apply (ProcGetReq_answers loc defaults s 8 [4; 3; 400] HR)|].
  - rewrite Hst. discriminate.
  - repeat constructor; vm_compute; try discriminate; reflexivity.
  - intros _ s' (_ & _ & msgs & Hm & Ha). rewrite Hm.
    apply Forall2_cons_inv_l in Ha as (m1 & ms1 & H1 & Ha & ->). apply Forall2_cons_inv_l in Ha as (m2 & ms2 & H2 & Ha & ->).
    apply Forall2_cons_inv_l in Ha as (m3 & ms3 & H3 & Ha & ->). apply Forall2_nil_inv_l in Ha as ->.
    vm_compute in H1, H2, H3. destruct H2 as [data H2]. exists m2, data. split; [by rewrite H1, H3|exact H2].
Defined.

(** C12.  The search for a vendor element in received bytes stays inside the buffer, ends, and
    finds the first vendor element whose body begins with the OUI, the elements being the
    ones before the first truncated one. *)
Theorem cfg_get_vendor_ie_ptr_from_oui_finds {S} (s : S) oui ie rest :
  Forall (fun b => 0 <= b) ie ->
  runs (cfg_get_vendor_ie_ptr_from_oui oui (ie ++ rest) (Z.of_nat (length ie))) s
    (fun r s' => r = vendor_ie oui ie /\ s' = s).
Proof.
  intros Hnn. unfold cfg_get_vendor_ie_ptr_from_oui, vendor_ie. apply vendor_rounds; [|done|lia|lia].
  intros k Hk. cbn. rewrite !aget_lookup by lia. apply lookup_app_l. lia.
Qed.

Lemma cfg_get_vendor_ie_ptr_from_oui_finds_witness :
  vendor_ie [0; 80; 242] [0; 1; 65; 221; 2; 0; 80; 221; 4; 0; 80; 242; 1; 221; 9] = Some 7 /\
  runs (cfg_get_vendor_ie_ptr_from_oui [0; 80; 242] ([0; 1; 65; 221; 2; 0; 80; 221; 4; 0; 80; 242; 1; 221; 9] ++ [7]) 15) tt
    (fun r _ => r = Some 7).
Proof.
  split; [vm_compute; reflexivity|].
  eapply runs_mono; [apply (cfg_get_vendor_ie_ptr_from_oui_finds tt [0; 80; 242] [0; 1; 65; 221; 2; 0; 80; 221; 4; 0; 80; 242; 1; 221; 9] [7])|].
  - repeat constructor; lia.
  - intros r u [-> _]. vm_compute. reflexivity.
Defined.

(** The transmit power of a channel is that of the first tuple of the country information of
    its band that covers it; when there is one tuple at least and none covers the channel it
    is that of the last tuple, not the invalid power. *)
Theorem cfgGetRegulatoryMaxTransmitPower_lookup loc m s channel f mx v buf :
  cfg_rel loc m s ->
  aget m (if (34 <=? channel) && (channel <=? 165) then WNI_CFG_MAX_TX_POWER_5 else WNI_CFG_MAX_TX_POWER_2_4) =
    Some {| p_flags := f; p_val := PStr mx v |} ->
  (3 <= length v <= 128)%nat ->
  runs (cfgGetRegulatoryMaxTransmitPower channel (Some buf)) s
    (fun r s' => r = tuples_power v channel WDA_MAX_TXPOWER_INVALID /\ s' = s).
Proof.
  intros HR Hp Hv. unfold cfgGetRegulatoryMaxTransmitPower.
  assert (Hd : forall id, 0 <= id -> aget m id = Some {| p_flags := f; p_val := PStr mx v |} ->
    runs (cfgGetDot11dTransmitPower id 128 channel (Some buf)) s (fun r s' => r = tuples_power v channel WDA_MAX_TXPOWER_INVALID /\ s' = s)).
  { intros id H0 Hid. unfold cfgGetDot11dTransmitPower. cbn [Z.ltb Z.compare CHAN_INFO_SIZE Pos.compare Pos.compare_cont]. apply runs_bnd.
    eapply get_str_spec; [exact HR|done|unfold kind_at; rewrite Hid; discriminate|]. unfold spec_get_str. rewrite Hid.
    destruct (Z.leb_spec (Z.of_nat (length v)) 128); [|lia].
    apply (tx_power_rounds s v _ channel v 0); (lia || done). }
  destruct ((34 <=? channel) && (channel <=? 165)); by apply Hd.
Qed.

Lemma cfgGetRegulatoryMaxTransmitPower_lookup_witness : exists s : ST,
  cfg_rel loc defaults s /\
  runs (cfgGetRegulatoryMaxTransmitPower 6 (Some (replicate 128 0))) s (fun r _ => r = 20) /\
  runs (cfgGetRegulatoryMaxTransmitPower 15 (Some (replicate 128 0))) s (fun r _ => r = 20).
Proof.
  destruct (runs_elim _ _ _ (init_download_spec boot boot_bufs eq_refl)) as (u & s & _ & HR & _). exists s. split; [exact HR|].
  assert (Hp : exists f, aget defaults WNI_CFG_MAX_TX_POWER_2_4 = Some {| p_flags := f; p_val := PStr 128 [1; 14; 20] |}).
  { eexists. vm_compute. reflexivity. }
  destruct Hp as [f Hp]. split.
  - eapply runs_mono; [apply (cfgGetRegulatoryMaxTransmitPower_lookup loc defaults s 6 f 128 [1; 14; 20] _ HR Hp); cbn; lia|].
    intros r s' [-> _]. reflexivity.
  - eapply runs_mono; [apply (cfgGetRegulatoryMaxTransmitPower_lookup loc defaults s 15 f 128 [1; 14; 20] _ HR Hp); cbn; lia|].
    intros r s' [-> _]. reflexivity.
Defined.

(** ** Identifiers that are out of range *)

(** [wlan_cfgGetStrLen] reads beyond the control words then (as does [wlan_cfgGetStrMaxLen]). *)
Lemma get_str_len_out_of_range (s : ST) cfgId :
  gCfg_set s = true -> bufs_ok s -> WNI_CFG_MAX <= cfgId ->
  wlan_cfgGetStrLen cfgId s = None /\ wlan_cfgGetStrMaxLen cfgId s = None.
Proof.
  intros Hs Hb Hid. assert (Hn : aget (gCfgEntry s) cfgId = None).
  { unfold WNI_CFG_MAX in *. rewrite aget_lookup by lia. apply lookup_ge_None_2. rewrite (bo_entry _ Hb). unfold WNI_CFG_MAX. lia. }
  unfold wlan_cfgGetStrLen, wlan_cfgGetStrMaxLen, rd, mbnd, mget, massert, oget. rewrite Hs. cbn [negb]. by rewrite Hs, Hn.
Qed.

(** ** Before the download *)

(** A request then is answered with the identifier's bytes read in network order, and
    afterwards with the identifier. *)
Lemma not_ready_identifier (s : ST) : gCfgStatus s = CFG_INCOMPLETE -> allocs s = [] ->
  runs (ProcSetReq 12 [4; 4; 100]) s (fun _ s' => host_msgs s' = host_msgs s ++ [WNI_CFG_SET_CNF WNI_CFG_NOT_READY 0]).
Proof. intros Hs Ha. unfold ProcSetReq, ProcSetReqInternal, runs, mbnd, mget. rewrite Hs. destruct s; cbn in *; subst; reflexivity. Qed.
