(* ===== verification/LimAdmit.v ===== *)
(** * Admission control for traffic streams

    Models [CORE/MAC/src/pe/lim/limAdmitControl.c]: the table of admitted traffic
    specifications, the check of a specification and of the bandwidth it asks for, the
    messages that tell the firmware of an added or deleted stream, and the handling of its
    answer.  The stations are those of the hash table of [DphHash] of a session, the policy
    comes from the configuration store of [Cfg].  The theorems are in [LimAdmitProps].

    Entries and sessions are indices into their arrays.  Whether memory is available and a
    message can be posted are arguments; [bodies] counts the message bodies that are allocated
    and not yet handed on.  Messages and frames that leave are recorded in order in [sent]. *)

From S2P Require Import Prelude DphHash Cfg.

Local Open Scope c_scope.

(** ** Data *)

Definition LIM_NUM_TSPEC_MAX : Z := 15.
Definition WNI_CFG_ADMIT_POLICY : Z := 121.
Definition WNI_CFG_ADMIT_BWFACTOR : Z := 122.
Definition WNI_CFG_ADMIT_POLICY_ADMIT_ALL : Z := 0.
Definition WNI_CFG_ADMIT_POLICY_REJECT_ALL : Z := 1.
Definition WNI_CFG_ADMIT_POLICY_BW_FACTOR : Z := 2.
Definition WNI_CFG_PHY_MODE_11A : Z := 0.
Definition WNI_CFG_PHY_MODE_11B : Z := 1.
Definition SIR_MAC_ACCESSPOLICY_EDCA : Z := 1.
Definition LIM_TOTAL_BW_11A : Z := 54000000.
Definition LIM_MIN_BW_11A : Z := 6000000.
Definition LIM_TOTAL_BW_11B : Z := 11000000.
Definition LIM_MIN_BW_11B : Z := 1000000.

(** The bits of the traffic and schedule words *)
Record tSirMacTSInfo := {
  burstSizeDefn : Z; tfc_reserved : Z;
  trafficType : Z; tsid : Z; direction : Z; accessPolicy : Z; aggregation : Z; psb : Z; userPrio : Z; ackPolicy : Z;
  schedule : Z; rsvd : Z
}.
#[global] Instance tsinfo_eqdec : EqDecision tSirMacTSInfo.
Proof. solve_decision. Defined.

Record tSirMacTspecIE := {
  ie_type : Z; ie_length : Z;
  tsinfo : tSirMacTSInfo;
  nomMsduSz : Z; maxMsduSz : Z;             (* tANI_U16 *)
  minSvcInterval : Z; maxSvcInterval : Z;   (* tANI_U32, as the rest *)
  inactInterval : Z; suspendInterval : Z; svcStartTime : Z;
  minDataRate : Z; meanDataRate : Z; peakDataRate : Z;
  maxBurstSz : Z; delayBound : Z; minPhyRate : Z;
  surplusBw : Z; mediumTime : Z             (* tANI_U16 *)
}.
#[global] Instance tspec_eqdec : EqDecision tSirMacTspecIE.
Proof. solve_decision. Defined.

(** An entry of the table; the classifiers of a stream are not used by this component. *)
Record tLimTspecInfo := {
  inuse : bool;
  idx : Z;
  ts_staAddr : list Z;
  ts_assocId : Z;
  tspec : tSirMacTspecIE
}.

(** [info] of the schedule element is its direction and its tsid. *)
Record tSirMacScheduleIE := {
  sch_direction : Z; sch_tsid : Z; sch_aggregation : Z;
  sch_svcStartTime : Z; sch_svcInterval : Z; sch_maxSvcDuration : Z; sch_specInterval : Z
}.

(** What is used of a session: [sta_qos] has the members [wmeEnabled] and [lleEnabled] of the
    nodes of its hash table. *)
Record tPESession := {
  s_valid : bool;
  smeSessionId : Z;
  transactionId : Z;
  bssId : list Z;
  is11Rconnection : bool;
  gLimPhyMode : Z;
  dphHashTable : dphHashTableClass;
  sta_qos : list (bool * bool)
}.

Inductive tSirRetStatus := eSIR_SUCCESS | eSIR_FAILURE | eSIR_MEM_ALLOC_FAILED.
#[global] Instance ret_eqdec : EqDecision tSirRetStatus.
Proof. solve_decision. Defined.
Inductive sme_result := eSIR_SME_SUCCESS | eSIR_SME_ADDTS_RSP_FAILED.

(** The parameters of the request to add a stream, and of the answer *)
Record tAddTsParams := {
  a_staIdx : Z; a_tspecIdx : Z; a_tspec : tSirMacTspecIE; a_sessionId : Z; a_sme_session_id : Z;
  a_tsm_interval : Z; a_setRICparams : bool; a_status_ok : bool
}.
Inductive lim_msg :=
| WDA_ADD_TS_REQ (p : tAddTsParams)
| WDA_DEL_TS_REQ (staIdx tspecIdx : Z) (bss : list Z) (sessionId userPrio : Z) (setRICparams : bool)
| SME_ADDTS_RSP (res : sme_result) (sess : option Z) (ts : tSirMacTspecIE) (sessionId transId : Z)
| DELTS_FRAME (peer : list Z) (ts : tSirMacTspecIE) (sess : Z).

Record tAniSirGlobal := {
  tspecInfo : list tLimTspecInfo;
  adm_type : Z;                 (* tANI_U8 *)
  bw_factor : Z;                (* tANI_U8 *)
  maxStation : Z;
  gpSession : list tPESession;
  isRoamOffloadEnabled : bool;
  gLimAddtsReq : Z * Z;         (* sessionId, transactionId *)
  gLimProcessDefdMsgs : bool;
  cfg : tAniSirCfg;
  bodies : Z;
  sent : list lim_msg
}.

#[local] Abbreviation ST := tAniSirGlobal.

Definition set_tspecInfo (v : list tLimTspecInfo) (s : ST) : ST :=
  {| tspecInfo := v; adm_type := adm_type s; bw_factor := bw_factor s; maxStation := maxStation s; gpSession := gpSession s;
     isRoamOffloadEnabled := isRoamOffloadEnabled s; gLimAddtsReq := gLimAddtsReq s;
     gLimProcessDefdMsgs := gLimProcessDefdMsgs s; cfg := cfg s; bodies := bodies s; sent := sent s |}.
Definition set_policy (type factor : Z) (s : ST) : ST :=
  {| tspecInfo := tspecInfo s; adm_type := type; bw_factor := factor; maxStation := maxStation s; gpSession := gpSession s;
     isRoamOffloadEnabled := isRoamOffloadEnabled s; gLimAddtsReq := gLimAddtsReq s;
     gLimProcessDefdMsgs := gLimProcessDefdMsgs s; cfg := cfg s; bodies := bodies s; sent := sent s |}.
Definition set_gpSession (v : list tPESession) (s : ST) : ST :=
  {| tspecInfo := tspecInfo s; adm_type := adm_type s; bw_factor := bw_factor s; maxStation := maxStation s; gpSession := v;
     isRoamOffloadEnabled := isRoamOffloadEnabled s; gLimAddtsReq := gLimAddtsReq s;
     gLimProcessDefdMsgs := gLimProcessDefdMsgs s; cfg := cfg s; bodies := bodies s; sent := sent s |}.
Definition set_out (defd : bool) (c : tAniSirCfg) (n : Z) (out : list lim_msg) (s : ST) : ST :=
  {| tspecInfo := tspecInfo s; adm_type := adm_type s; bw_factor := bw_factor s; maxStation := maxStation s; gpSession := gpSession s;
     isRoamOffloadEnabled := isRoamOffloadEnabled s; gLimAddtsReq := gLimAddtsReq s;
     gLimProcessDefdMsgs := defd; cfg := c; bodies := n; sent := out |}.
Definition set_defd (v : bool) (s : ST) : ST := set_out v (cfg s) (bodies s) (sent s) s.
Definition set_cfg (v : tAniSirCfg) (s : ST) : ST := set_out (gLimProcessDefdMsgs s) v (bodies s) (sent s) s.
Definition set_bodies (v : Z) (s : ST) : ST := set_out (gLimProcessDefdMsgs s) (cfg s) v (sent s) s.
Definition set_sent (v : list lim_msg) (s : ST) : ST := set_out (gLimProcessDefdMsgs s) (cfg s) (bodies s) v s.
Definition set_table (t : dphHashTableClass) (p : tPESession) : tPESession :=
  {| s_valid := s_valid p; smeSessionId := smeSessionId p; transactionId := transactionId p; bssId := bssId p;
     is11Rconnection := is11Rconnection p; gLimPhyMode := gLimPhyMode p; dphHashTable := t; sta_qos := sta_qos p |}.

(** ** Access *)

Definition entry (i : Z) : M ST tLimTspecInfo := s <- mget ;; oget (aget (tspecInfo s) i).
Definition put_entry (i : Z) (e : tLimTspecInfo) : M ST unit :=
  s <- mget ;; l <- oget (aset (tspecInfo s) i e) ;; modify (set_tspecInfo l).
Definition session (sess : Z) : M ST tPESession := s <- mget ;; oget (aget (gpSession s) sess).
Definition send (m : lim_msg) : M ST unit := modify (fun s => set_sent (sent s ++ [m]) s).

(** A function of the hash table of a session, of the configuration store *)
Definition on_dph {A} (sess : Z) (m : M dphHashTableClass A) : M ST A :=
  p <- session sess ;;
  r <- oget (m (dphHashTable p)) ;;
  s <- mget ;; l <- oget (aset (gpSession s) sess (set_table (snd r) p)) ;; modify (set_gpSession l) ;;
  mreturn (fst r).
Definition on_cfg {A} (m : M tAniSirCfg A) : M ST A :=
  s <- mget ;; r <- oget (m (cfg s)) ;; modify (set_cfg (snd r)) ;; mreturn (fst r).

Definition limGetPhyMode (sess : Z) : M ST Z := p <- session sess ;; mreturn (gLimPhyMode p).
(** The array has [maxBssId] sessions. *)
Definition peFindSessionBySessionId (sessionId : Z) : M ST (option Z) :=
  s <- mget ;;
  if Z.of_nat (length (gpSession s)) <=? sessionId then mreturn None
  else p <- session sessionId ;; mreturn (if s_valid p then Some sessionId else None).

(** ** The specification of a stream *)

(** The status and the service interval; the division is undefined for rates below 1 Mbit/s. *)
Definition limCalculateSvcInt (ts : tSirMacTspecIE) : M ST (tSirRetStatus * Z) :=
  if negb (minSvcInterval ts =? 0) || negb (maxSvcInterval ts =? 0) then
    mreturn (eSIR_SUCCESS, if negb (maxSvcInterval ts =? 0) then maxSvcInterval ts else minSvcInterval ts)
  else
    let msduSz := if negb (nomMsduSz ts =? 0) then Some (Z.land (nomMsduSz ts) 0x7fff)
                  else if negb (maxMsduSz ts =? 0) then Some (maxMsduSz ts) else None in
    match msduSz with
    | None => mreturn (eSIR_FAILURE, 0)
    | Some msduSz =>
        let dataRate := if negb (meanDataRate ts =? 0) then Some (meanDataRate ts)
                        else if negb (peakDataRate ts =? 0) then Some (peakDataRate ts)
                        else if negb (minDataRate ts =? 0) then Some (minDataRate ts) else None in
        match dataRate with
        | None => mreturn (eSIR_FAILURE, 0)
        | Some dataRate =>
            massert (negb (dataRate / 1000000 =? 0)) ;;
            mreturn (eSIR_FAILURE, u32 (msduSz * 8) / (dataRate / 1000000))
        end
    end.

(** The largest and the smallest bandwidth of the mode *)
Definition limGetAvailableBw (phyMode bw_factor : Z) : Z * Z :=
  let '(mx, mn) := if phyMode =? WNI_CFG_PHY_MODE_11B then (LIM_TOTAL_BW_11B, LIM_MIN_BW_11B)
                   else if phyMode =? WNI_CFG_PHY_MODE_11A then (LIM_TOTAL_BW_11A, LIM_MIN_BW_11A)
                   else (LIM_TOTAL_BW_11A, LIM_MIN_BW_11B) in
  (u32 (mx * bw_factor), mn).

Definition limValidateTspecEdca (ts : tSirMacTspecIE) (sess : Z) : M ST tSirRetStatus :=
  phyMode <- limGetPhyMode sess ;;
  let '(maxPhyRate, minPhyRate_) := limGetAvailableBw phyMode 1 in
  mreturn (if (nomMsduSz ts =? 0) || (meanDataRate ts =? 0) || (surplusBw ts =? 0) || (minPhyRate ts =? 0)
              || (maxPhyRate <? minPhyRate ts) then eSIR_FAILURE else eSIR_SUCCESS).
Definition limValidateTspec (ts : tSirMacTspecIE) (sess : Z) : M ST tSirRetStatus :=
  if accessPolicy (tsinfo ts) =? SIR_MAC_ACCESSPOLICY_EDCA then limValidateTspecEdca ts sess
  else mreturn eSIR_FAILURE.

(** ** The policy *)

(** The loop of [limComputeMeanBwUsed] *)
Definition limComputeMeanBwUsed (sess : Z) : M ST Z :=
  miter 16 (fun '(ctspec, bw) =>
    if LIM_NUM_TSPEC_MAX <=? ctspec then mreturn (inr bw)
    else
      e <- entry ctspec ;;
      if inuse e then
        pSta <- on_dph sess (dphGetHashEntry (ts_assocId e)) ;;
        match pSta with
        | None => mreturn (inl (ctspec + 1, bw))
        | Some _ => mreturn (inl (ctspec + 1, u32 (bw + meanDataRate (tspec e))))
        end
      else mreturn (inl (ctspec + 1, bw))) (0, 0).

Definition limAdmitPolicyOversubscription (ts : tSirMacTspecIE) (factor sess : Z) : M ST tSirRetStatus :=
  phyMode <- limGetPhyMode sess ;;
  usedbw <- limComputeMeanBwUsed sess ;;
  let '(totalbw, minbw) := limGetAvailableBw phyMode factor in
  if totalbw <? usedbw then mreturn eSIR_FAILURE
  else mreturn (if u32 (totalbw - usedbw) <? meanDataRate ts then eSIR_FAILURE else eSIR_SUCCESS).

Definition limAdmitPolicy (ts : tSirMacTspecIE) (sess : Z) : M ST tSirRetStatus :=
  s <- mget ;;
  if adm_type s =? WNI_CFG_ADMIT_POLICY_ADMIT_ALL then mreturn eSIR_SUCCESS
  else if adm_type s =? WNI_CFG_ADMIT_POLICY_BW_FACTOR then limAdmitPolicyOversubscription ts (bw_factor s) sess
  else if adm_type s =? WNI_CFG_ADMIT_POLICY_REJECT_ALL then mreturn eSIR_FAILURE
  else mreturn eSIR_SUCCESS.

(** ** The table *)

Definition free_entry (e : tLimTspecInfo) : tLimTspecInfo :=
  {| inuse := false; idx := idx e; ts_staAddr := ts_staAddr e; ts_assocId := ts_assocId e; tspec := tspec e |}.
Definition limTspecDelete (pInfo : option Z) : M ST unit :=
  match pInfo with None => mreturn tt | Some i => e <- entry i ;; put_entry i (free_entry e) end.

(** The loop of the searches: the first entry that the test holds of *)
Definition search (test : tLimTspecInfo -> bool) : M ST (option Z) :=
  miter 16 (fun ctspec =>
    if LIM_NUM_TSPEC_MAX <=? ctspec then mreturn (inr None)
    else e <- entry ctspec ;; mreturn (if test e then inr (Some ctspec) else inl (ctspec + 1))) 0.

Definition limTspecFindByStaAddr (addr : list Z) (ts : tSirMacTspecIE) : M ST (option Z) :=
  search (fun e => inuse e && bool_decide (addr = ts_staAddr e) && bool_decide (ts = tspec e)).
Definition limTspecFindByAssocId (aid : Z) (ts : tSirMacTspecIE) : M ST (option Z) :=
  search (fun e => inuse e && (aid =? ts_assocId e) && bool_decide (ts = tspec e)).
Definition limFindTspec (aid : Z) (info : tSirMacTSInfo) : M ST (option Z) :=
  search (fun e => inuse e && (aid =? ts_assocId e) && (direction info =? direction (tsinfo (tspec e)))
    && (tsid info =? tsid (tsinfo (tspec e)))).

(** The entry, unless there is none to take.  [pTspecList] stays at the first entry when the
    stream is found. *)
Definition limTspecAdd (addr : list Z) (aid : Z) (ts : tSirMacTspecIE) : M ST (option Z) :=
  s <- mget ;;
  if maxStation s <=? aid then mreturn None
  else
    ppInfo <- limFindTspec aid (tsinfo ts) ;;
    pTspecList <- match ppInfo with
      | Some _ => mreturn (Some 0)
      | None =>
          ctspec <- search (fun e => negb (inuse e)) ;;
          match ctspec with
          | None => mreturn None
          | Some i =>
              e <- entry i ;;
              put_entry i {| inuse := inuse e; idx := i; ts_staAddr := ts_staAddr e; ts_assocId := ts_assocId e; tspec := tspec e |} ;;
              mreturn (Some i)
          end
      end ;;
    match pTspecList with
    | None => mreturn None
    | Some i =>
        e <- entry i ;;
        put_entry i {| inuse := true; idx := idx e; ts_staAddr := addr; ts_assocId := aid; tspec := ts |} ;;
        mreturn (Some i)
    end.

Definition limValidateAccessPolicy (policy aid sess : Z) : M ST tSirRetStatus :=
  pSta <- on_dph sess (dphGetHashEntry aid) ;;
  match pSta with
  | None => mreturn eSIR_FAILURE
  | Some n =>
      st <- on_dph sess (node n) ;;
      if negb (valid st) then mreturn eSIR_FAILURE
      else if policy =? SIR_MAC_ACCESSPOLICY_EDCA then
        p <- session sess ;;
        q <- oget (aget (sta_qos p) n) ;;
        mreturn (if (fst q : bool) || (snd q : bool) then eSIR_SUCCESS else eSIR_FAILURE)
      else mreturn eSIR_FAILURE
  end.

(** ** Admission *)

(** The schedule that is filled in when the caller asks for one *)
Definition make_schedule (ts : tSirMacTspecIE) (svcInterval : Z) : tSirMacScheduleIE :=
  {| sch_direction := direction (tsinfo ts); sch_tsid := tsid (tsinfo ts); sch_aggregation := 0;
     sch_svcStartTime := svcStartTime ts; sch_svcInterval := svcInterval;
     sch_maxSvcDuration := u16 svcInterval; sch_specInterval := 0x1000 |}.

(** The status, the schedule and the index of the entry, where they are stored *)
Definition limAdmitControlAddTS (addr : list Z) (ts : tSirMacTspecIE) (aid : Z) (alloc want_sch : bool) (sess : Z) :
    M ST (tSirRetStatus * option tSirMacScheduleIE * option Z) :=
  dup <- (if alloc then limTspecFindByAssocId aid ts else limTspecFindByStaAddr addr ts) ;;
  match dup with
  | Some _ => mreturn (eSIR_FAILURE, None, None)
  | None =>
      retval <- limValidateTspec ts sess ;;
      if bool_decide (retval <> eSIR_SUCCESS) then mreturn (eSIR_FAILURE, None, None) else
      r <- limCalculateSvcInt ts ;;
      let '(retval, svcInterval) := r in
      if bool_decide (retval <> eSIR_SUCCESS) then mreturn (eSIR_FAILURE, None, None) else
      retval <- limAdmitPolicy ts sess ;;
      if bool_decide (retval <> eSIR_SUCCESS) then mreturn (eSIR_FAILURE, None, None) else
      let sch := if want_sch then Some (make_schedule ts svcInterval) else None in
      if negb alloc then mreturn (eSIR_SUCCESS, sch, None) else
      retval <- limValidateAccessPolicy (accessPolicy (tsinfo ts)) aid sess ;;
      if bool_decide (retval <> eSIR_SUCCESS) then mreturn (eSIR_FAILURE, sch, None) else
      added_at <- limTspecAdd addr aid ts ;;
      match added_at with
      | None => mreturn (eSIR_FAILURE, sch, None)
      | Some i => e <- entry i ;; mreturn (eSIR_SUCCESS, sch, Some (idx e))
      end
  end.

(** With the index of the deleted entry; [*pTsStatus] becomes 0 in any case. *)
Definition limAdmitControlDeleteTS (aid : Z) (info : tSirMacTSInfo) : M ST (tSirRetStatus * option Z) :=
  pTspecInfo <- limFindTspec aid info ;;
  match pTspecInfo with
  | Some i => e <- entry i ;; limTspecDelete (Some i) ;; mreturn (eSIR_SUCCESS, Some (idx e))
  | None => mreturn (eSIR_FAILURE, None)
  end.

Definition limAdmitControlDeleteSta (aid : Z) : M ST tSirRetStatus :=
  mfor (seqZ 0 LIM_NUM_TSPEC_MAX) (fun ctspec =>
    e <- entry ctspec ;; if aid =? ts_assocId e then limTspecDelete (Some ctspec) else mreturn tt) ;;
  mreturn eSIR_SUCCESS.

Definition zero_tsinfo : tSirMacTSInfo :=
  {| burstSizeDefn := 0; tfc_reserved := 0; trafficType := 0; tsid := 0; direction := 0; accessPolicy := 0;
     aggregation := 0; psb := 0; userPrio := 0; ackPolicy := 0; schedule := 0; rsvd := 0 |}.
Definition zero_tspec : tSirMacTspecIE :=
  {| ie_type := 0; ie_length := 0; tsinfo := zero_tsinfo; nomMsduSz := 0; maxMsduSz := 0; minSvcInterval := 0;
     maxSvcInterval := 0; inactInterval := 0; suspendInterval := 0; svcStartTime := 0; minDataRate := 0;
     meanDataRate := 0; peakDataRate := 0; maxBurstSz := 0; delayBound := 0; minPhyRate := 0; surplusBw := 0; mediumTime := 0 |}.
Definition zero_entry : tLimTspecInfo :=
  {| inuse := false; idx := 0; ts_staAddr := replicate 6 0; ts_assocId := 0; tspec := zero_tspec |}.
Definition limAdmitControlInit : M ST tSirRetStatus :=
  modify (set_tspecInfo (replicate (Z.to_nat LIM_NUM_TSPEC_MAX) zero_entry)) ;; mreturn eSIR_SUCCESS.

Definition limUpdateAdmitPolicy : M ST tSirRetStatus :=
  r <- on_cfg (wlan_cfgGetInt WNI_CFG_ADMIT_POLICY) ;;
  if bool_decide (fst r <> Cfg.eSIR_SUCCESS) then mreturn eSIR_FAILURE else
  v <- oget (snd r) ;; modify (fun s => set_policy (u8 v) (bw_factor s) s) ;;
  r <- on_cfg (wlan_cfgGetInt WNI_CFG_ADMIT_BWFACTOR) ;;
  if bool_decide (fst r <> Cfg.eSIR_SUCCESS) then mreturn eSIR_FAILURE else
  v <- oget (snd r) ;; modify (fun s => set_policy (adm_type s) (u8 v) s) ;;
  mreturn eSIR_SUCCESS.

(** ** The firmware *)

Definition alloc_body : M ST unit := modify (fun s => set_bodies (bodies s + 1) s).
Definition free_body : M ST unit := modify (fun s => set_bodies (bodies s - 1) s).
(** [wdaPostCtrlMsg] that succeeds takes the body over. *)
Definition wdaPostCtrlMsg (ok : bool) (m : lim_msg) : M ST tSirRetStatus :=
  if ok then send m ;; free_body ;; mreturn eSIR_SUCCESS else mreturn eSIR_FAILURE.

Definition limSendHalMsgAddTs (have_mem posted_ok : bool) (staIdx tspecIdx : Z) (ts : tSirMacTspecIE) (sessionId tsm_interval : Z) : M ST tSirRetStatus :=
  psessionEntry <- peFindSessionBySessionId sessionId ;;
  match psessionEntry with
  | None => mreturn eSIR_FAILURE
  | Some sess =>
      if negb have_mem then mreturn eSIR_MEM_ALLOC_FAILED else
      alloc_body ;;
      p <- session sess ;; s <- mget ;;
      let body := {| a_staIdx := staIdx; a_tspecIdx := tspecIdx; a_tspec := ts; a_sessionId := sessionId;
                     a_sme_session_id := smeSessionId p; a_tsm_interval := tsm_interval;
                     a_setRICparams := isRoamOffloadEnabled s && is11Rconnection p; a_status_ok := true |} in
      modify (set_defd false) ;;
      r <- wdaPostCtrlMsg posted_ok (WDA_ADD_TS_REQ body) ;;
      if bool_decide (r <> eSIR_SUCCESS) then modify (set_defd true) ;; free_body ;; mreturn eSIR_FAILURE
      else mreturn eSIR_SUCCESS
  end.

(** [userPrio_] is the user priority of the specification, or of the traffic information when
    no specification is present. *)
Definition limSendHalMsgDelTs (have_mem posted_ok : bool) (staIdx tspecIdx userPrio_ sessionId : Z) (bss : list Z) : M ST tSirRetStatus :=
  if negb have_mem then mreturn eSIR_MEM_ALLOC_FAILED else
  alloc_body ;;
  psessionEntry <- peFindSessionBySessionId sessionId ;;
  match psessionEntry with
  | None => free_body ;; mreturn eSIR_FAILURE
  | Some sess =>
      p <- session sess ;; s <- mget ;;
      r <- wdaPostCtrlMsg posted_ok
        (WDA_DEL_TS_REQ staIdx tspecIdx bss (smeSessionId p) userPrio_ (isRoamOffloadEnabled s && is11Rconnection p)) ;;
      if bool_decide (r <> eSIR_SUCCESS) then free_body ;; mreturn eSIR_FAILURE else mreturn eSIR_SUCCESS
  end.

(** [limMsg] is the body of the message, null when there is none. *)
Definition limProcessHalAddTsRsp (limMsg : option tAddTsParams) : M ST unit :=
  modify (set_defd true) ;;
  match limMsg with
  | None => mreturn tt
  | Some rsp =>
      psessionEntry <- peFindSessionBySessionId (a_sessionId rsp) ;;
      match psessionEntry with
      | None =>
          s <- mget ;;
          send (SME_ADDTS_RSP eSIR_SME_ADDTS_RSP_FAILED None (a_tspec rsp) (fst (gLimAddtsReq s)) (snd (gLimAddtsReq s)))
      | Some sess =>
          p <- session sess ;;
          if a_status_ok rsp then
            send (SME_ADDTS_RSP eSIR_SME_SUCCESS (Some sess) (a_tspec rsp) (smeSessionId p) (transactionId p))
          else
            send (DELTS_FRAME (bssId p) (a_tspec rsp) sess) ;;
            r <- on_dph sess (dphLookupAssocId (a_staIdx rsp) 0) ;;
            let '(pSta, aid) := r in
            (if bool_decide (is_Some pSta) then _ <- limAdmitControlDeleteTS aid (tsinfo (a_tspec rsp)) ;; mreturn tt
             else mreturn tt) ;;
            send (SME_ADDTS_RSP eSIR_SME_ADDTS_RSP_FAILED (Some sess) (a_tspec rsp) (smeSessionId p) (transactionId p))
      end ;;
      free_body
  end.
