(* ===== verification/LimAdmitProps.v ===== *)
(** * Admission control: theorems

    What every function of [LimAdmit] does to the table of streams, and along sequences of
    operations: the bandwidth that is admitted stays within what the policy makes available,
    and the table is a finite map from streams (station, direction, identifier) to their
    specifications as long as no stream is added twice.  Two theorems show where the code fails:
    the division by zero for slow streams without a service interval, and the update of a stream,
    which overwrites another one. *)

From S2P Require Import Prelude DphHash Cfg CfgInv LimAdmit.

Local Open Scope c_scope.
#[local] Abbreviation ST := tAniSirGlobal.
Implicit Types (s : ST) (ts : tSirMacTspecIE) (e : tLimTspecInfo) (m : gmap (list Z) Z) (p : tPESession).

(** ** Searching the table *)

Fixpoint first_from (test : tLimTspecInfo -> bool) (l : list tLimTspecInfo) (i : Z) : option Z :=
  match l with [] => None | e :: l => if test e then Some i else first_from test l (i + 1) end.
Definition first_at (test : tLimTspecInfo -> bool) (l : list tLimTspecInfo) : option Z := first_from test l 0.

Lemma first_from_Some test l i k : first_from test l i = Some k ->
  exists e, aget l (k - i) = Some e /\ test e = true /\ i <= k /\ forall j e', 0 <= j < k - i -> aget l j = Some e' -> test e' = false.
Proof.
  revert i. induction l as [|e l IH]; intros i; cbn; [done|]. destruct (test e) eqn:He.
  - intros [= <-]. exists e. rewrite Z.sub_diag. split_and!; [done..|]. intros; lia.
  - intros (e1 & Ha & Ht & Hle & Hb)%IH. exists e1.
    assert (Hsh : forall j, 0 < j -> aget (e :: l) j = aget l (j - 1)).
    { intros j Hj. rewrite !aget_lookup by lia. replace (Z.to_nat j) with (Datatypes.S (Z.to_nat (j - 1))) by lia. done. }
    rewrite Hsh by lia. replace (k - i - 1) with (k - (i + 1)) by lia. split_and!; [done..|lia|].
    intros j e' Hj. destruct (decide (j = 0)) as [->|Hne]; [by intros [= <-]|].
    rewrite Hsh by lia. apply Hb. lia.
Qed.

Lemma first_from_None test l i : first_from test l i = None <-> Forall (fun e => test e = false) l.
Proof.
  revert i. induction l as [|e l IH]; intros i; cbn; [split; [by constructor|done]|]. rewrite Forall_cons.
  destruct (test e); [split; [done|by intros []]|]. rewrite IH. naive_solver.
Qed.

Lemma first_at_Some test l k : first_at test l = Some k -> exists e, aget l k = Some e /\ test e = true.
Proof. intros (e & Ha & Ht & _)%first_from_Some. rewrite Z.sub_0_r in Ha. eauto. Qed.

Definition tab_len s : Prop := length (tspecInfo s) = Z.to_nat LIM_NUM_TSPEC_MAX.

Lemma runs_entry s i e (Q : tLimTspecInfo -> ST -> Prop) : aget (tspecInfo s) i = Some e -> Q e s -> runs (entry i) s Q.
Proof. intros He HQ. unfold entry. mstep. mstep. by eapply runs_oget. Qed.

Lemma runs_put_entry s i e (Q : unit -> ST -> Prop) : 0 <= i < Z.of_nat (length (tspecInfo s)) ->
  Q tt (set_tspecInfo (upd (tspecInfo s) i e) s) -> runs (put_entry i e) s Q.
Proof. intros Hi HQ. unfold put_entry. mstep. mstep. mstep. eapply runs_oget; [by apply aset_upd|]. by mstep. Qed.

Lemma drop_entry s i : tab_len s -> 0 <= i < LIM_NUM_TSPEC_MAX ->
  exists e, aget (tspecInfo s) i = Some e /\ drop (Z.to_nat i) (tspecInfo s) = e :: drop (Z.to_nat (i + 1)) (tspecInfo s).
Proof.
  intros Hl Hi. destruct (aget_is_Some (tspecInfo s) i) as [e He]; [rewrite Hl; unfold LIM_NUM_TSPEC_MAX in *; lia|].
  exists e. split; [done|]. rewrite aget_lookup in He by lia. replace (Z.to_nat (i + 1)) with (Datatypes.S (Z.to_nat i)) by lia.
  by apply drop_S.
Qed.

Lemma drop_end s i : tab_len s -> LIM_NUM_TSPEC_MAX <= i -> drop (Z.to_nat i) (tspecInfo s) = [].
Proof. intros Hl Hi. apply drop_ge. rewrite Hl. lia. Qed.

Lemma search_spec test s (Q : option Z -> ST -> Prop) : tab_len s -> Q (first_at test (tspecInfo s)) s -> runs (search test) s Q.
Proof.
  intros Hl HQ. unfold search.
  apply (runs_miter (fun i s' => s' = s /\ 0 <= i <= LIM_NUM_TSPEC_MAX /\
      first_at test (tspecInfo s) = first_from test (drop (Z.to_nat i) (tspecInfo s)) i) (fun i _ => Z.to_nat (15 - i))).
  - intros i s' (-> & Hi & Heq). destruct (Z.leb_spec LIM_NUM_TSPEC_MAX i).
    + mstep. rewrite drop_end in Heq by done. by rewrite Heq in HQ.
    + destruct (drop_entry s i Hl) as (e & He & Hd); [lia|]. mstep. eapply runs_entry; [done|]. rewrite Hd in Heq. cbn in Heq.
      mstep. destruct (test e); [by rewrite Heq in HQ|]. unfold LIM_NUM_TSPEC_MAX in *. split_and!; [done|lia|lia|done|lia].
  - split_and!; done.
  - by vm_compute.
Qed.

(** ** Sessions and stations *)

(** The session with its stations: a finite map from addresses to association ids *)
Definition at_sess s (sess : Z) p m : Prop :=
  aget (gpSession s) sess = Some p /\ exists cs, dph_rep (dphHashTable p) cs m.

Lemma runs_on_session s sess p (Q : tPESession -> ST -> Prop) : aget (gpSession s) sess = Some p -> Q p s -> runs (session sess) s Q.
Proof. intros Hp HQ. unfold session. mstep. mstep. by eapply runs_oget. Qed.

Lemma upd_id {A} (l : list A) i x : aget l i = Some x -> upd l i x = l.
Proof. intros Hx. pose proof (aget_Some_range _ _ _ Hx) as Hr. unfold upd. apply list_insert_id. rewrite <- Hx. by rewrite aget_lookup by lia. Qed.

Lemma set_table_id p : set_table (dphHashTable p) p = p.
Proof. by destruct p. Qed.
Lemma set_gpSession_id s : set_gpSession (gpSession s) s = s.
Proof. by destruct s. Qed.

(** A look at the hash table that leaves it as it is *)
Lemma runs_look {A} (d : M dphHashTableClass A) s sess p (Q : A -> ST -> Prop) : aget (gpSession s) sess = Some p ->
  runs d (dphHashTable p) (fun a t => t = dphHashTable p /\ Q a s) -> runs (on_dph sess d) s Q.
Proof.
  intros Hp (a & t & Hd & -> & HQ)%runs_elim. unfold on_dph. mstep. eapply runs_on_session; [done|]. cbn beta.
  mstep. eapply runs_oget; [done|]. cbn beta iota. mstep. mstep. mstep. cbn [fst snd]. rewrite set_table_id.
  eapply runs_oget; [apply aset_upd; by eapply aget_Some_range|]. rewrite upd_id by done. mstep. mstep. rewrite set_gpSession_id. by mstep.
Qed.

Lemma aid_in_iff m aid : aid_in m aid = true <-> exists a, m !! a = Some aid.
Proof.
  unfold aid_in. rewrite existsb_exists. split.
  - intros ([a x] & Hin%list_elem_of_In%elem_of_map_to_list & Heq%Z.eqb_eq). cbn in Heq. subst. eauto.
  - intros [a Ha]. exists (a, aid). split; [by apply list_elem_of_In, elem_of_map_to_list|apply Z.eqb_refl].
Qed.

Lemma look_station s sess p m aid (Q : option Z -> ST -> Prop) : at_sess s sess p m -> 0 <= aid ->
  Q (if aid_in m aid then Some aid else None) s -> runs (on_dph sess (dphGetHashEntry aid)) s Q.
Proof.
  intros [Hp [cs Hr]] Ha HQ. eapply runs_look; [done|]. eapply runs_mono; [by apply (dphGetHashEntry_spec _ cs m)|].
  intros r t [-> Hcase]. split; [done|]. destruct (aid_in m aid) eqn:Hin.
  - apply aid_in_iff in Hin as [a Hin]. destruct Hcase as [[-> _]|[_ Hno]]; [done|]. by destruct (Hno a).
  - destruct Hcase as [[_ Hex]|[-> _]]; [|done]. apply aid_in_iff in Hex. congruence.
Qed.

(** ** The bandwidth in use *)

Definition share m e : Z := if inuse e && aid_in m (ts_assocId e) then meanDataRate (tspec e) else 0.
Definition bw_used m (l : list tLimTspecInfo) : Z := foldr (fun e a => share m e + a) 0 l.

Definition tspec_ok ts : Prop := 0 <= meanDataRate ts < 2 ^ 32.
Definition ts_entry_ok e : Prop := 0 <= ts_assocId e /\ tspec_ok (tspec e).
Definition tab_ok s : Prop := tab_len s /\ Forall ts_entry_ok (tspecInfo s).

Lemma tab_entry s i e : tab_ok s -> aget (tspecInfo s) i = Some e -> ts_entry_ok e.
Proof. intros [_ Hf] He. rewrite Forall_lookup in Hf. rewrite aget_lookup in He by (apply aget_Some_range in He; lia). by eapply Hf. Qed.

Lemma u32_add_l a b : u32 (u32 a + b) = u32 (a + b).
Proof. unfold u32. by rewrite Zplus_mod_idemp_l. Qed.

Lemma limComputeMeanBwUsed_spec s sess p m (Q : Z -> ST -> Prop) : tab_ok s -> at_sess s sess p m ->
  Q (u32 (bw_used m (tspecInfo s))) s -> runs (limComputeMeanBwUsed sess) s Q.
Proof.
  intros Hok Hs HQ. pose proof (proj1 Hok) as Hl. unfold limComputeMeanBwUsed.
  apply (runs_miter (fun '(i, bw) s' => s' = s /\ 0 <= i <= LIM_NUM_TSPEC_MAX /\ bw = u32 bw /\
      u32 (bw_used m (tspecInfo s)) = u32 (bw + bw_used m (drop (Z.to_nat i) (tspecInfo s)))) (fun '(i, _) _ => Z.to_nat (15 - i))).
  - intros [i bw] s' (-> & Hi & Hbw & Heq). destruct (Z.leb_spec LIM_NUM_TSPEC_MAX i).
    { mstep. rewrite drop_end in Heq by done. cbn in Heq. rewrite Z.add_0_r in Heq. by rewrite Hbw, <- Heq. }
    destruct (drop_entry s i Hl) as (e & He & Hd); [lia|]. pose proof (tab_entry _ _ _ Hok He) as [Ha Hts]. rewrite Hd in Heq. cbn in Heq.
    unfold share in Heq. mstep. eapply runs_entry; [done|]. destruct (inuse e); cbn [andb] in Heq.
    + mstep. eapply look_station; [done..|]. destruct (aid_in m (ts_assocId e)); mstep; unfold LIM_NUM_TSPEC_MAX in *.
      * split_and!; [done|lia|lia| | |lia].
        -- by rewrite (u32_small (u32 _)) by apply u32_range.
        -- by rewrite u32_add_l, <- Z.add_assoc.
      * split_and!; [done|lia|lia|done|by rewrite Heq|lia].
    + mstep. unfold LIM_NUM_TSPEC_MAX in *. split_and!; [done|lia|lia|done|by rewrite Heq|lia].
  - split_and!; [done|by vm_compute..|done].
  - by vm_compute.
Qed.

(** ** The policy *)

Definition avail s p : Z := fst (limGetAvailableBw (gLimPhyMode p) (bw_factor s)).
Definition policy_admits s p m ts : bool :=
  if adm_type s =? WNI_CFG_ADMIT_POLICY_ADMIT_ALL then true
  else if adm_type s =? WNI_CFG_ADMIT_POLICY_BW_FACTOR then
    let used := u32 (bw_used m (tspecInfo s)) in (used <=? avail s p) && (used + meanDataRate ts <=? avail s p)
  else negb (adm_type s =? WNI_CFG_ADMIT_POLICY_REJECT_ALL).

Lemma avail_range s p : 0 <= avail s p < 2 ^ 32.
Proof. unfold avail, limGetAvailableBw. repeat case_match; apply u32_range. Qed.

Lemma limAdmitPolicy_spec s sess p m ts (Q : tSirRetStatus -> ST -> Prop) : tab_ok s -> at_sess s sess p m ->
  Q (if policy_admits s p m ts then eSIR_SUCCESS else eSIR_FAILURE) s -> runs (limAdmitPolicy ts sess) s Q.
Proof.
  intros Hok Hs HQ. unfold limAdmitPolicy, policy_admits in *. mstep. mstep.
  destruct (adm_type s =? WNI_CFG_ADMIT_POLICY_ADMIT_ALL); [by mstep|].
  destruct (adm_type s =? WNI_CFG_ADMIT_POLICY_BW_FACTOR).
  - unfold limAdmitPolicyOversubscription, limGetPhyMode. mstep. mstep. eapply runs_on_session; [apply Hs|]. cbn beta. mstep. mstep.
    eapply limComputeMeanBwUsed_spec; [done..|]. pose proof (avail_range s p) as Hav. unfold avail in *.
    destruct (limGetAvailableBw (gLimPhyMode p) (bw_factor s)) as [total mn]. cbn [fst] in *.
    pose proof (u32_range (bw_used m (tspecInfo s))). destruct (Z.ltb_spec total (u32 (bw_used m (tspecInfo s)))).
    { mstep. replace (u32 (bw_used m (tspecInfo s)) <=? total) with false in HQ by lia. done. }
    replace (u32 (bw_used m (tspecInfo s)) <=? total) with true in HQ by lia. cbn [andb] in HQ. mstep. rewrite u32_small by lia.
    destruct (Z.ltb_spec (total - u32 (bw_used m (tspecInfo s))) (meanDataRate ts)).
    + by replace (u32 (bw_used m (tspecInfo s)) + meanDataRate ts <=? total) with false in HQ by lia.
    + by replace (u32 (bw_used m (tspecInfo s)) + meanDataRate ts <=? total) with true in HQ by lia.
  - destruct (adm_type s =? WNI_CFG_ADMIT_POLICY_REJECT_ALL); by mstep.
Qed.

(** ** Adding and deleting entries *)

Definition is_stream (aid : Z) (info : tSirMacTSInfo) e : bool :=
  inuse e && (aid =? ts_assocId e) && (direction info =? direction (tsinfo (tspec e))) && (tsid info =? tsid (tsinfo (tspec e))).
Definition find_stream s (aid : Z) (info : tSirMacTSInfo) : option Z := first_at (is_stream aid info) (tspecInfo s).
Definition find_free s : option Z := first_at (fun e => negb (inuse e)) (tspecInfo s).

(** Where a stream is put: at the first entry when it is there already, else where there is room *)
Definition ts_slot s (aid : Z) ts : option Z :=
  match find_stream s aid (tsinfo ts) with Some _ => Some 0 | None => find_free s end.
Definition stream_entry (i : Z) (addr : list Z) (aid : Z) ts : tLimTspecInfo :=
  {| inuse := true; idx := i; ts_staAddr := addr; ts_assocId := aid; tspec := ts |}.
Definition put s (k : Z) e : ST := set_tspecInfo (upd (tspecInfo s) k e) s.
Definition slot_idx s (aid : Z) ts (k : Z) : Z :=
  match find_stream s aid (tsinfo ts) with Some _ => default 0 (idx <$> aget (tspecInfo s) k) | None => k end.

Lemma limFindTspec_spec s aid info (Q : option Z -> ST -> Prop) : tab_len s -> Q (find_stream s aid info) s -> runs (limFindTspec aid info) s Q.
Proof. intros Hl HQ. unfold limFindTspec. by apply search_spec. Qed.

Lemma upd_twice {A} (l : list A) i x y : upd (upd l i x) i y = upd l i y.
Proof. unfold upd. apply list_insert_insert_eq. Qed.

Lemma aget_upd_same {A} (l : list A) i x : 0 <= i < Z.of_nat (length l) -> aget (upd l i x) i = Some x.
Proof. intros Hi. rewrite aget_upd by done. by rewrite decide_True. Qed.

Lemma limTspecAdd_spec s addr aid ts (Q : option Z -> ST -> Prop) : tab_len s ->
  (if maxStation s <=? aid then Q None s
   else match ts_slot s aid ts with
        | None => Q None s
        | Some k => 0 <= k < LIM_NUM_TSPEC_MAX -> Q (Some k) (put s k (stream_entry (slot_idx s aid ts k) addr aid ts))
        end) -> runs (limTspecAdd addr aid ts) s Q.
Proof.
  intros Hl HQ. unfold limTspecAdd. mstep. mstep. destruct (maxStation s <=? aid); [by mstep|].
  mstep. apply limFindTspec_spec; [done|]. unfold ts_slot, slot_idx in HQ. destruct (find_stream s aid (tsinfo ts)) as [j|].
  - mstep. mstep. mstep. destruct (drop_entry s 0 Hl) as (e & He & _); [by vm_compute|]. eapply runs_entry; [done|].
    mstep. apply runs_put_entry; [by rewrite Hl|]. mstep. rewrite He in HQ. by apply HQ.
  - mstep. mstep. apply search_spec; [done|]. fold (find_free s). destruct (find_free s) as [k|] eqn:Hk; [|by mstep; mstep].
    unfold find_free in Hk. apply first_at_Some in Hk as (e & He & _). pose proof (aget_Some_range _ _ _ He) as Hr.
    mstep. eapply runs_entry; [done|]. cbn beta. mstep. apply runs_put_entry; [done|]. mstep.
    mstep. eapply runs_entry; [by apply aget_upd_same|]. mstep. apply runs_put_entry; [cbn; by rewrite length_upd|]. mstep.
    cbn [tspecInfo set_tspecInfo idx]. rewrite upd_twice. apply HQ. rewrite Hl in Hr. done.
Qed.

Lemma limTspecDelete_spec s i e (Q : unit -> ST -> Prop) : aget (tspecInfo s) i = Some e -> Q tt (put s i (free_entry e)) ->
  runs (limTspecDelete (Some i)) s Q.
Proof.
  intros He HQ. unfold limTspecDelete. mstep. eapply runs_entry; [done|]. apply runs_put_entry; [by eapply aget_Some_range|done].
Qed.

Lemma limAdmitControlDeleteTS_spec s aid info (Q : tSirRetStatus * option Z -> ST -> Prop) : tab_len s ->
  match find_stream s aid info with
  | None => Q (eSIR_FAILURE, None) s
  | Some i => forall e, aget (tspecInfo s) i = Some e -> is_stream aid info e = true -> Q (eSIR_SUCCESS, Some (idx e)) (put s i (free_entry e))
  end -> runs (limAdmitControlDeleteTS aid info) s Q.
Proof.
  intros Hl HQ. unfold limAdmitControlDeleteTS. mstep. apply limFindTspec_spec; [done|].
  destruct (find_stream s aid info) as [i|] eqn:Hf; [|by mstep]. apply first_at_Some in Hf as (e & He & Ht).
  mstep. eapply runs_entry; [done|]. mstep. eapply limTspecDelete_spec; [done|]. mstep. by apply HQ.
Qed.

(** All streams of a station *)
Definition release (aid : Z) e : tLimTspecInfo := if aid =? ts_assocId e then free_entry e else e.
Lemma limAdmitControlDeleteSta_spec s aid (Q : tSirRetStatus -> ST -> Prop) : tab_len s ->
  Q eSIR_SUCCESS (set_tspecInfo (release aid <$> tspecInfo s) s) -> runs (limAdmitControlDeleteSta aid) s Q.
Proof.
  intros Hl HQ. unfold limAdmitControlDeleteSta. mstep.
  eapply runs_mono; [apply (runs_mfor (fun dn s' => exists l, s' = set_tspecInfo l s /\ length l = length (tspecInfo s) /\
     forall i, aget l i = (if bool_decide (i ∈ dn) then release aid <$> aget (tspecInfo s) i else aget (tspecInfo s) i)))|].
  - intros dn i todo s1 Hsplit (l & -> & Hlen & Hget).
    assert (Hi : i ∈ seqZ 0 LIM_NUM_TSPEC_MAX) by (rewrite Hsplit; set_solver). apply elem_of_seqZ in Hi.
    assert (Hni : i ∉ dn).
    { pose proof (NoDup_seqZ 0 LIM_NUM_TSPEC_MAX) as Hnd. rewrite Hsplit in Hnd. apply NoDup_app in Hnd as (_ & Hnd & _). intros Hin. by eapply Hnd; [done|left]. }
    destruct (drop_entry s i Hl) as (e & He & _); [lia|]. pose proof (Hget i) as Hgi. rewrite bool_decide_eq_false_2 in Hgi by done.
    rewrite He in Hgi. mstep. eapply runs_entry; [exact Hgi|]. cbn beta.
    assert (Hstep : forall l', length l' = length l -> (forall j, aget l' j = if decide (j = i) then Some (release aid e) else aget l j) ->
      exists l0, set_tspecInfo l' s = set_tspecInfo l0 s /\ length l0 = length (tspecInfo s) /\
        forall j, aget l0 j = (if bool_decide (j ∈ dn ++ [i]) then release aid <$> aget (tspecInfo s) j else aget (tspecInfo s) j)).
    { intros l' Hl' Hg'. exists l'. split_and!; [done|by rewrite Hl'|]. intros j. rewrite Hg', Hget.
      destruct (decide (j = i)) as [->|Hne]; [rewrite bool_decide_eq_true_2 by set_solver; by rewrite He|].
      destruct (decide (j ∈ dn)); [by rewrite !bool_decide_eq_true_2 by set_solver|by rewrite !bool_decide_eq_false_2 by set_solver]. }
    unfold release in Hstep. destruct (aid =? ts_assocId e).
    + eapply limTspecDelete_spec; [exact Hgi|]. apply (Hstep (upd l i (free_entry e))); [apply length_upd|].
      intros j. apply aget_upd. by eapply aget_Some_range.
    + mstep. apply (Hstep l); [done|]. intros j. by destruct (decide (j = i)) as [->|].
  - exists (tspecInfo s). split_and!; [by destruct s|done|]. intros i. by rewrite bool_decide_eq_false_2 by set_solver.
  - intros [] s1 (l & -> & Hlen & Hget). mstep.
    enough (l = release aid <$> tspecInfo s) as -> by done. apply list_eq_aget; [by rewrite length_fmap|]. intros k Hk. rewrite Hget, Hlen, Hl in *.
    rewrite bool_decide_eq_true_2 by (apply elem_of_seqZ; lia). rewrite !aget_lookup by lia. by rewrite list_lookup_fmap.
Qed.

(** ** Admission of a stream *)

Definition duplicate s (alloc : bool) (addr : list Z) (aid : Z) ts : bool :=
  bool_decide (is_Some (first_at (fun e => inuse e && (if alloc then aid =? ts_assocId e else bool_decide (addr = ts_staAddr e))
    && bool_decide (ts = tspec e)) (tspecInfo s))).
Definition well_formed p ts : bool :=
  (accessPolicy (tsinfo ts) =? SIR_MAC_ACCESSPOLICY_EDCA) && negb (nomMsduSz ts =? 0) && negb (meanDataRate ts =? 0)
  && negb (surplusBw ts =? 0) && negb (minPhyRate ts =? 0) && (minPhyRate ts <=? fst (limGetAvailableBw (gLimPhyMode p) 1)).
Definition has_interval ts : bool := negb (minSvcInterval ts =? 0) || negb (maxSvcInterval ts =? 0).
Definition interval ts : Z := if negb (maxSvcInterval ts =? 0) then maxSvcInterval ts else minSvcInterval ts.
Definition station_ok p m (aid : Z) : bool :=
  aid_in m aid && default false (valid <$> aget (pDphNodeArray (dphHashTable p)) aid)
  && default false ((fun q => fst q || snd q) <$> aget (sta_qos p) aid).
Definition qos_ok p : Prop := Z.of_nat (length (sta_qos p)) = size (dphHashTable p).

Lemma limValidateTspec_spec s sess p ts (Q : tSirRetStatus -> ST -> Prop) : aget (gpSession s) sess = Some p ->
  Q (if well_formed p ts then eSIR_SUCCESS else eSIR_FAILURE) s -> runs (limValidateTspec ts sess) s Q.
Proof.
  intros Hp HQ. unfold limValidateTspec, well_formed in *. destruct (accessPolicy (tsinfo ts) =? SIR_MAC_ACCESSPOLICY_EDCA); [|by mstep].
  unfold limValidateTspecEdca, limGetPhyMode. mstep. mstep. eapply runs_on_session; [done|]. cbn beta. mstep.
  destruct (limGetAvailableBw (gLimPhyMode p) 1) as [mx mn]. mstep. cbn [fst] in HQ.
  rewrite Z.ltb_antisym. by destruct (nomMsduSz ts =? 0), (meanDataRate ts =? 0), (surplusBw ts =? 0), (minPhyRate ts =? 0), (minPhyRate ts <=? mx).
Qed.

Lemma limValidateAccessPolicy_spec s sess p m aid (Q : tSirRetStatus -> ST -> Prop) : at_sess s sess p m -> qos_ok p -> 0 <= aid ->
  Q (if station_ok p m aid then eSIR_SUCCESS else eSIR_FAILURE) s -> runs (limValidateAccessPolicy SIR_MAC_ACCESSPOLICY_EDCA aid sess) s Q.
Proof.
  intros Hs Hq Ha HQ. unfold limValidateAccessPolicy, station_ok in *. mstep. eapply look_station; [done..|].
  destruct (aid_in m aid) eqn:Hin; cbn [andb] in HQ; [|by mstep]. destruct Hs as [Hp [cs Hr]].
  apply aid_in_iff in Hin as [a Hin]. apply (dr_map _ _ _ Hr) in Hin as (n & Hn & _). pose proof (aget_Some_range _ _ _ Hn) as Hrng.
  rewrite (dr_nodes _ _ _ Hr) in Hrng. mstep. eapply runs_look; [done|]. unfold node. mstep. mstep. eapply runs_oget; [done|].
  split; [done|]. rewrite Hn in HQ. cbn [fmap option_fmap option_map default] in HQ. destruct (valid n); cbn [negb andb] in *; [|by mstep].
  rewrite Z.eqb_refl. mstep. eapply runs_on_session; [done|]. cbn beta.
  destruct (aget_is_Some (sta_qos p) aid) as [q Hqq]; [rewrite Hq; lia|]. rewrite Hqq in HQ. mstep. eapply runs_oget; [done|].
  cbn beta. mstep. cbn in HQ. by destruct (fst q || snd q).
Qed.

Definition no_entry (r : tSirRetStatus) (sch : option tSirMacScheduleIE) : tSirRetStatus * option tSirMacScheduleIE * option Z := (r, sch, None).

Lemma failed : bool_decide (eSIR_FAILURE <> eSIR_SUCCESS) = true.
Proof. done. Qed.
Lemma succeeded : bool_decide (eSIR_SUCCESS <> eSIR_SUCCESS) = false.
Proof. done. Qed.

Lemma limAdmitControlAddTS_spec s sess p m addr ts aid (alloc want_sch : bool) (Q : _ -> ST -> Prop) :
  tab_ok s -> at_sess s sess p m -> qos_ok p -> 0 <= aid ->
  (if duplicate s alloc addr aid ts || negb (well_formed p ts) then Q (no_entry eSIR_FAILURE None) s
   else if negb (has_interval ts) then 1000000 <= meanDataRate ts /\ Q (no_entry eSIR_FAILURE None) s
   else if negb (policy_admits s p m ts) then Q (no_entry eSIR_FAILURE None) s
   else let sch := if want_sch then Some (make_schedule ts (interval ts)) else None in
     if negb alloc then Q (no_entry eSIR_SUCCESS sch) s
     else if negb (station_ok p m aid) || (maxStation s <=? aid) then Q (no_entry eSIR_FAILURE sch) s
     else match ts_slot s aid ts with
          | None => Q (no_entry eSIR_FAILURE sch) s
          | Some k => 0 <= k < LIM_NUM_TSPEC_MAX ->
              Q (eSIR_SUCCESS, sch, Some (slot_idx s aid ts k)) (put s k (stream_entry (slot_idx s aid ts k) addr aid ts))
          end) ->
  runs (limAdmitControlAddTS addr ts aid alloc want_sch sess) s Q.
Proof.
  intros Hok Hs Hq Ha HQ. pose proof (proj1 Hok) as Hl. unfold limAdmitControlAddTS. mstep.
  assert (Hd : runs (if alloc then limTspecFindByAssocId aid ts else limTspecFindByStaAddr addr ts) s (fun (r : option Z) s' =>
    s' = s /\ bool_decide (is_Some r) = duplicate s alloc addr aid ts)).
  { unfold duplicate. destruct alloc; apply search_spec; done. }
  eapply runs_mono; [exact Hd|]. intros dup s1 [-> Hdup]. rewrite <- Hdup in HQ. destruct dup as [j|]; cbn beta iota.
  { rewrite bool_decide_eq_true_2 in HQ by done. by mstep. }
  rewrite bool_decide_eq_false_2 in HQ by (by intros []). cbn [orb] in HQ.
  mstep. eapply limValidateTspec_spec; [apply Hs|]. destruct (well_formed p ts) eqn:Hwf; [|rewrite failed; by mstep]. cbn [orb negb] in HQ.
  rewrite succeeded. mstep. unfold limCalculateSvcInt. fold (has_interval ts). fold (interval ts).
  destruct (has_interval ts); cbn [negb] in HQ.
  2: { unfold well_formed in Hwf. rewrite !andb_true_iff, !negb_true_iff in Hwf. destruct Hwf as (((((_ & Hn) & Hm) & _) & _) & _).
       rewrite Hn, Hm. cbn [negb]. destruct HQ as [Hrate HQ]. mstep. eapply runs_massert.
       { pose proof (Z.div_le_mono 1000000 (meanDataRate ts) 1000000 ltac:(lia) Hrate). rewrite Z.div_same in * by lia.
         replace (meanDataRate ts / 1000000 =? 0) with false by lia. done. }
       mstep. rewrite failed. by mstep. }
  mstep. rewrite succeeded. mstep. eapply limAdmitPolicy_spec; [done..|].
  destruct (policy_admits s p m ts); cbn [negb] in HQ; [|rewrite failed; by mstep]. rewrite succeeded. cbv zeta in HQ |- *.
  destruct alloc; cbn [negb] in *; [|by mstep]. mstep.
  replace (accessPolicy (tsinfo ts)) with SIR_MAC_ACCESSPOLICY_EDCA by (unfold well_formed in Hwf; rewrite !andb_true_iff in Hwf; lia).
  eapply limValidateAccessPolicy_spec; [done..|]. destruct (station_ok p m aid); cbn [negb orb] in HQ; [|rewrite failed; by mstep].
  rewrite succeeded. mstep. apply limTspecAdd_spec; [done|]. destruct (maxStation s <=? aid); [by mstep|].
  destruct (ts_slot s aid ts) as [k|]; [|by mstep]. intros Hk. mstep. eapply runs_entry; [apply aget_upd_same; by rewrite Hl|].
  mstep. by apply HQ.
Qed.

(** ** The bandwidth stays within bounds *)

Definition rate e : Z := if inuse e then meanDataRate (tspec e) else 0.
Definition total_rate (l : list tLimTspecInfo) : Z := foldr (fun e a => rate e + a) 0 l.
Definition known m e : Prop := inuse e = true -> aid_in m (ts_assocId e) = true.

Lemma total_insert (l : list tLimTspecInfo) (i : nat) e e0 : l !! i = Some e0 -> total_rate (<[i := e]> l) = total_rate l - rate e0 + rate e.
Proof.
  revert i. induction l as [|x l IH]; intros [|i]; [done|done|cbn; intros [= ->]; lia|]. intros Hi.
  change (rate x + total_rate (<[i:=e]> l) = rate x + total_rate l - rate e0 + rate e). rewrite (IH i Hi). lia.
Qed.

Lemma total_upd l i e e0 : aget l i = Some e0 -> total_rate (upd l i e) = total_rate l - rate e0 + rate e.
Proof. intros Hi. pose proof (aget_Some_range _ _ _ Hi). apply total_insert. rewrite <- Hi. by rewrite aget_lookup by lia. Qed.

Lemma rate_nonneg e : ts_entry_ok e -> 0 <= rate e.
Proof. intros [_ Ht]. unfold rate, tspec_ok in *. destruct (inuse e); lia. Qed.

Lemma bw_used_known m l : Forall (known m) l -> bw_used m l = total_rate l.
Proof.
  unfold bw_used, total_rate. induction 1 as [|e l He _ IH]; cbn; [done|]. rewrite IH. unfold share, rate. destruct (inuse e) eqn:Hu; [|done]. by rewrite He.
Qed.

Lemma total_release l aid : Forall ts_entry_ok l -> total_rate (release aid <$> l) <= total_rate l.
Proof.
  unfold total_rate. induction 1 as [|e l He _ IH]; [done|]. rewrite fmap_cons. cbn [foldr]. pose proof (rate_nonneg _ He).
  unfold release at 1. destruct (aid =? ts_assocId e); [unfold rate at 1; cbn|]; lia.
Qed.

Lemma total_nonneg l : Forall ts_entry_ok l -> 0 <= total_rate l.
Proof. unfold total_rate. induction 1 as [|e l He _ IH]; cbn; [done|]. pose proof (rate_nonneg _ He). lia. Qed.

(** Requests and departures of stations, as the association and action frames bring them, and
    the answers of the firmware to the streams that were granted *)
Inductive op :=
| Add_ts (addr : list Z) (ts : tSirMacTspecIE) (aid : Z) (alloc want_sch : bool)
| Delete_ts (aid : Z) (info : tSirMacTSInfo)
| Join (addr : list Z) (aid : Z)
| Leave (addr : list Z)
| Hal_rsp (limMsg : option tAddTsParams).

Definition exec (frag : option Z) (sess : Z) (o : op) : M ST unit :=
  match o with
  | Add_ts addr ts aid alloc want_sch => _ <- limAdmitControlAddTS addr ts aid alloc want_sch sess ;; mreturn tt
  | Delete_ts aid info => _ <- limAdmitControlDeleteTS aid info ;; mreturn tt
  | Join addr aid => _ <- on_dph sess (dphAddHashEntry frag addr aid) ;; mreturn tt
  | Leave addr =>
      r <- on_dph sess (dphLookupHashEntry addr 0) ;;
      match fst r with
      | None => mreturn tt
      | Some _ => _ <- limAdmitControlDeleteSta (snd r) ;; _ <- on_dph sess (dphDeleteHashEntry addr (snd r)) ;; mreturn tt
      end
  | Hal_rsp limMsg => limProcessHalAddTsRsp limMsg
  end.
Fixpoint exec_ops (frag : option Z) (sess : Z) (os : list op) : M ST unit :=
  match os with [] => mreturn tt | o :: os => exec frag sess o ;; exec_ops frag sess os end.

(** A request for less than 1 Mbit/s has a service interval (what happens otherwise is
    [no_interval_is_never_admitted]); an answer is for the session. *)
Definition op_ok (sess : Z) (o : op) : Prop :=
  match o with
  | Add_ts _ ts aid _ _ => 0 <= aid /\ tspec_ok ts /\ (has_interval ts = true \/ 1000000 <= meanDataRate ts)
  | Hal_rsp limMsg => forall rsp, limMsg = Some rsp -> a_sessionId rsp = sess
  | Delete_ts _ _ => True
  | Join addr aid => length addr = 6%nat /\ 0 <= aid
  | Leave addr => length addr = 6%nat
  end.

Record within (sess : Z) p s m : Prop := {
  wi_tab : tab_ok s;
  wi_sess : exists t, at_sess s sess (set_table t p) m /\ qos_ok (set_table t p) /\ size t < 256;
  wi_type : adm_type s = WNI_CFG_ADMIT_POLICY_BW_FACTOR;
  wi_known : Forall (known m) (tspecInfo s);
  wi_total : total_rate (tspecInfo s) <= avail s p
}.

(** Changing one entry *)
Lemma within_put sess p s m k e : within sess p s m -> 0 <= k < LIM_NUM_TSPEC_MAX -> ts_entry_ok e -> known m e ->
  total_rate (tspecInfo s) + rate e <= avail s p \/ inuse e = false -> within sess p (put s k e) m.
Proof.
  intros [[Hl Hf] Hs Ht Hk Htot] Hi He Hke Hr. destruct (drop_entry s k Hl Hi) as (e0 & He0 & _).
  pose proof (rate_nonneg _ (tab_entry s k e0 (conj Hl Hf) He0)). split; cbn; [|done|done| |].
  - split; [unfold tab_len; cbn; by rewrite length_upd|]. by apply Forall_insert.
  - by apply Forall_insert.
  - rewrite (total_upd _ _ _ _ He0). change (avail (put s k e) p) with (avail s p). unfold rate in *.
    destruct Hr as [Hr|Hr]; [|rewrite Hr]; lia.
Qed.

Lemma runs_on_dph {A} (d : M dphHashTableClass A) s sess p (Q : A -> ST -> Prop) : aget (gpSession s) sess = Some p ->
  runs d (dphHashTable p) (fun a t => Q a (set_gpSession (upd (gpSession s) sess (set_table t p)) s)) -> runs (on_dph sess d) s Q.
Proof.
  intros Hp (a & t & Hd & HQ)%runs_elim. unfold on_dph. mstep. eapply runs_on_session; [done|]. cbn beta.
  mstep. eapply runs_oget; [done|]. cbn beta iota. mstep. mstep. mstep. cbn [fst snd].
  eapply runs_oget; [apply aset_upd; by eapply aget_Some_range|]. mstep. mstep. by mstep.
Qed.

(** The stations change, to a map in which the stations with streams are still known. *)
Lemma within_stations sess p s m t0 t cs' m' : within sess p s m -> at_sess s sess (set_table t0 p) m -> dph_rep t cs' m' ->
  size t = size t0 -> qos_ok (set_table t0 p) -> size t0 < 256 -> Forall (known m') (tspecInfo s) ->
  within sess p (set_gpSession (upd (gpSession s) sess (set_table t (set_table t0 p))) s) m'.
Proof.
  intros [Hok _ Ht _ Htot] [Hp _] Hr Hsz Hq H256 Hk. split; cbn; [done| |done..].
  exists t. split; [|split; [by unfold qos_ok in *; cbn in *; rewrite Hsz|lia]]. split; [|by exists cs']. apply aget_upd_same. by eapply aget_Some_range.
Qed.

Lemma known_mono m m' l : (forall a x, m !! a = Some x -> exists a', m' !! a' = Some x) -> Forall (known m) l -> Forall (known m') l.
Proof.
  intros Hsub Hf. eapply Forall_impl; [exact Hf|]. intros e He Hu. apply aid_in_iff. apply He, aid_in_iff in Hu as [a Ha]. by eapply Hsub.
Qed.

Lemma add_ts_within frag sess p s m addr ts aid alloc want : within sess p s m -> op_ok sess (Add_ts addr ts aid alloc want) ->
  runs (exec frag sess (Add_ts addr ts aid alloc want)) s (fun _ s' => exists m', within sess p s' m' /\ avail s' p = avail s p).
Proof.
  intros Hw (Ha & Hts & Hint). cbn [exec]. mstep. destruct (wi_sess _ _ _ _ Hw) as (t & Hs & Hq & H256).
  assert (Hsame : exists m', within sess p s m' /\ avail s p = avail s p) by eauto.
  eapply limAdmitControlAddTS_spec; [apply Hw|done..|]. destruct (_ || _); [by mstep|].
  destruct (has_interval ts); cbn [negb]; [|split; [by destruct Hint|by mstep]].
  destruct (policy_admits s (set_table t p) m ts) eqn:Hpol; cbn [negb]; [|by mstep]. cbv zeta. destruct alloc; cbn [negb]; [|by mstep].
  destruct (station_ok (set_table t p) m aid) eqn:Hst; cbn [negb orb]; [|by mstep]. destruct (maxStation s <=? aid); [by mstep|].
  destruct (ts_slot s aid ts) as [k|]; [|by mstep]. intros Hk. mstep. exists m. split; [|done].
  apply within_put; [done|done|done| |left].
  - intros _. unfold station_ok in Hst. rewrite !andb_true_iff in Hst. apply Hst.
  - unfold policy_admits in Hpol. rewrite (wi_type _ _ _ _ Hw) in Hpol. cbn in Hpol. rewrite (bw_used_known _ _ (wi_known _ _ _ _ Hw)) in Hpol.
    pose proof (total_nonneg _ (proj2 (wi_tab _ _ _ _ Hw))). pose proof (wi_total _ _ _ _ Hw). pose proof (avail_range s p).
    rewrite u32_small in Hpol by lia. change (avail s (set_table t p)) with (avail s p) in Hpol. unfold rate. cbn. lia.
Qed.

Lemma peFindSessionBySessionId_spec s id (Q : option Z -> ST -> Prop) : 0 <= id ->
  (forall r, (forall x, r = Some x -> x = id /\ is_Some (aget (gpSession s) id)) -> Q r s) -> runs (peFindSessionBySessionId id) s Q.
Proof.
  intros Hid HQ. unfold peFindSessionBySessionId. mstep. mstep. destruct (Z.leb_spec (Z.of_nat (length (gpSession s))) id).
  - mstep. by apply HQ.
  - destruct (aget_is_Some (gpSession s) id) as [p Hp]; [lia|]. mstep. eapply runs_on_session; [done|]. cbn beta. mstep. apply HQ.
    intros x Hx. destruct (s_valid p); [|done]. injection Hx as <-. eauto.
Qed.

Lemma within_out sess p s m defd c n out : within sess p s m -> within sess p (set_out defd c n out s) m.
Proof. by intros []. Qed.

Lemma delete_ts_within sess p s m aid info : within sess p s m ->
  runs (limAdmitControlDeleteTS aid info) s (fun _ s' => within sess p s' m /\ avail s' p = avail s p).
Proof.
  intros Hw. pose proof (proj1 (wi_tab _ _ _ _ Hw)) as Hl. apply limAdmitControlDeleteTS_spec; [done|].
  destruct (find_stream s aid info) as [i|]; [|done]. intros e He _. split; [|done].
  pose proof (aget_Some_range _ _ _ He) as Hr. rewrite Hl in Hr.
  apply within_put; [done|done| |done|by right]. exact (tab_entry s i e (wi_tab _ _ _ _ Hw) He).
Qed.

(** The look-up by the firmware's index ends in tables of up to 255 nodes. *)
Lemma dphLookupAssocId_ends t cs m staIdx aid0 : dph_rep t cs m -> size t < 256 ->
  runs (dphLookupAssocId staIdx aid0) t (fun _ t' => t' = t).
Proof.
  intros Hr Hsz. pose proof (dr_nodes _ _ _ Hr) as Hn. unfold dphLookupAssocId. do 3 mstep.
  apply (runs_miter (fun i t' => t' = t /\ 0 <= i <= size t) (fun i _ => Z.to_nat (size t - i))).
  - intros i t' (-> & Hi). destruct (Z.ltb_spec i (size t)) as [Hlt|Hge].
    + destruct (aget_is_Some (pDphNodeArray t) i) as [n Hni]; [lia|]. mstep. unfold node. do 2 mstep. eapply runs_oget; [done|].
      destruct (added n && (staIndex n =? staIdx)); mstep; [by case_match|]. rewrite u8_small by lia. split; [split; [done|lia]|lia].
    + mstep. by case_match.
  - split; [done|lia].
  - lia.
Qed.

Lemma hal_rsp_within sess p s m limMsg : 0 <= sess -> within sess p s m -> op_ok sess (Hal_rsp limMsg) ->
  runs (limProcessHalAddTsRsp limMsg) s (fun _ s' => within sess p s' m /\ avail s' p = avail s p).
Proof.
  intros H0 Hw Hop. unfold limProcessHalAddTsRsp. do 2 mstep. destruct limMsg as [rsp|]; [|mstep; split; [by apply within_out|done]].
  cbn in Hop. rewrite (Hop rsp eq_refl). set (s1 := set_defd true s).
  assert (Hw1 : within sess p s1 m) by by apply within_out. change (avail s p) with (avail s1 p).
  destruct (wi_sess _ _ _ _ Hw1) as (t & Hs & Hq & H256). apply runs_bnd. apply peFindSessionBySessionId_spec; [done|]. intros [x|] Hx.
  2: { unfold send, free_body. msteps. split; [by apply within_out, within_out|done]. }
  destruct (Hx x eq_refl) as [-> _]. destruct Hs as [Hp [cs Hr]]. do 2 mstep. eapply runs_on_session; [exact Hp|]. cbn beta.
  unfold send, free_body. destruct (a_status_ok rsp); [msteps; split; [by apply within_out, within_out|done]|].
  do 3 mstep. set (s2 := set_sent _ s1). assert (Hw2 : within sess p s2 m) by by apply within_out.
  eapply (runs_look _ s2); [exact Hp|]. eapply runs_mono; [by eapply dphLookupAssocId_ends|].
  intros [pSta aid] t' ->. split; [done|]. mstep.
  eapply runs_mono with (Q := fun _ s' => within sess p s' m /\ avail s' p = avail s1 p).
  { destruct (bool_decide (is_Some pSta)); [|by mstep]. mstep.
    eapply runs_mono; [by apply (delete_ts_within sess p s2 m)|]. intros r s' [? ?]. by mstep. }
  intros [] s3 [Hw3 Hav]. msteps. split; [by apply within_out, within_out|done].
Qed.

Lemma exec_within frag sess p s m o : 0 <= sess -> within sess p s m -> op_ok sess o ->
  runs (exec frag sess o) s (fun _ s' => exists m', within sess p s' m' /\ avail s' p = avail s p).
Proof.
  intros H0 Hw Hop. destruct o as [addr ts aid alloc want|aid info|addr aid|addr|limMsg]; [by apply (add_ts_within _ _ _ _ m)|..].
  all: pose proof (proj1 (wi_tab _ _ _ _ Hw)) as Hl; destruct (wi_sess _ _ _ _ Hw) as (t & Hs & Hq & H256); cbn [exec op_ok] in *.
  - mstep. eapply runs_mono; [by apply (delete_ts_within sess p s m)|]. intros r s' [? ?]. mstep. eauto.
  - destruct Hop as [Hlen Ha]. mstep. destruct Hs as [Hp [cs Hr]]. eapply runs_on_dph; [done|].
    eapply runs_mono; [by apply (dphAddHashEntry_cases _ _ cs m)|]. intros r t' Hcase. mstep. cbn [dphHashTable set_table] in *.
    destruct (add_ok t m addr aid) eqn:Hadd.
    + destruct Hcase as (_ & Hsz & cs' & Hr'). exists (<[addr := aid]> m). split; [|done].
      eapply within_stations; [done|by split; [|exists cs]|done..|]. eapply known_mono; [|apply Hw]. intros a x Hax.
      unfold add_ok in Hadd. rewrite !andb_true_iff in Hadd. destruct (decide (a = addr)) as [->|Hne]; [|exists a; by rewrite lookup_insert_ne].
      destruct Hadd as [_ Hno%bool_decide_eq_true]. congruence.
    + destruct Hcase as [_ ->]. exists m. split; [|done]. eapply within_stations; [done|by split; [|exists cs]|done..|apply Hw].
  - mstep. destruct Hs as [Hp [cs Hr]]. eapply runs_look; [done|]. eapply runs_mono; [by apply (dphLookupHashEntry_spec _ cs m)|].
    intros r t' [-> ->]. split; [done|]. destruct (m !! addr) as [aid|] eqn:Hm; cbn [fst snd]; [|mstep; by eauto].
    mstep. apply limAdmitControlDeleteSta_spec; [done|]. mstep. eapply runs_on_dph; [exact Hp|].
    pose proof Hm as (n & Hn & Had & Hsa)%(dr_map _ _ _ Hr). pose proof (aget_Some_range _ _ _ Hn) as Hrn.
    eapply runs_mono; [apply (dphDeleteHashEntry_cases _ cs m); [done|done|lia]|]. intros r t' Hcase.
    mstep. cbn [dphHashTable set_table] in *. unfold delete_ok, aid_used in Hcase. rewrite Hn, Had, bool_decide_eq_true_2 in Hcase by eauto.
    rewrite (dr_nodes _ _ _ Hr) in Hrn. rewrite (proj2 (Z.ltb_lt aid (size t))) in Hcase by lia.
    destruct Hcase as (_ & Hsz & cs' & Hr'). exists (delete addr m). split; [|done].
    assert (Hw' : within sess p (set_tspecInfo (release aid <$> tspecInfo s) s) m).
    { destruct Hw as [[Hlen Hf] Hs' Ht Hk Htot]. split; cbn; [|done|done| |].
      - split; [unfold tab_len; cbn; by rewrite length_fmap|]. cbn. apply Forall_fmap. eapply Forall_impl; [exact Hf|].
        intros e He. cbn. unfold release. by destruct (aid =? ts_assocId e).
      - apply Forall_fmap. eapply Forall_impl; [exact Hk|]. intros e He. cbn. unfold release. by destruct (aid =? ts_assocId e).
      - etransitivity; [by apply total_release|done]. }
    eapply (within_stations sess p (set_tspecInfo (release aid <$> tspecInfo s) s)); [exact Hw'|by split; [|exists cs]|exact Hr'|done|done|done|].
    cbn. apply Forall_fmap. eapply Forall_impl; [exact (wi_known _ _ _ _ Hw)|]. intros e He. cbn. unfold release, known in *.
    destruct (Z.eqb_spec aid (ts_assocId e)) as [|Hne]; [done|]. intros Hu. specialize (He Hu).
    apply aid_in_iff in He as [a Ha]. apply aid_in_iff. exists a. rewrite lookup_delete_ne; [done|]. congruence.
  - eapply runs_mono; [by apply (hal_rsp_within sess p s m)|]. intros [] s' [? ?]. eauto.
Qed.

(** ** The table as a map of streams *)

#[local] Abbreviation ts_key := (Z * Z * Z)%type.
#[local] Abbreviation streams := (gmap (Z * Z * Z) (list Z * tSirMacTspecIE)).
Definition key_of (aid : Z) (info : tSirMacTSInfo) : ts_key := (aid, direction info, tsid info).
Definition stream e : option (ts_key * (list Z * tSirMacTspecIE)) :=
  if inuse e then Some (key_of (ts_assocId e) (tsinfo (tspec e)), (ts_staAddr e, tspec e)) else None.
Definition rep (A : streams) (l : list tLimTspecInfo) : Prop := omap stream l ≡ₚ map_to_list A.

Lemma split_entry l k e0 : aget l k = Some e0 -> exists pre post, l = pre ++ e0 :: post /\ (forall e, upd l k e = pre ++ e :: post) /\ Z.of_nat (length pre) = k.
Proof.
  intros He. pose proof (aget_Some_range _ _ _ He) as Hr. rewrite aget_lookup in He by lia.
  apply list_elem_of_split_length in He as (pre & post & -> & Hlen). exists pre, post. split; [done|]. split; [|lia].
  intros e. unfold upd. by rewrite Hlen, insert_app_r_alt, Nat.sub_diag by lia.
Qed.

Lemma rep_new A l k e0 e i v : rep A l -> aget l k = Some e0 -> stream e0 = None -> A !! i = None -> stream e = Some (i, v) ->
  rep (<[i := v]> A) (upd l k e).
Proof.
  unfold rep. intros Hrep (pre & post & -> & Hupd & _)%split_entry H0 Hi He. rewrite Hupd. rewrite !omap_app in *. cbn in *. rewrite H0 in Hrep. rewrite He.
  rewrite map_to_list_insert by done. rewrite <- Hrep. by rewrite <- Permutation_middle.
Qed.

Lemma rep_gone A l k e0 e i v : rep A l -> aget l k = Some e0 -> stream e0 = Some (i, v) -> stream e = None -> rep (delete i A) (upd l k e) /\ A !! i = Some v.
Proof.
  unfold rep. intros Hrep (pre & post & -> & Hupd & _)%split_entry H0 He. rewrite Hupd. rewrite !omap_app in *. cbn in *. rewrite H0 in Hrep. rewrite He.
  assert (Hi : A !! i = Some v) by (apply elem_of_map_to_list; rewrite <- Hrep; set_solver). split; [|done].
  apply (Permutation_cons_inv (a := (i, v))). rewrite map_to_list_delete by done. rewrite <- Hrep. by rewrite Permutation_middle.
Qed.

Lemma is_stream_key aid info e : is_stream aid info e = true <-> exists v, stream e = Some (key_of aid info, v).
Proof.
  unfold is_stream, stream, key_of. destruct (inuse e); [|split; [done|by intros []]]. cbn [andb]. rewrite !andb_true_iff, !Z.eqb_eq.
  split; [intros [[-> ->] ->]; eauto|]. intros [v [= -> -> -> _]]. done.
Qed.

Lemma rep_elem A l i v : rep A l -> A !! i = Some v <-> exists e, e ∈ l /\ stream e = Some (i, v).
Proof. intros Hrep. rewrite <- elem_of_map_to_list, <- Hrep, list_elem_of_omap. done. Qed.

Lemma rep_find_entry A s aid info : rep A (tspecInfo s) ->
  match find_stream s aid info with
  | Some i => exists e v, aget (tspecInfo s) i = Some e /\ stream e = Some (key_of aid info, v) /\ A !! key_of aid info = Some v
  | None => A !! key_of aid info = None
  end.
Proof.
  intros Hrep. destruct (find_stream s aid info) as [i|] eqn:Hf.
  - apply first_at_Some in Hf as (e & He & [v Hv]%is_stream_key). exists e, v. split_and!; [done..|].
    apply (rep_elem _ _ _ _ Hrep). exists e. split; [|done]. pose proof (aget_Some_range _ _ _ He). rewrite aget_lookup in He by lia.
    by eapply list_elem_of_lookup_2.
  - apply first_from_None in Hf. destruct (A !! key_of aid info) as [v|] eqn:Hv; [|done]. exfalso.
    apply (rep_elem _ _ _ _ Hrep) in Hv as (e & He & Hs). rewrite Forall_forall in Hf. specialize (Hf e He).
    enough (is_stream aid info e = true) by congruence. apply is_stream_key. eauto.
Qed.

Lemma omap_length_all (l : list tLimTspecInfo) : (length (omap stream l) <= length l)%nat /\
  (length (omap stream l) = length l <-> Forall (fun e => negb (inuse e) = false) l).
Proof.
  induction l as [|e l [IHle IHeq]]; [by cbn|]. rewrite Forall_cons. change (e :: l) with ([e] ++ l). rewrite omap_app, !length_app. cbn.
  unfold stream at 1 3. destruct (inuse e); cbn; [|split; [lia|split; [lia|by intros []]]]. split; [lia|]. rewrite <- IHeq. split; [split; [done|lia]|lia].
Qed.

Lemma rep_room A s : rep A (tspecInfo s) -> tab_len s ->
  match find_free s with
  | Some k => (base.size A < 15)%nat /\ exists e, aget (tspecInfo s) k = Some e /\ stream e = None
  | None => base.size A = 15%nat
  end.
Proof.
  intros Hrep Hl. assert (Hsz : base.size A = length (omap stream (tspecInfo s))) by (rewrite <- length_map_to_list; by rewrite Hrep).
  destruct (omap_length_all (tspecInfo s)) as [Hle Heq]. unfold tab_len in Hl. change (Z.to_nat LIM_NUM_TSPEC_MAX) with 15%nat in Hl.
  destruct (find_free s) as [k|] eqn:Hf.
  - pose proof Hf as (e & He & Hi)%first_at_Some. split.
    + rewrite Hsz. destruct (decide (length (omap stream (tspecInfo s)) = 15%nat)) as [H15|]; [|lia]. rewrite <- Hl in H15. apply Heq in H15.
      rewrite Forall_lookup in H15. pose proof (aget_Some_range _ _ _ He). rewrite aget_lookup in He by lia. rewrite (H15 _ _ He) in Hi. done.
    + exists e. split; [done|]. unfold stream. by destruct (inuse e).
  - apply first_from_None in Hf. rewrite Hsz, <- Hl. by apply Heq.
Qed.

Definition without (aid : Z) (A : streams) : streams := filter (fun kv => kv.1.1.1 <> aid) A.

Lemma map_to_list_filter (P : ts_key * (list Z * tSirMacTspecIE) -> Prop) `{!forall x, Decision (P x)} (A : streams) :
  map_to_list (filter P A) ≡ₚ filter P (map_to_list A).
Proof.
  rewrite map_filter_alt. apply map_to_list_to_map. eapply sublist_NoDup; [apply (NoDup_fst_map_to_list A)|]. apply fmap_sublist, sublist_filter.
Qed.

Lemma rep_without A l aid : rep A l -> rep (without aid A) (release aid <$> l).
Proof.
  unfold rep, without. intros Hrep. rewrite map_to_list_filter, <- Hrep. clear Hrep. induction l as [|e l IH]; [done|].
  rewrite fmap_cons. change (e :: l) with ([e] ++ l). change (release aid e :: (release aid <$> l)) with ([release aid e] ++ (release aid <$> l)).
  rewrite !omap_app, filter_app, IH. f_equiv. cbn. unfold release, stream at 2. destruct (Z.eqb_spec aid (ts_assocId e)) as [->|Hne].
  - cbn. destruct (inuse e); cbn; [|done]. by rewrite decide_False by naive_solver.
  - unfold stream. destruct (inuse e); cbn; [|done]. by rewrite decide_True by congruence.
Qed.

(** Operations on the table, also those of a station's own requests ([limTspecAdd] is called
    for the streams that an access point grants) *)
Inductive tab_op :=
| T_add (addr : list Z) (aid : Z) (ts : tSirMacTspecIE)
| T_del (aid : Z) (info : tSirMacTSInfo)
| T_del_sta (aid : Z)
| T_find (aid : Z) (info : tSirMacTSInfo).

(** What an operation answers; a search that finds an entry gives the address and the
    specification stored in it. *)
Inductive tab_res := R_ok (b : bool) | R_found (v : option (list Z * tSirMacTspecIE)).

Definition tab_exec (o : tab_op) : M ST tab_res :=
  match o with
  | T_add addr aid ts => r <- limTspecAdd addr aid ts ;; mreturn (R_ok (bool_decide (is_Some (r : option Z))))
  | T_del aid info => r <- limAdmitControlDeleteTS aid info ;; mreturn (R_ok (bool_decide (fst r = eSIR_SUCCESS)))
  | T_del_sta aid => r <- limAdmitControlDeleteSta aid ;; mreturn (R_ok (bool_decide (r = eSIR_SUCCESS)))
  | T_find aid info =>
      r <- limFindTspec aid info ;;
      match r with
      | None => mreturn (R_found None)
      | Some i => e <- entry i ;; mreturn (R_found (Some (ts_staAddr e, tspec e)))
      end
  end.
Fixpoint tab_execs (os : list tab_op) : M ST (list tab_res) :=
  match os with [] => mreturn [] | o :: os => r <- tab_exec o ;; rs <- tab_execs os ;; mreturn (r :: rs) end.

Definition a_exec (mx : Z) (o : tab_op) (A : streams) : tab_res * streams :=
  match o with
  | T_add addr aid ts =>
      if (aid <? mx) && bool_decide (base.size A < 15)%nat then (R_ok true, <[key_of aid (tsinfo ts) := (addr, ts)]> A) else (R_ok false, A)
  | T_del aid info => (R_ok (bool_decide (is_Some (A !! key_of aid info))), delete (key_of aid info) A)
  | T_del_sta aid => (R_ok true, without aid A)
  | T_find aid info => (R_found (A !! key_of aid info), A)
  end.
Fixpoint a_execs (mx : Z) (os : list tab_op) (A : streams) : streams :=
  match os with [] => A | o :: os => a_execs mx os (a_exec mx o A).2 end.
(** No stream is added that is there already. *)
Definition tab_op_ok (o : tab_op) (A : streams) : Prop :=
  match o with T_add _ aid ts => A !! key_of aid (tsinfo ts) = None | _ => True end.
Fixpoint a_results (mx : Z) (os : list tab_op) (A : streams) : list tab_res :=
  match os with [] => [] | o :: os => (a_exec mx o A).1 :: a_results mx os (a_exec mx o A).2 end.
Fixpoint tab_ops_ok (mx : Z) (os : list tab_op) (A : streams) : Prop :=
  match os with [] => True | o :: os => tab_op_ok o A /\ tab_ops_ok mx os (a_exec mx o A).2 end.

Lemma tab_exec_refines s A o : tab_len s -> rep A (tspecInfo s) -> tab_op_ok o A ->
  runs (tab_exec o) s (fun r s' => r = (a_exec (maxStation s) o A).1 /\ tab_len s' /\ maxStation s' = maxStation s
    /\ rep (a_exec (maxStation s) o A).2 (tspecInfo s')).
Proof.
  intros Hl Hrep Hop. destruct o as [addr aid ts|aid info|aid|aid info]; cbn [tab_exec a_exec tab_op_ok] in *.
  - mstep. apply limTspecAdd_spec; [done|]. rewrite Z.ltb_antisym. destruct (maxStation s <=? aid); cbn [negb andb]; [by mstep|].
    pose proof (rep_find_entry A s aid (tsinfo ts) Hrep) as Hf. pose proof (rep_room A s Hrep Hl) as Hr. unfold ts_slot, slot_idx.
    destruct (find_stream s aid (tsinfo ts)) as [i|]; [by destruct Hf as (_ & v & _ & _ & Hv); congruence|].
    destruct (find_free s) as [k|].
    + destruct Hr as (Hlt & e & He & Hse). intros Hk. mstep. rewrite (bool_decide_eq_true_2 (base.size A < 15)%nat) by done. cbn [fst snd]. split_and!; [done| |done|].
      * unfold tab_len. cbn. by rewrite length_upd.
      * cbn. by eapply rep_new.
    + mstep. rewrite (bool_decide_eq_false_2 (base.size A < 15)%nat) by (rewrite Hr; lia). by cbn.
  - mstep. pose proof (rep_find_entry A s aid info Hrep) as Hf. apply limAdmitControlDeleteTS_spec; [done|].
    destruct (find_stream s aid info) as [i|].
    + destruct Hf as (e & v & He & Hse & Hv). intros e' He' _. assert (e' = e) as -> by congruence. mstep. cbn [fst snd]. split_and!; [| |done|].
      * by rewrite Hv.
      * unfold tab_len. cbn. by rewrite length_upd.
      * cbn. by eapply rep_gone.
    + mstep. cbn [fst snd]. split_and!; [by rewrite Hf|done|done|by rewrite delete_id].
  - mstep. apply limAdmitControlDeleteSta_spec; [done|]. mstep. split_and!; [done| |done|by apply rep_without].
    unfold tab_len. cbn. by rewrite length_fmap.
  - mstep. pose proof (rep_find_entry A s aid info Hrep) as Hf. apply limFindTspec_spec; [done|].
    destruct (find_stream s aid info) as [i|]; [|mstep; by rewrite Hf].
    destruct Hf as (e & v & He & Hse & ->). mstep. eapply runs_entry; [done|]. mstep. split_and!; [|done..].
    unfold stream in Hse. destruct (inuse e); [|done]. cbn [fst]. congruence.
Qed.

Lemma tab_execs_refine os : forall s A, tab_len s -> rep A (tspecInfo s) -> tab_ops_ok (maxStation s) os A ->
  runs (tab_execs os) s (fun rs s' => rs = a_results (maxStation s) os A /\ rep (a_execs (maxStation s) os A) (tspecInfo s')).
Proof.
  induction os as [|o os IH]; intros s A Hl Hrep Hok; cbn [tab_execs a_results]; [by mstep|]. destruct Hok as [Ho Hos].
  mstep. eapply runs_mono; [by apply (tab_exec_refines s A)|]. intros r s1 (-> & Hl1 & Hmx & Hrep1). mstep.
  pose proof (IH s1 _ Hl1 Hrep1) as IH1. rewrite Hmx in IH1. eapply runs_mono; [by apply IH1|]. intros rs s2 [-> Hrep2]. by mstep.
Qed.

Lemma init_facts s : let s0 := set_tspecInfo (replicate (Z.to_nat LIM_NUM_TSPEC_MAX) zero_entry) s in
  tab_ok s0 /\ rep ∅ (tspecInfo s0) /\ total_rate (tspecInfo s0) = 0 /\ forall m, Forall (known m) (tspecInfo s0).
Proof.
  intros s0. split; [split; [done|by apply Forall_replicate]|]. split_and!; [|done|intros m; by apply Forall_replicate].
  unfold rep. by rewrite map_to_list_empty.
Qed.

(** ** The policy of the configuration, and the messages *)

Lemma runs_on_cfg {A} (d : M tAniSirCfg A) s (Q : A -> ST -> Prop) :
  runs d (cfg s) (fun a c => c = cfg s /\ Q a s) -> runs (on_cfg d) s Q.
Proof.
  intros (a & c & Hd & -> & HQ)%runs_elim. unfold on_cfg. mstep. mstep. mstep. eapply runs_oget; [done|]. cbn beta iota. mstep. mstep. mstep.
  by destruct s.
Qed.

(** [limUpdateAdmitPolicy] takes over what the configuration store holds. *)
Lemma limUpdateAdmitPolicy_spec loc ps s f1 mn1 mx1 v1 f2 mn2 mx2 v2 : cfg_rel loc ps (cfg s) ->
  aget ps WNI_CFG_ADMIT_POLICY = Some {| p_flags := f1; p_val := PInt mn1 mx1 v1 |} ->
  aget ps WNI_CFG_ADMIT_BWFACTOR = Some {| p_flags := f2; p_val := PInt mn2 mx2 v2 |} ->
  runs limUpdateAdmitPolicy s (fun r s' => r = eSIR_SUCCESS /\ s' = set_policy (u8 v1) (u8 v2) s).
Proof.
  intros HR H1 H2. unfold limUpdateAdmitPolicy. mstep. apply runs_on_cfg.
  apply (get_int_spec loc ps _ HR); [done|by unfold kind_at; rewrite H1|]. split; [done|]. unfold spec_get_int. rewrite H1. cbn [fst snd].
  rewrite bool_decide_eq_false_2 by (intros Hne; by apply Hne). mstep. mstep. mstep. mstep. mstep. apply runs_on_cfg.
  apply (get_int_spec loc ps _ HR); [done|by unfold kind_at; rewrite H2|]. split; [done|]. unfold spec_get_int. rewrite H2. cbn [fst snd].
  rewrite bool_decide_eq_false_2 by (intros Hne; by apply Hne). by do 5 mstep.
Qed.

(** A request to the firmware is sent exactly when the caller is told so, and its body is
    handed on or freed; messages are deferred until the answer only to a request that went out. *)
Lemma limSendHalMsgAddTs_spec s have_mem posted_ok sta ix ts id tsm : 0 <= id ->
  runs (limSendHalMsgAddTs have_mem posted_ok sta ix ts id tsm) s (fun r s' => bodies s' = bodies s
    /\ (if bool_decide (r = eSIR_SUCCESS) then gLimProcessDefdMsgs s' = false /\ exists b, a_tspec b = ts /\ a_tspecIdx b = ix /\ sent s' = sent s ++ [WDA_ADD_TS_REQ b]
        else sent s' = sent s /\ (gLimProcessDefdMsgs s' = gLimProcessDefdMsgs s \/ gLimProcessDefdMsgs s' = true))).
Proof.
  intros Hid. unfold limSendHalMsgAddTs. mstep. apply peFindSessionBySessionId_spec; [done|]. intros [x|] Hx; [|mstep; rewrite bool_decide_eq_false_2 by done; auto].
  destruct (Hx x eq_refl) as [-> [p Hp]]. destruct have_mem; cbn [negb]; [|mstep; rewrite bool_decide_eq_false_2 by done; auto]. mstep. unfold alloc_body. mstep. mstep.
  eapply runs_on_session; [exact Hp|]. cbn beta. mstep. mstep. mstep. mstep. mstep. unfold wdaPostCtrlMsg, send, free_body. destruct posted_ok; cbn beta iota.
  - msteps. rewrite succeeded. mstep. rewrite bool_decide_eq_true_2 by done. cbn. split; [lia|]. split; [done|]. eexists. split; [|split; [|reflexivity]]; done.
  - msteps. rewrite failed. msteps. rewrite bool_decide_eq_false_2 by done. cbn. split; [lia|]. auto.
Qed.

Lemma limSendHalMsgDelTs_spec s have_mem posted_ok sta ix prio id bss : 0 <= id ->
  runs (limSendHalMsgDelTs have_mem posted_ok sta ix prio id bss) s (fun r s' => bodies s' = bodies s
    /\ (if bool_decide (r = eSIR_SUCCESS) then exists sme ric, sent s' = sent s ++ [WDA_DEL_TS_REQ sta ix bss sme prio ric] else sent s' = sent s)).
Proof.
  intros Hid. unfold limSendHalMsgDelTs. destruct have_mem; cbn [negb]; [|by mstep]. mstep. unfold alloc_body. mstep. mstep.
  apply peFindSessionBySessionId_spec; [done|]. intros [x|] Hx.
  2: { unfold free_body. do 3 mstep. rewrite bool_decide_eq_false_2 by done. cbn. split; [lia|done]. }
  destruct (Hx x eq_refl) as [-> [p Hp]]. mstep. eapply runs_on_session; [exact Hp|]. cbn beta. mstep. mstep. mstep.
  unfold wdaPostCtrlMsg, send, free_body. destruct posted_ok; cbn beta iota.
  - msteps. rewrite succeeded. mstep. rewrite bool_decide_eq_true_2 by done. cbn. split; [lia|]. by eauto.
  - msteps. rewrite failed. msteps. rewrite bool_decide_eq_false_2 by done. cbn. split; [lia|done].
Qed.

(** ** Properties *)

Lemma exec_ops_within frag sess os : 0 <= sess -> Forall (op_ok sess) os -> forall p m s b, within sess p s m -> avail s p = b ->
  runs (exec_ops frag sess os) s (fun _ s' => total_rate (tspecInfo s') <= b
    /\ exists p' m', at_sess s' sess p' m' /\ Forall (known m') (tspecInfo s')).
Proof.
  intros H0. induction 1 as [|o os Ho _ IH]; intros p m s b Hw Hb; cbn [exec_ops].
  - mstep. split; [rewrite <- Hb; apply Hw|]. destruct (wi_sess _ _ _ _ Hw) as (t & Hs & _). eauto using wi_known.
  - mstep. eapply runs_mono; [by apply (exec_within _ _ _ _ _ _ H0 Hw)|].
    intros [] s1 (m' & Hw' & Hav). apply (IH p m' s1 b Hw'). congruence.
Qed.

(** C13.  The admitted bandwidth stays within what the policy makes available: from an empty
    table, whatever stations of one session join and leave, whatever streams they ask for and give
    up, and whatever the firmware answers to the streams granted, the mean data rates of the
    streams in the table never add up to more than the bandwidth of the mode times the configured
    factor, and every stream in the table belongs to a station of the session.  No operation has
    undefined behaviour.  Requests for less than 1 Mbit/s without a service interval are excluded,
    and the table of stations has at most 255 entries. *)
Theorem admitted_bandwidth_bounded frag sess os s p m : at_sess s sess p m -> qos_ok p -> size (dphHashTable p) < 256 ->
  adm_type s = WNI_CFG_ADMIT_POLICY_BW_FACTOR -> Forall (op_ok sess) os ->
  runs (_ <- limAdmitControlInit ;; exec_ops frag sess os) s (fun _ s' =>
    total_rate (tspecInfo s') <= u32 ((if gLimPhyMode p =? WNI_CFG_PHY_MODE_11B then LIM_TOTAL_BW_11B else LIM_TOTAL_BW_11A) * bw_factor s)
    /\ exists p' m', at_sess s' sess p' m' /\ Forall (known m') (tspecInfo s')).
Proof.
  intros Hs Hq H256 Ht Hos. pose proof (aget_Some_range _ _ _ (proj1 Hs)) as [H0 _]. unfold limAdmitControlInit. do 4 mstep. destruct (init_facts s) as (Hok & _ & Htot & Hkn).
  set (s0 := set_tspecInfo _ s) in *. pose proof (avail_range s p) as Hav.
  assert (Hw : within sess p s0 m).
  { split; [done| |done|done|rewrite Htot; exact (proj1 Hav)]. exists (dphHashTable p). by rewrite set_table_id. }
  assert (Heq : avail s0 p = u32 ((if gLimPhyMode p =? WNI_CFG_PHY_MODE_11B then LIM_TOTAL_BW_11B else LIM_TOTAL_BW_11A) * bw_factor s)).
  { unfold avail, limGetAvailableBw. by destruct (gLimPhyMode p =? WNI_CFG_PHY_MODE_11B), (gLimPhyMode p =? WNI_CFG_PHY_MODE_11A). }
  rewrite <- Heq. by apply (exec_ops_within frag sess os H0 Hos p m s0 _ Hw eq_refl).
Qed.

(** C14.  The table of streams is a finite map of at most 15 entries from streams (station,
    direction, identifier) to the address and the specification they were added with: from an
    empty table every sequence of additions of streams that are not in it at the time, deletions,
    deletions of all streams of a station and searches answers what the map answers, a search
    with what is stored, and the entries in use at the end are the entries of the map.  (Adding a
    stream that is in the table is [update_overwrites_another_stream].) *)
Theorem streams_refine_map os s : tab_ops_ok (maxStation s) os ∅ ->
  runs (_ <- limAdmitControlInit ;; tab_execs os) s (fun rs s' =>
    rs = a_results (maxStation s) os ∅ /\ omap stream (tspecInfo s') ≡ₚ map_to_list (a_execs (maxStation s) os ∅)).
Proof.
  intros Hos. unfold limAdmitControlInit. do 4 mstep. destruct (init_facts s) as ([Hl _] & Hrep & _).
  by apply (tab_execs_refine os _ ∅ Hl Hrep).
Qed.

(** C15.  A request with a service interval is decided as follows: it is granted exactly when
    the same specification is not in the table, it is well formed (EDCA, with a size, a rate, a
    surplus and a minimum rate the mode supports), the policy admits it and, where an entry is
    asked for, the station is valid and uses QoS, its id is in range and an entry can be had.
    Then, and only then, an entry is written, whose index is reported. *)
Theorem admission_decides s sess p m addr ts aid alloc want_sch : tab_ok s -> at_sess s sess p m -> qos_ok p -> 0 <= aid ->
  has_interval ts = true ->
  runs (limAdmitControlAddTS addr ts aid alloc want_sch sess) s (fun '(r, sch, ix) s' =>
    (r = eSIR_SUCCESS <-> duplicate s alloc addr aid ts = false /\ well_formed p ts = true /\ policy_admits s p m ts = true
       /\ (alloc = true -> station_ok p m aid = true /\ aid < maxStation s /\ is_Some (ts_slot s aid ts)))
    /\ (if alloc && bool_decide (r = eSIR_SUCCESS) then exists k i, ts_slot s aid ts = Some k /\ ix = Some i /\ s' = put s k (stream_entry i addr aid ts)
        else ix = None /\ s' = s)
    /\ (r = eSIR_SUCCESS -> want_sch = true -> sch = Some (make_schedule ts (interval ts)))).
Proof.
  intros Hok Hs Hq Ha Hint. eapply limAdmitControlAddTS_spec; [done..|]. rewrite Hint. cbn [negb].
  destruct (duplicate s alloc addr aid ts), (well_formed p ts), (policy_admits s p m ts); cbn [orb negb]; unfold no_entry;
    try (split; [naive_solver|split; [by destruct alloc|done]]).
  cbv zeta. destruct alloc; cbn [negb].
  2: { split; [naive_solver|split; [done|by destruct want_sch]]. }
  destruct (station_ok p m aid); cbn [negb orb]; [|split; [naive_solver|done]].
  destruct (Z.leb_spec (maxStation s) aid); [|destruct (ts_slot s aid ts) as [k|]].
  - split; [|done]. split; [done|]. intros (_ & _ & _ & Hal). destruct (Hal eq_refl) as (_ & Hlt & _). lia.
  - intros Hk. split; [split; [intros _; by split_and!|done]|]. split; [|by intros _ ->].
    rewrite bool_decide_eq_true_2 by done. cbn. eauto 6.
  - split; [|done]. split; [done|]. intros (_ & _ & _ & Hal). by destruct (Hal eq_refl) as (_ & _ & [? ?]).
Qed.

Lemma undef_bnd {S A B} (d : M S A) (k : A -> M S B) (x : S) : runs d x (fun a x' => k a x' = None) -> mbnd d k x = None.
Proof. unfold runs, mbnd. destruct (d x) as [[a x']|]; [done|by intros []]. Qed.

(** C16.  A well formed request without a service interval is never granted, although the code
    computes one: for rates from 1 Mbit/s on the computation is reported as a failure, below it
    divides by zero.  The request comes from the station, with the association request. *)
Theorem no_interval_is_never_admitted s sess p m addr ts aid alloc want_sch : tab_ok s -> at_sess s sess p m -> qos_ok p -> 0 <= aid ->
  has_interval ts = false -> well_formed p ts = true -> duplicate s alloc addr aid ts = false ->
  (1000000 <= meanDataRate ts -> runs (limAdmitControlAddTS addr ts aid alloc want_sch sess) s (fun r s' => r = (eSIR_FAILURE, None, None) /\ s' = s))
  /\ (0 <= meanDataRate ts < 1000000 -> limAdmitControlAddTS addr ts aid alloc want_sch sess s = None).
Proof.
  intros Hok Hs Hq Ha Hint Hwf Hd. split; intros Hr.
  - eapply limAdmitControlAddTS_spec; [done..|]. by rewrite Hint, Hwf, Hd.
  - unfold limAdmitControlAddTS. apply undef_bnd.
    assert (Hdup : runs (if alloc then limTspecFindByAssocId aid ts else limTspecFindByStaAddr addr ts) s (fun (r : option Z) s' =>
      s' = s /\ bool_decide (is_Some r) = false)).
    { rewrite <- Hd. unfold duplicate. destruct alloc; apply search_spec; by destruct Hok. }
    eapply runs_mono; [exact Hdup|]. intros [j|] s1 [-> Hno]; [by rewrite bool_decide_eq_true_2 in Hno|]. cbn beta iota.
    apply undef_bnd. eapply limValidateTspec_spec; [apply Hs|]. rewrite Hwf, succeeded. unfold limCalculateSvcInt. fold (has_interval ts).
    rewrite Hint. unfold well_formed in Hwf. rewrite !andb_true_iff, !negb_true_iff in Hwf. destruct Hwf as (((((_ & Hn) & Hm) & _) & _) & _).
    rewrite Hn, Hm. cbn [negb]. by rewrite Z.div_small by lia.
Qed.

(** C17.  The update of a stream overwrites another one: when a stream is added that is in the
    table, but not in its first entry, the first entry is overwritten.  The stream that was there
    is lost, the old specification of the added stream stays, and both of its specifications
    count against the bandwidth. *)
Theorem update_overwrites_another_stream A s addr aid ts i e0 k0 v0 : tab_ok s -> rep A (tspecInfo s) -> aid < maxStation s ->
  find_stream s aid (tsinfo ts) = Some i -> aget (tspecInfo s) 0 = Some e0 -> stream e0 = Some (k0, v0) -> k0 <> key_of aid (tsinfo ts) ->
  runs (limTspecAdd addr aid ts) s (fun r s' => r = Some 0 /\ aget (tspecInfo s') i = aget (tspecInfo s) i
    /\ find_stream s' aid (tsinfo ts) = Some 0
    /\ find_stream s' (fst (fst k0)) (tsinfo (snd v0)) = None
    /\ total_rate (tspecInfo s') = total_rate (tspecInfo s) - rate e0 + meanDataRate ts).
Proof.
  intros [Hl _] Hrep Haid Hfi He0 Hs0 Hk. apply limTspecAdd_spec; [done|]. rewrite (proj2 (Z.leb_gt _ _)) by done. unfold ts_slot. rewrite Hfi.
  intros H0. set (e := stream_entry _ addr aid ts). pose proof (aget_Some_range _ _ _ He0) as Hr0.
  pose proof (rep_find_entry A s aid (tsinfo ts) Hrep) as Hf. rewrite Hfi in Hf. destruct Hf as (ei & vi & Hei & Hsi & Hvi).
  assert (Hi0 : i <> 0) by (intros ->; apply Hk; congruence).
  pose proof He0 as (pre & post & Htab & Hupd & Hpre)%split_entry. destruct pre; [|cbn in Hpre; lia]. cbn [app] in Htab, Hupd.
  split_and!; [done| | | |].
  - cbn. rewrite aget_upd by done. by rewrite decide_False by lia.
  - unfold find_stream, first_at. cbn. rewrite Hupd. cbn. replace (is_stream aid (tsinfo ts) e) with true; [done|].
    symmetry. apply is_stream_key. by exists (addr, ts).
  - assert (Hk0 : key_of (fst (fst k0)) (tsinfo (snd v0)) = k0).
    { unfold stream in Hs0. destruct (inuse e0); [|done]. by injection Hs0 as <- <-. }
    apply first_from_None. rewrite Forall_forall. intros x Hx. destruct (is_stream _ _ x) eqn:Hxs; [exfalso|done].
    apply is_stream_key in Hxs as [v Hxs]. rewrite Hk0 in Hxs. cbn [tspecInfo put set_tspecInfo] in Hx. rewrite Hupd in Hx.
    apply elem_of_cons in Hx as [->|Hx]; [apply Hk; unfold e, stream in Hxs; cbn in Hxs; congruence|].
    pose proof (NoDup_fst_map_to_list A) as Hnd. unfold rep in Hrep. rewrite <- Hrep, Htab in Hnd. cbn in Hnd. rewrite Hs0 in Hnd.
    cbn in Hnd. apply NoDup_cons in Hnd as [Hnin _]. apply Hnin. apply list_elem_of_fmap. exists (k0, v). split; [done|].
    apply list_elem_of_omap. eauto.
  - cbn. rewrite (total_upd _ _ _ _ He0). unfold rate at 2. done.
Qed.

(** ** Examples *)

Definition ex_tspec (aid_rate dir id svc : Z) : tSirMacTspecIE :=
  {| ie_type := 0; ie_length := 55;
     tsinfo := {| burstSizeDefn := 0; tfc_reserved := 0; trafficType := 1; tsid := id; direction := dir;
                  accessPolicy := 1; aggregation := 0; psb := 1; userPrio := 6; ackPolicy := 0; schedule := 0; rsvd := 0 |};
     nomMsduSz := 200; maxMsduSz := 1500; minSvcInterval := svc; maxSvcInterval := svc; inactInterval := 0;
     suspendInterval := 0; svcStartTime := 0; minDataRate := 0; meanDataRate := aid_rate; peakDataRate := 0;
     maxBurstSz := 0; delayBound := 0; minPhyRate := 6000000; surplusBw := 9000; mediumTime := 0 |}.
Definition ex_sess : tPESession :=
  {| s_valid := true; smeSessionId := 4; transactionId := 7; bssId := [2;2;2;2;2;2]; is11Rconnection := false;
     gLimPhyMode := 2; dphHashTable := ex_table2; sta_qos := [(false, false); (true, false); (true, false)] |}.
Definition ex_lim (tab : list tLimTspecInfo) : ST :=
  {| tspecInfo := tab; adm_type := WNI_CFG_ADMIT_POLICY_BW_FACTOR; bw_factor := 1; maxStation := 10; gpSession := [ex_sess];
     isRoamOffloadEnabled := false; gLimAddtsReq := (0, 0); gLimProcessDefdMsgs := true;
     cfg := {| gCfgStatus := 0; gCfg_set := false; gCfgEntry := []; gCfgIBufMin := []; gCfgIBufMax := []; gCfgIBuf := []; gCfgSBuf := [];
               gSBuffer := []; p_str_data := []; gLogLevel := None; posted := []; host_msgs := []; allocs := [] |};
     bodies := 0; sent := [] |}.
Definition ex_addr1 : list Z := [1;2;3;4;5;6].
Definition ex_addr2 : list Z := [6;5;4;3;2;1].
Definition ex_map : gmap (list Z) Z := <[ex_addr2 := 2]> {[ ex_addr1 := 1 ]}.
Definition ex_empty : ST := ex_lim (replicate 15 zero_entry).

Lemma ex_at tab : at_sess (ex_lim tab) 0 ex_sess ex_map.
Proof. split; [done|]. exact ex_table2_rep. Qed.

(** The second request does not fit beside the first one, but does after that station left. *)
Definition ex_reqs : list op :=
  [Add_ts ex_addr1 (ex_tspec 30000000 0 1 20) 1 true true; Add_ts ex_addr2 (ex_tspec 30000000 0 1 20) 2 true true;
   Leave ex_addr1; Add_ts ex_addr2 (ex_tspec 30000000 0 1 20) 2 true true; Delete_ts 2 (tsinfo (ex_tspec 0 1 1 0));
   Add_ts ex_addr2 (ex_tspec 2000000 0 2 0) 2 true true;
   Hal_rsp (Some {| a_staIdx := 77; a_tspecIdx := 0; a_tspec := ex_tspec 30000000 0 1 20; a_sessionId := 0; a_sme_session_id := 4;
     a_tsm_interval := 0; a_setRICparams := false; a_status_ok := false |})].

Lemma admitted_bandwidth_bounded_witness :
  runs (_ <- limAdmitControlInit ;; exec_ops None 0 ex_reqs) ex_empty (fun _ s' => total_rate (tspecInfo s') <= 54000000)
  /\ (fun r => total_rate (tspecInfo r.2)) <$> exec_ops None 0 (take 2 ex_reqs) ex_empty = Some 30000000
  /\ (fun r => aget (tspecInfo r.2) 0) <$> exec_ops None 0 ex_reqs ex_empty
     = Some (Some (stream_entry 0 ex_addr2 2 (ex_tspec 30000000 0 1 20))).
Proof.
  split; [|split; vm_compute; reflexivity].
  eapply runs_mono; [apply (admitted_bandwidth_bounded None 0 ex_reqs ex_empty ex_sess ex_map (ex_at _))|].
  - reflexivity.
  - reflexivity.
  - reflexivity.
  - unfold ex_reqs. repeat apply Forall_cons_2; try apply Forall_nil_2.
    all: lazymatch goal with
      | |- op_ok _ (Add_ts _ _ _ _ _) => split; [zcompute|split; [split; zcompute|first [by left|by right]]]
      | |- op_ok _ (Hal_rsp _) => by intros ? [= <-]
      | _ => by zcompute
      end.
  - intros [] s' [Hle _]. exact Hle.
Defined.

Definition ex_tab_ops : list tab_op :=
  [T_add ex_addr1 1 (ex_tspec 1000000 0 1 20); T_add ex_addr1 1 (ex_tspec 2000000 1 1 20); T_add ex_addr2 2 (ex_tspec 1000000 0 1 20);
   T_find 1 (tsinfo (ex_tspec 0 1 1 0)); T_del 1 (tsinfo (ex_tspec 0 0 1 0)); T_find 1 (tsinfo (ex_tspec 0 0 1 0));
   T_del_sta 1; T_find 1 (tsinfo (ex_tspec 0 1 1 0)); T_find 2 (tsinfo (ex_tspec 0 0 1 0))].
Lemma streams_refine_map_witness :
  runs (_ <- limAdmitControlInit ;; tab_execs ex_tab_ops) ex_empty (fun rs _ =>
    rs = [R_ok true; R_ok true; R_ok true; R_found (Some (ex_addr1, ex_tspec 2000000 1 1 20)); R_ok true; R_found None;
          R_ok true; R_found None; R_found (Some (ex_addr2, ex_tspec 1000000 0 1 20))]).
Proof.
  eapply runs_mono; [apply (streams_refine_map ex_tab_ops ex_empty)|].
  - vm_compute. repeat split.
  - intros rs s' [-> _]. vm_compute. reflexivity.
Defined.

Lemma admission_decides_witness :
  runs (limAdmitControlAddTS ex_addr1 (ex_tspec 30000000 0 1 20) 1 true true 0) ex_empty (fun '(r, sch, ix) _ =>
    r = eSIR_SUCCESS /\ sch = Some (make_schedule (ex_tspec 30000000 0 1 20) 20)).
Proof.
  eapply runs_mono; [apply (admission_decides ex_empty 0 ex_sess ex_map ex_addr1 (ex_tspec 30000000 0 1 20) 1 true true)|].
  - split; [reflexivity|]. apply Forall_replicate. split; zcompute.
  - apply ex_at.
  - reflexivity.
  - lia.
  - reflexivity.
  - intros [[r sch] ix] s' (Hiff & _ & Hsch). assert (Hr : r = eSIR_SUCCESS).
    { apply Hiff. repeat split; vm_compute; try reflexivity. eauto. }
    split; [exact Hr|]. exact (Hsch Hr eq_refl).
Defined.

Lemma no_interval_is_never_admitted_witness :
  limAdmitControlAddTS ex_addr1 (ex_tspec 500000 0 1 0) 0 false false 0 ex_empty = None
  /\ runs (limAdmitControlAddTS ex_addr1 (ex_tspec 2000000 0 1 0) 0 false false 0) ex_empty (fun r _ => r = (eSIR_FAILURE, None, None)).
Proof.
  assert (Hok : tab_ok ex_empty) by (split; [reflexivity|]; apply Forall_replicate; split; zcompute).
  split.
  - apply (no_interval_is_never_admitted ex_empty 0 ex_sess ex_map ex_addr1 (ex_tspec 500000 0 1 0) 0 false false Hok (ex_at _));
      [reflexivity|lia|reflexivity|reflexivity|reflexivity|zcompute].
  - eapply runs_mono; [apply (no_interval_is_never_admitted ex_empty 0 ex_sess ex_map ex_addr1 (ex_tspec 2000000 0 1 0) 0 false false Hok (ex_at _));
      [reflexivity|lia|reflexivity|reflexivity|reflexivity|zcompute]|]. intros r s' [-> _]. reflexivity.
Defined.

(** Station 1's stream is lost when station 2 changes its own. *)
Definition ex_two : ST :=
  ex_lim ([stream_entry 0 ex_addr1 1 (ex_tspec 1000000 0 1 20); stream_entry 1 ex_addr2 2 (ex_tspec 1000000 0 1 20)] ++ replicate 13 zero_entry).
Lemma update_overwrites_another_stream_witness :
  runs (limTspecAdd ex_addr2 2 (ex_tspec 5000000 0 1 20)) ex_two (fun r s' => r = Some 0 /\ find_stream s' 1 (tsinfo (ex_tspec 0 0 1 0)) = None).
Proof.
  eapply runs_mono; [eapply (update_overwrites_another_stream
    (<[(1, 0, 1) := (ex_addr1, ex_tspec 1000000 0 1 20)]> {[ (2, 0, 1) := (ex_addr2, ex_tspec 1000000 0 1 20) ]}) ex_two)|].
  - split; [reflexivity|]. repeat (apply Forall_cons; split; [split; zcompute|]). by constructor.
  - unfold rep. rewrite map_to_list_insert by reflexivity. rewrite map_to_list_singleton. reflexivity.
  - zcompute.
  - vm_compute. reflexivity.
  - vm_compute. reflexivity.
  - reflexivity.
  - discriminate.
  - intros r s' (-> & _ & _ & Hno & _). split; [reflexivity|]. exact Hno.
Defined.
