(* ===== verification/CopyEngine.v ===== *)
(** * Copy engines

    [CORE/SERVICES/HIF/PCIe/copy_engine.c]: the two descriptor rings of a copy engine, which
    the host and the device share.  [CopyEngineInv] relates the rings to queues,
    [CopyEngineProps] has the theorems.

    The state of an engine has its rings and the index registers; the device moves the read
    indices and fills received descriptors ([CopyEngineInv] has its steps).  The workaround of
    [hif_pci_war1], which is 0, and the history of events are left out. *)

From S2P Require Import Prelude.

Local Open Scope c_scope.

Definition A_OK : Z := 0.
Definition A_ERROR : Z := -1.
Definition ENOMEM : Z := 12.
Definition A_NO_RESOURCE : Z := 22.
Definition CE_HTT_H2T_MSG : Z := 4.

Definition CE_SEND_FLAG_SWAP_DISABLE : Z := 1.
Definition CE_SEND_FLAG_GATHER : Z := 0x00010000.
Definition CE_RECV_FLAG_SWAPPED : Z := 1.
Definition CE_ATTR_BYTE_SWAP_DATA : Z := 2.
Definition CE_SENDLIST_ITEMS_MAX : Z := 12.
Definition CE_SENDLIST_ITEM_CTXT : Z := 0xcecebeef.
Definition CE_HW_INDEX_LINK_DOWN : Z := 0xFFFFFFFF.
Definition CE_TXRX_COMP_CHECK_THRESHOLD : Z := 20.
(** Without the allocator's debugging *)
Definition MAX_NUM_OF_RECEIVES : Z := 1000.

(** ** Rings *)

(** The bit fields of a descriptor with their widths *)
Record desc_info := { nbytes : Z; gather : bool; byte_swap : bool; meta_data : Z }. (* 16, 1, 1, 14 *)
Record CE_src_desc := { src_ptr : Z; src_info : desc_info }.
Record CE_dest_desc := { dest_ptr : Z; info : desc_info }.
Definition mk_info (nbytes : Z) (gather byte_swap : bool) (meta_data : Z) : desc_info :=
  {| nbytes := u16 nbytes; gather := gather; byte_swap := byte_swap; meta_data := meta_data mod 2 ^ 14 |}.

(** [base] are the descriptors the device reads, [shadow] their copy; a context is 0 for NULL. *)
Record CE_ring_state (D : Type) := Ring {
  nentries : Z;
  nentries_mask : Z;
  sw_index : Z;
  write_index : Z;
  hw_index : Z;
  base : list D;
  shadow : list D;
  per_transfer_context : list Z
}.
Arguments Ring {D}.
Arguments nentries {D}.
Arguments nentries_mask {D}.
Arguments sw_index {D}.
Arguments write_index {D}.
Arguments hw_index {D}.
Arguments base {D}.
Arguments shadow {D}.
Arguments per_transfer_context {D}.

Section Ring.
Context {D : Type}.
Implicit Types r : CE_ring_state D.
Definition set_index (sw wr hw : Z) r : CE_ring_state D :=
  Ring (nentries r) (nentries_mask r) sw wr hw (base r) (shadow r) (per_transfer_context r).
Definition set_sw_index (v : Z) r : CE_ring_state D := set_index v (write_index r) (hw_index r) r.
Definition set_write_index (v : Z) r : CE_ring_state D := set_index (sw_index r) v (hw_index r) r.
Definition set_hw_index (v : Z) r : CE_ring_state D := set_index (sw_index r) (write_index r) v r.
Definition set_slots (b s : list D) (c : list Z) r : CE_ring_state D :=
  Ring (nentries r) (nentries_mask r) (sw_index r) (write_index r) (hw_index r) b s c.
Definition set_base (v : list D) r : CE_ring_state D := set_slots v (shadow r) (per_transfer_context r) r.
Definition set_shadow (v : list D) r : CE_ring_state D := set_slots (base r) v (per_transfer_context r) r.
Definition set_context (v : list Z) r : CE_ring_state D := set_slots (base r) (shadow r) v r.
End Ring.

(** Ring arithmetic; the differences are of [int]s. *)
Definition CE_RING_DELTA (nentries_mask fromidx toidx : Z) : Z := Z.land (u32 (s32 toidx - s32 fromidx)) nentries_mask.
Definition CE_RING_IDX_INCR (nentries_mask idx : Z) : Z := Z.land (u32 (idx + 1)) nentries_mask.

(** ** An engine *)

(** A call of a registered callback, with its arguments, a reset of the target, or the clearing of
    the engine's interrupt status *)
Inductive ce_call :=
| SendDone (context transfer_context buffer nbytes transfer_id sw_idx hw_idx : Z)
| RecvDone (context transfer_context buffer nbytes transfer_id flags : Z)
| TargetReset
| IntStatusClear.

(** [accesses]: whether the next requests for access to the target are granted (power save,
    link suspended); further ones are.  The registers are of the device. *)
Record CE_state := {
  src_ring : option (CE_ring_state CE_src_desc);
  dest_ring : option (CE_ring_state CE_dest_desc);
  attr_flags : Z;
  send_cb : bool;          (* registered *)
  recv_cb : bool;
  send_context : Z;
  recv_context : Z;
  rx_pending : bool;
  CE_id : Z;
  num_sends_allowed : Z;   (* of the pipe *)
  force_break : bool;      (* of the device *)
  receive_count : Z;       (* of the device *)
  SR_WR_INDEX : Z;
  CURRENT_SRRI : Z;
  DST_WR_INDEX : Z;
  CURRENT_DRRI : Z;
  accesses : list bool;
  ce_ring_delta_fail_count : Z;
  calls : list ce_call
}.
#[local] Abbreviation ST := CE_state.

Definition set_rings (s' : option (CE_ring_state CE_src_desc)) (d : option (CE_ring_state CE_dest_desc)) (s : ST) : ST :=
  {| src_ring := s'; dest_ring := d; attr_flags := attr_flags s; send_cb := send_cb s; recv_cb := recv_cb s;
     send_context := send_context s; recv_context := recv_context s; rx_pending := rx_pending s;
     CE_id := CE_id s; num_sends_allowed := num_sends_allowed s; force_break := force_break s;
     receive_count := receive_count s;
     SR_WR_INDEX := SR_WR_INDEX s; CURRENT_SRRI := CURRENT_SRRI s; DST_WR_INDEX := DST_WR_INDEX s;
     CURRENT_DRRI := CURRENT_DRRI s; accesses := accesses s; ce_ring_delta_fail_count := ce_ring_delta_fail_count s;
     calls := calls s |}.
Definition set_regs (sw sr dw dr : Z) (s : ST) : ST :=
  {| src_ring := src_ring s; dest_ring := dest_ring s; attr_flags := attr_flags s; send_cb := send_cb s; recv_cb := recv_cb s;
     send_context := send_context s; recv_context := recv_context s; rx_pending := rx_pending s;
     CE_id := CE_id s; num_sends_allowed := num_sends_allowed s; force_break := force_break s;
     receive_count := receive_count s;
     SR_WR_INDEX := sw; CURRENT_SRRI := sr; DST_WR_INDEX := dw;
     CURRENT_DRRI := dr; accesses := accesses s; ce_ring_delta_fail_count := ce_ring_delta_fail_count s;
     calls := calls s |}.
Definition set_rest (rx : bool) (allowed : Z) (brk : bool) (acc : list bool) (fails : Z) (cl : list ce_call) (s : ST) : ST :=
  {| src_ring := src_ring s; dest_ring := dest_ring s; attr_flags := attr_flags s; send_cb := send_cb s; recv_cb := recv_cb s;
     send_context := send_context s; recv_context := recv_context s; rx_pending := rx;
     CE_id := CE_id s; num_sends_allowed := allowed; force_break := brk;
     receive_count := receive_count s;
     SR_WR_INDEX := SR_WR_INDEX s; CURRENT_SRRI := CURRENT_SRRI s; DST_WR_INDEX := DST_WR_INDEX s;
     CURRENT_DRRI := CURRENT_DRRI s; accesses := acc; ce_ring_delta_fail_count := fails; calls := cl |}.
Definition set_accesses (v : list bool) (s : ST) : ST := set_rest (rx_pending s) (num_sends_allowed s) (force_break s) v (ce_ring_delta_fail_count s) (calls s) s.
Definition incr_fails (s : ST) : ST := set_rest (rx_pending s) (num_sends_allowed s) (force_break s) (accesses s) (ce_ring_delta_fail_count s + 1) (calls s) s.
Definition add_call (v : ce_call) (s : ST) : ST := set_rest (rx_pending s) (num_sends_allowed s) (force_break s) (accesses s) (ce_ring_delta_fail_count s) (calls s ++ [v]) s.
Definition set_rx_pending (v : bool) (s : ST) : ST := set_rest v (num_sends_allowed s) (force_break s) (accesses s) (ce_ring_delta_fail_count s) (calls s) s.
Definition set_receives (n : Z) (brk : bool) (s : ST) : ST :=
  {| src_ring := src_ring s; dest_ring := dest_ring s; attr_flags := attr_flags s; send_cb := send_cb s; recv_cb := recv_cb s;
     send_context := send_context s; recv_context := recv_context s; rx_pending := rx_pending s;
     CE_id := CE_id s; num_sends_allowed := num_sends_allowed s; force_break := brk;
     receive_count := n;
     SR_WR_INDEX := SR_WR_INDEX s; CURRENT_SRRI := CURRENT_SRRI s; DST_WR_INDEX := DST_WR_INDEX s;
     CURRENT_DRRI := CURRENT_DRRI s; accesses := accesses s; ce_ring_delta_fail_count := ce_ring_delta_fail_count s; calls := calls s |}.
Definition allow_send (s : ST) : ST := set_rest (rx_pending s) (num_sends_allowed s + 1) (force_break s) (accesses s) (ce_ring_delta_fail_count s) (calls s) s.

(** Dereferencing and changing a ring *)
Definition get_src : M ST (CE_ring_state CE_src_desc) := s <- mget ;; oget (src_ring s).
Definition get_dest : M ST (CE_ring_state CE_dest_desc) := s <- mget ;; oget (dest_ring s).
Definition upd_src (f : CE_ring_state CE_src_desc -> CE_ring_state CE_src_desc) : M ST unit :=
  r <- get_src ;; modify (fun s => set_rings (Some (f r)) (dest_ring s) s).
Definition upd_dest (f : CE_ring_state CE_dest_desc -> CE_ring_state CE_dest_desc) : M ST unit :=
  r <- get_dest ;; modify (fun s => set_rings (src_ring s) (Some (f r)) s).

Definition CE_SRC_RING_WRITE_IDX_SET (n : Z) : M ST unit :=
  modify (fun s => set_regs n (CURRENT_SRRI s) (DST_WR_INDEX s) (CURRENT_DRRI s) s).
Definition CE_DEST_RING_WRITE_IDX_SET (n : Z) : M ST unit :=
  modify (fun s => set_regs (SR_WR_INDEX s) (CURRENT_SRRI s) n (CURRENT_DRRI s) s).
Definition CE_SRC_RING_READ_IDX_GET : M ST Z := gets CURRENT_SRRI.
Definition CE_DEST_RING_READ_IDX_GET : M ST Z := gets CURRENT_DRRI.

(** [A_TARGET_ACCESS_BEGIN] and [_END] *)
Definition target_access : M ST bool :=
  s <- mget ;;
  match accesses s with
  | [] => mreturn true
  | b :: acc => modify (set_accesses acc) ;; mreturn b
  end.
(** The variants that return from the function with -1 *)
Definition A_TARGET_ACCESS_RET {A} (fail : A) (k : M ST A) : M ST A :=
  ok <- target_access ;; if ok : bool then k else mreturn fail.

Definition has_bit (flags bit : Z) : bool := negb (Z.land flags bit =? 0).

(** ** Sending *)

Definition CE_send_nolock (transfer_context buffer len transfer_id flags : Z) : M ST Z :=
  r <- get_src ;;
  s <- mget ;;
  let mask := nentries_mask r in
  A_TARGET_ACCESS_RET (-1) (
    if CE_RING_DELTA mask (write_index r) (u32 (sw_index r - 1)) =? 0 then
      modify incr_fails ;;
      A_TARGET_ACCESS_RET (-1) (mreturn A_ERROR)
    else
      let d := {| src_ptr := buffer;
                  src_info := mk_info len (has_bit flags CE_SEND_FLAG_GATHER)
                    (has_bit (attr_flags s) CE_ATTR_BYTE_SWAP_DATA && negb (has_bit flags CE_SEND_FLAG_SWAP_DISABLE)) transfer_id |} in
      sh <- oget (aset (shadow r) (write_index r) d) ;; upd_src (set_shadow sh) ;;
      b <- oget (aset (base r) (write_index r) d) ;; upd_src (set_base b) ;;
      c <- oget (aset (per_transfer_context r) (write_index r) transfer_context) ;; upd_src (set_context c) ;;
      let wr := CE_RING_IDX_INCR mask (write_index r) in
      (if gather (src_info d) then mreturn tt else CE_SRC_RING_WRITE_IDX_SET wr) ;;
      upd_src (set_write_index wr) ;;
      A_TARGET_ACCESS_RET (-1) (mreturn A_OK)).

(** The lock is the caller's then. *)
Definition CE_send (transfer_context buffer len transfer_id flags : Z) : M ST Z :=
  CE_send_nolock transfer_context buffer len transfer_id flags.

(** Lists of buffers to send as one; [num_items] is the length. *)
Record CE_sendlist_item := { item_data : Z; item_nbytes : Z; item_flags : Z }.
Definition CE_sendlist_init : list CE_sendlist_item := [].
Definition CE_sendlist_buf_add (sl : list CE_sendlist_item) (buffer len flags : Z) : Z * list CE_sendlist_item :=
  if CE_SENDLIST_ITEMS_MAX <=? Z.of_nat (length sl) then (A_NO_RESOURCE, sl)
  else (A_OK, sl ++ [{| item_data := buffer; item_nbytes := len; item_flags := flags |}]).

(** All but the last item; an assertion only prints. *)
Definition send_gathered (items : list CE_sendlist_item) (transfer_id : Z) : M ST unit :=
  mfor (seqZ 0 (Z.of_nat (length items) - 1)) (fun i =>
    item <- oget (aget items i) ;;
    _ <- CE_send_nolock CE_SENDLIST_ITEM_CTXT (item_data item) (item_nbytes item) transfer_id
           (Z.lor (item_flags item) CE_SEND_FLAG_GATHER) ;;
    mreturn tt).

(** With no items the loop would run to [UINT_MAX]. *)
Definition CE_sendlist_send (transfer_context : Z) (sl : list CE_sendlist_item) (transfer_id : Z) : M ST Z :=
  r <- get_src ;;
  let num_items := Z.of_nat (length sl) in
  massert (0 <? num_items) ;;
  if num_items <=? CE_RING_DELTA (nentries_mask r) (write_index r) (u32 (sw_index r - 1)) then
    send_gathered sl transfer_id ;;
    item <- oget (aget sl (num_items - 1)) ;;
    CE_send_nolock transfer_context (item_data item) (item_nbytes item) transfer_id (item_flags item)
  else mreturn (- ENOMEM).

Definition CE_send_entries_avail : M ST Z :=
  r <- get_src ;; mreturn (CE_RING_DELTA (nentries_mask r) (write_index r) (u32 (sw_index r - 1))).
Definition CE_send_entries_done : M ST Z :=
  r <- get_src ;; read_index <- CE_SRC_RING_READ_IDX_GET ;; mreturn (CE_RING_DELTA (nentries_mask r) (sw_index r) read_index).

(** What the completion functions write through the caller's pointers *)
Record completion := { per_CE_context : Z; transfer_ctx : Z; buf_ : Z; nbytes_ : Z; transfer_id_ : Z; sw_idx_ : Z; hw_idx_ : Z; flags_ : Z }.

Definition ce_idx_invalid {D} (r : CE_ring_state D) (idx : Z) : bool := nentries r <=? idx.

(** The descriptor at [sw] is reported, unless the device is still at it. *)
Definition take_send (sw read_index : Z) : M ST (option completion) :=
  if negb (read_index =? sw) && negb (read_index =? 0xffffffff) then
    r <- get_src ;;
    d <- oget (aget (shadow r) sw) ;;
    c <- oget (aget (per_transfer_context r) sw) ;;
    cs <- oget (aset (per_transfer_context r) sw 0) ;;
    upd_src (set_context cs) ;;
    upd_src (set_sw_index (CE_RING_IDX_INCR (nentries_mask r) sw)) ;;
    s <- mget ;;
    mreturn (Some {| per_CE_context := send_context s; transfer_ctx := c; buf_ := src_ptr d; nbytes_ := nbytes (src_info d);
                     transfer_id_ := meta_data (src_info d); sw_idx_ := sw; hw_idx_ := read_index; flags_ := 0 |})
  else mreturn None.

(** The result without its status: the completed transfer, or [None] for [A_ERROR] or a
    refused access. *)
Definition CE_completed_send_next_nolock : M ST (option completion) :=
  r <- get_src ;;
  let sw := sw_index r in
  if hw_index r =? sw then
    A_TARGET_ACCESS_RET None (
      read_index <- CE_SRC_RING_READ_IDX_GET ;;
      upd_src (set_hw_index read_index) ;;
      A_TARGET_ACCESS_RET None (
        if ce_idx_invalid r read_index then mreturn None else take_send sw read_index))
  else take_send sw (hw_index r).
Definition CE_completed_send_next : M ST (option completion) := CE_completed_send_next_nolock.

(** Takes back the oldest transfer, sent or not. *)
Definition CE_cancel_send_next : M ST (option completion) :=
  s <- mget ;;
  match src_ring s with
  | None => mreturn None
  | Some r =>
      let sw := sw_index r in
      if negb (write_index r =? sw) then
        d <- oget (aget (base r) sw) ;;
        c <- oget (aget (per_transfer_context r) sw) ;;
        cs <- oget (aset (per_transfer_context r) sw 0) ;;
        upd_src (set_context cs) ;;
        upd_src (set_sw_index (CE_RING_IDX_INCR (nentries_mask r) sw)) ;;
        mreturn (Some {| per_CE_context := send_context s; transfer_ctx := c; buf_ := src_ptr d; nbytes_ := nbytes (src_info d);
                         transfer_id_ := meta_data (src_info d); sw_idx_ := 0; hw_idx_ := 0; flags_ := 0 |})
      else mreturn None
  end.

(** ** Receiving *)

Definition CE_recv_buf_enqueue (recv_ctx buffer : Z) : M ST Z :=
  r <- get_dest ;;
  A_TARGET_ACCESS_RET (-1) (
    let wr := write_index r in
    if negb (CE_RING_DELTA (nentries_mask r) wr (u32 (sw_index r - 1)) =? 0) then
      old <- oget (aget (base r) wr) ;;
      let i := info old in
      b <- oget (aset (base r) wr {| dest_ptr := buffer; info := {| nbytes := 0; gather := gather i; byte_swap := byte_swap i; meta_data := meta_data i |} |}) ;;
      upd_dest (set_base b) ;;
      c <- oget (aset (per_transfer_context r) wr recv_ctx) ;; upd_dest (set_context c) ;;
      let wr' := CE_RING_IDX_INCR (nentries_mask r) wr in
      CE_DEST_RING_WRITE_IDX_SET wr' ;;
      upd_dest (set_write_index wr') ;;
      A_TARGET_ACCESS_RET (-1) (mreturn A_OK)
    else A_TARGET_ACCESS_RET (-1) (mreturn A_ERROR)).

Definition CE_recv_entries_avail : M ST Z :=
  r <- get_dest ;; mreturn (CE_RING_DELTA (nentries_mask r) (write_index r) (u32 (sw_index r - 1))).
Definition CE_recv_entries_done : M ST Z :=
  r <- get_dest ;; read_index <- CE_DEST_RING_READ_IDX_GET ;; mreturn (CE_RING_DELTA (nentries_mask r) (sw_index r) read_index).

(** A descriptor is done when the device has stored a length. *)
Definition CE_completed_recv_next_nolock : M ST (option completion) :=
  r <- get_dest ;;
  let sw := sw_index r in
  d <- oget (aget (base r) sw) ;;
  if nbytes (info d) =? 0 then mreturn None
  else
    let i := info d in
    b <- oget (aset (base r) sw {| dest_ptr := dest_ptr d; info := {| nbytes := 0; gather := gather i; byte_swap := byte_swap i; meta_data := meta_data i |} |}) ;;
    upd_dest (set_base b) ;;
    c <- oget (aget (per_transfer_context r) sw) ;;
    cs <- oget (aset (per_transfer_context r) sw 0) ;; upd_dest (set_context cs) ;;
    upd_dest (set_sw_index (CE_RING_IDX_INCR (nentries_mask r) sw)) ;;
    s <- mget ;;
    mreturn (Some {| per_CE_context := recv_context s; transfer_ctx := c; buf_ := dest_ptr d; nbytes_ := nbytes i; transfer_id_ := meta_data i;
                     sw_idx_ := 0; hw_idx_ := 0; flags_ := if byte_swap i then CE_RECV_FLAG_SWAPPED else 0 |}).
Definition CE_completed_recv_next : M ST (option completion) := CE_completed_recv_next_nolock.

(** Takes back the oldest buffer, filled or not. *)
Definition CE_revoke_recv_next : M ST (option completion) :=
  s <- mget ;;
  match dest_ring s with
  | None => mreturn None
  | Some r =>
      let sw := sw_index r in
      if negb (write_index r =? sw) then
        d <- oget (aget (base r) sw) ;;
        c <- oget (aget (per_transfer_context r) sw) ;;
        cs <- oget (aset (per_transfer_context r) sw 0) ;; upd_dest (set_context cs) ;;
        upd_dest (set_sw_index (CE_RING_IDX_INCR (nentries_mask r) sw)) ;;
        mreturn (Some {| per_CE_context := recv_context s; transfer_ctx := c; buf_ := dest_ptr d; nbytes_ := 0; transfer_id_ := 0;
                         sw_idx_ := 0; hw_idx_ := 0; flags_ := 0 |})
      else mreturn None
  end.

(** ** Servicing an engine *)

Definition ce_target_reset : M ST unit := modify (add_call TargetReset).

Definition ce_is_valid_entries (ring_delta : Z) : M ST bool :=
  hw <- CE_DEST_RING_READ_IDX_GET ;;
  r <- get_dest ;;
  if (ring_delta <? nentries_mask r) && negb (hw =? CE_HW_INDEX_LINK_DOWN) then mreturn true
  else if hw =? CE_HW_INDEX_LINK_DOWN then mreturn false
  else ce_target_reset ;; mreturn false.

(** What [HIF_PCI_CE_recv_data], the receive callback, does of it *)
Definition hif_max_num_receives_reached (count : Z) : bool := MAX_NUM_OF_RECEIVES <? count.
Definition count_receive : M ST unit :=
  s <- mget ;;
  let n := u32 (receive_count s + 1) in
  modify (set_receives n (if hif_max_num_receives_reached n then true else force_break s)).

Section Service.
(** The registered callbacks, called without the lock *)
Variables send_fn recv_fn : completion -> M ST unit.

(** What the device does from the clearing of its interrupt status to the checks that follow it *)
Variable device : M ST unit.
Definition CE_ENGINE_INT_STATUS_CLEAR : M ST unit := modify (add_call IntStatusClear) ;; device.

(** On the engine of HTT messages a completion only gives a send back to the pipe. *)
Definition send_done (c : completion) : M ST unit :=
  s <- mget ;;
  if negb (CE_id s =? CE_HTT_H2T_MSG) then
    modify (add_call (SendDone (per_CE_context c) (transfer_ctx c) (buf_ c) (nbytes_ c) (transfer_id_ c) (sw_idx_ c) (hw_idx_ c))) ;;
    send_fn c
  else modify allow_send.
Definition reap_sends : M ST unit :=
  r <- get_src ;;
  miter (Datatypes.S (Z.to_nat (nentries r))) (fun _ =>
    oc <- CE_completed_send_next_nolock ;;
    match oc with
    | Some c => send_done c ;; mreturn (inl tt)
    | None => mreturn (inr tt)
    end) tt.

(** A receive callback counts what it gets and forces a break when it is too much; this returns
    whether one did. *)
Definition reap_recvs : M ST bool :=
  miter (Z.to_nat (MAX_NUM_OF_RECEIVES + 2)) (fun _ =>
    oc <- CE_completed_recv_next_nolock ;;
    match oc with
    | Some c =>
        modify (add_call (RecvDone (per_CE_context c) (transfer_ctx c) (buf_ c) (nbytes_ c) (transfer_id_ c) (flags_ c))) ;;
        recv_fn c ;;
        s <- mget ;;
        if force_break s then mreturn (inr true) else mreturn (inl tt)
    | None => mreturn (inr false)
    end) tt.

Definition CE_per_engine_servicereap : M ST unit :=
  A_TARGET_ACCESS_RET tt (
    s <- mget ;;
    (if send_cb s then reap_sends else mreturn tt) ;;
    A_TARGET_ACCESS_RET tt (mreturn tt)).

(** The counters of the retries and whether packets are left; no watermark callback is ever
    registered.  The mode for testing the endpoint ping, which has no bound, is left out. *)
Definition service_round : Z * Z * bool -> M ST (Z * Z * bool + unit) := fun '(more_comp_cnt, more_snd_comp_cnt, is_pkt_pending) =>
  s <- mget ;;
  broken <- (if recv_cb s then reap_recvs else mreturn false) ;;
  if broken : bool then modify (set_rx_pending true) ;; CE_ENGINE_INT_STATUS_CLEAR ;; A_TARGET_ACCESS_RET (inr tt) (mreturn (inr tt))
  else
    (if send_cb s then reap_sends else mreturn tt) ;;
    CE_ENGINE_INT_STATUS_CLEAR ;;
    delta <- (if recv_cb s then CE_recv_entries_done else mreturn 0) ;;
    if negb (delta =? 0) && (more_comp_cnt <? CE_TXRX_COMP_CHECK_THRESHOLD) then
      mreturn (inl (more_comp_cnt + 1, more_snd_comp_cnt, is_pkt_pending))
    else
      let more_comp_cnt := if delta =? 0 then more_comp_cnt else more_comp_cnt + 1 in
      pending <- (if delta =? 0 then mreturn is_pkt_pending
                  else valid <- ce_is_valid_entries delta ;; mreturn (is_pkt_pending || valid)) ;;
      snd_done <- (if send_cb s then CE_send_entries_done else mreturn 0) ;;
      if negb (snd_done =? 0) && (more_snd_comp_cnt <? CE_TXRX_COMP_CHECK_THRESHOLD) then
        mreturn (inl (more_comp_cnt, more_snd_comp_cnt + 1, pending))
      else modify (set_rx_pending pending) ;; A_TARGET_ACCESS_RET (inr tt) (mreturn (inr tt)).
Definition CE_per_engine_service : M ST unit :=
  A_TARGET_ACCESS_RET tt (
    modify (set_receives 0 false) ;;
    miter 43 service_round (0, 0, false)).
End Service.

(** ** Setting a ring up *)

(** [CE_init] rounds the number of entries up; 0 stands for a failed assertion. *)
Definition roundup_pwr2 (n : Z) : Z :=
  if Z.land n (u32 (n - 1)) =? 0 then n
  else
    (fix go (i : nat) (test_pwr2 : Z) : Z :=
       match i with
       | O => 0
       | Datatypes.S i => if n <? test_pwr2 then test_pwr2 else go i (u32 (Z.shiftl test_pwr2 1))
       end) 29%nat 4.

(** The rings as [CE_init] sets them up, where the device has its indices; [mem] is the
    memory of the descriptors the allocator returns (that of the destination ring is cleared). *)
Definition init_src_ring (attr_nentries : Z) (mem sh : list CE_src_desc) : M ST unit :=
  let n := roundup_pwr2 attr_nentries in
  s <- mget ;;
  modify (set_rings (Some (Ring n (n - 1) (CURRENT_SRRI s) (SR_WR_INDEX s) (CURRENT_SRRI s) mem sh (replicate (Z.to_nat n) 0))) (dest_ring s)).
Definition null_dest_desc : CE_dest_desc := {| dest_ptr := 0; info := {| nbytes := 0; gather := false; byte_swap := false; meta_data := 0 |} |}.
Definition init_dest_ring (attr_nentries : Z) : M ST unit :=
  let n := roundup_pwr2 attr_nentries in
  s <- mget ;;
  modify (set_rings (src_ring s) (Some (Ring n (n - 1) (CURRENT_DRRI s) (DST_WR_INDEX s) 0 (replicate (Z.to_nat n) null_dest_desc) [] (replicate (Z.to_nat n) 0)))).
