(* ===== verification/CopyEngineInv.v ===== *)
(** * Copy engines: the rings as queues

    The device's steps, the relation of the two rings to queues of transfers and of posted
    buffers, and what every operation does to the queues. *)

From S2P Require Import Prelude CopyEngine.

Local Open Scope c_scope.

#[local] Abbreviation ST := CE_state.

(** ** Ring arithmetic *)

Lemma s32_mod_pow2 x k : 0 <= k <= 32 -> s32 x mod 2 ^ k = x mod 2 ^ k.
Proof.
  intros Hk. unfold s32. assert (Hd : (2 ^ k | 2 ^ 32)).
  { exists (2 ^ (32 - k)). rewrite <- Z.pow_add_r by lia. f_equal. lia. }
   rewrite Zminus_mod, Z.mod_mod_divide, <- Zminus_mod by done.
  f_equal. lia.
Qed.

Lemma u32_mod_pow2 x k : 0 <= k <= 32 -> u32 x mod 2 ^ k = x mod 2 ^ k.
Proof.
  intros Hk. unfold u32. assert (Hd : (2 ^ k | 2 ^ 32)).
  { exists (2 ^ (32 - k)). rewrite <- Z.pow_add_r by lia. f_equal. lia. }
   by rewrite Z.mod_mod_divide.
Qed.

Section Mask.
Context (k N : Z).
Context (Hk : 0 <= k <= 31) (HN : N = 2 ^ k).

Lemma N_range : 0 < N <= 2147483648.
Proof. rewrite HN. split; [apply Z.pow_pos_nonneg; lia|]. change 2147483648 with (2 ^ 31). apply Z.pow_le_mono_r; lia. Qed.

Lemma CE_RING_DELTA_mod from to : CE_RING_DELTA (N - 1) from to = (to - from) mod N.
Proof.
  unfold CE_RING_DELTA. rewrite HN, land_mask, u32_mod_pow2 by lia. rewrite Zminus_mod, !s32_mod_pow2, <- Zminus_mod by lia. done.
Qed.

Lemma CE_RING_IDX_INCR_mod i : CE_RING_IDX_INCR (N - 1) i = (i + 1) mod N.
Proof. unfold CE_RING_IDX_INCR. by rewrite HN, land_mask, u32_mod_pow2 by lia. Qed.

Lemma mod_add_same a b c : (a + b) mod N = (a + c) mod N -> 0 <= b < N -> 0 <= c < N -> b = c.
Proof.
  intros H Hb Hc. pose proof N_range. assert (Hz : (b - c) mod N = 0).
  { replace (b - c) with ((a + b) - (a + c)) by lia. rewrite Zminus_mod, H, Z.sub_diag. apply Z.mod_0_l. lia. }
  apply Z.mod_divide in Hz as [z Hz]; [|lia]. assert (z = 0) by (destruct (Z.lt_trichotomy z 0) as [?|[?|?]]; [nia|done|nia]). subst z. lia.
Qed.

(** Room: one slot stays free. *)
Lemma ring_room sw n : 0 <= sw < N -> 0 <= n < N ->
  CE_RING_DELTA (N - 1) ((sw + n) mod N) (u32 (sw - 1)) = N - 1 - n.
Proof.
  intros Hsw Hn. pose proof N_range. rewrite CE_RING_DELTA_mod. rewrite Zminus_mod, Z.mod_mod by lia.
  rewrite HN at 1. rewrite u32_mod_pow2 by lia. rewrite <- HN, <- Zminus_mod.
  replace (sw - 1 - (sw + n)) with (N - 1 - n + (-1) * N) by lia. rewrite Z.mod_add by lia. apply Z.mod_small. lia.
Qed.

Lemma ring_fill sw n : 0 <= sw < N -> 0 <= n < N -> CE_RING_DELTA (N - 1) sw ((sw + n) mod N) = n.
Proof.
  intros Hsw Hn. rewrite CE_RING_DELTA_mod, Zminus_mod, Z.mod_mod, <- Zminus_mod by lia.
  replace (sw + n - sw) with n by lia. apply Z.mod_small. lia.
Qed.

Lemma ring_next sw n : ((sw + 1) mod N + n) mod N = (sw + (n + 1)) mod N.
Proof. rewrite Z.add_mod_idemp_l by (pose proof N_range; lia). f_equal. lia. Qed.

Lemma ring_incr sw n : CE_RING_IDX_INCR (N - 1) ((sw + n) mod N) = (sw + (n + 1)) mod N.
Proof. rewrite CE_RING_IDX_INCR_mod, Z.add_mod_idemp_l by (pose proof N_range; lia). f_equal. lia. Qed.
End Mask.

(** ** The device *)

(** It takes [j] more of the descriptors it was told of. *)
Definition hw_send (j : Z) : M ST unit :=
  r <- get_src ;;
  modify (fun s => set_regs (SR_WR_INDEX s) ((CURRENT_SRRI s + j) mod nentries r) (DST_WR_INDEX s) (CURRENT_DRRI s) s).
(** It fills the next posted buffer. *)
Definition hw_recv (i : desc_info) : M ST unit :=
  r <- get_dest ;;
  s <- mget ;;
  d <- oget (aget (base r) (CURRENT_DRRI s)) ;;
  b <- oget (aset (base r) (CURRENT_DRRI s) {| dest_ptr := dest_ptr d; info := i |}) ;;
  upd_dest (set_base b) ;;
  modify (fun s => set_regs (SR_WR_INDEX s) (CURRENT_SRRI s) (DST_WR_INDEX s) ((CURRENT_DRRI s + 1) mod nentries r) s).

(** ** Queues *)

Record transfer := { t_ctx : Z; t_desc : CE_src_desc }.
Record rbuf := { r_ctx : Z; r_ptr : Z }.

(** [sq] are the transfers not yet reported, oldest first; the device knows of the first
    [s_pub] and has taken the first [s_done].  [rq] are the posted buffers, of which the
    device has filled as many as [r_done] says. *)
Record engine := { sq : list transfer; s_pub : Z; s_done : Z; rq : list rbuf; r_done : list desc_info }.

Definition len {A} (l : list A) : Z := Z.of_nat (length l).

(** [c] is the part of the taken ones the cached index knows of. *)
Definition src_at (N : Z) (e : engine) (s : ST) (r : CE_ring_state CE_src_desc) (c : Z) : Prop :=
  src_ring s = Some r /\ nentries r = N /\ nentries_mask r = N - 1 /\
  len (base r) = N /\ len (shadow r) = N /\ len (per_transfer_context r) = N /\
  0 <= sw_index r < N /\ write_index r = (sw_index r + len (sq e)) mod N /\
  0 <= c <= s_done e /\ hw_index r = (sw_index r + c) mod N /\
  SR_WR_INDEX s = (sw_index r + s_pub e) mod N /\ CURRENT_SRRI s = (sw_index r + s_done e) mod N /\
  forall i t, sq e !! i = Some t -> let at_ := (sw_index r + Z.of_nat i) mod N in
    aget (base r) at_ = Some (t_desc t) /\ aget (shadow r) at_ = Some (t_desc t) /\
    aget (per_transfer_context r) at_ = Some (t_ctx t).
Record src_rel (N : Z) (e : engine) (s : ST) : Prop := {
  sr_ring : exists r c, src_at N e s r c;
  sr_counts : s_done e <= s_pub e <= len (sq e) /\ len (sq e) < N
}.

Record dest_rel (N : Z) (e : engine) (s : ST) : Prop := {
  dr_ring : exists r, dest_ring s = Some r /\ nentries r = N /\ nentries_mask r = N - 1 /\
    len (base r) = N /\ len (per_transfer_context r) = N /\
    0 <= sw_index r < N /\ write_index r = (sw_index r + len (rq e)) mod N /\
    DST_WR_INDEX s = (sw_index r + len (rq e)) mod N /\ CURRENT_DRRI s = (sw_index r + len (r_done e)) mod N /\
    (forall i b, rq e !! i = Some b -> let at_ := (sw_index r + Z.of_nat i) mod N in
      aget (per_transfer_context r) at_ = Some (r_ctx b) /\ exists d, aget (base r) at_ = Some d /\ dest_ptr d = r_ptr b) /\
    (forall i x, r_done e !! i = Some x -> exists d, aget (base r) ((sw_index r + Z.of_nat i) mod N) = Some d /\ info d = x) /\
    (forall i, len (r_done e) <= i < N -> exists d, aget (base r) ((sw_index r + i) mod N) = Some d /\ nbytes (info d) = 0);
  dr_counts : len (r_done e) <= len (rq e) < N;
  dr_filled : Forall (fun x => 0 < nbytes x) (r_done e)
}.

Definition pow2 (N : Z) : Prop := exists k, 0 <= k <= 31 /\ N = 2 ^ k.

Record ce_rel (Ns Nd : Z) (e : engine) (s : ST) : Prop := {
  ce_pows : pow2 Ns /\ pow2 Nd;
  ce_src : src_rel Ns e s;
  ce_dest : dest_rel Nd e s;
  ce_awake : accesses s = []
}.

(** ** What the operations mean *)

Definition set_sq (q : list transfer) (p d : Z) (e : engine) : engine :=
  {| sq := q; s_pub := p; s_done := d; rq := rq e; r_done := r_done e |}.
Definition set_rq (q : list rbuf) (d : list desc_info) (e : engine) : engine :=
  {| sq := sq e; s_pub := s_pub e; s_done := s_done e; rq := q; r_done := d |}.

(** The descriptor of a transfer; [attr] are the flags of the engine. *)
Definition src_desc (attr buffer n id flags : Z) : CE_src_desc :=
  {| src_ptr := buffer;
     src_info := mk_info n (has_bit flags CE_SEND_FLAG_GATHER)
       (has_bit attr CE_ATTR_BYTE_SWAP_DATA && negb (has_bit flags CE_SEND_FLAG_SWAP_DISABLE)) id |}.
(** A transfer is made known with all before it, unless it is to be gathered with the next. *)
Definition enqueue (attr ctx buffer n id flags : Z) (e : engine) : engine :=
  let q := sq e ++ [{| t_ctx := ctx; t_desc := src_desc attr buffer n id flags |}] in
  set_sq q (if has_bit flags CE_SEND_FLAG_GATHER then s_pub e else len q) (s_done e) e.
Definition spec_send (N attr ctx buffer n id flags : Z) (e : engine) : Z * engine :=
  if len (sq e) <? N - 1 then (A_OK, enqueue attr ctx buffer n id flags e) else (A_ERROR, e).

Fixpoint enqueue_items (attr ctx id : Z) (items : list CE_sendlist_item) (e : engine) : engine :=
  match items with
  | [] => e
  | [x] => enqueue attr ctx (item_data x) (item_nbytes x) id (item_flags x) e
  | x :: items =>
      enqueue_items attr ctx id items
        (enqueue attr CE_SENDLIST_ITEM_CTXT (item_data x) (item_nbytes x) id (Z.lor (item_flags x) CE_SEND_FLAG_GATHER) e)
  end.
Definition spec_sendlist (N attr ctx : Z) (items : list CE_sendlist_item) (id : Z) (e : engine) : Z * engine :=
  if len (sq e) + len items <? N then (A_OK, enqueue_items attr ctx id items e) else (- ENOMEM, e).

(** What is told of a completed transfer, the indices of the rings left aside *)
Definition reported (c : completion) : Z * Z * Z * Z * Z * Z :=
  (per_CE_context c, transfer_ctx c, buf_ c, nbytes_ c, transfer_id_ c, flags_ c).

Definition spec_send_done (ctx : Z) (e : engine) : option (Z * Z * Z * Z * Z * Z) * engine :=
  match sq e with
  | t :: q =>
      if 0 <? s_done e
      then (Some (ctx, t_ctx t, src_ptr (t_desc t), nbytes (src_info (t_desc t)), meta_data (src_info (t_desc t)), 0),
            set_sq q (s_pub e - 1) (s_done e - 1) e)
      else (None, e)
  | [] => (None, e)
  end.
Definition spec_recv_enqueue (N ctx buffer : Z) (e : engine) : Z * engine :=
  if len (rq e) <? N - 1 then (A_OK, set_rq (rq e ++ [{| r_ctx := ctx; r_ptr := buffer |}]) (r_done e) e) else (A_ERROR, e).
Definition spec_recv_done (ctx : Z) (e : engine) : option (Z * Z * Z * Z * Z * Z) * engine :=
  match rq e, r_done e with
  | b :: q, i :: done =>
      (Some (ctx, r_ctx b, r_ptr b, nbytes i, meta_data i, if byte_swap i then CE_RECV_FLAG_SWAPPED else 0), set_rq q done e)
  | _, _ => (None, e)
  end.

(** ** The operations *)

(** What stays as it is, apart from the calls made *)
Definition settled (s s' : ST) : Prop :=
  attr_flags s' = attr_flags s /\ send_context s' = send_context s /\ recv_context s' = recv_context s /\
  send_cb s' = send_cb s /\ recv_cb s' = recv_cb s /\ CE_id s' = CE_id s /\ force_break s' = force_break s /\
  rx_pending s' = rx_pending s /\ receive_count s' = receive_count s.
Definition conf (s s' : ST) : Prop := settled s s' /\ calls s' = calls s /\ num_sends_allowed s' = num_sends_allowed s.
Lemma settled_trans s1 s2 s3 : settled s1 s2 -> settled s2 s3 -> settled s1 s3.
Proof. unfold settled. intuition congruence. Qed.
Lemma conf_trans s1 s2 s3 : conf s1 s2 -> conf s2 s3 -> conf s1 s3.
Proof. intros (H1 & C1 & A1) (H2 & C2 & A2). split; [by eapply settled_trans|split; congruence]. Qed.

Lemma len_app {A} (l l' : list A) : len (l ++ l') = len l + len l'.
Proof. unfold len. rewrite length_app. lia. Qed.
Lemma len_cons {A} (x : A) l : len (x :: l) = len l + 1.
Proof. unfold len. cbn [length]. lia. Qed.
Lemma len_nonneg {A} (l : list A) : 0 <= len l.
Proof. unfold len. lia. Qed.
Lemma len_upd {A} (l : list A) i v : len (upd l i v) = len l.
Proof. unfold len. by rewrite length_upd. Qed.

Lemma access_granted {A} s (fail : A) (k : M ST A) Q : accesses s = [] -> runs k s Q -> runs (A_TARGET_ACCESS_RET fail k) s Q.
Proof. intros Ha Hk. unfold A_TARGET_ACCESS_RET, target_access. apply runs_bnd. do 2 mstep. rewrite Ha. by mstep. Qed.

Lemma runs_get_src r s (Q : CE_ring_state CE_src_desc -> ST -> Prop) : src_ring s = Some r -> Q r s -> runs get_src s Q.
Proof. intros Hr HQ. unfold get_src. do 2 mstep. by eapply runs_oget. Qed.
Lemma runs_get_dest r s (Q : CE_ring_state CE_dest_desc -> ST -> Prop) : dest_ring s = Some r -> Q r s -> runs get_dest s Q.
Proof. intros Hr HQ. unfold get_dest. do 2 mstep. by eapply runs_oget. Qed.
Lemma runs_upd_src f r s (Q : unit -> ST -> Prop) : src_ring s = Some r -> Q tt (set_rings (Some (f r)) (dest_ring s) s) -> runs (upd_src f) s Q.
Proof. intros Hr HQ. unfold upd_src. apply runs_bnd. eapply runs_get_src; [done|]. by apply runs_modify. Qed.
Lemma runs_upd_dest f r s (Q : unit -> ST -> Prop) : dest_ring s = Some r -> Q tt (set_rings (src_ring s) (Some (f r)) s) -> runs (upd_dest f) s Q.
Proof. intros Hr HQ. unfold upd_dest. apply runs_bnd. eapply runs_get_dest; [done|]. by apply runs_modify. Qed.
Lemma runs_aset {A} (l : list A) i v s (Q : list A -> ST -> Prop) : 0 <= i < len l -> Q (upd l i v) s -> runs (oget (aset l i v)) s Q.
Proof. intros Hi HQ. eapply runs_oget; [by apply aset_upd|done]. Qed.

(** The two relations look at their own half. *)
Lemma src_rel_frame N e e' s s' :
  src_ring s' = src_ring s -> SR_WR_INDEX s' = SR_WR_INDEX s -> CURRENT_SRRI s' = CURRENT_SRRI s ->
  sq e' = sq e -> s_pub e' = s_pub e -> s_done e' = s_done e -> src_rel N e s -> src_rel N e' s'.
Proof. intros Hr Hw Hi Hq Hp Hd []. unfold src_at in *. split; unfold src_at; rewrite ?Hr, ?Hw, ?Hi, ?Hq, ?Hp, ?Hd; done. Qed.
Lemma dest_rel_frame N e e' s s' :
  dest_ring s' = dest_ring s -> DST_WR_INDEX s' = DST_WR_INDEX s -> CURRENT_DRRI s' = CURRENT_DRRI s ->
  rq e' = rq e -> r_done e' = r_done e -> dest_rel N e s -> dest_rel N e' s'.
Proof. intros Hr Hw Hi Hq Hd []. split; rewrite ?Hr, ?Hw, ?Hi, ?Hq, ?Hd; done. Qed.

Lemma slot_range N x : pow2 N -> 0 <= x mod N < N.
Proof. intros (k & Hk & ->). apply Z.mod_pos_bound, Z.pow_pos_nonneg; lia. Qed.

(** Slots at different distances are different. *)
Lemma slot_ne N sw i j : pow2 N -> 0 <= i < N -> 0 <= j < N -> i <> j -> (sw + i) mod N <> (sw + j) mod N.
Proof. intros (k & Hk & HN) Hi Hj Hne He. by pose proof (mod_add_same k N Hk HN _ _ _ He Hi Hj). Qed.

(** [m] gives the result and the queues of [o]. *)
Definition meets {A B} (Ns Nd : Z) (f : A -> B) (m : M ST A) (s : ST) (o : B * engine) : Prop :=
  runs m s (fun a s' => f a = o.1 /\ ce_rel Ns Nd o.2 s' /\ conf s s').

Section Ops.
Context (Ns Nd : Z) (e : engine) (s : ST).
Context (HR : ce_rel Ns Nd e s).

Lemma CE_send_nolock_spec ctx buffer n id flags :
  meets Ns Nd Datatypes.id (CE_send_nolock ctx buffer n id flags) s (spec_send Ns (attr_flags s) ctx buffer n id flags e).
Proof.
  destruct HR as [[HNs HNd] [(r & c & Hr & Hn & Hm & Hbl & Hsl & Hcl & Hsw & Hwr & Hc & Hhw & Hwi & Hri & Hslots) Hcnt] HD Hacc].
  destruct HNs as (k & Hk & HN). pose proof (len_nonneg (sq e)).
  assert (Hwrr : 0 <= write_index r < Ns) by (rewrite Hwr; apply slot_range; by exists k).
  unfold meets, CE_send_nolock. apply runs_bnd. eapply runs_get_src; [exact Hr|]. do 2 mstep. apply access_granted; [done|].
  rewrite Hm. assert (Hroom : CE_RING_DELTA (Ns - 1) (write_index r) (u32 (sw_index r - 1)) = Ns - 1 - len (sq e)).
  { rewrite Hwr. apply (ring_room k); (done || (cbn; lia)). }
  rewrite Hroom. unfold spec_send. destruct (Z.eqb_spec (Ns - 1 - len (sq e)) 0), (Z.ltb_spec (len (sq e)) (Ns - 1)); try lia.
  - do 2 mstep. apply access_granted; [done|]. mstep. split; [done|]. split; [|done].
    split; [split; [by exists k|done]| | |done].
    + split; [|done]. exists r, c. cbn. done.
    + eapply dest_rel_frame; [..|exact HD]; done.
  - mstep. apply runs_aset; [lia|]. mstep. eapply runs_upd_src; [exact Hr|]. mstep. apply runs_aset; [lia|]. mstep. eapply runs_upd_src; [done|].
    mstep. apply runs_aset; [lia|]. mstep. eapply runs_upd_src; [done|]. apply runs_bnd.
    set (d := src_desc (attr_flags s) buffer n id flags).
    set (r' := set_context (upd (per_transfer_context r) (write_index r) ctx) (set_base (upd (base r) (write_index r) d) (set_shadow (upd (shadow r) (write_index r) d) r))).
    assert (Hincr : CE_RING_IDX_INCR (Ns - 1) (write_index r) = (sw_index r + (len (sq e) + 1)) mod Ns).
    { rewrite Hwr. apply (ring_incr k); done. }
    rewrite Hincr.
    eapply runs_mono with (Q := fun _ s' => s' = set_regs (if has_bit flags CE_SEND_FLAG_GATHER then SR_WR_INDEX s else (sw_index r + (len (sq e) + 1)) mod Ns)
      (CURRENT_SRRI s) (DST_WR_INDEX s) (CURRENT_DRRI s) (set_rings (Some r') (dest_ring s) s)).
    { unfold r', d, src_desc; cbn [gather src_info mk_info]. destruct (has_bit flags CE_SEND_FLAG_GATHER); [by apply runs_ret|by apply runs_modify]. }
    intros [] s1 ->. mstep. eapply runs_upd_src; [done|]. apply access_granted; [done|]. mstep. split; [done|]. split; [|done].
    split; [split; [by exists k|done]| | |done].
    + split; cbn [sq s_pub s_done enqueue set_sq fst snd]; [|rewrite len_app, len_cons; cbn [len length]; destruct (has_bit flags CE_SEND_FLAG_GATHER); unfold len in *; cbn; lia].
      eexists (set_write_index _ r'), c. unfold src_at. cbn [sq s_pub s_done enqueue set_sq snd]. rewrite len_app, len_cons. change (len []) with 0. cbn. rewrite !len_upd. split; [done|].
      do 3 (split; [assumption|]). do 2 (split; [assumption|]). split; [assumption|]. split; [done|]. split; [assumption|]. split; [assumption|].
      split; [by destruct (has_bit flags CE_SEND_FLAG_GATHER)|]. split; [assumption|].
      intros i t Hi. unfold len in *. rewrite !aget_upd by lia. destruct (decide (i < length (sq e))%nat) as [Hlt|Hge].
      * rewrite lookup_app_l in Hi by done.
        assert (Hne : (sw_index r + Z.of_nat i) mod Ns <> write_index r) by (rewrite Hwr; apply slot_ne; [by exists k|lia..]).
        rewrite !decide_False by done. by apply Hslots.
      * rewrite lookup_app_r in Hi by lia. destruct (i - length (sq e))%nat as [|j] eqn:Hj; [|done]. injection Hi as <-.
        replace (Z.of_nat i) with (Z.of_nat (length (sq e))) by lia. rewrite <- Hwr, !decide_True by done. done.
    + eapply dest_rel_frame; [..|exact HD]; done.
Qed.

(** The device reports the oldest transfer it has taken. *)
Lemma take_send_spec r c : src_at Ns e s r c -> (c = 0 -> s_done e = 0) ->
  meets Ns Nd (option_map reported) (take_send (sw_index r) (hw_index r)) s (spec_send_done (send_context s) e).
Proof.
  intros (Hr & Hn & Hm & Hbl & Hsl & Hcl & Hsw & Hwr & Hc & Hhw & Hwi & Hri & Hslots) Hz.
  pose proof (ce_src _ _ _ _ HR) as [_ Hcnt]. pose proof (ce_pows _ _ _ _ HR) as [HNs _]. pose proof HNs as (k & Hk & HN).
  pose proof (N_range k Ns Hk HN).
  unfold meets, take_send, spec_send_done.
  assert (Hlt : hw_index r < 4294967295) by (rewrite Hhw; pose proof (slot_range Ns (sw_index r + c) HNs); lia).
  destruct (Z.eqb_spec (hw_index r) 0xffffffff) as [?|_]; [lia|].
  destruct (Z.eqb_spec (hw_index r) (sw_index r)) as [Heq|Hne]; cbn [negb andb].
  - assert (c = 0). { destruct (decide (c = 0)) as [|Hc0]; [done|exfalso]. rewrite Hhw in Heq.
      apply (slot_ne Ns (sw_index r) c 0 HNs); [lia..|]. by rewrite Heq, Z.add_0_r, Z.mod_small by lia. }
    rewrite Hz by done. mstep. by destruct (sq e).
  - assert (c <> 0) by (intros ->; rewrite Z.add_0_r, Z.mod_small in Hhw by lia; lia).
    destruct (sq e) as [|t q] eqn:Hq; [unfold len in *; cbn in *; lia|]. rewrite len_cons in *. destruct (Z.ltb_spec 0 (s_done e)); [|lia].
    apply runs_bnd. eapply runs_get_src; [done|]. pose proof (Hslots 0%nat t eq_refl) as Hs0. cbn in Hs0. rewrite Z.add_0_r, Z.mod_small in Hs0 by lia.
    destruct Hs0 as (_ & Hsd & Hsc). mstep. eapply runs_oget; [exact Hsd|]. mstep. eapply runs_oget; [exact Hsc|]. mstep. apply runs_aset; [lia|].
    mstep. eapply runs_upd_src; [exact Hr|]. mstep. eapply runs_upd_src; [done|]. do 3 mstep. split; [done|]. split; [|done].
    rewrite Hm, (CE_RING_IDX_INCR_mod k Ns Hk HN). split; [by destruct HR| | |by destruct HR].
    + split; cbn [sq s_pub s_done set_sq snd fst]; [|lia]. exists (set_sw_index ((sw_index r + 1) mod Ns) (set_context (upd (per_transfer_context r) (sw_index r) 0) r)), (c - 1). unfold src_at. cbn. rewrite len_upd.
      assert (Hnx : forall x, ((sw_index r + 1) mod Ns + x) mod Ns = (sw_index r + (x + 1)) mod Ns) by (intros x; apply (ring_next k); done).
      split_and!; try done; rewrite ?Hnx; try lia; try (etrans; [eassumption|]; f_equal; lia).
      { apply slot_range, HNs. } { apply slot_range, HNs. }
      intros i t' Hi. rewrite Hnx. pose proof (Hslots (Datatypes.S i) t' Hi) as Hs. cbn in Hs. rewrite Nat2Z.inj_succ in Hs.
      apply lookup_lt_Some in Hi. unfold len in *. rewrite aget_upd by lia. rewrite decide_False; [exact Hs|].
      intros Heq. eapply (slot_ne Ns (sw_index r) (Z.of_nat i + 1) 0 HNs); [lia..|]. by rewrite Heq, Z.add_0_r, Z.mod_small by lia.
    + eapply dest_rel_frame; [..|by destruct HR]; done.
Qed.

Lemma CE_send_entries_avail_spec : meets Ns Nd Datatypes.id CE_send_entries_avail s (Ns - 1 - len (sq e), e).
Proof.
  destruct (ce_src _ _ _ _ HR) as [(r & c & Hr & Hn & Hm & Hbl & Hsl & Hcl & Hsw & Hwr & Hc & Hhw & Hwi & Hri & Hslots) Hcnt].
  destruct (ce_pows _ _ _ _ HR) as [(k & Hk & HN) _]. pose proof (len_nonneg (sq e)).
  unfold meets, CE_send_entries_avail. apply runs_bnd. eapply runs_get_src; [done|]. mstep. split; [|done].
  rewrite Hm, Hwr. apply (ring_room k); (done || (cbn; lia)).
Qed.

Lemma CE_send_entries_done_spec : meets Ns Nd Datatypes.id CE_send_entries_done s (s_done e, e).
Proof.
  destruct (ce_src _ _ _ _ HR) as [(r & c & Hr & Hn & Hm & Hbl & Hsl & Hcl & Hsw & Hwr & Hc & Hhw & Hwi & Hri & Hslots) Hcnt].
  destruct (ce_pows _ _ _ _ HR) as [(k & Hk & HN) _].
  unfold meets, CE_send_entries_done. apply runs_bnd. eapply runs_get_src; [done|]. mstep. apply runs_gets. mstep. split; [|done].
  rewrite Hm, Hri. apply (ring_fill k); (done || (cbn; lia)).
Qed.

Lemma CE_recv_entries_avail_spec : meets Ns Nd Datatypes.id CE_recv_entries_avail s (Nd - 1 - len (rq e), e).
Proof.
  destruct (ce_dest _ _ _ _ HR) as [(r & Hr & Hn & Hm & Hbl & Hcl & Hsw & Hwr & _) Hcnt _].
  destruct (ce_pows _ _ _ _ HR) as [_ (k & Hk & HN)]. pose proof (len_nonneg (rq e)).
  unfold meets, CE_recv_entries_avail. apply runs_bnd. eapply runs_get_dest; [done|]. mstep. split; [|done].
  rewrite Hm, Hwr. apply (ring_room k); (done || (cbn; lia)).
Qed.

Lemma CE_recv_entries_done_spec : meets Ns Nd Datatypes.id CE_recv_entries_done s (len (r_done e), e).
Proof.
  destruct (ce_dest _ _ _ _ HR) as [(r & Hr & Hn & Hm & Hbl & Hcl & Hsw & Hwr & Hwi & Hri & _) Hcnt _].
  destruct (ce_pows _ _ _ _ HR) as [_ (k & Hk & HN)]. pose proof (len_nonneg (r_done e)).
  unfold meets, CE_recv_entries_done. apply runs_bnd. eapply runs_get_dest; [done|]. mstep. apply runs_gets. mstep. split; [|done].
  rewrite Hm, Hri. apply (ring_fill k); (done || (cbn; lia)).
Qed.

(** Reading the index again changes nothing of the queues. *)
Lemma reread_src r c : src_at Ns e s r c ->
  let s' := set_rings (Some (set_hw_index (CURRENT_SRRI s) r)) (dest_ring s) s in
  ce_rel Ns Nd e s' /\ src_at Ns e s' (set_hw_index (CURRENT_SRRI s) r) (s_done e).
Proof.
  intros (Hr & Hn & Hm & Hbl & Hsl & Hcl & Hsw & Hwr & Hc & Hhw & Hwi & Hri & Hslots) s'.
  assert (Hat : src_at Ns e s' (set_hw_index (CURRENT_SRRI s) r) (s_done e)).
  { unfold src_at, s'. cbn. split_and!; (done || lia). }
  destruct HR as [HP [_ Hcnt] HD Hacc]. split; [|exact Hat]. split; [done| | |done].
  - split; [by eauto|done].
  - eapply dest_rel_frame; [..|exact HD]; done.
Qed.
End Ops.

Lemma CE_completed_send_next_spec Ns Nd e s : ce_rel Ns Nd e s ->
  meets Ns Nd (option_map reported) CE_completed_send_next s (spec_send_done (send_context s) e).
Proof.
  intros HR. destruct (sr_ring _ _ _ (ce_src _ _ _ _ HR)) as (r & c & Hat). pose proof (ce_awake _ _ _ _ HR) as Hacc.
  pose proof Hat as (Hr & Hn & Hm & Hbl & Hsl & Hcl & Hsw & Hwr & Hc & Hhw & Hwi & Hri & Hslots). pose proof (ce_pows _ _ _ _ HR) as [HNs _].
  unfold CE_completed_send_next, CE_completed_send_next_nolock, meets. apply runs_bnd. eapply runs_get_src; [done|].
  destruct (Z.eqb_spec (hw_index r) (sw_index r)) as [Heq|Hne]; cbv iota.
  - apply access_granted; [done|]. mstep. apply runs_gets. mstep. eapply runs_upd_src; [done|]. apply access_granted; [done|].
    unfold ce_idx_invalid. rewrite Hn, Hri. pose proof (slot_range Ns (sw_index r + s_done e) HNs).
    destruct (Z.leb_spec Ns ((sw_index r + s_done e) mod Ns)); [lia|]. rewrite <- Hri.
    destruct (reread_src Ns Nd e s HR r c Hat) as [HR' Hat'].
    eapply runs_mono; [exact (take_send_spec Ns Nd e _ HR' _ _ Hat' (fun h => h))|]. intros oc s' (H1 & H2 & H3). split; [done|]. split; [done|].
    eapply conf_trans; [|exact H3]. done.
  - apply (take_send_spec Ns Nd e s HR r c Hat). intros ->. rewrite Z.add_0_r, Z.mod_small in Hhw by lia. done.
Qed.

Section Recv.
Context (Ns Nd : Z) (e : engine) (s : ST).
Context (HR : ce_rel Ns Nd e s).

Lemma slot_0 N sw : 0 <= sw < N -> (sw + 0) mod N = sw.
Proof. intros. rewrite Z.add_0_r. by apply Z.mod_small. Qed.

Lemma CE_recv_buf_enqueue_spec ctx buffer :
  meets Ns Nd Datatypes.id (CE_recv_buf_enqueue ctx buffer) s (spec_recv_enqueue Nd ctx buffer e).
Proof.
  destruct HR as [[HNs HNd] HS HD Hacc]. pose proof HD as [(r & Hr & Hn & Hm & Hbl & Hcl & Hsw & Hwr & Hwi & Hri & Hq & Hd & Hz) Hcnt Hf].
  pose proof HNd as (k & Hk & HN). pose proof (len_nonneg (rq e)). pose proof (len_nonneg (r_done e)).
  assert (Hwrr : 0 <= write_index r < Nd) by (rewrite Hwr; by apply slot_range).
  unfold meets, CE_recv_buf_enqueue. apply runs_bnd. eapply runs_get_dest; [exact Hr|]. apply access_granted; [done|].
  assert (Hroom : CE_RING_DELTA (Nd - 1) (write_index r) (u32 (sw_index r - 1)) = Nd - 1 - len (rq e)) by (rewrite Hwr; apply (ring_room k); (done || lia)).
  rewrite Hm, Hroom. unfold spec_recv_enqueue. destruct (Z.eqb_spec (Nd - 1 - len (rq e)) 0), (Z.ltb_spec (len (rq e)) (Nd - 1)); try lia; cbn [negb].
  { apply access_granted; [done|]. mstep. done. }
  destruct (Hz (len (rq e))) as (d & Hb & _); [lia|]. rewrite <- Hwr in Hb. mstep. eapply runs_oget; [exact Hb|].
  mstep. apply runs_aset; [lia|]. mstep. eapply runs_upd_dest; [done|]. mstep. apply runs_aset; [lia|]. mstep. eapply runs_upd_dest; [done|].
  mstep. unfold CE_DEST_RING_WRITE_IDX_SET. mstep. mstep. eapply runs_upd_dest; [done|]. apply access_granted; [done|]. mstep. split; [done|]. split; [|done].
  assert (Hincr : CE_RING_IDX_INCR (Nd - 1) (write_index r) = (sw_index r + (len (rq e) + 1)) mod Nd) by (rewrite Hwr; apply (ring_incr k); done).
  rewrite Hincr. split; [done| | |done]; [eapply src_rel_frame; [..|exact HS]; done|].
  cbn [snd]. split; cbn [rq r_done set_rq]; [|rewrite len_app, len_cons; cbn [len length]; unfold len in *; cbn; lia|done].
  match goal with |- context [dest_ring (set_rings _ (Some ?x) _)] => exists x end. cbn. rewrite !len_upd, !len_app, len_cons. change (len []) with 0.
  assert (Hne : forall i, 0 <= i < Nd -> i <> len (rq e) -> (sw_index r + i) mod Nd <> write_index r) by (intros; rewrite Hwr; apply slot_ne; done || lia).
  split_and!; try done; try lia.
  - intros i x Hi. unfold len in *. rewrite !aget_upd by lia. destruct (decide (i < length (rq e))%nat) as [Hlt|Hge].
    + rewrite lookup_app_l in Hi by done. rewrite !decide_False by (apply Hne; lia). by apply Hq.
    + rewrite lookup_app_r in Hi by lia. destruct (i - length (rq e))%nat as [|j] eqn:Hj; [|done]. injection Hi as <-.
      replace (Z.of_nat i) with (Z.of_nat (length (rq e))) by lia. rewrite <- Hwr, !decide_True by done. split; [done|]. by eexists.
  - intros i x Hi. pose proof (lookup_lt_Some _ _ _ Hi). unfold len in *. rewrite aget_upd by lia. rewrite decide_False by (apply Hne; lia). by apply Hd.
  - intros i Hi. rewrite aget_upd by (unfold len in *; lia). destruct (decide (i = len (rq e))) as [->|Hi'].
    + rewrite <- Hwr, decide_True by done. by eexists.
    + rewrite decide_False by (apply Hne; lia). by apply Hz.
Qed.

Lemma CE_completed_recv_next_spec :
  meets Ns Nd (option_map reported) CE_completed_recv_next s (spec_recv_done (recv_context s) e).
Proof.
  destruct HR as [[HNs HNd] HS HD Hacc]. pose proof HD as [(r & Hr & Hn & Hm & Hbl & Hcl & Hsw & Hwr & Hwi & Hri & Hq & Hd & Hz) Hcnt Hf].
  pose proof HNd as (k & Hk & HN). unfold meets, CE_completed_recv_next, CE_completed_recv_next_nolock. apply runs_bnd. eapply runs_get_dest; [exact Hr|].
  unfold spec_recv_done. destruct (r_done e) as [|x rd] eqn:Hrd.
  { destruct (Hz 0) as (d & Hb & H0); [unfold len; cbn; lia|]. rewrite slot_0 in Hb by lia. mstep. eapply runs_oget; [exact Hb|]. rewrite H0. change (0 =? 0) with true. cbv iota. mstep.
    by destruct (rq e). }
  destruct (rq e) as [|b q] eqn:Hrq; [rewrite len_cons in Hcnt; pose proof (len_nonneg rd); change (len []) with 0 in Hcnt; lia|].
  destruct (Hd 0%nat x eq_refl) as (d & Hb & Hx). destruct (Hq 0%nat b eq_refl) as (Hc & d' & Hb' & Hp). cbn in Hb, Hc, Hb'. rewrite slot_0 in Hb, Hc, Hb' by lia.
  rewrite Hb in Hb'. injection Hb' as <-. mstep. eapply runs_oget; [exact Hb|]. pose proof (Forall_inv Hf) as Hx0. cbn in Hx0.
  rewrite Hx. destruct (Z.eqb_spec (nbytes x) 0); [lia|].
  mstep. apply runs_aset; [lia|]. mstep. eapply runs_upd_dest; [done|]. mstep. eapply runs_oget; [exact Hc|]. mstep. apply runs_aset; [lia|].
  mstep. eapply runs_upd_dest; [done|]. mstep. eapply runs_upd_dest; [done|]. do 3 mstep. split; [by rewrite <- Hp|]. split; [|done].
  rewrite Hm, (CE_RING_IDX_INCR_mod k Nd Hk HN). split; [done| | |done]; [eapply src_rel_frame; [..|exact HS]; done|].
  rewrite !len_cons in *. pose proof (len_nonneg rd).
  split; cbn [rq r_done set_rq snd]; [|lia|by eapply Forall_inv_tail].
  match goal with |- context [dest_ring (set_rings _ (Some ?x) _)] => exists x end. cbn. rewrite !len_upd.
  assert (Hnx : forall i, ((sw_index r + 1) mod Nd + i) mod Nd = (sw_index r + (i + 1)) mod Nd) by (intros i; apply (ring_next k); done).
  assert (Hne : forall i, 0 <= i < Nd - 1 -> (sw_index r + (i + 1)) mod Nd <> sw_index r).
  { intros i Hi Heq. eapply (slot_ne Nd (sw_index r) (i + 1) 0 HNd); [lia..|]. by rewrite Heq, slot_0 by lia. }
  split_and!; try done; rewrite ?Hnx; try lia; try (by apply slot_range).
  - intros i b' Hi. rewrite Hnx. pose proof (Hq (Datatypes.S i) b' Hi) as Hs. cbn in Hs. rewrite Nat2Z.inj_succ in Hs.
    apply lookup_lt_Some in Hi. unfold len in *. rewrite !aget_upd by lia. rewrite !decide_False by (apply Hne; lia). exact Hs.
  - intros i y Hi. rewrite Hnx. pose proof (Hd (Datatypes.S i) y Hi) as Hs. cbn in Hs. rewrite Nat2Z.inj_succ in Hs.
    apply lookup_lt_Some in Hi. unfold len in *. rewrite !aget_upd by lia. rewrite !decide_False by (apply Hne; lia). exact Hs.
  - intros i Hi. rewrite Hnx, aget_upd by (unfold len in *; lia). destruct (decide (i = Nd - 1)) as [->|].
    + replace (sw_index r + (Nd - 1 + 1)) with (sw_index r + 1 * Nd) by lia. rewrite Z.mod_add, Z.mod_small, decide_True by lia. by eexists.
    + rewrite decide_False by (apply Hne; lia). apply Hz. lia.
Qed.

(** The device fills the next posted buffer. *)
Lemma hw_recv_spec x : len (r_done e) < len (rq e) -> 0 < nbytes x ->
  meets Ns Nd (fun _ => tt) (hw_recv x) s (tt, set_rq (rq e) (r_done e ++ [x]) e).
Proof.
  intros Hlt Hx. destruct HR as [[HNs HNd] HS HD Hacc]. pose proof HD as [(r & Hr & Hn & Hm & Hbl & Hcl & Hsw & Hwr & Hwi & Hri & Hq & Hd & Hz) Hcnt Hf].
  pose proof HNd as (k & Hk & HN). pose proof (len_nonneg (r_done e)). unfold meets, hw_recv. apply runs_bnd. eapply runs_get_dest; [exact Hr|].
  destruct (Hz (len (r_done e))) as (d & Hb & _); [lia|]. rewrite <- Hri in Hb.
  assert (Hrir : 0 <= CURRENT_DRRI s < Nd) by (rewrite Hri; by apply slot_range).
  do 3 mstep. eapply runs_oget; [exact Hb|]. mstep. apply runs_aset; [lia|]. mstep. eapply runs_upd_dest; [done|]. mstep. split; [done|]. split; [|done].
  split; [done| | |done]; [eapply src_rel_frame; [..|exact HS]; done|].
  split; cbn [rq r_done set_rq snd]; [|rewrite len_app, len_cons; change (len []) with 0; lia|apply Forall_app; by repeat constructor].
  match goal with |- context [dest_ring (set_regs _ _ _ _ (set_rings _ (Some ?x) _))] => exists x end. cbn. rewrite !len_upd, !len_app, len_cons. change (len []) with 0.
  assert (Hne : forall i, 0 <= i < Nd -> i <> len (r_done e) -> (sw_index r + i) mod Nd <> CURRENT_DRRI s) by (intros; rewrite Hri; apply slot_ne; done || lia).
  split_and!; try done; try lia.
  - rewrite Hn, Hri, Z.add_mod_idemp_l by lia. f_equal. lia.
  - intros i b Hi. destruct (Hq i b Hi) as (Hc & d' & Hb' & Hp). split; [done|]. rewrite aget_upd by (unfold len in *; lia). case_decide as Heq; [|by eexists].
    rewrite Heq, Hb in Hb'. injection Hb' as <-. by eexists.
  - intros i y Hi. unfold len in *. rewrite aget_upd by lia. destruct (decide (i < length (r_done e))%nat) as [Hl|Hge].
    + rewrite lookup_app_l in Hi by done. rewrite decide_False by (apply Hne; lia). by apply Hd.
    + rewrite lookup_app_r in Hi by lia. destruct (i - length (r_done e))%nat as [|j] eqn:Hj; [|done]. injection Hi as <-.
      replace (Z.of_nat i) with (Z.of_nat (length (r_done e))) by lia. rewrite <- Hri, decide_True by done. by eexists.
  - intros i Hi. rewrite aget_upd, decide_False by ((unfold len in *; lia) || (apply Hne; lia)). apply Hz. lia.
Qed.

(** It takes more of the descriptors it knows of. *)
Lemma hw_send_spec j : 0 <= j <= s_pub e - s_done e ->
  meets Ns Nd (fun _ => tt) (hw_send j) s (tt, set_sq (sq e) (s_pub e) (s_done e + j) e).
Proof.
  intros Hj. destruct HR as [[HNs HNd] HS HD Hacc].
  pose proof HS as [(r & c & Hr & Hn & Hm & Hbl & Hsl & Hcl & Hsw & Hwr & Hc & Hhw & Hwi & Hri & Hslots) Hcnt].
  unfold meets, hw_send. apply runs_bnd. eapply runs_get_src; [exact Hr|]. mstep. split; [done|]. split; [|done].
  split; [done| | |done]; [|eapply dest_rel_frame; [..|exact HD]; done].
  split; cbn [sq s_pub s_done set_sq snd]; [|lia]. exists r, c. unfold src_at. cbn. split_and!; try done; try lia.
  rewrite Hn, Hri, Z.add_mod_idemp_l by lia. f_equal. lia.
Qed.
End Recv.

(** ** Lists of buffers *)

(** An item that is not the last *)
Definition gathered (attr id : Z) (e : engine) (x : CE_sendlist_item) : engine :=
  enqueue attr CE_SENDLIST_ITEM_CTXT (item_data x) (item_nbytes x) id (Z.lor (item_flags x) CE_SEND_FLAG_GATHER) e.

Lemma enqueue_items_snoc attr ctx id l x e :
  enqueue_items attr ctx id (l ++ [x]) e = enqueue attr ctx (item_data x) (item_nbytes x) id (item_flags x) (foldl (gathered attr id) e l).
Proof. revert e. induction l as [|y l IH]; intros e; [done|]. cbn [app foldl]. rewrite <- IH. by destruct l. Qed.

Lemma len_gathered attr id l e : len (sq (foldl (gathered attr id) e l)) = len (sq e) + len l.
Proof.
  revert e. induction l as [|y l IH]; intros e; cbn [foldl]; [unfold len; cbn; lia|].
  rewrite IH. unfold gathered, enqueue. cbn [sq set_sq]. rewrite len_app, !len_cons. change (len []) with 0. lia.
Qed.

Lemma send_room Ns Nd e s ctx buffer n id flags : ce_rel Ns Nd e s -> len (sq e) < Ns - 1 ->
  runs (CE_send_nolock ctx buffer n id flags) s (fun st s' => st = A_OK /\ ce_rel Ns Nd (enqueue (attr_flags s) ctx buffer n id flags e) s' /\ conf s s').
Proof.
  intros HR Hroom. pose proof (CE_send_nolock_spec Ns Nd e s HR ctx buffer n id flags) as H. unfold spec_send in H.
  rewrite (proj2 (Z.ltb_lt _ _) Hroom) in H. exact H.
Qed.

Lemma seqZ_app_inv {n dn i todo} : seqZ 0 n = dn ++ i :: todo -> i = len dn /\ i < n.
Proof.
  intros H. assert (Hl : seqZ 0 n !! length dn = Some i) by (rewrite H; by apply list_lookup_middle).
  apply lookup_seqZ in Hl as [-> Hlt]. unfold len. lia.
Qed.

Lemma send_gathered_spec Ns Nd e s l x id : ce_rel Ns Nd e s -> len (sq e) + len l < Ns ->
  runs (send_gathered (l ++ [x]) id) s (fun _ s' => ce_rel Ns Nd (foldl (gathered (attr_flags s) id) e l) s' /\ conf s s').
Proof.
  intros HR Hroom. unfold send_gathered. rewrite length_app. cbn [length].
  replace (Z.of_nat (length l + 1) - 1) with (len l) by (unfold len; lia).
  eapply runs_mono; [apply runs_mfor with (I := fun dn s' => ce_rel Ns Nd (foldl (gathered (attr_flags s) id) e (take (length dn) l)) s' /\ conf s s')|].
  - intros dn i todo s1 Heq [HR1 Hc1]. destruct (seqZ_app_inv Heq) as [-> Hlt]. unfold len in Hlt.
    destruct (lookup_lt_is_Some_2 l (length dn)) as [y Hy]; [lia|].
    mstep. apply (runs_oget _ y); [by unfold aget, len; rewrite decide_True, Nat2Z.id, lookup_app_l by lia|]. apply runs_bnd.
    eapply runs_mono; [eapply send_room; [exact HR1|]|].
    { rewrite len_gathered. unfold len. rewrite length_take. unfold len in Hroom. lia. }
    intros st s2 (_ & HR2 & Hc2). mstep. rewrite length_app. cbn [length]. rewrite Nat.add_1_r, (take_S_r _ _ _ Hy), foldl_app.
    rewrite (proj1 (proj1 Hc1)) in HR2. split; [exact HR2|by eapply conf_trans].
  - by split.
  - intros [] s' [HR' Hc']. split; [|done]. rewrite length_seqZ, firstn_all2 in HR' by (unfold len; lia). done.
Qed.

Lemma CE_sendlist_send_spec Ns Nd e s ctx items id : ce_rel Ns Nd e s -> items <> [] ->
  meets Ns Nd Datatypes.id (CE_sendlist_send ctx items id) s (spec_sendlist Ns (attr_flags s) ctx items id e).
Proof.
  intros HR Hne. destruct (exists_last Hne) as (l & x & ->). pose proof (len_nonneg (sq e)).
  destruct (ce_src _ _ _ _ HR) as [(r & c & Hr & Hn & Hm & _ & _ & _ & Hsw & Hwr & _) Hcnt].
  destruct (ce_pows _ _ _ _ HR) as [(k & Hk & HN) _].
  assert (Hlen : Z.of_nat (length (l ++ [x])) = len l + 1) by (rewrite length_app; unfold len; cbn; lia).
  assert (Hroom : CE_RING_DELTA (nentries_mask r) (write_index r) (u32 (sw_index r - 1)) = Ns - 1 - len (sq e)) by (rewrite Hm, Hwr; apply (ring_room k); (done || lia)).
  unfold meets, CE_sendlist_send, spec_sendlist. apply runs_bnd. eapply runs_get_src; [exact Hr|]. change (len (l ++ [x])) with (Z.of_nat (length (l ++ [x]))).
  rewrite Hlen, Hroom. pose proof (len_nonneg l). mstep. apply runs_massert; [lia|].
  destruct (Z.leb_spec (len l + 1) (Ns - 1 - len (sq e))), (Z.ltb_spec (len (sq e) + (len l + 1)) Ns); try lia; [|by mstep].
  apply runs_bnd. eapply runs_mono; [apply (send_gathered_spec Ns Nd e); [exact HR|lia]|]. intros [] s1 [HR1 Hc1].
  mstep. apply (runs_oget _ x).
  { unfold aget. rewrite decide_True by lia. unfold len. rewrite Z.add_simpl_r, Nat2Z.id. by apply list_lookup_middle. }
  eapply runs_mono; [apply (send_room Ns Nd _ _ _ _ _ _ _ HR1); rewrite len_gathered; lia|].
  intros st s2 (-> & HR2 & Hc2). split; [done|]. split; [|by eapply conf_trans]. cbn [snd]. rewrite enqueue_items_snoc. by rewrite (proj1 (proj1 Hc1)) in HR2.
Qed.
