(* ===== verification/CopyEngineProps.v ===== *)
(** * Copy engines: theorems

    The sizes of the rings, the rings as bounded queues, and what
    becomes of the cached index when a transfer is cancelled. *)

From S2P Require Import Prelude CopyEngine CopyEngineInv.

Local Open Scope c_scope.

#[local] Abbreviation ST := CE_state.

(** ** The sizes *)

Lemma land_pred_pow2 n : 0 < n -> Z.land n (n - 1) = 0 -> n = 2 ^ Z.log2 n.
Proof.
  intros Hn H. destruct (Z.log2_spec n Hn) as [Hlo Hhi]. destruct (decide (n = 2 ^ Z.log2 n)) as [|Hne]; [done|exfalso].
  assert (Hl : Z.log2 (n - 1) = Z.log2 n) by (apply Z.log2_unique; [apply Z.log2_nonneg|lia]).
  assert (Hb : Z.testbit (Z.land n (n - 1)) (Z.log2 n) = true).
  { rewrite Z.land_spec, Z.bit_log2 by done. rewrite <- Hl, Z.bit_log2; [done|]. pose proof (Z.pow_pos_nonneg 2 (Z.log2 n)). pose proof (Z.log2_nonneg n). lia. }
  by rewrite H, Z.bits_0 in Hb.
Qed.

Lemma roundup_pwr2_spec n : 0 < n <= 2 ^ 30 -> exists k, 0 <= k <= 30 /\ roundup_pwr2 n = 2 ^ k /\ n <= 2 ^ k < 2 * n.
Proof.
  intros Hn. unfold roundup_pwr2. rewrite u32_small by lia. destruct (Z.eqb_spec (Z.land n (n - 1)) 0) as [Hz|Hz].
  { pose proof (land_pred_pow2 n ltac:(lia) Hz) as Hp. exists (Z.log2 n). rewrite <- Hp. split; [|lia]. split; [apply Z.log2_nonneg|].
    apply (Z.log2_le_mono _ (2 ^ 30)). lia. }
  assert (H3 : 2 < n). { destruct (decide (n = 1)) as [->|]; [done|]. destruct (decide (n = 2)) as [->|]; [done|]. lia. }
  set (go := fix go (i : nat) (test_pwr2 : Z) : Z := match i with O => 0 | Datatypes.S i => if n <? test_pwr2 then test_pwr2 else go i (u32 (Z.shiftl test_pwr2 1)) end).
  assert (Hgo : forall i j, Z.of_nat i + j = 31 -> 2 <= j -> 2 ^ (j - 1) < n -> n < 2 ^ 30 ->
    exists k, 0 <= k <= 30 /\ go i (2 ^ j) = 2 ^ k /\ n <= 2 ^ k < 2 * n).
  { induction i as [|i IH]; intros j Hij Hj Hlo Hhi.
    - replace j with 31 in Hlo by lia. change (2 ^ (31 - 1)) with (2 ^ 30) in Hlo. lia.
    - cbn [go]. assert (Hs : 2 ^ j = 2 * 2 ^ (j - 1)) by (rewrite <- Z.pow_succ_r by lia; f_equal; lia).
      destruct (Z.ltb_spec n (2 ^ j)); [exists j; split; [lia|split; [done|lia]]|].
      rewrite Z.shiftl_mul_pow2 by lia. rewrite <- Z.pow_add_r by lia.
      assert (j <> 30) by (intros ->; lia).
      assert (n <> 2 ^ j). { intros Hn2. apply Hz. rewrite Hn2. replace (2 ^ j - 1) with (Z.ones j) by (rewrite Z.ones_equiv; lia).
        rewrite Z.land_ones by lia. apply Z_mod_same_full. }
      rewrite u32_small. { apply IH; [lia|lia|replace (j + 1 - 1) with j by lia; lia|done]. }
      split; [apply Z.pow_nonneg; lia|]. apply (Z.pow_lt_mono_r 2 _ 32); lia. }
  assert (n <> 2 ^ 30) by (intros ->; by apply Hz). apply (Hgo 29%nat 2); [done|done|change (2 ^ (2 - 1)) with 2|]; lia.
Qed.

(** ** Sequences of operations *)

(** The operations, and two steps of the device *)
Inductive ce_step :=
| Send (ctx buffer n id flags : Z)
| SendList (ctx : Z) (items : list CE_sendlist_item) (id : Z)
| SendNext
| SendsAvail
| SendsDone
| RecvPost (ctx buffer : Z)
| RecvNext
| RecvsAvail
| RecvsDone
| HwSend (j : Z)
| HwRecv (i : desc_info).
Inductive ce_result :=
| Status (z : Z)
| Next (o : option (Z * Z * Z * Z * Z * Z)).

Definition do_step (st : ce_step) : M ST ce_result :=
  match st with
  | Send ctx buffer n id flags => z <- CE_send ctx buffer n id flags ;; mreturn (Status z)
  | SendList ctx items id => z <- CE_sendlist_send ctx items id ;; mreturn (Status z)
  | SendNext => o <- CE_completed_send_next ;; mreturn (Next (option_map reported o))
  | SendsAvail => z <- CE_send_entries_avail ;; mreturn (Status z)
  | SendsDone => z <- CE_send_entries_done ;; mreturn (Status z)
  | RecvPost ctx buffer => z <- CE_recv_buf_enqueue ctx buffer ;; mreturn (Status z)
  | RecvNext => o <- CE_completed_recv_next ;; mreturn (Next (option_map reported o))
  | RecvsAvail => z <- CE_recv_entries_avail ;; mreturn (Status z)
  | RecvsDone => z <- CE_recv_entries_done ;; mreturn (Status z)
  | HwSend j => _ <- hw_send j ;; mreturn (Status 0)
  | HwRecv i => _ <- hw_recv i ;; mreturn (Status 0)
  end.
Fixpoint do_steps (steps : list ce_step) : M ST (list ce_result) :=
  match steps with
  | [] => mreturn []
  | st :: steps => x <- do_step st ;; xs <- do_steps steps ;; mreturn (x :: xs)
  end.

(** The same on the queues of an engine with the given configuration *)
Section Spec.
Context (Ns Nd attr sctx rctx : Z).
Definition on_result {A} (f : A -> ce_result) (o : A * engine) : ce_result * engine := (f o.1, o.2).
Definition spec_step (st : ce_step) (e : engine) : ce_result * engine :=
  match st with
  | Send ctx buffer n id flags => on_result Status (spec_send Ns attr ctx buffer n id flags e)
  | SendList ctx items id => on_result Status (spec_sendlist Ns attr ctx items id e)
  | SendNext => on_result Next (spec_send_done sctx e)
  | SendsAvail => (Status (Ns - 1 - len (sq e)), e)
  | SendsDone => (Status (s_done e), e)
  | RecvPost ctx buffer => on_result Status (spec_recv_enqueue Nd ctx buffer e)
  | RecvNext => on_result Next (spec_recv_done rctx e)
  | RecvsAvail => (Status (Nd - 1 - len (rq e)), e)
  | RecvsDone => (Status (len (r_done e)), e)
  | HwSend j => (Status 0, set_sq (sq e) (s_pub e) (s_done e + j) e)
  | HwRecv i => (Status 0, set_rq (rq e) (r_done e ++ [i]) e)
  end.
(** The device takes only what it was told of, and fills only posted buffers; a list to send
    is not empty. *)
Definition allowed (st : ce_step) (e : engine) : bool :=
  match st with
  | SendList _ items _ => 0 <? len items
  | HwSend j => (0 <=? j) && (s_done e + j <=? s_pub e)
  | HwRecv i => (len (r_done e) <? len (rq e)) && (0 <? nbytes i)
  | _ => true
  end.
Fixpoint spec_steps (steps : list ce_step) (e : engine) : option (list ce_result * engine) :=
  match steps with
  | [] => Some ([], e)
  | st :: steps =>
      if allowed st e then
        let '(x, e') := spec_step st e in
        '(xs, e'') ← spec_steps steps e'; Some (x :: xs, e'')
      else None
  end.
End Spec.

Lemma meets_step {A B} Ns Nd (f : A -> B) (m : M ST A) s o (g : A -> ce_result) (h : B -> ce_result) :
  meets Ns Nd f m s o -> (forall a, g a = h (f a)) -> meets Ns Nd Datatypes.id (x <- m ;; mreturn (g x)) s (on_result h o).
Proof.
  intros H Hg. unfold meets in *. apply runs_bnd. eapply runs_mono; [exact H|]. intros a s' (Ha & HR & Hc). mstep.
  split; [|done]. unfold Datatypes.id, on_result. by rewrite Hg, Ha.
Qed.

Lemma do_step_spec Ns Nd e s st : ce_rel Ns Nd e s -> allowed st e = true ->
  meets Ns Nd Datatypes.id (do_step st) s (spec_step Ns Nd (attr_flags s) (send_context s) (recv_context s) st e).
Proof.
  intros HR Ha. destruct st; cbn [do_step spec_step allowed] in *.
  - by apply (meets_step _ _ _ _ _ _ _ _ (CE_send_nolock_spec Ns Nd e s HR ctx buffer n id flags)).
  - apply (meets_step _ _ _ _ _ _ Status Status (CE_sendlist_send_spec Ns Nd e s ctx items id HR ltac:(by destruct items))); done.
  - by apply (meets_step _ _ _ _ _ _ _ Next (CE_completed_send_next_spec Ns Nd e s HR)).
  - by apply (meets_step _ _ _ _ _ _ _ Status (CE_send_entries_avail_spec Ns Nd e s HR)).
  - by apply (meets_step _ _ _ _ _ _ _ Status (CE_send_entries_done_spec Ns Nd e s HR)).
  - by apply (meets_step _ _ _ _ _ _ _ Status (CE_recv_buf_enqueue_spec Ns Nd e s HR ctx buffer)).
  - by apply (meets_step _ _ _ _ _ _ _ Next (CE_completed_recv_next_spec Ns Nd e s HR)).
  - by apply (meets_step _ _ _ _ _ _ _ Status (CE_recv_entries_avail_spec Ns Nd e s HR)).
  - by apply (meets_step _ _ _ _ _ _ _ Status (CE_recv_entries_done_spec Ns Nd e s HR)).
  - by apply (meets_step _ _ _ _ _ _ (fun _ => Status 0) (fun _ => Status 0) (hw_send_spec Ns Nd e s HR j ltac:(lia))).
  - by apply (meets_step _ _ _ _ _ _ (fun _ => Status 0) (fun _ => Status 0) (hw_recv_spec Ns Nd e s HR i ltac:(lia) ltac:(lia))).
Qed.

Lemma do_steps_spec Ns Nd steps e s xs e' : ce_rel Ns Nd e s ->
  spec_steps Ns Nd (attr_flags s) (send_context s) (recv_context s) steps e = Some (xs, e') ->
  runs (do_steps steps) s (fun xs' s' => xs' = xs /\ ce_rel Ns Nd e' s').
Proof.
  revert e s xs. induction steps as [|st steps IH]; intros e s xs HR Hs; cbn in Hs.
  { injection Hs as <- <-. cbn [do_steps]. by mstep. }
  destruct (allowed st e) eqn:Ha; [|done]. pose proof (do_step_spec Ns Nd e s st HR Ha) as Hd.
  destruct (spec_step Ns Nd (attr_flags s) (send_context s) (recv_context s) st e) as [x e1].
  destruct (spec_steps Ns Nd (attr_flags s) (send_context s) (recv_context s) steps e1) as [[xs1 e2]|] eqn:Hs1; [|done]. injection Hs as <- <-.
  cbn [do_steps]. apply runs_bnd. eapply runs_mono; [exact Hd|]. intros x' s1 (Hx & HR1 & [(E1 & E2 & E3 & _) _]). cbn in Hx. subst x'. apply runs_bnd.
  eapply runs_mono; [apply (IH e1 s1 xs1 HR1); by rewrite E1, E2, E3|]. intros xs' s2 [-> HR2]. by mstep.
Qed.

Definition no_transfers : engine := {| sq := []; s_pub := 0; s_done := 0; rq := []; r_done := [] |}.

(** Nothing is under way in the device, and it can be accessed. *)
Definition device_idle (Ns Nd : Z) (s : ST) : Prop :=
  0 <= CURRENT_SRRI s < Ns /\ SR_WR_INDEX s = CURRENT_SRRI s /\ 0 <= CURRENT_DRRI s < Nd /\ DST_WR_INDEX s = CURRENT_DRRI s /\ accesses s = [].

Definition set_up (ns nd : Z) (mem sh : list CE_src_desc) : M ST unit := init_src_ring ns mem sh ;; init_dest_ring nd.

Lemma aget_replicate {A} n i (v : A) : 0 <= i < Z.of_nat n -> aget (replicate n v) i = Some v.
Proof. intros Hi. unfold aget. rewrite decide_True by lia. apply lookup_replicate_2. lia. Qed.

Lemma set_up_rel ns nd mem sh s : 0 < ns <= 2 ^ 30 -> 0 < nd <= 2 ^ 30 -> len mem = roundup_pwr2 ns -> len sh = roundup_pwr2 ns ->
  device_idle (roundup_pwr2 ns) (roundup_pwr2 nd) s ->
  runs (set_up ns nd mem sh) s (fun _ s' => ce_rel (roundup_pwr2 ns) (roundup_pwr2 nd) no_transfers s' /\ conf s s').
Proof.
  intros Hns Hnd Hmem Hsh (Hsr & Hsw & Hdr & Hdw & Hacc).
  destruct (roundup_pwr2_spec ns Hns) as (ks & Hks & Hes & _). destruct (roundup_pwr2_spec nd Hnd) as (kd & Hkd & Hed & _).
  unfold set_up, init_src_ring, init_dest_ring. set (Ns := roundup_pwr2 ns) in *. set (Nd := roundup_pwr2 nd) in *.
  do 3 mstep. mstep. mstep. mstep. split; [|done]. split.
  - split; [exists ks|exists kd]; (split; [lia|done]).
  - split; [|unfold len; cbn; lia]. eexists _, 0. unfold src_at. cbn. split; [done|]. unfold len in *. cbn. rewrite length_replicate.
    rewrite !Z.add_0_r, !Z.mod_small by lia. split_and!; (done || lia).
  - split; [|unfold len; cbn; lia|constructor]. eexists. cbn. split; [done|]. unfold len in *. cbn. rewrite !length_replicate.
    rewrite !Z.add_0_r, !Z.mod_small by lia. split_and!; try (done || lia). intros i Hi.
    rewrite aget_replicate; [by eexists|]. pose proof (Z.mod_pos_bound (CURRENT_DRRI s + i) Nd). lia.
  - done.
Qed.

(** C23.  The two rings of a copy engine behave as bounded first-in first-out queues.  They are set
    up for any numbers of entries up to 2^30, which are rounded up to powers of two; then
    whatever is sent, in single buffers or in lists, posted, reported and counted, in whatever
    order and however the device takes and fills descriptors in between, every result is that
    of the queues: a send is refused exactly when one slot is left, transfers are reported once
    each, in order, after the device has taken them, with the buffer, the length modulo 2^16,
    the identifier modulo 2^14 and the context they were sent with, and received buffers with
    what the device filled in. *)
Theorem CE_rings_are_queues ns nd mem sh s steps xs e :
  0 < ns <= 2 ^ 30 -> 0 < nd <= 2 ^ 30 -> len mem = roundup_pwr2 ns -> len sh = roundup_pwr2 ns ->
  device_idle (roundup_pwr2 ns) (roundup_pwr2 nd) s ->
  spec_steps (roundup_pwr2 ns) (roundup_pwr2 nd) (attr_flags s) (send_context s) (recv_context s) steps no_transfers = Some (xs, e) ->
  runs (set_up ns nd mem sh ;; do_steps steps) s (fun xs' s' =>
    xs' = xs /\ ce_rel (roundup_pwr2 ns) (roundup_pwr2 nd) e s').
Proof.
  intros Hns Hnd Hmem Hsh Hidle Hspec. apply runs_bnd. eapply runs_mono; [by apply set_up_rel|].
  intros [] s' [HR [(E1 & E2 & E3 & _) _]]. apply (do_steps_spec _ _ _ no_transfers); [done|]. by rewrite E1, E2, E3.
Qed.

(** A state to run on: callbacks registered, the device idle at entries 2 and 1. *)
Definition idle_state (id : Z) : ST :=
  {| src_ring := None; dest_ring := None; attr_flags := CE_ATTR_BYTE_SWAP_DATA; send_cb := true; recv_cb := true; send_context := 71; recv_context := 72;
     rx_pending := false; CE_id := id; num_sends_allowed := 5; force_break := true; receive_count := 3; SR_WR_INDEX := 2; CURRENT_SRRI := 2; DST_WR_INDEX := 1; CURRENT_DRRI := 1;
     accesses := []; ce_ring_delta_fail_count := 0; calls := [] |}.
Definition blank_src : CE_src_desc := {| src_ptr := 0; src_info := mk_info 0 false false 0 |}.
Definition blank4 : list CE_src_desc := replicate 4 blank_src.

Lemma CE_rings_are_queues_witness :
  let item n := {| item_data := 0x2000 + n; item_nbytes := n; item_flags := 0 |} in
  let got := {| nbytes := 60; gather := false; byte_swap := true; meta_data := 9 |} in
  runs (set_up 3 2 blank4 blank4 ;;
        do_steps [SendList 11 [item 8; item 70000] 5; Send 12 0x3000 4 20000 0; Send 13 0x4000 4 7 0; HwSend 2; SendNext; SendsDone; SendNext; SendNext;
                  SendsAvail; RecvPost 21 0x5000; RecvPost 22 0x6000; RecvNext; HwRecv got; RecvNext; RecvNext]) (idle_state 3)
    (fun xs s' => xs = [Status A_OK; Status A_OK; Status A_ERROR; Status 0; Next (Some (71, CE_SENDLIST_ITEM_CTXT, 0x2008, 8, 5, 0)); Status 1;
                        Next (Some (71, 11, 0x2000 + 70000, 4464, 5, 0)); Next None; Status 2; Status A_OK; Status A_ERROR; Next None; Status 0;
                        Next (Some (72, 21, 0x5000, 60, 9, CE_RECV_FLAG_SWAPPED)); Next None] /\
      ce_rel 4 2 {| sq := [{| t_ctx := 12; t_desc := {| src_ptr := 0x3000; src_info := {| nbytes := 4; gather := false; byte_swap := true; meta_data := 3616 |} |} |}];
                    s_pub := 1; s_done := 0; rq := []; r_done := [] |} s').
Proof.
  apply (CE_rings_are_queues 3 2); [done|done|reflexivity|reflexivity|repeat split; (done || reflexivity)|vm_compute; reflexivity].
Defined.

(** The relation is of the rings and the registers. *)
Lemma ce_rel_frame Ns Nd e s s' : ce_rel Ns Nd e s ->
  (src_ring s', dest_ring s', SR_WR_INDEX s', CURRENT_SRRI s', DST_WR_INDEX s', CURRENT_DRRI s', accesses s') =
  (src_ring s, dest_ring s, SR_WR_INDEX s, CURRENT_SRRI s, DST_WR_INDEX s, CURRENT_DRRI s, accesses s) -> ce_rel Ns Nd e s'.
Proof.
  intros [HP HS HD Hacc] [= E1 E2 E3 E4 E5 E6 E7]. split; [done| | |congruence].
  - by eapply src_rel_frame; [..|exact HS].
  - by eapply dest_rel_frame; [..|exact HD].
Qed.

(** An engine in use: two transfers taken of three, one buffer filled of two *)
Definition use_steps : list ce_step :=
  [SendList 11 [{| item_data := 0x2000; item_nbytes := 8; item_flags := 0 |}; {| item_data := 0x2100; item_nbytes := 9; item_flags := 0 |}] 5;
   Send 12 0x3000 4 6 0; HwSend 2; RecvPost 21 0x5000; RecvPost 22 0x6000; HwRecv {| nbytes := 60; gather := false; byte_swap := false; meta_data := 9 |}].
Definition used (steps : list ce_step) (id : Z) : option (list ce_result * ST) :=
  (set_up 7 4 (replicate 8 blank_src) (replicate 8 blank_src) ;; do_steps steps) (idle_state id).
Definition used_state (steps : list ce_step) (id : Z) : ST := match used steps id with Some (_, s) => s | None => idle_state id end.
Definition used_engine : engine :=
  {| sq := [{| t_ctx := CE_SENDLIST_ITEM_CTXT; t_desc := src_desc 2 0x2000 8 5 CE_SEND_FLAG_GATHER |};
            {| t_ctx := 11; t_desc := src_desc 2 0x2100 9 5 0 |}; {| t_ctx := 12; t_desc := src_desc 2 0x3000 4 6 0 |}];
     s_pub := 3; s_done := 2; rq := [{| r_ctx := 21; r_ptr := 0x5000 |}; {| r_ctx := 22; r_ptr := 0x6000 |}];
     r_done := [{| nbytes := 60; gather := false; byte_swap := false; meta_data := 9 |}] |}.

Lemma used_rel steps id xs e : spec_steps 8 4 2 71 72 steps no_transfers = Some (xs, e) -> ce_rel 8 4 e (used_state steps id).
Proof.
  intros Hs. assert (Hup : runs (set_up 7 4 (replicate 8 blank_src) (replicate 8 blank_src)) (idle_state id)
    (fun _ s' => ce_rel 8 4 no_transfers s' /\ conf (idle_state id) s')).
  { apply (set_up_rel 7 4); [done|done|reflexivity|reflexivity|repeat split; (done || reflexivity)]. }
  assert (H : runs (set_up 7 4 (replicate 8 blank_src) (replicate 8 blank_src) ;; do_steps steps) (idle_state id) (fun _ s' => ce_rel 8 4 e s')).
  { apply runs_bnd. eapply runs_mono; [exact Hup|]. intros [] s' [HR [(E1 & E2 & E3 & _) _]].
    eapply runs_mono; [apply (do_steps_spec 8 4 steps no_transfers s' xs e HR); by rewrite E1, E2, E3|]. by intros xs' s'' [_ HR']. }
  destruct (runs_elim _ _ _ H) as (a & s' & Hrun & HR). unfold used_state, used. by rewrite Hrun.
Qed.

(** ** A cancelled transfer *)

(** Cancelling a transfer does not move the cached index.  When the device has taken none of
    two transfers or more, the first is taken back; then the next completion reports the
    second as sent, although the device has taken nothing. *)
Theorem cancel_reports_next_unsent Ns Nd e s t1 t2 q : ce_rel Ns Nd e s -> sq e = t1 :: t2 :: q -> s_done e = 0 ->
  runs (c1 <- CE_cancel_send_next ;; c2 <- CE_completed_send_next ;; mreturn (c1, c2)) s (fun '(c1, c2) s' =>
    option_map transfer_ctx c1 = Some (t_ctx t1) /\ option_map transfer_ctx c2 = Some (t_ctx t2) /\
    CURRENT_SRRI s' = CURRENT_SRRI s /\ option_map sw_index (src_ring s') = Some ((CURRENT_SRRI s + 2) mod Ns)).
Proof.
  intros HR Hq Hd. destruct (sr_ring _ _ _ (ce_src _ _ _ _ HR)) as (r & c & Hr & Hn & Hm & Hbl & Hsl & Hcl & Hsw & Hwr & Hc & Hhw & Hwi & Hri & Hslots).
  pose proof (sr_counts _ _ _ (ce_src _ _ _ _ HR)) as Hcnt. destruct (ce_pows _ _ _ _ HR) as [HNs _]. pose proof HNs as (k & Hk & HN).
  rewrite Hq in *. rewrite !len_cons in *. pose proof (len_nonneg q). assert (c = 0) as -> by lia. rewrite Hd, slot_0 in Hri by lia. rewrite slot_0 in Hhw by lia.
  destruct (Hslots 0%nat t1 eq_refl) as (Hb1 & _ & Hx1). destruct (Hslots 1%nat t2 eq_refl) as (_ & Hs2 & Hx2). cbn in Hb1, Hx1, Hs2, Hx2. rewrite slot_0 in Hb1, Hx1 by lia.
  assert (Hne : (sw_index r + 1) mod Ns <> sw_index r). { intros Heq. eapply (slot_ne Ns (sw_index r) 1 0 HNs); [lia..|]. by rewrite Heq, slot_0 by lia. }
  pose proof (slot_range Ns (sw_index r + 1) HNs).
  unfold CE_cancel_send_next. apply runs_bnd. do 2 mstep. rewrite Hr. destruct (Z.eqb_spec (write_index r) (sw_index r)) as [Heq|_]; cbn [negb].
  { exfalso. eapply (slot_ne Ns (sw_index r) (len q + 1 + 1) 0 HNs); [lia..|]. by rewrite <- Hwr, Heq, slot_0 by lia. }
  mstep. eapply runs_oget; [exact Hb1|]. mstep. eapply runs_oget; [exact Hx1|]. mstep. apply runs_aset; [lia|].
  mstep. eapply runs_upd_src; [exact Hr|]. mstep. eapply runs_upd_src; [done|]. mstep. unfold CE_completed_send_next, CE_completed_send_next_nolock.
  rewrite Hm, (CE_RING_IDX_INCR_mod k Ns Hk HN). apply runs_bnd, runs_bnd. eapply runs_get_src; [done|]. cbn [hw_index sw_index set_index set_sw_index set_context set_slots].
  rewrite Hhw. destruct (Z.eqb_spec (sw_index r) ((sw_index r + 1) mod Ns)) as [Heq|_]; [by rewrite <- Heq in Hne|].
  pose proof (N_range k Ns Hk HN). unfold take_send. destruct (Z.eqb_spec (sw_index r) ((sw_index r + 1) mod Ns)) as [Heq|_]; [by rewrite <- Heq in Hne|].
  destruct (Z.eqb_spec (sw_index r) 0xffffffff); [lia|]. cbn [negb andb]. apply runs_bnd. eapply runs_get_src; [done|]. cbn [shadow per_transfer_context set_index set_sw_index set_context set_slots].
  mstep. eapply runs_oget; [exact Hs2|]. mstep. eapply runs_oget; [rewrite aget_upd, decide_False; [exact Hx2|done|unfold len in *; lia]|].
  mstep. apply runs_aset; [rewrite len_upd; lia|]. mstep. eapply runs_upd_src; [done|]. mstep. eapply runs_upd_src; [done|]. do 4 mstep.
  cbn. split; [done|]. split; [done|]. split; [done|]. rewrite Hm, (CE_RING_IDX_INCR_mod k Ns Hk HN), Z.add_mod_idemp_l, Hri by lia. do 2 f_equal. lia.
Qed.

(** Two transfers the device is told of but has not taken: its index is still 2. *)
Lemma cancel_reports_next_unsent_witness :
  let s := used_state [Send 11 0x2000 8 5 0; Send 12 0x3000 4 6 0] 3 in
  runs (c1 <- CE_cancel_send_next ;; c2 <- CE_completed_send_next ;; mreturn (c1, c2)) s (fun '(c1, c2) s' =>
    option_map transfer_ctx c1 = Some 11 /\ option_map transfer_ctx c2 = Some 12 /\ CURRENT_SRRI s' = 2 /\ option_map sw_index (src_ring s') = Some 4).
Proof.
  intros s. set (t1 := {| t_ctx := 11; t_desc := src_desc 2 0x2000 8 5 0 |}). set (t2 := {| t_ctx := 12; t_desc := src_desc 2 0x3000 4 6 0 |}).
  assert (HR : ce_rel 8 4 {| sq := [t1; t2]; s_pub := 2; s_done := 0; rq := []; r_done := [] |} s) by (eapply used_rel; vm_compute; reflexivity).
  eapply runs_mono; [exact (cancel_reports_next_unsent 8 4 _ s t1 t2 [] HR eq_refl eq_refl)|].
  assert (Hs : CURRENT_SRRI s = 2) by (vm_compute; reflexivity). rewrite Hs. clearbody s. by intros [c1 c2] s'.
Defined.
