(* ===== verification/CopyEngineService.v ===== *)
(** * Copy engines: servicing

    What is told of the transfers while an engine is serviced: the callbacks may send, post,
    take back completions themselves and force a break, and the device goes on taking and
    filling descriptors meanwhile.  A [world] says what callbacks and device may add; [goes]
    relates two moments by what was added, done and told between them.  The loops of
    [CE_per_engine_service] are taken one by one. *)

From S2P Require Import Prelude CopyEngine CopyEngineInv CopyEngineProps.

Local Open Scope c_scope.

#[local] Abbreviation ST := CE_state.

(** ** What was told *)

(** Context, transfer context, buffer, length, identifier and flags; the indices of the rings
    are left aside. *)
Definition report : Type := Z * Z * Z * Z * Z * Z.
Definition sent (s : ST) : list report :=
  omap (fun c => match c with SendDone ctx t b n id _ _ => Some (ctx, t, b, n, id, 0) | _ => None end) (calls s).
Definition received (s : ST) : list report :=
  omap (fun c => match c with RecvDone ctx t b n id flags => Some (ctx, t, b, n, id, flags) | _ => None end) (calls s).
(** How often the interrupt status was cleared: once a round *)
Definition rounds (s : ST) : Z := len (omap (fun c => match c with IntStatusClear => Some tt | _ => None end) (calls s)).

Definition tell_sent (ctx : Z) (t : transfer) : report :=
  (ctx, t_ctx t, src_ptr (t_desc t), nbytes (src_info (t_desc t)), meta_data (src_info (t_desc t)), 0).
Definition tell_received (ctx : Z) (b : rbuf) (i : desc_info) : report :=
  (ctx, r_ctx b, r_ptr b, nbytes i, meta_data i, if byte_swap i then CE_RECV_FLAG_SWAPPED else 0).

(** ** From one moment to another *)

(** What callbacks and the device may add: buffers posted, what is filled in, transfers queued, and
    whether the device takes any *)
Record world := { may_post : rbuf -> Prop; may_fill : desc_info -> Prop; may_queue : transfer -> Prop; may_take : Prop }.

Section World.
Context (W : world).

(** [B] was posted and [I] filled in; the first [n] of all the buffers were told, in order, each
    with what the device filled in. *)
Definition recvs_go (e : engine) (s : ST) (e' : engine) (s' : ST) : Prop := exists B I n, Forall (may_post W) B /\ Forall (may_fill W) I /\
  (n <= length (r_done e ++ I) <= length (rq e ++ B))%nat /\ rq e' = drop n (rq e ++ B) /\ r_done e' = drop n (r_done e ++ I) /\
  received s' = received s ++ zip_with (tell_received (recv_context s)) (take n (rq e ++ B)) (take n (r_done e ++ I)).
(** [T] was queued, the device took [D] more, and the first [m] of all the transfers were told, in
    order, all of them taken by the device; on the engine of HTT messages they are only dropped. *)
Definition sends_go (e : engine) (s : ST) (e' : engine) (s' : ST) : Prop := exists T m D, Forall (may_queue W) T /\ (D = 0 \/ 0 < D /\ may_take W) /\
  (m <= length (sq e ++ T))%nat /\ sq e' = drop m (sq e ++ T) /\ s_done e' = s_done e + D - Z.of_nat m /\
  sent s' = sent s ++ if CE_id s =? CE_HTT_H2T_MSG then [] else map (tell_sent (send_context s)) (take m (sq e ++ T)).
(** The break is forced when more was received than allowed. *)
Definition counted (s : ST) : Prop := 0 <= receive_count s /\ force_break s = hif_max_num_receives_reached (receive_count s).
Definition kept (s s' : ST) : Prop :=
  attr_flags s' = attr_flags s /\ send_context s' = send_context s /\ recv_context s' = recv_context s /\
  send_cb s' = send_cb s /\ recv_cb s' = recv_cb s /\ CE_id s' = CE_id s /\ receive_count s <= receive_count s' /\ counted s'.
Record goes (e : engine) (s : ST) (e' : engine) (s' : ST) : Prop := {
  go_recvs : recvs_go e s e' s';
  go_sends : sends_go e s e' s';
  go_kept : kept s s'
}.

Lemma drop_then {A} n n' (q b : list A) : (n <= length q)%nat -> drop n' (drop n q ++ b) = drop (n + n') (q ++ b).
Proof. intros Hn. by rewrite <- drop_app_le, drop_drop by done. Qed.
Lemma take_then {A} n n' (q b : list A) : (n <= length q)%nat -> take n q ++ take n' (drop n q ++ b) = take (n + n') (q ++ b).
Proof. intros Hn. by rewrite <- drop_app_le, <- take_take_drop, take_app_le by done. Qed.

Lemma recvs_go_trans e1 s1 e2 s2 e3 s3 : recv_context s2 = recv_context s1 ->
  recvs_go e1 s1 e2 s2 -> recvs_go e2 s2 e3 s3 -> recvs_go e1 s1 e3 s3.
Proof.
  intros Hc (B & I & n & HB & HI & Hn & Hq & Hd & Hr) (B' & I' & n' & HB' & HI' & Hn' & Hq' & Hd' & Hr'). exists (B ++ B'), (I ++ I'), (n + n')%nat.
  split; [by apply Forall_app|]. split; [by apply Forall_app|].
  rewrite Hq, Hd in *. rewrite !length_app, !length_drop, !length_app in Hn'. rewrite !length_app in Hn. rewrite !app_assoc, !length_app.
  split; [lia|]. rewrite Hq', Hd', Hr', Hr, Hc, <- (app_assoc (received s1)), !drop_then by (rewrite length_app; lia). split; [done|]. split; [done|]. f_equal.
  rewrite <- !take_then by (rewrite length_app; lia). rewrite zip_with_app; [done|]. rewrite !length_take, !length_app. lia.
Qed.
Lemma sends_go_trans e1 s1 e2 s2 e3 s3 : send_context s2 = send_context s1 -> CE_id s2 = CE_id s1 ->
  sends_go e1 s1 e2 s2 -> sends_go e2 s2 e3 s3 -> sends_go e1 s1 e3 s3.
Proof.
  intros Hc Hi (T & m & D & HT & HD & Hm & Hq & Hd & Hr) (T' & m' & D' & HT' & HD' & Hm' & Hq' & Hd' & Hr'). exists (T ++ T'), (m + m')%nat, (D + D').
  split; [by apply Forall_app|]. split; [destruct HD as [->|[? ?]], HD' as [->|[? ?]]; (left; lia) || (right; split; [lia|done])|]. rewrite Hq in *.
  rewrite length_app, length_drop, length_app in Hm'. rewrite length_app in Hm. rewrite !app_assoc, !length_app. split; [lia|].
  rewrite Hq', Hr', Hr, Hc, Hi, <- (app_assoc (sent s1)), drop_then by (rewrite length_app; lia). split; [done|]. split; [lia|]. f_equal.
  rewrite <- take_then by (rewrite length_app; lia). destruct (_ =? _); [done|]. by rewrite map_app.
Qed.
Lemma goes_trans e1 s1 e2 s2 e3 s3 : goes e1 s1 e2 s2 -> goes e2 s2 e3 s3 -> goes e1 s1 e3 s3.
Proof.
  intros [R1 S1 (?&?&?&?&?&?&?&?)] [R2 S2 (?&?&?&?&?&?&?&?)]. split.
  - by eapply recvs_go_trans.
  - by eapply sends_go_trans.
  - unfold kept. split_and!; (congruence || lia || done).
Qed.

(** Nothing is told and the queues stay. *)
Lemma goes_calls Ns Nd e s s' : ce_rel Ns Nd e s -> sent s' = sent s -> received s' = received s -> kept s s' -> goes e s e s'.
Proof.
  intros HR Hs Hr Hk. split; [| |done].
  - exists [], [], 0%nat. do 2 (split; [done|]). rewrite !app_nil_r, !drop_0. pose proof (dr_counts _ _ _ (ce_dest _ _ _ _ HR)) as H. unfold len in H. split; [lia|done].
  - exists [], 0%nat, 0. split; [done|]. split; [by left|]. rewrite !app_nil_r, !drop_0, Hs. split; [lia|]. split; [done|]. split; [lia|]. destruct (_ =? _); by rewrite app_nil_r.
Qed.
Lemma goes_refl Ns Nd e s : ce_rel Ns Nd e s -> counted s -> goes e s e s.
Proof. intros HR Hc. by apply (goes_calls Ns Nd). Qed.
Lemma conf_kept s s' : conf s s' -> counted s -> kept s s'.
Proof. intros [(E1&E2&E3&E4&E5&E6&E7&_&E8) _] Hc. unfold kept, counted in *. rewrite E7, E8. split_and!; (congruence || lia || apply Hc). Qed.
Lemma goes_conf Ns Nd e s s' : ce_rel Ns Nd e s -> conf s s' -> counted s -> goes e s e s'.
Proof.
  intros HR Hs Hc. pose proof Hs as (_ & Hcalls & _). apply (goes_calls Ns Nd); [done|..|by apply conf_kept].
  all: unfold sent, received; by rewrite Hcalls.
Qed.
Lemma conf_rounds s s' : conf s s' -> rounds s' = rounds s.
Proof. intros (_ & E & _). unfold rounds. by rewrite E. Qed.

(** ** What callbacks and the device may do *)

(** Anything that keeps the rings and accounts for what it takes back.  A receive callback counts
    what it got; a send callback runs while the device takes no further transfers, as the
    loop that calls it has no bound. *)
Definition acts (Ns Nd : Z) (m : M ST unit) (pre : ST -> Prop) (P : engine -> ST -> engine -> ST -> Prop) : Prop := forall e s, ce_rel Ns Nd e s -> counted s -> pre s ->
  runs m s (fun _ s' => exists e', ce_rel Ns Nd e' s' /\ goes e s e' s' /\ rounds s' = rounds s /\ P e s e' s').
Definition recv_callback (Ns Nd : Z) (fn : completion -> M ST unit) : Prop :=
  forall c, acts Ns Nd (fn c) (fun s => receive_count s <= MAX_NUM_OF_RECEIVES) (fun _ s _ s' => receive_count s < receive_count s').
Definition send_callback (Ns Nd : Z) (fn : completion -> M ST unit) : Prop :=
  forall c, acts Ns Nd (fn c) (fun _ => True) (fun e s e' s' => s_done e' <= s_done e /\ receive_count s' = receive_count s).
Definition device_step (Ns Nd : Z) (m : M ST unit) : Prop := acts Ns Nd m (fun _ => True) (fun _ s _ s' => receive_count s' = receive_count s /\ rx_pending s' = rx_pending s).

(** [m] is part of the servicing: it goes on from [e] and [s]. *)
Definition serves {A} (Ns Nd : Z) (m : M ST A) (e : engine) (s : ST) (P : A -> engine -> ST -> Prop) : Prop :=
  runs m s (fun a s' => exists e', ce_rel Ns Nd e' s' /\ goes e s e' s' /\ P a e' s').

Lemma serves_bnd {A B} Ns Nd (m : M ST A) (k : A -> M ST B) e s P Q : serves Ns Nd m e s P ->
  (forall a e' s', ce_rel Ns Nd e' s' -> counted s' -> goes e s e' s' -> P a e' s' -> serves Ns Nd (k a) e' s' Q) -> serves Ns Nd (mbnd m k) e s Q.
Proof.
  intros Hm Hk. unfold serves in *. apply runs_bnd. eapply runs_mono; [exact Hm|]. intros a s1 (e1 & HR & HG & HP).
  eapply runs_mono; [apply (Hk a e1 s1 HR); [by destruct (go_kept _ _ _ _ HG) as (?&?&?&?&?&?&?&?)|done|done]|].
  intros b s2 (e2 & HR2 & HG2 & HQ). exists e2. split; [done|]. split; [by eapply goes_trans|done].
Qed.
Lemma serves_ret {A} Ns Nd (a : A) e s P : ce_rel Ns Nd e s -> counted s -> P a e s -> serves Ns Nd (mreturn a) e s P.
Proof. intros HR Hc HP. unfold serves. apply runs_ret. exists e. split; [done|]. split; [by eapply goes_refl|done]. Qed.
Lemma serves_mget {A} Ns Nd (k : ST -> M ST A) e s P : serves Ns Nd (k s) e s P -> serves Ns Nd (mbnd mget k) e s P.
Proof. intros H. unfold serves in *. by do 2 mstep. Qed.
Lemma serves_modify {A} Ns Nd f (k : unit -> M ST A) e s P : ce_rel Ns Nd e s ->
  (src_ring (f s), dest_ring (f s), SR_WR_INDEX (f s), CURRENT_SRRI (f s), DST_WR_INDEX (f s), CURRENT_DRRI (f s), accesses (f s)) =
  (src_ring s, dest_ring s, SR_WR_INDEX s, CURRENT_SRRI s, DST_WR_INDEX s, CURRENT_DRRI s, accesses s) ->
  sent (f s) = sent s -> received (f s) = received s -> kept s (f s) ->
  (ce_rel Ns Nd e (f s) -> serves Ns Nd (k tt) e (f s) P) -> serves Ns Nd (mbnd (modify f) k) e s P.
Proof.
  intros HR Hf Hs Hr Hk Hn. unfold serves in *. do 2 mstep. pose proof (ce_rel_frame _ _ _ _ _ HR Hf) as HR'.
  eapply runs_mono; [by apply Hn|]. intros a s' (e' & ? & ? & ?). exists e'. split; [done|]. split; [|done]. eapply goes_trans; [by eapply goes_calls|done].
Qed.
Lemma serves_access {A} Ns Nd (fail : A) (k : M ST A) e s P : ce_rel Ns Nd e s -> serves Ns Nd k e s P -> serves Ns Nd (A_TARGET_ACCESS_RET fail k) e s P.
Proof. intros HR H. apply access_granted; [by destruct HR|done]. Qed.
Lemma serves_acts {A} Ns Nd m pre P (k : unit -> M ST A) e s Q : acts Ns Nd m pre P -> ce_rel Ns Nd e s -> counted s -> pre s ->
  (forall e' s', ce_rel Ns Nd e' s' -> counted s' -> goes e s e' s' -> rounds s' = rounds s -> P e s e' s' -> serves Ns Nd (k tt) e' s' Q) ->
  serves Ns Nd (mbnd m k) e s Q.
Proof.
  intros Hm HR Hc Hpre Hk. eapply (serves_bnd _ _ m k e s (fun _ e' s' => rounds s' = rounds s /\ P e s e' s')).
  - eapply runs_mono; [by apply Hm|]. intros [] s' (e' & ? & ? & ?). by exists e'.
  - intros [] e' s' ? ? ? []. by apply Hk.
Qed.

(** One loop rule for all three loops: an invariant and a measure *)
Lemma serves_miter {L B} Ns Nd (J : L -> engine -> ST -> Prop) (mu : L -> engine -> ST -> Z) (Q : B -> engine -> ST -> Prop)
    (body : L -> M ST (L + B)) :
  (forall l e s, ce_rel Ns Nd e s -> counted s -> J l e s -> serves Ns Nd (body l) e s (fun r e' s' =>
     match r with inl l' => J l' e' s' /\ mu l' e' s' < mu l e s | inr b => Q b e' s' end)) ->
  (forall l e s, ce_rel Ns Nd e s -> J l e s -> 0 <= mu l e s) ->
  forall fuel l e s, ce_rel Ns Nd e s -> counted s -> J l e s -> mu l e s < Z.of_nat fuel -> serves Ns Nd (miter fuel body l) e s Q.
Proof.
  intros Hbody Hmu fuel. induction fuel as [|fuel IH]; intros l e s HR Hc HJ Hf; [specialize (Hmu l e s HR HJ); lia|]. cbn [miter].
  eapply serves_bnd; [by apply Hbody|]. intros [l'|b] e' s' HR' Hc' _; [intros [HJ' Hlt]; apply IH; (done || lia)|]. intros HQ. by apply serves_ret.
Qed.

Lemma serves_from {A} Ns Nd (m : M ST A) e s e1 s1 P : goes e s e1 s1 -> serves Ns Nd m e1 s1 P ->
  runs m s1 (fun a s' => exists e', ce_rel Ns Nd e' s' /\ goes e s e' s' /\ P a e' s').
Proof. intros HG H. eapply runs_mono; [exact H|]. intros a s' (e' & ? & ? & ?). exists e'. split; [done|]. split; [by eapply goes_trans|done]. Qed.

(** ** The loops *)

Section Loops.
Context (Ns Nd : Z) (send_fn recv_fn : completion -> M ST unit) (device : M ST unit).
Context (Hsend : send_callback Ns Nd send_fn) (Hrecv : recv_callback Ns Nd recv_fn) (Hdev : device_step Ns Nd device).

(** Taking the oldest filled buffer and telling of it *)
Lemma told_received e s b q i rd c s1 : ce_rel Ns Nd e s -> counted s -> rq e = b :: q -> r_done e = i :: rd -> conf s s1 ->
  reported c = tell_received (recv_context s) b i ->
  let s2 := add_call (RecvDone (per_CE_context c) (transfer_ctx c) (buf_ c) (nbytes_ c) (transfer_id_ c) (flags_ c)) s1 in
  goes e s (set_rq q rd e) s2 /\ rounds s2 = rounds s /\ counted s2 /\ receive_count s2 = receive_count s.
Proof.
  intros HR Hc Hq Hd Hs Hrep s2. pose proof Hs as (_ & Hcalls & _). pose proof (conf_kept _ _ Hs Hc) as Hk.
  pose proof Hs as [(_&_&_&_&_&_&E1&_&E2) _]. injection Hrep as F1 F2 F3 F4 F5 F6.
  pose proof (dr_counts _ _ _ (ce_dest _ _ _ _ HR)) as Hcnt. rewrite Hq, Hd in Hcnt. unfold len in Hcnt. cbn [length] in Hcnt.
  split; [split|split; [|split]].
  - exists [], [], 1%nat. do 2 (split; [done|]). rewrite !app_nil_r, Hq, Hd. split; [cbn; lia|]. split; [done|]. split; [done|].
    unfold received, s2. cbn [calls add_call set_rest]. rewrite omap_app, Hcalls. cbn. unfold tell_received. by rewrite F1, F2, F3, F4, F5, F6.
  - exists [], 0%nat, 0. split; [done|]. split; [by left|]. rewrite !app_nil_r, !drop_0. split; [lia|]. split; [done|]. split; [cbn; lia|].
    unfold sent, s2. cbn [calls add_call set_rest]. rewrite omap_app, Hcalls. cbn. by destruct (_ =? _); rewrite !app_nil_r.
  - exact Hk.
  - unfold rounds, s2. cbn [calls add_call set_rest]. rewrite omap_app, Hcalls. cbn. by rewrite app_nil_r.
  - apply Hk.
  - exact E2.
Qed.

Lemma reap_recvs_serves e s : ce_rel Ns Nd e s -> counted s -> receive_count s <= MAX_NUM_OF_RECEIVES ->
  serves Ns Nd (reap_recvs recv_fn) e s (fun b e' s' => rounds s' = rounds s /\
    if b : bool then MAX_NUM_OF_RECEIVES < receive_count s' else receive_count s' <= MAX_NUM_OF_RECEIVES /\ r_done e' = []).
Proof.
  intros HR Hc Hm. unfold reap_recvs. remember (rounds s) as R eqn:HR0.
  apply (serves_miter Ns Nd (fun _ _ s' => rounds s' = R /\ receive_count s' <= MAX_NUM_OF_RECEIVES) (fun _ _ s => Z.max 0 (MAX_NUM_OF_RECEIVES + 1 - receive_count s))); [|lia|done|done|done|].
  2: { destruct Hc. rewrite Z2Nat.id by done. unfold MAX_NUM_OF_RECEIVES. lia. }
  clear e s HR Hc HR0 Hm. intros [] e s HR Hc [HR0 Hm]. apply runs_bnd. eapply runs_mono; [exact (CE_completed_recv_next_spec Ns Nd e s HR)|].
  intros oc s1 (Ho & HR1 & Hs1). unfold spec_recv_done in Ho, HR1. pose proof (dr_counts _ _ _ (ce_dest _ _ _ _ HR)) as Hcnt.
  destruct (r_done e) as [|i rd] eqn:Hrd.
  { assert (oc = None /\ ce_rel Ns Nd e s1) as [-> HRe] by (destruct (rq e), oc; done).
    pose proof (goes_conf _ _ _ _ _ HR Hs1 Hc) as HG. apply (serves_from _ _ _ _ _ _ _ _ HG). apply serves_ret; [done|by apply (conf_kept s)|].
    rewrite (conf_rounds _ _ Hs1). split; [done|]. pose proof Hs1 as [(_&_&_&_&_&_&_&_&->) _]. done. }
  destruct (rq e) as [|b q] eqn:Hrq; [unfold len in Hcnt; cbn in Hcnt; lia|]. destruct oc as [c|]; [|done]. cbn [option_map fst snd] in Ho, HR1. injection Ho as Ho.
  destruct (told_received e s b q i rd c s1 HR Hc Hrq Hrd Hs1) as (HG & E1 & E2 & E3); [by unfold reported, tell_received in *; congruence|].
  do 2 mstep. match goal with |- runs _ ?x _ => assert (HR2 : ce_rel Ns Nd (set_rq q rd e) x) by (by apply (ce_rel_frame _ _ _ _ _ HR1)) end.
  apply (serves_from _ _ _ _ _ _ _ _ HG). eapply serves_acts; [apply Hrecv|done|done|cbv beta; by rewrite E3|]. intros e3 s3 HR3 Hc3 _ E4 E5.
  cbv beta in E5. apply serves_mget. pose proof Hc3 as [_ Hb]. rewrite Hb. unfold hif_max_num_receives_reached.
  destruct (Z.ltb_spec MAX_NUM_OF_RECEIVES (receive_count s3)); (apply serves_ret; [done|done|]); split; try split; congruence || lia.
Qed.

(** A completion of a send on the engine of HTT messages only gives the pipe a send back. *)
Lemma send_done_serves e s t q c s1 : ce_rel Ns Nd e s -> counted s -> sq e = t :: q -> 0 < s_done e -> conf s s1 ->
  ce_rel Ns Nd (set_sq q (s_pub e - 1) (s_done e - 1) e) s1 -> reported c = tell_sent (send_context s) t ->
  runs (send_done send_fn c) s1 (fun _ s' => exists e', ce_rel Ns Nd e' s' /\ goes e s e' s' /\ rounds s' = rounds s /\ s_done e' < s_done e /\ receive_count s' = receive_count s /\
    (CE_id s = CE_HTT_H2T_MSG -> s_done e' = s_done e - 1 /\ num_sends_allowed s' = num_sends_allowed s + 1)).
Proof.
  intros HR Hc Hq Hd Hs HR1 Hrep. pose proof Hs as (_ & Hcalls & Ha). pose proof (conf_kept _ _ Hs Hc) as Hk. pose proof Hk as (_ & _ & _ & _ & _ & Hid & _).
  pose proof (dr_counts _ _ _ (ce_dest _ _ _ _ HR)) as Hcnt. unfold len in Hcnt.
  assert (Hgo : forall s2, sent s2 = sent s ++ (if CE_id s =? CE_HTT_H2T_MSG then [] else [tell_sent (send_context s) t]) -> received s2 = received s -> kept s s2 ->
    goes e s (set_sq q (s_pub e - 1) (s_done e - 1) e) s2).
  { intros s2 H1 H2 H3. split; [| |done].
    - exists [], [], 0%nat. do 2 (split; [done|]). rewrite !app_nil_r, !drop_0. split; [lia|done].
    - exists [], 1%nat, 0. split; [done|]. split; [by left|]. rewrite !app_nil_r, Hq. split; [cbn; lia|]. split; [done|]. split; [cbn; lia|]. rewrite H1. by destruct (_ =? _). }
  unfold send_done. do 2 mstep. rewrite Hid. destruct (Z.eqb_spec (CE_id s) CE_HTT_H2T_MSG) as [Hh|Hh]; cbn [negb].
  - mstep. exists (set_sq q (s_pub e - 1) (s_done e - 1) e). split; [by apply (ce_rel_frame _ _ _ _ _ HR1)|].
    assert (Hcalls' : calls (allow_send s1) = calls s) by done.
    split; [|split; [by unfold rounds; rewrite Hcalls'|split; [cbn; lia|split; [apply Hs|]]]].
    + apply Hgo; [..|done]; [unfold sent|unfold received]; by rewrite Hcalls', ?app_nil_r.
    + intros _. split; [done|]. cbn. lia.
  - do 2 mstep. injection Hrep as F1 F2 F3 F4 F5 F6. match goal with |- runs _ ?x _ => set (s2 := x) end.
    assert (HR2 : ce_rel Ns Nd (set_sq q (s_pub e - 1) (s_done e - 1) e) s2) by (by apply (ce_rel_frame _ _ _ _ _ HR1)).
    eapply runs_mono; [apply (Hsend c _ s2 HR2)|]; [by apply Hk|done|]. intros [] s' (e' & HR' & HG & Hr & Hn & Hrc). exists e'. split; [done|].
    assert (Hrr : rounds s2 = rounds s). { unfold rounds, s2. cbn [calls add_call set_rest]. rewrite omap_app, Hcalls. cbn. by rewrite app_nil_r. }
    split; [|split; [congruence|split; [cbn in Hn; lia|split; [rewrite Hrc; apply Hs|done]]]]. eapply goes_trans; [|exact HG]. apply Hgo; [| |exact Hk].
    + unfold sent, s2. cbn [calls add_call set_rest]. rewrite omap_app, Hcalls. cbn. unfold tell_sent. by rewrite F1, F2, F3, F4, F5.
    + unfold received, s2. cbn [calls add_call set_rest]. rewrite omap_app, Hcalls. cbn. by rewrite app_nil_r.
Qed.

Lemma reap_sends_serves e s : ce_rel Ns Nd e s -> counted s ->
  serves Ns Nd (reap_sends send_fn) e s (fun _ e' s' => rounds s' = rounds s /\ receive_count s' = receive_count s /\ s_done e' = 0 /\
    (CE_id s = CE_HTT_H2T_MSG -> num_sends_allowed s' = num_sends_allowed s + s_done e)).
Proof.
  intros HR Hc. unfold reap_sends. destruct (ce_src _ _ _ _ HR) as [(r & k & Hr & Hn & _ & _ & _ & _ & _ & _ & Hk & _) Hcnt].
  apply runs_bnd. eapply runs_get_src; [exact Hr|].
  apply (serves_miter Ns Nd (fun _ e' s' => rounds s' = rounds s /\ receive_count s' = receive_count s /\ CE_id s' = CE_id s /\ 0 <= s_done e' /\
      (CE_id s = CE_HTT_H2T_MSG -> num_sends_allowed s' + s_done e' = num_sends_allowed s + s_done e)) (fun _ e _ => s_done e));
    [|by intros _ e1 s1 _ (_ & _ & _ & ? & _)|done|done|split; [done|]; split; [done|]; split; [done|]; split; [lia|done]|lia].
  clear Hcnt. intros [] e1 s1 HR1 Hc1 (J1 & J0 & J2 & J3 & J4). apply runs_bnd. eapply runs_mono; [exact (CE_completed_send_next_spec Ns Nd e1 s1 HR1)|].
  intros oc s2 (Ho & HR2 & Hs2). unfold spec_send_done in Ho, HR2. pose proof (sr_counts _ _ _ (ce_src _ _ _ _ HR1)) as Hcnt.
  destruct (decide (s_done e1 = 0)) as [Hz|Hz].
  { assert (Hn' : oc = None /\ ce_rel Ns Nd e1 s2). { rewrite Hz in *. destruct (sq e1); cbn in Ho, HR2; (split; [by destruct oc|done]). }
    destruct Hn' as [-> HRe]. pose proof (goes_conf _ _ _ _ _ HR1 Hs2 Hc1) as HG. apply (serves_from _ _ _ _ _ _ _ _ HG).
    apply serves_ret; [done|by apply (conf_kept s1)|]. rewrite (conf_rounds _ _ Hs2). split; [done|]. pose proof Hs2 as [(_&_&_&_&_&_&_&_&->) _]. split; [done|]. split; [done|].
    pose proof Hs2 as (_ & _ & ->). intros Hid. specialize (J4 Hid). lia. }
  destruct (sq e1) as [|t q] eqn:Hq; [unfold len in Hcnt; cbn in Hcnt; lia|]. rewrite (proj2 (Z.ltb_lt 0 (s_done e1))) in Ho, HR2 by lia.
  destruct oc as [c|]; [|done]. cbn [option_map fst snd] in Ho, HR2. injection Ho as Ho. apply runs_bnd.
  eapply runs_mono; [apply (send_done_serves e1 s1 t q c s2 HR1 Hc1 Hq ltac:(lia) Hs2 HR2); by unfold reported, tell_sent in *; congruence|].
  intros [] s3 (e3 & HR3 & HG & E1 & E2 & E0 & E3). apply runs_ret. exists e3. split; [done|]. split; [done|].
  pose proof (go_kept _ _ _ _ HG) as (_ & _ & _ & _ & _ & E4 & _). destruct (sr_ring _ _ _ (ce_src _ _ _ _ HR3)) as (r3 & k3 & _ & _ & _ & _ & _ & _ & _ & _ & Hk3 & _).
  split; [|done]. split; [congruence|]. split; [congruence|]. split; [congruence|]. split; [lia|]. intros Hid. rewrite J2 in E3. destruct (E3 Hid). specialize (J4 Hid). lia.
Qed.

(** ** The parts of a round *)

Lemma serves_meets {A B} (f : A -> B) (m : M ST A) e s v : ce_rel Ns Nd e s -> counted s -> meets Ns Nd f m s (v, e) ->
  serves Ns Nd m e s (fun a e' s' => f a = v /\ e' = e /\ conf s s').
Proof. intros HR Hc Hm. eapply runs_mono; [exact Hm|]. intros a s' (Ha & HR' & Hs). exists e. split; [done|]. split; [by eapply goes_conf|done]. Qed.

Lemma recv_part e s : ce_rel Ns Nd e s -> counted s -> receive_count s <= MAX_NUM_OF_RECEIVES ->
  serves Ns Nd (if recv_cb s then reap_recvs recv_fn else mreturn false) e s (fun b e' s' => rounds s' = rounds s /\
    if b : bool then MAX_NUM_OF_RECEIVES < receive_count s' else receive_count s' <= MAX_NUM_OF_RECEIVES).
Proof.
  intros HR Hc Hm. destruct (recv_cb s); [|by apply serves_ret]. eapply runs_mono; [by apply reap_recvs_serves|].
  intros b s' (e' & ? & ? & ? & ?). exists e'. destruct b; [done|]. tauto.
Qed.
Lemma send_part e s : ce_rel Ns Nd e s -> counted s ->
  serves Ns Nd (if send_cb s then reap_sends send_fn else mreturn tt) e s (fun _ e' s' => rounds s' = rounds s /\ receive_count s' = receive_count s).
Proof.
  intros HR Hc. destruct (send_cb s); [|by apply serves_ret]. eapply runs_mono; [by apply reap_sends_serves|].
  intros [] s' (e' & ? & ? & ? & ? & ?). by exists e'.
Qed.
Lemma clear_serves e s : ce_rel Ns Nd e s -> counted s ->
  serves Ns Nd (CE_ENGINE_INT_STATUS_CLEAR device) e s (fun _ e' s' => rounds s' = rounds s + 1 /\ receive_count s' = receive_count s /\ rx_pending s' = rx_pending s).
Proof.
  intros HR Hc. unfold CE_ENGINE_INT_STATUS_CLEAR. apply serves_modify; [done|done|unfold sent; cbn; by rewrite omap_app, app_nil_r|unfold received; cbn; by rewrite omap_app, app_nil_r|done|].
  intros HR'. eapply runs_mono; [by apply (Hdev e _ HR')|]. intros [] s' (e' & H1 & H2 & H3 & H4 & H5). exists e'. split; [done|]. split; [done|]. split; [|done].
  rewrite H3. unfold rounds. cbn. rewrite omap_app, len_app. done.
Qed.
Lemma recvs_left e s : ce_rel Ns Nd e s -> counted s ->
  serves Ns Nd (if recv_cb s then CE_recv_entries_done else mreturn 0) e s (fun d e' s' => d = (if recv_cb s then len (r_done e') else 0) /\ e' = e /\ conf s s').
Proof.
  intros HR Hc. destruct (recv_cb s); [|by apply serves_ret].
  assert (Hm : meets Ns Nd (fun d => d) CE_recv_entries_done s (len (r_done e), e)).
  { eapply runs_mono; [exact (CE_recv_entries_done_spec Ns Nd e s HR)|]. done. }
  eapply runs_mono; [exact (serves_meets _ _ _ _ _ HR Hc Hm)|]. intros d s' (e' & ? & ? & -> & -> & ?). exists e. done.
Qed.
Lemma sends_left e s : ce_rel Ns Nd e s -> counted s ->
  serves Ns Nd (if send_cb s then CE_send_entries_done else mreturn 0) e s (fun d e' s' => (send_cb s = true -> d = s_done e') /\ e' = e /\ conf s s').
Proof.
  intros HR Hc. destruct (send_cb s); [|by apply serves_ret].
  assert (Hm : meets Ns Nd (fun d => d) CE_send_entries_done s (s_done e, e)).
  { eapply runs_mono; [exact (CE_send_entries_done_spec Ns Nd e s HR)|]. done. }
  eapply runs_mono; [exact (serves_meets _ _ _ _ _ HR Hc Hm)|]. intros d s' (e' & ? & ? & -> & -> & ?). exists e. done.
Qed.
(** A ring all of whose buffers are filled looks as if something was wrong. *)
Lemma valid_entries e s : ce_rel Ns Nd e s -> counted s ->
  serves Ns Nd (ce_is_valid_entries (len (r_done e))) e s (fun v e' s' => e' = e /\ rounds s' = rounds s /\ receive_count s' = receive_count s /\
    (v = true \/ len (r_done e) = Nd - 1 /\ TargetReset ∈ calls s')).
Proof.
  intros HR Hc. destruct (ce_dest _ _ _ _ HR) as [(r & Hr & _ & Hm & _ & _ & Hsw & _ & _ & Hri & _) Hcnt _]. destruct (ce_pows _ _ _ _ HR) as [_ (k & Hk & HN)].
  assert (Hne : CURRENT_DRRI s <> CE_HW_INDEX_LINK_DOWN).
  { pose proof (slot_range Nd (sw_index r + len (r_done e)) (ex_intro _ k (conj Hk HN))). rewrite Hri.
    assert (2 ^ k <= 2 ^ 31) by (apply Z.pow_le_mono_r; lia). unfold CE_HW_INDEX_LINK_DOWN. lia. }
  unfold serves, ce_is_valid_entries, CE_DEST_RING_READ_IDX_GET. do 2 mstep. apply runs_bnd. eapply runs_get_dest; [exact Hr|]. rewrite Hm.
  rewrite (proj2 (Z.eqb_neq _ _) Hne). cbn [negb]. rewrite andb_true_r. destruct (Z.ltb_spec (len (r_done e)) (Nd - 1)).
  - mstep. exists e. split; [done|]. split; [by eapply goes_refl|]. split; [done|]. split; [done|]. split; [done|by left].
  - unfold ce_target_reset. do 3 mstep. exists e. split; [by apply (ce_rel_frame _ _ _ _ _ HR)|]. split; [|split; [done|split; [|split; [done|right]]]].
    + apply (goes_calls Ns Nd); [done|unfold sent; cbn; by rewrite omap_app, app_nil_r|unfold received; cbn; by rewrite omap_app, app_nil_r|done].
    + unfold rounds. cbn. rewrite omap_app. cbn. by rewrite app_nil_r.
    + split; [lia|]. cbn. apply elem_of_app. right. by left.
Qed.
End Loops.

(** ** The whole service *)

(** [R] rounds were made before; [rcb] and [scb]: whether callbacks are registered. *)
Record serviced (Nd R : Z) (rcb scb : bool) (e : engine) (s : ST) : Prop := {
  sv_left : MAX_NUM_OF_RECEIVES < receive_count s \/ (rcb = true -> r_done e = []) /\ (scb = true -> s_done e = 0) \/
    R + CE_TXRX_COMP_CHECK_THRESHOLD < rounds s;
  sv_pending : rcb = true -> r_done e <> [] -> rx_pending s = true \/ len (r_done e) = Nd - 1 /\ TargetReset ∈ calls s;
  sv_needed : rx_pending s = true -> MAX_NUM_OF_RECEIVES < receive_count s \/ R + CE_TXRX_COMP_CHECK_THRESHOLD < rounds s;
  sv_rounds : R < rounds s <= R + 2 * CE_TXRX_COMP_CHECK_THRESHOLD + 1
}.

(** The counters against the rounds made *)
Record counters (R : Z) (l : Z * Z * bool) (s : ST) : Prop := {
  ct_recv : 0 <= l.1.1 /\ R + l.1.1 <= rounds s;
  ct_send : 0 <= l.1.2 <= CE_TXRX_COMP_CHECK_THRESHOLD /\ R + l.1.2 <= rounds s;
  ct_both : rounds s <= R + Z.min l.1.1 CE_TXRX_COMP_CHECK_THRESHOLD + l.1.2;
  ct_pending : l.2 = true -> R + CE_TXRX_COMP_CHECK_THRESHOLD < rounds s
}.
Definition retries (l : Z * Z * bool) : Z := 2 * CE_TXRX_COMP_CHECK_THRESHOLD - Z.min l.1.1 CE_TXRX_COMP_CHECK_THRESHOLD - l.1.2.

Section Service.
Context (Ns Nd : Z) (send_fn recv_fn : completion -> M ST unit) (device : M ST unit).
Context (Hsend : send_callback Ns Nd send_fn) (Hrecv : recv_callback Ns Nd recv_fn) (Hdev : device_step Ns Nd device).

Definition going (R : Z) (rcb scb : bool) (l : Z * Z * bool) (s : ST) : Prop :=
  counters R l s /\ recv_cb s = rcb /\ send_cb s = scb /\ receive_count s <= MAX_NUM_OF_RECEIVES.
Definition round_post (R : Z) (rcb scb : bool) (K : Z) (r : Z * Z * bool + unit) (e : engine) (s : ST) : Prop :=
  match r with
  | inl l => going R rcb scb l s /\ retries l < K
  | inr _ => serviced Nd R rcb scb e s
  end.

(** The end of a round: the check for sends *)
Lemma send_check_serves R rcb scb K mc msc pend e s : ce_rel Ns Nd e s -> counted s -> recv_cb s = rcb -> send_cb s = scb -> receive_count s <= MAX_NUM_OF_RECEIVES ->
  0 <= mc /\ R + mc <= rounds s -> 0 <= msc <= CE_TXRX_COMP_CHECK_THRESHOLD /\ R + msc < rounds s ->
  rounds s <= R + Z.min mc CE_TXRX_COMP_CHECK_THRESHOLD + msc + 1 -> (pend = true -> R + CE_TXRX_COMP_CHECK_THRESHOLD < rounds s) ->
  (rcb = true -> r_done e <> [] -> R + CE_TXRX_COMP_CHECK_THRESHOLD < rounds s /\ (pend = true \/ len (r_done e) = Nd - 1 /\ TargetReset ∈ calls s)) ->
  2 * CE_TXRX_COMP_CHECK_THRESHOLD - Z.min mc CE_TXRX_COMP_CHECK_THRESHOLD - msc <= K ->
  serves Ns Nd (snd_done <- (if send_cb s then CE_send_entries_done else mreturn 0) ;;
    if negb (snd_done =? 0) && (msc <? CE_TXRX_COMP_CHECK_THRESHOLD) then mreturn (inl (mc, msc + 1, pend))
    else modify (set_rx_pending pend) ;; A_TARGET_ACCESS_RET (inr tt) (mreturn (inr tt))) e s (round_post R rcb scb K).
Proof.
  intros HR Hc Hrcb Hscb Hmax Hmc Hmsc Hrs Hp Hleft HK. eapply serves_bnd; [by apply sends_left|]. intros d e' s' HR' Hc' G (D & -> & E). rewrite Hscb in D.
  pose proof (go_kept _ _ _ _ G) as (_ & _ & _ & K1 & K2 & _). pose proof (conf_rounds _ _ E) as E1. destruct E as ((_&_&_&_&_&_&_&_&E3) & E2 & _). rewrite <- E1, <- E2, <- E3 in *. clear G.
  unfold CE_TXRX_COMP_CHECK_THRESHOLD in *. destruct (negb (d =? 0) && (msc <? 20)) eqn:Hd.
  - apply andb_true_iff in Hd as [Hd Hm]. apply Z.ltb_lt in Hm. apply serves_ret; [done|done|]. split; [|unfold retries, CE_TXRX_COMP_CHECK_THRESHOLD; cbn [fst snd]; lia].
    split; [|split; [congruence|split; [congruence|done]]]. split; cbn [fst snd]; unfold CE_TXRX_COMP_CHECK_THRESHOLD; (done || lia).
  - apply serves_modify; [done|done|done|done|done|]. intros HR2. apply serves_access; [done|]. apply serves_ret; [done|done|].
    cbn [round_post]. split; change (rounds (set_rx_pending pend s')) with (rounds s'); cbn [receive_count rx_pending set_rx_pending set_rest calls]; unfold CE_TXRX_COMP_CHECK_THRESHOLD.
    + destruct (decide (rcb = true /\ r_done e <> [])) as [[Hb Hne]|Hn]; [right; right; by apply Hleft|].
      apply andb_false_iff in Hd as [Hd|Hm]; [|apply Z.ltb_ge in Hm; right; right; lia]. apply negb_false_iff, Z.eqb_eq in Hd.
      right; left. split; [intros Hb; destruct (decide (r_done e = [])); [done|tauto]|]. intros Hb. by rewrite <- D.
    + intros Hb Hne. by apply Hleft.
    + intros Hpt. right. by apply Hp.
    + lia.
Qed.

Lemma round_serves R rcb scb l e s : ce_rel Ns Nd e s -> counted s -> going R rcb scb l s ->
  serves Ns Nd (service_round send_fn recv_fn device l) e s (round_post R rcb scb (retries l)).
Proof.
  intros HR Hc (HC & Hrcb & Hscb & Hmax). destruct l as [[mc msc] pend]. destruct HC as [C1 C2 C3 C4]. cbn [fst snd] in *.
  unfold service_round. apply serves_mget. eapply serves_bnd; [by apply recv_part|]. intros b e1 s1 HR1 Hc1 G1 [E1 B1].
  pose proof (go_kept _ _ _ _ G1) as (_ & _ & _ & K1 & K1' & _). destruct b.
  { apply serves_modify; [done|done|done|done|done|]. intros HR1'. eapply serves_bnd; [by apply clear_serves|]. intros [] e2 s2 HR2 Hc2 G2 (E2 & E3 & E4).
    cbn in E3, E4. apply serves_access; [done|]. apply serves_ret; [done|done|]. change (rounds (set_rx_pending true s1)) with (rounds s1) in E2.
    split; [by left; lia|by left|by left; lia|]. unfold CE_TXRX_COMP_CHECK_THRESHOLD in *. lia. }
  eapply serves_bnd; [rewrite <- K1; by apply send_part|]. intros [] e2 s2 HR2 Hc2 G2 [E2 M2]. pose proof (go_kept _ _ _ _ G2) as (_ & _ & _ & K2 & K2' & _).
  eapply serves_bnd; [by apply clear_serves|]. intros [] e3 s3 HR3 Hc3 G3 (E3 & M3 & _). pose proof (go_kept _ _ _ _ G3) as (_ & _ & _ & K3 & K3' & _).
  assert (Hr : rounds s3 = rounds s + 1) by lia. rewrite <- M2, <- M3 in B1. clear M2 M3 Hmax. assert (R3 : recv_cb s3 = recv_cb s) by congruence. assert (S3 : send_cb s3 = send_cb s) by congruence.
  clear E1 E2 E3 K1 K1' K2 K2' K3 K3' G1 G2 G3.
  eapply serves_bnd; [rewrite <- R3; by apply recvs_left|]. intros d e4 s4 HR4 Hc4 G4 (D4 & -> & E4). rewrite R3, Hrcb in D4.
  pose proof (go_kept _ _ _ _ G4) as (_ & _ & _ & K4 & K4' & _). pose proof (conf_rounds _ _ E4) as E5. destruct E4 as ((_&_&_&_&_&_&_&_&M4) & _). rewrite <- M4 in B1. clear M4 G4. rewrite <- E5 in Hr.
  assert (S4 : send_cb s = send_cb s4) by congruence. rewrite S4. unfold CE_TXRX_COMP_CHECK_THRESHOLD in *. unfold retries, CE_TXRX_COMP_CHECK_THRESHOLD; cbn [fst snd].
  destruct (Z.eqb_spec d 0) as [Hd|Hd]; [|destruct (Z.ltb_spec mc 20)]; cbn [negb andb].
  - eapply (serves_bnd _ _ _ _ _ _ (fun p e' s' => p = pend /\ e' = e3 /\ s' = s4)); [by apply serves_ret|]. intros p e5 s5 HR5 Hc5 _ (-> & -> & ->).
    apply send_check_serves; unfold CE_TXRX_COMP_CHECK_THRESHOLD; try (done || congruence || lia); [intros Hp; specialize (C4 Hp); lia|].
    intros Hb Hne. destruct (r_done e3); [done|]. rewrite Hb, len_cons in D4. pose proof (len_nonneg l). lia.
  - apply serves_ret; [done|done|]. split; [|unfold retries, CE_TXRX_COMP_CHECK_THRESHOLD; cbn [fst snd]; lia]. split; [|split; [congruence|split; [congruence|done]]].
    split; cbn [fst snd]; unfold CE_TXRX_COMP_CHECK_THRESHOLD; try lia. intros Hp. specialize (C4 Hp). lia.
  - destruct rcb; [subst d|done].
    eapply (serves_bnd _ _ _ _ _ _ (fun p e' s' => e' = e3 /\ rounds s' = rounds s4 /\ receive_count s' = receive_count s4 /\ (p = true \/ len (r_done e3) = Nd - 1 /\ TargetReset ∈ calls s'))).
    { eapply serves_bnd; [by apply valid_entries|]. intros v e5 s5 HR5 Hc5 _ (-> & E6 & M6 & Hv). apply serves_ret; [done|done|]. split; [done|]. split; [done|]. split; [done|].
      destruct Hv as [->|Hv]; [left; by rewrite orb_true_r|by right]. }
    intros p e5 s5 HR5 Hc5 G5 (-> & E6 & M6 & Hv). pose proof (go_kept _ _ _ _ G5) as (_ & _ & _ & K5 & K5' & _).
    rewrite <- K5. apply send_check_serves; unfold CE_TXRX_COMP_CHECK_THRESHOLD; try (done || congruence || lia).
    intros Hb Hne. split; [lia|done].
Qed.

(** C24.  Servicing an engine ends, after at most 41 rounds, whatever its callbacks send, post and
    take back, and although the device goes on while they run and between the reaping of a
    round and its checks.  The callbacks get the filled buffers and the transfers taken, each
    once and in the order they were posted and queued in, the buffers with what the device
    filled in, but no transfer of the engine that carries HTT messages.  When it ends, no filled
    buffer and no taken transfer is left, unless the receive callbacks forced the break or
    more was found in more than twenty rounds; filled buffers that are left are marked
    pending, or the target is reset when they are a whole ring. *)
Theorem CE_per_engine_service_reports e s : ce_rel Ns Nd e s ->
  runs (CE_per_engine_service send_fn recv_fn device) s (fun _ s' => exists e', ce_rel Ns Nd e' s' /\
    recvs_go e s e' s' /\ sends_go e s e' s' /\ serviced Nd (rounds s) (recv_cb s) (send_cb s) e' s').
Proof.
  intros HR. unfold CE_per_engine_service. apply access_granted; [by destruct HR|]. do 2 mstep. set (s0 := set_receives 0 false s).
  assert (HR0 : ce_rel Ns Nd e s0) by (by apply (ce_rel_frame _ _ _ _ _ HR)). assert (Hc0 : counted s0) by done.
  assert (Hs : serves Ns Nd (miter 43 (service_round send_fn recv_fn device) (0, 0, false)) e s0 (fun _ e' s' => serviced Nd (rounds s) (recv_cb s) (send_cb s) e' s')).
  { apply (serves_miter Ns Nd (fun l _ s' => going (rounds s) (recv_cb s) (send_cb s) l s') (fun l _ _ => retries l)); [| |done|done| |done].
    - intros l e1 s1 HR1 Hc1 HJ. by apply round_serves.
    - intros l e1 s1 _ ([_ [? _] _ _] & _). unfold retries, CE_TXRX_COMP_CHECK_THRESHOLD in *. lia.
    - split; [|done]. split; cbn; unfold CE_TXRX_COMP_CHECK_THRESHOLD; try lia; try done; change (rounds s0) with (rounds s); lia. }
  eapply runs_mono; [exact Hs|]. intros [] s' (e' & HR' & [G1 G2 _] & HS). by exists e'.
Qed.

(** The reaping of an engine that carries HTT messages gives the pipe back one send for every
    transfer the device has taken, without a callback; on any other engine the callback gets
    every one of them, in order. *)
Theorem CE_per_engine_servicereap_reports e s : ce_rel Ns Nd e s -> counted s -> send_cb s = true ->
  runs (CE_per_engine_servicereap send_fn) s (fun _ s' => exists e', ce_rel Ns Nd e' s' /\ recvs_go e s e' s' /\ sends_go e s e' s' /\ s_done e' = 0 /\
    (CE_id s = CE_HTT_H2T_MSG -> num_sends_allowed s' = num_sends_allowed s + s_done e)).
Proof.
  intros HR Hc Hcb. unfold CE_per_engine_servicereap. apply access_granted; [by destruct HR|]. do 2 mstep. rewrite Hcb. apply runs_bnd.
  eapply runs_mono; [by apply (reap_sends_serves Ns Nd send_fn Hsend)|]. intros [] s' (e' & HR' & [G1 G2 _] & _ & _ & H1 & H2). apply access_granted; [by destruct HR'|].
  mstep. by exists e'.
Qed.
End Service.
End World.

(** ** An engine in use *)

(** A receive callback that counts and posts the buffer again, a send callback that sends once
    more, and a device that fills a posted buffer in the first two rounds *)
Definition repost (c : completion) : M ST unit := count_receive ;; _ <- CE_recv_buf_enqueue (transfer_ctx c) (buf_ c) ;; mreturn tt.
Definition send_more (c : completion) : M ST unit := _ <- CE_send 99 (buf_ c) 1 0 0 ;; mreturn tt.
Definition fill (n : Z) : desc_info := {| nbytes := n; gather := false; byte_swap := false; meta_data := 9 |}.
Definition fill_some : M ST unit :=
  s <- mget ;;
  if (rounds s <=? 2) && negb (CURRENT_DRRI s =? DST_WR_INDEX s) then hw_recv (fill 61) else mreturn tt.
Definition small_world : world := {|
  may_post := fun _ => True; may_fill := fun i => i = fill 61;
  may_queue := fun t => t_ctx t = 99 /\ nbytes (src_info (t_desc t)) = 1; may_take := False |}.

Lemma goes_added W Ns Nd e s e' s' B I T : ce_rel Ns Nd e s -> ce_rel Ns Nd e' s' -> conf s s' -> counted s ->
  sq e' = sq e ++ T -> s_done e' = s_done e -> rq e' = rq e ++ B -> r_done e' = r_done e ++ I ->
  Forall (may_post W) B -> Forall (may_fill W) I -> Forall (may_queue W) T -> goes W e s e' s'.
Proof.
  intros HR HR' Hs Hc Hq Hd Hrq Hrd HB HI HT. pose proof Hs as (_ & Hcalls & _). split; [| |by apply conf_kept].
  - exists B, I, 0%nat. do 2 (split; [done|]). pose proof (dr_counts _ _ _ (ce_dest _ _ _ _ HR')) as H. unfold len in H. rewrite Hrq, Hrd in H.
    rewrite !drop_0. split; [lia|]. split; [done|]. split; [done|]. unfold received. by rewrite Hcalls, app_nil_r.
  - exists T, 0%nat, 0. split; [done|]. split; [by left|]. rewrite drop_0. split; [lia|]. split; [done|]. split; [lia|].
    unfold sent. rewrite Hcalls. by destruct (_ =? _); rewrite app_nil_r.
Qed.

Lemma repost_callback Ns Nd : recv_callback small_world Ns Nd repost.
Proof.
  intros c e s HR [Hc0 Hcb] Hm. unfold repost, count_receive. do 4 mstep. rewrite u32_small by (unfold MAX_NUM_OF_RECEIVES in *; lia).
  match goal with |- runs _ ?x _ => set (s1 := x) end. assert (HR1 : ce_rel Ns Nd e s1) by (by apply (ce_rel_frame _ _ _ _ _ HR)).
  assert (Hk : kept s s1). { unfold kept, s1, counted. cbn [attr_flags send_context recv_context send_cb recv_cb CE_id receive_count force_break set_receives].
    split_and!; try (done || lia). rewrite Hcb. unfold hif_max_num_receives_reached. destruct (Z.ltb_spec MAX_NUM_OF_RECEIVES (receive_count s + 1)); [done|]. apply Z.ltb_ge. lia. }
  apply runs_bnd. eapply runs_mono; [exact (CE_recv_buf_enqueue_spec Ns Nd e s1 HR1 (transfer_ctx c) (buf_ c))|]. intros z s' (_ & HR' & Hs). mstep.
  eexists. split; [exact HR'|]. split; [|split; [by rewrite (conf_rounds _ _ Hs)|pose proof Hs as [(_&_&_&_&_&_&_&_&->) _]; cbn; lia]].
  eapply goes_trans; [apply (goes_calls _ Ns Nd e s s1); done|]. destruct Hk as (_&_&_&_&_&_&_&Hc1). unfold spec_recv_enqueue in *. destruct (_ <? _); cbn [snd] in *.
  - eapply (goes_added _ Ns Nd e s1 _ _ [_] [] []); [exact HR1|exact HR'|exact Hs|exact Hc1|cbn; by rewrite app_nil_r|done|reflexivity|cbn; by rewrite app_nil_r|by repeat constructor..].
  - by eapply goes_conf.
Qed.
Lemma send_more_callback Ns Nd : send_callback small_world Ns Nd send_more.
Proof.
  intros c e s HR Hc _. unfold send_more. apply runs_bnd. eapply runs_mono; [exact (CE_send_nolock_spec Ns Nd e s HR 99 (buf_ c) 1 0 0)|].
  intros z s' (_ & HR' & Hs). mstep. eexists. split; [exact HR'|]. pose proof Hs as [(_&_&_&_&_&_&_&_&Hrc) _].
  assert (Hd : s_done (spec_send Ns (attr_flags s) 99 (buf_ c) 1 0 0 e).2 = s_done e) by (unfold spec_send; by destruct (_ <? _)).
  split; [|split; [by rewrite (conf_rounds _ _ Hs)|split; [lia|done]]].
  unfold spec_send in *. destruct (_ <? _); cbn [snd] in *.
  - eapply (goes_added _ Ns Nd e s _ _ [] [] [_]); [exact HR|exact HR'|exact Hs|exact Hc|reflexivity|done|cbn; by rewrite app_nil_r|cbn; by rewrite app_nil_r|by repeat constructor..].
  - by eapply goes_conf.
Qed.
Lemma fill_some_step Ns Nd : device_step small_world Ns Nd fill_some.
Proof.
  intros e s HR Hc _. unfold fill_some. do 2 mstep. destruct ((rounds s <=? 2) && negb (CURRENT_DRRI s =? DST_WR_INDEX s)) eqn:Hb.
  - apply andb_true_iff in Hb as [_ Hne]. apply negb_true_iff, Z.eqb_neq in Hne. destruct (ce_dest _ _ _ _ HR) as [(r & _ & _ & _ & _ & _ & _ & _ & Hwi & Hri & _) Hcnt _].
    assert (Hlt : len (r_done e) < len (rq e)). { destruct (decide (len (r_done e) = len (rq e))) as [Heq|]; [|lia]. by rewrite Hri, Hwi, Heq in Hne. }
    eapply runs_mono; [exact (hw_recv_spec Ns Nd e s HR (fill 61) Hlt ltac:(done))|]. intros [] s' (_ & HR' & Hs). eexists. split; [exact HR'|].
    split; [|split; [by rewrite (conf_rounds _ _ Hs)|by pose proof Hs as [(_&_&_&_&_&_&_&->&->) _]]].
    eapply (goes_added _ Ns Nd e s _ _ [] [_] []); [exact HR|exact HR'|exact Hs|exact Hc|cbn; by rewrite app_nil_r|done|cbn; by rewrite app_nil_r|reflexivity|by repeat constructor..].
  - mstep. exists e. split; [done|]. split; [by eapply goes_refl|done].
Qed.

(** It takes three rounds; the buffers that the device filled in between are told, too. *)
Example service_goes_on :
  match CE_per_engine_service send_more repost fill_some (used_state use_steps 3) with
  | Some (_, s') => rounds s' = 3 /\ received s' = [(72, 21, 0x5000, 60, 9, 0); (72, 22, 0x6000, 61, 9, 0); (72, 21, 0x5000, 61, 9, 0)] /\
      sent s' = [(71, CE_SENDLIST_ITEM_CTXT, 0x2000, 8, 5, 0); (71, 11, 0x2100, 9, 5, 0)] /\ rx_pending s' = false /\ receive_count s' = 3
  | None => False
  end.
Proof. vm_compute. done. Qed.

Lemma CE_per_engine_service_reports_witness :
  let s := used_state use_steps 3 in
  runs (CE_per_engine_service send_more repost fill_some) s (fun _ s' => exists e', ce_rel 8 4 e' s' /\
    recvs_go small_world used_engine s e' s' /\ sends_go small_world used_engine s e' s' /\ serviced 4 0 true true e' s').
Proof.
  intros s. assert (HR : ce_rel 8 4 used_engine s) by (eapply used_rel; vm_compute; reflexivity).
  exact (CE_per_engine_service_reports small_world 8 4 send_more repost fill_some (send_more_callback 8 4) (repost_callback 8 4) (fill_some_step 8 4) used_engine s HR).
Defined.
