(* ===== verification/HtcSend.v ===== *)
(** * Host-target communication: sending

    [CORE/SERVICES/HTC/htc_send.c] with the parsing of trailers of [htc_recv.c] and the set-up
    of endpoints of [htc.c] and [htc_services.c], as they are compiled for PCIe.  [HtcInv] has
    the interleavings of the threads that send, [HtcProps] the theorems.

    A packet is in one queue at a time, so that queues hold the packets themselves, with the
    part of their network buffer the code writes.  What the layers around decide is in lists of
    answers of the state: whether [HIFSend_head] accepts a buffer, how many buffers a pipe can
    take, and whether runtime power management is up; callbacks are events.  Statistics, the
    history of credits and the polling timers, which are never started, are left out. *)

From S2P Require Import Prelude.

Local Open Scope c_scope.

Definition A_ERROR : Z := -1.
Definition A_OK : Z := 0.
Definition A_EINVAL : Z := 14.
Definition A_ECANCELED : Z := 16.
Definition A_EPROTO : Z := 19.
Definition A_NO_RESOURCE : Z := 22.

Definition ENDPOINT_MAX : Z := 9.
Definition HTC_CTRL_RSVD_SVC : Z := 0x001.
Definition WMI_CONTROL_SVC : Z := 0x100.
Definition HTT_DATA_MSG_SVC : Z := 0x300.
Definition HTC_HDR_LENGTH : Z := 8.
Definition HTC_FLAGS_NEED_CREDIT_UPDATE : Z := 1.
Definition HTC_TX_PACKET_TAG_AUTO_PM : Z := 12.
Definition HTC_TX_PACKET_TAG_RUNTIME_PUT : Z := 13.
Definition HTC_DATA_RESOURCE_THRS : Z := 256.
Definition HTC_DATA_MINDESC_PERPACKET : Z := 2.
Definition HTC_RECORD_CREDITS : Z := 1.
Definition MAX_MESSAGE_SIZE : Z := 1536.
Definition HTC_MAX_CONTROL_MESSAGE_LENGTH : Z := 256.
Definition HTC_MAX_SERVICE_ALLOC_ENTRIES : Z := 8.

(** ** Packets *)

(** The network buffer: bytes pushed for headers, how often it is mapped for DMA, the two
    words of the header. *)
Record nbuf := { nb_id : Z; nb_pushed : Z; nb_maps : Z; nb_word0 : Z; nb_word1 : Z; nb_frags : Z }.

(** [Fixup] is [HTC_TX_PACKET_FLAG_FIXUP_NETBUF], the one flag. *)
Record HTC_PACKET := {
  ActualLength : Z; (* u32 *)
  Endpoint : Z;
  Status : Z;
  Tag : Z;
  CreditsUsed : Z; (* int *)
  SendFlags : Z;
  SeqNo : Z;
  Fixup : bool;
  netbuf : nbuf
}.
Definition set_tx (credits flags seq : Z) (fix_ : bool) (nb : nbuf) (st : Z) (p : HTC_PACKET) : HTC_PACKET :=
  {| ActualLength := ActualLength p; Endpoint := Endpoint p; Status := st; Tag := Tag p; CreditsUsed := credits; SendFlags := flags;
     SeqNo := seq; Fixup := fix_; netbuf := nb |}.
Definition set_credits_flags (credits flags : Z) (p : HTC_PACKET) : HTC_PACKET := set_tx credits flags (SeqNo p) (Fixup p) (netbuf p) (Status p) p.
Definition set_status (st : Z) (p : HTC_PACKET) : HTC_PACKET := set_tx (CreditsUsed p) (SendFlags p) (SeqNo p) (Fixup p) (netbuf p) st p.
Definition set_seq (seq : Z) (p : HTC_PACKET) : HTC_PACKET := set_tx (CreditsUsed p) (SendFlags p) seq (Fixup p) (netbuf p) (Status p) p.
Definition set_buf (fix_ : bool) (nb : nbuf) (p : HTC_PACKET) : HTC_PACKET := set_tx (CreditsUsed p) (SendFlags p) (SeqNo p) fix_ nb (Status p) p.

Definition adf_nbuf_push_head (n : Z) (b : nbuf) : nbuf :=
  {| nb_id := nb_id b; nb_pushed := nb_pushed b + n; nb_maps := nb_maps b; nb_word0 := nb_word0 b; nb_word1 := nb_word1 b; nb_frags := nb_frags b |}.
Definition adf_nbuf_pull_head (n : Z) (b : nbuf) : nbuf := adf_nbuf_push_head (- n) b.
Definition nbuf_map (n : Z) (b : nbuf) : nbuf :=
  {| nb_id := nb_id b; nb_pushed := nb_pushed b; nb_maps := nb_maps b + n; nb_word0 := nb_word0 b; nb_word1 := nb_word1 b; nb_frags := nb_frags b |}.
Definition adf_nbuf_map (b : nbuf) : nbuf := nbuf_map 1 b.
Definition adf_nbuf_unmap (b : nbuf) : nbuf := nbuf_map (-1) b.
Definition HTC_WRITE32 (w0 w1 : Z) (b : nbuf) : nbuf :=
  {| nb_id := nb_id b; nb_pushed := nb_pushed b; nb_maps := nb_maps b; nb_word0 := w0; nb_word1 := w1; nb_frags := nb_frags b |}.

(** Fields of the words of a message *)
Definition SM (v lsb mask : Z) : Z := Z.land (u32 (Z.shiftl v lsb)) mask.
Definition MS (w lsb mask : Z) : Z := Z.shiftr (Z.land w mask) lsb.
Definition frame_word0 (payload flags ep : Z) : Z := Z.lor (Z.lor (SM payload 16 0xffff0000) (SM flags 8 0xff00)) (SM ep 0 0xff).
Definition frame_word1 (seq : Z) : Z := SM seq 8 0xff00.

(** Queues; the depth is the length. *)
Definition HTC_PACKET_REMOVE (q : list HTC_PACKET) (p : HTC_PACKET) : list HTC_PACKET :=
  List.filter (fun x => negb (nb_id (netbuf x) =? nb_id (netbuf p))) q.
Definition HTC_PACKET_QUEUE_DEPTH (q : list HTC_PACKET) : Z := Z.of_nat (length q).

(** ** The target *)

(** What the connection of a service sets, and [full_cb], [multi_cb]: whether there are the
    callbacks [EpSendFull] and [EpTxCompleteMultiple] *)
Record endpoint_conf := {
  Id : Z;
  ServiceID : Z;
  full_cb : bool;
  multi_cb : bool;
  resume_cb : bool;
  MaxTxQueueDepth : Z;
  MaxMsgLength : Z;
  UL_PipeID : Z;
  ul_is_polled : bool;
  TxCreditSize : Z;
  TxCreditsPerMaxMsg : Z;
  TxCreditFlowEnabled : bool
}.
Record HTC_ENDPOINT := {
  conf : endpoint_conf;
  TxQueue : list HTC_PACKET;
  TxLookupQueue : list HTC_PACKET;
  EpSeqNo : Z; (* u8 *)
  TxProcessCount : Z;
  TxCredits : Z;
  ul_outstanding_cnt : Z
}.
Definition set_ep (q lq : list HTC_PACKET) (seq count credits out : Z) (e : HTC_ENDPOINT) : HTC_ENDPOINT :=
  {| conf := conf e; TxQueue := q; TxLookupQueue := lq; EpSeqNo := seq; TxProcessCount := count; TxCredits := credits; ul_outstanding_cnt := out |}.
Definition set_TxQueue (q : list HTC_PACKET) (e : HTC_ENDPOINT) := set_ep q (TxLookupQueue e) (EpSeqNo e) (TxProcessCount e) (TxCredits e) (ul_outstanding_cnt e) e.
Definition set_TxLookupQueue (q : list HTC_PACKET) (e : HTC_ENDPOINT) := set_ep (TxQueue e) q (EpSeqNo e) (TxProcessCount e) (TxCredits e) (ul_outstanding_cnt e) e.
Definition set_EpSeqNo (v : Z) (e : HTC_ENDPOINT) := set_ep (TxQueue e) (TxLookupQueue e) v (TxProcessCount e) (TxCredits e) (ul_outstanding_cnt e) e.
Definition set_TxProcessCount (v : Z) (e : HTC_ENDPOINT) := set_ep (TxQueue e) (TxLookupQueue e) (EpSeqNo e) v (TxCredits e) (ul_outstanding_cnt e) e.
Definition set_TxCredits (v : Z) (e : HTC_ENDPOINT) := set_ep (TxQueue e) (TxLookupQueue e) (EpSeqNo e) (TxProcessCount e) v (ul_outstanding_cnt e) e.
Definition set_outstanding (v : Z) (e : HTC_ENDPOINT) := set_ep (TxQueue e) (TxLookupQueue e) (EpSeqNo e) (TxProcessCount e) (TxCredits e) v e.

Inductive htc_event :=
| HifSend (pipe ep len : Z) (p : HTC_PACKET) (ok : bool)
| HifSendData (pipe ep len : Z) (b : nbuf) (ok : bool)
| HifSendCompleteCheck (pipe : Z)
| Completed (ep : Z) (ps : list HTC_PACKET)
| SendFull (ep : Z) (p : HTC_PACKET)
| ResumeTxQueue (ep : Z).

(** Lists of answers that are used up give success and no free buffers. *)
Record HTC_TARGET := {
  EndPoint : list HTC_ENDPOINT;
  is_nodrop_pkt : bool;
  stopping : bool;
  CE_send_cnt : Z;
  TX_comp_cnt : Z;
  hif_accepts : list bool;
  hif_free : list Z;
  pm_up : list bool;
  pm_usage : Z;
  events : list htc_event
}.
#[local] Abbreviation T := HTC_TARGET.
Definition set_target (eps : list HTC_ENDPOINT) (nd : bool) (snt comp : Z) (acc : list bool) (free : list Z) (pm : list bool) (use : Z) (ev : list htc_event) (t : T) : T :=
  {| EndPoint := eps; is_nodrop_pkt := nd; stopping := stopping t; CE_send_cnt := snt; TX_comp_cnt := comp;
     hif_accepts := acc; hif_free := free; pm_up := pm; pm_usage := use; events := ev |}.
Definition set_EndPoint (eps : list HTC_ENDPOINT) (t : T) : T := set_target eps (is_nodrop_pkt t) (CE_send_cnt t) (TX_comp_cnt t) (hif_accepts t) (hif_free t) (pm_up t) (pm_usage t) (events t) t.
Definition set_nodrop (b : bool) (t : T) : T := set_target (EndPoint t) b (CE_send_cnt t) (TX_comp_cnt t) (hif_accepts t) (hif_free t) (pm_up t) (pm_usage t) (events t) t.
Definition set_counts (snt comp : Z) (t : T) : T := set_target (EndPoint t) (is_nodrop_pkt t) snt comp (hif_accepts t) (hif_free t) (pm_up t) (pm_usage t) (events t) t.
Definition set_hif (acc : list bool) (free : list Z) (t : T) : T := set_target (EndPoint t) (is_nodrop_pkt t) (CE_send_cnt t) (TX_comp_cnt t) acc free (pm_up t) (pm_usage t) (events t) t.
Definition set_pm (pm : list bool) (use : Z) (t : T) : T := set_target (EndPoint t) (is_nodrop_pkt t) (CE_send_cnt t) (TX_comp_cnt t) (hif_accepts t) (hif_free t) pm use (events t) t.
Definition add_event (v : htc_event) (t : T) : T := set_target (EndPoint t) (is_nodrop_pkt t) (CE_send_cnt t) (TX_comp_cnt t) (hif_accepts t) (hif_free t) (pm_up t) (pm_usage t) (events t ++ [v]) t.

Definition get_ep (i : Z) : M T HTC_ENDPOINT := t <- mget ;; oget (aget (EndPoint t) i).
Definition upd_ep (i : Z) (f : HTC_ENDPOINT -> HTC_ENDPOINT) : M T unit :=
  e <- get_ep i ;; t <- mget ;; eps <- oget (aset (EndPoint t) i (f e)) ;; modify (set_EndPoint eps).
Definition tell (v : htc_event) : M T unit := modify (add_event v).

(** ** The layers around *)

Definition HIFSend_head (pipe ep len : Z) (p : HTC_PACKET) : M T bool :=
  t <- mget ;;
  let ok := hd true (hif_accepts t) in
  modify (set_hif (tl (hif_accepts t)) (hif_free t)) ;; tell (HifSend pipe ep len p ok) ;; mreturn ok.
Definition HIFGetFreeQueueNumber (pipe : Z) : M T Z :=
  t <- mget ;; modify (set_hif (hif_accepts t) (tl (hif_free t))) ;; mreturn (hd 0 (hif_free t)).
Definition hif_pm_runtime_get : M T bool :=
  t <- mget ;;
  let ok := hd true (pm_up t) in
  modify (set_pm (tl (pm_up t)) (if ok then pm_usage t + 1 else pm_usage t)) ;; mreturn ok.
Definition hif_pm_runtime_put : M T unit := modify (fun t => set_pm (pm_up t) (pm_usage t - 1) t).

(** ** Completions *)

Definition RestoreTxPacket (p : HTC_PACKET) : HTC_PACKET :=
  if Fixup p then set_buf false (adf_nbuf_pull_head HTC_HDR_LENGTH (adf_nbuf_unmap (netbuf p))) p else p.

Fixpoint tell_each (ep : Z) (q : list HTC_PACKET) : M T unit :=
  match q with [] => mreturn tt | p :: q => tell (Completed ep [p]) ;; tell_each ep q end.
Definition DoSendCompletion (ep : Z) (q : list HTC_PACKET) : M T unit :=
  e <- get_ep ep ;;
  match q with
  | [] => mreturn tt
  | _ => if multi_cb (conf e) then tell (Completed ep q) else tell_each ep q
  end.
Definition SendPacketCompletion (p : HTC_PACKET) : M T unit := DoSendCompletion (Endpoint p) [RestoreTxPacket p].

(** ** Issuing packets to HIF *)

(** The packet as it is handed over; without credits its header is written already. *)
Definition prepare (e : HTC_ENDPOINT) (p : HTC_PACKET) : HTC_PACKET :=
  if TxCreditFlowEnabled (conf e) then
    set_buf true (adf_nbuf_map (HTC_WRITE32 (frame_word0 (u16 (ActualLength p)) (SendFlags p) (Endpoint p)) (frame_word1 (SeqNo p)) (netbuf p))) p
  else p.
Definition await_completion (p : HTC_PACKET) (e : HTC_ENDPOINT) : HTC_ENDPOINT :=
  set_outstanding (ul_outstanding_cnt e + 1)
    (if ServiceID (conf e) =? HTT_DATA_MSG_SVC then e else set_TxLookupQueue (TxLookupQueue e ++ [p]) e).
(** Back from a send that failed, with the credits of the packet *)
Definition take_back (p : HTC_PACKET) (e : HTC_ENDPOINT) : HTC_ENDPOINT :=
  set_TxCredits (TxCredits e + CreditsUsed p)
    (set_TxLookupQueue (HTC_PACKET_REMOVE (TxLookupQueue e) p) (set_outstanding (ul_outstanding_cnt e - 1) e)).

(** The result of the loop is whether it succeeded, and what is left of the queue. *)
Definition issue_round (ep : Z) (q : list HTC_PACKET) : M T (list HTC_PACKET + bool * list HTC_PACKET) :=
  match q with
  | [] => mreturn (inr (true, []))
  | p :: rest =>
      e <- get_ep ep ;;
      let p := prepare e p in
      upd_ep ep (await_completion p) ;;
      ok <- HIFSend_head (UL_PipeID (conf e)) (Id (conf e)) (u32 (HTC_HDR_LENGTH + ActualLength p)) p ;;
      modify (fun t => set_counts (u32 (CE_send_cnt t + 1)) (TX_comp_cnt t) t) ;;
      if ok : bool then
        (if Tag p =? HTC_TX_PACKET_TAG_RUNTIME_PUT then hif_pm_runtime_put else mreturn tt) ;;
        mreturn (inl rest)
      else
        modify (fun t => set_counts (u32 (CE_send_cnt t - 1)) (TX_comp_cnt t) t) ;;
        upd_ep ep (take_back p) ;;
        mreturn (inr (false, p :: rest))
  end.
Definition HTCIssuePackets (ep : Z) (q : list HTC_PACKET) : M T (bool * list HTC_PACKET) :=
  miter (S (length q)) (issue_round ep) q.

(** ** Choosing packets to send *)

(** Packets of power management go first; only WMI has them. *)
Definition is_auto_pm (p : HTC_PACKET) : bool := Tag p =? HTC_TX_PACKET_TAG_AUTO_PM.
Definition GetHTCAutoPmSendPackets (ep : Z) : M T (list HTC_PACKET) :=
  e <- get_ep ep ;;
  if negb (ServiceID (conf e) =? WMI_CONTROL_SVC) then mreturn []
  else
    upd_ep ep (fun e => set_TxQueue (List.filter (fun p => negb (is_auto_pm p)) (TxQueue e)) e) ;;
    mreturn (List.filter is_auto_pm (TxQueue e)).
Definition RequeueHTCAutoPmSendPackets (ep : Z) (q : list HTC_PACKET) : M T unit :=
  e <- get_ep ep ;;
  if negb (ServiceID (conf e) =? WMI_CONTROL_SVC) then mreturn tt
  else upd_ep ep (fun e => set_TxQueue (q ++ TxQueue e) e).

Definition creditsRequired (TxCreditSize transferLength : Z) : Z :=
  if transferLength <=? TxCreditSize then 1
  else transferLength / TxCreditSize + (if transferLength mod TxCreditSize =? 0 then 0 else 1).

(** The queue the packets come from: the packets of power management, or the queue of the
    endpoint *)
Definition source (ep : Z) (temp : list HTC_PACKET) : M T (list HTC_PACKET) :=
  if negb (length temp =? 0)%nat then mreturn temp else e <- get_ep ep ;; mreturn (TxQueue e).
Definition set_source (ep : Z) (auto : bool) (src : list HTC_PACKET) : M T unit :=
  if auto then RequeueHTCAutoPmSendPackets ep src else upd_ep ep (set_TxQueue src).

Definition pm_get_unless (auto : bool) : M T bool := if auto then mreturn true else hif_pm_runtime_get.
Definition pm_put_unless (auto : bool) : M T unit := if auto then mreturn tt else hif_pm_runtime_put.

(** Power management may refuse after packets were chosen: the assertion of the code that none
    was only prints a message. *)
Definition credit_round (ep : Z) (auto : bool) : list HTC_PACKET * list HTC_PACKET -> M T (list HTC_PACKET * list HTC_PACKET + list HTC_PACKET * list HTC_PACKET) := fun '(src, q) =>
  up <- pm_get_unless auto ;;
  if negb up then mreturn (inr (src, q))
  else
    match src with
    | [] => pm_put_unless auto ;; mreturn (inr (src, q))
    | p :: rest =>
        e <- get_ep ep ;;
        massert (0 <? TxCreditSize (conf e)) ;;
        let required := creditsRequired (TxCreditSize (conf e)) (u32 (ActualLength p + HTC_HDR_LENGTH)) in
        if Id (conf e) =? 0 then mreturn (inl (rest, q ++ [set_credits_flags 0 0 p]))
        else if TxCredits e <? required then pm_put_unless auto ;; mreturn (inr (src, q))
        else
          upd_ep ep (set_TxCredits (TxCredits e - required)) ;;
          let flags := if TxCredits e - required <=? TxCreditsPerMaxMsg (conf e) then HTC_FLAGS_NEED_CREDIT_UPDATE else 0 in
          mreturn (inl (rest, q ++ [set_credits_flags required flags p]))
    end.
Definition GetHTCSendPacketsCreditBased (ep : Z) (q : list HTC_PACKET) : M T (list HTC_PACKET) :=
  temp <- GetHTCAutoPmSendPackets ep ;;
  let auto := negb (length temp =? 0)%nat in
  src <- source ep temp ;;
  res <- miter (S (length src)) (credit_round ep auto) (src, q) ;;
  set_source ep auto (fst res) ;;
  mreturn (snd res).

Definition resource_round (ep : Z) (auto : bool) : list HTC_PACKET * list HTC_PACKET * Z -> M T (list HTC_PACKET * list HTC_PACKET * Z + list HTC_PACKET * list HTC_PACKET) := fun '(src, q, Resources) =>
  if negb (0 <? Resources) then mreturn (inr (src, q))
  else
    up <- pm_get_unless auto ;;
    if negb up then mreturn (inr (src, q))
    else
      match src with
      | [] => pm_put_unless auto ;; mreturn (inr (src, q))
      | p :: rest =>
          mreturn (inl (rest, q ++ [set_credits_flags 0 0 p], Resources - (if Fixup p then 1 else nb_frags (netbuf p))))
      end.
Definition GetHTCSendPackets (ep : Z) (q : list HTC_PACKET) (Resources : Z) : M T (list HTC_PACKET) :=
  temp <- GetHTCAutoPmSendPackets ep ;;
  let auto := negb (length temp =? 0)%nat in
  src <- source ep temp ;;
  res <- miter (S (length src)) (resource_round ep auto) (src, q, Resources) ;;
  set_source ep auto (fst res) ;;
  mreturn (snd res).

(** ** Trying to send *)

Section Full.
(** [EpSendFull], which keeps a packet or has it dropped *)
Variable EpSendFull : Z -> HTC_PACKET -> bool.

(** The packets that do not fit: those kept and those dropped *)
Fixpoint offer (ep : Z) (q kept dropped : list HTC_PACKET) : M T (list HTC_PACKET * list HTC_PACKET) :=
  match q with
  | [] => mreturn (kept, dropped)
  | p :: q =>
      let p := RestoreTxPacket p in
      tell (SendFull ep p) ;;
      if EpSendFull ep p then offer ep q (kept ++ [set_buf (Fixup p) (adf_nbuf_push_head HTC_HDR_LENGTH (netbuf p)) p]) dropped
      else offer ep q kept (dropped ++ [p])
  end.

(** What of the caller's queue goes on, unless it is dropped altogether, and what is left in it *)
Definition fit (ep : Z) (callers : list HTC_PACKET) : M T (option (list HTC_PACKET) * list HTC_PACKET) :=
  e <- get_ep ep ;;
  match callers with
  | [] => mreturn (None, callers)
  | _ =>
      let depth := HTC_PACKET_QUEUE_DEPTH (TxQueue e) in
      let n := HTC_PACKET_QUEUE_DEPTH callers in
      let overflow := if MaxTxQueueDepth (conf e) <=? depth then n else depth + n - MaxTxQueueDepth (conf e) in
      if (overflow <=? 0) || negb (full_cb (conf e)) then mreturn (Some callers, [])
      else
        let goodPkts := Z.to_nat (n - overflow) in
        res <- offer ep (drop goodPkts callers) (take goodPkts callers) [] ;;
        mreturn (match fst res with [] => None | sendQueue => Some sendQueue end, snd res)
  end.

(** With the lock: the packets go into the queue of the endpoint; whether this thread is to
    drain it *)
Definition enter (ep : Z) (sendQueue : list HTC_PACKET) : M T bool :=
  t <- mget ;;
  match sendQueue with
  | [] => mreturn tt
  | _ =>
      if is_nodrop_pkt t then upd_ep ep (fun e => set_TxQueue (sendQueue ++ TxQueue e) e) ;; modify (set_nodrop false)
      else upd_ep ep (fun e => set_TxQueue (TxQueue e ++ sendQueue) e)
  end ;;
  upd_ep ep (fun e => set_TxProcessCount (TxProcessCount e + 1) e) ;;
  e <- get_ep ep ;;
  if 1 <? TxProcessCount e then upd_ep ep (fun e => set_TxProcessCount (TxProcessCount e - 1) e) ;; mreturn false
  else mreturn true.

Definition resources_of (ep : Z) : M T Z :=
  e <- get_ep ep ;; if TxCreditFlowEnabled (conf e) then mreturn 0 else HIFGetFreeQueueNumber (UL_PipeID (conf e)).

(** With the lock: the packets to send now, or none, and this thread is done. *)
Definition take_packets (ep : Z) (tx_resources : Z) : M T (list HTC_PACKET) :=
  e <- get_ep ep ;;
  match TxQueue e with
  | [] => upd_ep ep (set_TxProcessCount 0) ;; mreturn []
  | _ =>
      q <- (if TxCreditFlowEnabled (conf e) then GetHTCSendPacketsCreditBased ep [] else GetHTCSendPackets ep [] tx_resources) ;;
      match q with
      | [] => upd_ep ep (set_TxProcessCount 0) ;; mreturn []
      | _ => mreturn q
      end
  end.
(** With the lock, after a send that failed *)
Definition put_back (ep : Z) (q : list HTC_PACKET) : M T unit :=
  upd_ep ep (fun e => set_TxQueue (q ++ TxQueue e) e) ;;
  upd_ep ep (set_TxProcessCount 0).

Definition drain_round (ep : Z) (tx_resources : Z) : M T (Z + unit) :=
  q <- take_packets ep tx_resources ;;
  match q with
  | [] => mreturn (inr tt)
  | _ =>
      res <- HTCIssuePackets ep q ;;
      if fst res : bool then tx_resources <- resources_of ep ;; mreturn (inl tx_resources)
      else put_back ep (snd res) ;; mreturn (inr tt)
  end.
Definition drain (ep : Z) (tx_resources : Z) : M T unit :=
  e <- get_ep ep ;; miter (S (length (TxQueue e))) (drain_round ep) tx_resources.

(** [None] for the caller's queue is NULL; the result is what is left in it. *)
Definition HTCTrySend (ep : Z) (callers : option (list HTC_PACKET)) : M T (list HTC_PACKET) :=
  res <- match callers with None => mreturn (Some [], []) | Some q => fit ep q end ;;
  match fst res with
  | None => mreturn (snd res)
  | Some sendQueue =>
      tx_resources <- resources_of ep ;;
      entered <- enter ep sendQueue ;;
      (if entered : bool then drain ep tx_resources else mreturn tt) ;;
      mreturn (snd res)
  end.

(** ** Sending packets *)

(** The header, the sequence number and, without credits, the mapping *)
Definition stamp (e : HTC_ENDPOINT) (p : HTC_PACKET) : HTC_PACKET :=
  let nb := HTC_WRITE32 (Z.lor (SM (ActualLength p) 16 0xffff0000) (SM (Endpoint p) 0 0xff)) (frame_word1 (EpSeqNo e)) (adf_nbuf_push_head HTC_HDR_LENGTH (netbuf p)) in
  let p := set_seq (EpSeqNo e) (set_buf (Fixup p) nb p) in
  if TxCreditFlowEnabled (conf e) then p else set_buf true (adf_nbuf_map nb) p.
Fixpoint stamp_all (ep : Z) (q : list HTC_PACKET) : M T (list HTC_PACKET) :=
  match q with
  | [] => mreturn []
  | p :: q =>
      e <- get_ep ep ;;
      upd_ep ep (set_EpSeqNo (u8 (EpSeqNo e + 1))) ;;
      ps <- stamp_all ep q ;;
      mreturn (stamp e p :: ps)
  end.

Definition HTCSendPktsMultiple (q : list HTC_PACKET) : M T Z :=
  match q with
  | [] => mreturn A_EINVAL
  | p :: _ =>
      let ep := Endpoint p in
      e <- get_ep ep ;;
      if ServiceID (conf e) =? 0 then mreturn A_EINVAL
      else
        q <- stamp_all ep q ;;
        rest <- HTCTrySend ep (Some q) ;;
        t <- mget ;;
        DoSendCompletion ep (map (fun p => set_status (if stopping t then A_ECANCELED else A_NO_RESOURCE) (RestoreTxPacket p)) rest) ;;
        mreturn A_OK
  end.
Definition HTCSendPkt (p : option HTC_PACKET) : M T Z :=
  match p with None => mreturn A_ERROR | Some p => HTCSendPktsMultiple [p] end.

(** Data, whose buffers have room for the header; the result of the length is HIF's. *)
Definition HTCSendDataPkt (b : nbuf) (ep len : Z) : M T Z :=
  e <- get_ep ep ;;
  let pipe := UL_PipeID (conf e) in
  n <- HIFGetFreeQueueNumber pipe ;;
  n <- (if n <? HTC_DATA_RESOURCE_THRS then
          if ul_is_polled (conf e) then tell (HifSendCompleteCheck pipe) ;; HIFGetFreeQueueNumber pipe else mreturn n
        else mreturn n) ;;
  if (n <? HTC_DATA_RESOURCE_THRS) && (n <? HTC_DATA_MINDESC_PERPACKET) then mreturn A_ERROR
  else
    up <- hif_pm_runtime_get ;;
    if negb up then mreturn A_ERROR
    else
      e <- get_ep ep ;;
      let b := HTC_WRITE32 (Z.lor (SM len 16 0xffff0000) (SM ep 0 0xff)) (frame_word1 (EpSeqNo e)) b in
      upd_ep ep (set_EpSeqNo (u8 (EpSeqNo e + 1))) ;;
      t <- mget ;;
      let ok := hd true (hif_accepts t) in
      modify (set_hif (tl (hif_accepts t)) (hif_free t)) ;;
      tell (HifSendData pipe (Id (conf e)) len b ok) ;;
      mreturn (if ok then A_OK else A_ERROR).

(** ** Completions *)

(** The packet of a buffer: usually the first of the queue ([inl]).  Otherwise the rest of the queue
    is searched without the lock, in a queue of its own ([inr]). *)
Definition lookup_first (ep : Z) (b : Z) : M T (option HTC_PACKET + list HTC_PACKET) :=
  e <- get_ep ep ;;
  upd_ep ep (fun e => set_outstanding (ul_outstanding_cnt e - 1) e) ;;
  match TxLookupQueue e with
  | [] => mreturn (inl None)
  | p :: rest =>
      if nb_id (netbuf p) =? b then upd_ep ep (set_TxLookupQueue rest) ;; mreturn (inl (Some p))
      else upd_ep ep (set_TxLookupQueue []) ;; mreturn (inr (p :: rest))
  end.
Definition lookup_rest (ep : Z) (b : Z) (lookupQueue : list HTC_PACKET) : M T (option HTC_PACKET) :=
  let found := List.find (fun p => b =? nb_id (netbuf p)) lookupQueue in
  let lookupQueue := match found with None => lookupQueue | Some p => HTC_PACKET_REMOVE lookupQueue p end in
  upd_ep ep (fun e => set_TxLookupQueue (lookupQueue ++ TxLookupQueue e) e) ;;
  mreturn found.
Definition HTCLookupTxPacket (ep : Z) (b : Z) : M T (option HTC_PACKET) :=
  r <- lookup_first ep b ;;
  match r with
  | inl found => mreturn found
  | inr lookupQueue => lookup_rest ep b lookupQueue
  end.

(** The part before queues are checked again; no packet is a bundle here. *)
Definition finish_packet (found : option HTC_PACKET) : M T unit :=
  match found with
  | None => mreturn tt
  | Some p =>
      (if is_auto_pm p then mreturn tt else hif_pm_runtime_put) ;;
      SendPacketCompletion (set_status A_OK p)
  end.
Definition complete_packet (b ep : Z) : M T unit :=
  found <- HTCLookupTxPacket ep b ;;
  finish_packet found.
Definition count_completion : M T unit := modify (fun t => set_counts (CE_send_cnt t) (u32 (TX_comp_cnt t + 1)) t).
Definition HTCTxCompletionHandler (b ep : Z) : M T unit :=
  count_completion ;;
  complete_packet b ep ;;
  e <- get_ep ep ;;
  if TxCreditFlowEnabled (conf e) then mreturn tt
  else _ <- HTCTrySend ep None ;; mreturn tt.

Definition HTCTxResourceAvailHandler (pipeID : Z) : M T unit :=
  t <- mget ;;
  match list_find (fun e => ServiceID (conf e) <> 0 /\ UL_PipeID (conf e) = pipeID) (EndPoint t) with
  | Some (i, _) => _ <- HTCTrySend (Z.of_nat i) None ;; mreturn tt
  | None => mreturn tt
  end.

Definition HTCTxResumeAllHandler : M T unit :=
  mfor (seqZ 0 ENDPOINT_MAX) (fun i =>
    e <- get_ep i ;;
    if ServiceID (conf e) =? 0 then mreturn tt
    else
      (if resume_cb (conf e) then tell (ResumeTxQueue i) else mreturn tt) ;;
      _ <- HTCTrySend i None ;; mreturn tt).

Definition flush_round (ep : Z) (_ : unit) : M T (unit + unit) :=
  e <- get_ep ep ;;
  match TxQueue e with
  | [] => mreturn (inr tt)
  | p :: rest => upd_ep ep (set_TxQueue rest) ;; SendPacketCompletion (set_status A_ECANCELED p) ;; mreturn (inl tt)
  end.
Definition HTCFlushEndpointTX (ep : Z) : M T unit :=
  e <- get_ep ep ;; miter (S (length (TxQueue e))) (flush_round ep) tt.
Definition HTCFlushEndpoint (ep : Z) : M T unit :=
  e <- get_ep ep ;; if ServiceID (conf e) =? 0 then mreturn tt else HTCFlushEndpointTX ep.

Definition HTCSetNodropPkt (isNodropPkt : bool) : M T unit := modify (set_nodrop isNodropPkt).

Definition HTCGetControlEndpointTxHostCredits : M T Z :=
  t <- mget ;;
  mreturn (match list_find (fun e => ServiceID (conf e) = WMI_CONTROL_SVC) (EndPoint t) with Some (_, e) => TxCredits e | None => 0 end).

(** ** Credits *)

(** With the lock: the credits of a report; whether to try and send *)
Definition add_credits (rpt_ep_id rpt_credits : Z) : M T bool :=
  upd_ep rpt_ep_id (fun e => set_TxCredits (TxCredits e + rpt_credits) e) ;;
  e <- get_ep rpt_ep_id ;;
  mreturn (negb (TxCredits e =? 0) && negb (length (TxQueue e) =? 0)%nat).

(** The reports by their words; for an endpoint out of range the code also prints a message
    ([AR_DEBUG_ASSERT]) *)
Fixpoint HTCProcessCreditRpt (pRpt : list Z) : M T unit :=
  match pRpt with
  | [] => mreturn tt
  | w :: pRpt =>
      let rpt_ep_id := MS w 0 0xff in
      let rpt_credits := MS w 8 0xff00 in
      if ENDPOINT_MAX <=? rpt_ep_id then mreturn tt
      else
        try <- add_credits rpt_ep_id rpt_credits ;;
        (if try : bool then _ <- HTCTrySend rpt_ep_id None ;; mreturn tt else mreturn tt) ;;
        HTCProcessCreditRpt pRpt
  end.

(** *** Trailers of received messages *)

(** Word [i] of a buffer of bytes that begins at [at_] *)
Definition get_word (buf : list Z) (at_ : Z) : option Z :=
  match aget buf at_, aget buf (at_ + 1), aget buf (at_ + 2), aget buf (at_ + 3) with
  | Some b0, Some b1, Some b2, Some b3 => Some (b0 + b1 * 2 ^ 8 + b2 * 2 ^ 16 + b3 * 2 ^ 24)
  | _, _, _, _ => None
  end.
Fixpoint get_words (buf : list Z) (at_ : Z) (n : nat) : option (list Z) :=
  match n with
  | O => Some []
  | Datatypes.S n => w ← get_word buf at_; ws ← get_words buf (at_ + 4) n; Some (w :: ws)
  end.

(** The locals are the position and the bytes that are left. *)
Definition trailer_round (pOrigBuffer : list Z) : Z * Z -> M T (Z * Z + Z) := fun '(pBuffer, Length) =>
  if negb (0 <? Length) then mreturn (inr A_OK)
  else if Length <? 4 then mreturn (inr A_EPROTO)
  else
    pRecord <- oget (get_word pOrigBuffer pBuffer) ;;
    let Length := Length - 4 in
    let pBuffer := pBuffer + 4 in
    let htc_rec_len := MS pRecord 8 0xff00 in
    let htc_rec_id := MS pRecord 0 0xff in
    if Length <? htc_rec_len then mreturn (inr A_EPROTO)
    else
      (if htc_rec_id =? HTC_RECORD_CREDITS then
         rpts <- oget (get_words pOrigBuffer pBuffer (Z.to_nat (htc_rec_len / 4))) ;; HTCProcessCreditRpt rpts
       else mreturn tt) ;;
      mreturn (inl (pBuffer + htc_rec_len, Length - htc_rec_len)).
Definition HTCProcessTrailer (pBuffer : list Z) : M T Z :=
  miter (S (length pBuffer)) (trailer_round pBuffer) (0, Z.of_nat (length pBuffer)).
End Full.

(** ** Setting up *)

Definition HTC_SERVICE_TX_CREDIT_ALLOCATION : Type := Z * Z. (* service, credits as u8 *)

(** All credits go to WMI. *)
Definition HTCSetupTargetBufferAssignments (TotalTransmitCredits : Z) (table : list HTC_SERVICE_TX_CREDIT_ALLOCATION) : option (list HTC_SERVICE_TX_CREDIT_ALLOCATION) :=
  aset table 1 (WMI_CONTROL_SVC, u8 TotalTransmitCredits).
Definition HTCGetCreditAllocation (table : list HTC_SERVICE_TX_CREDIT_ALLOCATION) (service : Z) : Z :=
  fold_left (fun allocation e => if fst e =? service then snd e else allocation) table 0.

Definition ResetEndpointStates : M T unit :=
  modify (fun t => set_EndPoint (imap (fun i e =>
    {| conf := {| Id := Z.of_nat i; ServiceID := 0; full_cb := full_cb (conf e); multi_cb := multi_cb (conf e); resume_cb := resume_cb (conf e);
                  MaxTxQueueDepth := 0; MaxMsgLength := 0; UL_PipeID := UL_PipeID (conf e); ul_is_polled := ul_is_polled (conf e);
                  TxCreditSize := TxCreditSize (conf e); TxCreditsPerMaxMsg := TxCreditsPerMaxMsg (conf e); TxCreditFlowEnabled := true |};
       TxQueue := []; TxLookupQueue := []; EpSeqNo := EpSeqNo e; TxProcessCount := 0; TxCredits := TxCredits e;
       ul_outstanding_cnt := ul_outstanding_cnt e |}) (EndPoint t)) t).

(** [HTCConnectService] from the response of the target on, which assigns [ep]; [pipe] and
    [polled] are of HIF, or it has no pipe. *)
Record connect_req := { cr_service : Z; cr_depth : Z; cr_full : bool; cr_multi : bool; cr_resume : bool; cr_disable_credits : bool }.
Definition setup_endpoint (req : connect_req) (ep maxMsgSize txAlloc TargetCreditSize : Z) (pipe : option (Z * bool)) : M T Z :=
  if (ENDPOINT_MAX <=? ep) || (maxMsgSize =? 0) then mreturn A_EPROTO
  else
    e <- get_ep ep ;;
    if negb (ServiceID (conf e) =? 0) then mreturn A_EPROTO
    else
      massert (0 <? TargetCreditSize) ;;
      let connected (ul : Z) (polled flow : bool) : HTC_ENDPOINT :=
        {| conf := {| Id := ep; ServiceID := cr_service req; full_cb := cr_full req; multi_cb := cr_multi req; resume_cb := cr_resume req;
                      MaxTxQueueDepth := cr_depth req; MaxMsgLength := maxMsgSize; UL_PipeID := ul; ul_is_polled := polled;
                      TxCreditSize := TargetCreditSize;
                      TxCreditsPerMaxMsg := maxMsgSize / TargetCreditSize + (if maxMsgSize mod TargetCreditSize =? 0 then 0 else 1);
                      TxCreditFlowEnabled := flow |};
           TxQueue := TxQueue e; TxLookupQueue := TxLookupQueue e; EpSeqNo := EpSeqNo e; TxProcessCount := TxProcessCount e; TxCredits := txAlloc;
           ul_outstanding_cnt := ul_outstanding_cnt e |} in
      match pipe with
      | None => upd_ep ep (fun _ => connected (UL_PipeID (conf e)) (ul_is_polled (conf e)) (TxCreditFlowEnabled (conf e))) ;; mreturn A_ERROR
      | Some (ul, polled) => upd_ep ep (fun _ => connected ul polled (TxCreditFlowEnabled (conf e) && negb (cr_disable_credits req))) ;; mreturn A_OK
      end.
