(* ===== verification/HtcInv.v ===== *)
(** * Host-target communication: the threads that send

    What every function of [HtcSend] does to the endpoint it works on; the steps of the
    threads, between which the lock is free; and what holds after any sequence of them. *)

From S2P Require Import Prelude HtcSend.

Local Open Scope c_scope.

#[local] Abbreviation T := HTC_TARGET.

(** ** Endpoints *)

Definition ep_at (ep : Z) (e : HTC_ENDPOINT) (t : T) : Prop := aget (EndPoint t) ep = Some e.
Definition put_ep (ep : Z) (e : HTC_ENDPOINT) (t : T) : T := set_EndPoint (upd (EndPoint t) ep e) t.

Lemma ep_range ep e t : ep_at ep e t -> 0 <= ep < Z.of_nat (length (EndPoint t)).
Proof. apply aget_Some_range. Qed.
Lemma runs_get_ep ep e t (Q : HTC_ENDPOINT -> T -> Prop) : ep_at ep e t -> Q e t -> runs (get_ep ep) t Q.
Proof. intros He HQ. unfold get_ep. do 2 mstep. by eapply runs_oget. Qed.
Lemma runs_upd_ep ep f e t (Q : unit -> T -> Prop) : ep_at ep e t -> Q tt (put_ep ep (f e) t) -> runs (upd_ep ep f) t Q.
Proof.
  intros He HQ. unfold upd_ep. apply runs_bnd. eapply runs_get_ep; [exact He|]. do 2 mstep.
  mstep. eapply runs_oget; [by apply aset_upd, (ep_range _ _ _ He)|]. by apply runs_modify.
Qed.
Lemma put_ep_at ep e t : 0 <= ep < Z.of_nat (length (EndPoint t)) -> ep_at ep e (put_ep ep e t).
Proof. intros H. unfold ep_at, put_ep. cbn. by rewrite aget_upd, decide_True by done. Qed.
Lemma put_ep_other ep ep' e e' t : ep <> ep' -> 0 <= ep < Z.of_nat (length (EndPoint t)) -> ep_at ep' e' (put_ep ep e t) <-> ep_at ep' e' t.
Proof. intros H Hr. unfold ep_at, put_ep. cbn. by rewrite aget_upd, decide_False by done. Qed.

(** What a function did: endpoint [ep] is [e'] now, the events are added. *)
Record did (ep : Z) (e' : HTC_ENDPOINT) (evs : list htc_event) (t t' : T) : Prop := {
  did_eps : EndPoint t' = upd (EndPoint t) ep e';
  did_events : events t' = events t ++ evs;
  did_nodrop : is_nodrop_pkt t' = is_nodrop_pkt t;
  did_stop : stopping t' = stopping t
}.
Lemma upd_upd {A} (l : list A) i x y : upd (upd l i x) i y = upd l i y.
Proof. unfold upd. by rewrite list_insert_insert_eq. Qed.
Lemma upd_aget {A} (l : list A) i x : aget l i = Some x -> upd l i x = l.
Proof.
  intros H. unfold upd. apply list_insert_id. unfold aget in H. by case_decide.
Qed.
Lemma did_trans ep e1 e2 v1 v2 t t1 t2 : did ep e1 v1 t t1 -> did ep e2 v2 t1 t2 -> did ep e2 (v1 ++ v2) t t2.
Proof. intros [A1 B1 C1 D1] [A2 B2 C2 D2]. split; [by rewrite A2, A1, upd_upd|by rewrite B2, B1, app_assoc|congruence..]. Qed.
Lemma did_refl ep e t : ep_at ep e t -> did ep e [] t t.
Proof. intros H. split; [by rewrite upd_aget|by rewrite app_nil_r|done..]. Qed.
Lemma did_put ep e t : did ep e [] t (put_ep ep e t).
Proof. split; [done|by rewrite app_nil_r|done..]. Qed.
Lemma did_at ep e e' v t t' : ep_at ep e t -> did ep e' v t t' -> ep_at ep e' t'.
Proof. intros He [Hd _ _ _]. unfold ep_at. rewrite Hd, aget_upd by exact (ep_range _ _ _ He). by rewrite decide_True. Qed.
Lemma did_other ep ep' e e' e'' v t t' : ep_at ep e t -> ep <> ep' -> did ep e' v t t' -> ep_at ep' e'' t' <-> ep_at ep' e'' t.
Proof. intros He Hne [Hd _ _ _]. unfold ep_at. rewrite Hd, aget_upd by exact (ep_range _ _ _ He). by rewrite decide_False. Qed.

(** Steps that touch no endpoint *)
Lemma did_same ep e t t' v : ep_at ep e t -> EndPoint t' = EndPoint t -> events t' = events t ++ v -> is_nodrop_pkt t' = is_nodrop_pkt t -> stopping t' = stopping t ->
  did ep e v t t'.
Proof. intros He H1 H2 H3 H4. split; [by rewrite H1, upd_aget|done..]. Qed.

Lemma runs_HIFSend_head pipe ep len p t (Q : bool -> T -> Prop) :
  Q (hd true (hif_accepts t)) (add_event (HifSend pipe ep len p (hd true (hif_accepts t))) (set_hif (tl (hif_accepts t)) (hif_free t) t)) ->
  runs (HIFSend_head pipe ep len p) t Q.
Proof. done. Qed.
Lemma runs_tell v t (Q : unit -> T -> Prop) : Q tt (add_event v t) -> runs (tell v) t Q.
Proof. done. Qed.
Lemma runs_pm_get t (Q : bool -> T -> Prop) :
  Q (hd true (pm_up t)) (set_pm (tl (pm_up t)) (if hd true (pm_up t) then pm_usage t + 1 else pm_usage t) t) -> runs hif_pm_runtime_get t Q.
Proof. done. Qed.
Lemma runs_pm_put t (Q : unit -> T -> Prop) : Q tt (set_pm (pm_up t) (pm_usage t - 1) t) -> runs hif_pm_runtime_put t Q.
Proof. done. Qed.
Lemma runs_free_number pipe t (Q : Z -> T -> Prop) : Q (hd 0 (hif_free t)) (set_hif (hif_accepts t) (tl (hif_free t)) t) -> runs (HIFGetFreeQueueNumber pipe) t Q.
Proof. done. Qed.

(** ** Issuing *)

Definition sent (ep : Z) (e : HTC_ENDPOINT) (p : HTC_PACKET) (ok : bool) : htc_event :=
  HifSend (UL_PipeID (conf e)) (Id (conf e)) (u32 (HTC_HDR_LENGTH + ActualLength p)) p ok.

Lemma conf_await p e : conf (await_completion p e) = conf e.
Proof. unfold await_completion. by destruct (_ =? _). Qed.

Lemma issue_round_spec ep e t p rest : ep_at ep e t ->
  runs (issue_round ep (p :: rest)) t (fun r t' =>
    hif_accepts t' = tl (hif_accepts t) /\ pm_up t' = pm_up t /\
    let p' := prepare e p in
    if hd true (hif_accepts t) then r = inl rest /\ did ep (await_completion p' e) [sent ep e p' true] t t'
    else r = inr (false, p' :: rest) /\ did ep (take_back p' (await_completion p' e)) [sent ep e p' false] t t' /\ pm_usage t' = pm_usage t).
Proof.
  intros He. cbn [issue_round]. apply runs_bnd. eapply runs_get_ep; [exact He|]. set (p' := prepare e p).
  apply runs_bnd. eapply runs_upd_ep; [exact He|]. set (t1 := put_ep ep (await_completion p' e) t).
  assert (He1 : ep_at ep (await_completion p' e) t1) by (apply put_ep_at, (ep_range _ _ _ He)).
  apply runs_bnd, runs_HIFSend_head. do 2 mstep.
  change (hif_accepts t1) with (hif_accepts t). change (hif_free t1) with (hif_free t).
  set (t2 := set_counts _ _ _).
  assert (He2 : ep_at ep (await_completion p' e) t2) by exact He1.
  assert (Hd : forall b, b = hd true (hif_accepts t) -> did ep (await_completion p' e) [sent ep e p' b] t t2).
  { intros b ->. split; done. }
  destruct (hd true (hif_accepts t)) eqn:Hok.
  - apply runs_bnd. destruct (Tag p' =? HTC_TX_PACKET_TAG_RUNTIME_PUT).
    + apply runs_pm_put. mstep. split; [done|]. split; [done|]. split; [done|]. by destruct (Hd true eq_refl).
    + do 2 mstep. split; [done|]. split; [done|]. split; [done|]. by apply Hd.
  - do 2 mstep. mstep. eapply runs_upd_ep; [exact He2|]. mstep. split; [done|]. split; [done|]. split; [done|].
    split; [|done]. split; [|done..]. unfold put_ep. cbn -[take_back await_completion upd]. by rewrite upd_upd.
Qed.

(** ** Choosing *)

Definition need (c : endpoint_conf) (p : HTC_PACKET) : Z := creditsRequired (TxCreditSize c) (u32 (ActualLength p + HTC_HDR_LENGTH)).
Lemma need_pos c p : 0 < TxCreditSize c -> 0 < need c p.
Proof.
  intros Hc. unfold need, creditsRequired. destruct (Z.leb_spec (u32 (ActualLength p + HTC_HDR_LENGTH)) (TxCreditSize c)); [lia|].
  assert (1 <= u32 (ActualLength p + HTC_HDR_LENGTH) / TxCreditSize c) by (apply Z.div_le_lower_bound; lia).
  destruct (_ =? 0); lia.
Qed.

(** With credits: packets as long as the credits and the answers of power management last;
    what is taken, what is left, and the credits left *)
Definition charged (c : endpoint_conf) (credits : Z) (p : HTC_PACKET) : HTC_PACKET :=
  if Id c =? 0 then set_credits_flags 0 0 p
  else set_credits_flags (need c p) (if credits - need c p <=? TxCreditsPerMaxMsg c then HTC_FLAGS_NEED_CREDIT_UPDATE else 0) p.
Definition cost (c : endpoint_conf) (p : HTC_PACKET) : Z := if Id c =? 0 then 0 else need c p.
Fixpoint pick (c : endpoint_conf) (auto : bool) (pm : list bool) (credits : Z) (src : list HTC_PACKET) : list HTC_PACKET * list HTC_PACKET * Z :=
  match src with
  | [] => ([], [], credits)
  | p :: rest =>
      if (auto || hd true pm) && (cost c p <=? credits) then
        let '(q, l, k) := pick c auto (if auto then pm else tl pm) (credits - cost c p) rest in (charged c credits p :: q, l, k)
      else ([], src, credits)
  end.

(** Without: as long as the buffers last *)
Fixpoint pick_free (auto : bool) (pm : list bool) (Resources : Z) (src : list HTC_PACKET) : list HTC_PACKET * list HTC_PACKET :=
  match src with
  | [] => ([], [])
  | p :: rest =>
      if (auto || hd true pm) && (0 <? Resources) then
        let '(q, l) := pick_free auto (if auto then pm else tl pm) (Resources - (if Fixup p then 1 else nb_frags (netbuf p))) rest in
        (set_credits_flags 0 0 p :: q, l)
      else ([], src)
  end.

(** Locals of a loop of choosing: the endpoint has [credits], nothing else of it changes. *)
Definition with_credits (e : HTC_ENDPOINT) (credits : Z) : HTC_ENDPOINT := set_TxCredits credits e.

Lemma runs_pm_get_unless (auto : bool) ep e t (Q : bool -> T -> Prop) : ep_at ep e t ->
  (forall t', did ep e [] t t' -> hif_accepts t' = hif_accepts t -> hif_free t' = hif_free t -> pm_up t' = (if auto then pm_up t else tl (pm_up t)) ->
     pm_usage t' = pm_usage t + (if negb auto && hd true (pm_up t) then 1 else 0) ->
     Q (auto || hd true (pm_up t)) t') -> runs (pm_get_unless auto) t Q.
Proof.
  intros He HQ. destruct auto; cbn [pm_get_unless].
  - mstep. apply HQ; [by apply did_refl|done..|cbn; lia].
  - apply runs_pm_get. apply HQ; [apply (did_same ep); [exact He|done|cbn; by rewrite app_nil_r|done|done]|done..|]. cbn. destruct (hd true (pm_up t)); cbn; lia.
Qed.
Lemma runs_pm_put_unless (auto : bool) ep e t (Q : unit -> T -> Prop) : ep_at ep e t ->
  (forall t', did ep e [] t t' -> hif_accepts t' = hif_accepts t -> hif_free t' = hif_free t -> pm_up t' = pm_up t -> pm_usage t' = pm_usage t - (if auto then 0 else 1) -> Q tt t') ->
  runs (pm_put_unless auto) t Q.
Proof.
  intros He HQ. destruct auto; cbn [pm_put_unless].
  - mstep. apply HQ; [by apply did_refl|done..|cbn; lia].
  - apply runs_pm_put. apply HQ; [apply (did_same ep); [exact He|done|cbn; by rewrite app_nil_r|done|done]|done..].
Qed.

(** The packets chosen, each with a use of power management but those that are for it *)
Definition uses (auto : bool) (q : list HTC_PACKET) : Z := if auto then 0 else Z.of_nat (length q).

Lemma credit_loop ep (auto : bool) fuel src q e t : ep_at ep e t -> 0 < TxCreditSize (conf e) -> 0 <= TxCredits e -> (length src < fuel)%nat ->
  let '(picked, l, credits) := pick (conf e) auto (pm_up t) (TxCredits e) src in
  runs (miter fuel (credit_round ep auto) (src, q)) t (fun r t' =>
    r = (l, q ++ picked) /\ did ep (with_credits e credits) [] t t' /\ hif_accepts t' = hif_accepts t /\ hif_free t' = hif_free t /\ pm_usage t' = pm_usage t + uses auto picked).
Proof.
  revert src q e t. induction fuel as [|fuel IH]; intros src q e t He Hsz Hcr Hf; [lia|].
  assert (Hsame : with_credits e (TxCredits e) = e) by (by destruct e).
  cbn [miter]. destruct src as [|p rest]; cbn [pick].
  { apply runs_bnd. cbn [credit_round]. apply runs_bnd. eapply runs_pm_get_unless; [exact He|]. intros t1 D1 A1 F1 P1 U1. rewrite app_nil_r.
    destruct (auto || hd true (pm_up t)) eqn:Hup; cbn [negb].
    - apply runs_bnd. eapply runs_pm_put_unless; [by eapply did_at|]. intros t2 D2 A2 F2 P2 U2. do 2 mstep. rewrite Hsame.
      split; [done|]. split; [exact (did_trans _ _ _ _ _ _ _ _ D1 D2)|]. split; [congruence|]. split; [congruence|].
      rewrite U2, U1. destruct auto; cbn in *; [lia|rewrite Hup; lia].
    - do 2 mstep. rewrite Hsame. split; [done|]. split; [done|]. split; [done|]. split; [done|]. rewrite U1. apply orb_false_iff in Hup as [-> ->]. cbn. lia. }
  assert (Hcost : 0 <= cost (conf e) p) by (unfold cost; pose proof (need_pos (conf e) p Hsz); destruct (_ =? 0); lia).
  destruct ((auto || hd true (pm_up t)) && (cost (conf e) p <=? TxCredits e)) eqn:Hgo.
  - apply andb_true_iff in Hgo as [Hup Hle]. apply Z.leb_le in Hle.
    destruct (pick (conf e) auto (if auto then pm_up t else tail (pm_up t)) (TxCredits e - cost (conf e) p) rest) as [[pk l] credits] eqn:Hpk.
    apply runs_bnd. cbn [credit_round]. apply runs_bnd. eapply runs_pm_get_unless; [exact He|]. intros t1 D1 A1 F1 P1 U1. rewrite Hup. cbn [negb].
    assert (He1 : ep_at ep e t1) by (by eapply did_at). apply runs_bnd. eapply runs_get_ep; [exact He1|]. mstep. apply runs_massert; [by apply Z.ltb_lt|].
    fold (need (conf e) p). unfold cost, charged in *.
    assert (Hstep : forall t2 e2, ep_at ep e2 t2 -> conf e2 = conf e -> TxCredits e2 = TxCredits e - (if Id (conf e) =? 0 then 0 else need (conf e) p) ->
       with_credits e2 credits = with_credits e credits -> did ep e2 [] t1 t2 -> hif_accepts t2 = hif_accepts t1 -> hif_free t2 = hif_free t1 -> pm_up t2 = pm_up t1 -> pm_usage t2 = pm_usage t1 ->
       forall p', runs (miter fuel (credit_round ep auto) (rest, q ++ [p'])) t2 (fun r t' => r = (l, q ++ p' :: pk) /\ did ep (with_credits e credits) [] t t' /\
         hif_accepts t' = hif_accepts t /\ hif_free t' = hif_free t /\ pm_usage t' = pm_usage t + uses auto (p' :: pk))).
    { intros t2 e2 He2 Hc2 Hk2 Hw2 D2 A2 F2 P2 U2 p'. pose proof (IH rest (q ++ [p']) e2 t2 He2) as Hi. rewrite Hc2, Hk2, P2, P1, Hpk in Hi.
      eapply runs_mono; [apply Hi; [done|lia|cbn in Hf; lia]|]. intros r t3 (-> & D3 & A3 & F3 & U3). split; [by rewrite <- app_assoc|].
      split; [rewrite <- Hw2; exact (did_trans _ _ _ _ _ _ _ _ D1 (did_trans _ _ _ _ _ _ _ _ D2 D3))|]. split; [congruence|]. split; [congruence|].
      rewrite U3, U2, U1. unfold uses. destruct auto; cbn [negb andb orb length] in *; [lia|rewrite Hup; lia]. }
    destruct (Z.eqb_spec (Id (conf e)) 0) as [Hid|Hid].
    + mstep. apply (Hstep t1 e); try done; [lia|by apply did_refl].
    + destruct (Z.ltb_spec (TxCredits e) (need (conf e) p)); [lia|]. apply runs_bnd. eapply runs_upd_ep; [exact He1|]. mstep.
      apply (Hstep (put_ep ep (set_TxCredits (TxCredits e - need (conf e) p) e) t1) (set_TxCredits (TxCredits e - need (conf e) p) e)); try done; [|by apply did_put].
      apply put_ep_at, (ep_range _ _ _ He1).
  - apply runs_bnd. cbn [credit_round]. apply runs_bnd. eapply runs_pm_get_unless; [exact He|]. intros t1 D1 A1 F1 P1 U1. rewrite app_nil_r.
    destruct (auto || hd true (pm_up t)) eqn:Hup; cbn [negb andb] in *.
    + apply Z.leb_gt in Hgo. assert (He1 : ep_at ep e t1) by (by eapply did_at). apply runs_bnd. eapply runs_get_ep; [exact He1|]. mstep. apply runs_massert; [by apply Z.ltb_lt|].
      fold (need (conf e) p). unfold cost in Hgo. destruct (Z.eqb_spec (Id (conf e)) 0); [lia|]. destruct (Z.ltb_spec (TxCredits e) (need (conf e) p)); [|lia].
      apply runs_bnd. eapply runs_pm_put_unless; [exact He1|]. intros t2 D2 A2 F2 P2 U2. do 2 mstep. rewrite Hsame. split; [done|].
      split; [exact (did_trans _ _ _ _ _ _ _ _ D1 D2)|]. split; [congruence|]. split; [congruence|]. rewrite U2, U1. destruct auto; cbn in *; [lia|rewrite Hup; lia].
    + do 2 mstep. rewrite Hsame. split; [done|]. split; [done|]. split; [done|]. split; [done|]. rewrite U1. apply orb_false_iff in Hup as [-> ->]. cbn. lia.
Qed.

Lemma resource_loop ep (auto : bool) fuel src q n e t : ep_at ep e t -> (length src < fuel)%nat ->
  let '(picked, l) := pick_free auto (pm_up t) n src in
  runs (miter fuel (resource_round ep auto) (src, q, n)) t (fun r t' =>
    r = (l, q ++ picked) /\ did ep e [] t t' /\ hif_accepts t' = hif_accepts t /\ hif_free t' = hif_free t /\ pm_usage t' = pm_usage t + uses auto picked).
Proof.
  revert src q n t. induction fuel as [|fuel IH]; intros src q n t He Hf; [lia|].
  assert (Hstop : forall t', did ep e [] t t' -> hif_accepts t' = hif_accepts t -> hif_free t' = hif_free t -> pm_usage t' = pm_usage t ->
    runs (mreturn (src, q)) t' (fun r t' => r = (src, q ++ []) /\ did ep e [] t t' /\ hif_accepts t' = hif_accepts t /\ hif_free t' = hif_free t /\ pm_usage t' = pm_usage t + uses auto [])).
  { intros t' D A F U. mstep. rewrite app_nil_r. split; [done|]. split; [done|]. split; [done|]. split; [done|]. unfold uses. destruct auto; cbn; lia. }
  cbn [miter]. destruct (0 <? n) eqn:Hn.
  2: { destruct src as [|p rest]; cbn [pick_free]; rewrite ?Hn, ?andb_false_r; apply runs_bnd; cbn [resource_round];
       rewrite Hn; cbn [negb]; mstep; (apply Hstop; [by apply did_refl|done..]). }
  destruct src as [|p rest]; cbn [pick_free].
  { apply runs_bnd. cbn [resource_round]. rewrite Hn. cbn [negb]. apply runs_bnd. eapply runs_pm_get_unless; [exact He|]. intros t1 D1 A1 F1 P1 U1.
    destruct (auto || hd true (pm_up t)) eqn:Hup; cbn [negb].
    - apply runs_bnd. eapply runs_pm_put_unless; [by eapply did_at|]. intros t2 D2 A2 F2 P2 U2. mstep. apply Hstop; [exact (did_trans _ _ _ _ _ _ _ _ D1 D2)|congruence..|].
      rewrite U2, U1. destruct auto; cbn in *; [lia|rewrite Hup; lia].
    - mstep. apply Hstop; [done..|]. rewrite U1. apply orb_false_iff in Hup as [-> ->]. cbn. lia. }
  rewrite Hn, andb_true_r. destruct (auto || hd true (pm_up t)) eqn:Hup.
  - destruct (pick_free auto (if auto then pm_up t else tail (pm_up t)) (n - (if Fixup p then 1 else nb_frags (netbuf p))) rest) as [pk l] eqn:Hpk.
    apply runs_bnd. cbn [resource_round]. rewrite Hn. cbn [negb]. apply runs_bnd. eapply runs_pm_get_unless; [exact He|]. intros t1 D1 A1 F1 P1 U1.
    rewrite Hup. cbn [negb]. mstep.
    pose proof (IH rest (q ++ [set_credits_flags 0 0 p]) (n - (if Fixup p then 1 else nb_frags (netbuf p))) t1 (did_at _ _ _ _ _ _ He D1)) as Hi.
    rewrite P1, Hpk in Hi. eapply runs_mono; [apply Hi; cbn in Hf; lia|]. intros r t2 (-> & D2 & A2 & F2 & U2). split; [by rewrite <- app_assoc|].
    split; [exact (did_trans _ _ _ _ _ _ _ _ D1 D2)|]. split; [congruence|]. split; [congruence|]. rewrite U2, U1. unfold uses. destruct auto; cbn [negb andb orb length] in *; [lia|rewrite Hup; lia].
  - apply runs_bnd. cbn [resource_round]. rewrite Hn. cbn [negb]. apply runs_bnd. eapply runs_pm_get_unless; [exact He|]. intros t1 D1 A1 F1 P1 U1.
    rewrite Hup. cbn [negb]. mstep. apply Hstop; [done..|]. rewrite U1. apply orb_false_iff in Hup as [-> ->]. cbn. lia.
Qed.

(** What is chosen of the queue of an endpoint, and the endpoint then *)
Definition autos (e : HTC_ENDPOINT) : list HTC_PACKET := if ServiceID (conf e) =? WMI_CONTROL_SVC then List.filter is_auto_pm (TxQueue e) else [].
Definition others (e : HTC_ENDPOINT) : list HTC_PACKET :=
  if ServiceID (conf e) =? WMI_CONTROL_SVC then List.filter (fun p => negb (is_auto_pm p)) (TxQueue e) else TxQueue e.
Definition has_auto (e : HTC_ENDPOINT) : bool := negb (length (autos e) =? 0)%nat.
Definition the_source (e : HTC_ENDPOINT) : list HTC_PACKET := if has_auto e then autos e else TxQueue e.
Definition left_over (e : HTC_ENDPOINT) (l : list HTC_PACKET) : list HTC_PACKET := if has_auto e then l ++ others e else l.
Definition choose (e : HTC_ENDPOINT) (pm : list bool) (n : Z) : list HTC_PACKET * HTC_ENDPOINT :=
  if TxCreditFlowEnabled (conf e) then
    let '(q, l, k) := pick (conf e) (has_auto e) pm (TxCredits e) (the_source e) in (q, with_credits (set_TxQueue (left_over e l) e) k)
  else let '(q, l) := pick_free (has_auto e) pm n (the_source e) in (q, set_TxQueue (left_over e l) e).

Lemma no_autos e : has_auto e = false -> others e = TxQueue e.
Proof.
  unfold has_auto, autos, others. destruct (ServiceID (conf e) =? WMI_CONTROL_SVC); [|done]. intros H.
  assert (Hn : length (List.filter is_auto_pm (TxQueue e)) = 0%nat) by (destruct (Nat.eqb_spec (length (List.filter is_auto_pm (TxQueue e))) 0); done).
  clear H. induction (TxQueue e) as [|p q IH]; [done|]. cbn in *. destruct (is_auto_pm p); [done|]. cbn. by rewrite IH.
Qed.

(** The common frame: [loop] gives what is left of the source and what is chosen. *)
Lemma choose_frame ep e t (loop : bool -> list HTC_PACKET -> M T (list HTC_PACKET * list HTC_PACKET)) q l k u Q : ep_at ep e t ->
  (forall t1, did ep (set_TxQueue (others e) e) [] t t1 -> hif_accepts t1 = hif_accepts t -> hif_free t1 = hif_free t -> pm_up t1 = pm_up t -> pm_usage t1 = pm_usage t ->
     runs (loop (has_auto e) (the_source e)) t1 (fun r t' => r = (l, q) /\ did ep (with_credits (set_TxQueue (others e) e) k) [] t1 t' /\
       hif_accepts t' = hif_accepts t1 /\ hif_free t' = hif_free t1 /\ pm_usage t' = pm_usage t1 + u)) ->
  (forall t', did ep (with_credits (set_TxQueue (left_over e l) e) k) [] t t' -> hif_accepts t' = hif_accepts t -> hif_free t' = hif_free t -> pm_usage t' = pm_usage t + u -> Q q t') ->
  runs (temp <- GetHTCAutoPmSendPackets ep ;;
        let auto := negb (length temp =? 0)%nat in
        src <- source ep temp ;; res <- loop auto src ;; set_source ep auto (fst res) ;; mreturn (snd res)) t Q.
Proof.
  intros He Hl HQ.
  assert (Htemp : runs (GetHTCAutoPmSendPackets ep) t (fun r t' => r = autos e /\ did ep (set_TxQueue (others e) e) [] t t' /\
    hif_accepts t' = hif_accepts t /\ hif_free t' = hif_free t /\ pm_up t' = pm_up t /\ pm_usage t' = pm_usage t)).
  { unfold GetHTCAutoPmSendPackets, autos, others. apply runs_bnd. eapply runs_get_ep; [exact He|]. destruct (ServiceID (conf e) =? WMI_CONTROL_SVC); cbn [negb].
    - apply runs_bnd. eapply runs_upd_ep; [exact He|]. mstep. split; [done|]. split; [apply did_put|done].
    - mstep. split; [done|]. split; [|done]. replace (set_TxQueue (TxQueue e) e) with e by (by destruct e). by apply did_refl. }
  apply runs_bnd. eapply runs_mono; [exact Htemp|]. intros temp t1 (-> & D1 & A1 & F1 & P1 & U1). fold (has_auto e). cbv zeta.
  pose proof (did_at _ _ _ _ _ _ He D1) as He1. apply runs_bnd.
  eapply runs_mono with (Q := fun src t' => src = the_source e /\ t' = t1).
  { unfold source, the_source. fold (has_auto e). destruct (has_auto e) eqn:Ha; [by mstep|]. apply runs_bnd. eapply runs_get_ep; [exact He1|]. mstep.
    split; [|done]. cbn. by apply no_autos. }
  intros src t1' [-> ->]. apply runs_bnd. eapply runs_mono; [by apply Hl|]. intros r t2 (-> & D2 & A2 & F2 & U2). cbn [fst snd].
  pose proof (did_at _ _ _ _ _ _ He1 D2) as He2. apply runs_bnd.
  eapply runs_mono with (Q := fun _ t' => t' = put_ep ep (with_credits (set_TxQueue (left_over e l) e) k) t2).
  { unfold set_source, left_over, RequeueHTCAutoPmSendPackets. destruct (has_auto e) eqn:Ha.
    - apply runs_bnd. eapply runs_get_ep; [exact He2|]. cbn [conf with_credits set_TxCredits set_TxQueue set_ep].
      destruct (ServiceID (conf e) =? WMI_CONTROL_SVC) eqn:Hw; cbn [negb]; [|unfold has_auto, autos in Ha; by rewrite Hw in Ha].
      eapply runs_upd_ep; [exact He2|]. done.
    - eapply runs_upd_ep; [exact He2|]. done. }
  intros [] t3 ->. mstep. apply HQ; [|etrans; [exact A2|exact A1]|etrans; [exact F2|exact F1]|rewrite <- U1; exact U2].
  pose proof (did_trans _ _ _ _ _ _ _ _ D1 D2) as D12. exact (did_trans _ _ _ _ _ _ _ _ D12 (did_put ep _ t2)).
Qed.

Lemma choose_spec ep e t n Q : ep_at ep e t -> 0 < TxCreditSize (conf e) -> 0 <= TxCredits e ->
  (forall t', did ep (snd (choose e (pm_up t) n)) [] t t' -> hif_accepts t' = hif_accepts t -> hif_free t' = hif_free t ->
     pm_usage t' = pm_usage t + uses (has_auto e) (fst (choose e (pm_up t) n)) -> Q (fst (choose e (pm_up t) n)) t') ->
  runs (if TxCreditFlowEnabled (conf e) then GetHTCSendPacketsCreditBased ep [] else GetHTCSendPackets ep [] n) t Q.
Proof.
  intros He Hsz Hcr HQ. unfold choose in HQ. destruct (TxCreditFlowEnabled (conf e)).
  - destruct (pick (conf e) (has_auto e) (pm_up t) (TxCredits e) (the_source e)) as [[q l] k] eqn:Hpk. cbn [fst snd] in HQ.
    refine (choose_frame ep e t (fun auto src => miter (S (length src)) (credit_round ep auto) (src, [])) q l k (uses (has_auto e) q) Q He _ HQ).
    intros t1 D1 A1 F1 P1 U1. pose proof (did_at _ _ _ _ _ _ He D1) as He1.
    pose proof (credit_loop ep (has_auto e) (S (length (the_source e))) (the_source e) [] _ t1 He1 Hsz Hcr (Nat.lt_succ_diag_r _)) as H.
    cbn [conf TxCredits set_TxQueue set_ep] in H. rewrite P1, Hpk in H. exact H.
  - destruct (pick_free (has_auto e) (pm_up t) n (the_source e)) as [q l] eqn:Hpk. cbn [fst snd] in HQ.
    assert (Hk : forall l', with_credits (set_TxQueue l' e) (TxCredits e) = set_TxQueue l' e) by done.
    refine (choose_frame ep e t (fun auto src => miter (S (length src)) (resource_round ep auto) (src, [], n)) q l (TxCredits e) (uses (has_auto e) q) Q He _ HQ).
    intros t1 D1 A1 F1 P1 U1. pose proof (did_at _ _ _ _ _ _ He D1) as He1.
    pose proof (resource_loop ep (has_auto e) (S (length (the_source e))) (the_source e) [] n _ t1 He1 (Nat.lt_succ_diag_r _)) as H.
    rewrite P1, Hpk in H. exact H.
Qed.

(** Endpoints that are not connected have no size of credits. *)
Definition ep_ok (e : HTC_ENDPOINT) : Prop := (TxQueue e = [] \/ 0 < TxCreditSize (conf e)) /\ 0 <= TxCredits e.

(** [take_packets]: the packets, and the endpoint, which is released when there are none *)
Definition taken (e : HTC_ENDPOINT) (pm : list bool) (n : Z) : list HTC_PACKET * HTC_ENDPOINT :=
  match TxQueue e with
  | [] => ([], set_TxProcessCount 0 e)
  | _ => let '(q, e') := choose e pm n in match q with [] => ([], set_TxProcessCount 0 e') | _ => (q, e') end
  end.
Lemma take_spec ep e t n : ep_at ep e t -> ep_ok e ->
  runs (take_packets ep n) t (fun q t' => q = fst (taken e (pm_up t) n) /\ did ep (snd (taken e (pm_up t) n)) [] t t' /\
    hif_accepts t' = hif_accepts t /\ hif_free t' = hif_free t /\ pm_usage t' = pm_usage t + uses (has_auto e) (fst (taken e (pm_up t) n))).
Proof.
  intros He Hok. unfold take_packets, taken. apply runs_bnd. eapply runs_get_ep; [exact He|].
  destruct (TxQueue e) as [|p0 q0] eqn:Hq0.
  { apply runs_bnd. eapply runs_upd_ep; [exact He|]. mstep. split; [done|]. split; [apply did_put|]. cbn. unfold uses. destruct (has_auto e); cbn; split_and!; done || lia. }
  destruct Hok as [[Hn|Hsz] Hcr]; [congruence|]. clear p0 q0 Hq0. apply runs_bnd. eapply choose_spec; [exact He|exact Hsz|exact Hcr|]. intros t1 D1 A1 F1 U1.
  pose proof (did_at _ _ _ _ _ _ He D1) as He1. destruct (choose e (pm_up t) n) as [q e1]. cbn [fst snd] in *. destruct q as [|p q].
  - apply runs_bnd. eapply runs_upd_ep; [exact He1|]. mstep. cbn [fst snd]. split; [done|].
    split; [exact (did_trans _ _ _ _ _ _ _ _ D1 (did_put ep _ t1))|done].
  - mstep. done.
Qed.

(** Facts of the choice: packets apart from their credits and flags *)
Definition plain (p : HTC_PACKET) : HTC_PACKET := set_credits_flags 0 0 p.
Definition spent (q : list HTC_PACKET) : Z := foldr (fun p n => CreditsUsed p + n) 0 q.
Lemma spent_app q q' : spent (q ++ q') = spent q + spent q'.
Proof. unfold spent. induction q as [|p q IH]; cbn; lia. Qed.

Lemma plain_charged c k p : plain (charged c k p) = plain p.
Proof. unfold charged. by destruct (_ =? 0). Qed.
Lemma used_charged c k p : CreditsUsed (charged c k p) = cost c p.
Proof. unfold charged, cost. by destruct (_ =? 0). Qed.

(** What a packet is charged *)
Definition charge (c : endpoint_conf) (p : HTC_PACKET) : Z := if TxCreditFlowEnabled c then cost c p else 0.
Definition charged_right (c : endpoint_conf) (p : HTC_PACKET) : Prop := CreditsUsed p = charge c p.
Lemma cost_charged c k p : cost c (charged c k p) = cost c p.
Proof. unfold charged, cost, need. by destruct (_ =? 0). Qed.
Lemma pick_right c auto pm credits src : TxCreditFlowEnabled c = true -> Forall (charged_right c) (pick c auto pm credits src).1.1.
Proof.
  intros Hf. revert pm credits. induction src as [|p src IH]; intros pm credits; cbn [pick]; [constructor|]. destruct (_ && _); [|constructor].
  specialize (IH (if auto then pm else tail pm) (credits - cost c p)). destruct (pick c auto _ _ src) as [[q l] k]. constructor; [|exact IH].
  unfold charged_right, charge. by rewrite Hf, used_charged, cost_charged.
Qed.
Lemma pick_free_right c auto pm n src : TxCreditFlowEnabled c = false -> Forall (charged_right c) (pick_free auto pm n src).1.
Proof.
  intros Hf. revert pm n. induction src as [|p src IH]; intros pm n; cbn [pick_free]; [constructor|]. destruct (_ && _); [|constructor].
  specialize (IH (if auto then pm else tail pm) (n - (if Fixup p then 1 else nb_frags (netbuf p)))). destruct (pick_free auto _ _ src) as [q l].
  constructor; [|exact IH]. unfold charged_right, charge. by rewrite Hf.
Qed.

(** Nothing is lost or turned round, and the credits are accounted for. *)
Lemma pick_spec c auto pm credits src : let '(q, l, k) := pick c auto pm credits src in
  map plain q ++ map plain l = map plain src /\ k + spent q = credits /\ (0 <= credits -> 0 <= k) /\
  (Forall (fun b => b = true) pm -> match l with [] => True | p :: _ => k < cost c p end).
Proof.
  revert pm credits. induction src as [|p src IH]; intros pm credits; cbn [pick]; [split_and!; cbn; done || lia|].
  destruct ((auto || hd true pm) && (cost c p <=? credits)) eqn:Hgo.
  - apply andb_true_iff in Hgo as [_ Hle]. apply Z.leb_le in Hle. specialize (IH (if auto then pm else tail pm) (credits - cost c p)).
    destruct (pick c auto (if auto then pm else tail pm) (credits - cost c p) src) as [[q l] k]. destruct IH as (I1 & I2 & I3 & I4).
    cbn [map app]. rewrite plain_charged, I1. split; [done|]. split; [change (spent (charged c credits p :: q)) with (CreditsUsed (charged c credits p) + spent q); rewrite used_charged; lia|].
    split; [lia|]. intros Hpm. apply I4. destruct auto; [done|]. destruct pm; [done|]. by apply Forall_cons in Hpm as [_ ?].
  - split; [done|]. split; [cbn; lia|]. split; [done|]. intros Hpm. apply andb_false_iff in Hgo as [Hup|Hle]; [|by apply Z.leb_gt].
    apply orb_false_iff in Hup as [_ Hhd]. destruct pm as [|b pm]; [done|]. apply Forall_cons in Hpm as [-> _]. done.
Qed.

Lemma pick_free_spec auto pm n src : let '(q, l) := pick_free auto pm n src in map plain q ++ map plain l = map plain src /\ spent q = 0.
Proof.
  revert pm n. induction src as [|p src IH]; intros pm n; cbn [pick_free]; [done|]. destruct (_ && _); [|done].
  specialize (IH (if auto then pm else tail pm) (n - (if Fixup p then 1 else nb_frags (netbuf p)))).
  destruct (pick_free auto _ _ src) as [q l]. destruct IH as (I1 & I2). cbn [map app]. rewrite I1. split; [done|]. cbn. unfold spent in I2. lia.
Qed.

Lemma pick_used c auto pm credits src : 0 < TxCreditSize c -> Forall (fun p => 0 <= CreditsUsed p) (pick c auto pm credits src).1.1.
Proof.
  intros Hsz. revert pm credits. induction src as [|p src IH]; intros pm credits; cbn [pick]; [constructor|]. destruct (_ && _); [|constructor].
  specialize (IH (if auto then pm else tail pm) (credits - cost c p)). destruct (pick c auto _ _ src) as [[q l] k]. constructor; [|exact IH].
  rewrite used_charged. unfold cost. pose proof (need_pos c p Hsz). destruct (_ =? 0); lia.
Qed.
Lemma pick_free_used auto pm n src : Forall (fun p => 0 <= CreditsUsed p) (pick_free auto pm n src).1.
Proof.
  revert pm n. induction src as [|p src IH]; intros pm n; cbn [pick_free]; [constructor|]. destruct (_ && _); [|constructor].
  specialize (IH (if auto then pm else tail pm) (n - (if Fixup p then 1 else nb_frags (netbuf p)))). destruct (pick_free auto _ _ src) as [q l]. by constructor.
Qed.

(** The packets of power management, and the others *)
Definition of_class (a : bool) (q : list HTC_PACKET) : list HTC_PACKET := List.filter (fun p => Bool.eqb (is_auto_pm p) a) q.
Lemma of_class_app a q q' : of_class a (q ++ q') = of_class a q ++ of_class a q'.
Proof. apply List.filter_app. Qed.
Lemma of_class_plain a q : of_class a (map plain q) = map plain (of_class a q).
Proof. unfold of_class. induction q as [|p q IH]; [done|]. cbn. change (is_auto_pm (plain p)) with (is_auto_pm p). by destruct (Bool.eqb (is_auto_pm p) a); cbn; rewrite IH. Qed.
(** What identifies a packet along its way *)
Definition key (p : HTC_PACKET) : Z * Z * Z * Z * Z := (nb_id (netbuf p), ActualLength p, Endpoint p, Tag p, SeqNo p).
Definition keys (a : bool) (q : list HTC_PACKET) : list (Z * Z * Z * Z * Z) := map key (of_class a q).
Lemma keys_app a q q' : keys a (q ++ q') = keys a q ++ keys a q'.
Proof. unfold keys. by rewrite of_class_app, map_app. Qed.

Lemma keys_plain a q q' : map plain q = map plain q' -> keys a q = keys a q'.
Proof.
  intros H. unfold keys. assert (Hk : forall q, map key (of_class a q) = map key (map plain (of_class a q))) by (intros; by rewrite map_map).
  by rewrite (Hk q), (Hk q'), <- !of_class_plain, H.
Qed.
Lemma keys_split a q l src : map plain q ++ map plain l = map plain src -> keys a q ++ keys a l = keys a src.
Proof. rewrite <- map_app. intros H. rewrite <- keys_app. by apply keys_plain. Qed.

Lemma filter_class a b (q : list HTC_PACKET) : of_class a (of_class b q) = if Bool.eqb a b then of_class b q else [].
Proof.
  unfold of_class. induction q as [|p q IH]; cbn; [by destruct (Bool.eqb a b)|].
  destruct (is_auto_pm p) eqn:E, a, b; cbn in *; rewrite ?E; cbn; by rewrite ?IH.
Qed.
Lemma class_true q : List.filter is_auto_pm q = of_class true q.
Proof. unfold of_class. apply List.filter_ext. intros p. by destruct (is_auto_pm p). Qed.
Lemma class_false q : List.filter (fun p => negb (is_auto_pm p)) q = of_class false q.
Proof. unfold of_class. apply List.filter_ext. intros p. by destruct (is_auto_pm p). Qed.

Lemma autos_others a e : has_auto e = true -> keys a (autos e) ++ keys a (others e) = keys a (TxQueue e).
Proof.
  unfold has_auto, autos, others. destruct (ServiceID (conf e) =? WMI_CONTROL_SVC); [|done]. intros _.
  rewrite class_true, class_false. unfold keys. rewrite !filter_class. destruct a; cbn; [by rewrite app_nil_r|done].
Qed.
Lemma autos_others_length e : (length (the_source e) + (length (left_over e []))= length (TxQueue e))%nat.
Proof.
  unfold the_source, left_over. destruct (has_auto e) eqn:Ha; [|cbn; lia]. unfold has_auto, autos, others in *.
  destruct (ServiceID (conf e) =? WMI_CONTROL_SVC); [|done]. cbn. clear Ha.
  induction (TxQueue e) as [|p q IH]; [done|]. cbn. destruct (is_auto_pm p); cbn; lia.
Qed.

(** Nothing can be sent for want of credits. *)
Definition blocked (e : HTC_ENDPOINT) : Prop := match TxQueue e with [] => True | p :: _ => TxCredits e < cost (conf e) p end.

(** What the choice of [q] leaves of an endpoint *)
Record chosen (e : HTC_ENDPOINT) (q : list HTC_PACKET) (e' : HTC_ENDPOINT) : Prop := {
  ch_keys : forall a, keys a q ++ keys a (TxQueue e') = keys a (TxQueue e);
  ch_length : (length q + length (TxQueue e') = length (TxQueue e))%nat;
  ch_credits : TxCredits e' + spent q = TxCredits e;
  ch_nonneg : 0 <= TxCredits e';
  ch_used : Forall (fun p => 0 <= CreditsUsed p) q;
  ch_right : Forall (charged_right (conf e)) q;
  ch_same : conf e' = conf e /\ TxLookupQueue e' = TxLookupQueue e /\ EpSeqNo e' = EpSeqNo e /\ ul_outstanding_cnt e' = ul_outstanding_cnt e
}.

Lemma left_over_keys a e q l : map plain q ++ map plain l = map plain (the_source e) -> keys a q ++ keys a (left_over e l) = keys a (TxQueue e).
Proof.
  intros H. apply (keys_split a) in H. unfold left_over, the_source in *. destruct (has_auto e) eqn:Ha; [|done].
  by rewrite keys_app, app_assoc, H, autos_others.
Qed.
Lemma left_over_length e q l : map plain q ++ map plain l = map plain (the_source e) -> (length q + length (left_over e l) = length (TxQueue e))%nat.
Proof.
  intros H. apply (f_equal length) in H. rewrite length_app, !length_map in H. rewrite <- (autos_others_length e), <- H.
  unfold left_over. destruct (has_auto e); rewrite ?length_app; cbn; lia.
Qed.

Lemma choose_chosen e pm n : 0 < TxCreditSize (conf e) -> 0 <= TxCredits e -> let '(q, e') := choose e pm n in chosen e q e' /\ TxProcessCount e' = TxProcessCount e /\
  (q = [] -> TxCreditFlowEnabled (conf e) = true -> Forall (fun b => b = true) pm -> blocked e').
Proof.
  intros Hsz Hcr. unfold choose. destruct (TxCreditFlowEnabled (conf e)) eqn:Hflow.
  - pose proof (pick_spec (conf e) (has_auto e) pm (TxCredits e) (the_source e)) as H.
    pose proof (pick_used (conf e) (has_auto e) pm (TxCredits e) (the_source e) Hsz) as Hu.
    pose proof (pick_right (conf e) (has_auto e) pm (TxCredits e) (the_source e) Hflow) as Hr.
    destruct (pick (conf e) (has_auto e) pm (TxCredits e) (the_source e)) as [[q l] k]. destruct H as (H1 & H2 & H3 & H4).
    split; [|split; [done|]].
    + split; [intros a; by apply left_over_keys|by apply left_over_length|exact H2|by apply H3|exact Hu|exact Hr|done].
    + intros -> _ Hpm. unfold blocked. cbn [TxQueue TxCredits conf with_credits set_TxCredits set_TxQueue set_ep]. specialize (H4 Hpm).
      unfold left_over. cbn [map app] in H1. unfold the_source in H1. destruct (has_auto e) eqn:Ha; [|done].
      destruct l as [|p l]; [|done]. unfold has_auto in Ha. destruct (autos e); [done|]. done.
  - pose proof (pick_free_spec (has_auto e) pm n (the_source e)) as H. pose proof (pick_free_used (has_auto e) pm n (the_source e)) as Hu.
    pose proof (pick_free_right (conf e) (has_auto e) pm n (the_source e) Hflow) as Hr. destruct (pick_free (has_auto e) pm n (the_source e)) as [q l]. destruct H as (H1 & H2).
    split; [|done]. split; [intros a; by apply left_over_keys|by apply left_over_length|cbn; lia|done|exact Hu|exact Hr|done].
Qed.

Lemma take_chosen e pm n : ep_ok e -> let '(q, e') := taken e pm n in chosen e q e' /\
  TxProcessCount e' = (match q with [] => 0 | _ => TxProcessCount e end) /\
  (q = [] -> TxCreditFlowEnabled (conf e) = true -> Forall (fun b => b = true) pm -> blocked e').
Proof.
  intros Hok. unfold taken. destruct (TxQueue e) as [|p0 q0] eqn:Hq0.
  { split; [|split; [done|]]; [|intros _ _ _; unfold blocked; cbn; by rewrite Hq0].
    split; [intros a; cbn; by rewrite Hq0|cbn; by rewrite Hq0|cbn; lia|exact (proj2 Hok)|constructor|constructor|done]. }
  destruct Hok as [[Hn|Hsz] Hcr]; [congruence|].
  pose proof (choose_chosen e pm n Hsz Hcr) as H. destruct (choose e pm n) as [q e']. destruct H as ([K L C O U F S] & P & B).
  destruct q as [|p q]; [|done]. split; [|split; [done|]].
  - split; [exact K|exact L|exact C|exact O|exact U|exact F|exact S].
  - intros _ Hf Hpm. exact (B eq_refl Hf Hpm).
Qed.

(** ** The other functions *)

Lemma key_prepare e p : key (prepare e p) = key p.
Proof. unfold prepare. by destruct (TxCreditFlowEnabled (conf e)). Qed.
Lemma tag_prepare e p : Tag (prepare e p) = Tag p.
Proof. unfold prepare. by destruct (TxCreditFlowEnabled (conf e)). Qed.
Lemma used_prepare e p : CreditsUsed (prepare e p) = CreditsUsed p.
Proof. unfold prepare. by destruct (TxCreditFlowEnabled (conf e)). Qed.
Lemma right_prepare c e p : charged_right c p -> charged_right c (prepare e p).
Proof. unfold charged_right, prepare, charge, cost, need. by destruct (TxCreditFlowEnabled (conf e)). Qed.
Lemma keys_prepare a e p q : keys a (prepare e p :: q) = keys a (p :: q).
Proof. unfold keys, of_class. cbn. unfold is_auto_pm. rewrite tag_prepare. destruct (Bool.eqb _ a); cbn; by rewrite ?key_prepare. Qed.

(** The answers of the layers around stay. *)
Definition same_answers (t t' : T) : Prop :=
  hif_accepts t' = hif_accepts t /\ hif_free t' = hif_free t /\ pm_up t' = pm_up t /\ pm_usage t' = pm_usage t.

Lemma runs_upd_did ep f e e0 t0 t v (Q : unit -> T -> Prop) : ep_at ep e0 t0 -> did ep e v t0 t ->
  (forall t', did ep (f e) v t0 t' -> same_answers t t' -> Q tt t') -> runs (upd_ep ep f) t Q.
Proof.
  intros He D HQ. eapply runs_upd_ep; [by eapply did_at|]. apply HQ; [|done].
  rewrite <- (app_nil_r v). exact (did_trans _ _ _ _ _ _ _ _ D (did_put ep (f e) t)).
Qed.
Lemma runs_get_did ep e e0 t0 t v (Q : HTC_ENDPOINT -> T -> Prop) : ep_at ep e0 t0 -> did ep e v t0 t -> Q e t -> runs (get_ep ep) t Q.
Proof. intros He D HQ. eapply runs_get_ep; [by eapply did_at|done]. Qed.

Lemma enter_spec ep q e t : ep_at ep e t -> is_nodrop_pkt t = false -> 0 <= TxProcessCount e <= 1 ->
  runs (enter ep q) t (fun b t' => b = (TxProcessCount e =? 0) /\ did ep (set_TxProcessCount 1 (set_TxQueue (TxQueue e ++ q) e)) [] t t' /\ same_answers t t').
Proof.
  intros He Hnd Hc. unfold enter. do 2 mstep. rewrite Hnd. set (e1 := set_TxQueue (TxQueue e ++ q) e). apply runs_bnd.
  eapply runs_mono with (Q := fun _ t1 => did ep e1 [] t t1 /\ same_answers t t1).
  { destruct q as [|p q].
    - mstep. split; [|done]. unfold e1. rewrite app_nil_r. replace (set_TxQueue (TxQueue e) e) with e by (by destruct e). by apply did_refl.
    - eapply runs_upd_did; [exact He|by apply did_refl|]. intros t1 D1 A1. done. }
  intros [] t1 [D1 A1]. mstep. eapply runs_upd_did; [exact He|exact D1|]. intros t2 D2 A2. apply runs_bnd. eapply runs_get_did; [exact He|exact D2|].
  cbn [TxProcessCount set_TxProcessCount set_ep].
  assert (A12 : same_answers t t2) by (unfold same_answers in *; intuition congruence).
  destruct (Z.ltb_spec 1 (TxProcessCount e1 + 1)) as [Hb|Hb]; cbn in Hb.
  - mstep. eapply runs_upd_did; [exact He|exact D2|]. intros t3 D3 A3. mstep. split; [symmetry; apply Z.eqb_neq; lia|].
    split; [|unfold same_answers in *; intuition congruence]. assert (TxProcessCount e = 1) as Hc1 by lia. cbn in D3. rewrite Hc1 in D3. exact D3.
  - mstep. split; [symmetry; apply Z.eqb_eq; lia|]. split; [|done]. assert (TxProcessCount e = 0) as Hc0 by lia. cbn in D2. rewrite Hc0 in D2. exact D2.
Qed.

Lemma put_back_spec ep q e t : ep_at ep e t ->
  runs (put_back ep q) t (fun _ t' => did ep (set_TxProcessCount 0 (set_TxQueue (q ++ TxQueue e) e)) [] t t' /\ same_answers t t').
Proof.
  intros He. unfold put_back. mstep. eapply runs_upd_did; [exact He|by apply did_refl|]. intros t1 D1 A1.
  eapply runs_upd_did; [exact He|exact D1|]. intros t2 D2 A2. split; [exact D2|]. unfold same_answers in *. intuition congruence.
Qed.

Lemma add_credits_spec ep n e t : ep_at ep e t ->
  let e' := set_TxCredits (TxCredits e + n) e in
  runs (add_credits ep n) t (fun b t' => b = negb (TxCredits e' =? 0) && negb (length (TxQueue e) =? 0)%nat /\ did ep e' [] t t' /\ same_answers t t').
Proof.
  intros He e'. unfold add_credits. mstep. eapply runs_upd_did; [exact He|by apply did_refl|]. intros t1 D1 A1. apply runs_bnd.
  eapply runs_get_did; [exact He|exact D1|]. mstep. done.
Qed.

(** The buffers given to HIF for an endpoint, of those events *)
Definition issued1 (ep : Z) (v : htc_event) : list HTC_PACKET :=
  match v with HifSend _ i _ p true => if i =? ep then [p] else [] | _ => [] end.
Definition issued (ep : Z) (evs : list htc_event) : list HTC_PACKET := concat (map (issued1 ep) evs).
Lemma issued_app ep v w : issued ep (v ++ w) = issued ep v ++ issued ep w.
Proof. unfold issued. by rewrite map_app, concat_app. Qed.

(** Completions go to the endpoints of the packets. *)
Definition on_target (t : T) (p : HTC_PACKET) : Prop := 0 <= Endpoint p < Z.of_nat (length (EndPoint t)).

Lemma tell_each_spec i q t : runs (tell_each i q) t (fun _ t' => exists v, t' = set_target (EndPoint t) (is_nodrop_pkt t) (CE_send_cnt t) (TX_comp_cnt t) (hif_accepts t) (hif_free t) (pm_up t) (pm_usage t) (events t ++ v) t /\ forall ep, issued ep v = []).
Proof.
  revert t. induction q as [|p q IH]; intros t; cbn [tell_each].
  - mstep. exists []. rewrite app_nil_r. by destruct t.
  - apply runs_bnd, runs_tell. eapply runs_mono; [apply IH|]. intros [] t' (v & -> & Hv). exists (Completed i [p] :: v). cbn. rewrite <- app_assoc. split; [done|].
    intros ep. apply Hv.
Qed.
Lemma DoSendCompletion_spec i q t ep e : ep_at ep e t -> 0 <= i < Z.of_nat (length (EndPoint t)) ->
  runs (DoSendCompletion i q) t (fun _ t' => exists v, did ep e v t t' /\ (forall ep, issued ep v = []) /\ same_answers t t').
Proof.
  intros He Hi. destruct (aget_is_Some (EndPoint t) i Hi) as [ei Hei]. unfold DoSendCompletion. apply runs_bnd. eapply runs_get_ep; [exact Hei|].
  destruct q as [|p q]; [mstep; exists []; split; [by apply did_refl|done]|]. destruct (multi_cb (conf ei)).
  - apply runs_tell. exists [Completed i (p :: q)]. split; [|done]. by apply did_same.
  - eapply runs_mono; [apply tell_each_spec|]. intros [] t' (v & -> & Hv). exists v. split; [by apply did_same|done].
Qed.

Lemma nb_restore p : nb_id (netbuf (RestoreTxPacket p)) = nb_id (netbuf p) /\ Endpoint (RestoreTxPacket p) = Endpoint p.
Proof. unfold RestoreTxPacket. by destruct (Fixup p). Qed.

(** What a search finds, and the queue without it *)
Definition search_tx (q : list HTC_PACKET) (b : Z) : option HTC_PACKET * list HTC_PACKET :=
  match List.find (fun p => b =? nb_id (netbuf p)) q with
  | None => (None, q)
  | Some p => (Some p, HTC_PACKET_REMOVE q p)
  end.
Lemma search_tx_Forall (P : HTC_PACKET -> Prop) q b : Forall P q -> Forall P (snd (search_tx q b)) /\ forall p, fst (search_tx q b) = Some p -> P p.
Proof.
  intros HP. unfold search_tx. destruct (List.find _ q) as [p'|] eqn:Hf; [|done]. cbn [fst snd]. apply find_some in Hf as [Hin _].
  rewrite List.Forall_forall in HP. split; [|intros ? [= <-]; by apply HP].
  apply List.Forall_forall. intros x [Hx _]%List.filter_In. by apply HP.
Qed.

(** A look-up only moves packets of the look-up queue; [P] holds of all of them. *)
Definition looked (ep : Z) (P : HTC_PACKET -> Prop) (e : HTC_ENDPOINT) (t t' : T) : Prop := exists n q,
  Forall P q /\ did ep (set_outstanding n (set_TxLookupQueue q e)) [] t t' /\ same_answers t t'.
Lemma lookup_first_spec ep b e t P : ep_at ep e t -> Forall P (TxLookupQueue e) ->
  runs (lookup_first ep b) t (fun r t' => looked ep P e t t' /\ match r with inl None => True | inl (Some p) => P p | inr q => Forall P q end).
Proof.
  intros He HP. unfold lookup_first. apply runs_bnd. eapply runs_get_ep; [exact He|]. mstep.
  eapply runs_upd_did; [exact He|by apply did_refl|]. intros t1 D1 A1. destruct (TxLookupQueue e) as [|p rest] eqn:Hq.
  { mstep. split; [|done]. exists (ul_outstanding_cnt e - 1), []. split; [done|]. split; [|done]. rewrite <- Hq. by destruct e. }
  destruct (nb_id (netbuf p) =? b).
  - mstep. eapply runs_upd_did; [exact He|exact D1|]. intros t2 D2 A2. mstep. apply Forall_cons in HP as [Hp HP]. split; [|done].
    exists (ul_outstanding_cnt e - 1), rest. split; [done|]. split; [exact D2|unfold same_answers in *; intuition congruence].
  - mstep. eapply runs_upd_did; [exact He|exact D1|]. intros t2 D2 A2. mstep. split; [|done].
    exists (ul_outstanding_cnt e - 1), []. split; [constructor|]. split; [exact D2|unfold same_answers in *; intuition congruence].
Qed.
Lemma lookup_rest_spec ep b q e t P : ep_at ep e t -> Forall P (TxLookupQueue e) -> Forall P q ->
  runs (lookup_rest ep b q) t (fun found t' => looked ep P e t t' /\ forall p, found = Some p -> P p).
Proof.
  intros He HP HQ. destruct (search_tx_Forall P q b HQ) as [H1 H2]. unfold search_tx in H1, H2. unfold lookup_rest. mstep.
  eapply runs_upd_did; [exact He|by apply did_refl|]. intros t1 D1 A1. mstep.
  assert (HL : looked ep P e t t1).
  { exists (ul_outstanding_cnt e), (snd (search_tx q b) ++ TxLookupQueue e). unfold search_tx. split; [apply Forall_app; split; [|done]; by destruct (List.find _ q)|].
    split; [|done]. destruct e. by destruct (List.find _ q). }
  split; [exact HL|]. intros p Hp. apply H2. by rewrite Hp.
Qed.

Lemma runs_put_unless_auto (a : bool) ep e t (Q : unit -> T -> Prop) : ep_at ep e t ->
  (forall t', did ep e [] t t' -> hif_accepts t' = hif_accepts t -> pm_up t' = pm_up t -> Q tt t') -> runs (if a then mreturn tt else hif_pm_runtime_put) t Q.
Proof. intros He HQ. eapply (runs_pm_put_unless a); [exact He|]. intros t' D A _ P _. by apply HQ. Qed.

Lemma finish_packet_spec ep found e t : ep_at ep e t -> (forall p, found = Some p -> Endpoint p = ep) ->
  runs (finish_packet found) t (fun _ t' => exists v, did ep e v t t' /\ (forall i, issued i v = []) /\ hif_accepts t' = hif_accepts t /\ pm_up t' = pm_up t).
Proof.
  intros He Hp. unfold finish_packet. destruct found as [p|].
  2: { mstep. exists []. split; [by apply did_refl|done]. }
  specialize (Hp p eq_refl). apply runs_bnd. eapply runs_put_unless_auto; [exact He|].
  intros t2 D2 H2 P2. pose proof (did_at _ _ _ _ _ _ He D2) as He2. unfold SendPacketCompletion.
  eapply runs_mono; [apply (DoSendCompletion_spec _ _ t2 ep e He2); cbn; rewrite Hp; exact (ep_range _ _ _ He2)|].
  intros [] t3 (v & D3 & Hv & A3). exists v. split; [exact (did_trans _ _ _ _ _ _ _ _ D2 D3)|]. split; [done|].
  unfold same_answers in *. intuition congruence.
Qed.

Lemma resources_of_spec ep e t : ep_at ep e t -> runs (resources_of ep) t (fun _ t' => did ep e [] t t' /\ hif_accepts t' = hif_accepts t /\ pm_up t' = pm_up t).
Proof.
  intros He. unfold resources_of. apply runs_bnd. eapply runs_get_ep; [exact He|]. destruct (TxCreditFlowEnabled (conf e)).
  - mstep. split; [by apply did_refl|done].
  - apply runs_free_number. split; [|done]. apply did_same; [done..|by rewrite app_nil_r|done|done].
Qed.
