(* ===== verification/HtcSys.v ===== *)
(** * Host-target communication: interleavings of the threads that send

    Any number of threads send on the endpoints of a target, complete packets and receive
    reports of credits.  Between the steps below the lock of the queues is free, so that the
    steps of the threads interleave in any order; at most one of them drains an endpoint. *)

From stdpp Require Import functions.
From S2P Require Import Prelude HtcSend HtcInv.

Local Open Scope c_scope.

#[local] Abbreviation T := HTC_TARGET.
#[local] Arguments keys : simpl never.

(** ** The steps *)

(** Where the thread is that drains an endpoint: there is none, it holds these packets to
    issue, or it holds these after a send that failed *)
Inductive phase := Idle | Draining (held : list HTC_PACKET) | Failed (held : list HTC_PACKET).

(** An endpoint's thread that drains; the threads with a report of credits that are still to
    try; those that search for the packet of a buffer, with the queue they search; and for the statements, what was accepted, the credits reported and those lost *)
Record thread := { th_phase : phase; th_retries : nat; th_accepted : list HTC_PACKET; th_reported : Z; th_lost : Z; th_lookups : list (Z * list HTC_PACKET) }.
Definition set_phase (f : phase) (h : thread) : thread :=
  {| th_phase := f; th_retries := th_retries h; th_accepted := th_accepted h; th_reported := th_reported h; th_lost := th_lost h; th_lookups := th_lookups h |}.
Definition set_retries (n : nat) (h : thread) : thread :=
  {| th_phase := th_phase h; th_retries := n; th_accepted := th_accepted h; th_reported := th_reported h; th_lost := th_lost h; th_lookups := th_lookups h |}.
Definition add_accepted (q : list HTC_PACKET) (h : thread) : thread :=
  {| th_phase := th_phase h; th_retries := th_retries h; th_accepted := th_accepted h ++ q; th_reported := th_reported h; th_lost := th_lost h; th_lookups := th_lookups h |}.
Definition add_reported (n : Z) (h : thread) : thread :=
  {| th_phase := th_phase h; th_retries := th_retries h; th_accepted := th_accepted h; th_reported := th_reported h + n; th_lost := th_lost h; th_lookups := th_lookups h |}.
Definition add_lost (n : Z) (h : thread) : thread :=
  {| th_phase := th_phase h; th_retries := th_retries h; th_accepted := th_accepted h; th_reported := th_reported h; th_lost := th_lost h + n; th_lookups := th_lookups h |}.

Definition set_lookups (l : list (Z * list HTC_PACKET)) (h : thread) : thread :=
  {| th_phase := th_phase h; th_retries := th_retries h; th_accepted := th_accepted h; th_reported := th_reported h; th_lost := th_lost h; th_lookups := l |}.

(** [HTCTrySend] gets the packets in, or tries again when there are none; then it takes
    packets, issues them one by one, and puts back what a failed send left.  Besides, the
    resources of a pipe are asked for, buffers complete, where the search for the packet of a
    buffer goes on without the lock, and credits are reported. *)
Inductive action := Query | Enter (q : list HTC_PACKET) | Take (tx_resources : Z) | Issue | PutBack | Complete (b : Z) | Search (k : nat) | Credits (n : Z).

Definition allowed (ep : Z) (a : action) (e : HTC_ENDPOINT) (h : thread) : bool :=
  match a, th_phase h with
  | Query, _ => true
  | Enter [], _ => true
  | Enter q, _ => forallb (fun p => Endpoint p =? ep) q && negb (ServiceID (conf e) =? 0)
  | Take _, Draining [] => true
  | Issue, Draining (_ :: _) => true
  | PutBack, Failed _ => true
  | Complete _, _ => true
  | Search k, _ => (k <? length (th_lookups h))%nat
  | Credits n, _ => 0 <=? n
  | _, _ => false
  end.

Definition act (ep : Z) (a : action) (h : thread) : M T thread :=
  match a, th_phase h with
  | Query, _ => _ <- resources_of ep ;; mreturn h
  | Enter q, f =>
      first <- enter ep q ;;
      mreturn (set_phase (if first : bool then Draining [] else f) (set_retries (match q with [] => Nat.pred (th_retries h) | _ => th_retries h end) (add_accepted q h)))
  | Take n, _ =>
      q <- take_packets ep n ;;
      mreturn (set_phase (match q with [] => Idle | _ => Draining q end) h)
  | Issue, Draining q =>
      r <- issue_round ep q ;;
      mreturn (match r with
               | inl rest => set_phase (Draining rest) h
               | inr (_, rest) => set_phase (Failed rest) (add_lost (spent (tail rest)) h)
               end)
  | PutBack, Failed q => put_back ep q ;; mreturn (set_phase Idle h)
  | Complete b, _ =>
      count_completion ;;
      r <- lookup_first ep b ;;
      match r with
      | inl found => finish_packet found ;; mreturn h
      | inr lookupQueue => mreturn (set_lookups (th_lookups h ++ [(b, lookupQueue)]) h)
      end
  | Search k, _ =>
      x <- oget (th_lookups h !! k) ;;
      found <- lookup_rest ep (fst x) (snd x) ;;
      finish_packet found ;;
      mreturn (set_lookups (delete k (th_lookups h)) h)
  | Credits n, _ => try <- add_credits ep n ;; mreturn (add_reported n (if try : bool then set_retries (Datatypes.S (th_retries h)) h else h))
  | _, _ => mreturn h
  end.

Lemma set_lookups_same h : set_lookups (th_lookups h) h = h.
Proof. by destruct h. Qed.

Record sys := { target : T; threads : Z -> thread }.

(** Packets are entered for connected endpoints only.  A step that the thread is not at is none; [None] is undefined behaviour. *)
Definition step (l : Z * action) (s : sys) : option sys :=
  let '(ep, a) := l in
  match aget (EndPoint (target s)) ep with
  | None => Some s
  | Some e =>
      if allowed ep a e (threads s ep) then
        match act ep a (threads s ep) (target s) with
        | Some (h, t) => Some {| target := t; threads := <[ep := h]> (threads s) |}
        | None => None
        end
      else Some s
  end.
Fixpoint steps (ls : list (Z * action)) (s : sys) : option sys :=
  match ls with [] => Some s | l :: ls => s ← step l s; steps ls s end.

Definition no_thread : thread := {| th_phase := Idle; th_retries := 0; th_accepted := []; th_reported := 0; th_lost := 0; th_lookups := [] |}.
Definition start (t : T) : sys := {| target := t; threads := fun _ => no_thread |}.

(** ** The invariant *)

Definition held (f : phase) : list HTC_PACKET := match f with Idle => [] | Draining q | Failed q => q end.
(** Credits of packets that are chosen but not issued *)
Definition reserved (f : phase) : Z := match f with Draining q => spent q | _ => 0 end.

Record holds (ep : Z) (e0 e : HTC_ENDPOINT) (h : thread) (evs : list htc_event) : Prop := {
  ho_conf : conf e = conf e0;
  ho_nonneg : 0 <= TxCredits e;
  ho_count : TxProcessCount e = match th_phase h with Idle => 0 | _ => 1 end;
  ho_keys : forall a, keys a (th_accepted h) = keys a (issued ep evs) ++ keys a (held (th_phase h)) ++ keys a (TxQueue e);
  ho_credits : TxCredits e + reserved (th_phase h) + spent (issued ep evs) + th_lost h = TxCredits e0 + th_reported h;
  ho_lost : 0 <= th_lost h;
  ho_used : Forall (fun p => 0 <= CreditsUsed p) (held (th_phase h));
  ho_lookup : Forall (fun p => Endpoint p = ep) (TxLookupQueue e);
  ho_accepted : Forall (fun p => Endpoint p = ep) (th_accepted h);
  ho_right : Forall (charged_right (conf e)) (issued ep evs ++ held (th_phase h));
  ho_looked : Forall (fun x => Forall (fun p => Endpoint p = ep) x.2) (th_lookups h);
  ho_size : th_accepted h = [] \/ 0 < TxCreditSize (conf e)
}.
Lemma holds_ok ep e0 e h evs : holds ep e0 e h evs -> ep_ok e.
Proof.
  intros [C O N K R L U Q A W Z S]. split; [|done]. destruct S as [Ha|]; [left|by right]. destruct (TxQueue e) as [|p q]; [done|].
  specialize (K (is_auto_pm p)). rewrite Ha in K. symmetry in K. apply app_eq_nil in K as [_ K]. apply app_eq_nil in K as [_ K].
  unfold keys, of_class in K. cbn in K. by rewrite Bool.eqb_reflx in K.
Qed.

(** The configuration of endpoints, and endpoints before anything is sent *)
Definition configured (t : T) : Prop := forall ep e, ep_at ep e t -> Id (conf e) = ep /\ (ServiceID (conf e) <> 0 -> 0 < TxCreditSize (conf e)).
Definition fresh (t : T) : Prop :=
  configured t /\ is_nodrop_pkt t = false /\ events t = [] /\
  forall ep e, ep_at ep e t -> 0 <= TxCredits e /\ TxQueue e = [] /\ TxLookupQueue e = [] /\ TxProcessCount e = 0.

(** What the set-up gives: the endpoints are reset, then services are connected. *)
Lemma ResetEndpointStates_fresh t : is_nodrop_pkt t = false -> events t = [] -> (forall ep e, ep_at ep e t -> 0 <= TxCredits e) ->
  runs ResetEndpointStates t (fun _ t' => fresh t').
Proof.
  intros Hn Hv Hc. apply runs_modify.
  assert (H : forall ep e, ep_at ep e (set_EndPoint (imap (fun i e =>
    {| conf := {| Id := Z.of_nat i; ServiceID := 0; full_cb := full_cb (conf e); multi_cb := multi_cb (conf e); resume_cb := resume_cb (conf e);
                  MaxTxQueueDepth := 0; MaxMsgLength := 0; UL_PipeID := UL_PipeID (conf e); ul_is_polled := ul_is_polled (conf e);
                  TxCreditSize := TxCreditSize (conf e); TxCreditsPerMaxMsg := TxCreditsPerMaxMsg (conf e); TxCreditFlowEnabled := true |};
       TxQueue := []; TxLookupQueue := []; EpSeqNo := EpSeqNo e; TxProcessCount := 0; TxCredits := TxCredits e;
       ul_outstanding_cnt := ul_outstanding_cnt e |}) (EndPoint t)) t) ->
    Id (conf e) = ep /\ ServiceID (conf e) = 0 /\ TxQueue e = [] /\ TxLookupQueue e = [] /\ TxProcessCount e = 0 /\ 0 <= TxCredits e).
  { intros ep e He. unfold ep_at, aget in He. case_decide; [|done]. cbn in He. rewrite list_lookup_imap in He.
    destruct (EndPoint t !! Z.to_nat ep) as [e'|] eqn:He'; [|done]. injection He as <-. cbn. rewrite Z2Nat.id by lia. split_and!; try done.
    apply (Hc ep). unfold ep_at, aget. by rewrite decide_True. }
  split; [|split; [done|]; split; [done|]]; intros ep e He; destruct (H ep e He) as (H1 & H2 & H3 & H4 & H5 & H6); [by split|done].
Qed.
Lemma setup_endpoint_fresh req ep maxMsgSize txAlloc size pipe t : fresh t -> 0 <= ep -> ENDPOINT_MAX <= Z.of_nat (length (EndPoint t)) -> 0 < size -> 0 <= txAlloc ->
  runs (setup_endpoint req ep maxMsgSize txAlloc size pipe) t (fun _ t' => fresh t' /\ length (EndPoint t') = length (EndPoint t)).
Proof.
  intros Hf Hep Hlen Hsz Hal. unfold setup_endpoint. destruct ((ENDPOINT_MAX <=? ep) || (maxMsgSize =? 0)) eqn:Hchk; [by mstep|].
  apply orb_false_iff in Hchk as [Hlt%Z.leb_gt _]. destruct (aget_is_Some (EndPoint t) ep ltac:(lia)) as [e He].
  apply runs_bnd. eapply runs_get_ep; [exact He|]. destruct (negb (ServiceID (conf e) =? 0)); [by mstep|]. apply runs_bnd, runs_massert; [by apply Z.ltb_lt|].
  destruct Hf as (Hcf & Hn & Hv & Hq). destruct (Hq ep e He) as (Q1 & Q2 & Q3 & Q4).
  assert (Hput : forall e', TxQueue e' = TxQueue e -> TxLookupQueue e' = TxLookupQueue e -> TxProcessCount e' = TxProcessCount e -> TxCredits e' = txAlloc ->
    Id (conf e') = ep -> TxCreditSize (conf e') = size -> forall t', t' = put_ep ep e' t -> fresh t' /\ length (EndPoint t') = length (EndPoint t)).
  { intros e' E1 E2 E3 E4 E5 E6 t' ->. split; [|apply length_upd].
    assert (Hat : forall ep2 e2, ep_at ep2 e2 (put_ep ep e' t) -> ep2 = ep /\ e2 = e' \/ ep_at ep2 e2 t).
    { intros ep2 e2 H2. destruct (decide (ep = ep2)) as [<-|Hne].
      - left. split; [done|]. pose proof (put_ep_at ep e' t (ep_range _ _ _ He)). unfold ep_at in *. congruence.
      - right. by apply (put_ep_other ep ep2 e' e2 t Hne (ep_range _ _ _ He)). }
    assert (Hor : forall ep2 e2, ep_at ep2 e2 (put_ep ep e' t) -> (Id (conf e2) = ep2 /\ (ServiceID (conf e2) <> 0 -> 0 < TxCreditSize (conf e2))) /\
      0 <= TxCredits e2 /\ TxQueue e2 = [] /\ TxLookupQueue e2 = [] /\ TxProcessCount e2 = 0).
    { intros ep2 e2 H2. destruct (Hat ep2 e2 H2) as [[-> ->]|H3]; [|split; [exact (Hcf ep2 e2 H3)|exact (Hq ep2 e2 H3)]].
      split; [split; [done|lia]|]. split_and!; [lia|congruence..]. }
    split; [intros ep2 e2 H2; apply (Hor ep2 e2 H2)|]. split; [done|]. split; [done|]. intros ep2 e2 H2. apply (Hor ep2 e2 H2). }
  destruct pipe as [[ul polled]|]; mstep; (eapply runs_upd_ep; [exact He|]); mstep; (refine (Hput _ _ _ _ _ _ _ _ eq_refl); done).
Qed.

Record inv (t0 : T) (s : sys) : Prop := {
  inv_length : length (EndPoint (target s)) = length (EndPoint t0);
  inv_nodrop : is_nodrop_pkt (target s) = false;
  inv_ep : forall ep e0 e, ep_at ep e0 t0 -> ep_at ep e (target s) -> holds ep e0 e (threads s ep) (events (target s))
}.

Lemma fresh_inv t : fresh t -> inv t (start t).
Proof.
  intros (_ & Hn & Hv & H). split; [done|done|]. intros ep e0 e He0 He. assert (e0 = e) as -> by (unfold ep_at in *; cbn in *; congruence).
  destruct (H ep e He0) as (Hok & Hq & Hl & Hc). cbn. rewrite Hv. split; cbn; rewrite ?Hq, ?Hl; auto || lia.
Qed.

Lemma set_outstanding_facts n q e : let e' := set_outstanding n (set_TxLookupQueue q e) in
  conf e' = conf e /\ TxQueue e' = TxQueue e /\ TxCredits e' = TxCredits e /\ TxProcessCount e' = TxProcessCount e /\ TxLookupQueue e' = q.
Proof. done. Qed.
Lemma await_facts p e : let e' := await_completion p e in
  TxQueue e' = TxQueue e /\ TxCredits e' = TxCredits e /\ TxProcessCount e' = TxProcessCount e /\
  (TxLookupQueue e' = TxLookupQueue e \/ TxLookupQueue e' = TxLookupQueue e ++ [p]).
Proof. unfold await_completion. destruct (_ =? _); cbn; auto. Qed.

(** What a step on an endpoint does *)
Definition acts (ep : Z) (e0 : HTC_ENDPOINT) (t : T) (h' : thread) (t' : T) : Prop :=
  exists e' v, did ep e' v t t' /\ (forall i, i <> ep -> issued i v = []) /\ holds ep e0 e' h' (events t').
Lemma acts_intro ep e0 t h' t' e' v : did ep e' v t t' -> (forall i, i <> ep -> issued i v = []) -> holds ep e0 e' h' (events t ++ v) -> acts ep e0 t h' t'.
Proof. intros D Hv H. exists e', v. split; [done|]. split; [done|]. by rewrite (did_events _ _ _ _ _ D). Qed.

Section Acts.
Context (ep : Z) (e0 e : HTC_ENDPOINT) (h : thread) (t : T).
Context (Hid : Id (conf e0) = ep) (Hsz : ServiceID (conf e0) <> 0 -> 0 < TxCreditSize (conf e0)) (He : ep_at ep e t) (Hnd : is_nodrop_pkt t = false) (H : holds ep e0 e h (events t)).

Lemma count_range : 0 <= TxProcessCount e <= 1.
Proof. rewrite (ho_count _ _ _ _ _ H). destruct (th_phase h); lia. Qed.

Lemma act_Query : runs (act ep Query h) t (acts ep e0 t).
Proof.
  cbn [act]. apply runs_bnd. eapply runs_mono; [by apply resources_of_spec|]. intros n t' (D & _). mstep.
  eapply acts_intro; [exact D|done|]. by rewrite app_nil_r.
Qed.
Lemma act_Enter q : Forall (fun p => Endpoint p = ep) q -> q = [] \/ ServiceID (conf e) <> 0 -> runs (act ep (Enter q) h) t (acts ep e0 t).
Proof.
  intros Hq Hcon. cbn [act]. apply runs_bnd. eapply runs_mono; [apply enter_spec; [exact He|exact Hnd|exact count_range]|].
  intros b t' (-> & D & _). mstep. eapply acts_intro; [exact D|done|]. rewrite app_nil_r. destruct H as [C O N K R L U Q A W Z S].
  split; cbn; [exact C|exact O| | | |exact L| |exact Q|by apply Forall_app| |exact Z|].
  - rewrite N. destruct (th_phase h) eqn:F; cbn; by rewrite ?F.
  - intros a. rewrite !keys_app, K. rewrite N. destruct (th_phase h) eqn:F; cbn; rewrite ?F; cbn; by rewrite ?app_assoc.
  - rewrite <- R, N. destruct (th_phase h) eqn:F; cbn; by rewrite ?F.
  - rewrite N. destruct (th_phase h) eqn:F; cbn in *; rewrite ?F; done.
  - rewrite N. destruct (th_phase h) eqn:F; cbn in *; rewrite ?F; done.
  - destruct Hcon as [-> |Hcon]; [by rewrite app_nil_r|]. right. rewrite C in *. by apply Hsz.
Qed.

Lemma act_Take n : th_phase h = Draining [] -> runs (act ep (Take n) h) t (acts ep e0 t).
Proof.
  intros F. pose proof (holds_ok _ _ _ _ _ H) as Hok. destruct H as [C O N K R L U Q A W Z S]. cbn [act]. apply runs_bnd. eapply runs_mono; [by apply take_spec|].
  intros q t' (-> & D & _). pose proof (take_chosen e (pm_up t) n Hok) as HT. destruct (taken e (pm_up t) n) as [q e']. cbn [fst snd] in *.
  destruct HT as ([HK HL HC HO HU HW HS] & HN & _). destruct HS as (S1 & S2 & S3 & S4). rewrite F in *. cbn [held reserved] in *.
  mstep. eapply acts_intro; [exact D|done|]. rewrite app_nil_r.
  split; cbn; [congruence|exact HO| | | |exact L| |by rewrite S2|exact A| |exact Z|by rewrite S1].
  - rewrite HN. by destruct q.
  - intros a. rewrite K. cbn. rewrite <- HK. by destruct q.
  - rewrite <- R, <- HC. destruct q; cbn; lia.
  - by destruct q.
  - rewrite S1. rewrite app_nil_r in W. apply Forall_app. split; [exact W|]. by destruct q.
Qed.

Lemma act_PutBack q : th_phase h = Failed q -> runs (act ep PutBack h) t (acts ep e0 t).
Proof.
  intros F. destruct H as [C O N K R L U Q A W Z S]. cbn [act]. rewrite F in *. apply runs_bnd. eapply runs_mono; [by apply put_back_spec|].
  intros [] t' (D & _). mstep. eapply acts_intro; [exact D|done|]. rewrite app_nil_r.
  split; cbn; [exact C|exact O|done| |cbn in R; lia|exact L|constructor|exact Q|exact A|apply Forall_app in W as [W _]; by rewrite app_nil_r|exact Z|exact S].
  intros a. by rewrite keys_app, K.
Qed.

(** Look-ups and completions give nothing to HIF and only move packets that wait for their
    completion. *)
Lemma looked_acts t1 t2 t3 v l : did ep e [] t t1 -> looked ep (fun p => Endpoint p = ep) e t1 t2 ->
  (forall e', ep_at ep e' t2 -> did ep e' v t2 t3) -> (forall i, issued i v = []) ->
  Forall (fun x => Forall (fun p => Endpoint p = ep) x.2) l -> acts ep e0 t (set_lookups l h) t3.
Proof.
  intros D1 (n & q & Hq & D2 & _) D3 Hv Hl. destruct H as [C O N K R L U Q A W Z S].
  pose proof (did_trans _ _ _ _ _ _ _ _ D1 D2) as D. specialize (D3 _ (did_at _ _ _ _ _ _ He D)). pose proof (did_trans _ _ _ _ _ _ _ _ D D3) as D4. cbn [app] in D4.
  eapply acts_intro; [exact D4|by intros|]. split; cbn; rewrite ?issued_app, ?Hv, ?app_nil_r; done.
Qed.

Lemma act_Complete b : runs (act ep (Complete b) h) t (acts ep e0 t).
Proof.
  cbn [act]. apply runs_bnd, runs_modify. set (t1 := set_counts _ _ t).
  assert (D1 : did ep e [] t t1) by (apply did_same; [done..|by rewrite app_nil_r|done|done]).
  apply runs_bnd. eapply runs_mono; [apply (lookup_first_spec ep b e t1 _ He (ho_lookup _ _ _ _ _ H))|]. intros r t2 (HL & Hr). pose proof HL as (n & q & _ & D2 & _).
  pose proof (did_at _ _ _ _ _ _ (He : ep_at ep e t1) D2) as He2. destruct r as [found|lookupQueue].
  - apply runs_bnd. eapply runs_mono; [apply (finish_packet_spec ep found _ t2 He2); by destruct found; intros ? [= <-]|].
    intros [] t3 (v & D3 & Hv & _). mstep. rewrite <- (set_lookups_same h). eapply looked_acts; [exact D1|exact HL| |exact Hv|exact (ho_looked _ _ _ _ _ H)].
    intros e' He'. assert (e' = set_outstanding n (set_TxLookupQueue q e)) as -> by (unfold ep_at in *; congruence). exact D3.
  - mstep. eapply (looked_acts t1 t2 t2 []); [exact D1|exact HL|intros; by apply did_refl|done|]. apply Forall_app. split; [exact (ho_looked _ _ _ _ _ H)|by constructor].
Qed.
Lemma act_Search k : (k < length (th_lookups h))%nat -> runs (act ep (Search k) h) t (acts ep e0 t).
Proof.
  intros Hk. destruct (lookup_lt_is_Some_2 _ _ Hk) as [[b lookupQueue] Hx]. pose proof (ho_looked _ _ _ _ _ H) as Hz. cbn [act]. mstep.
  eapply runs_oget; [exact Hx|]. apply runs_bnd.
  eapply runs_mono; [apply (lookup_rest_spec ep b lookupQueue e t _ He (ho_lookup _ _ _ _ _ H))|].
  { exact (proj1 (Forall_lookup _ _) Hz _ _ Hx). }
  intros found t2 (HL & Hr). pose proof HL as (n & q & _ & D2 & _). pose proof (did_at _ _ _ _ _ _ He D2) as He2.
  apply runs_bnd. eapply runs_mono; [by apply (finish_packet_spec ep found _ t2 He2)|]. intros [] t3 (v & D3 & Hv & _). mstep.
  eapply looked_acts; [by apply did_refl|exact HL| |exact Hv|by apply Forall_delete].
  intros e' He'. assert (e' = set_outstanding n (set_TxLookupQueue q e)) as -> by (unfold ep_at in *; congruence). exact D3.
Qed.

Lemma act_Credits n : 0 <= n -> runs (act ep (Credits n) h) t (acts ep e0 t).
Proof.
  intros Hn. destruct H as [C O N K R L U Q A W Z S]. cbn [act]. apply runs_bnd. eapply runs_mono; [by apply add_credits_spec|].
  intros b t' (_ & D & _). mstep. eapply acts_intro; [exact D|done|]. rewrite app_nil_r.
  destruct b; (split; cbn; [exact C|lia|exact N|exact K|lia|exact L|exact U|exact Q|exact A|exact W|exact Z|exact S]).
Qed.

(** A held packet was accepted, so that it is of this endpoint. *)
Lemma held_endpoint p q : held (th_phase h) = p :: q -> Endpoint p = ep.
Proof.
  intros F. destruct H as [C O N K R L U Q A W Z S]. specialize (K (is_auto_pm p)). rewrite F in K.
  assert (Hin : In (key p) (keys (is_auto_pm p) (th_accepted h))).
  { rewrite K. apply in_or_app. right. apply in_or_app. left. unfold keys, of_class. cbn. rewrite Bool.eqb_reflx. by left. }
  unfold keys, of_class in Hin. apply in_map_iff in Hin as (p' & Hk & [Hin _]%List.filter_In). rewrite List.Forall_forall in A.
  apply A in Hin. unfold key in Hk. congruence.
Qed.

Lemma keys_cons a p q : keys a (p :: q) = keys a [p] ++ keys a q.
Proof. by rewrite <- keys_app. Qed.

Lemma act_Issue p q : th_phase h = Draining (p :: q) -> runs (act ep Issue h) t (acts ep e0 t).
Proof.
  intros F. pose proof (held_endpoint p q) as Hp. rewrite F in Hp. specialize (Hp eq_refl).
  destruct H as [C O N K R L U Q A W Z S]. cbn [act]. rewrite F in *. cbn [held reserved] in *.
  apply runs_bnd. eapply runs_mono; [by apply issue_round_spec|]. intros r t' (_ & _ & Hr). cbv zeta in Hr. set (p' := prepare e p) in *.
  destruct (await_facts p' e) as (F1 & F2 & F3 & F4). assert (Fc := conf_await p' e).
  assert (Hp' : Endpoint p' = ep) by (unfold p', prepare; by destruct (TxCreditFlowEnabled (conf e))).
  assert (Hl : Forall (fun p => Endpoint p = ep) (TxLookupQueue (await_completion p' e))).
  { destruct F4 as [-> | ->]; [done|]. apply Forall_app. split; [done|]. by constructor. }
  assert (Hi : Id (conf e) = ep) by congruence. assert (Hu : CreditsUsed p' = CreditsUsed p) by apply used_prepare.
  assert (Hw : charged_right (conf e) p') by (apply right_prepare; apply Forall_app in W as [_ W]; by apply Forall_cons in W as [? _]).
  assert (Hk : forall a, keys a [p'] = keys a [p]) by (intros; apply keys_prepare). apply Forall_cons in U as [Up U].
  change (spent (p :: q)) with (CreditsUsed p + spent q) in R.
  set (e1 := await_completion p' e) in *. clearbody e1 p'.
  destruct (hd true (hif_accepts t)).
  - destruct Hr as [-> D]. mstep. eapply acts_intro; [exact D|intros i Hne; cbn; rewrite Hi; by destruct (Z.eqb_spec ep i)|].
    assert (Hs : issued ep [sent ep e p' true] = [p']) by (cbn; rewrite Hi; by rewrite Z.eqb_refl).
    split; cbn [th_phase th_accepted th_lost th_reported set_phase held reserved]; rewrite ?Fc, ?issued_app, ?Hs, ?spent_app, ?F1, ?F2, ?F3; [done|done|done| | |exact L|exact U|exact Hl|exact A| |exact Z|exact S].
    + intros a. rewrite K, keys_app, Hk, (keys_cons a p q). by rewrite !app_assoc.
    + change (spent [p']) with (CreditsUsed p' + 0). lia.
    + rewrite <- app_assoc. apply Forall_app in W as [W1 W2]. apply Forall_cons in W2 as [_ W2]. apply Forall_app. split; [exact W1|]. by constructor.
  - destruct Hr as (-> & D & _). mstep. eapply acts_intro; [exact D|done|].
    assert (Hs : issued ep [sent ep e p' false] = []) by done.
    split; cbn [th_phase th_accepted th_lost th_reported set_phase add_lost held reserved tail]; rewrite ?issued_app, ?Hs, ?app_nil_r.
    + cbn. by rewrite Fc.
    + cbn. rewrite F2. lia.
    + cbn. by rewrite F3.
    + intros a. rewrite K. cbn. rewrite F1, (keys_cons a p' q), Hk, (keys_cons a p q). done.
    + cbn. rewrite F2. lia.
    + assert (0 <= spent q); [|lia]. clear -U. induction U; cbn; [lia|]. unfold spent in *. lia.
    + constructor; [lia|done].
    + cbn. apply List.Forall_forall. intros x [Hx _]%List.filter_In. rewrite List.Forall_forall in Hl. by apply Hl.
    + exact A.
    + cbn. rewrite Fc. apply Forall_app in W as [W1 W2]. apply Forall_cons in W2 as [_ W2]. apply Forall_app. split; [exact W1|]. by constructor.
    + exact Z.
    + cbn. by rewrite Fc.
Qed.

Lemma act_holds a : allowed ep a e h = true -> runs (act ep a h) t (acts ep e0 t).
Proof.
  intros Ha. destruct a as [|q|n| | |b|k|n]; unfold allowed in Ha.
  - apply act_Query.
  - destruct q as [|p0 q0]; [apply act_Enter; [constructor|by left]|]. apply andb_true_iff in Ha as [Ha Hs].
    apply act_Enter; [|right; by apply negb_true_iff, Z.eqb_neq in Hs].
    apply List.Forall_forall. intros p Hp. rewrite List.forallb_forall in Ha. apply Z.eqb_eq, (Ha p Hp).
  - apply act_Take. by destruct (th_phase h) as [|[|]|].
  - destruct (th_phase h) as [|[|p q]|] eqn:F; try done. by eapply act_Issue.
  - destruct (th_phase h) as [| |q] eqn:F; try done. by eapply act_PutBack.
  - apply act_Complete.
  - apply act_Search. by apply Nat.ltb_lt.
  - apply act_Credits. destruct (th_phase h); lia.
Qed.
End Acts.

Lemma step_inv t0 l s : configured t0 -> inv t0 s -> exists s', step l s = Some s' /\ inv t0 s'.
Proof.
  intros Hid I. destruct l as [ep a]. unfold step. destruct (aget (EndPoint (target s)) ep) as [e|] eqn:He; [|by exists s].
  destruct (allowed ep a e (threads s ep)) eqn:Ha; [|by exists s]. destruct I as [Hlen Hnd Hep].
  pose proof (aget_Some_range _ _ _ He) as Hr. rewrite Hlen in Hr. destruct (aget_is_Some (EndPoint t0) ep Hr) as [e0 He0].
  destruct (Hid ep e0 He0) as [Hid0 Hsz0].
  pose proof (act_holds ep e0 e (threads s ep) (target s) Hid0 Hsz0 He Hnd (Hep ep e0 e He0 He) a Ha) as H.
  destruct (runs_elim _ _ _ H) as (h' & t' & -> & e' & v & D & Hv & H'). eexists. split; [done|].
  split; cbn [target threads]; [by rewrite (did_eps _ _ _ _ _ D), length_upd|by rewrite (did_nodrop _ _ _ _ _ D)|].
  intros ep2 e02 e2 He02 He2. destruct (decide (ep2 = ep)) as [->|Hne].
  - pose proof (did_at _ _ _ _ _ _ He D) as He'. unfold ep_at in *. rewrite fn_lookup_insert.
    assert (e02 = e0) as -> by congruence. assert (e2 = e') as -> by congruence. done.
  - rewrite fn_lookup_insert_ne by done. apply (did_other _ _ _ _ _ _ _ _ He (not_eq_sym Hne) D) in He2.
    destruct (Hep ep2 e02 e2 He02 He2) as [C O N K R L U Q A W Z S]. split; rewrite ?(did_events _ _ _ _ _ D), ?issued_app, ?(Hv ep2 Hne), ?app_nil_r; done.
Qed.

Lemma steps_inv t0 ls s : configured t0 -> inv t0 s -> exists s', steps ls s = Some s' /\ inv t0 s'.
Proof.
  intros Hid. revert s. induction ls as [|l ls IH]; intros s I; cbn [steps]; [by exists s|].
  destruct (step_inv t0 l s Hid I) as (s1 & -> & I1). cbn. by apply IH.
Qed.

(** ** No lost wake-ups

    Power management is up and HIF takes what it is given, now and later. *)
Definition up (t : T) : Prop := Forall (fun b => b = true) (pm_up t) /\ Forall (fun b => b = true) (hif_accepts t).

(** Functions that use up answers at most *)
Definition keeps {A} (m : M T A) : Prop := forall t, up t -> match m t with Some (_, t') => up t' | None => True end.

Lemma keeps_ret {A} (a : A) : keeps (mreturn a).
Proof. by intros t Ht. Qed.
Lemma keeps_bnd {A B} (m : M T A) (k : A -> M T B) : keeps m -> (forall a, keeps (k a)) -> keeps (mbnd m k).
Proof. intros Hm Hk t Ht. unfold mbnd. specialize (Hm t Ht). destruct (m t) as [[a t']|]; [by apply Hk|done]. Qed.
Lemma keeps_miter {B L} fuel (body : L -> M T (L + B)) l : (forall l, keeps (body l)) -> keeps (miter fuel body l).
Proof.
  intros Hb. revert l. induction fuel as [|fuel IH]; intros l; [by intros t Ht|]. cbn. apply keeps_bnd; [apply Hb|].
  intros [l'|b]; [apply IH|by intros t Ht].
Qed.
Lemma keeps_modify f : (forall t, up t -> up (f t)) -> keeps (modify f).
Proof. intros Hf t Ht. by apply Hf. Qed.
Lemma keeps_oget {A} (o : option A) : keeps (oget o).
Proof. intros t Ht. unfold oget. by destruct o. Qed.
Lemma keeps_massert b : keeps (massert b).
Proof. intros t Ht. unfold massert. by destruct b. Qed.
Lemma keeps_mget : keeps mget.
Proof. by intros t Ht. Qed.

Lemma keeps_get_ep ep : keeps (get_ep ep).
Proof. apply keeps_bnd; [apply keeps_mget|]. intros t. apply keeps_oget. Qed.
Lemma keeps_upd_ep ep f : keeps (upd_ep ep f).
Proof.
  apply keeps_bnd; [apply keeps_get_ep|]. intros e. apply keeps_bnd; [apply keeps_mget|]. intros t. apply keeps_bnd; [apply keeps_oget|].
  intros eps. by apply keeps_modify.
Qed.
Lemma keeps_pm_get : keeps hif_pm_runtime_get.
Proof. intros t [Hp Hh]. cbn. split; [|done]. cbn. destruct (pm_up t); [done|]. by apply Forall_cons in Hp as [_ ?]. Qed.
Lemma keeps_pm_put : keeps hif_pm_runtime_put.
Proof. by apply keeps_modify. Qed.
Create HintDb keeps.
#[export] Hint Resolve keeps_ret keeps_get_ep keeps_upd_ep keeps_pm_get keeps_pm_put keeps_oget keeps_massert keeps_mget : keeps.

(** Through the function, case by case *)
Ltac keep := cbv zeta; repeat first
  [ solve [auto with keeps]
  | lazymatch goal with
    | |- keeps (mbnd _ _) => apply keeps_bnd; [|intro]
    | |- keeps (miter _ _ _) => apply keeps_miter; intro
    | |- keeps (match ?x with _ => _ end) => destruct x
    end ].

Lemma keeps_take_packets ep n : keeps (take_packets ep n).
Proof.
  unfold take_packets, GetHTCSendPacketsCreditBased, GetHTCSendPackets, GetHTCAutoPmSendPackets, source, set_source, RequeueHTCAutoPmSendPackets. keep.
  - unfold credit_round, pm_get_unless, pm_put_unless. keep.
  - unfold resource_round, pm_get_unless, pm_put_unless. keep.
Qed.

(** Whatever can be sent will be looked at: a thread drains, or one is about to try; and no
    credits are lost. *)
Definition awake (e : HTC_ENDPOINT) (h : thread) : Prop :=
  th_lost h = 0 /\ match th_phase h with
  | Idle => TxCreditFlowEnabled (conf e) = true -> th_retries h = 0%nat -> blocked e
  | Draining _ => True
  | Failed _ => False
  end.
Definition wakes (ep : Z) (t : T) (h' : thread) (t' : T) : Prop := up t' /\ exists e' v, did ep e' v t t' /\ awake e' h'.
Lemma up_same t t' : up t -> hif_accepts t' = hif_accepts t -> pm_up t' = pm_up t -> up t'.
Proof. unfold up. by intros [? ?] -> ->. Qed.

Section Wakes.
Context (ep : Z) (e0 e : HTC_ENDPOINT) (h : thread) (t : T).
Context (He : ep_at ep e t) (Hnd : is_nodrop_pkt t = false) (H : holds ep e0 e h (events t)) (Hup : up t) (Hw : awake e h).

Lemma wake_Query : runs (act ep Query h) t (wakes ep t).
Proof.
  cbn [act]. apply runs_bnd. eapply runs_mono; [by apply resources_of_spec|]. intros n t' (D & A & P). mstep.
  split; [by apply (up_same _ _ Hup)|]. by exists e, [].
Qed.
Lemma wake_Enter q : runs (act ep (Enter q) h) t (wakes ep t).
Proof.
  cbn [act]. apply runs_bnd. eapply runs_mono; [apply enter_spec; [exact He|exact Hnd|exact (count_range ep e0 e h t H)]|].
  intros b t' (-> & D & A). mstep. split; [apply (up_same _ _ Hup); apply A|]. eexists _, _. split; [exact D|].
  destruct Hw as [Hl Hw']. split; [exact Hl|].
  rewrite (ho_count _ _ _ _ _ H). cbn. by destruct (th_phase h) eqn:F; cbn; rewrite ?F.
Qed.
Lemma wake_Take n : runs (act ep (Take n) h) t (wakes ep t).
Proof.
  pose proof (holds_ok _ _ _ _ _ H) as O. cbn [act]. apply runs_bnd.
  pose proof (take_spec ep e t n He O) as HS. pose proof (keeps_take_packets ep n t Hup) as Hk.
  destruct (runs_elim _ _ _ HS) as (q & t' & Heq & -> & D & _). rewrite Heq in Hk. eapply runs_intro; [exact Heq|].
  mstep. split; [exact Hk|]. eexists _, _. split; [exact D|].
  pose proof (take_chosen e (pm_up t) n O) as HT. destruct (taken e (pm_up t) n) as [q e']. destruct HT as (HC & _ & HB). cbn [fst snd].
  split; [by destruct Hw|]. destruct q as [|p q]; [|done]. cbn. intros Hf _. apply HB; [done| |by destruct Hup]. by rewrite <- (proj1 (ch_same _ _ _ HC)).
Qed.
Lemma wake_Issue q : th_phase h = Draining q -> q <> [] -> runs (act ep Issue h) t (wakes ep t).
Proof.
  intros F Hq. cbn [act]. rewrite F. destruct q as [|p q]; [done|]. apply runs_bnd. eapply runs_mono; [by apply issue_round_spec|].
  intros r t' (A & P & Hr). cbv zeta in Hr. destruct Hup as [U1 U2].
  assert (Hhd : hd true (hif_accepts t) = true) by (destruct (hif_accepts t); [done|by apply Forall_cons in U2 as [-> _]]). rewrite Hhd in Hr.
  destruct Hr as [-> D]. mstep. split; [|eexists _, _; split; [exact D|]; by destruct Hw].
  split; [by rewrite P|]. rewrite A. destruct (hif_accepts t); [done|]. by apply Forall_cons in U2 as [_ ?].
Qed.
Lemma looked_wakes t1 t2 t3 v l P : did ep e [] t t1 -> hif_accepts t1 = hif_accepts t -> pm_up t1 = pm_up t -> looked ep P e t1 t2 ->
  (forall e', ep_at ep e' t2 -> did ep e' v t2 t3) -> hif_accepts t3 = hif_accepts t2 -> pm_up t3 = pm_up t2 -> wakes ep t (set_lookups l h) t3.
Proof.
  intros D1 A1 P1 (n & q & Hq & D2 & A2) D3 A3 P3. pose proof (did_trans _ _ _ _ _ _ _ _ D1 D2) as D. specialize (D3 _ (did_at _ _ _ _ _ _ He D)).
  pose proof (did_trans _ _ _ _ _ _ _ _ D D3) as D4. unfold same_answers in A2. split; [apply (up_same t t3); [done|intuition congruence..]|].
  eexists _, _. split; [exact D4|]. exact Hw.
Qed.
Lemma wake_Complete b : runs (act ep (Complete b) h) t (wakes ep t).
Proof.
  cbn [act]. apply runs_bnd, runs_modify. set (t1 := set_counts _ _ t).
  assert (D1 : did ep e [] t t1) by (apply did_same; [done..|by rewrite app_nil_r|done|done]).
  apply runs_bnd. eapply runs_mono; [apply (lookup_first_spec ep b e t1 _ He (ho_lookup _ _ _ _ _ H))|]. intros r t2 (HL & Hr). pose proof HL as (n & q & _ & D2 & _).
  pose proof (did_at _ _ _ _ _ _ (He : ep_at ep e t1) D2) as He2. destruct r as [found|lookupQueue].
  - apply runs_bnd. eapply runs_mono; [apply (finish_packet_spec ep found _ t2 He2); by destruct found; intros ? [= <-]|].
    intros [] t3 (v & D3 & Hv & A3 & P3). mstep. rewrite <- (set_lookups_same h). eapply looked_wakes; [exact D1|done|done|exact HL| |exact A3|exact P3].
    intros e' He'. assert (e' = set_outstanding n (set_TxLookupQueue q e)) as -> by (unfold ep_at in *; congruence). exact D3.
  - mstep. eapply (looked_wakes t1 t2 t2 []); [exact D1|done|done|exact HL|intros; by apply did_refl|done|done].
Qed.
Lemma wake_Search k : (k < length (th_lookups h))%nat -> runs (act ep (Search k) h) t (wakes ep t).
Proof.
  intros Hk. destruct (lookup_lt_is_Some_2 _ _ Hk) as [[b lookupQueue] Hx]. pose proof (ho_looked _ _ _ _ _ H) as Hz. cbn [act]. mstep.
  eapply runs_oget; [exact Hx|]. apply runs_bnd.
  eapply runs_mono; [apply (lookup_rest_spec ep b lookupQueue e t _ He (ho_lookup _ _ _ _ _ H))|].
  { exact (proj1 (Forall_lookup _ _) Hz _ _ Hx). }
  intros found t2 (HL & Hr). pose proof HL as (n & q & _ & D2 & _). pose proof (did_at _ _ _ _ _ _ He D2) as He2.
  apply runs_bnd. eapply runs_mono; [by apply (finish_packet_spec ep found _ t2 He2)|]. intros [] t3 (v & D3 & Hv & A3 & P3). mstep.
  eapply looked_wakes; [by apply did_refl|done|done|exact HL| |exact A3|exact P3].
  intros e' He'. assert (e' = set_outstanding n (set_TxLookupQueue q e)) as -> by (unfold ep_at in *; congruence). exact D3.
Qed.
Lemma wake_Credits n : 0 <= n -> runs (act ep (Credits n) h) t (wakes ep t).
Proof.
  intros Hn. cbn [act]. apply runs_bnd. eapply runs_mono; [by apply add_credits_spec|].
  intros b t' (-> & D & A). mstep. split; [apply (up_same _ _ Hup); apply A|]. eexists _, _. split; [exact D|].
  destruct Hw as [Hl Hw']. split; [by destruct (_ && _)|]. cbn. destruct (negb (TxCredits e + n =? 0) && negb (length (TxQueue e) =? 0)%nat) eqn:Htry; cbn; destruct (th_phase h); try done.
  intros Hf Hr. specialize (Hw' Hf Hr). unfold blocked in *. cbn. pose proof (ho_nonneg _ _ _ _ _ H) as Hc.
  destruct (TxQueue e) as [|p q]; [done|]. apply andb_false_iff in Htry as [Hz|Hz]; [|done]. apply negb_false_iff, Z.eqb_eq in Hz. lia.
Qed.

Lemma act_wakes a : allowed ep a e h = true -> runs (act ep a h) t (wakes ep t).
Proof.
  intros Ha. destruct a as [|q|n| | |b|k|n]; unfold allowed in Ha.
  - apply wake_Query.
  - apply wake_Enter.
  - apply wake_Take.
  - destruct (th_phase h) as [|[|p q]|] eqn:F; try done. by eapply wake_Issue.
  - destruct Hw as [_ Hw']. by destruct (th_phase h).
  - apply wake_Complete.
  - apply wake_Search. by apply Nat.ltb_lt.
  - apply wake_Credits. destruct (th_phase h); lia.
Qed.
End Wakes.

Definition all_awake (s : sys) : Prop := up (target s) /\ forall ep e, ep_at ep e (target s) -> awake e (threads s ep).

Lemma fresh_awake t : fresh t -> up t -> all_awake (start t).
Proof. intros (_ & _ & _ & H) Hu. split; [done|]. intros ep e He. destruct (H ep e He) as (_ & Hq & _). cbn. split; [done|]. unfold blocked. cbn. by rewrite Hq. Qed.

Lemma step_awake t0 l s s' : inv t0 s -> all_awake s -> step l s = Some s' -> all_awake s'.
Proof.
  intros I [Hu Hw] Hs. destruct l as [ep a]. unfold step in Hs. destruct (aget (EndPoint (target s)) ep) as [e|] eqn:He; [|by injection Hs as <-].
  destruct (allowed ep a e (threads s ep)) eqn:Ha; [|by injection Hs as <-].
  pose proof (aget_Some_range _ _ _ He) as Hr. rewrite (inv_length _ _ I) in Hr. destruct (aget_is_Some (EndPoint t0) ep Hr) as [e0 He0].
  pose proof (act_wakes ep e0 e (threads s ep) (target s) He (inv_nodrop _ _ I) (inv_ep _ _ I ep e0 e He0 He) Hu (Hw ep e He) a Ha) as H.
  destruct (runs_elim _ _ _ H) as (h' & t' & Heq & Hu' & e' & v & D & Hw'). rewrite Heq in Hs. injection Hs as <-.
  split; [done|]. intros ep2 e2 He2. cbn [target threads] in *. destruct (decide (ep2 = ep)) as [->|Hne].
  - pose proof (did_at _ _ _ _ _ _ He D) as He'. unfold ep_at in *. rewrite fn_lookup_insert. by assert (e2 = e') as -> by congruence.
  - rewrite fn_lookup_insert_ne by done. apply (did_other _ _ _ _ _ _ _ _ He (not_eq_sym Hne) D) in He2. by apply Hw.
Qed.
Lemma steps_awake t0 ls s s' : configured t0 -> inv t0 s -> all_awake s -> steps ls s = Some s' -> all_awake s'.
Proof.
  intros Hid. revert s. induction ls as [|l ls IH]; intros s I W Hs; cbn [steps] in Hs; [by injection Hs as <-|].
  destruct (step_inv t0 l s Hid I) as (s1 & H1 & I1). rewrite H1 in Hs. eapply (IH s1); [done| |exact Hs]. exact (step_awake t0 l s s1 I W H1).
Qed.
