(* ===== verification/HtcRun.v ===== *)
(** * Host-target communication: functions as sequences of steps

    [HTCTrySend], completions and the parsing of trailers, run without interruption, are
    sequences of the steps of [HtcSys], so that what holds after any sequence holds after
    them.  This is also how it is shown that they end and that no access is out of bounds. *)

From stdpp Require Import functions.
From S2P Require Import Prelude HtcSend HtcInv HtcSys.

Local Open Scope c_scope.

#[local] Abbreviation T := HTC_TARGET.

(** ** Refinement

    [m] from the target of [s] runs, and does what steps from [s] do. *)
Definition refines {A} (s : sys) (m : M T A) (Q : A -> sys -> Prop) : Prop :=
  runs m (target s) (fun a t' => exists ls s', steps ls s = Some s' /\ target s' = t' /\ Q a s').

Lemma steps_app ls ls' s : steps (ls ++ ls') s = (s1 ← steps ls s; steps ls' s1).
Proof. revert s. induction ls as [|l ls IH]; intros s; cbn; [done|]. destruct (step l s); cbn; auto. Qed.

Section Refines.
Context {A B L : Type}.
Lemma refines_mono (s : sys) (m : M T A) (Q Q' : A -> sys -> Prop) : refines s m Q -> (forall a s', Q a s' -> Q' a s') -> refines s m Q'.
Proof. intros H HQ. eapply runs_mono; [exact H|]. intros a t' (ls & s' & Hs & Ht & Ha). exists ls, s'. auto. Qed.
Lemma refines_bnd (s : sys) (m : M T A) (k : A -> M T B) Q : refines s m (fun a s' => refines s' (k a) Q) -> refines s (mbnd m k) Q.
Proof.
  intros H. unfold refines. apply runs_bnd. eapply runs_mono; [exact H|]. intros a t' (ls & s' & Hs & <- & Ha).
  eapply runs_mono; [exact Ha|]. intros b t'' (ls' & s'' & Hs' & Ht & Hb). exists (ls ++ ls'), s''. split; [|done]. by rewrite steps_app, Hs.
Qed.
Lemma refines_same (s : sys) (m : M T A) (Q : A -> sys -> Prop) : runs m (target s) (fun a t' => t' = target s /\ Q a s) -> refines s m Q.
Proof. intros H. eapply runs_mono; [exact H|]. intros a t' [-> Ha]. by exists [], s. Qed.
Lemma refines_ret (s : sys) (a : A) (Q : A -> sys -> Prop) : Q a s -> refines s (mreturn a) Q.
Proof. intros H. by apply refines_same. Qed.
Lemma refines_oget (s : sys) (o : option A) a (Q : A -> sys -> Prop) : o = Some a -> Q a s -> refines s (oget o) Q.
Proof. intros -> H. by apply refines_same. Qed.

Lemma refines_inv t0 s (m : M T A) Q : configured t0 -> inv t0 s -> refines s m Q -> refines s m (fun a s' => inv t0 s' /\ Q a s').
Proof.
  intros Hid I H. eapply runs_mono; [exact H|]. intros a t' (ls & s' & Hs & Ht & Ha). exists ls, s'. split; [done|]. split; [done|]. split; [|done].
  destruct (steps_inv t0 ls s Hid I) as (s1 & H1 & I1). congruence.
Qed.

(** One step, which runs [m] *)
Lemma refines_step (s : sys) (m : M T A) ep a e (f : A -> thread) (Q : A -> sys -> Prop) :
  ep_at ep e (target s) -> allowed ep a e (threads s ep) = true ->
  (forall t, act ep a (threads s ep) t = (x <- m ;; mreturn (f x)) t) ->
  runs m (target s) (fun x t' => Q x {| target := t'; threads := <[ep := f x]> (threads s) |}) -> refines s m Q.
Proof.
  intros He Ha Hact H. unfold refines. destruct (runs_elim _ _ _ H) as (x & t' & Heq & HQ). eapply runs_intro; [exact Heq|].
  exists [(ep, a)], {| target := t'; threads := <[ep := f x]> (threads s) |}. split; [|done]. cbn [steps]. unfold step.
  unfold ep_at in He. rewrite He, Ha, Hact. unfold mbnd. by rewrite Heq.
Qed.
End Refines.

Lemma refines_miter {B L} (I : L -> sys -> Prop) (mu : L -> sys -> nat) (Q : B -> sys -> Prop) (body : L -> M T (L + B)) fuel l s :
  (forall l s, I l s -> refines s (body l) (fun r s' => match r with inl l' => I l' s' /\ (mu l' s' < mu l s)%nat | inr b => Q b s' end)) ->
  I l s -> (mu l s < fuel)%nat -> refines s (miter fuel body l) Q.
Proof.
  intros Hb. revert l s. induction fuel as [|fuel IH]; intros l s HI Hf; [lia|]. cbn [miter]. apply refines_bnd.
  eapply refines_mono; [by apply Hb|]. intros [l'|b] s' H; [|by apply refines_ret]. destruct H as [HI' Hlt]. apply IH; [done|lia].
Qed.

(** ** Draining *)

(** From [s] to [s'] the thread of [ep] has become [h'], but for credits lost, and the threads of
    the other endpoints have stayed. *)
Definition becomes (ep : Z) (h' : thread) (s s' : sys) : Prop := exists n, forall i, threads s' i = <[ep := add_lost n h']> (threads s) i.
Definition queued (ep : Z) (s : sys) : nat := match aget (EndPoint (target s)) ep with Some e => length (TxQueue e) | None => 0%nat end.

Lemma becomes_at ep h' s s' : becomes ep h' s s' -> exists n, threads s' ep = add_lost n h'.
Proof. intros [n H]. exists n. by rewrite H, fn_lookup_insert. Qed.
Lemma becomes_phase ep h' s s' : becomes ep h' s s' -> th_phase (threads s' ep) = th_phase h'.
Proof. intros H. by destruct (becomes_at _ _ _ _ H) as [n ->]. Qed.
Lemma add_lost_0 h : add_lost 0 h = h.
Proof. destruct h. unfold add_lost. cbn. f_equal. lia. Qed.
Lemma becomes_refl ep s : becomes ep (threads s ep) s s.
Proof. exists 0. intros i. rewrite add_lost_0. destruct (decide (i = ep)) as [->|Hne]; [by rewrite fn_lookup_insert|by rewrite fn_lookup_insert_ne]. Qed.
Lemma becomes_insert ep n h' s t : becomes ep h' s {| target := t; threads := <[ep := add_lost n h']> (threads s) |}.
Proof. by exists n. Qed.
Lemma becomes_insert0 ep h' s t : becomes ep h' s {| target := t; threads := <[ep := h']> (threads s) |}.
Proof. exists 0. intros i. by rewrite add_lost_0. Qed.
Lemma becomes_trans F ep h1 s s1 s2 : (forall n h, F (add_lost n h) = add_lost n (F h)) ->
  becomes ep h1 s s1 -> becomes ep (F (threads s1 ep)) s1 s2 -> becomes ep (F h1) s s2.
Proof.
  intros HF H1 [n2 H2]. destruct (becomes_at _ _ _ _ H1) as [n1' Hat]. destruct H1 as [n1 H1].
  assert (Hn : add_lost n1' h1 = add_lost n1 h1) by (rewrite <- Hat, H1; apply fn_lookup_insert). rewrite Hat, Hn, HF in H2.
  exists (n1 + n2). intros i. rewrite H2. destruct (decide (i = ep)) as [->|Hne].
  - rewrite !fn_lookup_insert. unfold add_lost. cbn. f_equal. lia.
  - rewrite !fn_lookup_insert_ne by done. rewrite H1. by rewrite fn_lookup_insert_ne.
Qed.
Lemma becomes_phase_trans ep f h1 s s1 s2 : becomes ep h1 s s1 -> becomes ep (set_phase f (threads s1 ep)) s1 s2 -> becomes ep (set_phase f h1) s s2.
Proof. by apply (becomes_trans (set_phase f)). Qed.

Lemma becomes_same ep f s : th_phase (threads s ep) = f -> becomes ep (set_phase f (threads s ep)) s s.
Proof. intros <-. replace (set_phase _ _) with (threads s ep) by (by destruct (threads s ep)). apply becomes_refl. Qed.
Lemma becomes_with_phase ep f s s' : th_phase (threads s ep) = f -> becomes ep (threads s ep) s s' -> becomes ep (set_phase f (threads s ep)) s s'.
Proof. intros <-. by replace (set_phase (th_phase (threads s ep)) (threads s ep)) with (threads s ep) by (by destruct (threads s ep)). Qed.

Section Run.
Context (t0 : T) (Hid : configured t0).
Context (ep : Z) (Hep : 0 <= ep < Z.of_nat (length (EndPoint t0))).

Lemma ep_of s : inv t0 s -> exists e0 e, ep_at ep e0 t0 /\ ep_at ep e (target s) /\ holds ep e0 e (threads s ep) (events (target s)).
Proof.
  intros I. destruct (aget_is_Some (EndPoint t0) ep Hep) as [e0 He0]. pose proof Hep as Hr. rewrite <- (inv_length _ _ I) in Hr.
  destruct (aget_is_Some (EndPoint (target s)) ep Hr) as [e He]. exists e0, e. split; [done|]. split; [done|]. by apply (inv_ep _ _ I).
Qed.
Lemma take_refines n s : inv t0 s -> th_phase (threads s ep) = Draining [] ->
  refines s (take_packets ep n) (fun q s' => inv t0 s' /\
    becomes ep (set_phase (match q with [] => Idle | _ => Draining q end) (threads s ep)) s s' /\ (length q + queued ep s' = queued ep s)%nat).
Proof.
  intros I F. destruct (ep_of s I) as (e0 & e & He0 & He & H). eapply refines_inv; [done|done|].
  apply refines_step with (ep := ep) (e := e) (a := Take n) (f := fun q => set_phase (match q with [] => Idle | _ => Draining q end) (threads s ep));
    [exact He|by unfold allowed; rewrite F|intros t; cbn [act]; by rewrite ?F|].
  eapply runs_mono; [apply take_spec; [exact He|exact (holds_ok _ _ _ _ _ H)]|]. intros q t' (-> & D & _). split; [apply becomes_insert0|].
  pose proof (take_chosen e (pm_up (target s)) n (holds_ok _ _ _ _ _ H)) as HT. destruct (taken e (pm_up (target s)) n) as [q e']. destruct HT as (HC & _). cbn [fst snd] in *.
  pose proof (did_at _ _ _ _ _ _ He D) as He'. unfold queued. cbn [target]. unfold ep_at in *. rewrite He, He'. apply HC.
Qed.

Lemma issue_refines q s : inv t0 s -> th_phase (threads s ep) = Draining q ->
  refines s (issue_round ep q) (fun r s' => inv t0 s' /\ queued ep s' = queued ep s /\
    match r with
    | inl rest => becomes ep (set_phase (Draining rest) (threads s ep)) s s' /\ (length rest < length q)%nat
    | inr (true, rest) => rest = [] /\ becomes ep (set_phase (Draining []) (threads s ep)) s s'
    | inr (false, rest) => becomes ep (set_phase (Failed rest) (threads s ep)) s s'
    end).
Proof.
  intros I F. destruct (ep_of s I) as (e0 & e & He0 & He & H). eapply refines_inv; [done|done|]. destruct q as [|p q].
  { apply refines_same. cbn [issue_round]. mstep. split; [done|]. split; [done|]. split; [done|].
    by apply becomes_same. }
  apply refines_step with (ep := ep) (e := e) (a := Issue)
    (f := fun r => match r with inl rest => set_phase (Draining rest) (threads s ep) | inr (_, rest) => set_phase (Failed rest) (add_lost (spent (tail rest)) (threads s ep)) end);
    [exact He|by unfold allowed; rewrite F|intros t; cbn [act]; by rewrite ?F|].
  eapply runs_mono; [by apply issue_round_spec|]. intros r t' (_ & _ & Hr). cbv zeta in Hr. set (p' := prepare e p) in *.
  destruct (await_facts p' e) as (F1 & _). unfold queued. cbn [target]. destruct (hd true (hif_accepts (target s))).
  - destruct Hr as [-> D]. pose proof (did_at _ _ _ _ _ _ He D) as He'. unfold ep_at in *. rewrite He, He', F1. split; [done|].
    split; [apply becomes_insert0|cbn; lia].
  - destruct Hr as (-> & D & _). pose proof (did_at _ _ _ _ _ _ He D) as He'. unfold ep_at in *. rewrite He, He'. split; [f_equal; exact F1|].
    exact (becomes_insert ep (spent q) (set_phase (Failed (p' :: q)) (threads s ep)) s t').
Qed.

Lemma put_back_refines q s : inv t0 s -> th_phase (threads s ep) = Failed q ->
  refines s (put_back ep q) (fun _ s' => inv t0 s' /\ becomes ep (set_phase Idle (threads s ep)) s s').
Proof.
  intros I F. destruct (ep_of s I) as (e0 & e & He0 & He & H). eapply refines_inv; [done|done|].
  apply refines_step with (ep := ep) (e := e) (a := PutBack) (f := fun _ => set_phase Idle (threads s ep));
    [exact He|by unfold allowed; rewrite F|intros t; cbn [act]; by rewrite ?F|].
  eapply runs_mono; [by apply put_back_spec|]. intros [] t' _. apply becomes_insert0.
Qed.
Lemma query_refines s : inv t0 s -> refines s (resources_of ep) (fun _ s' => inv t0 s' /\ becomes ep (threads s ep) s s' /\ queued ep s' = queued ep s).
Proof.
  intros I. destruct (ep_of s I) as (e0 & e & He0 & He & H). eapply refines_inv; [done|done|].
  apply refines_step with (ep := ep) (e := e) (a := Query) (f := fun _ => threads s ep); [exact He|done|done|].
  eapply runs_mono; [by apply resources_of_spec|]. intros n t' (D & _). split; [apply becomes_insert0|].
  unfold queued. cbn [target]. pose proof (did_at _ _ _ _ _ _ He D) as He'. unfold ep_at in *. by rewrite He, He'.
Qed.

Lemma HTCIssuePackets_refines q s : inv t0 s -> th_phase (threads s ep) = Draining q ->
  refines s (HTCIssuePackets ep q) (fun r s' => inv t0 s' /\ queued ep s' = queued ep s /\
    becomes ep (set_phase (if fst r then Draining [] else Failed (snd r)) (threads s ep)) s s').
Proof.
  intros I F. unfold HTCIssuePackets.
  eapply (refines_miter (fun q' s' => inv t0 s' /\ queued ep s' = queued ep s /\ becomes ep (set_phase (Draining q') (threads s ep)) s s') (fun q' _ => length q')); [| |lia].
  - clear q F. intros q s1 (I1 & Q1 & B1). eapply refines_mono; [apply issue_refines; [done|by rewrite (becomes_phase _ _ _ _ B1)]|].
    intros r s2 (I2 & Q2 & Hr). destruct r as [rest|[[] rest]].
    + destruct Hr as [B2 Hlt]. split; [|done]. split; [done|]. split; [congruence|]. exact (becomes_phase_trans _ _ _ _ _ _ B1 B2).
    + destruct Hr as [-> B2]. split; [done|]. split; [congruence|]. exact (becomes_phase_trans _ _ _ _ _ _ B1 B2).
    + split; [done|]. split; [congruence|]. exact (becomes_phase_trans _ _ _ _ _ _ B1 Hr).
  - split; [done|]. split; [done|]. by apply becomes_same.
Qed.

Lemma drain_refines n s : inv t0 s -> th_phase (threads s ep) = Draining [] ->
  refines s (drain ep n) (fun _ s' => inv t0 s' /\ becomes ep (set_phase Idle (threads s ep)) s s').
Proof.
  intros I F. destruct (ep_of s I) as (e0 & e & He0 & He & H). unfold drain. apply refines_bnd. apply refines_same. eapply runs_get_ep; [exact He|]. split; [done|].
  eapply (refines_miter (fun _ s' => inv t0 s' /\ becomes ep (set_phase (Draining []) (threads s ep)) s s') (fun _ s' => queued ep s')).
  - clear n. intros n s1 (I1 & B1). unfold drain_round. apply refines_bnd. eapply refines_mono; [apply take_refines; [done|by rewrite (becomes_phase _ _ _ _ B1)]|].
    intros q s2 (I2 & B2 & Q2). pose proof (becomes_phase_trans _ _ _ _ _ _ B1 B2) as B12. destruct q as [|p q]; [by apply refines_ret|].
    apply refines_bnd. eapply refines_mono; [apply HTCIssuePackets_refines; [done|by rewrite (becomes_phase _ _ _ _ B2)]|].
    intros [[] rest] s3 (I3 & Q3 & B3); cbn [fst snd] in *; pose proof (becomes_phase_trans _ _ _ _ _ _ B12 B3) as B13; apply refines_bnd.
    + eapply refines_mono; [by apply query_refines|]. intros m s4 (I4 & B4 & Q4). apply refines_ret. split; [|cbn in Q2; lia]. split; [done|].
      exact (becomes_phase_trans _ _ _ _ _ _ B13 (becomes_with_phase _ _ _ _ (becomes_phase _ _ _ _ B3) B4)).
    + eapply refines_mono; [apply put_back_refines; [done|by rewrite (becomes_phase _ _ _ _ B3)]|]. intros [] s4 (I4 & B4). apply refines_ret. split; [done|].
      exact (becomes_phase_trans _ _ _ _ _ _ B13 B4).
  - split; [done|]. by apply becomes_same.
  - unfold queued, ep_at in *. rewrite He. lia.
Qed.

(** ** Trying to send *)

Definition entered (q : list HTC_PACKET) (h : thread) : thread :=
  set_retries (match q with [] => Nat.pred (th_retries h) | _ => th_retries h end) (add_accepted q h).

(** Packets for this endpoint, which is connected then *)
Definition for_ep (q : list HTC_PACKET) : Prop := q = [] \/ Forall (fun p => Endpoint p = ep) q /\ forall e0, ep_at ep e0 t0 -> ServiceID (conf e0) <> 0.

Lemma enter_refines q s : inv t0 s -> for_ep q ->
  refines s (enter ep q) (fun first s' => inv t0 s' /\ first = match th_phase (threads s ep) with Idle => true | _ => false end /\
    becomes ep (set_phase (if first : bool then Draining [] else th_phase (threads s ep)) (entered q (threads s ep))) s s').
Proof.
  intros I Hq. destruct (ep_of s I) as (e0 & e & He0 & He & H). eapply refines_inv; [done|done|].
  apply refines_step with (ep := ep) (e := e) (a := Enter q) (f := fun first : bool => set_phase (if first then Draining [] else th_phase (threads s ep)) (entered q (threads s ep)));
    [exact He| |done|].
  { unfold allowed. destruct Hq as [-> |[Hq Hs]]; [done|]. destruct q as [|p0 q0]; [done|]. apply andb_true_iff.
    split; [|rewrite (ho_conf _ _ _ _ _ H); by apply negb_true_iff, Z.eqb_neq, Hs]. apply List.forallb_forall. intros p Hp. rewrite List.Forall_forall in Hq. by apply Z.eqb_eq, Hq. }
  eapply runs_mono; [apply enter_spec; [exact He|exact (inv_nodrop _ _ I)|exact (count_range ep e0 e _ _ H)]|]. intros b t' (-> & D & _). split; [|apply becomes_insert0].
  rewrite (ho_count _ _ _ _ _ H). by destruct (th_phase (threads s ep)).
Qed.

(** What follows the check of the caller's queue *)
Lemma try_refines q s : inv t0 s -> for_ep q ->
  refines s (tx_resources <- resources_of ep ;; first <- enter ep q ;; (if first : bool then drain ep tx_resources else mreturn tt))
    (fun _ s' => inv t0 s' /\ becomes ep (entered q (threads s ep)) s s').
Proof.
  intros I Hq. apply refines_bnd. eapply refines_mono; [by apply query_refines|]. intros n s1 (I1 & B1 & _). apply refines_bnd.
  eapply refines_mono; [by apply enter_refines|]. intros first s2 (I2 & Hf & B2).
  assert (Hph : th_phase (threads s1 ep) = th_phase (threads s ep)) by exact (becomes_phase _ _ _ _ B1).
  assert (B12 : becomes ep (set_phase (if first then Draining [] else th_phase (threads s ep)) (entered q (threads s ep))) s s2).
  { rewrite Hph in B2. refine (becomes_trans (fun h => set_phase _ (entered q h)) ep _ s s1 s2 _ B1 B2). done. }
  rewrite Hph in Hf. destruct first; symmetry in Hf.
  - assert (Hf' : th_phase (threads s ep) = Idle) by (by destruct (th_phase (threads s ep))). eapply refines_mono; [apply drain_refines; [done|exact (becomes_phase _ _ _ _ B12)]|]. intros [] s3 (I3 & B3).
    split; [done|]. pose proof (becomes_phase_trans _ _ _ _ _ _ B12 B3) as B. destruct B as [m B]. exists m. intros i. rewrite B. f_equal.
    unfold entered, set_phase, add_lost. cbn. by rewrite Hf'.
  - apply refines_ret. split; [done|]. destruct B12 as [m B]. exists m. intros i. rewrite B. done.
Qed.

(** Enough room in the queue, or nobody to ask *)
Definition admits (e : HTC_ENDPOINT) (q : list HTC_PACKET) : Prop :=
  q <> [] /\ (full_cb (conf e) = false \/ HTC_PACKET_QUEUE_DEPTH (TxQueue e) + HTC_PACKET_QUEUE_DEPTH q <= MaxTxQueueDepth (conf e)).

Lemma HTCTrySend_refines full callers s : inv t0 s ->
  match callers with None => True | Some q => for_ep q /\ forall e, ep_at ep e (target s) -> admits e q end ->
  refines s (HTCTrySend full ep callers) (fun r s' => r = [] /\ inv t0 s' /\
    becomes ep (entered (default [] callers) (threads s ep)) s s').
Proof.
  intros I Hc. destruct (ep_of s I) as (e0 & e & He0 & He & H).
  assert (Hmain : forall q, for_ep q ->
    refines s (tx_resources <- resources_of ep ;; first <- enter ep q ;; (if first : bool then drain ep tx_resources else mreturn tt) ;; mreturn (A := list HTC_PACKET) [])
      (fun r s' => r = [] /\ inv t0 s' /\ becomes ep (entered q (threads s ep)) s s')).
  { intros q Hq. pose proof (try_refines q s I Hq) as Ht. eapply runs_bnd_inv in Ht. unfold refines. apply runs_bnd. eapply runs_mono; [exact Ht|].
    intros n t1 Ht1. apply runs_bnd_inv in Ht1. apply runs_bnd. eapply runs_mono; [exact Ht1|]. intros first t2 Ht2. apply runs_bnd. eapply runs_mono; [exact Ht2|].
    intros [] t3 (ls & s3 & Hs & Ht3 & I3 & B3). mstep. by exists ls, s3. }
  unfold HTCTrySend. destruct callers as [q|]; cbn [default].
  - destruct Hc as [Hq Hadm]. destruct (Hadm e He) as [Hne Hroom]. apply refines_bnd. apply refines_same. unfold fit. apply runs_bnd. eapply runs_get_ep; [exact He|].
    destruct q as [|p q]; [done|]. set (n := HTC_PACKET_QUEUE_DEPTH (p :: q)) in *. set (d := HTC_PACKET_QUEUE_DEPTH (TxQueue e)) in *.
    assert (0 < n) by (unfold n, HTC_PACKET_QUEUE_DEPTH; cbn; lia).
    assert (Hgo : ((if MaxTxQueueDepth (conf e) <=? d then n else d + n - MaxTxQueueDepth (conf e)) <=? 0) || negb (full_cb (conf e)) = true).
    { destruct Hroom as [-> | Hr]; [apply orb_true_r|]. apply orb_true_iff. left. destruct (Z.leb_spec (MaxTxQueueDepth (conf e)) d); lia. }
    cbv zeta. rewrite Hgo. mstep. split; [done|]. by apply Hmain.
  - apply refines_bnd, refines_ret. cbn [fst snd]. apply Hmain. by left.
Qed.
End Run.

(** ** Completions *)

Section Received.
Context (t0 : T) (Hid : configured t0).
Context (full : Z -> HTC_PACKET -> bool).

(** A completion up to the search without the lock, and from there on *)
Definition complete_first (b ep : Z) : M T (option (list HTC_PACKET)) :=
  count_completion ;;
  r <- lookup_first ep b ;;
  match r with
  | inl found => finish_packet found ;; mreturn None
  | inr lookupQueue => mreturn (Some lookupQueue)
  end.
Definition complete_rest (b ep : Z) (x : option (list HTC_PACKET)) : M T unit :=
  match x with
  | None => mreturn tt
  | Some lookupQueue => found <- lookup_rest ep b lookupQueue ;; finish_packet found
  end.
Lemma complete_halves b ep t : (count_completion ;; complete_packet b ep) t = (x <- complete_first b ep ;; complete_rest b ep x) t.
Proof.
  unfold complete_packet, complete_first, HTCLookupTxPacket, mbnd. destruct (count_completion t) as [[[] t1]|]; [|done].
  destruct (lookup_first ep b t1) as [[[found|q] t2]|]; [| |done]; cbn [mreturn]; [|done]. unfold mreturn. by destruct (finish_packet found t2) as [[[] t3]|].
Qed.

Lemma complete_refines ep b s : 0 <= ep < Z.of_nat (length (EndPoint t0)) -> inv t0 s ->
  refines s (count_completion ;; complete_packet b ep) (fun _ s' => inv t0 s' /\ becomes ep (threads s ep) s s').
Proof.
  intros Hep I. destruct (ep_of t0 ep Hep s I) as (e0 & e & He0 & He & H). unfold refines, runs. rewrite complete_halves.
  set (h := threads s ep). set (after := fun x : option (list HTC_PACKET) => match x with None => h | Some q => set_lookups (th_lookups h ++ [(b, q)]) h end).
  enough (Hr : refines s (x <- complete_first b ep ;; complete_rest b ep x) (fun _ s' => inv t0 s' /\ becomes ep h s s')) by exact Hr.
  apply refines_bnd. apply (refines_mono _ _ (fun x s1 => inv t0 s1 /\ threads s1 = <[ep := after x]> (threads s))).
  - apply refines_inv; [done|done|]. apply refines_step with (ep := ep) (e := e) (a := Complete b) (f := after); [exact He|done| |].
    + intros t. unfold act, complete_first, mbnd. destruct (count_completion t) as [[[] t1]|]; [|done]. destruct (lookup_first ep b t1) as [[[found|q] t2]|]; [|done..].
      unfold mreturn. by destruct (finish_packet found t2) as [[[] t3]|].
    + destruct (runs_elim _ _ _ (act_holds ep e0 e h (target s) (proj1 (Hid ep e0 He0)) (proj2 (Hid ep e0 He0)) He (inv_nodrop _ _ I) H (Complete b) eq_refl)) as (h' & t' & Hact & _).
      unfold act in Hact. unfold complete_first, runs, mbnd in *. destruct (count_completion (target s)) as [[[] t1]|]; [|done].
      destruct (lookup_first ep b t1) as [[[found|q] t2]|]; [| |done]; [|done]. unfold mreturn in *. by destruct (finish_packet found t2) as [[[] t3]|].
  - intros x s1 [I1 Hth]. destruct x as [q|]; cbn [complete_rest].
    2: { apply refines_ret. split; [done|]. exists 0. intros i. by rewrite Hth, add_lost_0. }
    destruct (ep_of t0 ep Hep s1 I1) as (e0' & e1 & He0' & He1 & H1). assert (Hat : threads s1 ep = set_lookups (th_lookups h ++ [(b, q)]) h) by (rewrite Hth; apply fn_lookup_insert).
    assert (Hk : (th_lookups h ++ [(b, q)]) !! length (th_lookups h) = Some (b, q)) by (by apply list_lookup_middle).
    assert (Hdel : delete (length (th_lookups h)) (th_lookups h ++ [(b, q)]) = th_lookups h) by (rewrite delete_middle; apply app_nil_r).
    assert (Hact : forall t, act ep (Search (length (th_lookups h))) (threads s1 ep) t = (x <- (found <- lookup_rest ep b q ;; finish_packet found) ;; mreturn h) t).
    { intros t. unfold act. rewrite Hat. cbn [th_lookups set_lookups]. rewrite Hk. unfold mbnd. change (oget (Some (b, q)) t) with (Some (b, q, t)). cbv beta iota. cbn [fst snd]. destruct (lookup_rest ep b q t) as [[found t2]|]; [|done].
      destruct (finish_packet found t2) as [[[] t3]|]; [|done]. unfold mreturn. rewrite Hdel. do 2 f_equal. exact (set_lookups_same h). }
    assert (Hal : allowed ep (Search (length (th_lookups h))) e1 (threads s1 ep) = true) by (unfold allowed; rewrite Hat; cbn; rewrite length_app; apply Nat.ltb_lt; cbn; lia).
    apply refines_inv; [done|done|]. apply refines_step with (ep := ep) (e := e1) (a := Search (length (th_lookups h))) (f := fun _ => h); [exact He1|exact Hal|exact Hact|].
    destruct (runs_elim _ _ _ (act_holds ep e0' e1 (threads s1 ep) (target s1) (proj1 (Hid ep e0' He0')) (proj2 (Hid ep e0' He0')) He1 (inv_nodrop _ _ I1) H1 _ Hal)) as (h' & t' & Heq & _).
    rewrite Hact in Heq. unfold runs. unfold mbnd at 1 in Heq. destruct ((found <- lookup_rest ep b q ;; finish_packet found) (target s1)) as [[[] t3]|]; [|done].
    exists 0. intros i. cbn. rewrite add_lost_0, Hth. destruct (decide (i = ep)) as [->|Hne]; [by rewrite !fn_lookup_insert|by rewrite !fn_lookup_insert_ne].
Qed.

Lemma HTCTxCompletionHandler_refines ep b s : 0 <= ep < Z.of_nat (length (EndPoint t0)) -> inv t0 s ->
  refines s (HTCTxCompletionHandler full b ep) (fun _ s' => inv t0 s' /\ exists k, becomes ep (set_retries k (add_accepted [] (threads s ep))) s s').
Proof.
  intros Hep I. unfold HTCTxCompletionHandler. pose proof (complete_refines ep b s Hep I) as Hc.
  unfold refines. apply runs_bnd. apply runs_bnd_inv in Hc. eapply runs_mono; [exact Hc|]. intros [] t1 Hc1. apply runs_bnd. eapply runs_mono; [exact Hc1|].
  intros [] t2 (ls & s2 & Hs & <- & I2 & B2).
  assert (Hrest : refines s2 (e <- get_ep ep ;; if TxCreditFlowEnabled (conf e) then mreturn tt else _ <- HTCTrySend full ep None ;; mreturn tt)
    (fun _ s' => inv t0 s' /\ exists k, becomes ep (set_retries k (add_accepted [] (threads s ep))) s s')).
  { destruct (ep_of t0 ep Hep s2 I2) as (e0 & e & _ & He & _). apply refines_bnd, refines_same. eapply runs_get_ep; [exact He|]. split; [done|].
    destruct (TxCreditFlowEnabled (conf e)).
    - apply refines_ret. split; [done|]. exists (th_retries (threads s ep)). destruct B2 as [n B2]. exists n. intros i. rewrite B2.
      f_equal. unfold add_lost. cbn. by rewrite app_nil_r.
    - apply refines_bnd. eapply refines_mono; [by apply (HTCTrySend_refines t0)|]. intros r s3 (_ & I3 & B3). apply refines_ret. split; [done|].
      exists (Nat.pred (th_retries (threads s ep))). exact (becomes_trans (entered []) ep _ s s2 s3 (fun _ _ => eq_refl) B2 B3). }
  eapply runs_mono; [exact Hrest|]. intros [] t3 (ls' & s3 & Hs3 & Ht & HQ). exists (ls ++ ls'), s3. split; [|done]. by rewrite steps_app, Hs.
Qed.

(** ** Credits *)

Definition rpt_total (i : Z) (rs : list (Z * Z)) : Z := foldr (fun r n => (if fst r =? i then snd r else 0) + n) 0 rs.
(** The threads after reports of credits *)
Definition reported (rs : list (Z * Z)) (s s' : sys) : Prop := forall i, exists n, threads s' i = add_lost n (add_reported (rpt_total i rs) (threads s i)).

Lemma reported_refl s : reported [] s s.
Proof. intros i. exists 0. rewrite add_lost_0. destruct (threads s i). unfold add_reported. cbn. f_equal. lia. Qed.
Lemma rpt_total_app i rs rs' : rpt_total i (rs ++ rs') = rpt_total i rs + rpt_total i rs'.
Proof. unfold rpt_total. induction rs as [|r rs IH]; cbn; lia. Qed.
Lemma reported_trans rs rs' s s1 s2 : reported rs s s1 -> reported rs' s1 s2 -> reported (rs ++ rs') s s2.
Proof.
  intros H1 H2 i. destruct (H1 i) as [n1 E1], (H2 i) as [n2 E2]. exists (n1 + n2). rewrite E2, E1, rpt_total_app.
  unfold add_lost, add_reported. cbn. f_equal; lia.
Qed.

Lemma MS_nonneg w lsb mask : 0 <= mask -> 0 <= MS w lsb mask.
Proof. intros Hm. unfold MS. apply Z.shiftr_nonneg, Z.land_nonneg. by right. Qed.

(** Endpoints that do not exist end a report. *)
Fixpoint entries (ws : list Z) : list (Z * Z) :=
  match ws with
  | [] => []
  | w :: ws => if ENDPOINT_MAX <=? MS w 0 0xff then [] else (MS w 0 0xff, MS w 8 0xff00) :: entries ws
  end.

Lemma report_refines ep n s : 0 <= ep < Z.of_nat (length (EndPoint t0)) -> 0 <= n -> inv t0 s ->
  refines s (try <- add_credits ep n ;; if try : bool then _ <- HTCTrySend full ep None ;; mreturn tt else mreturn tt)
    (fun _ s' => inv t0 s' /\ reported [(ep, n)] s s').
Proof.
  intros Hep Hn I. destruct (ep_of t0 ep Hep s I) as (e0 & e & _ & He & _). apply refines_bnd.
  set (f := fun try : bool => add_reported n (if try then set_retries (Datatypes.S (th_retries (threads s ep))) (threads s ep) else threads s ep)).
  assert (Hadd : refines s (add_credits ep n) (fun try s' => inv t0 s' /\ becomes ep (f try) s s')).
  { eapply refines_inv; [done|done|]. apply refines_step with (ep := ep) (e := e) (a := Credits n) (f := f); [exact He| |done|].
    - unfold allowed. destruct (th_phase (threads s ep)); by apply Z.leb_le.
    - eapply runs_mono; [by apply add_credits_spec|]. intros b t' _. apply becomes_insert0. }
  assert (Hrep : forall s', becomes ep (add_reported n (threads s ep)) s s' -> reported [(ep, n)] s s').
  { intros s' [m B] i. cbn. destruct (Z.eqb_spec ep i) as [<-|Hne].
    - exists m. rewrite B, fn_lookup_insert. by rewrite Z.add_0_r.
    - exists 0. rewrite B, fn_lookup_insert_ne by done. rewrite add_lost_0. destruct (threads s i). unfold add_reported. cbn. f_equal. lia. }
  eapply refines_mono; [exact Hadd|]. intros try s1 (I1 & B1). destruct try.
  - apply refines_bnd. eapply refines_mono; [by apply (HTCTrySend_refines t0)|]. intros r s2 (_ & I2 & B2). apply refines_ret. split; [done|]. apply Hrep.
    pose proof (becomes_trans (entered []) ep _ s s1 s2 (fun _ _ => eq_refl) B1 B2) as [m B]. exists m. intros i. rewrite B. f_equal.
    unfold entered, f, set_retries, add_accepted, add_lost. cbn. by rewrite app_nil_r.
  - apply refines_ret. split; [done|]. by apply Hrep.
Qed.

Lemma HTCProcessCreditRpt_refines ws s : ENDPOINT_MAX <= Z.of_nat (length (EndPoint t0)) -> inv t0 s ->
  refines s (HTCProcessCreditRpt full ws) (fun _ s' => inv t0 s' /\ reported (entries ws) s s').
Proof.
  intros Hlen. revert s. induction ws as [|w ws IH]; intros s I; cbn [HTCProcessCreditRpt entries].
  { apply refines_ret. split; [done|apply reported_refl]. }
  cbv zeta. pose proof (MS_nonneg w 0 0xff ltac:(lia)). pose proof (MS_nonneg w 8 0xff00 ltac:(lia)).
  destruct (Z.leb_spec ENDPOINT_MAX (MS w 0 0xff)); [apply refines_ret; split; [done|apply reported_refl]|].
  pose proof (report_refines (MS w 0 0xff) (MS w 8 0xff00) s ltac:(lia) ltac:(lia) I) as Hr. unfold refines in *.
  apply runs_bnd_inv in Hr. apply runs_bnd. eapply runs_mono; [exact Hr|]. intros try t1 Ht1. apply runs_bnd. eapply runs_mono; [exact Ht1|].
  intros [] t2 (ls & s2 & Hs & <- & I2 & R2). eapply runs_mono; [by apply IH|]. intros [] t3 (ls' & s3 & Hs3 & Ht & I3 & R3).
  exists (ls ++ ls'), s3. split; [by rewrite steps_app, Hs|]. split; [done|]. split; [done|]. exact (reported_trans _ _ _ _ _ R2 R3).
Qed.
End Received.

(** ** Trailers *)

(** The credits of a record, and of the records of a trailer with the status: a reading of the
    bytes from the front, where the function goes by positions and words *)
Fixpoint credit_entries (bytes : list Z) : list (Z * Z) :=
  match bytes with
  | b0 :: b1 :: _ :: _ :: rest => if ENDPOINT_MAX <=? b0 then [] else (b0, b1) :: credit_entries rest
  | _ => []
  end.
Fixpoint parse_records (fuel : nat) (bytes : list Z) : list (Z * Z) * Z :=
  match fuel, bytes with
  | _, [] => ([], A_OK)
  | Datatypes.S fuel, id :: len :: _ :: _ :: rest =>
      if Z.of_nat (length rest) <? len then ([], A_EPROTO)
      else
        let '(rs, status) := parse_records fuel (drop (Z.to_nat len) rest) in
        ((if id =? HTC_RECORD_CREDITS then credit_entries (take (Z.to_nat len) rest) else []) ++ rs, status)
  | _, _ => ([], A_EPROTO)
  end.
Definition parse_trailer (bytes : list Z) : list (Z * Z) * Z := parse_records (length bytes) bytes.

Definition is_byte (b : Z) : Prop := 0 <= b < 256.

Lemma MS_word0 b0 b1 b2 b3 : is_byte b0 -> MS (b0 + b1 * 2 ^ 8 + b2 * 2 ^ 16 + b3 * 2 ^ 24) 0 0xff = b0.
Proof.
  intros Hb. unfold MS, is_byte in *. rewrite Z.shiftr_0_r. change 0xff with (2 ^ 8 - 1). rewrite land_mask by lia. rewrite <- (Z.mod_small b0 (2 ^ 8)) at 2 by lia.
  replace (b0 + b1 * 2 ^ 8 + b2 * 2 ^ 16 + b3 * 2 ^ 24) with (b0 + (b1 + b2 * 2 ^ 8 + b3 * 2 ^ 16) * 2 ^ 8) by lia. by rewrite Z.mod_add by lia.
Qed.
Lemma MS_word1 b0 b1 b2 b3 : is_byte b0 -> is_byte b1 -> MS (b0 + b1 * 2 ^ 8 + b2 * 2 ^ 16 + b3 * 2 ^ 24) 8 0xff00 = b1.
Proof.
  intros H0 H1. unfold MS, is_byte in *. rewrite Z.shiftr_land. change (Z.shiftr 0xff00 8) with (2 ^ 8 - 1). rewrite land_mask by lia. rewrite Z.shiftr_div_pow2 by lia.
  replace (b0 + b1 * 2 ^ 8 + b2 * 2 ^ 16 + b3 * 2 ^ 24) with (b0 + (b1 + (b2 + b3 * 2 ^ 8) * 2 ^ 8) * 2 ^ 8) by lia.
  rewrite Z.div_add, (Z.div_small b0) by lia. rewrite Z.add_0_l, Z.mod_add, Z.mod_small; lia.
Qed.

Section Words.
Context (buf : list Z).

Lemma get_word_drop at_ b0 b1 b2 b3 rest : 0 <= at_ -> drop (Z.to_nat at_) buf = b0 :: b1 :: b2 :: b3 :: rest ->
  get_word buf at_ = Some (b0 + b1 * 2 ^ 8 + b2 * 2 ^ 16 + b3 * 2 ^ 24) /\ drop (Z.to_nat (at_ + 4)) buf = rest.
Proof.
  intros Ha Hd. assert (Hg : forall k : nat, aget buf (at_ + Z.of_nat k) = (b0 :: b1 :: b2 :: b3 :: rest) !! k).
  { intros k. rewrite <- Hd, lookup_drop, aget_lookup by lia. f_equal. lia. }
  pose proof (Hg 0%nat) as G0. rewrite Z.add_0_r in G0. unfold get_word. rewrite G0, (Hg 1%nat : aget buf (at_ + 1) = _), (Hg 2%nat : aget buf (at_ + 2) = _), (Hg 3%nat : aget buf (at_ + 3) = _). split; [done|].
  replace (Z.to_nat (at_ + 4)) with (Z.to_nat at_ + 4)%nat by lia. by rewrite <- drop_drop, Hd.
Qed.

Lemma get_words_entries (n : nat) m at_ bs : 0 <= at_ -> drop (Z.to_nat at_) buf = bs -> Forall is_byte bs ->
  (4 * n <= m < 4 * n + 4)%nat -> (m <= length bs)%nat -> exists ws, get_words buf at_ n = Some ws /\ entries ws = credit_entries (take m bs).
Proof.
  revert m at_ bs. induction n as [|n IH]; intros m at_ bs Ha Hd Hb Hm Hl.
  { exists []. split; [done|]. destruct m as [|[|[|[|m]]]]; [..|lia]; by destruct bs as [|? [|? [|? ?]]]. }
  destruct m as [|[|[|[|m]]]]; try lia. destruct bs as [|b0 [|b1 [|b2 [|b3 rest]]]]; cbn in Hl; try lia.
  destruct (get_word_drop _ _ _ _ _ _ Ha Hd) as [Hw Hd']. apply Forall_cons in Hb as [H0 Hb]. apply Forall_cons in Hb as [H1 Hb].
  apply Forall_cons in Hb as [_ Hb]. apply Forall_cons in Hb as [_ Hb].
  destruct (IH m (at_ + 4) rest ltac:(lia) Hd' Hb ltac:(lia) ltac:(lia)) as (ws & Hws & He).
  exists ((b0 + b1 * 2 ^ 8 + b2 * 2 ^ 16 + b3 * 2 ^ 24) :: ws). split; [cbn [get_words]; rewrite Hw; cbn; by rewrite Hws|].
  cbn [entries take credit_entries]. rewrite MS_word0, MS_word1, He by done. done.
Qed.
End Words.

Section Trailer.
Context (t0 : T) (Hid : configured t0) (Hlen : ENDPOINT_MAX <= Z.of_nat (length (EndPoint t0))).
Context (full : Z -> HTC_PACKET -> bool) (buf : list Z) (Hbuf : Forall is_byte buf).

Lemma trailer_loop fuel n at_ s : 0 <= at_ <= Z.of_nat (length buf) -> inv t0 s -> (length (drop (Z.to_nat at_) buf) <= n)%nat -> (n < fuel)%nat ->
  let parsed := parse_records n (drop (Z.to_nat at_) buf) in
  refines s (miter fuel (trailer_round full buf) (at_, Z.of_nat (length buf) - at_)) (fun r s' => r = snd parsed /\ inv t0 s' /\ reported (fst parsed) s s').
Proof.
  revert n at_ s. induction fuel as [|fuel IH]; intros n at_ s Ha I Hn Hf; [lia|].
  assert (Hlenbs : Z.of_nat (length buf) - at_ = Z.of_nat (length (drop (Z.to_nat at_) buf))) by (rewrite length_drop; lia).
  assert (Hbytes : Forall is_byte (drop (Z.to_nat at_) buf)) by (by apply Forall_drop).
  cbn [miter]. rewrite Hlenbs. remember (drop (Z.to_nat at_) buf) as bs eqn:Hbs. symmetry in Hbs.
  destruct bs as [|b0 bs]. { destruct n; (apply refines_bnd, refines_ret, refines_ret; split; [done|]; split; [done|apply reported_refl]). }
  destruct n as [|n]; [cbn in Hn; lia|]. destruct bs as [|b1 [|b2 [|b3 rest]]].
  1-3: (apply refines_bnd, refines_ret, refines_ret; split; [done|]; split; [done|apply reported_refl]).
  destruct (get_word_drop _ _ _ _ _ _ _ (proj1 Ha) Hbs) as [Hw Hd]. apply Forall_cons in Hbytes as [H0 Hb]. apply Forall_cons in Hb as [H1 Hb].
  apply Forall_cons in Hb as [_ Hb]. apply Forall_cons in Hb as [_ Hb]. cbn [length] in *.
  apply refines_bnd. cbn [trailer_round parse_records]. set (L := Z.of_nat (Datatypes.S (Datatypes.S (Datatypes.S (Datatypes.S (length rest)))))).
  destruct (Z.ltb_spec 0 L); [|lia]. destruct (Z.ltb_spec L 4); [lia|]. cbn [negb]. apply refines_bnd. eapply refines_oget; [exact Hw|]. cbv zeta.
  rewrite MS_word0, MS_word1 by done. replace (L - 4) with (Z.of_nat (length rest)) by lia.
  destruct (Z.ltb_spec (Z.of_nat (length rest)) b1) as [Hlt|Hge]. { apply refines_ret, refines_ret. split; [done|]. split; [done|apply reported_refl]. }
  unfold is_byte in H1. assert (Hd2 : drop (Z.to_nat (at_ + 4 + b1)) buf = drop (Z.to_nat b1) rest).
  { rewrite <- Hd, drop_drop. f_equal. lia. }
  pose proof (fun s' I' => IH n (at_ + 4 + b1) s' ltac:(lia) I' ltac:(rewrite Hd2, length_drop; lia) ltac:(lia)) as Hi. rewrite Hd2 in Hi.
  replace (Z.of_nat (length buf) - (at_ + 4 + b1)) with (Z.of_nat (length rest) - b1) in Hi by lia.
  destruct (parse_records n (drop (Z.to_nat b1) rest)) as [rs status].
  apply refines_bnd. eapply refines_mono with (Q := fun _ s' => inv t0 s' /\ reported (if b0 =? HTC_RECORD_CREDITS then credit_entries (take (Z.to_nat b1) rest) else []) s s').
  - destruct (b0 =? HTC_RECORD_CREDITS); [|apply refines_ret; split; [done|apply reported_refl]].
    destruct (get_words_entries buf (Z.to_nat (b1 / 4)) (Z.to_nat b1) (at_ + 4) rest ltac:(lia) Hd Hb) as (ws & Hws & He).
    { pose proof (Z.div_mod b1 4 ltac:(lia)). pose proof (Z.mod_pos_bound b1 4 ltac:(lia)). lia. }
    { lia. }
    apply refines_bnd. eapply refines_oget; [exact Hws|]. rewrite <- He. by apply HTCProcessCreditRpt_refines.
  - intros [] s1 (I1 & R1). apply refines_ret. eapply refines_mono; [by apply Hi|]. intros r s2 (-> & I2 & R2). split; [done|]. split; [done|].
    exact (reported_trans _ _ _ _ _ R1 R2).
Qed.

Lemma HTCProcessTrailer_refines s : inv t0 s ->
  refines s (HTCProcessTrailer full buf) (fun r s' => r = snd (parse_trailer buf) /\ inv t0 s' /\ reported (fst (parse_trailer buf)) s s').
Proof.
  intros I. pose proof (trailer_loop (Datatypes.S (length buf)) (length buf) 0 s ltac:(lia) I ltac:(done) ltac:(lia)) as H.
  unfold HTCProcessTrailer, parse_trailer. change (drop (Z.to_nat 0) buf) with buf in H. rewrite Z.sub_0_r in H.
  exact H.
Qed.
End Trailer.
