(* ===== verification/HtcProps.v ===== *)
(** * Host-target communication: the properties *)

From stdpp Require Import functions.
From S2P Require Import Prelude HtcSend HtcInv HtcSys HtcRun.

Local Open Scope c_scope.

#[local] Abbreviation T := HTC_TARGET.
#[local] Arguments keys : simpl never.

(** ** A target of the witnesses: WMI on endpoint 1 with credits, data on endpoint 2 without *)

Definition ex_conf (i service size : Z) (flow : bool) (depth : Z) (full : bool) : endpoint_conf :=
  {| Id := i; ServiceID := service; full_cb := full; multi_cb := true; resume_cb := false; MaxTxQueueDepth := depth; MaxMsgLength := 256; UL_PipeID := i;
     ul_is_polled := false; TxCreditSize := size; TxCreditsPerMaxMsg := 2; TxCreditFlowEnabled := flow |}.
Definition ex_ep (c : endpoint_conf) (q : list HTC_PACKET) (credits : Z) : HTC_ENDPOINT :=
  {| conf := c; TxQueue := q; TxLookupQueue := []; EpSeqNo := 0; TxProcessCount := 0; TxCredits := credits; ul_outstanding_cnt := 0 |}.
Definition ex_eps (credits : Z) : list HTC_ENDPOINT :=
  [ex_ep (ex_conf 0 1 128 false 10 false) [] 0; ex_ep (ex_conf 1 WMI_CONTROL_SVC 128 true 10 false) [] credits; ex_ep (ex_conf 2 HTT_DATA_MSG_SVC 128 false 2 true) [] 0]
  ++ map (fun i => ex_ep (ex_conf i 0 0 true 0 false) [] 0) (seqZ 3 6).
Definition ex_target (credits : Z) (accepts : list bool) : T :=
  {| EndPoint := ex_eps credits; is_nodrop_pkt := false; stopping := false; CE_send_cnt := 0; TX_comp_cnt := 0; hif_accepts := accepts; hif_free := []; pm_up := [];
     pm_usage := 0; events := [] |}.
Definition ex_pkt (i ep len tag : Z) : HTC_PACKET :=
  {| ActualLength := len; Endpoint := ep; Status := 0; Tag := tag; CreditsUsed := 0; SendFlags := 0; SeqNo := i; Fixup := false;
     netbuf := {| nb_id := i; nb_pushed := 8; nb_maps := 0; nb_word0 := 0; nb_word1 := 0; nb_frags := 1 |} |}.

Lemma ep_at_Forall (P : Z -> HTC_ENDPOINT -> Prop) (t : T) : (forall i e, EndPoint t !! i = Some e -> P (Z.of_nat i) e) -> forall ep e, ep_at ep e t -> P ep e.
Proof. intros H ep e He. unfold ep_at, aget in He. case_decide; [|done]. specialize (H _ _ He). by rewrite Z2Nat.id in H by lia. Qed.
Lemma ex_fresh credits accepts : 0 <= credits -> fresh (ex_target credits accepts).
Proof.
  intros Hc. split; [|split; [done|]; split; [done|]]; (refine (ep_at_Forall _ _ _); intros i e Hi; do 9 (destruct i as [|i]; [injection Hi as <-; cbn; split_and!; done || lia|]); done).
Qed.
Lemma ex_up credits : up (ex_target credits []).
Proof. by split. Qed.

(** ** The price of a packet

    With the header, in units of the credits, rounded up; endpoint 0 is free of charge. *)

Definition price (c : endpoint_conf) (p : HTC_PACKET) : Z :=
  if Id c =? 0 then 0 else Z.max 1 ((u32 (ActualLength p + HTC_HDR_LENGTH) + TxCreditSize c - 1) / TxCreditSize c).
Definition prices (c : endpoint_conf) (q : list HTC_PACKET) : Z := foldr (fun p n => price c p + n) 0 q.

Lemma cost_price c p : 0 < TxCreditSize c -> cost c p = price c p.
Proof.
  intros Hs. unfold cost, price, need, creditsRequired. destruct (Id c =? 0); [done|]. set (n := u32 _). set (z := TxCreditSize c) in *.
  assert (0 <= n) by (unfold n, u32; apply Z.mod_pos_bound; lia). destruct (Z.leb_spec n z).
  - assert ((n + z - 1) / z <= 1); [|lia]. apply Z.lt_succ_r, Z.div_lt_upper_bound; lia.
  - pose proof (Z.div_mod n z ltac:(lia)) as Hd. pose proof (Z.mod_pos_bound n z Hs).
    assert (1 <= n / z) by (apply Z.div_le_lower_bound; lia). destruct (Z.eqb_spec (n mod z) 0).
    + rewrite <- (Z.div_unique (n + z - 1) z (n / z) (z - 1)); lia.
    + rewrite <- (Z.div_unique (n + z - 1) z (n / z + 1) (n mod z - 1)); lia.
Qed.
Lemma right_price c p : 0 < TxCreditSize c -> TxCreditFlowEnabled c = true -> charged_right c p -> CreditsUsed p = price c p.
Proof. intros Hs Hf Hr. unfold charged_right, charge in Hr. rewrite Hf in Hr. by rewrite Hr, cost_price. Qed.
Lemma spent_prices c q : Forall (fun p => CreditsUsed p = price c p) q -> spent q = prices c q.
Proof. induction 1 as [|p q Hp _ IH]; [done|]. change (spent (p :: q)) with (CreditsUsed p + spent q). rewrite Hp, IH. done. Qed.

(** Events are only added. *)
Lemma step_events t0 l s s' : configured t0 -> inv t0 s -> step l s = Some s' -> exists v, events (target s') = events (target s) ++ v.
Proof.
  intros Hid I. destruct l as [ep a]. unfold step. destruct (aget (EndPoint (target s)) ep) as [e|] eqn:He; [|intros [= ->]; exists []; by rewrite app_nil_r].
  destruct (allowed ep a e (threads s ep)) eqn:Ha; [|intros [= ->]; exists []; by rewrite app_nil_r]. destruct I as [Hlen Hnd Hep].
  pose proof (aget_Some_range _ _ _ He) as Hr. rewrite Hlen in Hr. destruct (aget_is_Some (EndPoint t0) ep Hr) as [e0 He0].
  destruct (Hid ep e0 He0) as [Hid0 Hsz0].
  destruct (runs_elim _ _ _ (act_holds ep e0 e (threads s ep) (target s) Hid0 Hsz0 He Hnd (Hep ep e0 e He0 He) a Ha)) as (h' & t' & -> & e' & v & D & _ & _).
  intros [= <-]. exists v. exact (did_events _ _ _ _ _ D).
Qed.
Lemma steps_events t0 ls s s' : configured t0 -> inv t0 s -> steps ls s = Some s' -> exists v, events (target s') = events (target s) ++ v.
Proof.
  intros Hid. revert s. induction ls as [|l ls IH]; intros s I; cbn [steps]; [intros [= ->]; exists []; by rewrite app_nil_r|].
  destruct (step_inv t0 l s Hid I) as (s1 & Hs1 & I1). rewrite Hs1. cbn. intros Hs. destruct (step_events t0 l s s1 Hid I Hs1) as [v Hv].
  destruct (IH s1 I1 Hs) as [w Hw]. exists (v ++ w). by rewrite Hw, Hv, app_assoc.
Qed.

(** ** Interleavings *)

(** C25.  However threads that send, completions and reports of credits interleave, and
    whatever HIF and power management answer: no step has undefined behaviour; the packets of
    an endpoint's two classes, those of power management and the others, are each given to HIF
    in the order in which they were accepted, although packets of power management overtake
    the others; none is lost and none is given twice; with flow control each is charged its
    price; credits are conserved, but for those a refused send loses; and the endpoint is
    marked as being drained exactly while a thread drains it.  Power management may also
    refuse after packets were chosen; an assertion of the code, which only prints, speaks of
    that. *)
Theorem HTC_packets_and_credits t ls : fresh t ->
  exists s, steps ls (start t) = Some s /\
    forall ep e0 e, ep_at ep e0 t -> ep_at ep e (target s) ->
      let h := threads s ep in let sent := issued ep (events (target s)) in
      (forall a, keys a (th_accepted h) = keys a sent ++ keys a (held (th_phase h)) ++ keys a (TxQueue e)) /\
      (ServiceID (conf e) <> 0 -> TxCreditFlowEnabled (conf e) = true -> Forall (fun p => CreditsUsed p = price (conf e) p) sent) /\
      TxCredits e + reserved (th_phase h) + spent sent + th_lost h = TxCredits e0 + th_reported h /\ 0 <= TxCredits e /\ 0 <= th_lost h /\
      TxProcessCount e = (match th_phase h with Idle => 0 | _ => 1 end).
Proof.
  intros Hf. destruct (steps_inv t ls (start t) (proj1 Hf) (fresh_inv t Hf)) as (s & Hs & I). exists s. split; [done|].
  intros ep e0 e He0 He. destruct (inv_ep _ _ I ep e0 e He0 He) as [C O N K R L U Q A W Y S].
  split; [exact K|]. split; [|by split_and!]. intros Hsv Hflow. apply Forall_app in W as [W _]. eapply Forall_impl; [exact W|].
  intros p Hp. apply right_price; [|done|exact Hp]. rewrite C in *. by apply (proj1 Hf ep e0 He0).
Qed.
Lemma HTC_packets_and_credits_witness :
  let ls := [(1, Enter [ex_pkt 1 1 100 0; ex_pkt 2 1 300 0; ex_pkt 3 1 100 12]); (1, Take 0); (1, Enter [ex_pkt 4 1 10 0]); (1, Issue); (1, Take 0); (1, Issue); (1, Complete 1); (1, Search 0); (1, Credits 3); (1, Issue); (1, PutBack)] in
  exists s, steps ls (start (ex_target 4 [true; false])) = Some s /\
    forall ep e0 e, ep_at ep e0 (ex_target 4 [true; false]) -> ep_at ep e (target s) ->
      let h := threads s ep in let sent := issued ep (events (target s)) in
      (forall a, keys a (th_accepted h) = keys a sent ++ keys a (held (th_phase h)) ++ keys a (TxQueue e)) /\
      (ServiceID (conf e) <> 0 -> TxCreditFlowEnabled (conf e) = true -> Forall (fun p => CreditsUsed p = price (conf e) p) sent) /\
      TxCredits e + reserved (th_phase h) + spent sent + th_lost h = TxCredits e0 + th_reported h /\ 0 <= TxCredits e /\ 0 <= th_lost h /\
      TxProcessCount e = (match th_phase h with Idle => 0 | _ => 1 end).
Proof. intros ls. apply (HTC_packets_and_credits (ex_target 4 [true; false]) ls). by apply ex_fresh. Defined.

(** C26.  No wake-up is lost: while HIF accepts what it is given and power management is up,
    whenever no thread drains an endpoint with credits and none is about to try, its queue is
    empty or its first packet needs more credits than there are; and no credits are lost. *)
Theorem HTC_no_lost_wakeup t ls s ep e0 e : fresh t -> up t -> steps ls (start t) = Some s ->
  ep_at ep e0 t -> ep_at ep e (target s) -> TxCreditFlowEnabled (conf e) = true -> th_retries (threads s ep) = 0%nat -> th_phase (threads s ep) = Idle ->
  blocked e /\ TxCredits e + spent (issued ep (events (target s))) = TxCredits e0 + th_reported (threads s ep).
Proof.
  intros Hf Hu Hs He0 He Hflow Hr Hi. destruct (steps_inv t ls (start t) (proj1 Hf) (fresh_inv t Hf)) as (s1 & Hs1 & I).
  assert (s1 = s) as -> by congruence. destruct (steps_awake t ls (start t) s (proj1 Hf) (fresh_inv t Hf) (fresh_awake t Hf Hu) Hs) as [_ Hw].
  destruct (Hw ep e He) as [Hl Hb]. rewrite Hi in Hb. split; [by apply Hb|].
  pose proof (ho_credits _ _ _ _ _ (inv_ep _ _ I ep e0 e He0 He)) as Hc. rewrite Hi, Hl in Hc. cbn in Hc. lia.
Qed.
Definition wakeup_steps : list (Z * action) := [(1, Enter [ex_pkt 1 1 100 0; ex_pkt 2 1 300 0; ex_pkt 3 1 100 0]); (1, Take 0); (1, Issue); (1, Credits 1); (1, Take 0); (1, Take 0); (1, Enter []); (1, Take 0)].
(** A check of the state after steps, by evaluation *)
Definition after (ls : list (Z * action)) (t : T) (ep : Z) (f : thread -> HTC_ENDPOINT -> bool) : bool :=
  match steps ls (start t) with
  | Some s => match aget (EndPoint (target s)) ep with Some e => f (threads s ep) e | None => false end
  | None => false
  end.
Definition is_idle (h : thread) : bool := match th_phase h with Idle => (th_retries h =? 0)%nat | _ => false end.
Lemma after_true ls t ep f : after ls t ep f = true -> exists s e, steps ls (start t) = Some s /\ ep_at ep e (target s) /\ f (threads s ep) e = true.
Proof.
  unfold after. destruct (steps ls (start t)) as [s|]; [|done]. destruct (aget (EndPoint (target s)) ep) as [e|] eqn:He; [|done].
  intros H. by exists s, e.
Qed.
Lemma is_idle_true h : is_idle h = true -> th_phase h = Idle /\ th_retries h = 0%nat.
Proof. unfold is_idle. destruct (th_phase h); [|done..]. by intros ?%Nat.eqb_eq. Qed.

Lemma HTC_no_lost_wakeup_witness : exists s e, steps wakeup_steps (start (ex_target 2 [])) = Some s /\ length (TxQueue e) = 2%nat /\ TxCredits e = 2 /\
  blocked e /\ TxCredits e + spent (issued 1 (events (target s))) = 2 + th_reported (threads s 1).
Proof.
  destruct (after_true wakeup_steps (ex_target 2 []) 1 (fun h e => is_idle h && TxCreditFlowEnabled (conf e) && (length (TxQueue e) =? 2)%nat && (TxCredits e =? 2)))
    as (s & e & Hs & He & Hc); [by vm_compute|].
  apply andb_true_iff in Hc as [Hc Hk%Z.eqb_eq]. apply andb_true_iff in Hc as [Hc Hq%Nat.eqb_eq]. apply andb_true_iff in Hc as [[Hi Hr]%is_idle_true Hf].
  exists s, e. split; [done|]. split; [done|]. split; [done|].
  exact (HTC_no_lost_wakeup (ex_target 2 []) wakeup_steps s 1 (ex_ep (ex_conf 1 WMI_CONTROL_SVC 128 true 10 false) [] 2) e (ex_fresh 2 [] ltac:(lia)) (ex_up 2) Hs eq_refl He Hf Hr Hi).
Defined.

(** ** Sending *)

(** C27.  [HTCTrySend] on an endpoint with flow control that no thread drains, with room in the
    queue for what the caller has, while HIF accepts what it is given and power management is
    up: it returns with nothing left in the caller's queue; of the packets queued and given,
    class by class and in order, it sends some and queues the rest; the credits of the
    endpoint fall by the prices of those it sent, and it stops only when the price of the
    first packet left is more than the credits left. *)
Theorem HTCTrySend_contract t ls s full ep q e0 e : fresh t -> up t -> steps ls (start t) = Some s ->
  ep_at ep e0 t -> ServiceID (conf e0) <> 0 -> ep_at ep e (target s) -> TxCreditFlowEnabled (conf e) = true ->
  th_retries (threads s ep) = 0%nat -> th_phase (threads s ep) = Idle -> Forall (fun p => Endpoint p = ep) q -> admits e q ->
  exists t' e' new, HTCTrySend full ep (Some q) (target s) = Some ([], t') /\ ep_at ep e' t' /\ TxProcessCount e' = 0 /\ conf e' = conf e /\
    issued ep (events t') = issued ep (events (target s)) ++ new /\
    (forall a, keys a (TxQueue e) ++ keys a q = keys a new ++ keys a (TxQueue e')) /\
    TxCredits e' = TxCredits e - prices (conf e) new /\ 0 <= TxCredits e' /\
    match TxQueue e' with [] => True | p :: _ => TxCredits e' < price (conf e) p end.
Proof.
  intros Hf Hu Hs He0 Hsv He Hflow Hr Hi Hq Hadm. destruct (steps_inv t ls (start t) (proj1 Hf) (fresh_inv t Hf)) as (s1 & Hs1 & I).
  assert (s1 = s) as -> by congruence. pose proof (steps_awake t ls (start t) s (proj1 Hf) (fresh_inv t Hf) (fresh_awake t Hf Hu) Hs) as Hw.
  pose proof (aget_Some_range _ _ _ He0) as Hep.
  pose proof (HTCTrySend_refines t (proj1 Hf) ep Hep full (Some q) s I) as Href. cbn [default] in Href.
  destruct (runs_elim _ _ _ (Href ltac:(split; [right; split; [done|]; intros ? ?; unfold ep_at in *; congruence|intros ? ?; unfold ep_at in *; congruence])))
    as (r & t' & Heq & ls2 & s2 & Hs2 & <- & -> & I2 & B2).
  pose proof (steps_awake t ls2 s s2 (proj1 Hf) I Hw Hs2) as [_ Hw2]. destruct (steps_events t ls2 s s2 (proj1 Hf) I Hs2) as [v Hv].
  destruct (aget_is_Some (EndPoint (target s2)) ep) as [e' He']; [by rewrite (inv_length _ _ I2)|].
  destruct (becomes_at _ _ _ _ B2) as [n Hth]. destruct (inv_ep _ _ I ep e0 e He0 He) as [C O N K R L U Q A W Y S].
  destruct (inv_ep _ _ I2 ep e0 e' He0 He') as [C2 O2 N2 K2 R2 L2 U2 Q2 A2 W2 Y2 S2]. destruct (Hw2 ep e' He') as [Hl2 Hb2]. destruct (proj2 Hw ep e He) as [Hl Hb].
  assert (Hq0 : q <> []) by apply Hadm. assert (Hc : conf e' = conf e) by congruence.
  assert (Hsz : 0 < TxCreditSize (conf e)) by (rewrite C; by apply (proj1 Hf ep e0 He0)).
  rewrite Hth in *. cbn in Hl2. rewrite Hi, Hl in *. cbn in K, K2, R, R2, N2, Hb2, W2. rewrite Hi in *. cbn in K2, R2, N2, W2.
  rewrite Hv, issued_app in *. exists (target s2), e', (issued ep v). split; [done|]. split; [done|]. split; [done|]. split; [done|]. split; [by rewrite Hv, issued_app|].
  split; [|split; [|split; [exact O2|]]].
  - intros a. specialize (K a). specialize (K2 a). rewrite !keys_app, K in K2. change (keys a []) with (@nil (Z * Z * Z * Z * Z)) in K2.
    cbn [app] in K2. rewrite <- !app_assoc in K2. by apply app_inv_head in K2.
  - rewrite spent_app in R2. rewrite <- (spent_prices (conf e) (issued ep v)); [lia|]. rewrite app_nil_r in W2. apply Forall_app in W2 as [_ W2].
    eapply Forall_impl; [exact W2|]. intros p Hp. rewrite Hc in Hp. by apply right_price.
  - assert (HB : blocked e') by (apply Hb2; [congruence|]; destruct q; [done|]; exact Hr). unfold blocked in HB.
    destruct (TxQueue e'); [done|]. by rewrite <- cost_price, <- Hc.
Qed.
Definition contract_steps : list (Z * action) := [(1, Enter [ex_pkt 1 1 300 0]); (1, Take 0)].
Lemma HTCTrySend_contract_witness : exists s e t' e' new,
  HTCTrySend (fun _ _ => false) 1 (Some [ex_pkt 2 1 100 0; ex_pkt 3 1 100 12]) (target s) = Some ([], t') /\ ep_at 1 e' t' /\ TxProcessCount e' = 0 /\ conf e' = conf e /\
    issued 1 (events t') = issued 1 (events (target s)) ++ new /\
    (forall a, keys a (TxQueue e) ++ keys a [ex_pkt 2 1 100 0; ex_pkt 3 1 100 12] = keys a new ++ keys a (TxQueue e')) /\
    TxCredits e' = TxCredits e - prices (conf e) new /\ 0 <= TxCredits e' /\
    match TxQueue e' with [] => True | p :: _ => TxCredits e' < price (conf e) p end.
Proof.
  destruct (after_true contract_steps (ex_target 2 []) 1 (fun h e => is_idle h && TxCreditFlowEnabled (conf e) && negb (full_cb (conf e))))
    as (s & e & Hs & He & Hc); [by vm_compute|].
  apply andb_true_iff in Hc as [Hc Hk%negb_true_iff]. apply andb_true_iff in Hc as [[Hi Hr]%is_idle_true Hf].
  exists s, e.
  refine (HTCTrySend_contract (ex_target 2 []) contract_steps s (fun _ _ => false) 1 _ (ex_ep (ex_conf 1 WMI_CONTROL_SVC 128 true 10 false) [] 2) e (ex_fresh 2 [] ltac:(lia)) (ex_up 2) Hs eq_refl _ He Hf Hr Hi _ _).
  - done.
  - by repeat constructor.
  - split; [done|by left].
Defined.

(** ** Received trailers *)

(** C28.  [HTCProcessTrailer] on any bytes, at any time: it ends, reads no byte outside the
    trailer, and its status is that of a reading of the records from the front.  While HIF
    accepts what it is given and power management is up, the credits of the records, and only
    they, are added to the endpoints they name, less those of the packets that are sent for
    them; and afterwards no endpoint with credits has something to send and nobody who does. *)
Theorem HTCProcessTrailer_parses t ls s full buf : fresh t -> ENDPOINT_MAX <= Z.of_nat (length (EndPoint t)) -> steps ls (start t) = Some s -> Forall is_byte buf ->
  exists t', HTCProcessTrailer full buf (target s) = Some (snd (parse_trailer buf), t') /\
    (up t -> forall ep e0 e e', ep_at ep e0 t -> ep_at ep e (target s) -> ep_at ep e' t' ->
      TxCredits e' + spent (issued ep (events t')) = TxCredits e + spent (issued ep (events (target s))) + rpt_total ep (fst (parse_trailer buf)) /\
      (forall a, keys a (issued ep (events (target s))) ++ keys a (TxQueue e) = keys a (issued ep (events t')) ++ keys a (TxQueue e') \/ th_phase (threads s ep) <> Idle) /\
      (TxCreditFlowEnabled (conf e') = true -> th_retries (threads s ep) = 0%nat -> th_phase (threads s ep) = Idle -> blocked e')).
Proof.
  intros Hf Hlen Hs Hb. destruct (steps_inv t ls (start t) (proj1 Hf) (fresh_inv t Hf)) as (s1 & Hs1 & I).
  assert (s1 = s) as -> by congruence.
  destruct (runs_elim _ _ _ (HTCProcessTrailer_refines t (proj1 Hf) Hlen full buf Hb s I)) as (r & t' & Heq & ls2 & s2 & Hs2 & <- & -> & I2 & R2).
  exists (target s2). split; [done|]. intros Hu ep e0 e e' He0 He He'.
  pose proof (steps_awake t ls (start t) s (proj1 Hf) (fresh_inv t Hf) (fresh_awake t Hf Hu) Hs) as Hw.
  pose proof (steps_awake t ls2 s s2 (proj1 Hf) I Hw Hs2) as [_ Hw2]. destruct (R2 ep) as [n Hth].
  destruct (inv_ep _ _ I ep e0 e He0 He) as [C O N K R L U Q A W Y S]. destruct (inv_ep _ _ I2 ep e0 e' He0 He') as [C2 O2 N2 K2 Rc2 L2 U2 Q2 A2 W2 Y2 S2].
  destruct (Hw2 ep e' He') as [Hl2 Hb2]. destruct (proj2 Hw ep e He) as [Hl _]. rewrite Hth in *. cbn in Hl2, K2, Rc2, Hb2.
  split; [|split].
  - lia.
  - intros a. destruct (th_phase (threads s ep)) eqn:Hi; [left|by right..]. specialize (K a). specialize (K2 a). rewrite ?Hi in K, K2.
    change (keys a (held Idle)) with (@nil (Z * Z * Z * Z * Z)) in K, K2. cbn [app] in K, K2. congruence.
  - intros Hfl Hr Hi. rewrite Hi in Hb2. by apply Hb2.
Qed.
Definition ex_trailer : list Z := [7; 2; 0; 0; 9; 9; 1; 9; 0; 0; 1; 3; 0; 0; 2; 1; 0; 0; 5].
Lemma HTCProcessTrailer_parses_witness : parse_trailer ex_trailer = ([(1, 3); (2, 1)], A_OK) /\ exists s t', steps contract_steps (start (ex_target 2 [])) = Some s /\
  HTCProcessTrailer (fun _ _ => false) ex_trailer (target s) = Some (A_OK, t') /\
  (up (ex_target 2 []) -> forall ep e0 e e', ep_at ep e0 (ex_target 2 []) -> ep_at ep e (target s) -> ep_at ep e' t' ->
      TxCredits e' + spent (issued ep (events t')) = TxCredits e + spent (issued ep (events (target s))) + rpt_total ep (fst (parse_trailer ex_trailer)) /\
      (forall a, keys a (issued ep (events (target s))) ++ keys a (TxQueue e) = keys a (issued ep (events t')) ++ keys a (TxQueue e') \/ th_phase (threads s ep) <> Idle) /\
      (TxCreditFlowEnabled (conf e') = true -> th_retries (threads s ep) = 0%nat -> th_phase (threads s ep) = Idle -> blocked e')).
Proof.
  split; [done|]. destruct (after_true contract_steps (ex_target 2 []) 1 (fun h e => is_idle h)) as (s & e & Hs & _); [by vm_compute|].
  destruct (HTCProcessTrailer_parses (ex_target 2 []) contract_steps s (fun _ _ => false) ex_trailer (ex_fresh 2 [] ltac:(lia)) ltac:(done) Hs) as (t' & Ht' & H).
  - by repeat constructor.
  - exists s, t'. done.
Defined.

(** ** What goes wrong *)

(** When HIF refuses the first of the packets that were chosen, all of them go back to
    the front of the queue, but only the first gets its credits back: the credits of the others
    are lost to the endpoint, and they are taken again with the next choice; so are the uses of
    runtime power management, none of which is given back. *)
Theorem refused_send_loses_credits ep e t n p rest e1 : ep_at ep e t -> ep_ok e -> taken e (pm_up t) n = (p :: rest, e1) -> hd true (hif_accepts t) = false ->
  exists t' e', drain_round ep n t = Some (inr tt, t') /\ ep_at ep e' t' /\ TxProcessCount e' = 0 /\ (forall i, issued i (events t') = issued i (events t)) /\
    (forall a, keys a (TxQueue e') = keys a (TxQueue e)) /\ TxCredits e' = TxCredits e - spent rest /\ pm_usage t' = pm_usage t + uses (has_auto e) (p :: rest).
Proof.
  intros He Hok Ht Hh. pose proof (take_chosen e (pm_up t) n Hok) as HC. rewrite Ht in HC. destruct HC as ([K L C O U F S] & _ & _).
  assert (H : runs (drain_round ep n) t (fun r t' => r = inr tt /\ did ep (set_TxProcessCount 0 (set_TxQueue (prepare e1 p :: rest ++ TxQueue e1) (take_back (prepare e1 p) (await_completion (prepare e1 p) e1)))) [sent ep e1 (prepare e1 p) false] t t' /\
    pm_usage t' = pm_usage t + uses (has_auto e) (p :: rest))).
  { unfold drain_round. apply runs_bnd. eapply runs_mono; [by apply take_spec|]. rewrite Ht. cbn [fst snd]. intros q t1 (-> & D1 & A1 & _ & U1).
    pose proof (did_at _ _ _ _ _ _ He D1) as He1. apply runs_bnd. unfold HTCIssuePackets. cbn [miter length]. apply runs_bnd.
    eapply runs_mono; [by apply issue_round_spec|]. intros r t2 (_ & _ & Hr). cbv zeta in Hr. rewrite A1, Hh in Hr. destruct Hr as (-> & D2 & U2). mstep.
    destruct (await_facts (prepare e1 p) e1) as (F1 & _). set (e2 := await_completion (prepare e1 p) e1) in *. clearbody e2.
    apply runs_bnd. eapply runs_mono; [apply put_back_spec; exact (did_at _ _ _ _ _ _ He1 D2)|]. intros [] t3 (D3 & A3). mstep. split; [done|].
    split; [|unfold same_answers in A3; destruct A3 as (_ & _ & _ & ->); congruence].
    pose proof (did_trans _ _ _ _ _ _ _ _ D1 (did_trans _ _ _ _ _ _ _ _ D2 D3)) as D. rewrite <- F1. exact D. }
  destruct (runs_elim _ _ _ H) as (r & t' & Heq & -> & D & HU). eexists t', _. split; [exact Heq|]. split; [exact (did_at _ _ _ _ _ _ He D)|]. split; [done|].
  split; [intros i; rewrite (did_events _ _ _ _ _ D), issued_app; cbn; by rewrite app_nil_r|]. split; [|split; [|exact HU]].
  - intros a. rewrite <- (K a), <- keys_app. cbn [TxQueue set_TxProcessCount set_TxQueue set_ep]. apply keys_prepare.
  - destruct (await_facts (prepare e1 p) e1) as (_ & F2 & _). set (e2 := await_completion (prepare e1 p) e1) in *. clearbody e2. cbn. rewrite used_prepare, F2.
    change (spent (p :: rest)) with (CreditsUsed p + spent rest) in C. lia.
Qed.
Definition ex_queue : list HTC_PACKET := [ex_pkt 1 1 100 0; ex_pkt 2 1 300 0; ex_pkt 3 1 100 0].
Definition ex_waiting : T := set_EndPoint (upd (ex_eps 5) 1 (set_TxProcessCount 1 (ex_ep (ex_conf 1 WMI_CONTROL_SVC 128 true 10 false) ex_queue 5))) (ex_target 5 [false]).
Lemma refused_send_loses_credits_witness : exists t' e', drain_round 1 0 ex_waiting = Some (inr tt, t') /\ ep_at 1 e' t' /\ TxProcessCount e' = 0 /\
    (forall i, issued i (events t') = issued i (events ex_waiting)) /\ (forall a, keys a (TxQueue e') = keys a ex_queue) /\ TxCredits e' = 1 /\ pm_usage t' = 3.
Proof.
  refine (refused_send_loses_credits 1 (set_TxProcessCount 1 (ex_ep (ex_conf 1 WMI_CONTROL_SVC 128 true 10 false) ex_queue 5)) ex_waiting 0
    (set_credits_flags 1 0 (ex_pkt 1 1 100 0)) [set_credits_flags 3 1 (ex_pkt 2 1 300 0); set_credits_flags 1 1 (ex_pkt 3 1 100 0)]
    (with_credits (set_TxQueue [] (set_TxProcessCount 1 (ex_ep (ex_conf 1 WMI_CONTROL_SVC 128 true 10 false) ex_queue 5))) 0)
    eq_refl _ eq_refl eq_refl).
  by split; [right|].
Defined.

(** A packet that does not fit into the queue and that [EpSendFull] keeps goes on with a
    buffer that is wrong: without credits it is no longer mapped for DMA, and neither the
    mapping nor the header is undone when it completes; with credits it has the header twice. *)
Theorem kept_overflow_is_broken ep e t callers : ep_at ep e t -> full_cb (conf e) = true ->
  MaxTxQueueDepth (conf e) <= HTC_PACKET_QUEUE_DEPTH (TxQueue e) -> callers <> [] -> Forall (fun p => Fixup p = negb (TxCreditFlowEnabled (conf e))) callers ->
  exists t' kept, fit (fun _ _ => true) ep callers t = Some ((Some kept, []), t') /\
    Forall2 (fun p p' => nb_id (netbuf p') = nb_id (netbuf p) /\ Fixup p' = false /\
      if TxCreditFlowEnabled (conf e) then nb_pushed (netbuf p') = nb_pushed (netbuf p) + HTC_HDR_LENGTH /\ nb_maps (netbuf p') = nb_maps (netbuf p)
      else nb_pushed (netbuf p') = nb_pushed (netbuf p) /\ nb_maps (netbuf p') = nb_maps (netbuf p) - 1) callers kept.
Proof.
  intros He Hfull Hroom Hne Hfix. set (g := fun p => let p := RestoreTxPacket p in set_buf (Fixup p) (adf_nbuf_push_head HTC_HDR_LENGTH (netbuf p)) p).
  assert (Hoff : forall q kept t, runs (offer (fun _ _ => true) ep q kept []) t (fun r _ => r = (kept ++ map g q, []))).
  { clear. intros q. induction q as [|p q IH]; intros kept t; cbn [offer]; [mstep; by rewrite app_nil_r|].
    apply runs_bnd, runs_tell. eapply runs_mono; [apply IH|]. intros r t' ->. cbn [map]. by rewrite <- app_assoc. }
  assert (Hrun : runs (fit (fun _ _ => true) ep callers) t (fun r _ => r = (Some (map g callers), []))).
  { unfold fit. apply runs_bnd. eapply runs_get_ep; [exact He|]. destruct callers as [|p q]; [done|]. cbv zeta.
    destruct (Z.leb_spec (MaxTxQueueDepth (conf e)) (HTC_PACKET_QUEUE_DEPTH (TxQueue e))); [|lia].
    destruct (Z.leb_spec (HTC_PACKET_QUEUE_DEPTH (p :: q)) 0) as [Hz|_]; [unfold HTC_PACKET_QUEUE_DEPTH in Hz; cbn in Hz; lia|]. rewrite Hfull. cbn [orb negb].
    rewrite Z.sub_diag. apply runs_bnd. change (Z.to_nat 0) with 0%nat. cbn [drop take]. eapply runs_mono; [apply Hoff|]. intros r t' ->. by mstep. }
  destruct (runs_elim _ _ _ Hrun) as (r & t' & Heq & ->). exists t', (map g callers). split; [exact Heq|].
  change (map g callers) with (g <$> callers). apply Forall2_fmap_r, Forall_Forall2_diag. eapply Forall_impl; [exact Hfix|]. intros p Hp. cbn beta in Hp. unfold compose, g, RestoreTxPacket. cbv beta zeta.
  destruct (TxCreditFlowEnabled (conf e)); cbn in Hp; rewrite Hp; cbn -[HTC_HDR_LENGTH]; rewrite ?Hp; split_and!; first [done | lia].
Qed.
Lemma kept_overflow_is_broken_witness : let e := ex_ep (ex_conf 2 HTT_DATA_MSG_SVC 128 false 2 true) [ex_pkt 1 2 9 0; ex_pkt 2 2 9 0] 0 in
  let p := stamp e (ex_pkt 3 2 9 0) in let t := set_EndPoint (upd (ex_eps 0) 2 e) (ex_target 0 []) in
  exists t' kept, fit (fun _ _ => true) 2 [p] t = Some ((Some kept, []), t') /\
    Forall2 (fun p p' => nb_id (netbuf p') = nb_id (netbuf p) /\ Fixup p' = false /\
      nb_pushed (netbuf p') = nb_pushed (netbuf p) /\ nb_maps (netbuf p') = nb_maps (netbuf p) - 1) [p] kept.
Proof. intros e p t. apply (kept_overflow_is_broken 2 e t [p]); [done|done|by vm_compute|done|by repeat constructor]. Defined.
