(* ===== verification/Pmc.v ===== *)
(** * Power save of a station with the firmware's help

    Models the power save offload of SME, [CORE/SME/src/pmc/pmc.c] and [pmcApi.c] from
    [pmcOffload] on, with the queue of SME commands it works through,
    [CORE/SME/src/sme_common/sme_Api.c], what the two use of CSR, and the side of the protocol
    engine, [CORE/MAC/src/pe/pmm/pmmApi.c].  The theorems are in [PmcProps].

    Command buffers have identities; the lists of commands and of callbacks are lists (what
    [CsrLinkList] shows of them).  Messages between SME, the protocol engine and the firmware
    are in the mailboxes [to_pe], [to_fw], [to_sme].  What callbacks were called is recorded in
    [called].  [luck] answers every question the code asks of the rest of the driver, one after
    the other: whether memory is there, whether a message could be sent, what a check routine
    answers, whether the command of another module goes on; when it is used up the answer is
    yes. *)

From S2P Require Import Prelude.

Local Open Scope c_scope.

(** ** Data *)

Inductive tPmcState :=
| STOPPED | FULL_POWER | LOW_POWER | REQUEST_IMPS | IMPS | REQUEST_BMPS | BMPS | REQUEST_FULL_POWER
| REQUEST_START_UAPSD | REQUEST_STOP_UAPSD | UAPSD | REQUEST_STANDBY | STANDBY | REQUEST_ENTER_WOWL
| REQUEST_EXIT_WOWL | WOWL.
#[global] Instance tPmcState_eqdec : EqDecision tPmcState.
Proof. solve_decision. Defined.

Inductive tUapsdStatus := PMC_UAPSD_ENABLED | PMC_UAPSD_DISABLED | PMC_UAPSD_ENABLE_PENDING | PMC_UAPSD_DISABLE_PENDING.
#[global] Instance tUapsdStatus_eqdec : EqDecision tUapsdStatus.
Proof. solve_decision. Defined.

Inductive eHalStatus :=
| eHAL_STATUS_SUCCESS | eHAL_STATUS_FAILURE | eHAL_STATUS_FAILED_ALLOC | eHAL_STATUS_RESOURCES
| eHAL_STATUS_INVALID_PARAMETER | eHAL_STATUS_PMC_DISABLED | eHAL_STATUS_PMC_NOT_NOW | eHAL_STATUS_PMC_PENDING
| eHAL_STATUS_CSR_WRONG_STATE.
#[global] Instance eHalStatus_eqdec : EqDecision eHalStatus.
Proof. solve_decision. Defined.

(** The commands of SME: those of power save, those the queue treats by themselves, and the
    rest.  A roam command may be a disconnect. *)
Inductive eSmeCommandType :=
| eSmeCommandScan | eSmeCommandRoam (disconnect : bool) | eSmeCommandWmStatusChange | eSmeCommandSetKey
| eSmeCommandDelStaSession | eSmeCommandTdlsAddPeer | eSmeCsrCommand
| eSmeCommandEnterBmps | eSmeCommandExitBmps | eSmeCommandEnterUapsd | eSmeCommandExitUapsd
| eSmeCommandEnterWowl | eSmeCommandExitWowl
| eSmeCommandAddTs | eSmeCommandDelTs | eSmeCommandRemainOnChannel | eSmeOtherCommand.
#[global] Instance eSmeCommandType_eqdec : EqDecision eSmeCommandType.
Proof. solve_decision. Defined.

(** [eSmeCsrCommandMask & command], [eSmePmcCommandMask & command] *)
Definition is_csr (c : eSmeCommandType) : bool :=
  match c with
  | eSmeCommandScan | eSmeCommandRoam _ | eSmeCommandWmStatusChange | eSmeCommandSetKey | eSmeCommandDelStaSession
  | eSmeCommandTdlsAddPeer | eSmeCsrCommand => true
  | _ => false
  end.
Definition is_pmc (c : eSmeCommandType) : bool :=
  match c with
  | eSmeCommandEnterBmps | eSmeCommandExitBmps | eSmeCommandEnterUapsd | eSmeCommandExitUapsd
  | eSmeCommandEnterWowl | eSmeCommandExitWowl => true
  | _ => false
  end.

Record tSmeCmd := {
  cmd_id : Z;                 (* the buffer *)
  command : eSmeCommandType;
  cmd_session : Z;
  fReleaseWhenDone : bool     (* allocated because no buffer was left *)
}.

(** The routine of a callback: CSR's, which is modelled, or one of another module *)
Inductive full_power_routine := csrFullPowerOffload | Full_power_client (n : Z).

(** What is kept for every session.  A running timer has the time it was started with. *)
Record tPsOffloadPerSessionInfo := {
  configStaPsEnabled : bool;
  configDefStaPsEnabled : bool;
  uapsdStatus : tUapsdStatus;
  uapsdSessionRequired : bool;
  pmcState : tPmcState;
  autoPsEnableTimer : option Z;
  autoPsEntryTimerPeriod : Z;
  fullPowerReqPend : bool;
  pwrsaveCheckList : list (option Z * Z);          (* routine, context *)
  deviceStateUpdateIndList : list (Z * Z);
  fullPowerCbList : list (full_power_routine * Z);
  uapsdCbList : list (Z * Z);
  isTdlsPowerSaveProhibited : bool;
  UapsdEnabled : bool
}.

(** What is used of the session in CSR and in the protocol engine *)
Record tCsrRoamSession := { sessionActive : bool; connectedInfra : bool; waitForKey : bool }.
Record tPmmOffloadInfo := { power_save : bool; bcnmiss : bool; pe_session : bool }.

(** The messages.  A request to the protocol engine says whether it is for U-APSD as well. *)
Inductive request := R_ENTER_BMPS | R_EXIT_BMPS | R_ENTER_UAPSD | R_EXIT_UAPSD.
#[global] Instance request_eqdec : EqDecision request.
Proof. solve_decision. Defined.
Inductive pe_msg := eWNI_PMC_REQ (r : request) (sess : Z) (uapsd : bool) | eWNI_PMC_WOWL_REQ (enter : bool).
Inductive fw_msg := WDA_REQ (r : request) (sess : Z) (uapsd : bool).
Inductive sme_msg :=
| eWNI_PMC_RSP (r : request) (ok : bool)
| eWNI_PMC_OTHER_RSP
| eWNI_PMC_EXIT_BMPS_IND (sess : Z) (ok : bool)
| HEARTBEAT_TIMEOUT (sess : Z).

Inductive event :=
| Full_power (n ctx sess : Z) (status : eHalStatus)
| Uapsd_start (n ctx sess : Z) (status : eHalStatus)
| State_change (n ctx sess : Z) (st : tPmcState).

(** The queues of SME.  [heap_next] is the next identity of a command that is not of the pool. *)
Record tSmeStruct := {
  sme_started : bool;
  smeCmdFreeList : list Z;
  heap_next : Z;
  smeCmdActiveList : list tSmeCmd;
  smeCmdPendingList : list tSmeCmd;
  smeScanCmdActiveList : list tSmeCmd;
  smeScanCmdPendingList : list tSmeCmd;
  roamCmdPendingList : list tSmeCmd
}.

Record tAniSirGlobal := {
  sme : tSmeStruct;
  staPsEnabled : bool;
  pmc : list tPsOffloadPerSessionInfo;
  roamSession : list tCsrRoamSession;
  fScanOffload : bool;
  fP2pListenOffload : bool;
  fDropScanCmd : bool;
  mon_enable : bool;
  pmm : list tPmmOffloadInfo;
  gLimProcessDefdMsgs : bool;
  to_pe : list pe_msg;
  to_fw : list fw_msg;
  to_sme : list sme_msg;
  called : list event;
  luck : list bool
}.

#[local] Abbreviation ST := tAniSirGlobal.

Definition AUTO_PS_ENTRY_TIMER_DEFAULT_VALUE : Z := 1000.
Definition AUTO_DEFERRED_PS_ENTRY_TIMER_DEFAULT_VALUE : Z := 5000.
Definition CSR_ROAM_SESSION_MAX : Z := 5.

(** ** Updates *)

Definition set_configStaPsEnabled (v : bool) (p : tPsOffloadPerSessionInfo) : tPsOffloadPerSessionInfo :=
  {| configStaPsEnabled := v; configDefStaPsEnabled := configDefStaPsEnabled p; uapsdStatus := uapsdStatus p;
     uapsdSessionRequired := uapsdSessionRequired p; pmcState := pmcState p; autoPsEnableTimer := autoPsEnableTimer p;
     autoPsEntryTimerPeriod := autoPsEntryTimerPeriod p; fullPowerReqPend := fullPowerReqPend p; pwrsaveCheckList :=
     pwrsaveCheckList p; deviceStateUpdateIndList := deviceStateUpdateIndList p; fullPowerCbList := fullPowerCbList p;
     uapsdCbList := uapsdCbList p; isTdlsPowerSaveProhibited := isTdlsPowerSaveProhibited p; UapsdEnabled :=
     UapsdEnabled p |}.
Definition set_configDefStaPsEnabled (v : bool) (p : tPsOffloadPerSessionInfo) : tPsOffloadPerSessionInfo :=
  {| configStaPsEnabled := configStaPsEnabled p; configDefStaPsEnabled := v; uapsdStatus := uapsdStatus p;
     uapsdSessionRequired := uapsdSessionRequired p; pmcState := pmcState p; autoPsEnableTimer := autoPsEnableTimer p;
     autoPsEntryTimerPeriod := autoPsEntryTimerPeriod p; fullPowerReqPend := fullPowerReqPend p; pwrsaveCheckList :=
     pwrsaveCheckList p; deviceStateUpdateIndList := deviceStateUpdateIndList p; fullPowerCbList := fullPowerCbList p;
     uapsdCbList := uapsdCbList p; isTdlsPowerSaveProhibited := isTdlsPowerSaveProhibited p; UapsdEnabled :=
     UapsdEnabled p |}.
Definition set_uapsdStatus (v : tUapsdStatus) (p : tPsOffloadPerSessionInfo) : tPsOffloadPerSessionInfo :=
  {| configStaPsEnabled := configStaPsEnabled p; configDefStaPsEnabled := configDefStaPsEnabled p; uapsdStatus := v;
     uapsdSessionRequired := uapsdSessionRequired p; pmcState := pmcState p; autoPsEnableTimer := autoPsEnableTimer p;
     autoPsEntryTimerPeriod := autoPsEntryTimerPeriod p; fullPowerReqPend := fullPowerReqPend p; pwrsaveCheckList :=
     pwrsaveCheckList p; deviceStateUpdateIndList := deviceStateUpdateIndList p; fullPowerCbList := fullPowerCbList p;
     uapsdCbList := uapsdCbList p; isTdlsPowerSaveProhibited := isTdlsPowerSaveProhibited p; UapsdEnabled :=
     UapsdEnabled p |}.
Definition set_uapsdSessionRequired (v : bool) (p : tPsOffloadPerSessionInfo) : tPsOffloadPerSessionInfo :=
  {| configStaPsEnabled := configStaPsEnabled p; configDefStaPsEnabled := configDefStaPsEnabled p; uapsdStatus :=
     uapsdStatus p; uapsdSessionRequired := v; pmcState := pmcState p; autoPsEnableTimer := autoPsEnableTimer p;
     autoPsEntryTimerPeriod := autoPsEntryTimerPeriod p; fullPowerReqPend := fullPowerReqPend p; pwrsaveCheckList :=
     pwrsaveCheckList p; deviceStateUpdateIndList := deviceStateUpdateIndList p; fullPowerCbList := fullPowerCbList p;
     uapsdCbList := uapsdCbList p; isTdlsPowerSaveProhibited := isTdlsPowerSaveProhibited p; UapsdEnabled :=
     UapsdEnabled p |}.
Definition set_pmcState (v : tPmcState) (p : tPsOffloadPerSessionInfo) : tPsOffloadPerSessionInfo :=
  {| configStaPsEnabled := configStaPsEnabled p; configDefStaPsEnabled := configDefStaPsEnabled p; uapsdStatus :=
     uapsdStatus p; uapsdSessionRequired := uapsdSessionRequired p; pmcState := v; autoPsEnableTimer :=
     autoPsEnableTimer p; autoPsEntryTimerPeriod := autoPsEntryTimerPeriod p; fullPowerReqPend := fullPowerReqPend p;
     pwrsaveCheckList := pwrsaveCheckList p; deviceStateUpdateIndList := deviceStateUpdateIndList p; fullPowerCbList
     := fullPowerCbList p; uapsdCbList := uapsdCbList p; isTdlsPowerSaveProhibited := isTdlsPowerSaveProhibited p;
     UapsdEnabled := UapsdEnabled p |}.
Definition set_autoPsEnableTimer (v : option Z) (p : tPsOffloadPerSessionInfo) : tPsOffloadPerSessionInfo :=
  {| configStaPsEnabled := configStaPsEnabled p; configDefStaPsEnabled := configDefStaPsEnabled p; uapsdStatus :=
     uapsdStatus p; uapsdSessionRequired := uapsdSessionRequired p; pmcState := pmcState p; autoPsEnableTimer := v;
     autoPsEntryTimerPeriod := autoPsEntryTimerPeriod p; fullPowerReqPend := fullPowerReqPend p; pwrsaveCheckList :=
     pwrsaveCheckList p; deviceStateUpdateIndList := deviceStateUpdateIndList p; fullPowerCbList := fullPowerCbList p;
     uapsdCbList := uapsdCbList p; isTdlsPowerSaveProhibited := isTdlsPowerSaveProhibited p; UapsdEnabled :=
     UapsdEnabled p |}.
Definition set_fullPowerReqPend (v : bool) (p : tPsOffloadPerSessionInfo) : tPsOffloadPerSessionInfo :=
  {| configStaPsEnabled := configStaPsEnabled p; configDefStaPsEnabled := configDefStaPsEnabled p; uapsdStatus :=
     uapsdStatus p; uapsdSessionRequired := uapsdSessionRequired p; pmcState := pmcState p; autoPsEnableTimer :=
     autoPsEnableTimer p; autoPsEntryTimerPeriod := autoPsEntryTimerPeriod p; fullPowerReqPend := v; pwrsaveCheckList
     := pwrsaveCheckList p; deviceStateUpdateIndList := deviceStateUpdateIndList p; fullPowerCbList := fullPowerCbList
     p; uapsdCbList := uapsdCbList p; isTdlsPowerSaveProhibited := isTdlsPowerSaveProhibited p; UapsdEnabled :=
     UapsdEnabled p |}.
Definition set_pwrsaveCheckList (v : list (option Z * Z)) (p : tPsOffloadPerSessionInfo) : tPsOffloadPerSessionInfo :=
  {| configStaPsEnabled := configStaPsEnabled p; configDefStaPsEnabled := configDefStaPsEnabled p; uapsdStatus :=
     uapsdStatus p; uapsdSessionRequired := uapsdSessionRequired p; pmcState := pmcState p; autoPsEnableTimer :=
     autoPsEnableTimer p; autoPsEntryTimerPeriod := autoPsEntryTimerPeriod p; fullPowerReqPend := fullPowerReqPend p;
     pwrsaveCheckList := v; deviceStateUpdateIndList := deviceStateUpdateIndList p; fullPowerCbList := fullPowerCbList
     p; uapsdCbList := uapsdCbList p; isTdlsPowerSaveProhibited := isTdlsPowerSaveProhibited p; UapsdEnabled :=
     UapsdEnabled p |}.
Definition set_deviceStateUpdateIndList (v : list (Z * Z)) (p : tPsOffloadPerSessionInfo) : tPsOffloadPerSessionInfo :=
  {| configStaPsEnabled := configStaPsEnabled p; configDefStaPsEnabled := configDefStaPsEnabled p; uapsdStatus :=
     uapsdStatus p; uapsdSessionRequired := uapsdSessionRequired p; pmcState := pmcState p; autoPsEnableTimer :=
     autoPsEnableTimer p; autoPsEntryTimerPeriod := autoPsEntryTimerPeriod p; fullPowerReqPend := fullPowerReqPend p;
     pwrsaveCheckList := pwrsaveCheckList p; deviceStateUpdateIndList := v; fullPowerCbList := fullPowerCbList p;
     uapsdCbList := uapsdCbList p; isTdlsPowerSaveProhibited := isTdlsPowerSaveProhibited p; UapsdEnabled :=
     UapsdEnabled p |}.
Definition set_fullPowerCbList (v : list (full_power_routine * Z)) (p : tPsOffloadPerSessionInfo) : tPsOffloadPerSessionInfo :=
  {| configStaPsEnabled := configStaPsEnabled p; configDefStaPsEnabled := configDefStaPsEnabled p; uapsdStatus :=
     uapsdStatus p; uapsdSessionRequired := uapsdSessionRequired p; pmcState := pmcState p; autoPsEnableTimer :=
     autoPsEnableTimer p; autoPsEntryTimerPeriod := autoPsEntryTimerPeriod p; fullPowerReqPend := fullPowerReqPend p;
     pwrsaveCheckList := pwrsaveCheckList p; deviceStateUpdateIndList := deviceStateUpdateIndList p; fullPowerCbList
     := v; uapsdCbList := uapsdCbList p; isTdlsPowerSaveProhibited := isTdlsPowerSaveProhibited p; UapsdEnabled :=
     UapsdEnabled p |}.
Definition set_uapsdCbList (v : list (Z * Z)) (p : tPsOffloadPerSessionInfo) : tPsOffloadPerSessionInfo :=
  {| configStaPsEnabled := configStaPsEnabled p; configDefStaPsEnabled := configDefStaPsEnabled p; uapsdStatus :=
     uapsdStatus p; uapsdSessionRequired := uapsdSessionRequired p; pmcState := pmcState p; autoPsEnableTimer :=
     autoPsEnableTimer p; autoPsEntryTimerPeriod := autoPsEntryTimerPeriod p; fullPowerReqPend := fullPowerReqPend p;
     pwrsaveCheckList := pwrsaveCheckList p; deviceStateUpdateIndList := deviceStateUpdateIndList p; fullPowerCbList
     := fullPowerCbList p; uapsdCbList := v; isTdlsPowerSaveProhibited := isTdlsPowerSaveProhibited p; UapsdEnabled :=
     UapsdEnabled p |}.
Definition set_isTdlsPowerSaveProhibited (v : bool) (p : tPsOffloadPerSessionInfo) : tPsOffloadPerSessionInfo :=
  {| configStaPsEnabled := configStaPsEnabled p; configDefStaPsEnabled := configDefStaPsEnabled p; uapsdStatus :=
     uapsdStatus p; uapsdSessionRequired := uapsdSessionRequired p; pmcState := pmcState p; autoPsEnableTimer :=
     autoPsEnableTimer p; autoPsEntryTimerPeriod := autoPsEntryTimerPeriod p; fullPowerReqPend := fullPowerReqPend p;
     pwrsaveCheckList := pwrsaveCheckList p; deviceStateUpdateIndList := deviceStateUpdateIndList p; fullPowerCbList
     := fullPowerCbList p; uapsdCbList := uapsdCbList p; isTdlsPowerSaveProhibited := v; UapsdEnabled := UapsdEnabled
     p |}.
Definition set_free (v : list Z) (q : tSmeStruct) : tSmeStruct :=
  {| sme_started := sme_started q; smeCmdFreeList := v; heap_next := heap_next q; smeCmdActiveList := smeCmdActiveList
     q; smeCmdPendingList := smeCmdPendingList q; smeScanCmdActiveList := smeScanCmdActiveList q;
     smeScanCmdPendingList := smeScanCmdPendingList q; roamCmdPendingList := roamCmdPendingList q |}.
Definition set_heap (v : Z) (q : tSmeStruct) : tSmeStruct :=
  {| sme_started := sme_started q; smeCmdFreeList := smeCmdFreeList q; heap_next := v; smeCmdActiveList :=
     smeCmdActiveList q; smeCmdPendingList := smeCmdPendingList q; smeScanCmdActiveList := smeScanCmdActiveList q;
     smeScanCmdPendingList := smeScanCmdPendingList q; roamCmdPendingList := roamCmdPendingList q |}.
Definition set_active (v : list tSmeCmd) (q : tSmeStruct) : tSmeStruct :=
  {| sme_started := sme_started q; smeCmdFreeList := smeCmdFreeList q; heap_next := heap_next q; smeCmdActiveList :=
     v; smeCmdPendingList := smeCmdPendingList q; smeScanCmdActiveList := smeScanCmdActiveList q;
     smeScanCmdPendingList := smeScanCmdPendingList q; roamCmdPendingList := roamCmdPendingList q |}.
Definition set_pending (v : list tSmeCmd) (q : tSmeStruct) : tSmeStruct :=
  {| sme_started := sme_started q; smeCmdFreeList := smeCmdFreeList q; heap_next := heap_next q; smeCmdActiveList :=
     smeCmdActiveList q; smeCmdPendingList := v; smeScanCmdActiveList := smeScanCmdActiveList q; smeScanCmdPendingList
     := smeScanCmdPendingList q; roamCmdPendingList := roamCmdPendingList q |}.
Definition set_scan_active (v : list tSmeCmd) (q : tSmeStruct) : tSmeStruct :=
  {| sme_started := sme_started q; smeCmdFreeList := smeCmdFreeList q; heap_next := heap_next q; smeCmdActiveList :=
     smeCmdActiveList q; smeCmdPendingList := smeCmdPendingList q; smeScanCmdActiveList := v; smeScanCmdPendingList :=
     smeScanCmdPendingList q; roamCmdPendingList := roamCmdPendingList q |}.
Definition set_scan_pending (v : list tSmeCmd) (q : tSmeStruct) : tSmeStruct :=
  {| sme_started := sme_started q; smeCmdFreeList := smeCmdFreeList q; heap_next := heap_next q; smeCmdActiveList :=
     smeCmdActiveList q; smeCmdPendingList := smeCmdPendingList q; smeScanCmdActiveList := smeScanCmdActiveList q;
     smeScanCmdPendingList := v; roamCmdPendingList := roamCmdPendingList q |}.
Definition set_roam (v : list tSmeCmd) (q : tSmeStruct) : tSmeStruct :=
  {| sme_started := sme_started q; smeCmdFreeList := smeCmdFreeList q; heap_next := heap_next q; smeCmdActiveList :=
     smeCmdActiveList q; smeCmdPendingList := smeCmdPendingList q; smeScanCmdActiveList := smeScanCmdActiveList q;
     smeScanCmdPendingList := smeScanCmdPendingList q; roamCmdPendingList := v |}.
Definition set_sme (v : tSmeStruct) (s : ST) : ST :=
  {| sme := v; staPsEnabled := staPsEnabled s; pmc := pmc s; roamSession := roamSession s; fScanOffload :=
     fScanOffload s; fP2pListenOffload := fP2pListenOffload s; fDropScanCmd := fDropScanCmd s; mon_enable :=
     mon_enable s; pmm := pmm s; gLimProcessDefdMsgs := gLimProcessDefdMsgs s; to_pe := to_pe s; to_fw := to_fw
     s; to_sme := to_sme s; called := called s; luck := luck s |}.
Definition set_staPsEnabled (v : bool) (s : ST) : ST :=
  {| sme := sme s; staPsEnabled := v; pmc := pmc s; roamSession := roamSession s; fScanOffload := fScanOffload
     s; fP2pListenOffload := fP2pListenOffload s; fDropScanCmd := fDropScanCmd s; mon_enable := mon_enable s;
     pmm := pmm s; gLimProcessDefdMsgs := gLimProcessDefdMsgs s; to_pe := to_pe s; to_fw := to_fw s; to_sme :=
     to_sme s; called := called s; luck := luck s |}.
Definition set_pmc (v : list tPsOffloadPerSessionInfo) (s : ST) : ST :=
  {| sme := sme s; staPsEnabled := staPsEnabled s; pmc := v; roamSession := roamSession s; fScanOffload :=
     fScanOffload s; fP2pListenOffload := fP2pListenOffload s; fDropScanCmd := fDropScanCmd s; mon_enable :=
     mon_enable s; pmm := pmm s; gLimProcessDefdMsgs := gLimProcessDefdMsgs s; to_pe := to_pe s; to_fw := to_fw
     s; to_sme := to_sme s; called := called s; luck := luck s |}.
Definition set_roamSession (v : list tCsrRoamSession) (s : ST) : ST :=
  {| sme := sme s; staPsEnabled := staPsEnabled s; pmc := pmc s; roamSession := v; fScanOffload := fScanOffload
     s; fP2pListenOffload := fP2pListenOffload s; fDropScanCmd := fDropScanCmd s; mon_enable := mon_enable s;
     pmm := pmm s; gLimProcessDefdMsgs := gLimProcessDefdMsgs s; to_pe := to_pe s; to_fw := to_fw s; to_sme :=
     to_sme s; called := called s; luck := luck s |}.
Definition set_mon_enable (v : bool) (s : ST) : ST :=
  {| sme := sme s; staPsEnabled := staPsEnabled s; pmc := pmc s; roamSession := roamSession s; fScanOffload :=
     fScanOffload s; fP2pListenOffload := fP2pListenOffload s; fDropScanCmd := fDropScanCmd s; mon_enable := v;
     pmm := pmm s; gLimProcessDefdMsgs := gLimProcessDefdMsgs s; to_pe := to_pe s; to_fw := to_fw s; to_sme :=
     to_sme s; called := called s; luck := luck s |}.
Definition set_fDropScanCmd (v : bool) (s : ST) : ST :=
  {| sme := sme s; staPsEnabled := staPsEnabled s; pmc := pmc s; roamSession := roamSession s; fScanOffload :=
     fScanOffload s; fP2pListenOffload := fP2pListenOffload s; fDropScanCmd := v; mon_enable := mon_enable s;
     pmm := pmm s; gLimProcessDefdMsgs := gLimProcessDefdMsgs s; to_pe := to_pe s; to_fw := to_fw s; to_sme :=
     to_sme s; called := called s; luck := luck s |}.
Definition set_pmm (v : list tPmmOffloadInfo) (s : ST) : ST :=
  {| sme := sme s; staPsEnabled := staPsEnabled s; pmc := pmc s; roamSession := roamSession s; fScanOffload :=
     fScanOffload s; fP2pListenOffload := fP2pListenOffload s; fDropScanCmd := fDropScanCmd s; mon_enable :=
     mon_enable s; pmm := v; gLimProcessDefdMsgs := gLimProcessDefdMsgs s; to_pe := to_pe s; to_fw := to_fw s;
     to_sme := to_sme s; called := called s; luck := luck s |}.
Definition set_gLimProcessDefdMsgs (v : bool) (s : ST) : ST :=
  {| sme := sme s; staPsEnabled := staPsEnabled s; pmc := pmc s; roamSession := roamSession s; fScanOffload :=
     fScanOffload s; fP2pListenOffload := fP2pListenOffload s; fDropScanCmd := fDropScanCmd s; mon_enable :=
     mon_enable s; pmm := pmm s; gLimProcessDefdMsgs := v; to_pe := to_pe s; to_fw := to_fw s; to_sme := to_sme
     s; called := called s; luck := luck s |}.
Definition set_to_pe (v : list pe_msg) (s : ST) : ST :=
  {| sme := sme s; staPsEnabled := staPsEnabled s; pmc := pmc s; roamSession := roamSession s; fScanOffload :=
     fScanOffload s; fP2pListenOffload := fP2pListenOffload s; fDropScanCmd := fDropScanCmd s; mon_enable :=
     mon_enable s; pmm := pmm s; gLimProcessDefdMsgs := gLimProcessDefdMsgs s; to_pe := v; to_fw := to_fw s;
     to_sme := to_sme s; called := called s; luck := luck s |}.
Definition set_to_fw (v : list fw_msg) (s : ST) : ST :=
  {| sme := sme s; staPsEnabled := staPsEnabled s; pmc := pmc s; roamSession := roamSession s; fScanOffload :=
     fScanOffload s; fP2pListenOffload := fP2pListenOffload s; fDropScanCmd := fDropScanCmd s; mon_enable :=
     mon_enable s; pmm := pmm s; gLimProcessDefdMsgs := gLimProcessDefdMsgs s; to_pe := to_pe s; to_fw := v;
     to_sme := to_sme s; called := called s; luck := luck s |}.
Definition set_to_sme (v : list sme_msg) (s : ST) : ST :=
  {| sme := sme s; staPsEnabled := staPsEnabled s; pmc := pmc s; roamSession := roamSession s; fScanOffload :=
     fScanOffload s; fP2pListenOffload := fP2pListenOffload s; fDropScanCmd := fDropScanCmd s; mon_enable :=
     mon_enable s; pmm := pmm s; gLimProcessDefdMsgs := gLimProcessDefdMsgs s; to_pe := to_pe s; to_fw := to_fw
     s; to_sme := v; called := called s; luck := luck s |}.
Definition set_called (v : list event) (s : ST) : ST :=
  {| sme := sme s; staPsEnabled := staPsEnabled s; pmc := pmc s; roamSession := roamSession s; fScanOffload :=
     fScanOffload s; fP2pListenOffload := fP2pListenOffload s; fDropScanCmd := fDropScanCmd s; mon_enable :=
     mon_enable s; pmm := pmm s; gLimProcessDefdMsgs := gLimProcessDefdMsgs s; to_pe := to_pe s; to_fw := to_fw
     s; to_sme := to_sme s; called := v; luck := luck s |}.
Definition set_luck (v : list bool) (s : ST) : ST :=
  {| sme := sme s; staPsEnabled := staPsEnabled s; pmc := pmc s; roamSession := roamSession s; fScanOffload :=
     fScanOffload s; fP2pListenOffload := fP2pListenOffload s; fDropScanCmd := fDropScanCmd s; mon_enable :=
     mon_enable s; pmm := pmm s; gLimProcessDefdMsgs := gLimProcessDefdMsgs s; to_pe := to_pe s; to_fw := to_fw
     s; to_sme := to_sme s; called := called s; luck := v |}.

(** ** Access *)

Definition session (i : Z) : M ST tPsOffloadPerSessionInfo := s <- mget ;; oget (aget (pmc s) i).
Definition upd_session (i : Z) (f : tPsOffloadPerSessionInfo -> tPsOffloadPerSessionInfo) : M ST unit :=
  s <- mget ;; p <- oget (aget (pmc s) i) ;; l <- oget (aset (pmc s) i (f p)) ;; modify (set_pmc l).
Definition roam_session (i : Z) : M ST tCsrRoamSession := s <- mget ;; oget (aget (roamSession s) i).
Definition upd_sme (f : tSmeStruct -> tSmeStruct) : M ST unit := modify (fun s => set_sme (f (sme s)) s).
Definition call (e : event) : M ST unit := modify (fun s => set_called (called s ++ [e]) s).
(** The answer to a question *)
Definition ask : M ST bool :=
  s <- mget ;;
  match luck s with
  | [] => mreturn true
  | b :: l => modify (set_luck l) ;; mreturn b
  end.

Definition CSR_IS_SESSION_VALID (i : Z) : M ST bool :=
  if i <? CSR_ROAM_SESSION_MAX then r <- roam_session i ;; mreturn (sessionActive r) else mreturn false.
Definition csrIsConnStateConnectedInfra (i : Z) : M ST bool := r <- roam_session i ;; mreturn (connectedInfra r).
Definition CSR_IS_WAIT_FOR_KEY (i : Z) : M ST bool := r <- roam_session i ;; mreturn (waitForKey r).

(** ** The timer, [vos_timer_start] and [vos_timer_stop] *)

Inductive VOS_STATUS := VOS_STATUS_SUCCESS | VOS_STATUS_E_INVAL | VOS_STATUS_E_ALREADY.
#[global] Instance VOS_STATUS_eqdec : EqDecision VOS_STATUS.
Proof. solve_decision. Defined.

Definition vos_timer_start (i expirationTime : Z) : M ST VOS_STATUS :=
  if expirationTime <? 10 then mreturn VOS_STATUS_E_INVAL
  else
    p <- session i ;;
    match autoPsEnableTimer p with
    | Some _ => mreturn VOS_STATUS_E_ALREADY
    | None => upd_session i (set_autoPsEnableTimer (Some expirationTime)) ;; mreturn VOS_STATUS_SUCCESS
    end.
Definition vos_timer_stop (i : Z) : M ST unit := upd_session i (set_autoPsEnableTimer None).

Definition pmcOffloadStartAutoStaPsTimer (sessionId timerValue : Z) : M ST eHalStatus :=
  vosStatus <- vos_timer_start sessionId timerValue ;;
  mreturn (if bool_decide (vosStatus = VOS_STATUS_E_INVAL) then eHAL_STATUS_FAILURE else eHAL_STATUS_SUCCESS).
Definition pmcOffloadStopAutoStaPsTimer (sessionId : Z) : M ST unit :=
  p <- session sessionId ;;
  if bool_decide (is_Some (autoPsEnableTimer p)) then vos_timer_stop sessionId else mreturn tt.

(** ** Command buffers *)

Definition smeGetCommandBuffer : M ST (option Z) :=
  s <- mget ;;
  match smeCmdFreeList (sme s) with
  | [] => mreturn None
  | i :: l => upd_sme (set_free l) ;; mreturn (Some i)
  end.
Definition smeReleaseCommand (c : tSmeCmd) : M ST unit :=
  upd_sme (fun q => set_free (smeCmdFreeList q ++ [cmd_id c]) q).
(** A command that was allocated specially is freed. *)
Definition pmcReleaseCommand (c : tSmeCmd) : M ST unit :=
  if fReleaseWhenDone c then mreturn tt else smeReleaseCommand c.
Definition PMC_IS_COMMAND_CANNOT_FAIL (c : eSmeCommandType) : bool :=
  match c with eSmeCommandExitBmps | eSmeCommandExitUapsd | eSmeCommandExitWowl => true | _ => false end.

Definition pmcPrepareCommand (sessionId : Z) (cmdType : eSmeCommandType) : M ST (eHalStatus * option tSmeCmd) :=
  b <- smeGetCommandBuffer ;;
  match b with
  | Some i =>
      let c := {| cmd_id := i; command := cmdType; cmd_session := sessionId; fReleaseWhenDone := false |} in
      if is_pmc cmdType then mreturn (eHAL_STATUS_SUCCESS, Some c)
      else pmcReleaseCommand c ;; mreturn (eHAL_STATUS_INVALID_PARAMETER, None)
  | None =>
      if PMC_IS_COMMAND_CANNOT_FAIL cmdType then
        ok <- ask ;;
        if (ok : bool) then
          s <- mget ;;
          let i := heap_next (sme s) in
          upd_sme (set_heap (i + 1)) ;;
          mreturn (eHAL_STATUS_SUCCESS,
            Some {| cmd_id := i; command := cmdType; cmd_session := sessionId; fReleaseWhenDone := true |})
        else mreturn (eHAL_STATUS_FAILURE, None)
      else mreturn (eHAL_STATUS_RESOURCES, None)
  end.

(** The message is allocated and sent. *)
Definition pmcSendMessage (m : pe_msg) : M ST eHalStatus :=
  ok <- ask ;;
  if (ok : bool) then modify (fun s => set_to_pe (to_pe s ++ [m]) s) ;; mreturn eHAL_STATUS_SUCCESS
  else mreturn eHAL_STATUS_FAILURE.

(** [csrLLRemoveEntry] of a list of commands *)
Definition without_cmd (c : tSmeCmd) (l : list tSmeCmd) : list tSmeCmd := filter (fun x => cmd_id x <> cmd_id c) l.

(** ** Power save of a session.  [kick] is [smeProcessPendingQueue], which is defined below. *)

Section Kick.
Variable kick : M ST unit.

Definition smePushCommand (c : tSmeCmd) (fHighPriority : bool) : M ST unit :=
  s <- mget ;;
  if negb (sme_started (sme s)) then mreturn tt
  else
    upd_sme (fun q => set_pending (if fHighPriority then c :: smeCmdPendingList q else smeCmdPendingList q ++ [c]) q) ;;
    kick.

Definition pmcIssueCommand (sessionId : Z) (cmdType : eSmeCommandType) (fPutToListHead : bool) : M ST eHalStatus :=
  r <- pmcPrepareCommand sessionId cmdType ;;
  match r with
  | (eHAL_STATUS_SUCCESS, Some c) => smePushCommand c fPutToListHead ;; mreturn eHAL_STATUS_SUCCESS
  | (status, Some c) => pmcReleaseCommand c ;; mreturn status
  | (status, None) => mreturn status
  end.

(** *** Callbacks *)

Definition csrFullPowerOffloadCallback : M ST unit :=
  s <- mget ;;
  miter (S (length (roamCmdPendingList (sme s)))) (fun _ : unit =>
    s <- mget ;;
    match roamCmdPendingList (sme s) with
    | [] => mreturn (inr tt)
    | c :: l => upd_sme (set_roam l) ;; smePushCommand c false ;; mreturn (inl tt)
    end) tt.

Definition pmcOffloadDoFullPowerCallbacks (sessionId : Z) (status : eHalStatus) : M ST unit :=
  p <- session sessionId ;;
  miter (S (length (fullPowerCbList p))) (fun _ : unit =>
    p <- session sessionId ;;
    match fullPowerCbList p with
    | [] => mreturn (inr tt)
    | (r, ctx) :: l =>
        upd_session sessionId (set_fullPowerCbList l) ;;
        match r with
        | csrFullPowerOffload => csrFullPowerOffloadCallback
        | Full_power_client n => call (Full_power n ctx sessionId status)
        end ;;
        mreturn (inl tt)
    end) tt.

Definition pmcOffloadDoDeviceStateUpdateCallbacks (sessionId : Z) (state : tPmcState) : M ST unit :=
  p <- session sessionId ;;
  modify (fun s => set_called (called s ++
    map (fun '(n, ctx) => State_change n ctx sessionId state) (deviceStateUpdateIndList p)) s).

Definition pmcOffloadDoStartUapsdCallbacks (sessionId : Z) (status : eHalStatus) : M ST unit :=
  p <- session sessionId ;;
  upd_session sessionId (set_uapsdCbList []) ;;
  modify (fun s => set_called (called s ++
    map (fun '(n, ctx) => Uapsd_start n ctx sessionId status) (uapsdCbList p)) s).

(** The check routines are asked in order until one says no; entries without a routine are
    passed over. *)
Fixpoint check_routines (l : list (option Z * Z)) : M ST bool :=
  match l with
  | [] => mreturn true
  | (None, _) :: l => check_routines l
  | (Some _, _) :: l => ok <- ask ;; if (ok : bool) then check_routines l else mreturn false
  end.
Definition pmcOffloadPowerSaveCheck (sessionId : Z) : M ST bool :=
  p <- session sessionId ;; check_routines (pwrsaveCheckList p).

Definition pmcOffloadEnableStaPsCheck (sessionId : Z) : M ST eHalStatus :=
  s <- mget ;;
  if negb (staPsEnabled s) then mreturn eHAL_STATUS_PMC_DISABLED else
  infra <- csrIsConnStateConnectedInfra sessionId ;;
  if negb infra then mreturn eHAL_STATUS_FAILURE else
  p <- session sessionId ;;
  if bool_decide (pmcState p <> FULL_POWER) then mreturn eHAL_STATUS_FAILURE else
  if isTdlsPowerSaveProhibited p then mreturn eHAL_STATUS_FAILURE else
  ok <- pmcOffloadPowerSaveCheck sessionId ;;
  mreturn (if (ok : bool) then eHAL_STATUS_SUCCESS else eHAL_STATUS_PMC_NOT_NOW).

(** *** Requests become commands *)

Definition pmcOffloadQueueStartUapsdRequest (sessionId : Z) : M ST eHalStatus :=
  p <- session sessionId ;;
  match pmcState p with
  | FULL_POWER | REQUEST_BMPS => upd_session sessionId (set_uapsdSessionRequired true) ;; mreturn eHAL_STATUS_PMC_PENDING
  | BMPS =>
      if uapsdSessionRequired p then mreturn eHAL_STATUS_PMC_PENDING
      else
        status <- pmcIssueCommand sessionId eSmeCommandEnterUapsd false ;;
        mreturn (if bool_decide (status = eHAL_STATUS_SUCCESS) then eHAL_STATUS_PMC_PENDING else eHAL_STATUS_FAILURE)
  | _ => mreturn eHAL_STATUS_SUCCESS
  end.

Definition pmcOffloadQueueStopUapsdRequest (sessionId : Z) : M ST eHalStatus :=
  p <- session sessionId ;;
  match pmcState p with
  | REQUEST_STOP_UAPSD => mreturn eHAL_STATUS_SUCCESS
  | UAPSD =>
      status <- pmcIssueCommand sessionId eSmeCommandExitUapsd false ;;
      mreturn (if bool_decide (status = eHAL_STATUS_SUCCESS) then eHAL_STATUS_SUCCESS else eHAL_STATUS_FAILURE)
  | _ => upd_session sessionId (set_uapsdSessionRequired false) ;; mreturn eHAL_STATUS_SUCCESS
  end.

Definition pmcOffloadQueueRequestFullPower (sessionId : Z) : M ST eHalStatus :=
  p <- session sessionId ;;
  if bool_decide (pmcState p = FULL_POWER) then mreturn eHAL_STATUS_SUCCESS
  else
    status <- pmcIssueCommand sessionId eSmeCommandExitBmps false ;;
    if bool_decide (status = eHAL_STATUS_SUCCESS) then
      upd_session sessionId (set_fullPowerReqPend true) ;; mreturn eHAL_STATUS_PMC_PENDING
    else upd_session sessionId (set_fullPowerReqPend false) ;; mreturn eHAL_STATUS_FAILURE.

(** The timer is started again when the command could not be issued, or a module voted
    against power save. *)
Definition retry_later (sessionId : Z) (status : eHalStatus) : M ST eHalStatus :=
  p <- session sessionId ;;
  vosStatus <- vos_timer_start sessionId (autoPsEntryTimerPeriod p) ;;
  mreturn (if bool_decide (vosStatus = VOS_STATUS_E_INVAL) then eHAL_STATUS_FAILURE else status).
Definition pmcOffloadEnableStaPsHandler (sessionId : Z) : M ST eHalStatus :=
  status <- pmcOffloadEnableStaPsCheck sessionId ;;
  match status with
  | eHAL_STATUS_SUCCESS =>
      r <- pmcIssueCommand sessionId eSmeCommandEnterBmps false ;;
      if bool_decide (r = eHAL_STATUS_SUCCESS) then mreturn status else retry_later sessionId status
  | eHAL_STATUS_PMC_NOT_NOW => retry_later sessionId status
  | _ => mreturn status
  end.

Definition pmcOffloadDisableStaPsHandler (sessionId : Z) : M ST eHalStatus :=
  upd_session sessionId (set_configStaPsEnabled false) ;;
  infra <- csrIsConnStateConnectedInfra sessionId ;;
  if negb infra then pmcOffloadStopAutoStaPsTimer sessionId ;; mreturn eHAL_STATUS_SUCCESS
  else
    p <- session sessionId ;;
    match pmcState p with
    | REQUEST_FULL_POWER | FULL_POWER => pmcOffloadStopAutoStaPsTimer sessionId ;; mreturn eHAL_STATUS_SUCCESS
    | REQUEST_BMPS | BMPS | REQUEST_START_UAPSD | REQUEST_STOP_UAPSD | UAPSD =>
        status <- pmcOffloadQueueRequestFullPower sessionId ;;
        mreturn (if bool_decide (status = eHAL_STATUS_FAILURE) then eHAL_STATUS_FAILURE else eHAL_STATUS_SUCCESS)
    | _ => mreturn eHAL_STATUS_FAILURE
    end.

(** [vos_linux_timer_callback] stops the timer before the routine is called. *)
Definition pmcOffloadAutoPsEntryTimerExpired (sessionId : Z) : M ST unit :=
  _ <- pmcOffloadEnableStaPsHandler sessionId ;; mreturn tt.

(** A full power request that is pending is queued again; if that fails its callbacks are
    called. *)
Definition queue_pending_full_power (sessionId : Z) : M ST unit :=
  status <- pmcOffloadQueueRequestFullPower sessionId ;;
  if bool_decide (status = eHAL_STATUS_FAILURE) then pmcOffloadDoFullPowerCallbacks sessionId eHAL_STATUS_FAILURE
  else mreturn tt.

Definition pmcOffloadEnterPowersaveState (sessionId : Z) : M ST unit :=
  p <- session sessionId ;;
  (if bool_decide (uapsdStatus p = PMC_UAPSD_ENABLE_PENDING) then
     upd_session sessionId (fun p => set_uapsdStatus PMC_UAPSD_ENABLED (set_pmcState UAPSD p)) ;;
     pmcOffloadDoStartUapsdCallbacks sessionId eHAL_STATUS_SUCCESS
   else
     upd_session sessionId (fun p =>
       let p := set_uapsdStatus PMC_UAPSD_DISABLED p in
       set_pmcState BMPS (if bool_decide (pmcState p = UAPSD) then set_uapsdSessionRequired false p else p))) ;;
  p <- session sessionId ;;
  pmcOffloadDoDeviceStateUpdateCallbacks sessionId (pmcState p) ;;
  p <- session sessionId ;;
  if fullPowerReqPend p then queue_pending_full_power sessionId
  else if bool_decide (pmcState p <> UAPSD) && uapsdSessionRequired p then
    status <- pmcOffloadQueueStartUapsdRequest sessionId ;;
    if bool_decide (status = eHAL_STATUS_FAILURE) then
      upd_session sessionId (set_uapsdSessionRequired false) ;;
      pmcOffloadDoStartUapsdCallbacks sessionId eHAL_STATUS_FAILURE
    else mreturn tt
  else mreturn tt.

Definition pmcOffloadExitPowersaveState (sessionId : Z) : M ST unit :=
  upd_session sessionId (fun p =>
    let p := set_fullPowerReqPend false (set_pmcState FULL_POWER p) in
    if bool_decide (uapsdStatus p = PMC_UAPSD_DISABLE_PENDING) then set_uapsdStatus PMC_UAPSD_DISABLED p else p) ;;
  p <- session sessionId ;;
  pmcOffloadDoDeviceStateUpdateCallbacks sessionId (pmcState p) ;;
  pmcOffloadDoFullPowerCallbacks sessionId eHAL_STATUS_SUCCESS ;;
  p <- session sessionId ;;
  if configStaPsEnabled p || configDefStaPsEnabled p then
    s <- mget ;;
    if mon_enable s then mreturn tt
    else _ <- pmcOffloadStartAutoStaPsTimer sessionId (autoPsEntryTimerPeriod p) ;; mreturn tt
  else mreturn tt.

Definition pmcOffloadEnterUapsdState (sessionId : Z) : M ST eHalStatus :=
  p <- session sessionId ;;
  if bool_decide (pmcState p <> REQUEST_START_UAPSD) then mreturn eHAL_STATUS_FAILURE
  else
    upd_session sessionId (set_pmcState UAPSD) ;;
    pmcOffloadDoDeviceStateUpdateCallbacks sessionId UAPSD ;;
    pmcOffloadDoStartUapsdCallbacks sessionId eHAL_STATUS_SUCCESS ;;
    p <- session sessionId ;;
    (if fullPowerReqPend p then queue_pending_full_power sessionId else mreturn tt) ;;
    mreturn eHAL_STATUS_SUCCESS.

Definition pmcOffloadExitBmpsIndHandler (sess : Z) (ok : bool) : M ST unit :=
  if ok then _ <- pmcOffloadQueueRequestFullPower sess ;; mreturn tt else mreturn tt.

(** *** Commands are executed *)

(** Whether the command is to be removed from the list of active ones.  [pMac->pmc], the
    record of power save without the firmware's help, is not [pmc]. *)
Definition pmcOffloadProcessCommand (c : tSmeCmd) : M ST bool :=
  let sessionId := cmd_session c in
  valid <- CSR_IS_SESSION_VALID sessionId ;;
  if negb valid then mreturn true else
  p <- session sessionId ;;
  match command c with
  | eSmeCommandEnterBmps =>
      if bool_decide (pmcState p = FULL_POWER) then
        status <- pmcOffloadEnableStaPsCheck sessionId ;;
        status <- (if bool_decide (status = eHAL_STATUS_SUCCESS) then
            p <- session sessionId ;;
            upd_session sessionId (set_uapsdStatus
              (if uapsdSessionRequired p then PMC_UAPSD_ENABLE_PENDING else PMC_UAPSD_DISABLED)) ;;
            pmcSendMessage (eWNI_PMC_REQ R_ENTER_BMPS sessionId (uapsdSessionRequired p))
          else mreturn status) ;;
        if bool_decide (status = eHAL_STATUS_SUCCESS) then
          upd_session sessionId (set_pmcState REQUEST_BMPS) ;; mreturn false
        else pmcOffloadExitPowersaveState sessionId ;; mreturn true
      else mreturn true
  | eSmeCommandExitBmps =>
      if bool_decide (pmcState p = BMPS) || bool_decide (pmcState p = UAPSD) then
        (if bool_decide (pmcState p = UAPSD) then upd_session sessionId (set_uapsdStatus PMC_UAPSD_DISABLE_PENDING)
         else mreturn tt) ;;
        status <- pmcSendMessage (eWNI_PMC_REQ R_EXIT_BMPS sessionId (bool_decide (pmcState p = UAPSD))) ;;
        if bool_decide (status = eHAL_STATUS_SUCCESS) then
          upd_session sessionId (set_pmcState REQUEST_FULL_POWER) ;; mreturn false
        else pmcOffloadDoFullPowerCallbacks sessionId eHAL_STATUS_FAILURE ;; mreturn true
      else mreturn true
  | eSmeCommandEnterUapsd =>
      if bool_decide (pmcState p = BMPS) then
        upd_session sessionId (set_uapsdSessionRequired true) ;;
        status <- pmcSendMessage (eWNI_PMC_REQ R_ENTER_UAPSD sessionId false) ;;
        if bool_decide (status = eHAL_STATUS_SUCCESS) then
          upd_session sessionId (set_pmcState REQUEST_START_UAPSD) ;; mreturn false
        else pmcOffloadDoStartUapsdCallbacks sessionId eHAL_STATUS_FAILURE ;; mreturn true
      else mreturn true
  | eSmeCommandExitUapsd =>
      if bool_decide (pmcState p = UAPSD) then
        status <- pmcSendMessage (eWNI_PMC_REQ R_EXIT_UAPSD sessionId false) ;;
        if bool_decide (status = eHAL_STATUS_SUCCESS) then
          upd_session sessionId (set_pmcState REQUEST_STOP_UAPSD) ;; mreturn false
        else pmcOffloadEnterPowersaveState sessionId ;; mreturn true
      else mreturn true
  | eSmeCommandEnterWowl => _ <- pmcSendMessage (eWNI_PMC_WOWL_REQ true) ;; mreturn true
  | eSmeCommandExitWowl => _ <- pmcSendMessage (eWNI_PMC_WOWL_REQ false) ;; mreturn true
  | _ => mreturn true
  end.

(** *** The answers of the protocol engine *)

(** What is done for an answer to the active command [c], and whether the command is removed.
    Of the answers that are no answer to a request of this file the active command is
    removed. *)
Definition handle_response (m : sme_msg) (c : tSmeCmd) : M ST bool :=
  let i := cmd_session c in
  match m with
  | eWNI_PMC_RSP R_ENTER_BMPS ok =>
      if bool_decide (command c <> eSmeCommandEnterBmps) then mreturn false
      else (if ok then pmcOffloadEnterPowersaveState i else pmcOffloadExitPowersaveState i) ;; mreturn true
  | eWNI_PMC_RSP R_EXIT_BMPS ok =>
      if bool_decide (command c <> eSmeCommandExitBmps) then mreturn false
      else
        (if ok then pmcOffloadExitPowersaveState i
         else
           upd_session i (set_fullPowerReqPend false) ;;
           pmcOffloadDoFullPowerCallbacks i eHAL_STATUS_FAILURE ;;
           pmcOffloadEnterPowersaveState i) ;;
        mreturn true
  | eWNI_PMC_RSP R_ENTER_UAPSD ok =>
      if bool_decide (command c <> eSmeCommandEnterUapsd) then mreturn false
      else
        p <- session i ;;
        if bool_decide (pmcState p <> REQUEST_START_UAPSD) then mreturn true
        else
          (if ok then _ <- pmcOffloadEnterUapsdState i ;; mreturn tt
           else
             upd_session i (set_uapsdSessionRequired false) ;;
             pmcOffloadDoStartUapsdCallbacks i eHAL_STATUS_FAILURE ;;
             pmcOffloadEnterPowersaveState i) ;;
          mreturn true
  | eWNI_PMC_RSP R_EXIT_UAPSD _ =>
      if bool_decide (command c <> eSmeCommandExitUapsd) then mreturn false
      else pmcOffloadEnterPowersaveState i ;; mreturn true
  | _ => mreturn true
  end.

Definition pmcOffloadProcessResponse (m : sme_msg) : M ST unit :=
  s <- mget ;;
  match smeCmdActiveList (sme s) with
  | [] => mreturn tt
  | c :: _ =>
      fRemoveCommand <- handle_response m c ;;
      if (fRemoveCommand : bool) then
        upd_sme (fun q => set_active (without_cmd c (smeCmdActiveList q)) q) ;;
        pmcReleaseCommand c ;;
        kick
      else mreturn tt
  end.

Definition pmcOffloadMessageProcessor (m : sme_msg) : M ST unit :=
  match m with
  | eWNI_PMC_EXIT_BMPS_IND sess ok => pmcOffloadExitBmpsIndHandler sess ok
  | HEARTBEAT_TIMEOUT _ => mreturn tt
  | _ => pmcOffloadProcessResponse m
  end.

(** *** Requests of the other modules *)

Definition PmcOffloadEnableStaModePowerSave (sessionId : Z) : M ST eHalStatus :=
  p <- session sessionId ;; s <- mget ;;
  if negb (staPsEnabled s) then mreturn eHAL_STATUS_FAILURE
  else if negb (configStaPsEnabled p) then
    status <- pmcOffloadEnableStaPsHandler sessionId ;;
    match status with
    | eHAL_STATUS_SUCCESS | eHAL_STATUS_PMC_NOT_NOW =>
        upd_session sessionId (set_configStaPsEnabled true) ;; mreturn eHAL_STATUS_SUCCESS
    | _ => mreturn eHAL_STATUS_FAILURE
    end
  else mreturn eHAL_STATUS_SUCCESS.

Definition PmcOffloadDisableStaModePowerSave (cb : option (Z * Z)) (sessionId : Z) : M ST eHalStatus :=
  p <- session sessionId ;; s <- mget ;;
  if configStaPsEnabled p || mon_enable s then
    have_mem <- (match cb with
      | Some (n, ctx) =>
          ok <- ask ;;
          if (ok : bool) then
            upd_session sessionId (fun p => set_fullPowerCbList (fullPowerCbList p ++ [(Full_power_client n, ctx)]) p) ;;
            mreturn true
          else mreturn false
      | None => mreturn true
      end) ;;
    if negb have_mem then mreturn eHAL_STATUS_FAILED_ALLOC else
    status <- pmcOffloadDisableStaPsHandler sessionId ;;
    if bool_decide (status <> eHAL_STATUS_SUCCESS) && bool_decide (is_Some cb) then
      p <- session sessionId ;;
      massert (negb (bool_decide (fullPowerCbList p = []))) ;;
      upd_session sessionId (fun p => set_fullPowerCbList (removelast (fullPowerCbList p)) p) ;;
      mreturn eHAL_STATUS_FAILURE
    else mreturn eHAL_STATUS_PMC_PENDING
  else
    pmcOffloadStopAutoStaPsTimer sessionId ;;
    upd_session sessionId (set_configDefStaPsEnabled false) ;;
    mreturn eHAL_STATUS_SUCCESS.

Definition pmcOffloadRequestFullPower (sessionId : Z) (cb : option (full_power_routine * Z)) : M ST eHalStatus :=
  p <- session sessionId ;;
  if bool_decide (pmcState p = FULL_POWER) then mreturn eHAL_STATUS_SUCCESS
  else
    queued <- (if fullPowerReqPend p then mreturn true
      else status <- pmcOffloadQueueRequestFullPower sessionId ;; mreturn (bool_decide (status <> eHAL_STATUS_FAILURE))) ;;
    if negb queued then mreturn eHAL_STATUS_FAILURE
    else
      match cb with
      | None => mreturn eHAL_STATUS_PMC_PENDING
      | Some e =>
          ok <- ask ;;
          if (ok : bool) then
            upd_session sessionId (fun p => set_fullPowerCbList (fullPowerCbList p ++ [e]) p) ;;
            mreturn eHAL_STATUS_PMC_PENDING
          else mreturn eHAL_STATUS_FAILURE
      end.

Definition pmcOffloadStartUapsd (sessionId : Z) (cb : option (Z * Z)) : M ST eHalStatus :=
  s <- mget ;;
  if negb (staPsEnabled s) then mreturn eHAL_STATUS_PMC_DISABLED else
  infra <- csrIsConnStateConnectedInfra sessionId ;;
  if negb infra then mreturn eHAL_STATUS_FAILURE else
  status <- pmcOffloadQueueStartUapsdRequest sessionId ;;
  if bool_decide (status <> eHAL_STATUS_PMC_PENDING) then mreturn status
  else
    match cb with
    | None => mreturn status
    | Some e =>
        ok <- ask ;;
        if (ok : bool) then upd_session sessionId (fun p => set_uapsdCbList (uapsdCbList p ++ [e]) p) ;; mreturn status
        else mreturn eHAL_STATUS_FAILURE
    end.

Definition pmcOffloadStopUapsd (sessionId : Z) : M ST eHalStatus :=
  s <- mget ;;
  if negb (staPsEnabled s) then mreturn eHAL_STATUS_PMC_DISABLED else
  infra <- csrIsConnStateConnectedInfra sessionId ;;
  if negb infra then mreturn eHAL_STATUS_FAILURE else pmcOffloadQueueStopUapsdRequest sessionId.

Definition PmcOffloadEnableDeferredStaModePowerSave (sessionId : Z) (isReassoc : bool) : M ST eHalStatus :=
  s <- mget ;;
  if negb (staPsEnabled s) then mreturn eHAL_STATUS_FAILURE
  else
    status <- pmcOffloadStartAutoStaPsTimer sessionId
      (if isReassoc then AUTO_PS_ENTRY_TIMER_DEFAULT_VALUE else AUTO_DEFERRED_PS_ENTRY_TIMER_DEFAULT_VALUE) ;;
    (if bool_decide (status = eHAL_STATUS_SUCCESS) then upd_session sessionId (set_configDefStaPsEnabled true)
     else mreturn tt) ;;
    mreturn status.
Definition PmcOffloadDisableDeferredStaModePowerSave (sessionId : Z) : M ST eHalStatus :=
  pmcOffloadStopAutoStaPsTimer sessionId ;;
  upd_session sessionId (set_configDefStaPsEnabled false) ;; mreturn eHAL_STATUS_SUCCESS.

Definition pmcOffloadSetTdlsProhibitBmpsStatus (sessionId : Z) (v : bool) : M ST eHalStatus :=
  upd_session sessionId (set_isTdlsPowerSaveProhibited v) ;; mreturn eHAL_STATUS_SUCCESS.

Definition pmcOffloadCleanup (sessionId : Z) : M ST eHalStatus :=
  upd_session sessionId (fun p => set_configDefStaPsEnabled false (set_configStaPsEnabled false (set_uapsdSessionRequired false p))) ;;
  pmcOffloadStopAutoStaPsTimer sessionId ;;
  pmcOffloadDoStartUapsdCallbacks sessionId eHAL_STATUS_FAILURE ;;
  mreturn eHAL_STATUS_SUCCESS.

(** *** Start and stop *)

(** What both start and stop set *)
Definition reset_session (st : tPmcState) (p : tPsOffloadPerSessionInfo) : tPsOffloadPerSessionInfo :=
  {| configStaPsEnabled := false; configDefStaPsEnabled := false; uapsdStatus := uapsdStatus p; uapsdSessionRequired := false;
     pmcState := st; autoPsEnableTimer := autoPsEnableTimer p; autoPsEntryTimerPeriod := AUTO_PS_ENTRY_TIMER_DEFAULT_VALUE;
     fullPowerReqPend := false; pwrsaveCheckList := pwrsaveCheckList p;
     deviceStateUpdateIndList := deviceStateUpdateIndList p; fullPowerCbList := fullPowerCbList p;
     uapsdCbList := uapsdCbList p; isTdlsPowerSaveProhibited := false; UapsdEnabled := UapsdEnabled p |}.
Definition pmcOffloadStartPerSession (sessionId : Z) : M ST eHalStatus :=
  upd_session sessionId (reset_session FULL_POWER) ;; mreturn eHAL_STATUS_SUCCESS.
Definition pmcOffloadStopPerSession (sessionId : Z) : M ST eHalStatus :=
  upd_session sessionId (reset_session STOPPED) ;;
  pmcOffloadStopAutoStaPsTimer sessionId ;;
  pmcOffloadDoFullPowerCallbacks sessionId eHAL_STATUS_FAILURE ;;
  pmcOffloadDoStartUapsdCallbacks sessionId eHAL_STATUS_FAILURE ;;
  mreturn eHAL_STATUS_SUCCESS.
Definition pmcOffloadStart : M ST eHalStatus :=
  mfor (seqZ 0 CSR_ROAM_SESSION_MAX) (fun i => _ <- pmcOffloadStartPerSession i ;; mreturn tt) ;; mreturn eHAL_STATUS_SUCCESS.
Definition pmcOffloadStop : M ST eHalStatus :=
  mfor (seqZ 0 CSR_ROAM_SESSION_MAX) (fun i => _ <- pmcOffloadStopPerSession i ;; mreturn tt) ;; mreturn eHAL_STATUS_SUCCESS.

(** [zeroed] is the record in the memory the driver cleared. *)
Definition pmcOffloadOpenPerSession (sessionId : Z) : M ST eHalStatus :=
  upd_session sessionId (fun p =>
    {| configStaPsEnabled := configStaPsEnabled p; configDefStaPsEnabled := configDefStaPsEnabled p; uapsdStatus := uapsdStatus p;
       uapsdSessionRequired := uapsdSessionRequired p; pmcState := STOPPED; autoPsEnableTimer := None;
       autoPsEntryTimerPeriod := autoPsEntryTimerPeriod p; fullPowerReqPend := fullPowerReqPend p; pwrsaveCheckList := [];
       deviceStateUpdateIndList := []; fullPowerCbList := []; uapsdCbList := [];
       isTdlsPowerSaveProhibited := isTdlsPowerSaveProhibited p; UapsdEnabled := true |}) ;;
  mreturn eHAL_STATUS_SUCCESS.
(** The entries that are left are freed, nobody is called. *)
Definition pmcOffloadClosePerSession (sessionId : Z) : M ST eHalStatus :=
  upd_session sessionId (fun p => set_autoPsEnableTimer None (set_pwrsaveCheckList [] (set_deviceStateUpdateIndList []
    (set_uapsdCbList [] (set_fullPowerCbList [] p))))) ;;
  mreturn eHAL_STATUS_SUCCESS.

(** [pmcOffloadOpenPerSession] fails when the timer could not be made, which is left out. *)
Definition pmcOffloadOpen : M ST eHalStatus :=
  mfor (seqZ 0 CSR_ROAM_SESSION_MAX) (fun i => _ <- pmcOffloadOpenPerSession i ;; mreturn tt) ;; mreturn eHAL_STATUS_SUCCESS.
Definition pmcOffloadClose : M ST eHalStatus :=
  mfor (seqZ 0 CSR_ROAM_SESSION_MAX) (fun i => _ <- pmcOffloadClosePerSession i ;; mreturn tt) ;; mreturn eHAL_STATUS_SUCCESS.

(** *** Registration *)

Definition pmcOffloadRegisterPowerSaveCheck (sessionId : Z) (checkRoutine : option Z) (ctx : Z) : M ST eHalStatus :=
  ok <- ask ;;
  if (ok : bool) then
    upd_session sessionId (fun p => set_pwrsaveCheckList (pwrsaveCheckList p ++ [(checkRoutine, ctx)]) p) ;;
    mreturn eHAL_STATUS_SUCCESS
  else mreturn eHAL_STATUS_FAILURE.
Definition pmcOffloadRegisterDeviceStateUpdateInd (sessionId stateChangeCb ctx : Z) : M ST eHalStatus :=
  ok <- ask ;;
  if (ok : bool) then
    upd_session sessionId (fun p => set_deviceStateUpdateIndList (deviceStateUpdateIndList p ++ [(stateChangeCb, ctx)]) p) ;;
    mreturn eHAL_STATUS_SUCCESS
  else mreturn eHAL_STATUS_FAILURE.
(** The first entry with the routine is removed. *)
Fixpoint remove_first {A B} `{EqDecision A} (r : A) (l : list (A * B)) : option (list (A * B)) :=
  match l with
  | [] => None
  | e :: l => if bool_decide (fst e = r) then Some l else (cons e) <$> remove_first r l
  end.
Definition pmcOffloadDeregisterPowerSaveCheck (sessionId : Z) (checkRoutine : option Z) : M ST eHalStatus :=
  p <- session sessionId ;;
  match remove_first checkRoutine (pwrsaveCheckList p) with
  | Some l => upd_session sessionId (set_pwrsaveCheckList l) ;; mreturn eHAL_STATUS_SUCCESS
  | None => mreturn eHAL_STATUS_FAILURE
  end.
Definition pmcOffloadDeregisterDeviceStateUpdateInd (sessionId stateChangeCb : Z) : M ST eHalStatus :=
  p <- session sessionId ;;
  match remove_first stateChangeCb (deviceStateUpdateIndList p) with
  | Some l => upd_session sessionId (set_deviceStateUpdateIndList l) ;; mreturn eHAL_STATUS_SUCCESS
  | None => mreturn eHAL_STATUS_FAILURE
  end.

Inductive tPmcPowerSavingMode := ePMC_BEACON_MODE_POWER_SAVE | ePMC_UAPSD_MODE_POWER_SAVE | ePMC_OTHER_POWER_SAVE.
Definition pmcOffloadConfigEnablePowerSave (psMode : tPmcPowerSavingMode) : M ST eHalStatus :=
  match psMode with ePMC_BEACON_MODE_POWER_SAVE => modify (set_staPsEnabled true) | _ => mreturn tt end ;; mreturn eHAL_STATUS_SUCCESS.
Definition pmcOffloadConfigDisablePowerSave (psMode : tPmcPowerSavingMode) : M ST eHalStatus :=
  match psMode with ePMC_BEACON_MODE_POWER_SAVE => modify (set_staPsEnabled false) | _ => mreturn tt end ;; mreturn eHAL_STATUS_SUCCESS.
(** [PMC_ABORT] is empty. *)
Definition pmcOffloadIsPowerSaveEnabled (sessionId : Z) (psMode : tPmcPowerSavingMode) : M ST bool :=
  p <- session sessionId ;; s <- mget ;;
  mreturn (match psMode with
    | ePMC_BEACON_MODE_POWER_SAVE => staPsEnabled s
    | ePMC_UAPSD_MODE_POWER_SAVE => UapsdEnabled p
    | ePMC_OTHER_POWER_SAVE => false
    end).
Definition pmcOffloadGetPmcState (sessionId : Z) : M ST tPmcState := p <- session sessionId ;; mreturn (pmcState p).
Definition pmcOffloadIsStaInPowerSave (sessionId : Z) : M ST bool :=
  valid <- CSR_IS_SESSION_VALID sessionId ;;
  if negb valid then mreturn true else
  infra <- csrIsConnStateConnectedInfra sessionId ;;
  if negb infra then mreturn true else
  p <- session sessionId ;; mreturn (bool_decide (pmcState p = BMPS) || bool_decide (pmcState p = UAPSD)).

(** *** The queue of SME *)

(** A command that is not wanted any more is given back.  What the other modules do for theirs
    before is left out. *)
Definition pmcOffloadAbortCommand (c : tSmeCmd) (fStopping : bool) : M ST unit :=
  if is_pmc (command c) then
    (if negb fStopping then
       match command c with
       | eSmeCommandEnterBmps => pmcOffloadExitPowersaveState (cmd_session c)
       | eSmeCommandExitBmps => pmcOffloadEnterPowersaveState (cmd_session c)
       | eSmeCommandEnterUapsd =>
           upd_session (cmd_session c) (set_uapsdSessionRequired false) ;;
           pmcOffloadDoStartUapsdCallbacks (cmd_session c) eHAL_STATUS_FAILURE
       | _ => mreturn tt
       end
     else mreturn tt) ;;
    pmcReleaseCommand c
  else mreturn tt.
Definition smeAbortCommand (c : tSmeCmd) (fStopping : bool) : M ST unit :=
  if is_pmc (command c) then pmcOffloadAbortCommand c fStopping else smeReleaseCommand c.
Definition purgeSmeSessionCmdList (sessionId : Z) : M ST unit :=
  s <- mget ;;
  upd_sme (set_pending (filter (fun c => cmd_session c <> sessionId) (smeCmdPendingList (sme s)))) ;;
  mfor (seqZ 0 (Z.of_nat (length (filter (fun c => cmd_session c = sessionId) (smeCmdPendingList (sme s)))))) (fun k =>
    c <- oget (aget (filter (fun c => cmd_session c = sessionId) (smeCmdPendingList (sme s))) k) ;; smeAbortCommand c true).

Definition csrGetCmdToProcess (l : list tSmeCmd) (sessionId : Z) : option tSmeCmd :=
  head (filter (fun c => cmd_session c <> sessionId) l).

(** Whether full power is needed for a command; [None] when the command is to be dropped. *)
Definition csrPsOffloadIsFullPowerNeeded (c : tSmeCmd) : M ST (option bool) :=
  if negb (is_csr (command c)) then mreturn (Some false) else
  if bool_decide (command c = eSmeCommandScan) then mreturn (Some false) else
  pmcState <- pmcOffloadGetPmcState (cmd_session c) ;;
  mreturn (match pmcState with
    | REQUEST_BMPS | BMPS | REQUEST_START_UAPSD | REQUEST_STOP_UAPSD | UAPSD =>
        Some (match command c with eSmeCommandRoam _ | eSmeCommandWmStatusChange | eSmeCommandTdlsAddPeer => true | _ => false end)
    | STOPPED => None
    | _ => Some false
    end).

Definition smePsOffloadIsFullPowerNeeded (c : tSmeCmd) : M ST (option bool) :=
  status <- csrPsOffloadIsFullPowerNeeded c ;;
  match status with
  | None => mreturn None
  | Some true => mreturn (Some true)
  | Some false =>
      match command c with
      | eSmeCommandAddTs | eSmeCommandDelTs =>
          pmcState <- pmcOffloadGetPmcState (cmd_session c) ;;
          mreturn (Some (match pmcState with
            | REQUEST_BMPS | BMPS | REQUEST_START_UAPSD | REQUEST_STOP_UAPSD | UAPSD => true
            | _ => false
            end))
      | _ => mreturn (Some false)
      end
  end.

(** The commands of the other modules: one that is executed stays active until its module
    removes it, or it fails and is removed. *)
Definition process_other (c : tSmeCmd) : M ST bool :=
  ok <- ask ;;
  if (ok : bool) then mreturn false
  else
    upd_sme (fun q => set_active (without_cmd c (smeCmdActiveList q)) q) ;;
    smeReleaseCommand c ;;
    mreturn true.

Definition smeProcessScanQueue : M ST bool :=
  s <- mget ;;
  match smeScanCmdActiveList (sme s), smeScanCmdPendingList (sme s) with
  | [], c :: _ =>
      if negb (bool_decide (smeCmdActiveList (sme s) = [])) then mreturn false else
      wait <- CSR_IS_WAIT_FOR_KEY (cmd_session c) ;;
      if (wait : bool) then mreturn false
      else
        upd_sme (fun q => set_scan_active [c] (set_scan_pending (without_cmd c (smeScanCmdPendingList q)) q)) ;;
        ok <- ask ;;
        (if (ok : bool) then mreturn tt else upd_sme (set_scan_active []) ;; smeReleaseCommand c) ;;
        mreturn true
  | _, _ => mreturn true
  end.

(** An exit from power save is put in front of a command that needs full power. *)
Definition wake_up (c : tSmeCmd) : M ST bool :=
  r <- pmcPrepareCommand (cmd_session c) eSmeCommandExitBmps ;;
  match r with
  | (eHAL_STATUS_SUCCESS, Some e) =>
      upd_sme (fun q => set_active (e :: smeCmdActiveList q) q) ;;
      fContinue <- pmcOffloadProcessCommand e ;;
      (if (fContinue : bool) then
         upd_sme (fun q => set_active (without_cmd e (smeCmdActiveList q)) q) ;; pmcReleaseCommand e
       else mreturn tt) ;;
      mreturn fContinue
  | _ => mreturn true
  end.

Definition process_entry (c : tSmeCmd) : M ST bool :=
  need <- smePsOffloadIsFullPowerNeeded c ;;
  match need with
  | None =>
      upd_sme (fun q => set_pending (without_cmd c (smeCmdPendingList q)) q) ;;
      smeAbortCommand c false ;; mreturn true
  | Some true => wake_up c
  | Some false =>
      upd_sme (fun q => set_active (c :: smeCmdActiveList q) (set_pending (without_cmd c (smeCmdPendingList q)) q)) ;;
      if is_pmc (command c) then
        fContinue <- pmcOffloadProcessCommand c ;;
        (if (fContinue : bool) then
           upd_sme (fun q => set_active (without_cmd c (smeCmdActiveList q)) q) ;; pmcReleaseCommand c
         else mreturn tt) ;;
        mreturn fContinue
      else process_other c
  end.

(** While keys are awaited only a disconnect and the keys themselves go on; a disconnect is
    put in front of the end of the session. *)
Definition disconnect_first (c : tSmeCmd) : M ST (option tSmeCmd) :=
  if bool_decide (command c = eSmeCommandDelStaSession) then
    b <- smeGetCommandBuffer ;;
    match b with
    | Some i =>
        let d := {| cmd_id := i; command := eSmeCommandRoam true; cmd_session := cmd_session c; fReleaseWhenDone := false |} in
        upd_sme (fun q => set_pending (d :: smeCmdPendingList q) q) ;; mreturn (Some d)
    | None => mreturn None
    end
  else mreturn (if bool_decide (command c = eSmeCommandSetKey) then Some c else None).

Definition smeProcessCommand : M ST bool :=
  s <- mget ;;
  fContinue <- (match smeCmdActiveList (sme s) with
    | _ :: _ => mreturn false
    | [] =>
        match (match smeScanCmdActiveList (sme s) with
               | a :: _ => if fScanOffload s then csrGetCmdToProcess (smeCmdPendingList (sme s)) (cmd_session a)
                           else head (smeCmdPendingList (sme s))
               | [] => head (smeCmdPendingList (sme s))
               end) with
        | None => mreturn false
        | Some c =>
            wait <- CSR_IS_WAIT_FOR_KEY (cmd_session c) ;;
            if wait && negb (bool_decide (command c = eSmeCommandRoam true)) then
              d <- disconnect_first c ;;
              match d with None => mreturn false | Some d => process_entry d end
            else process_entry c
        end
    end) ;;
  if fScanOffload s then b <- smeProcessScanQueue ;; mreturn (fContinue && b) else mreturn fContinue.

(** *** Commands of the other modules *)

Definition csrRequestFullPower (c : tSmeCmd) : M ST eHalStatus :=
  need <- csrPsOffloadIsFullPowerNeeded c ;;
  match need with
  | None => mreturn eHAL_STATUS_FAILURE
  | Some true => pmcOffloadRequestFullPower (cmd_session c) (Some (csrFullPowerOffload, 0))
  | Some false => mreturn eHAL_STATUS_SUCCESS
  end.

Definition queue_roam (c : tSmeCmd) (high : bool) : M ST unit :=
  upd_sme (fun q => set_roam (if high then c :: roamCmdPendingList q else roamCmdPendingList q ++ [c]) q).

(** Scan and listen commands that the firmware carries out have their own queue.  A command that
    needs full power waits for it in [roamCmdPendingList], and so does every command behind it. *)
Definition csrQueueSmeCommand (c : tSmeCmd) (fHighPriority : bool) : M ST eHalStatus :=
  s <- mget ;;
  if negb (sme_started (sme s)) then mreturn eHAL_STATUS_FAILURE else
  if bool_decide (command c = eSmeCommandScan) && fDropScanCmd s then mreturn eHAL_STATUS_CSR_WRONG_STATE else
  if (fScanOffload s && bool_decide (command c = eSmeCommandScan))
     || (fP2pListenOffload s && bool_decide (command c = eSmeCommandRemainOnChannel)) then
    upd_sme (fun q => set_scan_pending (smeScanCmdPendingList q ++ [c]) q) ;; kick ;; mreturn eHAL_STATUS_SUCCESS
  else
    status <- csrRequestFullPower c ;;
    match status with
    | eHAL_STATUS_SUCCESS =>
        s <- mget ;;
        (if bool_decide (roamCmdPendingList (sme s) = []) then smePushCommand c fHighPriority
         else queue_roam c fHighPriority) ;;
        mreturn eHAL_STATUS_SUCCESS
    | eHAL_STATUS_PMC_PENDING => queue_roam c fHighPriority ;; mreturn eHAL_STATUS_SUCCESS
    | _ => mreturn status
    end.

(** Another module queues a command, and releases it when that fails ([p2pRemainOnChannel] does
    not), and removes an active one. *)
Definition queue_command (t : eSmeCommandType) (sess : Z) (high : bool) : M ST eHalStatus :=
  b <- smeGetCommandBuffer ;;
  match b with
  | None => mreturn eHAL_STATUS_RESOURCES
  | Some i =>
      let c := {| cmd_id := i; command := t; cmd_session := sess; fReleaseWhenDone := false |} in
      status <- csrQueueSmeCommand c high ;;
      (if bool_decide (status = eHAL_STATUS_SUCCESS) || bool_decide (t = eSmeCommandRemainOnChannel) then mreturn tt
       else smeReleaseCommand c) ;;
      mreturn status
  end.
Definition complete_command : M ST unit :=
  s <- mget ;;
  match smeCmdActiveList (sme s) with
  | c :: _ =>
      if is_pmc (command c) then mreturn tt
      else upd_sme (fun q => set_active (without_cmd c (smeCmdActiveList q)) q) ;; smeReleaseCommand c ;; kick
  | [] => mreturn tt
  end.
Definition complete_scan : M ST unit :=
  s <- mget ;;
  match smeScanCmdActiveList (sme s) with
  | c :: _ => upd_sme (set_scan_active []) ;; smeReleaseCommand c ;; kick
  | [] => mreturn tt
  end.
End Kick.

(** The loop over [smeProcessCommand].  What is waiting, and what may still be answered no,
    bounds it. *)
Fixpoint process_queue (fuel : nat) : M ST unit :=
  match fuel with
  | O => undefined
  | S f => b <- smeProcessCommand (process_queue f) ;; if (b : bool) then process_queue f else mreturn tt
  end.
Definition work (s : ST) : nat :=
  length (smeCmdPendingList (sme s)) + length (roamCmdPendingList (sme s)) + 2 * length (luck s).
Definition smeProcessPendingQueue : M ST unit := s <- mget ;; process_queue (S (work s)).

(** ** The protocol engine *)

Definition pe_info (i : Z) : M ST tPmmOffloadInfo := s <- mget ;; oget (aget (pmm s) i).
Definition upd_pe (i : Z) (f : tPmmOffloadInfo -> tPmmOffloadInfo) : M ST unit :=
  s <- mget ;; p <- oget (aget (pmm s) i) ;; l <- oget (aset (pmm s) i (f p)) ;; modify (set_pmm l).
Definition set_power_save (v : bool) (p : tPmmOffloadInfo) : tPmmOffloadInfo :=
  {| power_save := v; bcnmiss := bcnmiss p; pe_session := pe_session p |}.
Definition set_bcnmiss (v : bool) (p : tPmmOffloadInfo) : tPmmOffloadInfo :=
  {| power_save := power_save p; bcnmiss := v; pe_session := pe_session p |}.

Definition limSendSmeRsp (m : sme_msg) : M ST unit := modify (fun s => set_to_sme (to_sme s ++ [m]) s).
(** The body is allocated and the message posted; LIM defers its messages until the answer. *)
Definition post_request (m : fw_msg) : M ST bool :=
  have_mem <- ask ;;
  if negb have_mem then mreturn false else
  posted <- ask ;;
  if (posted : bool) then modify (fun s => set_gLimProcessDefdMsgs false (set_to_fw (to_fw s ++ [m]) s)) ;; mreturn true
  else mreturn false.

Definition pmmPsOffloadOpen (i : Z) : M ST eHalStatus :=
  p <- pe_info i ;;
  if pe_session p then upd_pe i (fun p => set_bcnmiss false (set_power_save false p)) ;; mreturn eHAL_STATUS_SUCCESS
  else mreturn eHAL_STATUS_FAILURE.
Definition pmmPsOffloadIsActive (i : Z) : M ST bool := p <- pe_info i ;; mreturn (pe_session p && negb (power_save p)).

Definition pmmOffloadEnterBmpsReqHandler (i : Z) (uapsd : bool) : M ST unit :=
  p <- pe_info i ;;
  if negb (pe_session p) then limSendSmeRsp (eWNI_PMC_RSP R_ENTER_BMPS false)
  else if bcnmiss p then limSendSmeRsp (eWNI_PMC_RSP R_ENTER_BMPS false)
  else
    ok <- post_request (WDA_REQ R_ENTER_BMPS i uapsd) ;;
    if (ok : bool) then mreturn tt else limSendSmeRsp (eWNI_PMC_RSP R_ENTER_BMPS false).
Definition pmmOffloadExitBmpsReqHandler (i : Z) : M ST unit :=
  p <- pe_info i ;;
  if negb (pe_session p) then limSendSmeRsp (eWNI_PMC_RSP R_EXIT_BMPS false)
  else
    ok <- post_request (WDA_REQ R_EXIT_BMPS i false) ;;
    if (ok : bool) then mreturn tt else limSendSmeRsp (eWNI_PMC_RSP R_EXIT_BMPS false).
(** The requests for U-APSD that fail here are not answered. *)
Definition pmmOffloadEnterUapsdReqHandler (i : Z) : M ST unit :=
  p <- pe_info i ;;
  if negb (pe_session p) then mreturn tt else _ <- post_request (WDA_REQ R_ENTER_UAPSD i false) ;; mreturn tt.
Definition pmmOffloadExitUapsdReqHandler (i : Z) : M ST unit :=
  p <- pe_info i ;;
  if negb (pe_session p) then mreturn tt else _ <- post_request (WDA_REQ R_EXIT_UAPSD i false) ;; mreturn tt.

Definition pmmOffloadEnterBmpsRespHandler (i : Z) (ok : bool) : M ST unit :=
  modify (set_gLimProcessDefdMsgs true) ;;
  p <- pe_info i ;;
  if negb (pe_session p) then limSendSmeRsp (eWNI_PMC_RSP R_ENTER_BMPS false)
  else if ok then upd_pe i (set_power_save true) ;; limSendSmeRsp (eWNI_PMC_RSP R_ENTER_BMPS true)
  else limSendSmeRsp (eWNI_PMC_RSP R_ENTER_BMPS false).
Definition pmmOffloadExitBmpsRespHandler (i : Z) (ok : bool) : M ST unit :=
  modify (set_gLimProcessDefdMsgs true) ;;
  p <- pe_info i ;;
  if negb (pe_session p) then limSendSmeRsp (eWNI_PMC_RSP R_EXIT_BMPS false)
  else
    (if ok then upd_pe i (set_power_save false) ;; limSendSmeRsp (eWNI_PMC_RSP R_EXIT_BMPS true)
     else limSendSmeRsp (eWNI_PMC_RSP R_EXIT_BMPS false)) ;;
    if bcnmiss p then limSendSmeRsp (HEARTBEAT_TIMEOUT i) else mreturn tt.
Definition pmmOffloadEnterUapsdRespHandler (i : Z) (ok : bool) : M ST unit :=
  modify (set_gLimProcessDefdMsgs true) ;;
  p <- pe_info i ;; limSendSmeRsp (eWNI_PMC_RSP R_ENTER_UAPSD (pe_session p && ok)).
Definition pmmOffloadExitUapsdRespHandler (i : Z) (ok : bool) : M ST unit :=
  modify (set_gLimProcessDefdMsgs true) ;;
  p <- pe_info i ;; limSendSmeRsp (eWNI_PMC_RSP R_EXIT_UAPSD (pe_session p && ok)).

(** A request of SME, an answer of the firmware.  A request for wake on wireless LAN is answered
    when it could not be passed on; what the firmware answers is not. *)
Definition pmmOffloadProcessRequest (m : pe_msg) : M ST unit :=
  match m with
  | eWNI_PMC_REQ R_ENTER_BMPS i uapsd => pmmOffloadEnterBmpsReqHandler i uapsd
  | eWNI_PMC_REQ R_EXIT_BMPS i _ => pmmOffloadExitBmpsReqHandler i
  | eWNI_PMC_REQ R_ENTER_UAPSD i _ => pmmOffloadEnterUapsdReqHandler i
  | eWNI_PMC_REQ R_EXIT_UAPSD i _ => pmmOffloadExitUapsdReqHandler i
  | eWNI_PMC_WOWL_REQ _ => ok <- ask ;; if (ok : bool) then mreturn tt else limSendSmeRsp eWNI_PMC_OTHER_RSP
  end.
Definition pmmOffloadProcessAnswer (r : request) (i : Z) (ok : bool) : M ST unit :=
  match r with
  | R_ENTER_BMPS => pmmOffloadEnterBmpsRespHandler i ok
  | R_EXIT_BMPS => pmmOffloadExitBmpsRespHandler i ok
  | R_ENTER_UAPSD => pmmOffloadEnterUapsdRespHandler i ok
  | R_EXIT_UAPSD => pmmOffloadExitUapsdRespHandler i ok
  end.
Definition limPsOffloadHandleMissedBeaconInd (i : Z) : M ST unit :=
  p <- pe_info i ;;
  if negb (pe_session p) then mreturn tt
  else
    upd_pe i (set_bcnmiss true) ;;
    if power_save p then limSendSmeRsp (eWNI_PMC_EXIT_BMPS_IND i true) else limSendSmeRsp (HEARTBEAT_TIMEOUT i).

(** ** The driver as a whole: whatever is called, arrives or expires is a step *)

Inductive step :=
| Enable_ps (sess : Z) | Disable_ps (sess : Z) (cb : option (Z * Z))
| Enable_deferred (sess : Z) (reassoc : bool) | Disable_deferred (sess : Z)
| Full_power_request (sess : Z) (cb : option (Z * Z))
| Start_uapsd (sess : Z) (cb : option (Z * Z)) | Stop_uapsd (sess : Z)
| Wowl (enter : bool) | Tdls (sess : Z) (prohibited : bool) | Disconnected (sess : Z)
| Register_check (sess : Z) (r : option Z) (ctx : Z) | Deregister_check (sess : Z) (r : option Z)
| Register_state (sess n ctx : Z) | Deregister_state (sess n : Z)
| Timer (sess : Z)
| Queue (t : eSmeCommandType) (sess : Z) (high : bool) | Complete | Complete_scan | Purge (sess : Z)
| Connection (sess : Z) (infra wait : bool) | Configure (ps mon : bool) | Drop_scans (b : bool) | Luck (l : list bool)
| Pe_step | Fw_step (ok : bool) | Sme_step | Missed_beacon (sess : Z) | Beacon (sess : Z).

Definition kick : M ST unit := smeProcessPendingQueue.
Definition ignore {A} (m : M ST A) : M ST unit := _ <- m ;; mreturn tt.

(** A timer that runs expires.  Messages are taken from their mailbox in order; LIM takes none
    while it waits for the firmware. *)
Definition do_step (e : step) : M ST unit :=
  match e with
  | Enable_ps i => ignore (PmcOffloadEnableStaModePowerSave kick i)
  | Disable_ps i cb => ignore (PmcOffloadDisableStaModePowerSave kick cb i)
  | Enable_deferred i b => ignore (PmcOffloadEnableDeferredStaModePowerSave i b)
  | Disable_deferred i => ignore (PmcOffloadDisableDeferredStaModePowerSave i)
  | Full_power_request i cb => ignore (pmcOffloadRequestFullPower kick i ((fun '(n, ctx) => (Full_power_client n, ctx)) <$> cb))
  | Start_uapsd i cb => ignore (pmcOffloadStartUapsd kick i cb)
  | Stop_uapsd i => ignore (pmcOffloadStopUapsd kick i)
  | Wowl b => ignore (pmcIssueCommand kick 0 (if b then eSmeCommandEnterWowl else eSmeCommandExitWowl) false)
  | Tdls i b => ignore (pmcOffloadSetTdlsProhibitBmpsStatus i b)
  | Disconnected i => ignore (pmcOffloadCleanup i)
  | Register_check i r ctx => ignore (pmcOffloadRegisterPowerSaveCheck i r ctx)
  | Deregister_check i r => ignore (pmcOffloadDeregisterPowerSaveCheck i r)
  | Register_state i n ctx => ignore (pmcOffloadRegisterDeviceStateUpdateInd i n ctx)
  | Deregister_state i n => ignore (pmcOffloadDeregisterDeviceStateUpdateInd i n)
  | Timer i =>
      p <- session i ;;
      match autoPsEnableTimer p with
      | Some _ => upd_session i (set_autoPsEnableTimer None) ;; pmcOffloadAutoPsEntryTimerExpired kick i
      | None => mreturn tt
      end
  | Queue t i high => ignore (queue_command kick t i high)
  | Complete => complete_command kick
  | Complete_scan => complete_scan kick
  | Purge i => purgeSmeSessionCmdList kick i
  | Connection i infra wait =>
      s <- mget ;; r <- oget (aget (roamSession s) i) ;;
      l <- oget (aset (roamSession s) i {| sessionActive := sessionActive r; connectedInfra := infra; waitForKey := wait |}) ;;
      modify (set_roamSession l)
  | Configure ps mon =>
      modify (set_mon_enable mon) ;;
      ignore (if ps then pmcOffloadConfigEnablePowerSave ePMC_BEACON_MODE_POWER_SAVE
              else pmcOffloadConfigDisablePowerSave ePMC_BEACON_MODE_POWER_SAVE)
  | Drop_scans b => modify (set_fDropScanCmd b)
  | Luck l => modify (set_luck l)
  | Pe_step =>
      s <- mget ;;
      match to_pe s with
      | m :: l => if gLimProcessDefdMsgs s then modify (set_to_pe l) ;; pmmOffloadProcessRequest m else mreturn tt
      | [] => mreturn tt
      end
  | Fw_step ok =>
      s <- mget ;;
      match to_fw s with
      | WDA_REQ r i _ :: l => modify (set_to_fw l) ;; pmmOffloadProcessAnswer r i ok
      | [] => mreturn tt
      end
  | Sme_step =>
      s <- mget ;;
      match to_sme s with
      | m :: l => modify (set_to_sme l) ;; pmcOffloadMessageProcessor kick m
      | [] => mreturn tt
      end
  | Missed_beacon i => limPsOffloadHandleMissedBeaconInd i
  | Beacon i => upd_pe i (set_bcnmiss false)
  end.
Fixpoint do_steps (es : list step) : M ST unit :=
  match es with [] => mreturn tt | e :: es => do_step e ;; do_steps es end.
