(* ===== verification/PmcInv.v ===== *)
(** * Power save: the invariant, and the code that queues commands

    [held] says everything about a state the proofs need, with the parts that change as
    arguments: the command buffers a function holds, the active commands, the states of the
    sessions, the messages, the side of the protocol engine, and a bound of the work that is
    left.  [calm] is what a predicate on states must allow for the functions that queue
    commands and call callbacks to keep it; [held] is calm as long as a command is active, and
    the invariant of the driver ([PmcRun]) always is. *)

From S2P Require Import Prelude Pmc.

Local Open Scope c_scope.

#[local] Abbreviation ST := tAniSirGlobal.
Implicit Types (s : ST) (p : tPsOffloadPerSessionInfo) (c : tSmeCmd) (q : tSmeStruct).

(** Permutations of concatenations are equations between numbers of occurrences. *)
Lemma occ_cons `{EqDecision A} (x y : A) l : count_occ (decide_rel eq) (x :: l) y = (count_occ (decide_rel eq) [x] y + count_occ (decide_rel eq) l y)%nat.
Proof. cbn. destruct decide_rel; lia. Qed.
Lemma perm_count `{EqDecision A} (l l' : list A) : (forall x, count_occ (decide_rel eq) l x = count_occ (decide_rel eq) l' x) <-> l ≡ₚ l'.
Proof. symmetry. apply (Permutation_count_occ (decide_rel eq)). Qed.
Ltac count :=
  repeat match goal with
    | |- context [?f <$> ?l1 ++ ?l2] => rewrite (fmap_app f l1 l2)
    | |- context [?f <$> ?y :: ?l] => rewrite (fmap_cons f y l)
    | |- context [?f <$> []] => rewrite (fmap_nil f)
    | |- context [count_occ ?d (_ ++ _) ?x] => rewrite (count_occ_app d)
    | |- context [count_occ _ (?y :: ?l) ?x] => lazymatch l with [] => fail | _ => rewrite (occ_cons y x l) end
    | |- context [count_occ _ [] _] => rewrite count_occ_nil
  end.
Ltac perm := apply perm_count; intros ?; count; lia.

(** ** Command buffers *)

Definition commands q : list tSmeCmd :=
  smeCmdActiveList q ++ smeCmdPendingList q ++ smeScanCmdActiveList q ++ smeScanCmdPendingList q ++ roamCmdPendingList q.
(** A buffer with whether it was allocated specially *)
Definition own c : Z * bool := (cmd_id c, fReleaseWhenDone c).
Definition owned q : list (Z * bool) := ((fun i => (i, false)) <$> smeCmdFreeList q) ++ (own <$> commands q).

(** The buffers of the queues and those in [e], which a function holds: all of the pool of [n]
    are there once, and the specially allocated ones are new. *)
Definition pool (n : Z) (e : list (Z * bool)) q : Prop :=
  NoDup (e ++ owned q).*1
  /\ (filter (fun b => b.2 = false) (e ++ owned q)).*1 ≡ₚ seqZ 0 n
  /\ (forall i, (i, true) ∈ e ++ owned q -> n <= i < heap_next q)
  /\ n <= heap_next q.

Lemma pool_perm n e e' q q' : heap_next q' = heap_next q -> e ++ owned q ≡ₚ e' ++ owned q' -> pool n e q -> pool n e' q'.
Proof.
  intros Hh Hp (H1 & H2 & H3 & H4). unfold pool. rewrite <- Hp, Hh. split_and!; try done.
  intros i Hi. apply H3. by rewrite Hp.
Qed.

(** A command in a list that is taken out of it *)
Lemma without_cmd_cons c c' (l : list tSmeCmd) :
  without_cmd c (c' :: l) = if bool_decide (cmd_id c' = cmd_id c) then without_cmd c l else c' :: without_cmd c l.
Proof. unfold without_cmd. rewrite filter_cons. repeat case_decide; case_bool_decide; congruence. Qed.
Lemma without_cmd_perm c (l : list tSmeCmd) : c ∈ l -> NoDup (cmd_id <$> l) -> l ≡ₚ c :: without_cmd c l.
Proof.
  unfold without_cmd. induction l as [|x l IH]; [set_solver|]. rewrite fmap_cons. intros Hc [Hx Hn]%NoDup_cons.
  destruct (decide (cmd_id x = cmd_id c)) as [He|Hne].
  - apply elem_of_cons in Hc as [<-|Hc]; [|destruct Hx; rewrite He; by apply list_elem_of_fmap_2].
    rewrite filter_cons_False by (by intros Hn'). constructor.
    rewrite filter_all; [done|]. intros y Hy Hyc. apply Hx. rewrite <- Hyc. by apply list_elem_of_fmap_2.
  - apply elem_of_cons in Hc as [->|Hc]; [done|]. rewrite filter_cons_True by done.
    rewrite (IH Hc Hn) at 1. apply Permutation_swap.
Qed.
Lemma pool_nodup n e q l1 l l2 : pool n e q -> commands q = l1 ++ l ++ l2 -> NoDup (cmd_id <$> l).
Proof.
  intros (H & _) Hc. unfold owned in H. rewrite Hc, !fmap_app in H.
  apply NoDup_app in H as (_ & _ & H). apply NoDup_app in H as (_ & _ & H).
  apply NoDup_app in H as (_ & _ & H). apply NoDup_app in H as (H & _). by rewrite <- list_fmap_compose in H.
Qed.

(** ** What holds *)

Definition states s : list tPmcState := pmcState <$> pmc s.
Definition sessions_open s : list bool := sessionActive <$> roamSession s.
Definition mail s : list pe_msg * list fw_msg * list sme_msg := (to_pe s, to_fw s, to_sme s).
Definition engine s : list tPmmOffloadInfo * bool := (pmm s, gLimProcessDefdMsgs s).

(** A command of a session that is there, and none of wake on wireless LAN; only commands of
    power save are allocated specially *)
Definition opened (V : list bool) (i : Z) : Prop := 0 <= i < CSR_ROAM_SESSION_MAX /\ aget V i = Some true.
Definition tame (t : eSmeCommandType) : bool := match t with eSmeCommandEnterWowl | eSmeCommandExitWowl => false | _ => true end.
Definition cmd_ok (V : list bool) c : Prop := opened V (cmd_session c) /\ tame (command c) = true
  /\ (fReleaseWhenDone c = true -> is_pmc (command c) = true).

(** The queue for scans has only scans, of which one is active. *)
Definition scans_ok q : Prop :=
  (length (smeScanCmdActiveList q) <= 1)%nat
  /\ Forall (fun c => is_pmc (command c) = false) (smeScanCmdActiveList q ++ smeScanCmdPendingList q).

(** Indications are for sessions that are there. *)
Definition inds_ok (V : list bool) (l : list sme_msg) : Prop := forall i b, eWNI_PMC_EXIT_BMPS_IND i b ∈ l -> opened V i.

(** What is waiting to be done in the queues, without what may still be answered no *)
Definition load q : nat := length (smeCmdPendingList q) + length (roamCmdPendingList q).

Section Held.
(** The size of the pool of commands, and which sessions are open *)
Context (n : Z) (V : list bool).

Record held (e : list (Z * bool)) (a : list tSmeCmd) (sts : list tPmcState) (m : list pe_msg * list fw_msg * list sme_msg)
    (v : list tPmmOffloadInfo * bool) (W k : nat) s : Prop := {
  h_started : sme_started (sme s) = true;
  h_active : smeCmdActiveList (sme s) = a;
  h_pool : pool n e (sme s);
  h_cmds : Forall (cmd_ok V) (commands (sme s));
  h_scan : scans_ok (sme s);
  h_open : sessions_open s = V;
  h_states : states s = sts;
  h_sessions : length sts = Z.to_nat CSR_ROAM_SESSION_MAX;
  h_mail : mail s = m;
  h_inds : inds_ok V m.2;
  h_engine : engine s = v;
  h_work : (work s + k <= W)%nat
}.

(** The state changes in what [held] does not speak of. *)
Record alike s s' : Prop := {
  a_sme : sme s' = sme s;
  a_states : states s' = states s;
  a_open : sessions_open s' = sessions_open s;
  a_mail : mail s' = mail s;
  a_engine : engine s' = engine s;
  a_luck : (length (luck s') <= length (luck s))%nat
}.

Lemma held_alike e a sts m v W k s s' : held e a sts m v W k s -> alike s s' -> held e a sts m v W k s'.
Proof. intros [] [He]. constructor; try congruence; rewrite ?He; try done. unfold work in *. rewrite He. lia. Qed.
Lemma held_weak e a sts m v W W' k k' s : held e a sts m v W k s -> (k' + W <= k + W')%nat -> held e a sts m v W' k' s.
Proof. intros [] ?. constructor; try done. lia. Qed.
(** The queues change. *)
Lemma held_sme e e' a a' sts m v W k k' s q' : held e a sts m v W k s ->
  sme_started q' = sme_started (sme s) -> heap_next q' = heap_next (sme s) -> smeCmdActiveList q' = a' ->
  e ++ owned (sme s) ≡ₚ e' ++ owned q' -> Forall (cmd_ok V) (commands q') -> scans_ok q' ->
  (load q' + k' <= load (sme s) + k)%nat -> held e' a' sts m v W k' (set_sme q' s).
Proof.
  intros [] G1 G2 G3 G4 G5 G6 G7. constructor; cbn; try congruence; try done.
  - by eapply pool_perm.
  - unfold work, load in *. cbn. lia.
Qed.
(** The messages and the protocol engine change. *)
Lemma held_env e a sts m v W k s m' v' s' : held e a sts m v W k s -> sme s' = sme s -> states s' = states s ->
  sessions_open s' = sessions_open s -> (length (luck s') <= length (luck s))%nat -> mail s' = m' -> engine s' = v' ->
  inds_ok V m'.2 -> held e a sts m' v' W k s'.
Proof.
  intros [] He Hs Ho Hl Hm Hv Hi. constructor; try congruence; rewrite ?He; try done. unfold work in *. rewrite He. lia.
Qed.
Lemma held_exact e a sts m v W k s : held e a sts m v W k s -> held e a sts m v (work s) 0 s.
Proof. intros []. constructor; try done. lia. Qed.

(** *** Sessions *)

Definition put (i : Z) p s : ST := set_pmc (upd (pmc s) i p) s.

Lemma runs_ps_session s i p (Q : tPsOffloadPerSessionInfo -> ST -> Prop) : aget (pmc s) i = Some p -> Q p s -> runs (session i) s Q.
Proof. intros H HQ. unfold session. mstep. mstep. by eapply runs_oget. Qed.
Lemma runs_upd_ps_session s i p f (Q : unit -> ST -> Prop) : aget (pmc s) i = Some p -> Q tt (put i (f p) s) -> runs (upd_session i f) s Q.
Proof.
  intros H HQ. unfold upd_session. mstep. mstep. mstep. eapply runs_oget; [done|]. mstep.
  eapply runs_oget; [apply aset_upd; by apply aget_Some_range in H|]. by mstep.
Qed.
Lemma aget_put i p0 p s : aget (pmc s) i = Some p0 -> aget (pmc (put i p s)) i = Some p.
Proof. intros H. cbn. rewrite aget_upd by (by apply aget_Some_range in H). by rewrite decide_True. Qed.
Lemma put_put i p p' s : put i p' (put i p s) = put i p' s.
Proof. unfold put, upd. destruct s. cbn. by rewrite list_insert_insert_eq. Qed.
Lemma states_put i p s : states (put i p s) = upd (states s) i (pmcState p).
Proof. unfold states, put, upd. cbn. apply list_fmap_insert. Qed.
Lemma states_aget s i p : aget (pmc s) i = Some p -> aget (states s) i = Some (pmcState p).
Proof. unfold aget, states. case_decide; [|done]. intros Hp. by rewrite list_lookup_fmap, Hp. Qed.
Lemma aget_states s i st : aget (states s) i = Some st -> exists p, aget (pmc s) i = Some p /\ pmcState p = st.
Proof. unfold aget, states. case_decide; [|done]. rewrite list_lookup_fmap. intros (p & -> & ?)%fmap_Some. eauto. Qed.
Lemma upd_aget_id {A} (l : list A) i x : aget l i = Some x -> upd l i x = l.
Proof. unfold aget, upd. case_decide; [|done]. apply list_insert_id. Qed.

Lemma held_put e a sts m v W k i p0 p s : held e a sts m v W k s -> aget (pmc s) i = Some p0 ->
  held e a (upd sts i (pmcState p)) m v W k (put i p s).
Proof.
  intros [] Hi. constructor; try done.
  - rewrite states_put. congruence.
  - by rewrite length_upd.
Qed.
Lemma alike_refl s : alike s s.
Proof. done. Qed.
Lemma alike_put i p0 p s : aget (pmc s) i = Some p0 -> pmcState p = pmcState p0 -> alike s (put i p s).
Proof. intros H Hp. constructor; try done. rewrite states_put, Hp. apply upd_aget_id. by apply states_aget. Qed.
Lemma held_session e a sts m v W k s i : held e a sts m v W k s -> 0 <= i < CSR_ROAM_SESSION_MAX ->
  exists p, aget (pmc s) i = Some p /\ aget sts i = Some (pmcState p).
Proof.
  intros [] Hi. destruct (aget sts i) as [st|] eqn:Hst.
  - rewrite <- h_states0 in Hst. destruct (aget_states _ _ _ Hst) as (p & ? & <-). eauto.
  - exfalso. apply eq_None_not_Some in Hst. apply Hst. apply aget_length_eq. rewrite h_sessions0. unfold CSR_ROAM_SESSION_MAX in *. lia.
Qed.
Lemma opened_roam s i : sessions_open s = V -> opened V i -> exists r, aget (roamSession s) i = Some r /\ sessionActive r = true.
Proof.
  intros <- [_ Hi]. unfold aget, sessions_open in *. case_decide; [|done]. rewrite list_lookup_fmap in Hi.
  apply fmap_Some in Hi as (r & -> & Hr). eauto.
Qed.
End Held.

(** ** Predicates that survive what happens around a request

    The argument counts the commands that may still be queued. *)

Class Calm (V : list bool) (kick : M ST unit) (J : nat -> ST -> Prop) : Prop := {
  calm_weak k s : J (S k) s -> J k s;
  calm_alike k s s' : J k s -> alike s s' -> J k s';
  calm_open k s : J k s -> sessions_open s = V;
  calm_sessions k s : J k s -> length (pmc s) = Z.to_nat CSR_ROAM_SESSION_MAX;
  calm_issue k s i t b : J (S k) s -> opened V i -> tame t = true -> is_pmc t = true ->
    runs (pmcIssueCommand kick i t b) s (fun _ s' => J k s')
}.

(** A command that could not be issued has changed no session. *)
Lemma issue_failed kick s i t b st s' : pmcIssueCommand kick i t b s = Some (st, s') -> st <> eHAL_STATUS_SUCCESS -> pmc s' = pmc s.
Proof.
  unfold pmcIssueCommand, pmcPrepareCommand, smeGetCommandBuffer, ask, mbnd, mget, upd_sme, modify, mreturn.
  destruct (smeCmdFreeList (sme s)) as [|j l]; [|destruct (is_pmc t)].
  - destruct PMC_IS_COMMAND_CANNOT_FAIL; [|by intros [= <- <-]].
    destruct (luck s) as [|[] lk]; [| |by intros [= <- <-]];
      destruct (smePushCommand _ _ _ _) as [[]|]; try done; intros [= <- <-]; done.
  - destruct (smePushCommand _ _ _ _) as [[]|]; try done; intros [= <- <-]; done.
  - by intros [= <- <-].
Qed.

Create HintDb calm.
(** Each computation of a bind keeps [J]; where that needs a command to be queued, the rest has
    one less. *)
Ltac calm :=
  repeat (cbn beta iota zeta; lazymatch goal with
    | HJ : ?J ?k ?s |- runs (mbnd _ _) ?s (fun _ s' => ?J ?k2 s') =>
        first
          [ apply (runs_then _ _ _ (fun _ s' => J k s')); [solve [calm]|clear HJ; intros ? ? HJ]
          | apply (runs_then _ _ _ (fun _ s' => J k2 s')); [solve [calm]|clear HJ; intros ? ? HJ] ]
    | |- runs (mreturn _) _ _ => apply runs_ret
    | |- runs mget _ _ => apply runs_mget
    | |- runs (match ?x with _ => _ end) _ _ => destruct x
    | |- runs _ _ _ => solve [eauto with calm | match goal with HJ : ?J (S _) ?s |- runs _ ?s _ => apply calm_weak in HJ end; eauto with calm]
    | HJ : ?J _ ?s |- ?J _ ?s => solve [exact HJ | eapply calm_weak; exact HJ]
    end).

Section Functions.
Context {V : list bool} {kick : M ST unit} {J : nat -> ST -> Prop} `{HC : !Calm V kick J}.
Implicit Types (i : Z) (k : nat).

Lemma calm_ask k s : J k s -> runs ask s (fun _ s' => J k s').
Proof.
  intros HJ. unfold ask. mstep. mstep. destruct (luck s) as [|b l] eqn:Hl; [by mstep|]. mstep. mstep. mstep.
  eapply calm_alike; [exact HJ|]. constructor; try done. cbn. rewrite Hl. cbn. lia.
Qed.
Lemma calm_session_some k s i : J k s -> opened V i -> exists p, aget (pmc s) i = Some p.
Proof.
  intros HJ [Hi _]. apply aget_length_eq. rewrite (calm_sessions _ _ HJ). unfold CSR_ROAM_SESSION_MAX in *. lia.
Qed.
Lemma calm_session k s i : J k s -> opened V i -> runs (session i) s (fun _ s' => J k s').
Proof. intros HJ Hi. destruct (calm_session_some _ _ _ HJ Hi). by eapply runs_ps_session. Qed.
Lemma calm_upd k s i f : J k s -> opened V i -> (forall p, pmcState (f p) = pmcState p) -> runs (upd_session i f) s (fun _ s' => J k s').
Proof.
  intros HJ Hi Hf. destruct (calm_session_some _ _ _ HJ Hi) as [p Hp]. eapply runs_upd_ps_session; [done|].
  eapply calm_alike; [exact HJ|]. by eapply alike_put.
Qed.
Lemma calm_called k s f : J k s -> runs (modify (fun s => set_called (f s) s)) s (fun _ s' => J k s').
Proof. intros HJ. mstep. by eapply calm_alike. Qed.
Lemma calm_roam k s i : J k s -> opened V i -> runs (roam_session i) s (fun _ s' => J k s').
Proof.
  intros HJ Hi. destruct (opened_roam _ _ _ (calm_open _ _ HJ) Hi) as (r & Hr & _). unfold roam_session.
  mstep. mstep. by eapply runs_oget.
Qed.
Hint Resolve calm_ask calm_session calm_upd calm_called calm_roam calm_issue : calm.

Lemma calm_infra k s i : J k s -> opened V i -> runs (csrIsConnStateConnectedInfra i) s (fun _ s' => J k s').
Proof. intros HJ Hi. unfold csrIsConnStateConnectedInfra. calm. Qed.
Lemma calm_wait k s i : J k s -> opened V i -> runs (CSR_IS_WAIT_FOR_KEY i) s (fun _ s' => J k s').
Proof. intros HJ Hi. unfold CSR_IS_WAIT_FOR_KEY. calm. Qed.
Lemma calm_timer_start k s i t : J k s -> opened V i -> runs (vos_timer_start i t) s (fun _ s' => J k s').
Proof. intros HJ Hi. unfold vos_timer_start. calm. Qed.
Lemma calm_timer_stop k s i : J k s -> opened V i -> runs (vos_timer_stop i) s (fun _ s' => J k s').
Proof. intros HJ Hi. unfold vos_timer_stop. calm. Qed.
Hint Resolve calm_infra calm_wait calm_timer_start calm_timer_stop : calm.
Lemma calm_start_auto k s i t : J k s -> opened V i -> runs (pmcOffloadStartAutoStaPsTimer i t) s (fun _ s' => J k s').
Proof. intros HJ Hi. unfold pmcOffloadStartAutoStaPsTimer. calm. Qed.
Lemma calm_stop_auto k s i : J k s -> opened V i -> runs (pmcOffloadStopAutoStaPsTimer i) s (fun _ s' => J k s').
Proof. intros HJ Hi. unfold pmcOffloadStopAutoStaPsTimer. calm. Qed.
Lemma calm_checks k l s : J k s -> runs (check_routines l) s (fun _ s' => J k s').
Proof. revert s. induction l as [|[[r|] ctx] l IH]; intros s HJ; cbn; calm. Qed.
Hint Resolve calm_start_auto calm_stop_auto calm_checks : calm.
Lemma calm_check k s i : J k s -> opened V i -> runs (pmcOffloadPowerSaveCheck i) s (fun _ s' => J k s').
Proof. intros HJ Hi. unfold pmcOffloadPowerSaveCheck. calm. Qed.
Hint Resolve calm_check : calm.
Lemma calm_enable_check k s i : J k s -> opened V i -> runs (pmcOffloadEnableStaPsCheck i) s (fun _ s' => J k s').
Proof. intros HJ Hi. unfold pmcOffloadEnableStaPsCheck. calm. Qed.
Lemma calm_state_callbacks k s i st : J k s -> opened V i -> runs (pmcOffloadDoDeviceStateUpdateCallbacks i st) s (fun _ s' => J k s').
Proof. intros HJ Hi. unfold pmcOffloadDoDeviceStateUpdateCallbacks. calm. Qed.
Lemma calm_uapsd_callbacks k s i st : J k s -> opened V i -> runs (pmcOffloadDoStartUapsdCallbacks i st) s (fun _ s' => J k s').
Proof. intros HJ Hi. unfold pmcOffloadDoStartUapsdCallbacks. calm. Qed.
Hint Resolve calm_enable_check calm_state_callbacks calm_uapsd_callbacks : calm.

(** *** Functions that may queue a command *)

Lemma calm_start_uapsd k s i : J (S k) s -> opened V i -> runs (pmcOffloadQueueStartUapsdRequest kick i) s (fun _ s' => J k s').
Proof. intros HJ Hi. unfold pmcOffloadQueueStartUapsdRequest. calm. Qed.
Lemma calm_stop_uapsd k s i : J (S k) s -> opened V i -> runs (pmcOffloadQueueStopUapsdRequest kick i) s (fun _ s' => J k s').
Proof. intros HJ Hi. unfold pmcOffloadQueueStopUapsdRequest. calm. Qed.
Lemma calm_full_power k s i : J (S k) s -> opened V i -> runs (pmcOffloadQueueRequestFullPower kick i) s (fun _ s' => J k s').
Proof. intros HJ Hi. unfold pmcOffloadQueueRequestFullPower. calm. Qed.
Lemma calm_retry k s i st : J k s -> opened V i -> runs (retry_later i st) s (fun _ s' => J k s').
Proof. intros HJ Hi. unfold retry_later. calm. Qed.
Hint Resolve calm_start_uapsd calm_stop_uapsd calm_full_power calm_retry : calm.
Lemma calm_enable_handler k s i : J (S k) s -> opened V i -> runs (pmcOffloadEnableStaPsHandler kick i) s (fun _ s' => J k s').
Proof. intros HJ Hi. unfold pmcOffloadEnableStaPsHandler. calm. Qed.
Lemma calm_disable_handler k s i : J (S k) s -> opened V i -> runs (pmcOffloadDisableStaPsHandler kick i) s (fun _ s' => J k s').
Proof. intros HJ Hi. unfold pmcOffloadDisableStaPsHandler. calm. Qed.
Hint Resolve calm_enable_handler calm_disable_handler : calm.

(** *** Requests of the other modules *)

Lemma calm_timer_expired k s i : J (S k) s -> opened V i -> runs (pmcOffloadAutoPsEntryTimerExpired kick i) s (fun _ s' => J k s').
Proof. intros HJ Hi. unfold pmcOffloadAutoPsEntryTimerExpired. calm. Qed.
Lemma calm_exit_ind k s i b : J (S k) s -> opened V i -> runs (pmcOffloadExitBmpsIndHandler kick i b) s (fun _ s' => J k s').
Proof. intros HJ Hi. unfold pmcOffloadExitBmpsIndHandler. calm. Qed.
Lemma calm_enable k s i : J (S k) s -> opened V i -> runs (PmcOffloadEnableStaModePowerSave kick i) s (fun _ s' => J k s').
Proof. intros HJ Hi. unfold PmcOffloadEnableStaModePowerSave. calm. Qed.
Lemma calm_request_full_power k s i cb : J (S k) s -> opened V i -> runs (pmcOffloadRequestFullPower kick i cb) s (fun _ s' => J k s').
Proof. intros HJ Hi. unfold pmcOffloadRequestFullPower. calm. Qed.
Lemma calm_start k s i cb : J (S k) s -> opened V i -> runs (pmcOffloadStartUapsd kick i cb) s (fun _ s' => J k s').
Proof. intros HJ Hi. unfold pmcOffloadStartUapsd. calm. Qed.
Lemma calm_stop k s i : J (S k) s -> opened V i -> runs (pmcOffloadStopUapsd kick i) s (fun _ s' => J k s').
Proof. intros HJ Hi. unfold pmcOffloadStopUapsd. calm. Qed.
Lemma calm_enable_deferred k s i b : J k s -> opened V i -> runs (PmcOffloadEnableDeferredStaModePowerSave i b) s (fun _ s' => J k s').
Proof. intros HJ Hi. unfold PmcOffloadEnableDeferredStaModePowerSave. calm. Qed.
Lemma calm_disable_deferred k s i : J k s -> opened V i -> runs (PmcOffloadDisableDeferredStaModePowerSave i) s (fun _ s' => J k s').
Proof. intros HJ Hi. unfold PmcOffloadDisableDeferredStaModePowerSave. calm. Qed.
Lemma calm_tdls k s i b : J k s -> opened V i -> runs (pmcOffloadSetTdlsProhibitBmpsStatus i b) s (fun _ s' => J k s').
Proof. intros HJ Hi. unfold pmcOffloadSetTdlsProhibitBmpsStatus. calm. Qed.
Lemma calm_cleanup k s i : J k s -> opened V i -> runs (pmcOffloadCleanup i) s (fun _ s' => J k s').
Proof. intros HJ Hi. unfold pmcOffloadCleanup. calm. Qed.
Lemma calm_register_check k s i r ctx : J k s -> opened V i -> runs (pmcOffloadRegisterPowerSaveCheck i r ctx) s (fun _ s' => J k s').
Proof. intros HJ Hi. unfold pmcOffloadRegisterPowerSaveCheck. calm. Qed.
Lemma calm_deregister_check k s i r : J k s -> opened V i -> runs (pmcOffloadDeregisterPowerSaveCheck i r) s (fun _ s' => J k s').
Proof. intros HJ Hi. unfold pmcOffloadDeregisterPowerSaveCheck. calm. Qed.
Lemma calm_register_state k s i r ctx : J k s -> opened V i -> runs (pmcOffloadRegisterDeviceStateUpdateInd i r ctx) s (fun _ s' => J k s').
Proof. intros HJ Hi. unfold pmcOffloadRegisterDeviceStateUpdateInd. calm. Qed.
Lemma calm_deregister_state k s i r : J k s -> opened V i -> runs (pmcOffloadDeregisterDeviceStateUpdateInd i r) s (fun _ s' => J k s').
Proof. intros HJ Hi. unfold pmcOffloadDeregisterDeviceStateUpdateInd. calm. Qed.
Lemma calm_csr_request k s c : J (S k) s -> opened V (cmd_session c) -> runs (csrRequestFullPower kick c) s (fun _ s' => J k s').
Proof.
  intros HJ Hi. unfold csrRequestFullPower. eapply (runs_then _ _ _ (fun _ s' => J (S k) s')).
  - unfold csrPsOffloadIsFullPowerNeeded, pmcOffloadGetPmcState. calm.
  - intros o s' HJ'. destruct o as [[]|]; [by apply calm_request_full_power|mstep; by apply calm_weak in HJ'..].
Qed.

(** When full power cannot be requested nobody is called, so the callback that was added is
    still there to be removed. *)
Definition callbacks i s : option (list (full_power_routine * Z)) := fullPowerCbList <$> aget (pmc s) i.
Lemma failed_request i s st s' : pmcOffloadQueueRequestFullPower kick i s = Some (st, s') -> st = eHAL_STATUS_FAILURE ->
  callbacks i s' = callbacks i s.
Proof.
  intros Heq ->. unfold pmcOffloadQueueRequestFullPower, session, upd_session, mbnd, mget, oget, mreturn, modify in Heq.
  unfold callbacks. destruct (aget (pmc s) i) as [p|] eqn:Hp; [|done]. cbn in Heq. case_bool_decide; [done|].
  destruct (pmcIssueCommand kick i eSmeCommandExitBmps false s) as [[st1 s1]|] eqn:Hi; [|done]. case_bool_decide.
  - repeat case_match; done.
  - rewrite (issue_failed _ _ _ _ _ _ _ Hi) in Heq by done. rewrite Hp in Heq. cbn in Heq.
    rewrite aset_upd in Heq by (by apply aget_Some_range in Hp). cbn in Heq. injection Heq as <-.
    cbn. rewrite aget_upd, decide_True by (done || by apply aget_Some_range in Hp). done.
Qed.
Lemma failed_disable i s st s' : pmcOffloadDisableStaPsHandler kick i s = Some (st, s') -> st <> eHAL_STATUS_SUCCESS ->
  callbacks i s' = callbacks i s.
Proof.
  intros Heq Hst. unfold pmcOffloadDisableStaPsHandler, csrIsConnStateConnectedInfra, roam_session, pmcOffloadStopAutoStaPsTimer, session in Heq.
  unfold mbnd, mget, oget, mreturn in Heq.
  destruct (upd_session i (set_configStaPsEnabled false) s) as [[[] s1]|] eqn:H1; [|done].
  assert (Hc1 : callbacks i s1 = callbacks i s).
  { clear -H1. unfold upd_session, mbnd, mget, oget, modify in H1. unfold callbacks. destruct (aget (pmc s) i) as [p|] eqn:Hp; [|done].
    cbn in H1. rewrite aset_upd in H1 by (by apply aget_Some_range in Hp). cbn in H1. injection H1 as <-. cbn.
    rewrite aget_upd, decide_True by (done || by apply aget_Some_range in Hp). done. }
  rewrite <- Hc1. destruct (aget (roamSession s1) i) as [r|]; [|done]. cbn in Heq. destruct (connectedInfra r); cbn in Heq.
  2: { repeat case_match; by simplify_eq. }
  destruct (aget (pmc s1) i) as [p|]; [|done]. cbn in Heq.
  assert (Hq : forall st s', match pmcOffloadQueueRequestFullPower kick i s1 with
      | Some (a, s2) => Some (if bool_decide (a = eHAL_STATUS_FAILURE) then eHAL_STATUS_FAILURE else eHAL_STATUS_SUCCESS, s2) | None => None end
        = Some (st, s') -> st <> eHAL_STATUS_SUCCESS -> callbacks i s' = callbacks i s1).
  { intros st0 s0 Hx Hn. destruct (pmcOffloadQueueRequestFullPower kick i s1) as [[a s2]|] eqn:Hq; [|done].
    case_bool_decide; simplify_eq. by eapply failed_request. }
  destruct (pmcState p); cbn in Heq; try (by eapply Hq); repeat case_match; by simplify_eq.
Qed.
Lemma calm_disable k s i cb : J (S k) s -> opened V i -> runs (PmcOffloadDisableStaModePowerSave kick cb i) s (fun _ s' => J k s').
Proof.
  intros HJ Hi. unfold PmcOffloadDisableStaModePowerSave. destruct (calm_session_some _ _ _ HJ Hi) as [p0 Hp0].
  mstep. eapply runs_ps_session; [done|]. mstep. mstep. destruct (_ || _); [|calm].
  eapply (runs_then _ _ _ (fun b s1 => J (S k) s1 /\ (b = true -> cb <> None -> default [] (callbacks i s1) <> []))).
  - destruct cb as [[x ctx]|]; [|by mstep].
    eapply (runs_then _ _ _ (fun _ s1 => J (S k) s1)); [by apply calm_ask|]. intros [] s1 H1; cbn beta iota in *; [|by mstep].
    destruct (calm_session_some _ _ _ H1 Hi) as [p1 Hp1]. mstep. eapply runs_upd_ps_session; [done|]. mstep. split.
    + eapply calm_alike; [exact H1|]. by eapply alike_put.
    + intros _ _. unfold callbacks. rewrite (aget_put _ _ _ _ Hp1). cbn. by destruct (fullPowerCbList p1).
  - intros b s1 [H1 Hcb]. destruct b; cbn [negb]; [|mstep; by apply calm_weak in H1].
    eapply (runs_then _ _ _ (fun st s2 => J k s2 /\ (st <> eHAL_STATUS_SUCCESS -> callbacks i s2 = callbacks i s1))).
    + destruct (runs_elim _ _ _ (calm_disable_handler _ _ _ H1 Hi)) as (st & s2 & Heq & H2).
      eapply runs_intro; [exact Heq|]. split; [done|]. intros Hst. by eapply failed_disable.
    + intros st s2 [H2 Hsame]. destruct (bool_decide_reflect (st <> eHAL_STATUS_SUCCESS)) as [Hst|]; cbn [andb]; [|by mstep].
      destruct (bool_decide_reflect (is_Some cb)) as [Hsome|]; [|by mstep].
      destruct (calm_session_some _ _ _ H2 Hi) as [p2 Hp2]. mstep. eapply runs_ps_session; [done|]. mstep.
      eapply runs_massert.
      * specialize (Hcb eq_refl). rewrite <- Hsame in Hcb by done. unfold callbacks in Hcb. rewrite Hp2 in Hcb. cbn in Hcb.
        rewrite bool_decide_eq_false_2; [done|]. apply Hcb. by destruct cb; [|destruct Hsome].
      * mstep. eapply runs_upd_ps_session; [done|]. mstep. eapply calm_alike; [exact H2|]. by eapply alike_put.
Qed.
End Functions.
