(* ===== verification/PmcBusy.v ===== *)
(** * Power save: while a command is active

    The loop over the commands does nothing then, so what is queued stays queued, and what
    every function does can be said in terms of [held]: which states change, what is sent, and
    how much work there may be left. *)

From S2P Require Import Prelude Pmc PmcInv.

Local Open Scope c_scope.

#[local] Abbreviation ST := tAniSirGlobal.
Implicit Types (s : ST) (p : tPsOffloadPerSessionInfo) (c : tSmeCmd) (q : tSmeStruct) (i : Z) (k : nat).

(** ** Buffers *)

Lemma pool_new n e q : pool n e q -> pool n ((heap_next q, true) :: e) (set_heap (heap_next q + 1) q).
Proof.
  intros (H1 & H2 & H3 & H4). unfold pool.
  change (owned (set_heap _ q)) with (owned q). cbn [app heap_next set_heap]. rewrite fmap_cons. split_and!.
  - constructor; [|done]. intros ([j []] & Hj & Hin)%list_elem_of_fmap; cbn in Hj; subst j.
    + specialize (H3 _ Hin). lia.
    + assert (Hz : heap_next q ∈ seqZ 0 n); [|apply elem_of_seqZ in Hz; lia]. rewrite <- H2.
      apply list_elem_of_fmap. exists (heap_next q, false). split; [done|]. by apply list_elem_of_filter.
  - by rewrite filter_cons_False.
  - intros j [[= ->]|Hj]%elem_of_cons; [lia|]. specialize (H3 _ Hj). lia.
  - lia.
Qed.

Section Buffers.
Context (n : Z) (V : list bool).
#[local] Abbreviation held := (held n V).

Lemma runs_get_buffer e a sts m v W k s : held e a sts m v W k s ->
  runs smeGetCommandBuffer s (fun b s' => match b with
    | Some j => held ((j, false) :: e) a sts m v W k s'
    | None => s' = s
    end).
Proof.
  intros H. unfold smeGetCommandBuffer. mstep. mstep. destruct (smeCmdFreeList (sme s)) as [|j l] eqn:Hf; mstep; [done|].
  unfold upd_sme. mstep. mstep.
  eapply (held_sme _ _ _ _ _ _ _ _ _ _ _ k _ _ H); cbn; [done|done|apply H| |apply H|apply H|done].
  unfold owned, commands. cbn. rewrite Hf. cbn. perm.
Qed.

(** A command of power save is prepared.  One that cannot fail fails only for want of memory. *)
Lemma runs_prepare e a sts m v W k s i t : held e a sts m v W k s -> is_pmc t = true ->
  runs (pmcPrepareCommand i t) s (fun r s' => match r with
    | (eHAL_STATUS_SUCCESS, Some c) => cmd_session c = i /\ command c = t /\ held (own c :: e) a sts m v W k s'
    | (st, None) => st <> eHAL_STATUS_SUCCESS
        /\ held e a sts m v W (if PMC_IS_COMMAND_CANNOT_FAIL t then S (S k) else k) s'
    | _ => False
    end).
Proof.
  intros H Ht. unfold pmcPrepareCommand. eapply runs_then; [by apply runs_get_buffer|]. intros [j|] s'; cbn.
  - intros H'. rewrite Ht. by mstep.
  - intros ->. destruct PMC_IS_COMMAND_CANNOT_FAIL; [|by mstep].
    unfold ask. mstep. mstep. mstep.
    assert (Hnew : forall l, (length l <= length (luck s))%nat ->
      held ((heap_next (sme s), true) :: e) a sts m v W k (set_sme (set_heap (heap_next (sme s) + 1) (sme s)) (set_luck l s))).
    { intros l Hl. destruct H. constructor; try done. { by apply pool_new. } unfold work in *. cbn. lia. }
    destruct (luck s) as [|[] l] eqn:Hl; mstep.
    + unfold upd_sme. mstep. mstep. mstep. mstep. split_and!; [done..|]. unfold own; cbn.
      replace (set_sme _ s) with (set_sme (set_heap (heap_next (sme s) + 1) (sme s)) (set_luck [] s)) by (destruct s; cbn in *; by subst). by apply Hnew.
    + unfold upd_sme. repeat mstep. split_and!; [done..|]. apply (Hnew l). cbn. lia.
    + repeat mstep. split; [done|]. destruct H. constructor; try done. unfold work in *. cbn in *. rewrite Hl in *. cbn in *. lia.
Qed.

(** A command is queued. *)
Lemma held_push e a sts m v W k s c (b : bool) : held (own c :: e) a sts m v W (S k) s -> cmd_ok V c ->
  held e a sts m v W k (set_sme (set_pending (if b then c :: smeCmdPendingList (sme s) else smeCmdPendingList (sme s) ++ [c]) (sme s)) s).
Proof.
  intros H Hc. pose proof (h_cmds _ _ _ _ _ _ _ _ _ _ H) as Hcs.
  eapply (held_sme _ _ _ _ _ _ _ _ _ _ _ k _ _ H); cbn; [done|done|apply H| | |apply H|].
  - unfold owned, commands. cbn. rewrite !fmap_app. destruct b; rewrite ?fmap_app, ?fmap_cons; cbn [fmap list_fmap]; perm.
  - unfold commands in *. cbn. rewrite !Forall_app in *. destruct Hcs as (? & ? & ?).
    destruct b; rewrite ?Forall_cons, ?Forall_app, ?Forall_singleton; tauto.
  - unfold load. destruct b; cbn; rewrite ?length_app; cbn; lia.
Qed.
End Buffers.

(** ** The functions *)

Section Busy.
Context (n : Z) (V : list bool) (kick : M ST unit).
Context (kick_busy : forall s, smeCmdActiveList (sme s) <> [] -> kick s = Some (tt, s)).
#[local] Abbreviation held := (held n V).

Lemma runs_kick_busy s Q : smeCmdActiveList (sme s) <> [] -> Q tt s -> runs kick s Q.
Proof. intros Ha HQ. eapply runs_intro; [by apply kick_busy|done]. Qed.

Definition pushed c (b : bool) s : ST :=
  set_sme (set_pending (if b then c :: smeCmdPendingList (sme s) else smeCmdPendingList (sme s) ++ [c]) (sme s)) s.
Lemma runs_push_busy s c (b : bool) Q : sme_started (sme s) = true -> smeCmdActiveList (sme s) <> [] ->
  Q tt (pushed c b s) -> runs (smePushCommand kick c b) s Q.
Proof.
  intros Hst Ha HQ. unfold smePushCommand. mstep. mstep. rewrite Hst. cbn. unfold upd_sme. mstep. mstep. by apply runs_kick_busy.
Qed.
Lemma held_pushed e a sts m v W k s c (b : bool) : held (own c :: e) a sts m v W (S k) s -> cmd_ok V c -> held e a sts m v W k (pushed c b s).
Proof. apply held_push. Qed.

#[export] Instance busy_calm e a sts m v W : a <> [] -> Calm V kick (held e a sts m v W).
Proof.
  intros Ha. constructor.
  - intros k s H. eapply held_weak; [done|lia].
  - intros k s s'. apply held_alike.
  - intros k s H. apply H.
  - intros k s []. rewrite <- h_sessions, <- h_states. unfold states. by rewrite length_fmap.
  - intros k s i t b H Hi Ht Hp. unfold pmcIssueCommand.
    eapply runs_then; [by apply runs_prepare|]. intros [st [c|]] s'; cbn.
    + destruct st; try done. intros (Hc1 & Hc2 & Hc). apply runs_bnd.
      apply runs_push_busy; [apply Hc|by rewrite (h_active _ _ _ _ _ _ _ _ _ _ Hc)|]. mstep.
      apply held_pushed; [done|]. unfold cmd_ok. by rewrite Hc1, Hc2.
    + intros Hr. assert (st <> eHAL_STATUS_SUCCESS /\ held e a sts m v W k s') as [Hst H'].
      { destruct st; destruct Hr; try done; (split; [done|]; eapply held_weak; [done|]; destruct PMC_IS_COMMAND_CANNOT_FAIL; lia). }
      destruct st; try done; by mstep.
Qed.

(** *** Callbacks *)

Lemma runs_csr_callback e a sts m v W k s : a <> [] -> held e a sts m v W k s ->
  runs (csrFullPowerOffloadCallback kick) s (fun _ s' => held e a sts m v W k s' /\ pmc s' = pmc s).
Proof.
  intros Ha H. unfold csrFullPowerOffloadCallback. mstep. mstep.
  eapply (runs_miter (fun _ s' => held e a sts m v W k s' /\ pmc s' = pmc s) (fun _ s' => length (roamCmdPendingList (sme s'))));
    [|done|lia].
  intros _ s1 [H1 Hp1]. mstep. mstep. destruct (roamCmdPendingList (sme s1)) as [|c l] eqn:Hr; [by mstep|].
  pose proof (h_cmds _ _ _ _ _ _ _ _ _ _ H1) as Hcs. unfold commands in Hcs. rewrite Hr, !Forall_app, Forall_cons in Hcs.
  destruct Hcs as (Hcs1 & Hcs2 & Hcs3 & Hcs4 & Hc & Hl).
  unfold upd_sme. mstep. mstep. mstep.
  assert (H2 : held (own c :: e) a sts m v W (S k) (set_sme (set_roam l (sme s1)) s1)).
  { eapply (held_sme _ _ _ _ _ _ _ _ _ _ _ (S k) _ _ H1); cbn; [done|done|apply H1| | |apply H1|].
    - unfold owned, commands. cbn. rewrite Hr, !fmap_app, fmap_cons. perm.
    - unfold commands. cbn. rewrite !Forall_app. tauto.
    - unfold load. cbn. rewrite Hr. cbn. lia. }
  apply runs_push_busy; [apply H2|by rewrite (h_active _ _ _ _ _ _ _ _ _ _ H2)|]. mstep.
  split_and!; [by apply held_pushed|done|cbn; lia].
Qed.

Lemma runs_full_power_callbacks e a sts m v W k s i st : a <> [] -> opened V i -> held e a sts m v W k s ->
  runs (pmcOffloadDoFullPowerCallbacks kick i st) s (fun _ s' => held e a sts m v W k s').
Proof.
  intros Ha Hi H. pose proof (busy_calm e a sts m v W Ha) as HC.
  destruct (calm_session_some _ _ _ H Hi) as [p Hp]. unfold pmcOffloadDoFullPowerCallbacks.
  mstep. eapply runs_ps_session; [done|]. cbn beta.
  eapply (runs_miter (fun _ s' => exists p', held e a sts m v W k s' /\ aget (pmc s') i = Some p'
      /\ pmcState p' = pmcState p)
    (fun _ s' => length (default [] (fullPowerCbList <$> aget (pmc s') i)))); [|by exists p|rewrite Hp; cbn; lia].
  intros _ s1 (p1 & H1 & Hp1 & Hst). mstep. eapply runs_ps_session; [done|]. cbn beta. rewrite Hp1. cbn.
  destruct (fullPowerCbList p1) as [|[r ctx] l]; [by mstep|]. mstep. eapply runs_upd_ps_session; [done|]. mstep.
  assert (H2 : held e a sts m v W k (put i (set_fullPowerCbList l p1) s1)).
  { eapply held_alike; [exact H1|]. by eapply alike_put. }
  pose proof (aget_put i p1 (set_fullPowerCbList l p1) _ Hp1) as Hp2.
  destruct r as [|x].
  - eapply runs_mono; [by apply runs_csr_callback|]. intros [] s3 [H3 Hp3]. mstep. rewrite Hp3, Hp2. cbn. split; [|lia]. by eexists.
  - unfold call. mstep. mstep. cbn in Hp2 |- *. rewrite Hp2. cbn. split; [|lia]. eexists. split_and!; [|done|done].
    eapply held_alike; [exact H2|done].
Qed.

(** *** The states of a session *)

Definition restful (st : tPmcState) : bool := match st with FULL_POWER | BMPS | UAPSD => true | _ => false end.
Definition asleep (st : tPmcState) : bool := match st with BMPS | UAPSD => true | _ => false end.

(** A state is set, then [J] is kept. *)
Lemma runs_set_state e a sts m v W k s i f st Q : opened V i -> held e a sts m v W k s ->
  (forall p, aget (pmc s) i = Some p -> pmcState (f p) = st) ->
  (forall s' p', held e a (upd sts i st) m v W k s' -> aget (pmc s') i = Some p' -> pmcState p' = st -> Q tt s') ->
  runs (upd_session i f) s Q.
Proof.
  intros [Hi _] H Hf HQ. destruct (held_session _ _ _ _ _ _ _ _ _ _ _ H Hi) as (p & Hp & _).
  eapply runs_upd_ps_session; [done|]. eapply HQ; [|by eapply aget_put|by apply Hf].
  rewrite <- (Hf _ Hp). by eapply held_put.
Qed.

Lemma runs_queue_pending e a sts m v W k s i : a <> [] -> opened V i -> held e a sts m v W (S k) s ->
  runs (queue_pending_full_power kick i) s (fun _ s' => held e a sts m v W k s').
Proof.
  intros Ha Hi H. pose proof (busy_calm e a sts m v W Ha) as HC. unfold queue_pending_full_power.
  eapply runs_then; [by apply (calm_full_power (J := held e a sts m v W))|]. intros st s' H'. cbn beta in H'.
  case_bool_decide; [by apply runs_full_power_callbacks|by mstep].
Qed.

Lemma runs_enter_powersave e a sts m v W k s i : a <> [] -> opened V i -> held e a sts m v W (S k) s ->
  runs (pmcOffloadEnterPowersaveState kick i) s (fun _ s' => exists st, asleep st = true /\ held e a (upd sts i st) m v W k s').
Proof.
  intros Ha Hi H. destruct (held_session _ _ _ _ _ _ _ _ _ _ _ H (proj1 Hi)) as (p & Hp & Hst).
  unfold pmcOffloadEnterPowersaveState. mstep. eapply runs_ps_session; [done|]. cbn beta.
  eapply (runs_then _ _ _ (fun _ s' => exists st, asleep st = true /\ held e a (upd sts i st) m v W (S k) s')).
  - case_bool_decide.
    + mstep. eapply (runs_set_state _ _ _ _ _ _ _ _ _ _ UAPSD); [done|done|done|]. intros s' p' H' _ _.
      pose proof (busy_calm e a (upd sts i UAPSD) m v W Ha) as HC.
      eapply runs_mono; [by apply (calm_uapsd_callbacks (J := held e a (upd sts i UAPSD) m v W))|]. intros. by exists UAPSD.
    + eapply (runs_set_state _ _ _ _ _ _ _ _ _ _ BMPS); [done|done|done|]. intros s' p' H' _ _. by exists BMPS.
  - intros _ s1 (st & Hst1 & H1). cbn beta in H1.
    eapply (runs_mono _ _ (fun _ s' => held e a (upd sts i st) m v W k s')); [|intros; by exists st].
    pose proof (busy_calm e a (upd sts i st) m v W Ha) as HC. set (J := held e a (upd sts i st) m v W) in *.
    eapply (runs_then _ _ _ (fun _ => J (S k))); [by apply calm_session|]. clear p Hp Hst. intros p s2 H2.
    eapply (runs_then _ _ _ (fun _ => J (S k))); [by apply calm_state_callbacks|]. intros _ s3 H3.
    eapply (runs_then _ _ _ (fun _ => J (S k))); [by apply calm_session|]. clear p. intros p s4 H4.
    cbn beta in *. destruct (fullPowerReqPend p); [by apply runs_queue_pending|].
    destruct (_ && _); [|mstep; by apply calm_weak in H4].
    eapply (runs_then _ _ _ (fun _ => J k)); [by apply calm_start_uapsd|]. intros st' s5 H5. cbn beta in *.
    case_bool_decide; [|by mstep].
    eapply (runs_then _ _ _ (fun _ => J k)); [by apply calm_upd|]. intros _ s6 H6.
    by apply calm_uapsd_callbacks.
Qed.

Lemma runs_exit_powersave e a sts m v W k s i : a <> [] -> opened V i -> held e a sts m v W k s ->
  runs (pmcOffloadExitPowersaveState kick i) s (fun _ s' => held e a (upd sts i FULL_POWER) m v W k s').
Proof.
  intros Ha Hi H. unfold pmcOffloadExitPowersaveState. mstep.
  eapply (runs_set_state _ _ _ _ _ _ _ _ _ _ FULL_POWER); [done|done|by intros; cbn; case_bool_decide|]. intros s1 p1 H1 _ _.
  pose proof (busy_calm e a (upd sts i FULL_POWER) m v W Ha) as HC. set (J := held e a (upd sts i FULL_POWER) m v W) in *.
  eapply (runs_then _ _ _ (fun _ => J k)); [by apply calm_session|]. intros p s2 H2.
  eapply (runs_then _ _ _ (fun _ => J k)); [by apply calm_state_callbacks|]. intros _ s3 H3.
  eapply (runs_then _ _ _ (fun _ => J k)); [by apply runs_full_power_callbacks|]. intros _ s4 H4.
  eapply (runs_then _ _ _ (fun _ => J k)); [by apply calm_session|]. clear p. intros p s5 H5. cbn beta in *.
  destruct (_ || _); [|by mstep]. mstep. mstep. destruct (mon_enable s5); [by mstep|].
  eapply (runs_then _ _ _ (fun _ => J k)); [by apply calm_start_auto|]. intros _ s6 H6. by mstep.
Qed.

Lemma runs_enter_uapsd e a sts m v W k s i : a <> [] -> opened V i -> held e a sts m v W (S k) s ->
  aget sts i = Some REQUEST_START_UAPSD ->
  runs (pmcOffloadEnterUapsdState kick i) s (fun _ s' => held e a (upd sts i UAPSD) m v W k s').
Proof.
  intros Ha Hi H Hst. destruct (held_session _ _ _ _ _ _ _ _ _ _ _ H (proj1 Hi)) as (p & Hp & Hst').
  unfold pmcOffloadEnterUapsdState. mstep. eapply runs_ps_session; [done|]. cbn beta.
  rewrite bool_decide_eq_false_2 by (intros Hn; apply Hn; congruence). mstep.
  eapply (runs_set_state _ _ _ _ _ _ _ _ _ _ UAPSD); [done|done|done|]. intros s1 p1 H1 _ _.
  pose proof (busy_calm e a (upd sts i UAPSD) m v W Ha) as HC. set (J := held e a (upd sts i UAPSD) m v W) in *.
  eapply (runs_then _ _ _ (fun _ => J (S k))); [by apply calm_state_callbacks|]. intros _ s3 H3.
  eapply (runs_then _ _ _ (fun _ => J (S k))); [by apply calm_uapsd_callbacks|]. intros _ s4 H4.
  eapply (runs_then _ _ _ (fun _ => J (S k))); [by apply calm_session|]. clear p Hp Hst'. intros p s5 H5. cbn beta in *.
  eapply (runs_then _ _ _ (fun _ => J k)).
  - destruct (fullPowerReqPend p); [by apply runs_queue_pending|]. mstep. by apply calm_weak in H5.
  - intros _ s6 H6. by mstep.
Qed.

(** *** Commands *)

Definition cmd_of (r : request) : eSmeCommandType :=
  match r with
  | R_ENTER_BMPS => eSmeCommandEnterBmps | R_EXIT_BMPS => eSmeCommandExitBmps
  | R_ENTER_UAPSD => eSmeCommandEnterUapsd | R_EXIT_UAPSD => eSmeCommandExitUapsd
  end.
Definition requested (r : request) : tPmcState :=
  match r with
  | R_ENTER_BMPS => REQUEST_BMPS | R_EXIT_BMPS => REQUEST_FULL_POWER
  | R_ENTER_UAPSD => REQUEST_START_UAPSD | R_EXIT_UAPSD => REQUEST_STOP_UAPSD
  end.
(** Whether the session has power save when the request is made *)
Definition asleep_before (r : request) : bool := match r with R_ENTER_BMPS => false | _ => true end.

(** A no takes something from the work that is left. *)
Lemma runs_ask e a sts m v W k s : held e a sts m v W k s ->
  runs ask s (fun b s' => held e a sts m v W (if b then k else S (S k)) s').
Proof.
  intros H. unfold ask. mstep. mstep. destruct (luck s) as [|b l] eqn:Hl; [by mstep|]. mstep. mstep. mstep.
  destruct H. constructor; try done. unfold work in *. cbn in *. rewrite Hl in *. destruct b; cbn in *; lia.
Qed.
Lemma runs_send e a sts m1 m2 m3 v W k s x : held e a sts (m1, m2, m3) v W k s ->
  runs (pmcSendMessage x) s (fun st s' => match st with
    | eHAL_STATUS_SUCCESS => held e a sts (m1 ++ [x], m2, m3) v W k s'
    | _ => held e a sts (m1, m2, m3) v W (S (S k)) s'
    end).
Proof.
  intros H. unfold pmcSendMessage. eapply runs_then; [by apply runs_ask|]. intros [] s' H'; cbn beta iota in *; [|by mstep].
  mstep. mstep. mstep. destruct H'. constructor; try done. unfold mail in *. cbn. by simplify_eq.
Qed.

Lemma runs_valid e a sts m v W k s i : held e a sts m v W k s -> opened V i ->
  runs (CSR_IS_SESSION_VALID i) s (fun b s' => b = true /\ s' = s).
Proof.
  intros H Hi. destruct (opened_roam V _ _ (h_open _ _ _ _ _ _ _ _ _ _ H) Hi) as (r & Hr & Hact).
  unfold CSR_IS_SESSION_VALID. destruct Hi as [Hi _]. rewrite (proj2 (Z.ltb_lt _ _)) by lia.
  unfold roam_session. mstep. mstep. mstep. eapply runs_oget; [done|]. by mstep.
Qed.

Lemma held_state_same e a sts m v W k s i st : held e a sts m v W k s -> aget sts i = Some st -> held e a (upd sts i st) m v W k s.
Proof. intros H Hst. by rewrite upd_aget_id. Qed.

(** What [pmcOffloadProcessCommand] does with a command for a session that is in the state
    [st] *)
Definition processed (x : list (Z * bool)) (a : list tSmeCmd) sts m1 m2 m3 v W k c st (b : bool) s' : Prop :=
  if b then exists st', restful st' = true /\ asleep st' = asleep st
      /\ held x a (upd sts (cmd_session c) st') (m1, m2, m3) v W
           (if bool_decide (command c = eSmeCommandExitBmps) && asleep st then S (S k) else k) s'
  else exists r u, command c = cmd_of r /\ asleep st = asleep_before r
      /\ held x a (upd sts (cmd_session c) (requested r)) (m1 ++ [eWNI_PMC_REQ r (cmd_session c) u], m2, m3) v W k s'.

Section Command.
Context (x : list (Z * bool)) (a : list tSmeCmd) (sts : list tPmcState) (m1 : list pe_msg) (m2 : list fw_msg) (m3 : list sme_msg)
  (v : list tPmmOffloadInfo * bool) (W : nat) (c : tSmeCmd).
Context (Ha : a <> []) (Hc : opened V (cmd_session c)).
#[local] Abbreviation i := (cmd_session c).
#[local] Abbreviation m := (m1, m2, m3).
#[local] Instance calm_sts sts' m' : Calm V kick (held x a sts' m' v W) := busy_calm _ _ _ _ _ _ Ha.

(** The command that is not for the state the session is in is removed. *)
Lemma processed_ignored k s st : held x a sts m v W k s -> aget sts i = Some st -> restful st = true ->
  bool_decide (command c = eSmeCommandExitBmps) && asleep st = false -> processed x a sts m1 m2 m3 v W k c st true s.
Proof. intros H Hst Hr Hb. exists st. rewrite Hb. split_and!; [done|done|]. by apply held_state_same. Qed.

(** The request was sent, and the state of the session is set. *)
Lemma runs_requested k s r u st : held x a sts (m1 ++ [eWNI_PMC_REQ r i u], m2, m3) v W k s -> command c = cmd_of r ->
  asleep st = asleep_before r ->
  runs (upd_session i (set_pmcState (requested r)) ;; mreturn false) s (processed x a sts m1 m2 m3 v W k c st).
Proof.
  intros H Hr Hst. mstep. eapply (runs_set_state _ _ _ _ _ _ _ _ _ _ (requested r)); [done|done|done|].
  intros s' _ H' _ _. mstep. by exists r, u.
Qed.

Lemma runs_process_enter_bmps k s st : held x a sts m v W k s -> aget sts i = Some st -> restful st = true ->
  command c = eSmeCommandEnterBmps -> runs (pmcOffloadProcessCommand kick c) s (processed x a sts m1 m2 m3 v W k c st).
Proof.
  intros H Hst Hr Hcmd. unfold pmcOffloadProcessCommand. eapply runs_then; [by apply (runs_valid _ _ _ _ _ _ _ _ _ H)|].
  intros b s' [-> ->]. cbn [negb]. destruct (held_session _ _ _ _ _ _ _ _ _ _ _ H (proj1 Hc)) as (p & Hp & Hst').
  simplify_eq. mstep. eapply runs_ps_session; [done|]. rewrite Hcmd. cbn beta iota.
  case_bool_decide as Hfp; [|mstep; apply processed_ignored; by rewrite ?Hcmd].
  eapply runs_then; [by apply (calm_enable_check (J := held x a sts m v W) k)|]. intros st s1 H1. cbn beta in H1.
  eapply (runs_then _ _ _ (fun st s' => if bool_decide (st = eHAL_STATUS_SUCCESS)
    then exists u, held x a sts (m1 ++ [eWNI_PMC_REQ R_ENTER_BMPS i u], m2, m3) v W k s' else held x a sts m v W k s')).
  - case_bool_decide; [|mstep; by rewrite bool_decide_eq_false_2].
    eapply runs_then; [by apply (calm_session (J := held x a sts m v W) k)|]. intros p' s2 H2.
    eapply runs_then; [by apply (calm_upd (J := held x a sts m v W) k)|]. intros [] s3 H3.
    eapply runs_mono; [by apply runs_send|]. intros st' s4 H4. cbn beta in *. destruct st'; cbn;
      first [by eexists|by (eapply held_weak; [exact H4|lia])].
  - intros st' s2 H2. cbn beta in *. case_bool_decide.
    + destruct H2 as (u & H2). eapply (runs_requested _ _ R_ENTER_BMPS); [done|done|]. by rewrite Hfp.
    + apply runs_bnd. eapply runs_mono; [by apply runs_exit_powersave|]. intros [] s3 H3. mstep. exists FULL_POWER.
      rewrite Hcmd, Hfp. by split_and!.
Qed.

Lemma runs_process_exit_bmps k s st : held x a sts m v W k s -> aget sts i = Some st -> restful st = true ->
  command c = eSmeCommandExitBmps -> runs (pmcOffloadProcessCommand kick c) s (processed x a sts m1 m2 m3 v W k c st).
Proof.
  intros H Hst Hr Hcmd. unfold pmcOffloadProcessCommand. eapply runs_then; [by apply (runs_valid _ _ _ _ _ _ _ _ _ H)|].
  intros b s' [-> ->]. cbn [negb]. destruct (held_session _ _ _ _ _ _ _ _ _ _ _ H (proj1 Hc)) as (p & Hp & Hst').
  simplify_eq. mstep. eapply runs_ps_session; [done|]. rewrite Hcmd. cbn beta iota.
  destruct (bool_decide (pmcState p = BMPS) || bool_decide (pmcState p = UAPSD)) eqn:Hz.
  2: { mstep. apply processed_ignored; [done|done|done|]. destruct (pmcState p); try done; by rewrite andb_false_r. }
  assert (Has : asleep (pmcState p) = true) by (by destruct (pmcState p)).
  eapply (runs_then _ _ _ (fun _ => held x a sts m v W k)).
  { destruct (bool_decide (pmcState p = UAPSD)); [|by mstep]. by apply (calm_upd (J := held x a sts m v W)). }
  clear Hz. intros _ s1 H1. cbn beta in *. eapply runs_then; [by apply runs_send|]. intros st s2 H2. cbn beta in *.
  destruct (bool_decide_reflect (st = eHAL_STATUS_SUCCESS)) as [->|Hne].
  - by eapply (runs_requested _ _ R_EXIT_BMPS).
  - apply runs_bnd. eapply runs_mono; [apply runs_full_power_callbacks; [done|done|]|].
    + instantiate (1 := S (S k)). destruct st; done.
    + intros [] s3 H3. mstep. exists (pmcState p). rewrite Hcmd, Has. split_and!; [done|done|]. by apply held_state_same.
Qed.

Lemma runs_process_enter_uapsd k s st : held x a sts m v W k s -> aget sts i = Some st -> restful st = true ->
  command c = eSmeCommandEnterUapsd -> runs (pmcOffloadProcessCommand kick c) s (processed x a sts m1 m2 m3 v W k c st).
Proof.
  intros H Hst Hr Hcmd. unfold pmcOffloadProcessCommand. eapply runs_then; [by apply (runs_valid _ _ _ _ _ _ _ _ _ H)|].
  intros b s' [-> ->]. cbn [negb]. destruct (held_session _ _ _ _ _ _ _ _ _ _ _ H (proj1 Hc)) as (p & Hp & Hst').
  simplify_eq. mstep. eapply runs_ps_session; [done|]. rewrite Hcmd. cbn beta iota.
  case_bool_decide as Hb; [|mstep; apply processed_ignored; by rewrite ?Hcmd].
  eapply runs_then; [by apply (calm_upd (J := held x a sts m v W) k)|]. intros [] s1 H1.
  eapply runs_then; [by apply runs_send|]. intros st s2 H2. cbn beta in *.
  destruct (bool_decide_reflect (st = eHAL_STATUS_SUCCESS)) as [->|Hne].
  - eapply (runs_requested _ _ R_ENTER_UAPSD); [done|done|]. by rewrite Hb.
  - assert (held x a sts m v W k s2) as H3 by (destruct st; try done; eapply held_weak; try done; lia).
    apply runs_bnd. eapply runs_mono; [by apply (calm_uapsd_callbacks (J := held x a sts m v W) k)|].
    intros [] s3 H4. mstep. apply processed_ignored; by rewrite ?Hcmd.
Qed.

Lemma runs_process_exit_uapsd k s st : held x a sts m v W k s -> aget sts i = Some st -> restful st = true ->
  command c = eSmeCommandExitUapsd -> runs (pmcOffloadProcessCommand kick c) s (processed x a sts m1 m2 m3 v W k c st).
Proof.
  intros H Hst Hr Hcmd. unfold pmcOffloadProcessCommand. eapply runs_then; [by apply (runs_valid _ _ _ _ _ _ _ _ _ H)|].
  intros b s' [-> ->]. cbn [negb]. destruct (held_session _ _ _ _ _ _ _ _ _ _ _ H (proj1 Hc)) as (p & Hp & Hst').
  simplify_eq. mstep. eapply runs_ps_session; [done|]. rewrite Hcmd. cbn beta iota.
  case_bool_decide as Hb; [|mstep; apply processed_ignored; by rewrite ?Hcmd].
  eapply runs_then; [by apply runs_send|]. intros st s2 H2. cbn beta in *.
  destruct (bool_decide_reflect (st = eHAL_STATUS_SUCCESS)) as [->|Hne].
  - eapply (runs_requested _ _ R_EXIT_UAPSD); [done|done|]. by rewrite Hb.
  - assert (held x a sts m v W (S k) s2) as H3 by (destruct st; try done; eapply held_weak; try done; lia).
    apply runs_bnd. eapply runs_mono; [by apply runs_enter_powersave|].
    intros [] s3 (st' & Hst2 & H4). mstep. exists st'. rewrite Hcmd, Hb. split_and!; [by destruct st'|done|done].
Qed.

Lemma runs_process_command k s st : held x a sts m v W k s -> aget sts i = Some st -> restful st = true ->
  tame (command c) = true -> is_pmc (command c) = true ->
  runs (pmcOffloadProcessCommand kick c) s (processed x a sts m1 m2 m3 v W k c st).
Proof.
  intros H Hst Hr Ht Hp. destruct (command c) eqn:Hcmd; try done.
  - by apply runs_process_enter_bmps.
  - by apply runs_process_exit_bmps.
  - by apply runs_process_enter_uapsd.
  - by apply runs_process_exit_uapsd.
Qed.
End Command.
End Busy.
