(* ===== verification/PmcLoop.v ===== *)
(** * Power save: the loop over the commands

    [consistent] says how the states of the sessions, the active command, the messages and the
    protocol engine belong together.  A driver at rest for which it holds is one for which it
    holds after any number of rounds of [smeProcessCommand], and every round that lets the loop
    go on takes from the work that is left. *)

From S2P Require Import Prelude Pmc PmcInv PmcBusy.

Local Open Scope c_scope.

#[local] Abbreviation ST := tAniSirGlobal.
Implicit Types (s : ST) (p : tPsOffloadPerSessionInfo) (c : tSmeCmd) (q : tSmeStruct) (i : Z) (k : nat).

(** ** Where the driver is *)

(** Where a request is: on its way to the protocol engine or to the firmware, answered, or
    dropped by the protocol engine *)
Inductive place := At_pe | At_fw | Answered (ok : bool) | Lost.
#[global] Instance place_eqdec : EqDecision place.
Proof. solve_decision. Defined.
(** No request of power save is made, or one for a session *)
Inductive phase := Rest | Asked (r : request) (i : Z) (w : place).

Definition is_rsp (x : sme_msg) : bool := match x with eWNI_PMC_RSP _ _ | eWNI_PMC_OTHER_RSP => true | _ => false end.
Definition current (ph : phase) (j : Z) : option (request * place) :=
  match ph with Asked r i w => if bool_decide (j = i) then Some (r, w) else None | Rest => None end.
(** The state of a session, and whether the protocol engine has power save for it *)
Definition state_ok (ph : phase) (j : Z) (st : tPmcState) : Prop :=
  match current ph j with Some (r, _) => st = requested r | None => restful st = true end.
Definition powered (ph : phase) (j : Z) (st : tPmcState) : bool :=
  match current ph j with
  | Some (R_ENTER_BMPS, w) => bool_decide (w = Answered true)
  | Some (R_EXIT_BMPS, w) => negb (bool_decide (w = Answered true))
  | Some _ => true
  | None => asleep st
  end.

Record consistent (ph : phase) (a : list tSmeCmd) (sts : list tPmcState) (m : list pe_msg * list fw_msg * list sme_msg)
    (v : list tPmmOffloadInfo * bool) : Prop := {
  c_active : match ph with
    | Rest => a = [] \/ exists c, a = [c] /\ is_pmc (command c) = false
    | Asked r i _ => exists c, a = [c] /\ command c = cmd_of r /\ cmd_session c = i
    end;
  c_pe : match ph with Asked r i At_pe => exists u, m.1.1 = [eWNI_PMC_REQ r i u] | _ => m.1.1 = [] end;
  c_fw : match ph with Asked r i At_fw => exists u, m.1.2 = [WDA_REQ r i u] | _ => m.1.2 = [] end;
  c_sme : filter is_rsp m.2 = match ph with Asked r i (Answered ok) => [eWNI_PMC_RSP r ok] | _ => [] end;
  c_gate : v.2 = bool_decide (m.1.2 = []);
  c_lost : match ph with Asked r _ Lost => r = R_ENTER_UAPSD \/ r = R_EXIT_UAPSD | _ => True end;
  c_sessions : length v.1 = Z.to_nat CSR_ROAM_SESSION_MAX;
  c_states : forall j st, aget sts j = Some st -> state_ok ph j st;
  c_engine : forall j st e, aget sts j = Some st -> aget v.1 j = Some e -> power_save e = powered ph j st
}.

Lemma consistent_rest_upd a sts m v i st st' : consistent Rest a sts m v -> aget sts i = Some st ->
  restful st' = true -> asleep st' = asleep st -> consistent Rest a (upd sts i st') m v.
Proof.
  intros [] Hi Hr Ha. pose proof (aget_Some_range _ _ _ Hi) as Hrng. constructor; try done.
  - intros j stj. rewrite aget_upd by done. case_decide; [|apply c_states0]. by intros [= <-].
  - intros j stj p. rewrite aget_upd by done. case_decide as Hji; [|apply c_engine0]. intros [= <-] Hp. subst j.
    unfold powered. cbn. rewrite Ha. by apply (c_engine0 i).
Qed.
Lemma consistent_ask c sts m1 m2 m3 v st r u : consistent Rest [] sts (m1, m2, m3) v -> aget sts (cmd_session c) = Some st ->
  asleep st = asleep_before r -> command c = cmd_of r ->
  consistent (Asked r (cmd_session c) At_pe) [c] (upd sts (cmd_session c) (requested r)) (m1 ++ [eWNI_PMC_REQ r (cmd_session c) u], m2, m3) v.
Proof.
  intros [] Hi Ha Hc. pose proof (aget_Some_range _ _ _ Hi) as Hrng. cbn in *. subst m1 m2. constructor; try done.
  - by exists c.
  - by exists u.
  - intros j stj. rewrite aget_upd by done. unfold state_ok, current. case_decide as Hji.
    + rewrite bool_decide_eq_true_2 by done. by intros [= <-].
    + rewrite bool_decide_eq_false_2 by congruence. apply c_states0.
  - intros j stj e. rewrite aget_upd by done. unfold powered, current. case_decide as Hji.
    + subst j. rewrite bool_decide_eq_true_2 by done. intros [= <-] He. rewrite (c_engine0 _ _ _ Hi He), Ha. by destruct r.
    + rewrite bool_decide_eq_false_2 by congruence. apply c_engine0.
Qed.
Lemma consistent_active c sts m v : consistent Rest [] sts m v -> is_pmc (command c) = false -> consistent Rest [c] sts m v.
Proof. intros [] Hc. constructor; try done. right. by exists c. Qed.
Lemma consistent_idle a sts m v : consistent Rest a sts m v -> consistent Rest [] sts m v.
Proof. intros []. constructor; try done. by left. Qed.

Section Loop.
Context (n : Z) (V : list bool).
#[local] Abbreviation held := (held n V).

(** ** Commands are released *)

Lemma held_drop e a sts m v W k s j : held ((j, true) :: e) a sts m v W k s -> held e a sts m v W k s.
Proof.
  intros []. constructor; try done. destruct h_pool as (H1 & H2 & H3 & H4). cbn in *. split_and!; [|done| |done].
  - by apply NoDup_cons in H1 as [_ ?].
  - intros i Hi. apply H3. by right.
Qed.
Lemma runs_release e a sts m v W k s c : held (own c :: e) a sts m v W k s -> fReleaseWhenDone c = false ->
  runs (smeReleaseCommand c) s (fun _ s' => held e a sts m v W k s').
Proof.
  intros H Hf. unfold smeReleaseCommand, upd_sme. mstep.
  eapply (held_sme _ _ _ _ _ _ _ _ _ _ _ k _ _ H); cbn; [done|done|apply H| |apply H|apply H|done].
  unfold owned, commands, own. cbn. rewrite Hf, !fmap_app. cbn [fmap list_fmap]. perm.
Qed.
Lemma runs_pmc_release e a sts m v W k s c : held (own c :: e) a sts m v W k s ->
  runs (pmcReleaseCommand c) s (fun _ s' => held e a sts m v W k s').
Proof.
  intros H. unfold pmcReleaseCommand. destruct (fReleaseWhenDone c) eqn:Hf; [|by eapply runs_release].
  mstep. unfold own in H. rewrite Hf in H. by eapply held_drop.
Qed.
Lemma runs_abort (kick : M ST unit) e a sts m v W k s c : held (own c :: e) a sts m v W k s -> cmd_ok V c ->
  runs (smeAbortCommand kick c true) s (fun _ s' => held e a sts m v W k s').
Proof.
  intros H (_ & _ & Hc). unfold smeAbortCommand, pmcOffloadAbortCommand.
  destruct (is_pmc (command c)); [cbn [negb]; mstep; mstep; by apply runs_pmc_release|].
  apply runs_release; [done|]. destruct (fReleaseWhenDone c); [by specialize (Hc eq_refl)|done].
Qed.
Lemma cmd_ok_release c : cmd_ok V c -> is_pmc (command c) = false -> fReleaseWhenDone c = false.
Proof. intros (_ & _ & Hc) Hp. destruct (fReleaseWhenDone c); [|done]. rewrite (Hc eq_refl) in Hp. done. Qed.

(** The only active command is removed. *)
Lemma held_inactive e sts m v W k s c : held e [c] sts m v W k s ->
  held (own c :: e) [] sts m v W k (set_sme (set_active (without_cmd c (smeCmdActiveList (sme s))) (sme s)) s).
Proof.
  intros H. pose proof (h_active _ _ _ _ _ _ _ _ _ _ H) as Ha. rewrite Ha, without_cmd_cons, bool_decide_eq_true_2 by done.
  pose proof (h_cmds _ _ _ _ _ _ _ _ _ _ H) as Hcs. unfold commands in Hcs. rewrite Ha, Forall_app in Hcs.
  eapply (held_sme _ _ _ _ _ _ _ _ _ _ _ k _ _ H); cbn; [done|done|done| |apply Hcs|apply H|done].
  unfold owned, commands. cbn. rewrite Ha, !fmap_app. cbn [fmap list_fmap]. perm.
Qed.
Lemma held_activate e sts m v W k s c : held (own c :: e) [] sts m v W k s -> cmd_ok V c ->
  held e [c] sts m v W k (set_sme (set_active (c :: smeCmdActiveList (sme s)) (sme s)) s).
Proof.
  intros H Hc. pose proof (h_active _ _ _ _ _ _ _ _ _ _ H) as Ha.
  pose proof (h_cmds _ _ _ _ _ _ _ _ _ _ H) as Hcs. unfold commands in Hcs. rewrite Ha, Forall_app in Hcs.
  eapply (held_sme _ _ _ _ _ _ _ _ _ _ _ k _ _ H); cbn; [done|done|by rewrite Ha| | |apply H|done].
  - unfold owned, commands. cbn. rewrite Ha, !fmap_app. cbn [fmap list_fmap]. perm.
  - unfold commands. cbn. rewrite Ha. cbn. constructor; [done|apply Hcs].
Qed.
(** A waiting command is taken. *)
Lemma held_take x sts m v W k s c : held x [] sts m v W k s -> c ∈ smeCmdPendingList (sme s) ->
  held (own c :: x) [] sts m v W (S k) (set_sme (set_pending (without_cmd c (smeCmdPendingList (sme s))) (sme s)) s).
Proof.
  intros H Hin. pose proof (h_active _ _ _ _ _ _ _ _ _ _ H) as Ha.
  assert (Hp : smeCmdPendingList (sme s) ≡ₚ c :: without_cmd c (smeCmdPendingList (sme s))).
  { apply without_cmd_perm; [done|]. eapply (pool_nodup _ _ _ (smeCmdActiveList (sme s))); [apply H|]. unfold commands. reflexivity. }
  pose proof (h_cmds _ _ _ _ _ _ _ _ _ _ H) as Hcs. unfold commands in Hcs. rewrite Hp, !Forall_app, Forall_cons in Hcs.
  eapply (held_sme _ _ _ _ _ _ _ _ _ _ _ (S k) _ _ H); cbn; [done|done|done| | |apply H|].
  - unfold owned, commands. cbn. rewrite Hp at 1. rewrite !fmap_app, fmap_cons. perm.
  - unfold commands. cbn. rewrite !Forall_app. tauto.
  - unfold load. cbn. rewrite (Permutation_length Hp). cbn. lia.
Qed.
Lemma held_pending_ok e a sts m v W k s c : held e a sts m v W k s -> c ∈ smeCmdPendingList (sme s) -> cmd_ok V c.
Proof.
  intros H Hin. pose proof (h_cmds _ _ _ _ _ _ _ _ _ _ H) as Hcs. unfold commands in Hcs. rewrite !Forall_app in Hcs.
  destruct Hcs as (_ & Hcs & _). by eapply (proj1 (Forall_forall _ _)) in Hcs.
Qed.

(** ** One round *)

(** The buffers a function holds that waits for the loop *)
Context (x : list (Z * bool)).
Context (kick : M ST unit).
Context (kick_busy : forall s, smeCmdActiveList (sme s) <> [] -> kick s = Some (tt, s)).

Definition inv s : Prop := exists ph a sts m v W, held x a sts m v W 0 s /\ consistent ph a sts m v.
(** A round that lets the loop go on has taken [k] from the work that is left. *)
Definition went m v W k (b : bool) s : Prop :=
  if b then exists sts, held x [] sts m v W k s /\ consistent Rest [] sts m v else inv s.
Lemma went_false m v W k s a sts : held x a sts m v W 0 s -> consistent Rest a sts m v -> went m v W k false s.
Proof. intros H1 H2. by exists Rest, a, sts, m, v, W. Qed.
Lemma went_weak m v W W' k k' b s : went m v W k b s -> (k' + W <= k + W')%nat -> went m v W' k' b s.
Proof. destruct b; [|done]. intros (sts & H1 & H2) Hw. exists sts. split; [by eapply held_weak|done]. Qed.

Lemma runs_ask_sme e a sts m v W k s : held e a sts m v W k s ->
  runs ask s (fun b s' => held e a sts m v W (if b then k else S (S k)) s' /\ sme s' = sme s).
Proof.
  intros H. apply runs_and; [by apply runs_ask|]. unfold ask. mstep. mstep. destruct (luck s); mstep; [done|]. by mstep; mstep.
Qed.
Lemma runs_scan_queue a sts m v W k s : held x a sts m v W k s ->
  runs smeProcessScanQueue s (fun _ s' => held x a sts m v W k s').
Proof.
  intros H. unfold smeProcessScanQueue. mstep. mstep.
  destruct (smeScanCmdActiveList (sme s)) as [|c0 l0] eqn:Hsa; [|by mstep].
  destruct (smeScanCmdPendingList (sme s)) as [|c l] eqn:Hsp; [by mstep|]. case_bool_decide; cbn [negb]; [|by mstep].
  pose proof (h_cmds _ _ _ _ _ _ _ _ _ _ H) as Hcs. pose proof (h_scan _ _ _ _ _ _ _ _ _ _ H) as [_ Hsc].
  unfold commands in Hcs. rewrite Hsa, Hsp in *. rewrite !Forall_app, Forall_cons in Hcs. destruct Hcs as (Hc1 & Hc2 & _ & [Hc Hl] & Hc5).
  cbn in Hsc. apply Forall_cons in Hsc as [Hcn Hln].
  destruct (opened_roam V _ _ (h_open _ _ _ _ _ _ _ _ _ _ H) (proj1 Hc)) as (r & Hr & _).
  unfold CSR_IS_WAIT_FOR_KEY, roam_session. mstep. mstep. mstep. mstep. eapply runs_oget; [done|]. mstep.
  destruct (waitForKey r); [by mstep|]. unfold upd_sme. mstep. mstep.
  assert (Hnd : without_cmd c (smeScanCmdPendingList (sme s)) ≡ₚ l).
  { rewrite Hsp. symmetry. apply (Permutation_cons_inv (a := c)). apply without_cmd_perm; [left|]. rewrite <- Hsp.
    eapply (pool_nodup _ _ _ (smeCmdActiveList (sme s) ++ smeCmdPendingList (sme s) ++ [])); [apply H|].
    unfold commands. rewrite Hsa, <- !app_assoc. reflexivity. }
  set (l' := without_cmd c _) in *.
  assert (H1 : held x a sts m v W k (set_sme (set_scan_active [c] (set_scan_pending l' (sme s))) s)).
  { eapply (held_sme _ _ _ _ _ _ _ _ _ _ _ k _ _ H); cbn; [done|done|apply H| | | |done].
    - unfold owned, commands. cbn. rewrite Hsa, Hsp, Hnd, !fmap_app. cbn [fmap list_fmap]. perm.
    - unfold commands. cbn. rewrite Hnd. repeat first [rewrite Forall_app|rewrite Forall_cons]. tauto.
    - split; [done|]. cbn. constructor; [done|]. by rewrite Hnd. }
  eapply runs_then; [by apply (runs_ask_sme _ _ _ _ _ _ _ _ H1)|]. intros b s2 [H2 Hs2]. cbn beta in H2. apply runs_bnd.
  assert (H2' : held x a sts m v W k s2) by (destruct b; [done|]; eapply held_weak; [exact H2|lia]).
  destruct b; [by mstep; mstep|]. unfold upd_sme. mstep. mstep. apply (runs_mono _ _ (fun _ s' => held x a sts m v W k s')); [|by intros; mstep].
  apply runs_release; [|by apply cmd_ok_release].
  eapply (held_sme _ _ _ _ _ _ _ _ _ _ _ k _ _ H2'); cbn; [done|done|apply H2'| | | |done].
  - unfold owned, commands. cbn. rewrite Hs2. cbn. rewrite !fmap_app. cbn [fmap list_fmap]. perm.
  - pose proof (h_cmds _ _ _ _ _ _ _ _ _ _ H2') as Hcs'. unfold commands in *. rewrite Hs2 in *. cbn in *. repeat first [rewrite Forall_app in Hcs'|rewrite Forall_cons in Hcs']. repeat rewrite Forall_app. tauto.
  - rewrite Hs2. split; cbn; [lia|]. by rewrite Hnd.
Qed.

(** Full power is only needed when the session has power save, and no command is dropped. *)
Lemma runs_full_power_needed e a sts m v W k s c st : held e a sts m v W k s -> cmd_ok V c ->
  aget sts (cmd_session c) = Some st -> restful st = true ->
  runs (smePsOffloadIsFullPowerNeeded c) s (fun need s' => s' = s /\ exists b : bool, need = Some b
    /\ (b = true -> asleep st = true /\ is_pmc (command c) = false)).
Proof.
  intros H (Hi & _) Hst Hr. destruct (held_session _ _ _ _ _ _ _ _ _ _ _ H (proj1 Hi)) as (p & Hp & Hst'). simplify_eq.
  assert (Hget : forall Q, Q (pmcState p) s -> runs (pmcOffloadGetPmcState (cmd_session c)) s Q).
  { intros Q HQ. unfold pmcOffloadGetPmcState. mstep. eapply runs_ps_session; [done|]. by mstep. }
  unfold smePsOffloadIsFullPowerNeeded, csrPsOffloadIsFullPowerNeeded. mstep.
  destruct (pmcState p) eqn:Hs, (command c) eqn:Hcmd; try done; cbn; repeat case_bool_decide; try done;
    repeat first [mstep|apply Hget]; cbn; split; try done; eexists; (split; [done|]); by intros [=].
Qed.

(** The command that is put in front of one that needs full power *)
Lemma runs_wake_up sts m v W k s c st : held x [] sts m v W k s -> consistent Rest [] sts m v -> cmd_ok V c ->
  aget sts (cmd_session c) = Some st -> asleep st = true -> runs (wake_up kick c) s (went m v W (S (S k))).
Proof.
  intros H HC (Hi & _) Hst Has. destruct m as [[m1 m2] m3]. unfold wake_up.
  assert (Hr : restful st = true) by (by destruct st).
  eapply runs_then; [by apply runs_prepare|]. intros [status [e|]] s1.
  2: { destruct status; intros Hx; destruct Hx; try done; mstep; by exists sts. }
  destruct status; try done. intros (He1 & He2 & H1). unfold upd_sme. mstep. mstep.
  assert (He : cmd_ok V e) by (unfold cmd_ok; by rewrite He1, He2).
  assert (H2 := held_activate _ _ _ _ _ _ _ _ H1 He). rewrite <- He1 in Hst, Hi.
  eapply runs_then; [apply (runs_process_command n V kick kick_busy x [e] sts m1 m2 m3 v W e); try done; by rewrite He2|].
  intros b s2 H3. cbn beta in H3. destruct b.
  - destruct H3 as (st' & Hr' & Ha' & H3). rewrite He2, Has in H3. cbn in H3. mstep. mstep. mstep.
    apply (runs_mono _ _ (fun _ s' => held x [] (upd sts (cmd_session e) st') (m1, m2, m3) v W (S (S k)) s')).
    + apply runs_pmc_release. by apply held_inactive.
    + intros [] s3 H4. mstep. eexists. split; [done|]. by eapply consistent_rest_upd.
  - destruct H3 as (r & u & Hcr & Har & H3). mstep. mstep. mstep. eexists _, _, _, _, _, W. split; [eapply held_weak; [exact H3|lia]|].
    by apply consistent_ask with st.
Qed.

Lemma runs_process_other sts m v W k s c : held x [c] sts m v W k s -> consistent Rest [] sts m v -> cmd_ok V c ->
  is_pmc (command c) = false -> runs (process_other c) s (went m v W (S (S k))).
Proof.
  intros H HC Hc Hp. unfold process_other. eapply runs_then; [by apply runs_ask|]. intros [] s1 H1; cbn beta iota in *.
  - mstep. eapply went_false; [eapply held_weak; [exact H1|lia]|]. by apply consistent_active.
  - unfold upd_sme. mstep. mstep.
    apply runs_bnd, (runs_mono _ _ (fun _ s' => held x [] sts m v W (S (S k)) s')).
    + apply runs_release; [by apply held_inactive|by apply cmd_ok_release].
    + intros [] s2 H2. mstep. by exists sts.
Qed.

(** The command that is at the head of the queue *)
Lemma runs_process_entry sts m v W k s c : held x [] sts m v W k s -> consistent Rest [] sts m v ->
  c ∈ smeCmdPendingList (sme s) ->
  runs (process_entry kick c) s (went m v W (if is_pmc (command c) then S k else S (S k))).
Proof.
  intros H HC Hin. assert (Hc := held_pending_ok _ _ _ _ _ _ _ _ _ H Hin).
  destruct (held_session _ _ _ _ _ _ _ _ _ _ _ H (proj1 (proj1 Hc))) as (p & Hp & Hst).
  assert (Hr : restful (pmcState p) = true) by apply (c_states _ _ _ _ _ HC _ _ Hst).
  unfold process_entry. eapply runs_then; [by eapply runs_full_power_needed|]. intros need s1 (-> & b & -> & Hb).
  destruct b.
  - destruct (Hb eq_refl) as [Has Hn]. rewrite Hn. by eapply runs_wake_up.
  - unfold upd_sme. mstep. mstep.
    assert (H1 := held_activate _ _ _ _ _ _ _ _ (held_take _ _ _ _ _ _ _ _ H Hin) Hc). cbn in H1.
    destruct (is_pmc (command c)) eqn:Hpm.
    + destruct m as [[m1 m2] m3].
      eapply runs_then; [eapply (runs_process_command n V kick kick_busy x [c] sts m1 m2 m3 v W c); try done; apply Hc|].
      intros b s2 H3. cbn beta in H3. destruct b.
      * destruct H3 as (st' & Hr' & Ha' & H3). mstep. mstep. mstep.
        apply (runs_mono _ _ (fun _ s' => held x [] (upd sts (cmd_session c) st') (m1, m2, m3) v W (S k) s')).
        -- apply runs_pmc_release. apply held_inactive. eapply held_weak; [exact H3|]. destruct (_ && _); lia.
        -- intros [] s3 H4. mstep. eexists. split; [done|]. by eapply consistent_rest_upd.
      * destruct H3 as (r & u & Hcr & Har & H3). mstep. mstep. mstep. eexists _, _, _, _, _, W.
        split; [eapply held_weak; [exact H3|lia]|]. by eapply consistent_ask.
    + eapply runs_mono; [by eapply runs_process_other|]. intros b' s2 Hw. eapply went_weak; [exact Hw|]. lia.
Qed.

(** While keys are awaited: a disconnect that is put in front is more work, which is made up
    for when the loop goes on after it. *)
Lemma runs_disconnect_first sts m v W k s c : held x [] sts m v W (S k) s -> cmd_ok V c -> c ∈ smeCmdPendingList (sme s) ->
  runs (disconnect_first c) s (fun d s' => match d with
    | Some d => d ∈ smeCmdPendingList (sme s')
        /\ if is_pmc (command d) then False else exists sts', sts' = sts /\ held x [] sts' m v W k s'
    | None => held x [] sts m v W k s'
    end).
Proof.
  intros H Hc Hin. unfold disconnect_first. case_bool_decide as Hd.
  - eapply runs_then; [by apply runs_get_buffer|]. intros [j|] s1 H1; cbn beta iota in H1.
    + unfold upd_sme. mstep. mstep. mstep. split; [left|]. eexists. split; [done|].
      set (d := {| cmd_id := j; command := _; cmd_session := _; fReleaseWhenDone := _ |}).
      apply (held_push n V x [] sts m v W k s1 d true); [done|]. unfold cmd_ok. cbn. split_and!; [apply Hc|done|done].
    + subst s1. mstep. eapply held_weak; [exact H|lia].
  - mstep. case_bool_decide as Hs; [|eapply held_weak; [exact H|lia]]. rewrite Hs. split; [done|]. eexists. split; [done|].
    eapply held_weak; [exact H|lia].
Qed.

Lemma runs_round sts m v W s : held x [] sts m v W 0 s -> consistent Rest [] sts m v ->
  runs (smeProcessCommand kick) s (went m v W 1).
Proof.
  intros H HC. unfold smeProcessCommand. mstep. mstep.
  eapply (runs_then _ _ _ (went m v W 1)).
  - rewrite (h_active _ _ _ _ _ _ _ _ _ _ H).
    match goal with |- runs (match ?x with Some _ => _ | None => _ end) _ _ => set (o := x) end.
    assert (Ho : forall c, o = Some c -> c ∈ smeCmdPendingList (sme s)).
    { intros c. unfold o, csrGetCmdToProcess. intros Hx.
      assert (Hh : forall l : list tSmeCmd, head l = Some c -> c ∈ l) by (intros [|? ?] [= ->]; left).
      destruct (smeScanCmdActiveList (sme s)); [by apply Hh|]. destruct (fScanOffload s); [|by apply Hh].
      apply Hh in Hx. by apply list_elem_of_filter in Hx as [_ ?]. }
    destruct o as [c|]; [|by mstep; eapply went_false]. specialize (Ho _ eq_refl).
    assert (Hc := held_pending_ok _ _ _ _ _ _ _ _ _ H Ho).
    destruct (opened_roam V _ _ (h_open _ _ _ _ _ _ _ _ _ _ H) (proj1 Hc)) as (r & Hr & _).
    unfold CSR_IS_WAIT_FOR_KEY, roam_session. mstep. mstep. mstep. mstep. eapply runs_oget; [done|]. mstep.
    destruct (_ && _).
    + assert (H1 : held x [] sts m v (S W) 1 s) by (eapply held_weak; [exact H|lia]).
      eapply runs_then; [by eapply runs_disconnect_first|]. intros [d|] s1; cbn beta iota.
      * intros [Hd Hx]. destruct (is_pmc (command d)) eqn:Hp; [done|]. destruct Hx as (? & -> & H2).
        eapply runs_mono; [by eapply runs_process_entry|]. intros b s2 Hw. rewrite Hp in Hw. eapply went_weak; [exact Hw|lia].
      * intros H2. mstep. exact (went_false _ _ (S W) 1 _ _ _ H2 HC).
    + eapply runs_mono; [by eapply runs_process_entry|]. intros b s2 Hw. eapply went_weak; [exact Hw|]. destruct (is_pmc _); lia.
  - intros b s1 Hw. destruct (fScanOffload s); [|by mstep]. destruct b.
    + destruct Hw as (sts' & H1 & HC1). eapply runs_then; [by apply runs_scan_queue|]. intros b s2 H2. cbn beta in *.
      mstep. destruct b; [by exists sts'|]. apply (went_false m v W 1 s2 [] sts'); [eapply held_weak; [exact H2|lia]|done].
    + destruct Hw as (ph & a & sts' & m' & v' & W' & H1 & HC1).
      eapply runs_then; [by apply runs_scan_queue|]. intros b s2 H2. cbn beta in *. mstep. by exists ph, a, sts', m', v', W'.
Qed.

(** While a command is active a round does nothing. *)
Lemma round_busy s : smeCmdActiveList (sme s) <> [] -> smeProcessCommand kick s = Some (false, s).
Proof.
  intros Ha. unfold smeProcessCommand, mbnd, mget, mreturn. destruct (smeCmdActiveList (sme s)) eqn:Hact; [done|].
  destruct (fScanOffload s); [|done]. unfold smeProcessScanQueue, mbnd, mget, mreturn.
  destruct (smeScanCmdActiveList (sme s)), (smeScanCmdPendingList (sme s)); try done. by rewrite Hact.
Qed.
End Loop.

Lemma round_no_command (kick1 kick2 : M ST unit) s : smeCmdPendingList (sme s) = [] -> smeProcessCommand kick1 s = smeProcessCommand kick2 s.
Proof.
  intros Hp. unfold smeProcessCommand, mbnd, mget. cbn beta iota. rewrite Hp.
  destruct (smeCmdActiveList (sme s)); cbn beta iota; [|reflexivity].
  destruct (smeScanCmdActiveList (sme s)) as [|x l]; cbn [head]; [reflexivity|].
  destruct (fScanOffload s); cbn [head]; [|reflexivity].
  change (csrGetCmdToProcess [] (cmd_session x)) with (@None tSmeCmd). cbn beta iota. reflexivity.
Qed.

Lemma process_queue_busy f s : smeCmdActiveList (sme s) <> [] -> process_queue (S f) s = Some (tt, s).
Proof. intros Ha. cbn [process_queue]. unfold mbnd. by rewrite round_busy. Qed.

Lemma runs_process_queue n V x f sts m v W s : (W < f)%nat -> held n V x [] sts m v W 0 s -> consistent Rest [] sts m v ->
  runs (process_queue f) s (fun _ => inv n V x).
Proof.
  revert sts W s. induction f as [|f IH]; intros sts W s Hf H HC; [lia|]. cbn [process_queue].
  eapply (runs_then _ _ _ (went n V x m v W 1)).
  - destruct f as [|f].
    + unfold runs. rewrite (round_no_command _ (mreturn tt)).
      * by eapply runs_round.
      * pose proof (h_work _ _ _ _ _ _ _ _ _ _ H) as Hw. unfold work in Hw. destruct (smeCmdPendingList (sme s)); [done|]. cbn in Hw. lia.
    + eapply runs_round; [|done..]. intros s'. apply process_queue_busy.
  - intros [] s1 Hw; [|by mstep]. destruct Hw as (sts' & H1 & HC1). pose proof (h_work _ _ _ _ _ _ _ _ _ _ H1).
    eapply (IH sts' (pred W)); [lia|eapply held_weak; [exact H1|lia]|done].
Qed.

Lemma kick_busy s : smeCmdActiveList (sme s) <> [] -> kick s = Some (tt, s).
Proof. intros Ha. unfold kick, smeProcessPendingQueue, mbnd, mget. by rewrite process_queue_busy. Qed.
