(* ===== verification/PmcSteps.v ===== *)
(** * Power save: every step of the driver

    [within] is the invariant, for any property [Q] of where the driver is that only a request
    the protocol engine dropped may restrict.  Every step keeps it. *)

From S2P Require Import Prelude Pmc PmcInv PmcBusy PmcLoop.

Local Open Scope c_scope.

#[local] Abbreviation ST := tAniSirGlobal.
Implicit Types (s : ST) (p : tPsOffloadPerSessionInfo) (c : tSmeCmd) (q : tSmeStruct) (i : Z) (k : nat).

Section Steps.
Context (n : Z) (V : list bool).
Context (Q : phase -> list tSmeCmd -> list tPmcState -> Prop).
Context (Q_closed : forall ph a sts, Q ph a sts ->
  (exists r i, ph = Asked r i Lost) \/ (forall ph' a' sts', Q ph' a' sts')).
#[local] Abbreviation held := (held n V).

Definition within (x : list (Z * bool)) s : Prop :=
  exists ph a sts m v W, Q ph a sts /\ held x a sts m v W 0 s /\ consistent ph a sts m v.

Lemma within_intro x ph a sts m v W k s : Q ph a sts -> held x a sts m v W k s -> consistent ph a sts m v -> within x s.
Proof. intros HQ H HC. exists ph, a, sts, m, v, (W + k)%nat. split_and!; [done| |done]. eapply held_weak; [exact H|lia]. Qed.

(** Without an active command there is no request, and then nothing restricts. *)
Lemma idle_rest ph sts m v : consistent ph [] sts m v -> ph = Rest.
Proof. intros []. destruct ph; [done|]. by destruct c_active as (? & ? & _). Qed.
Lemma idle_free ph sts m v : Q ph [] sts -> consistent ph [] sts m v -> forall ph' a' sts', Q ph' a' sts'.
Proof. intros HQ HC. rewrite (idle_rest _ _ _ _ HC) in HQ. by destruct (Q_closed _ _ _ HQ) as [(? & ? & ?)|]. Qed.
Lemma inv_within x s : (forall ph a sts, Q ph a sts) -> inv n V x s -> within x s.
Proof. intros HQ (ph & a & sts & m & v & W & H1 & H2). by exists ph, a, sts, m, v, W. Qed.

Lemma runs_kick x s : within x s -> runs kick s (fun _ => within x).
Proof.
  intros (ph & a & sts & m & v & W & HQ & H & HC). destruct a as [|c a].
  - pose proof (idle_free _ _ _ _ HQ HC) as Hfree. rewrite (idle_rest _ _ _ _ HC) in HC.
    unfold kick, smeProcessPendingQueue. mstep. mstep.
    eapply runs_mono; [eapply runs_process_queue; [|by eapply held_exact|exact HC]; lia|]. intros [] s' Hi. by apply inv_within.
  - eapply runs_kick_busy; [exact kick_busy|by rewrite (h_active _ _ _ _ _ _ _ _ _ _ H)|]. by eapply within_intro.
Qed.

(** The queues change. *)
Lemma within_sme x x' s q : within x s -> sme_started q = sme_started (sme s) -> heap_next q = heap_next (sme s) ->
  smeCmdActiveList q = smeCmdActiveList (sme s) -> x ++ owned (sme s) ≡ₚ x' ++ owned q -> Forall (cmd_ok V) (commands q) ->
  scans_ok q -> within x' (set_sme q s).
Proof.
  intros (ph & a & sts & m & v & W & HQ & H & HC) H1 H2 H3 H4 H5 H6.
  assert (H' : held x a sts m v (W + load q) (load q) s) by (eapply held_weak; [exact H|lia]).
  eapply within_intro; [exact HQ| |exact HC].
  eapply (held_sme _ _ _ _ _ _ _ _ _ _ _ 0 _ _ H'); try done; [by rewrite H3; apply H|lia].
Qed.
Lemma within_cmds x s : within x s -> Forall (cmd_ok V) (commands (sme s)).
Proof. intros (ph & a & sts & m & v & W & HQ & H & HC). apply H. Qed.
Lemma within_scans x s : within x s -> scans_ok (sme s).
Proof. intros (ph & a & sts & m & v & W & HQ & H & HC). apply H. Qed.
Lemma within_started x s : within x s -> sme_started (sme s) = true.
Proof. intros (ph & a & sts & m & v & W & HQ & H & HC). apply H. Qed.

Lemma runs_push x s c (b : bool) : within (own c :: x) s -> cmd_ok V c -> runs (smePushCommand kick c b) s (fun _ => within x).
Proof.
  intros H Hc. unfold smePushCommand. mstep. mstep. rewrite (within_started _ _ H). cbn [negb]. unfold upd_sme. mstep. mstep.
  apply runs_kick. destruct H as (ph & a & sts & m & v & W & HQ & H & HC).
  eapply within_intro; [exact HQ| |exact HC]. apply (held_push n V x a sts m v (S W) 0 s c b); [|done].
  eapply held_weak; [exact H|lia].
Qed.

#[export] Instance within_calm x : Calm V kick (fun _ => within x).
Proof.
  constructor; try done.
  - intros k s s' (ph & a & sts & m & v & W & HQ & H & HC) Hs. eapply within_intro; [exact HQ| |exact HC]. by eapply held_alike.
  - intros k s (ph & a & sts & m & v & W & HQ & H & HC). apply H.
  - intros k s (ph & a & sts & m & v & W & HQ & [] & HC). rewrite <- h_sessions, <- h_states. unfold states. by rewrite length_fmap.
  - intros k s i t b (ph & a & sts & m & v & W & HQ & H & HC) Hi Ht Hp. unfold pmcIssueCommand.
    eapply runs_then; [by eapply runs_prepare|]. intros [st [c|]] s'; cbn.
    + destruct st; try done. intros (Hc1 & Hc2 & Hc). apply runs_bnd.
      eapply runs_mono; [apply (runs_push x)|intros [] s'' Hw; by mstep].
      * by eapply within_intro.
      * unfold cmd_ok. by rewrite Hc1, Hc2.
    + intros Hr. assert (st <> eHAL_STATUS_SUCCESS /\ within x s') as [Hst H'].
      { destruct st; destruct Hr as [? Hr]; try done; (split; [done|]; eapply within_intro; [exact HQ|exact Hr|exact HC]). }
      destruct st; try done; by mstep.
Qed.

(** ** Commands of the other modules *)

Lemma runs_release_within x s c : within (own c :: x) s -> fReleaseWhenDone c = false -> runs (smeReleaseCommand c) s (fun _ => within x).
Proof.
  intros (ph & a & sts & m & v & W & HQ & H & HC) Hc. eapply runs_mono; [by eapply runs_release|].
  intros [] s' H'. by eapply within_intro.
Qed.
Lemma runs_abort_within x s c : within (own c :: x) s -> cmd_ok V c -> runs (smeAbortCommand kick c true) s (fun _ => within x).
Proof.
  intros (ph & a & sts & m & v & W & HQ & H & HC) Hc. eapply runs_mono; [by eapply runs_abort|].
  intros [] s' H'. by eapply within_intro.
Qed.

(** A listen command needs no full power. *)
Lemma runs_request_full_power x s c : within x s -> opened V (cmd_session c) ->
  runs (csrRequestFullPower kick c) s (fun st s' => within x s' /\ (command c = eSmeCommandRemainOnChannel -> st = eHAL_STATUS_SUCCESS)).
Proof.
  intros H Ho. apply runs_and; [by apply (calm_csr_request (J := fun _ => within x) 0)|].
  destruct (decide (command c = eSmeCommandRemainOnChannel)) as [Hc|Hc].
  - unfold csrRequestFullPower, csrPsOffloadIsFullPowerNeeded. rewrite Hc. cbn [is_csr negb]. by do 2 mstep.
  - eapply runs_mono; [by apply (calm_csr_request (J := fun _ => within x) 0)|done].
Qed.

(** The command is queued, or it is still the caller's. *)
Definition queued_or_kept x c (st : eHalStatus) s : Prop :=
  st = eHAL_STATUS_SUCCESS /\ within x s
  \/ st <> eHAL_STATUS_SUCCESS /\ command c <> eSmeCommandRemainOnChannel /\ within (own c :: x) s.

Lemma runs_queue_sme x s c (b : bool) : within (own c :: x) s -> cmd_ok V c -> is_pmc (command c) = false ->
  runs (csrQueueSmeCommand kick c b) s (queued_or_kept x c).
Proof.
  intros H Hc Hp. unfold csrQueueSmeCommand. mstep. mstep. rewrite (within_started _ _ H). cbn [negb].
  destruct (bool_decide (command c = eSmeCommandScan) && _) eqn:Hscan.
  { apply andb_true_iff in Hscan as [Hscan%bool_decide_eq_true _]. mstep. right. split_and!; [done|congruence|done]. }
  clear Hscan.
  destruct (_ || _).
  - unfold upd_sme. mstep. mstep. apply runs_bnd. eapply runs_mono; [apply (runs_kick x)|intros [] s' Hw; mstep; by left].
    pose proof (within_cmds _ _ H) as Hcs. pose proof (within_scans _ _ H) as [Hs1 Hs2].
    eapply within_sme; [exact H|done..| | |].
    + unfold owned, commands. cbn. rewrite !fmap_app. cbn [fmap list_fmap]. perm.
    + unfold commands in *. cbn. rewrite !Forall_app in *. rewrite Forall_singleton. tauto.
    + split; [done|]. cbn. rewrite !Forall_app in *. rewrite Forall_singleton. tauto.
  - eapply (runs_then _ _ _ _); [by apply (runs_request_full_power (own c :: x)); [done|apply Hc]|].
    intros st s1 [H1 Hroc]. cbn beta in H1.
    assert (Hq : forall s, within (own c :: x) s -> runs (queue_roam c b) s (fun _ => within x)).
    { intros s2 H2. unfold queue_roam, upd_sme. mstep. pose proof (within_cmds _ _ H2) as Hcs.
      eapply within_sme; [exact H2|done..| | |exact (within_scans _ _ H2)].
      - unfold owned, commands. cbn. destruct b; perm.
      - unfold commands in *. cbn. rewrite !Forall_app in *. destruct b; rewrite ?Forall_cons, ?Forall_app, ?Forall_singleton; tauto. }
    destruct st; try (mstep; right; split_and!; [done|intros Hro; by specialize (Hroc Hro)|done]).
    + mstep. mstep. apply runs_bnd. eapply (runs_mono _ _ (fun _ => within x)); [|intros [] s2 H2; mstep; by left].
      case_bool_decide; [by apply runs_push|by apply Hq].
    + apply runs_bnd. eapply runs_mono; [by apply Hq|intros [] s2 H2; mstep; by left].
Qed.

Lemma runs_queue_command x s t i (b : bool) : within x s -> opened V i -> is_pmc t = false ->
  runs (queue_command kick t i b) s (fun _ => within x).
Proof.
  intros (ph & a & sts & m & v & W & HQ & H & HC) Hi Ht. unfold queue_command.
  eapply runs_then; [by apply runs_get_buffer|]. intros [j|] s1 H1; cbn beta iota in H1.
  - set (c := {| cmd_id := j |}). assert (Hc : cmd_ok V c) by (unfold cmd_ok; cbn; split_and!; [done|by destruct t|done]).
    eapply runs_then; [by apply (runs_queue_sme x); [by eapply within_intro|..]|].
    intros st s2 [[-> H2]|(Hst & Hroc & H2)].
    + rewrite bool_decide_eq_true_2 by done. cbn [orb]. by do 2 mstep.
    + rewrite !bool_decide_eq_false_2 by done. cbn [orb]. apply runs_bnd.
      eapply runs_mono; [apply (runs_release_within x); [exact H2|done]|]. intros [] s3 H3. by mstep.
  - subst s1. mstep. by eapply within_intro.
Qed.

(** A command of another module is completed: it was the active one. *)
Lemma runs_complete x s : within x s -> runs (complete_command kick) s (fun _ => within x).
Proof.
  intros (ph & a & sts & m & v & W & HQ & H & HC). unfold complete_command. mstep. mstep.
  rewrite (h_active _ _ _ _ _ _ _ _ _ _ H). destruct a as [|c a]; [mstep; by eapply within_intro|].
  destruct (is_pmc (command c)) eqn:Hp; [mstep; by eapply within_intro|].
  assert (ph = Rest /\ a = []) as [-> ->].
  { pose proof (c_active _ _ _ _ _ HC) as Hact. destruct ph.
    - by destruct Hact as [|(? & [= -> ->] & _)].
    - destruct Hact as (c' & [= <- ->] & Hcmd & _). rewrite Hcmd in Hp. by destruct r. }
  destruct (Q_closed _ _ _ HQ) as [(? & ? & ?)|Hfree]; [done|].
  pose proof (h_cmds _ _ _ _ _ _ _ _ _ _ H) as Hcs. unfold commands in Hcs.
  rewrite (h_active _ _ _ _ _ _ _ _ _ _ H) in Hcs. cbn in Hcs. apply Forall_cons in Hcs as [Hc _].
  unfold upd_sme. mstep. mstep. apply runs_bnd. eapply runs_mono.
  - eapply runs_release; [|by eapply cmd_ok_release]. by apply held_inactive.
  - intros [] s1 H1. apply runs_kick. eapply within_intro; [apply Hfree|exact H1|]. by eapply consistent_idle.
Qed.
Lemma runs_complete_scan x s : within x s -> runs (complete_scan kick) s (fun _ => within x).
Proof.
  intros H. unfold complete_scan. mstep. mstep. destruct (smeScanCmdActiveList (sme s)) as [|c l] eqn:Hl; [by mstep|].
  pose proof (within_cmds _ _ H) as Hcs. pose proof (within_scans _ _ H) as [Hs1 Hs2].
  unfold commands in Hcs. rewrite Hl in *. destruct l; [|cbn in Hs1; lia]. cbn in Hs2. apply Forall_cons in Hs2 as [Hn Hs2].
  repeat first [rewrite Forall_app in Hcs|rewrite Forall_cons in Hcs].
  unfold upd_sme. mstep. mstep. apply runs_bnd. eapply runs_mono.
  - eapply (runs_release_within x); [|apply (cmd_ok_release V); tauto].
    eapply within_sme; [exact H|done..| | |].
    + unfold owned, commands. cbn. rewrite Hl. cbn. perm.
    + unfold commands. cbn. rewrite !Forall_app. tauto.
    + split; [cbn; lia|done].
  - intros [] s1 H1. by apply runs_kick.
Qed.

(** The commands of a session are given back. *)
Lemma runs_purge x s i : within x s -> runs (purgeSmeSessionCmdList kick i) s (fun _ => within x).
Proof.
  intros H. unfold purgeSmeSessionCmdList. mstep. mstep.
  set (keep := filter (fun c => cmd_session c <> i) _). set (gone := filter (fun c => cmd_session c = i) _).
  assert (Hp : smeCmdPendingList (sme s) ≡ₚ gone ++ keep).
  { unfold gone, keep. generalize (smeCmdPendingList (sme s)). intros l. induction l as [|c l IH]; [done|].
    rewrite !filter_cons. repeat case_decide; try done; cbn; [by rewrite <- IH|]. rewrite IH at 1. apply Permutation_middle. }
  pose proof (within_cmds _ _ H) as Hcs. unfold commands in Hcs. rewrite Hp in Hcs.
  repeat rewrite Forall_app in Hcs. unfold upd_sme. mstep. mstep.
  eapply (runs_mono _ _ (fun _ s' => within ((own <$> drop (length (seqZ 0 (Z.of_nat (length gone)))) gone) ++ x) s')).
  2: { intros [] s1. by rewrite length_seqZ, Nat2Z.id, drop_all. }
  apply (runs_mfor (fun dn s' => within ((own <$> drop (length dn) gone) ++ x) s')).
  - intros dn j todo s1 Hseq H1.
    assert (j = Z.of_nat (length dn) /\ (length dn < length gone)%nat) as [-> Hlt].
    { assert (Hl : seqZ 0 (Z.of_nat (length gone)) !! length dn = Some j) by (rewrite Hseq; by apply list_lookup_middle).
      apply lookup_seqZ in Hl. lia. }
    destruct (lookup_lt_is_Some_2 gone (length dn) Hlt) as [c Hc]. mstep. eapply runs_oget; [by rewrite aget_nat|].
    rewrite (drop_S _ _ _ Hc), fmap_cons in H1. rewrite length_app, Nat.add_1_r.
    apply (runs_abort_within ((own <$> drop (S (length dn)) gone) ++ x) s1 c H1).
    eapply (Forall_lookup_1 (cmd_ok V) gone); [tauto|done].
  - cbn. rewrite drop_0. eapply within_sme; [exact H|done..| | |exact (within_scans _ _ H)].
    + unfold owned, commands. cbn. rewrite Hp at 1. perm.
    + unfold commands. cbn. rewrite !Forall_app. tauto.
Qed.
End Steps.

(** ** The protocol engine and the firmware *)

Lemma consistent_power ph a sts m l l' g : consistent ph a sts m (l, g) -> length l' = length l ->
  (forall j e', aget l' j = Some e' -> exists e, aget l j = Some e /\ power_save e' = power_save e) -> consistent ph a sts m (l', g).
Proof.
  intros [] Hl Hp. constructor; cbn in *; try done; [congruence|]. intros j st e' Hj He'.
  destruct (Hp _ _ He') as (e & He & ->). by eapply c_engine.
Qed.
Lemma consistent_sme_extra ph a sts m1 m2 m3 v y : consistent ph a sts (m1, m2, m3) v -> is_rsp y = false ->
  consistent ph a sts (m1, m2, m3 ++ [y]) v.
Proof.
  intros [] Hy. constructor; try done. cbn in *. rewrite filter_app, c_sme. destruct y; try done; by rewrite app_nil_r.
Qed.
Lemma filter_rsp_snoc l r ok : filter is_rsp l = [] -> filter is_rsp (l ++ [eWNI_PMC_RSP r ok]) = [eWNI_PMC_RSP r ok].
Proof. intros H. by rewrite filter_app, H. Qed.
Lemma powered_place r i w w' j st : bool_decide (w = Answered true) = bool_decide (w' = Answered true) ->
  powered (Asked r i w) j st = powered (Asked r i w') j st.
Proof. intros Hw. unfold powered, current. destruct (bool_decide (j = i)); [|done]. rewrite Hw. by destruct r. Qed.
Lemma state_ok_place r i w w' j st : state_ok (Asked r i w) j st -> state_ok (Asked r i w') j st.
Proof. unfold state_ok, current. by case_bool_decide. Qed.

(** What the protocol engine does with a request: it answers no, passes it on, or drops it. *)
Lemma consistent_refused r i a sts m1 m2 m3 v : consistent (Asked r i At_pe) a sts (m1, m2, m3) v ->
  consistent (Asked r i (Answered false)) a sts ([], m2, m3 ++ [eWNI_PMC_RSP r false]) v.
Proof.
  intros []. constructor; try done; cbn in *.
  - by rewrite filter_rsp_snoc.
  - intros j st Hj. by eapply state_ok_place, c_states.
  - intros j st e Hj He. rewrite (c_engine _ _ _ Hj He). by apply powered_place.
Qed.
Lemma consistent_passed r i a sts m1 m2 m3 l g u : consistent (Asked r i At_pe) a sts (m1, m2, m3) (l, g) ->
  consistent (Asked r i At_fw) a sts ([], m2 ++ [WDA_REQ r i u], m3) (l, false).
Proof.
  intros []. constructor; try done; cbn in *.
  - subst m2. by exists u.
  - by subst m2.
  - intros j st Hj. by eapply state_ok_place, c_states.
  - intros j st e Hj He. rewrite (c_engine _ _ _ Hj He). by apply powered_place.
Qed.
Lemma consistent_dropped r i a sts m1 m2 m3 v : consistent (Asked r i At_pe) a sts (m1, m2, m3) v ->
  r = R_ENTER_UAPSD \/ r = R_EXIT_UAPSD -> consistent (Asked r i Lost) a sts ([], m2, m3) v.
Proof.
  intros [] Hr. constructor; try done; cbn in *.
  - intros j st Hj. by eapply state_ok_place, c_states.
  - intros j st e Hj He. rewrite (c_engine _ _ _ Hj He). by apply powered_place.
Qed.

(** What the protocol engine has for a session after an answer *)
Definition answered (r : request) (ok : bool) (e : tPmmOffloadInfo) : tPmmOffloadInfo :=
  match r, ok with
  | R_ENTER_BMPS, true => set_power_save true e
  | R_EXIT_BMPS, true => set_power_save false e
  | _, _ => e
  end.
Lemma consistent_answered r i a sts m1 m2 m3 l g e ok : consistent (Asked r i At_fw) a sts (m1, m2, m3) (l, g) ->
  aget l i = Some e ->
  consistent (Asked r i (Answered ok)) a sts (m1, [], m3 ++ [eWNI_PMC_RSP r ok]) (upd l i (answered r ok e), true).
Proof.
  intros [] He. pose proof (aget_Some_range _ _ _ He) as Hrng. constructor; try done; cbn in *.
  - by rewrite filter_rsp_snoc.
  - by rewrite length_upd.
  - intros j st Hj. by eapply state_ok_place, c_states.
  - intros j st e' Hj. rewrite aget_upd by done. destruct (decide (j = i)) as [Hij|].
    + subst j. intros [= <-]. specialize (c_engine _ _ _ Hj He). unfold powered, current in *.
      rewrite bool_decide_eq_true_2 in * by done. by destruct r, ok; cbn in *; rewrite ?c_engine.
    + intros He'. rewrite (c_engine _ _ _ Hj He'). unfold powered, current. by rewrite bool_decide_eq_false_2 by congruence.
Qed.

(** What SME does with an answer *)
Definition result (r : request) (ok : bool) : bool :=
  match r with R_ENTER_BMPS => ok | R_EXIT_BMPS => negb ok | _ => true end.
Lemma consistent_done r i a sts m1 m2 l v ok st' : consistent (Asked r i (Answered ok)) a sts (m1, m2, eWNI_PMC_RSP r ok :: l) v ->
  is_Some (aget sts i) -> restful st' = true -> asleep st' = result r ok -> consistent Rest [] (upd sts i st') (m1, m2, l) v.
Proof.
  intros [] [st0 Hst] Hr Ha. pose proof (aget_Some_range _ _ _ Hst) as Hrng. constructor; try done; cbn in *.
  - by left.
  - by injection c_sme.
  - intros j st. rewrite aget_upd by done. destruct (decide (j = i)); [by intros [= <-]|]. intros Hj. specialize (c_states _ _ Hj).
    unfold state_ok, current in *. by rewrite bool_decide_eq_false_2 in c_states by congruence.
  - intros j st e. rewrite aget_upd by done. unfold powered, current in *. destruct (decide (j = i)) as [Hij|].
    + subst j. intros [= <-] He. rewrite (c_engine _ _ _ Hst He), bool_decide_eq_true_2, Ha by done. by destruct r, ok.
    + intros Hj He. rewrite (c_engine _ _ _ Hj He). by rewrite bool_decide_eq_false_2 by congruence.
Qed.
