(* ===== verification/PmcDrive.v ===== *)
(** * Power save: messages, and the driver as a whole

    The protocol engine, the answers SME takes from it, and with them every step and every
    sequence of steps of the driver. *)

From S2P Require Import Prelude Pmc PmcInv PmcBusy PmcLoop PmcSteps.

Local Open Scope c_scope.

#[local] Abbreviation ST := tAniSirGlobal.
Implicit Types (s : ST) (p : tPsOffloadPerSessionInfo) (c : tSmeCmd) (q : tSmeStruct) (i : Z) (k : nat).

Section Engine.
Context (n : Z) (V : list bool).
#[local] Abbreviation held := (held n V).

(** ** What the protocol engine does *)

Lemma runs_rsp x a sts m1 m2 m3 v W k s y : held x a sts (m1, m2, m3) v W k s -> (forall i b, y = eWNI_PMC_EXIT_BMPS_IND i b -> opened V i) ->
  runs (limSendSmeRsp y) s (fun _ s' => held x a sts (m1, m2, m3 ++ [y]) v W k s').
Proof.
  intros H Hy. pose proof (h_mail _ _ _ _ _ _ _ _ _ _ H) as Hm. unfold mail in Hm. simplify_eq. unfold limSendSmeRsp. mstep.
  eapply held_env; [exact H|done..|exact (h_engine _ _ _ _ _ _ _ _ _ _ H)|].
  intros j b [Hj|Hj%list_elem_of_singleton]%elem_of_app; [by eapply (h_inds _ _ _ _ _ _ _ _ _ _ H)|by eapply Hy].
Qed.
Lemma runs_pe_info x a sts m l g W k s i e : held x a sts m (l, g) W k s -> aget l i = Some e ->
  runs (pe_info i) s (fun e0 s' => e0 = e /\ held x a sts m (l, g) W k s').
Proof.
  intros H He. pose proof (h_engine _ _ _ _ _ _ _ _ _ _ H) as Hv. unfold engine in Hv. simplify_eq.
  unfold pe_info. mstep. mstep. by eapply runs_oget.
Qed.
Lemma runs_upd_pe x a sts m l g W k s i e f : held x a sts m (l, g) W k s -> aget l i = Some e ->
  runs (upd_pe i f) s (fun _ s' => held x a sts m (upd l i (f e), g) W k s').
Proof.
  intros H He. pose proof (h_engine _ _ _ _ _ _ _ _ _ _ H) as Hv. unfold engine in Hv. simplify_eq.
  unfold upd_pe. mstep. mstep. mstep. eapply runs_oget; [done|]. mstep.
  eapply runs_oget; [apply aset_upd; by apply aget_Some_range in He|]. mstep.
  eapply held_env; [exact H|done..|exact (h_mail _ _ _ _ _ _ _ _ _ _ H)|done|exact (h_inds _ _ _ _ _ _ _ _ _ _ H)].
Qed.
Lemma held_gate x a sts m l g b W k s : held x a sts m (l, g) W k s -> held x a sts m (l, b) W k (set_gLimProcessDefdMsgs b s).
Proof.
  intros H. pose proof (h_engine _ _ _ _ _ _ _ _ _ _ H) as Hv. unfold engine in Hv. simplify_eq.
  eapply held_env; [exact H|done..|exact (h_mail _ _ _ _ _ _ _ _ _ _ H)|done|exact (h_inds _ _ _ _ _ _ _ _ _ _ H)].
Qed.
Lemma runs_post x a sts m1 m2 m3 l g W k s y : held x a sts (m1, m2, m3) (l, g) W k s ->
  runs (post_request y) s (fun b s' => if b then held x a sts (m1, m2 ++ [y], m3) (l, false) W k s'
    else held x a sts (m1, m2, m3) (l, g) W k s').
Proof.
  intros H. unfold post_request.
  assert (Hw : forall b s', held x a sts (m1, m2, m3) (l, g) W (if b : bool then k else S (S k)) s' -> held x a sts (m1, m2, m3) (l, g) W k s').
  { intros [] s' H'; [done|]. eapply held_weak; [exact H'|lia]. }
  eapply runs_then; [by apply runs_ask|]. intros b s1 H1%Hw. destruct b; cbn [negb]; [|by mstep].
  eapply runs_then; [by apply runs_ask|]. intros b s2 H2%Hw. destruct b; [|by mstep].
  mstep. mstep. mstep. pose proof (h_mail _ _ _ _ _ _ _ _ _ _ H2) as Hm. pose proof (h_engine _ _ _ _ _ _ _ _ _ _ H2) as Hv.
  unfold mail, engine in *. simplify_eq.
  eapply held_env; [exact H2|done..|exact (h_inds _ _ _ _ _ _ _ _ _ _ H2)].
Qed.

Lemma consistent_info ph a sts m l g i : consistent ph a sts m (l, g) -> opened V i -> exists e, aget l i = Some e.
Proof.
  intros HC [Hi _]. apply aget_length_eq. pose proof (c_sessions _ _ _ _ _ HC) as Hl. cbn in Hl. unfold CSR_ROAM_SESSION_MAX in *. lia.
Qed.

(** A request is taken by the protocol engine. *)
Lemma runs_request x r i u a sts m1 m2 m3 l g W k s : held x a sts ([], m2, m3) (l, g) W k s ->
  consistent (Asked r i At_pe) a sts (m1, m2, m3) (l, g) -> opened V i ->
  runs (pmmOffloadProcessRequest (eWNI_PMC_REQ r i u)) s (fun _ s' => exists w m2' m3' g',
    held x a sts ([], m2', m3') (l, g') W k s' /\ consistent (Asked r i w) a sts ([], m2', m3') (l, g')).
Proof.
  intros H HC Hi. destruct (consistent_info _ _ _ _ _ _ _ HC Hi) as [e He].
  assert (Hno : forall s, held x a sts ([], m2, m3) (l, g) W k s -> runs (limSendSmeRsp (eWNI_PMC_RSP r false)) s
    (fun _ s' => exists w m2' m3' g', held x a sts ([], m2', m3') (l, g') W k s' /\ consistent (Asked r i w) a sts ([], m2', m3') (l, g'))).
  { intros s' H'. eapply runs_mono; [by apply runs_rsp|]. intros [] s2 H2. eexists _, _, _, _. split; [done|]. by eapply consistent_refused. }
  assert (Hdrop : r = R_ENTER_UAPSD \/ r = R_EXIT_UAPSD -> forall s, held x a sts ([], m2, m3) (l, g) W k s ->
    exists w m2' m3' g', held x a sts ([], m2', m3') (l, g') W k s /\ consistent (Asked r i w) a sts ([], m2', m3') (l, g')).
  { intros Hr s' H'. eexists _, _, _, _. split; [done|]. by eapply consistent_dropped. }
  assert (Hpass : forall s u, held x a sts ([], m2 ++ [WDA_REQ r i u], m3) (l, false) W k s ->
    exists w m2' m3' g', held x a sts ([], m2', m3') (l, g') W k s /\ consistent (Asked r i w) a sts ([], m2', m3') (l, g')).
  { intros s' u' H'. eexists _, _, _, _. split; [done|]. by eapply consistent_passed. }
  destruct r; cbn.
  - unfold pmmOffloadEnterBmpsReqHandler. eapply runs_then; [by apply runs_pe_info|]. intros p s1 [-> H1].
    destruct (pe_session e); cbn [negb]; [|by apply Hno]. destruct (bcnmiss e); [by apply Hno|].
    eapply runs_then; [by apply runs_post|]. intros [] s2 H2; cbn beta iota in H2; [mstep; by eapply Hpass|by apply Hno].
  - unfold pmmOffloadExitBmpsReqHandler. eapply runs_then; [by apply runs_pe_info|]. intros p s1 [-> H1].
    destruct (pe_session e); cbn [negb]; [|by apply Hno].
    eapply runs_then; [by apply runs_post|]. intros [] s2 H2; cbn beta iota in H2; [mstep; by eapply Hpass|by apply Hno].
  - unfold pmmOffloadEnterUapsdReqHandler. eapply runs_then; [by apply runs_pe_info|]. intros p s1 [-> H1].
    destruct (pe_session e); cbn [negb]; [|mstep; apply Hdrop; auto].
    eapply runs_then; [by apply runs_post|]. intros [] s2 H2; cbn beta iota in H2; mstep; [by eapply Hpass|apply Hdrop; auto].
  - unfold pmmOffloadExitUapsdReqHandler. eapply runs_then; [by apply runs_pe_info|]. intros p s1 [-> H1].
    destruct (pe_session e); cbn [negb]; [|mstep; apply Hdrop; auto].
    eapply runs_then; [by apply runs_post|]. intros [] s2 H2; cbn beta iota in H2; mstep; [by eapply Hpass|apply Hdrop; auto].
Qed.

(** An answer of the firmware is taken by the protocol engine. *)
Lemma runs_answer x r i ok a sts m1 m2 m3 l g W k s : held x a sts (m1, [], m3) (l, g) W k s ->
  consistent (Asked r i At_fw) a sts (m1, m2, m3) (l, g) -> opened V i ->
  runs (pmmOffloadProcessAnswer r i ok) s (fun _ s' => exists ok' m3' l',
    held x a sts (m1, [], m3') (l', true) W k s' /\ consistent (Asked r i (Answered ok')) a sts (m1, [], m3') (l', true)).
Proof.
  intros H HC Hi. destruct (consistent_info _ _ _ _ _ _ _ HC Hi) as [e He].
  assert (Hans : forall ok' s, held x a sts (m1, [], m3) (upd l i (answered r ok' e), true) W k s ->
    runs (limSendSmeRsp (eWNI_PMC_RSP r ok')) s (fun _ s' => exists m3' l',
      held x a sts (m1, [], m3') (l', true) W k s' /\ consistent (Asked r i (Answered ok')) a sts (m1, [], m3') (l', true))).
  { intros ok' s' H'. eapply runs_mono; [by apply runs_rsp|]. intros [] s2 H2. eexists _, _. split; [done|]. by eapply consistent_answered. }
  assert (Hsame : forall ok' s, answered r ok' e = e -> held x a sts (m1, [], m3) (l, true) W k s ->
    runs (limSendSmeRsp (eWNI_PMC_RSP r ok')) s (fun _ s' => exists m3' l',
      held x a sts (m1, [], m3') (l', true) W k s' /\ consistent (Asked r i (Answered ok')) a sts (m1, [], m3') (l', true))).
  { intros ok' s' Heq H'. apply Hans. by rewrite Heq, upd_aget_id. }
  assert (Hex : forall ok' (mm : M ST unit) s, runs mm s (fun _ s' => exists m3' l',
      held x a sts (m1, [], m3') (l', true) W k s' /\ consistent (Asked r i (Answered ok')) a sts (m1, [], m3') (l', true)) ->
    runs mm s (fun _ s' => exists ok' m3' l',
      held x a sts (m1, [], m3') (l', true) W k s' /\ consistent (Asked r i (Answered ok')) a sts (m1, [], m3') (l', true))).
  { intros ok' mm s' Hr. eapply runs_mono; [exact Hr|]. intros [] s2 (m3' & l' & H2). by exists ok', m3', l'. }
  assert (H1 := held_gate _ _ _ _ _ _ true _ _ _ H).
  destruct r; cbn.
  - unfold pmmOffloadEnterBmpsRespHandler. mstep. mstep. eapply runs_then; [by apply runs_pe_info|]. intros p s1 [-> H2].
    destruct (pe_session e); cbn [negb]; [|by apply (Hex false), Hsame]. destruct ok; [|by apply (Hex false), Hsame].
    apply (Hex true). eapply runs_then; [by apply runs_upd_pe|]. intros [] s2 H3. by apply Hans.
  - unfold pmmOffloadExitBmpsRespHandler. mstep. mstep. eapply runs_then; [by apply runs_pe_info|]. intros p s1 [-> H2].
    destruct (pe_session e); cbn [negb]; [|by apply (Hex false), Hsame].
    eapply (runs_then _ _ _ (fun _ s' => exists ok' m3' l', held x a sts (m1, [], m3') (l', true) W k s'
      /\ consistent (Asked R_EXIT_BMPS i (Answered ok')) a sts (m1, [], m3') (l', true))).
    + destruct ok; [|by apply (Hex false), Hsame].
      apply (Hex true). eapply runs_then; [by apply runs_upd_pe|]. intros [] s2 H3. by apply Hans.
    + intros [] s2 (ok' & m3' & l' & H3 & HC3). destruct (bcnmiss e); [|mstep; eauto].
      eapply runs_mono; [by apply runs_rsp|]. intros [] s3 H4. eexists _, _, _. split; [done|]. by apply consistent_sme_extra.
  - unfold pmmOffloadEnterUapsdRespHandler. mstep. mstep. eapply runs_then; [by apply runs_pe_info|]. intros p s1 [-> H2].
    by eapply Hex, Hsame.
  - unfold pmmOffloadExitUapsdRespHandler. mstep. mstep. eapply runs_then; [by apply runs_pe_info|]. intros p s1 [-> H2].
    by eapply Hex, Hsame.
Qed.
End Engine.

(** ** What SME does with an answer *)

Section Response.
Context (n : Z) (V : list bool).
#[local] Abbreviation held := (held n V).

Lemma runs_response x c r i ok sts m1 m2 l v W k s : held x [c] sts (m1, m2, l) v W (S k) s ->
  consistent (Asked r i (Answered ok)) [c] sts (m1, m2, eWNI_PMC_RSP r ok :: l) v ->
  runs (handle_response kick (eWNI_PMC_RSP r ok) c) s (fun b s' => b = true /\ exists st', restful st' = true
    /\ asleep st' = result r ok /\ held x [c] (upd sts i st') (m1, m2, l) v W k s').
Proof.
  intros H HC. destruct (c_active _ _ _ _ _ HC) as (c' & [= <-] & Hcmd & Hses).
  pose proof (h_cmds _ _ _ _ _ _ _ _ _ _ H) as Hcs. unfold commands in Hcs. rewrite (h_active _ _ _ _ _ _ _ _ _ _ H) in Hcs.
  cbn in Hcs. apply Forall_cons in Hcs as [(Hi & _) _]. rewrite Hses in Hi.
  destruct (held_session _ _ _ _ _ _ _ _ _ _ _ H (proj1 Hi)) as (p & Hp & Hst).
  pose proof (c_states _ _ _ _ _ HC _ _ Hst) as Hreq. unfold state_ok, current in Hreq. rewrite bool_decide_eq_true_2 in Hreq by done.
  assert (Ha : [c] <> []) by done. unfold handle_response. rewrite Hses.
  assert (Henter : forall s, result r ok = true -> held x [c] sts (m1, m2, l) v W (S k) s -> runs (pmcOffloadEnterPowersaveState kick i) s
    (fun _ s' => exists st', restful st' = true /\ asleep st' = result r ok /\ held x [c] (upd sts i st') (m1, m2, l) v W k s')).
  { intros s' Hr H'. eapply runs_mono; [by apply (runs_enter_powersave n V kick kick_busy)|].
    intros _ s2 (st & Hst2 & H2). exists st. rewrite Hr. split_and!; [by destruct st|done|done]. }
  assert (Hexit : result r ok = false -> runs (pmcOffloadExitPowersaveState kick i) s
    (fun _ s' => exists st', restful st' = true /\ asleep st' = result r ok /\ held x [c] (upd sts i st') (m1, m2, l) v W k s')).
  { intros Hr. eapply runs_mono; [by apply (runs_exit_powersave n V kick kick_busy)|].
    intros [] s2 H2. exists FULL_POWER. rewrite Hr. split_and!; [done|done|]. eapply held_weak; [exact H2|lia]. }
  pose proof (busy_calm n V kick kick_busy x [c] sts (m1, m2, l) v W Ha) as HCalm.
  destruct r; cbn in Hcmd; rewrite Hcmd; rewrite bool_decide_eq_false_2 by (intros Hn; by apply Hn).
  - destruct ok; apply runs_bnd; (eapply runs_mono; [first [by apply Henter|by apply Hexit]|intros [] s2 H2; by mstep]).
  - destruct ok; apply runs_bnd.
    + eapply runs_mono; [by apply Hexit|intros [] s2 H2; by mstep].
    + eapply (runs_then _ _ _ (fun _ s' => held x [c] sts (m1, m2, l) v W (S k) s')).
      { by apply (calm_upd (J := held x [c] sts (m1, m2, l) v W)). }
      intros [] s1 H1. eapply (runs_then _ _ _ (fun _ s' => held x [c] sts (m1, m2, l) v W (S k) s')).
      { by apply (runs_full_power_callbacks n V kick kick_busy). }
      intros [] s2 H2. eapply runs_mono; [by apply Henter|intros [] s3 H3; by mstep].
  - mstep. eapply runs_ps_session; [done|]. rewrite bool_decide_eq_false_2 by (intros Hn; by apply Hn).
    destruct ok; apply runs_bnd.
    + apply runs_bnd. eapply runs_mono; [apply (runs_enter_uapsd n V kick kick_busy); [done|done|exact H|by rewrite Hst, Hreq]|].
      intros st s2 H2. mstep. mstep. split; [done|]. by exists UAPSD.
    + eapply (runs_then _ _ _ (fun _ s' => held x [c] sts (m1, m2, l) v W (S k) s')).
      { by apply (calm_upd (J := held x [c] sts (m1, m2, l) v W)). }
      intros [] s1 H1. eapply (runs_then _ _ _ (fun _ s' => held x [c] sts (m1, m2, l) v W (S k) s')).
      { by apply (calm_uapsd_callbacks (J := held x [c] sts (m1, m2, l) v W)). }
      intros [] s2 H2. eapply runs_mono; [by apply Henter|intros [] s3 H3; by mstep].
  - apply runs_bnd. eapply runs_mono; [by apply Henter|intros [] s2 H2; by mstep].
Qed.
End Response.

(** ** Every step *)

(** Steps are for sessions that are there; wake on wireless LAN is left out, and power save
    queues its own commands. *)
Definition step_ok (V : list bool) (e : step) : Prop :=
  match e with
  | Enable_ps i | Disable_ps i _ | Enable_deferred i _ | Disable_deferred i | Full_power_request i _ | Start_uapsd i _
  | Stop_uapsd i | Tdls i _ | Disconnected i | Register_check i _ _ | Deregister_check i _ | Register_state i _ _
  | Deregister_state i _ | Timer i | Connection i _ _ | Missed_beacon i | Beacon i => opened V i
  | Queue t i _ => opened V i /\ is_pmc t = false
  | Wowl _ => False
  | Complete | Complete_scan | Purge _ | Configure _ _ | Drop_scans _ | Luck _ | Pe_step | Fw_step _ | Sme_step => True
  end.

Section Drive.
Context (n : Z) (V : list bool).
Context (Q : phase -> list tSmeCmd -> list tPmcState -> Prop).
Context (Q_closed : forall ph a sts, Q ph a sts ->
  (exists r i, ph = Asked r i Lost) \/ (forall ph' a' sts', Q ph' a' sts')).
#[local] Abbreviation within := (within n V Q).
#[local] Instance calm_within : Calm V kick (fun _ => within []) := within_calm n V Q Q_closed [].

Lemma free_unless_lost ph a sts : Q ph a sts -> (forall r i, ph <> Asked r i Lost) -> forall ph' a' sts', Q ph' a' sts'.
Proof. intros HQ Hn. destruct (Q_closed _ _ _ HQ) as [(r & i & ?)|]; [|done]. by destruct (Hn r i). Qed.

Lemma asked_opened x r i w a sts m v W k s : held n V x a sts m v W k s -> consistent (Asked r i w) a sts m v ->
  opened V i /\ is_Some (aget sts i).
Proof.
  intros H HC. destruct (c_active _ _ _ _ _ HC) as (c & -> & _ & <-).
  pose proof (h_cmds _ _ _ _ _ _ _ _ _ _ H) as Hcs. unfold commands in Hcs. rewrite (h_active _ _ _ _ _ _ _ _ _ _ H) in Hcs.
  cbn in Hcs. apply Forall_cons in Hcs as [(Hi & _) _]. split; [done|].
  destruct (held_session _ _ _ _ _ _ _ _ _ _ _ H (proj1 Hi)) as (p & _ & Hst). by eexists.
Qed.

(** The first message is taken out of a mailbox. *)
Lemma held_take_pe x a sts y m1 m2 m3 v W k s : held n V x a sts (y :: m1, m2, m3) v W k s ->
  held n V x a sts (m1, m2, m3) v W k (set_to_pe m1 s).
Proof.
  intros H. pose proof (h_mail _ _ _ _ _ _ _ _ _ _ H) as Hm. unfold mail in Hm. simplify_eq.
  eapply held_env; [exact H|done..|exact (h_engine _ _ _ _ _ _ _ _ _ _ H)|exact (h_inds _ _ _ _ _ _ _ _ _ _ H)].
Qed.
Lemma held_take_fw x a sts m1 y m2 m3 v W k s : held n V x a sts (m1, y :: m2, m3) v W k s ->
  held n V x a sts (m1, m2, m3) v W k (set_to_fw m2 s).
Proof.
  intros H. pose proof (h_mail _ _ _ _ _ _ _ _ _ _ H) as Hm. unfold mail in Hm. simplify_eq.
  eapply held_env; [exact H|done..|exact (h_engine _ _ _ _ _ _ _ _ _ _ H)|exact (h_inds _ _ _ _ _ _ _ _ _ _ H)].
Qed.
Lemma held_take_sme x a sts m1 m2 y m3 v W k s : held n V x a sts (m1, m2, y :: m3) v W k s ->
  held n V x a sts (m1, m2, m3) v W k (set_to_sme m3 s).
Proof.
  intros H. pose proof (h_mail _ _ _ _ _ _ _ _ _ _ H) as Hm. unfold mail in Hm. simplify_eq.
  eapply held_env; [exact H|done..|exact (h_engine _ _ _ _ _ _ _ _ _ _ H)|].
  intros j b Hj. eapply (h_inds _ _ _ _ _ _ _ _ _ _ H). by right.
Qed.
Lemma consistent_take_sme ph a sts m1 m2 y m3 v : consistent ph a sts (m1, m2, y :: m3) v -> is_rsp y = false ->
  consistent ph a sts (m1, m2, m3) v.
Proof. intros [] Hy. constructor; try done. cbn in *. destruct y; done. Qed.

Lemma step_pe s : within [] s -> runs (do_step Pe_step) s (fun _ => within []).
Proof.
  intros Hw. destruct Hw as (ph & a & sts & [[m1 m2] m3] & [l g] & W & HQ & H & HC). cbn [do_step]. mstep. mstep.
  pose proof (h_mail _ _ _ _ _ _ _ _ _ _ H) as Hm. unfold mail in Hm. injection Hm as Hm1 Hm2 Hm3. rewrite Hm1.
  destruct m1 as [|y m1]; [mstep; by eapply within_intro|]. destruct (gLimProcessDefdMsgs s); [|mstep; by eapply within_intro].
  pose proof (c_pe _ _ _ _ _ HC) as Hpe. destruct ph as [|r i []]; try done. destruct Hpe as (u & Hpe). cbn in Hpe. injection Hpe as -> ->.
  destruct (asked_opened _ _ _ _ _ _ _ _ _ _ _ H HC) as [Hi _]. mstep. mstep.
  eapply runs_mono; [eapply runs_request; [by eapply held_take_pe|done|done]|].
  intros [] s' (w & m2' & m3' & g' & H' & HC'). eapply within_intro; [|exact H'|exact HC']. by eapply free_unless_lost.
Qed.

Lemma step_fw s ok : within [] s -> runs (do_step (Fw_step ok)) s (fun _ => within []).
Proof.
  intros Hw. destruct Hw as (ph & a & sts & [[m1 m2] m3] & [l g] & W & HQ & H & HC). cbn [do_step]. mstep. mstep.
  pose proof (h_mail _ _ _ _ _ _ _ _ _ _ H) as Hm. unfold mail in Hm. injection Hm as Hm1 Hm2 Hm3. rewrite Hm2.
  destruct m2 as [|[r0 i0 u0] m2]; [mstep; by eapply within_intro|].
  pose proof (c_fw _ _ _ _ _ HC) as Hfw. destruct ph as [|r i []]; try done. destruct Hfw as (u & Hfw). cbn in Hfw. injection Hfw as -> -> -> ->.
  destruct (asked_opened _ _ _ _ _ _ _ _ _ _ _ H HC) as [Hi _]. mstep. mstep.
  eapply runs_mono; [eapply runs_answer; [by eapply held_take_fw|done|done]|].
  intros [] s' (ok' & m3' & l' & H' & HC'). eapply within_intro; [|exact H'|exact HC']. by eapply free_unless_lost.
Qed.

Lemma step_sme s : within [] s -> runs (do_step Sme_step) s (fun _ => within []).
Proof.
  intros Hw. destruct Hw as (ph & a & sts & [[m1 m2] m3] & v & W & HQ & H & HC). cbn [do_step]. mstep. mstep.
  pose proof (h_mail _ _ _ _ _ _ _ _ _ _ H) as Hm. unfold mail in Hm. injection Hm as Hm1 Hm2 Hm3. rewrite Hm3.
  destruct m3 as [|y m3]; [mstep; by eapply within_intro|]. mstep. mstep.
  assert (H1 := held_take_sme _ _ _ _ _ _ _ _ _ _ _ H).
  destruct (is_rsp y) eqn:Hy.
  2: { assert (Hw : within [] (set_to_sme m3 s)) by (eapply within_intro; [exact HQ|exact H1|by eapply consistent_take_sme]).
       destruct y as [| |i b|i]; try done.
       apply (calm_exit_ind (J := fun _ => within []) 0); [done|]. eapply (h_inds _ _ _ _ _ _ _ _ _ _ H). left. }
  pose proof (c_sme _ _ _ _ _ HC) as Hs. cbn in Hs. destruct y as [r0 ok0| | |]; try done.
  2: { destruct ph as [|r i []]; done. }
  cbn in Hs. destruct ph as [|r i [| |ok|]]; try done. injection Hs as -> -> Hs.
  destruct (c_active _ _ _ _ _ HC) as (c & -> & Hcmd & Hses). destruct (asked_opened _ _ _ _ _ _ _ _ _ _ _ H HC) as [Hi Hsome].
  assert (Hfree := free_unless_lost _ _ _ HQ ltac:(done)).
  cbn [pmcOffloadMessageProcessor]. unfold pmcOffloadProcessResponse. mstep. mstep. rewrite (h_active _ _ _ _ _ _ _ _ _ _ H1).
  eapply runs_then.
  { eapply (runs_response n V [] c r i ok sts m1 m2 m3 v (S W) 0); [eapply held_weak; [exact H1|lia]|exact HC]. }
  intros b s1 (-> & st' & Hr' & Ha' & H2). unfold upd_sme. mstep. mstep.
  apply runs_bnd. eapply runs_mono; [by apply (runs_pmc_release n V), held_inactive|].
  intros [] s2 H3. apply (runs_kick n V Q Q_closed). eapply within_intro; [apply Hfree|exact H3|]. by eapply consistent_done.
Qed.

(** Indications and what is told to the protocol engine *)
Lemma runs_upd_pe_within s i f : within [] s -> opened V i -> (forall e, power_save (f e) = power_save e) ->
  runs (upd_pe i f) s (fun _ => within []).
Proof.
  intros (ph & a & sts & m & [l g] & W & HQ & H & HC) Hi Hf. destruct (consistent_info _ _ _ _ _ _ _ _ HC Hi) as [e He].
  eapply runs_mono; [by apply runs_upd_pe|]. intros [] s' H'. eapply within_intro; [exact HQ|exact H'|].
  pose proof (aget_Some_range _ _ _ He) as Hrng. eapply consistent_power; [exact HC|by rewrite length_upd|].
  intros j e'. rewrite aget_upd by done. destruct (decide (j = i)); [|by eauto]. subst j. intros [= <-]. by exists e.
Qed.
Lemma runs_rsp_within s y : within [] s -> is_rsp y = false -> (forall i b, y = eWNI_PMC_EXIT_BMPS_IND i b -> opened V i) ->
  runs (limSendSmeRsp y) s (fun _ => within []).
Proof.
  intros (ph & a & sts & [[m1 m2] m3] & v & W & HQ & H & HC) Hy Hi. eapply runs_mono; [by apply runs_rsp|].
  intros [] s' H'. eapply within_intro; [exact HQ|exact H'|]. by apply consistent_sme_extra.
Qed.
Lemma step_missed_beacon s i : within [] s -> opened V i -> runs (do_step (Missed_beacon i)) s (fun _ => within []).
Proof.
  intros H Hi. cbn [do_step]. unfold limPsOffloadHandleMissedBeaconInd.
  eapply (runs_then _ _ _ (fun _ => within [])).
  { destruct H as (ph & a & sts & m & [l g] & W & HQ & H & HC). destruct (consistent_info _ _ _ _ _ _ _ _ HC Hi) as [e He].
    eapply runs_mono; [by apply runs_pe_info|]. intros e' s' [-> H']. by eapply within_intro. }
  intros e s1 H1. destruct (pe_session e); cbn [negb]; [|by mstep].
  eapply runs_then; [by apply runs_upd_pe_within|]. intros [] s2 H2.
  destruct (power_save e); apply runs_rsp_within; try done. by intros ? ? [= <- <-].
Qed.
Lemma step_connection s i b1 b2 : within [] s -> opened V i -> runs (do_step (Connection i b1 b2)) s (fun _ => within []).
Proof.
  intros H Hi. pose proof (calm_open (J := fun _ => within []) 0 _ H) as Ho.
  destruct (opened_roam _ _ _ Ho Hi) as (r & Hr & Hact). cbn [do_step]. mstep. mstep. mstep. eapply runs_oget; [done|]. mstep.
  pose proof (aget_Some_range _ _ _ Hr) as Hrng. eapply runs_oget; [by apply aset_upd|]. mstep.
  eapply (calm_alike (J := fun _ => within []) 0); [exact H|]. constructor; try done.
  unfold sessions_open, upd. cbn. rewrite list_fmap_insert. cbn. apply list_insert_id.
  rewrite list_lookup_fmap. unfold aget in Hr. case_decide; [|done]. by rewrite Hr.
Qed.
Lemma step_drop_scans s b : within [] s -> runs (do_step (Drop_scans b)) s (fun _ => within []).
Proof.
  intros (ph & a & sts & m & v & W & HQ & H & HC). cbn [do_step]. mstep.
  eapply (within_intro n V Q [] ph a sts m v W 0); [exact HQ| |exact HC]. destruct H. constructor; done.
Qed.
Lemma step_luck s l : within [] s -> runs (do_step (Luck l)) s (fun _ => within []).
Proof.
  intros (ph & a & sts & m & v & W & HQ & H & HC). cbn [do_step]. mstep.
  eapply (within_intro n V Q [] ph a sts m v (work (set_luck l s)) 0); [exact HQ| |exact HC]. destruct H. constructor; try done. lia.
Qed.
Lemma step_timer s i : within [] s -> opened V i -> runs (do_step (Timer i)) s (fun _ => within []).
Proof.
  intros H Hi. cbn [do_step]. eapply runs_then; [by apply (calm_session (J := fun _ => within []) 0)|]. intros p s1 H1. cbn beta in H1.
  destruct (autoPsEnableTimer p); [|by mstep].
  eapply runs_then; [by apply (calm_upd (J := fun _ => within []) 0)|]. intros [] s2 H2.
  by apply (calm_timer_expired (J := fun _ => within []) 0).
Qed.

Lemma runs_ignore {A} (mm : M ST A) s : runs mm s (fun _ => within []) -> runs (ignore mm) s (fun _ => within []).
Proof. intros H. unfold ignore. eapply runs_then; [exact H|]. intros a s' H'. by mstep. Qed.

Lemma step_within e s : step_ok V e -> within [] s -> runs (do_step e) s (fun _ => within []).
Proof.
  destruct e; cbn [step_ok]; intros He H; try (cbn [do_step]; apply runs_ignore).
  - by apply (calm_enable (J := fun _ => within []) 0).
  - by apply (calm_disable (J := fun _ => within []) 0).
  - by apply (calm_enable_deferred (J := fun _ => within []) 0).
  - by apply (calm_disable_deferred (J := fun _ => within []) 0).
  - by apply (calm_request_full_power (J := fun _ => within []) 0).
  - by apply (calm_start (J := fun _ => within []) 0).
  - by apply (calm_stop (J := fun _ => within []) 0).
  - done.
  - by apply (calm_tdls (J := fun _ => within []) 0).
  - by apply (calm_cleanup (J := fun _ => within []) 0).
  - by apply (calm_register_check (J := fun _ => within []) 0).
  - by apply (calm_deregister_check (J := fun _ => within []) 0).
  - by apply (calm_register_state (J := fun _ => within []) 0).
  - by apply (calm_deregister_state (J := fun _ => within []) 0).
  - by apply step_timer.
  - destruct He. by apply (runs_queue_command n V Q Q_closed).
  - by apply (runs_complete n V Q Q_closed).
  - by apply (runs_complete_scan n V Q Q_closed).
  - by apply (runs_purge n V Q).
  - by apply step_connection.
  - destruct ps; by eapply (calm_alike (J := fun _ => within []) 0).
  - by apply step_drop_scans.
  - by apply step_luck.
  - by apply step_pe.
  - by apply step_fw.
  - by apply step_sme.
  - by apply step_missed_beacon.
  - cbn [do_step]. by apply runs_upd_pe_within.
Qed.

Lemma steps_within es s : Forall (step_ok V) es -> within [] s -> runs (do_steps es) s (fun _ => within []).
Proof.
  revert s. induction es as [|e es IH]; intros s Hes H; cbn [do_steps]; [by mstep|]. apply Forall_cons in Hes as [He Hes].
  eapply runs_then; [by apply step_within|]. intros [] s' H'. by apply IH.
Qed.
End Drive.
