(* ===== verification/PmcProps.v ===== *)
(** * Power save of a station: the theorems

    For a driver that starts with no requests: the commands, the states of the sessions and the
    messages under way belong together after any sequence of steps, the protocol engine has
    power save for a session exactly when SME says so, and no command buffer is lost.  Then
    what the return to full power does, and two ways in which a request is never answered. *)

From S2P Require Import Prelude Pmc PmcInv PmcBusy PmcLoop PmcSteps PmcDrive.

Local Open Scope c_scope.

#[local] Abbreviation ST := tAniSirGlobal.
Implicit Types (s : ST) (p : tPsOffloadPerSessionInfo) (c : tSmeCmd) (i : Z).

(** ** A driver that starts *)

(** A session after [pmcOffloadOpenPerSession] and [pmcOffloadStartPerSession] *)
Definition started_session : tPsOffloadPerSessionInfo :=
  reset_session FULL_POWER
    {| configStaPsEnabled := false; configDefStaPsEnabled := false; uapsdStatus := PMC_UAPSD_DISABLED;
       uapsdSessionRequired := false; pmcState := STOPPED; autoPsEnableTimer := None; autoPsEntryTimerPeriod := 0;
       fullPowerReqPend := false; pwrsaveCheckList := []; deviceStateUpdateIndList := []; fullPowerCbList := [];
       uapsdCbList := []; isTdlsPowerSaveProhibited := false; UapsdEnabled := true |}.
(** [n] command buffers; the sessions that are open, in SME and in the protocol engine *)
Definition driver (n : Z) (V pes : list bool) (scan_offload listen_offload : bool) : ST :=
  {| sme := {| sme_started := true; smeCmdFreeList := seqZ 0 n; heap_next := n; smeCmdActiveList := []; smeCmdPendingList := [];
       smeScanCmdActiveList := []; smeScanCmdPendingList := []; roamCmdPendingList := [] |};
     staPsEnabled := false; pmc := replicate (Z.to_nat CSR_ROAM_SESSION_MAX) started_session;
     roamSession := (fun b => {| sessionActive := b; connectedInfra := false; waitForKey := false |}) <$> V;
     fScanOffload := scan_offload; fP2pListenOffload := listen_offload; fDropScanCmd := false; mon_enable := false;
     pmm := (fun b => {| power_save := false; bcnmiss := false; pe_session := b |}) <$> pes;
     gLimProcessDefdMsgs := true; to_pe := []; to_fw := []; to_sme := []; called := []; luck := [] |}.

Definition anywhere (ph : phase) (a : list tSmeCmd) (sts : list tPmcState) : Prop := True.
Lemma anywhere_closed ph a sts : anywhere ph a sts ->
  (exists r i, ph = Asked r i Lost) \/ (forall ph' a' sts', anywhere ph' a' sts').
Proof. by right. Qed.

Lemma aget_replicate_inv {A} k (x y : A) j : aget (replicate k x) j = Some y -> y = x.
Proof. unfold aget. case_decide; [|done]. by intros [-> _]%lookup_replicate_1. Qed.
Lemma driver_within n V pes b b' : 0 <= n -> length V = Z.to_nat CSR_ROAM_SESSION_MAX -> length pes = Z.to_nat CSR_ROAM_SESSION_MAX ->
  within n V anywhere [] (driver n V pes b b').
Proof.
  intros Hn HV Hpes.
  eapply (within_intro n V anywhere [] Rest [] (replicate 5 FULL_POWER) ([], [], []) _ 0 0); [done| |].
  - constructor; try done.
    + assert (Ho : [] ++ owned (sme (driver n V pes b b')) = (fun i => (i, false)) <$> seqZ 0 n) by (unfold owned; cbn; by rewrite app_nil_r).
      unfold pool. rewrite Ho. split_and!.
      * rewrite <- list_fmap_compose. rewrite (list_fmap_ext _ id) by done. rewrite list_fmap_id. apply NoDup_seqZ.
      * rewrite filter_all by (by intros ? (? & -> & ?)%list_elem_of_fmap).
        rewrite <- list_fmap_compose, (list_fmap_ext _ id) by done. by rewrite list_fmap_id.
      * by intros i (? & ? & ?)%list_elem_of_fmap.
      * cbn. lia.
    + split; cbn; [lia|constructor].
    + unfold sessions_open, driver. cbn. rewrite <- list_fmap_compose, (list_fmap_ext _ id) by done. by rewrite list_fmap_id.
    + intros ? ?. cbn. set_solver.
  - constructor; cbn; try done.
    + by left.
    + by rewrite length_fmap.
    + intros j st Hj. by rewrite (aget_replicate_inv 5 _ _ _ Hj).
    + intros j st e Hj He. rewrite (aget_replicate_inv 5 _ _ _ Hj). unfold aget in He. case_decide; [|done].
      rewrite list_lookup_fmap in He. by apply fmap_Some in He as (? & _ & ->).
Qed.

(** ** Commands, states and messages *)

(** The requests under way and their answers *)
Definition in_flight s : list request :=
  omap (fun m => match m with eWNI_PMC_REQ r _ _ => Some r | _ => None end) (to_pe s)
  ++ ((fun '(WDA_REQ r _ _) => r) <$> to_fw s)
  ++ omap (fun m => match m with eWNI_PMC_RSP r _ => Some r | _ => None end) (to_sme s).

(** The request a power save command makes; its session waits, and the request is under way,
    unless it was for U-APSD and dropped.  No other session waits. *)
Definition matched s : Prop :=
  (forall c, smeCmdActiveList (sme s) = [c] -> is_pmc (command c) = true -> exists r, command c = cmd_of r
    /\ (in_flight s = [r] \/ in_flight s = [] /\ (r = R_ENTER_UAPSD \/ r = R_EXIT_UAPSD))
    /\ (forall j st, aget (states s) j = Some st -> if bool_decide (j = cmd_session c) then st = requested r else restful st = true))
  /\ ((forall c, c ∈ smeCmdActiveList (sme s) -> is_pmc (command c) = false) ->
    in_flight s = [] /\ forall j st, aget (states s) j = Some st -> restful st = true).

Lemma omap_rsp (l : list sme_msg) : omap (fun m => match m with eWNI_PMC_RSP r _ => Some r | _ => None end) l
  = omap (fun m => match m with eWNI_PMC_RSP r _ => Some r | _ => None end) (filter is_rsp l).
Proof. induction l as [|[] l IH]; cbn; by rewrite ?IH. Qed.
Lemma in_flight_asked r i w a sts m v x W k n V s : held n V x a sts m v W k s -> consistent (Asked r i w) a sts m v ->
  in_flight s = if bool_decide (w = Lost) then [] else [r].
Proof.
  intros H HC. pose proof (h_mail _ _ _ _ _ _ _ _ _ _ H) as Hm. unfold mail in Hm. subst m. destruct HC. cbn in *.
  unfold in_flight. rewrite omap_rsp, c_sme.
  destruct w; [destruct c_pe as [u c_pe]|destruct c_fw as [u c_fw]| |]; by rewrite c_pe, c_fw.
Qed.
Lemma in_flight_rest a sts m v x W k n V s : held n V x a sts m v W k s -> consistent Rest a sts m v -> in_flight s = [].
Proof.
  intros H HC. pose proof (h_mail _ _ _ _ _ _ _ _ _ _ H) as Hm. unfold mail in Hm. subst m. destruct HC. cbn in *.
  unfold in_flight. by rewrite omap_rsp, c_sme, c_pe, c_fw.
Qed.
Lemma pmc_of r : is_pmc (cmd_of r) = true.
Proof. by destruct r. Qed.

Lemma within_matched n V x s : within n V anywhere x s -> matched s /\ (length (smeCmdActiveList (sme s)) <= 1)%nat.
Proof.
  intros (ph & a & sts & m & v & W & _ & H & HC). pose proof (h_active _ _ _ _ _ _ _ _ _ _ H) as Ha.
  pose proof (c_active _ _ _ _ _ HC) as Hact. pose proof (c_states _ _ _ _ _ HC) as Hst.
  unfold matched. rewrite (h_states _ _ _ _ _ _ _ _ _ _ H), Ha. destruct ph as [|r i w].
  - rewrite (in_flight_rest _ _ _ _ _ _ _ _ _ _ H HC). split_and!; [| |by destruct Hact as [->|(? & -> & _)]; cbn; lia].
    + intros c -> Hc. destruct Hact as [|(c' & [= ->] & Hc')]; [done|congruence].
    + intros _. by split.
  - rewrite (in_flight_asked _ _ _ _ _ _ _ _ _ _ _ _ _ H HC). destruct Hact as (c & -> & Hcmd & Hses). split_and!; [| |cbn; lia].
    + intros c' [= <-] _. exists r. split_and!; [done| |].
      * case_bool_decide; [subst w|by left]. right. split; [done|]. apply (c_lost _ _ _ _ _ HC).
      * intros j st Hj. rewrite Hses. specialize (Hst _ _ Hj). unfold state_ok, current in Hst. by case_bool_decide.
    + intros Hno. specialize (Hno c ltac:(left)). by rewrite Hcmd, pmc_of in Hno.
Qed.

(** Every buffer of the pool is free or in one queue, once. *)
Definition buffers_kept (n : Z) s : Prop :=
  smeCmdFreeList (sme s) ++ (cmd_id <$> filter (fun c => fReleaseWhenDone c = false) (commands (sme s))) ≡ₚ seqZ 0 n
  /\ NoDup (cmd_id <$> commands (sme s)).
Lemma within_buffers n V s : within n V anywhere [] s -> buffers_kept n s.
Proof.
  intros (ph & a & sts & m & v & W & _ & H & _). pose proof (h_pool _ _ _ _ _ _ _ _ _ _ H) as Hp. split.
  - destruct Hp as (_ & <- & _). unfold owned. cbn. rewrite filter_app, fmap_app. apply Permutation_app.
    + rewrite filter_all by (by intros ? (? & -> & ?)%list_elem_of_fmap).
      rewrite <- list_fmap_compose, (list_fmap_ext _ id) by done. by rewrite list_fmap_id.
    + induction (commands (sme s)) as [|c l IH]; [done|]. rewrite fmap_cons, !filter_cons. unfold own at 1. cbn [snd].
      repeat case_decide; try done. rewrite !fmap_cons. by apply perm_skip.
  - apply (pool_nodup n [] (sme s) [] _ [] Hp). by rewrite app_nil_r.
Qed.

(** C18.  Whatever happens to a driver from its start on (requests of users, commands of other
    modules, timers, messages, answers of the firmware, lack of memory), except requests for wake
    on wireless LAN, whose failure may end the command of another request
    ([wowl_failure_ends_a_request]), no step has undefined behaviour; and the loop over the
    commands ends, where the rest of the driver refuses only finitely often ([luck]: the loop
    retries as long as it does).  At most one command is active.  If it is one of power save, its
    session is in the state of that request, every other session is in full power, power save or
    U-APSD, and exactly its request or answer is under way (or nothing, after the protocol engine
    dropped a request for U-APSD); otherwise no session waits and nothing is under way.  Every
    command buffer is free or in one queue, once.  The sessions named are open ones. *)
Theorem requests_match n V pes scan listen es : 0 <= n -> length V = Z.to_nat CSR_ROAM_SESSION_MAX ->
  length pes = Z.to_nat CSR_ROAM_SESSION_MAX -> Forall (step_ok V) es ->
  runs (do_steps es) (driver n V pes scan listen) (fun _ s =>
    (length (smeCmdActiveList (sme s)) <= 1)%nat /\ matched s /\ buffers_kept n s).
Proof.
  intros Hn HV Hpes Hes. eapply runs_mono; [apply (steps_within n V anywhere anywhere_closed); [done|by apply driver_within]|].
  intros [] s Hw. destruct (within_matched _ _ _ _ Hw). split_and!; [done|done|by eapply within_buffers].
Qed.

(** ** SME and the protocol engine *)

Definition request_of (t : eSmeCommandType) : option request :=
  match t with
  | eSmeCommandEnterBmps => Some R_ENTER_BMPS | eSmeCommandExitBmps => Some R_EXIT_BMPS
  | eSmeCommandEnterUapsd => Some R_ENTER_UAPSD | eSmeCommandExitUapsd => Some R_EXIT_UAPSD
  | _ => None
  end.
(** The request that is made for a session, and whether it was granted and SME does not know yet *)
Definition requesting s i : option request :=
  match smeCmdActiveList (sme s) with
  | [c] => if bool_decide (i = cmd_session c) then request_of (command c) else None
  | _ => None
  end.
Definition granted s (r : request) : bool :=
  existsb (fun m => match m with eWNI_PMC_RSP r' true => bool_decide (r' = r) | _ => false end) (to_sme s).
(** What SME knows of power save in the protocol engine *)
Definition expected s i (st : tPmcState) : bool :=
  match requesting s i with
  | Some r => if granted s r then result r true else asleep_before r
  | None => asleep st
  end.

Lemma granted_rsp s r : granted s r
  = existsb (fun m => match m with eWNI_PMC_RSP r' true => bool_decide (r' = r) | _ => false end) (filter is_rsp (to_sme s)).
Proof. unfold granted. induction (to_sme s) as [|[? []| | |] l IH]; cbn; by rewrite ?IH. Qed.
Lemma request_of_cmd r : request_of (cmd_of r) = Some r.
Proof. by destruct r. Qed.

Lemma within_expected n V x s i p e : within n V anywhere x s -> aget (pmc s) i = Some p -> aget (pmm s) i = Some e ->
  power_save e = expected s i (pmcState p).
Proof.
  intros (ph & a & sts & m & [l g] & W & _ & H & HC) Hp He.
  pose proof (h_active _ _ _ _ _ _ _ _ _ _ H) as Ha. pose proof (c_active _ _ _ _ _ HC) as Hact.
  pose proof (h_mail _ _ _ _ _ _ _ _ _ _ H) as Hm. pose proof (h_engine _ _ _ _ _ _ _ _ _ _ H) as Hv.
  unfold mail, engine in *. subst m. injection Hv as <- <-.
  assert (Hst : aget sts i = Some (pmcState p)) by (rewrite <- (h_states _ _ _ _ _ _ _ _ _ _ H); by apply states_aget).
  pose proof (c_engine _ _ _ _ _ HC _ _ _ Hst He) as Hpow. pose proof (c_sme _ _ _ _ _ HC) as Hs. cbn in Hs.
  rewrite Hpow. unfold expected, requesting, powered, current. rewrite Ha. destruct ph as [|r j w].
  - destruct Hact as [->|(c & -> & Hc)]; [done|]. case_bool_decide; [|done].
    destruct (request_of (command c)) as [r|] eqn:Hr; [|done]. destruct (command c); try done; by cbn in Hc.
  - destruct Hact as (c & -> & Hcmd & Hses). rewrite Hses. case_bool_decide; [|done].
    rewrite Hcmd, request_of_cmd, granted_rsp, Hs. destruct r, w as [| |[]|]; done.
Qed.

(** C19.  SME and the protocol engine agree: after any such sequence, without requests for wake
    on wireless LAN, the protocol engine has power save for a session exactly when SME has it in
    power save or U-APSD; while a request for the session is made, it has what it had before until
    it granted the request, and then what the request is for, also before SME took the answer. *)
Theorem engine_agrees n V pes scan listen es : 0 <= n -> length V = Z.to_nat CSR_ROAM_SESSION_MAX ->
  length pes = Z.to_nat CSR_ROAM_SESSION_MAX -> Forall (step_ok V) es ->
  runs (do_steps es) (driver n V pes scan listen) (fun _ s => forall i p e, aget (pmc s) i = Some p -> aget (pmm s) i = Some e ->
    power_save e = expected s i (pmcState p)).
Proof.
  intros Hn HV Hpes Hes. eapply runs_mono; [apply (steps_within n V anywhere anywhere_closed); [done|by apply driver_within]|].
  intros [] s Hw i p e. by eapply within_expected.
Qed.

(** ** A request that is dropped *)

(** C21.  A request for U-APSD that the protocol engine drops for want of memory blocks SME: its
    command is active and nothing is under way, and from there no sequence of such steps (without
    requests for wake on wireless LAN, whose failure would end it by accident) ends the command,
    executes another one or changes the state of a session.  What the driver has against it is the
    timer of the list of active commands, which restarts the driver and is not part of the model. *)
Theorem dropped_request_blocks n V pes scan listen es s c r es' : 0 <= n -> length V = Z.to_nat CSR_ROAM_SESSION_MAX ->
  length pes = Z.to_nat CSR_ROAM_SESSION_MAX -> Forall (step_ok V) es -> do_steps es (driver n V pes scan listen) = Some (tt, s) ->
  smeCmdActiveList (sme s) = [c] -> command c = cmd_of r -> in_flight s = [] -> Forall (step_ok V) es' ->
  runs (do_steps es') s (fun _ s' => smeCmdActiveList (sme s') = [c] /\ states s' = states s /\ in_flight s' = []).
Proof.
  intros Hn HV Hpes Hes Heq Hact Hcmd Hfl Hes'.
  destruct (runs_result _ _ _ _ _ (steps_within n V anywhere anywhere_closed es _ Hes (driver_within n V pes scan listen Hn HV Hpes)) Heq)
    as (ph & a & sts & m & v & W & _ & H & HC).
  assert (exists i, ph = Asked r i Lost) as [i ->].
  { pose proof (c_active _ _ _ _ _ HC) as Ha. rewrite <- (h_active _ _ _ _ _ _ _ _ _ _ H), Hact in Ha. destruct ph as [|r' i w].
    - destruct Ha as [|(c' & [= <-] & Hc)]; [done|]. by rewrite Hcmd, pmc_of in Hc.
    - destruct Ha as (c' & [= <-] & Hc & _). rewrite (in_flight_asked _ _ _ _ _ _ _ _ _ _ _ _ _ H HC) in Hfl.
      case_bool_decide; [subst w|done]. exists i. rewrite Hcmd in Hc. by destruct r, r'. }
  set (Q := fun ph a (sts' : list tPmcState) => ph = Asked r i Lost /\ a = [c] /\ sts' = sts).
  assert (HQ : forall ph a sts', Q ph a sts' -> (exists r i, ph = Asked r i Lost) \/ (forall ph' a' sts', Q ph' a' sts')).
  { intros ph a' sts' (-> & _). left. by exists r, i. }
  eapply runs_mono; [apply (steps_within n V Q HQ es' s Hes')|].
  - eapply (within_intro n V Q [] (Asked r i Lost) a sts m v W 0 s); [|done|done].
    split_and!; [done| |done]. by rewrite <- (h_active _ _ _ _ _ _ _ _ _ _ H).
  - intros [] s' (ph & a' & sts' & m' & v' & W' & (-> & -> & ->) & H' & HC'). split_and!; [apply H'| |].
    + rewrite (h_states _ _ _ _ _ _ _ _ _ _ H'). symmetry. apply H.
    + by rewrite (in_flight_asked _ _ _ _ _ _ _ _ _ _ _ _ _ H' HC').
Qed.

(** ** Back to full power *)

(** CSR's callback queues the commands that waited for full power. *)
Definition is_csr_routine (e : full_power_routine * Z) : bool := match e.1 with csrFullPowerOffload => true | _ => false end.
Definition queued (b : bool) (q : tSmeStruct) : tSmeStruct :=
  if b then set_roam [] (set_pending (smeCmdPendingList q ++ roamCmdPendingList q) q) else q.
Definition client_event i (st : eHalStatus) (e : full_power_routine * Z) : list event :=
  match e.1 with Full_power_client x => [Full_power x e.2 i st] | csrFullPowerOffload => [] end.

Lemma runs_csr_exact s (P : unit -> ST -> Prop) : sme_started (sme s) = true -> smeCmdActiveList (sme s) <> [] ->
  P tt (set_sme (queued true (sme s)) s) -> runs (csrFullPowerOffloadCallback kick) s P.
Proof.
  intros Hst Ha HP. unfold csrFullPowerOffloadCallback. mstep. mstep.
  eapply (runs_miter (fun _ s1 => exists l l', roamCmdPendingList (sme s) = l ++ l' /\
      s1 = set_sme (set_roam l' (set_pending (smeCmdPendingList (sme s) ++ l) (sme s))) s)
    (fun _ s1 => length (roamCmdPendingList (sme s1)))).
  - intros _ s1 (l & l' & Hl & ->). mstep. mstep. cbn [sme roamCmdPendingList set_sme set_roam]. destruct l' as [|c l'].
    + mstep. rewrite app_nil_r in Hl. subst l. exact HP.
    + unfold upd_sme. mstep. mstep. mstep. apply runs_push_busy; [exact kick_busy|done|done|]. mstep. split; [|cbn; lia].
      exists (l ++ [c]), l'. rewrite <- app_assoc. split; [done|]. unfold pushed. cbn. by rewrite <- app_assoc.
  - exists [], (roamCmdPendingList (sme s)). split; [done|]. rewrite app_nil_r. by destruct s as [[]].
  - lia.
Qed.

Lemma queued_same b q : sme_started (queued b q) = sme_started q /\ smeCmdActiveList (queued b q) = smeCmdActiveList q.
Proof. by destruct b. Qed.
Lemma queued_app l q b : queued b (queued (existsb is_csr_routine l) q) = queued (existsb is_csr_routine l || b) q.
Proof. destruct q, (existsb is_csr_routine l), b; cbn; unfold queued, set_roam, set_pending; cbn; by rewrite ?app_nil_r. Qed.

Lemma put_same i p s : aget (pmc s) i = Some p -> put i p s = s.
Proof.
  intros Hp. unfold put, upd. destruct s; cbn in *. unfold set_pmc; cbn. f_equal.
  unfold aget in Hp. case_decide; [|done]. by apply list_insert_id.
Qed.
Lemma runs_callbacks_exact s i st p (P : unit -> ST -> Prop) : sme_started (sme s) = true -> smeCmdActiveList (sme s) <> [] ->
  aget (pmc s) i = Some p ->
  P tt (set_called (called s ++ concat (client_event i st <$> fullPowerCbList p))
    (set_sme (queued (existsb is_csr_routine (fullPowerCbList p)) (sme s)) (put i (set_fullPowerCbList [] p) s))) ->
  runs (pmcOffloadDoFullPowerCallbacks kick i st) s P.
Proof.
  intros Hst Ha Hp HP. unfold pmcOffloadDoFullPowerCallbacks. mstep. eapply runs_ps_session; [done|]. cbn beta.
  set (after := fun l l' => set_called (called s ++ concat (client_event i st <$> l))
    (set_sme (queued (existsb is_csr_routine l) (sme s)) (put i (set_fullPowerCbList l' p) s))).
  assert (Hafter : forall l l', aget (pmc (after l l')) i = Some (set_fullPowerCbList l' p)).
  { intros l l'. change (pmc (after l l')) with (pmc (put i (set_fullPowerCbList l' p) s)). by eapply aget_put. }
  assert (Hput : forall l l' l'', put i (set_fullPowerCbList l'' (set_fullPowerCbList l' p)) (after l l') = after l l'').
  { intros l l' l''. unfold after, put, set_called, set_sme, set_pmc, upd. cbn. f_equal. by rewrite list_insert_insert_eq. }
  eapply (runs_miter (fun _ s1 => exists l l', fullPowerCbList p = l ++ l' /\ s1 = after l l')
    (fun _ s1 => length (default [] (callbacks i s1)))).
  - intros _ s1 (l & l' & Hl & ->). mstep. eapply runs_ps_session; [apply Hafter|]. cbn beta.
    unfold callbacks at 2. rewrite Hafter. cbn [fmap option_fmap option_map default fullPowerCbList set_fullPowerCbList].
    destruct l' as [|e l']; [mstep; rewrite app_nil_r in Hl; subst l; exact HP|]. destruct e as [r ctx].
    mstep. eapply runs_upd_ps_session; [apply Hafter|]. rewrite Hput. mstep.
    assert (Hmu : forall s', s' = after (l ++ [(r, ctx)]) l' ->
      (exists l0 l0', fullPowerCbList p = l0 ++ l0' /\ s' = after l0 l0') /\ (length (default [] (callbacks i s')) < length ((r, ctx) :: l'))%nat).
    { intros s' ->. split; [exists (l ++ [(r, ctx)]), l'; by rewrite <- app_assoc|]. unfold callbacks. rewrite Hafter. cbn. lia. }
    destruct r as [|x].
    + apply runs_csr_exact; [unfold after; cbn; by rewrite (proj1 (queued_same _ _))|unfold after; cbn; by rewrite (proj2 (queued_same _ _))|].
      mstep. apply Hmu. unfold after. rewrite existsb_app, fmap_app, concat_app.
      change (existsb is_csr_routine [(csrFullPowerOffload, ctx)]) with true. rewrite <- queued_app.
      change (concat (client_event i st <$> [(csrFullPowerOffload, ctx)])) with (@nil event). rewrite app_nil_r. done.
    + unfold call. mstep. mstep. apply Hmu. unfold after. rewrite existsb_app, fmap_app, concat_app. cbn.
      rewrite orb_false_r, app_assoc. done.
  - exists [], (fullPowerCbList p). split; [done|]. unfold after.
    rewrite (put_same i (set_fullPowerCbList (fullPowerCbList p) p)) by (by destruct p). cbn. rewrite app_nil_r. by destruct s.
  - unfold callbacks. rewrite Hp. cbn. lia.
Qed.

(** The session after the answer that it is in full power, and with the timer that was started
    again *)
Definition powered_up p : tPsOffloadPerSessionInfo :=
  let p := set_fullPowerReqPend false (set_pmcState FULL_POWER p) in
  if bool_decide (uapsdStatus p = PMC_UAPSD_DISABLE_PENDING) then set_uapsdStatus PMC_UAPSD_DISABLED p else p.
Definition with_timer (mon : bool) p : tPsOffloadPerSessionInfo :=
  if (configStaPsEnabled p || configDefStaPsEnabled p) && negb mon && (10 <=? autoPsEntryTimerPeriod p)
     && negb (bool_decide (is_Some (autoPsEnableTimer p)))
  then set_autoPsEnableTimer (Some (autoPsEntryTimerPeriod p)) p else p.

Lemma runs_restart i p s : aget (pmc s) i = Some p ->
  runs (if configStaPsEnabled p || configDefStaPsEnabled p then
      (s <- mget ;; if mon_enable s then mreturn tt
        else _ <- pmcOffloadStartAutoStaPsTimer i (autoPsEntryTimerPeriod p) ;; mreturn tt)
    else mreturn tt) s (fun _ s' => s' = put i (with_timer (mon_enable s) p) s).
Proof.
  intros Hp. unfold with_timer. destruct (configStaPsEnabled p || configDefStaPsEnabled p); cbn [andb]; [|mstep; by rewrite put_same].
  mstep. mstep. destruct (mon_enable s); cbn [negb andb]; [mstep; by rewrite put_same|].
  unfold pmcOffloadStartAutoStaPsTimer, vos_timer_start. mstep. mstep. rewrite Z.ltb_antisym.
  destruct (10 <=? autoPsEntryTimerPeriod p); cbn [negb andb]; [|repeat mstep; by rewrite put_same].
  mstep. eapply runs_ps_session; [done|]. cbn beta. destruct (autoPsEnableTimer p) as [t|]; [repeat mstep; by rewrite put_same|].
  mstep. eapply runs_upd_ps_session; [done|]. by repeat mstep.
Qed.

(** C20.  The return to full power, as a whole: the modules that registered are told the new
    state, then every callback that waits for full power is called, in order, and the list is
    empty; if CSR waits, the commands it kept back go to the end of the queue; the session is
    in full power with no request pending, and the timer runs for the configured time if power
    save is on, the device does not monitor, and it did not run. *)
Theorem full_power_is_announced s i p : sme_started (sme s) = true -> smeCmdActiveList (sme s) <> [] -> aget (pmc s) i = Some p ->
  pmcOffloadExitPowersaveState kick i s = Some (tt,
    set_called (called s
        ++ ((fun '(x, ctx) => State_change x ctx i FULL_POWER) <$> deviceStateUpdateIndList p)
        ++ concat (client_event i eHAL_STATUS_SUCCESS <$> fullPowerCbList p))
      (set_sme (queued (existsb is_csr_routine (fullPowerCbList p)) (sme s))
        (put i (with_timer (mon_enable s) (set_fullPowerCbList [] (powered_up p))) s))).
Proof.
  intros Hst Ha Hp. set (p2 := set_fullPowerCbList [] (powered_up p)).
  match goal with |- _ = Some (tt, ?x) => enough (Hr : runs (pmcOffloadExitPowersaveState kick i) s (fun _ s' => s' = x)) end.
  { destruct (runs_elim _ _ _ Hr) as ([] & s' & -> & ->). done. }
  unfold pmcOffloadExitPowersaveState. mstep. eapply (runs_upd_ps_session s i p powered_up); [done|].
  mstep. eapply runs_ps_session; [by eapply aget_put|]. cbn beta.
  assert (Hf : pmcState (powered_up p) = FULL_POWER /\ deviceStateUpdateIndList (powered_up p) = deviceStateUpdateIndList p
    /\ fullPowerCbList (powered_up p) = fullPowerCbList p) by (unfold powered_up; by case_bool_decide).
  destruct Hf as (-> & Hd & Hf).
  unfold pmcOffloadDoDeviceStateUpdateCallbacks. mstep. mstep. eapply runs_ps_session; [by eapply aget_put|]. cbn beta. mstep.
  rewrite Hd. mstep. eapply runs_callbacks_exact; [done|done|by eapply aget_put|]. rewrite Hf.
  mstep. match goal with |- runs _ ?x _ => set (s2 := x) end.
  assert (Hp2 : aget (pmc s2) i = Some p2).
  { change (pmc s2) with (pmc (put i p2 (put i (powered_up p) s))). eapply aget_put. by eapply aget_put. }
  eapply runs_ps_session; [done|]. eapply runs_mono; [by apply runs_restart|]. intros [] s3 ->.
  change (mon_enable s2) with (mon_enable s). unfold s2, put, set_called, set_sme, set_pmc, upd. cbn.
  by rewrite !list_insert_insert_eq, <- app_assoc.
Qed.

(** ** A request for U-APSD that is never made *)



(** ** A request for full power that is never made *)

(** A request for full power that is made while another is pending is only written down; when
    the command for that one could not be sent, nobody answers either. *)
Theorem full_power_request_is_swallowed s i p x ctx : aget (pmc s) i = Some p -> pmcState p <> FULL_POWER -> fullPowerReqPend p = true ->
  luck s = [] ->
  pmcOffloadRequestFullPower kick i (Some (Full_power_client x, ctx)) s
    = Some (eHAL_STATUS_PMC_PENDING, put i (set_fullPowerCbList (fullPowerCbList p ++ [(Full_power_client x, ctx)]) p) s).
Proof.
  intros Hp Hst Hpend Hl.
  enough (Hr : runs (pmcOffloadRequestFullPower kick i (Some (Full_power_client x, ctx))) s (fun st s' => st = eHAL_STATUS_PMC_PENDING
    /\ s' = put i (set_fullPowerCbList (fullPowerCbList p ++ [(Full_power_client x, ctx)]) p) s)).
  { destruct (runs_elim _ _ _ Hr) as (? & ? & -> & -> & ->). done. }
  unfold pmcOffloadRequestFullPower. mstep. eapply runs_ps_session; [done|]. rewrite bool_decide_eq_false_2 by done. rewrite Hpend.
  mstep. mstep. cbn [negb]. unfold ask. mstep. mstep. mstep. rewrite Hl. mstep. mstep. eapply runs_upd_ps_session; [done|]. by mstep.
Qed.

(** ** Witnesses *)

Section Witnesses.
#[local] Abbreviation some_open := [true; true; false; false; false].
#[local] Abbreviation d := (driver 3 some_open [true; true; true; true; true] false true).
Definition after_steps (es : list step) : ST := match do_steps es d with Some (_, s) => s | None => d end.
(** Session 0 enters power save, is asked for U-APSD, and a command needs full power. *)
Definition enter_power_save : list step := [Configure true false; Connection 0 true false; Enable_ps 0; Pe_step; Fw_step true; Sme_step].
Definition busy_day : list step :=
  enter_power_save ++ [Start_uapsd 0 (Some (7, 8)); Queue (eSmeCommandRoam true) 0 false; Drop_scans true; Queue eSmeCommandScan 0 false; Queue eSmeCommandRemainOnChannel 1 false; Pe_step; Missed_beacon 0; Fw_step true;
    Sme_step; Sme_step; Pe_step; Luck [false]; Timer 1; Fw_step true; Sme_step; Complete; Purge 0].
(** The request for U-APSD is dropped by the protocol engine. *)
Definition drop_request : list step := enter_power_save ++ [Start_uapsd 0 (Some (7, 8)); Luck [false]; Pe_step].

Lemma requests_match_witness : Forall (step_ok some_open) busy_day
  /\ runs (do_steps busy_day) d (fun _ s => (length (smeCmdActiveList (sme s)) <= 1)%nat /\ matched s /\ buffers_kept 3 s).
Proof.
  assert (H : Forall (step_ok some_open) busy_day) by (repeat constructor; vm_compute; done).
  split; [exact H|]. apply (requests_match 3 some_open); [lia|done|done|exact H].
Defined.
(** A failed request for wake on wireless LAN removes the command of the request that is
    under way: the session waits for ever, and when its answer comes nobody takes it. *)
Definition stray_answer : list step :=
  [Configure true false; Connection 0 true false; Wowl true; Enable_ps 0; Luck [false]; Pe_step; Sme_step].
Example wowl_failure_ends_a_request :
  smeCmdActiveList (sme (after_steps stray_answer)) = [] /\
  (pmcState <$> aget (pmc (after_steps stray_answer)) 0) = Some REQUEST_BMPS /\
  (power_save <$> aget (pmm (after_steps (stray_answer ++ [Pe_step; Fw_step true; Sme_step]))) 0) = Some true /\
  (pmcState <$> aget (pmc (after_steps (stray_answer ++ [Pe_step; Fw_step true; Sme_step]))) 0) = Some REQUEST_BMPS.
Proof. by vm_compute. Qed.

Lemma engine_agrees_witness : Forall (step_ok some_open) busy_day
  /\ runs (do_steps busy_day) d (fun _ s => forall i p e, aget (pmc s) i = Some p -> aget (pmm s) i = Some e ->
    power_save e = expected s i (pmcState p)).
Proof.
  assert (H : Forall (step_ok some_open) busy_day) by (repeat constructor; vm_compute; done).
  split; [exact H|]. apply (engine_agrees 3 some_open); [lia|done|done|exact H].
Defined.
Lemma dropped_request_blocks_witness : exists c, smeCmdActiveList (sme (after_steps drop_request)) = [c]
  /\ runs (do_steps busy_day) (after_steps drop_request) (fun _ s' => smeCmdActiveList (sme s') = [c]
    /\ states s' = states (after_steps drop_request) /\ in_flight s' = []).
Proof.
  eexists. split; [vm_compute; reflexivity|].
  eapply (dropped_request_blocks 3 some_open [true; true; true; true; true] false true drop_request _ _ R_ENTER_UAPSD);
    first [lia|vm_compute; reflexivity|repeat constructor; vm_compute; done].
Defined.

(** A session that is being brought back to full power, with somebody to call *)
Definition waking : ST := after_steps (enter_power_save ++ [Register_state 0 4 5; Queue (eSmeCommandRoam true) 0 false;
  Full_power_request 0 (Some (7, 8)); Pe_step; Fw_step true]).
Lemma full_power_is_announced_witness :
  exists s', pmcOffloadExitPowersaveState kick 0 waking = Some (tt, s')
    /\ called s' = [State_change 4 5 0 FULL_POWER; Full_power 7 8 0 eHAL_STATUS_SUCCESS]
    /\ length (roamCmdPendingList (sme waking)) = 1%nat /\ smeCmdPendingList (sme s') = roamCmdPendingList (sme waking).
Proof.
  eexists. split; [eapply full_power_is_announced; first [vm_compute; reflexivity|vm_compute; discriminate]|].
  split_and!; vm_compute; reflexivity.
Defined.


(** The request to leave power save could not be sent: the callback of the next request is
    never called either. *)
Definition unsent : ST := after_steps (enter_power_save ++ [Luck [false]; Full_power_request 0 (Some (7, 8))]).
Lemma full_power_request_is_swallowed_witness :
  smeCmdActiveList (sme unsent) = [] /\ smeCmdPendingList (sme unsent) = [] /\
  exists s', pmcOffloadRequestFullPower kick 0 (Some (Full_power_client 9, 9)) unsent = Some (eHAL_STATUS_PMC_PENDING, s') /\ sme s' = sme unsent.
Proof.
  split_and!; [vm_compute; reflexivity|vm_compute; reflexivity|]. eexists. split.
  - eapply full_power_request_is_swallowed; first [vm_compute; reflexivity|vm_compute; discriminate].
  - vm_compute; reflexivity.
Defined.
End Witnesses.
